(* ===== verification/_CoqProject ===== *)
-Q . S2P
Prelude.v
Bytes.v
PublicKey.v
Types.v
Encoding.v
Pda.v
Program.v
Accounts.v
Mandate.v
Payment.v
TokenAccounts.v
Borsh.v
CardConstants.v
CardAccounts.v
Decimal.v
TokenCapabilities.v
Base64.v
Dates.v
CardMath.v
CardPda.v
Utf8.v
CardInstructions.v
CardCommitment.v
Store.v
Values.v
Records.v
CardRecords.v
CardRedact.v
CardRedactProps.v
Webhooks.v
WebhookRuns.v
Storage.v
StorageRuns.v
StorageProps.v
SupportParse.v
CardGuards.v
CardGuardsProps.v
Support.v
SupportRuns.v
SupportProps.v
SupportRpc.v
SupportRpcProps.v
HttpRoutes.v
HttpProps.v
Signed.v
MandateRequest.v
MandateRequestProps.v
MandateLinks.v
Delivery.v
DeliveryProps.v
PaymentRequest.v
PaymentRequestProps.v
ReceiptReader.v
ReceiptReaderProps.v
ChainPayClient.v
ChainPayClientProps.v
MerchantProof.v
MerchantProofProps.v
MerchantDelivery.v
MerchantDeliveryProps.v
X402Challenge.v
MerchantSetup.v
X402ChallengeProps.v
CardDraft.v
CardDisclosure.v
CardRepayment.v
CrossmintOrder.v
CrossmintOrderProps.v
McpAuthorization.v
McpAuthorizationProps.v
McpConnections.v
McpConnectionsProps.v
McpFlows.v
McpFlowsProps.v
McpTools.v
McpPay.v
McpWidget.v
McpPayProps.v
McpChain.v
TicTacToe.v
