(* ===== verification/Prelude.v ===== *)
(** * ChainPay: a verification of its payment SDK, merchants, services and agents' server

    ChainPay lets an owner give an agent a mandate: a budget the agent can spend
    through a Solana program.  The repository has an on-chain program (Rust,
    programs/chainpay), a TypeScript SDK that prepares and checks transactions
    (sdk/src), a card layer on top of it (sdk/src/cards), an MCP server through
    which agents pay (mcp-server/src), a demo merchant (demo-merchant/src), a
    Rust service and the records of all of them in Convex (convex), and web
    front ends.  This library models the SDK, the card layer, the merchant, the
    payment tools and registries of the MCP server and the Convex functions,
    with the two program instructions the SDK's promises are about.

    ** How the parts interact

    An owner's wallet signs what [Mandate] builds; the program creates the
    mandate account that [Accounts] decodes.  [ChainPayClient] reads the chain
    and asks [Payment] whether a payment would settle (preflight) and for the
    transaction, which [Program.execute_payment] runs; [ReceiptReader] reads the
    receipt it leaves.  A merchant asks for a payment with a signed document
    ([PaymentRequest]) or with a 402 answer ([MerchantSetup], read back by
    [X402Challenge]), checks the proof of one ([MerchantProof]) and publishes
    what it served ([MerchantDelivery], [Delivery]); a Crossmint order becomes a
    payment through [CrossmintOrder].  An agent's call reaches the MCP server
    with a token ([McpConnections]), is authorized ([McpAuthorization]) and runs
    a tool: [McpPay] prepares through the client, submits to the relay and waits,
    [McpFlows] keeps the payment's card, [McpWidget] says what is shown;
    [McpChain] puts tool, client and program together.  A card is a mandate with
    a policy account of a second program: [CardInstructions] encodes its
    instructions, [CardAccounts] decodes its accounts, [CardPda] derives their
    addresses, [CardMath] computes what is shown and owed, [CardCommitment]
    discloses chosen fields of a private purchase, [CardRedact] keeps card data
    out of records.  Services store what happened through one Convex mutation,
    [Storage.execute], behind the authenticated endpoint of [HttpRoutes]; it
    calls [Records], [CardRecords] and [Webhooks], all within one transaction.

    ** Files and what they model

    - [Prelude]: results of functions that may throw, their notations, and
      lemmas and tactics shared by all files.
    - [Bytes], [Decimal], [Base64], [Utf8], [Dates]: little-endian reads and
      writes, hex, decimal text, atob, btoa and the URL-safe form, text encoding,
      encodeURIComponent, ISO dates.
    - [PublicKey], [Pda], [Types], [Encoding]: sdk/src/{types,pda,encoding}.ts;
      web3.js's [PublicKey] is the class [PublicKeys] with its laws, and base58
      its instance.
    - [Program]: programs/chainpay/src/{lib,policy,state}.rs, the instructions
      create_mandate and execute_payment with the constraints on their accounts
      (instructions/*.rs); the specification side.
    - [Accounts], [Mandate], [Payment], [TokenAccounts], [TokenCapabilities],
      [ReceiptReader]: the files of sdk/src of those names (token.ts,
      token-capabilities.ts, receipt.ts); [ReceiptReaderProps]: its theorems.
    - [ChainPayClient]: sdk/src/client.ts over the class [Connection];
      [ChainPayClientProps]: its theorems and a client on a concrete chain.
    - [Borsh], [CardConstants], [CardAccounts], [CardMath], [CardPda],
      [CardInstructions], [CardCommitment], [CardRedact] (with [CardRedactProps]):
      the files of the same names in sdk/src/cards (layout.ts for [Borsh]).
    - [Signed], [MandateRequest], [Delivery], [PaymentRequest]: the signed
      documents of sdk/src/{mandate-request,delivery,payment-request}.ts, over the
      classes [Ed25519] and [JsonSpec]; [MandateRequestProps], [MandateLinks],
      [DeliveryProps], [PaymentRequestProps]: their theorems.
    - [X402Challenge]: sdk/src/x402-challenge.ts and x402-adapt.ts;
      [MerchantSetup]: demo-merchant/src/{config,bootstrap,mandate-requests}.ts;
      [X402ChallengeProps]: from the merchant's configuration to the payment.
    - [CrossmintOrder]: sdk/src/crossmint-order.ts and crossmint-adapt.ts, over
      the class [TransactionCodec]; [CrossmintOrderProps]: its theorems.
    - [MerchantProof]: demo-merchant/src/{proof,app}.ts, sdk/src/x402.ts and
      transaction-reader.ts; [MerchantDelivery]: demo-merchant/src/{delivery,
      publisher}.ts as a step relation; [MerchantProofProps],
      [MerchantDeliveryProps]: their theorems.
    - [McpAuthorization], [McpConnections], [McpFlows]: the files
      authorization.ts, connections.ts, payment-flows.ts of mcp-server/src, each
      with a file of theorems ([McpAuthorizationProps] and so on).
    - [McpTools]: the argument parsing and results of mcp-server/src/tools
      (common.ts, payment-input.ts, check_payment_requirements.ts); [McpPay]:
      execute_payment.ts, settlement-submit.ts, wait_for_payment.ts, in a monad
      that keeps the sequence of effects; [McpWidget]: outcome.ts, widget/view.ts,
      known-assets.ts; [McpPayProps]: their theorems; [McpChain]: the tools over
      the modelled client and program.
    - [Store]: a Convex table as the code uses it, the class [Db] with its laws
      [DbSpec] (unique ids, index reads ordered by key) and a list model.
    - [Values]: JavaScript values of unknown type, and the class [Codec] of
      JSON.parse and JSON.stringify with a model instance.
    - [Records], [CardRecords], [Webhooks], [Storage]: convex/records.ts,
      cards.ts, webhooks.ts, storage.ts, table rows from convex/schema.ts.
    - [WebhookRuns], [StorageRuns]: the same operations as step relations; an
      operation is a step, a run is any sequence of steps by either service.
    - [StorageProps]: theorems on runs, the rate limiter, and one concrete run
      with the theorems applied to it.
    - [SupportParse], [Support], [SupportRpc]: convex/supportParse.ts, support.ts
      and supportRpc.ts, the indexer of the support vault and the relay to its
      node; [SupportRuns]: what the cursor has covered, over any runs;
      [SupportProps], [SupportRpcProps]: their theorems.
    - [HttpRoutes], [HttpProps]: convex/http.ts and its theorems.
    - [CardGuards]: frontend/src/dashboard/cards/signingGuards.ts, what the
      dashboard checks before a wallet signs a card's setup or restore;
      [CardGuardsProps]: its theorems.
    - [CardDraft]: sdk/src/cards/{draft,merchants,hash}.ts, the drafts agents
      send to the dashboard, the form one fills (amounts.ts and CardCreate.tsx of
      frontend/src/dashboard/cards) and the policy saved from it (liveSource.ts);
      with theorems.
    - [CardDisclosure]: the links of shared card records, the fragment part of
      sdk/src/cards/commitment.ts; with the theorem on what they show.
    - [CardRepayment]: frontend/src/dashboard/cards/repaymentAttempts.ts and the
      repayment dialog of CardStatement.tsx with payStatement of liveSource.ts,
      as a step relation of page, wallet and chain; with theorems.
    - [TicTacToe]: frontend/src/pet/world/tttEngine.ts, the game of the pet world.

    ** What the theorems show

    - Refinement: on accurate context, what the program executes preflight
      accepts, with the effect it announced, and what the program refuses
      preflight refuses, up to conditions preflight does not look at, which the
      theorems name ([beyond_preflight], [rows_accepted]): asset, mints and token
      programs, a legacy mandate's recipient, the token program itself, the last
      value of the counter, and for a batch repeated invoices.  The client, which
      reads the context itself and checks the accounts, leaves three of them
      ([client_accepted]); the agents' tool inherits that for the payment it
      prepared, which in delegated mode is the one it submits
      ([client_preflight_decides], [submitted_payment_settles]).  Theorems show
      counterexamples for legacy recipients and repeated invoices.
    - Payment tools: a call submits at most one settlement, of what it was asked
      for; a payment whose outcome is unknown is never shown settled or refused;
      waiting ends.
    - Merchants: the payment a challenge asks for is the one prepared from it,
      and the one the merchant checks, a v2 merchant with a nonce excepted
      ([v2_nonce_misprices]); a proof is accepted only for a settled receipt of
      the merchant's price with a transaction that carries it, and a payment the
      SDK built is; what was served is published once. A Crossmint checkout pins
      the payment, and one order is paid once.
    - Signed documents: what verifies was signed, with nothing outside the
      signature; links, statements and requests survive their encodings; a
      receipt matches the purchase it names.
    - Authorization: the storage endpoint needs a service's secret; a scoped
      connection is confined to its scope, its token works until revoked, a card
      that shows a settled payment stays as it is under any interleaving; the
      relay passes exactly transactions of the support program.
    - Round trips: account bytes, instruction data, card policies, card ids,
      cent texts and disclosure bundles decode to what was encoded and to
      nothing else; the account the program creates from the SDK's data decodes
      to what the owner asked for, and its receipt is read as what was paid.
    - Records: final records stay (Crossmint's x402 payments are not among them),
      revisions are compare-and-swap, a claim has one winner, a challenge is
      consumed once, one-time secrets are returned once, revoked connections stay
      out, and all tables keep their keys unique.
    - Webhooks: an event is emitted once, each due delivery is leased to one
      worker at a time, and the outbox invariant holds after any run.
    - Support vault: what the public summary says adds up to the balance changes
      of the transactions ingested, each once, after any runs including failing
      ones; the indexer catches up with a node that answers; anonymous givers are
      not named and foreign log lines pay nobody.
    - Card data: redaction leaves no card number in a value and no key that names
      card data, and changes nothing else; digits in keys are not looked at.
    - Shared records: a link that is read and verifies shows committed values.
    - Signing guards: a card setup or restore the dashboard lets a wallet sign is,
      in every field the chain acts on, the one the owner confirmed, and every
      such transaction passes.
    - Card drafts: a review link opens as its draft; one that matches the agent's
      digest is that agent's draft, and the rules saved from the form it fills are
      its rules, the end of the card later by at most a day and the time the form
      was open.
    - Statement repayments: a statement is paid at most once when lookups do not
      overlap; [overlapping_lookups_pay_twice] shows that they must not.
    - Tic-tac-toe: alpha-beta computes the game value, the hardest level never
      loses, games end.
    - Money: fee and refund arithmetic, statement totals and limits.

    ** Modelling choices

    A function that may throw returns a [result]; its argument order is the
    source's, so the first failing check decides the message.  A [bigint] is a
    [Z]; a [number] that must be a safe integer is a [Z] with its check; u64 and
    i64 fields wrap as [DataView] setters do and the program's additions are
    checked.  A JS string is a [string] whose characters are code units below
    256, and comparisons on them are by code unit; texts with wider characters
    are outside the model, except where [Utf8] reads and writes them as bytes.
    Promises are the values they resolve to; where two calls share state and can
    interleave, that is modelled: [McpFlows] takes the store's reads and
    compare-and-swap writes as separate steps, [MerchantDelivery] the responses
    and publications, [CardRepayment] the reads of each lookup and the stages of
    a payment.  Each Convex mutation is one step over all
    tables, which is Convex's documented isolation; an action, such as the
    support indexer, returns the tables reached with its result, as its
    mutations stay when it fails later.  Time and randomness are arguments.

    Recursion is structural, or its fuel is one of the source's own bounds or
    the length of the data consumed: the Merkle, decimal and base58 loops; three
    rounds of the compact-u16 reader (a fourth is refused by its 16 bits); the
    publisher's POST_ATTEMPTS and the card store's MAX_ATTEMPTS; the redaction
    depth of 32; the 100 pages of a mandate's history; the game search, whose
    depth of 10 exceeds the number of empty cells.  [waitForPayment] takes the
    list of its requests with the times they took; [wait_ends] shows that
    timeoutMs / pollMs + 2 of them, at most 2402, are always enough.

    Third-party code is a parameter with documented laws: [TokenCpi] (the token
    program's transfer_checked), [PublicKeys] and [Keypairs] (web3.js), [Sha256]
    (Web Crypto; soundness assumes no collision among the byte strings actually
    hashed), [Ed25519] with [Ed25519Spec], [Db] (Convex), [Codec] with [JsonSpec]
    (JSON), [UrlParser] and [X402Platform] (new URL, bs58, Buffer),
    [TransactionCodec] (the transaction format of web3.js), [MerchantHost] and
    [Rpc.t] (the replies of a node), [Connection] and [SplToken] (what the client
    reads), [McpClient] with [McpClientSpec], [PaymentFlowStore],
    [PaymentClient], [Relay] and [WidgetReads] (what the tools reach).
    [PaymentClient] is discharged by the modelled client in [McpChain]; each
    other has a concrete instance, and the witnesses of the theorems are stated
    over it. The pet world of convex/pet.ts and the migrations are arguments of
    [Storage.execute] and [HttpRoutes.storage_route].

    ** Not modelled

    The command lines and HTTP glue; the MCP tools that only read or prepare
    (thin calls of the modelled client), their presentation as text, and those
    for x402 and Crossmint, which drive third-party servers; private repayment
    and TEE attestation (network protocols of third parties); the React front
    ends, but for the signing guards, the repayment dialog and the game; the
    Rust service; the program's administration instructions; Convex crons; the
    needs of the pet, which are IEEE doubles.  The manifest lists every part
    with its status. *)
From Stdlib Require Import ZArith Lia Sorting.Sorted Strings.Byte.
From stdpp Require Import base numbers strings pretty list.
#[export] Set Default Goal Selector "!".
Open Scope Z_scope.

(** ** JavaScript results

    A function of the source either returns a value or throws an [Error]; the
    only thing callers observe of an [Error] is its message. *)

Inductive result (A : Type) : Type :=
| Ok (a : A)
| Throw (message : string).
Arguments Ok {A} a.
Arguments Throw {A} message.

Definition bind {A B} (r : result A) (k : A → result B) : result B :=
  match r with
  | Ok a => k a
  | Throw e => Throw e
  end.

Definition guard (ok : bool) (message : string) : result unit :=
  if ok then Ok tt else Throw message.

Definition result_map {A B} (f : A → B) (r : result A) : result B :=
  match r with Ok a => Ok (f a) | Throw e => Throw e end.

(** [Array.prototype.map] with a callback that may throw: left to right, the
    first error wins. *)
Fixpoint traverse {A B} (f : A → result B) (l : list A) : result (list B) :=
  match l with
  | [] => Ok []
  | a :: l => bind (f a) (λ b, bind (traverse f l) (λ bs, Ok (b :: bs)))
  end.

(** An argument list or array literal whose elements may throw: evaluated left
    to right. *)
Definition sequence {A} (l : list (result A)) : result (list A) := traverse (λ r, r) l.

Definition is_ok {A} (r : result A) : bool :=
  match r with Ok _ => true | Throw _ => false end.

Declare Scope js_scope.
Delimit Scope js_scope with js.
Notation "'let!' x ':=' r 'in' k" := (bind r (λ x, k))
  (at level 10, x pattern, r at level 100, k at level 200) : js_scope.
Notation "'assert!' b 'else' m ';' k" := (bind (guard b m) (λ _ : unit, k))
  (at level 10, b at level 100, m at level 100, k at level 200) : js_scope.
Notation "'throw_if!' b 'with' m ';' k" := (if b then Throw m else k)
  (at level 10, b at level 100, m at level 100, k at level 200) : js_scope.
Open Scope js_scope.

(** ** Lemmas on results *)

Lemma bind_ok {A B} (r : result A) (k : A → result B) b :
  bind r k = Ok b → ∃ a, r = Ok a ∧ k a = Ok b.
Proof. destruct r; simpl; [eauto | done]. Qed.

Lemma bind_throw {A B} (r : result A) (k : A → result B) e :
  bind r k = Throw e → r = Throw e ∨ ∃ a, r = Ok a ∧ k a = Throw e.
Proof. destruct r; simpl; [eauto | intros [= ->]; auto]. Qed.

Lemma guard_ok b m u : guard b m = Ok u → b = true.
Proof. by destruct b. Qed.

Lemma guard_true b m : b = true → guard b m = Ok tt.
Proof. by intros ->. Qed.

Lemma if_throw_ok {A} (b : bool) m (k : result A) a :
  (if b then Throw m else k) = Ok a → b = false ∧ k = Ok a.
Proof. by destruct b. Qed.

Lemma traverse_ok {A B} (f : A → result B) l bs :
  traverse f l = Ok bs ↔ Forall2 (λ a b, f a = Ok b) l bs.
Proof.
  revert bs; induction l as [|a l IH]; intros bs; simpl.
  { split; [intros [= <-]; constructor | inversion 1; done]. }
  split.
  - intros (b & Hb & (bs' & Hbs & [= <-])%bind_ok)%bind_ok.
    constructor; [done | by apply IH].
  - inversion_clear 1 as [|? b ? bs' Hb Hbs].
    rewrite Hb. simpl. apply IH in Hbs. by rewrite Hbs.
Qed.

Lemma traverse_length {A B} (f : A → result B) l bs :
  traverse f l = Ok bs → length bs = length l.
Proof. intros H. apply traverse_ok, Forall2_length in H. done. Qed.

Lemma sequence_ok {A} (l : list (result A)) xs :
  sequence l = Ok xs ↔ l = map Ok xs.
Proof.
  unfold sequence. rewrite traverse_ok. split.
  - induction 1 as [|r x l xs -> _ IH]; simpl; [done | by rewrite IH].
  - intros ->. induction xs; simpl; by constructor.
Qed.

Lemma is_ok_true {A} (r : result A) : is_ok r = true ↔ ∃ a, r = Ok a.
Proof. destruct r; simpl; split; try done; [eauto | by intros (? & ?)]. Qed.

(** ** Tactics *)

(** [inv_ok H] peels every step of a computation that returned: a bound call
    gives its equation, a guard or a conditional throw gives its boolean. *)
Ltac inv_ok H :=
  lazymatch type of H with
  | bind (guard _ _) _ = Ok _ =>
      let u := fresh "u" in let G := fresh "G" in
      apply bind_ok in H; destruct H as (u & G & H); apply guard_ok in G; cbv beta in H; clear u; inv_ok H
  | bind _ _ = Ok _ =>
      let a := fresh "a" in let E := fresh "E" in
      apply bind_ok in H; destruct H as (a & E & H); cbv beta in H; inv_ok H
  | (if _ then Throw _ else _) = Ok _ =>
      let G := fresh "G" in
      apply if_throw_ok in H; destruct H as (G & H); inv_ok H
  | Ok _ = Ok _ => first [injection H as H | clear H]
  | Throw _ = Ok _ => discriminate H
  | _ => idtac
  end.

(** Split boolean connectives in the context and reflect the integer tests. *)
Ltac bool_reflect :=
  repeat match goal with
  | H : negb _ = true |- _ => apply negb_true_iff in H
  | H : negb _ = false |- _ => apply negb_false_iff in H
  | H : (_ && _)%bool = true |- _ => apply andb_true_iff in H; destruct H
  | H : (_ || _)%bool = false |- _ => apply orb_false_iff in H; destruct H
  | H : (_ <? _)%Z = true |- _ => apply Z.ltb_lt in H
  | H : (_ <? _)%Z = false |- _ => apply Z.ltb_ge in H
  | H : (_ <=? _)%Z = true |- _ => apply Z.leb_le in H
  | H : (_ <=? _)%Z = false |- _ => apply Z.leb_gt in H
  | H : (_ =? _)%Z = true |- _ => apply Z.eqb_eq in H
  | H : (_ =? _)%Z = false |- _ => apply Z.eqb_neq in H
  | H : bool_decide _ = true |- _ => apply bool_decide_eq_true in H
  | H : bool_decide _ = false |- _ => apply bool_decide_eq_false in H
  end.

(** Case analysis on every test of the goal. *)
Ltac case_tests :=
  repeat match goal with
  | |- context [if ?b then _ else _] =>
      lazymatch b with context [if _ then _ else _] => fail | _ => idtac end;
      let E := fresh "E" in destruct b eqn:E
  end.

(** ** JavaScript numbers

    A [number] is integral, fractional, NaN or infinite.  The code only ever
    compares a fractional number with integers and with itself, so the model
    keeps its floor and a name for its fractional part: [JFrac f p] lies
    strictly between [f] and [f + 1]. *)

Inductive number : Type :=
| JInt (z : Z)
| JFrac (floor : Z) (fraction : positive)
| JNaN
| JInfinity (positive : bool).

#[export] Instance number_eq_dec : EqDecision number.
Proof. solve_decision. Defined.

(** [Number.isInteger] *)
Definition isInteger (n : number) : bool :=
  match n with JInt _ => true | _ => false end.

(** [n < c] for an integer constant [c] *)
Definition num_ltb (n : number) (c : Z) : bool :=
  match n with
  | JInt z => z <? c
  | JFrac f _ => f <? c
  | JNaN => false
  | JInfinity positive => negb positive
  end.

(** [n > c] for an integer constant [c] *)
Definition num_gtb (n : number) (c : Z) : bool :=
  match n with
  | JInt z => c <? z
  | JFrac f _ => c <=? f
  | JNaN => false
  | JInfinity positive => positive
  end.

(** [BigInt(n)] of a number already known to be integral. *)
Definition bigint_of (n : number) : Z :=
  match n with JInt z => z | _ => 0 end.

(** [!Number.isInteger(n) || n < lo || n > hi]: the range test every encoder makes. *)
Definition out_of_range (n : number) (lo hi : Z) : bool :=
  negb (isInteger n) || num_ltb n lo || num_gtb n hi.

Lemma in_range_inv n lo hi :
  out_of_range n lo hi = false → ∃ z, n = JInt z ∧ lo <= z <= hi.
Proof.
  unfold out_of_range. destruct n as [z| | |]; simpl; try done.
  intros H; bool_reflect. exists z; split; [done | lia].
Qed.

Lemma in_range_int z lo hi : lo <= z <= hi → out_of_range (JInt z) lo hi = false.
Proof.
  intros H. unfold out_of_range; simpl.
  apply orb_false_iff; split; apply Z.ltb_ge; lia.
Qed.

(** Machine-integer limits used across the layouts. *)
Definition U64_MAX : Z := 18446744073709551615.
Definition I64_MIN : Z := -9223372036854775808.
Definition I64_MAX : Z := 9223372036854775807.

(** ** Lists *)

Lemma take_drop_app_eq {A} (n : nat) (l k : list A) :
  length l = n → take n (l ++ k) = l ∧ drop n (l ++ k) = k.
Proof. intros <-. split; [apply take_app_length | apply drop_app_length]. Qed.

Lemma forallb_impl {A} (p q : A → bool) l :
  (∀ a, p a = true → q a = true) → forallb p l = true → forallb q l = true.
Proof. intros Hpq. rewrite !forallb_forall. eauto. Qed.

(** ** Sorting

    [Array.prototype.sort]: insertion keeps equal elements in their order. *)
Fixpoint insert_by {A} (leb : A → A → bool) (x : A) (l : list A) : list A :=
  match l with
  | [] => [x]
  | y :: l => if leb x y then x :: y :: l else y :: insert_by leb x l
  end.

Definition sort_by {A} (leb : A → A → bool) (l : list A) : list A := foldr (insert_by leb) [] l.

Lemma insert_by_perm {A} (leb : A → A → bool) x l : insert_by leb x l ≡ₚ x :: l.
Proof.
  induction l as [|y l IH]; simpl; [done|]. case_tests; [done|]. rewrite IH. apply Permutation_swap.
Qed.

Lemma sort_by_perm {A} (leb : A → A → bool) l : sort_by leb l ≡ₚ l.
Proof. induction l as [|x l IH]; simpl; [done|]. by rewrite insert_by_perm, IH. Qed.

Lemma sort_by_elem {A} (leb : A → A → bool) l y : y ∈ sort_by leb l ↔ y ∈ l.
Proof. by rewrite sort_by_perm. Qed.

Lemma sort_by_sorted {A} (leb : A → A → bool) l :
  (∀ x y, leb x y = false → leb y x = true) →
  (∀ x y z, leb x y = true → leb y z = true → leb x z = true) →
  StronglySorted (λ x y, leb x y = true) (sort_by leb l).
Proof.
  intros Htotal Htrans. induction l as [|x l IH]; simpl; [constructor|].
  induction IH as [|y k Hk IH Hy]; simpl; [repeat constructor|]. destruct (leb x y) eqn:E.
  - constructor; [by constructor|]. constructor; [done|]. eapply Forall_impl; [done|]. simpl. eauto.
  - constructor; [done|]. rewrite insert_by_perm. constructor; auto.
Qed.

(** ** Hints shared by the components *)
Create HintDb js discriminated.
#[export] Hint Resolve guard_true in_range_int : js.
