(* ===== verification/Bytes.v ===== *)
(** * Byte arrays

    [Uint8Array] values are lists of bytes.  This file holds what the layouts
    use of them: [DataView] reads and writes of little-endian integers (values
    wrap modulo [2 ^ (8 * n)], as the setters do), [slice], and lowercase hex
    as [Number.prototype.toString(16)] and [padStart(2, "0")] print it. *)
From Stdlib Require Import ZArith Lia Strings.Byte Strings.Ascii.
From stdpp Require Import base numbers strings list.
From S2P Require Import Prelude.

Abbreviation bytes := (list byte).

#[export] Instance byte_eq_dec : EqDecision byte := Byte.byte_eq_dec.

(** ** One byte *)

Definition byte_val (b : byte) : Z := Z.of_N (Byte.to_N b).

Definition byte_of (z : Z) : byte :=
  default x00 (Byte.of_N (Z.to_N (z mod 256))).

(** [Uint8Array.from] over integer literals *)
Definition bytes_of_Zs (zs : list Z) : bytes := map byte_of zs.

Lemma byte_val_range b : 0 <= byte_val b < 256.
Proof. unfold byte_val. pose proof (Byte.to_N_bounded b). lia. Qed.

Lemma byte_val_of z : byte_val (byte_of z) = z mod 256.
Proof.
  unfold byte_val, byte_of.
  pose proof (Z.mod_pos_bound z 256 ltac:(lia)) as Hz.
  destruct (Byte.of_N (Z.to_N (z mod 256))) as [b|] eqn:E; simpl.
  - apply Byte.to_of_N in E. rewrite E. lia.
  - apply Byte.of_N_None_iff in E. lia.
Qed.

Lemma byte_of_val b : byte_of (byte_val b) = b.
Proof.
  unfold byte_of, byte_val. pose proof (byte_val_range b) as Hb. unfold byte_val in Hb.
  rewrite Z.mod_small, N2Z.id by lia. by rewrite Byte.of_to_N.
Qed.

Lemma byte_val_inj a b : byte_val a = byte_val b → a = b.
Proof. intros E. by rewrite <- (byte_of_val a), <- (byte_of_val b), E. Qed.

Lemma byte_of_small z : 0 <= z < 256 → byte_val (byte_of z) = z.
Proof. intros. rewrite byte_val_of. by apply Z.mod_small. Qed.

(** ** Little-endian integers *)

(** [DataView.prototype.setUint*(0, value, true)] into a fresh array of [n] bytes *)
Fixpoint le_bytes (n : nat) (z : Z) : bytes :=
  match n with
  | O => []
  | S n => byte_of z :: le_bytes n (z / 256)
  end.

(** [DataView.prototype.getUint*(_, true)] *)
Fixpoint le_val (bs : bytes) : Z :=
  match bs with
  | [] => 0
  | b :: bs => byte_val b + 256 * le_val bs
  end.

(** [DataView.prototype.getBigInt64(_, true)]: the two's complement reading *)
Definition le_signed (bs : bytes) : Z :=
  let m := 256 ^ Z.of_nat (length bs) in
  let v := le_val bs in if v <? m / 2 then v else v - m.

Lemma le_bytes_length n z : length (le_bytes n z) = n.
Proof. revert z; induction n as [|n IH]; intros z; simpl; [done | by rewrite IH]. Qed.

Lemma pow256_pos n : 0 < 256 ^ Z.of_nat n.
Proof. apply Z.pow_pos_nonneg; lia. Qed.

Lemma pow256_S n : 256 ^ Z.of_nat (S n) = 256 * 256 ^ Z.of_nat n.
Proof. rewrite Nat2Z.inj_succ, Z.pow_succ_r; lia. Qed.

Lemma le_val_bytes n z : le_val (le_bytes n z) = z mod 256 ^ Z.of_nat n.
Proof.
  revert z; induction n as [|n IH]; intros z; cbn [le_bytes le_val].
  { by rewrite Z.mod_1_r. }
  rewrite IH, byte_val_of, pow256_S.
  pose proof (pow256_pos n).
  by rewrite Z.rem_mul_r by lia.
Qed.

Lemma le_val_bytes_small n z : 0 <= z < 256 ^ Z.of_nat n → le_val (le_bytes n z) = z.
Proof. intros. rewrite le_val_bytes. by apply Z.mod_small. Qed.

Lemma le_val_range bs : 0 <= le_val bs < 256 ^ Z.of_nat (length bs).
Proof.
  induction bs as [|b bs IH]; cbn [le_val length]; [lia|].
  rewrite pow256_S. pose proof (byte_val_range b). nia.
Qed.

Lemma le_bytes_val bs : le_bytes (length bs) (le_val bs) = bs.
Proof.
  induction bs as [|b bs IH]; [done|]. cbn [le_val length le_bytes].
  pose proof (byte_val_range b).
  f_equal.
  - apply byte_val_inj. rewrite byte_val_of.
    rewrite (Z.mul_comm 256), Z.mod_add by lia. by apply Z.mod_small.
  - rewrite (Z.mul_comm 256), Z.div_add by lia.
    rewrite Z.div_small by lia. by rewrite Z.add_0_l.
Qed.

Lemma le_val_inj a b : length a = length b → le_val a = le_val b → a = b.
Proof. intros L E. by rewrite <- (le_bytes_val a), <- (le_bytes_val b), L, E. Qed.

Lemma le_signed_bytes8 z : I64_MIN <= z <= I64_MAX → le_signed (le_bytes 8 z) = z.
Proof.
  intros H. unfold le_signed. rewrite le_bytes_length, le_val_bytes.
  change (256 ^ Z.of_nat 8) with 18446744073709551616.
  unfold I64_MIN, I64_MAX in H.
  change (18446744073709551616 / 2) with 9223372036854775808.
  destruct (Z_lt_ge_dec z 0).
  - replace (z mod 18446744073709551616) with (z + 18446744073709551616).
    + case_tests; bool_reflect; lia.
    + rewrite <- (Z_mod_plus_full z 1). symmetry. apply Z.mod_small. lia.
  - rewrite Z.mod_small by lia. case_tests; bool_reflect; lia.
Qed.

Lemma le_signed_range8 bs : length bs = 8%nat → I64_MIN <= le_signed bs <= I64_MAX.
Proof.
  intros L. unfold le_signed. pose proof (le_val_range bs) as R. rewrite L in *.
  change (256 ^ Z.of_nat 8) with 18446744073709551616 in *.
  change (18446744073709551616 / 2) with 9223372036854775808.
  unfold I64_MIN, I64_MAX. case_tests; bool_reflect; lia.
Qed.

Lemma le_val_range8 bs : length bs = 8%nat → 0 <= le_val bs <= U64_MAX.
Proof.
  intros L. pose proof (le_val_range bs) as R. rewrite L in R.
  change (256 ^ Z.of_nat 8) with 18446744073709551616 in R. unfold U64_MAX. lia.
Qed.

(** ** Slices *)

(** [data.slice(offset, offset + n)]: shorter than [n] past the end *)
Definition slice (data : bytes) (offset n : nat) : bytes := take n (drop offset data).

Lemma slice_length data o n : (o + n <= length data)%nat → length (slice data o n) = n.
Proof. intros. unfold slice. rewrite length_take, length_drop. lia. Qed.

Lemma slice_app_r (a b : bytes) o n : (length a <= o)%nat → slice (a ++ b) o n = slice b (o - length a) n.
Proof.
  intros. unfold slice.
  replace o with (length a + (o - length a))%nat at 1 by lia.
  by rewrite <- drop_drop, drop_app_length.
Qed.

Lemma slice_app_here (a b : bytes) n : length a = n → slice (a ++ b) 0 n = a.
Proof. intros <-. unfold slice. rewrite drop_0. apply take_app_length. Qed.

Lemma slice_all (a : bytes) n : length a = n → slice a 0 n = a.
Proof. intros <-. unfold slice. rewrite drop_0. by apply take_ge. Qed.

(** [value.some((byte) => byte !== 0)] *)
Definition some_nonzero (bs : bytes) : bool := existsb (λ b, negb (byte_val b =? 0)) bs.

Definition zero_bytes (n : nat) : bytes := replicate n x00.

Lemma some_nonzero_false bs : some_nonzero bs = false ↔ bs = zero_bytes (length bs).
Proof.
  unfold some_nonzero, zero_bytes. induction bs as [|b bs IH]; simpl; [done|].
  rewrite orb_false_iff, negb_false_iff, Z.eqb_eq, IH.
  split.
  - intros [E1 E2]. f_equal; [|done]. apply byte_val_inj. by rewrite E1.
  - intros [= -> E]. done.
Qed.

(** ** Lowercase hex *)

Definition hex_digit (n : Z) : ascii :=
  ascii_of_N (Z.to_N (if n <? 10 then 48 + n else 87 + n)).

Definition hex_value (c : ascii) : option Z :=
  let n := Z.of_N (N_of_ascii c) in
  if (48 <=? n) && (n <=? 57) then Some (n - 48)
  else if (97 <=? n) && (n <=? 102) then Some (n - 87)
  else None.

Fixpoint bytesToHex (bs : bytes) : string :=
  match bs with
  | [] => EmptyString
  | b :: bs => String (hex_digit (byte_val b / 16)) (String (hex_digit (byte_val b mod 16)) (bytesToHex bs))
  end.

Fixpoint hex_pairs (s : string) : option bytes :=
  match s with
  | EmptyString => Some []
  | String _ EmptyString => None
  | String c (String d s) =>
      match hex_value c, hex_value d, hex_pairs s with
      | Some h, Some l, Some bs => Some (byte_of (16 * h + l) :: bs)
      | _, _, _ => None
      end
  end.

Lemma hex_value_digit n : 0 <= n < 16 → hex_value (hex_digit n) = Some n.
Proof.
  intros H.
  assert (n ∈ seqZ 0 16) as Hin by (apply elem_of_seqZ; lia).
  revert Hin. apply (proj1 (Forall_forall (λ n, hex_value (hex_digit n) = Some n) (seqZ 0 16))).
  repeat constructor.
Qed.

Lemma hex_pairs_bytesToHex bs : hex_pairs (bytesToHex bs) = Some bs.
Proof.
  induction bs as [|b bs IH]; [done|]. cbn [bytesToHex hex_pairs].
  pose proof (byte_val_range b).
  rewrite !hex_value_digit, IH.
  - by rewrite <- Z.div_mod, byte_of_val by lia.
  - apply Z.mod_pos_bound; lia.
  - split; [apply Z.div_pos | apply Z.div_lt_upper_bound]; lia.
Qed.

Lemma bytesToHex_inj a b : bytesToHex a = bytesToHex b → a = b.
Proof.
  intros E. apply (f_equal hex_pairs) in E. rewrite !hex_pairs_bytesToHex in E. by injection E.
Qed.

Lemma bytesToHex_length bs : String.length (bytesToHex bs) = (2 * length bs)%nat.
Proof. induction bs as [|b bs IH]; simpl; [done | rewrite IH; lia]. Qed.

#[global] Arguments le_bytes : simpl never.
#[global] Arguments le_val : simpl never.
#[global] Arguments byte_of : simpl never.
#[global] Arguments byte_val : simpl never.
#[global] Arguments slice : simpl never.
#[global] Arguments bytes_of_Zs : simpl never.

#[export] Hint Resolve le_val_range8 le_signed_range8 byte_val_range : js.
