(* ===== verification/PublicKey.v ===== *)
(** * Solana addresses

    [PublicKey] belongs to @solana/web3.js, which is not part of the
    repository.  The class [PublicKeys] holds the three entry points the SDK
    calls; [PublicKeysSpec] states what it relies on: a key is 32 bytes, and
    base58 is a bijection between keys and the strings the constructor
    accepts.  [Base58] is a concrete model of both classes (the base58 text
    encoding, with a stand-in for program-address search); the witnesses of
    the development are stated over it. *)
From Stdlib Require Import ZArith Lia Strings.Byte Strings.Ascii.
From stdpp Require Import base numbers strings list.
From S2P Require Import Prelude Bytes.

Class PublicKeys : Type := {
  (** [new PublicKey(value: string).toBytes()] *)
  newPublicKey : string → result bytes;
  (** [new PublicKey(bytes).toBase58()] *)
  toBase58 : bytes → string;
  (** [PublicKey.findProgramAddressSync(seeds, programId)[0].toBytes()] *)
  findProgramAddress : list bytes → bytes → result bytes;
}.

Class PublicKeysSpec (K : PublicKeys) : Prop := {
  newPublicKey_length s b : newPublicKey s = Ok b → length b = 32%nat;
  newPublicKey_toBase58 b : length b = 32%nat → newPublicKey (toBase58 b) = Ok b;
  toBase58_newPublicKey s b : newPublicKey s = Ok b → toBase58 b = s;
  findProgramAddress_length seeds p b : findProgramAddress seeds p = Ok b → length b = 32%nat;
}.

(** ** Positional digits, least significant first *)
Section Digits.
Context (base : Z) (Hbase : 1 < base).

Fixpoint digits (fuel : nat) (n : Z) : list Z :=
  match fuel with
  | O => []
  | S fuel => if n =? 0 then [] else n mod base :: digits fuel (n / base)
  end.

Fixpoint value (ds : list Z) : Z :=
  match ds with
  | [] => 0
  | d :: ds => d + base * value ds
  end.

Definition digit_range (ds : list Z) : Prop := Forall (λ d, 0 <= d < base) ds.

(** No leading zero: the last (most significant) digit is not 0. *)
Definition trimmed (ds : list Z) : Prop := last ds ≠ Some 0.

Lemma value_range ds : digit_range ds → 0 <= value ds < base ^ Z.of_nat (length ds).
Proof.
  induction 1 as [|d ds Hd _ IH]; cbn [value length]; [lia|].
  rewrite Nat2Z.inj_succ, Z.pow_succ_r by lia. nia.
Qed.

Lemma value_digits fuel n : 0 <= n < base ^ Z.of_nat fuel → value (digits fuel n) = n.
Proof.
  revert n; induction fuel as [|fuel IH]; intros n H; cbn [digits].
  { change (base ^ Z.of_nat 0) with 1 in H. simpl. lia. }
  rewrite Nat2Z.inj_succ, Z.pow_succ_r in H by lia.
  destruct (n =? 0) eqn:E; bool_reflect; [simpl; lia|]. cbn [value].
  rewrite IH; [pose proof (Z.div_mod n base); lia|].
  split; [apply Z.div_pos; lia | apply Z.div_lt_upper_bound; lia].
Qed.

Lemma digits_range fuel n : 0 <= n → digit_range (digits fuel n).
Proof.
  revert n; induction fuel as [|fuel IH]; intros n H; cbn [digits]; [constructor|].
  destruct (n =? 0); constructor.
  - apply Z.mod_pos_bound. lia.
  - apply IH, Z.div_pos; lia.
Qed.

Lemma digits_nonempty fuel n : n ≠ 0 → 0 <= n < base ^ Z.of_nat fuel → digits fuel n ≠ [].
Proof. intros Hn H E. apply (f_equal value) in E. rewrite value_digits in E by done. done. Qed.

Lemma last_cons_nonempty (d : Z) ds : ds ≠ [] → last (d :: ds) = last ds.
Proof. by destruct ds. Qed.

Lemma digits_trimmed fuel n : 0 <= n < base ^ Z.of_nat fuel → trimmed (digits fuel n).
Proof.
  unfold trimmed.
  revert n; induction fuel as [|fuel IH]; intros n H; cbn [digits]; [done|].
  destruct (n =? 0) eqn:E; bool_reflect; [done|].
  rewrite Nat2Z.inj_succ, Z.pow_succ_r in H by lia.
  assert (0 <= n / base < base ^ Z.of_nat fuel) as H'.
  { split; [apply Z.div_pos; lia | apply Z.div_lt_upper_bound; lia]. }
  destruct (decide (n / base = 0)) as [E0|Hne].
  - assert (digits fuel (n / base) = []) as -> by (rewrite E0; by destruct fuel).
    simpl. intros [= Hm]. pose proof (Z.div_mod n base). lia.
  - rewrite last_cons_nonempty by (by apply digits_nonempty). by apply IH.
Qed.

Lemma trimmed_tail d ds : trimmed (d :: ds) → trimmed ds.
Proof. unfold trimmed. by destruct ds. Qed.

Lemma value_zero ds : digit_range ds → trimmed ds → value ds = 0 → ds = [].
Proof.
  induction 1 as [|d ds Hd Hds IH]; [done|]. intros Ht Hv. cbn [value] in Hv.
  pose proof (value_range _ Hds).
  assert (d = 0 ∧ value ds = 0) as [-> Hv'] by nia.
  rewrite (IH (trimmed_tail _ _ Ht) Hv') in Ht. by destruct Ht.
Qed.

Lemma value_lower ds :
  digit_range ds → trimmed ds → ds ≠ [] → base ^ Z.of_nat (length ds - 1) <= value ds.
Proof.
  induction 1 as [|d ds Hd Hds IH]; [done|]. intros Ht _. cbn [value].
  destruct ds as [|d' ds'].
  { simpl. unfold trimmed in Ht. simpl in Ht. assert (d ≠ 0) by congruence. lia. }
  set (ds := d' :: ds') in *. specialize (IH (trimmed_tail _ _ Ht) ltac:(done)).
  replace (Z.of_nat (length (d :: ds) - 1)) with (Z.succ (Z.of_nat (length ds - 1)))
    by (subst ds; simpl; lia).
  rewrite Z.pow_succ_r by lia. nia.
Qed.

Lemma digits_value fuel ds :
  digit_range ds → trimmed ds → (length ds <= fuel)%nat → digits fuel (value ds) = ds.
Proof.
  intros Hds; revert fuel; induction Hds as [|d ds Hd Hds IH]; intros fuel Ht Hf.
  { by destruct fuel. }
  destruct fuel as [|fuel]; simpl in Hf; [lia|]. cbn [digits].
  pose proof (value_range _ Hds).
  destruct (value (d :: ds) =? 0) eqn:E; bool_reflect.
  { apply value_zero in E; [done | by constructor | done]. }
  cbn [value].
  assert ((d + base * value ds) mod base = d) as ->.
  { rewrite (Z.mul_comm base), Z.mod_add by lia. apply Z.mod_small. lia. }
  assert ((d + base * value ds) / base = value ds) as ->.
  { rewrite (Z.mul_comm base), Z.div_add by lia. rewrite Z.div_small by lia. lia. }
  f_equal. apply IH; [by eapply trimmed_tail | lia].
Qed.
End Digits.

(** ** The base58 alphabet *)

Definition alphabet : list ascii :=
  String.list_ascii_of_string "123456789ABCDEFGHJKLMNPQRSTUVWXYZabcdefghijkmnopqrstuvwxyz".

Definition char58 (d : Z) : ascii := nth (Z.to_nat d) alphabet "1"%char.

Fixpoint index_of (c : ascii) (l : list ascii) : option Z :=
  match l with
  | [] => None
  | a :: l => if Ascii.eqb c a then Some 0 else Z.succ <$> index_of c l
  end.

Definition digit58 (c : ascii) : option Z := index_of c alphabet.

Lemma digit58_char58 d : 0 <= d < 58 → digit58 (char58 d) = Some d.
Proof.
  intros H.
  assert (d ∈ seqZ 0 58) as Hin by (apply elem_of_seqZ; lia).
  revert Hin. apply (proj1 (Forall_forall (λ d, digit58 (char58 d) = Some d) (seqZ 0 58))).
  repeat constructor.
Qed.

Lemma index_of_Some c l d :
  index_of c l = Some d → 0 <= d < Z.of_nat (length l) ∧ nth (Z.to_nat d) l "1"%char = c.
Proof.
  revert d; induction l as [|a l IH]; intros d; simpl; [done|].
  destruct (Ascii.eqb c a) eqn:E.
  - intros [= <-]. apply Ascii.eqb_eq in E. split; [lia|done].
  - destruct (index_of c l) as [d'|]; simpl; [|done]. intros [= <-].
    destruct (IH d' eq_refl) as [Hr Hn]. split; [lia|].
    by replace (Z.to_nat (Z.succ d')) with (S (Z.to_nat d')) by lia.
Qed.

Lemma char58_digit58 c d : digit58 c = Some d → 0 <= d < 58 ∧ char58 d = c.
Proof. apply index_of_Some. Qed.

(** ** Leading runs *)
Section Leading.
Context {A : Type} `{EqDecision A} (z : A).

Fixpoint leading (l : list A) : nat :=
  match l with
  | [] => O
  | a :: l => if decide (a = z) then S (leading l) else O
  end.

Lemma leading_split l : l = replicate (leading l) z ++ drop (leading l) l.
Proof. induction l as [|a l IH]; simpl; [done|]. case_decide; simpl; [by subst; f_equal | done]. Qed.

Lemma leading_rest l : head (drop (leading l) l) ≠ Some z.
Proof. induction l as [|a l IH]; simpl; [done|]. case_decide; simpl; [done | congruence]. Qed.

Lemma leading_app n l : head l ≠ Some z → leading (replicate n z ++ l) = n.
Proof.
  intros Hl. induction n as [|n IH]; simpl.
  - destruct l as [|a l]; simpl in *; [done|]. case_decide; [congruence | done].
  - rewrite decide_True by done. by rewrite IH.
Qed.
End Leading.

(** ** Base58 text *)

Definition int_of_bytes (bs : bytes) : Z := value 256 (reverse (map byte_val bs)).

Definition base58_encode (bs : bytes) : string :=
  let n := leading x00 bs in
  let rest := drop n bs in
  String.string_of_list_ascii
    (replicate n "1"%char ++ map char58 (reverse (digits 58 (2 * length rest) (int_of_bytes rest)))).

Definition base58_decode (s : string) : option bytes :=
  let cs := String.list_ascii_of_string s in
  let n := leading "1"%char cs in
  let rest := drop n cs in
  ds ← mapM digit58 rest;
  Some (replicate n x00 ++ map byte_of (reverse (digits 256 (length rest) (value 58 (reverse ds))))).

Lemma digit_range_rev base ds : digit_range base ds → digit_range base (reverse ds).
Proof. unfold digit_range. by rewrite Forall_reverse. Qed.

Lemma trimmed_rev ds : trimmed (reverse ds) ↔ head ds ≠ Some 0.
Proof. unfold trimmed. by rewrite last_reverse. Qed.

Lemma byte_digits_range bs : digit_range 256 (map byte_val bs).
Proof. apply Forall_map, Forall_true, byte_val_range. Qed.

Lemma head_map_byte_val bs : head bs ≠ Some x00 → head (map byte_val bs) ≠ Some 0.
Proof.
  destruct bs as [|b bs]; simpl; [done|]. intros H [= E]. apply H. f_equal.
  by apply byte_val_inj.
Qed.

Lemma map_byte_of_val bs : map byte_of (map byte_val bs) = bs.
Proof. rewrite map_map. rewrite <- (map_id bs) at 2. apply map_ext, byte_of_val. Qed.

Lemma map_byte_val_of ds : digit_range 256 ds → map byte_val (map byte_of ds) = ds.
Proof.
  intros H. rewrite map_map. induction H as [|d ds Hd _ IH]; [done|].
  simpl. by rewrite IH, byte_of_small.
Qed.

Lemma mapM_digit58 ds : digit_range 58 ds → mapM digit58 (map char58 ds) = Some ds.
Proof.
  induction 1 as [|d ds Hd _ IH]; [done|]. simpl.
  by rewrite digit58_char58, IH by done.
Qed.

Lemma mapM_char58 cs ds : mapM digit58 cs = Some ds → digit_range 58 ds ∧ map char58 ds = cs.
Proof.
  intros H. apply mapM_Some in H.
  induction H as [|c d cs ds H _ [IH1 IH2]]; [split; constructor|].
  apply char58_digit58 in H as [Hd <-]. split; [by constructor | simpl; by f_equal].
Qed.

Lemma value256_bound (bs : bytes) :
  0 <= int_of_bytes bs < 58 ^ Z.of_nat (2 * length bs).
Proof.
  pose proof (value_range 256 ltac:(lia) _ (digit_range_rev _ _ (byte_digits_range bs))) as H.
  fold (int_of_bytes bs) in H. rewrite length_reverse, length_map in H. split; [lia|].
  eapply Z.lt_le_trans; [apply H|].
  rewrite Nat2Z.inj_mul, Z.pow_mul_r by lia. apply Z.pow_le_mono_l. lia.
Qed.

(** The decoder's fuel, one base-256 digit per base58 digit, is enough. *)
Lemma decoded_fuel (rest : bytes) (ds : list Z) :
  head rest ≠ Some x00 → digit_range 58 ds → value 58 ds = int_of_bytes rest →
  (length (reverse (map byte_val rest)) <= length ds)%nat.
Proof.
  intros Hhd Hds Hv. destruct (decide (rest = [])) as [->|Hne]; [simpl; lia|].
  pose proof (digit_range_rev _ _ (byte_digits_range rest)) as Hr.
  pose proof (value_lower 256 ltac:(lia) _ Hr) as Hlow.
  pose proof (value_range 58 ltac:(lia) _ Hds) as Hup.
  rewrite Hv in Hup. unfold int_of_bytes in Hup.
  assert (reverse (map byte_val rest) ≠ []) as Hne'.
  { intros E. apply Hne. apply (f_equal (@length _)) in E. rewrite length_reverse, length_map in E.
    by apply nil_length_inv. }
  specialize (Hlow (proj2 (trimmed_rev _) (head_map_byte_val _ Hhd)) Hne').
  set (k := length (reverse (map byte_val rest))) in *.
  assert (256 ^ Z.of_nat (k - 1) < 256 ^ Z.of_nat (length ds)) as Hlt.
  { eapply Z.le_lt_trans; [apply Hlow|]. eapply Z.lt_le_trans; [apply Hup|].
    apply Z.pow_le_mono_l. lia. }
  apply Z.pow_lt_mono_r_iff in Hlt; lia.
Qed.

Lemma base58_decode_encode bs : base58_decode (base58_encode bs) = Some bs.
Proof.
  unfold base58_decode, base58_encode. set (n := leading x00 bs). set (rest := drop n bs).
  pose proof (value256_bound rest) as Hb. set (v := int_of_bytes rest) in *.
  set (ds := digits 58 (2 * length rest) v).
  assert (digit_range 58 ds) as Hds by (apply digits_range; lia).
  assert (head (map char58 (reverse ds)) ≠ Some "1"%char) as Hhd.
  { assert (head (reverse ds) ≠ Some 0) as H0.
    { apply trimmed_rev. rewrite reverse_involutive. by apply digits_trimmed. }
    apply digit_range_rev in Hds. destruct (reverse ds) as [|d l]; simpl in *; [done|].
    apply Forall_cons in Hds as [Hd _]. intros [= E]. apply H0. f_equal.
    apply (f_equal digit58) in E. rewrite digit58_char58 in E by done. by injection E. }
  rewrite String.list_ascii_of_string_of_list_ascii.
  rewrite !leading_app, !drop_app_length' by (done || by rewrite length_replicate).
  rewrite mapM_digit58 by by apply digit_range_rev. simpl. f_equal.
  rewrite reverse_involutive, length_map, length_reverse. fold (int_of_bytes rest). fold v.
  assert (value 58 ds = v) as -> by (by apply value_digits).
  transitivity (replicate n x00 ++ rest); [|symmetry; apply leading_split]. f_equal.
  assert (digits 256 (length ds) v = reverse (map byte_val rest)) as ->.
  { apply digits_value; [lia | apply digit_range_rev, byte_digits_range | |].
    - apply trimmed_rev, head_map_byte_val. apply leading_rest.
    - apply decoded_fuel; [apply leading_rest | done | by apply value_digits]. }
  rewrite reverse_involutive. apply map_byte_of_val.
Qed.

Lemma head_map_char58 ds : digit_range 58 ds → head (map char58 ds) ≠ Some "1"%char → head ds ≠ Some 0.
Proof. destruct ds as [|d ds]; simpl; [done|]. intros _ H [= ->]. by apply H. Qed.

Lemma value58_bound ds k :
  digit_range 58 ds → (length ds <= k)%nat → 0 <= value 58 ds < 256 ^ Z.of_nat k.
Proof.
  intros Hds Hk. pose proof (value_range 58 ltac:(lia) _ Hds) as H. split; [lia|].
  eapply Z.lt_le_trans; [apply H|].
  etransitivity; [apply Z.pow_le_mono_l with (b := 256); lia|].
  apply Z.pow_le_mono_r; lia.
Qed.

(** The encoder's fuel, two base58 digits per byte, is enough. *)
Lemma encoded_fuel (ds : list Z) (bd : list Z) :
  digit_range 58 ds → trimmed ds → digit_range 256 bd → value 256 bd = value 58 ds →
  (length ds <= 2 * length bd)%nat.
Proof.
  intros Hds Ht Hbd Hv. destruct (decide (ds = [])) as [->|Hne]; [simpl; lia|].
  pose proof (value_lower 58 ltac:(lia) _ Hds Ht Hne) as Hlow.
  pose proof (value_range 256 ltac:(lia) _ Hbd) as Hup. rewrite Hv in Hup.
  assert (58 ^ Z.of_nat (length ds - 1) < 58 ^ Z.of_nat (2 * length bd)) as Hlt.
  { eapply Z.le_lt_trans; [apply Hlow|]. eapply Z.lt_le_trans; [apply Hup|].
    rewrite Nat2Z.inj_mul, Z.pow_mul_r by lia. apply Z.pow_le_mono_l. lia. }
  apply Z.pow_lt_mono_r_iff in Hlt; lia.
Qed.

Lemma base58_encode_decode s bs : base58_decode s = Some bs → base58_encode bs = s.
Proof.
  unfold base58_decode, base58_encode. set (cs := String.list_ascii_of_string s).
  set (n := leading "1"%char cs). set (rest := drop n cs).
  intros (ds & Hm & [= <-])%bind_Some. apply mapM_char58 in Hm as [Hds Hrest].
  pose proof (digit_range_rev _ _ Hds) as Hrds.
  assert (trimmed (reverse ds)) as Htr.
  { apply trimmed_rev, head_map_char58; [done|]. rewrite Hrest. apply leading_rest. }
  assert (length rest = length ds) as Hlen by (by rewrite <- Hrest, length_map).
  pose proof (value58_bound (reverse ds) (length rest) Hrds ltac:(rewrite length_reverse; lia)) as Hb.
  set (v := value 58 (reverse ds)) in *. set (bd := digits 256 (length rest) v).
  assert (digit_range 256 bd) as Hbd by (apply digits_range; lia).
  assert (head (map byte_of (reverse bd)) ≠ Some x00) as Hhd.
  { assert (head (reverse bd) ≠ Some 0) as H0.
    { apply trimmed_rev. rewrite reverse_involutive. by apply digits_trimmed. }
    apply digit_range_rev in Hbd. destruct (reverse bd) as [|d l]; simpl in *; [done|].
    apply Forall_cons in Hbd as [Hd _]. intros [= E]. apply H0. f_equal.
    apply (f_equal byte_val) in E. by rewrite byte_of_small in E. }
  rewrite !leading_app, !drop_app_length' by (done || by rewrite length_replicate).
  assert (value 256 bd = v) as Hv by (by apply value_digits).
  unfold int_of_bytes. rewrite map_byte_val_of by by apply digit_range_rev.
  rewrite reverse_involutive, Hv, length_map, length_reverse.
  subst v. rewrite digits_value; [| lia | done | done | by apply encoded_fuel].
  rewrite reverse_involutive, Hrest. unfold rest, n. rewrite <- leading_split.
  apply String.string_of_list_ascii_of_string.
Qed.

(** ** A concrete model of the classes *)

Definition base58_public_key (s : string) : result bytes :=
  match base58_decode s with
  | Some b => if decide (length b = 32%nat) then Ok b else Throw "Invalid public key input"
  | None => Throw "Non-base58 character"
  end.

(** Stand-in for the program-address search: 32 bytes computed from every seed
    and the program id (each byte is mixed into a running sum). *)
Definition mix (bs : bytes) : bytes :=
  let h := fold_left (λ h b, (h * 257 + byte_val b + 1) mod 2 ^ 255) bs 7 in
  le_bytes 32 h.

Definition model_program_address (seeds : list bytes) (program : bytes) : result bytes :=
  if forallb (λ s, Nat.leb (length s) 32) seeds then Ok (mix (concat seeds ++ program))
  else Throw "Max seed length exceeded".

Module Base58.
#[export] Instance keys : PublicKeys := {
  newPublicKey := base58_public_key;
  toBase58 := base58_encode;
  findProgramAddress := model_program_address;
}.

#[export] Instance keys_spec : PublicKeysSpec keys.
Proof.
  constructor; simpl; unfold base58_public_key, model_program_address.
  - intros s b H. repeat case_match; by simplify_eq.
  - intros b L. rewrite base58_decode_encode. by rewrite decide_True.
  - intros s b H. repeat case_match; simplify_eq. by apply base58_encode_decode.
  - intros seeds p b H. case_match; simplify_eq. apply le_bytes_length.
Qed.
End Base58.
