(* ===== verification/Types.v ===== *)
(** * Data of the SDK

    The types of [sdk/src/types.ts] and the constants of [sdk/src/constants.ts]
    that the modelled operations use.  Each record type is a module so its
    fields keep their source names ([Mandate.totalLimit]).  A [bigint] is a
    [Z]; an optional field is an [option]; a union of string literals is an
    inductive type. *)
From Stdlib Require Import ZArith Lia Strings.Byte.
From stdpp Require Import base numbers strings list.
From S2P Require Import Prelude Bytes.

(** Base58 text of a public key. *)
Abbreviation Address := string.

Inductive TokenProgram : Type := spl_token | token_2022.

#[export] Instance TokenProgram_eq_dec : EqDecision TokenProgram.
Proof. solve_decision. Defined.

Module AccountMeta.
Record t : Type := mk { address : Address; isSigner : bool; isWritable : bool }.
End AccountMeta.

Module ChainPayInstruction.
Record t : Type := mk {
  name : string;
  programId : Address;
  keys : list AccountMeta.t;
  data : bytes;
}.
End ChainPayInstruction.

Module PreparedTransaction.
Record t : Type := mk {
  instructions : list ChainPayInstruction.t;
  requiredSigners : list Address;
  feePayer : option Address;
}.
End PreparedTransaction.

Inductive MandateStatus : Type := active | paused | revoked | expired.

#[export] Instance MandateStatus_eq_dec : EqDecision MandateStatus.
Proof. solve_decision. Defined.

Definition MandateStatus_to_string (s : MandateStatus) : string :=
  match s with
  | active => "active" | paused => "paused" | revoked => "revoked" | expired => "expired"
  end.

Inductive PaymentStatus : Type := prepared | submitted | confirmed | failed.

Module Mandate.
Record t : Type := mk {
  address : Address;
  owner : Address;
  approvedAgent : Address;
  sourceTokenAccount : Address;
  allowedMint : Address;
  legacyAllowedRecipient : option Address;
  maxPerPayment : Z;
  totalLimit : Z;
  amountSpent : Z;
  paymentCount : Z;
  expiresAtSlot : Z;
  maxPaymentCount : Z;
  cooldownSlots : Z;
  lastPaymentSlot : Z;
  paused : bool;
  revoked : bool;
  status : MandateStatus;
  tokenProgram : option TokenProgram;
  mandateNonce : option Address;
}.
End Mandate.

Module SupportedAsset.
Record t : Type := mk {
  address : Address;
  authority : Address;
  mint : Address;
  tokenProgram : Address;
  enabled : bool;
  bump : Z;
}.
End SupportedAsset.

Module ProtocolConfig.
Record t : Type := mk {
  address : option Address;
  authority : Address;
  supportedMints : list Address;
  bump : Z;
}.
End ProtocolConfig.

Module ReceiptPolicySnapshot.
Record t : Type := mk {
  version : Z;
  maxPerPayment : Z;
  totalLimit : Z;
  amountSpentAfter : Z;
  paymentCountAfter : Z;
  maxPaymentCount : Z;
  expiresAtSlot : Z;
  cooldownSlots : Z;
}.
End ReceiptPolicySnapshot.

Module PaymentReceipt.
Record t : Type := mk {
  address : Address;
  mandate : Address;
  invoiceHash : bytes;
  paymentId : bytes;
  mint : Address;
  recipient : Address;
  sourceTokenAccount : Address;
  recipientTokenAccount : Address;
  amount : Z;
  agent : Address;
  executedAtSlot : Z;
  signatureReference : bytes;
  status : PaymentStatus;
  onChainStatus : Z;
  bump : Z;
  transactionSignature : option string;
  policySnapshot : option ReceiptPolicySnapshot.t;
}.
End PaymentReceipt.

Module PaymentRequest.
Record t : Type := mk {
  mandate : Address;
  invoiceHash : bytes;
  paymentId : bytes;
  signatureReference : bytes;
  mint : Address;
  recipient : Address;
  amount : Z;
  tokenProgram : option TokenProgram;
}.
End PaymentRequest.

Module PolicyCheck.
Record t : Type := mk { name : string; ok : bool; message : string }.
End PolicyCheck.

Module PaymentPreflightContext.
Record t : Type := mk {
  sourceBalance : Z;
  sourceOwner : Address;
  delegate : option Address;
  delegatedAmount : Z;
}.
End PaymentPreflightContext.

Module PaymentPreflight.
Record t : Type := mk { valid : bool; currentSlot : Z; checks : list PolicyCheck.t }.
End PaymentPreflight.

Module BatchPreflightEntry.
Record t : Type := mk {
  request : PaymentRequest.t;
  mandate : Mandate.t;
  agent : option Address;
  receiptAlreadyExists : option bool;
  sourceContext : option PaymentPreflightContext.t;
}.
End BatchPreflightEntry.

Module PreparedEntry.
Record t : Type := mk {
  request : PaymentRequest.t;
  mandate : Address;
  preflight : PaymentPreflight.t;
}.
End PreparedEntry.

Module PaymentBatchPreflight.
Record t : Type := mk {
  valid : bool;
  currentSlot : Z;
  entries : list PreparedEntry.t;
  batchChecks : list PolicyCheck.t;
}.
End PaymentBatchPreflight.

Module PreparedMandate.
Record t : Type := mk {
  mandateAddress : Address;
  configAddress : Address;
  transaction : PreparedTransaction.t;
}.
End PreparedMandate.

(** ** constants.ts *)

Definition DEFAULT_PROGRAM_ID : Address := "3H9TV1EPR2BAQgVmcMqpufiZKPXbAMnjHp13LA9Lndv4".
Definition SYSTEM_PROGRAM_ID : Address := "11111111111111111111111111111111".
Definition SPL_TOKEN_PROGRAM_ID : Address := "TokenkegQfeZyiNwAJbNbGKPFXCWuBvf9Ss623VQ5DA".
Definition TOKEN_2022_PROGRAM_ID : Address := "TokenzQdBNbLqP5VEhdkAS6EPFLC1PHnBqCXEpPxuEb".

Module DISCRIMINATORS.
Definition initializeConfig : bytes := bytes_of_Zs [208; 127; 21; 1; 194; 190; 196; 70].
Definition createMandate : bytes := bytes_of_Zs [230; 170; 158; 68; 33; 169; 16; 158].
Definition executePayment : bytes := bytes_of_Zs [86; 4; 7; 7; 120; 139; 232; 139].
Definition pauseMandate : bytes := bytes_of_Zs [192; 108; 97; 124; 56; 229; 236; 3].
Definition revokeMandate : bytes := bytes_of_Zs [252; 97; 140; 119; 67; 43; 177; 108].
Definition updateMandate : bytes := bytes_of_Zs [69; 131; 248; 29; 105; 50; 139; 30].
Definition registerAsset : bytes := bytes_of_Zs [21; 80; 155; 149; 117; 207; 235; 16].
Definition setAssetStatus : bytes := bytes_of_Zs [58; 54; 181; 102; 68; 238; 240; 245].
Definition approveChecked : bytes := bytes_of_Zs [13].
Definition revokeDelegate : bytes := bytes_of_Zs [5].
End DISCRIMINATORS.

Module ACCOUNT_DISCRIMINATORS.
Definition protocolConfig : bytes := bytes_of_Zs [207; 91; 250; 28; 152; 179; 215; 209].
Definition supportedAsset : bytes := bytes_of_Zs [129; 27; 96; 192; 89; 180; 227; 200].
Definition paymentMandate : bytes := bytes_of_Zs [139; 106; 43; 122; 82; 211; 96; 162].
Definition paymentReceipt : bytes := bytes_of_Zs [168; 198; 209; 4; 60; 235; 126; 109].
End ACCOUNT_DISCRIMINATORS.

Definition MANDATE_SEED : string := "mandate".
Definition MANDATE_NONCE_PREFIX : bytes := bytes_of_Zs [67; 80; 78; 79; 78; 67; 69; 33].
Definition CONFIG_SEED : string := "config".
Definition RECEIPT_SEED : string := "receipt".
Definition ASSET_SEED : string := "asset".

Definition RECEIPT_STATUS_SETTLED : Z := 1.
Definition RECEIPT_ACCOUNT_LENGTH : nat := 282.
Definition RECEIPT_ACCOUNT_LENGTH_V2 : nat := 371.
Definition MANDATE_ACCOUNT_LENGTH : nat := 235.
