(* ===== verification/Encoding.v ===== *)
(** * Wire encoding (sdk/src/encoding.ts)

    Address parsing, bounds-checked reads, the Anchor instruction encoders and
    the instruction constructor.  The lemmas give each read on a concatenation
    and each write's length, which the account and instruction layouts use. *)
From Stdlib Require Import ZArith Lia Strings.Byte.
From stdpp Require Import base numbers strings list.
From S2P Require Import Prelude Bytes PublicKey Types.

Section Encoding.
Context `{K : PublicKeys}.

Definition publicKey (value : Address) : result bytes :=
  match newPublicKey value with
  | Ok k => Ok k
  | Throw _ => Throw ("Invalid Solana address: " +:+ value)
  end.

Definition address (value : Address) : result Address :=
  let! k := publicKey value in Ok (toBase58 k).

Definition bytes32 (value : bytes) (name : string) : result bytes :=
  throw_if! negb (Nat.eqb (length value) 32) with (name +:+ " must be exactly 32 bytes");
  Ok value.

Definition writeU64 (value : Z) (name : string) : result bytes :=
  throw_if! (value <? 0) || (U64_MAX <? value)
    with (name +:+ " must fit in an unsigned 64-bit integer");
  Ok (le_bytes 8 value).

Definition readU64 (data : bytes) (offset : nat) : result Z :=
  throw_if! Nat.ltb (length data) (offset + 8) with "Account data ended while reading u64";
  Ok (le_val (slice data offset 8)).

Definition readU8 (data : bytes) (offset : nat) : result Z :=
  match data !! offset with
  | None => Throw "Account data ended while reading u8"
  | Some b => Ok (byte_val b)
  end.

Definition readBytes32 (data : bytes) (offset : nat) (name : string) : result bytes :=
  throw_if! Nat.ltb (length data) (offset + 32)
    with ("Account data ended while reading " +:+ name);
  Ok (slice data offset 32).

(** The comparison loop: stops at the first differing byte. *)
Fixpoint discriminator_matches (data discriminator : bytes) : bool :=
  match discriminator, data with
  | [], _ => true
  | d :: discriminator, b :: data => bool_decide (b = d) && discriminator_matches data discriminator
  | _ :: _, [] => false
  end.

Definition assertDiscriminator (data discriminator : bytes) (accountName : string) : result unit :=
  throw_if! Nat.ltb (length data) (length discriminator)
    with (accountName +:+ " account data is truncated");
  throw_if! negb (discriminator_matches data discriminator)
    with ("Invalid " +:+ accountName +:+ " account discriminator");
  Ok tt.

Definition readPublicKey (data : bytes) (offset : nat) : result Address :=
  throw_if! Nat.ltb (length data) (offset + 32) with "Account data ended while reading public key";
  Ok (toBase58 (slice data offset 32)).

Definition isMandateNonce (value : Address) : result bool :=
  let! k := publicKey value in Ok (discriminator_matches k MANDATE_NONCE_PREFIX).

(** [concat(...parts)] where evaluating a part may throw *)
Definition concat_parts (parts : list (result bytes)) : result bytes :=
  let! ps := sequence parts in Ok (concat ps).

Definition meta (value : Address) (isWritable isSigner : bool) : result AccountMeta.t :=
  let! a := address value in Ok (AccountMeta.mk a isSigner isWritable).

Definition tokenProgramAddress (tokenProgram : TokenProgram) : Address :=
  match tokenProgram with
  | token_2022 => TOKEN_2022_PROGRAM_ID
  | spl_token => SPL_TOKEN_PROGRAM_ID
  end.

Definition tokenProgramFromAddress (value : Address) : result (option TokenProgram) :=
  let! normalized := address value in
  if bool_decide (normalized = tokenProgramAddress spl_token) then Ok (Some spl_token)
  else if bool_decide (normalized = tokenProgramAddress token_2022) then Ok (Some token_2022)
  else Ok None.

Definition instruction (name : string) (programId : Address)
    (keys : list AccountMeta.t) (data : bytes) : result ChainPayInstruction.t :=
  let! p := address programId in Ok (ChainPayInstruction.mk name p keys data).

Definition bool_byte (b : bool) : bytes := [byte_of (if b then 1 else 0)].

Definition encodeCreateMandate (approvedAgent sourceTokenAccount allowedMint : Address)
    (maxPerPayment totalLimit expiresAtSlot maxPaymentCount cooldownSlots : Z)
    (mandateNonce : Address) : result bytes :=
  concat_parts [
    Ok DISCRIMINATORS.createMandate;
    publicKey approvedAgent;
    publicKey sourceTokenAccount;
    publicKey allowedMint;
    writeU64 maxPerPayment "maxPerPayment";
    writeU64 totalLimit "totalLimit";
    writeU64 expiresAtSlot "expiresAtSlot";
    writeU64 maxPaymentCount "maxPaymentCount";
    writeU64 cooldownSlots "cooldownSlots";
    publicKey mandateNonce].

Definition encodeInitializeConfig (supportedMints : list Address) : result bytes :=
  throw_if! negb (Nat.eqb (length supportedMints) 3)
    with "initialize_config requires exactly three mint slots";
  concat_parts (Ok DISCRIMINATORS.initializeConfig :: map publicKey supportedMints).

Definition encodeRegisterAsset (mint : Address) : result bytes :=
  concat_parts [Ok DISCRIMINATORS.registerAsset; publicKey mint].

Definition encodeSetAssetStatus (enabled : bool) : bytes :=
  DISCRIMINATORS.setAssetStatus ++ bool_byte enabled.

Definition encodeUpdateMandate (approvedAgent : Address)
    (maxPerPayment totalLimit expiresAtSlot maxPaymentCount cooldownSlots : Z)
    (paused : bool) : result bytes :=
  concat_parts [
    Ok DISCRIMINATORS.updateMandate;
    publicKey approvedAgent;
    writeU64 maxPerPayment "maxPerPayment";
    writeU64 totalLimit "totalLimit";
    writeU64 expiresAtSlot "expiresAtSlot";
    writeU64 maxPaymentCount "maxPaymentCount";
    writeU64 cooldownSlots "cooldownSlots";
    Ok (bool_byte paused)].

Definition encodePayment (invoiceHash paymentId signatureReference : bytes) (amount : Z)
    : result bytes :=
  concat_parts [
    Ok DISCRIMINATORS.executePayment;
    bytes32 invoiceHash "invoiceHash";
    bytes32 paymentId "paymentId";
    bytes32 signatureReference "signatureReference";
    writeU64 amount "amount"].

Definition encodePauseMandate : bytes := DISCRIMINATORS.pauseMandate.

Definition encodeRevokeMandate : bytes := DISCRIMINATORS.revokeMandate.

Definition encodeApproveChecked (amount : Z) (decimals : number) : result bytes :=
  throw_if! out_of_range decimals 0 255 with "Token decimals must be between 0 and 255";
  concat_parts [
    Ok DISCRIMINATORS.approveChecked;
    writeU64 amount "delegateAmount";
    Ok [byte_of (bigint_of decimals)]].

Definition encodeRevokeDelegate : bytes := DISCRIMINATORS.revokeDelegate.

Definition systemProgramMeta : result AccountMeta.t := meta SYSTEM_PROGRAM_ID false false.
End Encoding.

(** ** Addresses *)
Section AddressLemmas.
Context `{K : PublicKeys, KS : !PublicKeysSpec K}.

(** A string the [PublicKey] constructor accepts. *)
Definition valid_address (s : Address) : Prop := ∃ k, newPublicKey s = Ok k.

Lemma publicKey_new s k : newPublicKey s = Ok k → publicKey s = Ok k.
Proof. unfold publicKey. by intros ->. Qed.

Lemma publicKey_ok s k : publicKey s = Ok k → length k = 32%nat ∧ toBase58 k = s.
Proof.
  unfold publicKey. destruct (newPublicKey s) eqn:E; [|done]. intros [= <-].
  split; [by eapply newPublicKey_length | by apply toBase58_newPublicKey].
Qed.

Lemma publicKey_valid s k : publicKey s = Ok k → valid_address s.
Proof. unfold publicKey, valid_address. destruct (newPublicKey s); [eauto | done]. Qed.

Lemma publicKey_toBase58 k : length k = 32%nat → publicKey (toBase58 k) = Ok k.
Proof. intros. by apply publicKey_new, newPublicKey_toBase58. Qed.

Lemma publicKey_inj s t k : publicKey s = Ok k → publicKey t = Ok k → s = t.
Proof. intros [_ <-]%publicKey_ok [_ <-]%publicKey_ok. done. Qed.

Lemma toBase58_inj j k :
  length j = 32%nat → length k = 32%nat → toBase58 j = toBase58 k → j = k.
Proof.
  intros Hj Hk E. apply newPublicKey_toBase58 in Hj, Hk. rewrite E in Hj. congruence.
Qed.

Lemma address_valid s : valid_address s → address s = Ok s.
Proof.
  intros (k & Hk). unfold address. rewrite (publicKey_new _ _ Hk). simpl.
  by rewrite (toBase58_newPublicKey _ _ Hk).
Qed.

Lemma address_ok s a : address s = Ok a → a = s ∧ valid_address s.
Proof.
  unfold address. intros H. inv_ok H. subst a.
  split; [by apply publicKey_ok in E as [_ ->] | by eapply publicKey_valid].
Qed.

Lemma valid_toBase58 k : length k = 32%nat → valid_address (toBase58 k).
Proof. intros. eexists. by apply newPublicKey_toBase58. Qed.

Lemma meta_valid s w g : valid_address s → meta s w g = Ok (AccountMeta.mk s g w).
Proof. intros H. unfold meta. by rewrite address_valid. Qed.

Lemma meta_ok s w g m : meta s w g = Ok m → m = AccountMeta.mk s g w ∧ valid_address s.
Proof. unfold meta. intros H. inv_ok H. apply address_ok in E as [-> ?]. done. Qed.

Lemma instruction_valid n p ks d :
  valid_address p → instruction n p ks d = Ok (ChainPayInstruction.mk n p ks d).
Proof. intros H. unfold instruction. by rewrite address_valid. Qed.

Lemma instruction_ok n p ks d i :
  instruction n p ks d = Ok i → i = ChainPayInstruction.mk n p ks d ∧ valid_address p.
Proof. unfold instruction. intros H. inv_ok H. apply address_ok in E as [-> ?]. done. Qed.
End AddressLemmas.

(** ** Writes *)

Lemma writeU64_ok z n bs : writeU64 z n = Ok bs → 0 <= z <= U64_MAX ∧ bs = le_bytes 8 z.
Proof. unfold writeU64. intros H. inv_ok H. bool_reflect. done. Qed.

Lemma writeU64_in_range z n : 0 <= z <= U64_MAX → writeU64 z n = Ok (le_bytes 8 z).
Proof.
  intros H. unfold writeU64.
  destruct (z <? 0) eqn:E1; bool_reflect; [lia|]. destruct (U64_MAX <? z) eqn:E2; bool_reflect; [lia|].
  done.
Qed.

Lemma u64_le_val z : 0 <= z <= U64_MAX → le_val (le_bytes 8 z) = z.
Proof.
  unfold U64_MAX. intros H. apply le_val_bytes_small.
  change (256 ^ Z.of_nat 8) with 18446744073709551616. lia.
Qed.

Lemma bytes32_ok v n bs : bytes32 v n = Ok bs → bs = v ∧ length v = 32%nat.
Proof. unfold bytes32. intros H. inv_ok H. bool_reflect. by apply Nat.eqb_eq in G. Qed.

Lemma bytes32_valid v n : length v = 32%nat → bytes32 v n = Ok v.
Proof. intros H. unfold bytes32. by rewrite H. Qed.

Lemma concat_parts_ok parts bs :
  concat_parts parts = Ok bs → ∃ ps, parts = map Ok ps ∧ bs = concat ps.
Proof. unfold concat_parts. intros H. inv_ok H. apply sequence_ok in E. eauto. Qed.

(** ** Reads *)

Lemma readU64_slice data o :
  (o + 8 <= length data)%nat → readU64 data o = Ok (le_val (slice data o 8)).
Proof. intros H. unfold readU64. by rewrite (proj2 (Nat.ltb_ge _ _)). Qed.

Lemma readBytes32_slice data o n :
  (o + 32 <= length data)%nat → readBytes32 data o n = Ok (slice data o 32).
Proof. intros H. unfold readBytes32. by rewrite (proj2 (Nat.ltb_ge _ _)). Qed.

Lemma readPublicKey_slice `{K : PublicKeys} data o :
  (o + 32 <= length data)%nat → readPublicKey data o = Ok (toBase58 (slice data o 32)).
Proof. intros H. unfold readPublicKey. by rewrite (proj2 (Nat.ltb_ge _ _)). Qed.

(** The byte at [o], as a read at a known-good offset returns it. *)
Definition byte_at (data : bytes) (o : nat) : Z := byte_val (nth 0 (slice data o 1) x00).

Lemma readU8_byte_at data o : (o < length data)%nat → readU8 data o = Ok (byte_at data o).
Proof.
  intros H. apply lookup_lt_is_Some in H as (b & Hb). unfold readU8, byte_at, slice. rewrite Hb.
  apply drop_S in Hb. by rewrite Hb.
Qed.

Lemma discriminator_matches_prefix data d :
  discriminator_matches data d = true ↔ d `prefix_of` data.
Proof.
  revert data; induction d as [|x d IH]; intros [|y data]; simpl.
  - split; [intros; apply prefix_nil | done].
  - split; [intros; apply prefix_nil | done].
  - split; [done | by intros ?%prefix_nil_inv].
  - rewrite andb_true_iff, bool_decide_eq_true, IH. split.
    + intros [-> ?]. by apply prefix_cons.
    + intros H. split; [symmetry; by eapply prefix_cons_inv_1 | by eapply prefix_cons_inv_2].
Qed.

Lemma assertDiscriminator_app d rest n : assertDiscriminator (d ++ rest) d n = Ok tt.
Proof.
  unfold assertDiscriminator. rewrite (proj2 (Nat.ltb_ge _ _)) by (rewrite length_app; lia).
  rewrite (proj2 (discriminator_matches_prefix _ _)); [done | by apply prefix_app_r].
Qed.

Lemma assertDiscriminator_ok data d n u : assertDiscriminator data d n = Ok u → d `prefix_of` data.
Proof.
  unfold assertDiscriminator. intros H. inv_ok H. bool_reflect.
  by apply discriminator_matches_prefix.
Qed.

(** [slices] evaluates every [slice] of a right-nested concatenation whose
    segments have known lengths; [seg_len] discharges the length goals. *)
Ltac seg_len := rewrite ?length_app, ?le_bytes_length, ?length_replicate; simpl; lia.

Ltac slices :=
  repeat first
    [ rewrite slice_app_here by seg_len
    | rewrite slice_all by seg_len
    | rewrite slice_app_r by seg_len;
      rewrite ?le_bytes_length, ?length_replicate;
      repeat match goal with L : length ?a = _ |- context [slice _ (_ - length ?a) _] => rewrite L end;
      cbn [length Nat.sub] ].

#[export] Hint Resolve address_valid meta_valid instruction_valid valid_toBase58
  publicKey_toBase58 writeU64_in_range bytes32_valid : js.

(** Addresses an instruction requires a signature from. *)
Definition signers (i : ChainPayInstruction.t) : list Address :=
  map AccountMeta.address (filter (λ k, k.(AccountMeta.isSigner) = true) i.(ChainPayInstruction.keys)).

(** A list of metas as (address, isWritable, isSigner) rows. *)
Definition meta_row (row : Address * bool * bool) : AccountMeta.t :=
  AccountMeta.mk row.1.1 row.2 row.1.2.

Lemma sequence_metas `{K : PublicKeys, KS : !PublicKeysSpec K} (ms : list (Address * bool * bool)) ks :
  sequence (map (λ row, meta row.1.1 row.1.2 row.2) ms) = Ok ks → ks = map meta_row ms.
Proof.
  intros H. apply sequence_ok in H. revert ks H.
  induction ms as [|[[a w] s] ms IH]; intros [|k ks]; cbn [map]; try done.
  intros [= H1 H2]. apply meta_ok in H1 as [-> _]. f_equal. by apply IH.
Qed.

(** A key made of a number, for the concrete instances. *)
Definition sample_key (n : Z) : bytes := le_bytes 32 n.
