(* ===== verification/Pda.v ===== *)
(** * Program-derived addresses (sdk/src/pda.ts)

    Seeds are evaluated left to right, then the program id is parsed, then the
    address search runs. *)
From Stdlib Require Import ZArith Lia Strings.Byte Strings.String.
From stdpp Require Import base numbers strings list.
From S2P Require Import Prelude Bytes PublicKey Types Encoding.

(** [Buffer.from(text)] and [TextEncoder.encode] on the ASCII seeds *)
Definition utf8 (s : string) : bytes := String.list_byte_of_string s.

Section Pda.
Context `{K : PublicKeys}.

(** [PublicKey.findProgramAddressSync(seeds, publicKey(programId))[0].toBase58()] *)
Definition find_pda (seeds : list (result bytes)) (programId : Address) : result Address :=
  let! ss := sequence seeds in
  let! p := publicKey programId in
  let! a := findProgramAddress ss p in
  Ok (toBase58 a).

Definition deriveConfigAddress (programId : Address) : result Address :=
  find_pda [Ok (utf8 CONFIG_SEED)] programId.

Definition deriveLegacyMandateAddress (owner programId : Address) : result Address :=
  find_pda [Ok (utf8 MANDATE_SEED); publicKey owner] programId.

Definition deriveMintMandateAddress (owner allowedMint programId : Address) : result Address :=
  find_pda [Ok (utf8 MANDATE_SEED); publicKey owner; publicKey allowedMint] programId.

Definition deriveVersionedMandateAddress (owner allowedMint mandateNonce programId : Address)
    : result Address :=
  find_pda [Ok (utf8 MANDATE_SEED); publicKey owner; publicKey allowedMint; publicKey mandateNonce]
    programId.

Definition deriveMandateAddress (owner programId : Address) (allowedMint : option Address)
    : result Address :=
  match allowedMint with
  | None => deriveLegacyMandateAddress owner programId
  | Some mint => deriveMintMandateAddress owner mint programId
  end.

Definition deriveReceiptAddress (mandate : Address) (invoiceHash : bytes) (programId : Address)
    : result Address :=
  find_pda [Ok (utf8 RECEIPT_SEED); publicKey mandate; bytes32 invoiceHash "invoiceHash"] programId.

Definition deriveAssetAddress (mint programId : Address) : result Address :=
  find_pda [Ok (utf8 ASSET_SEED); publicKey mint] programId.

Context `{KS : !PublicKeysSpec K}.

(** Every derived address is one the SDK accepts back. *)
Lemma find_pda_valid seeds p a : find_pda seeds p = Ok a → valid_address a.
Proof.
  unfold find_pda. intros H. inv_ok H. subst a.
  apply valid_toBase58. by eapply findProgramAddress_length.
Qed.

Lemma find_pda_ok seeds p a :
  find_pda seeds p = Ok a →
  ∃ ss k b, seeds = map Ok ss ∧ publicKey p = Ok k ∧
    findProgramAddress ss k = Ok b ∧ a = toBase58 b.
Proof.
  unfold find_pda. intros H. inv_ok H. apply sequence_ok in E. eauto 10.
Qed.
End Pda.

#[export] Hint Resolve find_pda_valid : js.
