(* ===== verification/Program.v ===== *)
(** * The on-chain program (programs/chainpay/src)

    The contract the SDK prepares transactions for: mandates, receipts, the
    payment policy of [policy.rs] and the state change of [execute_payment] in
    [lib.rs].  It is the specification side of the development: [Accounts]
    decodes the bytes [mandate_account] and [receipt_account] lay out, and
    [Payment] shows that what preflight accepts this program settles.

    Keys are raw 32-byte values here; u64 arithmetic is [checked_add].  The SPL
    token program is not part of the repository: [TokenCpi] is what a payment
    asks of it, an argument of [execute_payment], with its documented law. *)
From Stdlib Require Import ZArith Lia Strings.Byte.
From stdpp Require Import base numbers strings list countable fin_maps gmap.
From S2P Require Import Prelude Bytes Types.

#[export] Instance byte_countable : Countable byte.
Proof.
  apply (inj_countable Byte.to_N Byte.of_N). intros b. apply Byte.of_to_N.
Defined.

(** The program's errors, plus the failures Anchor, the system program and the
    token program report themselves. *)
Inductive ChainPayError : Type :=
| AssetNotEnabled | InvalidAgent | InvalidMandateNonce | InvalidPerPaymentLimit
| InvalidTotalLimit | InvalidExpiry | InvalidTokenProgram | InvalidSourceTokenAccount | InvalidSourceMint
| InvalidRecipientMint | InvalidRecipient | InvalidMint
| MandatePaused | MandateRevoked | MandateExpired
| InvalidPaymentAmount | AmountExceedsPerPayment | TotalLimitExceeded
| PaymentCountExceeded | PaymentCooldownActive
| InvalidInvoiceHash | InvalidPaymentId | InvalidSignatureReference
| ConstraintAddress | AccountAlreadyInUse | InsufficientFunds | AccountFrozen.

Inductive program_result (A : Type) : Type :=
| POk (a : A)
| PErr (e : ChainPayError).
Arguments POk {A} a.
Arguments PErr {A} e.

Definition pbind {A B} (r : program_result A) (k : A → program_result B) : program_result B :=
  match r with POk a => k a | PErr e => PErr e end.

(** [require!(ok, e)] *)
Definition require (ok : bool) (e : ChainPayError) : program_result unit :=
  if ok then POk tt else PErr e.

(** [a.checked_add(b).ok_or(e)] *)
Definition checked_add (a b : Z) (e : ChainPayError) : program_result Z :=
  if a + b <=? U64_MAX then POk (a + b) else PErr e.

Notation "'require!' b 'else' e ';' k" := (pbind (require b e) (λ _ : unit, k))
  (at level 10, b at level 100, e at level 100, k at level 200).

Lemma pbind_ok {A B} (r : program_result A) (k : A → program_result B) b :
  pbind r k = POk b → ∃ a, r = POk a ∧ k a = POk b.
Proof. destruct r; simpl; [eauto | done]. Qed.

Lemma require_ok b e u : require b e = POk u → b = true.
Proof. by destruct b. Qed.

Lemma checked_add_ok a b e c : checked_add a b e = POk c ↔ c = a + b ∧ a + b <= U64_MAX.
Proof.
  unfold checked_add. destruct (a + b <=? U64_MAX) eqn:E; bool_reflect.
  - split; [intros [= <-]; done | by intros [-> _]].
  - split; [done | lia].
Qed.

(** The program's counterpart of [inv_ok]. *)
Ltac inv_pok H :=
  lazymatch type of H with
  | pbind (require _ _) _ = POk _ =>
      let u := fresh "u" in let G := fresh "G" in
      apply pbind_ok in H; destruct H as (u & G & H); apply require_ok in G; cbv beta in H;
      clear u; inv_pok H
  | pbind _ _ = POk _ =>
      let a := fresh "a" in let E := fresh "E" in
      apply pbind_ok in H; destruct H as (a & E & H); cbv beta in H; inv_pok H
  | POk _ = POk _ => injection H as H
  | PErr _ = POk _ => discriminate H
  | _ => idtac
  end.

Definition default_key : bytes := zero_bytes 32.

Module PaymentMandate.
Record t : Type := mk {
  owner : bytes;
  approved_agent : bytes;
  source_token_account : bytes;
  allowed_mint : bytes;
  legacy_allowed_recipient : bytes;
  max_per_payment : Z;
  total_limit : Z;
  amount_spent : Z;
  payment_count : Z;
  expires_at_slot : Z;
  max_payment_count : Z;
  cooldown_slots : Z;
  last_payment_slot : Z;
  paused : bool;
  revoked : bool;
  bump : Z;
}.
End PaymentMandate.

Module Receipt.
Record t : Type := mk {
  mandate : bytes;
  invoice_hash : bytes;
  payment_id : bytes;
  mint : bytes;
  source_token_account : bytes;
  recipient_token_account : bytes;
  amount : Z;
  agent : bytes;
  executed_at_slot : Z;
  signature_reference : bytes;
  status : Z;
  bump : Z;
  snapshot_version : Z;
  policy_max_per_payment : Z;
  policy_total_limit : Z;
  policy_amount_spent_after : Z;
  policy_payment_count_after : Z;
  policy_max_payment_count : Z;
  policy_expires_at_slot : Z;
  policy_cooldown_slots : Z;
  reserved : bytes;
}.
End Receipt.

Module PaymentParams.
Record t : Type := mk {
  invoice_hash : bytes;
  payment_id : bytes;
  signature_reference : bytes;
  amount : Z;
}.
End PaymentParams.

(** [state.rs::is_mandate_nonce] *)
Definition is_mandate_nonce (key : bytes) : bool :=
  bool_decide (take 8 key = MANDATE_NONCE_PREFIX).

(** [policy.rs::validate_payment] *)
Definition validate_payment (mandate : PaymentMandate.t) (params : PaymentParams.t)
    (current_slot : Z) : program_result unit :=
  require! negb mandate.(PaymentMandate.revoked) else MandateRevoked;
  require! negb mandate.(PaymentMandate.paused) else MandatePaused;
  require! current_slot <? mandate.(PaymentMandate.expires_at_slot) else MandateExpired;
  require! 0 <? params.(PaymentParams.amount) else InvalidPaymentAmount;
  require! params.(PaymentParams.amount) <=? mandate.(PaymentMandate.max_per_payment)
    else AmountExceedsPerPayment;
  require! negb (bool_decide (params.(PaymentParams.invoice_hash) = zero_bytes 32)) else InvalidInvoiceHash;
  require! negb (bool_decide (params.(PaymentParams.payment_id) = zero_bytes 32)) else InvalidPaymentId;
  require! negb (bool_decide (params.(PaymentParams.signature_reference) = zero_bytes 32))
    else InvalidSignatureReference;
  pbind (checked_add mandate.(PaymentMandate.amount_spent) params.(PaymentParams.amount) TotalLimitExceeded)
    (λ new_amount_spent,
  require! new_amount_spent <=? mandate.(PaymentMandate.total_limit) else TotalLimitExceeded;
  pbind (checked_add mandate.(PaymentMandate.payment_count) 1 PaymentCountExceeded)
    (λ new_payment_count,
  require! (mandate.(PaymentMandate.max_payment_count) =? 0)
      || (new_payment_count <=? mandate.(PaymentMandate.max_payment_count)) else PaymentCountExceeded;
  if 0 <? mandate.(PaymentMandate.last_payment_slot) then
    pbind (checked_add mandate.(PaymentMandate.last_payment_slot) mandate.(PaymentMandate.cooldown_slots)
        PaymentCooldownActive)
      (λ next_allowed_slot,
    require! next_allowed_slot <=? current_slot else PaymentCooldownActive;
    POk tt)
  else POk tt)).

(** [instructions/create_mandate.rs::MandateParams] *)
Module MandateParams.
Record t : Type := mk {
  approved_agent : bytes;
  source_token_account : bytes;
  allowed_mint : bytes;
  max_per_payment : Z;
  total_limit : Z;
  expires_at_slot : Z;
  max_payment_count : Z;
  cooldown_slots : Z;
  mandate_nonce : bytes;
}.
End MandateParams.

(** [policy.rs::validate_mandate_params] *)
Definition validate_mandate_params (params : MandateParams.t) (current_slot : Z) : program_result unit :=
  require! negb (bool_decide (params.(MandateParams.approved_agent) = default_key)) else InvalidAgent;
  require! negb (bool_decide (params.(MandateParams.mandate_nonce) = default_key))
      && is_mandate_nonce params.(MandateParams.mandate_nonce) else InvalidMandateNonce;
  require! negb (bool_decide (params.(MandateParams.source_token_account) = default_key))
    else InvalidSourceTokenAccount;
  require! negb (bool_decide (params.(MandateParams.allowed_mint) = default_key)) else InvalidMint;
  require! 0 <? params.(MandateParams.max_per_payment) else InvalidPerPaymentLimit;
  require! params.(MandateParams.max_per_payment) <=? params.(MandateParams.total_limit)
    else InvalidTotalLimit;
  require! current_slot <? params.(MandateParams.expires_at_slot) else InvalidExpiry;
  require! (params.(MandateParams.max_payment_count) =? 0)
      || (1 <=? params.(MandateParams.max_payment_count)) else PaymentCountExceeded;
  POk tt.

(** The accounts of [create_mandate.rs::CreateMandate]; [mandate_exists] when there is an account at the mandate's seeds
    already. *)
Module CreateMandate.
Record t : Type := mk {
  owner : bytes;
  asset_enabled : bool;
  asset_mint : bytes;
  asset_token_program : bytes;
  token_program : bytes;
  mandate_exists : bool;
  mandate_bump : Z;
  allowed_mint : bytes;
  mint_program : bytes;
  source_key : bytes;
  source_owner : bytes;
  source_mint : bytes;
  source_program : bytes;
}.
End CreateMandate.

(** Its account constraints *)
Definition check_create_accounts (acc : CreateMandate.t) (params : MandateParams.t) : program_result unit :=
  require! acc.(CreateMandate.asset_enabled) else AssetNotEnabled;
  require! bool_decide (acc.(CreateMandate.asset_mint) = params.(MandateParams.allowed_mint)) else InvalidMint;
  require! bool_decide (acc.(CreateMandate.asset_token_program) = acc.(CreateMandate.token_program)) else InvalidTokenProgram;
  require! negb acc.(CreateMandate.mandate_exists) else AccountAlreadyInUse;
  require! bool_decide (acc.(CreateMandate.allowed_mint) = params.(MandateParams.allowed_mint)) else InvalidMint;
  require! bool_decide (acc.(CreateMandate.mint_program) = acc.(CreateMandate.token_program)) else InvalidTokenProgram;
  require! bool_decide (acc.(CreateMandate.source_key) = params.(MandateParams.source_token_account))
    else InvalidSourceTokenAccount;
  require! bool_decide (acc.(CreateMandate.source_owner) = acc.(CreateMandate.owner)) else InvalidSourceTokenAccount;
  require! bool_decide (acc.(CreateMandate.source_mint) = params.(MandateParams.allowed_mint)) else InvalidSourceMint;
  require! bool_decide (acc.(CreateMandate.source_program) = acc.(CreateMandate.token_program)) else InvalidTokenProgram;
  POk tt.

(** [lib.rs::create_mandate]: the account it initializes *)
Definition create_mandate (acc : CreateMandate.t) (current_slot : Z) (params : MandateParams.t)
    : program_result PaymentMandate.t :=
  pbind (check_create_accounts acc params) (λ _,
  pbind (validate_mandate_params params current_slot) (λ _,
  POk (PaymentMandate.mk acc.(CreateMandate.owner) params.(MandateParams.approved_agent)
    params.(MandateParams.source_token_account) params.(MandateParams.allowed_mint)
    params.(MandateParams.mandate_nonce) params.(MandateParams.max_per_payment)
    params.(MandateParams.total_limit) 0 0 params.(MandateParams.expires_at_slot)
    params.(MandateParams.max_payment_count) params.(MandateParams.cooldown_slots) 0
    false false acc.(CreateMandate.mandate_bump)))).

(** The Borsh arguments after the instruction discriminator, as Anchor
    deserializes them: fixed width, field order, nothing missing. *)
Definition create_mandate_params (data : bytes) : option MandateParams.t :=
  if bool_decide (take 8 data = DISCRIMINATORS.createMandate) && Nat.leb 176 (length data) then
    Some (MandateParams.mk (slice data 8 32) (slice data 40 32) (slice data 72 32)
      (le_val (slice data 104 8)) (le_val (slice data 112 8)) (le_val (slice data 120 8))
      (le_val (slice data 128 8)) (le_val (slice data 136 8)) (slice data 144 32))
  else None.

Definition execute_payment_params (data : bytes) : option PaymentParams.t :=
  if bool_decide (take 8 data = DISCRIMINATORS.executePayment) && Nat.leb 112 (length data) then
    Some (PaymentParams.mk (slice data 8 32) (slice data 40 32) (slice data 72 32)
      (le_val (slice data 104 8)))
  else None.

(** The SPL token account the mandate spends from. *)
Module TokenAccount.
Record t : Type := mk {
  owner : bytes;
  mint : bytes;
  delegate : option bytes;
  delegated_amount : Z;
  amount : Z;
}.
End TokenAccount.

(** What the transfer of a payment reads and changes *)
Module Transfer.
Record t : Type := mk {
  source_key : bytes;
  recipient_key : bytes;
  (** Neither account is frozen, and no extension of the mint or of an account refuses the transfer. *)
  movable : bool;
  source : TokenAccount.t;
  amount : Z;
}.
End Transfer.

Definition spent_account (s : TokenAccount.t) (amount : Z) : TokenAccount.t :=
  let left := s.(TokenAccount.delegated_amount) - amount in
  TokenAccount.mk s.(TokenAccount.owner) s.(TokenAccount.mint)
    (if left =? 0 then None else s.(TokenAccount.delegate)) left (s.(TokenAccount.amount) - amount).

(** A transfer spends the balance and the allowance, the delegate ending with it; one to the account itself does not. *)
Definition moved (x : Transfer.t) : TokenAccount.t :=
  if bool_decide (x.(Transfer.source_key) = x.(Transfer.recipient_key)) then x.(Transfer.source)
  else spent_account x.(Transfer.source) x.(Transfer.amount).

(** The token program: [transfer_checked] signed by the source's delegate, within its allowance.  The law is the
    documented behaviour: it fails when the accounts cannot be moved between or the balance is short. *)
Module TokenCpi.
Record t : Type := mk {
  transfer_checked : Transfer.t → program_result TokenAccount.t;
  transfer_law x s :
    0 <= x.(Transfer.amount) <= x.(Transfer.source).(TokenAccount.delegated_amount) →
    transfer_checked x = POk s ↔
      x.(Transfer.movable) = true ∧ x.(Transfer.amount) <= x.(Transfer.source).(TokenAccount.amount) ∧ s = moved x;
}.
End TokenCpi.

(** The accounts of [ExecutePayment] that a payment only reads. *)
Module ExecutePayment.
Record t : Type := mk {
  asset_enabled : bool;
  asset_mint : bytes;
  asset_token_program : bytes;
  token_program : bytes;
  allowed_mint : bytes;
  mint_program : bytes;
  source_key : bytes;
  source_program : bytes;
  recipient_key : bytes;
  recipient_mint : bytes;
  recipient_program : bytes;
  agent : bytes;
  receipt_bump : Z;
  (** What only the token program looks at, and the token program *)
  movable : bool;
  token : TokenCpi.t;
}.
End ExecutePayment.

(** What a payment changes: the mandate account, the source token account, and
    the receipts under this mandate, keyed by invoice hash (their address
    seeds). *)
Module Chain.
Record t : Type := mk {
  mandate : PaymentMandate.t;
  source : TokenAccount.t;
  receipts : gmap bytes Receipt.t;
}.
End Chain.

(** The account constraints of [execute_payment.rs::ExecutePayment]. *)
Definition check_accounts (mandate_key : bytes) (acc : ExecutePayment.t)
    (params : PaymentParams.t) (st : Chain.t) : program_result unit :=
  let m := st.(Chain.mandate) in
  let s := st.(Chain.source) in
  require! acc.(ExecutePayment.asset_enabled) else AssetNotEnabled;
  require! bool_decide (acc.(ExecutePayment.asset_mint) = m.(PaymentMandate.allowed_mint)) else InvalidMint;
  require! bool_decide (acc.(ExecutePayment.asset_token_program) = acc.(ExecutePayment.token_program))
    else InvalidTokenProgram;
  require! bool_decide (st.(Chain.receipts) !! params.(PaymentParams.invoice_hash) = None)
    else AccountAlreadyInUse;
  require! bool_decide (acc.(ExecutePayment.agent) = m.(PaymentMandate.approved_agent)) else ConstraintAddress;
  require! bool_decide (acc.(ExecutePayment.allowed_mint) = m.(PaymentMandate.allowed_mint)) else InvalidMint;
  require! bool_decide (acc.(ExecutePayment.mint_program) = acc.(ExecutePayment.token_program))
    else InvalidTokenProgram;
  require! bool_decide (acc.(ExecutePayment.source_key) = m.(PaymentMandate.source_token_account))
    else ConstraintAddress;
  require! bool_decide (s.(TokenAccount.owner) = m.(PaymentMandate.owner)) else InvalidSourceTokenAccount;
  require! bool_decide (s.(TokenAccount.mint) = m.(PaymentMandate.allowed_mint)) else InvalidSourceMint;
  require! bool_decide (s.(TokenAccount.delegate) = Some mandate_key) else InvalidSourceTokenAccount;
  require! params.(PaymentParams.amount) <=? s.(TokenAccount.delegated_amount) else InvalidSourceTokenAccount;
  require! bool_decide (acc.(ExecutePayment.source_program) = acc.(ExecutePayment.token_program))
    else InvalidTokenProgram;
  require! is_mandate_nonce m.(PaymentMandate.legacy_allowed_recipient)
      || bool_decide (m.(PaymentMandate.legacy_allowed_recipient) = default_key)
      || bool_decide (acc.(ExecutePayment.recipient_key) = m.(PaymentMandate.legacy_allowed_recipient))
    else InvalidRecipient;
  require! bool_decide (acc.(ExecutePayment.recipient_mint) = m.(PaymentMandate.allowed_mint))
    else InvalidRecipientMint;
  require! bool_decide (acc.(ExecutePayment.recipient_program) = acc.(ExecutePayment.token_program))
    else InvalidTokenProgram;
  POk tt.

(** The arguments of the transfer *)
Definition transfer_of (acc : ExecutePayment.t) (params : PaymentParams.t) (st : Chain.t) : Transfer.t :=
  Transfer.mk acc.(ExecutePayment.source_key) acc.(ExecutePayment.recipient_key) acc.(ExecutePayment.movable)
    st.(Chain.source) params.(PaymentParams.amount).

Definition RECEIPT_SNAPSHOT_VERSION : Z := 1.

(** [lib.rs::execute_payment] *)
Definition execute_payment (mandate_key : bytes) (acc : ExecutePayment.t) (current_slot : Z)
    (params : PaymentParams.t) (st : Chain.t) : program_result Chain.t :=
  pbind (check_accounts mandate_key acc params st) (λ _,
  let m := st.(Chain.mandate) in
  pbind (validate_payment m params current_slot) (λ _,
  pbind (checked_add m.(PaymentMandate.amount_spent) params.(PaymentParams.amount) TotalLimitExceeded)
    (λ new_amount_spent,
  pbind (checked_add m.(PaymentMandate.payment_count) 1 PaymentCountExceeded)
    (λ new_payment_count,
  pbind (TokenCpi.transfer_checked acc.(ExecutePayment.token) (transfer_of acc params st)) (λ source,
  let m' := PaymentMandate.mk m.(PaymentMandate.owner) m.(PaymentMandate.approved_agent)
    m.(PaymentMandate.source_token_account) m.(PaymentMandate.allowed_mint)
    m.(PaymentMandate.legacy_allowed_recipient) m.(PaymentMandate.max_per_payment)
    m.(PaymentMandate.total_limit) new_amount_spent new_payment_count
    m.(PaymentMandate.expires_at_slot) m.(PaymentMandate.max_payment_count)
    m.(PaymentMandate.cooldown_slots) current_slot m.(PaymentMandate.paused)
    m.(PaymentMandate.revoked) m.(PaymentMandate.bump) in
  let receipt := Receipt.mk mandate_key params.(PaymentParams.invoice_hash)
    params.(PaymentParams.payment_id) m.(PaymentMandate.allowed_mint)
    m.(PaymentMandate.source_token_account) acc.(ExecutePayment.recipient_key)
    params.(PaymentParams.amount) acc.(ExecutePayment.agent) current_slot
    params.(PaymentParams.signature_reference) RECEIPT_STATUS_SETTLED
    acc.(ExecutePayment.receipt_bump) RECEIPT_SNAPSHOT_VERSION
    m.(PaymentMandate.max_per_payment) m.(PaymentMandate.total_limit)
    new_amount_spent new_payment_count m.(PaymentMandate.max_payment_count)
    m.(PaymentMandate.expires_at_slot) m.(PaymentMandate.cooldown_slots) (zero_bytes 32) in
  POk (Chain.mk m' source
    (<[params.(PaymentParams.invoice_hash) := receipt]> st.(Chain.receipts)))))))).

(** ** Account bytes *)

Definition u64_bytes (z : Z) : bytes := le_bytes 8 z.
Definition u8_bytes (z : Z) : bytes := [byte_of z].
Definition flag_byte (b : bool) : bytes := [byte_of (if b then 1 else 0)].

(** A serialized [PaymentMandate]: discriminator, then the fields in order. *)
Definition mandate_account (m : PaymentMandate.t) : bytes :=
  ACCOUNT_DISCRIMINATORS.paymentMandate
  ++ m.(PaymentMandate.owner) ++ m.(PaymentMandate.approved_agent)
  ++ m.(PaymentMandate.source_token_account) ++ m.(PaymentMandate.allowed_mint)
  ++ m.(PaymentMandate.legacy_allowed_recipient)
  ++ u64_bytes m.(PaymentMandate.max_per_payment) ++ u64_bytes m.(PaymentMandate.total_limit)
  ++ u64_bytes m.(PaymentMandate.amount_spent) ++ u64_bytes m.(PaymentMandate.payment_count)
  ++ u64_bytes m.(PaymentMandate.expires_at_slot) ++ u64_bytes m.(PaymentMandate.max_payment_count)
  ++ u64_bytes m.(PaymentMandate.cooldown_slots) ++ u64_bytes m.(PaymentMandate.last_payment_slot)
  ++ flag_byte m.(PaymentMandate.paused) ++ flag_byte m.(PaymentMandate.revoked)
  ++ u8_bytes m.(PaymentMandate.bump).

(** The first 282 bytes of a [PaymentReceipt], as the original program wrote it. *)
Definition receipt_account_v1 (r : Receipt.t) : bytes :=
  ACCOUNT_DISCRIMINATORS.paymentReceipt
  ++ r.(Receipt.mandate) ++ r.(Receipt.invoice_hash) ++ r.(Receipt.payment_id)
  ++ r.(Receipt.mint) ++ r.(Receipt.source_token_account) ++ r.(Receipt.recipient_token_account)
  ++ u64_bytes r.(Receipt.amount) ++ r.(Receipt.agent) ++ u64_bytes r.(Receipt.executed_at_slot)
  ++ r.(Receipt.signature_reference) ++ u8_bytes r.(Receipt.status) ++ u8_bytes r.(Receipt.bump).

(** The policy snapshot appended by the current program. *)
Definition receipt_tail (r : Receipt.t) : bytes :=
  u8_bytes r.(Receipt.snapshot_version)
  ++ u64_bytes r.(Receipt.policy_max_per_payment) ++ u64_bytes r.(Receipt.policy_total_limit)
  ++ u64_bytes r.(Receipt.policy_amount_spent_after) ++ u64_bytes r.(Receipt.policy_payment_count_after)
  ++ u64_bytes r.(Receipt.policy_max_payment_count) ++ u64_bytes r.(Receipt.policy_expires_at_slot)
  ++ u64_bytes r.(Receipt.policy_cooldown_slots) ++ r.(Receipt.reserved).

Definition receipt_account (r : Receipt.t) : bytes := receipt_account_v1 r ++ receipt_tail r.

(** Field widths the Rust types guarantee. *)
Definition is_key (k : bytes) : Prop := length k = 32%nat.
Definition is_u64 (z : Z) : Prop := 0 <= z <= U64_MAX.

Record mandate_wf (m : PaymentMandate.t) : Prop := {
  wf_owner : is_key m.(PaymentMandate.owner);
  wf_agent : is_key m.(PaymentMandate.approved_agent);
  wf_source : is_key m.(PaymentMandate.source_token_account);
  wf_mint : is_key m.(PaymentMandate.allowed_mint);
  wf_recipient : is_key m.(PaymentMandate.legacy_allowed_recipient);
  wf_max : is_u64 m.(PaymentMandate.max_per_payment);
  wf_total : is_u64 m.(PaymentMandate.total_limit);
  wf_spent : is_u64 m.(PaymentMandate.amount_spent);
  wf_count : is_u64 m.(PaymentMandate.payment_count);
  wf_expires : is_u64 m.(PaymentMandate.expires_at_slot);
  wf_max_count : is_u64 m.(PaymentMandate.max_payment_count);
  wf_cooldown : is_u64 m.(PaymentMandate.cooldown_slots);
  wf_last : is_u64 m.(PaymentMandate.last_payment_slot);
}.

Record receipt_wf (r : Receipt.t) : Prop := {
  rwf_mandate : is_key r.(Receipt.mandate);
  rwf_invoice : is_key r.(Receipt.invoice_hash);
  rwf_payment : is_key r.(Receipt.payment_id);
  rwf_mint : is_key r.(Receipt.mint);
  rwf_source : is_key r.(Receipt.source_token_account);
  rwf_recipient : is_key r.(Receipt.recipient_token_account);
  rwf_amount : is_u64 r.(Receipt.amount);
  rwf_agent : is_key r.(Receipt.agent);
  rwf_slot : is_u64 r.(Receipt.executed_at_slot);
  rwf_ref : is_key r.(Receipt.signature_reference);
  rwf_status : 0 <= r.(Receipt.status) < 256;
  rwf_bump : 0 <= r.(Receipt.bump) < 256;
  rwf_version : 0 <= r.(Receipt.snapshot_version) < 256;
  rwf_max : is_u64 r.(Receipt.policy_max_per_payment);
  rwf_total : is_u64 r.(Receipt.policy_total_limit);
  rwf_spent : is_u64 r.(Receipt.policy_amount_spent_after);
  rwf_count : is_u64 r.(Receipt.policy_payment_count_after);
  rwf_max_count : is_u64 r.(Receipt.policy_max_payment_count);
  rwf_expires : is_u64 r.(Receipt.policy_expires_at_slot);
  rwf_cooldown : is_u64 r.(Receipt.policy_cooldown_slots);
  rwf_reserved : is_key r.(Receipt.reserved);
}.

(** ** When a payment settles *)

(** The account constraints, as facts about the accounts. *)
Record constraints_agree (acc : ExecutePayment.t) (st : Chain.t) : Prop := {
  ag_enabled : acc.(ExecutePayment.asset_enabled) = true;
  ag_asset_mint : acc.(ExecutePayment.asset_mint) = st.(Chain.mandate).(PaymentMandate.allowed_mint);
  ag_asset_program : acc.(ExecutePayment.asset_token_program) = acc.(ExecutePayment.token_program);
  ag_mint_program : acc.(ExecutePayment.mint_program) = acc.(ExecutePayment.token_program);
  ag_source_key :
    acc.(ExecutePayment.source_key) = st.(Chain.mandate).(PaymentMandate.source_token_account);
  ag_source_mint :
    st.(Chain.source).(TokenAccount.mint) = st.(Chain.mandate).(PaymentMandate.allowed_mint);
  ag_source_program : acc.(ExecutePayment.source_program) = acc.(ExecutePayment.token_program);
  ag_recipient_mint :
    acc.(ExecutePayment.recipient_mint) = st.(Chain.mandate).(PaymentMandate.allowed_mint);
  ag_recipient_program : acc.(ExecutePayment.recipient_program) = acc.(ExecutePayment.token_program);
  ag_recipient :
    is_mandate_nonce st.(Chain.mandate).(PaymentMandate.legacy_allowed_recipient) = true ∨
    st.(Chain.mandate).(PaymentMandate.legacy_allowed_recipient) = default_key ∨
    acc.(ExecutePayment.recipient_key) = st.(Chain.mandate).(PaymentMandate.legacy_allowed_recipient);
}.

(** With what only the token program looks at *)
Record accounts_agree (acc : ExecutePayment.t) (st : Chain.t) : Prop := {
  ag_constraints : constraints_agree acc st;
  ag_movable : acc.(ExecutePayment.movable) = true;
}.

(** The conditions on the payment itself. *)
Record payment_fits (mandate_key : bytes) (acc : ExecutePayment.t) (slot : Z)
    (p : PaymentParams.t) (st : Chain.t) : Prop := {
  fit_agent : acc.(ExecutePayment.agent) = st.(Chain.mandate).(PaymentMandate.approved_agent);
  fit_mint : acc.(ExecutePayment.allowed_mint) = st.(Chain.mandate).(PaymentMandate.allowed_mint);
  fit_new : st.(Chain.receipts) !! p.(PaymentParams.invoice_hash) = None;
  fit_owner : st.(Chain.source).(TokenAccount.owner) = st.(Chain.mandate).(PaymentMandate.owner);
  fit_delegate : st.(Chain.source).(TokenAccount.delegate) = Some mandate_key;
  fit_allowance : p.(PaymentParams.amount) <= st.(Chain.source).(TokenAccount.delegated_amount);
  fit_balance : p.(PaymentParams.amount) <= st.(Chain.source).(TokenAccount.amount);
  fit_revoked : st.(Chain.mandate).(PaymentMandate.revoked) = false;
  fit_paused : st.(Chain.mandate).(PaymentMandate.paused) = false;
  fit_expiry : slot < st.(Chain.mandate).(PaymentMandate.expires_at_slot);
  fit_amount : 0 < p.(PaymentParams.amount) <= st.(Chain.mandate).(PaymentMandate.max_per_payment);
  fit_invoice : p.(PaymentParams.invoice_hash) ≠ zero_bytes 32;
  fit_id : p.(PaymentParams.payment_id) ≠ zero_bytes 32;
  fit_ref : p.(PaymentParams.signature_reference) ≠ zero_bytes 32;
  fit_total : st.(Chain.mandate).(PaymentMandate.amount_spent) + p.(PaymentParams.amount)
    <= st.(Chain.mandate).(PaymentMandate.total_limit);
  fit_spent_u64 : st.(Chain.mandate).(PaymentMandate.amount_spent) + p.(PaymentParams.amount) <= U64_MAX;
  fit_count_u64 : st.(Chain.mandate).(PaymentMandate.payment_count) + 1 <= U64_MAX;
  fit_count : st.(Chain.mandate).(PaymentMandate.max_payment_count) = 0 ∨
    st.(Chain.mandate).(PaymentMandate.payment_count) + 1
      <= st.(Chain.mandate).(PaymentMandate.max_payment_count);
  fit_cooldown : 0 < st.(Chain.mandate).(PaymentMandate.last_payment_slot) →
    st.(Chain.mandate).(PaymentMandate.last_payment_slot)
      + st.(Chain.mandate).(PaymentMandate.cooldown_slots) <= Z.min slot U64_MAX;
}.

(** The state a settled payment leaves. *)
Definition settled_mandate (slot : Z) (p : PaymentParams.t) (m : PaymentMandate.t) : PaymentMandate.t :=
  PaymentMandate.mk m.(PaymentMandate.owner) m.(PaymentMandate.approved_agent)
    m.(PaymentMandate.source_token_account) m.(PaymentMandate.allowed_mint)
    m.(PaymentMandate.legacy_allowed_recipient) m.(PaymentMandate.max_per_payment)
    m.(PaymentMandate.total_limit) (m.(PaymentMandate.amount_spent) + p.(PaymentParams.amount))
    (m.(PaymentMandate.payment_count) + 1) m.(PaymentMandate.expires_at_slot)
    m.(PaymentMandate.max_payment_count) m.(PaymentMandate.cooldown_slots) slot
    m.(PaymentMandate.paused) m.(PaymentMandate.revoked) m.(PaymentMandate.bump).

Definition settled_receipt (mandate_key : bytes) (acc : ExecutePayment.t) (slot : Z)
    (p : PaymentParams.t) (m : PaymentMandate.t) : Receipt.t :=
  Receipt.mk mandate_key p.(PaymentParams.invoice_hash) p.(PaymentParams.payment_id)
    m.(PaymentMandate.allowed_mint) m.(PaymentMandate.source_token_account)
    acc.(ExecutePayment.recipient_key) p.(PaymentParams.amount) acc.(ExecutePayment.agent) slot
    p.(PaymentParams.signature_reference) RECEIPT_STATUS_SETTLED acc.(ExecutePayment.receipt_bump)
    RECEIPT_SNAPSHOT_VERSION m.(PaymentMandate.max_per_payment) m.(PaymentMandate.total_limit)
    (m.(PaymentMandate.amount_spent) + p.(PaymentParams.amount)) (m.(PaymentMandate.payment_count) + 1)
    m.(PaymentMandate.max_payment_count) m.(PaymentMandate.expires_at_slot)
    m.(PaymentMandate.cooldown_slots) (zero_bytes 32).

Definition settle (mandate_key : bytes) (acc : ExecutePayment.t) (slot : Z)
    (p : PaymentParams.t) (st : Chain.t) : Chain.t :=
  Chain.mk (settled_mandate slot p st.(Chain.mandate))
    (moved (transfer_of acc p st))
    (<[p.(PaymentParams.invoice_hash) :=
        settled_receipt mandate_key acc slot p st.(Chain.mandate)]> st.(Chain.receipts)).

Lemma pbind_require {A} b e (k : unit → program_result A) a :
  pbind (require b e) k = POk a ↔ b = true ∧ k tt = POk a.
Proof. destruct b; simpl; naive_solver. Qed.

Lemma pbind_checked_add {A} x y e (k : Z → program_result A) a :
  pbind (checked_add x y e) k = POk a ↔ x + y <= U64_MAX ∧ k (x + y) = POk a.
Proof.
  unfold checked_add. destruct (x + y <=? U64_MAX) eqn:E; bool_reflect; simpl; [naive_solver|].
  split; [done | lia].
Qed.

Lemma POk_tt u v : POk (A := unit) u = POk v ↔ True.
Proof. by destruct u, v. Qed.

Lemma check_accounts_iff mk acc p st u :
  check_accounts mk acc p st = POk u ↔
    constraints_agree acc st ∧
    acc.(ExecutePayment.agent) = st.(Chain.mandate).(PaymentMandate.approved_agent) ∧
    acc.(ExecutePayment.allowed_mint) = st.(Chain.mandate).(PaymentMandate.allowed_mint) ∧
    st.(Chain.receipts) !! p.(PaymentParams.invoice_hash) = None ∧
    st.(Chain.source).(TokenAccount.owner) = st.(Chain.mandate).(PaymentMandate.owner) ∧
    st.(Chain.source).(TokenAccount.delegate) = Some mk ∧
    p.(PaymentParams.amount) <= st.(Chain.source).(TokenAccount.delegated_amount).
Proof.
  unfold check_accounts. cbv zeta.
  rewrite !pbind_require, !orb_true_iff, !bool_decide_eq_true, Z.leb_le, POk_tt.
  split.
  - intros. destruct_and!. split_and!; try done. by constructor; try tauto.
  - intros ([] & ?). tauto.
Qed.

Lemma validate_payment_iff m p slot u :
  validate_payment m p slot = POk u ↔
    m.(PaymentMandate.revoked) = false ∧ m.(PaymentMandate.paused) = false ∧
    slot < m.(PaymentMandate.expires_at_slot) ∧
    0 < p.(PaymentParams.amount) <= m.(PaymentMandate.max_per_payment) ∧
    p.(PaymentParams.invoice_hash) ≠ zero_bytes 32 ∧ p.(PaymentParams.payment_id) ≠ zero_bytes 32 ∧
    p.(PaymentParams.signature_reference) ≠ zero_bytes 32 ∧
    m.(PaymentMandate.amount_spent) + p.(PaymentParams.amount) <= m.(PaymentMandate.total_limit) ∧
    m.(PaymentMandate.amount_spent) + p.(PaymentParams.amount) <= U64_MAX ∧
    m.(PaymentMandate.payment_count) + 1 <= U64_MAX ∧
    (m.(PaymentMandate.max_payment_count) = 0 ∨
      m.(PaymentMandate.payment_count) + 1 <= m.(PaymentMandate.max_payment_count)) ∧
    (0 < m.(PaymentMandate.last_payment_slot) →
      m.(PaymentMandate.last_payment_slot) + m.(PaymentMandate.cooldown_slots) <= Z.min slot U64_MAX).
Proof.
  unfold validate_payment.
  rewrite !pbind_require, !pbind_checked_add, !pbind_require, !pbind_checked_add, !pbind_require,
    !negb_true_iff, !bool_decide_eq_false, !orb_true_iff, !Z.leb_le, !Z.ltb_lt, Z.eqb_eq.
  destruct (0 <? PaymentMandate.last_payment_slot m) eqn:E; bool_reflect;
    rewrite ?pbind_checked_add, ?pbind_require, ?Z.leb_le, POk_tt; repeat split; try tauto; lia.
Qed.

(** [execute_payment] succeeds exactly when the accounts agree and the payment
    fits, and its only effect is [settle]. *)
Lemma execute_payment_iff mk acc slot p st st' :
  execute_payment mk acc slot p st = POk st' ↔
    accounts_agree acc st ∧ payment_fits mk acc slot p st ∧ st' = settle mk acc slot p st.
Proof.
  unfold execute_payment. split.
  - intros H. inv_pok H. apply check_accounts_iff in E. apply validate_payment_iff in E0.
    apply checked_add_ok in E1 as [-> _], E2 as [-> _].
    destruct_and!. apply (TokenCpi.transfer_law (ExecutePayment.token acc)) in E3 as (Hm & Hb & ->); [|cbn; lia].
    subst. cbn in *. split_and!; [by constructor | by constructor | done].
  - intros ([Hag Hmv] & Hfit & ->).
    pose proof (fit_spent_u64 _ _ _ _ _ Hfit) as Hspent.
    pose proof (fit_count_u64 _ _ _ _ _ Hfit) as Hcount. destruct Hfit.
    rewrite (proj2 (check_accounts_iff _ _ _ _ tt)) by done. cbn [pbind].
    rewrite (proj2 (validate_payment_iff _ _ _ tt)) by done. cbn [pbind].
    rewrite (proj2 (checked_add_ok _ _ _ _) (conj eq_refl Hspent)). cbn [pbind].
    rewrite (proj2 (checked_add_ok _ _ _ _) (conj eq_refl Hcount)). cbn [pbind].
    rewrite (proj2 (TokenCpi.transfer_law (ExecutePayment.token acc) (transfer_of acc p st) (moved (transfer_of acc p st)) ltac:(cbn; lia)));
      [done|by split_and!].
Qed.

Lemma execute_payment_fails mk acc slot p st :
  ¬ (accounts_agree acc st ∧ payment_fits mk acc slot p st) →
  ∃ e, execute_payment mk acc slot p st = PErr e.
Proof.
  intros H. destruct (execute_payment mk acc slot p st) as [st'|e] eqn:E; [|eauto].
  apply execute_payment_iff in E. tauto.
Qed.

(** ** Several payments in one transaction, in order *)

Abbreviation Rows := (list (ExecutePayment.t * PaymentParams.t)).

Fixpoint execute_payments (mandate_key : bytes) (slot : Z) (rows : Rows) (st : Chain.t)
    : program_result Chain.t :=
  match rows with
  | [] => POk st
  | (acc, p) :: rows =>
      pbind (execute_payment mandate_key acc slot p st) (execute_payments mandate_key slot rows)
  end.

Fixpoint row_total (rows : Rows) : Z :=
  match rows with
  | [] => 0
  | (_, p) :: rows => p.(PaymentParams.amount) + row_total rows
  end.

Definition row_hashes (rows : Rows) : list bytes :=
  map (λ row, row.2.(PaymentParams.invoice_hash)) rows.

(** The limits that only the rows together can exceed. *)
Record rows_fit (slot : Z) (rows : Rows) (st : Chain.t) : Prop := {
  rows_total : st.(Chain.mandate).(PaymentMandate.amount_spent) + row_total rows
    <= Z.min st.(Chain.mandate).(PaymentMandate.total_limit) U64_MAX;
  rows_count : st.(Chain.mandate).(PaymentMandate.max_payment_count) = 0 ∨
    st.(Chain.mandate).(PaymentMandate.payment_count) + Z.of_nat (length rows)
      <= st.(Chain.mandate).(PaymentMandate.max_payment_count);
  rows_count_u64 : st.(Chain.mandate).(PaymentMandate.payment_count) + Z.of_nat (length rows) <= U64_MAX;
  rows_cooldown : (length rows <= 1)%nat ∨ st.(Chain.mandate).(PaymentMandate.cooldown_slots) = 0;
  rows_balance : row_total rows <= st.(Chain.source).(TokenAccount.amount);
  rows_allowance : row_total rows <= st.(Chain.source).(TokenAccount.delegated_amount);
  rows_hashes : NoDup (row_hashes rows);
}.

Definition row_settles (mandate_key : bytes) (slot : Z) (st : Chain.t)
    (row : ExecutePayment.t * PaymentParams.t) : Prop :=
  accounts_agree row.1 st ∧ payment_fits mandate_key row.1 slot row.2 st.

Lemma row_total_pos mk slot st rows : Forall (row_settles mk slot st) rows → 0 <= row_total rows.
Proof. induction 1 as [|[acc p] rows [_ []] _ IH]; simpl in *; lia. Qed.

(** What a transfer leaves for the payments after it *)
Lemma moved_leaves x a :
  0 < a → 0 <= x.(Transfer.amount) → a + x.(Transfer.amount) <= x.(Transfer.source).(TokenAccount.delegated_amount) →
  a + x.(Transfer.amount) <= x.(Transfer.source).(TokenAccount.amount) →
  (moved x).(TokenAccount.owner) = x.(Transfer.source).(TokenAccount.owner) ∧
  (moved x).(TokenAccount.mint) = x.(Transfer.source).(TokenAccount.mint) ∧
  (moved x).(TokenAccount.delegate) = x.(Transfer.source).(TokenAccount.delegate) ∧
  a <= (moved x).(TokenAccount.delegated_amount) ∧ a <= (moved x).(TokenAccount.amount).
Proof.
  intros Ha Hx Hd Hb. unfold moved. case_bool_decide; [split_and!; done || lia|].
  cbn. rewrite (proj2 (Z.eqb_neq _ _)) by lia. split_and!; done || lia.
Qed.

(** A payment changes none of the facts the account constraints are about. *)
Lemma agree_settled mk acc slot p st acc' :
  accounts_agree acc' (settle mk acc slot p st) ↔ accounts_agree acc' st.
Proof.
  assert ((moved (transfer_of acc p st)).(TokenAccount.mint) = st.(Chain.source).(TokenAccount.mint)) as Hm
    by (unfold moved; by case_bool_decide).
  split; intros [[] Hmv]; (split; [|done]); cbn [settle settled_mandate Chain.mandate Chain.source PaymentMandate.allowed_mint
    PaymentMandate.source_token_account PaymentMandate.legacy_allowed_recipient] in *; constructor; try done; cbn in *; congruence.
Qed.

(** After the first row, every other row still settles. *)
Lemma row_settles_after mk slot st acc p rows row :
  is_u64 slot → row_settles mk slot st (acc, p) → Forall (row_settles mk slot st) rows →
  rows_fit slot ((acc, p) :: rows) st → row ∈ rows →
  row_settles mk slot (settle mk acc slot p st) row.
Proof.
  intros Hslot [_ H0] Hrows Hfit Hin.
  assert (row.2.(PaymentParams.amount) <= row_total rows) as Hle.
  { clear Hfit. induction Hin as [[acc' p'] rows|row [acc' p'] rows Hin IH]; inversion_clear Hrows; simpl.
    - pose proof (row_total_pos _ _ _ _ ltac:(eassumption)). lia.
    - specialize (IH ltac:(done)). destruct H as [_ []]. simpl in *. lia. }
  assert (length rows ≠ 0%nat) by (by destruct Hin).
  assert (row.2.(PaymentParams.invoice_hash) ∈ row_hashes rows) as Hh
    by (by apply (list_elem_of_fmap_2 (λ r, r.2.(PaymentParams.invoice_hash)))).
  rewrite Forall_forall in Hrows. destruct (Hrows _ Hin) as [Hag Hf]. split; [by apply agree_settled|].
  destruct Hf, H0, Hfit. unfold is_u64 in *. cbn [fst snd] in *.
  apply NoDup_cons in rows_hashes0 as [Hn _]. cbn in rows_total0, rows_count0, rows_count_u65, rows_cooldown0, rows_balance0, rows_allowance0.
  destruct (moved_leaves (transfer_of acc p st) row.2.(PaymentParams.amount)) as (M1 & M2 & M3 & M4 & M5); [lia|cbn; lia..|].
  constructor; cbn [settle settled_mandate Chain.mandate Chain.source Chain.receipts PaymentMandate.approved_agent PaymentMandate.allowed_mint
    PaymentMandate.owner PaymentMandate.revoked PaymentMandate.paused PaymentMandate.expires_at_slot PaymentMandate.max_per_payment
    PaymentMandate.amount_spent PaymentMandate.total_limit PaymentMandate.payment_count PaymentMandate.max_payment_count
    PaymentMandate.last_payment_slot PaymentMandate.cooldown_slots]; try done; try lia.
  - rewrite lookup_insert_ne; [done|]. intros E. apply Hn. change (p.(PaymentParams.invoice_hash) ∈ row_hashes rows). by rewrite E.
  - by rewrite M1.
  - by rewrite M3.
Qed.

Lemma rows_fit_after mk slot st acc p rows :
  row_settles mk slot st (acc, p) → Forall (row_settles mk slot st) rows → rows_fit slot ((acc, p) :: rows) st →
  rows_fit slot rows (settle mk acc slot p st).
Proof.
  intros [_ H0] Hrows Hfit. pose proof (row_total_pos _ _ _ _ Hrows) as Hpos. destruct H0, Hfit. cbn [fst snd] in *.
  apply NoDup_cons in rows_hashes0 as [_ Hn]. cbn in rows_total0, rows_count0, rows_count_u65, rows_cooldown0, rows_balance0, rows_allowance0.
  constructor; cbn [settle settled_mandate Chain.mandate Chain.source PaymentMandate.amount_spent PaymentMandate.total_limit
    PaymentMandate.payment_count PaymentMandate.max_payment_count PaymentMandate.cooldown_slots]; try done; try lia;
    unfold moved; case_bool_decide; cbn; lia.
Qed.

(** What the rows take from the source: a transfer to the account itself takes nothing. *)
Fixpoint row_taken (rows : Rows) : Z :=
  match rows with
  | [] => 0
  | (acc, p) :: rows =>
      (if bool_decide (acc.(ExecutePayment.source_key) = acc.(ExecutePayment.recipient_key)) then 0 else p.(PaymentParams.amount))
      + row_taken rows
  end.

(** What the rows leave, and what they must have met *)
Lemma execute_payments_effect mk slot rows st st' :
  execute_payments mk slot rows st = POk st' →
  st'.(Chain.mandate).(PaymentMandate.amount_spent) = st.(Chain.mandate).(PaymentMandate.amount_spent) + row_total rows ∧
  st'.(Chain.mandate).(PaymentMandate.payment_count)
    = st.(Chain.mandate).(PaymentMandate.payment_count) + Z.of_nat (length rows) ∧
  st'.(Chain.source).(TokenAccount.amount) = st.(Chain.source).(TokenAccount.amount) - row_taken rows ∧
  (∀ h, is_Some (st'.(Chain.receipts) !! h) ↔ is_Some (st.(Chain.receipts) !! h) ∨ h ∈ row_hashes rows).
Proof.
  revert st. induction rows as [|[acc p] rows IH]; intros st; cbn [execute_payments].
  { intros [= <-]. cbn. split_and!; try lia. intros h. rewrite elem_of_nil. tauto. }
  intros (st1 & (_ & _ & ->)%execute_payment_iff & (Hs & Hc & Hb & Hr)%IH)%pbind_ok. cbn [row_total row_taken length].
  rewrite Hs, Hc, Hb. cbn [settle settled_mandate Chain.mandate Chain.source PaymentMandate.amount_spent PaymentMandate.payment_count].
  split_and!; try lia.
  - unfold moved, transfer_of. cbn. case_bool_decide; cbn; lia.
  - intros h. rewrite Hr. cbn [settle Chain.receipts]. rewrite lookup_insert_is_Some'. unfold row_hashes at 2. cbn [map snd].
    rewrite elem_of_cons. naive_solver.
Qed.

(** What a batch asks for that preflight of its rows does not see *)
Definition rows_accepted (rows : Rows) (st : Chain.t) : Prop :=
  Forall (λ row, accounts_agree row.1 st) rows ∧ NoDup (row_hashes rows) ∧
  (rows ≠ [] → st.(Chain.mandate).(PaymentMandate.payment_count) + Z.of_nat (length rows) <= U64_MAX).

(** A transaction that succeeds met it. *)
Lemma execute_payments_accepted mk slot rows st st' :
  execute_payments mk slot rows st = POk st' →
  rows_accepted rows st ∧ ∀ h, h ∈ row_hashes rows → st.(Chain.receipts) !! h = None.
Proof.
  revert st. induction rows as [|[acc p] rows IH]; intros st; cbn [execute_payments].
  { intros _. split; [|by intros h []%elem_of_nil]. split_and!; [constructor|constructor|done]. }
  intros (st1 & (Hag & Hfit & ->)%execute_payment_iff & ((H1 & H2 & H3) & H4)%IH)%pbind_ok. split; [split_and!|].
  - constructor; [done|]. eapply Forall_impl; [exact H1|]. intros row Hrow. exact (proj1 (agree_settled mk acc slot p st row.1) Hrow).
  - constructor; [|done]. intros Hin%H4. cbn in Hin. by rewrite lookup_insert_eq in Hin.
  - intros _. pose proof (fit_count_u64 _ _ _ _ _ Hfit). destruct rows as [|row rows]; [cbn; lia|].
    specialize (H3 ltac:(done)). cbn in H3 |- *. lia.
  - intros h [->|Hin]%elem_of_cons; [exact (fit_new _ _ _ _ _ Hfit)|]. specialize (H4 h Hin). cbn in H4.
    by apply lookup_insert_None in H4 as [? _].
Qed.

Lemma execute_payments_ok mk slot rows st :
  is_u64 slot → Forall (row_settles mk slot st) rows → rows_fit slot rows st →
  ∃ st', execute_payments mk slot rows st = POk st'.
Proof.
  intros Hslot. revert st. induction rows as [|[acc p] rows IH]; intros st Hrows Hfit; cbn [execute_payments]; [by eexists|].
  inversion_clear Hrows as [|? ? Hrow Hrows'].
  rewrite (proj2 (execute_payment_iff mk acc slot p st _)) by exact (conj (proj1 Hrow) (conj (proj2 Hrow) eq_refl)). cbn [pbind].
  apply IH; [|by eapply rows_fit_after]. apply Forall_forall. intros row Hin. by eapply row_settles_after.
Qed.
