(* ===== verification/Accounts.v ===== *)
(** * Account decoding (sdk/src/accounts.ts)

    Decoders for the four program accounts, and the proofs that they read back
    what the on-chain program lays out ([Program.mandate_account],
    [Program.receipt_account]), accept longer accounts, and throw on anything
    shorter or with another discriminator. *)
From Stdlib Require Import ZArith Lia Strings.Byte.
From stdpp Require Import base numbers strings list.
From S2P Require Import Prelude Bytes PublicKey Types Encoding Program.

Section Accounts.
Context `{K : PublicKeys}.

(** [PublicKey.default.toBase58()] *)
Definition DEFAULT_ADDRESS : Address := toBase58 (zero_bytes 32).

Definition requireLength (data : bytes) (len : nat) (accountName : string) : result unit :=
  throw_if! Nat.ltb (length data) len with (accountName +:+ " account data is truncated");
  Ok tt.

Definition mandateStatus (paused revoked : bool) (expiresAtSlot : Z) (currentSlot : option Z)
    : MandateStatus :=
  if revoked then Types.revoked
  else if paused then Types.paused
  else match currentSlot with
       | Some slot => if expiresAtSlot <=? slot then expired else active
       | None => active
       end.

Definition decodeProtocolConfig (data : bytes) (configAddress : option Address)
    : result ProtocolConfig.t :=
  let! _ := assertDiscriminator data ACCOUNT_DISCRIMINATORS.protocolConfig "ProtocolConfig" in
  let! _ := requireLength data 137 "ProtocolConfig" in
  let! mints := sequence [readPublicKey data 40; readPublicKey data 72; readPublicKey data 104] in
  let supportedMints := filter (λ mint, mint ≠ DEFAULT_ADDRESS) mints in
  let! addr := match configAddress with
               | None | Some "" => Ok None
               | Some a => let! a' := address a in Ok (Some a')
               end in
  let! authority := readPublicKey data 8 in
  let! bump := readU8 data 136 in
  Ok (ProtocolConfig.mk addr authority supportedMints bump).

Definition decodeSupportedAsset (data : bytes) (assetAddress : Address)
    : result SupportedAsset.t :=
  let! _ := assertDiscriminator data ACCOUNT_DISCRIMINATORS.supportedAsset "SupportedAsset" in
  let! _ := requireLength data 106 "SupportedAsset" in
  let! addr := address assetAddress in
  let! authority := readPublicKey data 8 in
  let! mint := readPublicKey data 40 in
  let! tokenProgram := readPublicKey data 72 in
  let! enabled := readU8 data 104 in
  let! bump := readU8 data 105 in
  Ok (SupportedAsset.mk addr authority mint tokenProgram (negb (enabled =? 0)) bump).

Definition decodeMandate (data : bytes) (mandateAddress : Address) (currentSlot : option Z)
    (tokenProgram : option TokenProgram) : result Mandate.t :=
  let! _ := assertDiscriminator data ACCOUNT_DISCRIMINATORS.paymentMandate "PaymentMandate" in
  let! _ := requireLength data MANDATE_ACCOUNT_LENGTH "PaymentMandate" in
  let! expiresAtSlot := readU64 data 200 in
  let! maxPaymentCount := readU64 data 208 in
  let! cooldownSlots := readU64 data 216 in
  let! lastPaymentSlot := readU64 data 224 in
  let! paused_byte := readU8 data 232 in
  let! revoked_byte := readU8 data 233 in
  let paused := negb (paused_byte =? 0) in
  let revoked := negb (revoked_byte =? 0) in
  let! legacyAllowedRecipient := readPublicKey data 136 in
  let! is_nonce := isMandateNonce legacyAllowedRecipient in
  let mandateNonce := if (is_nonce : bool) then Some legacyAllowedRecipient else None in
  let! addr := address mandateAddress in
  let! owner := readPublicKey data 8 in
  let! approvedAgent := readPublicKey data 40 in
  let! sourceTokenAccount := readPublicKey data 72 in
  let! allowedMint := readPublicKey data 104 in
  let! maxPerPayment := readU64 data 168 in
  let! totalLimit := readU64 data 176 in
  let! amountSpent := readU64 data 184 in
  let! paymentCount := readU64 data 192 in
  Ok (Mandate.mk addr owner approvedAgent sourceTokenAccount allowedMint
    (if is_nonce || bool_decide (legacyAllowedRecipient = DEFAULT_ADDRESS)
     then None else Some legacyAllowedRecipient)
    maxPerPayment totalLimit amountSpent paymentCount expiresAtSlot maxPaymentCount
    cooldownSlots lastPaymentSlot paused revoked
    (mandateStatus paused revoked expiresAtSlot currentSlot) tokenProgram mandateNonce).

Definition paymentStatus (onChainStatus : Z) : PaymentStatus :=
  if onChainStatus =? RECEIPT_STATUS_SETTLED then confirmed else failed.

Definition RECEIPT_SNAPSHOT_VERSION_OFFSET : nat := RECEIPT_ACCOUNT_LENGTH.

Definition decodeReceiptPolicySnapshot (data : bytes)
    : result (option ReceiptPolicySnapshot.t) :=
  if Nat.ltb (length data) RECEIPT_ACCOUNT_LENGTH_V2 then Ok None
  else
    let! version := readU8 data RECEIPT_SNAPSHOT_VERSION_OFFSET in
    if version =? 0 then Ok None
    else
      let! maxPerPayment := readU64 data 283 in
      let! totalLimit := readU64 data 291 in
      let! amountSpentAfter := readU64 data 299 in
      let! paymentCountAfter := readU64 data 307 in
      let! maxPaymentCount := readU64 data 315 in
      let! expiresAtSlot := readU64 data 323 in
      let! cooldownSlots := readU64 data 331 in
      Ok (Some (ReceiptPolicySnapshot.mk version maxPerPayment totalLimit amountSpentAfter
        paymentCountAfter maxPaymentCount expiresAtSlot cooldownSlots)).

Definition decodePaymentReceipt (data : bytes) (receiptAddress : Address)
    (transactionSignature : option string) : result PaymentReceipt.t :=
  let! _ := assertDiscriminator data ACCOUNT_DISCRIMINATORS.paymentReceipt "PaymentReceipt" in
  let! _ := requireLength data RECEIPT_ACCOUNT_LENGTH "PaymentReceipt" in
  let! onChainStatus := readU8 data 280 in
  let! addr := address receiptAddress in
  let! mandate := readPublicKey data 8 in
  let! invoiceHash := readBytes32 data 40 "invoiceHash" in
  let! paymentId := readBytes32 data 72 "paymentId" in
  let! mint := readPublicKey data 104 in
  let! sourceTokenAccount := readPublicKey data 136 in
  let! recipientTokenAccount := readPublicKey data 168 in
  let! recipient := readPublicKey data 168 in
  let! amount := readU64 data 200 in
  let! agent := readPublicKey data 208 in
  let! executedAtSlot := readU64 data 240 in
  let! signatureReference := readBytes32 data 248 "signatureReference" in
  let! bump := readU8 data 281 in
  let! policySnapshot := decodeReceiptPolicySnapshot data in
  Ok (PaymentReceipt.mk addr mandate invoiceHash paymentId mint recipient sourceTokenAccount
    recipientTokenAccount amount agent executedAtSlot signatureReference
    (paymentStatus onChainStatus) onChainStatus bump transactionSignature policySnapshot).

Definition decodeCurrentMandateFields (data : bytes) (mandateAddress : Address)
    (currentSlot : option Z) : result Mandate.t :=
  decodeMandate data mandateAddress currentSlot None.
End Accounts.

(** ** What the decoders promise *)
Section AccountViews.
Context `{K : PublicKeys}.

(** The SDK's view of an on-chain mandate. *)
Definition mandate_view (addr : Address) (slot : option Z) (tp : option TokenProgram)
    (m : PaymentMandate.t) : Mandate.t :=
  let legacy := m.(PaymentMandate.legacy_allowed_recipient) in
  Mandate.mk addr
    (toBase58 m.(PaymentMandate.owner)) (toBase58 m.(PaymentMandate.approved_agent))
    (toBase58 m.(PaymentMandate.source_token_account)) (toBase58 m.(PaymentMandate.allowed_mint))
    (if is_mandate_nonce legacy || bool_decide (legacy = default_key)
     then None else Some (toBase58 legacy))
    m.(PaymentMandate.max_per_payment) m.(PaymentMandate.total_limit)
    m.(PaymentMandate.amount_spent) m.(PaymentMandate.payment_count)
    m.(PaymentMandate.expires_at_slot) m.(PaymentMandate.max_payment_count)
    m.(PaymentMandate.cooldown_slots) m.(PaymentMandate.last_payment_slot)
    m.(PaymentMandate.paused) m.(PaymentMandate.revoked)
    (mandateStatus m.(PaymentMandate.paused) m.(PaymentMandate.revoked)
      m.(PaymentMandate.expires_at_slot) slot)
    tp (if is_mandate_nonce legacy then Some (toBase58 legacy) else None).

Definition snapshot_view (r : Receipt.t) : option ReceiptPolicySnapshot.t :=
  if r.(Receipt.snapshot_version) =? 0 then None
  else Some (ReceiptPolicySnapshot.mk r.(Receipt.snapshot_version)
    r.(Receipt.policy_max_per_payment) r.(Receipt.policy_total_limit)
    r.(Receipt.policy_amount_spent_after) r.(Receipt.policy_payment_count_after)
    r.(Receipt.policy_max_payment_count) r.(Receipt.policy_expires_at_slot)
    r.(Receipt.policy_cooldown_slots)).

(** The SDK's view of a receipt, with the snapshot it found. *)
Definition receipt_view (addr : Address) (sig : option string)
    (snapshot : option ReceiptPolicySnapshot.t) (r : Receipt.t) : PaymentReceipt.t :=
  PaymentReceipt.mk addr (toBase58 r.(Receipt.mandate)) r.(Receipt.invoice_hash)
    r.(Receipt.payment_id) (toBase58 r.(Receipt.mint))
    (toBase58 r.(Receipt.recipient_token_account))
    (toBase58 r.(Receipt.source_token_account))
    (toBase58 r.(Receipt.recipient_token_account))
    r.(Receipt.amount) (toBase58 r.(Receipt.agent)) r.(Receipt.executed_at_slot)
    r.(Receipt.signature_reference) (paymentStatus r.(Receipt.status))
    r.(Receipt.status) r.(Receipt.bump) sig snapshot.
End AccountViews.

(** ** Field reads *)

Lemma requireLength_ok data n name u : requireLength data n name = Ok u → (n <= length data)%nat.
Proof. unfold requireLength. intros H. inv_ok H. by apply Nat.ltb_ge in G. Qed.

Lemma requireLength_ge data n name : (n <= length data)%nat → requireLength data n name = Ok tt.
Proof. intros H. unfold requireLength. by rewrite (proj2 (Nat.ltb_ge _ _)). Qed.

Lemma flag_byte_val b : negb (byte_val (byte_of (if b : bool then 1 else 0)) =? 0) = b.
Proof. by destruct b. Qed.

Lemma byte_at_slice data o b : slice data o 1 = [b] → byte_at data o = byte_val b.
Proof. unfold byte_at. by intros ->. Qed.

(** Every fixed-offset read of data long enough succeeds. *)
Ltac reads :=
  repeat first
    [ rewrite readU64_slice by lia
    | rewrite readU8_byte_at by lia
    | rewrite readBytes32_slice by lia
    | rewrite readPublicKey_slice by lia ];
  cbn [bind].

Lemma isMandateNonce_toBase58 `{K : PublicKeys, KS : !PublicKeysSpec K} k :
  length k = 32%nat → isMandateNonce (toBase58 k) = Ok (is_mandate_nonce k).
Proof.
  intros H. unfold isMandateNonce. rewrite publicKey_toBase58 by done. cbn [bind]. f_equal.
  unfold is_mandate_nonce. apply eq_true_iff_eq.
  rewrite discriminator_matches_prefix, bool_decide_eq_true.
  split.
  - intros [rest ->]. by rewrite take_app_length'.
  - intros <-. apply prefix_take.
Qed.

(** ** Mandates *)

(** The on-chain fields at their offsets. *)
Definition parse_mandate (d : bytes) : PaymentMandate.t :=
  PaymentMandate.mk (slice d 8 32) (slice d 40 32) (slice d 72 32) (slice d 104 32) (slice d 136 32)
    (le_val (slice d 168 8)) (le_val (slice d 176 8)) (le_val (slice d 184 8)) (le_val (slice d 192 8))
    (le_val (slice d 200 8)) (le_val (slice d 208 8)) (le_val (slice d 216 8)) (le_val (slice d 224 8))
    (negb (byte_at d 232 =? 0)) (negb (byte_at d 233 =? 0)) (byte_at d 234).

Section MandateLemmas.
Context `{K : PublicKeys, KS : !PublicKeysSpec K}.

Lemma default_address_iff k :
  length k = 32%nat → (toBase58 k = DEFAULT_ADDRESS ↔ k = default_key).
Proof. intros H. split; [|by intros ->]. by apply toBase58_inj. Qed.

Lemma decodeMandate_parse d addr slot tp :
  ACCOUNT_DISCRIMINATORS.paymentMandate `prefix_of` d →
  (MANDATE_ACCOUNT_LENGTH <= length d)%nat → valid_address addr →
  decodeMandate d addr slot tp = Ok (mandate_view addr slot tp (parse_mandate d)).
Proof.
  intros [rest ->] Hlen Haddr. unfold decodeMandate.
  rewrite assertDiscriminator_app, requireLength_ge by done.
  set (d := _ ++ rest) in *. unfold MANDATE_ACCOUNT_LENGTH in Hlen. cbn [bind].
  reads. rewrite isMandateNonce_toBase58 by (apply slice_length; lia). cbn [bind].
  rewrite (address_valid addr) by done. cbn [bind]. reads.
  unfold mandate_view, parse_mandate. simpl. f_equal. f_equal.
  assert (length (slice d 136 32) = 32%nat) as L by (apply slice_length; lia).
  rewrite (bool_decide_ext (toBase58 (slice d 136 32) = DEFAULT_ADDRESS) (slice d 136 32 = default_key))
    by by apply default_address_iff.
  done.
Qed.

Lemma decodeMandate_ok_inv d addr slot tp v :
  decodeMandate d addr slot tp = Ok v →
  ACCOUNT_DISCRIMINATORS.paymentMandate `prefix_of` d ∧
  (MANDATE_ACCOUNT_LENGTH <= length d)%nat ∧ valid_address addr ∧
  v = mandate_view addr slot tp (parse_mandate d).
Proof.
  intros H. assert (H' := H). unfold decodeMandate in H. inv_ok H.
  apply assertDiscriminator_ok in E. apply requireLength_ok in E0.
  match goal with E : address addr = Ok _ |- _ => apply address_ok in E as [-> Ha] end.
  rewrite decodeMandate_parse in H' by done. by injection H' as <-.
Qed.
End MandateLemmas.

Lemma mandate_account_length m : mandate_wf m → length (mandate_account m) = MANDATE_ACCOUNT_LENGTH.
Proof.
  intros []. unfold mandate_account, u64_bytes, is_key in *.
  rewrite !length_app, !le_bytes_length.
  change (length ACCOUNT_DISCRIMINATORS.paymentMandate) with 8%nat.
  unfold MANDATE_ACCOUNT_LENGTH, flag_byte, u8_bytes. cbn [length]. lia.
Qed.

(** Reduce the projections of an explicit record, and nothing else. *)
Ltac mandate_fields :=
  cbn [PaymentMandate.owner PaymentMandate.approved_agent PaymentMandate.source_token_account
    PaymentMandate.allowed_mint PaymentMandate.legacy_allowed_recipient PaymentMandate.max_per_payment
    PaymentMandate.total_limit PaymentMandate.amount_spent PaymentMandate.payment_count
    PaymentMandate.expires_at_slot PaymentMandate.max_payment_count PaymentMandate.cooldown_slots
    PaymentMandate.last_payment_slot PaymentMandate.paused PaymentMandate.revoked
    PaymentMandate.bump] in *.

Lemma parse_mandate_account m extra :
  mandate_wf m → 0 <= m.(PaymentMandate.bump) < 256 →
  parse_mandate (mandate_account m ++ extra) = m.
Proof.
  intros [] Hbump. unfold is_key, is_u64 in *. destruct m. mandate_fields.
  unfold mandate_account, u64_bytes, u8_bytes, flag_byte. mandate_fields.
  rewrite <- !app_assoc. set (disc := ACCOUNT_DISCRIMINATORS.paymentMandate).
  assert (length disc = 8%nat) by done. clearbody disc.
  unfold parse_mandate, byte_at.
  f_equal; slices; rewrite ?u64_le_val by done;
    first [done | apply flag_byte_val | by apply byte_of_small].
Qed.

(** ** Receipts *)

Definition parse_snapshot (d : bytes) : option ReceiptPolicySnapshot.t :=
  if Nat.ltb (length d) RECEIPT_ACCOUNT_LENGTH_V2 then None
  else if byte_at d 282 =? 0 then None
  else Some (ReceiptPolicySnapshot.mk (byte_at d 282) (le_val (slice d 283 8)) (le_val (slice d 291 8))
    (le_val (slice d 299 8)) (le_val (slice d 307 8)) (le_val (slice d 315 8)) (le_val (slice d 323 8))
    (le_val (slice d 331 8))).

Lemma decodeReceiptPolicySnapshot_parse d :
  decodeReceiptPolicySnapshot d = Ok (parse_snapshot d).
Proof.
  unfold decodeReceiptPolicySnapshot, parse_snapshot, RECEIPT_SNAPSHOT_VERSION_OFFSET.
  destruct (Nat.ltb (length d) RECEIPT_ACCOUNT_LENGTH_V2) eqn:E; [done|].
  apply Nat.ltb_ge in E. unfold RECEIPT_ACCOUNT_LENGTH_V2, RECEIPT_ACCOUNT_LENGTH in *.
  reads. by destruct (_ =? 0).
Qed.

Section ReceiptLemmas.
Context `{K : PublicKeys, KS : !PublicKeysSpec K}.

Definition parse_receipt (addr : Address) (sig : option string) (d : bytes) : PaymentReceipt.t :=
  PaymentReceipt.mk addr (toBase58 (slice d 8 32)) (slice d 40 32) (slice d 72 32)
    (toBase58 (slice d 104 32)) (toBase58 (slice d 168 32)) (toBase58 (slice d 136 32))
    (toBase58 (slice d 168 32)) (le_val (slice d 200 8)) (toBase58 (slice d 208 32))
    (le_val (slice d 240 8)) (slice d 248 32) (paymentStatus (byte_at d 280)) (byte_at d 280)
    (byte_at d 281) sig (parse_snapshot d).

Lemma decodePaymentReceipt_parse d addr sig :
  ACCOUNT_DISCRIMINATORS.paymentReceipt `prefix_of` d →
  (RECEIPT_ACCOUNT_LENGTH <= length d)%nat → valid_address addr →
  decodePaymentReceipt d addr sig = Ok (parse_receipt addr sig d).
Proof.
  intros [rest ->] Hlen Haddr. unfold decodePaymentReceipt.
  rewrite assertDiscriminator_app, requireLength_ge by done.
  set (d := _ ++ rest) in *. unfold RECEIPT_ACCOUNT_LENGTH in Hlen. cbn [bind].
  reads. rewrite (address_valid addr) by done. cbn [bind]. reads.
  rewrite decodeReceiptPolicySnapshot_parse. done.
Qed.
End ReceiptLemmas.

Ltac receipt_fields :=
  cbn [Receipt.mandate Receipt.invoice_hash Receipt.payment_id Receipt.mint
    Receipt.source_token_account Receipt.recipient_token_account Receipt.amount Receipt.agent
    Receipt.executed_at_slot Receipt.signature_reference Receipt.status Receipt.bump
    Receipt.snapshot_version Receipt.policy_max_per_payment Receipt.policy_total_limit
    Receipt.policy_amount_spent_after Receipt.policy_payment_count_after
    Receipt.policy_max_payment_count Receipt.policy_expires_at_slot Receipt.policy_cooldown_slots
    Receipt.reserved] in *.

Lemma receipt_v1_length r : receipt_wf r → length (receipt_account_v1 r) = RECEIPT_ACCOUNT_LENGTH.
Proof.
  intros []. unfold receipt_account_v1, u64_bytes, is_key in *.
  rewrite !length_app, !le_bytes_length.
  change (length ACCOUNT_DISCRIMINATORS.paymentReceipt) with 8%nat.
  unfold RECEIPT_ACCOUNT_LENGTH, u8_bytes. cbn [length]. lia.
Qed.

Lemma receipt_tail_length r :
  receipt_wf r → length (receipt_tail r) = (RECEIPT_ACCOUNT_LENGTH_V2 - RECEIPT_ACCOUNT_LENGTH)%nat.
Proof.
  intros []. unfold receipt_tail, u64_bytes, is_key in *.
  rewrite !length_app, !le_bytes_length. unfold u8_bytes. cbn [length]. unfold RECEIPT_ACCOUNT_LENGTH_V2, RECEIPT_ACCOUNT_LENGTH. lia.
Qed.

Lemma parse_receipt_v1 `{K : PublicKeys} addr sig r rest :
  receipt_wf r →
  parse_receipt addr sig (receipt_account_v1 r ++ rest) =
    receipt_view addr sig (parse_snapshot (receipt_account_v1 r ++ rest)) r.
Proof.
  intros W. unfold parse_receipt, receipt_view. generalize (parse_snapshot (receipt_account_v1 r ++ rest)).
  intros snap. destruct W. unfold is_key, is_u64 in *. destruct r. receipt_fields.
  unfold receipt_account_v1, u64_bytes, u8_bytes. receipt_fields.
  rewrite <- !app_assoc. set (disc := ACCOUNT_DISCRIMINATORS.paymentReceipt).
  assert (length disc = 8%nat) by done. clearbody disc.
  unfold byte_at. f_equal; slices; rewrite ?u64_le_val by done; first [done | by apply byte_of_small | idtac].
  f_equal. by apply byte_of_small.
Qed.

Lemma parse_snapshot_tail r extra :
  receipt_wf r → parse_snapshot (receipt_account r ++ extra) = snapshot_view r.
Proof.
  intros W. unfold parse_snapshot.
  pose proof (receipt_v1_length _ W) as L1. pose proof (receipt_tail_length _ W) as L2.
  unfold receipt_account, RECEIPT_ACCOUNT_LENGTH_V2, RECEIPT_ACCOUNT_LENGTH in *.
  rewrite (proj2 (Nat.ltb_ge _ _)) by (rewrite !length_app; lia).
  rewrite <- app_assoc. set (v1 := receipt_account_v1 r) in *. clearbody v1.
  destruct W. unfold is_key, is_u64 in *. destruct r. receipt_fields.
  unfold receipt_tail, snapshot_view, u64_bytes, u8_bytes. receipt_fields.
  rewrite <- !app_assoc. unfold byte_at.
  slices. simpl. rewrite byte_of_small, !u64_le_val by done. done.
Qed.

(** ** Properties *)
Section AccountProperties.
Context `{K : PublicKeys, KS : !PublicKeysSpec K}.

(** Decoding a mandate account the program wrote, whatever bytes follow
    it, gives exactly the program's fields as the SDK names them: base58
    keys, the nonce or the legacy recipient (never both, and neither for the
    default key), and the status computed from the flags and the slot. *)
Theorem decodeMandate_roundtrip (m : PaymentMandate.t) (addr : Address) (slot : option Z)
    (tp : option TokenProgram) (extra : bytes) :
  mandate_wf m → 0 <= m.(PaymentMandate.bump) < 256 → valid_address addr →
  decodeMandate (mandate_account m ++ extra) addr slot tp = Ok (mandate_view addr slot tp m).
Proof.
  intros W Hb Ha. rewrite decodeMandate_parse; [by rewrite parse_mandate_account | | | done].
  - unfold mandate_account. rewrite <- app_assoc. by apply prefix_app_r.
  - rewrite length_app, mandate_account_length by done. lia.
Qed.

(** [decodeMandate] returns exactly on data that starts with the
    PaymentMandate discriminator and has at least 235 bytes (and a valid
    account address), and then returns the fields at their offsets; on
    anything else it throws. *)
Theorem decodeMandate_accepts (d : bytes) (addr : Address) (slot : option Z)
    (tp : option TokenProgram) (v : Mandate.t) :
  decodeMandate d addr slot tp = Ok v ↔
    ACCOUNT_DISCRIMINATORS.paymentMandate `prefix_of` d ∧
    (MANDATE_ACCOUNT_LENGTH <= length d)%nat ∧ valid_address addr ∧
    v = mandate_view addr slot tp (parse_mandate d).
Proof.
  split; [apply decodeMandate_ok_inv|].
  intros (? & ? & ? & ->). by apply decodeMandate_parse.
Qed.

(** A receipt decodes the same way from both account sizes.  A current
    (371-byte) receipt gives every field and its policy snapshot, unless the
    version byte is 0; an original 282-byte receipt, or one cut anywhere
    before byte 371, gives the same fields and no snapshot. *)
Theorem decodePaymentReceipt_roundtrip (r : Receipt.t) (addr : Address)
    (sig : option string) (extra : bytes) :
  receipt_wf r → valid_address addr →
  decodePaymentReceipt (receipt_account r ++ extra) addr sig
    = Ok (receipt_view addr sig (snapshot_view r) r) ∧
  ((length extra < RECEIPT_ACCOUNT_LENGTH_V2 - RECEIPT_ACCOUNT_LENGTH)%nat →
    decodePaymentReceipt (receipt_account_v1 r ++ extra) addr sig
      = Ok (receipt_view addr sig None r)).
Proof.
  intros W Ha. pose proof (receipt_v1_length _ W) as L. split.
  - rewrite decodePaymentReceipt_parse; [| | |done].
    + rewrite <- (parse_snapshot_tail r extra W). unfold receipt_account.
      rewrite <- app_assoc. f_equal. by apply parse_receipt_v1.
    + unfold receipt_account, receipt_account_v1. rewrite <- !app_assoc. by apply prefix_app_r.
    + unfold receipt_account. rewrite !length_app. lia.
  - intros Hx. rewrite decodePaymentReceipt_parse; [| | |done].
    + rewrite parse_receipt_v1 by done. f_equal. f_equal. unfold parse_snapshot.
      rewrite (proj2 (Nat.ltb_lt _ _)); [done|]. rewrite length_app. lia.
    + unfold receipt_account_v1. rewrite <- !app_assoc. by apply prefix_app_r.
    + rewrite length_app. lia.
Qed.
End AccountProperties.

(** The status shown for a mandate: revoked wins over paused, paused over
    expired; a mandate is expired from its expiry slot on, and never without a
    known slot. *)
Theorem mandateStatus_spec (paused revoked : bool) (expiresAt : Z) (slot : option Z) :
  (mandateStatus paused revoked expiresAt slot = Types.revoked ↔ revoked = true) ∧
  (mandateStatus paused revoked expiresAt slot = Types.paused ↔ revoked = false ∧ paused = true) ∧
  (mandateStatus paused revoked expiresAt slot = expired ↔
    revoked = false ∧ paused = false ∧ ∃ s, slot = Some s ∧ expiresAt <= s) ∧
  (mandateStatus paused revoked expiresAt slot = active ↔
    revoked = false ∧ paused = false ∧ ∀ s, slot = Some s → s < expiresAt).
Proof.
  unfold mandateStatus. destruct revoked, paused, slot as [s|]; try naive_solver.
  destruct (expiresAt <=? s) eqn:E; bool_reflect; repeat split; try naive_solver lia.
Qed.

(** ** Witnesses *)

Definition sample_mandate : PaymentMandate.t :=
  PaymentMandate.mk (sample_key 11) (sample_key 12) (sample_key 13) (sample_key 14)
    (MANDATE_NONCE_PREFIX ++ le_bytes 24 5) 1000 5000 1200 2 900 10 0 100 false false 254.

Definition sample_receipt : Receipt.t :=
  Receipt.mk (sample_key 21) (sample_key 22) (sample_key 23) (sample_key 14) (sample_key 13)
    (sample_key 24) 700 (sample_key 12) 120 (sample_key 25) 1 253 1 1000 5000 1900 3 10 900 0
    (zero_bytes 32).

Lemma sample_mandate_wf : mandate_wf sample_mandate.
Proof. by constructor. Qed.

Lemma sample_receipt_wf : receipt_wf sample_receipt.
Proof. by constructor. Qed.

Lemma sample_address_valid n : @valid_address Base58.keys (base58_encode (sample_key n)).
Proof. apply (@valid_toBase58 Base58.keys Base58.keys_spec). apply le_bytes_length. Qed.

Lemma decodeMandate_roundtrip_witness :
  mandate_wf sample_mandate ∧
  @decodeMandate Base58.keys (mandate_account sample_mandate ++ [x00])
      (base58_encode (sample_key 3)) (Some 120) (Some spl_token)
    = Ok (@mandate_view Base58.keys (base58_encode (sample_key 3)) (Some 120) (Some spl_token) sample_mandate).
Proof.
  split; [apply sample_mandate_wf|].
  exact (@decodeMandate_roundtrip Base58.keys Base58.keys_spec sample_mandate
    (base58_encode (sample_key 3)) (Some 120) (Some spl_token) [x00]
    sample_mandate_wf ltac:(simpl; lia) (sample_address_valid 3)).
Defined.

Lemma decodeMandate_accepts_witness :
  ¬ ∃ v, @decodeMandate Base58.keys (take 234 (mandate_account sample_mandate))
    (base58_encode (sample_key 3)) None None = Ok v.
Proof.
  intros (v & H). apply (@decodeMandate_accepts Base58.keys Base58.keys_spec) in H as (_ & L & _).
  vm_compute in L. lia.
Defined.

Lemma decodePaymentReceipt_roundtrip_witness :
  receipt_wf sample_receipt ∧
  @decodePaymentReceipt Base58.keys (receipt_account sample_receipt ++ [])
      (base58_encode (sample_key 3)) None
    = Ok (@receipt_view Base58.keys (base58_encode (sample_key 3)) None
        (snapshot_view sample_receipt) sample_receipt).
Proof.
  split; [apply sample_receipt_wf|].
  exact (proj1 (@decodePaymentReceipt_roundtrip Base58.keys Base58.keys_spec sample_receipt
    (base58_encode (sample_key 3)) None [] sample_receipt_wf (sample_address_valid 3))).
Defined.
