(* ===== verification/Mandate.v ===== *)
(** * Mandate transactions (sdk/src/mandate.ts)

    Builders for the owner's transactions.  [Keypair.generate()] is the
    argument [generated] (the random key's 32 bytes) of the functions that may
    call it.  Arguments are evaluated in the source's order, so the first
    failing check decides the error. *)
From Stdlib Require Import ZArith Lia Strings.Byte.
From stdpp Require Import base numbers strings list.
From S2P Require Import Prelude Bytes PublicKey Types Encoding Pda Program Accounts.

Module CreateMandateInput.
Record t : Type := mk {
  approvedAgent : Address;
  sourceTokenAccount : Address;
  allowedMint : Address;
  maxPerPayment : Z;
  totalLimit : Z;
  expiresAtSlot : Z;
  maxPaymentCount : Z;
  cooldownSlots : Z;
  tokenProgram : TokenProgram;
  delegateAmount : option Z;
  mandateNonce : option Address;
}.

(** [{ ...input, mandateNonce }] *)
Definition with_nonce (i : t) (nonce : Address) : t :=
  mk i.(approvedAgent) i.(sourceTokenAccount) i.(allowedMint) i.(maxPerPayment) i.(totalLimit)
    i.(expiresAtSlot) i.(maxPaymentCount) i.(cooldownSlots) i.(tokenProgram) i.(delegateAmount)
    (Some nonce).
End CreateMandateInput.

Module UpdateMandateInput.
Record t : Type := mk {
  approvedAgent : Address;
  maxPerPayment : Z;
  totalLimit : Z;
  expiresAtSlot : Z;
  maxPaymentCount : Z;
  cooldownSlots : Z;
  paused : bool;
}.
End UpdateMandateInput.

Section Mandate.
Context `{K : PublicKeys}.

(** [bytes.set(MANDATE_NONCE_PREFIX, 0)] over a generated key *)
Definition createMandateNonce (generated : bytes) : Address :=
  toBase58 (MANDATE_NONCE_PREFIX ++ drop 8 generated).

Definition normalizedMandateNonce (generated : bytes) (input : CreateMandateInput.t)
    : result Address :=
  let nonce := match input.(CreateMandateInput.mandateNonce) with
               | Some n => n
               | None => createMandateNonce generated
               end in
  let! _ := publicKey nonce in
  let! ok := isMandateNonce nonce in
  throw_if! negb ok with "mandateNonce must be generated by ChainPay and include its nonce prefix";
  Ok nonce.

Definition buildInitializeConfigInstruction (supportedMints : list Address)
    (authority programId : Address) : result ChainPayInstruction.t :=
  throw_if! negb (Nat.eqb (length supportedMints) 3)
    with "initialize_config requires exactly three mint slots";
  let! _ := publicKey authority in
  let! _ := traverse publicKey supportedMints in
  let! keys := sequence [
    (let! config := deriveConfigAddress programId in meta config true false);
    meta authority true true;
    systemProgramMeta] in
  let! data := encodeInitializeConfig supportedMints in
  instruction "initialize_config" programId keys data.

Definition validateMandateInput (generated : bytes) (input : CreateMandateInput.t) : result unit :=
  let! _ := publicKey input.(CreateMandateInput.approvedAgent) in
  let! _ := publicKey input.(CreateMandateInput.sourceTokenAccount) in
  let! _ := publicKey input.(CreateMandateInput.allowedMint) in
  let! _ := normalizedMandateNonce generated input in
  let! _ := writeU64 input.(CreateMandateInput.maxPerPayment) "maxPerPayment" in
  let! _ := writeU64 input.(CreateMandateInput.totalLimit) "totalLimit" in
  let! _ := writeU64 input.(CreateMandateInput.expiresAtSlot) "expiresAtSlot" in
  let! _ := writeU64 input.(CreateMandateInput.maxPaymentCount) "maxPaymentCount" in
  let! _ := writeU64 input.(CreateMandateInput.cooldownSlots) "cooldownSlots" in
  throw_if! input.(CreateMandateInput.maxPerPayment) <=? 0 with "maxPerPayment must be positive";
  throw_if! input.(CreateMandateInput.totalLimit) <? input.(CreateMandateInput.maxPerPayment)
    with "totalLimit must cover maxPerPayment";
  throw_if! input.(CreateMandateInput.expiresAtSlot) <=? 0 with "expiresAtSlot must be positive";
  match input.(CreateMandateInput.delegateAmount) with
  | None => Ok tt
  | Some amount =>
      let! _ := writeU64 amount "delegateAmount" in
      throw_if! amount <=? 0 with "delegateAmount must be positive";
      Ok tt
  end.

Definition buildCreateMandateInstruction (generated : bytes) (input : CreateMandateInput.t)
    (owner programId : Address) : result ChainPayInstruction.t :=
  let! mandateNonce := normalizedMandateNonce generated input in
  let i := CreateMandateInput.with_nonce input mandateNonce in
  let! _ := validateMandateInput generated i in
  let! config := deriveConfigAddress programId in
  let! asset := deriveAssetAddress i.(CreateMandateInput.allowedMint) programId in
  let! mandate := deriveVersionedMandateAddress owner i.(CreateMandateInput.allowedMint)
    mandateNonce programId in
  let tokenProgram := tokenProgramAddress i.(CreateMandateInput.tokenProgram) in
  let! keys := sequence [
    meta config false false;
    meta asset false false;
    meta mandate true false;
    meta owner true true;
    meta i.(CreateMandateInput.allowedMint) false false;
    meta i.(CreateMandateInput.sourceTokenAccount) false false;
    meta tokenProgram false false;
    systemProgramMeta] in
  let! data := encodeCreateMandate i.(CreateMandateInput.approvedAgent)
    i.(CreateMandateInput.sourceTokenAccount) i.(CreateMandateInput.allowedMint)
    i.(CreateMandateInput.maxPerPayment) i.(CreateMandateInput.totalLimit)
    i.(CreateMandateInput.expiresAtSlot) i.(CreateMandateInput.maxPaymentCount)
    i.(CreateMandateInput.cooldownSlots) mandateNonce in
  instruction "create_mandate" programId keys data.

Definition buildRegisterAssetInstruction (mint : Address) (tokenProgram : TokenProgram)
    (authority programId : Address) : result ChainPayInstruction.t :=
  let! _ := publicKey mint in
  let! _ := publicKey authority in
  let! keys := sequence [
    (let! config := deriveConfigAddress programId in meta config false false);
    (let! asset := deriveAssetAddress mint programId in meta asset true false);
    meta authority false true;
    meta mint false false;
    meta (tokenProgramAddress tokenProgram) false false;
    systemProgramMeta] in
  let! data := encodeRegisterAsset mint in
  instruction "register_asset" programId keys data.

Definition buildSetAssetStatusInstruction (mint authority : Address) (enabled : bool)
    (programId : Address) : result ChainPayInstruction.t :=
  let! _ := publicKey mint in
  let! _ := publicKey authority in
  let! keys := sequence [
    (let! config := deriveConfigAddress programId in meta config false false);
    (let! asset := deriveAssetAddress mint programId in meta asset true false);
    meta authority false true] in
  instruction "set_asset_status" programId keys (encodeSetAssetStatus enabled).

Definition buildApproveDelegateInstruction (sourceTokenAccount allowedMint : Address)
    (tokenProgram : TokenProgram) (totalLimit : Z) (owner : Address)
    (mandate : option Address) (delegateAmount : option Z) (decimals : number)
    : result ChainPayInstruction.t :=
  let! mandate := match mandate with
                  | Some m => Ok m
                  | None => deriveMandateAddress owner DEFAULT_PROGRAM_ID None
                  end in
  let amount := default totalLimit delegateAmount in
  let! _ := writeU64 amount "delegateAmount" in
  let! keys := sequence [
    meta sourceTokenAccount true false;
    meta allowedMint false false;
    meta mandate false false;
    meta owner false true] in
  let! data := encodeApproveChecked amount decimals in
  instruction "approve_delegate" (tokenProgramAddress tokenProgram) keys data.

Definition buildRevokeDelegateInstruction (sourceTokenAccount owner : Address)
    (tokenProgram : TokenProgram) : result ChainPayInstruction.t :=
  let! keys := sequence [meta sourceTokenAccount true false; meta owner false true] in
  instruction "revoke_delegate" (tokenProgramAddress tokenProgram) keys encodeRevokeDelegate.

Definition buildCreateMandateTransaction (generated : bytes) (input : CreateMandateInput.t)
    (owner programId : Address) (decimals : option number) : result PreparedMandate.t :=
  let! mandateNonce := normalizedMandateNonce generated input in
  let i := CreateMandateInput.with_nonce input mandateNonce in
  let! _ := validateMandateInput generated i in
  let! mandateAddress := deriveVersionedMandateAddress owner
    input.(CreateMandateInput.allowedMint) mandateNonce programId in
  match decimals with
  | None => Throw "Token decimals are required to prepare delegate approval"
  | Some decimals =>
      let! create := buildCreateMandateInstruction generated i owner programId in
      let! approve := buildApproveDelegateInstruction
        i.(CreateMandateInput.sourceTokenAccount) i.(CreateMandateInput.allowedMint)
        i.(CreateMandateInput.tokenProgram) i.(CreateMandateInput.totalLimit) owner
        (Some mandateAddress) i.(CreateMandateInput.delegateAmount) decimals in
      let! configAddress := deriveConfigAddress programId in
      Ok (PreparedMandate.mk mandateAddress configAddress
        (PreparedTransaction.mk [create; approve] [owner] (Some owner)))
  end.

Definition mandate_or_default (owner programId : Address) (mandateAddress : option Address)
    : result Address :=
  match mandateAddress with
  | Some m => Ok m
  | None => deriveMandateAddress owner programId None
  end.

Definition buildUpdateMandateInstruction (input : UpdateMandateInput.t)
    (owner programId : Address) (mandateAddress : option Address)
    : result ChainPayInstruction.t :=
  let! _ := publicKey owner in
  let! _ := publicKey input.(UpdateMandateInput.approvedAgent) in
  let! _ := writeU64 input.(UpdateMandateInput.maxPerPayment) "maxPerPayment" in
  let! _ := writeU64 input.(UpdateMandateInput.totalLimit) "totalLimit" in
  let! _ := writeU64 input.(UpdateMandateInput.expiresAtSlot) "expiresAtSlot" in
  let! _ := writeU64 input.(UpdateMandateInput.maxPaymentCount) "maxPaymentCount" in
  let! _ := writeU64 input.(UpdateMandateInput.cooldownSlots) "cooldownSlots" in
  throw_if! input.(UpdateMandateInput.maxPerPayment) <=? 0 with "maxPerPayment must be positive";
  throw_if! input.(UpdateMandateInput.totalLimit) <? input.(UpdateMandateInput.maxPerPayment)
    with "totalLimit must cover maxPerPayment";
  let! keys := sequence [
    (let! m := mandate_or_default owner programId mandateAddress in meta m true false);
    meta owner false true] in
  let! data := encodeUpdateMandate input.(UpdateMandateInput.approvedAgent)
    input.(UpdateMandateInput.maxPerPayment) input.(UpdateMandateInput.totalLimit)
    input.(UpdateMandateInput.expiresAtSlot) input.(UpdateMandateInput.maxPaymentCount)
    input.(UpdateMandateInput.cooldownSlots) input.(UpdateMandateInput.paused) in
  instruction "update_mandate" programId keys data.

Definition buildPauseMandateInstruction (owner programId : Address)
    (mandateAddress : option Address) : result ChainPayInstruction.t :=
  let! keys := sequence [
    (let! m := mandate_or_default owner programId mandateAddress in meta m true false);
    meta owner false true] in
  instruction "pause_mandate" programId keys encodePauseMandate.

Definition buildRevokeMandateInstruction (owner programId : Address)
    (mandateAddress : option Address) : result ChainPayInstruction.t :=
  let! keys := sequence [
    (let! m := mandate_or_default owner programId mandateAddress in meta m true false);
    meta owner false true] in
  instruction "revoke_mandate" programId keys encodeRevokeMandate.
End Mandate.

#[local] Arguments app : simpl never.

(** ** What the checks accept *)
Section MandateLemmas.
Context `{K : PublicKeys, KS : !PublicKeysSpec K}.

Definition nonce_of (generated : bytes) (i : CreateMandateInput.t) : Address :=
  default (createMandateNonce generated) i.(CreateMandateInput.mandateNonce).

Definition valid_nonce (n : Address) : Prop :=
  ∃ k, publicKey n = Ok k ∧ is_mandate_nonce k = true.

Lemma normalizedMandateNonce_iff g i n :
  normalizedMandateNonce g i = Ok n ↔ n = nonce_of g i ∧ valid_nonce n.
Proof.
  unfold normalizedMandateNonce, nonce_of, valid_nonce.
  replace (match _ with Some m => m | None => createMandateNonce g end)
    with (default (createMandateNonce g) i.(CreateMandateInput.mandateNonce))
    by by destruct (CreateMandateInput.mandateNonce i).
  set (m := default _ _). clearbody m. split.
  - intros H. inv_ok H. apply negb_false_iff in G. subst. split; [done|]. exists a. split; [done|].
    destruct (publicKey_ok _ _ E) as [L <-]. rewrite isMandateNonce_toBase58 in E0 by done.
    by injection E0 as ->.
  - intros (-> & k & Hk & Hn). rewrite Hk. cbn [bind].
    destruct (publicKey_ok _ _ Hk) as [L <-]. rewrite isMandateNonce_toBase58 by done. cbn [bind].
    by rewrite Hn.
Qed.

(** The inputs [validateMandateInput] lets through. *)
Record valid_input (g : bytes) (i : CreateMandateInput.t) : Prop := {
  vi_agent : valid_address i.(CreateMandateInput.approvedAgent);
  vi_source : valid_address i.(CreateMandateInput.sourceTokenAccount);
  vi_mint : valid_address i.(CreateMandateInput.allowedMint);
  vi_nonce : valid_nonce (nonce_of g i);
  vi_limits : 0 < i.(CreateMandateInput.maxPerPayment) <= i.(CreateMandateInput.totalLimit)
    ∧ i.(CreateMandateInput.totalLimit) <= U64_MAX;
  vi_expiry : 0 < i.(CreateMandateInput.expiresAtSlot) <= U64_MAX;
  vi_count : is_u64 i.(CreateMandateInput.maxPaymentCount);
  vi_cooldown : is_u64 i.(CreateMandateInput.cooldownSlots);
  vi_delegate : ∀ a, i.(CreateMandateInput.delegateAmount) = Some a → 0 < a <= U64_MAX;
}.

Lemma publicKey_valid_iff s : valid_address s ↔ ∃ k, publicKey s = Ok k.
Proof.
  split; [|by intros (k & ?%publicKey_valid)].
  intros (k & Hk). exists k. by apply publicKey_new.
Qed.

Lemma validateMandateInput_valid g i u : validateMandateInput g i = Ok u → valid_input g i.
Proof.
  unfold validateMandateInput. intros H. inv_ok H. bool_reflect.
  repeat match goal with
  | E : writeU64 _ _ = Ok _ |- _ => apply writeU64_ok in E as [? _]
  | E : publicKey _ = Ok _ |- _ => apply publicKey_valid in E
  | E : normalizedMandateNonce _ _ = Ok _ |- _ => apply normalizedMandateNonce_iff in E as [-> ?]
  end.
  constructor; try done; unfold is_u64; try lia.
  intros amount Ea. rewrite Ea in H. inv_ok H. bool_reflect.
  match goal with E : writeU64 amount _ = Ok _ |- _ => apply writeU64_ok in E as [? _] end. lia.
Qed.

Lemma valid_input_validates g i : valid_input g i → validateMandateInput g i = Ok tt.
Proof.
  intros [Ha Hs Hm Hn Hl He Hc Hd Hdel]. unfold validateMandateInput, is_u64 in *.
  apply publicKey_valid_iff in Ha as (? & ->), Hs as (? & ->), Hm as (? & ->). cbn [bind].
  rewrite (proj2 (normalizedMandateNonce_iff g i _)) by done. cbn [bind].
  rewrite !writeU64_in_range by lia. cbn [bind].
  rewrite (proj2 (Z.leb_gt _ _)), (proj2 (Z.ltb_ge _ _)), (proj2 (Z.leb_gt _ _)) by lia.
  destruct (CreateMandateInput.delegateAmount i) as [a|]; [|done].
  specialize (Hdel a eq_refl). rewrite writeU64_in_range by lia. cbn [bind].
  by rewrite (proj2 (Z.leb_gt _ _)) by lia.
Qed.

(** ** The instruction bytes *)

Lemma encodeCreateMandate_params agent source mint max total expires count cooldown nonce data :
  encodeCreateMandate agent source mint max total expires count cooldown nonce = Ok data →
  ∃ ka ks km kn,
    publicKey agent = Ok ka ∧ publicKey source = Ok ks ∧ publicKey mint = Ok km ∧
    publicKey nonce = Ok kn ∧
    create_mandate_params data = Some (MandateParams.mk ka ks km max total expires count cooldown kn).
Proof.
  unfold encodeCreateMandate. intros (ps & Hps & ->)%concat_parts_ok.
  destruct ps as [|p0 [|ka [|ks [|km [|b1 [|b2 [|b3 [|b4 [|b5 [|kn [|]]]]]]]]]]]; simplify_eq/=.
  exists ka, ks, km, kn. split_and!; try done.
  repeat match goal with
  | E : writeU64 _ _ = Ok _ |- _ => apply writeU64_ok in E as [? ->]
  | E : publicKey _ = Ok _ |- _ => apply publicKey_ok in E as [? _]
  end.
  set (disc := DISCRIMINATORS.createMandate). assert (length disc = 8%nat) by done.
  unfold create_mandate_params. fold disc. clearbody disc. rewrite app_nil_r.
  rewrite take_app_length', bool_decide_true by done.
  rewrite (proj2 (Nat.leb_le _ _)) by (rewrite !length_app, !le_bytes_length; lia). cbn [andb].
  f_equal. f_equal; slices; rewrite ?u64_le_val by done; done.
Qed.
End MandateLemmas.

(** ** Properties *)
Section MandateProperties.
Context `{K : PublicKeys, KS : !PublicKeysSpec K}.

Lemma with_nonce_of g i n : nonce_of g (CreateMandateInput.with_nonce i n) = n.
Proof. done. Qed.

Lemma buildCreateMandateInstruction_ok g i owner prog ix :
  buildCreateMandateInstruction g i owner prog = Ok ix →
  let nonce := nonce_of g i in
  ∃ config asset mandate data,
    valid_input g (CreateMandateInput.with_nonce i nonce) ∧
    deriveVersionedMandateAddress owner i.(CreateMandateInput.allowedMint) nonce prog = Ok mandate ∧
    encodeCreateMandate i.(CreateMandateInput.approvedAgent) i.(CreateMandateInput.sourceTokenAccount)
      i.(CreateMandateInput.allowedMint) i.(CreateMandateInput.maxPerPayment)
      i.(CreateMandateInput.totalLimit) i.(CreateMandateInput.expiresAtSlot)
      i.(CreateMandateInput.maxPaymentCount) i.(CreateMandateInput.cooldownSlots) nonce = Ok data ∧
    ix = ChainPayInstruction.mk "create_mandate" prog
      [AccountMeta.mk config false false; AccountMeta.mk asset false false;
       AccountMeta.mk mandate false true; AccountMeta.mk owner true true;
       AccountMeta.mk i.(CreateMandateInput.allowedMint) false false;
       AccountMeta.mk i.(CreateMandateInput.sourceTokenAccount) false false;
       AccountMeta.mk (tokenProgramAddress i.(CreateMandateInput.tokenProgram)) false false;
       AccountMeta.mk SYSTEM_PROGRAM_ID false false] data.
Proof.
  unfold buildCreateMandateInstruction. intros H. inv_ok H.
  apply normalizedMandateNonce_iff in E as [-> _]. apply validateMandateInput_valid in E0.
  apply instruction_ok in H as [-> _].
  match goal with E : sequence [meta ?c false false; meta ?a false false; meta ?m true false; _; _; _; _; _] = Ok _ |- _ =>
    exists c, a, m;
    apply (sequence_metas [(c, false, false); (a, false, false); (m, true, false); (owner, true, true);
      (i.(CreateMandateInput.allowedMint), false, false);
      (i.(CreateMandateInput.sourceTokenAccount), false, false);
      (tokenProgramAddress i.(CreateMandateInput.tokenProgram), false, false);
      (SYSTEM_PROGRAM_ID, false, false)]) in E as -> end.
  eexists. split_and!; done.
Qed.

Lemma buildApproveDelegateInstruction_ok source mint tp total owner mandate amount decimals ix :
  buildApproveDelegateInstruction source mint tp total owner (Some mandate) amount decimals = Ok ix →
  ∃ d, decimals = JInt d ∧ 0 <= d <= 255 ∧ is_u64 (default total amount) ∧
    ix = ChainPayInstruction.mk "approve_delegate" (tokenProgramAddress tp)
      [AccountMeta.mk source false true; AccountMeta.mk mint false false;
       AccountMeta.mk mandate false false; AccountMeta.mk owner true false]
      (DISCRIMINATORS.approveChecked ++ le_bytes 8 (default total amount) ++ [byte_of d]).
Proof.
  unfold buildApproveDelegateInstruction. intros H. inv_ok H. injection E as <-.
  apply writeU64_ok in E0 as [Hu _].
  apply (sequence_metas [(source, true, false); (mint, false, false); (mandate, false, false);
    (owner, false, true)]) in E1 as ->.
  apply instruction_ok in H as [-> _].
  unfold encodeApproveChecked in E2. inv_ok E2. apply in_range_inv in G as (d & -> & Hd).
  exists d. split_and!; try done; try lia. f_equal.
  apply concat_parts_ok in E2 as (ps & Hps & ->).
  destruct ps as [|p0 [|p1 [|p2 [|]]]]; simplify_eq/=.
  match goal with E : writeU64 _ _ = Ok _ |- _ => apply writeU64_ok in E as [_ ->] end. done.
Qed.

(** [validateMandateInput] accepts exactly the inputs whose addresses
    parse, whose nonce carries the ChainPay prefix, whose amounts fit in a
    u64 with [0 < maxPerPayment <= totalLimit], whose expiry is positive and
    whose delegate amount, if given, is positive. *)
Theorem validateMandateInput_iff (g : bytes) (i : CreateMandateInput.t) :
  validateMandateInput g i = Ok tt ↔ valid_input g i.
Proof. split; [apply validateMandateInput_valid | apply valid_input_validates]. Qed.

(** The owner transaction that creates a mandate asks for nobody's
    signature but the owner's, and approves exactly the mandate it creates as
    delegate: the address derived from (owner, mint, nonce), for
    [delegateAmount] or else the whole [totalLimit], with the given decimals. *)
Theorem buildCreateMandateTransaction_spec (g : bytes) (i : CreateMandateInput.t)
    (owner prog : Address) (decimals : option number) (p : PreparedMandate.t) :
  buildCreateMandateTransaction g i owner prog decimals = Ok p →
  ∃ create approve d,
    p.(PreparedMandate.transaction) = PreparedTransaction.mk [create; approve] [owner] (Some owner) ∧
    deriveVersionedMandateAddress owner i.(CreateMandateInput.allowedMint) (nonce_of g i) prog
      = Ok p.(PreparedMandate.mandateAddress) ∧
    signers create = [owner] ∧ signers approve = [owner] ∧
    AccountMeta.mk p.(PreparedMandate.mandateAddress) false true ∈ create.(ChainPayInstruction.keys) ∧
    map AccountMeta.address approve.(ChainPayInstruction.keys) =
      [i.(CreateMandateInput.sourceTokenAccount); i.(CreateMandateInput.allowedMint);
       p.(PreparedMandate.mandateAddress); owner] ∧
    decimals = Some (JInt d) ∧
    approve.(ChainPayInstruction.data) = DISCRIMINATORS.approveChecked
      ++ le_bytes 8 (default i.(CreateMandateInput.totalLimit) i.(CreateMandateInput.delegateAmount))
      ++ [byte_of d].
Proof.
  unfold buildCreateMandateTransaction. intros H. inv_ok H.
  apply normalizedMandateNonce_iff in E as [-> _].
  destruct decimals as [decimals|]; [|done]. inv_ok H. subst p. simpl.
  apply buildCreateMandateInstruction_ok in E as (c & s & m & data & _ & Hm & _ & ->).
  rewrite with_nonce_of in Hm. cbn in Hm. rewrite E1 in Hm. injection Hm as <-.
  apply buildApproveDelegateInstruction_ok in E2 as (d & -> & _ & _ & ->).
  eexists _, _, d. split_and!; try done.
  simpl. apply list_elem_of_In. simpl. auto.
Qed.

(** C6: What the owner asked for is what the SDK reads back.  If the program
    accepts the create instruction's data at some slot, with accounts the owner
    signed for, the account it initializes decodes to a mandate with the input's agent, source, mint,
    limits, count, cooldown and expiry, nothing spent or counted yet, and
    the status active at that slot. *)
Theorem create_mandate_end_to_end (g : bytes) (i : CreateMandateInput.t)
    (owner prog : Address) (decimals : option number) (p : PreparedMandate.t) :
  buildCreateMandateTransaction g i owner prog decimals = Ok p →
  ∃ create approve params owner_key,
    p.(PreparedMandate.transaction).(PreparedTransaction.instructions) = [create; approve] ∧
    create_mandate_params create.(ChainPayInstruction.data) = Some params ∧
    publicKey owner = Ok owner_key ∧
    ∀ acc slot m tp,
      acc.(CreateMandate.owner) = owner_key → 0 <= acc.(CreateMandate.mandate_bump) < 256 →
      create_mandate acc slot params = POk m →
      decodeMandate (mandate_account m ++ []) p.(PreparedMandate.mandateAddress) (Some slot) tp =
        Ok (Mandate.mk p.(PreparedMandate.mandateAddress) owner
          i.(CreateMandateInput.approvedAgent) i.(CreateMandateInput.sourceTokenAccount)
          i.(CreateMandateInput.allowedMint) None i.(CreateMandateInput.maxPerPayment)
          i.(CreateMandateInput.totalLimit) 0 0 i.(CreateMandateInput.expiresAtSlot)
          i.(CreateMandateInput.maxPaymentCount) i.(CreateMandateInput.cooldownSlots) 0
          false false active tp (Some (nonce_of g i))).
Proof.
  unfold buildCreateMandateTransaction. intros H. inv_ok H.
  apply normalizedMandateNonce_iff in E as [-> (kn & Hkn & Hn)].
  destruct decimals as [decimals|]; [|done]. inv_ok H. subst p. simpl.
  apply buildCreateMandateInstruction_ok in E as (c & s & m & data & Hv & _ & Hdata & ->).
  rewrite with_nonce_of in Hdata. cbn in Hdata.
  pose proof (find_pda_valid _ _ _ E1) as Haddr.
  assert (∃ ko, publicKey owner = Ok ko) as (ko & Hko).
  { apply find_pda_ok in E1 as (ss & k & b & Hs & _).
    destruct ss as [|? [|ko ?]]; simplify_eq/=. eauto. }
  apply encodeCreateMandate_params in Hdata as (ka & ks & km & kn' & Hka & Hks & Hkm & Hkn' & Hp).
  assert (kn' = kn) as -> by congruence.
  eexists _, _, _, ko. split_and!; [done | exact Hp | done |].
  intros acc slot acct tp <- Hb Hc. unfold create_mandate in Hc. inv_pok Hc. subst acct.
  match goal with E : validate_mandate_params _ _ = POk _ |- _ => unfold validate_mandate_params in E; inv_pok E end. bool_reflect. cbn in *.
  destruct (publicKey_ok _ _ Hko) as [? Eo], (publicKey_ok _ _ Hka) as [? Ea],
    (publicKey_ok _ _ Hks) as [? Es], (publicKey_ok _ _ Hkm) as [? Em], (publicKey_ok _ _ Hkn) as [? En].
  destruct Hv; cbn in *. unfold is_u64 in *.
  rewrite decodeMandate_roundtrip; [| |done|done].
  - unfold mandate_view, mandateStatus. mandate_fields. rewrite Hn, Eo, Ea, Es, Em, En. simpl.
    by rewrite (proj2 (Z.leb_gt _ _)) by lia.
  - constructor; unfold is_key, is_u64; cbn; done || lia.
Qed.
End MandateProperties.

(** ** Witnesses *)

Definition sample_input : CreateMandateInput.t :=
  CreateMandateInput.mk (base58_encode (sample_key 12)) (base58_encode (sample_key 13))
    (base58_encode (sample_key 14)) 1000 5000 900 10 0 spl_token None None.

Definition sample_owner : Address := base58_encode (sample_key 11).

Abbreviation sample_build :=
  (@buildCreateMandateTransaction Base58.keys (sample_key 77) sample_input sample_owner
    DEFAULT_PROGRAM_ID (Some (JInt 6))).

Lemma sample_input_validates : @validateMandateInput Base58.keys (sample_key 77) sample_input = Ok tt.
Proof. vm_compute. reflexivity. Qed.

Lemma sample_build_ok : ∃ p, sample_build = Ok p.
Proof. apply is_ok_true. vm_compute. reflexivity. Qed.

Lemma validateMandateInput_iff_witness :
  @valid_input Base58.keys (sample_key 77) sample_input.
Proof.
  exact (proj1 (@validateMandateInput_iff Base58.keys Base58.keys_spec (sample_key 77) sample_input)
    sample_input_validates).
Defined.

Lemma buildCreateMandateTransaction_spec_witness :
  ∃ p create approve, sample_build = Ok p ∧ p.(PreparedMandate.transaction)
      = PreparedTransaction.mk [create; approve] [sample_owner] (Some sample_owner) ∧
      signers create = [sample_owner] ∧ signers approve = [sample_owner].
Proof.
  destruct sample_build_ok as [p E].
  destruct (@buildCreateMandateTransaction_spec Base58.keys Base58.keys_spec (sample_key 77)
    sample_input sample_owner DEFAULT_PROGRAM_ID (Some (JInt 6)) p E)
    as (c & a & d & Ht & _ & Hc & Ha & _).
  exists p, c, a. exact (conj E (conj Ht (conj Hc Ha))).
Defined.

Lemma create_mandate_end_to_end_witness :
  ∃ p create approve params ko, sample_build = Ok p ∧
    p.(PreparedMandate.transaction).(PreparedTransaction.instructions) = [create; approve] ∧
    create_mandate_params create.(ChainPayInstruction.data) = Some params ∧
    @publicKey Base58.keys sample_owner = Ok ko.
Proof.
  destruct sample_build_ok as [p E].
  destruct (@create_mandate_end_to_end Base58.keys Base58.keys_spec (sample_key 77)
    sample_input sample_owner DEFAULT_PROGRAM_ID (Some (JInt 6)) p E)
    as (c & a & params & ko & Hi & Hp & Ho & _).
  exists p, c, a, params, ko. exact (conj E (conj Hi (conj Hp Ho))).
Defined.
