(* ===== verification/Payment.v ===== *)
(** * Payments (sdk/src/payment.ts)

    Preparing a payment, building [execute_payment], and the two preflights.
    The theorems state the refinement that makes preflight worth running: on
    accurate context, [preflightPayment] accepts exactly the payments
    [Program.execute_payment] settles, and every row of an accepted batch with
    pairwise distinct invoices settles in order. *)
From Stdlib Require Import ZArith Lia Strings.Byte.
From stdpp Require Import base numbers strings list gmap.
From S2P Require Import Prelude Bytes PublicKey Types Encoding Pda Program Accounts.

(** [String.prototype.includes] *)
Fixpoint includes (text search : string) : bool :=
  String.prefix search text ||
  match text with
  | EmptyString => false
  | String.String _ rest => includes rest search
  end.

Definition DUPLICATE_INVOICE_MESSAGE : string :=
  "This invoice was already paid. Nothing new was submitted.".

(** A caught value: this error class, another object with a [code], or neither. *)
Inductive caught : Type :=
| DuplicateInvoiceError (receiptAddress : Address)
| OtherObject (code : option string)
| OtherValue.

Definition isDuplicateInvoiceError (error : caught) : bool :=
  match error with
  | DuplicateInvoiceError _ => true
  | OtherObject code => bool_decide (code = Some "DuplicateInvoice")
  | OtherValue => false
  end.

Definition isReceiptAlreadyInUse (message : string) (receiptAddress : Address) : bool :=
  includes message "already in use" && includes message receiptAddress.

Definition check (name : string) (ok : bool) (message : string) : PolicyCheck.t :=
  PolicyCheck.mk name ok message.

(** [check(name, cond, cond ? yes : no)] *)
Definition check_either (name : string) (cond : bool) (yes no : string) : PolicyCheck.t :=
  check name cond (if cond then yes else no).

Section Payment.
Context `{K : PublicKeys}.

(** [untrusted] is the undeclared [remainingAccounts] a caller may smuggle in. *)
Definition preparePayment {U : Type} (input : PaymentRequest.t) (untrusted : option (list U))
    : result PaymentRequest.t :=
  let! _ := publicKey input.(PaymentRequest.mandate) in
  let! _ := publicKey input.(PaymentRequest.mint) in
  let! _ := publicKey input.(PaymentRequest.recipient) in
  throw_if! negb (Nat.eqb (length (default [] untrusted)) 0)
    with "Caller-supplied remainingAccounts are not accepted; ChainPay must resolve extension accounts from verified on-chain state";
  let! _ := bytes32 input.(PaymentRequest.invoiceHash) "invoiceHash" in
  let! _ := bytes32 input.(PaymentRequest.paymentId) "paymentId" in
  let! _ := bytes32 input.(PaymentRequest.signatureReference) "signatureReference" in
  throw_if! negb (Nat.eqb (length input.(PaymentRequest.invoiceHash)) 32)
    with "invoiceHash must be 32 bytes";
  throw_if! negb (Nat.eqb (length input.(PaymentRequest.paymentId)) 32)
    with "paymentId must be 32 bytes";
  throw_if! negb (Nat.eqb (length input.(PaymentRequest.signatureReference)) 32)
    with "signatureReference must be 32 bytes";
  throw_if! input.(PaymentRequest.amount) <=? 0 with "amount must be positive";
  Ok input.

Definition buildExecutePaymentInstruction (request : PaymentRequest.t) (agent : Address)
    (mandate : Mandate.t) (programId : Address) : result ChainPayInstruction.t :=
  let! _ := publicKey agent in
  let! requested := address request.(PaymentRequest.mandate) in
  throw_if! negb (bool_decide (requested = mandate.(Mandate.address)))
    with "Payment request mandate does not match the loaded mandate";
  match (match request.(PaymentRequest.tokenProgram) with
         | Some tp => Some tp
         | None => mandate.(Mandate.tokenProgram)
         end) with
  | None => Throw "Token program is required to build an execute_payment instruction"
  | Some tokenProgram =>
      let! config := deriveConfigAddress programId in
      let! m_config := meta config false false in
      let! asset := deriveAssetAddress mandate.(Mandate.allowedMint) programId in
      let! m_asset := meta asset false false in
      let! m_mandate := meta mandate.(Mandate.address) true false in
      let! receipt := deriveReceiptAddress mandate.(Mandate.address)
                        request.(PaymentRequest.invoiceHash) programId in
      let! m_receipt := meta receipt true false in
      let! rest := sequence [
        meta agent true true;
        meta request.(PaymentRequest.mint) false false;
        meta mandate.(Mandate.sourceTokenAccount) true false;
        meta request.(PaymentRequest.recipient) true false;
        meta (tokenProgramAddress tokenProgram) false false;
        meta SYSTEM_PROGRAM_ID false false] in
      let! data := encodePayment request.(PaymentRequest.invoiceHash)
        request.(PaymentRequest.paymentId) request.(PaymentRequest.signatureReference)
        request.(PaymentRequest.amount) in
      instruction "execute_payment" programId
        ([m_config; m_asset; m_mandate; m_receipt] ++ rest) data
  end.

Definition sourceAccountChecks (request : PaymentRequest.t) (mandate : Mandate.t)
    (context : PaymentPreflightContext.t) : result (list PolicyCheck.t) :=
  let amount := request.(PaymentRequest.amount) in
  let delegated := context.(PaymentPreflightContext.delegatedAmount) in
  let! sourceOwner := address context.(PaymentPreflightContext.sourceOwner) in
  let! delegate_is_mandate :=
    match context.(PaymentPreflightContext.delegate) with
    | None => Ok false
    | Some d => let! d' := address d in Ok (bool_decide (d' = mandate.(Mandate.address)))
    end in
  Ok [
    check_either "source_owner" (bool_decide (sourceOwner = mandate.(Mandate.owner)))
      "Source token account owner matches the mandate owner"
      "Source token account owner does not match the mandate owner";
    check_either "source_balance" (amount <=? context.(PaymentPreflightContext.sourceBalance))
      "Source token account balance covers this payment"
      "Source token account balance is insufficient for this payment";
    check_either "delegate_identity" delegate_is_mandate
      "Source token account delegates spending authority to this mandate"
      "Source token account is not delegated to this mandate";
    check_either "delegated_amount" ((0 <? delegated) && (amount <=? delegated))
      "Remaining delegated allowance covers this payment"
      (if delegated <=? 0 then "Source token account has no remaining delegated allowance"
       else "Payment exceeds the remaining delegated allowance")].

Definition preflightPayment (request : PaymentRequest.t) (mandate : Mandate.t) (currentSlot : Z)
    (agent : option Address) (receiptAlreadyExists : bool)
    (sourceContext : option PaymentPreflightContext.t) : result PaymentPreflight.t :=
  let amount := request.(PaymentRequest.amount) in
  let! agent_ok :=
    match agent with
    | None => Ok true
    | Some a => let! a' := address a in Ok (bool_decide (a' = mandate.(Mandate.approvedAgent)))
    end in
  let! mint := address request.(PaymentRequest.mint) in
  let! recipient := address request.(PaymentRequest.recipient) in
  let! source_checks :=
    match sourceContext with
    | Some context => sourceAccountChecks request mandate context
    | None => Ok []
    end in
  let checks := [
    check_either "mandate_status" (bool_decide (mandate.(Mandate.status) = active))
      "Mandate is active"
      ("Mandate is " +:+ MandateStatus_to_string mandate.(Mandate.status));
    check_either "approved_agent" agent_ok
      "Payment agent matches the mandate" "Payment agent does not match the mandate";
    check_either "mint" (bool_decide (mint = mandate.(Mandate.allowedMint)))
      "Payment mint matches the mandate" "Payment mint does not match the mandate";
    check_either "recipient" (negb (bool_decide (recipient = SYSTEM_PROGRAM_ID)))
      "Payment recipient is specified for this request" "Payment recipient must be specified";
    check_either "amount_positive" (0 <? amount)
      "Payment amount is positive" "Payment amount must be positive";
    check_either "per_payment_limit" (amount <=? mandate.(Mandate.maxPerPayment))
      "Payment is within the per-payment limit" "Payment exceeds the per-payment limit";
    check_either "total_limit"
      ((0 <=? amount) && (mandate.(Mandate.amountSpent) + amount <=? mandate.(Mandate.totalLimit)))
      "Payment is within the total spend limit" "Payment exceeds the total spend limit";
    check_either "payment_count_limit"
      ((mandate.(Mandate.maxPaymentCount) =? 0)
       || (mandate.(Mandate.paymentCount) + 1 <=? mandate.(Mandate.maxPaymentCount)))
      "Payment is within the payment-count limit" "Payment exceeds the payment-count limit";
    check_either "cooldown"
      ((mandate.(Mandate.lastPaymentSlot) =? 0)
       || (mandate.(Mandate.lastPaymentSlot) + mandate.(Mandate.cooldownSlots) <=? currentSlot))
      "Mandate cooldown has elapsed" "Mandate cooldown is still active";
    check_either "expiry" (currentSlot <? mandate.(Mandate.expiresAtSlot))
      "Mandate has not expired" "Mandate has expired";
    check_either "invoice_hash" (some_nonzero request.(PaymentRequest.invoiceHash))
      "Invoice hash is non-zero" "Invoice hash must not be all zeroes";
    check_either "payment_id" (some_nonzero request.(PaymentRequest.paymentId))
      "Payment ID is non-zero" "Payment ID must not be all zeroes";
    check_either "signature_reference" (some_nonzero request.(PaymentRequest.signatureReference))
      "Signature reference is non-zero" "Signature reference must not be all zeroes";
    check_either "duplicate_invoice" (negb receiptAlreadyExists)
      "No receipt exists for this invoice hash"
      "This invoice hash already has a receipt under the mandate";
    check_either "token_program"
      match request.(PaymentRequest.tokenProgram), mandate.(Mandate.tokenProgram) with
      | Some r, Some m => bool_decide (r = m)
      | _, _ => true
      end
      "Token program matches the loaded mandate context"
      "Token program does not match the source token account"] ++ source_checks in
  Ok (PaymentPreflight.mk (forallb PolicyCheck.ok checks) currentSlot checks).

(** [group.reduce((total, entry) => total + entry.request.amount, 0n)] *)
Definition total_amount (group : list BatchPreflightEntry.t) : Z :=
  foldl (λ total entry,
    total + entry.(BatchPreflightEntry.request).(PaymentRequest.amount)) 0 group.

(** [group.find((entry) => entry.sourceContext)?.sourceContext] *)
Fixpoint find_context (group : list BatchPreflightEntry.t) : option PaymentPreflightContext.t :=
  match group with
  | [] => None
  | entry :: group =>
      match entry.(BatchPreflightEntry.sourceContext) with
      | Some context => Some context
      | None => find_context group
      end
  end.

Definition batchChecksForMandateGroup (group : list BatchPreflightEntry.t) (mandate : Mandate.t)
    : list PolicyCheck.t :=
  let totalAmount := total_amount group in
  let size := Z.of_nat (length group) in
  [ check_either "batch_total_limit"
      (mandate.(Mandate.amountSpent) + totalAmount <=? mandate.(Mandate.totalLimit))
      "Batch total is within the mandate spending limit"
      "Together, these payments exceed the mandate total spending limit";
    check_either "batch_payment_count"
      ((mandate.(Mandate.maxPaymentCount) =? 0)
       || (mandate.(Mandate.paymentCount) + size <=? mandate.(Mandate.maxPaymentCount)))
      "Batch size is within the mandate payment-count limit"
      "Together, these payments exceed the mandate payment-count limit";
    check_either "batch_cooldown" ((size <=? 1) || (mandate.(Mandate.cooldownSlots) =? 0))
      "Batch respects the mandate cooldown policy"
      "This mandate has a cooldown and can only settle once per atomic batch" ]
  ++ match find_context group with
     | None => []
     | Some context =>
         let delegated := context.(PaymentPreflightContext.delegatedAmount) in
         [ check_either "batch_source_balance"
             (totalAmount <=? context.(PaymentPreflightContext.sourceBalance))
             "Source token account balance covers the batch total"
             "Source token account balance is insufficient for the batch total";
           check_either "batch_delegated_amount" ((0 <? delegated) && (totalAmount <=? delegated))
             "Remaining delegated allowance covers the batch total"
             (if delegated <=? 0
              then "Source token account has no remaining delegated allowance for this batch"
              else "Batch total exceeds the remaining delegated allowance") ]
     end.

(** [Map<string, BatchPreflightEntry[]>]: keys in order of first insertion. *)
Abbreviation Groups := (list (Address * list BatchPreflightEntry.t)).

(** [group = groups.get(key) ?? []; group.push(entry); groups.set(key, group)] *)
Fixpoint push_entry (key : Address) (entry : BatchPreflightEntry.t) (groups : Groups) : Groups :=
  match groups with
  | [] => [(key, [entry])]
  | (k, group) :: groups =>
      if bool_decide (k = key) then (k, group ++ [entry]) :: groups
      else (k, group) :: push_entry key entry groups
  end.

Fixpoint group_entries (entries : list BatchPreflightEntry.t) (groups : Groups) : result Groups :=
  match entries with
  | [] => Ok groups
  | entry :: entries =>
      let! key := address entry.(BatchPreflightEntry.mandate).(Mandate.address) in
      group_entries entries (push_entry key entry groups)
  end.

Definition prepareEntry (currentSlot : Z) (entry : BatchPreflightEntry.t) : result PreparedEntry.t :=
  let! mandate := address entry.(BatchPreflightEntry.mandate).(Mandate.address) in
  let! preflight := preflightPayment entry.(BatchPreflightEntry.request)
    entry.(BatchPreflightEntry.mandate) currentSlot entry.(BatchPreflightEntry.agent)
    (default false entry.(BatchPreflightEntry.receiptAlreadyExists))
    entry.(BatchPreflightEntry.sourceContext) in
  Ok (PreparedEntry.mk entry.(BatchPreflightEntry.request) mandate preflight).

(** [batchChecksForMandateGroup(group, group[0].mandate)] of one map value *)
Definition group_checks (group : list BatchPreflightEntry.t) : list PolicyCheck.t :=
  match group with
  | [] => []
  | entry :: _ => batchChecksForMandateGroup group entry.(BatchPreflightEntry.mandate)
  end.

Definition preflightPaymentBatch (entries : list BatchPreflightEntry.t) (currentSlot : Z)
    : result PaymentBatchPreflight.t :=
  let! preparedEntries := traverse (prepareEntry currentSlot) entries in
  let! groups := group_entries entries [] in
  let batchChecks := flat_map (λ '(_, group), group_checks group) groups in
  let valid :=
    forallb (λ entry, entry.(PreparedEntry.preflight).(PaymentPreflight.valid)) preparedEntries
    && forallb PolicyCheck.ok batchChecks in
  Ok (PaymentBatchPreflight.mk valid currentSlot preparedEntries batchChecks).
End Payment.

Definition preparedPaymentTransaction (instructionData : ChainPayInstruction.t) (agent : Address)
    : PreparedTransaction.t :=
  PreparedTransaction.mk [instructionData] [agent] (Some agent).

(** ** The chain a request is checked against *)
Section PaymentViews.
Context `{K : PublicKeys}.

Definition params_of (request : PaymentRequest.t) : PaymentParams.t :=
  PaymentParams.mk request.(PaymentRequest.invoiceHash) request.(PaymentRequest.paymentId)
    request.(PaymentRequest.signatureReference) request.(PaymentRequest.amount).

(** The preflight context a reader of the source token account supplies. *)
Definition context_of (s : TokenAccount.t) : PaymentPreflightContext.t :=
  PaymentPreflightContext.mk s.(TokenAccount.amount) (toBase58 s.(TokenAccount.owner))
    (toBase58 <$> s.(TokenAccount.delegate)) s.(TokenAccount.delegated_amount).

Definition receipt_exists (st : Chain.t) (request : PaymentRequest.t) : bool :=
  bool_decide (is_Some (st.(Chain.receipts) !! request.(PaymentRequest.invoiceHash))).

(** Preflight of [request] with everything read from the chain state [st]. *)
Definition preflight_on_chain (mandate_key : bytes) (acc : ExecutePayment.t) (slot : Z)
    (tp : option TokenProgram) (request : PaymentRequest.t) (st : Chain.t) : result PaymentPreflight.t :=
  preflightPayment request (mandate_view (toBase58 mandate_key) (Some slot) tp st.(Chain.mandate))
    slot (Some (toBase58 acc.(ExecutePayment.agent))) (receipt_exists st request)
    (Some (context_of st.(Chain.source))).

Definition is_token_program (tp : option TokenProgram) (key : bytes) : Prop :=
  ∀ t, tp = Some t → publicKey (tokenProgramAddress t) = Ok key.

(** The request and the chain go together: the accounts are the ones the
    instruction names and hold well-formed data; a token program the request
    names is the instruction's, and one the mandate's reader names is that of the
    source account, which it was read from. *)
Record payment_env (mandate_key : bytes) (acc : ExecutePayment.t) (slot : Z)
    (tp : option TokenProgram) (request : PaymentRequest.t) (st : Chain.t) : Prop := {
  env_mandate : mandate_wf st.(Chain.mandate);
  env_key : is_key mandate_key;
  env_agent : is_key acc.(ExecutePayment.agent);
  env_owner : is_key st.(Chain.source).(TokenAccount.owner);
  env_delegate : ∀ d, st.(Chain.source).(TokenAccount.delegate) = Some d → is_key d;
  env_mint : publicKey request.(PaymentRequest.mint) = Ok acc.(ExecutePayment.allowed_mint);
  env_recipient : publicKey request.(PaymentRequest.recipient) = Ok acc.(ExecutePayment.recipient_key);
  env_not_system : request.(PaymentRequest.recipient) ≠ SYSTEM_PROGRAM_ID;
  env_invoice : length request.(PaymentRequest.invoiceHash) = 32%nat;
  env_id : length request.(PaymentRequest.paymentId) = 32%nat;
  env_ref : length request.(PaymentRequest.signatureReference) = 32%nat;
  env_request_program : is_token_program request.(PaymentRequest.tokenProgram) acc.(ExecutePayment.token_program);
  env_mandate_program : is_token_program tp acc.(ExecutePayment.source_program);
  env_slot : is_u64 slot;
}.

(** What the program asks of a payment and preflight does not look at: the
    asset is enabled, mints and token programs agree, the token program can
    move between the accounts, a legacy mandate's recipient is the one paid,
    and the payment counter is not at its last value. *)
Definition beyond_preflight (acc : ExecutePayment.t) (st : Chain.t) : Prop :=
  accounts_agree acc st ∧ st.(Chain.mandate).(PaymentMandate.payment_count) < U64_MAX.

(** [valid] decides a payment, [accepted] apart: what the program executes is
    valid and accepted and has exactly the effect [settle]; what it refuses is
    not valid or not accepted. *)
Definition decides (valid : bool) (accepted : Prop) (mandate_key : bytes) (acc : ExecutePayment.t) (slot : Z)
    (p : PaymentParams.t) (st : Chain.t) : Prop :=
  match execute_payment mandate_key acc slot p st with
  | POk st' => valid = true ∧ accepted ∧ st' = settle mandate_key acc slot p st
  | PErr _ => valid = false ∨ ¬ accepted
  end.
End PaymentViews.

(** ** Lemmas *)

Lemma decides_intro valid mk acc slot p st :
  (accounts_agree acc st →
   valid = true ∧ st.(Chain.mandate).(PaymentMandate.payment_count) < U64_MAX ↔ payment_fits mk acc slot p st) →
  decides valid (beyond_preflight acc st) mk acc slot p st.
Proof.
  intros Hiff. unfold decides. destruct (execute_payment mk acc slot p st) as [st'|e] eqn:E.
  - apply execute_payment_iff in E as (Hag & Hfit%(Hiff Hag) & ->). by destruct Hfit.
  - destruct valid; [right|by left]. intros [Hag Hcount].
    assert (execute_payment mk acc slot p st = POk (settle mk acc slot p st)) as E'; [|by rewrite E' in E].
    apply execute_payment_iff. split; [done|]. split; [by apply (Hiff Hag)|done].
Qed.

Lemma decides_mono valid (accepted accepted' : Prop) mk acc slot p st :
  (accepted ↔ accepted') → decides valid accepted mk acc slot p st → decides valid accepted' mk acc slot p st.
Proof. intros H. unfold decides. destruct (execute_payment _ _ _ _ _); tauto. Qed.

(** A payment that does not fit is refused. *)
Lemma decides_unfit accepted mk acc slot p st :
  ¬ payment_fits mk acc slot p st → decides false accepted mk acc slot p st.
Proof.
  intros H. unfold decides. destruct (execute_payment_fails mk acc slot p st) as [e ->]; [tauto|by left].
Qed.

(** An accepted payment that is valid settles. *)
Lemma decides_settles accepted mk acc slot p st :
  decides true accepted mk acc slot p st → accepted → execute_payment mk acc slot p st = POk (settle mk acc slot p st).
Proof.
  unfold decides. destruct (execute_payment _ _ _ _ _) as [st'|]; [by intros (_ & _ & ->)|]. by intros [|].
Qed.

Lemma mandateStatus_active paused revoked expiresAt slot :
  mandateStatus paused revoked expiresAt (Some slot) = active ↔
    revoked = false ∧ paused = false ∧ slot < expiresAt.
Proof.
  unfold mandateStatus. destruct revoked, paused; try naive_solver.
  destruct (expiresAt <=? slot) eqn:E; bool_reflect; naive_solver lia.
Qed.

Lemma some_nonzero_32 bs : length bs = 32%nat → (some_nonzero bs = true ↔ bs ≠ zero_bytes 32).
Proof.
  intros L. rewrite <- L. rewrite <- some_nonzero_false. destruct (some_nonzero bs); naive_solver.
Qed.

Lemma forallb_cons {A} (f : A → bool) a l : forallb f (a :: l) = true ↔ f a = true ∧ forallb f l = true.
Proof. simpl. apply andb_true_iff. Qed.

Lemma ok_either name c yes no : PolicyCheck.ok (check_either name c yes no) = c.
Proof. done. Qed.

Section PaymentLemmas.
Context `{K : PublicKeys, KS : !PublicKeysSpec K}.

Lemma toBase58_eq_iff j k : is_key j → is_key k → (toBase58 j = toBase58 k ↔ j = k).
Proof. intros Hj Hk. split; [by apply toBase58_inj | by intros ->]. Qed.

Lemma address_toBase58 k : is_key k → address (toBase58 k) = Ok (toBase58 k).
Proof. intros H. by apply address_valid, valid_toBase58. Qed.

Lemma tokenProgram_agree key tp tp' :
  is_token_program tp key → is_token_program tp' key →
  match tp, tp' with Some r, Some m => bool_decide (r = m) | _, _ => true end = true.
Proof.
  intros H H'. destruct tp as [t|], tp' as [t'|]; try done. apply bool_decide_eq_true.
  specialize (H t eq_refl). specialize (H' t' eq_refl).
  pose proof (publicKey_inj _ _ _ H H'). by destruct t, t'.
Qed.

Lemma sourceAccountChecks_on_chain request (m : Mandate.t) st mandate_key :
  is_key mandate_key → mandate_wf st.(Chain.mandate) →
  is_key st.(Chain.source).(TokenAccount.owner) →
  (∀ d, st.(Chain.source).(TokenAccount.delegate) = Some d → is_key d) →
  m.(Mandate.address) = toBase58 mandate_key →
  m.(Mandate.owner) = toBase58 st.(Chain.mandate).(PaymentMandate.owner) →
  ∃ cs, sourceAccountChecks request m (context_of st.(Chain.source)) = Ok cs ∧
    (forallb PolicyCheck.ok cs = true ↔
      st.(Chain.source).(TokenAccount.owner) = st.(Chain.mandate).(PaymentMandate.owner) ∧
      request.(PaymentRequest.amount) <= st.(Chain.source).(TokenAccount.amount) ∧
      st.(Chain.source).(TokenAccount.delegate) = Some mandate_key ∧
      0 < st.(Chain.source).(TokenAccount.delegated_amount) ∧
      request.(PaymentRequest.amount) <= st.(Chain.source).(TokenAccount.delegated_amount)).
Proof.
  intros Hk [] Ho Hd Ha Hm. unfold sourceAccountChecks, context_of. simpl.
  rewrite address_toBase58 by done. cbn [bind]. rewrite Ha, Hm.
  assert (∃ b, match toBase58 <$> st.(Chain.source).(TokenAccount.delegate) with
    | Some d => let! d' := address d in Ok (bool_decide (d' = toBase58 mandate_key))
    | None => Ok false end = Ok b ∧
    (b = true ↔ st.(Chain.source).(TokenAccount.delegate) = Some mandate_key)) as (b & -> & Hb).
  { destruct st.(Chain.source).(TokenAccount.delegate) as [d|]; simpl; [|by exists false].
    specialize (Hd d eq_refl). rewrite address_toBase58 by done. cbn [bind].
    eexists. split; [done|]. rewrite bool_decide_eq_true, toBase58_eq_iff by done. naive_solver. }
  cbn [bind]. eexists. split; [done|].
  rewrite !forallb_cons, !ok_either, Hb, bool_decide_eq_true, toBase58_eq_iff, andb_true_iff,
    !Z.leb_le, Z.ltb_lt by done. simpl. tauto.
Qed.

(** The boolean preflight returns, as the program's own conditions. *)
Lemma preflight_on_chain_iff mk acc slot tp request st :
  payment_env mk acc slot tp request st →
  ∃ pf, preflight_on_chain mk acc slot tp request st = Ok pf ∧
    (acc.(ExecutePayment.source_program) = acc.(ExecutePayment.token_program) →
     pf.(PaymentPreflight.valid) = true ∧ st.(Chain.mandate).(PaymentMandate.payment_count) < U64_MAX
      ↔ payment_fits mk acc slot (params_of request) st).
Proof.
  intros []. unfold preflight_on_chain, preflightPayment.
  destruct (sourceAccountChecks_on_chain request
    (mandate_view (toBase58 mk) (Some slot) tp st.(Chain.mandate)) st mk) as (cs & -> & Hcs); try done.
  pose proof (publicKey_ok _ _ env_mint0) as [Lm Em].
  pose proof (publicKey_ok _ _ env_recipient0) as [Lr Er].
  rewrite address_toBase58 by done. cbn [bind].
  rewrite (address_valid request.(PaymentRequest.mint)) by by eapply publicKey_valid.
  rewrite (address_valid request.(PaymentRequest.recipient)) by by eapply publicKey_valid.
  cbn [bind]. eexists. split; [done|]. intros Hprog. rewrite Hprog in env_mandate_program0. cbn [PaymentPreflight.valid].
  rewrite forallb_app, andb_true_iff, Hcs, !forallb_cons, !ok_either. unfold mandate_view at 1 2 3.
  rewrite (tokenProgram_agree acc.(ExecutePayment.token_program)) by done.
  destruct env_mandate0. unfold is_u64 in *. cbn.
  rewrite !bool_decide_eq_true, negb_true_iff, bool_decide_eq_false, <- Em, !toBase58_eq_iff,
    mandateStatus_active, !some_nonzero_32, !orb_true_iff, !andb_true_iff, !Z.leb_le, !Z.ltb_lt,
    !Z.eqb_eq by done.
  unfold receipt_exists. rewrite negb_true_iff, bool_decide_eq_false, <- eq_None_not_Some.
  split.
  - intros. destruct_and!. constructor; simpl; try done; lia.
  - intros []. simpl in *. split_and!; try done; lia.
Qed.
End PaymentLemmas.

(** The layout of [encodePayment], and what the program reads from it *)
Lemma encodePayment_layout hash id reference amount data :
  encodePayment hash id reference amount = Ok data →
  length hash = 32%nat ∧ length id = 32%nat ∧ length reference = 32%nat ∧ 0 <= amount <= U64_MAX ∧
  data = DISCRIMINATORS.executePayment ++ hash ++ id ++ reference ++ le_bytes 8 amount.
Proof.
  unfold encodePayment.
  intros (ps & Hps & ->)%concat_parts_ok.
  destruct ps as [|p0 [|p1 [|p2 [|p3 [|p4 [|]]]]]]; cbn [map] in Hps; simplify_eq. cbn [concat].
  repeat match goal with
  | E : bytes32 _ _ = Ok _ |- _ => apply bytes32_ok in E as [-> ?]
  | E : writeU64 _ _ = Ok _ |- _ => apply writeU64_ok in E as [? ->]
  end.
  rewrite app_nil_r. done.
Qed.

Lemma encodePayment_length hash id reference amount data :
  encodePayment hash id reference amount = Ok data → length data = 112%nat.
Proof.
  intros (? & ? & ? & _ & ->)%encodePayment_layout. rewrite !length_app, le_bytes_length.
  change (length DISCRIMINATORS.executePayment) with 8%nat. lia.
Qed.

Lemma encodePayment_params hash id reference amount data :
  encodePayment hash id reference amount = Ok data →
  execute_payment_params data = Some (PaymentParams.mk hash id reference amount).
Proof.
  intros E. pose proof (encodePayment_length _ _ _ _ _ E) as L.
  apply encodePayment_layout in E as (? & ? & ? & ? & ->).
  unfold execute_payment_params. rewrite (proj2 (Nat.leb_le _ _)) by lia. clear L.
  set (disc := DISCRIMINATORS.executePayment). assert (length disc = 8%nat) by done. clearbody disc.
  rewrite take_app_length', bool_decide_true by done. cbn [andb].
  f_equal. f_equal; slices; rewrite ?u64_le_val by done; done.
Qed.

(** ** Batches *)
Section BatchLemmas.
Context `{K : PublicKeys, KS : !PublicKeysSpec K}.

(** The batch rows that spend from the mandate at [addr], in order. *)
Definition rows_of (addr : Address) (entries : list BatchPreflightEntry.t)
    : list BatchPreflightEntry.t :=
  filter (λ e, e.(BatchPreflightEntry.mandate).(Mandate.address) = addr) entries.

Fixpoint group_of (key : Address) (groups : list (Address * list BatchPreflightEntry.t))
    : list BatchPreflightEntry.t :=
  match groups with
  | [] => []
  | (k, group) :: groups => if bool_decide (k = key) then group else group_of key groups
  end.

Lemma group_of_push key k entry groups :
  group_of k (push_entry key entry groups) =
    group_of k groups ++ (if bool_decide (key = k) then [entry] else []).
Proof.
  induction groups as [|[k' group] groups IH]; simpl.
  - by case_bool_decide.
  - repeat (case_bool_decide; simplify_eq/=); try done; by rewrite ?app_nil_r.
Qed.

Lemma group_entries_rows entries groups groups' k :
  group_entries entries groups = Ok groups' →
  group_of k groups' = group_of k groups ++ rows_of k entries.
Proof.
  revert groups; induction entries as [|e entries IH]; intros groups; simpl.
  { intros [= <-]. by rewrite app_nil_r. }
  intros H. inv_ok H. apply address_ok in E as [-> _].
  rewrite (IH _ H), group_of_push, <- app_assoc. f_equal.
  unfold rows_of. rewrite filter_cons. case_bool_decide; case_decide; done.
Qed.

Lemma group_of_elem k groups : group_of k groups ≠ [] → (k, group_of k groups) ∈ groups.
Proof.
  induction groups as [|[k' group] groups IH]; simpl; [done|].
  case_bool_decide; [subst; by left | right; auto].
Qed.

(** A valid batch: every row passes its own preflight, and every mandate's
    rows pass the cumulative checks. *)
Lemma preflightPaymentBatch_valid entries slot b :
  preflightPaymentBatch entries slot = Ok b → b.(PaymentBatchPreflight.valid) = true →
  (∀ e, e ∈ entries → ∃ pf,
    preflightPayment e.(BatchPreflightEntry.request) e.(BatchPreflightEntry.mandate) slot
      e.(BatchPreflightEntry.agent) (default false e.(BatchPreflightEntry.receiptAlreadyExists))
      e.(BatchPreflightEntry.sourceContext) = Ok pf ∧ pf.(PaymentPreflight.valid) = true) ∧
  (∀ k, forallb PolicyCheck.ok (group_checks (rows_of k entries)) = true).
Proof.
  unfold preflightPaymentBatch. intros H Hv. inv_ok H. subst b. simpl in Hv.
  apply andb_true_iff in Hv as [Hrows Hgroups]. rewrite forallb_forall in Hrows. split.
  - intros e He. apply traverse_ok in E. apply list_elem_of_lookup in He as (i & Hi).
    destruct (Forall2_lookup_l _ _ _ _ _ E Hi) as (pe & Hpe & Hprep).
    unfold prepareEntry in Hprep. inv_ok Hprep. subst pe. exists a2. split; [done|].
    apply list_elem_of_lookup_2, list_elem_of_In, Hrows in Hpe. done.
  - intros k. pose proof (group_entries_rows _ _ _ k E0) as Hk. simpl in Hk.
    destruct (decide (rows_of k entries = [])) as [->|Hne]; [done|].
    rewrite <- Hk in Hne. apply group_of_elem in Hne. rewrite Hk in Hne.
    rewrite forallb_forall in Hgroups |- *. intros c Hc. apply Hgroups.
    apply in_flat_map. exists (k, rows_of k entries). split; [by apply list_elem_of_In | done].
Qed.

Definition rows_params (accs : BatchPreflightEntry.t → ExecutePayment.t)
    (group : list BatchPreflightEntry.t) : Rows :=
  map (λ e, (accs e, params_of e.(BatchPreflightEntry.request))) group.

Lemma total_amount_rows accs group : total_amount group = row_total (rows_params accs group).
Proof.
  unfold total_amount. rewrite <- (Z.add_0_l (row_total _)). generalize 0.
  induction group as [|e group IH]; intros z; simpl; [lia|]. rewrite IH. lia.
Qed.

(** The batch was prepared from the chain state [st] of one mandate. *)
Record batch_env (mandate_key : bytes) (slot : Z) (tp : option TokenProgram)
    (accs : BatchPreflightEntry.t → ExecutePayment.t)
    (entries : list BatchPreflightEntry.t) (st : Chain.t) : Prop := {
  benv_rows : ∀ e, e ∈ rows_of (toBase58 mandate_key) entries →
    e.(BatchPreflightEntry.mandate)
      = mandate_view (toBase58 mandate_key) (Some slot) tp st.(Chain.mandate) ∧
    e.(BatchPreflightEntry.agent) = Some (toBase58 (accs e).(ExecutePayment.agent)) ∧
    default false e.(BatchPreflightEntry.receiptAlreadyExists)
      = receipt_exists st e.(BatchPreflightEntry.request) ∧
    e.(BatchPreflightEntry.sourceContext) = Some (context_of st.(Chain.source)) ∧
    payment_env mandate_key (accs e) slot tp e.(BatchPreflightEntry.request) st;
  benv_slot : is_u64 slot;
  benv_total : st.(Chain.mandate).(PaymentMandate.total_limit) <= U64_MAX;
}.

Lemma batch_rows_fit mandate_key slot tp accs entries st :
  let group := rows_of (toBase58 mandate_key) entries in
  batch_env mandate_key slot tp accs entries st → group ≠ [] → rows_accepted (rows_params accs group) st →
  forallb PolicyCheck.ok (group_checks group) = true →
  rows_fit slot (rows_params accs group) st.
Proof.
  intros group [Hrows Hslot Htotal] Hne (_ & Hdup & Hcount) Hchecks. fold group in Hrows.
  assert (rows_params accs group ≠ []) as Hne' by (unfold rows_params; by destruct group). specialize (Hcount Hne').
  unfold rows_params in Hcount. rewrite length_map in Hcount. fold (rows_params accs group) in Hcount.
  destruct group as [|e group'] eqn:Eg; [done|]. clear Hne.
  destruct (Hrows e ltac:(left)) as (Em & _ & _ & Ec & _). unfold group_checks in Hchecks.
  unfold batchChecksForMandateGroup in Hchecks. cbn [find_context] in Hchecks.
  rewrite Em, Ec, (total_amount_rows accs) in Hchecks.
  rewrite forallb_app, andb_true_iff, !forallb_cons, !ok_either in Hchecks.
  unfold mandate_view, context_of in Hchecks. cbn in Hchecks. cbn in Hcount.
  destruct_and!. bool_reflect.
  repeat match goal with H : (_ || _)%bool = true |- _ => apply orb_true_iff in H end.
  rewrite ?Z.leb_le, ?Z.eqb_eq in *.
  unfold row_hashes, rows_params in Hdup. rewrite map_map in Hdup.
  constructor; unfold rows_params, row_hashes; cbn in *; rewrite ?length_map, ?map_map; try lia; done.
Qed.

(** A row of a valid batch settles on its own when the batch is accepted. *)
Lemma batch_rows_settle mandate_key slot tp accs entries b st :
  let rows := rows_params accs (rows_of (toBase58 mandate_key) entries) in
  preflightPaymentBatch entries slot = Ok b → b.(PaymentBatchPreflight.valid) = true →
  batch_env mandate_key slot tp accs entries st → rows_accepted rows st →
  Forall (row_settles mandate_key slot st) rows.
Proof.
  intros rows H Hv Henv (Hag & _ & Hcount). destruct (preflightPaymentBatch_valid _ _ _ H Hv) as [Hrows _].
  unfold rows, rows_params in *. rewrite Forall_map, Forall_forall in Hag. apply Forall_map, Forall_forall. intros e He.
  destruct (benv_rows _ _ _ _ _ _ Henv e He) as (Em & Ea & Er & Ec & Hp).
  destruct (Hrows e) as (pf & E & Hpf); [by apply list_elem_of_filter in He as [_ ?]|].
  rewrite Em, Ea, Er, Ec in E. destruct (preflight_on_chain_iff _ _ _ _ _ _ Hp) as (pf' & E' & Hiff).
  unfold preflight_on_chain in E'. assert (pf = pf') as -> by congruence.
  pose proof (Hag e He) as Hagree. split; [exact Hagree|]. apply Hiff; [by destruct Hagree as [[] _]|]. split; [done|]. rewrite length_map in Hcount.
  revert He Hcount. destruct (rows_of (toBase58 mandate_key) entries) as [|e' l]; [by intros ?%elem_of_nil|].
  intros _ Hcount. assert (map (λ e, (accs e, params_of e.(BatchPreflightEntry.request))) (e' :: l) ≠ []) as Hne by done.
  specialize (Hcount Hne). cbn in Hcount. lia.
Qed.
End BatchLemmas.

(** ** Properties *)
Section PaymentProperties.
Context `{K : PublicKeys, KS : !PublicKeysSpec K}.

(** C1: Preflight decides settlement, up to what it does not look at.  On a
    request whose accounts are the ones the instruction names, with the mandate,
    source account and receipt lookup read from the chain, [preflightPayment]
    never throws.  A payment the program executes at that slot was reported
    valid, and its effect is exactly [settle] (budget, counter, slot,
    allowance, balance and one receipt).  A payment it refuses was reported
    invalid, or fails one of the conditions of [beyond_preflight], which
    preflight does not check: the asset disabled, a mint or a token program
    that differs, accounts the token program does not move between, another
    recipient than a legacy mandate's, or a counter at its last value. *)
Theorem preflightPayment_decides_settlement (mandate_key : bytes) (acc : ExecutePayment.t)
    (slot : Z) (tp : option TokenProgram) (request : PaymentRequest.t) (st : Chain.t) :
  payment_env mandate_key acc slot tp request st →
  ∃ pf, preflight_on_chain mandate_key acc slot tp request st = Ok pf ∧
    decides pf.(PaymentPreflight.valid) (beyond_preflight acc st) mandate_key acc slot (params_of request) st.
Proof.
  intros Henv. destruct (preflight_on_chain_iff _ _ _ _ _ _ Henv) as (pf & E & Hiff).
  exists pf. split; [done|]. apply decides_intro. intros [[] _]. by apply Hiff.
Qed.

(** C5: A valid batch settles, up to what its preflight does not look at.  If
    [preflightPaymentBatch] says valid, then for every mandate, with its rows
    prepared from its chain state, executing those rows in order at that slot
    either succeeds or one of three things preflight does not check is amiss: an
    account fact of a row ([accounts_agree]: the asset disabled, a mint or token
    program that differs, accounts the token program does not move between,
    another recipient than a legacy mandate's), an invoice that is there twice,
    or a counter that would pass its last value.  When it succeeds, the budget
    grows by the batch total, the counter by the number of rows, the source pays
    what goes to other accounts, and exactly the rows' receipts are added. *)
Theorem preflightPaymentBatch_settles (mandate_key : bytes) (slot : Z) (tp : option TokenProgram)
    (accs : BatchPreflightEntry.t → ExecutePayment.t) (entries : list BatchPreflightEntry.t)
    (b : PaymentBatchPreflight.t) (st : Chain.t) :
  let group := rows_of (toBase58 mandate_key) entries in
  let rows := rows_params accs group in
  preflightPaymentBatch entries slot = Ok b → b.(PaymentBatchPreflight.valid) = true →
  batch_env mandate_key slot tp accs entries st →
  match execute_payments mandate_key slot rows st with
  | POk st' =>
      rows_accepted rows st ∧
      st'.(Chain.mandate).(PaymentMandate.amount_spent)
        = st.(Chain.mandate).(PaymentMandate.amount_spent) + total_amount group ∧
      st'.(Chain.mandate).(PaymentMandate.payment_count)
        = st.(Chain.mandate).(PaymentMandate.payment_count) + Z.of_nat (length group) ∧
      st'.(Chain.source).(TokenAccount.amount) = st.(Chain.source).(TokenAccount.amount) - row_taken rows ∧
      (∀ h, is_Some (st'.(Chain.receipts) !! h) ↔ is_Some (st.(Chain.receipts) !! h) ∨ h ∈ row_hashes rows)
  | PErr _ => ¬ rows_accepted rows st
  end.
Proof.
  intros group rows H Hv Henv. destruct (execute_payments mandate_key slot rows st) as [st'|e] eqn:E.
  - destruct (execute_payments_effect _ _ _ _ _ E) as (H1 & H2 & H3 & H4). split; [by eapply execute_payments_accepted|].
    rewrite (total_amount_rows accs). unfold rows, rows_params in H2. rewrite length_map in H2. done.
  - intros Hacc. destruct (decide (group = [])) as [Hnil|Hne]; [unfold rows in E; by rewrite Hnil in E|].
    destruct (execute_payments_ok mandate_key slot rows st) as (st' & E'); [| | |by rewrite E' in E].
    + by eapply benv_slot.
    + by eapply batch_rows_settle.
    + apply (batch_rows_fit _ _ tp _ _ _ Henv); [done|done|]. by eapply preflightPaymentBatch_valid.
Qed.

(** The instruction the SDK builds is the payment that was requested: its data
    parses on chain to the request's hashes and amount, only the agent signs, the
    mandate is the loaded one, and the receipt account is the one derived from the
    mandate and the invoice hash. *)
Lemma buildExecutePaymentInstruction_ok (request : PaymentRequest.t) (agent : Address)
    (mandate : Mandate.t) (programId : Address) (ix : ChainPayInstruction.t) :
  buildExecutePaymentInstruction request agent mandate programId = Ok ix →
  ∃ config asset receipt tp,
    deriveConfigAddress programId = Ok config ∧
    deriveAssetAddress mandate.(Mandate.allowedMint) programId = Ok asset ∧
    deriveReceiptAddress mandate.(Mandate.address) request.(PaymentRequest.invoiceHash) programId
      = Ok receipt ∧
    (request.(PaymentRequest.tokenProgram) = Some tp ∨
      request.(PaymentRequest.tokenProgram) = None ∧ mandate.(Mandate.tokenProgram) = Some tp) ∧
    request.(PaymentRequest.mandate) = mandate.(Mandate.address) ∧
    execute_payment_params ix.(ChainPayInstruction.data) = Some (params_of request) ∧
    length ix.(ChainPayInstruction.data) = 112%nat ∧
    ix.(ChainPayInstruction.programId) = programId ∧
    ix.(ChainPayInstruction.keys) =
      [AccountMeta.mk config false false; AccountMeta.mk asset false false;
       AccountMeta.mk mandate.(Mandate.address) false true; AccountMeta.mk receipt false true;
       AccountMeta.mk agent true true; AccountMeta.mk request.(PaymentRequest.mint) false false;
       AccountMeta.mk mandate.(Mandate.sourceTokenAccount) false true;
       AccountMeta.mk request.(PaymentRequest.recipient) false true;
       AccountMeta.mk (tokenProgramAddress tp) false false;
       AccountMeta.mk SYSTEM_PROGRAM_ID false false].
Proof.
  unfold buildExecutePaymentInstruction. intros H. inv_ok H. bool_reflect.
  apply address_ok in E0 as [-> _].
  destruct (match PaymentRequest.tokenProgram request with
            | Some tp => Some tp | None => Mandate.tokenProgram mandate end) as [tp|] eqn:Etp; [|done].
  inv_ok H. apply instruction_ok in H as [-> _].
  repeat match goal with E : meta _ _ _ = Ok _ |- _ => apply meta_ok in E as [-> _] end.
  match goal with E : sequence _ = Ok _ |- _ => apply sequence_ok in E; rename E into Hrest end.
  match goal with E : encodePayment _ _ _ _ = Ok _ |- _ => rename E into Hdata end.
  eexists _, _, _, tp. split; [eassumption|]. split; [eassumption|]. split_and!; [done | | done | | | done |].
  - destruct (PaymentRequest.tokenProgram request); naive_solver.
  - by apply encodePayment_params in Hdata.
  - by apply encodePayment_length in Hdata.
  - cbn [ChainPayInstruction.keys app]. do 4 f_equal.
    repeat match goal with
    | rest : list AccountMeta.t |- _ => destruct rest as [|? rest]; simplify_eq/=
    end.
    repeat match goal with E : meta _ _ _ = Ok _ |- _ => apply meta_ok in E as [-> _] end. done.
Qed.

(** [preparePayment] accepts exactly the requests whose addresses parse,
    whose three 32-byte references are 32 bytes, whose amount is positive,
    and that carry no remaining accounts; it returns the request unchanged. *)
Theorem preparePayment_iff {U : Type} (input out : PaymentRequest.t) (untrusted : option (list U)) :
  preparePayment input untrusted = Ok out ↔
    valid_address input.(PaymentRequest.mandate) ∧ valid_address input.(PaymentRequest.mint) ∧
    valid_address input.(PaymentRequest.recipient) ∧ default [] untrusted = [] ∧
    length input.(PaymentRequest.invoiceHash) = 32%nat ∧
    length input.(PaymentRequest.paymentId) = 32%nat ∧
    length input.(PaymentRequest.signatureReference) = 32%nat ∧
    0 < input.(PaymentRequest.amount) ∧ out = input.
Proof.
  unfold preparePayment. split.
  - intros H. inv_ok H. bool_reflect.
    repeat match goal with
    | E : bytes32 _ _ = Ok _ |- _ => apply bytes32_ok in E as [-> ?]
    | E : publicKey _ = Ok _ |- _ => apply publicKey_valid in E
    end.
    split_and!; try done. by apply nil_length_inv, Nat.eqb_eq.
  - intros (Hm & Ht & Hr & Hu & Hi & Hp & Hs & Ha & ->).
    destruct Hm as (km & Hm), Ht as (kt & Ht), Hr as (kr & Hr).
    rewrite (publicKey_new _ _ Hm), (publicKey_new _ _ Ht), (publicKey_new _ _ Hr). cbn [bind].
    rewrite Hu. cbn. rewrite !bytes32_valid, Hi, Hp, Hs by done. cbn.
    by rewrite (proj2 (Z.leb_gt _ _)).
Qed.
End PaymentProperties.

(** ** Concrete payments *)

Definition key_of (a : Address) : bytes := default [] (base58_decode a).
Definition spl_key : bytes := key_of SPL_TOKEN_PROGRAM_ID.
Definition sample_mandate_key : bytes := sample_key 3.

(** A token program that keeps the law *)
Definition sample_transfer_checked (x : Transfer.t) : program_result TokenAccount.t :=
  if negb x.(Transfer.movable) then PErr AccountFrozen
  else if x.(Transfer.source).(TokenAccount.amount) <? x.(Transfer.amount) then PErr InsufficientFunds
  else POk (moved x).

Lemma sample_transfer_law x s :
  0 <= x.(Transfer.amount) <= x.(Transfer.source).(TokenAccount.delegated_amount) →
  sample_transfer_checked x = POk s ↔
    x.(Transfer.movable) = true ∧ x.(Transfer.amount) <= x.(Transfer.source).(TokenAccount.amount) ∧ s = moved x.
Proof.
  intros _. unfold sample_transfer_checked. destruct (x.(Transfer.movable)); cbn [negb]; [|naive_solver].
  destruct (Z.ltb_spec x.(Transfer.source).(TokenAccount.amount) x.(Transfer.amount)); [naive_solver lia|]. naive_solver.
Qed.

Definition sample_token : TokenCpi.t := TokenCpi.mk sample_transfer_checked sample_transfer_law.

Definition sample_accounts : ExecutePayment.t :=
  ExecutePayment.mk true (sample_key 14) spl_key spl_key (sample_key 14) spl_key (sample_key 13)
    spl_key (sample_key 24) (sample_key 14) spl_key (sample_key 12) 253 true sample_token.

Definition sample_source : TokenAccount.t :=
  TokenAccount.mk (sample_key 11) (sample_key 14) (Some sample_mandate_key) 3000 8000.

Definition sample_chain : Chain.t := Chain.mk sample_mandate sample_source ∅.

Definition sample_request_for (invoice : Z) : PaymentRequest.t :=
  PaymentRequest.mk (base58_encode sample_mandate_key) (sample_key invoice) (sample_key 23)
    (sample_key 25) (base58_encode (sample_key 14)) (base58_encode (sample_key 24)) 700
    (Some spl_token).

Definition sample_entry (invoice : Z) : BatchPreflightEntry.t :=
  BatchPreflightEntry.mk (sample_request_for invoice)
    (@mandate_view Base58.keys (base58_encode sample_mandate_key) (Some 120) None sample_mandate)
    (Some (base58_encode (sample_key 12))) None
    (Some (@context_of Base58.keys sample_source)).

Lemma publicKey_sample n : @publicKey Base58.keys (base58_encode (sample_key n)) = Ok (sample_key n).
Proof. apply (@publicKey_toBase58 Base58.keys Base58.keys_spec). apply le_bytes_length. Qed.

Lemma spl_key_parses : @publicKey Base58.keys SPL_TOKEN_PROGRAM_ID = Ok spl_key.
Proof. vm_compute. reflexivity. Qed.

Lemma sample_recipient_not_system : base58_encode (sample_key 24) ≠ SYSTEM_PROGRAM_ID.
Proof. apply (bool_decide_unpack _). vm_compute. exact I. Qed.

Lemma sample_key_is_key n : is_key (sample_key n).
Proof. apply le_bytes_length. Qed.

Lemma sample_env invoice :
  @payment_env Base58.keys sample_mandate_key sample_accounts 120 None (sample_request_for invoice)
    sample_chain.
Proof.
  pose proof sample_key_is_key as Hk. constructor; try apply Hk.
  - apply sample_mandate_wf.
  - intros d [= <-]. apply Hk.
  - apply publicKey_sample.
  - apply publicKey_sample.
  - apply sample_recipient_not_system.
  - intros t [= <-]. apply spl_key_parses.
  - done.
  - done.
Qed.

Lemma sample_beyond : beyond_preflight sample_accounts sample_chain.
Proof.
  split; [|done]. split; [|done]. constructor; simpl; try done. left. vm_compute. reflexivity.
Qed.

Lemma sample_preflight_valid :
  ∃ pf, @preflight_on_chain Base58.keys sample_mandate_key sample_accounts 120 None (sample_request_for 22) sample_chain = Ok pf ∧
    pf.(PaymentPreflight.valid) = true.
Proof.
  destruct (@preflight_on_chain Base58.keys sample_mandate_key sample_accounts 120 None
    (sample_request_for 22) sample_chain) as [pf|] eqn:E.
  - exists pf. split; [done|]. revert E. vm_compute. intros [= <-]. done.
  - revert E. vm_compute. discriminate.
Qed.

Lemma preflightPayment_decides_settlement_witness :
  ∃ pf, @preflight_on_chain Base58.keys sample_mandate_key sample_accounts 120 None
      (sample_request_for 22) sample_chain = Ok pf ∧ pf.(PaymentPreflight.valid) = true ∧
    execute_payment sample_mandate_key sample_accounts 120 (params_of (sample_request_for 22)) sample_chain
      = POk (settle sample_mandate_key sample_accounts 120 (params_of (sample_request_for 22)) sample_chain).
Proof.
  destruct (@preflightPayment_decides_settlement Base58.keys Base58.keys_spec sample_mandate_key
    sample_accounts 120 None (sample_request_for 22) sample_chain (sample_env 22)) as (pf & E & Hd).
  assert (pf.(PaymentPreflight.valid) = true) as Hv
    by (destruct sample_preflight_valid as (pf' & E' & Hv'); congruence).
  rewrite Hv in Hd. exists pf. split; [exact E|]. split; [exact Hv|]. exact (decides_settles _ _ _ _ _ _ Hd sample_beyond).
Defined.

Abbreviation sample_batch := ([sample_entry 22; sample_entry 26; sample_entry 27]).

Abbreviation batch_of entries := (@preflightPaymentBatch Base58.keys entries 120).

Definition batch_says (valid : bool) (r : result PaymentBatchPreflight.t) : bool :=
  match r with Ok b => eqb b.(PaymentBatchPreflight.valid) valid | Throw _ => false end.

Lemma batch_says_ok valid r :
  batch_says valid r = true → ∃ b, r = Ok b ∧ b.(PaymentBatchPreflight.valid) = valid.
Proof. destruct r as [b|]; simpl; [|done]. intros ?%eqb_prop. eauto. Qed.

Lemma sample_batch_valid :
  ∃ b, batch_of sample_batch = Ok b ∧ b.(PaymentBatchPreflight.valid) = true.
Proof. apply batch_says_ok. vm_compute. reflexivity. Qed.

Lemma sample_rows_of : rows_of (base58_encode sample_mandate_key) sample_batch = sample_batch.
Proof. unfold rows_of, sample_entry. simpl. by rewrite !filter_cons_True by done. Qed.

Lemma sample_batch_env :
  @batch_env Base58.keys sample_mandate_key 120 None (λ _, sample_accounts) sample_batch sample_chain.
Proof.
  constructor; [|done..].
  intros e He. change (@toBase58 Base58.keys) with base58_encode in He. rewrite sample_rows_of in He.
  assert (∃ invoice, e = sample_entry invoice) as (invoice & ->).
  { rewrite !elem_of_cons, elem_of_nil in He. naive_solver. }
  split; [reflexivity|]. split; [reflexivity|].
  split; [vm_compute; reflexivity|]. split; [reflexivity|]. apply sample_env.
Qed.

Abbreviation sample_rows :=
  (rows_params (λ _, sample_accounts) (rows_of (base58_encode sample_mandate_key) sample_batch)).

Lemma sample_rows_accepted : rows_accepted sample_rows sample_chain.
Proof.
  rewrite sample_rows_of. split_and!; [|apply (bool_decide_unpack _); vm_compute; exact I|done].
  unfold rows_params. apply Forall_map, Forall_forall. intros e _. exact (proj1 sample_beyond).
Qed.

Lemma preflightPaymentBatch_settles_witness :
  ∃ b st', batch_of sample_batch = Ok b ∧ b.(PaymentBatchPreflight.valid) = true ∧
    execute_payments sample_mandate_key 120 sample_rows sample_chain = POk st' ∧
    st'.(Chain.mandate).(PaymentMandate.payment_count) = 5.
Proof.
  destruct sample_batch_valid as (b & E & Hv).
  pose proof (@preflightPaymentBatch_settles Base58.keys Base58.keys_spec sample_mandate_key 120 None
    (λ _, sample_accounts) sample_batch b sample_chain E Hv sample_batch_env) as H.
  change (@toBase58 Base58.keys) with base58_encode in H.
  destruct (execute_payments sample_mandate_key 120 sample_rows sample_chain) as [st'|e];
    [|destruct (H sample_rows_accepted)].
  exists b, st'. destruct H as (_ & _ & H & _). rewrite sample_rows_of in H.
  split; [exact E|]. split; [exact Hv|]. split; [reflexivity|exact H].
Defined.

Abbreviation sample_instruction :=
  (@buildExecutePaymentInstruction Base58.keys (sample_request_for 22) (base58_encode (sample_key 12))
    (sample_entry 22).(BatchPreflightEntry.mandate) DEFAULT_PROGRAM_ID).

Lemma sample_instruction_ok : ∃ ix, sample_instruction = Ok ix.
Proof. apply is_ok_true. vm_compute. reflexivity. Qed.

Lemma sample_prepared : @preparePayment Base58.keys unit (sample_request_for 22) None = Ok (sample_request_for 22).
Proof. vm_compute. reflexivity. Qed.

Lemma preparePayment_iff_witness : 0 < (sample_request_for 22).(PaymentRequest.amount).
Proof.
  destruct (proj1 (@preparePayment_iff Base58.keys unit (sample_request_for 22)
    (sample_request_for 22) None) sample_prepared) as (_ & _ & _ & _ & _ & _ & _ & H & _).
  exact H.
Defined.

(** ** What preflight does not see *)

(** The batch preflight does not compare rows with each other: a batch
      with the same invoice twice under one mandate is reported valid, and the
      program refuses its second row, which fails the atomic transaction. *)
Theorem batch_repeated_invoice_settles_not :
  ∃ b, batch_of [sample_entry 22; sample_entry 22] = Ok b ∧
    b.(PaymentBatchPreflight.valid) = true ∧
    execute_payments sample_mandate_key 120
      (rows_params (λ _, sample_accounts) [sample_entry 22; sample_entry 22]) sample_chain
      = PErr AccountAlreadyInUse.
Proof.
  assert (∃ b, batch_of [sample_entry 22; sample_entry 22] = Ok b ∧
    b.(PaymentBatchPreflight.valid) = true) as (b & E & Hv).
  { apply batch_says_ok. vm_compute. reflexivity. }
  exists b. split_and!; [done | done |]. vm_compute. reflexivity.
Qed.

(** A mandate created by the original program, which names one recipient. *)
Definition sample_legacy_chain : Chain.t :=
  Chain.mk (PaymentMandate.mk (sample_key 11) (sample_key 12) (sample_key 13) (sample_key 14)
    (sample_key 99) 1000 5000 1200 2 900 10 0 100 false false 254) sample_source ∅.

(** Preflight does not check the legacy recipient: for a mandate whose
      [legacyAllowedRecipient] is another account, it reports the payment
      valid although the program refuses it with InvalidRecipient. *)
Theorem preflight_ignores_legacy_recipient :
  ∃ pf, @preflight_on_chain Base58.keys sample_mandate_key sample_accounts 120 None
      (sample_request_for 22) sample_legacy_chain = Ok pf ∧
    pf.(PaymentPreflight.valid) = true ∧
    execute_payment sample_mandate_key sample_accounts 120 (params_of (sample_request_for 22))
      sample_legacy_chain = PErr InvalidRecipient.
Proof.
  assert (∃ pf, @preflight_on_chain Base58.keys sample_mandate_key sample_accounts 120 None
      (sample_request_for 22) sample_legacy_chain = Ok pf ∧ pf.(PaymentPreflight.valid) = true)
    as (pf & E & Hv).
  { destruct (@preflight_on_chain Base58.keys sample_mandate_key sample_accounts 120 None
      (sample_request_for 22) sample_legacy_chain) as [pf|] eqn:E.
    - exists pf. split; [done|]. revert E. vm_compute. intros [= <-]. done.
    - revert E. vm_compute. discriminate. }
  exists pf. split_and!; [done | done |]. vm_compute. reflexivity.
Qed.
