(* ===== verification/TokenAccounts.v ===== *)
(** * Token accounts (sdk/src/token.ts, the recipient check of demo-merchant/src/bootstrap.ts)

    The associated token account of an owner, the instruction that creates it, and
    the reader of the fields of a token account.  The byte layout of the token
    programs is the specification side: what the reader gives of a laid-out account
    is the account the on-chain payment program spends from. *)
From Stdlib Require Import ZArith Lia Strings.Byte.
From stdpp Require Import base numbers strings list.
From S2P Require Import Prelude Bytes PublicKey Types Encoding Pda Program Payment.

Definition ASSOCIATED_TOKEN_PROGRAM_ID : Address := "ATokenGPvbdGVxr1b2hvZbsiqW5xWH25efTNsLJA8knL".

Module TokenAccountFields.
Record t : Type := mk {
  mint : Address;
  owner : Address;
  balance : Z;
  delegate : option Address;
  delegatedAmount : Z;
}.
End TokenAccountFields.

Section Token.
Context `{K : PublicKeys}.

Definition deriveAssociatedTokenAddress (owner mint : Address) (tokenProgram : TokenProgram) : result Address :=
  find_pda [publicKey owner; publicKey (tokenProgramAddress tokenProgram); publicKey mint] ASSOCIATED_TOKEN_PROGRAM_ID.

Definition buildCreateAssociatedTokenAccountInstruction (payer owner mint : Address) (tokenProgram : TokenProgram) :
    result ChainPayInstruction.t :=
  let! associatedTokenAccount := deriveAssociatedTokenAddress owner mint tokenProgram in
  let! keys := sequence [meta payer true true; meta associatedTokenAccount true false; meta owner false false;
                         meta mint false false; systemProgramMeta; meta (tokenProgramAddress tokenProgram) false false] in
  instruction "create_associated_token_account" ASSOCIATED_TOKEN_PROGRAM_ID keys [byte_of 1].

Definition u64_at (data : bytes) (offset : nat) : Z := le_val (slice data offset 8).

Definition readTokenAccountFields (data : bytes) : option TokenAccountFields.t :=
  if (length data <? 165)%nat then None
  else
    let delegateOption := le_val (slice data 72 4) in
    Some (TokenAccountFields.mk (toBase58 (slice data 0 32)) (toBase58 (slice data 32 32)) (u64_at data 64)
      (if delegateOption =? 0 then None else Some (toBase58 (slice data 76 32)))
      (if (129 <=? length data)%nat then u64_at data 121 else 0)).

Definition paymentPreflightContextFromTokenAccount (data : bytes) : option PaymentPreflightContext.t :=
  fields ← readTokenAccountFields data;
  Some (PaymentPreflightContext.mk fields.(TokenAccountFields.balance) fields.(TokenAccountFields.owner)
    fields.(TokenAccountFields.delegate) fields.(TokenAccountFields.delegatedAmount)).

(** ** The layout of the token programs *)

(** A token account as its program stores it: [state], [native] and [close] are the
    fields no reader here looks at, [unused] what lies under an absent delegate, and
    [extensions] what Token-2022 appends. *)
Definition token_account_data (a : TokenAccount.t) (state : byte) (native close unused extensions : bytes) : bytes :=
  a.(TokenAccount.mint) ++ a.(TokenAccount.owner) ++ le_bytes 8 a.(TokenAccount.amount)
    ++ le_bytes 4 (match a.(TokenAccount.delegate) with Some _ => 1 | None => 0 end)
    ++ default unused a.(TokenAccount.delegate) ++ [state] ++ native ++ le_bytes 8 a.(TokenAccount.delegated_amount)
    ++ close ++ extensions.

(** The widths of the fields *)
Definition laid_out (a : TokenAccount.t) (native close unused : bytes) : Prop :=
  length a.(TokenAccount.mint) = 32%nat ∧ length a.(TokenAccount.owner) = 32%nat
  ∧ 0 ≤ a.(TokenAccount.amount) ≤ U64_MAX ∧ 0 ≤ a.(TokenAccount.delegated_amount) ≤ U64_MAX
  ∧ (∀ d, a.(TokenAccount.delegate) = Some d → length d = 32%nat)
  ∧ length native = 12%nat ∧ length close = 36%nat ∧ length unused = 32%nat.

Lemma read_laid_out a state native close unused extensions :
  laid_out a native close unused →
  readTokenAccountFields (token_account_data a state native close unused extensions)
  = Some (TokenAccountFields.mk (toBase58 a.(TokenAccount.mint)) (toBase58 a.(TokenAccount.owner)) a.(TokenAccount.amount)
      (toBase58 <$> a.(TokenAccount.delegate)) a.(TokenAccount.delegated_amount)).
Proof.
  intros (Hm & Ho & Ha & Hd & Hdel & Hn & Hc & Hu).
  assert (Hdl : length (default unused a.(TokenAccount.delegate)) = 32%nat)
    by (destruct a.(TokenAccount.delegate) as [d|] eqn:E; cbn; [by apply Hdel|done]).
  unfold readTokenAccountFields, token_account_data, u64_at.
  rewrite !length_app, !le_bytes_length, Hm, Ho, Hdl, Hn, Hc. cbn [length].
  replace (_ <? 165)%nat with false by (symmetry; apply Nat.ltb_ge; lia).
  replace (129 <=? _)%nat with true by (symmetry; apply Nat.leb_le; lia).
  repeat (first
    [ rewrite slice_app_here by (rewrite ?le_bytes_length; assumption || reflexivity)
    | rewrite slice_app_r by (rewrite ?le_bytes_length, ?Hm, ?Ho, ?Hdl, ?Hn; cbn [length]; lia) ];
    rewrite ?le_bytes_length, ?Hm, ?Ho, ?Hdl, ?Hn; cbn [length Nat.sub]).
  rewrite !u64_le_val by done. rewrite le_val_bytes_small by (destruct a.(TokenAccount.delegate); cbn; lia).
  f_equal. f_equal. destruct a.(TokenAccount.delegate); reflexivity.
Qed.

(** The preflight context the SDK reads from the data of a token account, as the token programs lay it out, is that
    account: its balance, owner, delegate and allowance, whatever its other fields and extensions are. *)
Theorem context_from_account a state native close unused extensions :
  laid_out a native close unused →
  paymentPreflightContextFromTokenAccount (token_account_data a state native close unused extensions) = Some (context_of a).
Proof. intros H. unfold paymentPreflightContextFromTokenAccount. by rewrite read_laid_out. Qed.
End Token.

Import Base58.

Definition sample_token_account : TokenAccount.t :=
  TokenAccount.mk (sample_key 11) (sample_key 14) (Some (sample_key 3)) 3000 8000.

Lemma context_from_account_witness :
  paymentPreflightContextFromTokenAccount (token_account_data sample_token_account (byte_of 1) (zero_bytes 12) (zero_bytes 36) (zero_bytes 32) [])
  = Some (context_of sample_token_account).
Proof.
  apply (context_from_account sample_token_account (byte_of 1) (zero_bytes 12) (zero_bytes 36) (zero_bytes 32) []).
  split_and!; try reflexivity; try (vm_compute; congruence). intros d [= <-]. reflexivity.
Defined.
