(* ===== verification/Borsh.v ===== *)
(** * Borsh layouts (sdk/src/cards/layout.ts)

    The writer that collects parts and the bounds-checked reader, as state
    passing: a writer operation extends the list of parts or throws, a reader
    operation takes the data and the offset and returns a value and the next
    offset or throws.

    [encodes ops r a] is the interface between a layout's two sides: whenever
    the writer operations [ops] succeed, [r] reads [a] back from the bytes they
    added, wherever those bytes sit.  The composition lemmas and the hint
    database [borsh] turn a layout's round trip into one [eauto]. *)
From Stdlib Require Import ZArith Lia Strings.Byte.
From stdpp Require Import base numbers strings pretty list.
From S2P Require Import Prelude Bytes PublicKey Types Encoding.

Module BorshWriter.
(** [private readonly parts: Uint8Array[]] *)
Definition t : Type := list bytes.
Definition op : Type := t → result t.

(** [this.parts.push(part); return this], where computing the part may throw *)
Definition push (part : result bytes) : op := λ w, let! p := part in Ok (w ++ [p]).

Definition u8 (value : number) (name : string) : op :=
  push (throw_if! out_of_range value 0 255 with (name +:+ " must fit in u8");
        Ok (le_bytes 1 (bigint_of value))).

Definition u16 (value : number) (name : string) : op :=
  push (throw_if! out_of_range value 0 65535 with (name +:+ " must fit in u16");
        Ok (le_bytes 2 (bigint_of value))).

Definition u32 (value : number) (name : string) : op :=
  push (throw_if! out_of_range value 0 4294967295 with (name +:+ " must fit in u32");
        Ok (le_bytes 4 (bigint_of value))).

Definition u64 (value : Z) (name : string) : op :=
  push (throw_if! (value <? 0) || (U64_MAX <? value) with (name +:+ " must fit in u64");
        Ok (le_bytes 8 value)).

Definition i64 (value : Z) (name : string) : op :=
  push (throw_if! (value <? I64_MIN) || (I64_MAX <? value) with (name +:+ " must fit in i64");
        Ok (le_bytes 8 value)).

Definition bool (value : Datatypes.bool) : op :=
  push (Ok [byte_of (if value then 1 else 0)]).

Definition fixed (value : bytes) (length : nat) (name : string) : op :=
  push (throw_if! negb (Nat.eqb (List.length value) length)
          with (name +:+ " must be exactly " +:+ pretty (Z.of_nat length) +:+ " bytes");
        Ok value).

Definition pubkey `{K : PublicKeys} (value : Address) : op := push (publicKey value).

Definition bytes (value : Bytes.bytes) : op := push (Ok value).

Definition toBytes (w : t) : Bytes.bytes := concat w.

(** A chain of method calls. *)
Fixpoint run (ops : list op) (w : t) : result t :=
  match ops with
  | [] => Ok w
  | o :: ops => let! w' := o w in run ops w'
  end.

(** A method call whose argument may throw: [w.fixed(currencyBytes(c), 3)]. *)
Definition with_arg {A} (arg : result A) (o : A → op) : op := λ w, let! a := arg in o a w.

(** [new BorshWriter()....toBytes()] *)
Definition write (ops : list op) : result Bytes.bytes :=
  let! w := run ops [] in Ok (toBytes w).
End BorshWriter.

Module BorshReader.
(** The data and [this.offset], to a value and the next offset. *)
Definition reader (A : Type) : Type := bytes → nat → result (A * nat).

Definition ret {A} (a : A) : reader A := λ _ o, Ok (a, o).

Definition rbind {A B} (r : reader A) (k : A → reader B) : reader B :=
  λ d o, let! (a, o') := r d o in k a d o'.

Definition throw_when {A} (cond : Datatypes.bool) (message : string) (k : reader A) : reader A :=
  λ d o, if cond then Throw message else k d o.

(** [need(length, name)], then [length] bytes at the offset *)
Definition take_bytes {A} (length : nat) (name : string) (f : bytes → A) : reader A :=
  λ d o, throw_if! Nat.ltb (List.length d) (o + length) with ("Data ended while reading " +:+ name);
         Ok (f (slice d o length), (o + length)%nat).

Definition u8 (name : string) : reader number := take_bytes 1 name (λ b, JInt (le_val b)).
Definition u16 (name : string) : reader number := take_bytes 2 name (λ b, JInt (le_val b)).
Definition u32 (name : string) : reader number := take_bytes 4 name (λ b, JInt (le_val b)).
Definition u64 (name : string) : reader Z := take_bytes 8 name le_val.
Definition i64 (name : string) : reader Z := take_bytes 8 name le_signed.

Definition bool (name : string) : reader Datatypes.bool :=
  rbind (u8 name) (λ value,
  throw_when (num_gtb value 1) (name +:+ " is not a valid bool")
    (ret (bool_decide (value = JInt 1)))).

Definition fixed (length : nat) (name : string) : reader bytes := take_bytes length name (λ b, b).

Definition pubkey `{K : PublicKeys} (name : string) : reader Address :=
  rbind (fixed 32 name) (λ b, ret (toBase58 b)).

Definition remaining : reader Z := λ d o, Ok (Z.of_nat (length d) - Z.of_nat o, o).

(** [Array.from({ length: n }, (_, i) => r(i))], from index [i] *)
Fixpoint repeat_from {A} (i n : nat) (r : nat → reader A) : reader (list A) :=
  match n with
  | O => ret []
  | S n => rbind (r i) (λ a, rbind (repeat_from (S i) n r) (λ l, ret (a :: l)))
  end.
End BorshReader.

Notation "'read!' x ':=' r 'in' k" := (BorshReader.rbind r (λ x, k))
  (at level 10, x pattern, r at level 100, k at level 200) : js_scope.

(** [new PublicKey.default.toBase58()] *)
Definition ZERO_ADDRESS `{K : PublicKeys} : Address := toBase58 (zero_bytes 32).

(** [`${name}[${i}]`] *)
Definition indexed (name : string) (i : nat) : string :=
  name +:+ "[" +:+ pretty (Z.of_nat i) +:+ "]".

(** ** Reading back what was written *)

(** [r] consumes exactly [bs], wherever it sits before bytes satisfying [P],
    and returns [a]. *)
Definition reads {A} (P : bytes → Prop) (r : BorshReader.reader A) (bs : bytes) (a : A) : Prop :=
  ∀ pre post, P post → r (pre ++ bs ++ post) (length pre) = Ok (a, (length pre + length bs)%nat).

Definition any (post : bytes) : Prop := True.

Lemma reads_ret {A} P (a : A) : reads P (BorshReader.ret a) [] a.
Proof. intros pre post _. unfold BorshReader.ret. simpl. do 2 f_equal. lia. Qed.

Lemma reads_bind {A B} P (r : BorshReader.reader A) (k : A → BorshReader.reader B) bs bs' a b :
  reads any r bs a → reads P (k a) bs' b → reads P (BorshReader.rbind r k) (bs ++ bs') b.
Proof.
  intros Hr Hk pre post HP. unfold BorshReader.rbind. rewrite <- app_assoc, Hr by done. cbn [bind].
  replace (length pre + length bs)%nat with (length (pre ++ bs)) by (by rewrite length_app).
  rewrite (app_assoc pre bs), Hk, !length_app by done. do 2 f_equal. lia.
Qed.

Lemma reads_bytes {A} P n name (f : bytes → A) bs :
  length bs = n → reads P (BorshReader.take_bytes n name f) bs (f bs).
Proof.
  intros L pre post _. unfold BorshReader.take_bytes.
  rewrite (proj2 (Nat.ltb_ge _ _)) by (rewrite !length_app; lia).
  rewrite slice_app_r, Nat.sub_diag, slice_app_here by (lia || done). by rewrite L.
Qed.

(** The writer operations [ops], when they succeed, add bytes from which [r]
    reads [a], whenever what follows satisfies [P]. *)
Definition encodes {A} (P : bytes → Prop) (ops : list BorshWriter.op) (r : BorshReader.reader A)
    (a : A) : Prop :=
  ∀ w w', BorshWriter.run ops w = Ok w' → ∃ bs, concat w' = concat w ++ bs ∧ reads P r bs a.

Lemma run_app ops1 ops2 w :
  BorshWriter.run (ops1 ++ ops2) w =
    bind (BorshWriter.run ops1 w) (λ w', BorshWriter.run ops2 w').
Proof.
  revert w; induction ops1 as [|o ops1 IH]; intros w; simpl; [done|].
  destruct (o w); simpl; [apply IH | done].
Qed.

Lemma encodes_none {A} P (r : BorshReader.reader A) a : reads P r [] a → encodes P [] r a.
Proof. intros H w w' [= <-]. exists []. split; [by rewrite app_nil_r | done]. Qed.

Lemma encodes_ret {A} P (a : A) : encodes P [] (BorshReader.ret a) a.
Proof. apply encodes_none, reads_ret. Qed.

Lemma encodes_app {A B} P ops1 ops2 (r : BorshReader.reader A) (k : A → BorshReader.reader B) a b :
  encodes any ops1 r a → encodes P ops2 (k a) b → encodes P (ops1 ++ ops2) (BorshReader.rbind r k) b.
Proof.
  intros H1 H2 w w'. rewrite run_app. intros (w1 & E1 & E2)%bind_ok.
  destruct (H1 _ _ E1) as (bs1 & C1 & R1), (H2 _ _ E2) as (bs2 & C2 & R2).
  exists (bs1 ++ bs2). split; [by rewrite C2, C1, app_assoc | by eapply reads_bind].
Qed.

Lemma encodes_cons {A B} P o ops (r : BorshReader.reader A) (k : A → BorshReader.reader B) a b :
  encodes any [o] r a → encodes P ops (k a) b → encodes P (o :: ops) (BorshReader.rbind r k) b.
Proof. apply (encodes_app P [o] ops). Qed.

(** A read that consumes nothing. *)
Lemma encodes_skip {A B} P ops (r : BorshReader.reader A) (k : A → BorshReader.reader B) a b :
  encodes any [] r a → encodes P ops (k a) b → encodes P ops (BorshReader.rbind r k) b.
Proof. apply (encodes_app P [] ops). Qed.

Lemma encodes_last {A B} P ops (r : BorshReader.reader A) (k : A → BorshReader.reader B) a b :
  encodes any ops r a → encodes P [] (k a) b → encodes P ops (BorshReader.rbind r k) b.
Proof. intros. rewrite <- (app_nil_r ops). by eapply encodes_app. Qed.

Lemma encodes_ret_eq {A} P (a a' : A) : a' = a → encodes P [] (BorshReader.ret a') a.
Proof. intros ->. apply encodes_ret. Qed.

(** The last read, whose success depends on what follows. *)
Lemma encodes_final {A B} P ops (r : BorshReader.reader A) (f : A → B) a b :
  encodes P ops r a → f a = b → encodes P ops (BorshReader.rbind r (λ x, BorshReader.ret (f x))) b.
Proof.
  intros H <- w w' E. destruct (H _ _ E) as (bs & C & R). exists bs. split; [done|].
  intros pre post HP. unfold BorshReader.rbind. by rewrite R.
Qed.

Lemma encodes_throw_when {A} P ops cond m (k : BorshReader.reader A) a :
  cond = false → encodes P ops k a → encodes P ops (BorshReader.throw_when cond m k) a.
Proof. intros -> H w w' E. destruct (H _ _ E) as (bs & C & R). exists bs. split; [done | exact R]. Qed.

(** One pushed part. *)
Lemma encodes_push {A} P part (r : BorshReader.reader A) a :
  (∀ bs, part = Ok bs → reads P r bs a) → encodes P [BorshWriter.push part] r a.
Proof.
  intros H w w' E. simpl in E. unfold BorshWriter.push in E. inv_ok E.
  apply bind_ok in E0 as (bs & Hp & Hw). injection Hw as <-. subst w'.
  exists bs. rewrite concat_app. simpl. rewrite app_nil_r. auto.
Qed.

Lemma encodes_with_arg {A B} P (arg : result A) o (r : BorshReader.reader B) b :
  (∀ a, arg = Ok a → encodes P [o a] r b) → encodes P [BorshWriter.with_arg arg o] r b.
Proof.
  intros H w w' E. simpl in E. unfold BorshWriter.with_arg in E. inv_ok E.
  apply bind_ok in E0 as (a' & Ha & Hw). apply (H _ Ha). simpl. rewrite Hw. cbn [bind]. by subst.
Qed.

Lemma encodes_u8 v n n' P : encodes P [BorshWriter.u8 v n] (BorshReader.u8 n') v.
Proof.
  apply encodes_push. intros bs E. inv_ok E. apply in_range_inv in G as (z & -> & Hz). subst bs.
  rewrite <- (le_val_bytes_small 1 z) at 2 by (simpl; lia).
  apply (reads_bytes _ 1 _ (λ b, JInt (le_val b))), le_bytes_length.
Qed.

Lemma encodes_u16 v n n' P : encodes P [BorshWriter.u16 v n] (BorshReader.u16 n') v.
Proof.
  apply encodes_push. intros bs E. inv_ok E. apply in_range_inv in G as (z & -> & Hz). subst bs.
  rewrite <- (le_val_bytes_small 2 z) at 2 by (simpl; lia).
  apply (reads_bytes _ 2 _ (λ b, JInt (le_val b))), le_bytes_length.
Qed.

Lemma encodes_u32 v n n' P : encodes P [BorshWriter.u32 v n] (BorshReader.u32 n') v.
Proof.
  apply encodes_push. intros bs E. inv_ok E. apply in_range_inv in G as (z & -> & Hz). subst bs.
  rewrite <- (le_val_bytes_small 4 z) at 2 by (simpl; lia).
  apply (reads_bytes _ 4 _ (λ b, JInt (le_val b))), le_bytes_length.
Qed.

Lemma encodes_u64 v n n' P : encodes P [BorshWriter.u64 v n] (BorshReader.u64 n') v.
Proof.
  apply encodes_push. intros bs E. inv_ok E. bool_reflect. subst bs.
  rewrite <- (u64_le_val v) at 2 by done. apply (reads_bytes _ 8 _ le_val), le_bytes_length.
Qed.

Lemma encodes_i64 v n n' P : encodes P [BorshWriter.i64 v n] (BorshReader.i64 n') v.
Proof.
  apply encodes_push. intros bs E. inv_ok E. bool_reflect. subst bs.
  rewrite <- (le_signed_bytes8 v) at 2 by done. apply (reads_bytes _ 8 _ le_signed), le_bytes_length.
Qed.

Lemma encodes_bool v n P : encodes P [BorshWriter.bool v] (BorshReader.bool n) v.
Proof.
  apply encodes_push. intros bs [= <-]. unfold BorshReader.bool, BorshReader.u8.
  rewrite <- (app_nil_r [_]). eapply reads_bind; [by apply reads_bytes|].
  destruct v; apply reads_ret.
Qed.

Lemma encodes_fixed v len n n' P : encodes P [BorshWriter.fixed v len n] (BorshReader.fixed len n') v.
Proof.
  apply encodes_push. intros bs E. inv_ok E. bool_reflect. subst bs. apply Nat.eqb_eq in G.
  by apply (reads_bytes _ len _ (λ b, b)).
Qed.

Lemma encodes_pubkey `{K : PublicKeys, KS : !PublicKeysSpec K} v n P :
  encodes P [BorshWriter.pubkey v] (BorshReader.pubkey n) v.
Proof.
  apply encodes_push. intros bs [L <-]%publicKey_ok. unfold BorshReader.pubkey.
  rewrite <- (app_nil_r bs) at 1. eapply reads_bind; [by apply (reads_bytes _ 32 _ (λ b, b))|].
  apply reads_ret.
Qed.

(** A loop that writes [n] elements against one that reads [n] elements. *)
Lemma encodes_repeat {A} (o : nat → BorshWriter.op) (r : nat → BorshReader.reader A) (x : nat → A) n i P :
  (∀ j, (i <= j < i + n)%nat → encodes any [o j] (r j) (x j)) →
  encodes P (map o (seq i n)) (BorshReader.repeat_from i n r) (map x (seq i n)).
Proof.
  revert i P; induction n as [|n IH]; intros i P H; cbn [seq map BorshReader.repeat_from];
    [apply encodes_ret|].
  eapply encodes_cons; [apply H; lia|].
  eapply encodes_last; [apply IH; intros j ?; apply H; lia | apply encodes_ret].
Qed.

(** The round trip at the start of the data: what follows is left alone. *)
Lemma encodes_write {A} P ops (r : BorshReader.reader A) a disc bs extra :
  encodes P ops r a → P extra → BorshWriter.write (BorshWriter.bytes disc :: ops) = Ok bs →
  ∃ body, bs = disc ++ body ∧
    r (bs ++ extra) (length disc) = Ok (a, length bs).
Proof.
  intros H HP E. unfold BorshWriter.write in E. apply bind_ok in E as (w & E & Hw). injection Hw as <-.
  simpl in E. destruct (H _ _ E) as (body & C & R). exists body.
  simpl in C. unfold BorshWriter.toBytes. rewrite app_nil_r in C. split; [done|].
  rewrite C, <- app_assoc, (R disc extra), length_app by done. done.
Qed.

Create HintDb borsh discriminated.

(** ** Inverting a read *)

Lemma rbind_ok {A B} (r : BorshReader.reader A) (k : A → BorshReader.reader B) d o b o' :
  BorshReader.rbind r k d o = Ok (b, o') → ∃ a o1, r d o = Ok (a, o1) ∧ k a d o1 = Ok (b, o').
Proof. unfold BorshReader.rbind. intros ([a o1] & E & H)%bind_ok. eauto. Qed.

Lemma throw_when_ok {A} cond m (k : BorshReader.reader A) d o r :
  BorshReader.throw_when cond m k d o = Ok r → cond = false ∧ k d o = Ok r.
Proof. apply if_throw_ok. Qed.

Lemma repeat_from_length {A} i n (r : nat → BorshReader.reader A) d o l o' :
  BorshReader.repeat_from i n r d o = Ok (l, o') → length l = n.
Proof.
  revert i o l o'; induction n as [|n IH]; intros i o l o'; cbn [BorshReader.repeat_from].
  { by intros [= <- _]. }
  intros (a & o1 & _ & (l' & o2 & H & [= <- _])%rbind_ok)%rbind_ok. simpl. f_equal. eauto.
Qed.

(** Peel every field read of a reader that returned. *)
Ltac inv_read H :=
  lazymatch type of H with
  | BorshReader.rbind _ _ _ _ = Ok (_, _) =>
      let a := fresh "a" in let o := fresh "o" in let E := fresh "E" in
      apply rbind_ok in H; destruct H as (a & o & E & H); cbv beta in H; inv_read H
  | BorshReader.throw_when _ _ _ _ _ = Ok _ =>
      let G := fresh "G" in
      apply throw_when_ok in H; destruct H as (G & H); inv_read H
  | BorshReader.ret _ _ _ = Ok (_, _) => injection H as H _
  | _ => idtac
  end.

(** ** How much was written *)

Definition sized (ops : list BorshWriter.op) (n : nat) : Prop :=
  ∀ w w', BorshWriter.run ops w = Ok w' → length (concat w') = (length (concat w) + n)%nat.

Lemma sized_nil : sized [] 0.
Proof. intros w w' [= <-]. lia. Qed.

Lemma sized_app ops1 ops2 n1 n2 : sized ops1 n1 → sized ops2 n2 → sized (ops1 ++ ops2) (n1 + n2).
Proof.
  intros H1 H2 w w'. rewrite run_app. intros (w1 & E1 & E2)%bind_ok.
  rewrite (H2 _ _ E2), (H1 _ _ E1). lia.
Qed.

Lemma sized_cons o ops n1 n2 : sized [o] n1 → sized ops n2 → sized (o :: ops) (n1 + n2).
Proof. apply (sized_app [o] ops). Qed.

Lemma sized_map (o : nat → BorshWriter.op) n l :
  (∀ i, sized [o i] n) → sized (map o l) (length l * n).
Proof. intros H. induction l as [|i l IH]; [apply sized_nil | by apply sized_cons]. Qed.

Lemma sized_push part n : (∀ bs, part = Ok bs → length bs = n) → sized [BorshWriter.push part] n.
Proof.
  intros H w w' E. simpl in E. unfold BorshWriter.push in E. inv_ok E.
  apply bind_ok in E0 as (bs & Hp & Hw). injection Hw as <-. subst w'.
  rewrite concat_app, length_app. simpl. rewrite app_nil_r. by rewrite (H _ Hp).
Qed.

Lemma sized_with_arg {A} (arg : result A) o n :
  (∀ a, sized [o a] n) → sized [BorshWriter.with_arg arg o] n.
Proof.
  intros H w w' E. simpl in E. unfold BorshWriter.with_arg in E. inv_ok E.
  apply bind_ok in E0 as (a' & Ha & Hw). apply (H a'). simpl. rewrite Hw. cbn [bind]. by subst.
Qed.

Ltac sized_leaf :=
  apply sized_push; let bs := fresh in let E := fresh in
  intros bs E; inv_ok E; subst; first [done | apply le_bytes_length].

Lemma sized_u8 v n : sized [BorshWriter.u8 v n] 1.
Proof. sized_leaf. Qed.
Lemma sized_u16 v n : sized [BorshWriter.u16 v n] 2.
Proof. sized_leaf. Qed.
Lemma sized_u32 v n : sized [BorshWriter.u32 v n] 4.
Proof. sized_leaf. Qed.
Lemma sized_u64 v n : sized [BorshWriter.u64 v n] 8.
Proof. sized_leaf. Qed.
Lemma sized_i64 v n : sized [BorshWriter.i64 v n] 8.
Proof. sized_leaf. Qed.
Lemma sized_bool v : sized [BorshWriter.bool v] 1.
Proof. sized_leaf. Qed.
Lemma sized_bytes v : sized [BorshWriter.bytes v] (length v).
Proof. sized_leaf. Qed.

Lemma sized_fixed v len n : sized [BorshWriter.fixed v len n] len.
Proof. apply sized_push. intros bs E. inv_ok E. bool_reflect. subst. by apply Nat.eqb_eq. Qed.

Lemma sized_pubkey `{K : PublicKeys, KS : !PublicKeysSpec K} v : sized [BorshWriter.pubkey v] 32.
Proof. apply sized_push. by intros bs [L _]%publicKey_ok. Qed.

Lemma sized_eq ops n m : sized ops n → n = m → sized ops m.
Proof. by intros H <-. Qed.

Lemma sized_write ops n bs : sized ops n → BorshWriter.write ops = Ok bs → length bs = n.
Proof.
  intros H E. unfold BorshWriter.write in E. apply bind_ok in E as (w & E & Hw). injection Hw as <-.
  apply (H _ _ E).
Qed.

#[export] Hint Resolve sized_nil sized_u8 sized_u16 sized_u32 sized_u64 sized_i64 sized_bool
  sized_bytes sized_fixed sized_pubkey : borsh.

(** Sum the sizes of a layout's fields. *)
Ltac size_fields :=
  lazymatch goal with
  | |- sized [] _ => apply sized_nil
  | |- sized [_] _ => solve [eauto 3 with borsh nocore]
  | |- sized (_ :: _) _ => eapply sized_cons; [solve [eauto 3 with borsh nocore] | size_fields]
  | |- sized (map _ _) _ => apply sized_map; intros ?; solve [eauto 3 with borsh nocore]
  | |- sized (_ ++ _) _ => eapply sized_app; [size_fields | size_fields]
  end.
#[export] Hint Resolve sized_with_arg : borsh.
#[export] Hint Resolve encodes_ret encodes_u8 encodes_u16 encodes_u32 encodes_u64 encodes_i64
  encodes_bool encodes_fixed encodes_pubkey : borsh.

Lemma num_gtb_count (n m : nat) : (n <= m)%nat → num_gtb (JInt (Z.of_nat n)) (Z.of_nat m) = false.
Proof. intros H. apply Z.ltb_ge. lia. Qed.

(** Follow a layout field by field. *)
Ltac encode_fields :=
  repeat first
    [ apply encodes_ret
    | apply encodes_throw_when; [first [done | apply num_gtb_count; assumption]|]
    | eapply encodes_cons; [solve [auto with borsh nocore]|] ].

Ltac layout_size := eapply sized_eq; [size_fields | reflexivity].
