(* ===== verification/CardConstants.v ===== *)
(** * Card program constants (sdk/src/cards/constants.ts) *)
From Stdlib Require Import ZArith Lia Strings.Byte Strings.Ascii.
From stdpp Require Import base numbers strings list.
From S2P Require Import Prelude Bytes Types.

Definition CARD_POLICY_PROGRAM_ID : Address := "H3aetJdQXG8EeJSCHZrpQa8iKHBw8e1p9fSPjTUsB93n".

(** [String.prototype.trim]; characters are code units below 256, so white
    space is tab to carriage return, space and the no-break space. *)
Definition is_space (c : ascii) : bool :=
  let n := N_of_ascii c in ((9 <=? n) && (n <=? 13) || (n =? 32) || (n =? 160))%N.

Fixpoint trim_start (s : string) : string :=
  match s with
  | String.String c rest => if is_space c then trim_start rest else s
  | EmptyString => EmptyString
  end.

Fixpoint trim_end (s : string) : string :=
  match s with
  | EmptyString => EmptyString
  | String.String c rest =>
      match trim_end rest with
      | EmptyString => if is_space c then EmptyString else String.String c EmptyString
      | rest' => String.String c rest'
      end
  end.

Definition trim (s : string) : string := trim_end (trim_start s).

Definition resolveCardPolicyProgramId (programId : option Address) : result Address :=
  let value := trim (default CARD_POLICY_PROGRAM_ID programId) in
  throw_if! bool_decide (value = "") with
    "card_policy program ID is not configured yet. Pass programId explicitly until the program is deployed.";
  Ok value.

Definition DEVNET_TEE_VALIDATOR : Address := "MTEWGuqxUpYZGFJQcp8tLN7x5v9BSeoFHYWQQ3n3xzo".
Definition TEE_VALIDATOR_ALLOWLIST : list Address := [DEVNET_TEE_VALIDATOR].
Definition DELEGATION_PROGRAM_ID : Address := "DELeGGvXpWV2fqJUhqcF5ZSYMS4JTLjteaAMARRSaeSh".
Definition MAGIC_PROGRAM_ID : Address := "Magic11111111111111111111111111111111111111".
Definition MAGIC_CONTEXT_ID : Address := "MagicContext1111111111111111111111111111111".
Definition PERMISSION_PROGRAM_ID : Address := "ACLseoPoyC3cBqoUtkbjZ4aDrkurZW86v19pXz2XQnp1".
Definition EPHEMERAL_VAULT_ID : Address := "MagicVau1t999999999999999999999999999999999".

Module CARD_SEEDS.
Definition binding : string := "card_binding".
Definition policy : string := "card_policy".
Definition period : string := "card_period".
Definition reservation : string := "res".
Definition intent : string := "intent".
Definition commitment : string := "card_commit".
Definition authGuard : string := "auth_guard".
Definition repayAgent : string := "repay_agent".
End CARD_SEEDS.

Definition MAX_MERCHANTS : nat := 8.
Definition MAX_MCCS : nat := 16.
Definition MAX_MEMBERS : nat := 6.
Definition MAX_BUDGET_CENTS : Z := 1000000.
Definition MIN_PERIOD_SECONDS : Z := 86400.
Definition MAX_FEE_BPS : Z := 1000.

Module CARD_POLICY_DISCRIMINATORS.
Definition initCard : bytes := bytes_of_Zs [163; 228; 150; 17; 250; 36; 156; 20].
Definition delegateCard : bytes := bytes_of_Zs [143; 76; 125; 25; 4; 123; 254; 155].
Definition initPermission : bytes := bytes_of_Zs [66; 14; 153; 250; 187; 36; 179; 236].
Definition updatePermission : bytes := bytes_of_Zs [1; 120; 111; 126; 237; 61; 41; 61].
Definition syncPermission : bytes := bytes_of_Zs [164; 186; 105; 85; 229; 147; 214; 246].
Definition setPolicy : bytes := bytes_of_Zs [40; 133; 12; 157; 235; 202; 2; 132].
Definition openCheckoutIntent : bytes := bytes_of_Zs [139; 180; 113; 38; 119; 108; 36; 224].
Definition cancelCheckoutIntent : bytes := bytes_of_Zs [175; 152; 6; 182; 211; 206; 160; 167].
Definition closeCheckoutIntent : bytes := bytes_of_Zs [36; 161; 214; 238; 244; 192; 71; 234].
Definition authorize : bytes := bytes_of_Zs [173; 193; 102; 210; 219; 137; 113; 120].
Definition adjustReservation : bytes := bytes_of_Zs [137; 209; 64; 94; 107; 194; 101; 43].
Definition capture : bytes := bytes_of_Zs [110; 65; 245; 241; 195; 248; 233; 142].
Definition reverse : bytes := bytes_of_Zs [137; 149; 242; 82; 88; 95; 221; 145].
Definition refund : bytes := bytes_of_Zs [2; 96; 183; 251; 63; 208; 46; 46].
Definition recordDispute : bytes := bytes_of_Zs [190; 94; 198; 130; 215; 36; 43; 143].
Definition recordException : bytes := bytes_of_Zs [221; 204; 254; 53; 116; 13; 197; 105].
Definition resolveException : bytes := bytes_of_Zs [131; 144; 179; 147; 199; 157; 77; 127].
Definition rollPeriod : bytes := bytes_of_Zs [30; 184; 166; 42; 251; 204; 47; 107].
Definition freeze : bytes := bytes_of_Zs [255; 91; 207; 84; 251; 194; 254; 63].
Definition unfreeze : bytes := bytes_of_Zs [133; 160; 68; 253; 80; 232; 218; 247].
Definition recoveryFreeze : bytes := bytes_of_Zs [113; 1; 136; 29; 212; 19; 213; 56].
Definition restore : bytes := bytes_of_Zs [77; 37; 122; 128; 139; 35; 6; 58].
Definition confirmReconciled : bytes := bytes_of_Zs [116; 7; 34; 18; 87; 241; 4; 233].
Definition checkpoint : bytes := bytes_of_Zs [213; 200; 19; 204; 240; 143; 184; 252].
Definition writeCommitment : bytes := bytes_of_Zs [159; 54; 242; 213; 46; 162; 174; 75].
Definition wipeCard : bytes := bytes_of_Zs [210; 120; 235; 58; 105; 132; 206; 76].
Definition closeCard : bytes := bytes_of_Zs [142; 206; 170; 182; 227; 204; 185; 115].
Definition recordRepayment : bytes := bytes_of_Zs [193; 155; 76; 246; 27; 189; 147; 102].
Definition closeReservation : bytes := bytes_of_Zs [171; 96; 8; 85; 100; 252; 173; 204].
Definition repayStatement : bytes := bytes_of_Zs [56; 158; 212; 137; 146; 226; 174; 82].
Definition recordPrivateRepayment : bytes := bytes_of_Zs [91; 51; 18; 9; 7; 33; 77; 147].
End CARD_POLICY_DISCRIMINATORS.

Module CARD_ACCOUNT_DISCRIMINATORS.
Definition cardBinding : bytes := bytes_of_Zs [86; 71; 81; 106; 155; 166; 1; 72].
Definition cardPolicy : bytes := bytes_of_Zs [196; 159; 33; 83; 231; 156; 65; 71].
Definition cardPeriod : bytes := bytes_of_Zs [112; 201; 91; 227; 87; 121; 62; 2].
Definition reservation : bytes := bytes_of_Zs [188; 235; 0; 111; 208; 253; 247; 212].
Definition checkoutIntent : bytes := bytes_of_Zs [39; 73; 4; 146; 212; 151; 108; 241].
Definition cardCommitment : bytes := bytes_of_Zs [43; 146; 163; 253; 221; 147; 4; 9].
Definition authGuard : bytes := bytes_of_Zs [53; 204; 86; 193; 155; 169; 182; 150].
End CARD_ACCOUNT_DISCRIMINATORS.

(** Error codes and names, in the order of the table. *)
Definition CARD_POLICY_ERRORS : list (Z * string) :=
  [ (6000, "Unauthorized");
    (6001, "ValidatorNotAllowed");
    (6002, "PolicyNotSet");
    (6003, "InvalidPolicy");
    (6004, "CardFrozen");
    (6005, "RecoveryFrozen");
    (6006, "PolicyExpired");
    (6007, "IntentInvalid");
    (6008, "IntentExpired");
    (6009, "IntentStale");
    (6010, "MerchantMismatch");
    (6011, "MerchantNotAllowed");
    (6012, "MccNotAllowed");
    (6013, "CurrencyMismatch");
    (6014, "AmountExceedsIntent");
    (6015, "AmountExceedsMax");
    (6016, "BudgetExceeded");
    (6017, "VelocityExceeded");
    (6018, "RecurringNotAllowed");
    (6019, "DuplicateAuthorization");
    (6020, "DuplicateCapture");
    (6021, "ReservationClosed");
    (6022, "PeriodNotEnded");
    (6023, "DisclosureBlocked");
    (6024, "MemberLimit");
    (6025, "ExceptionsOpen");
    (6026, "NotInRecovery");
    (6027, "StaleCommitment");
    (6028, "OpenReservations");
    (6029, "OutstandingBalance");
    (6030, "MathOverflow");
    (6031, "AuthorizerChangeRequiresFreeze");
    (6032, "DuplicateRepayment");
    (6033, "MemberNotFound");
    (6034, "PermissionNotInitialized");
    (6035, "InvalidAmount");
    (6036, "NoOpenExceptions");
    (6037, "ReconDigestMismatch");
    (6038, "RepaymentExceedsOutstanding");
    (6039, "InvalidAccount");
    (6040, "PrefundTooLow");
    (6041, "NotWiped");
    (6042, "InvalidEventId");
    (6043, "DuplicateEvent");
    (6044, "EphemeralAccountsOpen");
    (6045, "ReservationNotFinal");
    (6046, "CoSignerRequired");
    (6047, "RefundExceedsCapture");
    (6048, "CaptureLimit");
    (6049, "BudgetBelowCommitted");
    (6050, "InvalidRepaymentReceipt");
    (6051, "RepaymentRecipientMismatch");
    (6052, "RepaymentExceedsReceipt");
    (6053, "InvalidRepaymentMandate") ].

Definition cardPolicyErrorName (code : Z) : option string :=
  snd <$> List.find (λ e, e.1 =? code) CARD_POLICY_ERRORS.

(** The codes are consecutive from 6000, so a name's position is its code. *)
Lemma error_codes_consecutive :
  map fst CARD_POLICY_ERRORS = map (λ i, 6000 + Z.of_nat i) (seq 0 (length CARD_POLICY_ERRORS)).
Proof. reflexivity. Qed.
