(* ===== verification/CardAccounts.v ===== *)
(** * Card accounts (sdk/src/cards/accounts.ts)

    The six account layouts of the card program, encoder and decoder, and the
    theorems that each decoder reads back what its encoder writes, whatever
    bytes a later program version appends. *)
From Stdlib Require Import ZArith Lia Strings.Byte Strings.Ascii.
From stdpp Require Import base numbers strings pretty list.
From S2P Require Import Prelude Bytes PublicKey Types Encoding Borsh CardConstants.


Import BorshReader(reader, ret, rbind, throw_when, u8, u16, u32, u64, i64, fixed, pubkey, remaining, repeat_from).

(** ** Enumerations: a value is stored as its index in the list *)

Module CardBindingStatus.
Inductive t : Type := active | closing | closed.
#[export] Instance eq_dec : EqDecision t.
Proof. solve_decision. Defined.
End CardBindingStatus.

Module CardFreezeReason.
Inductive t : Type := none | owner | authorizer_safety | recovery | expiry.
#[export] Instance eq_dec : EqDecision t.
Proof. solve_decision. Defined.
End CardFreezeReason.

Module CardRecoveryState.
Inductive t : Type := normal | recovery_frozen | restored_pending_reconcile.
#[export] Instance eq_dec : EqDecision t.
Proof. solve_decision. Defined.
End CardRecoveryState.

Module IntentState.
Inductive t : Type := open | consumed | expired | cancelled.
#[export] Instance eq_dec : EqDecision t.
Proof. solve_decision. Defined.
End IntentState.

Module DisputeState.
Inductive t : Type := none | open | won | lost | withdrawn.
#[export] Instance eq_dec : EqDecision t.
Proof. solve_decision. Defined.
End DisputeState.
Export (hints) CardBindingStatus CardFreezeReason CardRecoveryState IntentState DisputeState.

Definition BINDING_STATUS : list CardBindingStatus.t :=
  [CardBindingStatus.active; CardBindingStatus.closing; CardBindingStatus.closed].
Definition FREEZE_REASONS : list CardFreezeReason.t :=
  [CardFreezeReason.none; CardFreezeReason.owner; CardFreezeReason.authorizer_safety;
   CardFreezeReason.recovery; CardFreezeReason.expiry].
Definition RECOVERY_STATES : list CardRecoveryState.t :=
  [CardRecoveryState.normal; CardRecoveryState.recovery_frozen;
   CardRecoveryState.restored_pending_reconcile].
Definition INTENT_STATES : list IntentState.t :=
  [IntentState.open; IntentState.consumed; IntentState.expired; IntentState.cancelled].
Definition DISPUTE_STATES : list DisputeState.t :=
  [DisputeState.none; DisputeState.open; DisputeState.won; DisputeState.lost; DisputeState.withdrawn].

Definition RESERVATION_STATES : list (Z * string) :=
  [(1, "reserved"); (2, "partially_captured"); (3, "captured"); (4, "reversed"); (5, "expired")].

Definition reservationStateName (state : Z) : option string :=
  snd <$> List.find (λ e, e.1 =? state) RESERVATION_STATES.

(** [values[raw]] of a byte *)
Definition enumValue {T} (values : list T) (raw : number) (name : string) : reader T :=
  λ d o, match values !! Z.to_nat (bigint_of raw) with
         | Some v => Ok (v, o)
         | None => Throw ("Unknown " +:+ name +:+ " value " +:+ pretty (bigint_of raw))
         end.

(** [values.indexOf(value)]; the text of an unknown value is left out of the
    message, since no value of the type is unknown. *)
Fixpoint index_in {T} `{EqDecision T} (values : list T) (value : T) : option nat :=
  match values with
  | [] => None
  | v :: values => if decide (v = value) then Some O else S <$> index_in values value
  end.

Definition enumIndex {T} `{EqDecision T} (values : list T) (value : T) (name : string)
    : result number :=
  match index_in values value with
  | Some i => Ok (JInt (Z.of_nat i))
  | None => Throw ("Unknown " +:+ name)
  end.

(** ** Currency codes *)

(** [String.fromCharCode(...bytes)] *)
Definition fromCharCode (bs : bytes) : string :=
  String.string_of_list_ascii (map (λ b, ascii_of_N (Byte.to_N b)) bs).

Definition currencyFromBytes (bs : bytes) : string :=
  if negb (some_nonzero bs) then "" else fromCharCode bs.

Definition is_upper (c : ascii) : bool :=
  let n := N_of_ascii c in ((65 <=? n) && (n <=? 90))%N.

(** [/^[A-Z]{3}$/] *)
Definition currency_pattern (s : string) : bool :=
  let cs := String.list_ascii_of_string s in Nat.eqb (length cs) 3 && forallb is_upper cs.

Definition char_bytes (s : string) : bytes :=
  map (λ c, byte_of (Z.of_N (N_of_ascii c))) (String.list_ascii_of_string s).

Definition currencyBytes (currency : string) : result bytes :=
  if bool_decide (currency = "") then Ok (zero_bytes 3)
  else throw_if! negb (currency_pattern currency) with "currency must be a 3-letter uppercase code";
       Ok (char_bytes currency).

(** [assertDiscriminator], the length check, and a reader after the discriminator *)
Definition header {A} (data discriminator : bytes) (name : string) (minLength : nat) (r : reader A)
    : result A :=
  let! _ := assertDiscriminator data discriminator name in
  throw_if! Nat.ltb (length data) minLength with (name +:+ " account data is truncated");
  let! (a, _) := r data 8%nat in Ok a.

(** ** CardBinding *)

Module CardBinding.
Record t : Type := mk {
  version : number;
  owner : Address;
  cardId : bytes;
  issuer : number;
  issuerCardRefHash : bytes;
  policy : Address;
  period : Address;
  commitment : Address;
  status : CardBindingStatus.t;
  createdAt : Z;
  bump : number;
}.
End CardBinding.

Definition CARD_BINDING_LENGTH : nat := 8 + 1 + 32 + 32 + 1 + 32 + 32 * 3 + 1 + 8 + 1.

Module CardPolicyMember.
Record t : Type := mk { pubkey : Address; flags : number }.
End CardPolicyMember.

(** The digests appended by later program versions. *)
Module CardPolicyTail.
Record t : Type := mk { reconDigest : bytes; repaymentDigests : list bytes }.
End CardPolicyTail.

Module CardPolicy.
Record t : Type := mk {
  binding : Address;
  owner : Address;
  authorizer : Address;
  policyVersion : number;
  budgetCents : Z;
  maxPurchaseCents : Z;
  maxPurchasesPerPeriod : number;
  periodSeconds : number;
  currency : string;
  merchantIdHashes : list bytes;
  mccs : list number;
  expiresAt : Z;
  recurringAllowed : bool;
  feeBps : number;
  frozen : bool;
  freezeReason : CardFreezeReason.t;
  recoveryState : CardRecoveryState.t;
  statementOutstandingCents : Z;
  exceptionsOpen : number;
  members : list CardPolicyMember.t;
  ledgerHead : bytes;
  ledgerSeq : Z;
  commitSeq : Z;
  bump : number;
  tail : option CardPolicyTail.t;
}.
End CardPolicy.

Definition REPAYMENT_RING : nat := 8.
Definition CAPTURE_RING : nat := 8.

Definition CARD_POLICY_LENGTH : nat :=
  8 + 32 * 3 + 4 + 8 + 8 + 2 + 4 + 3 + 1 + 32 * MAX_MERCHANTS + 1 + 2 * MAX_MCCS + 8 + 1 + 2 + 1 + 1 + 1
  + 8 + 2 + 1 + 32 * MAX_MEMBERS + MAX_MEMBERS + 32 + 8 + 8 + 1.

Module CardPeriod.
Record t : Type := mk {
  policy : Address;
  periodIndex : number;
  periodStart : Z;
  periodEnd : Z;
  capturedCents : Z;
  reservedCents : Z;
  refundedCents : Z;
  purchasesCount : number;
  exceptionCents : Z;
  bump : number;
}.
End CardPeriod.

Definition CARD_PERIOD_LENGTH : nat := 8 + 32 + 4 + 8 + 8 + 8 + 8 + 8 + 2 + 8 + 1.

Module Reservation.
Record t : Type := mk {
  policy : Address;
  authIdHash : bytes;
  intent : Address;
  periodIndex : number;
  amountReservedCents : Z;
  capturedCents : Z;
  reversedCents : Z;
  refundedCents : Z;
  state : number;
  disputeState : DisputeState.t;
  flags : number;
  createdAt : Z;
  holdExpiresAt : Z;
  bump : number;
  captureIdHashes : option (list bytes);
  maxAmountCents : option Z;
}.
End Reservation.

Definition RESERVATION_LENGTH : nat := 8 + 32 + 32 + 32 + 4 + 8 * 4 + 1 + 1 + 1 + 8 + 8 + 1.

Module CheckoutIntent.
Record t : Type := mk {
  policy : Address;
  intentId : bytes;
  agent : Address;
  merchantIdHash : bytes;
  mcc : number;
  maxAmountCents : Z;
  currency : string;
  policyVersion : number;
  expiresAt : Z;
  state : IntentState.t;
  reservation : Address;
  bump : number;
}.
End CheckoutIntent.

Definition CHECKOUT_INTENT_LENGTH : nat := 8 + 32 + 16 + 32 + 32 + 2 + 8 + 3 + 4 + 8 + 1 + 32 + 1.

Module CardCommitment.
Record t : Type := mk {
  binding : Address;
  seq : Z;
  root : bytes;
  policyVersion : number;
  periodIndex : number;
  writtenSlot : Z;
  bump : number;
}.
End CardCommitment.

Definition CARD_COMMITMENT_LENGTH : nat := 8 + 32 + 8 + 32 + 4 + 4 + 8 + 1.

(** A count byte as an array length. *)
Definition count_of (n : number) : nat := Z.to_nat (bigint_of n).

Section Codecs.
Context `{K : PublicKeys}.

Definition read_card_binding : reader CardBinding.t :=
  read! version := u8 "version" in
  read! owner := pubkey "owner" in
  read! cardId := fixed 32 "cardId" in
  read! issuer := u8 "issuer" in
  read! issuerCardRefHash := fixed 32 "issuerCardRefHash" in
  read! policy := pubkey "policy" in
  read! period := pubkey "period" in
  read! commitment := pubkey "commitment" in
  read! status := rbind (u8 "status") (λ raw, enumValue BINDING_STATUS raw "binding status") in
  read! createdAt := i64 "createdAt" in
  read! bump := u8 "bump" in
  ret (CardBinding.mk version owner cardId issuer issuerCardRefHash policy period commitment
    status createdAt bump).

Definition decodeCardBinding (data : bytes) : result CardBinding.t :=
  header data CARD_ACCOUNT_DISCRIMINATORS.cardBinding "CardBinding" CARD_BINDING_LENGTH
    read_card_binding.

Definition encodeCardBinding (value : CardBinding.t) : result bytes :=
  BorshWriter.write [
    BorshWriter.bytes CARD_ACCOUNT_DISCRIMINATORS.cardBinding;
    BorshWriter.u8 value.(CardBinding.version) "version";
    BorshWriter.pubkey value.(CardBinding.owner);
    BorshWriter.fixed value.(CardBinding.cardId) 32 "cardId";
    BorshWriter.u8 value.(CardBinding.issuer) "issuer";
    BorshWriter.fixed value.(CardBinding.issuerCardRefHash) 32 "issuerCardRefHash";
    BorshWriter.pubkey value.(CardBinding.policy);
    BorshWriter.pubkey value.(CardBinding.period);
    BorshWriter.pubkey value.(CardBinding.commitment);
    BorshWriter.with_arg (enumIndex BINDING_STATUS value.(CardBinding.status) "binding status")
      (λ i, BorshWriter.u8 i "u8");
    BorshWriter.i64 value.(CardBinding.createdAt) "createdAt";
    BorshWriter.u8 value.(CardBinding.bump) "bump"].

(** ** CardPolicy *)

Definition policyTail : reader (option CardPolicyTail.t) :=
  read! rest := remaining in
  if rest <? 32 + 32 * Z.of_nat REPAYMENT_RING + 1 then ret None
  else
    read! reconDigest := fixed 32 "reconDigest" in
    read! ring := repeat_from 0 REPAYMENT_RING (λ i, fixed 32 (indexed "repaymentDigests" i)) in
    read! count := u8 "repaymentCount" in
    ret (Some (CardPolicyTail.mk reconDigest (take (Nat.min (count_of count) REPAYMENT_RING) ring))).

Definition read_card_policy : reader CardPolicy.t :=
  read! binding := pubkey "binding" in
  read! owner := pubkey "owner" in
  read! authorizer := pubkey "authorizer" in
  read! policyVersion := u32 "policyVersion" in
  read! budgetCents := u64 "budgetCents" in
  read! maxPurchaseCents := u64 "maxPurchaseCents" in
  read! maxPurchasesPerPeriod := u16 "maxPurchasesPerPeriod" in
  read! periodSeconds := u32 "periodSeconds" in
  read! currency := rbind (fixed 3 "currency") (λ b, ret (currencyFromBytes b)) in
  read! merchantCount := u8 "merchantCount" in
  throw_when (num_gtb merchantCount (Z.of_nat MAX_MERCHANTS))
    "CardPolicy merchant_count exceeds capacity" (
  read! allMerchants := repeat_from 0 MAX_MERCHANTS (λ i, fixed 32 (indexed "merchantIdHashes" i)) in
  read! mccCount := u8 "mccCount" in
  throw_when (num_gtb mccCount (Z.of_nat MAX_MCCS)) "CardPolicy mcc_count exceeds capacity" (
  read! allMccs := repeat_from 0 MAX_MCCS (λ i, u16 (indexed "mccs" i)) in
  read! expiresAt := i64 "expiresAt" in
  read! recurringAllowed := BorshReader.bool "recurringAllowed" in
  read! feeBps := u16 "feeBps" in
  read! frozen := BorshReader.bool "frozen" in
  read! freezeReason := rbind (u8 "freezeReason") (λ raw, enumValue FREEZE_REASONS raw "freeze reason") in
  read! recoveryState := rbind (u8 "recoveryState") (λ raw, enumValue RECOVERY_STATES raw "recovery state") in
  read! statementOutstandingCents := u64 "statementOutstandingCents" in
  read! exceptionsOpen := u16 "exceptionsOpen" in
  read! memberCount := u8 "memberCount" in
  throw_when (num_gtb memberCount (Z.of_nat MAX_MEMBERS)) "CardPolicy member_count exceeds capacity" (
  read! allMembers := repeat_from 0 MAX_MEMBERS (λ i, pubkey (indexed "members" i)) in
  read! allFlags := repeat_from 0 MAX_MEMBERS (λ i, u8 (indexed "memberFlags" i)) in
  read! ledgerHead := fixed 32 "ledgerHead" in
  read! ledgerSeq := u64 "ledgerSeq" in
  read! commitSeq := u64 "commitSeq" in
  read! bump := u8 "bump" in
  read! tail := policyTail in
  ret (CardPolicy.mk binding owner authorizer policyVersion budgetCents maxPurchaseCents
    maxPurchasesPerPeriod periodSeconds currency (take (count_of merchantCount) allMerchants)
    (take (count_of mccCount) allMccs) expiresAt recurringAllowed feeBps frozen freezeReason
    recoveryState statementOutstandingCents exceptionsOpen
    (zip_with CardPolicyMember.mk (take (count_of memberCount) allMembers) allFlags)
    ledgerHead ledgerSeq commitSeq bump tail)))).

Definition decodeCardPolicy (data : bytes) : result CardPolicy.t :=
  header data CARD_ACCOUNT_DISCRIMINATORS.cardPolicy "CardPolicy" CARD_POLICY_LENGTH read_card_policy.

Definition publicKeyBytes (value : Address) : result bytes :=
  BorshWriter.write [BorshWriter.pubkey value].

Definition encodeCardPolicy (value : CardPolicy.t) : result bytes :=
  let merchants := value.(CardPolicy.merchantIdHashes) in
  let mccs := value.(CardPolicy.mccs) in
  let members := value.(CardPolicy.members) in
  throw_if! Nat.ltb MAX_MERCHANTS (length merchants) with "At most 8 merchants";
  throw_if! Nat.ltb MAX_MCCS (length mccs) with "At most 16 MCCs";
  throw_if! Nat.ltb MAX_MEMBERS (length members) with "At most 6 members";
  BorshWriter.write (BorshWriter.bytes CARD_ACCOUNT_DISCRIMINATORS.cardPolicy :: [
    BorshWriter.pubkey value.(CardPolicy.binding);
    BorshWriter.pubkey value.(CardPolicy.owner);
    BorshWriter.pubkey value.(CardPolicy.authorizer);
    BorshWriter.u32 value.(CardPolicy.policyVersion) "policyVersion";
    BorshWriter.u64 value.(CardPolicy.budgetCents) "budgetCents";
    BorshWriter.u64 value.(CardPolicy.maxPurchaseCents) "maxPurchaseCents";
    BorshWriter.u16 value.(CardPolicy.maxPurchasesPerPeriod) "maxPurchasesPerPeriod";
    BorshWriter.u32 value.(CardPolicy.periodSeconds) "periodSeconds";
    BorshWriter.with_arg (currencyBytes value.(CardPolicy.currency))
      (λ b, BorshWriter.fixed b 3 "currency");
    BorshWriter.u8 (JInt (Z.of_nat (length merchants))) "u8"]
  ++ map (λ i, BorshWriter.fixed (default (zero_bytes 32) (merchants !! i)) 32
                 (indexed "merchantIdHashes" i)) (seq 0 MAX_MERCHANTS)
  ++ [BorshWriter.u8 (JInt (Z.of_nat (length mccs))) "u8"]
  ++ map (λ i, BorshWriter.u16 (default (JInt 0) (mccs !! i)) (indexed "mccs" i)) (seq 0 MAX_MCCS)
  ++ [BorshWriter.i64 value.(CardPolicy.expiresAt) "expiresAt";
    BorshWriter.bool value.(CardPolicy.recurringAllowed);
    BorshWriter.u16 value.(CardPolicy.feeBps) "feeBps";
    BorshWriter.bool value.(CardPolicy.frozen);
    BorshWriter.with_arg (enumIndex FREEZE_REASONS value.(CardPolicy.freezeReason) "freeze reason")
      (λ i, BorshWriter.u8 i "u8");
    BorshWriter.with_arg (enumIndex RECOVERY_STATES value.(CardPolicy.recoveryState) "recovery state")
      (λ i, BorshWriter.u8 i "u8");
    BorshWriter.u64 value.(CardPolicy.statementOutstandingCents) "statementOutstandingCents";
    BorshWriter.u16 value.(CardPolicy.exceptionsOpen) "exceptionsOpen";
    BorshWriter.u8 (JInt (Z.of_nat (length members))) "u8"]
  ++ map (λ i, BorshWriter.with_arg
                 match members !! i with
                 | Some m => publicKeyBytes m.(CardPolicyMember.pubkey)
                 | None => Ok (zero_bytes 32)
                 end (λ b, BorshWriter.fixed b 32 (indexed "members" i))) (seq 0 MAX_MEMBERS)
  ++ map (λ i, BorshWriter.u8 (default (JInt 0) (CardPolicyMember.flags <$> members !! i))
                 (indexed "memberFlags" i)) (seq 0 MAX_MEMBERS)
  ++ [BorshWriter.fixed value.(CardPolicy.ledgerHead) 32 "ledgerHead";
    BorshWriter.u64 value.(CardPolicy.ledgerSeq) "ledgerSeq";
    BorshWriter.u64 value.(CardPolicy.commitSeq) "commitSeq";
    BorshWriter.u8 value.(CardPolicy.bump) "bump"]).

(** ** CardPeriod *)

Definition read_card_period : reader CardPeriod.t :=
  read! policy := pubkey "policy" in
  read! periodIndex := u32 "periodIndex" in
  read! periodStart := i64 "periodStart" in
  read! periodEnd := i64 "periodEnd" in
  read! capturedCents := u64 "capturedCents" in
  read! reservedCents := u64 "reservedCents" in
  read! refundedCents := u64 "refundedCents" in
  read! purchasesCount := u16 "purchasesCount" in
  read! exceptionCents := u64 "exceptionCents" in
  read! bump := u8 "bump" in
  ret (CardPeriod.mk policy periodIndex periodStart periodEnd capturedCents reservedCents
    refundedCents purchasesCount exceptionCents bump).

Definition decodeCardPeriod (data : bytes) : result CardPeriod.t :=
  header data CARD_ACCOUNT_DISCRIMINATORS.cardPeriod "CardPeriod" CARD_PERIOD_LENGTH read_card_period.

Definition encodeCardPeriod (value : CardPeriod.t) : result bytes :=
  BorshWriter.write [
    BorshWriter.bytes CARD_ACCOUNT_DISCRIMINATORS.cardPeriod;
    BorshWriter.pubkey value.(CardPeriod.policy);
    BorshWriter.u32 value.(CardPeriod.periodIndex) "periodIndex";
    BorshWriter.i64 value.(CardPeriod.periodStart) "periodStart";
    BorshWriter.i64 value.(CardPeriod.periodEnd) "periodEnd";
    BorshWriter.u64 value.(CardPeriod.capturedCents) "capturedCents";
    BorshWriter.u64 value.(CardPeriod.reservedCents) "reservedCents";
    BorshWriter.u64 value.(CardPeriod.refundedCents) "refundedCents";
    BorshWriter.u16 value.(CardPeriod.purchasesCount) "purchasesCount";
    BorshWriter.u64 value.(CardPeriod.exceptionCents) "exceptionCents";
    BorshWriter.u8 value.(CardPeriod.bump) "bump"].

(** ** Reservation *)

Definition captureTail : reader (option (list bytes) * option Z) :=
  read! rest := remaining in
  if rest <? 1 + 32 * Z.of_nat CAPTURE_RING then ret (None, None)
  else
    read! captureCount := u8 "captureCount" in
    let count := Nat.min (count_of captureCount) CAPTURE_RING in
    read! ring := repeat_from 0 CAPTURE_RING (λ i, fixed 32 (indexed "captureIds" i)) in
    read! rest := remaining in
    if rest <? 8 then ret (Some (take count ring), None)
    else
      read! maxAmountCents := u64 "maxAmountCents" in
      ret (Some (take count ring), Some maxAmountCents).

Definition read_reservation : reader Reservation.t :=
  read! policy := pubkey "policy" in
  read! authIdHash := fixed 32 "authIdHash" in
  read! intent := pubkey "intent" in
  read! periodIndex := u32 "periodIndex" in
  read! amountReservedCents := u64 "amountReservedCents" in
  read! capturedCents := u64 "capturedCents" in
  read! reversedCents := u64 "reversedCents" in
  read! refundedCents := u64 "refundedCents" in
  read! state := u8 "state" in
  read! disputeState := rbind (u8 "disputeState") (λ raw, enumValue DISPUTE_STATES raw "dispute state") in
  read! flags := u8 "flags" in
  read! createdAt := i64 "createdAt" in
  read! holdExpiresAt := i64 "holdExpiresAt" in
  read! bump := u8 "bump" in
  read! tail := captureTail in
  ret (Reservation.mk policy authIdHash intent periodIndex amountReservedCents capturedCents
    reversedCents refundedCents state disputeState flags createdAt holdExpiresAt bump
    tail.1 tail.2).

Definition decodeReservation (data : bytes) : result Reservation.t :=
  header data CARD_ACCOUNT_DISCRIMINATORS.reservation "Reservation" RESERVATION_LENGTH read_reservation.

Definition encodeReservation (value : Reservation.t) : result bytes :=
  BorshWriter.write [
    BorshWriter.bytes CARD_ACCOUNT_DISCRIMINATORS.reservation;
    BorshWriter.pubkey value.(Reservation.policy);
    BorshWriter.fixed value.(Reservation.authIdHash) 32 "authIdHash";
    BorshWriter.pubkey value.(Reservation.intent);
    BorshWriter.u32 value.(Reservation.periodIndex) "periodIndex";
    BorshWriter.u64 value.(Reservation.amountReservedCents) "amountReservedCents";
    BorshWriter.u64 value.(Reservation.capturedCents) "capturedCents";
    BorshWriter.u64 value.(Reservation.reversedCents) "reversedCents";
    BorshWriter.u64 value.(Reservation.refundedCents) "refundedCents";
    BorshWriter.u8 value.(Reservation.state) "state";
    BorshWriter.with_arg (enumIndex DISPUTE_STATES value.(Reservation.disputeState) "dispute state")
      (λ i, BorshWriter.u8 i "u8");
    BorshWriter.u8 value.(Reservation.flags) "flags";
    BorshWriter.i64 value.(Reservation.createdAt) "createdAt";
    BorshWriter.i64 value.(Reservation.holdExpiresAt) "holdExpiresAt";
    BorshWriter.u8 value.(Reservation.bump) "bump"].

(** ** CheckoutIntent *)

Definition read_checkout_intent : reader CheckoutIntent.t :=
  read! policy := pubkey "policy" in
  read! intentId := fixed 16 "intentId" in
  read! agent := pubkey "agent" in
  read! merchantIdHash := fixed 32 "merchantIdHash" in
  read! mcc := u16 "mcc" in
  read! maxAmountCents := u64 "maxAmountCents" in
  read! currency := rbind (fixed 3 "currency") (λ b, ret (currencyFromBytes b)) in
  read! policyVersion := u32 "policyVersion" in
  read! expiresAt := i64 "expiresAt" in
  read! state := rbind (u8 "state") (λ raw, enumValue INTENT_STATES raw "intent state") in
  read! reservation := pubkey "reservation" in
  read! bump := u8 "bump" in
  ret (CheckoutIntent.mk policy intentId agent merchantIdHash mcc maxAmountCents currency
    policyVersion expiresAt state reservation bump).

Definition decodeCheckoutIntent (data : bytes) : result CheckoutIntent.t :=
  header data CARD_ACCOUNT_DISCRIMINATORS.checkoutIntent "CheckoutIntent" CHECKOUT_INTENT_LENGTH
    read_checkout_intent.

Definition encodeCheckoutIntent (value : CheckoutIntent.t) : result bytes :=
  BorshWriter.write [
    BorshWriter.bytes CARD_ACCOUNT_DISCRIMINATORS.checkoutIntent;
    BorshWriter.pubkey value.(CheckoutIntent.policy);
    BorshWriter.fixed value.(CheckoutIntent.intentId) 16 "intentId";
    BorshWriter.pubkey value.(CheckoutIntent.agent);
    BorshWriter.fixed value.(CheckoutIntent.merchantIdHash) 32 "merchantIdHash";
    BorshWriter.u16 value.(CheckoutIntent.mcc) "mcc";
    BorshWriter.u64 value.(CheckoutIntent.maxAmountCents) "maxAmountCents";
    BorshWriter.with_arg (currencyBytes value.(CheckoutIntent.currency))
      (λ b, BorshWriter.fixed b 3 "currency");
    BorshWriter.u32 value.(CheckoutIntent.policyVersion) "policyVersion";
    BorshWriter.i64 value.(CheckoutIntent.expiresAt) "expiresAt";
    BorshWriter.with_arg (enumIndex INTENT_STATES value.(CheckoutIntent.state) "intent state")
      (λ i, BorshWriter.u8 i "u8");
    BorshWriter.pubkey value.(CheckoutIntent.reservation);
    BorshWriter.u8 value.(CheckoutIntent.bump) "bump"].

(** ** CardCommitment *)

Definition read_card_commitment : reader CardCommitment.t :=
  read! binding := pubkey "binding" in
  read! seq := u64 "seq" in
  read! root := fixed 32 "root" in
  read! policyVersion := u32 "policyVersion" in
  read! periodIndex := u32 "periodIndex" in
  read! writtenSlot := u64 "writtenSlot" in
  read! bump := u8 "bump" in
  ret (CardCommitment.mk binding seq root policyVersion periodIndex writtenSlot bump).

Definition decodeCardCommitment (data : bytes) : result CardCommitment.t :=
  header data CARD_ACCOUNT_DISCRIMINATORS.cardCommitment "CardCommitment" CARD_COMMITMENT_LENGTH
    read_card_commitment.

Definition encodeCardCommitment (value : CardCommitment.t) : result bytes :=
  BorshWriter.write [
    BorshWriter.bytes CARD_ACCOUNT_DISCRIMINATORS.cardCommitment;
    BorshWriter.pubkey value.(CardCommitment.binding);
    BorshWriter.u64 value.(CardCommitment.seq) "seq";
    BorshWriter.fixed value.(CardCommitment.root) 32 "root";
    BorshWriter.u32 value.(CardCommitment.policyVersion) "policyVersion";
    BorshWriter.u32 value.(CardCommitment.periodIndex) "periodIndex";
    BorshWriter.u64 value.(CardCommitment.writtenSlot) "writtenSlot";
    BorshWriter.u8 value.(CardCommitment.bump) "bump"].
End Codecs.

(** ** Lemmas *)

Lemma index_in_lookup {T} `{EqDecision T} (values : list T) v i :
  index_in values v = Some i → values !! i = Some v.
Proof.
  revert i; induction values as [|a values IH]; intros i; simpl; [done|].
  case_decide; [intros [= <-]; by subst|].
  destruct (index_in values v); simpl; [|done]. intros [= <-]. by apply IH.
Qed.

Lemma encodes_enum {T} `{EqDecision T} (values : list T) v n1 n2 n3 n4 :
  encodes any [BorshWriter.with_arg (enumIndex values v n1) (λ i, BorshWriter.u8 i n2)]
    (rbind (u8 n3) (λ raw, enumValue values raw n4)) v.
Proof.
  apply encodes_with_arg. intros a Ha. eapply encodes_last; [apply encodes_u8|].
  apply encodes_none. intros pre post _. unfold enumIndex in Ha.
  destruct (index_in values v) as [i|] eqn:E; [|done]. injection Ha as <-.
  unfold enumValue. simpl. rewrite Nat2Z.id, (index_in_lookup _ _ _ E). do 2 f_equal. lia.
Qed.

Lemma ascii_byte_roundtrip c :
  ascii_of_N (Byte.to_N (byte_of (Z.of_N (N_of_ascii c)))) = c.
Proof.
  assert (Byte.to_N (byte_of (Z.of_N (N_of_ascii c))) = N_of_ascii c) as ->.
  { apply N2Z.inj. change (byte_val (byte_of (Z.of_N (N_of_ascii c))) = Z.of_N (N_of_ascii c)).
    pose proof (N_ascii_bounded c). apply byte_of_small. lia. }
  apply ascii_N_embedding.
Qed.

Lemma fromCharCode_char_bytes s : fromCharCode (char_bytes s) = s.
Proof.
  unfold fromCharCode, char_bytes. rewrite map_map.
  rewrite (map_ext _ (λ c, c)) by apply ascii_byte_roundtrip.
  by rewrite map_id, String.string_of_list_ascii_of_string.
Qed.

Lemma upper_nonzero c : is_upper c = true → byte_val (byte_of (Z.of_N (N_of_ascii c))) ≠ 0.
Proof.
  intros H. unfold is_upper in H. bool_reflect. apply N.leb_le in H.
  pose proof (N_ascii_bounded c). rewrite byte_of_small; lia.
Qed.

Lemma currencyBytes_ok c b :
  currencyBytes c = Ok b → currencyFromBytes b = c ∧ (c ≠ "" → fromCharCode b = c).
Proof.
  unfold currencyBytes. destruct (bool_decide (c = "")) eqn:Ec; bool_reflect.
  { intros [= <-]. subst. done. }
  intros H. inv_ok H. subst b. bool_reflect. split; [|intros; apply fromCharCode_char_bytes].
  unfold currencyFromBytes. rewrite fromCharCode_char_bytes.
  assert (some_nonzero (char_bytes c) = true) as ->; [|done].
  unfold char_bytes. unfold currency_pattern in G. apply andb_true_iff in G as [_ Hup].
  destruct (String.list_ascii_of_string c) as [|a l] eqn:El.
  - destruct c; [done | discriminate El].
  - simpl in Hup. apply andb_true_iff in Hup as [Ha _]. unfold some_nonzero. simpl.
    apply orb_true_iff. left. apply negb_true_iff, Z.eqb_neq. by apply upper_nonzero.
Qed.

Lemma encodes_currency c n n' :
  encodes any [BorshWriter.with_arg (currencyBytes c) (λ b, BorshWriter.fixed b 3 n)]
    (rbind (fixed 3 n') (λ b, ret (currencyFromBytes b))) c.
Proof.
  apply encodes_with_arg. intros b Hb. apply currencyBytes_ok in Hb as [Hc _].
  eapply encodes_last; [apply encodes_fixed|]. rewrite Hc. apply encodes_ret.
Qed.

#[export] Hint Resolve encodes_enum encodes_currency : borsh.

Lemma header_encodes {A} P ops (r : reader A) a disc bs extra name n :
  BorshWriter.write (BorshWriter.bytes disc :: ops) = Ok bs →
  sized (BorshWriter.bytes disc :: ops) n → length disc = 8%nat → P extra → encodes P ops r a →
  length bs = n ∧ header (bs ++ extra) disc name n r = Ok a.
Proof.
  intros E Hs L HP H. pose proof (sized_write _ _ _ Hs E) as Hn. split; [done|].
  destruct (encodes_write _ _ _ _ _ _ _ H HP E) as (body & -> & Hr).
  unfold header. rewrite <- app_assoc, assertDiscriminator_app. cbn [bind].
  rewrite app_assoc, (proj2 (Nat.ltb_ge _ _)) by (rewrite length_app; lia).
  rewrite <- L, Hr. done.
Qed.

(** ** Fixed-capacity arrays *)

Lemma take_padded {A} (f : nat → A) l n :
  (length l <= n)%nat → (∀ i a, l !! i = Some a → f i = a) →
  take (length l) (map f (seq 0 n)) = l.
Proof.
  intros Hn Hf. apply list_eq. intros i. rewrite lookup_take.
  destruct (decide (i < length l)%nat) as [Hi|Hi].
  - destruct (lookup_lt_is_Some_2 _ _ Hi) as (a & Ha). rewrite Ha.
    rewrite list_lookup_fmap, lookup_seq_lt by lia. simpl. f_equal. by apply Hf.
  - symmetry. apply lookup_ge_None. lia.
Qed.

Lemma zip_padded {A B C} (c : A → B → C) (l : list C) (f : nat → A) (g : nat → B) n :
  (length l <= n)%nat → (∀ i x, l !! i = Some x → c (f i) (g i) = x) →
  zip_with c (take (length l) (map f (seq 0 n))) (map g (seq 0 n)) = l.
Proof.
  intros Hn H. rewrite <- (take_padded (λ i, c (f i) (g i)) l n Hn H) at 2.
  generalize (length l). generalize 0%nat. clear. induction n as [|n IH]; intros i k; simpl.
  { by destruct k. }
  destruct k; simpl; [done | by f_equal].
Qed.

Lemma count_of_length {A} (l : list A) : count_of (JInt (Z.of_nat (length l))) = length l.
Proof. apply Nat2Z.id. Qed.

Section Arrays.
Context `{K : PublicKeys, KS : !PublicKeysSpec K}.

Lemma publicKeyBytes_ok a b : publicKeyBytes a = Ok b → publicKey a = Ok b.
Proof.
  unfold publicKeyBytes, BorshWriter.write, BorshWriter.pubkey, BorshWriter.push. simpl.
  destruct (publicKey a); simpl; [|done]. intros [= <-]. unfold BorshWriter.toBytes. simpl.
  by rewrite app_nil_r.
Qed.

(** The address read from slot [i]. *)
Definition member_address (members : list CardPolicyMember.t) (i : nat) : Address :=
  match members !! i with
  | Some m => m.(CardPolicyMember.pubkey)
  | None => ZERO_ADDRESS
  end.

Lemma encodes_member members i n n' :
  encodes any [BorshWriter.with_arg
      match members !! i with
      | Some m => publicKeyBytes m.(CardPolicyMember.pubkey)
      | None => Ok (zero_bytes 32)
      end (λ b, BorshWriter.fixed b 32 n)] (pubkey n') (member_address members i).
Proof.
  apply encodes_with_arg. intros b Hb. unfold pubkey, member_address.
  eapply encodes_last; [apply encodes_fixed|]. destruct (members !! i).
  - apply publicKeyBytes_ok, publicKey_ok in Hb as [_ <-]. apply encodes_ret.
  - injection Hb as <-. apply encodes_ret.
Qed.
End Arrays.

Lemma policyTail_absent P :
  (∀ post, P post → (length post < 289)%nat) → encodes P [] policyTail None.
Proof.
  intros HP. apply encodes_none. intros pre post H%HP. unfold policyTail, rbind, remaining.
  rewrite !length_app. cbn [bind length].
  rewrite (proj2 (Z.ltb_lt _ _)) by (unfold REPAYMENT_RING; lia). unfold ret. do 2 f_equal. lia.
Qed.

Lemma captureTail_absent P :
  (∀ post, P post → (length post < 257)%nat) → encodes P [] captureTail (None, None).
Proof.
  intros HP. apply encodes_none. intros pre post H%HP. unfold captureTail, rbind, remaining.
  rewrite !length_app. cbn [bind length].
  rewrite (proj2 (Z.ltb_lt _ _)) by (unfold CAPTURE_RING; lia). unfold ret. do 2 f_equal. lia.
Qed.

(** ** Properties *)
Section CardAccountProperties.
Context `{K : PublicKeys, KS : !PublicKeysSpec K}.

(** A card binding decodes to what was encoded, whatever bytes a later
    program version appends, and its encoding has the declared length. *)
Theorem cardBinding_roundtrip (v : CardBinding.t) (bs extra : bytes) :
  encodeCardBinding v = Ok bs →
  length bs = CARD_BINDING_LENGTH ∧ decodeCardBinding (bs ++ extra) = Ok v.
Proof.
  intros H. eapply (header_encodes any); [exact H|layout_size|done|done|].
  unfold read_card_binding. destruct v. encode_fields.
Qed.

(** A card period, a checkout intent and a card commitment decode to what
    was encoded, at their declared lengths, whatever bytes follow. *)
Theorem card_records_roundtrip (p : CardPeriod.t) (i : CheckoutIntent.t) (c : CardCommitment.t)
    (bs extra : bytes) :
  (encodeCardPeriod p = Ok bs →
    length bs = CARD_PERIOD_LENGTH ∧ decodeCardPeriod (bs ++ extra) = Ok p) ∧
  (encodeCheckoutIntent i = Ok bs →
    length bs = CHECKOUT_INTENT_LENGTH ∧ decodeCheckoutIntent (bs ++ extra) = Ok i) ∧
  (encodeCardCommitment c = Ok bs →
    length bs = CARD_COMMITMENT_LENGTH ∧ decodeCardCommitment (bs ++ extra) = Ok c).
Proof.
  split_and!; intros H; eapply (header_encodes any);
    (exact H || layout_size || done || idtac).
  - unfold read_card_period. destruct p. encode_fields.
  - unfold read_checkout_intent. destruct i. encode_fields.
  - unfold read_card_commitment. destruct c. encode_fields.
Qed.

(** A reservation decodes to what was encoded, without capture ids, and
    so does one followed by fewer bytes than the appended capture ring. *)
Theorem reservation_roundtrip (v : Reservation.t) (bs extra : bytes) :
  encodeReservation v = Ok bs → (length extra < 257)%nat →
  v.(Reservation.captureIdHashes) = None → v.(Reservation.maxAmountCents) = None →
  length bs = RESERVATION_LENGTH ∧ decodeReservation (bs ++ extra) = Ok v.
Proof.
  intros H Hx Hc Hm.
  eapply (header_encodes (λ post, length post < 257)%nat); [exact H|layout_size|done|done|].
  unfold read_reservation. destruct v. simpl in *. subst. encode_fields.
  by eapply (encodes_final _ _ captureTail); [apply captureTail_absent|].
Qed.

(** A card policy decodes to what was encoded: the merchant, category
    and member lists come back at their own lengths from the fixed-capacity
    arrays, in order, and the appended tail is absent unless all its 289
    bytes are there. *)
Theorem cardPolicy_roundtrip (v : CardPolicy.t) (bs extra : bytes) :
  encodeCardPolicy v = Ok bs → (length extra < 289)%nat → v.(CardPolicy.tail) = None →
  length bs = CARD_POLICY_LENGTH ∧ decodeCardPolicy (bs ++ extra) = Ok v.
Proof.
  unfold encodeCardPolicy. intros H Hx Ht. inv_ok H.
  rewrite Nat.ltb_ge in *. unfold MAX_MERCHANTS, MAX_MCCS, MAX_MEMBERS in *.
  eapply (header_encodes (λ post, length post < 289)%nat);
    [exact H|layout_size|done|done|].
  unfold read_card_policy. destruct v.
  cbn [app CardPolicy.binding CardPolicy.owner CardPolicy.authorizer CardPolicy.policyVersion
    CardPolicy.budgetCents CardPolicy.maxPurchaseCents CardPolicy.maxPurchasesPerPeriod CardPolicy.periodSeconds
    CardPolicy.currency CardPolicy.merchantIdHashes CardPolicy.mccs CardPolicy.expiresAt
    CardPolicy.recurringAllowed CardPolicy.feeBps CardPolicy.frozen CardPolicy.freezeReason
    CardPolicy.recoveryState CardPolicy.statementOutstandingCents CardPolicy.exceptionsOpen CardPolicy.members
    CardPolicy.ledgerHead CardPolicy.ledgerSeq CardPolicy.commitSeq CardPolicy.bump
    CardPolicy.tail] in *.
  subst. encode_fields.
  eapply encodes_app; [apply encodes_repeat; intros; apply encodes_fixed|]. encode_fields.
  eapply encodes_app; [apply encodes_repeat; intros; apply encodes_u16|]. encode_fields.
  eapply encodes_app; [apply encodes_repeat; intros; apply encodes_member|].
  eapply encodes_app; [apply encodes_repeat; intros; apply encodes_u8|]. encode_fields.
  eapply (encodes_final _ _ policyTail); [by apply policyTail_absent|].
  rewrite !count_of_length. f_equal.
  - apply take_padded; [done|]. by intros i a ->.
  - apply take_padded; [done|]. by intros i a ->.
  - apply zip_padded; [done|]. unfold member_address. intros i [] ->. done.
Qed.

(** Whatever the account data says, a decoded card policy lists at most
    8 merchants, 16 categories and 6 members, and data shorter than the
    declared length or with another discriminator never decodes. *)
Theorem decodeCardPolicy_bounds (data : bytes) (v : CardPolicy.t) :
  decodeCardPolicy data = Ok v →
  CARD_ACCOUNT_DISCRIMINATORS.cardPolicy `prefix_of` data ∧
  (CARD_POLICY_LENGTH <= length data)%nat ∧
  (length v.(CardPolicy.merchantIdHashes) <= MAX_MERCHANTS)%nat ∧
  (length v.(CardPolicy.mccs) <= MAX_MCCS)%nat ∧
  (length v.(CardPolicy.members) <= MAX_MEMBERS)%nat.
Proof.
  unfold decodeCardPolicy, header. intros H. inv_ok H.
  apply assertDiscriminator_ok in E. apply Nat.ltb_ge in G.
  destruct a0 as [v' o']. injection H as <-. rename E0 into H.
  unfold read_card_policy in H. inv_read H. subst v'.
  repeat match goal with E : repeat_from _ _ _ _ _ = Ok _ |- _ => apply repeat_from_length in E end.
  cbn [CardPolicy.merchantIdHashes CardPolicy.mccs CardPolicy.members].
  rewrite length_zip_with, !length_take. split_and!; [done | done | lia..].
Qed.
End CardAccountProperties.

(** ** Witnesses *)

Definition sample_card_binding : CardBinding.t :=
  CardBinding.mk (JInt 1) (base58_encode (sample_key 31)) (sample_key 41) (JInt 2) (sample_key 42)
    (base58_encode (sample_key 32)) (base58_encode (sample_key 33)) (base58_encode (sample_key 34))
    CardBindingStatus.closing 1700000000 (JInt 254).

Definition sample_card_policy : CardPolicy.t :=
  CardPolicy.mk (base58_encode (sample_key 30)) (base58_encode (sample_key 31))
    (base58_encode (sample_key 35)) (JInt 3) 50000 20000 (JInt 5) (JInt 2592000) "USD"
    [sample_key 51; sample_key 52] [JInt 5411; JInt 5812; JInt 7995] (-1) true (JInt 50) false
    CardFreezeReason.none CardRecoveryState.normal 1200 (JInt 0)
    [CardPolicyMember.mk (base58_encode (sample_key 31)) (JInt 15);
     CardPolicyMember.mk (base58_encode (sample_key 35)) (JInt 15)]
    (sample_key 53) 17 4 (JInt 253) None.

Definition sample_card_period : CardPeriod.t :=
  CardPeriod.mk (base58_encode (sample_key 32)) (JInt 1) 1700000000 1702592000 900 100 50 (JInt 2) 0
    (JInt 252).

Definition sample_reservation : Reservation.t :=
  Reservation.mk (base58_encode (sample_key 32)) (sample_key 54) (base58_encode (sample_key 55))
    (JInt 1) 100 0 0 0 (JInt 1) DisputeState.none (JInt 4) 1700000100 1700086500 (JInt 251) None None.

Definition sample_intent : CheckoutIntent.t :=
  CheckoutIntent.mk (base58_encode (sample_key 32)) (le_bytes 16 7) (base58_encode (sample_key 36))
    (sample_key 51) (JInt 0) 2000 "USD" (JInt 3) 1700000500 IntentState.open
    (base58_encode (sample_key 56)) (JInt 250).

Definition sample_commitment : CardCommitment.t :=
  CardCommitment.mk (base58_encode (sample_key 30)) 4 (sample_key 57) (JInt 3) (JInt 1) 250000000
    (JInt 249).

Lemma sample_binding_encodes : ∃ bs, @encodeCardBinding Base58.keys sample_card_binding = Ok bs.
Proof. apply is_ok_true. vm_compute. reflexivity. Qed.
Lemma sample_policy_encodes : ∃ bs, @encodeCardPolicy Base58.keys sample_card_policy = Ok bs.
Proof. apply is_ok_true. vm_compute. reflexivity. Qed.
Lemma sample_period_encodes : ∃ bs, @encodeCardPeriod Base58.keys sample_card_period = Ok bs.
Proof. apply is_ok_true. vm_compute. reflexivity. Qed.
Lemma sample_reservation_encodes : ∃ bs, @encodeReservation Base58.keys sample_reservation = Ok bs.
Proof. apply is_ok_true. vm_compute. reflexivity. Qed.
Lemma sample_policy_decodes :
  ∃ data v, @decodeCardPolicy Base58.keys data = Ok v.
Proof.
  exists (default [] (match @encodeCardPolicy Base58.keys sample_card_policy with
    | Ok b => Some b | Throw _ => None end)).
  apply is_ok_true. vm_compute. reflexivity.
Qed.

Lemma cardBinding_roundtrip_witness :
  ∃ bs, @encodeCardBinding Base58.keys sample_card_binding = Ok bs ∧
    @decodeCardBinding Base58.keys (bs ++ [x00]) = Ok sample_card_binding.
Proof.
  destruct sample_binding_encodes as (bs & E).
  exact (ex_intro _ bs (conj E (proj2 (@cardBinding_roundtrip Base58.keys Base58.keys_spec
    sample_card_binding bs [x00] E)))).
Defined.

Lemma card_records_roundtrip_witness :
  ∃ bs, @encodeCardPeriod Base58.keys sample_card_period = Ok bs ∧
    @decodeCardPeriod Base58.keys (bs ++ []) = Ok sample_card_period.
Proof.
  destruct sample_period_encodes as (bs & E).
  exact (ex_intro _ bs (conj E (proj2 (proj1 (@card_records_roundtrip Base58.keys Base58.keys_spec
    sample_card_period sample_intent sample_commitment bs []) E)))).
Defined.

Lemma reservation_roundtrip_witness :
  ∃ bs, @encodeReservation Base58.keys sample_reservation = Ok bs ∧
    @decodeReservation Base58.keys (bs ++ [x00]) = Ok sample_reservation.
Proof.
  destruct sample_reservation_encodes as (bs & E).
  exact (ex_intro _ bs (conj E (proj2 (@reservation_roundtrip Base58.keys Base58.keys_spec
    sample_reservation bs [x00] E ltac:(simpl; lia) eq_refl eq_refl)))).
Defined.

Lemma cardPolicy_roundtrip_witness :
  ∃ bs, @encodeCardPolicy Base58.keys sample_card_policy = Ok bs ∧
    @decodeCardPolicy Base58.keys (bs ++ [x01]) = Ok sample_card_policy.
Proof.
  destruct sample_policy_encodes as (bs & E).
  exact (ex_intro _ bs (conj E (proj2 (@cardPolicy_roundtrip Base58.keys Base58.keys_spec
    sample_card_policy bs [x01] E ltac:(simpl; lia) eq_refl)))).
Defined.

Lemma decodeCardPolicy_bounds_witness :
  ∃ data v, @decodeCardPolicy Base58.keys data = Ok v ∧
    (length v.(CardPolicy.merchantIdHashes) <= MAX_MERCHANTS)%nat.
Proof.
  destruct sample_policy_decodes as (data & v & E).
  destruct (@decodeCardPolicy_bounds Base58.keys data v E) as (_ & _ & H & _).
  exact (ex_intro _ data (ex_intro _ v (conj E H))).
Defined.
