(* ===== verification/Decimal.v ===== *)
(** * Decimal text

    [BigInt.prototype.toString] and [BigInt(text)] on decimal digits, and the
    pattern [/^(0|[1-9][0-9]{0,k})$/] the wire formats use: it accepts exactly
    the texts [toString] produces for numbers of at most k + 1 digits. *)
From Stdlib Require Import ZArith Lia Strings.Byte Strings.Ascii Strings.String.
From stdpp Require Import base numbers strings list.
From S2P Require Import Prelude Bytes PublicKey.

Definition chars (s : string) : list ascii := String.list_ascii_of_string s.
Definition text (cs : list ascii) : string := String.string_of_list_ascii cs.

Definition digit_char (d : Z) : ascii := ascii_of_N (Z.to_N (48 + d)).
Definition char_digit (c : ascii) : Z := Z.of_N (N_of_ascii c) - 48.

(** [[0-9]] *)
Definition is_digit (c : ascii) : bool := (0 <=? char_digit c) && (char_digit c <=? 9).

(** Enough digits for [n]: it is below 2 ^ (log2 n + 1). *)
Definition dec_fuel (n : Z) : nat := S (Z.to_nat (Z.log2 n)).

Definition nat_chars (n : Z) : list ascii :=
  if n =? 0 then ["0"%char] else map digit_char (reverse (digits 10 (dec_fuel n) n)).

(** [value.toString()] of a bigint *)
Definition toString (n : Z) : string :=
  if n <? 0 then String.String "-" (text (nat_chars (- n))) else text (nat_chars n).

(** [BigInt(s)] of a string of digits *)
Definition chars_value (cs : list ascii) : Z := value 10 (reverse (map char_digit cs)).
Definition BigInt (s : string) : Z := chars_value (chars s).

(** [/^(0|[1-9][0-9]{0,k})$/] *)
Definition decimal_chars (k : nat) (cs : list ascii) : bool :=
  match cs with
  | [] => false
  | c :: rest =>
      if bool_decide (c = "0"%char) then Nat.eqb (length rest) 0
      else is_digit c && forallb is_digit rest && Nat.leb (length rest) k
  end.

Definition decimal_pattern (k : nat) (s : string) : bool := decimal_chars k (chars s).

(** ** Digits and characters *)

Lemma char_digit_char d : 0 <= d < 10 → char_digit (digit_char d) = d.
Proof.
  intros H. unfold char_digit, digit_char. rewrite N_ascii_embedding by lia. lia.
Qed.

Lemma digit_char_digit c : is_digit c = true → digit_char (char_digit c) = c.
Proof.
  unfold is_digit, char_digit, digit_char. intros H. bool_reflect.
  replace (Z.to_N (48 + (Z.of_N (N_of_ascii c) - 48))) with (N_of_ascii c) by lia.
  apply ascii_N_embedding.
Qed.

Lemma is_digit_char d : 0 <= d < 10 → is_digit (digit_char d) = true.
Proof.
  intros H. unfold is_digit. rewrite char_digit_char by done.
  apply andb_true_iff. rewrite !Z.leb_le. lia.
Qed.

Lemma map_digit_char ds : digit_range 10 ds → map char_digit (map digit_char ds) = ds.
Proof. induction 1 as [|d ds Hd _ IH]; simpl; [done|]. by rewrite char_digit_char, IH. Qed.

Lemma dec_fuel_enough n : 0 < n → 0 <= n < 10 ^ Z.of_nat (dec_fuel n).
Proof.
  intros H. split; [lia|]. pose proof (Z.log2_spec n H) as [_ Hup].
  pose proof (Z.log2_nonneg n). unfold dec_fuel.
  rewrite Nat2Z.inj_succ, Z2Nat.id by done.
  eapply Z.lt_le_trans; [exact Hup|]. apply Z.pow_le_mono_l. lia.
Qed.

Lemma chars_text cs : chars (text cs) = cs.
Proof. apply String.list_ascii_of_string_of_list_ascii. Qed.

Lemma text_chars s : text (chars s) = s.
Proof. apply String.string_of_list_ascii_of_string. Qed.

Lemma chars_inj s t : chars s = chars t → s = t.
Proof. intros E. by rewrite <- (text_chars s), E, text_chars. Qed.

Lemma chars_app a b : chars (a +:+ b) = chars a ++ chars b.
Proof. induction a as [|c a IH]; simpl; [done|]. unfold chars in *. simpl. by rewrite IH. Qed.

(** ** Printing then parsing *)

Lemma chars_value_nat n : 0 <= n → chars_value (nat_chars n) = n.
Proof.
  intros H. unfold nat_chars, chars_value.
  destruct (n =? 0) eqn:E; bool_reflect; [by subst|].
  pose proof (dec_fuel_enough n ltac:(lia)).
  rewrite map_digit_char by (by apply digit_range_rev, digits_range; lia).
  rewrite reverse_involutive. apply value_digits; lia.
Qed.

Lemma nat_chars_digits n : 0 <= n → forallb is_digit (nat_chars n) = true.
Proof.
  intros H. unfold nat_chars. destruct (n =? 0); [done|].
  apply forallb_forall. intros c Hc. apply in_map_iff in Hc as (d & <- & Hd).
  apply is_digit_char.
  assert (digit_range 10 (reverse (digits 10 (dec_fuel n) n))) as HF
    by (by apply digit_range_rev, digits_range; lia).
  unfold digit_range in HF. rewrite Forall_forall in HF. apply HF. by apply list_elem_of_In.
Qed.

Lemma BigInt_text n : 0 <= n → BigInt (text (nat_chars n)) = n.
Proof. intros H. unfold BigInt. rewrite chars_text. by apply chars_value_nat. Qed.

Lemma nat_chars_inj a b : 0 <= a → 0 <= b → nat_chars a = nat_chars b → a = b.
Proof. intros Ha Hb E. by rewrite <- (chars_value_nat a Ha), <- (chars_value_nat b Hb), E. Qed.

(** ** The pattern accepts exactly the printed numbers *)

Lemma digits_length_bound n k fuel :
  0 < n < 10 ^ Z.of_nat k → n < 10 ^ Z.of_nat fuel → (length (digits 10 fuel n) <= k)%nat.
Proof.
  intros Hn Hf. destruct (decide (length (digits 10 fuel n) <= k)%nat) as [|Hgt]; [done|].
  pose proof (value_lower 10 ltac:(lia) (digits 10 fuel n)) as H.
  rewrite value_digits in H by lia.
  specialize (H ltac:(apply digits_range; lia) ltac:(apply digits_trimmed; lia)
    ltac:(apply digits_nonempty; lia)).
  assert (10 ^ Z.of_nat k <= 10 ^ Z.of_nat (length (digits 10 fuel n) - 1)); [|lia].
  apply Z.pow_le_mono_r; lia.
Qed.

Lemma decimal_chars_nat k n : 0 <= n < 10 ^ Z.of_nat (S k) → decimal_chars k (nat_chars n) = true.
Proof.
  intros H. destruct (Z.eq_dec n 0) as [->|Hn]; [done|].
  pose proof (nat_chars_digits n ltac:(lia)) as Hd. unfold nat_chars in *.
  rewrite (proj2 (Z.eqb_neq n 0)) in * by done.
  set (ds := digits 10 (dec_fuel n) n) in *.
  pose proof (dec_fuel_enough n ltac:(lia)) as Hf.
  assert (length ds <= S k)%nat as Hlen by (apply digits_length_bound; lia).
  assert (trimmed ds) as Ht by (apply digits_trimmed; lia).
  assert (ds ≠ []) as Hne by (apply digits_nonempty; lia).
  assert (digit_range 10 ds) as Hr by (apply digits_range; lia).
  assert (reverse ds ≠ []) by (intros E; apply Hne, (inj reverse); by rewrite E).
  assert (head (reverse ds) ≠ Some 0) as Hhead by (rewrite <- trimmed_rev, reverse_involutive; done).
  assert (length (reverse ds) <= S k)%nat by (by rewrite length_reverse).
  assert (digit_range 10 (reverse ds)) as Hrr by by apply digit_range_rev.
  destruct (reverse ds) as [|d rest]; [done|]. simpl in *.
  apply Forall_cons in Hrr as [Hd0 _].
  assert (d ≠ 0) by congruence.
  rewrite bool_decide_false; [|intros E; apply (f_equal char_digit) in E;
    rewrite char_digit_char in E by done; done].
  apply andb_true_iff. split; [done|]. apply Nat.leb_le. rewrite length_map. lia.
Qed.

Lemma decimal_chars_value k cs :
  decimal_chars k cs = true →
  0 <= chars_value cs < 10 ^ Z.of_nat (S k) ∧ nat_chars (chars_value cs) = cs.
Proof.
  destruct cs as [|c rest]; simpl; [done|].
  destruct (bool_decide (c = "0"%char)) eqn:Ec; bool_reflect.
  { intros H%Nat.eqb_eq. apply nil_length_inv in H as ->. subst. split; [|done].
    split; [done|]. apply Z.pow_pos_nonneg; lia. }
  intros H. bool_reflect.
  assert (forallb is_digit (c :: rest) = true) as Hd by (simpl; by apply andb_true_iff).
  assert (length (c :: rest) <= S k)%nat as Hlen by (simpl; apply le_n_S; by apply Nat.leb_le).
  assert (char_digit c ≠ 0) as Hc.
  { intros E. apply Ec. rewrite <- (digit_char_digit c) by done. by rewrite E. }
  set (cs := c :: rest) in *. set (ds := reverse (map char_digit cs)).
  assert (digit_range 10 ds) as Hr.
  { unfold ds. apply digit_range_rev, Forall_map, Forall_forall. intros x Hx.
    rewrite forallb_forall in Hd. apply list_elem_of_In, Hd in Hx. unfold is_digit in Hx.
    bool_reflect. lia. }
  assert (trimmed ds) as Ht.
  { unfold ds. rewrite trimmed_rev. simpl. congruence. }
  assert (length ds = length cs) as Hl by (unfold ds; by rewrite length_reverse, length_map).
  change (chars_value cs) with (value 10 ds).
  pose proof (value_range 10 ltac:(lia) ds Hr) as Hv. rewrite Hl in Hv.
  assert (10 ^ Z.of_nat (length cs) <= 10 ^ Z.of_nat (S k)) by (apply Z.pow_le_mono_r; lia).
  assert (ds ≠ []) as Hne by (intros E; rewrite E in Hl; done).
  pose proof (value_lower 10 ltac:(lia) ds Hr Ht Hne) as Hlow.
  assert (0 < 10 ^ Z.of_nat (length ds - 1)) by (apply Z.pow_pos_nonneg; lia).
  split; [lia|]. unfold nat_chars. rewrite (proj2 (Z.eqb_neq _ _)) by lia.
  rewrite digits_value; [| |done..|].
  - unfold ds. rewrite reverse_involutive, map_map, (map_ext_in _ (λ c, c)), map_id; [done|].
    intros a Ha. apply digit_char_digit. rewrite forallb_forall in Hd. auto.
  - lia.
  - unfold dec_fuel. assert (length ds - 1 <= Z.to_nat (Z.log2 (value 10 ds)))%nat; [|lia].
    assert (Z.of_nat (length ds - 1) <= Z.log2 (value 10 ds)); [|lia].
    apply Z.log2_le_pow2; [lia|]. eapply Z.le_trans; [|exact Hlow].
    apply Z.pow_le_mono_l. lia.
Qed.

Lemma decimal_pattern_iff k s :
  decimal_pattern k s = true ↔ ∃ n, 0 <= n < 10 ^ Z.of_nat (S k) ∧ s = text (nat_chars n).
Proof.
  unfold decimal_pattern. split.
  - intros H. destruct (decimal_chars_value _ _ H) as [Hr Hn].
    exists (chars_value (chars s)). split; [done|]. by rewrite Hn, text_chars.
  - intros (n & Hn & ->). rewrite chars_text. by apply decimal_chars_nat.
Qed.

(** ** Padded numbers *)

(** [padStart(n, 0)] *)
Definition padStart (n : nat) (cs : list ascii) : list ascii :=
  replicate (n - length cs) "0"%char ++ cs.

Lemma value_app base ds es : value base (ds ++ es) = value base ds + base ^ Z.of_nat (length ds) * value base es.
Proof.
  induction ds as [|d ds IH]; cbn [app value length].
  - change (base ^ Z.of_nat 0) with 1. lia.
  - rewrite IH, Nat2Z.inj_succ, Z.pow_succ_r by lia. lia.
Qed.

Lemma chars_value_cons c cs :
  chars_value (c :: cs) = char_digit c * 10 ^ Z.of_nat (length cs) + chars_value cs.
Proof.
  unfold chars_value. cbn [map]. rewrite reverse_cons, value_app.
  rewrite length_reverse, length_map. cbn [value]. lia.
Qed.

Lemma chars_value_app a b : chars_value (a ++ b) = chars_value a * 10 ^ Z.of_nat (length b) + chars_value b.
Proof.
  unfold chars_value. rewrite map_app, reverse_app, value_app, length_reverse, length_map. lia.
Qed.

Lemma chars_value_bound cs :
  forallb is_digit cs = true → 0 <= chars_value cs < 10 ^ Z.of_nat (length cs).
Proof.
  intros H. unfold chars_value. rewrite <- (length_map char_digit cs), <- length_reverse.
  apply value_range; [lia|]. apply digit_range_rev. unfold digit_range. rewrite Forall_forall.
  intros z Hz. apply list_elem_of_In, in_map_iff in Hz as (c & <- & Hc).
  rewrite forallb_forall in H. specialize (H c Hc). unfold is_digit in H. bool_reflect. lia.
Qed.

Lemma padStart_value n cs : chars_value (padStart n cs) = chars_value cs.
Proof.
  unfold padStart. induction (n - length cs)%nat as [|k IH]; simpl; [done|].
  by rewrite chars_value_cons, IH.
Qed.

Lemma padStart_digits n cs : forallb is_digit cs = true → forallb is_digit (padStart n cs) = true.
Proof. intros H. unfold padStart. induction (n - length cs)%nat; simpl; done. Qed.

Lemma padStart_length n cs : (length cs <= n)%nat → length (padStart n cs) = n.
Proof. intros H. unfold padStart. rewrite length_app, length_replicate. lia. Qed.

(** Digit strings of one length compare as text the way they compare as numbers. *)
Lemma compare_digits a b :
  length a = length b → forallb is_digit a = true → forallb is_digit b = true →
  String.compare (text a) (text b) = (chars_value a ?= chars_value b).
Proof.
  revert b. induction a as [|x a IH]; intros [|y b] Hl Ha Hb; try done.
  cbn [forallb] in Ha, Hb. apply andb_true_iff in Ha as [Hx Ha], Hb as [Hy Hb].
  injection Hl as Hl. rewrite !chars_value_cons, Hl.
  pose proof (chars_value_bound _ Ha) as Ba. pose proof (chars_value_bound _ Hb) as Bb. rewrite Hl in Ba.
  cbn [text String.string_of_list_ascii String.compare]. unfold Ascii.compare.
  rewrite <- N2Z.inj_compare.
  assert (Z.of_N (N_of_ascii x) = char_digit x + 48) as -> by (unfold char_digit; lia).
  assert (Z.of_N (N_of_ascii y) = char_digit y + 48) as -> by (unfold char_digit; lia).
  destruct (Z.compare_spec (char_digit x + 48) (char_digit y + 48)) as [E|E|E].
  - change (String.string_of_list_ascii a) with (text a).
    change (String.string_of_list_ascii b) with (text b). rewrite (IH b Hl Ha Hb).
    assert (char_digit x = char_digit y) as -> by lia.
    symmetry. rewrite Z.compare_sub, (Z.compare_sub (chars_value a)). f_equal. lia.
  - symmetry. apply Z.compare_lt_iff. nia.
  - symmetry. apply Z.compare_gt_iff. nia.
Qed.

(** ** Calendar dates *)

(** [new Date(ms).toISOString().slice(0, 10)] for whole days since 1970: the
    proleptic Gregorian calendar, counted from 1 March of year 0. *)
Definition civil_from_days (days : Z) : Z * Z * Z :=
  let z := days + 719468 in
  let era := z / 146097 in
  let doe := z mod 146097 in
  let yoe := (doe - doe / 1460 + doe / 36524 - doe / 146096) / 365 in
  let doy := doe - (365 * yoe + yoe / 4 - yoe / 100) in
  let mp := (5 * doy + 2) / 153 in
  let d := doy - (153 * mp + 2) / 5 + 1 in
  let m := if mp <? 10 then mp + 3 else mp - 9 in
  (yoe + era * 400 + (if m <=? 2 then 1 else 0), m, d).

(** The day [days] after 1970-01-01, as the first ten characters of an ISO date. *)
Definition iso_day (days : Z) : string :=
  let '(y, m, d) := civil_from_days days in
  let year := if (0 <=? y) && (y <=? 9999) then padStart 4 (nat_chars y)
              else (if y <? 0 then "-"%char else "+"%char) :: padStart 6 (nat_chars (Z.abs y)) in
  text (take 10 (year ++ ["-"%char] ++ padStart 2 (nat_chars m) ++ ["-"%char]
    ++ padStart 2 (nat_chars d))).
