(* ===== verification/TokenCapabilities.v ===== *)
(** * Token capabilities (sdk/src/token-capabilities.ts)

    Whether a payment's mint and two token accounts can be paid as ChainPay pays:
    every reason it refuses is a blocker.  What the token library unpacks from an
    account is a parameter ([SplToken]); the theorem says exactly which accounts
    are compatible. *)
From Stdlib Require Import ZArith Lia Strings.Byte.
From stdpp Require Import base numbers sets strings list.
From S2P Require Import Prelude Bytes PublicKey Types Encoding Accounts CardConstants Decimal.

(** A mint and a token account as the library unpacks them; a part that is an extension is [None] without it. *)
Module TransferFee.
Record t : Type := mk { basisPoints : Z; maximumFee : Z }.
End TransferFee.

Module SplMint.
Record t : Type := mk {
  address : bytes;
  isInitialized : bool;
  extensions : list Z;
  epochFee : option (Z → TransferFee.t);
  hookProgram : option bytes;
  paused : option bool;
  defaultFrozen : option bool;
}.
End SplMint.

Module SplAccount.
Record t : Type := mk {
  mint : bytes;
  isInitialized : bool;
  isFrozen : bool;
  extensions : list Z;
  requireIncomingTransferMemos : option bool;
  lockCpi : option bool;
}.
End SplAccount.

(** [@solana/spl-token], over the connection *)
Class SplToken : Type := {
  ExtensionType : string → Z;
  ExtensionType_name : Z → option string;
  getMint : bytes → TokenProgram → result SplMint.t;
  getAccount : bytes → TokenProgram → result SplAccount.t;
  getEpoch : result Z;
}.

Module TokenCapabilityProfile.
Record t : Type := mk {
  mint : Address;
  tokenProgram : TokenProgram;
  compatible : bool;
  mintExtensions : list string;
  sourceAccountExtensions : list string;
  recipientAccountExtensions : list string;
  blockers : list string;
  warnings : list string;
  transferFee : option TransferFee.t;
  transferHookProgram : option Address;
}.
End TokenCapabilityProfile.

Definition CONFIDENTIAL_TRANSFER_FEE_CONFIG : Z := 16.
Definition CONFIDENTIAL_TRANSFER_FEE_AMOUNT : Z := 17.

Definition DEFAULT_KEY : bytes := zero_bytes 32.

Section Capabilities.
Context `{K : PublicKeys, T : SplToken}.

Definition KNOWN_MINT_EXTENSIONS : list Z :=
  map ExtensionType ["TransferFeeConfig"; "MintCloseAuthority"; "ConfidentialTransferMint"; "DefaultAccountState"; "NonTransferable";
    "InterestBearingConfig"; "PermanentDelegate"; "TransferHook"]
  ++ [CONFIDENTIAL_TRANSFER_FEE_CONFIG]
  ++ map ExtensionType ["MetadataPointer"; "TokenMetadata"; "GroupPointer"; "TokenGroup"; "GroupMemberPointer"; "TokenGroupMember";
    "ScaledUiAmountConfig"; "PausableConfig"; "PermissionedBurn"].

Definition KNOWN_ACCOUNT_EXTENSIONS : list Z :=
  map ExtensionType ["TransferFeeAmount"; "ConfidentialTransferAccount"; "ImmutableOwner"; "MemoTransfer"; "CpiGuard";
    "NonTransferableAccount"; "TransferHookAccount"]
  ++ [CONFIDENTIAL_TRANSFER_FEE_AMOUNT] ++ map ExtensionType ["PausableAccount"].

Definition extensionName (extension : Z) : string :=
  if extension =? CONFIDENTIAL_TRANSFER_FEE_CONFIG then "ConfidentialTransferFeeConfig"
  else if extension =? CONFIDENTIAL_TRANSFER_FEE_AMOUNT then "ConfidentialTransferFeeAmount"
  else default ("UnknownExtension(" +:+ toString extension +:+ ")") (ExtensionType_name extension).

Definition unexpectedExtensions (extensions known : list Z) (scope : string) : list string :=
  map (λ e, scope +:+ " has unsupported " +:+ extensionName e) (filter (λ e, e ∉ known) extensions).

(** [if (b) blockers.push(message)] *)
Definition block (b : bool) (message : string) : list string := if b then [message] else [].

Definition account_blockers (mintKey : bytes) (mint : SplMint.t) (source recipient : SplAccount.t) : list string :=
  block (negb mint.(SplMint.isInitialized)) "mint is not initialized"
  ++ block (negb source.(SplAccount.isInitialized)) "source token account is not initialized"
  ++ block (negb recipient.(SplAccount.isInitialized)) "recipient token account is not initialized"
  ++ block (negb (bool_decide (source.(SplAccount.mint) = mintKey))) "source token account mint does not match payment mint"
  ++ block (negb (bool_decide (recipient.(SplAccount.mint) = mintKey))) "recipient token account mint does not match payment mint"
  ++ block source.(SplAccount.isFrozen) "source token account is frozen"
  ++ block recipient.(SplAccount.isFrozen) "recipient token account is frozen".

(** A fee taken of the transfer *)
Definition takes_fee (fee : option TransferFee.t) : bool :=
  match fee with
  | Some f => negb (f.(TransferFee.basisPoints) =? 0) || negb (f.(TransferFee.maximumFee) =? 0)
  | None => false
  end.

(** The hook program, unless it is the default key *)
Definition active_hook (mint : SplMint.t) : option bytes :=
  match mint.(SplMint.hookProgram) with
  | Some program => if bool_decide (program = DEFAULT_KEY) then None else Some program
  | None => None
  end.

(** What Token-2022 adds, with the fee of the epoch *)
Definition extension_blockers (mint : SplMint.t) (source recipient : SplAccount.t) (fee : option TransferFee.t) : list string :=
  unexpectedExtensions mint.(SplMint.extensions) KNOWN_MINT_EXTENSIONS "mint"
  ++ unexpectedExtensions source.(SplAccount.extensions) KNOWN_ACCOUNT_EXTENSIONS "source account"
  ++ unexpectedExtensions recipient.(SplAccount.extensions) KNOWN_ACCOUNT_EXTENSIONS "recipient account"
  ++ block (bool_decide (ExtensionType "NonTransferable" ∈ mint.(SplMint.extensions))) "mint is non-transferable"
  ++ block (bool_decide (ExtensionType "NonTransferableAccount" ∈ source.(SplAccount.extensions))
            || bool_decide (ExtensionType "NonTransferableAccount" ∈ recipient.(SplAccount.extensions)))
       "payment uses a non-transferable token account"
  ++ block (takes_fee fee) "non-zero transfer fees require gross/net/withheld-fee receipt support"
  ++ block (bool_decide (is_Some (active_hook mint)))
       "active transfer hook requires verified on-chain extra-account resolution and a Devnet-tested adapter"
  ++ block (default false recipient.(SplAccount.requireIncomingTransferMemos))
       "recipient requires an incoming memo, but the memo-aware settlement adapter is not enabled"
  ++ block (default false source.(SplAccount.lockCpi)) "source account CPI guard blocks the current Anchor delegate transfer path"
  ++ block (default false mint.(SplMint.paused)) "mint transfers are paused".

Definition extension_warnings (mint : SplMint.t) : list string :=
  block (default false mint.(SplMint.defaultFrozen))
    "mint defaults new token accounts to frozen; current source and recipient were checked individually"
  ++ block (bool_decide (ExtensionType "ConfidentialTransferMint" ∈ mint.(SplMint.extensions)))
       "confidential extension is present; ChainPay uses only the transparent transfer_checked balance path".

Definition inspectTokenCapabilities (mint sourceTokenAccount recipientTokenAccount : Address) (tokenProgram : TokenProgram) :
    result TokenCapabilityProfile.t :=
  let! mintKey := publicKey mint in
  let! m := getMint mintKey tokenProgram in
  let! sourceKey := publicKey sourceTokenAccount in
  let! source := getAccount sourceKey tokenProgram in
  let! recipientKey := publicKey recipientTokenAccount in
  let! recipient := getAccount recipientKey tokenProgram in
  let base := account_blockers mintKey m source recipient in
  match tokenProgram with
  | spl_token =>
      Ok (TokenCapabilityProfile.mk (toBase58 m.(SplMint.address)) tokenProgram (bool_decide (base = [])) [] [] [] base [] None None)
  | token_2022 =>
      let! fee := match m.(SplMint.epochFee) with
                  | Some f => let! epoch := getEpoch in Ok (Some (f epoch))
                  | None => Ok None
                  end in
      let blockers := base ++ extension_blockers m source recipient fee in
      Ok (TokenCapabilityProfile.mk (toBase58 m.(SplMint.address)) tokenProgram (bool_decide (blockers = []))
            (map extensionName m.(SplMint.extensions)) (map extensionName source.(SplAccount.extensions))
            (map extensionName recipient.(SplAccount.extensions)) blockers (extension_warnings m) fee (toBase58 <$> active_hook m))
  end.

(** ** Which accounts are compatible *)

(** What both token programs need *)
Definition accounts_usable (mintKey : bytes) (m : SplMint.t) (source recipient : SplAccount.t) : Prop :=
  m.(SplMint.isInitialized) = true ∧
  (∀ a, a = source ∨ a = recipient →
     a.(SplAccount.isInitialized) = true ∧ a.(SplAccount.mint) = mintKey ∧ a.(SplAccount.isFrozen) = false).

(** What Token-2022 may not do to the transfer *)
Definition extensions_harmless (m : SplMint.t) (source recipient : SplAccount.t) : Prop :=
  (∀ e, e ∈ m.(SplMint.extensions) → e ∈ KNOWN_MINT_EXTENSIONS ∧ e ≠ ExtensionType "NonTransferable") ∧
  (∀ a e, a = source ∨ a = recipient → e ∈ a.(SplAccount.extensions) →
     e ∈ KNOWN_ACCOUNT_EXTENSIONS ∧ e ≠ ExtensionType "NonTransferableAccount") ∧
  (∀ f epoch, m.(SplMint.epochFee) = Some f → getEpoch = Ok epoch → f epoch = TransferFee.mk 0 0) ∧
  (∀ program, m.(SplMint.hookProgram) = Some program → program = DEFAULT_KEY) ∧
  recipient.(SplAccount.requireIncomingTransferMemos) ≠ Some true ∧
  source.(SplAccount.lockCpi) ≠ Some true ∧
  m.(SplMint.paused) ≠ Some true.

Lemma block_nil b s : block b s = [] ↔ b = false.
Proof. by destruct b. Qed.

Lemma default_false (o : option bool) : default false o = false ↔ o ≠ Some true.
Proof. destruct o as [[]|]; cbn; naive_solver. Qed.

Lemma account_blockers_nil mintKey m source recipient :
  account_blockers mintKey m source recipient = [] ↔ accounts_usable mintKey m source recipient.
Proof.
  unfold account_blockers, accounts_usable. rewrite !app_nil, !block_nil, !negb_false_iff, !bool_decide_eq_true. naive_solver.
Qed.

Lemma unexpected_nil extensions known scope : unexpectedExtensions extensions known scope = [] ↔ ∀ e, e ∈ extensions → e ∈ known.
Proof.
  unfold unexpectedExtensions. induction extensions as [|x l IH]; [set_solver|].
  rewrite filter_cons. destruct (decide (x ∉ known)) as [Hn|Hk]; cbn [map].
  - split; [done|]. intros H. exfalso. apply Hn, H. left.
  - rewrite IH. apply dec_stable in Hk. split; intros H e; [intros [-> | ?]%elem_of_cons; auto | intros He; apply H; by right].
Qed.

Lemma no_fee fee : takes_fee fee = false ↔ ∀ f, fee = Some f → f = TransferFee.mk 0 0.
Proof.
  destruct fee as [[b m]|]; cbn; [|naive_solver]. rewrite orb_false_iff, !negb_false_iff, !Z.eqb_eq. split; [|by intros H; specialize (H _ eq_refl) as [= -> ->]].
  intros [-> ->] f [= <-]. done.
Qed.

Lemma no_hook m : is_Some (active_hook m) ↔ ¬ ∀ program, m.(SplMint.hookProgram) = Some program → program = DEFAULT_KEY.
Proof.
  unfold active_hook. destruct (SplMint.hookProgram m) as [program|]; [|split; [by intros [] | intros []; done]].
  case_bool_decide as E; split.
  - by intros [].
  - intros []. by intros ? [= <-].
  - intros _ H. by apply E, H.
  - by eexists.
Qed.

Lemma extension_blockers_nil m source recipient fee :
  extension_blockers m source recipient fee = [] ↔
  (∀ e, e ∈ m.(SplMint.extensions) → e ∈ KNOWN_MINT_EXTENSIONS ∧ e ≠ ExtensionType "NonTransferable") ∧
  (∀ a e, a = source ∨ a = recipient → e ∈ a.(SplAccount.extensions) →
     e ∈ KNOWN_ACCOUNT_EXTENSIONS ∧ e ≠ ExtensionType "NonTransferableAccount") ∧
  (∀ f, fee = Some f → f = TransferFee.mk 0 0) ∧
  (∀ program, m.(SplMint.hookProgram) = Some program → program = DEFAULT_KEY) ∧
  recipient.(SplAccount.requireIncomingTransferMemos) ≠ Some true ∧ source.(SplAccount.lockCpi) ≠ Some true ∧ m.(SplMint.paused) ≠ Some true.
Proof.
  unfold extension_blockers. rewrite !app_nil, !block_nil, !unexpected_nil, orb_false_iff, !bool_decide_eq_false, no_fee, !default_false, no_hook.
  assert ((¬ ¬ ∀ program, m.(SplMint.hookProgram) = Some program → program = DEFAULT_KEY) ↔
          ∀ program, m.(SplMint.hookProgram) = Some program → program = DEFAULT_KEY) as ->.
  { destruct (SplMint.hookProgram m) as [program|]; [|naive_solver]. destruct (decide (program = DEFAULT_KEY)); naive_solver. }
  split.
  - intros (H1 & H2 & H3 & H4 & [H5 H6] & H7 & H8 & H9 & H10 & H11). split_and!; try done.
    + intros e He. split; [by apply H1|]. by intros ->.
    + intros a e [-> | ->] He; (split; [auto|]); by intros ->.
  - intros (H1 & H2 & H3 & H4 & H5 & H6 & H7). split_and!; try done.
    + intros e He. by apply H1.
    + intros e He. apply (H2 source); auto.
    + intros e He. apply (H2 recipient); auto.
    + intros He. by apply H1 in He as [_ []].
    + intros He. by apply (H2 source) in He as [_ []]; [|left].
    + intros He. by apply (H2 recipient) in He as [_ []]; [|right].
Qed.

(** What [inspectTokenCapabilities] read to return its profile *)
Lemma inspected mint source recipient tp p :
  inspectTokenCapabilities mint source recipient tp = Ok p →
  ∃ mintKey sourceKey recipientKey m s r,
    publicKey mint = Ok mintKey ∧ publicKey source = Ok sourceKey ∧ publicKey recipient = Ok recipientKey ∧
    getMint mintKey tp = Ok m ∧ getAccount sourceKey tp = Ok s ∧ getAccount recipientKey tp = Ok r ∧
    p.(TokenCapabilityProfile.tokenProgram) = tp ∧
    p.(TokenCapabilityProfile.compatible) = bool_decide (p.(TokenCapabilityProfile.blockers) = []) ∧
    match tp with
    | spl_token => p.(TokenCapabilityProfile.blockers) = account_blockers mintKey m s r
    | token_2022 => ∃ fee, (match m.(SplMint.epochFee) with
                            | Some f => let! epoch := getEpoch in Ok (Some (f epoch)) | None => Ok None end) = Ok fee ∧
                      p.(TokenCapabilityProfile.blockers) = account_blockers mintKey m s r ++ extension_blockers m s r fee
    end.
Proof.
  unfold inspectTokenCapabilities. intros H. apply bind_ok in H as (mk & Hmk & H). apply bind_ok in H as (m & Hm & H).
  apply bind_ok in H as (sk & Hsk & H). apply bind_ok in H as (s & Hs & H). apply bind_ok in H as (rk & Hrk & H).
  apply bind_ok in H as (r & Hr & H). exists mk, sk, rk, m, s, r. destruct tp.
  - by injection H as <-.
  - apply bind_ok in H as (fee & Hf & H). injection H as <-. split_and!; try done. by exists fee.
Qed.

(** A profile is compatible exactly when the mint and both token accounts are initialized, the accounts are of that
    mint and not frozen, and, under Token-2022, every extension is known, nothing is non-transferable, the fee of the
    epoch is zero, no transfer hook is active, the recipient wants no memo, the source's CPI guard is off and the mint
    is not paused. *)
Theorem compatible_exactly mint source recipient tp p :
  inspectTokenCapabilities mint source recipient tp = Ok p →
  ∃ mintKey sourceKey recipientKey m s r,
    publicKey mint = Ok mintKey ∧ publicKey source = Ok sourceKey ∧ publicKey recipient = Ok recipientKey ∧
    getMint mintKey tp = Ok m ∧ getAccount sourceKey tp = Ok s ∧ getAccount recipientKey tp = Ok r ∧
    (p.(TokenCapabilityProfile.compatible) = true ↔
     accounts_usable mintKey m s r ∧ (tp = token_2022 → extensions_harmless m s r)).
Proof.
  intros H. destruct (inspected _ _ _ _ _ H) as (mk & sk & rk & m & s & r & H1 & H2 & H3 & H4 & H5 & H6 & _ & Hc & Hb).
  exists mk, sk, rk, m, s, r. split_and!; [done..|]. rewrite Hc, bool_decide_eq_true. destruct tp.
  - rewrite Hb, account_blockers_nil. naive_solver.
  - destruct Hb as (fee & Hf & ->). rewrite app_nil, account_blockers_nil, extension_blockers_nil. unfold extensions_harmless.
    assert ((∀ f, fee = Some f → f = TransferFee.mk 0 0) ↔
            (∀ f epoch, m.(SplMint.epochFee) = Some f → getEpoch = Ok epoch → f epoch = TransferFee.mk 0 0)) as ->; [|tauto].
    destruct (SplMint.epochFee m) as [f|]; [|injection Hf as <-; naive_solver].
    apply bind_ok in Hf as (epoch & He & Hf). injection Hf as <-. rewrite He. naive_solver.
Qed.
End Capabilities.

(** ** An example *)

Module CapabilityExample.
Definition sample_mint (bps : Z) : SplMint.t :=
  SplMint.mk (sample_key 5) true [1; 14] (Some (λ _, TransferFee.mk bps 0)) (Some DEFAULT_KEY) None None.
Definition sample_holder : SplAccount.t := SplAccount.mk (sample_key 5) true false [2] (Some false) None.

Definition numbers : list (string * Z) :=
  [("TransferFeeConfig", 1); ("TransferFeeAmount", 2); ("MintCloseAuthority", 3); ("ConfidentialTransferMint", 4);
   ("ConfidentialTransferAccount", 5); ("DefaultAccountState", 6); ("ImmutableOwner", 7); ("MemoTransfer", 8); ("NonTransferable", 9);
   ("InterestBearingConfig", 10); ("CpiGuard", 11); ("PermanentDelegate", 12); ("NonTransferableAccount", 13); ("TransferHook", 14);
   ("TransferHookAccount", 15); ("MetadataPointer", 18); ("TokenMetadata", 19)].

#[export] Instance tokens : SplToken := {
  ExtensionType name := match find (λ e, bool_decide (e.1 = name)) numbers with Some e => e.2 | None => -1 end;
  ExtensionType_name n := fst <$> find (λ e, e.2 =? n) numbers;
  getMint _ _ := Ok (sample_mint 0);
  getAccount _ _ := Ok sample_holder;
  getEpoch := Ok 700;
}.
End CapabilityExample.

Import Base58 CapabilityExample.

Definition sample_profile : result TokenCapabilityProfile.t :=
  inspectTokenCapabilities (toBase58 (sample_key 5)) (toBase58 (sample_key 6)) (toBase58 (sample_key 7)) token_2022.

Lemma compatible_exactly_witness : ∃ p, sample_profile = Ok p ∧ ∃ mintKey sourceKey recipientKey m s r,
    publicKey (toBase58 (sample_key 5)) = Ok mintKey ∧ publicKey (toBase58 (sample_key 6)) = Ok sourceKey ∧
    publicKey (toBase58 (sample_key 7)) = Ok recipientKey ∧
    getMint mintKey token_2022 = Ok m ∧ getAccount sourceKey token_2022 = Ok s ∧ getAccount recipientKey token_2022 = Ok r ∧
    (p.(TokenCapabilityProfile.compatible) = true ↔
     accounts_usable mintKey m s r ∧ (token_2022 = token_2022 → extensions_harmless m s r)).
Proof.
  eexists. split; [vm_compute; reflexivity|].
  apply (compatible_exactly (toBase58 (sample_key 5)) (toBase58 (sample_key 6)) (toBase58 (sample_key 7)) token_2022).
  vm_compute. reflexivity.
Defined.

Example sample_compatible : TokenCapabilityProfile.compatible <$> (match sample_profile with Ok p => Some p | Throw _ => None end) = Some true.
Proof. vm_compute. reflexivity. Qed.
