(* ===== verification/Base64.v ===== *)
(** * Base64

    [btoa] and [atob] of the platform, on the binary strings the code passes
    them, so from bytes to text and back, and the URL variants of
    sdk/src/mandate-request.ts and sdk/src/delivery.ts.

    [atob] is the WHATWG forgiving decoder: it drops ASCII white space, takes
    padding off a text of whole groups, refuses a text of 4n + 1 characters and
    any other character, and discards the bits left over. *)
From Stdlib Require Import ZArith Lia Strings.Byte Strings.Ascii.
From stdpp Require Import base numbers strings list.
From S2P Require Import Prelude Bytes PublicKey Decimal.

Definition char_code (c : ascii) : Z := Z.of_N (N_of_ascii c).
Definition code_char (n : Z) : ascii := ascii_of_N (Z.to_N n).

(** ** The alphabet *)

Definition b64_char (n : Z) : ascii :=
  if n <? 26 then code_char (65 + n)
  else if n <? 52 then code_char (71 + n)
  else if n <? 62 then code_char (n - 4)
  else if n =? 62 then "+"%char else "/"%char.

Definition b64_value (c : ascii) : option Z :=
  let n := char_code c in
  if (65 <=? n) && (n <=? 90) then Some (n - 65)
  else if (97 <=? n) && (n <=? 122) then Some (n - 71)
  else if (48 <=? n) && (n <=? 57) then Some (n + 4)
  else if n =? 43 then Some 62
  else if n =? 47 then Some 63
  else None.

(** ** [btoa] *)

Fixpoint b64_encode (bs : bytes) : list ascii :=
  match bs with
  | [] => []
  | [a] =>
      let n := byte_val a * 16 in
      [b64_char (n / 64); b64_char (n mod 64); "="%char; "="%char]
  | [a; b] =>
      let n := (byte_val a * 256 + byte_val b) * 4 in
      [b64_char (n / 4096); b64_char (n / 64 mod 64); b64_char (n mod 64); "="%char]
  | a :: b :: c :: bs =>
      let n := (byte_val a * 256 + byte_val b) * 256 + byte_val c in
      b64_char (n / 262144) :: b64_char (n / 4096 mod 64) :: b64_char (n / 64 mod 64) :: b64_char (n mod 64)
        :: b64_encode bs
  end.

(** [btoa(binary)] of the binary string of [bs] *)
Definition btoa (bs : bytes) : string := text (b64_encode bs).

(** ** [atob] *)

Fixpoint b64_groups (digits : list Z) : option bytes :=
  match digits with
  | [] => Some []
  | [_] => None
  | [a; b] => Some [byte_of ((a * 64 + b) / 16)]
  | [a; b; c] =>
      let n := ((a * 64 + b) * 64 + c) / 4 in Some [byte_of (n / 256); byte_of n]
  | a :: b :: c :: d :: digits =>
      let n := ((a * 64 + b) * 64 + c) * 64 + d in
      match b64_groups digits with
      | Some bs => Some (byte_of (n / 65536) :: byte_of (n / 256) :: byte_of n :: bs)
      | None => None
      end
  end.

(** Tab, line feed, form feed, carriage return and space *)
Definition ascii_space (c : ascii) : bool :=
  let n := char_code c in (n =? 9) || (n =? 10) || (n =? 12) || (n =? 13) || (n =? 32).

(** One or two [=] at the end of a text of whole groups *)
Definition strip_padding (cs : list ascii) : list ascii :=
  if Nat.eqb (length cs mod 4) 0 then
    match reverse cs with
    | "="%char :: "="%char :: rest => reverse rest
    | "="%char :: rest => reverse rest
    | _ => cs
    end
  else cs.

Definition atob_chars (cs : list ascii) : option bytes :=
  let cs := strip_padding (List.filter (λ c, negb (ascii_space c)) cs) in
  match mapM b64_value cs with Some digits => b64_groups digits | None => None end.

(** [Uint8Array.from(atob(s), (c) => c.charCodeAt(0))]: [None] when [atob] throws *)
Definition atob (s : string) : option bytes := atob_chars (chars s).

(** ** The URL alphabet *)

Definition url_char (c : ascii) : ascii :=
  if bool_decide (c = "+"%char) then "-"%char else if bool_decide (c = "/"%char) then "_"%char else c.
Definition std_char (c : ascii) : ascii :=
  if bool_decide (c = "-"%char) then "+"%char else if bool_decide (c = "_"%char) then "/"%char else c.

(** [.replace(/=+$/, "")] *)
Fixpoint drop_while (p : ascii → bool) (cs : list ascii) : list ascii :=
  match cs with c :: rest => if p c then drop_while p rest else cs | [] => [] end.
Definition drop_equals (cs : list ascii) : list ascii :=
  reverse (drop_while (λ c, bool_decide (c = "="%char)) (reverse cs)).

Definition bytesToBase64Url (bs : bytes) : string := text (drop_equals (map url_char (b64_encode bs))).

(** [/^[A-Za-z0-9_-]*$/] *)
Definition is_url_char (c : ascii) : bool :=
  let n := char_code c in
  (65 <=? n) && (n <=? 90) || (97 <=? n) && (n <=? 122) || (48 <=? n) && (n <=? 57) || (n =? 95) || (n =? 45).

Definition base64UrlToBytes (value : string) : result bytes :=
  let cs := chars value in
  throw_if! negb (forallb is_url_char cs) || Nat.eqb (length cs mod 4) 1 with "Value must be base64url";
  let padded := map std_char cs ++ replicate ((length cs + 3) / 4 * 4 - length cs) "="%char in
  match atob_chars padded with
  | Some bs => Ok bs
  | None => Throw "The string to be decoded is not correctly encoded."
  end.

(** [bytesToCanonicalBase64], [canonicalBase64ToBytes] of delivery.ts *)
Definition bytesToCanonicalBase64 (bs : bytes) : string := btoa bs.

Definition is_b64_char (c : ascii) : bool := match b64_value c with Some _ => true | None => false end.

(** [/^[A-Za-z0-9+/]+={0,2}$/] *)
Definition canonical_base64 (cs : list ascii) : bool :=
  let body := drop_equals cs in
  forallb is_b64_char body && negb (Nat.eqb (length body) 0) && Nat.leb (length cs - length body) 2.

Definition canonicalBase64ToBytes (value : string) : result bytes :=
  let cs := chars value in
  throw_if! negb (canonical_base64 cs) || negb (Nat.eqb (length cs mod 4) 0)
    with "Delivery signature must be canonical base64";
  match atob_chars cs with
  | Some bs => Ok bs
  | None => Throw "The string to be decoded is not correctly encoded."
  end.

(** ** What was encoded is decoded *)

Lemma alphabet_facts :
  Forall (λ n, b64_value (b64_char n) = Some n ∧ ascii_space (b64_char n) = false ∧ b64_char n ≠ "="%char ∧
    std_char (url_char (b64_char n)) = b64_char n ∧ is_url_char (url_char (b64_char n)) = true ∧
    url_char (b64_char n) ≠ "="%char) (seqZ 0 64).
Proof. repeat constructor; try done. Qed.

Lemma alphabet n : 0 <= n < 64 →
  b64_value (b64_char n) = Some n ∧ ascii_space (b64_char n) = false ∧ b64_char n ≠ "="%char ∧
  std_char (url_char (b64_char n)) = b64_char n ∧ is_url_char (url_char (b64_char n)) = true ∧
  url_char (b64_char n) ≠ "="%char.
Proof. intros H. apply (proj1 (Forall_forall _ _) alphabet_facts). apply elem_of_seqZ. lia. Qed.

(** The six-bit digits of the encoding, without the padding *)
Fixpoint sextets (bs : bytes) : list Z :=
  match bs with
  | [] => []
  | [a] => let n := byte_val a * 16 in [n / 64; n mod 64]
  | [a; b] => let n := (byte_val a * 256 + byte_val b) * 4 in [n / 4096; n / 64 mod 64; n mod 64]
  | a :: b :: c :: bs =>
      let n := (byte_val a * 256 + byte_val b) * 256 + byte_val c in
      n / 262144 :: n / 4096 mod 64 :: n / 64 mod 64 :: n mod 64 :: sextets bs
  end.

Fixpoint padding (bs : bytes) : nat :=
  match bs with [] => 0 | [_] => 2 | [_; _] => 1 | _ :: _ :: _ :: bs => padding bs end.

Lemma triple_ind (P : bytes → Prop) :
  P [] → (∀ a, P [a]) → (∀ a b, P [a; b]) → (∀ a b c bs, P bs → P (a :: b :: c :: bs)) → ∀ bs, P bs.
Proof.
  intros H0 H1 H2 H3. fix go 1. intros [|a [|b [|c bs]]]; [done|done|done|]. apply H3, go.
Qed.

Lemma encode_sextets bs : b64_encode bs = map b64_char (sextets bs) ++ replicate (padding bs) "="%char.
Proof. induction bs as [|a|a b|a b c bs IH] using triple_ind; simpl; [done..|]. by rewrite IH. Qed.

Lemma sextets_range bs : Forall (λ n, 0 <= n < 64) (sextets bs).
Proof.
  induction bs as [|a|a b|a b c bs IH] using triple_ind; cbn [sextets]; cbv zeta; repeat constructor; try done;
    repeat match goal with b : byte |- _ => lazymatch goal with
      | _ : 0 <= byte_val b < 256 |- _ => fail
      | _ => pose proof (byte_val_range b) end end;
    first [apply Z.div_pos; lia | apply Z.div_lt_upper_bound; lia | apply Z.mod_pos_bound; lia].
Qed.

Lemma byte_of_eq z b : z mod 256 = byte_val b → byte_of z = b.
Proof. intros H. apply byte_val_inj. by rewrite byte_val_of. Qed.

Lemma groups_sextets bs : b64_groups (sextets bs) = Some bs.
Proof.
  induction bs as [|a|a b|a b c bs IH] using triple_ind; [done|..];
    repeat match goal with b : byte |- _ => lazymatch goal with
      | _ : 0 <= byte_val b < 256 |- _ => fail
      | _ => pose proof (byte_val_range b) end end; cbn [sextets b64_groups]; cbv zeta; rewrite ?IH;
    repeat f_equal; apply byte_of_eq; Z.div_mod_to_equations; lia.
Qed.

Lemma sextets_length bs :
  ((length (sextets bs) + padding bs) mod 4 = 0)%nat ∧ (padding bs <= 2)%nat ∧ (bs ≠ [] → sextets bs ≠ []).
Proof.
  induction bs as [|a|a b|a b c bs (IH1 & IH2 & _)] using triple_ind; [split_and!; (done || simpl; lia)..|].
  split_and!; [|done|done]. cbn [sextets padding length].
  replace (S (S (S (S (length (sextets bs))))) + padding bs)%nat
    with (length (sextets bs) + padding bs + 1 * 4)%nat by lia.
  by rewrite Nat.Div0.mod_add.
Qed.

Lemma mapM_chars f ds :
  Forall (λ n, 0 <= n < 64) ds → (∀ n, 0 <= n < 64 → b64_value (f n) = Some n) → mapM b64_value (map f ds) = Some ds.
Proof.
  intros H Hf. induction H as [|n ds Hn _ IH]; simpl; [done|]. by rewrite Hf, IH by done.
Qed.

Lemma filter_spaces ds n :
  Forall (λ n, 0 <= n < 64) ds →
  List.filter (λ c, negb (ascii_space c)) (map b64_char ds ++ replicate n "="%char) = map b64_char ds ++ replicate n "="%char.
Proof.
  intros H. apply forallb_filter_id. rewrite forallb_app, andb_true_iff. split.
  - apply forallb_forall. intros c Hc. apply in_map_iff in Hc as (d & <- & Hd%list_elem_of_In).
    rewrite Forall_forall in H. by destruct (alphabet d (H d Hd)) as (_ & -> & _).
  - apply forallb_forall. intros c Hc%list_elem_of_In%elem_of_replicate. by destruct Hc as [-> _].
Qed.

Lemma last_not_equals ds c cs :
  Forall (λ n, 0 <= n < 64) ds → reverse (map b64_char ds) = c :: cs → c ≠ "="%char.
Proof.
  intros H E. assert (c ∈ map b64_char ds) as Hc by (apply elem_of_reverse; rewrite E; by left).
  apply list_elem_of_In, in_map_iff in Hc as (d & <- & Hd%list_elem_of_In).
  rewrite Forall_forall in H. by destruct (alphabet d (H d Hd)) as (_ & _ & ? & _).
Qed.

Lemma strip_encoded ds n :
  Forall (λ n, 0 <= n < 64) ds → (n <= 2)%nat → ((length ds + n) mod 4 = 0)%nat → (n = 0 ∨ ds ≠ [])%nat →
  strip_padding (map b64_char ds ++ replicate n "="%char) = map b64_char ds.
Proof.
  intros Hd Hn H4 Hne. unfold strip_padding. rewrite length_app, length_map, length_replicate, H4. cbn [Nat.eqb].
  rewrite reverse_app.
  destruct n as [|[|[|n]]]; [| | |lia].
  - rewrite app_nil_r. change (reverse (replicate 0 "="%char)) with (@nil ascii). simpl. destruct (reverse (map b64_char ds)) as [|c cs] eqn:E; [done|].
    pose proof (last_not_equals _ _ _ Hd E). destruct (decide (c = "="%char)); [done|].
    by destruct c as [[] [] [] [] [] [] [] []].
  - change (reverse (replicate 1 "="%char)) with ["="%char]. simpl. destruct (reverse (map b64_char ds)) as [|c cs] eqn:E.
    { apply (f_equal (λ l, length l)) in E. rewrite length_reverse, length_map in E. destruct ds; [naive_solver lia|done]. }
    pose proof (last_not_equals _ _ _ Hd E).
    assert (reverse (c :: cs) = map b64_char ds) as <- by (rewrite <- E; apply reverse_involutive).
    by destruct c as [[] [] [] [] [] [] [] []].
  - change (reverse (replicate 2 "="%char)) with ["="%char; "="%char]. simpl. apply reverse_involutive.
Qed.

Lemma atob_sextets ds n bs :
  ds = sextets bs → n = padding bs → atob_chars (map b64_char ds ++ replicate n "="%char) = Some bs.
Proof.
  intros -> ->. destruct (sextets_length bs) as (H4 & Hp & Hne). pose proof (sextets_range bs) as Hr.
  unfold atob_chars. rewrite filter_spaces by done. rewrite strip_encoded; [|done..|].
  - rewrite mapM_chars; [apply groups_sextets|done|]. intros m Hm. by apply alphabet.
  - destruct bs; [by left|right; by apply Hne].
Qed.

Lemma atob_btoa bs : atob (btoa bs) = Some bs.
Proof. unfold atob, btoa. rewrite chars_text, encode_sextets. by apply atob_sextets. Qed.

Lemma drop_while_replicate c n cs :
  drop_while (λ x, bool_decide (x = c)) (replicate n c ++ cs) = drop_while (λ x, bool_decide (x = c)) cs.
Proof. induction n; simpl; [done|]. by rewrite bool_decide_eq_true_2. Qed.

(** Dropping the padding of a text whose digits are not [=] *)
Lemma drop_equals_encoded (f : Z → ascii) ds n :
  Forall (λ d, f d ≠ "="%char) ds → drop_equals (map f ds ++ replicate n "="%char) = map f ds.
Proof.
  intros H. unfold drop_equals. rewrite reverse_app, reverse_replicate, drop_while_replicate.
  destruct (reverse (map f ds)) as [|c cs] eqn:E.
  { apply (f_equal reverse) in E. rewrite reverse_involutive in E. by rewrite E. }
  assert (c ∈ map f ds) as Hc by (apply elem_of_reverse; rewrite E; by left).
  apply list_elem_of_In, in_map_iff in Hc as (d & <- & Hd%list_elem_of_In).
  rewrite Forall_forall in H. simpl. rewrite bool_decide_eq_false_2 by (by apply H).
  rewrite <- E. apply reverse_involutive.
Qed.

Lemma sextets_not_equals bs :
  Forall (λ d, b64_char d ≠ "="%char) (sextets bs) ∧ Forall (λ d, url_char (b64_char d) ≠ "="%char) (sextets bs).
Proof. split; eapply Forall_impl; try apply sextets_range; intros d Hd; simpl; by apply alphabet. Qed.

Lemma url_encoded bs : chars (bytesToBase64Url bs) = map (λ d, url_char (b64_char d)) (sextets bs).
Proof.
  unfold bytesToBase64Url. rewrite chars_text, encode_sextets, map_app, map_map.
  assert (map url_char (replicate (padding bs) "="%char) = replicate (padding bs) "="%char) as ->
    by (induction (padding bs); simpl; [done|by f_equal]).
  apply drop_equals_encoded, sextets_not_equals.
Qed.

Lemma padding_of bs (L := length (sextets bs)) : (L mod 4 ≠ 1 ∧ (L + 3) / 4 * 4 - L = padding bs)%nat.
Proof.
  destruct (sextets_length bs) as (H4 & Hp & _). fold L in H4.
  pose proof (Nat.div_mod_eq L 4). pose proof (Nat.mod_upper_bound L 4 ltac:(lia)).
  pose proof (Nat.div_mod_eq (L + padding bs) 4).
  pose proof (Nat.div_mod_eq (L + 3) 4). pose proof (Nat.mod_upper_bound (L + 3) 4 ltac:(lia)). lia.
Qed.

Lemma url_sextets bs : forallb is_url_char (map (λ d, url_char (b64_char d)) (sextets bs)) = true.
Proof.
  pose proof (sextets_range bs) as Hr. apply forallb_forall. intros c Hc.
  apply in_map_iff in Hc as (d & <- & Hd%list_elem_of_In). rewrite Forall_forall in Hr. by apply alphabet, Hr.
Qed.

Lemma strip_unpadded ds : Forall (λ n, 0 <= n < 64) ds → strip_padding (map b64_char ds) = map b64_char ds.
Proof.
  intros Hd. destruct (Nat.eqb (length ds mod 4) 0) eqn:E.
  - apply Nat.eqb_eq in E. pose proof (strip_encoded ds 0 Hd ltac:(lia)) as H. rewrite app_nil_r, Nat.add_0_r in H. by apply H; [|left].
  - unfold strip_padding. by rewrite length_map, E.
Qed.

(** [atob] reads the URL form without its padding. *)
Lemma atob_unpadded bs : atob_chars (map std_char (chars (bytesToBase64Url bs))) = Some bs.
Proof.
  pose proof (sextets_range bs) as Hr. rewrite url_encoded, map_map.
  rewrite (map_ext_in _ b64_char); [|by intros d Hd%list_elem_of_In; rewrite Forall_forall in Hr; apply alphabet, Hr].
  unfold atob_chars. pose proof (filter_spaces (sextets bs) 0 Hr) as Hf. rewrite app_nil_r in Hf.
  rewrite Hf, strip_unpadded by done. rewrite mapM_chars; [apply groups_sextets|done|]. intros m Hm. by apply alphabet.
Qed.

(** Every byte string survives the URL alphabet. *)
Lemma base64Url_roundtrip bs : base64UrlToBytes (bytesToBase64Url bs) = Ok bs.
Proof.
  unfold base64UrlToBytes. rewrite url_encoded, length_map. destruct (padding_of bs) as [H1 H2].
  pose proof (sextets_range bs) as Hr.
  rewrite url_sextets.
  rewrite (proj2 (Nat.eqb_neq _ _) H1), H2, map_map. cbn [negb orb].
  rewrite (map_ext_in _ b64_char).
  - by rewrite (atob_sextets _ _ bs).
  - intros d Hd%list_elem_of_In. rewrite Forall_forall in Hr. by apply alphabet, Hr.
Qed.

(** A nonempty byte string survives canonical base64. *)
Lemma canonicalBase64_roundtrip bs : bs ≠ [] → canonicalBase64ToBytes (bytesToCanonicalBase64 bs) = Ok bs.
Proof.
  intros Hne. destruct (sextets_length bs) as (H4 & Hp & Hs). specialize (Hs Hne).
  unfold canonicalBase64ToBytes, bytesToCanonicalBase64, btoa.
  rewrite chars_text, encode_sextets, length_app, length_map, length_replicate, H4.
  unfold canonical_base64. rewrite drop_equals_encoded by apply sextets_not_equals.
  rewrite length_app, length_replicate, !length_map.
  assert (forallb is_b64_char (map b64_char (sextets bs)) = true) as ->.
  { apply forallb_forall. intros c Hc. apply in_map_iff in Hc as (d & <- & Hd%list_elem_of_In).
    pose proof (sextets_range bs) as Hr. rewrite Forall_forall in Hr. unfold is_b64_char.
    by destruct (alphabet d (Hr d Hd)) as (-> & _). }
  assert (Nat.eqb (length (sextets bs)) 0 = false) as -> by (apply Nat.eqb_neq; by destruct (sextets bs)).
  rewrite (proj2 (Nat.leb_le _ _)) by lia. cbn [negb andb orb Nat.eqb].
  by rewrite (atob_sextets _ _ bs).
Qed.
