(* ===== verification/Dates.v ===== *)
(** * Instants and ISO texts

    [toISOString] and [Date.parse] on the texts of its form, over the proleptic
    Gregorian calendar of [Decimal.civil_from_days], and the round trip between
    them for the years 0 to 9999. *)
From Stdlib Require Import ZArith Lia Strings.Ascii.
From stdpp Require Import base numbers strings list.
From S2P Require Import Prelude PublicKey Decimal.

(** [MakeDay(year, month, day)]: days since 1970; a day past the month's end runs
    into the next one. *)
Definition days_from_civil (y m d : Z) : Z :=
  let y := if m <=? 2 then y - 1 else y in
  let era := y / 400 in
  let yoe := y mod 400 in
  let mp := if 2 <? m then m - 3 else m + 9 in
  let doy := (153 * mp + 2) / 5 + d - 1 in
  let doe := yoe * 365 + yoe / 4 - yoe / 100 + doy in
  era * 146097 + doe - 719468.

Definition MS_PER_DAY : Z := 86400000.

Definition two (n : Z) : list ascii := padStart 2 (nat_chars n).

(** [new Date(ms).toISOString()] for the years of four digits *)
Definition iso_chars (ms : Z) : list ascii :=
  let '(y, m, d) := civil_from_days (ms / MS_PER_DAY) in
  let t := ms mod MS_PER_DAY in
  padStart 4 (nat_chars y) ++ "-"%char :: two m ++ "-"%char :: two d ++ "T"%char :: two (t / 3600000)
    ++ ":"%char :: two (t / 60000 mod 60) ++ ":"%char :: two (t / 1000 mod 60)
    ++ "."%char :: padStart 3 (nat_chars (t mod 1000)) ++ ["Z"%char].

Definition toISOString (ms : Z) : string := text (iso_chars ms).

(** The seven numbers of a text of the form YYYY-MM-DDTHH:mm:ss.sssZ *)
Definition iso_parts (cs : list ascii) : option (list Z) :=
  let part i n := take n (drop i cs) in
  let at_ i c := bool_decide (cs !! i = Some c) in
  if Nat.eqb (length cs) 24
     && forallb is_digit (part 0 4 ++ part 5 2 ++ part 8 2 ++ part 11 2 ++ part 14 2 ++ part 17 2 ++ part 20 3)%nat
     && at_ 4%nat "-"%char && at_ 7%nat "-"%char && at_ 10%nat "T"%char && at_ 13%nat ":"%char && at_ 16%nat ":"%char
     && at_ 19%nat "."%char && at_ 23%nat "Z"%char
  then Some (map chars_value [part 0 4; part 5 2; part 8 2; part 11 2; part 14 2; part 17 2; part 20 3])%nat
  else None.

(** [Date.parse] on such a text: [None] is NaN.  The hour 24 stands for the end
    of a day. *)
Definition iso_time (parts : list Z) : option Z :=
  match parts with
  | [y; m; d; h; mi; s; ms] =>
      if (1 <=? m) && (m <=? 12) && (1 <=? d) && (d <=? 31) && (mi <=? 59) && (s <=? 59)
         && ((h <=? 23) || ((h =? 24) && (mi =? 0) && (s =? 0) && (ms =? 0)))
      then Some (days_from_civil y m d * MS_PER_DAY + h * 3600000 + mi * 60000 + s * 1000 + ms)
      else None
  | _ => None
  end.

Definition Date_parse_iso (s : string) : option Z := parts ← iso_parts (chars s); iso_time parts.

(** [isCanonicalUtcIso] *)
Definition isCanonicalUtcIso (s : string) : bool :=
  match Date_parse_iso s with Some ms => bool_decide (toISOString ms = s) | None => false end.

(** ** The calendar *)

(** The year of a cycle of 400, and the day of that year, counted from March *)
Lemma cycle_year doe (yoe := (doe - doe / 1460 + doe / 36524 - doe / 146096) / 365)
    (doy := doe - (365 * yoe + yoe / 4 - yoe / 100)) :
  0 <= doe < 146097 → 0 <= yoe <= 399 ∧ 0 <= doy <= 365.
Proof. intros H. subst doy yoe. Z.to_euclidean_division_equations. lia. Qed.

(** The month and its day *)
Lemma year_month doy (mp := (5 * doy + 2) / 153) (d := doy - (153 * mp + 2) / 5 + 1) :
  0 <= doy <= 365 → 0 <= mp <= 11 ∧ 1 <= d <= 31.
Proof. intros H. subst d mp. Z.to_euclidean_division_equations. lia. Qed.

(** Every day has a date, from which it is computed back. *)
Lemma civil_roundtrip days :
  let '(y, m, d) := civil_from_days days in days_from_civil y m d = days ∧ 1 <= m <= 12 ∧ 1 <= d <= 31.
Proof.
  unfold civil_from_days. cbv zeta.
  pose proof (Z.div_mod (days + 719468) 146097 ltac:(lia)) as Hd.
  pose proof (Z.mod_pos_bound (days + 719468) 146097 ltac:(lia)) as Hm.
  set (doe := (days + 719468) mod 146097) in *. set (era := (days + 719468) / 146097) in *.
  destruct (cycle_year doe Hm) as [Hy Hdoy]. set (yoe := (doe - doe / 1460 + doe / 36524 - doe / 146096) / 365) in *.
  set (doy := doe - (365 * yoe + yoe / 4 - yoe / 100)) in *. destruct (year_month doy Hdoy) as [Hmp Hday].
  set (mp := (5 * doy + 2) / 153) in *. split; [|by destruct (mp <? 10) eqn:E; bool_reflect; lia].
  unfold days_from_civil. cbv zeta.
  assert ((if 2 <? (if mp <? 10 then mp + 3 else mp - 9) then (if mp <? 10 then mp + 3 else mp - 9) - 3
           else (if mp <? 10 then mp + 3 else mp - 9) + 9) = mp) as ->
    by (destruct (mp <? 10) eqn:E; case_tests; bool_reflect; lia).
  set (m := if mp <? 10 then mp + 3 else mp - 9).
  assert ((if m <=? 2 then yoe + era * 400 + (if m <=? 2 then 1 else 0) - 1
           else yoe + era * 400 + (if m <=? 2 then 1 else 0)) = yoe + era * 400) as -> by (destruct (m <=? 2); lia).
  rewrite Z.div_add, Z.mod_add, (Z.div_small yoe), (Z.mod_small yoe) by lia. subst doy. lia.
Qed.

(** The days from 0000-01-01 to 9999-12-31 have years of four digits. *)
Lemma civil_year days :
  -719528 <= days <= 2932896 → let '(y, m, d) := civil_from_days days in 0 <= y <= 9999.
Proof.
  intros Hr. unfold civil_from_days. cbv zeta.
  pose proof (Z.div_mod (days + 719468) 146097 ltac:(lia)) as Hd.
  pose proof (Z.mod_pos_bound (days + 719468) 146097 ltac:(lia)) as Hm.
  set (doe := (days + 719468) mod 146097) in *. set (era := (days + 719468) / 146097) in *.
  destruct (cycle_year doe Hm) as [Hy Hdoy].
  assert (146037 <= doe → (doe - doe / 1460 + doe / 36524 - doe / 146096) / 365 = 399) as H399
    by (intros; Z.to_euclidean_division_equations; lia).
  set (yoe := (doe - doe / 1460 + doe / 36524 - doe / 146096) / 365) in *.
  set (doy := doe - (365 * yoe + yoe / 4 - yoe / 100)) in *. destruct (year_month doy Hdoy) as [Hmp _].
  assert (yoe = 399 → doy = doe - 145731) as Hdoy' by (intros E; subst doy; rewrite E; reflexivity).
  assert (306 <= doy ↔ 10 <= (5 * doy + 2) / 153) as Hjan by (Z.to_euclidean_division_equations; lia).
  set (mp := (5 * doy + 2) / 153) in *.
  destruct (mp <? 10) eqn:E; bool_reflect; case_tests; bool_reflect; lia.
Qed.

(** ** Texts *)

Lemma padded_length k n : (0 < k)%nat → 0 <= n < 10 ^ Z.of_nat k → length (padStart k (nat_chars n)) = k.
Proof.
  intros Hk Hn. apply padStart_length. unfold nat_chars. destruct (n =? 0) eqn:E; [cbn; lia|]. bool_reflect.
  rewrite length_map, length_reverse. apply digits_length_bound; [lia|]. apply dec_fuel_enough. lia.
Qed.

Lemma padded_digits k n : 0 <= n → forallb is_digit (padStart k (nat_chars n)) = true.
Proof. intros Hn. by apply padStart_digits, nat_chars_digits. Qed.

Lemma padded_value k n : 0 <= n → chars_value (padStart k (nat_chars n)) = n.
Proof. intros Hn. by rewrite padStart_value, chars_value_nat. Qed.

(** A text of that form has the numbers it is written from. *)
Lemma iso_parts_of ys ms ds hs ms' ss zs :
  length ys = 4%nat → length ms = 2%nat → length ds = 2%nat → length hs = 2%nat → length ms' = 2%nat →
  length ss = 2%nat → length zs = 3%nat → forallb is_digit (ys ++ ms ++ ds ++ hs ++ ms' ++ ss ++ zs) = true →
  iso_parts (ys ++ "-"%char :: ms ++ "-"%char :: ds ++ "T"%char :: hs ++ ":"%char :: ms' ++ ":"%char :: ss
    ++ "."%char :: zs ++ ["Z"%char]) = Some (map chars_value [ys; ms; ds; hs; ms'; ss; zs]).
Proof.
  intros H1 H2 H3 H4 H5 H6 H7 Hd.
  do 5 (destruct ys as [|? ys]; try done). do 3 (destruct ms as [|? ms]; try done). do 3 (destruct ds as [|? ds]; try done).
  do 3 (destruct hs as [|? hs]; try done). do 3 (destruct ms' as [|? ms']; try done).
  do 3 (destruct ss as [|? ss]; try done). do 4 (destruct zs as [|? zs]; try done).
  unfold iso_parts. cbn [app take drop length Nat.eqb] in *. by rewrite Hd.
Qed.

Definition FIRST_DAY : Z := -719528.
Definition LAST_DAY : Z := 2932896.

(** An instant of those years is read back from its text. *)
Lemma iso_roundtrip ms : FIRST_DAY * MS_PER_DAY <= ms < (LAST_DAY + 1) * MS_PER_DAY → Date_parse_iso (toISOString ms) = Some ms.
Proof.
  intros Hr. unfold Date_parse_iso, toISOString. rewrite chars_text. unfold iso_chars.
  assert (FIRST_DAY <= ms / MS_PER_DAY <= LAST_DAY) as Hday.
  { unfold MS_PER_DAY in *. split; [apply Z.div_le_lower_bound; lia|]. enough (ms / 86400000 < LAST_DAY + 1) by lia.
    apply Z.div_lt_upper_bound; lia. }
  pose proof (civil_roundtrip (ms / MS_PER_DAY)) as Hc. pose proof (civil_year (ms / MS_PER_DAY) Hday) as Hy.
  destruct (civil_from_days (ms / MS_PER_DAY)) as [[y m] d]. destruct Hc as (Hc & Hm & Hd).
  pose proof (Z.mod_pos_bound ms MS_PER_DAY ltac:(done)) as Ht. pose proof (Z.div_mod ms MS_PER_DAY ltac:(done)) as Hms.
  set (t := ms mod MS_PER_DAY) in *. unfold MS_PER_DAY in Ht.
  assert (0 <= t / 3600000 <= 23 ∧ 0 <= t / 60000 mod 60 <= 59 ∧ 0 <= t / 1000 mod 60 <= 59 ∧ 0 <= t mod 1000 <= 999 ∧
    t = t / 3600000 * 3600000 + t / 60000 mod 60 * 60000 + t / 1000 mod 60 * 1000 + t mod 1000) as (Hh & Hmi & Hs & Hz & Esum)
    by (Z.to_euclidean_division_equations; lia).
  unfold two. rewrite iso_parts_of; try (apply padded_length; lia).
  - cbn [map mbind option_bind]. rewrite !padded_value by lia. unfold iso_time.
    rewrite !(proj2 (Z.leb_le _ _)) by lia. cbn [andb orb]. rewrite Hc. f_equal. lia.
  - rewrite !forallb_app, !padded_digits by lia. done.
Qed.

Lemma days_bounds y m d : 0 <= y <= 9999 → 1 <= m <= 12 → 1 <= d <= 31 → FIRST_DAY <= days_from_civil y m d <= LAST_DAY.
Proof.
  intros Hy Hm Hd. unfold days_from_civil, FIRST_DAY, LAST_DAY. cbv zeta.
  destruct (m <=? 2) eqn:E1, (2 <? m) eqn:E2; bool_reflect; try lia; Z.to_euclidean_division_equations; lia.
Qed.

Lemma iso_parts_ok cs parts :
  iso_parts cs = Some parts → length cs = 24%nat ∧ ∃ y m d h mi s ms, parts = [y; m; d; h; mi; s; ms] ∧
    0 <= y <= 9999 ∧ 0 <= mi ∧ 0 <= s ∧ 0 <= h ∧ 0 <= ms <= 999.
Proof.
  unfold iso_parts. destruct (_ && _) eqn:E; [|done]. intros [= <-]. bool_reflect. apply Nat.eqb_eq in H. split; [done|].
  rewrite !forallb_app in *. bool_reflect.
  assert (∀ i n, (i + n <= 24)%nat → forallb is_digit (take n (drop i cs)) = true →
    0 <= chars_value (take n (drop i cs)) < 10 ^ Z.of_nat n) as Hb.
  { intros i n Hin Hd. apply chars_value_bound in Hd. by rewrite length_take, length_drop, Nat.min_l in Hd by lia. }
  cbn [map]. do 7 eexists. split; [done|].
  repeat match goal with Hd : forallb is_digit (take ?n (drop ?i cs)) = true |- _ => apply Hb in Hd; [|lia] end.
  change (10 ^ Z.of_nat 4) with 10000 in *. change (10 ^ Z.of_nat 3) with 1000 in *. lia.
Qed.

(** The texts accepted are those of the instants of these years. *)
Lemma isCanonicalUtcIso_iff s :
  isCanonicalUtcIso s = true ↔
  ∃ ms, FIRST_DAY * MS_PER_DAY <= ms < (LAST_DAY + 1) * MS_PER_DAY ∧ s = toISOString ms.
Proof.
  unfold isCanonicalUtcIso. split; [|intros (ms & Hr & ->); rewrite iso_roundtrip by done; by apply bool_decide_eq_true_2].
  destruct (Date_parse_iso s) as [ms|] eqn:Ep; [|done]. intros Hs. bool_reflect. exists ms. split; [|done].
  unfold Date_parse_iso in Ep. destruct (iso_parts (chars s)) as [parts|] eqn:Eparts; [|done]. cbn in Ep.
  apply iso_parts_ok in Eparts as (Hl & y & m & d & h & mi & sec & z & -> & Hy & Hmi & Hsec & Hh & Hz).
  unfold iso_time in Ep. destruct (_ && _) eqn:E; [|done]. injection Ep as Ep. bool_reflect.
  pose proof (days_bounds y m d ltac:(lia) ltac:(lia) ltac:(lia)) as Hd. unfold MS_PER_DAY in *.
  apply orb_true_iff in H0 as [Hh'|H24]; bool_reflect; [lia|]. subst.
  destruct (decide (days_from_civil y m d = LAST_DAY)) as [E|]; [|lia]. rewrite E in *. exfalso.
  revert Hl. by vm_compute.
Qed.
