(* ===== verification/CardMath.v ===== *)
(** * Card money (sdk/src/cards/math.ts)

    Integer cents everywhere: parsing and printing, the floor platform fee,
    statement totals, what an owner can owe, and the exact display strings.
    A [bigint] is a [Z]; a JS [number] argument is a [number]. *)
From Stdlib Require Import ZArith Lia Strings.Byte Strings.Ascii Permutation.
From stdpp Require Import base numbers strings list.
From S2P Require Import Prelude Bytes PublicKey Decimal.

Definition BPS_DENOMINATOR : Z := 10000.

(** A value of unknown type at the boundary. *)
Inductive unknown : Type :=
| UBigint (z : Z)
| UString (s : string)
| UOther.

(** [CENTS_PATTERN.test]: at most 16 digits *)
Definition cents_pattern (s : string) : bool := decimal_pattern 15 s.

Definition quoted (s : string) : string :=
  String.String (ascii_of_N 34) (s +:+ String.String (ascii_of_N 34) EmptyString).

Definition parseCents (value : unknown) (name : string) : result Z :=
  match value with
  | UBigint z => throw_if! z <? 0 with (name +:+ " can't be negative"); Ok z
  | UString s =>
      throw_if! negb (cents_pattern s)
        with (name +:+ " must be a whole number of cents written as a string, like " +:+ quoted "2000");
      Ok (BigInt s)
  | UOther => Throw (name +:+ " must be a whole number of cents written as a string, like " +:+ quoted "2000")
  end.

Definition parseSignedCents (value : unknown) (name : string) : result Z :=
  match value with
  | UString (String.String "-" rest) =>
      if bool_decide (rest = "0") then parseCents value name
      else let! z := parseCents (UString rest) name in Ok (- z)
  | _ => parseCents value name
  end.

Definition centsToString (value : Z) : result string :=
  throw_if! value <? 0 with "cents can't be negative on the wire"; Ok (toString value).

Definition assertBps (feeBps : number) : result unit :=
  throw_if! out_of_range feeBps 0 1000 with "feeBps must be a whole number from 0 to 1000"; Ok tt.

Definition feeCents (amountCents : Z) (feeBps : number) : result Z :=
  let! _ := assertBps feeBps in
  throw_if! amountCents <? 0 with "amount can't be negative";
  Ok (Z.quot (amountCents * bigint_of feeBps) BPS_DENOMINATOR).

Definition refundableCents (capturedCents refundedCents amountCents : Z) : option Z :=
  if refundedCents + amountCents <=? capturedCents then Some amountCents else None.

Definition maxObligationCents (budgetCents : Z) (feeBps : number) : result Z :=
  let! fee := feeCents budgetCents feeBps in Ok (budgetCents + fee).

Definition availableCents (budgetCents capturedCents reservedCents : Z) : Z :=
  let used := capturedCents + reservedCents in
  if budgetCents <=? used then 0 else budgetCents - used.

Definition outstandingAfterCapture (outstandingCents capturedCents : Z) (feeBps : number) : result Z :=
  let! fee := feeCents capturedCents feeBps in Ok (outstandingCents + capturedCents + fee).

Definition outstandingAfterRefund (outstandingCents refundCents : Z) (feeBps : number) : result Z :=
  let! fee := feeCents refundCents feeBps in
  let credit := refundCents + fee in
  Ok (if outstandingCents <=? credit then 0 else outstandingCents - credit).

Module StatementLine.
Inductive kind_t : Type := purchase | refund | adjustment_debit | adjustment_credit.
Record t : Type := mk { kind : kind_t; amountCents : Z }.
Definition debit (k : kind_t) : bool :=
  match k with purchase | adjustment_debit => true | _ => false end.
End StatementLine.

Module StatementTotals.
Record t : Type := mk { purchasesCents : Z; refundsCents : Z; feeCents : Z; totalCents : Z }.
End StatementTotals.

(** The loop of [statementTotals], from its running sums. *)
Fixpoint statement_loop (lines : list StatementLine.t) (feeBps : number)
    (purchasesCents refundsCents fees : Z) : result (Z * Z * Z) :=
  match lines with
  | [] => Ok (purchasesCents, refundsCents, fees)
  | line :: lines =>
      let amount := line.(StatementLine.amountCents) in
      throw_if! amount <? 0 with "statement line amounts are unsigned; use the line kind for direction";
      if StatementLine.debit line.(StatementLine.kind) then
        let! fee := feeCents amount feeBps in
        statement_loop lines feeBps (purchasesCents + amount) refundsCents (fees + fee)
      else
        let! fee := feeCents amount feeBps in
        statement_loop lines feeBps purchasesCents (refundsCents + amount) (fees - fee)
  end.

Definition statementTotals (lines : list StatementLine.t) (feeBps : number)
    : result StatementTotals.t :=
  let! (purchasesCents, refundsCents, fees) := statement_loop lines feeBps 0 0 0 in
  Ok (StatementTotals.mk purchasesCents refundsCents fees (purchasesCents - refundsCents + fees)).

(** [.replace(/\B(?=(\d{3})+(?!\d))/g, ",")] on digits: a comma before every
    position, past the first, that a positive multiple of three digits follows. *)
Fixpoint group_thousands (cs : list ascii) : list ascii :=
  match cs with
  | [] => []
  | c :: rest =>
      if negb (Nat.eqb (length rest) 0) && Nat.eqb (Nat.modulo (length rest) 3) 0
      then c :: ","%char :: group_thousands rest
      else c :: group_thousands rest
  end.

(** [.padStart(2, "0")] *)
Definition padStart2 (cs : list ascii) : list ascii := replicate (2 - length cs) "0"%char ++ cs.

Definition formatUsdCents (value : unknown) : result string :=
  let! cents := match value with
                | UBigint z => Ok z
                | _ => parseSignedCents value "amountCents"
                end in
  let negative := cents <? 0 in
  let abs := if negative then - cents else cents in
  let dollars := group_thousands (nat_chars (Z.quot abs 100)) in
  let rest := padStart2 (nat_chars (Z.rem abs 100)) in
  Ok (text ((if negative then ["-"%char] else []) ++ ["$"%char] ++ dollars ++ ["."%char] ++ rest)).

(** [.replace(/0+$/, "")] *)
Fixpoint drop_zeros (cs : list ascii) : list ascii :=
  match cs with
  | [] => []
  | c :: rest => if bool_decide (c = "0"%char) then drop_zeros rest else cs
  end.
Definition strip_trailing_zeros (cs : list ascii) : list ascii := reverse (drop_zeros (reverse cs)).

Definition formatFeeBps (feeBps : number) : result string :=
  let! _ := assertBps feeBps in
  let whole := nat_chars (Z.quot (bigint_of feeBps) 100) in
  let frac := strip_trailing_zeros (padStart2 (nat_chars (Z.rem (bigint_of feeBps) 100))) in
  Ok (text (match frac with [] => whole | _ => whole ++ ["."%char] ++ frac end ++ ["%"%char])).

Definition centsToTokenBaseUnits (cents : Z) (decimals : number) : result Z :=
  throw_if! negb (isInteger decimals) || num_ltb decimals 2 with "token must have at least 2 decimals";
  Ok (cents * 10 ^ (bigint_of decimals - 2)).

Module PolicyReview.
Record t : Type := mk {
  budgetCents : string;
  maxPurchaseCents : string;
  feeBps : number;
  feeCentsAtFullBudget : string;
  maxObligationCents : string;
  display_budget : string;
  display_maxPurchase : string;
  display_fee : string;
  display_maxObligation : string;
}.
End PolicyReview.

Definition policyReviewSummary (budgetCents maxPurchaseCents : Z) (feeBps : number)
    : result PolicyReview.t :=
  let! obligation := maxObligationCents budgetCents feeBps in
  let! budget := centsToString budgetCents in
  let! maxPurchase := centsToString maxPurchaseCents in
  let! fee := centsToString (obligation - budgetCents) in
  let! total := centsToString obligation in
  let! d_budget := formatUsdCents (UBigint budgetCents) in
  let! d_maxPurchase := formatUsdCents (UBigint maxPurchaseCents) in
  let! d_fee := formatFeeBps feeBps in
  let! d_obligation := formatUsdCents (UBigint obligation) in
  Ok (PolicyReview.mk budget maxPurchase feeBps fee total d_budget d_maxPurchase d_fee d_obligation).

(** ** Fees *)

(** The fee as the contract states it: floor(x * bps / 10 000). *)
Definition fee (bps x : Z) : Z := x * bps / 10000.

Lemma feeCents_ok x n f :
  feeCents x n = Ok f ↔ ∃ bps, n = JInt bps ∧ 0 <= bps <= 1000 ∧ 0 <= x ∧ f = fee bps x.
Proof.
  unfold feeCents, assertBps. split.
  - intros H. inv_ok H. inv_ok E. apply in_range_inv in G0 as (bps & -> & Hb). bool_reflect.
    exists bps. split_and!; try done; try lia. subst f. unfold fee, BPS_DENOMINATOR. simpl.
    apply Z.quot_div_nonneg; lia || nia.
  - intros (bps & -> & Hb & Hx & ->). rewrite in_range_int by lia. cbn [bind].
    rewrite (proj2 (Z.ltb_ge x 0)) by lia. unfold fee, BPS_DENOMINATOR. simpl. f_equal.
    apply Z.quot_div_nonneg; lia || nia.
Qed.

Lemma fee_nonneg bps x : 0 <= bps → 0 <= x → 0 <= fee bps x.
Proof. intros. apply Z.div_pos; nia. Qed.

Lemma fee_mono bps x y : 0 <= bps → x <= y → fee bps x <= fee bps y.
Proof. intros. apply Z.div_le_mono; nia. Qed.

Lemma fee_plus bps x y : fee bps x + fee bps y <= fee bps (x + y) <= fee bps x + fee bps y + 1.
Proof.
  unfold fee. rewrite Z.mul_add_distr_r.
  pose proof (Z.div_mod (x * bps) 10000). pose proof (Z.mod_pos_bound (x * bps) 10000).
  pose proof (Z.div_mod (y * bps) 10000). pose proof (Z.mod_pos_bound (y * bps) 10000).
  pose proof (Z.div_mod (x * bps + y * bps) 10000). pose proof (Z.mod_pos_bound (x * bps + y * bps) 10000).
  lia.
Qed.

Lemma fee_le bps x : 0 <= bps <= 1000 → 0 <= x → fee bps x <= x / 10.
Proof.
  intros. unfold fee. apply Z.div_le_lower_bound; [lia|].
  pose proof (Z.mul_div_le (x * bps) 10000 ltac:(lia)). nia.
Qed.

Definition sum (xs : list Z) : Z := foldr Z.add 0 xs.

Lemma sum_nonneg xs : Forall (λ x, 0 <= x) xs → 0 <= sum xs.
Proof. induction 1; simpl; lia. Qed.

Lemma fee_sum bps xs :
  Forall (λ x, 0 <= x) xs → 0 <= bps →
  sum (map (fee bps) xs) <= fee bps (sum xs) <= sum (map (fee bps) xs) + Z.of_nat (length xs).
Proof.
  induction 1 as [|x xs Hx Hxs IH]; intros Hb; simpl.
  { unfold fee. simpl. split; done. }
  pose proof (fee_plus bps x (sum xs)). specialize (IH Hb). lia.
Qed.

(** ** Statements *)

Definition debits (lines : list StatementLine.t) : list Z :=
  map StatementLine.amountCents
    (List.filter (λ l, StatementLine.debit l.(StatementLine.kind)) lines).
Definition credits (lines : list StatementLine.t) : list Z :=
  map StatementLine.amountCents
    (List.filter (λ l, negb (StatementLine.debit l.(StatementLine.kind))) lines).
Definition unsigned (lines : list StatementLine.t) : Prop :=
  Forall (λ l, 0 <= l.(StatementLine.amountCents)) lines.

Lemma statement_loop_ok lines bps p r f :
  unsigned lines → 0 <= bps <= 1000 →
  statement_loop lines (JInt bps) p r f =
    Ok (p + sum (debits lines), r + sum (credits lines),
        f + sum (map (fee bps) (debits lines)) - sum (map (fee bps) (credits lines))).
Proof.
  intros Hu Hb. revert p r f; induction Hu as [|[k x] lines Hx _ IH]; intros p r f.
  { simpl. do 2 f_equal; [f_equal|]; lia. }
  cbn [statement_loop StatementLine.amountCents StatementLine.kind] in *.
  rewrite (proj2 (Z.ltb_ge x 0)) by lia.
  rewrite (proj2 (feeCents_ok x (JInt bps) (fee bps x))) by eauto. cbn [bind].
  unfold debits, credits in *. simpl. destruct (StatementLine.debit k); simpl;
    rewrite IH; do 2 f_equal; try (f_equal; lia); lia.
Qed.

Lemma statement_loop_inv lines n p r f res :
  statement_loop lines n p r f = Ok res →
  unsigned lines ∧ (lines = [] ∨ ∃ bps, n = JInt bps ∧ 0 <= bps <= 1000).
Proof.
  revert p r f; induction lines as [|[k x] lines IH]; intros p r f; [by split; [constructor|left]|].
  cbn [statement_loop StatementLine.amountCents StatementLine.kind]. intros H. inv_ok H. bool_reflect.
  destruct (StatementLine.debit k); inv_ok H; apply feeCents_ok in E as (bps & -> & Hb & _);
    apply IH in H as [Hu _]; (split; [by constructor | right; eauto]).
Qed.

Lemma unsigned_sums lines :
  unsigned lines → Forall (λ x, 0 <= x) (debits lines) ∧ Forall (λ x, 0 <= x) (credits lines).
Proof.
  induction 1 as [|[k x] lines Hx _ [IHd IHc]]; [done|]. unfold debits, credits in *. simpl.
  destruct (StatementLine.debit k); simpl; split; try done; by constructor.
Qed.

Lemma sum_perm xs ys : Permutation xs ys → sum xs = sum ys.
Proof. induction 1; simpl in *; lia. Qed.

Lemma filter_perm {A} (p : A → bool) l k :
  Permutation l k → Permutation (List.filter p l) (List.filter p k).
Proof.
  induction 1; simpl; repeat case_match; eauto using Permutation.
Qed.

(** Statement totals are the sums the contract states: on unsigned lines
      and a valid fee, purchases and refunds are the sums of the debit and
      credit lines, every line's fee is floored on its own, and the total is
      purchases - refunds + fees, never clamped.  The lines' order does not
      matter, and a period whose debits stay within the budget never owes more
      than [maxObligationCents]. *)
Theorem statementTotals_spec (lines lines' : list StatementLine.t) (bps budget : Z) :
  unsigned lines → 0 <= bps <= 1000 → Permutation lines lines' →
  ∃ t,
    statementTotals lines (JInt bps) = Ok t ∧ statementTotals lines' (JInt bps) = Ok t ∧
    t.(StatementTotals.purchasesCents) = sum (debits lines) ∧
    t.(StatementTotals.refundsCents) = sum (credits lines) ∧
    t.(StatementTotals.totalCents)
      = sum (debits lines) - sum (credits lines)
        + (sum (map (fee bps) (debits lines)) - sum (map (fee bps) (credits lines))) ∧
    (sum (debits lines) <= budget →
      ∃ m, maxObligationCents budget (JInt bps) = Ok m ∧ t.(StatementTotals.totalCents) <= m).
Proof.
  intros Hu Hb Hp.
  assert (unsigned lines') as Hu' by (unfold unsigned in *; by rewrite <- Hp).
  assert (Permutation (debits lines) (debits lines')) as Pd
    by (by apply Permutation_map, filter_perm).
  assert (Permutation (credits lines) (credits lines')) as Pc
    by (by apply Permutation_map, filter_perm).
  unfold statementTotals. rewrite !statement_loop_ok by done. cbn [bind].
  rewrite <- (sum_perm _ _ Pd), <- (sum_perm _ _ Pc),
    <- (sum_perm _ _ (Permutation_map (fee bps) Pd)), <- (sum_perm _ _ (Permutation_map (fee bps) Pc)).
  eexists. split_and!; [done|done|done|done|simpl; lia|]. cbn [StatementTotals.totalCents].
  intros Hbudget. destruct (unsigned_sums _ Hu) as [Hd Hc].
  pose proof (sum_nonneg _ Hd). pose proof (sum_nonneg _ Hc).
  unfold maxObligationCents.
  rewrite (proj2 (feeCents_ok budget (JInt bps) (fee bps budget))) by (eexists; split_and!; done || lia).
  eexists. split; [done|].
  pose proof (fee_sum bps _ Hd ltac:(lia)). pose proof (fee_mono bps _ _ ltac:(lia) Hbudget).
  assert (0 <= sum (map (fee bps) (credits lines))); [|lia].
  apply sum_nonneg, Forall_map. eapply Forall_impl; [exact Hc|]. intros x Hx. apply fee_nonneg; [lia | exact Hx].
Qed.

(** Splitting an amount never gains from rounding: refunds credited in
      parts never reduce the outstanding balance below one refund of their sum,
      and by at most one cent per part more; a capture followed by the refund
      of the whole capture gives back the outstanding balance exactly. *)
Theorem split_refunds (bps outstanding capture : Z) (parts : list Z) :
  0 <= bps <= 1000 → 0 <= capture → 0 <= outstanding → Forall (λ x, 0 <= x) parts →
  (∃ one, outstandingAfterRefund outstanding (sum parts) (JInt bps) = Ok one ∧
    ∃ many, foldl (λ r x, bind r (λ o, outstandingAfterRefund o x (JInt bps))) (Ok outstanding) parts
        = Ok many ∧
      one <= many <= one + Z.of_nat (length parts)) ∧
  (∃ o, outstandingAfterCapture outstanding capture (JInt bps) = Ok o ∧
    outstandingAfterRefund o capture (JInt bps) = Ok outstanding).
Proof.
  intros Hb Hc Ho Hparts.
  assert (∀ x o, 0 <= x → outstandingAfterRefund o x (JInt bps)
    = Ok (if o <=? x + fee bps x then 0 else o - (x + fee bps x))) as Hrefund.
  { intros x o Hx. unfold outstandingAfterRefund.
    by rewrite (proj2 (feeCents_ok x (JInt bps) (fee bps x))) by eauto. }
  split.
  - pose proof (sum_nonneg _ Hparts). eexists. split; [by apply Hrefund|].
    assert (foldl (λ r x, bind r (λ o, outstandingAfterRefund o x (JInt bps))) (Ok outstanding) parts
      = Ok (Z.max 0 (outstanding - sum parts - sum (map (fee bps) parts)))) as ->.
    { revert outstanding Ho. induction Hparts as [|x xs Hx Hxs IH]; intros o Ho; simpl.
      - f_equal. lia.
      - specialize (IH ltac:(by apply sum_nonneg)). rewrite Hrefund by done.
        pose proof (fee_nonneg bps x ltac:(lia) Hx).
        pose proof (sum_nonneg _ Hxs).
        assert (0 <= sum (map (fee bps) xs)).
        { apply sum_nonneg, Forall_map. eapply Forall_impl; [exact Hxs|]. intros y Hy. apply fee_nonneg; [lia | exact Hy]. }
        rewrite IH by (case_tests; bool_reflect; lia). f_equal.
        case_tests; bool_reflect; lia. }
    eexists. split; [done|]. pose proof (fee_sum bps parts Hparts ltac:(lia)).
    case_tests; bool_reflect; lia.
  - unfold outstandingAfterCapture.
    rewrite (proj2 (feeCents_ok capture (JInt bps) (fee bps capture))) by eauto.
    eexists. split; [done|]. rewrite Hrefund by done. f_equal.
    case_tests; bool_reflect; lia.
Qed.

(** What is spent, what is held and what is available always make the
      budget, unless more than the budget is committed, and then nothing is
      available; and a refund fits exactly when what was refunded stays within
      what was captured. *)
Theorem availableCents_spec (budget captured reserved refunded amount : Z) :
  captured + reserved + availableCents budget captured reserved
    = Z.max budget (captured + reserved) ∧
  (refundableCents captured refunded amount = Some amount ↔ refunded + amount <= captured) ∧
  (refundableCents captured refunded amount = None ↔ captured < refunded + amount).
Proof.
  unfold availableCents, refundableCents. case_tests; bool_reflect; split_and!; try lia;
    split; try done; lia.
Qed.

(** ** Parsing and printing *)

Lemma toString_nat n : 0 <= n → toString n = text (nat_chars n).
Proof. intros H. unfold toString. by rewrite (proj2 (Z.ltb_ge _ _)). Qed.

Lemma nat_chars_not_minus n rest : 0 <= n → text (nat_chars n) ≠ String.String "-" rest.
Proof.
  intros H E. pose proof (nat_chars_digits n H) as Hd.
  apply (f_equal chars) in E. rewrite chars_text in E. rewrite E in Hd. done.
Qed.

(** A wire amount is a decimal integer without sign, leading zero or more
      than 16 digits, and nothing else: [parseCents] accepts a string exactly
      when it is what [centsToString] prints for a value below 10^16, and
      returns that value; signed amounts of that size survive printing and
      [parseSignedCents] too. *)
Theorem parseCents_iff (s name : string) (v w : Z) :
  (parseCents (UString s) name = Ok v ↔ 0 <= v < 10 ^ 16 ∧ centsToString v = Ok s) ∧
  (- 10 ^ 16 < w < 10 ^ 16 → parseSignedCents (UString (toString w)) name = Ok w).
Proof.
  assert (∀ n, 0 <= n < 10 ^ 16 → parseCents (UString (text (nat_chars n))) name = Ok n) as Hparse.
  { intros n Hn. unfold parseCents, cents_pattern.
    rewrite (proj2 (decimal_pattern_iff 15 _)) by eauto. simpl. by rewrite BigInt_text by lia. }
  split; [split|].
  - intros H. unfold parseCents in H. inv_ok H. bool_reflect.
    unfold cents_pattern in G. apply decimal_pattern_iff in G as (n & Hn & ->).
    rewrite BigInt_text in H by lia. subst v. split; [exact Hn|].
    unfold centsToString. rewrite (proj2 (Z.ltb_ge _ _)) by lia. by rewrite toString_nat by lia.
  - intros [Hv H]. unfold centsToString in H. inv_ok H. subst s. rewrite toString_nat by lia. auto.
  - intros Hw. unfold toString. destruct (w <? 0) eqn:E; bool_reflect.
    + unfold parseSignedCents. rewrite bool_decide_false.
      * rewrite Hparse by lia. simpl. f_equal. lia.
      * intros E0. apply (f_equal BigInt) in E0. rewrite BigInt_text in E0 by lia.
        change (BigInt "0") with 0 in E0. lia.
    + rewrite <- (Hparse w) by lia. unfold parseSignedCents.
      destruct (text (nat_chars w)) as [|c rest] eqn:Et; [done|].
      destruct (decide (c = "-"%char)) as [->|Hne].
      * by apply nat_chars_not_minus in Et; [|lia].
      * destruct c as [[] [] [] [] [] [] [] []]; done.
Qed.

(** ** Display *)

Lemma group_thousands_commas cs :
  forallb is_digit cs = true →
  List.filter (λ c, negb (bool_decide (c = ","%char))) (group_thousands cs) = cs.
Proof.
  induction cs as [|c cs IH]; [done|]. intros H. simpl in H. bool_reflect.
  assert (bool_decide (c = ","%char) = false) as Hc.
  { apply bool_decide_eq_false. intros ->. done. }
  simpl. case_match; simpl; rewrite Hc; simpl; by rewrite IH.
Qed.

Lemma nat_chars_two n : 0 <= n < 100 → length (padStart2 (nat_chars n)) = 2%nat ∧
  chars_value (padStart2 (nat_chars n)) = n ∧ forallb is_digit (padStart2 (nat_chars n)) = true.
Proof.
  intros H.
  assert (n ∈ seqZ 0 100) as Hin by (apply elem_of_seqZ; lia).
  revert Hin. apply (proj1 (Forall_forall (λ n, length (padStart2 (nat_chars n)) = 2%nat ∧
    chars_value (padStart2 (nat_chars n)) = n ∧ forallb is_digit (padStart2 (nat_chars n)) = true) _)).
  repeat constructor.
Qed.

(** Dollars are shown exactly.  For every amount, the display is an
      optional minus, "$", the whole dollars with commas, ".", and exactly two
      digits; without its commas the dollar part is the decimal text of
      |cents| / 100, and the two digits read as |cents| mod 100. *)
Theorem formatUsdCents_exact (v : Z) :
  ∃ dollars rest,
    formatUsdCents (UBigint v) = Ok (text ((if v <? 0 then ["-"%char] else []) ++ ["$"%char]
      ++ dollars ++ ["."%char] ++ rest)) ∧
    List.filter (λ c, negb (bool_decide (c = ","%char))) dollars = nat_chars (Z.abs v / 100) ∧
    length rest = 2%nat ∧ chars_value rest = Z.abs v mod 100 ∧ forallb is_digit rest = true ∧
    100 * chars_value (nat_chars (Z.abs v / 100)) + chars_value rest = Z.abs v.
Proof.
  unfold formatUsdCents. cbn [bind].
  assert ((if v <? 0 then - v else v) = Z.abs v) as -> by (case_tests; bool_reflect; lia).
  rewrite Z.quot_div_nonneg, Z.rem_mod_nonneg by lia.
  assert (0 <= Z.abs v / 100) by (apply Z.div_pos; lia).
  pose proof (Z.mod_pos_bound (Z.abs v) 100 ltac:(lia)).
  destruct (nat_chars_two (Z.abs v mod 100)) as (Hl & Hv & Hd); [lia|].
  eexists _, _. split; [done|].
  rewrite group_thousands_commas by by apply nat_chars_digits.
  rewrite chars_value_nat by done. split_and!; try done.
  rewrite Hv. pose proof (Z.div_mod (Z.abs v) 100). lia.
Qed.

(** A fee display read back, in basis points. *)
Fixpoint read_percent (cs : list ascii) (whole : list ascii) : Z :=
  match cs with
  | [] => 0
  | c :: cs =>
      if bool_decide (c = "."%char) then
        let frac := List.filter is_digit cs in
        100 * chars_value whole + chars_value (frac ++ replicate (2 - length frac) "0"%char)
      else if bool_decide (c = "%"%char) then 100 * chars_value whole
      else read_percent cs (whole ++ [c])
  end.

Definition fee_display_ok (bps : Z) : bool :=
  match formatFeeBps (JInt bps) with
  | Ok s => Z.eqb (read_percent (chars s) []) bps
  | Throw _ => false
  end.

Lemma fee_displays_ok : forallb fee_display_ok (seqZ 0 1001) = true.
Proof. vm_compute. reflexivity. Qed.

(** The fee shown is the fee charged: every whole number of basis points
      from 0 to 1000 has a display, and the display reads back as that number,
      so two different fees never look the same; any other fee throws. *)
Theorem formatFeeBps_exact (n : number) (s : string) :
  (formatFeeBps n = Ok s → ∃ bps, n = JInt bps ∧ 0 <= bps <= 1000 ∧ read_percent (chars s) [] = bps) ∧
  (∀ bps, n = JInt bps → 0 <= bps <= 1000 → ∃ s, formatFeeBps n = Ok s).
Proof.
  split.
  - intros H. assert (H' := H). unfold formatFeeBps, assertBps in H'. inv_ok H'. inv_ok E.
    apply in_range_inv in G as (bps & -> & Hb). exists bps. split_and!; try done; try lia.
    pose proof fee_displays_ok as Hall. rewrite forallb_forall in Hall.
    specialize (Hall bps). unfold fee_display_ok in Hall. rewrite H in Hall.
    apply Z.eqb_eq, Hall, list_elem_of_In, elem_of_seqZ. lia.
  - intros bps -> Hb. unfold formatFeeBps, assertBps. rewrite in_range_int by lia. cbn [bind]. eauto.
Qed.

(** The review an owner signs: for a budget, a purchase limit and a valid
      fee, the summary's strings are the decimal amounts, the obligation is
      budget + fee(budget), and it never passes 110% of the budget. *)
Theorem policyReviewSummary_spec (budget maxPurchase bps : Z) :
  0 <= budget → 0 <= maxPurchase → 0 <= bps <= 1000 →
  ∃ r, policyReviewSummary budget maxPurchase (JInt bps) = Ok r ∧
    r.(PolicyReview.budgetCents) = toString budget ∧
    r.(PolicyReview.maxPurchaseCents) = toString maxPurchase ∧
    r.(PolicyReview.feeCentsAtFullBudget) = toString (fee bps budget) ∧
    r.(PolicyReview.maxObligationCents) = toString (budget + fee bps budget) ∧
    formatUsdCents (UBigint (budget + fee bps budget)) = Ok r.(PolicyReview.display_maxObligation) ∧
    budget <= budget + fee bps budget <= budget + budget / 10.
Proof.
  intros Hb Hm Hf. pose proof (fee_nonneg bps budget ltac:(lia) Hb).
  pose proof (fee_le bps budget Hf Hb).
  unfold policyReviewSummary, maxObligationCents.
  rewrite (proj2 (feeCents_ok budget (JInt bps) (fee bps budget))) by eauto. cbn [bind].
  unfold centsToString. rewrite !(proj2 (Z.ltb_ge _ _)) by lia. cbn [bind].
  unfold formatFeeBps, assertBps. rewrite in_range_int by lia. cbn [bind].
  replace (budget + fee bps budget - budget) with (fee bps budget) by lia.
  destruct (formatUsdCents (UBigint (budget + fee bps budget))) as [d|] eqn:E.
  - eexists. split; [done|]. split_and!; simpl; try done; lia.
  - exfalso. unfold formatUsdCents in E. done.
Qed.

(** ** Witnesses *)

Definition sample_lines : list StatementLine.t :=
  [StatementLine.mk StatementLine.purchase 1999; StatementLine.mk StatementLine.refund 500;
   StatementLine.mk StatementLine.adjustment_debit 101].

Lemma statementTotals_spec_witness :
  ∃ t, statementTotals sample_lines (JInt 50) = Ok t ∧ t.(StatementTotals.totalCents) = 1607.
Proof.
  assert (unsigned sample_lines) as Hu by (repeat constructor; simpl; lia).
  destruct (statementTotals_spec sample_lines sample_lines 50 5000 Hu ltac:(lia) (Permutation_refl _))
    as (t & E & _ & _ & _ & Ht & _).
  exists t. split; [exact E | rewrite Ht; reflexivity].
Defined.

Lemma split_refunds_witness :
  ∃ o, outstandingAfterCapture 300 1999 (JInt 50) = Ok o ∧
    outstandingAfterRefund o 1999 (JInt 50) = Ok 300.
Proof.
  assert (Forall (λ x, 0 <= x) [99; 101]) as Hp by (repeat constructor; lia).
  exact (proj2 (split_refunds 50 300 1999 [99; 101] ltac:(lia) ltac:(lia) ltac:(lia) Hp)).
Defined.

Lemma parseCents_iff_witness : parseSignedCents (UString (toString (-1005))) "totalCents" = Ok (-1005).
Proof. apply (parseCents_iff "50250" "totalCents" 50250 (-1005)). lia. Defined.

Lemma formatFeeBps_exact_witness : ∃ s, formatFeeBps (JInt 125) = Ok s.
Proof. apply (proj2 (formatFeeBps_exact (JInt 125) "1.25%") 125 eq_refl). lia. Defined.

Lemma policyReviewSummary_spec_witness :
  ∃ r, policyReviewSummary 50000 20000 (JInt 50) = Ok r ∧
    r.(PolicyReview.maxObligationCents) = "50250".
Proof.
  destruct (policyReviewSummary_spec 50000 20000 50 ltac:(lia) ltac:(lia) ltac:(lia))
    as (r & E & _ & _ & _ & Hm & _).
  exists r. split; [exact E | rewrite Hm; reflexivity].
Defined.
