(* ===== verification/CardPda.v ===== *)
(** * Card addresses (sdk/src/cards/pda.ts)

    Every program-derived address of a card, the address bundle
    [deriveCardAccounts], and card ids as hex.  [card_seed] lists the seeds of
    each kind of address of the card program; they never coincide, so two of
    its addresses are equal only if the address search collides. *)
From Stdlib Require Import ZArith Lia Strings.Byte Strings.Ascii.
From stdpp Require Import base numbers strings list.
From S2P Require Import Prelude Bytes PublicKey Types Encoding Pda CardConstants Decimal.

Section CardPda.
Context `{K : PublicKeys}.

(** [pda([...seeds], resolveCardPolicyProgramId(programId))] *)
Definition card_pda (seeds : list (result bytes)) (programId : option Address) : result Address :=
  let! ss := sequence seeds in
  let! id := resolveCardPolicyProgramId programId in
  find_pda (map Ok ss) id.

Definition deriveCardBindingAddress (owner : Address) (cardId : bytes) (programId : option Address) :=
  card_pda [Ok (utf8 CARD_SEEDS.binding); publicKey owner; bytes32 cardId "cardId"] programId.

Definition deriveCardPolicyAddress (binding : Address) (programId : option Address) :=
  card_pda [Ok (utf8 CARD_SEEDS.policy); publicKey binding] programId.

Definition deriveCardPeriodAddress (binding : Address) (programId : option Address) :=
  card_pda [Ok (utf8 CARD_SEEDS.period); publicKey binding] programId.

Definition deriveReservationAddress (policy : Address) (authIdHash : bytes)
    (programId : option Address) :=
  card_pda [Ok (utf8 CARD_SEEDS.reservation); publicKey policy; bytes32 authIdHash "authIdHash"]
    programId.

Definition deriveAuthGuardAddress (policy : Address) (programId : option Address) :=
  card_pda [Ok (utf8 CARD_SEEDS.authGuard); publicKey policy] programId.

Definition deriveCheckoutIntentAddress (policy : Address) (intentId : bytes)
    (programId : option Address) : result Address :=
  throw_if! negb (Nat.eqb (length intentId) 16) with "intentId must be exactly 16 bytes";
  card_pda [Ok (utf8 CARD_SEEDS.intent); publicKey policy; Ok intentId] programId.

Definition deriveCardCommitmentAddress (binding : Address) (programId : option Address) :=
  card_pda [Ok (utf8 CARD_SEEDS.commitment); publicKey binding] programId.

Definition deriveRepayAgentAddress (binding : Address) (programId : option Address) :=
  card_pda [Ok (utf8 CARD_SEEDS.repayAgent); publicKey binding] programId.

Definition derivePermissionAddress (account : Address) : result Address :=
  find_pda [Ok (utf8 "permission:"); publicKey account] PERMISSION_PROGRAM_ID.

Definition deriveCardEscrowAddress (escrowAuthority : Address) (index : number) : result Address :=
  throw_if! out_of_range index 0 255 with "escrow index must be 0..255";
  find_pda [Ok (utf8 "balance"); publicKey escrowAuthority; Ok [byte_of (bigint_of index)]]
    DELEGATION_PROGRAM_ID.

Definition deriveDelegationBufferAddress (account : Address) (programId : option Address) :=
  card_pda [Ok (utf8 "buffer"); publicKey account] programId.

Definition deriveDelegationRecordAddress (account : Address) : result Address :=
  find_pda [Ok (utf8 "delegation"); publicKey account] DELEGATION_PROGRAM_ID.

Definition deriveDelegationMetadataAddress (account : Address) : result Address :=
  find_pda [Ok (utf8 "delegation-metadata"); publicKey account] DELEGATION_PROGRAM_ID.

Definition deriveMagicFeeVaultAddress (validator : Address) : result Address :=
  find_pda [Ok (utf8 "magic-fee-vault"); publicKey validator] DELEGATION_PROGRAM_ID.
End CardPda.

Module CardAccountAddresses.
Record t : Type := mk {
  binding : Address;
  policy : Address;
  period : Address;
  commitment : Address;
  escrow : Address;
  policyPermission : Address;
  periodPermission : Address;
}.
End CardAccountAddresses.

Definition deriveCardAccounts `{K : PublicKeys} (owner : Address) (cardId : bytes)
    (programId : option Address) : result CardAccountAddresses.t :=
  let! binding := deriveCardBindingAddress owner cardId programId in
  let! policy := deriveCardPolicyAddress binding programId in
  let! period := deriveCardPeriodAddress binding programId in
  let! commitment := deriveCardCommitmentAddress binding programId in
  let! escrow := deriveCardEscrowAddress policy (JInt 255) in
  let! policyPermission := derivePermissionAddress policy in
  let! periodPermission := derivePermissionAddress period in
  Ok (CardAccountAddresses.mk binding policy period commitment escrow policyPermission periodPermission).

(** ** Card ids as hex *)

(** [toLowerCase] of a code unit below 128 (no other one is hex). *)
Definition lower (c : ascii) : ascii :=
  let n := N_of_ascii c in if ((65 <=? n) && (n <=? 90))%N then ascii_of_N (n + 32) else c.

Definition toLowerCase (s : string) : string := text (map lower (chars s)).

(** [.replace(/^0x/, "")] *)
Definition strip_0x (s : string) : string :=
  match s with
  | String.String "0" (String.String "x" rest) => rest
  | _ => s
  end.

Definition is_hex (c : ascii) : bool := bool_decide (is_Some (hex_value c)).

Definition cardIdFromHex (value : string) : result bytes :=
  let hex := strip_0x (toLowerCase (trim value)) in
  throw_if! negb (Nat.eqb (length (chars hex)) 64 && forallb is_hex (chars hex))
    with "cardId must be 32 bytes of hex";
  Ok (default [] (hex_pairs hex)).

Definition cardIdToHex (cardId : bytes) : result string :=
  let! b := bytes32 cardId "cardId" in Ok (bytesToHex b).

(** ** Lemmas *)
Section CardPdaLemmas.
Context `{K : PublicKeys, KS : !PublicKeysSpec K}.

Lemma resolve_ok p id : resolveCardPolicyProgramId p = Ok id → id = trim (default CARD_POLICY_PROGRAM_ID p).
Proof. unfold resolveCardPolicyProgramId. intros H. inv_ok H. done. Qed.

Lemma card_pda_ok seeds programId a :
  card_pda seeds programId = Ok a →
  ∃ ss id k b, seeds = map Ok ss ∧ resolveCardPolicyProgramId programId = Ok id ∧
    publicKey id = Ok k ∧ findProgramAddress ss k = Ok b ∧ a = toBase58 b.
Proof.
  unfold card_pda. intros H. inv_ok H. apply sequence_ok in E.
  apply find_pda_ok in H as (ss & k & b & Hss & Hk & Hb & ->).
  assert (a0 = ss) as ->.
  { revert Hss. clear. revert ss. induction a0; intros [|? ss]; simpl; try done.
    intros [= -> ?]. f_equal. auto. }
  exists ss, a1, k, b. done.
Qed.

Lemma card_pda_valid seeds p a : card_pda seeds p = Ok a → valid_address a.
Proof. unfold card_pda. intros H. inv_ok H. by eapply find_pda_valid. Qed.
End CardPdaLemmas.

(** ** The seeds of the card program never coincide *)

Inductive CardSeed : Type :=
| BindingSeed (owner cardId : bytes)
| PolicySeed (binding : bytes)
| PeriodSeed (binding : bytes)
| ReservationSeed (policy authIdHash : bytes)
| AuthGuardSeed (policy : bytes)
| IntentSeed (policy intentId : bytes)
| CommitmentSeed (binding : bytes)
| RepayAgentSeed (binding : bytes)
| BufferSeed (account : bytes).

Definition card_seed (s : CardSeed) : list bytes :=
  match s with
  | BindingSeed o c => [utf8 CARD_SEEDS.binding; o; c]
  | PolicySeed b => [utf8 CARD_SEEDS.policy; b]
  | PeriodSeed b => [utf8 CARD_SEEDS.period; b]
  | ReservationSeed p h => [utf8 CARD_SEEDS.reservation; p; h]
  | AuthGuardSeed p => [utf8 CARD_SEEDS.authGuard; p]
  | IntentSeed p i => [utf8 CARD_SEEDS.intent; p; i]
  | CommitmentSeed b => [utf8 CARD_SEEDS.commitment; b]
  | RepayAgentSeed b => [utf8 CARD_SEEDS.repayAgent; b]
  | BufferSeed a => [utf8 "buffer"; a]
  end.

Definition seed_wf (s : CardSeed) : Prop :=
  match s with
  | BindingSeed a b | ReservationSeed a b => length a = 32%nat ∧ length b = 32%nat
  | IntentSeed a b => length a = 32%nat ∧ length b = 16%nat
  | PolicySeed a | PeriodSeed a | AuthGuardSeed a | CommitmentSeed a | RepayAgentSeed a
  | BufferSeed a => length a = 32%nat
  end.

Lemma app_inj_length (a b c d : bytes) : length a = length b → a ++ c = b ++ d → a = b ∧ c = d.
Proof. intros L E. by apply app_inj_1. Qed.

(** The address search hashes the seeds as one byte string, and the card
      program's seeds stay apart even so: two well-formed seed lists with the
      same bytes are the same kind of address of the same accounts. *)
Theorem card_seed_unambiguous (s t : CardSeed) :
  seed_wf s → seed_wf t → concat (card_seed s) = concat (card_seed t) → s = t.
Proof.
  intros Hs Ht E. assert (L := f_equal length E).
  destruct s, t; simpl in Hs, Ht; destruct_and?;
    unfold card_seed in L; cbn [concat] in L; rewrite !length_app in L; simpl in L;
    try (exfalso; lia); cbn [card_seed concat] in E; rewrite !app_nil_r in E;
    (apply app_inj_length in E as [Et E]; [|done]); try (exfalso; vm_compute in Et; discriminate Et);
    try (apply app_inj_length in E as [-> ->]; [|congruence]); by subst.
Qed.

(** ** Hex card ids *)

Lemma hex_digit_lower n : 0 <= n < 16 →
  lower (hex_digit n) = hex_digit n ∧ is_space (hex_digit n) = false ∧ is_hex (hex_digit n) = true ∧
  hex_digit n ≠ "x"%char.
Proof.
  intros H. assert (n ∈ seqZ 0 16) as Hin by (apply elem_of_seqZ; lia).
  revert Hin. apply (proj1 (Forall_forall (λ n, lower (hex_digit n) = hex_digit n ∧
    is_space (hex_digit n) = false ∧ is_hex (hex_digit n) = true ∧ hex_digit n ≠ "x"%char) _)).
  repeat constructor; done.
Qed.

Definition plain (c : ascii) : Prop :=
  lower c = c ∧ is_space c = false ∧ is_hex c = true ∧ c ≠ "x"%char.

Lemma bytesToHex_plain bs : Forall plain (chars (bytesToHex bs)).
Proof.
  induction bs as [|b bs IH]; [constructor|]. cbn [bytesToHex chars String.list_ascii_of_string].
  pose proof (byte_val_range b).
  constructor; [|constructor; [|exact IH]]; apply hex_digit_lower.
  - split; [apply Z.div_pos; lia | apply Z.div_lt_upper_bound; lia].
  - apply Z.mod_pos_bound. lia.
Qed.

Lemma trim_plain s : Forall plain (chars s) → trim s = s.
Proof.
  intros H. unfold trim.
  assert (trim_start s = s) as ->.
  { destruct s as [|c s]; [done|]. apply Forall_cons in H as [(_ & Hc & _) _]. simpl. by rewrite Hc. }
  induction s as [|c s IH]; [done|]. apply Forall_cons in H as [(_ & Hc & _) H].
  simpl. rewrite IH by done. destruct s; [by rewrite Hc | done].
Qed.

Lemma bytesToHex_chars bs : length (chars (bytesToHex bs)) = (2 * length bs)%nat.
Proof. induction bs as [|b bs IH]; [done|]. simpl in *. unfold chars in *. lia. Qed.

(** A card id survives its hex form: [cardIdToHex] prints 64 lowercase hex
      digits for every 32-byte id and refuses any other length, and
      [cardIdFromHex] reads them back, also with white space around them. *)
Theorem cardId_hex_roundtrip (cardId : bytes) :
  length cardId = 32%nat →
  ∃ hex, cardIdToHex cardId = Ok hex ∧ length (chars hex) = 64%nat ∧ cardIdFromHex hex = Ok cardId ∧
    cardIdFromHex (String.String " " hex) = Ok cardId.
Proof.
  intros L. exists (bytesToHex cardId). pose proof (bytesToHex_plain cardId) as Hp.
  pose proof (bytesToHex_chars cardId) as Hl. rewrite L in Hl.
  assert (cardIdFromHex (bytesToHex cardId) = Ok cardId) as Hfrom.
  { unfold cardIdFromHex. rewrite trim_plain by done.
    assert (toLowerCase (bytesToHex cardId) = bytesToHex cardId) as ->.
    { unfold toLowerCase. rewrite (map_ext_in _ (λ c, c)), map_id, text_chars; [done|].
      intros c Hc. rewrite Forall_forall in Hp. apply list_elem_of_In, Hp in Hc as [? _]. done. }
    assert (strip_0x (bytesToHex cardId) = bytesToHex cardId) as ->.
    { destruct (bytesToHex cardId) as [|c0 [|c1 rest]]; [done | unfold chars in Hl; simpl in Hl; lia |].
      apply Forall_cons in Hp as [_ Hp]. apply Forall_cons in Hp as [(_ & _ & _ & Hx) _].
      unfold strip_0x. repeat case_match; try done. }
    rewrite Hl. simpl.
    assert (forallb is_hex (chars (bytesToHex cardId)) = true) as ->.
    { apply forallb_forall. intros c Hc. rewrite Forall_forall in Hp.
      apply list_elem_of_In, Hp in Hc as (_ & _ & ? & _). done. }
    by rewrite hex_pairs_bytesToHex. }
  unfold cardIdToHex. rewrite bytes32_valid by done. cbn [bind]. split_and!; try done.
Qed.

Lemma card_seed_unambiguous_witness :
  PolicySeed (sample_key 1) = PolicySeed (sample_key 1).
Proof.
  exact (card_seed_unambiguous (PolicySeed (sample_key 1)) (PolicySeed (sample_key 1))
    (le_bytes_length 32 1) (le_bytes_length 32 1) eq_refl).
Defined.

Lemma cardId_hex_roundtrip_witness :
  ∃ hex, cardIdToHex (sample_key 7) = Ok hex ∧ cardIdFromHex hex = Ok (sample_key 7).
Proof.
  destruct (cardId_hex_roundtrip (sample_key 7) (le_bytes_length 32 7)) as (hex & H1 & _ & H2 & _).
  exact (ex_intro _ hex (conj H1 H2)).
Defined.
