(* ===== verification/Utf8.v ===== *)
(** * UTF-8 and form texts

    [TextEncoder], the decoder behind [TextDecoder] and [URLSearchParams] (the
    WHATWG state machine: on a malformed sequence it emits one error and reads
    the offending byte again), the reading of one form parameter, and
    [encodeURIComponent], which a form parameter undoes.  Characters of the model
    end at U+00FF: [narrow_char] stands for every later one. *)
From Stdlib Require Import ZArith Lia Strings.Byte Strings.Ascii.
From stdpp Require Import base numbers strings list.
From S2P Require Import Prelude Bytes PublicKey Decimal Base64 CardPda.

(** [new TextEncoder().encode(s)] *)
Definition text_encode (s : string) : bytes :=
  concat (map (λ c, let n := char_code c in
    if n <? 128 then [byte_of n] else [byte_of (192 + n / 64); byte_of (128 + n mod 64)]) (chars s)).

(** ** Decoding *)

(** The decoder: [needed] continuation bytes are missing from the code point
    [cp], the next of them is in [lo..hi].  [None] is a malformed sequence. *)
Fixpoint decode_points (needed : nat) (cp lo hi : Z) (bs : bytes) : list (option Z) :=
  match bs with
  | [] => match needed with O => [] | S _ => [None] end
  | byte :: bs =>
      let b := byte_val byte in
      let start :=
        if b <? 128 then Some b :: decode_points 0 0 128 191 bs
        else if (194 <=? b) && (b <=? 223) then decode_points 1 (b - 192) 128 191 bs
        else if (224 <=? b) && (b <=? 239) then
          decode_points 2 (b - 224) (if b =? 224 then 160 else 128) (if b =? 237 then 159 else 191) bs
        else if (240 <=? b) && (b <=? 244) then
          decode_points 3 (b - 240) (if b =? 240 then 144 else 128) (if b =? 244 then 143 else 191) bs
        else None :: decode_points 0 0 128 191 bs in
      match needed with
      | O => start
      | S n =>
          if (lo <=? b) && (b <=? hi) then
            let cp := cp * 64 + (b - 128) in
            match n with
            | O => Some cp :: decode_points 0 0 128 191 bs
            | S _ => decode_points n cp 128 191 bs
            end
          else None :: start
      end
  end.

(** A character past U+00FF, as U+FFFD of a malformed sequence is: U+001A stands
    for all of them, which no pattern or key of the code contains. *)
Definition narrow_char (cp : Z) : ascii := if cp <? 256 then code_char cp else code_char 26.

Definition drop_bom (points : list (option Z)) : list (option Z) :=
  match points with
  | Some cp :: rest => if cp =? 65279 then rest else points
  | _ => points
  end.

(** [new TextDecoder("utf-8", { fatal: true }).decode(bytes)] *)
Definition utf8_decode (bs : bytes) : option string :=
  cps ← mapM (λ p : option Z, p) (drop_bom (decode_points 0 0 128 191 bs));
  Some (text (map narrow_char cps)).

(** The decoder that replaces what is malformed and keeps a byte order mark *)
Definition utf8_lossy (bs : bytes) : list ascii :=
  map (λ p, narrow_char (default 65533 p)) (decode_points 0 0 128 191 bs).

(** ** Form parameters *)

Definition hex_pair (a b : ascii) : option byte :=
  match hex_value (lower a), hex_value (lower b) with
  | Some x, Some y => Some (byte_of (16 * x + y))
  | _, _ => None
  end.

(** Percent-decoding, after ["+"] has become a space *)
Fixpoint percent_decode (cs : list ascii) : bytes :=
  match cs with
  | "%"%char :: ((a :: b :: rest) as after) =>
      match hex_pair a b with
      | Some byte => byte :: percent_decode rest
      | None => byte_of 37 :: percent_decode after
      end
  | "+"%char :: rest => byte_of 32 :: percent_decode rest
  | c :: rest => text_encode (text [c]) ++ percent_decode rest
  | [] => []
  end.

Fixpoint split_char (sep : ascii) (cs : list ascii) : list (list ascii) :=
  match cs with
  | [] => [[]]
  | c :: cs =>
      if bool_decide (c = sep) then [] :: split_char sep cs
      else match split_char sep cs with part :: parts => (c :: part) :: parts | [] => [[c]] end
  end.

(** What precedes the first [sep], and the rest from there *)
Fixpoint break_at (sep : ascii) (cs : list ascii) : list ascii * list ascii :=
  match cs with
  | [] => ([], [])
  | c :: rest =>
      if bool_decide (c = sep) then ([], cs) else let '(a, b) := break_at sep rest in (c :: a, b)
  end.

(** The name and the value of one [name=value] *)
Definition form_pair (cs : list ascii) : list ascii * list ascii :=
  let '(name, rest) := break_at "="%char cs in
  (utf8_lossy (percent_decode name), utf8_lossy (percent_decode (tail rest))).

(** [new URLSearchParams(query).get(key)] *)
Definition search_param (query key : string) : option string :=
  let cs := match chars query with "?"%char :: rest => rest | cs => cs end in
  let pairs := map form_pair (filter (λ part, part ≠ []) (split_char "&"%char cs)) in
  text ∘ snd <$> find (λ p, bool_decide (p.1 = chars key)) pairs.

(** ** What was encoded is decoded *)

Lemma char_code_range c : 0 <= char_code c < 256.
Proof. unfold char_code. pose proof (N_ascii_bounded c). lia. Qed.

Lemma code_char_code c : code_char (char_code c) = c.
Proof. unfold code_char, char_code. by rewrite N2Z.id, ascii_N_embedding. Qed.

Lemma char_code_inj c d : char_code c = char_code d → c = d.
Proof. intros E. by rewrite <- (code_char_code c), E, code_char_code. Qed.

Lemma decode_char c bs :
  decode_points 0 0 128 191 (text_encode (text [c]) ++ bs) = Some (char_code c) :: decode_points 0 0 128 191 bs.
Proof.
  pose proof (char_code_range c) as Hr. unfold text_encode. cbn [text String.string_of_list_ascii].
  unfold chars. cbn [String.list_ascii_of_string map concat]. rewrite app_nil_r. cbv zeta.
  destruct (char_code c <? 128) eqn:E; bool_reflect; cbn [app].
  - cbn [decode_points]. rewrite byte_of_small by lia. rewrite (proj2 (Z.ltb_lt _ _) E). done.
  - pose proof (Z.mod_pos_bound (char_code c) 64 ltac:(lia)). pose proof (Z.div_mod (char_code c) 64 ltac:(lia)).
    assert (2 <= char_code c / 64 < 4) by (split; [apply Z.div_le_lower_bound|apply Z.div_lt_upper_bound]; lia).
    cbn [decode_points]. rewrite !byte_of_small by lia. case_tests; bool_reflect; try lia.
    do 2 f_equal. lia.
Qed.

Lemma text_encode_cons c cs : text_encode (text (c :: cs)) = text_encode (text [c]) ++ text_encode (text cs).
Proof. unfold text_encode. rewrite !chars_text. cbn [map concat]. by rewrite app_nil_r. Qed.

Lemma decode_text_encode cs : decode_points 0 0 128 191 (text_encode (text cs)) = map (Some ∘ char_code) cs.
Proof.
  induction cs as [|c cs IH]; [done|]. rewrite text_encode_cons, decode_char, IH. done.
Qed.

Lemma narrow_codes cs : map narrow_char (map char_code cs) = cs.
Proof.
  induction cs as [|c cs IH]; [done|]. cbn [map]. rewrite IH. f_equal. unfold narrow_char.
  pose proof (char_code_range c). rewrite (proj2 (Z.ltb_lt _ _)) by lia. apply code_char_code.
Qed.

(** Every text is the decoding of its UTF-8 form. *)
Lemma utf8_roundtrip s : utf8_decode (text_encode s) = Some s.
Proof.
  unfold utf8_decode. rewrite <- (text_chars s) at 1. rewrite decode_text_encode.
  assert (drop_bom (map (Some ∘ char_code) (chars s)) = map (Some ∘ char_code) (chars s)) as ->.
  { destruct (chars s) as [|c cs]; [done|]. cbn [map drop_bom compose]. pose proof (char_code_range c).
    rewrite (proj2 (Z.eqb_neq _ _)) by lia. done. }
  assert (mapM (λ p : option Z, p) (map (Some ∘ char_code) (chars s)) = Some (map char_code (chars s))) as ->.
  { generalize (chars s). intros cs. induction cs as [|c cs IH]; [done|]. simpl. by rewrite IH. }
  simpl. by rewrite narrow_codes, text_chars.
Qed.

Lemma text_encode_inj s t : text_encode s = text_encode t → s = t.
Proof. intros E%(f_equal utf8_decode). rewrite !utf8_roundtrip in E. by injection E. Qed.

(** ** Parameters of URL characters *)

Lemma percent_decode_url cs : forallb is_url_char cs = true → percent_decode cs = text_encode (text cs).
Proof.
  induction cs as [|c cs IH]; [done|]. cbn [forallb]. intros [Hc Hcs]%andb_true_iff.
  rewrite text_encode_cons, <- IH by done.
  destruct c as [[] [] [] [] [] [] [] []]; vm_compute in Hc; done.
Qed.

Lemma utf8_lossy_encoded cs : utf8_lossy (text_encode (text cs)) = cs.
Proof.
  unfold utf8_lossy. rewrite decode_text_encode, map_map. etransitivity; [|apply narrow_codes]. by rewrite map_map.
Qed.

Lemma split_char_free sep cs : Forall (λ c, c ≠ sep) cs → split_char sep cs = [cs].
Proof.
  induction 1 as [|c cs Hc _ IH]; [done|]. cbn [split_char]. by rewrite bool_decide_eq_false_2, IH.
Qed.

Lemma break_at_sep sep a b : Forall (λ c, c ≠ sep) a → break_at sep (a ++ sep :: b) = (a, sep :: b).
Proof.
  induction 1 as [|c a Hc _ IH]; cbn [app break_at]; [by rewrite bool_decide_eq_true_2|].
  by rewrite bool_decide_eq_false_2, IH.
Qed.

Lemma url_char_not c (d : ascii) : is_url_char c = true → is_url_char d = false → c ≠ d.
Proof. by intros H1 H2 ->; rewrite H1 in H2. Qed.

Lemma url_chars_not cs (d : ascii) : forallb is_url_char cs = true → is_url_char d = false → Forall (λ c, c ≠ d) cs.
Proof.
  intros H Hd. apply Forall_forall. intros c Hc. eapply url_char_not; [|done].
  rewrite forallb_forall in H. apply H. by apply list_elem_of_In.
Qed.

(** [key=value] of URL characters holds [value] under [key]. *)
Lemma search_param_single key value :
  forallb is_url_char (chars key) = true → forallb is_url_char (chars value) = true →
  search_param (text (chars key ++ "="%char :: chars value)) key = Some value.
Proof.
  intros Hk Hv. unfold search_param. rewrite chars_text.
  assert (∀ d, is_url_char d = false → d ≠ "="%char → Forall (λ c, c ≠ d) (chars key ++ "="%char :: chars value)) as Hfree.
  { intros d Hd Hne. apply Forall_app. split; [by apply url_chars_not|]. constructor; [congruence|by apply url_chars_not]. }
  assert (match chars key ++ "="%char :: chars value with "?"%char :: rest => rest | cs => cs end
    = chars key ++ "="%char :: chars value) as ->.
  { destruct (chars key ++ "="%char :: chars value) as [|c cs] eqn:E; [done|].
    assert (c ≠ "?"%char) as Hc. { eapply Forall_cons in Hfree as [? ?]; done || (specialize (Hfree "?"%char eq_refl ltac:(done)); rewrite E in Hfree; by apply Forall_cons in Hfree as [? _]). }
    destruct c as [[] [] [] [] [] [] [] []]; done. }
  rewrite split_char_free by (by apply Hfree). rewrite filter_cons_True by (by destruct (chars key)). cbn [filter map].
  rewrite filter_nil. cbn [map find]. unfold form_pair.
  rewrite break_at_sep by (by apply url_chars_not).
  cbn [tail fst snd]. rewrite !percent_decode_url, !utf8_lossy_encoded by done.
  rewrite bool_decide_eq_true_2 by done. cbn. by rewrite text_chars.
Qed.

(** ** URI components: [encodeURIComponent], for characters up to U+00FF *)

(** The characters that stay: letters, digits and [-_.!~*'()] *)
Definition uri_unreserved (c : ascii) : bool :=
  is_url_char c || bool_decide (c ∈ ["."; "!"; "~"; "*"; "'"; "("; ")"]%char).

Definition upper_hex (n : Z) : ascii :=
  let c := hex_digit n in if (97 <=? char_code c) && (char_code c <=? 102) then code_char (char_code c - 32) else c.

Definition percent_byte (b : byte) : list ascii :=
  ["%"%char; upper_hex (byte_val b / 16); upper_hex (byte_val b mod 16)].

Definition encode_char (c : ascii) : list ascii :=
  if uri_unreserved c then [c] else concat (map percent_byte (text_encode (text [c]))).

Definition encodeURIComponent (s : string) : string := text (concat (map encode_char (chars s))).

(** [s.replace(/\/$/, "")] *)
Definition without_slash (s : string) : string :=
  match reverse (chars s) with "/"%char :: rest => text (reverse rest) | _ => s end.

Lemma percent_decode_char c rest : percent_decode (encode_char c ++ rest) = text_encode (text [c]) ++ percent_decode rest.
Proof. destruct c as [[] [] [] [] [] [] [] []]; reflexivity. Qed.

Lemma percent_decode_encoded s : percent_decode (chars (encodeURIComponent s)) = text_encode s.
Proof.
  unfold encodeURIComponent. rewrite chars_text. rewrite <- (text_chars s) at 2. generalize (chars s). intros cs. induction cs as [|c cs IH]; [done|].
  cbn [map concat]. rewrite percent_decode_char, IH, <- text_encode_cons. done.
Qed.

(** What reads the component again gets the text. *)
Lemma encodeURIComponent_roundtrip s : text (utf8_lossy (percent_decode (chars (encodeURIComponent s)))) = s.
Proof. rewrite percent_decode_encoded, <- (text_chars s), utf8_lossy_encoded. done. Qed.

Lemma encodeURIComponent_inj s t : encodeURIComponent s = encodeURIComponent t → s = t.
Proof. intros E. by rewrite <- (encodeURIComponent_roundtrip s), E, encodeURIComponent_roundtrip. Qed.
