(* ===== verification/CardInstructions.v ===== *)
(** * Card instructions (sdk/src/cards/instructions.ts)

    The argument codec of every card-program instruction, the round trip that
    makes a decoded instruction the one that was signed, the client-side policy
    checks, and the browser builders with what each of them asks to be signed. *)
From Stdlib Require Import ZArith Lia Strings.Byte Strings.Ascii.
From stdpp Require Import base numbers strings pretty list.
From S2P Require Import Prelude Bytes PublicKey Types Encoding Pda Borsh CardConstants CardAccounts CardPda.
Import BorshReader(reader, ret, rbind, throw_when, u8, u16, u32, u64, i64, fixed, pubkey, remaining, repeat_from).

Module PolicyArgs.
Record t : Type := mk {
  budgetCents : Z;
  maxPurchaseCents : Z;
  maxPurchasesPerPeriod : number;
  periodSeconds : number;
  currency : string;
  merchantIdHashes : list bytes;
  mccs : list number;
  expiresAt : Z;
  recurringAllowed : bool;
  feeBps : number;
  authorizer : Address;
}.
End PolicyArgs.

Module RestoreArgs.
Record t : Type := mk {
  policy : PolicyArgs.t;
  periodIndex : number;
  capturedCents : Z;
  reservedCents : Z;
  refundedCents : Z;
  purchasesCount : number;
  exceptionCents : Z;
  statementOutstandingCents : Z;
  ledgerHead : bytes;
  ledgerSeq : Z;
  reconDigest : bytes;
}.
End RestoreArgs.

Inductive PermissionOp : Type :=
| add_reader (pubkey : Address)
| remove_reader (pubkey : Address).

(** [CardPolicyInstructionName], in the order of the discriminator table. *)
Module Name.
Inductive t : Type :=
| initCard | delegateCard | initPermission | updatePermission | syncPermission | setPolicy
| openCheckoutIntent | cancelCheckoutIntent | closeCheckoutIntent | authorize | adjustReservation
| capture | reverse | refund | recordDispute | recordException | resolveException | rollPeriod
| freeze | unfreeze | recoveryFreeze | restore | confirmReconciled | checkpoint | writeCommitment
| wipeCard | closeCard | recordRepayment | closeReservation | repayStatement
| recordPrivateRepayment.

#[export] Instance eq_dec : EqDecision t.
Proof. solve_decision. Defined.

(** [Object.keys(CARD_POLICY_DISCRIMINATORS)] *)
Definition all : list t :=
  [initCard; delegateCard; initPermission; updatePermission; syncPermission; setPolicy;
   openCheckoutIntent; cancelCheckoutIntent; closeCheckoutIntent; authorize; adjustReservation;
   capture; reverse; refund; recordDispute; recordException; resolveException; rollPeriod;
   freeze; unfreeze; recoveryFreeze; restore; confirmReconciled; checkpoint; writeCommitment;
   wipeCard; closeCard; recordRepayment; closeReservation; repayStatement; recordPrivateRepayment].

Definition to_string (n : t) : string :=
  match n with
  | initCard => "initCard" | delegateCard => "delegateCard" | initPermission => "initPermission"
  | updatePermission => "updatePermission" | syncPermission => "syncPermission"
  | setPolicy => "setPolicy" | openCheckoutIntent => "openCheckoutIntent"
  | cancelCheckoutIntent => "cancelCheckoutIntent" | closeCheckoutIntent => "closeCheckoutIntent"
  | authorize => "authorize" | adjustReservation => "adjustReservation" | capture => "capture"
  | reverse => "reverse" | refund => "refund" | recordDispute => "recordDispute"
  | recordException => "recordException" | resolveException => "resolveException"
  | rollPeriod => "rollPeriod" | freeze => "freeze" | unfreeze => "unfreeze"
  | recoveryFreeze => "recoveryFreeze" | restore => "restore"
  | confirmReconciled => "confirmReconciled" | checkpoint => "checkpoint"
  | writeCommitment => "writeCommitment" | wipeCard => "wipeCard" | closeCard => "closeCard"
  | recordRepayment => "recordRepayment" | closeReservation => "closeReservation"
  | repayStatement => "repayStatement" | recordPrivateRepayment => "recordPrivateRepayment"
  end.

Definition discriminator (n : t) : bytes :=
  match n with
  | initCard => CARD_POLICY_DISCRIMINATORS.initCard
  | delegateCard => CARD_POLICY_DISCRIMINATORS.delegateCard
  | initPermission => CARD_POLICY_DISCRIMINATORS.initPermission
  | updatePermission => CARD_POLICY_DISCRIMINATORS.updatePermission
  | syncPermission => CARD_POLICY_DISCRIMINATORS.syncPermission
  | setPolicy => CARD_POLICY_DISCRIMINATORS.setPolicy
  | openCheckoutIntent => CARD_POLICY_DISCRIMINATORS.openCheckoutIntent
  | cancelCheckoutIntent => CARD_POLICY_DISCRIMINATORS.cancelCheckoutIntent
  | closeCheckoutIntent => CARD_POLICY_DISCRIMINATORS.closeCheckoutIntent
  | authorize => CARD_POLICY_DISCRIMINATORS.authorize
  | adjustReservation => CARD_POLICY_DISCRIMINATORS.adjustReservation
  | capture => CARD_POLICY_DISCRIMINATORS.capture
  | reverse => CARD_POLICY_DISCRIMINATORS.reverse
  | refund => CARD_POLICY_DISCRIMINATORS.refund
  | recordDispute => CARD_POLICY_DISCRIMINATORS.recordDispute
  | recordException => CARD_POLICY_DISCRIMINATORS.recordException
  | resolveException => CARD_POLICY_DISCRIMINATORS.resolveException
  | rollPeriod => CARD_POLICY_DISCRIMINATORS.rollPeriod
  | freeze => CARD_POLICY_DISCRIMINATORS.freeze
  | unfreeze => CARD_POLICY_DISCRIMINATORS.unfreeze
  | recoveryFreeze => CARD_POLICY_DISCRIMINATORS.recoveryFreeze
  | restore => CARD_POLICY_DISCRIMINATORS.restore
  | confirmReconciled => CARD_POLICY_DISCRIMINATORS.confirmReconciled
  | checkpoint => CARD_POLICY_DISCRIMINATORS.checkpoint
  | writeCommitment => CARD_POLICY_DISCRIMINATORS.writeCommitment
  | wipeCard => CARD_POLICY_DISCRIMINATORS.wipeCard
  | closeCard => CARD_POLICY_DISCRIMINATORS.closeCard
  | recordRepayment => CARD_POLICY_DISCRIMINATORS.recordRepayment
  | closeReservation => CARD_POLICY_DISCRIMINATORS.closeReservation
  | repayStatement => CARD_POLICY_DISCRIMINATORS.repayStatement
  | recordPrivateRepayment => CARD_POLICY_DISCRIMINATORS.recordPrivateRepayment
  end.
End Name.
Export (hints) Name.

(** [DecodedCardInstruction]: a name with its arguments. *)
Module CardInstruction.
Inductive t : Type :=
| initCard (cardId : bytes) (issuer : number) (issuerCardRefHash : bytes) (prefundLamports : Z)
| delegateCard (validator : Address)
| initPermission (authorizer : Address)
| updatePermission (op : PermissionOp)
| syncPermission
| setPolicy (policy : PolicyArgs.t)
| openCheckoutIntent (intentId : bytes) (agent : Address) (merchantIdHash : bytes) (mcc : number)
    (maxAmountCents : Z) (currency : string) (expiresAt : Z)
| cancelCheckoutIntent
| closeCheckoutIntent
| authorize (authIdHash intentId : bytes) (amountCents : Z) (currency : string)
    (merchantIdHash : bytes) (mcc : number) (merchantInitiated singleMessage : bool)
| adjustReservation (newAmountCents : Z)
| capture (amountCents : Z) (captureIdHash : bytes)
| reverse (amountCents : Z) (reason : number) (eventIdHash : bytes)
| refund (amountCents : Z) (eventIdHash : bytes)
| recordDispute (state : number) (eventIdHash : bytes)
| recordException (kind : number) (amountCents : Z) (eventIdHash : bytes)
| resolveException (eventIdHash : bytes) (resolution : number)
| rollPeriod
| freeze (reason : number)
| unfreeze
| recoveryFreeze (reason : number)
| restore (restore : RestoreArgs.t)
| confirmReconciled (reconDigest : bytes)
| checkpoint (masterSalt : bytes) (seq : Z)
| writeCommitment (root : bytes) (seq : Z) (policyVersion periodIndex : number)
| wipeCard
| closeCard
| recordRepayment (statementDigest : bytes) (amountCents : Z)
| closeReservation
| repayStatement (statementDigest : bytes) (amount : Z)
| recordPrivateRepayment (statementDigest : bytes) (amountCents : Z).

Definition name (i : t) : Name.t :=
  match i with
  | initCard _ _ _ _ => Name.initCard | delegateCard _ => Name.delegateCard
  | initPermission _ => Name.initPermission | updatePermission _ => Name.updatePermission
  | syncPermission => Name.syncPermission | setPolicy _ => Name.setPolicy
  | openCheckoutIntent _ _ _ _ _ _ _ => Name.openCheckoutIntent
  | cancelCheckoutIntent => Name.cancelCheckoutIntent
  | closeCheckoutIntent => Name.closeCheckoutIntent
  | authorize _ _ _ _ _ _ _ _ => Name.authorize | adjustReservation _ => Name.adjustReservation
  | capture _ _ => Name.capture | reverse _ _ _ => Name.reverse | refund _ _ => Name.refund
  | recordDispute _ _ => Name.recordDispute | recordException _ _ _ => Name.recordException
  | resolveException _ _ => Name.resolveException | rollPeriod => Name.rollPeriod
  | freeze _ => Name.freeze | unfreeze => Name.unfreeze | recoveryFreeze _ => Name.recoveryFreeze
  | restore _ => Name.restore | confirmReconciled _ => Name.confirmReconciled
  | checkpoint _ _ => Name.checkpoint | writeCommitment _ _ _ _ => Name.writeCommitment
  | wipeCard => Name.wipeCard | closeCard => Name.closeCard
  | recordRepayment _ _ => Name.recordRepayment | closeReservation => Name.closeReservation
  | repayStatement _ _ => Name.repayStatement
  | recordPrivateRepayment _ _ => Name.recordPrivateRepayment
  end.
End CardInstruction.

(** [if (cond) throw new Error(message)] between writes *)
Definition check_op (cond : bool) (message : string) : BorshWriter.op :=
  λ w, throw_if! cond with message; Ok w.

Section Codecs.
Context `{K : PublicKeys}.

Definition writePolicy (p : PolicyArgs.t) : list BorshWriter.op :=
  [check_op (Nat.ltb MAX_MERCHANTS (length p.(PolicyArgs.merchantIdHashes))) "At most 8 merchants";
   check_op (Nat.ltb MAX_MCCS (length p.(PolicyArgs.mccs))) "At most 16 MCCs";
   BorshWriter.u64 p.(PolicyArgs.budgetCents) "budgetCents";
   BorshWriter.u64 p.(PolicyArgs.maxPurchaseCents) "maxPurchaseCents";
   BorshWriter.u16 p.(PolicyArgs.maxPurchasesPerPeriod) "maxPurchasesPerPeriod";
   BorshWriter.u32 p.(PolicyArgs.periodSeconds) "periodSeconds";
   BorshWriter.with_arg (currencyBytes p.(PolicyArgs.currency))
     (λ b, BorshWriter.fixed b 3 "currency");
   BorshWriter.u32 (JInt (Z.of_nat (length p.(PolicyArgs.merchantIdHashes)))) "u32"]
  ++ imap (λ i hash, BorshWriter.fixed hash 32 (indexed "merchantIdHashes" i))
       p.(PolicyArgs.merchantIdHashes)
  ++ [BorshWriter.u32 (JInt (Z.of_nat (length p.(PolicyArgs.mccs)))) "u32"]
  ++ imap (λ i mcc, BorshWriter.u16 mcc (indexed "mccs" i)) p.(PolicyArgs.mccs)
  ++ [BorshWriter.i64 p.(PolicyArgs.expiresAt) "expiresAt";
   BorshWriter.bool p.(PolicyArgs.recurringAllowed);
   BorshWriter.u16 p.(PolicyArgs.feeBps) "feeBps";
   BorshWriter.pubkey p.(PolicyArgs.authorizer)].

Definition readVecLength (max : nat) (name : string) : reader nat :=
  read! length := u32 (name +:+ ".length") in
  throw_when (num_gtb length (Z.of_nat max))
    (name +:+ " exceeds " +:+ pretty (Z.of_nat max) +:+ " entries")
    (ret (count_of length)).

Definition readPolicy : reader PolicyArgs.t :=
  read! budgetCents := u64 "budgetCents" in
  read! maxPurchaseCents := u64 "maxPurchaseCents" in
  read! maxPurchasesPerPeriod := u16 "maxPurchasesPerPeriod" in
  read! periodSeconds := u32 "periodSeconds" in
  read! currency := rbind (fixed 3 "currency") (λ b, ret (fromCharCode b)) in
  read! merchants := readVecLength MAX_MERCHANTS "merchantIdHashes" in
  read! merchantIdHashes := repeat_from 0 merchants (λ i, fixed 32 (indexed "merchantIdHashes" i)) in
  read! mcc_count := readVecLength MAX_MCCS "mccs" in
  read! mccs := repeat_from 0 mcc_count (λ i, u16 (indexed "mccs" i)) in
  read! expiresAt := i64 "expiresAt" in
  read! recurringAllowed := BorshReader.bool "recurringAllowed" in
  read! feeBps := u16 "feeBps" in
  read! authorizer := pubkey "authorizer" in
  ret (PolicyArgs.mk budgetCents maxPurchaseCents maxPurchasesPerPeriod periodSeconds currency
    merchantIdHashes mccs expiresAt recurringAllowed feeBps authorizer).

(** [CODECS[name].encode] *)
Definition encode_args (i : CardInstruction.t) : list BorshWriter.op :=
  match i with
  | CardInstruction.initCard cardId issuer ref prefund =>
      [BorshWriter.fixed cardId 32 "cardId"; BorshWriter.u8 issuer "issuer";
       BorshWriter.fixed ref 32 "issuerCardRefHash"; BorshWriter.u64 prefund "prefundLamports"]
  | CardInstruction.delegateCard validator => [BorshWriter.pubkey validator]
  | CardInstruction.initPermission authorizer => [BorshWriter.pubkey authorizer]
  | CardInstruction.updatePermission (add_reader k) =>
      [BorshWriter.u8 (JInt 0) "u8"; BorshWriter.pubkey k]
  | CardInstruction.updatePermission (remove_reader k) =>
      [BorshWriter.u8 (JInt 1) "u8"; BorshWriter.pubkey k]
  | CardInstruction.setPolicy policy => writePolicy policy
  | CardInstruction.openCheckoutIntent intentId agent merchant mcc max currency expiresAt =>
      [BorshWriter.fixed intentId 16 "intentId"; BorshWriter.pubkey agent;
       BorshWriter.fixed merchant 32 "merchantIdHash"; BorshWriter.u16 mcc "mcc";
       BorshWriter.u64 max "maxAmountCents";
       BorshWriter.with_arg (currencyBytes currency) (λ b, BorshWriter.fixed b 3 "currency");
       BorshWriter.i64 expiresAt "expiresAt"]
  | CardInstruction.authorize authIdHash intentId amount currency merchant mcc initiated single =>
      [BorshWriter.fixed authIdHash 32 "authIdHash"; BorshWriter.fixed intentId 16 "intentId";
       BorshWriter.u64 amount "amountCents";
       BorshWriter.with_arg (currencyBytes currency) (λ b, BorshWriter.fixed b 3 "currency");
       BorshWriter.fixed merchant 32 "merchantIdHash"; BorshWriter.u16 mcc "mcc";
       BorshWriter.bool initiated; BorshWriter.bool single]
  | CardInstruction.adjustReservation amount => [BorshWriter.u64 amount "newAmountCents"]
  | CardInstruction.capture amount h =>
      [BorshWriter.u64 amount "amountCents"; BorshWriter.fixed h 32 "captureIdHash"]
  | CardInstruction.reverse amount reason h =>
      [BorshWriter.u64 amount "amountCents"; BorshWriter.u8 reason "reason";
       BorshWriter.fixed h 32 "eventIdHash"]
  | CardInstruction.refund amount h =>
      [BorshWriter.u64 amount "amountCents"; BorshWriter.fixed h 32 "eventIdHash"]
  | CardInstruction.recordDispute state h =>
      [BorshWriter.u8 state "state"; BorshWriter.fixed h 32 "eventIdHash"]
  | CardInstruction.recordException kind amount h =>
      [BorshWriter.u8 kind "kind"; BorshWriter.u64 amount "amountCents";
       BorshWriter.fixed h 32 "eventIdHash"]
  | CardInstruction.resolveException h resolution =>
      [BorshWriter.fixed h 32 "eventIdHash"; BorshWriter.u8 resolution "resolution"]
  | CardInstruction.freeze reason => [BorshWriter.u8 reason "reason"]
  | CardInstruction.recoveryFreeze reason => [BorshWriter.u8 reason "reason"]
  | CardInstruction.restore s =>
      writePolicy s.(RestoreArgs.policy) ++
      [BorshWriter.u32 s.(RestoreArgs.periodIndex) "periodIndex";
       BorshWriter.u64 s.(RestoreArgs.capturedCents) "capturedCents";
       BorshWriter.u64 s.(RestoreArgs.reservedCents) "reservedCents";
       BorshWriter.u64 s.(RestoreArgs.refundedCents) "refundedCents";
       BorshWriter.u16 s.(RestoreArgs.purchasesCount) "purchasesCount";
       BorshWriter.u64 s.(RestoreArgs.exceptionCents) "exceptionCents";
       BorshWriter.u64 s.(RestoreArgs.statementOutstandingCents) "statementOutstandingCents";
       BorshWriter.fixed s.(RestoreArgs.ledgerHead) 32 "ledgerHead";
       BorshWriter.u64 s.(RestoreArgs.ledgerSeq) "ledgerSeq";
       BorshWriter.fixed s.(RestoreArgs.reconDigest) 32 "reconDigest"]
  | CardInstruction.confirmReconciled d => [BorshWriter.fixed d 32 "reconDigest"]
  | CardInstruction.checkpoint salt seq =>
      [BorshWriter.fixed salt 32 "masterSalt"; BorshWriter.u64 seq "seq"]
  | CardInstruction.writeCommitment root seq policyVersion periodIndex =>
      [BorshWriter.fixed root 32 "root"; BorshWriter.u64 seq "seq";
       BorshWriter.u32 policyVersion "policyVersion"; BorshWriter.u32 periodIndex "periodIndex"]
  | CardInstruction.recordRepayment d amount =>
      [BorshWriter.fixed d 32 "statementDigest"; BorshWriter.u64 amount "amountCents"]
  | CardInstruction.repayStatement d amount =>
      [BorshWriter.fixed d 32 "statementDigest"; BorshWriter.u64 amount "amount"]
  | CardInstruction.recordPrivateRepayment d amount =>
      [BorshWriter.fixed d 32 "statementDigest"; BorshWriter.u64 amount "amountCents"]
  | CardInstruction.syncPermission | CardInstruction.cancelCheckoutIntent
  | CardInstruction.closeCheckoutIntent | CardInstruction.rollPeriod | CardInstruction.unfreeze
  | CardInstruction.wipeCard | CardInstruction.closeCard | CardInstruction.closeReservation => []
  end.

(** [CODECS[name].decode] *)
Definition decode_args (n : Name.t) : reader CardInstruction.t :=
  match n with
  | Name.initCard =>
      read! cardId := fixed 32 "cardId" in
      read! issuer := u8 "issuer" in
      read! ref := fixed 32 "issuerCardRefHash" in
      read! prefund := u64 "prefundLamports" in
      ret (CardInstruction.initCard cardId issuer ref prefund)
  | Name.delegateCard =>
      read! validator := pubkey "validator" in ret (CardInstruction.delegateCard validator)
  | Name.initPermission =>
      read! authorizer := pubkey "authorizer" in ret (CardInstruction.initPermission authorizer)
  | Name.updatePermission =>
      read! tag := u8 "op" in
      throw_when (num_gtb tag 1) ("Unknown permission op " +:+ pretty (bigint_of tag)) (
      read! k := pubkey "op.pubkey" in
      ret (CardInstruction.updatePermission
        (if bool_decide (tag = JInt 0) then add_reader k else remove_reader k)))
  | Name.syncPermission => ret CardInstruction.syncPermission
  | Name.setPolicy => read! policy := readPolicy in ret (CardInstruction.setPolicy policy)
  | Name.openCheckoutIntent =>
      read! intentId := fixed 16 "intentId" in
      read! agent := pubkey "agent" in
      read! merchant := fixed 32 "merchantIdHash" in
      read! mcc := u16 "mcc" in
      read! max := u64 "maxAmountCents" in
      read! currency := rbind (fixed 3 "currency") (λ b, ret (fromCharCode b)) in
      read! expiresAt := i64 "expiresAt" in
      ret (CardInstruction.openCheckoutIntent intentId agent merchant mcc max currency expiresAt)
  | Name.cancelCheckoutIntent => ret CardInstruction.cancelCheckoutIntent
  | Name.closeCheckoutIntent => ret CardInstruction.closeCheckoutIntent
  | Name.authorize =>
      read! authIdHash := fixed 32 "authIdHash" in
      read! intentId := fixed 16 "intentId" in
      read! amount := u64 "amountCents" in
      read! currency := rbind (fixed 3 "currency") (λ b, ret (fromCharCode b)) in
      read! merchant := fixed 32 "merchantIdHash" in
      read! mcc := u16 "mcc" in
      read! initiated := BorshReader.bool "merchantInitiated" in
      read! single := BorshReader.bool "singleMessage" in
      ret (CardInstruction.authorize authIdHash intentId amount currency merchant mcc initiated single)
  | Name.adjustReservation =>
      read! amount := u64 "newAmountCents" in ret (CardInstruction.adjustReservation amount)
  | Name.capture =>
      read! amount := u64 "amountCents" in
      read! h := fixed 32 "captureIdHash" in
      ret (CardInstruction.capture amount h)
  | Name.reverse =>
      read! amount := u64 "amountCents" in
      read! reason := u8 "reason" in
      read! h := fixed 32 "eventIdHash" in
      ret (CardInstruction.reverse amount reason h)
  | Name.refund =>
      read! amount := u64 "amountCents" in
      read! h := fixed 32 "eventIdHash" in
      ret (CardInstruction.refund amount h)
  | Name.recordDispute =>
      read! state := u8 "state" in
      read! h := fixed 32 "eventIdHash" in
      ret (CardInstruction.recordDispute state h)
  | Name.recordException =>
      read! kind := u8 "kind" in
      read! amount := u64 "amountCents" in
      read! h := fixed 32 "eventIdHash" in
      ret (CardInstruction.recordException kind amount h)
  | Name.resolveException =>
      read! h := fixed 32 "eventIdHash" in
      read! resolution := u8 "resolution" in
      ret (CardInstruction.resolveException h resolution)
  | Name.rollPeriod => ret CardInstruction.rollPeriod
  | Name.freeze => read! reason := u8 "reason" in ret (CardInstruction.freeze reason)
  | Name.unfreeze => ret CardInstruction.unfreeze
  | Name.recoveryFreeze => read! reason := u8 "reason" in ret (CardInstruction.recoveryFreeze reason)
  | Name.restore =>
      read! policy := readPolicy in
      read! periodIndex := u32 "periodIndex" in
      read! capturedCents := u64 "capturedCents" in
      read! reservedCents := u64 "reservedCents" in
      read! refundedCents := u64 "refundedCents" in
      read! purchasesCount := u16 "purchasesCount" in
      read! exceptionCents := u64 "exceptionCents" in
      read! statementOutstandingCents := u64 "statementOutstandingCents" in
      read! ledgerHead := fixed 32 "ledgerHead" in
      read! ledgerSeq := u64 "ledgerSeq" in
      read! reconDigest := fixed 32 "reconDigest" in
      ret (CardInstruction.restore (RestoreArgs.mk policy periodIndex capturedCents reservedCents
        refundedCents purchasesCount exceptionCents statementOutstandingCents ledgerHead ledgerSeq
        reconDigest))
  | Name.confirmReconciled =>
      read! d := fixed 32 "reconDigest" in ret (CardInstruction.confirmReconciled d)
  | Name.checkpoint =>
      read! salt := fixed 32 "masterSalt" in
      read! seq := u64 "seq" in
      ret (CardInstruction.checkpoint salt seq)
  | Name.writeCommitment =>
      read! root := fixed 32 "root" in
      read! seq := u64 "seq" in
      read! policyVersion := u32 "policyVersion" in
      read! periodIndex := u32 "periodIndex" in
      ret (CardInstruction.writeCommitment root seq policyVersion periodIndex)
  | Name.wipeCard => ret CardInstruction.wipeCard
  | Name.closeCard => ret CardInstruction.closeCard
  | Name.recordRepayment =>
      read! d := fixed 32 "statementDigest" in
      read! amount := u64 "amountCents" in
      ret (CardInstruction.recordRepayment d amount)
  | Name.closeReservation => ret CardInstruction.closeReservation
  | Name.repayStatement =>
      read! d := fixed 32 "statementDigest" in
      read! amount := u64 "amount" in
      ret (CardInstruction.repayStatement d amount)
  | Name.recordPrivateRepayment =>
      read! d := fixed 32 "statementDigest" in
      read! amount := u64 "amountCents" in
      ret (CardInstruction.recordPrivateRepayment d amount)
  end.

Definition encodeCardInstructionData (i : CardInstruction.t) : result bytes :=
  BorshWriter.write
    (BorshWriter.bytes (Name.discriminator (CardInstruction.name i)) :: encode_args i).

(** [disc.every((byte, i) => data[i] === byte)], first name that matches *)
Definition find_name (data : bytes) : option Name.t :=
  List.find (λ n, discriminator_matches data (Name.discriminator n)) Name.all.

Definition decodeCardInstructionData (data : bytes) : result CardInstruction.t :=
  throw_if! Nat.ltb (length data) 8 with "Instruction data is truncated";
  match find_name data with
  | None => Throw "Unknown card_policy instruction discriminator"
  | Some n =>
      let! (args, offset) := decode_args n data 8%nat in
      let rest := Z.of_nat (length data) - Z.of_nat offset in
      throw_if! negb (rest =? 0)
        with (Name.to_string n +:+ " has " +:+ pretty rest +:+ " unexpected trailing bytes");
      Ok args
  end.
End Codecs.

(** ** The client-side mirror of the set_policy validation *)

Definition problem (cond : bool) (message : string) : list string := if cond then [message] else [].

(** [new Set(values).size !== values.length]; joining bytes with commas keeps
    different hashes different. *)
Definition has_repeat {A} `{EqDecision A} (l : list A) : bool :=
  negb (Nat.eqb (length (remove_dups l)) (length l)).

Definition policyArgsProblems (p : PolicyArgs.t) : list string :=
  problem (p.(PolicyArgs.maxPurchaseCents) <=? 0) "Max purchase must be more than $0."
  ++ problem (p.(PolicyArgs.budgetCents) <? p.(PolicyArgs.maxPurchaseCents))
       "Max purchase can't be more than the budget."
  ++ problem (MAX_BUDGET_CENTS <? p.(PolicyArgs.budgetCents))
       "Budget can't be more than $10,000 in the sandbox."
  ++ problem (num_ltb p.(PolicyArgs.periodSeconds) MIN_PERIOD_SECONDS)
       "A period must be at least one day."
  ++ problem (negb (bool_decide (p.(PolicyArgs.currency) = "USD"))) "Cards only spend USD."
  ++ problem (out_of_range p.(PolicyArgs.feeBps) 0 MAX_FEE_BPS) "Fee can't be more than 10%."
  ++ problem (Nat.eqb (length p.(PolicyArgs.merchantIdHashes)) 0 && Nat.eqb (length p.(PolicyArgs.mccs)) 0)
       "Pick at least one shop or merchant category."
  ++ problem (Nat.ltb MAX_MERCHANTS (length p.(PolicyArgs.merchantIdHashes))) "At most 8 shops."
  ++ problem (Nat.ltb MAX_MCCS (length p.(PolicyArgs.mccs))) "At most 16 merchant categories."
  ++ problem (has_repeat p.(PolicyArgs.merchantIdHashes)) "A shop is listed twice."
  ++ problem (has_repeat p.(PolicyArgs.mccs)) "A merchant category is listed twice.".

(** ** Lemmas of the codecs *)

Lemma encodes_check {A} P cond m ops (r : reader A) a :
  (cond = false → encodes P ops r a) → encodes P (check_op cond m :: ops) r a.
Proof.
  intros H w w' E. simpl in E. unfold check_op in E. destruct cond; [done|].
  by apply H.
Qed.

Lemma encodes_list {A} (o : nat → A → BorshWriter.op) (r : nat → reader A) (l : list A) i :
  (∀ j a, encodes any [o j a] (r j) a) →
  encodes any (imap (λ j, o (i + j)%nat) l) (repeat_from i (length l) r) l.
Proof.
  intros H. revert i; induction l as [|a l IH]; intros i; cbn [imap length repeat_from].
  { apply encodes_ret. }
  rewrite Nat.add_0_r. eapply encodes_cons; [apply H|]. eapply encodes_last; [|apply encodes_ret].
  specialize (IH (S i)). erewrite imap_ext; [exact IH|]. intros j x _. simpl.
  by rewrite Nat.add_succ_r.
Qed.

Lemma encodes_plain_currency c n n' :
  c ≠ "" →
  encodes any [BorshWriter.with_arg (currencyBytes c) (λ b, BorshWriter.fixed b 3 n)]
    (rbind (fixed 3 n') (λ b, ret (fromCharCode b))) c.
Proof.
  intros Hc. apply encodes_with_arg. intros b Hb. apply currencyBytes_ok in Hb as [_ Hb].
  eapply encodes_last; [apply encodes_fixed|]. rewrite Hb by done. apply encodes_ret.
Qed.

Lemma encodes_length {A} (l : list A) max n n' :
  (length l <= max)%nat →
  encodes any [BorshWriter.u32 (JInt (Z.of_nat (length l))) n] (readVecLength max n') (length l).
Proof.
  intros H. unfold readVecLength. eapply encodes_last; [apply encodes_u32|].
  apply encodes_throw_when; [by apply num_gtb_count|]. rewrite count_of_length. apply encodes_ret.
Qed.

#[export] Hint Resolve encodes_plain_currency encodes_length : borsh.

Section CodecLemmas.
Context `{K : PublicKeys, KS : !PublicKeysSpec K}.

Lemma encodes_policy p : p.(PolicyArgs.currency) ≠ "" → encodes any (writePolicy p) readPolicy p.
Proof.
  intros Hc. unfold writePolicy, readPolicy. cbn [app].
  apply encodes_check. intros Hm. apply encodes_check. intros Hn.
  apply Nat.ltb_ge in Hm, Hn. destruct p. cbn [PolicyArgs.merchantIdHashes PolicyArgs.mccs
    PolicyArgs.currency] in *. encode_fields.
  eapply encodes_app; [apply (encodes_list (λ i hash, BorshWriter.fixed hash 32
    (indexed "merchantIdHashes" i)) _ _ 0); intros; apply encodes_fixed|]. encode_fields.
  eapply encodes_app; [apply (encodes_list (λ i mcc, BorshWriter.u16 mcc (indexed "mccs" i)) _ _ 0);
    intros; apply encodes_u16|]. encode_fields.
Qed.

(** The instructions whose currency is a real code (the empty currency is
    written as three zero bytes and read back as such). *)
Definition has_currency (i : CardInstruction.t) : Prop :=
  match i with
  | CardInstruction.setPolicy p => p.(PolicyArgs.currency) ≠ ""
  | CardInstruction.restore s => s.(RestoreArgs.policy).(PolicyArgs.currency) ≠ ""
  | CardInstruction.openCheckoutIntent _ _ _ _ _ c _ => c ≠ ""
  | CardInstruction.authorize _ _ _ c _ _ _ _ => c ≠ ""
  | _ => True
  end.

Lemma encodes_args i :
  has_currency i → encodes any (encode_args i) (decode_args (CardInstruction.name i)) i.
Proof.
  destruct i as [| | |[k|k]| |p| | | | | | | | | | | | | | | |s| | | | | | | | |];
    intros Hc; simpl in Hc; cbn [encode_args decode_args CardInstruction.name]; try by encode_fields.
  - eapply encodes_last; [by apply encodes_policy | apply encodes_ret].
  - destruct s. eapply encodes_app; [by apply encodes_policy|]. encode_fields.
Qed.

Lemma discriminator_length n : length (Name.discriminator n) = 8%nat.
Proof. by destruct n. Qed.

Lemma matches_app n m body :
  discriminator_matches (Name.discriminator m ++ body) (Name.discriminator n)
    = bool_decide (Name.discriminator n = Name.discriminator m).
Proof.
  apply eq_true_iff_eq. rewrite discriminator_matches_prefix, bool_decide_eq_true. split.
  - intros [k E]. symmetry in E. apply app_inj_1 in E as [E _]; [done|].
    by rewrite !discriminator_length.
  - intros ->. by apply prefix_app_r.
Qed.

Lemma find_name_app m body : find_name (Name.discriminator m ++ body) = Some m.
Proof.
  unfold find_name.
  assert (∀ l, List.find (λ n, discriminator_matches (Name.discriminator m ++ body)
      (Name.discriminator n)) l
    = List.find (λ n, bool_decide (Name.discriminator n = Name.discriminator m)) l) as ->.
  { induction l as [|n l IH]; simpl; [done|]. by rewrite matches_app, IH. }
  destruct m; vm_compute; reflexivity.
Qed.


Lemma encode_decode i bs extra :
  has_currency i → encodeCardInstructionData i = Ok bs →
  ∃ body, bs = Name.discriminator (CardInstruction.name i) ++ body ∧
    decode_args (CardInstruction.name i) (bs ++ extra) 8%nat = Ok (i, length bs).
Proof.
  intros Hc H. unfold encodeCardInstructionData in H.
  destruct (encodes_write any _ _ _ _ _ extra (encodes_args i Hc) I H) as (body & Hbs & Hr).
  exists body. split; [done|]. rewrite <- Hr. f_equal. by destruct i.
Qed.
End CodecLemmas.

(** ** Builders *)

Module RepayStatementInput.
Record t : Type := mk {
  owner : Address;
  cardId : bytes;
  mandate : Address;
  mint : Address;
  sourceTokenAccount : Address;
  recipientTokenAccount : Address;
  statementDigest : bytes;
  amount : Z;
  tokenProgram : option Address;
  chainpayProgramId : option Address;
}.
End RepayStatementInput.

(** Optional fields of the inputs are [option]s; [signer ?? owner] is a default. *)
Section Builders.
Context `{K : PublicKeys}.

Abbreviation Accounts := CardAccountAddresses.t.

(** A literal list of [meta(address, isWritable, isSigner)] calls. *)
Definition metas (rows : list (Address * bool * bool)) : result (list AccountMeta.t) :=
  sequence (map (λ row, meta row.1.1 row.1.2 row.2) rows).

Definition build (i : CardInstruction.t) (snake : string) (programId : option Address)
    (keys : list AccountMeta.t) : result ChainPayInstruction.t :=
  let! id := resolveCardPolicyProgramId programId in
  let! data := encodeCardInstructionData i in
  instruction snake id keys data.

Definition ownerEventKeys (owner : Address) (a : Accounts) : result (list AccountMeta.t) :=
  metas [(owner, false, true); (a.(CardAccountAddresses.policy), true, false);
         (a.(CardAccountAddresses.period), true, false)].

Definition buildInitCardInstruction (owner : Address) (cardId : bytes) (issuer : number)
    (issuerCardRefHash : bytes) (prefundLamports : Z) (programId : option Address) :=
  let! a := deriveCardAccounts owner cardId programId in
  let! keys := metas [(owner, true, true); (a.(CardAccountAddresses.binding), true, false);
    (a.(CardAccountAddresses.policy), true, false); (a.(CardAccountAddresses.period), true, false);
    (a.(CardAccountAddresses.commitment), true, false); (SYSTEM_PROGRAM_ID, false, false)] in
  build (CardInstruction.initCard cardId issuer issuerCardRefHash prefundLamports) "init_card"
    programId keys.

(** The four accounts the delegation program takes per delegated account. *)
Definition delegated (id account : Address) : result (list AccountMeta.t) :=
  let! buffer := deriveDelegationBufferAddress account (Some id) in
  let! m_buffer := meta buffer true false in
  let! record := deriveDelegationRecordAddress account in
  let! m_record := meta record true false in
  let! metadata := deriveDelegationMetadataAddress account in
  let! m_metadata := meta metadata true false in
  let! m_account := meta account true false in
  Ok [m_buffer; m_record; m_metadata; m_account].

Definition buildDelegateCardInstruction (owner : Address) (cardId : bytes) (validator : Address)
    (programId : option Address) :=
  throw_if! negb (bool_decide (validator ∈ TEE_VALIDATOR_ALLOWLIST))
    with "Validator is not an allowed TEE validator";
  let! id := resolveCardPolicyProgramId programId in
  let! a := deriveCardAccounts owner cardId (Some id) in
  let! first := metas [(owner, true, true); (a.(CardAccountAddresses.binding), false, false)] in
  let! policy := delegated id a.(CardAccountAddresses.policy) in
  let! period := delegated id a.(CardAccountAddresses.period) in
  let! last := metas [(id, false, false); (DELEGATION_PROGRAM_ID, false, false);
    (SYSTEM_PROGRAM_ID, false, false)] in
  build (CardInstruction.delegateCard validator) "delegate_card" (Some id)
    (first ++ policy ++ period ++ last).

Definition permissionKeys (owner : Address) (cardId : bytes) (programId : option Address)
    : result (list AccountMeta.t) :=
  let! a := deriveCardAccounts owner cardId programId in
  metas [(owner, false, true); (a.(CardAccountAddresses.policy), true, false);
    (a.(CardAccountAddresses.period), true, false);
    (a.(CardAccountAddresses.policyPermission), true, false);
    (a.(CardAccountAddresses.periodPermission), true, false); (EPHEMERAL_VAULT_ID, true, false);
    (MAGIC_PROGRAM_ID, false, false); (PERMISSION_PROGRAM_ID, false, false)].

Definition buildInitPermissionInstruction (owner : Address) (cardId : bytes) (authorizer : Address)
    (programId : option Address) :=
  let! keys := permissionKeys owner cardId programId in
  build (CardInstruction.initPermission authorizer) "init_permission" programId keys.

Definition ephemeralPairs (accounts : option (list Address)) : result (list AccountMeta.t) :=
  let! pairs := traverse (λ account,
    let! m := meta account true false in
    let! permission := derivePermissionAddress account in
    let! m_permission := meta permission true false in
    Ok [m; m_permission]) (default [] accounts) in
  Ok (concat pairs).

Definition buildUpdatePermissionInstruction (owner : Address) (cardId : bytes) (op : PermissionOp)
    (ephemeralAccounts : option (list Address)) (programId : option Address) :=
  let! keys := permissionKeys owner cardId programId in
  let! pairs := ephemeralPairs ephemeralAccounts in
  build (CardInstruction.updatePermission op) "update_permission" programId (keys ++ pairs).

(** The problems [buildSetPolicyInstruction] refuses. *)
Definition setPolicyProblems (owner : Address) (policy : PolicyArgs.t) (coSigner : option Address)
    : list string :=
  policyArgsProblems policy
  ++ problem (bool_decide (policy.(PolicyArgs.authorizer) = owner)) "The authorizer can't be the owner."
  ++ problem (bool_decide (coSigner = Some owner))
       "The co-signer must be ChainPay's authorizer, not the owner.".

Definition buildSetPolicyInstruction (owner : Address) (cardId : bytes) (policy : PolicyArgs.t)
    (coSigner : option Address) (programId : option Address) :=
  let problems := setPolicyProblems owner policy coSigner in
  throw_if! negb (Nat.eqb (length problems) 0) with (String.concat " " problems);
  let! keys := permissionKeys owner cardId programId in
  let! co := match coSigner with
             | Some c => let! m := meta c false true in Ok [m]
             | None => Ok []
             end in
  build (CardInstruction.setPolicy policy) "set_policy" programId (keys ++ co).

Definition buildFreezeInstruction (owner : Address) (cardId : bytes) (signer : option Address)
    (reason : option number) (programId : option Address) :=
  let! a := deriveCardAccounts owner cardId programId in
  let! keys := metas [(default owner signer, false, true);
    (a.(CardAccountAddresses.policy), true, false); (a.(CardAccountAddresses.period), false, false)] in
  build (CardInstruction.freeze (default (JInt 1) reason)) "freeze" programId keys.

Definition buildUnfreezeInstruction (owner : Address) (cardId : bytes) (programId : option Address) :=
  let! a := deriveCardAccounts owner cardId programId in
  let! keys := ownerEventKeys owner a in
  build CardInstruction.unfreeze "unfreeze" programId keys.

Definition buildResolveExceptionInstruction (owner : Address) (cardId eventIdHash : bytes)
    (resolution : number) (programId : option Address) :=
  let! a := deriveCardAccounts owner cardId programId in
  let! keys := ownerEventKeys owner a in
  build (CardInstruction.resolveException eventIdHash resolution) "resolve_exception" programId keys.

Definition buildCancelCheckoutIntentInstruction (owner : Address) (cardId intentId : bytes)
    (signer : option Address) (programId : option Address) :=
  let! a := deriveCardAccounts owner cardId programId in
  let! first := metas [(default owner signer, false, true);
    (a.(CardAccountAddresses.policy), false, false)] in
  let! intent := deriveCheckoutIntentAddress a.(CardAccountAddresses.policy) intentId programId in
  let! m_intent := meta intent true false in
  build CardInstruction.cancelCheckoutIntent "cancel_checkout_intent" programId (first ++ [m_intent]).

Definition buildRestoreInstruction (owner : Address) (cardId : bytes) (authorizer : Address)
    (restore : RestoreArgs.t) (programId : option Address) :=
  throw_if! bool_decide (authorizer = owner) with "The authorizer can't be the owner";
  let! a := deriveCardAccounts owner cardId programId in
  let! keys := metas [(owner, false, true); (authorizer, false, true);
    (a.(CardAccountAddresses.policy), true, false); (a.(CardAccountAddresses.period), true, false)] in
  build (CardInstruction.restore restore) "restore" programId keys.

Definition buildCloseCheckoutIntentInstruction (owner : Address) (cardId intentId : bytes)
    (signer : option Address) (programId : option Address) :=
  let! a := deriveCardAccounts owner cardId programId in
  let! intent := deriveCheckoutIntentAddress a.(CardAccountAddresses.policy) intentId programId in
  let! first := metas [(default owner signer, false, true);
    (a.(CardAccountAddresses.policy), true, false); (intent, true, false)] in
  let! permission := derivePermissionAddress intent in
  let! rest := metas [(permission, true, false); (EPHEMERAL_VAULT_ID, true, false);
    (MAGIC_PROGRAM_ID, false, false); (PERMISSION_PROGRAM_ID, false, false)] in
  build CardInstruction.closeCheckoutIntent "close_checkout_intent" programId (first ++ rest).

(** Returns the instruction, the receipt and the repay agent. *)
Definition buildRepayStatementInstruction (input : RepayStatementInput.t) (programId : option Address)
    : result (ChainPayInstruction.t * Address * Address) :=
  throw_if! input.(RepayStatementInput.amount) <=? 0 with "Repayment amount must be positive";
  let! id := resolveCardPolicyProgramId programId in
  let chainpay := default DEFAULT_PROGRAM_ID input.(RepayStatementInput.chainpayProgramId) in
  let! a := deriveCardAccounts input.(RepayStatementInput.owner) input.(RepayStatementInput.cardId)
              (Some id) in
  let! repayAgent := deriveRepayAgentAddress a.(CardAccountAddresses.binding) (Some id) in
  let! receipt := deriveReceiptAddress input.(RepayStatementInput.mandate)
                    input.(RepayStatementInput.statementDigest) chainpay in
  let! first := metas [(input.(RepayStatementInput.owner), true, true);
    (a.(CardAccountAddresses.binding), false, false); (repayAgent, true, false)] in
  let! config := deriveConfigAddress chainpay in
  let! m_config := meta config false false in
  let! asset := deriveAssetAddress input.(RepayStatementInput.mint) chainpay in
  let! rest := metas [(asset, false, false); (input.(RepayStatementInput.mandate), true, false);
    (receipt, true, false); (input.(RepayStatementInput.mint), false, false);
    (input.(RepayStatementInput.sourceTokenAccount), true, false);
    (input.(RepayStatementInput.recipientTokenAccount), true, false);
    (default SPL_TOKEN_PROGRAM_ID input.(RepayStatementInput.tokenProgram), false, false);
    (SYSTEM_PROGRAM_ID, false, false); (chainpay, false, false)] in
  let! ix := build (CardInstruction.repayStatement input.(RepayStatementInput.statementDigest)
               input.(RepayStatementInput.amount)) "repay_statement" (Some id)
               (first ++ [m_config] ++ rest) in
  Ok (ix, receipt, repayAgent).

Definition buildConfirmReconciledInstruction (owner : Address) (cardId reconDigest : bytes)
    (programId : option Address) :=
  let! a := deriveCardAccounts owner cardId programId in
  let! keys := ownerEventKeys owner a in
  build (CardInstruction.confirmReconciled reconDigest) "confirm_reconciled" programId keys.

Definition buildCloseReservationInstruction (owner : Address) (cardId authIdHash : bytes)
    (signer : option Address) (programId : option Address) :=
  let! a := deriveCardAccounts owner cardId programId in
  let! reservation := deriveReservationAddress a.(CardAccountAddresses.policy) authIdHash programId in
  let! guard := deriveAuthGuardAddress a.(CardAccountAddresses.policy) programId in
  let! first := metas [(default owner signer, false, true);
    (a.(CardAccountAddresses.policy), true, false); (a.(CardAccountAddresses.period), false, false);
    (reservation, true, false)] in
  let! permission := derivePermissionAddress reservation in
  let! middle := metas [(permission, true, false); (guard, true, false)] in
  let! guardPermission := derivePermissionAddress guard in
  let! rest := metas [(guardPermission, true, false); (EPHEMERAL_VAULT_ID, true, false);
    (MAGIC_PROGRAM_ID, false, false); (PERMISSION_PROGRAM_ID, false, false)] in
  build CardInstruction.closeReservation "close_reservation" programId (first ++ middle ++ rest).

Definition buildWipeCardInstruction (owner : Address) (cardId : bytes)
    (ephemeralAccounts : option (list Address)) (programId : option Address) :=
  let! a := deriveCardAccounts owner cardId programId in
  let! remaining := ephemeralPairs ephemeralAccounts in
  let! keys := metas [(owner, true, true); (a.(CardAccountAddresses.policy), true, false);
    (a.(CardAccountAddresses.period), true, false);
    (a.(CardAccountAddresses.policyPermission), true, false);
    (a.(CardAccountAddresses.periodPermission), true, false); (EPHEMERAL_VAULT_ID, true, false);
    (MAGIC_CONTEXT_ID, true, false); (MAGIC_PROGRAM_ID, false, false);
    (PERMISSION_PROGRAM_ID, false, false)] in
  build CardInstruction.wipeCard "wipe_card" programId (keys ++ remaining).

Definition buildCloseCardInstruction (owner : Address) (cardId : bytes) (programId : option Address) :=
  let! a := deriveCardAccounts owner cardId programId in
  let! keys := metas [(owner, true, true); (a.(CardAccountAddresses.binding), true, false);
    (a.(CardAccountAddresses.policy), true, false); (a.(CardAccountAddresses.period), true, false)] in
  build CardInstruction.closeCard "close_card" programId keys.

Definition buildWriteCommitmentInstruction (owner : Address) (cardId root : bytes) (seq : Z)
    (policyVersion periodIndex : number) (programId : option Address) :=
  let! id := resolveCardPolicyProgramId programId in
  let! a := deriveCardAccounts owner cardId (Some id) in
  let! keys := metas [(a.(CardAccountAddresses.commitment), true, false);
    (a.(CardAccountAddresses.binding), false, false); (id, false, false);
    (a.(CardAccountAddresses.policy), false, false); (a.(CardAccountAddresses.escrow), false, true)] in
  build (CardInstruction.writeCommitment root seq policyVersion periodIndex) "write_commitment"
    (Some id) keys.
End Builders.

(** ** The program's own validation (programs/card_policy/src/policy.rs) *)

Fixpoint has_duplicates_from {A} `{EqDecision A} (seen l : list A) : bool :=
  match l with
  | [] => false
  | a :: l => bool_decide (a ∈ seen) || has_duplicates_from (seen ++ [a]) l
  end.

(** [has_duplicates]: some item is among the ones before it. *)
Definition has_duplicates {A} `{EqDecision A} (l : list A) : bool := has_duplicates_from [] l.

(** [validate_policy_args] on the arguments as they were decoded. *)
Definition validate_policy_args (p : PolicyArgs.t) (owner default_address : Address) (now : Z) : bool :=
  (0 <? p.(PolicyArgs.maxPurchaseCents))
  && (p.(PolicyArgs.maxPurchaseCents) <=? p.(PolicyArgs.budgetCents))
  && (p.(PolicyArgs.budgetCents) <=? MAX_BUDGET_CENTS)
  && (MIN_PERIOD_SECONDS <=? bigint_of p.(PolicyArgs.periodSeconds))
  && bool_decide (p.(PolicyArgs.currency) = "USD")
  && (bigint_of p.(PolicyArgs.feeBps) <=? MAX_FEE_BPS)
  && (Nat.leb (length p.(PolicyArgs.merchantIdHashes)) MAX_MERCHANTS
      && Nat.leb (length p.(PolicyArgs.mccs)) MAX_MCCS)
  && (negb (Nat.eqb (length p.(PolicyArgs.merchantIdHashes)) 0)
      || negb (Nat.eqb (length p.(PolicyArgs.mccs)) 0))
  && (negb (has_duplicates p.(PolicyArgs.merchantIdHashes)) && negb (has_duplicates p.(PolicyArgs.mccs)))
  && (negb (bool_decide (zero_bytes 32 ∈ p.(PolicyArgs.merchantIdHashes)))
      && negb (bool_decide (JInt 0 ∈ p.(PolicyArgs.mccs))))
  && ((p.(PolicyArgs.expiresAt) =? 0) || (now <? p.(PolicyArgs.expiresAt)))
  && (negb (bool_decide (p.(PolicyArgs.authorizer) = default_address))
      && negb (bool_decide (p.(PolicyArgs.authorizer) = owner))).

(** ** Lemmas *)

Lemma has_repeat_NoDup {A} `{EqDecision A} (l : list A) : has_repeat l = false ↔ NoDup l.
Proof.
  unfold has_repeat. rewrite negb_false_iff, Nat.eqb_eq.
  induction l as [|a l IH]; simpl; [split; [constructor | done]|].
  rewrite NoDup_cons. pose proof (Nat.le_refl 0).
  assert (∀ k : list A, (length (remove_dups k) <= length k)%nat) as Hle.
  { induction k as [|x k IHk]; simpl; [done|]. case_decide; simpl; lia. }
  case_decide as Hin; simpl.
  - specialize (Hle l). split; [lia | tauto].
  - rewrite <- IH. split; [intros [= ?]; done | intros [_ ->]; done].
Qed.

Lemma has_duplicates_from_NoDup {A} `{EqDecision A} (seen l : list A) :
  has_duplicates_from seen l = false ↔ NoDup l ∧ ∀ a, a ∈ l → a ∉ seen.
Proof.
  revert seen; induction l as [|a l IH]; intros seen; simpl.
  { split; [|done]. intros _. split; [constructor | by intros a ?%elem_of_nil]. }
  rewrite orb_false_iff, bool_decide_eq_false, IH, NoDup_cons. split.
  - intros (Ha & Hl & H). split_and!; [|done|].
    + intros Hin. apply (H a Hin). apply elem_of_app. right. by left.
    + intros x [->|Hx]%elem_of_cons; [done|]. intros Hs. apply (H x Hx). apply elem_of_app. by left.
  - intros ([Ha Hl] & H). split_and!; [apply H; by left | done |].
    intros x Hx [Hs|Hs]%elem_of_app.
    + apply (H x); [by right | done].
    + apply list_elem_of_singleton in Hs as ->. done.
Qed.

Lemma has_duplicates_NoDup {A} `{EqDecision A} (l : list A) : has_duplicates l = false ↔ NoDup l.
Proof.
  unfold has_duplicates. rewrite has_duplicates_from_NoDup.
  split; [tauto|]. intros H. split; [done|]. intros a _ ?%elem_of_nil. done.
Qed.

Lemma problem_nil c m rest : problem c m ++ rest = [] ↔ c = false ∧ rest = [].
Proof. destruct c; simpl; naive_solver. Qed.

Lemma problem_nil_last c m : problem c m = [] ↔ c = false.
Proof. by destruct c. Qed.

Section CardInstructionProperties.
Context `{K : PublicKeys, KS : !PublicKeysSpec K}.

(** C39: What was signed is what is read: the data of any of the 31 card
    instructions decodes to exactly that instruction with those arguments
    (its currency a real code), and never with anything appended to it. *)
Theorem cardInstruction_roundtrip (i : CardInstruction.t) (bs extra : bytes) :
  encodeCardInstructionData i = Ok bs → has_currency i →
  decodeCardInstructionData bs = Ok i ∧
  (extra ≠ [] → ∃ message, decodeCardInstructionData (bs ++ extra) = Throw message).
Proof.
  intros H Hc.
  assert (∀ extra, decodeCardInstructionData (bs ++ extra)
    = (if negb (Z.of_nat (length extra) =? 0)
       then Throw (Name.to_string (CardInstruction.name i) +:+ (" has "
         +:+ (pretty (Z.of_nat (length extra)) +:+ " unexpected trailing bytes"))) else Ok i)) as Hdec.
  { intros ex. destruct (encode_decode i bs ex Hc H) as (body & -> & Hr).
    unfold decodeCardInstructionData. rewrite (proj2 (Nat.ltb_ge _ _))
      by (rewrite !length_app, discriminator_length; lia).
    rewrite <- app_assoc, find_name_app, app_assoc, Hr. cbn [bind].
    replace (Z.of_nat (length ((Name.discriminator (CardInstruction.name i) ++ body) ++ ex))
      - Z.of_nat (length (Name.discriminator (CardInstruction.name i) ++ body)))
      with (Z.of_nat (length ex)) by (rewrite (length_app _ ex); lia). done. }
  split.
  - specialize (Hdec []). rewrite app_nil_r in Hdec. exact Hdec.
  - intros Hx. rewrite Hdec. destruct extra; [done|]. eexists. reflexivity.
Qed.

(** The client-side policy checks agree with the program's: for
    arguments of the wire's types, the program accepts a policy exactly when
    [policyArgsProblems] lists no problem and four conditions it does not
    look at hold as well: no all-zero shop hash, no category 0, an end date
    that is 0 or in the future, and an authorizer that is neither the
    default key nor the owner. *)
Theorem policyArgsProblems_mirror (p : PolicyArgs.t) (owner : Address) (now period bps : Z) :
  p.(PolicyArgs.periodSeconds) = JInt period → p.(PolicyArgs.feeBps) = JInt bps → 0 <= bps →
  (validate_policy_args p owner ZERO_ADDRESS now = true ↔
    policyArgsProblems p = [] ∧
    (zero_bytes 32 ∉ p.(PolicyArgs.merchantIdHashes)) ∧ (JInt 0 ∉ p.(PolicyArgs.mccs)) ∧
    (p.(PolicyArgs.expiresAt) = 0 ∨ now < p.(PolicyArgs.expiresAt)) ∧
    p.(PolicyArgs.authorizer) ≠ ZERO_ADDRESS ∧ p.(PolicyArgs.authorizer) ≠ owner).
Proof.
  intros Hp Hf Hb. unfold validate_policy_args, policyArgsProblems.
  rewrite !problem_nil, problem_nil_last, Hp, Hf. unfold out_of_range, num_ltb, num_gtb. cbn [bigint_of isInteger negb orb].
  rewrite !andb_true_iff, !orb_true_iff, !negb_true_iff, !negb_false_iff, !has_duplicates_NoDup,
    !has_repeat_NoDup, !bool_decide_eq_true, !bool_decide_eq_false, orb_false_iff, andb_false_iff,
    !Z.leb_le, !Z.leb_gt, !Z.ltb_lt, !Z.ltb_ge, !Z.eqb_eq, !Nat.leb_le, !Nat.ltb_ge, !Nat.eqb_neq.
  split; intros; destruct_and!; split_and!; try done; lia.
Qed.

Lemma build_ok i snake programId keys ix :
  build i snake programId keys = Ok ix →
  ix.(ChainPayInstruction.keys) = keys ∧ ix.(ChainPayInstruction.name) = snake ∧
  encodeCardInstructionData i = Ok ix.(ChainPayInstruction.data).
Proof.
  unfold build. intros H. inv_ok H. by apply instruction_ok in H as [-> _].
Qed.

Lemma metas_ok rows ks : metas rows = Ok ks → ks = map meta_row rows.
Proof. apply sequence_metas. Qed.

(** The instruction [ix] carries [i], and exactly [who] must sign it. *)
Definition signs (ix : ChainPayInstruction.t) (i : CardInstruction.t) (who : list Address) : Prop :=
  signers ix = who ∧
  (has_currency i → decodeCardInstructionData ix.(ChainPayInstruction.data) = Ok i).

Lemma decode_encoded i bs :
  encodeCardInstructionData i = Ok bs → has_currency i → decodeCardInstructionData bs = Ok i.
Proof.
  intros H Hc. destruct (encode_decode i bs [] Hc H) as (body & -> & Hr).
  unfold decodeCardInstructionData.
  rewrite (proj2 (Nat.ltb_ge _ _)) by (rewrite length_app, discriminator_length; lia).
  rewrite find_name_app. rewrite app_nil_r in Hr. rewrite Hr. cbn [bind].
  by rewrite Z.sub_diag.
Qed.

Lemma build_signs i snake programId keys ix who :
  build i snake programId keys = Ok ix →
  map AccountMeta.address (filter (λ k, k.(AccountMeta.isSigner) = true) keys) = who →
  signs ix i who.
Proof.
  intros H <-. apply build_ok in H as (Hk & _ & Hd). unfold signs, signers. rewrite Hk.
  split; [done|]. intros Hc. by apply decode_encoded.
Qed.

Lemma signers_app (ks ls : list AccountMeta.t) :
  map AccountMeta.address (filter (λ k, k.(AccountMeta.isSigner) = true) (ks ++ ls)) =
  map AccountMeta.address (filter (λ k, k.(AccountMeta.isSigner) = true) ks) ++
  map AccountMeta.address (filter (λ k, k.(AccountMeta.isSigner) = true) ls).
Proof. by rewrite filter_app, map_app. Qed.

Lemma permissionKeys_signers owner cardId programId ks :
  permissionKeys owner cardId programId = Ok ks →
  map AccountMeta.address (filter (λ k, k.(AccountMeta.isSigner) = true) ks) = [owner].
Proof. unfold permissionKeys. intros H. inv_ok H. by apply metas_ok in H as ->. Qed.

Lemma ephemeralPairs_signers accounts ks :
  ephemeralPairs accounts = Ok ks →
  map AccountMeta.address (filter (λ k, k.(AccountMeta.isSigner) = true) ks) = [].
Proof.
  unfold ephemeralPairs. intros H. inv_ok H. subst ks. apply traverse_ok in E.
  induction E as [|a pair l pairs Ha _ IH]; simpl; [done|]. rewrite signers_app, IH, app_nil_r.
  inv_ok Ha. apply meta_ok in E as [-> _], E1 as [-> _]. by subst pair.
Qed.

Lemma delegated_signers id a ks :
  delegated id a = Ok ks →
  map AccountMeta.address (filter (λ k, k.(AccountMeta.isSigner) = true) ks) = [].
Proof.
  unfold delegated. intros H. inv_ok H. subst ks.
  repeat match goal with E : meta _ _ _ = Ok _ |- _ => apply meta_ok in E as [-> _] end. done.
Qed.

(** A policy is offered for signature only when it passes every check,
    its authorizer is not the owner and neither is the co-signer; the
    instruction then asks for the owner's signature, the co-signer's if there
    is one and nobody else's, and its data decodes to that policy. *)
Theorem buildSetPolicyInstruction_spec (owner : Address) (cardId : bytes) (policy : PolicyArgs.t)
    (coSigner programId : option Address) (ix : ChainPayInstruction.t) :
  buildSetPolicyInstruction owner cardId policy coSigner programId = Ok ix →
  policyArgsProblems policy = [] ∧ policy.(PolicyArgs.authorizer) ≠ owner ∧ coSigner ≠ Some owner ∧
  signers ix = owner :: (match coSigner with Some c => [c] | None => [] end) ∧
  decodeCardInstructionData ix.(ChainPayInstruction.data) = Ok (CardInstruction.setPolicy policy).
Proof.
  unfold buildSetPolicyInstruction. intros H. inv_ok H. bool_reflect.
  apply Nat.eqb_eq, nil_length_inv in G. unfold setPolicyProblems in G.
  apply app_eq_nil in G as [Hp G]. rewrite problem_nil, problem_nil_last in G.
  destruct G as [Ha Hco]. bool_reflect. split_and!; try done.
  - apply build_ok in H as (Hk & _ & _). unfold signers. rewrite Hk, signers_app.
    rewrite (permissionKeys_signers _ _ _ _ E). simpl. f_equal.
    destruct coSigner; inv_ok E0; subst; [|done]. by apply meta_ok in E1 as [-> _].
  - apply build_ok in H as (_ & _ & Hd). apply decode_encoded; [done|]. simpl.
    intros Hc. unfold policyArgsProblems in Hp. rewrite !problem_nil in Hp.
    destruct_and!. bool_reflect. rewrite Hc in *. done.
Qed.

(** What each owner transaction asks to be signed: creating, delegating,
    wiping and closing a card, its permissions and reader changes,
    unfreezing, resolving and confirming need the owner's signature and
    nobody else's; a restore needs the owner's and another authorizer's; and
    each carries, decodable, the instruction it is named after. *)
Theorem card_builders_signers (owner authorizer : Address) (cardId h : bytes) (issuer n : number)
    (z : Z) (op : PermissionOp) (restore : RestoreArgs.t) (accounts : option (list Address))
    (p : option Address) (ix : ChainPayInstruction.t) :
  (buildInitCardInstruction owner cardId issuer h z p = Ok ix →
    signs ix (CardInstruction.initCard cardId issuer h z) [owner]) ∧
  (buildDelegateCardInstruction owner cardId authorizer p = Ok ix →
    authorizer ∈ TEE_VALIDATOR_ALLOWLIST ∧ signs ix (CardInstruction.delegateCard authorizer) [owner]) ∧
  (buildInitPermissionInstruction owner cardId authorizer p = Ok ix →
    signs ix (CardInstruction.initPermission authorizer) [owner]) ∧
  (buildUpdatePermissionInstruction owner cardId op accounts p = Ok ix →
    signs ix (CardInstruction.updatePermission op) [owner]) ∧
  (buildUnfreezeInstruction owner cardId p = Ok ix → signs ix CardInstruction.unfreeze [owner]) ∧
  (buildResolveExceptionInstruction owner cardId h n p = Ok ix →
    signs ix (CardInstruction.resolveException h n) [owner]) ∧
  (buildConfirmReconciledInstruction owner cardId h p = Ok ix →
    signs ix (CardInstruction.confirmReconciled h) [owner]) ∧
  (buildWipeCardInstruction owner cardId accounts p = Ok ix →
    signs ix CardInstruction.wipeCard [owner]) ∧
  (buildCloseCardInstruction owner cardId p = Ok ix → signs ix CardInstruction.closeCard [owner]) ∧
  (buildRestoreInstruction owner cardId authorizer restore p = Ok ix →
    authorizer ≠ owner ∧ signs ix (CardInstruction.restore restore) [owner; authorizer]).
Proof.
  split_and!; intros H.
  - unfold buildInitCardInstruction in H. inv_ok H. apply metas_ok in E0 as ->.
    by apply (build_signs _ _ _ _ _ _ H).
  - unfold buildDelegateCardInstruction in H. inv_ok H. bool_reflect. split; [done|].
    apply metas_ok in E1 as ->, E4 as ->. apply (build_signs _ _ _ _ _ _ H).
    by rewrite !signers_app, (delegated_signers _ _ _ E2), (delegated_signers _ _ _ E3).
  - unfold buildInitPermissionInstruction in H. inv_ok H.
    apply (build_signs _ _ _ _ _ _ H), (permissionKeys_signers _ _ _ _ E).
  - unfold buildUpdatePermissionInstruction in H. inv_ok H. apply (build_signs _ _ _ _ _ _ H).
    by rewrite signers_app, (permissionKeys_signers _ _ _ _ E), (ephemeralPairs_signers _ _ E0).
  - unfold buildUnfreezeInstruction in H. inv_ok H. apply metas_ok in E0 as ->.
    by apply (build_signs _ _ _ _ _ _ H).
  - unfold buildResolveExceptionInstruction in H. inv_ok H. apply metas_ok in E0 as ->.
    by apply (build_signs _ _ _ _ _ _ H).
  - unfold buildConfirmReconciledInstruction in H. inv_ok H. apply metas_ok in E0 as ->.
    by apply (build_signs _ _ _ _ _ _ H).
  - unfold buildWipeCardInstruction in H. inv_ok H. apply metas_ok in E1 as ->.
    apply (build_signs _ _ _ _ _ _ H). by rewrite signers_app, (ephemeralPairs_signers _ _ E0).
  - unfold buildCloseCardInstruction in H. inv_ok H. apply metas_ok in E0 as ->.
    by apply (build_signs _ _ _ _ _ _ H).
  - unfold buildRestoreInstruction in H. inv_ok H. bool_reflect. split; [done|].
    apply metas_ok in E0 as ->. by apply (build_signs _ _ _ _ _ _ H).
Qed.

(** Paying a statement: the instruction carries the positive amount and
    the statement digest, only the owner signs it, and the receipt it returns
    is ChainPay's receipt address for that mandate and digest, so the same
    digest under the same mandate always names the same receipt. *)
Theorem buildRepayStatementInstruction_spec (input : RepayStatementInput.t) (p : option Address)
    (ix : ChainPayInstruction.t) (receipt repayAgent : Address) :
  buildRepayStatementInstruction input p = Ok (ix, receipt, repayAgent) →
  0 < input.(RepayStatementInput.amount) ∧
  deriveReceiptAddress input.(RepayStatementInput.mandate) input.(RepayStatementInput.statementDigest)
    (default DEFAULT_PROGRAM_ID input.(RepayStatementInput.chainpayProgramId)) = Ok receipt ∧
  AccountMeta.mk receipt false true ∈ ix.(ChainPayInstruction.keys) ∧
  AccountMeta.mk repayAgent false true ∈ ix.(ChainPayInstruction.keys) ∧
  signers ix = [input.(RepayStatementInput.owner)] ∧
  decodeCardInstructionData ix.(ChainPayInstruction.data)
    = Ok (CardInstruction.repayStatement input.(RepayStatementInput.statementDigest)
        input.(RepayStatementInput.amount)).
Proof.
  unfold buildRepayStatementInstruction. intros H. inv_ok H. bool_reflect. subst.
  repeat match goal with
  | E : metas _ = Ok _ |- _ => apply metas_ok in E as ->
  | E : meta _ _ _ = Ok _ |- _ => apply meta_ok in E as [-> _]
  | E : build _ _ _ _ = Ok _ |- _ => apply build_ok in E as (Hk & _ & Hd)
  end.
  split_and!; [lia | done | | | |].
  - rewrite Hk. apply list_elem_of_In. simpl. tauto.
  - rewrite Hk. apply list_elem_of_In. simpl. tauto.
  - unfold signers. by rewrite Hk.
  - by apply decode_encoded.
Qed.
End CardInstructionProperties.

(** ** Witnesses *)

Definition sample_policy_args : PolicyArgs.t :=
  PolicyArgs.mk 50000 20000 (JInt 5) (JInt 2592000) "USD" [sample_key 51; sample_key 52]
    [JInt 5411; JInt 5812] 0 true (JInt 50) (base58_encode (sample_key 35)).

Definition sample_card_instruction : CardInstruction.t := CardInstruction.setPolicy sample_policy_args.

Lemma sample_instruction_encodes :
  ∃ bs, @encodeCardInstructionData Base58.keys sample_card_instruction = Ok bs.
Proof. apply is_ok_true. vm_compute. reflexivity. Qed.

Lemma sample_currency : has_currency sample_card_instruction.
Proof. done. Qed.

Lemma cardInstruction_roundtrip_witness :
  ∃ bs, @encodeCardInstructionData Base58.keys sample_card_instruction = Ok bs ∧
    @decodeCardInstructionData Base58.keys bs = Ok sample_card_instruction.
Proof.
  destruct sample_instruction_encodes as (bs & E).
  exact (ex_intro _ bs (conj E (proj1 (@cardInstruction_roundtrip Base58.keys Base58.keys_spec
    sample_card_instruction bs [] E sample_currency)))).
Defined.

Lemma sample_policy_accepted :
  validate_policy_args sample_policy_args (base58_encode (sample_key 31)) (@ZERO_ADDRESS Base58.keys)
    1700000000 = true.
Proof. vm_compute. reflexivity. Qed.

Lemma policyArgsProblems_mirror_witness : policyArgsProblems sample_policy_args = [].
Proof.
  exact (proj1 (proj1 (@policyArgsProblems_mirror Base58.keys sample_policy_args
    (base58_encode (sample_key 31)) 1700000000 2592000 50 eq_refl eq_refl ltac:(lia))
    sample_policy_accepted)).
Defined.

Abbreviation sample_set_policy :=
  (@buildSetPolicyInstruction Base58.keys (base58_encode (sample_key 31)) (sample_key 41)
    sample_policy_args None None).

Lemma sample_set_policy_ok : ∃ ix, sample_set_policy = Ok ix.
Proof. apply is_ok_true. vm_compute. reflexivity. Qed.

Lemma buildSetPolicyInstruction_spec_witness :
  ∃ ix, sample_set_policy = Ok ix ∧ signers ix = [base58_encode (sample_key 31)].
Proof.
  destruct sample_set_policy_ok as (ix & E).
  destruct (@buildSetPolicyInstruction_spec Base58.keys Base58.keys_spec (base58_encode (sample_key 31))
    (sample_key 41) sample_policy_args None None ix E) as (_ & _ & _ & Hs & _).
  exact (ex_intro _ ix (conj E Hs)).
Defined.

Abbreviation sample_unfreeze :=
  (@buildUnfreezeInstruction Base58.keys (base58_encode (sample_key 31)) (sample_key 41) None).

Lemma sample_unfreeze_ok : ∃ ix, sample_unfreeze = Ok ix.
Proof. apply is_ok_true. vm_compute. reflexivity. Qed.

Definition sample_restore : RestoreArgs.t :=
  RestoreArgs.mk sample_policy_args (JInt 1) 0 0 0 (JInt 0) 0 0 (sample_key 1) 0 (sample_key 2).

Lemma card_builders_signers_witness :
  ∃ ix, sample_unfreeze = Ok ix ∧ @signs Base58.keys ix CardInstruction.unfreeze
    [base58_encode (sample_key 31)].
Proof.
  destruct sample_unfreeze_ok as (ix & E).
  destruct (@card_builders_signers Base58.keys Base58.keys_spec (base58_encode (sample_key 31))
    (base58_encode (sample_key 35)) (sample_key 41) (sample_key 42) (JInt 1) (JInt 1) 0
    (add_reader (base58_encode (sample_key 35))) sample_restore None None ix)
    as (_ & _ & _ & _ & H & _).
  exact (ex_intro _ ix (conj E (H E))).
Defined.

Definition sample_repay : RepayStatementInput.t :=
  RepayStatementInput.mk (base58_encode (sample_key 31)) (sample_key 41) (base58_encode (sample_key 3))
    (base58_encode (sample_key 14)) (base58_encode (sample_key 13)) (base58_encode (sample_key 24))
    (sample_key 60) 502500000 None None.

Abbreviation sample_repay_build := (@buildRepayStatementInstruction Base58.keys sample_repay None).

Lemma sample_repay_ok : ∃ r, sample_repay_build = Ok r.
Proof. apply is_ok_true. vm_compute. reflexivity. Qed.

Lemma buildRepayStatementInstruction_spec_witness :
  ∃ ix receipt agent, sample_repay_build = Ok (ix, receipt, agent) ∧
    signers ix = [base58_encode (sample_key 31)].
Proof.
  destruct sample_repay_ok as ([[ix receipt] agent] & E).
  destruct (@buildRepayStatementInstruction_spec Base58.keys Base58.keys_spec sample_repay None
    ix receipt agent E) as (_ & _ & _ & _ & Hs & _).
  exact (ex_intro _ ix (ex_intro _ receipt (ex_intro _ agent (conj E Hs)))).
Defined.
