(* ===== verification/CardCommitment.v ===== *)
(** * Commitments and disclosure (sdk/src/cards/commitment.ts)

    The 16 salted leaves of a card commitment, their Merkle tree, the bundle an
    owner builds to disclose chosen fields, and its verification.

    SHA-256 is the platform's ([crypto.subtle.digest]): the class [Sha256].
    Soundness assumes no collision among the byte strings actually hashed, an
    explicit finite list, never that the hash is injective.  A promise is the
    value it resolves to. *)
From Stdlib Require Import ZArith Lia Strings.Byte Strings.Ascii.
From stdpp Require Import base numbers strings list.
From S2P Require Import Prelude Bytes PublicKey Types Encoding Pda CardAccounts CardMath Decimal.

Class Sha256 : Type := sha256 : bytes → bytes.

Definition COMMITMENT_LEAF_COUNT : nat := 16.

(** "chainpay-card-leaf:v1" and a newline *)
Definition LEAF_DOMAIN : bytes := utf8 "chainpay-card-leaf:v1" ++ [x0a].

Module DisclosedLeaf.
Record t : Type := mk { i : Z; value : string; leafSalt : string; proof : list string }.
End DisclosedLeaf.

Module DisclosureBundle.
Record t : Type := mk { binding : Address; commitmentSeq : string; leaves : list DisclosedLeaf.t }.
End DisclosureBundle.

Definition hexToBytes (value : string) : result bytes :=
  match hex_pairs value with
  | Some b => Ok b
  | None => Throw "Expected lowercase hex"
  end.

(** [le]: the [DataView] setters wrap to the field's width, signed or not. *)
Definition le (value : Z) (bytes : nat) : Bytes.bytes := le_bytes bytes value.

(** [BigInt(n)] of a number *)
Definition to_bigint (n : number) : result Z :=
  match n with
  | JInt z => Ok z
  | _ => Throw "The number cannot be converted to a BigInt because it is not an integer"
  end.

(** [compareBytes(a, b) <= 0] *)
Fixpoint bytes_le (a b : bytes) : bool :=
  match a, b with
  | [], _ => true
  | _ :: _, [] => false
  | x :: a, y :: b => if bool_decide (x = y) then bytes_le a b else byte_val x <? byte_val y
  end.

Definition RECOVERY_BYTE (s : CardRecoveryState.t) : Z :=
  match s with
  | CardRecoveryState.normal => 0
  | CardRecoveryState.recovery_frozen => 1
  | CardRecoveryState.restored_pending_reconcile => 2
  end.

Definition flag (b : bool) : Z := if b then 1 else 0.

Section Commitment.
Context `{K : PublicKeys, H : Sha256}.

Definition commitmentLeafValues (policy : CardPolicy.t) (period : CardPeriod.t)
    : result (list bytes) :=
  let merchants := sort_by bytes_le policy.(CardPolicy.merchantIdHashes) in
  let! binding := newPublicKey policy.(CardPolicy.binding) in
  let! policyVersion := to_bigint policy.(CardPolicy.policyVersion) in
  let! maxPurchases := to_bigint policy.(CardPolicy.maxPurchasesPerPeriod) in
  let! mccs := traverse to_bigint policy.(CardPolicy.mccs) in
  let! feeBps := to_bigint policy.(CardPolicy.feeBps) in
  let! periodIndex := to_bigint period.(CardPeriod.periodIndex) in
  let! purchasesCount := to_bigint period.(CardPeriod.purchasesCount) in
  Ok [
    binding;
    le policyVersion 4;
    le policy.(CardPolicy.budgetCents) 8;
    le policy.(CardPolicy.maxPurchaseCents) 8;
    le maxPurchases 2;
    sha256 (concat merchants);
    sha256 (concat (map (λ mcc, le mcc 2) (sort_by Z.leb mccs)));
    le policy.(CardPolicy.expiresAt) 8 ++ [byte_of (flag policy.(CardPolicy.recurringAllowed))]
      ++ le feeBps 2;
    le periodIndex 4 ++ le period.(CardPeriod.periodStart) 8 ++ le period.(CardPeriod.periodEnd) 8;
    le period.(CardPeriod.capturedCents) 8;
    le period.(CardPeriod.reservedCents) 8;
    le period.(CardPeriod.refundedCents) 8;
    le purchasesCount 2;
    le policy.(CardPolicy.statementOutstandingCents) 8;
    [byte_of (flag policy.(CardPolicy.frozen)); byte_of (RECOVERY_BYTE policy.(CardPolicy.recoveryState))];
    policy.(CardPolicy.ledgerHead) ++ le policy.(CardPolicy.ledgerSeq) 8].

Definition leafSalt (masterSalt : bytes) (index : Z) : result bytes :=
  throw_if! negb (Nat.eqb (length masterSalt) 32) with "master salt must be 32 bytes";
  Ok (sha256 (masterSalt ++ [byte_of index])).

Definition leaf_preimage (index : Z) (salt value : bytes) : bytes :=
  LEAF_DOMAIN ++ [byte_of index] ++ salt ++ value.
Definition leafHash (index : Z) (salt value : bytes) : bytes := sha256 (leaf_preimage index salt value).

Definition node_preimage (left right : bytes) : bytes := [byte_of 1] ++ left ++ right.
Definition nodeHash (left right : bytes) : bytes := sha256 (node_preimage left right).

(** One round of the [levels] loop: pairs from the left. *)
Fixpoint next_level (level : list bytes) : list bytes :=
  match level with
  | l :: r :: rest => nodeHash l r :: next_level rest
  | _ => []
  end.

(** [while (out[out.length - 1].length > 1)]; the level halves, so its length
    is fuel enough. *)
Fixpoint levels_from (fuel : nat) (level : list bytes) : list (list bytes) :=
  match fuel with
  | O => [level]
  | S fuel => level :: (if Nat.leb (length level) 1 then [] else levels_from fuel (next_level level))
  end.

Definition levels (leaves : list bytes) : result (list (list bytes)) :=
  throw_if! negb (Nat.eqb (length leaves) COMMITMENT_LEAF_COUNT)
    with "a commitment has exactly 16 leaves";
  Ok (levels_from (length leaves) leaves).

(** [values.map(async (value, i) => leafHash(i, salts[i], value))] *)
Definition leaf_hashes (salts values : list bytes) : list bytes :=
  imap (λ i sv, leafHash (Z.of_nat i) sv.1 sv.2) (zip salts values).

(** [tree[tree.length - 1][0]] *)
Definition root_of (tree : list (list bytes)) : bytes := default [] (last tree ≫= head).

Definition commitmentRoot (policy : CardPolicy.t) (period : CardPeriod.t) (masterSalt : bytes)
    : result bytes :=
  let! values := commitmentLeafValues policy period in
  let! salts := traverse (λ i, leafSalt masterSalt (Z.of_nat i)) (seq 0 (length values)) in
  let! tree := levels (leaf_hashes salts values) in
  Ok (root_of tree).

(** The sibling hashes of [idx], bottom-up: [tree[depth][idx ^ 1]], [idx >>= 1]. *)
Fixpoint siblings (tree : list (list bytes)) (idx : nat) : list bytes :=
  match tree with
  | [] | [_] => []
  | level :: tree => default [] (level !! Nat.lxor idx 1) :: siblings tree (Nat.div2 idx)
  end.

Definition leaf_index (n : number) : bool :=
  match n with JInt z => (0 <=? z) && (z <? Z.of_nat COMMITMENT_LEAF_COUNT) | _ => false end.

Definition buildDisclosureBundle (policy : CardPolicy.t) (period : CardPeriod.t)
    (masterSalt : bytes) (commitmentSeq : Z) (indices : list number) : result DisclosureBundle.t :=
  throw_if! Nat.eqb (length indices) 0 with "Pick at least one field to share";
  throw_if! negb (forallb leaf_index indices) with "Unknown field";
  let picked := sort_by Z.leb (remove_dups (map bigint_of indices)) in
  let! values := commitmentLeafValues policy period in
  let! salts := traverse (λ i, leafSalt masterSalt (Z.of_nat i)) (seq 0 (length values)) in
  let! tree := levels (leaf_hashes salts values) in
  let! binding := newPublicKey policy.(CardPolicy.binding) in
  Ok (DisclosureBundle.mk (toBase58 binding) (toString commitmentSeq)
    (map (λ i, DisclosedLeaf.mk i (bytesToHex (default [] (values !! Z.to_nat i)))
                 (bytesToHex (default [] (salts !! Z.to_nat i)))
                 (map bytesToHex (siblings tree (Z.to_nat i)))) picked)).

(** The loop of [recomputeDisclosedRoot]. *)
Fixpoint climb (idx : Z) (acc : bytes) (proof : list bytes) : bytes :=
  match proof with
  | [] => acc
  | node :: proof =>
      climb (Z.shiftr idx 1)
        (if Z.rem idx 2 =? 0 then nodeHash acc node else nodeHash node acc) proof
  end.

Definition recomputeDisclosedRoot (leaf : DisclosedLeaf.t) : result bytes :=
  let! salt := hexToBytes leaf.(DisclosedLeaf.leafSalt) in
  let! value := hexToBytes leaf.(DisclosedLeaf.value) in
  let! proof := traverse hexToBytes leaf.(DisclosedLeaf.proof) in
  Ok (climb leaf.(DisclosedLeaf.i) (leafHash leaf.(DisclosedLeaf.i) salt value) proof).
End Commitment.

(** ** Display *)

(** A date is representable up to 8.64e15 ms either way. *)
Definition dateFromSeconds (seconds : Z) : string :=
  if Z.abs seconds <=? 8640000000000 then iso_day (seconds / 86400)
  else "unix " +:+ toString seconds.

Definition readLe (bytes : bytes) (offset size : nat) : Z := le_val (slice bytes offset size).
Definition readLeSigned (bytes : bytes) (offset size : nat) : Z := le_signed (slice bytes offset size).

Definition COMMITMENT_FIELD_LABELS : list string :=
  ["Card"; "Rules version"; "Budget per period"; "Max per purchase"; "Purchases allowed per period";
   "Shop list fingerprint"; "Category list fingerprint"; "End date and fee"; "Period";
   "Charged this period"; "Held right now"; "Refunded this period"; "Purchases this period";
   "Owed on the statement"; "Frozen"; "Activity log position"].

Definition EXPECTED_LENGTH : list nat := [32; 4; 8; 8; 2; 32; 32; 11; 20; 8; 8; 8; 2; 8; 2; 40]%nat.

Module CommitmentFieldView.
Record t : Type := mk { i : Z; label : string; value : string; detail : option string }.
End CommitmentFieldView.

Definition nth_of {A} (l : list A) (i : Z) : option A := if i <? 0 then None else l !! Z.to_nat i.

(** The two displayed texts never throw here: the values are in range. *)
Definition shown (r : result string) : string := match r with Ok s => s | Throw _ => "" end.

Definition describeCommitmentLeaf `{K : PublicKeys} (i : Z) (value : bytes) : CommitmentFieldView.t :=
  let label := default ("Field " +:+ toString i) (nth_of COMMITMENT_FIELD_LABELS i) in
  let view := CommitmentFieldView.mk i label in
  if negb (bool_decide (nth_of EXPECTED_LENGTH i = Some (length value)))
  then view "Unreadable value" None
  else
    let cents := shown (formatUsdCents (UBigint (readLe value 0 8))) in
    match i with
    | 0 => view (toBase58 value) None
    | 1 => view ("Version " +:+ toString (readLe value 0 4)) None
    | 2 | 3 | 9 | 10 | 11 | 13 => view cents None
    | 4 => let n := readLe value 0 2 in view (if n =? 0 then "No count limit" else toString n) None
    | 12 => view (toString (readLe value 0 2)) None
    | 5 | 6 => view (text (take 16 (chars (bytesToHex value)))) (Some (bytesToHex value))
    | 7 =>
        let end_ := readLeSigned value 0 8 in
        let fee := readLe value 9 2 in
        view ((if end_ =? 0 then "No end date" else "Ends " +:+ dateFromSeconds end_) +:+ " · fee "
              +:+ (if fee <=? 1000 then shown (formatFeeBps (JInt fee)) else toString fee +:+ " bps"))
          (Some (if byte_at value 8 =? 0 then "No repeat charges" else "Repeat charges allowed"))
    | 8 =>
        view ("Period " +:+ toString (readLe value 0 4))
          (Some (dateFromSeconds (readLeSigned value 4 8) +:+ " to "
                 +:+ dateFromSeconds (readLeSigned value 12 8)))
    | 14 =>
        view (if byte_at value 0 =? 0 then "Not frozen" else "Frozen")
          (Some (default "Unknown recovery state" (nth_of
            ["Normal"; "Frozen for recovery"; "Restored, waiting for confirmation"] (byte_at value 1))))
    | 15 =>
        view ("Event " +:+ toString (readLe value 32 8)) (Some (bytesToHex (take 32 value)))
    | _ => view (bytesToHex value) None
    end.

(** ** Verification *)

Module DisclosureLeafCheck.
Record t : Type := mk { i : Z; ok : bool; field : CommitmentFieldView.t }.
End DisclosureLeafCheck.

Module DisclosureCheck.
Inductive t : Type :=
| verified (seq root writtenSlot : string) (leaves : list DisclosureLeafCheck.t)
| mismatch (seq root writtenSlot : string) (leaves : list DisclosureLeafCheck.t)
| superseded (bundleSeq chainSeq : string) (leaves : list DisclosureLeafCheck.t)
| wrong_card (leaves : list DisclosureLeafCheck.t).
End DisclosureCheck.

Section Verify.
Context `{K : PublicKeys, H : Sha256}.

Definition described (leaf : DisclosedLeaf.t) : result DisclosureLeafCheck.t :=
  let! value := hexToBytes leaf.(DisclosedLeaf.value) in
  Ok (DisclosureLeafCheck.mk leaf.(DisclosedLeaf.i) false
    (describeCommitmentLeaf leaf.(DisclosedLeaf.i) value)).

Definition with_ok (ok : bool) (c : DisclosureLeafCheck.t) : DisclosureLeafCheck.t :=
  DisclosureLeafCheck.mk c.(DisclosureLeafCheck.i) ok c.(DisclosureLeafCheck.field).

Definition verifyDisclosureBundle (bundle : DisclosureBundle.t) (commitment : CardCommitment.t)
    : result DisclosureCheck.t :=
  let leaves := bundle.(DisclosureBundle.leaves) in
  let! views := traverse described leaves in
  let! chain_card := newPublicKey commitment.(CardCommitment.binding) in
  let! bundle_card := newPublicKey bundle.(DisclosureBundle.binding) in
  if negb (bool_decide (toBase58 chain_card = toBase58 bundle_card))
  then Ok (DisclosureCheck.wrong_card views)
  else
    let binding_leaf := List.find (λ leaf, leaf.(DisclosedLeaf.i) =? 0) leaves in
    if match binding_leaf with
       | Some leaf => negb (bool_decide (leaf.(DisclosedLeaf.value) = bytesToHex bundle_card))
       | None => false
       end
    then Ok (DisclosureCheck.wrong_card views)
    else
      let chain_seq := toString commitment.(CardCommitment.seq) in
      if negb (bool_decide (chain_seq = bundle.(DisclosureBundle.commitmentSeq)))
      then Ok (DisclosureCheck.superseded bundle.(DisclosureBundle.commitmentSeq) chain_seq views)
      else
        let root := bytesToHex commitment.(CardCommitment.root) in
        let! roots := traverse recomputeDisclosedRoot leaves in
        let checked := zip_with (λ c r, with_ok (bool_decide (bytesToHex r = root)) c) views roots in
        let slot := toString commitment.(CardCommitment.writtenSlot) in
        Ok ((if forallb DisclosureLeafCheck.ok checked
             then DisclosureCheck.verified else DisclosureCheck.mismatch) chain_seq root slot checked).
End Verify.

(** ** The tree *)

Lemma lxor_even k : Nat.lxor (2 * k) 1 = (2 * k + 1)%nat.
Proof.
  symmetry. apply Nat.add_nocarry_lxor. change 1%nat with (Nat.ones 1).
  rewrite Nat.land_ones. change (2 ^ 1)%nat with 2%nat. rewrite Nat.mul_comm. apply Nat.Div0.mod_mul.
Qed.

Lemma lxor_odd k : Nat.lxor (2 * k + 1) 1 = (2 * k)%nat.
Proof. by rewrite <- lxor_even, Nat.lxor_assoc, Nat.lxor_nilpotent, Nat.lxor_0_r. Qed.

Lemma shiftr_nat n : Z.shiftr (Z.of_nat n) 1 = Z.of_nat (Nat.div2 n).
Proof. rewrite Z.shiftr_div_pow2 by lia. rewrite Nat.div2_div. by rewrite Nat2Z.inj_div. Qed.

Section Tree.
Context `{H : Sha256}.

Definition at_ (level : list bytes) (k : nat) : bytes := default [] (level !! k).

Lemma next_level_length n level : length level = (2 * n)%nat → length (next_level level) = n.
Proof.
  revert level; induction n as [|n IH]; intros level L.
  - by apply nil_length_inv in L as ->.
  - destruct level as [|a [|b level]]; simpl in L; try lia. simpl. f_equal. apply IH. lia.
Qed.

Lemma next_level_at n level k :
  length level = (2 * n)%nat → (k < n)%nat →
  at_ (next_level level) k = nodeHash (at_ level (2 * k)) (at_ level (2 * k + 1)).
Proof.
  revert level k; induction n as [|n IH]; intros level k L Hk; [lia|].
  destruct level as [|a [|b level]]; simpl in L; try lia.
  destruct k as [|k]; [done|].
  replace (2 * S k + 1)%nat with (S (S (2 * k + 1))) by lia.
  replace (2 * S k)%nat with (S (S (2 * k))) by lia.
  unfold at_ in *. simpl next_level. rewrite !lookup_cons. apply IH; lia.
Qed.

Lemma levels_from_nonempty fuel level : levels_from fuel level ≠ [].
Proof. by destruct fuel. Qed.

Lemma root_of_cons level tree : tree ≠ [] → root_of (level :: tree) = root_of tree.
Proof. by destruct tree. Qed.

Lemma siblings_cons level tree idx :
  tree ≠ [] → siblings (level :: tree) idx = at_ level (Nat.lxor idx 1) :: siblings tree (Nat.div2 idx).
Proof. by destruct tree. Qed.

(** One step up the tree: the level halves, the node of [idx] is hashed with
    its sibling on the right side. *)
Lemma levels_step k fuel level :
  length level = (2 ^ S k)%nat →
  levels_from (S fuel) level = level :: levels_from fuel (next_level level) ∧
  length (next_level level) = (2 ^ k)%nat.
Proof.
  intros L. pose proof (Nat.pow_nonzero 2 k). cbn [levels_from].
  change (2 ^ S k)%nat with (2 * 2 ^ k)%nat in L.
  rewrite (proj2 (Nat.leb_gt _ _)) by lia. split; [done | by apply next_level_length].
Qed.

Lemma levels_top fuel a : levels_from fuel [a] = [[a]].
Proof. by destruct fuel. Qed.

Lemma parity idx : Nat.div2 idx = Nat.div2 idx ∧
  ((idx = 2 * Nat.div2 idx)%nat ∧ (Z.rem (Z.of_nat idx) 2 =? 0) = true ∨
   (idx = 2 * Nat.div2 idx + 1)%nat ∧ (Z.rem (Z.of_nat idx) 2 =? 0) = false).
Proof.
  split; [done|]. pose proof (Nat.div2_odd idx) as E. rewrite Z.rem_mod_nonneg by lia.
  destruct (Nat.odd idx); simpl in E; [right | left]; (split; [lia|]).
  - apply Z.eqb_neq. rewrite E at 1. rewrite Nat.add_0_r.
    replace (Z.of_nat (Nat.div2 idx + Nat.div2 idx + 1)) with (1 + Z.of_nat (Nat.div2 idx) * 2) by lia.
    rewrite Z.mod_add by lia. done.
  - apply Z.eqb_eq. rewrite E at 1.
    replace (Z.of_nat (Nat.div2 idx + (Nat.div2 idx + 0) + 0)) with (Z.of_nat (Nat.div2 idx) * 2) by lia.
    apply Z.mod_mul. lia.
Qed.

(** Climbing from a node with its siblings reaches the root. *)
Lemma climb_siblings k fuel level idx :
  length level = (2 ^ k)%nat → (k <= fuel)%nat → (idx < 2 ^ k)%nat →
  climb (Z.of_nat idx) (at_ level idx) (siblings (levels_from fuel level) idx)
    = root_of (levels_from fuel level).
Proof.
  revert fuel level idx; induction k as [|k IH]; intros fuel level idx L Hf Hidx.
  - destruct level as [|a [|]]; simpl in L; try lia. rewrite levels_top. simpl in *.
    by replace idx with 0%nat by lia.
  - destruct fuel as [|fuel]; [lia|].
    destruct (levels_step k fuel level L) as [-> L'].
    rewrite siblings_cons, root_of_cons by apply levels_from_nonempty. cbn [climb].
    rewrite shiftr_nat. destruct (parity idx) as [_ Hpar].
    change (2 ^ S k)%nat with (2 * 2 ^ k)%nat in L, Hidx.
    rewrite <- (IH fuel (next_level level) (Nat.div2 idx)) by lia.
    rewrite (next_level_at (2 ^ k)) by lia. f_equal.
    destruct Hpar as [[E ->]|[E ->]]; rewrite E at 1 2.
    + by rewrite lxor_even, <- E.
    + by rewrite lxor_odd, <- E.
Qed.

(** ** Inputs of the hash *)

Fixpoint level_inputs (level : list bytes) : list bytes :=
  match level with
  | l :: r :: rest => node_preimage l r :: level_inputs rest
  | _ => []
  end.

Definition tree_inputs (tree : list (list bytes)) : list bytes := concat (map level_inputs tree).

Fixpoint climb_inputs (idx : Z) (acc : bytes) (proof : list bytes) : list bytes :=
  match proof with
  | [] => []
  | node :: proof =>
      let x := if Z.rem idx 2 =? 0 then node_preimage acc node else node_preimage node acc in
      x :: climb_inputs (Z.shiftr idx 1) (sha256 x) proof
  end.

(** No two of these byte strings collide. *)
Definition collision_free (inputs : list bytes) : Prop :=
  ∀ x y, x ∈ inputs → y ∈ inputs → sha256 x = sha256 y → x = y.

Lemma collision_free_weaken xs ys :
  (∀ x, x ∈ xs → x ∈ ys) → collision_free ys → collision_free xs.
Proof. intros Hsub Hc x y Hx Hy. by apply Hc; apply Hsub. Qed.

Lemma level_inputs_at n level k :
  length level = (2 * n)%nat → (k < n)%nat →
  node_preimage (at_ level (2 * k)) (at_ level (2 * k + 1)) ∈ level_inputs level.
Proof.
  revert level k; induction n as [|n IH]; intros level k L Hk; [lia|].
  destruct level as [|a [|b level]]; simpl in L; try lia.
  destruct k as [|k]; [by left|].
  replace (2 * S k + 1)%nat with (S (S (2 * k + 1))) by lia.
  replace (2 * S k)%nat with (S (S (2 * k))) by lia.
  right. apply (IH level); lia.
Qed.

Lemma node_preimage_inj a b c d :
  length a = length c → node_preimage a b = node_preimage c d → a = c ∧ b = d.
Proof. intros L E. unfold node_preimage in E. simpl in E. injection E as E. by apply app_inj_1. Qed.

Context (sha256_length : ∀ x, length (sha256 x) = 32%nat).

Lemma next_level_32 level : Forall (λ b, length b = 32%nat) (next_level level).
Proof.
  assert (∀ n level, (length level <= n)%nat → Forall (λ b, length b = 32%nat) (next_level level)) as Hn;
    [|by apply (Hn (length level))].
  clear level. induction n as [|n IH]; intros level L.
  - destruct level; simpl in L; [constructor | lia].
  - destruct level as [|a [|b level]]; [constructor | constructor |]. simpl in *. constructor.
    + apply sha256_length.
    + apply IH. lia.
Qed.

Lemma at_32 level k : Forall (λ b, length b = 32%nat) level → (k < length level)%nat →
  length (at_ level k) = 32%nat.
Proof.
  intros HF Hk. apply lookup_lt_is_Some_2 in Hk as (b & Hb). unfold at_. rewrite Hb. simpl.
  rewrite Forall_forall in HF. apply HF. by eapply list_elem_of_lookup_2.
Qed.

(** Only the committed node climbs to the root. *)
Lemma climb_sound k fuel level idx acc proof :
  length level = (2 ^ k)%nat → (k <= fuel)%nat → (idx < 2 ^ k)%nat → length proof = k →
  Forall (λ b, length b = 32%nat) level → Forall (λ b, length b = 32%nat) proof →
  length acc = 32%nat →
  collision_free (climb_inputs (Z.of_nat idx) acc proof ++ tree_inputs (levels_from fuel level)) →
  climb (Z.of_nat idx) acc proof = root_of (levels_from fuel level) →
  at_ level idx = acc.
Proof.
  revert fuel level idx acc proof;
    induction k as [|k IH]; intros fuel level idx acc proof L Hf Hidx Lp HL HP Hacc Hc E.
  - destruct level as [|a [|]]; simpl in L; try lia. destruct proof; [|done].
    rewrite levels_top in E. simpl in *. by replace idx with 0%nat by lia.
  - destruct fuel as [|fuel]; [lia|]. destruct proof as [|node proof]; [done|].
    destruct (levels_step k fuel level L) as [Etree L']. rewrite Etree in Hc, E.
    rewrite root_of_cons in E by apply levels_from_nonempty. cbn [climb climb_inputs] in E, Hc.
    rewrite shiftr_nat in E, Hc. destruct (parity idx) as [_ Hpar].
    change (2 ^ S k)%nat with (2 * 2 ^ k)%nat in L, Hidx.
    apply Forall_cons in HP as [Hnode HP].
    set (x := if Z.rem (Z.of_nat idx) 2 =? 0 then node_preimage acc node else node_preimage node acc) in *.
    assert ((if Z.rem (Z.of_nat idx) 2 =? 0 then nodeHash acc node else nodeHash node acc) = sha256 x)
      as Ex by (unfold x, nodeHash; by destruct (Z.rem (Z.of_nat idx) 2 =? 0)).
    rewrite Ex in E.
    assert (at_ (next_level level) (Nat.div2 idx) = sha256 x) as Hup.
    { apply (IH fuel (next_level level) (Nat.div2 idx) (sha256 x) proof); try done; try lia.
      - simpl in Lp. lia.
      - apply next_level_32.
      - eapply collision_free_weaken; [|exact Hc]. intros y [Hy|Hy]%elem_of_app.
        + apply elem_of_app. left. by right.
        + apply elem_of_app. right. unfold tree_inputs. simpl. apply elem_of_app. by right. }
    rewrite (next_level_at (2 ^ k)) in Hup by lia. unfold nodeHash in Hup.
    apply Hc in Hup; [| |apply elem_of_app; left; by left].
    + assert (length (at_ level (2 * Nat.div2 idx)) = 32%nat) by (apply at_32; [done | lia]).
      unfold x in Hup. destruct Hpar as [[Ei Hz]|[Ei Hz]]; rewrite Hz in Hup;
        apply node_preimage_inj in Hup as [H1 H2]; try congruence; by rewrite Ei.
    + apply elem_of_app. right. unfold tree_inputs. simpl. apply elem_of_app. left.
      apply (level_inputs_at (2 ^ k)); lia.
Qed.
End Tree.

(** ** Leaves and roots *)

Lemma leaf_index_bound indices i :
  forallb leaf_index indices = true → i ∈ sort_by Z.leb (remove_dups (map bigint_of indices)) →
  0 <= i < 16.
Proof.
  intros Hall Hi. apply sort_by_elem, elem_of_remove_dups, list_elem_of_In, in_map_iff in Hi as (n & <- & Hn).
  rewrite forallb_forall in Hall. apply Hall in Hn. unfold leaf_index in Hn.
  destruct n; try done. bool_reflect. unfold COMMITMENT_LEAF_COUNT in *. simpl. lia.
Qed.

Class Sha256Spec (H : Sha256) : Prop := sha256_length x : length (sha256 x) = 32%nat.

Lemma hexToBytes_bytesToHex b : hexToBytes (bytesToHex b) = Ok b.
Proof. unfold hexToBytes. by rewrite hex_pairs_bytesToHex. Qed.

Lemma traverse_hex bs : traverse hexToBytes (map bytesToHex bs) = Ok bs.
Proof.
  apply traverse_ok. induction bs; constructor; [apply hexToBytes_bytesToHex | done].
Qed.

Section CommitmentProperties.
Context `{K : PublicKeys, KS : !PublicKeysSpec K, H : Sha256, HS : !Sha256Spec H}.

(** The committed salts: [sha256(masterSalt || i)]. *)
Definition salt_of (masterSalt : bytes) (i : nat) : bytes :=
  sha256 (masterSalt ++ [byte_of (Z.of_nat i)]).

Definition committed_leaves (masterSalt : bytes) (values : list bytes) : list bytes :=
  imap (λ i value, leafHash (Z.of_nat i) (salt_of masterSalt i) value) values.

Lemma salts_ok masterSalt n salts :
  traverse (λ i, leafSalt masterSalt (Z.of_nat i)) (seq 0 n) = Ok salts →
  (n = 0%nat ∨ length masterSalt = 32%nat) ∧ salts = map (salt_of masterSalt) (seq 0 n).
Proof.
  intros E. apply traverse_ok in E. split.
  - destruct n; [by left|]. right. inversion_clear E as [|? ? ? ? Hs]. unfold leafSalt in Hs.
    inv_ok Hs. bool_reflect. by apply Nat.eqb_eq.
  - induction E as [|i s is_ ss Hi _ IH]; simpl; [done|]. f_equal; [|done].
    unfold leafSalt in Hi. by inv_ok Hi.
Qed.

Lemma leaf_hashes_committed masterSalt values :
  leaf_hashes (map (salt_of masterSalt) (seq 0 (length values))) values
    = committed_leaves masterSalt values.
Proof.
  unfold leaf_hashes, committed_leaves. apply list_eq. intros i.
  rewrite !list_lookup_imap, lookup_zip_with, list_lookup_fmap.
  destruct (values !! i) as [v|] eqn:E.
  - rewrite lookup_seq_lt by (by eapply lookup_lt_Some). done.
  - simpl. destruct (salt_of masterSalt <$> seq 0 (length values) !! i); done.
Qed.

Lemma committed_leaves_length masterSalt values :
  length (committed_leaves masterSalt values) = length values.
Proof. apply length_imap. Qed.

Lemma levels_ok leaves tree :
  levels leaves = Ok tree → length leaves = 16%nat ∧ tree = levels_from 16 leaves.
Proof.
  unfold levels. intros E. inv_ok E. bool_reflect. apply Nat.eqb_eq in G.
  split; [exact G | by rewrite <- E, G].
Qed.

(** The commitment of a policy and period under a salt. *)
Lemma commitmentRoot_ok policy period masterSalt root :
  commitmentRoot policy period masterSalt = Ok root →
  ∃ values, commitmentLeafValues policy period = Ok values ∧ length values = 16%nat ∧
    length masterSalt = 32%nat ∧
    root = root_of (levels_from 16 (committed_leaves masterSalt values)).
Proof.
  unfold commitmentRoot. intros E. inv_ok E. subst root.
  apply salts_ok in E1 as [Hm ->]. rewrite leaf_hashes_committed in E2.
  apply levels_ok in E2 as [L ->]. rewrite committed_leaves_length in L.
  exists a. split_and!; try done. destruct Hm as [Hm|]; [lia | done].
Qed.

Lemma committed_at masterSalt values i v :
  values !! i = Some v →
  at_ (committed_leaves masterSalt values) i = leafHash (Z.of_nat i) (salt_of masterSalt i) v.
Proof. intros E. unfold at_, committed_leaves. by rewrite list_lookup_imap, E. Qed.

Lemma buildDisclosureBundle_ok policy period masterSalt seq_ indices b :
  buildDisclosureBundle policy period masterSalt seq_ indices = Ok b →
  ∃ values k,
    commitmentLeafValues policy period = Ok values ∧ length values = 16%nat ∧
    newPublicKey policy.(CardPolicy.binding) = Ok k ∧
    forallb leaf_index indices = true ∧
    b = DisclosureBundle.mk policy.(CardPolicy.binding) (toString seq_)
      (map (λ i, DisclosedLeaf.mk i (bytesToHex (at_ values (Z.to_nat i)))
                   (bytesToHex (salt_of masterSalt (Z.to_nat i)))
                   (map bytesToHex (siblings (levels_from 16 (committed_leaves masterSalt values))
                      (Z.to_nat i))))
        (sort_by Z.leb (remove_dups (map bigint_of indices)))).
Proof.
  unfold buildDisclosureBundle. intros E. inv_ok E. bool_reflect. subst b.
  apply salts_ok in E1 as [Hm ->]. rewrite leaf_hashes_committed in E2.
  apply levels_ok in E2 as [L ->]. rewrite committed_leaves_length in L.
  exists a, a2. split_and!; try done.
  rewrite (toBase58_newPublicKey _ _ E3). f_equal. apply map_ext_in. intros i Hi.
  apply list_elem_of_In, (leaf_index_bound _ _ G0) in Hi.
  f_equal. f_equal. rewrite list_lookup_fmap, lookup_seq_lt by lia. done.
Qed.

(** A disclosed leaf of the bundle climbs to the root. *)
Lemma disclosed_root masterSalt values i :
  length values = 16%nat → 0 <= i < 16 →
  recomputeDisclosedRoot (DisclosedLeaf.mk i (bytesToHex (at_ values (Z.to_nat i)))
      (bytesToHex (salt_of masterSalt (Z.to_nat i)))
      (map bytesToHex (siblings (levels_from 16 (committed_leaves masterSalt values)) (Z.to_nat i))))
    = Ok (root_of (levels_from 16 (committed_leaves masterSalt values))).
Proof.
  intros L Hi. unfold recomputeDisclosedRoot. cbn [DisclosedLeaf.leafSalt DisclosedLeaf.value
    DisclosedLeaf.proof DisclosedLeaf.i].
  rewrite !hexToBytes_bytesToHex, traverse_hex. cbn [bind]. f_equal.
  rewrite <- (climb_siblings 4 16 (committed_leaves masterSalt values) (Z.to_nat i));
    [|by rewrite committed_leaves_length|lia|simpl; lia].
  rewrite Z2Nat.id by lia. f_equal.
  destruct (lookup_lt_is_Some_2 values (Z.to_nat i)) as (v & Hv); [lia|].
  rewrite (committed_at _ _ _ _ Hv). unfold at_. rewrite Hv. by rewrite Z2Nat.id by lia.
Qed.

(** An honest disclosure verifies.  A bundle the owner builds from a
    policy, a period and the checkpoint's salt, checked against the
    commitment with the root of the same data, the same card and the same
    sequence number, is reported verified with every field ok, and discloses
    exactly the picked fields, each once, with its committed value. *)
Theorem disclosure_verifies (policy : CardPolicy.t) (period : CardPeriod.t) (masterSalt : bytes)
    (indices : list number) (bundle : DisclosureBundle.t) (c : CardCommitment.t) :
  buildDisclosureBundle policy period masterSalt c.(CardCommitment.seq) indices = Ok bundle →
  commitmentRoot policy period masterSalt = Ok c.(CardCommitment.root) →
  c.(CardCommitment.binding) = policy.(CardPolicy.binding) →
  (∃ leaves,
    verifyDisclosureBundle bundle c = Ok (DisclosureCheck.verified (toString c.(CardCommitment.seq))
      (bytesToHex c.(CardCommitment.root)) (toString c.(CardCommitment.writtenSlot)) leaves)) ∧
  (∀ i, i ∈ map DisclosedLeaf.i bundle.(DisclosureBundle.leaves) ↔ JInt i ∈ indices) ∧
  (∃ values, commitmentLeafValues policy period = Ok values ∧
    ∀ leaf, leaf ∈ bundle.(DisclosureBundle.leaves) →
      hexToBytes leaf.(DisclosedLeaf.value) = Ok (at_ values (Z.to_nat leaf.(DisclosedLeaf.i)))).
Proof.
  intros Hb Hroot Hbind.
  apply buildDisclosureBundle_ok in Hb as (values & k & Hv & L & Hk & Hidx & ->).
  apply commitmentRoot_ok in Hroot as (values' & Hv' & _ & _ & Hroot).
  assert (values' = values) as -> by congruence.
  set (picked := sort_by Z.leb (remove_dups (map bigint_of indices))).
  assert (∀ i, i ∈ picked → 0 <= i < 16) as Hpicked by (intros i; by apply leaf_index_bound).
  set (leaf := λ i, DisclosedLeaf.mk i (bytesToHex (at_ values (Z.to_nat i)))
    (bytesToHex (salt_of masterSalt (Z.to_nat i)))
    (map bytesToHex (siblings (levels_from 16 (committed_leaves masterSalt values)) (Z.to_nat i)))).
  split_and!; cbn [DisclosureBundle.leaves].
  - unfold verifyDisclosureBundle. cbn [DisclosureBundle.leaves DisclosureBundle.binding
      DisclosureBundle.commitmentSeq].
    assert (∃ views, traverse described (map leaf picked) = Ok views) as (views & Eviews).
    { clear. induction picked as [|i l [vs E]]; simpl; [eauto|]. unfold described at 1. simpl.
      rewrite hexToBytes_bytesToHex. simpl. rewrite E. simpl. eauto. }
    rewrite Eviews. cbn [bind]. rewrite Hbind, Hk. cbn [bind]. rewrite bool_decide_true by done.
    cbn [negb].
    assert (match List.find (λ l, l.(DisclosedLeaf.i) =? 0) (map leaf picked) with
      | Some l => negb (bool_decide (l.(DisclosedLeaf.value) = bytesToHex k))
      | None => false end = false) as ->.
    { destruct (List.find _ _) as [l|] eqn:Ef; [|done].
      apply List.find_some in Ef as [Hin Hz]. apply in_map_iff in Hin as (i & <- & _).
      apply Z.eqb_eq in Hz. simpl in Hz. subst i. simpl.
      apply negb_false_iff, bool_decide_eq_true. f_equal.
      unfold commitmentLeafValues in Hv. inv_ok Hv. subst values. unfold at_. simpl. congruence. }
    rewrite bool_decide_true by done. cbn [negb].
    assert (traverse recomputeDisclosedRoot (map leaf picked)
      = Ok (map (λ _, c.(CardCommitment.root)) picked)) as ->.
    { apply traverse_ok. clear Eviews. induction picked as [|i l IH]; constructor.
      - rewrite Hroot. apply disclosed_root; [done|]. apply Hpicked. by left.
      - apply IH. intros j Hj. apply Hpicked. by right. }
    cbn [bind].
    assert (∀ views (l : list Z), forallb DisclosureLeafCheck.ok (zip_with
      (λ c0 r, with_ok (bool_decide (bytesToHex r = bytesToHex c.(CardCommitment.root))) c0)
      views (map (λ _, c.(CardCommitment.root)) l)) = true) as Hall.
    { induction views0 as [|v vs IH]; intros [|i l]; simpl; try done.
      rewrite bool_decide_true by done. apply IH. }
    rewrite Hall. eauto.
  - intros i. rewrite map_map, map_id. unfold picked. rewrite sort_by_elem, elem_of_remove_dups.
    rewrite !list_elem_of_In, in_map_iff. rewrite forallb_forall in Hidx. split.
    + intros (n & <- & Hn). pose proof (Hidx n Hn). by destruct n.
    + intros Hn. by exists (JInt i).
  - exists values. split; [done|]. intros l Hl. apply list_elem_of_In, in_map_iff in Hl as (i & <- & _).
    apply hexToBytes_bytesToHex.
Qed.

(** Every byte string hashed by the commitment and by one disclosed leaf. *)
Definition disclosure_inputs (masterSalt : bytes) (values : list bytes) (i : nat)
    (salt value : bytes) (proof : list bytes) : list bytes :=
  leaf_preimage (Z.of_nat i) salt value
  :: leaf_preimage (Z.of_nat i) (salt_of masterSalt i) (at_ values i)
  :: climb_inputs (Z.of_nat i) (leafHash (Z.of_nat i) salt value) proof
  ++ tree_inputs (levels_from 16 (committed_leaves masterSalt values)).

(** Only the committed value climbs to the root.  If a disclosed leaf of the
    shape a fragment is read as (an index below 16, a 32-byte salt, four 32-byte
    siblings) recomputes to the root of a commitment, and the byte strings hashed
    on the way do not collide with those of the commitment, then its value and
    its salt are the committed ones. *)
Lemma leaf_sound (policy : CardPolicy.t) (period : CardPeriod.t) (masterSalt : bytes)
    (root : bytes) (values : list bytes) (leaf : DisclosedLeaf.t) (i : nat)
    (salt value : bytes) (proof : list bytes) :
  commitmentRoot policy period masterSalt = Ok root →
  commitmentLeafValues policy period = Ok values →
  leaf.(DisclosedLeaf.i) = Z.of_nat i → (i < 16)%nat →
  hexToBytes leaf.(DisclosedLeaf.leafSalt) = Ok salt → length salt = 32%nat →
  hexToBytes leaf.(DisclosedLeaf.value) = Ok value →
  traverse hexToBytes leaf.(DisclosedLeaf.proof) = Ok proof → length proof = 4%nat →
  Forall (λ b, length b = 32%nat) proof →
  collision_free (disclosure_inputs masterSalt values i salt value proof) →
  recomputeDisclosedRoot leaf = Ok root →
  value = at_ values i ∧ salt = salt_of masterSalt i.
Proof.
  intros Hroot Hv Ei Hi Hsalt Ls Hvalue Hproof Lp HP Hc Hrec.
  apply commitmentRoot_ok in Hroot as (values' & Hv' & L & _ & ->).
  assert (values' = values) as -> by congruence.
  unfold recomputeDisclosedRoot in Hrec. rewrite Hsalt, Hvalue, Hproof in Hrec. cbn [bind] in Hrec.
  injection Hrec as Hrec. rewrite Ei in Hrec.
  assert (at_ (committed_leaves masterSalt values) i = leafHash (Z.of_nat i) salt value) as Hleaf.
  { apply (climb_sound sha256_length 4 16 (committed_leaves masterSalt values) i
      (leafHash (Z.of_nat i) salt value) proof).
    - by rewrite committed_leaves_length.
    - lia.
    - simpl. lia.
    - done.
    - unfold committed_leaves. apply Forall_lookup. intros j b Hb.
      rewrite list_lookup_imap in Hb. destruct (values !! j); simpl in Hb; [|done].
      injection Hb as <-. apply sha256_length.
    - done.
    - apply sha256_length.
    - eapply collision_free_weaken; [|exact Hc]. intros x Hx. unfold disclosure_inputs.
      right. by right.
    - done. }
  destruct (lookup_lt_is_Some_2 values i) as (v & Ev); [lia|].
  rewrite (committed_at _ _ _ _ Ev) in Hleaf.
  assert (at_ values i = v) as Ea by (unfold at_; by rewrite Ev).
  apply Hc in Hleaf; [| rewrite <- Ea; right; left | left].
  unfold leaf_preimage in Hleaf. apply app_inv_head in Hleaf. simpl in Hleaf.
  injection Hleaf as Hleaf. apply app_inj_1 in Hleaf as [Hs Hval].
  - by rewrite Ea.
  - rewrite Ls. apply sha256_length.
Qed.

(** Every committed leaf has the fixed length its field is displayed
    with, so no committed value is shown as unreadable. *)
Theorem commitmentLeafValues_lengths (policy : CardPolicy.t) (period : CardPeriod.t)
    (values : list bytes) :
  commitmentLeafValues policy period = Ok values → length policy.(CardPolicy.ledgerHead) = 32%nat →
  map length values = EXPECTED_LENGTH.
Proof.
  unfold commitmentLeafValues. intros E Hl. inv_ok E. subst values.
  unfold le. cbn [map]. rewrite !length_app, !le_bytes_length, !sha256_length, Hl.
  by rewrite (newPublicKey_length _ _ E0).
Qed.
End CommitmentProperties.

(** ** Witnesses: a stand-in hash *)

Definition model_hash : Sha256 := λ bs,
  le_bytes 32 (foldl (λ acc b, Z.land (acc * 257 + byte_val b + 1) 18446744073709551615) 7 bs).

Lemma model_hash_spec : Sha256Spec model_hash.
Proof. intros x. apply le_bytes_length. Qed.

Definition sample_salt : bytes := sample_key 70.

Definition from_ok {A} (d : A) (r : result A) : A := match r with Ok a => a | Throw _ => d end.

Definition sample_values : list bytes :=
  Eval vm_compute in from_ok [] (@commitmentLeafValues Base58.keys model_hash sample_card_policy sample_card_period).
Definition sample_root : bytes :=
  Eval vm_compute in from_ok [] (@commitmentRoot Base58.keys model_hash sample_card_policy sample_card_period sample_salt).

Lemma sample_values_ok :
  @commitmentLeafValues Base58.keys model_hash sample_card_policy sample_card_period = Ok sample_values.
Proof. vm_compute. reflexivity. Qed.

Lemma sample_root_ok :
  @commitmentRoot Base58.keys model_hash sample_card_policy sample_card_period sample_salt
    = Ok sample_root.
Proof. vm_compute. reflexivity. Qed.

Definition sample_chain_commitment : CardCommitment.t :=
  CardCommitment.mk sample_card_policy.(CardPolicy.binding) 4 sample_root (JInt 3) (JInt 1) 250000000
    (JInt 249).

Definition sample_indices : list number := [JInt 9; JInt 0; JInt 2; JInt 9].

Definition sample_bundle : DisclosureBundle.t :=
  Eval vm_compute in from_ok (DisclosureBundle.mk "" "" [])
    (@buildDisclosureBundle Base58.keys model_hash sample_card_policy sample_card_period sample_salt 4
      sample_indices).

Lemma sample_bundle_ok :
  @buildDisclosureBundle Base58.keys model_hash sample_card_policy sample_card_period sample_salt
    sample_chain_commitment.(CardCommitment.seq) sample_indices = Ok sample_bundle.
Proof. vm_compute. reflexivity. Qed.

Lemma disclosure_verifies_witness :
  ∃ seq_ root slot leaves, @verifyDisclosureBundle Base58.keys model_hash sample_bundle
    sample_chain_commitment = Ok (DisclosureCheck.verified seq_ root slot leaves).
Proof.
  destruct (@disclosure_verifies Base58.keys Base58.keys_spec model_hash
    sample_card_policy sample_card_period sample_salt sample_indices sample_bundle
    sample_chain_commitment sample_bundle_ok sample_root_ok eq_refl) as ((leaves & E) & _).
  exact (ex_intro _ _ (ex_intro _ _ (ex_intro _ _ (ex_intro _ leaves E)))).
Defined.

Lemma collision_free_check `{H : Sha256} (inputs : list bytes) :
  (let pairs := map (λ x, (x, sha256 x)) inputs in
   forallb (λ p, forallb (λ q, negb (bool_decide (p.2 = q.2)) || bool_decide (p.1 = q.1)) pairs) pairs)
    = true → collision_free inputs.
Proof.
  cbv zeta. rewrite forallb_forall. intros Hall x y Hx Hy E.
  apply list_elem_of_In, (in_map (λ x, (x, sha256 x))), Hall in Hx. rewrite forallb_forall in Hx.
  apply list_elem_of_In, (in_map (λ x, (x, sha256 x))), Hx in Hy. simpl in Hy.
  rewrite bool_decide_true in Hy by done. simpl in Hy. by apply bool_decide_eq_true in Hy.
Qed.

Lemma sample_ledger_head : length sample_card_policy.(CardPolicy.ledgerHead) = 32%nat.
Proof. apply le_bytes_length. Qed.

Lemma commitmentLeafValues_lengths_witness : map length sample_values = EXPECTED_LENGTH.
Proof.
  exact (@commitmentLeafValues_lengths Base58.keys Base58.keys_spec model_hash model_hash_spec
    sample_card_policy sample_card_period sample_values sample_values_ok sample_ledger_head).
Defined.
