(* ===== verification/Store.v ===== *)
(** * The document store (the Convex database the [convex/] functions run on)

    Convex is a service, so its tables are an interface: documents under opaque
    ids, [insert], [replace]/[patch], [delete], and index queries that return the
    documents of a range, each once, in the order of the index.  A mutation is a
    transaction: it takes the tables and returns a value with the new tables, or
    throws and changes nothing, which is [result] with explicit state passing.
    [Model] is the instance the examples run on. *)
From Stdlib Require Import ZArith Lia Sorting.Sorted.
From stdpp Require Import base numbers strings list fin_maps gmap.
From S2P Require Import Prelude.

(** [_id] *)
Abbreviation DocId := positive.

Class Db : Type := {
  table : Type → Type;
  docs {D : Type} : table D → gmap DocId D;
  (** [ctx.db.insert] *)
  insert_doc {D : Type} : D → table D → DocId * table D;
  (** [ctx.db.replace], and [ctx.db.patch] with the patched document *)
  put_doc {D : Type} : DocId → D → table D → table D;
  (** [ctx.db.delete] *)
  delete_doc {D : Type} : DocId → table D → table D;
  (** [ctx.db.query(..).withIndex(..)]: the documents in the range, in the
      index's ascending order *)
  query {D : Type} : (D → bool) → (D → D → bool) → table D → list (DocId * D);
}.

(** A total preorder, as an index's key order is. *)
Record index_order {D} (leb : D → D → bool) : Prop := {
  order_total x y : leb x y = false → leb y x = true;
  order_trans x y z : leb x y = true → leb y z = true → leb x z = true;
}.

Class DbSpec (B : Db) : Prop := {
  insert_fresh D (d : D) (t : table D) : docs t !! (insert_doc d t).1 = None;
  insert_docs D (d : D) (t : table D) :
    docs (insert_doc d t).2 = <[(insert_doc d t).1 := d]> (docs t);
  put_docs D i (d : D) (t : table D) :
    is_Some (docs t !! i) → docs (put_doc i d t) = <[i := d]> (docs t);
  delete_docs D i (t : table D) : docs (delete_doc i t) = delete i (docs t);
  query_elem D (p : D → bool) leb (t : table D) i d :
    (i, d) ∈ query p leb t ↔ docs t !! i = Some d ∧ p d = true;
  query_nodup D (p : D → bool) leb (t : table D) : NoDup (query p leb t).*1;
  query_sorted D (p : D → bool) leb (t : table D) :
    index_order leb → StronglySorted (λ x y, leb x y = true) (query p leb t).*2;
}.

(** [.unique()] *)
Definition unique {D} (rows : list (DocId * D)) : result (option (DocId * D)) :=
  match rows with
  | [] => Ok None
  | [row] => Ok (Some row)
  | _ => Throw "unique() query returned more than one result"
  end.

(** No index order asked for: [.unique()] and [.first()] of one document. *)
Definition unordered {D} (x y : D) : bool := true.

(** ** Lemmas on queries *)

Section Queries.
Context `{B : Db, BS : !DbSpec B}.

(** [unique()] of a range that names at most one document *)
Lemma unique_query {D} (p : D → bool) leb (t : table D) :
  (∀ i j d e, docs t !! i = Some d → docs t !! j = Some e → p d = true → p e = true → i = j) →
  (∃ i d, unique (query p leb t) = Ok (Some (i, d)) ∧ docs t !! i = Some d ∧ p d = true) ∨
  (unique (query p leb t) = Ok None ∧ ∀ i d, docs t !! i = Some d → p d = false).
Proof using BS.
  intros Huniq. pose proof (query_elem D p leb t) as He. pose proof (query_nodup D p leb t) as Hn.
  destruct (query p leb t) as [|[i d] [|[j e] rows]]; simpl.
  - right. split; [done|]. intros i d Hd. destruct (p d) eqn:E; [|done].
    assert ((i, d) ∈ (@nil (DocId * D))) as Hin by (apply He; done). by apply elem_of_nil in Hin.
  - left. exists i, d. split; [done|]. apply He. apply list_elem_of_singleton. done.
  - exfalso. destruct (proj1 (He i d) ltac:(apply elem_of_cons; auto)) as [Hi Hpi].
    destruct (proj1 (He j e) ltac:(rewrite !elem_of_cons; auto)) as [Hj Hpj].
    simpl in Hn. apply NoDup_cons in Hn as [Hn _]. apply Hn. rewrite (Huniq i j d e) by done.
    apply elem_of_cons; auto.
Qed.

Lemma unique_some {D} (p : D → bool) leb (t : table D) i d :
  unique (query p leb t) = Ok (Some (i, d)) → docs t !! i = Some d ∧ p d = true.
Proof using BS.
  intros H. apply (query_elem D p leb). destruct (query p leb t) as [|[j e] [|]]; try done.
  simpl in H. injection H as -> ->. apply list_elem_of_singleton. done.
Qed.

Lemma unique_none {D} (p : D → bool) leb (t : table D) i d :
  unique (query p leb t) = Ok None → docs t !! i = Some d → p d = false.
Proof using BS.
  intros H Hd. destruct (p d) eqn:E; [|done]. exfalso.
  assert ((i, d) ∈ query p leb t) as Hin by (apply query_elem; done).
  destruct (query p leb t) as [|? [|]]; try done. by apply elem_of_nil in Hin.
Qed.

(** A document in the range is the one [unique()] returned. *)
Lemma unique_found {D} (p : D → bool) leb (t : table D) r j e :
  unique (query p leb t) = Ok r → docs t !! j = Some e → p e = true → r = Some (j, e).
Proof using BS.
  intros H He Hp.
  assert ((j, e) ∈ query p leb t) as Hin by (apply query_elem; done).
  destruct (query p leb t) as [|row [|]]; try done.
  - by apply elem_of_nil in Hin.
  - apply list_elem_of_singleton in Hin as <-. by injection H as <-.
Qed.
End Queries.

(** ** Unique columns *)

(** [f] names at most one document: a key column of a well-formed table. *)
Definition unique_on {D K} (f : D → option K) (m : gmap DocId D) : Prop :=
  ∀ i j d e x, m !! i = Some d → m !! j = Some e → f d = Some x → f e = Some x → i = j.

Lemma unique_on_empty {D K} (f : D → option K) : unique_on f ∅.
Proof. intros i j d e x H. by rewrite lookup_empty in H. Qed.

Lemma unique_on_put {D K} (f : D → option K) (m : gmap DocId D) i d :
  unique_on f m → (∀ j e x, j ≠ i → m !! j = Some e → f e = Some x → f d ≠ Some x) →
  unique_on f (<[i := d]> m).
Proof.
  intros Hu Hd a b da db x Ha Hb Hfa Hfb. rewrite lookup_insert_Some in Ha, Hb.
  destruct Ha as [[<- <-]|[Hia Ha]], Hb as [[<- <-]|[Hib Hb]]; try done.
  - exfalso. by apply (Hd b db x).
  - exfalso. by apply (Hd a da x).
  - by apply (Hu a b da db x).
Qed.

Lemma unique_on_delete {D K} (f : D → option K) (m : gmap DocId D) i :
  unique_on f m → unique_on f (delete i m).
Proof. intros Hu a b da db x. rewrite !lookup_delete_Some. intros [_ Ha] [_ Hb]. by apply Hu. Qed.

(** ** Rows found by a key column *)

Section Keyed.
Context `{B : Db, BS : !DbSpec B} {D : Type} (f : D → string).

Definition row_of (t : table D) (key : string) : result (option (DocId * D)) :=
  unique (query (λ d, bool_decide (f d = key)) unordered t).

Definition keyed (t : table D) : Prop := unique_on (λ d, Some (f d)) (docs t).

Lemma row_of_ok t key : keyed t → ∃ r, row_of t key = Ok r.
Proof using BS.
  intros Hu. unfold row_of. destruct (unique_query (λ d, bool_decide (f d = key)) unordered t) as [(i & d & -> & _)|[-> _]]; eauto.
  intros i j d e Hd He ?%bool_decide_eq_true ?%bool_decide_eq_true. apply (Hu i j d e key); congruence.
Qed.

Lemma row_of_some t key i d : row_of t key = Ok (Some (i, d)) → docs t !! i = Some d ∧ f d = key.
Proof using BS. intros [? ?%bool_decide_eq_true]%unique_some. done. Qed.

Lemma row_of_none t key i d : row_of t key = Ok None → docs t !! i = Some d → f d ≠ key.
Proof using BS. intros Hr Hd. by eapply unique_none, bool_decide_eq_false in Hr. Qed.

Lemma row_of_found t key i d : keyed t → docs t !! i = Some d → f d = key → row_of t key = Ok (Some (i, d)).
Proof using BS.
  intros Hu Hd Hf. destruct (row_of_ok t key Hu) as [r Hr]. rewrite Hr. f_equal.
  eapply unique_found; [exact Hr|exact Hd|by apply bool_decide_eq_true].
Qed.

(** Writing the document of a key: it is found, and no other key's row moves. *)
Lemma row_of_put t t' i d :
  keyed t → docs t' = <[i := d]> (docs t) →
  (∀ e, docs t !! i = Some e → f e = f d) → (∀ j e, docs t !! j = Some e → f e = f d → j = i) →
  keyed t' ∧ row_of t' (f d) = Ok (Some (i, d)) ∧ ∀ other, other ≠ f d → row_of t' other = row_of t other.
Proof using BS.
  intros Hu Hd Hi Hj.
  assert (keyed t') as Hu'.
  { unfold keyed. rewrite Hd. apply unique_on_put; [done|]. intros j e x Hne He [= <-] [= Hf]. apply Hne. by eapply Hj. }
  split; [done|]. split; [apply row_of_found; [done| |done]; by rewrite Hd, lookup_insert_eq|].
  intros other Hne. destruct (row_of_ok t other Hu) as [[[j e]|] Hr]; rewrite Hr.
  - apply row_of_some in Hr as [He Hf]. apply row_of_found; [done| |done]. rewrite Hd, lookup_insert_ne; [done|].
    intros <-. rewrite (Hi _ He) in Hf. congruence.
  - destruct (row_of_ok t' other Hu') as [[[j e]|] Hr']; rewrite Hr'; [|done].
    apply row_of_some in Hr' as [He Hf]. rewrite Hd in He. apply lookup_insert_Some in He as [[<- <-]|[_ He]]; [done|].
    by destruct (row_of_none _ _ _ _ Hr He).
Qed.

(** [patch] of the row found, or [insert] *)
Lemma row_of_write t key row d t' :
  keyed t → row_of t key = Ok row → f d = key →
  t' = match row with Some (i, _) => put_doc i d t | None => (insert_doc d t).2 end →
  keyed t' ∧ (∃ i, row_of t' key = Ok (Some (i, d))) ∧ ∀ other, other ≠ key → row_of t' other = row_of t other.
Proof using BS.
  intros Hu Hr <- ->. destruct row as [[i e]|].
  - pose proof (row_of_some _ _ _ _ Hr) as [He Hf].
    destruct (row_of_put t (put_doc i d t) i d Hu) as (H1 & H2 & H3).
    + apply put_docs. eauto.
    + intros e' He'. congruence.
    + intros j e' He' Hf'. apply (Hu j i e' e (f d)); congruence.
    + split; [done|]. split; [by exists i|done].
  - destruct (row_of_put t (insert_doc d t).2 (insert_doc d t).1 d Hu) as (H1 & H2 & H3).
    + apply insert_docs.
    + intros e. by rewrite insert_fresh.
    + intros j e He Hf. by destruct (row_of_none _ _ _ _ Hr He).
    + split; [done|]. split; [by eexists|done].
Qed.
End Keyed.

(** ** A model of the store *)

Module Model.
Definition next_id {D} (m : gmap DocId D) : DocId := map_fold (λ i _ n, Pos.max (Pos.succ i) n) 1%positive m.

Lemma next_id_above {D} (m : gmap DocId D) i d : m !! i = Some d → (i < next_id m)%positive.
Proof.
  unfold next_id. revert i d.
  apply (map_fold_weak_ind (λ n m, ∀ i d, m !! i = Some d → (i < n)%positive)).
  - intros i d H. by rewrite lookup_empty in H.
  - intros j e m' n Hj IH i d H. destruct (decide (i = j)) as [->|Hne].
    + lia.
    + rewrite lookup_insert_ne in H by done. specialize (IH i d H). lia.
Qed.

Definition rows {D} (p : D → bool) (leb : D → D → bool) (m : gmap DocId D) : list (DocId * D) :=
  sort_by (λ x y, leb x.2 y.2) (filter (λ x, p x.2 = true) (map_to_list m)).

#[export] Instance db : Db := {
  table := gmap DocId;
  docs D m := m;
  insert_doc D d m := (next_id m, <[next_id m := d]> m);
  put_doc D i d m := <[i := d]> m;
  delete_doc D i m := delete i m;
  query D p leb m := rows p leb m;
}.

Lemma sorted_snd {D} (leb : D → D → bool) (l : list (DocId * D)) :
  StronglySorted (λ x y, leb x.2 y.2 = true) l → StronglySorted (λ x y, leb x y = true) l.*2.
Proof. induction 1; simpl; constructor; [done|]. by apply Forall_fmap. Qed.

#[export] Instance db_spec : DbSpec db.
Proof.
  split; intros D; simpl.
  - intros d m. destruct (m !! next_id m) eqn:E; [|done]. apply next_id_above in E. lia.
  - done.
  - done.
  - done.
  - intros p leb m i d. unfold rows. rewrite sort_by_elem, list_elem_of_filter, elem_of_map_to_list.
    simpl. tauto.
  - intros p leb m. unfold rows. rewrite sort_by_perm. apply NoDup_fmap_fst.
    + intros i d e Hd He. apply list_elem_of_filter in Hd as [_ Hd], He as [_ He].
      apply elem_of_map_to_list in Hd, He. congruence.
    + apply NoDup_filter, NoDup_map_to_list.
  - intros p leb m [Ht Htr]. apply sorted_snd. unfold rows. apply sort_by_sorted; simpl; eauto.
Qed.
End Model.
