(* ===== verification/Values.v ===== *)
(** * Values at the service boundary

    What arrives in the [any] arguments of the Convex functions and what their
    JSON texts hold: JavaScript values, with the lossless number tokens of
    [lossless-json].  The codecs between text and value ([lossless-json],
    [JSON], [Date.parse]) are the interface [Codec].  Characters are single
    bytes: text outside Latin-1 is not represented. *)
From Stdlib Require Import ZArith Lia Strings.Ascii.
From stdpp Require Import base numbers strings list.
From S2P Require Import Prelude PublicKey Decimal.

#[warnings="-register-all"]
Inductive value : Type :=
| VUndefined
| VNull
| VBool (b : bool)
| VNumber (n : number)
| VLossless (token : string)
| VString (s : string)
| VArray (items : list value)
| VObject (fields : list (string * value)).

Class Codec : Type := {
  (** [parse] and [stringify] of lossless-json *)
  parse : string → option value;
  stringify : value → option string;
  (** [JSON.parse] and [JSON.stringify] *)
  JSON_parse : string → option value;
  JSON_stringify : value → string;
  (** [Date.parse], in milliseconds *)
  Date_parse : string → number;
}.

(** [x == null] *)
Definition nullish (v : value) : bool :=
  match v with VUndefined | VNull => true | _ => false end.

(** [a ?? b] *)
Definition coalesce (a b : value) : value := if nullish a then b else a.

Definition truthy (v : value) : bool :=
  match v with
  | VUndefined | VNull | VNumber JNaN => false
  | VBool b => b
  | VNumber (JInt z) => negb (z =? 0)
  | VString s => negb (bool_decide (s = ""))
  | VNumber _ | VLossless _ | VArray _ | VObject _ => true
  end.

(** [a === b] of two values parsed apart: objects are equal only to themselves. *)
Definition strict_eq (a b : value) : bool :=
  match a, b with
  | VUndefined, VUndefined | VNull, VNull => true
  | VBool a, VBool b => Bool.eqb a b
  | VString a, VString b => bool_decide (a = b)
  | VNumber (JInt a), VNumber (JInt b) => a =? b
  | VNumber (JFrac f p), VNumber (JFrac g q) => bool_decide ((f, p) = (g, q))
  | VNumber (JInfinity a), VNumber (JInfinity b) => Bool.eqb a b
  | _, _ => false
  end.

(** [list.includes(v)] for a list of strings *)
Definition is_one_of (l : list string) (v : value) : bool :=
  match v with VString s => bool_decide (s ∈ l) | _ => false end.

Fixpoint field (fields : list (string * value)) (name : string) : value :=
  match fields with
  | [] => VUndefined
  | (k, v) :: fields => if bool_decide (k = name) then v else field fields name
  end.

(** [v.name], for a [v] that is not null: a number token is an object too. *)
Definition get (v : value) (name : string) : value :=
  match v with
  | VObject fields => field fields name
  | VLossless token => if bool_decide (name = "value") then VString token else VUndefined
  | _ => VUndefined
  end.

Fixpoint set_field (fields : list (string * value)) (name : string) (x : value) : list (string * value) :=
  match fields with
  | [] => [(name, x)]
  | (k, v) :: fields => if bool_decide (k = name) then (k, x) :: fields else (k, v) :: set_field fields name x
  end.

(** [v.name = x] *)
Definition set (v : value) (name : string) (x : value) : value :=
  match v with VObject fields => VObject (set_field fields name x) | _ => v end.

(** [delete v.name] *)
Definition delete_field (v : value) (name : string) : value :=
  match v with
  | VObject fields => VObject (filter (λ f, f.1 ≠ name) fields)
  | _ => v
  end.

(** [String(v)].  A number that is not an integer prints with a point or a
    letter, which no pattern of the code accepts. *)
Fixpoint coerce (v : value) : string :=
  match v with
  | VUndefined => "undefined"
  | VNull => "null"
  | VBool b => if b then "true" else "false"
  | VNumber (JInt z) => toString z
  | VNumber (JFrac f _) => toString f +:+ "."
  | VNumber JNaN => "NaN"
  | VNumber (JInfinity b) => if b then "Infinity" else "-Infinity"
  | VLossless token => token
  | VString s => s
  | VArray items =>
      String.concat "," (map (λ x, if nullish x then "" else coerce x) items)
  | VObject _ => "[object Object]"
  end.

(** [a < b] on strings: by character code *)
Definition str_ltb (a b : string) : bool := String.ltb a b.

(** [new TextEncoder().encode(s).length] *)
Definition utf8_length (s : string) : Z :=
  foldr (λ c n, (if (N_of_ascii c <? 128)%N then 1 else 2) + n) 0 (chars s).

(** The bytes of a string in JSON text, with its quotes *)
Definition json_char_bytes (c : ascii) : Z :=
  let n := Z.of_N (N_of_ascii c) in
  if (n =? 34) || (n =? 92) || ((8 <=? n) && (n <=? 13) && negb (n =? 11)) then 2
  else if n <? 32 then 6
  else if n <? 128 then 1 else 2.
Definition json_string_bytes (s : string) : Z := foldr (λ c n, json_char_bytes c + n) 2 (chars s).

(** [new TextEncoder().encode(JSON.stringify(o)).length] of an object of strings
    and undefined fields, which are left out *)
Definition json_object_bytes (fields : list (string * option string)) : Z :=
  let present := omap (λ f, pair f.1 <$> f.2) fields in
  2 + Z.of_nat (length present - 1)
    + foldr (λ f n, json_string_bytes f.1 + 1 + json_string_bytes f.2 + n) 0 present.

(** ** Field lemmas *)

Lemma field_set fields name x : field (set_field fields name x) name = x.
Proof.
  induction fields as [|[k v] fields IH]; simpl.
  - by rewrite bool_decide_eq_true_2.
  - case_bool_decide; simpl; [by rewrite bool_decide_eq_true_2 | by rewrite bool_decide_eq_false_2].
Qed.

Lemma field_set_ne fields name other x :
  other ≠ name → field (set_field fields name x) other = field fields other.
Proof.
  intros Hne. induction fields as [|[k v] fields IH]; simpl.
  - by rewrite bool_decide_eq_false_2.
  - case_bool_decide; simpl; [subst; by rewrite bool_decide_eq_false_2 | by rewrite IH].
Qed.

Lemma get_set_ne v name other x : other ≠ name → get (set v name x) other = get v other.
Proof. intros Hne. destruct v; simpl; try done. by apply field_set_ne. Qed.

Lemma get_set fields name x : get (set (VObject fields) name x) name = x.
Proof. apply field_set. Qed.

(** ** A model codec

    Texts [k=v;k=v] for objects of strings, used by the examples. *)
Module ModelCodec.
Fixpoint split_on (c : ascii) (cs : list ascii) : list (list ascii) :=
  match cs with
  | [] => [[]]
  | x :: cs =>
      if bool_decide (x = c) then [] :: split_on c cs
      else match split_on c cs with part :: parts => (x :: part) :: parts | [] => [[x]] end
  end.

Definition parse_field (cs : list ascii) : string * value :=
  match split_on "="%char cs with
  | [k; v] => (text k, VString (text v))
  | k :: _ => (text k, VNull)
  | [] => ("", VNull)
  end.

Definition parse_object (s : string) : option value :=
  if bool_decide (s = "") then None else Some (VObject (map parse_field (split_on ";"%char (chars s)))).

Definition print (v : value) : option string :=
  match v with
  | VUndefined => None
  | VObject fields =>
      Some (String.concat ";" (map (λ f, f.1 +:+ "=" +:+ coerce f.2)
        (filter (λ f, nullish f.2 = false) fields)))
  | _ => Some (coerce v)
  end.

#[export] Instance codec : Codec := {
  parse := parse_object;
  stringify := print;
  JSON_parse := parse_object;
  JSON_stringify v := default "" (print v);
  Date_parse _ := JNaN;
}.
End ModelCodec.

(** What the storage code relies on: a number token set in an object is there
    when its text is read back. *)
Class CodecSpec (C : Codec) : Prop := {
  token_kept fields name token s :
    field fields name = VLossless token → decimal_pattern (String.length token) token = true →
    stringify (VObject fields) = Some s → ∃ w, parse s = Some w ∧ get w name = VLossless token;
}.

(** ** Induction on values *)

Section ValueInduction.
Variable P : value → Prop.
Hypothesis P_atom : ∀ v, (∀ items, v ≠ VArray items) → (∀ fields, v ≠ VObject fields) → P v.
Hypothesis P_array : ∀ items, Forall P items → P (VArray items).
Hypothesis P_object : ∀ fields, Forall (λ f, P f.2) fields → P (VObject fields).

Fixpoint value_nested_ind (v : value) : P v :=
  match v with
  | VArray items =>
      P_array items ((fix go l := match l return Forall P l with
        | [] => Forall_nil_2 P
        | x :: l => Forall_cons_2 P x l (value_nested_ind x) (go l) end) items)
  | VObject fields =>
      P_object fields ((fix go l := match l return Forall (λ f : string * value, P f.2) l with
        | [] => Forall_nil_2 _
        | x :: l => Forall_cons_2 _ x l (value_nested_ind x.2) (go l) end) fields)
  | v => P_atom v ltac:(done) ltac:(done)
  end.
End ValueInduction.

(** ** A codec that reads back what it prints

    A self-delimiting text per value, numbers as their tokens, as
    [lossless-json] keeps them. *)
Module TextCodec.
Fixpoint put_text (cs : list ascii) : list ascii :=
  match cs with [] => ["."%char] | c :: cs => "'"%char :: c :: put_text cs end.

Fixpoint get_text (cs : list ascii) : option (list ascii * list ascii) :=
  match cs with
  | "."%char :: rest => Some ([], rest)
  | "'"%char :: c :: rest =>
      match get_text rest with Some (s, rest) => Some (c :: s, rest) | None => None end
  | _ => None
  end.

Fixpoint put (v : value) : list ascii :=
  match v with
  | VUndefined => ["u"%char]
  | VNull => ["n"%char]
  | VBool b => [if b then "t"%char else "f"%char]
  | VNumber n => "l"%char :: put_text (chars (coerce (VNumber n)))
  | VLossless token => "l"%char :: put_text (chars token)
  | VString s => "s"%char :: put_text (chars s)
  | VArray items => "["%char :: flat_map (λ x, ","%char :: put x) items ++ ["]"%char]
  | VObject fields =>
      "{"%char :: flat_map (λ f, ","%char :: put_text (chars f.1) ++ put f.2) fields ++ ["}"%char]
  end.

Fixpoint take_value (fuel : nat) (cs : list ascii) : option (value * list ascii) :=
  match fuel with
  | O => None
  | S fuel =>
      let items := fix items (n : nat) (cs : list ascii) : option (list value * list ascii) :=
        match n, cs with
        | S n, "]"%char :: rest => Some ([], rest)
        | S n, ","%char :: rest =>
            match take_value fuel rest with
            | Some (v, rest) =>
                match items n rest with Some (l, rest) => Some (v :: l, rest) | None => None end
            | None => None
            end
        | _, _ => None
        end in
      let fields := fix fields (n : nat) (cs : list ascii) : option (list (string * value) * list ascii) :=
        match n, cs with
        | S n, "}"%char :: rest => Some ([], rest)
        | S n, ","%char :: rest =>
            match get_text rest with
            | Some (k, rest) =>
                match take_value fuel rest with
                | Some (v, rest) =>
                    match fields n rest with Some (l, rest) => Some ((text k, v) :: l, rest) | None => None end
                | None => None
                end
            | None => None
            end
        | _, _ => None
        end in
      match cs with
      | "u"%char :: rest => Some (VUndefined, rest)
      | "n"%char :: rest => Some (VNull, rest)
      | "t"%char :: rest => Some (VBool true, rest)
      | "f"%char :: rest => Some (VBool false, rest)
      | "l"%char :: rest =>
          match get_text rest with Some (t, rest) => Some (VLossless (text t), rest) | None => None end
      | "s"%char :: rest =>
          match get_text rest with Some (t, rest) => Some (VString (text t), rest) | None => None end
      | "["%char :: rest =>
          match items fuel rest with Some (l, rest) => Some (VArray l, rest) | None => None end
      | "{"%char :: rest =>
          match fields fuel rest with Some (l, rest) => Some (VObject l, rest) | None => None end
      | _ => None
      end
  end.

(** What is read back: numbers as tokens. *)
Fixpoint kept (v : value) : value :=
  match v with
  | VNumber n => VLossless (coerce (VNumber n))
  | VArray items => VArray (map kept items)
  | VObject fields => VObject (map (λ f, (f.1, kept f.2)) fields)
  | v => v
  end.

(** Enough fuel for the value *)
Fixpoint size (v : value) : nat :=
  match v with
  | VArray items => S (foldr (λ x n, S (size x + n)) 1%nat items)
  | VObject fields => S (foldr (λ f n, S (size f.2 + n)) 1%nat fields)
  | _ => 1
  end.

Lemma get_put_text cs rest : get_text (put_text cs ++ rest) = Some (cs, rest).
Proof. induction cs as [|c cs IH]; simpl; [done|]. by rewrite IH. Qed.

Lemma take_put v : ∀ fuel rest, (size v <= fuel)%nat → take_value fuel (put v ++ rest) = Some (kept v, rest).
Proof.
  induction v as [v Ha Ho|items IH|fields IH] using value_nested_ind; intros [|fuel] rest Hf; try (simpl in Hf; lia).
  - destruct v; simpl in Hf; lia.
  - destruct v; simpl; try done.
    + by destruct b.
    + by rewrite get_put_text, text_chars.
    + by rewrite get_put_text, text_chars.
    + by rewrite get_put_text, text_chars.
    + by destruct (Ha items).
    + by destruct (Ho fields).
  - cbn [put take_value kept]. rewrite <- app_comm_cons, <- app_assoc. cbv zeta.
    match goal with |- context [?f fuel (flat_map _ _ ++ _)] =>
      assert (∀ l n, Forall (λ v, ∀ fuel rest, (size v <= fuel)%nat →
          take_value fuel (put v ++ rest) = Some (kept v, rest)) l →
        (foldr (λ x n, S (size x + n)) 1%nat l <= fuel)%nat → (length l < n)%nat →
        f n (flat_map (λ x, ","%char :: put x) l ++ ["]"%char] ++ rest) = Some (map kept l, rest)) as Hitems end.
    { clear. induction l as [|x l IH]; intros [|n] Hall Hsz Hn; simpl in *; try lia; [done|].
      apply Forall_cons in Hall as [Hx Hl]. rewrite <- app_assoc. rewrite Hx by lia.
      rewrite IH by (done || lia). done. }
    rewrite Hitems; [done|done|simpl in Hf; lia|].
    clear -Hf. simpl in Hf. enough (∀ l, (length l < foldr (λ x n, S (size x + n)) 1 l)%nat) by (specialize (H items); lia).
    induction l; simpl; lia.
  - cbn [put take_value kept]. rewrite <- app_comm_cons, <- app_assoc. cbv zeta.
    match goal with |- context [?f fuel (flat_map _ _ ++ _)] =>
      assert (∀ l n, Forall (λ x : string * value, ∀ fuel rest, (size x.2 <= fuel)%nat →
          take_value fuel (put x.2 ++ rest) = Some (kept x.2, rest)) l →
        (foldr (λ x n, S (size x.2 + n)) 1%nat l <= fuel)%nat → (length l < n)%nat →
        f n (flat_map (λ x, ","%char :: put_text (chars x.1) ++ put x.2) l ++ ["}"%char] ++ rest)
          = Some (map (λ x, (x.1, kept x.2)) l, rest)) as Hfields end.
    { clear. induction l as [|[k x] l IH]; intros [|n] Hall Hsz Hn; simpl in *; try lia; [done|].
      apply Forall_cons in Hall as [Hx Hl]. rewrite <- !app_assoc, get_put_text. simpl in Hx. rewrite Hx by lia.
      rewrite IH by (done || lia). by rewrite text_chars. }
    rewrite Hfields; [done|done|simpl in Hf; lia|].
    clear -Hf. simpl in Hf.
    enough (∀ l : list (string * value), (length l < foldr (λ x n, S (size x.2 + n)) 1 l)%nat)
      by (specialize (H fields); lia).
    induction l; simpl; lia.
Qed.

Definition print (v : value) : option string :=
  match v with VUndefined => None | v => Some (text (put v)) end.

(** The fuel: no value is longer than its text. *)
Definition read (s : string) : option value :=
  match take_value (S (String.length s)) (chars s) with Some (v, []) => Some v | _ => None end.

#[export] Instance codec : Codec := {
  parse := read;
  stringify := print;
  JSON_parse := read;
  JSON_stringify v := default "" (print v);
  Date_parse _ := JNaN;
}.

Lemma size_put v : (size v <= length (put v))%nat.
Proof.
  induction v as [v Ha Ho|items IH|fields IH] using value_nested_ind.
  - destruct v; simpl; try lia; [by destruct (Ha items) | by destruct (Ho fields)].
  - cbn [size put length]. rewrite length_app. simpl. induction IH as [|x l Hx _ IHl]; simpl; [lia|].
    rewrite length_app. simpl in *. lia.
  - cbn [size put length]. rewrite length_app. simpl. induction IH as [|x l Hx _ IHl]; simpl; [lia|].
    rewrite !length_app. simpl in *. lia.
Qed.

Lemma length_text cs : String.length (text cs) = length cs.
Proof. induction cs; simpl; [done|]. by f_equal. Qed.

Lemma read_print v s : print v = Some s → read s = Some (kept v).
Proof.
  intros H. assert (s = text (put v)) as -> by (by destruct v; first [done | injection H as <-]).
  unfold read.
  rewrite chars_text. pose proof (take_put v (S (String.length (text (put v)))) []) as Ht.
  rewrite app_nil_r in Ht. rewrite Ht; [done|]. rewrite length_text. pose proof (size_put v). lia.
Qed.

Lemma field_kept fields name : field (map (λ f, (f.1, kept f.2)) fields) name = kept (field fields name).
Proof. induction fields as [|[k v] fields IH]; simpl; [done|]. by case_bool_decide. Qed.

#[export] Instance codec_spec : CodecSpec codec.
Proof.
  split. intros fields name token s Hf _ H. exists (kept (VObject fields)). split; [by apply read_print|].
  simpl. by rewrite field_kept, Hf.
Qed.
End TextCodec.
