(* ===== verification/Records.v ===== *)
(** * Stored records (convex/records.ts)

    The record table every service writes to: a document per (kind, key) with
    its JSON text and the columns its indexes need.  [writeRecord] is the one
    writer: it validates, keeps terminal states and newer records, keeps
    idempotency keys unique, and replaces or inserts in the same transaction. *)
From Stdlib Require Import ZArith Lia Strings.Ascii.
From stdpp Require Import base numbers strings list fin_maps gmap.
From S2P Require Import Prelude Bytes PublicKey Decimal Values Store.

Module RecordKind.
Inductive t : Type :=
| payments | transactions | x402_payments | managed_signer_challenges | managed_signers
| delivery_attestations | receipt_requests | observed_policies | mandate_requests
| cards | card_events | card_statements | card_recovery.
Definition to_string (k : t) : string :=
  match k with
  | payments => "payments" | transactions => "transactions" | x402_payments => "x402_payments"
  | managed_signer_challenges => "managed_signer_challenges" | managed_signers => "managed_signers"
  | delivery_attestations => "delivery_attestations" | receipt_requests => "receipt_requests"
  | observed_policies => "observed_policies" | mandate_requests => "mandate_requests"
  | cards => "cards" | card_events => "card_events" | card_statements => "card_statements"
  | card_recovery => "card_recovery"
  end.
End RecordKind.

#[export] Instance RecordKind_eq_dec : EqDecision RecordKind.t.
Proof. solve_decision. Defined.

(** A document of the [records] table. *)
Module Doc.
Record t : Type := mk {
  kind : RecordKind.t;
  key : string;
  record_json : string;
  source_json : option string;
  idempotency : option string;
  receipt : option string;
  connector : option string;
  reference : option string;
  owner : option string;
  mandate : option string;
  public_key : option string;
  provider_wallet : option string;
  updated : string;
}.
End Doc.

(** [throw new ConvexError({ code, message })] *)
Definition fail {A} (code message : string) : result A := Throw (code +:+ ": " +:+ message).

Definition string_of (v : value) (field : string) : result string :=
  match v with
  | VString s => if bool_decide (s = "") then fail "invalid_argument" (field +:+ " must be a nonempty string") else Ok s
  | _ => fail "invalid_argument" (field +:+ " must be a nonempty string")
  end.

Definition MAX_SAFE : Z := 9007199254740991.

(** [Number.isSafeInteger] *)
Definition is_safe (z : Z) : bool := (- MAX_SAFE <=? z) && (z <=? MAX_SAFE).

Definition decimal (v : value) : result string :=
  let s := match v with
           | VLossless token => token
           | VString s => s
           | VNumber (JInt z) => if is_safe z then toString z else ""
           | _ => ""
           end in
  if negb (decimal_pattern (String.length s) s) || (U64_MAX <? BigInt s)
  then fail "invalid_argument" "Expected an unsigned 64-bit decimal" else Ok s.

Definition sorted (v : value) : result string :=
  let! s := decimal v in Ok (text (padStart 20 (chars s))).

Definition numberToken (v : value) : result value := let! s := decimal v in Ok (VLossless s).

Definition safeNumber (v : value) : result Z :=
  let! s := decimal v in
  if negb (is_safe (BigInt s)) then fail "invalid_argument" "Counter or clock exceeds safe integer range"
  else Ok (BigInt s).

Section Records.
Context `{C : Codec, B : Db}.

Definition jsonValue (text : value) : result value :=
  match text with
  | VString s =>
      if 700000 <? utf8_length s
      then fail "invalid_argument" "JSON record must be a string no larger than 700000 bytes"
      else match parse s with Some v => Ok v | None => fail "invalid_argument" "Invalid JSON record" end
  | _ => fail "invalid_argument" "JSON record must be a string no larger than 700000 bytes"
  end.

(** A number token is an object and not an array, so it passes. *)
Definition json (text : value) : result value :=
  let! v := jsonValue text in
  match v with
  | VObject _ | VLossless _ => Ok v
  | _ => fail "invalid_argument" "Expected a JSON object"
  end.

Definition encode (v : value) : result string :=
  match stringify v with Some s => Ok s | None => fail "invalid_argument" "Invalid JSON value" end.

(** The digits after the third of the fraction of a timestamp that ends in a
    zone: [/\.(\d+)(?:Z|[+-]\d{2}(?::?\d{2})?)$/i] *)
Definition zone_suffix (cs : list ascii) : bool :=
  match cs with
  | [z] => bool_decide (z = "Z"%char ∨ z = "z"%char)
  | s :: a :: b :: rest =>
      bool_decide (s = "+"%char ∨ s = "-"%char) && is_digit a && is_digit b &&
      match rest with
      | [] => true
      | [c; d] => is_digit c && is_digit d
      | [p; c; d] => bool_decide (p = ":"%char) && is_digit c && is_digit d
      | _ => false
      end
  | _ => false
  end.
Fixpoint span_digits (cs : list ascii) : list ascii * list ascii :=
  match cs with
  | c :: rest => if is_digit c then (c :: (span_digits rest).1, (span_digits rest).2) else ([], cs)
  | [] => ([], [])
  end.
Fixpoint fraction_of (cs : list ascii) : list ascii :=
  match cs with
  | [] => []
  | c :: rest =>
      let '(ds, zone) := span_digits rest in
      if bool_decide (c = "."%char) && negb (Nat.eqb (length ds) 0) && zone_suffix zone then ds
      else fraction_of rest
  end.

Definition sqlTimestampMicros (v : value) : result Z :=
  let! s := string_of v "value" in
  match Date_parse s with
  | JInt ms =>
      if negb (is_safe ms) || (ms <? 0) then fail "invalid_argument" "Invalid SQL timestamp"
      else let f := fraction_of (chars s) in
           let micros := take 3 (drop 3 (f ++ replicate (6 - length f) "0"%char)) in
           Ok (ms * 1000 + chars_value micros)
  | _ => fail "invalid_argument" "Invalid SQL timestamp"
  end.

Definition receiptKey (r : value) : result string :=
  encode (VArray [get r "cluster"; get r "program_id"; get r "receipt_address"]).

Definition recordKey (kind : RecordKind.t) (r : value) : result string :=
  match kind with
  | RecordKind.receipt_requests | RecordKind.observed_policies => receiptKey r
  | RecordKind.mandate_requests => string_of (get r "mandate_pda") "value"
  | RecordKind.delivery_attestations =>
      encode (VArray [get r "cluster"; get r "program_id"; get r "receipt_address"; get r "seller"])
  | RecordKind.cards | RecordKind.card_events | RecordKind.card_statements | RecordKind.card_recovery =>
      fail "invalid_argument" "Card records use the card record operations"
  | RecordKind.payments => string_of (get r "payment_id") "value"
  | RecordKind.transactions => string_of (get r "transaction_id") "value"
  | RecordKind.x402_payments => string_of (get r "x402_payment_id") "value"
  | RecordKind.managed_signer_challenges => string_of (get r "challenge_id") "value"
  | RecordKind.managed_signers => string_of (get r "signer_id") "value"
  end.

Definition by_kind_key (kind : RecordKind.t) (key : string) (d : Doc.t) : bool :=
  bool_decide (d.(Doc.kind) = kind) && bool_decide (d.(Doc.key) = key).

Definition getRecord (records : table Doc.t) (kind : RecordKind.t) (key : string)
    : result (option (DocId * Doc.t)) :=
  unique (query (by_kind_key kind key) unordered records).

(** [if (cond) data.field = f()] *)
Definition column (cond : bool) (r : result string) : result (option string) :=
  if cond then result_map Some r else Ok None.

(** [s.slice(0, s.indexOf(":"))] *)
Definition before_colon (s : string) : option string :=
  match String.index 0 ":" s with Some n => Some (String.substring 0 n s) | None => None end.

(** [r.updated_at_ms ?? r.published_at_ms ?? ...] *)
Definition clock (r : value) : value :=
  coalesce (get r "updated_at_ms") (coalesce (get r "published_at_ms")
    (coalesce (get r "created_at_ms") (coalesce (get r "stored_at_ms") (get r "observed_at_ms")))).

(** The columns; the text and its source are added by the writer. *)
Definition metadata (kind : RecordKind.t) (r : value) : result Doc.t :=
  let x402 := bool_decide (kind = RecordKind.x402_payments) in
  let! key := recordKey kind r in
  let! updated := sorted (clock r) in
  let! idempotency := column (negb (nullish (get r "idempotency_key")))
    (string_of (get r "idempotency_key") "value") in
  let! receipt := column (negb (nullish (get r "receipt_address")))
    (if bool_decide (kind = RecordKind.delivery_attestations) then receiptKey r
     else string_of (get r "receipt_address") "value") in
  let! owner := column (negb (nullish (get r "owner_wallet"))) (string_of (get r "owner_wallet") "value") in
  let owner := match get r "idempotency_key" with
               | VString s => match before_colon s with
                              | Some o => if x402 then Some o else owner
                              | None => owner
                              end
               | _ => owner
               end in
  let! connector :=
    if x402 then
      let c := coalesce (get r "connector") (VString "x402") in
      if is_one_of ["x402"; "crossmint"] c then Ok (Some (coerce c))
      else fail "invalid_argument" "Invalid connector"
    else Ok None in
  let! reference := column (x402 && negb (nullish (get r "connector_reference")))
    (string_of (get r "connector_reference") "value") in
  let! mandate := column (negb (nullish (get r "mandate")) || negb (nullish (get r "mandate_pda")))
    (string_of (coalesce (get r "mandate") (get r "mandate_pda")) "value") in
  let! public_key := column (negb (nullish (get r "public_key"))) (string_of (get r "public_key") "value") in
  let! provider_wallet := column (negb (nullish (get r "provider_wallet_id")))
    (encode (VArray [get r "provider"; get r "provider_wallet_id"])) in
  Ok (Doc.mk kind key "" None idempotency receipt connector reference owner mandate public_key
    provider_wallet updated).

(** ** The writer *)

Definition reject (cond : bool) (code message : string) : result unit :=
  if cond then fail code message else Ok tt.

Definition needs_string (v : value) (field : string) : result unit :=
  result_map (λ _, tt) (string_of v field).
Definition needs_decimal (v : value) : result unit := result_map (λ _, tt) (decimal v).

(** Fields read as integers elsewhere. *)
Definition integer_fields : list string :=
  ["created_at_ms"; "updated_at_ms"; "published_at_ms"; "expires_at_ms"; "consumed_at_ms";
   "revoked_at_ms"; "slot"; "amount"; "stored_at_ms"; "observed_at_ms"; "observed_at_slot"].

(** [["payments", "transactions", "x402_payments"].includes(kind)] *)
Definition has_status (kind : RecordKind.t) : bool :=
  bool_decide (kind ∈ [RecordKind.payments; RecordKind.transactions; RecordKind.x402_payments]).

Definition statuses (kind : RecordKind.t) : list string :=
  ["prepared"; "submitted"; "confirmed"; "failed"]
    ++ (if bool_decide (kind = RecordKind.x402_payments) then ["verified"] else []).

Definition is_lower_hex (c : ascii) : bool :=
  let n := N_of_ascii c in is_digit c || ((97 <=? n) && (n <=? 102))%N.

(** [/^[0-9a-f]{64}$/] *)
Definition hash_pattern (s : string) : bool :=
  Nat.eqb (String.length s) 64 && forallb is_lower_hex (chars s).

Definition validate (kind : RecordKind.t) (incoming : value) : result unit :=
  let kind_is k := bool_decide (kind = k) in
  let f := get incoming in
  let! _ := traverse (λ n, if nullish (f n) then Ok tt else needs_decimal (f n)) integer_fields in
  let! _ := reject (kind_is RecordKind.payments && negb (is_one_of ["human"; "delegated"] (f "signing_mode")))
    "invalid_argument" "Invalid signing mode" in
  let! _ := if kind_is RecordKind.managed_signer_challenges || kind_is RecordKind.managed_signers then
      let! _ := needs_string (f "owner_wallet") "owner_wallet" in
      needs_string (f "mandate_pda") "mandate_pda" else Ok tt in
  let! _ := if kind_is RecordKind.managed_signer_challenges then
      let! _ := needs_string (f "message") "message" in needs_decimal (f "expires_at_ms") else Ok tt in
  let! _ := if kind_is RecordKind.managed_signers then
      let! _ := needs_string (f "provider_wallet_id") "provider_wallet_id" in
      let! _ := needs_string (f "provider_policy_id") "provider_policy_id" in
      let! _ := reject (negb (is_one_of ["privy"] (f "provider"))
          || negb (is_one_of ["delegated"] (f "signing_mode")))
        "invalid_argument" "Invalid managed signer provider or signing mode" in
      let! _ := needs_string (f "public_key") "public_key" in
      reject (negb (is_one_of ["provisioning"; "active"; "suspended"; "revoked"] (f "status")))
        "invalid_argument" "Invalid managed signer status" else Ok tt in
  let! _ := if kind_is RecordKind.x402_payments && negb (nullish (f "response_status")) then
      let! s := decimal (f "response_status") in
      reject (65535 <? BigInt s) "invalid_argument" "Response status exceeds u16" else Ok tt in
  let! _ := reject (kind_is RecordKind.delivery_attestations
      && (negb (is_one_of ["devnet"] (f "cluster")) || negb (hash_pattern (coerce (f "content_hash")))))
    "invalid_argument" "Invalid delivery attestation" in
  reject (has_status kind && negb (is_one_of (statuses kind) (f "status")))
    "invalid_argument" "Invalid payment status".

Inductive WriteResult : Type :=
| Null
| Attestation (kind record_json : string).

(** What an existing record does to an incoming one. *)
Inductive Merge : Type :=
| Return (r : WriteResult)
| Write (incoming : value).

Definition parse_source (source_json : option string) : result (option value) :=
  match source_json with
  | Some s => if bool_decide (s = "") then Ok None else result_map Some (json (VString s))
  | None => Ok None
  end.

Definition is_terminal (kind : RecordKind.t) (prior incoming : value) : bool :=
  if bool_decide (kind = RecordKind.x402_payments)
  then is_one_of ["verified"] (get prior "status")
    || (is_one_of ["confirmed"; "failed"] (get prior "status")
        && is_one_of ["prepared"; "submitted"] (get incoming "status"))
  else is_one_of ["confirmed"; "failed"] (get prior "status").

Definition older_than_sql (kind : RecordKind.t) (source : option value) (incoming : value) : result bool :=
  match source with
  | Some source =>
      if bool_decide (kind = RecordKind.x402_payments) && truthy (get source "updated_at") then
        let! sql := sqlTimestampMicros (get source "updated_at") in
        let! ms := decimal (get incoming "updated_at_ms") in
        Ok (BigInt ms * 1000 <? sql)
      else Ok false
  | None => Ok false
  end.

(** [incoming.f ??= prior.f] *)
Definition keep_prior (incoming prior : value) (f : string) : value :=
  if nullish (get incoming f) then set incoming f (get prior f) else incoming.

Definition merge (kind : RecordKind.t) (old : Doc.t) (updated : string) (incoming : value) : result Merge :=
  let! prior := json (VString old.(Doc.record_json)) in
  if bool_decide (kind = RecordKind.delivery_attestations) then
    let same := strict_eq (get prior "canonical_payload") (get incoming "canonical_payload")
                && strict_eq (get prior "signature") (get incoming "signature") in
    Ok (Return (Attestation (if same then "unchanged" else "conflict") old.(Doc.record_json)))
  else if bool_decide (kind = RecordKind.managed_signer_challenges) then
    fail "conflict" "Challenge already exists"
  else if has_status kind then
    let! source := parse_source old.(Doc.source_json) in
    let! older := older_than_sql kind source incoming in
    if is_terminal kind prior incoming || str_ltb updated old.(Doc.updated) || older
    then Ok (Return Null)
    else
      let incoming := set incoming "created_at_ms" (get prior "created_at_ms") in
      Ok (Write (if bool_decide (kind = RecordKind.x402_payments)
                 then keep_prior (keep_prior
                        (set incoming "idempotency_key" (get prior "idempotency_key")) prior "proof")
                        prior "response_status"
                 else incoming))
  else if bool_decide (kind = RecordKind.managed_signers) then
    Ok (Write (set incoming "created_at_ms" (get prior "created_at_ms")))
  else Ok (Write incoming).

(** The unique lookup of a duplicate: it may only be the record replaced. *)
Definition no_duplicate (records : table Doc.t) (p : Doc.t → bool) (old : option DocId) (message : string)
    : result unit :=
  let! dup := unique (query p unordered records) in
  reject (match dup with Some (i, _) => negb (bool_decide (Some i = old)) | None => false end)
    "conflict" message.

Definition by_kind_idempotency (kind : RecordKind.t) (key : string) (d : Doc.t) : bool :=
  bool_decide (d.(Doc.kind) = kind) && bool_decide (d.(Doc.idempotency) = Some key).

Definition by_kind_column (kind : RecordKind.t) (column : Doc.t → option string) (v : option string)
    (d : Doc.t) : bool :=
  bool_decide (d.(Doc.kind) = kind) && bool_decide (column d = v).

Definition non_empty (s : option string) : option string :=
  match s with Some s => if bool_decide (s = "") then None else Some s | None => None end.

Definition links (records : table Doc.t) (kind : RecordKind.t) (old : option DocId) (incoming : value)
    (final : Doc.t) : result unit :=
  let! _ := if bool_decide (kind = RecordKind.x402_payments) && negb (nullish (get incoming "payment_id")) then
      let! p := string_of (get incoming "payment_id") "value" in
      let! linked := getRecord records RecordKind.payments p in
      reject (match linked with None => true | Some _ => false end)
        "conflict" "Linked payment does not exist" else Ok tt in
  let! _ := match non_empty final.(Doc.idempotency) with
      | Some key => no_duplicate records (by_kind_idempotency kind key) old "Idempotency key already exists"
      | None => Ok tt
      end in
  if bool_decide (kind = RecordKind.managed_signers) then
    let! _ := no_duplicate records (by_kind_column kind Doc.public_key final.(Doc.public_key)) old
      "Signer public_key already exists" in
    let! _ := no_duplicate records (by_kind_column kind Doc.mandate final.(Doc.mandate)) old
      "Signer mandate already exists" in
    no_duplicate records (by_kind_column kind Doc.provider_wallet final.(Doc.provider_wallet)) old
      "Signer provider_wallet already exists"
  else Ok tt.

Definition retained_source (kind : RecordKind.t) (old : option Doc.t) (source_json : option string)
    (importing : bool) : result (option string) :=
  let retained := match source_json with Some _ => source_json | None => old ≫= Doc.source_json end in
  match non_empty retained, old with
  | Some s, Some _ =>
      if negb importing && bool_decide (kind = RecordKind.x402_payments) then
        let! original := json (VString s) in
        result_map Some (encode (delete_field original "updated_at"))
      else Ok retained
  | _, _ => Ok retained
  end.

Definition with_text (d : Doc.t) (record_json : string) (source_json : option string) : Doc.t :=
  Doc.mk d.(Doc.kind) d.(Doc.key) record_json source_json d.(Doc.idempotency) d.(Doc.receipt)
    d.(Doc.connector) d.(Doc.reference) d.(Doc.owner) d.(Doc.mandate) d.(Doc.public_key)
    d.(Doc.provider_wallet) d.(Doc.updated).

(** [new TextEncoder().encode(JSON.stringify(record)).length] *)
Definition doc_bytes (d : Doc.t) : Z :=
  json_object_bytes [("kind", Some (RecordKind.to_string d.(Doc.kind))); ("key", Some d.(Doc.key));
    ("updated", Some d.(Doc.updated)); ("idempotency", d.(Doc.idempotency)); ("receipt", d.(Doc.receipt));
    ("owner", d.(Doc.owner)); ("connector", d.(Doc.connector)); ("reference", d.(Doc.reference));
    ("mandate", d.(Doc.mandate)); ("public_key", d.(Doc.public_key));
    ("provider_wallet", d.(Doc.provider_wallet)); ("record_json", Some d.(Doc.record_json));
    ("source_json", d.(Doc.source_json))].

(** [if (old) replace(old._id, doc) else insert(doc)] *)
Definition store_doc {D} (records : table D) (old : option DocId) (d : D) : table D :=
  match old with Some i => put_doc i d records | None => (insert_doc d records).2 end.

Definition writeRecord (records : table Doc.t) (kind : RecordKind.t) (record_text : string)
    (source_json : option string) (importing : bool) : result (WriteResult * table Doc.t) :=
  let! incoming := json (VString record_text) in
  let! fields := metadata kind incoming in
  let! old := getRecord records kind fields.(Doc.key) in
  let! _ := validate kind incoming in
  let! merged := match old with
      | Some (_, doc) => if importing then Ok (Write incoming)
                         else merge kind doc fields.(Doc.updated) incoming
      | None => Ok (Write incoming)
      end in
  match merged with
  | Return r => Ok (r, records)
  | Write incoming =>
      let! final := metadata kind incoming in
      let! _ := links records kind (fst <$> old) incoming final in
      let! record_json := encode incoming in
      let! source := retained_source kind (snd <$> old) source_json importing in
      let record := with_text final record_json source in
      if 900000 <? doc_bytes record
      then fail "too_large" "Stored document exceeds 900000 bytes; no data was truncated"
      else Ok (if bool_decide (kind = RecordKind.delivery_attestations)
               then Attestation "created" record_json else Null,
               store_doc records (fst <$> old) record)
  end.
End Records.

(** ** Lemmas *)

(** The columns that name a record: its kind and key, its idempotency key within
    the kind, and a managed signer's three references. *)
Definition id_of (d : Doc.t) : option (RecordKind.t * string) := Some (d.(Doc.kind), d.(Doc.key)).
Definition idempotency_of (d : Doc.t) : option (RecordKind.t * string) := pair d.(Doc.kind) <$> d.(Doc.idempotency).
Definition signer_column (column : Doc.t → option string) (d : Doc.t) : option (option string) :=
  if bool_decide (d.(Doc.kind) = RecordKind.managed_signers) then Some (column d) else None.

Record records_unique (m : gmap DocId Doc.t) : Prop := {
  unique_id : unique_on id_of m;
  unique_idempotency : unique_on idempotency_of m;
  unique_public_key : unique_on (signer_column Doc.public_key) m;
  unique_mandate : unique_on (signer_column Doc.mandate) m;
  unique_provider_wallet : unique_on (signer_column Doc.provider_wallet) m;
}.

(** Membership in a list of names *)
Ltac listed := apply (bool_decide_unpack (_ ∈ _)); exact I.

(** ** Time stamps *)

(** A u64 written with 20 digits, so that text order is number order. *)
Definition is_stamp (s : string) : Prop :=
  length (chars s) = 20%nat ∧ forallb is_digit (chars s) = true.

Lemma decimal_ok v s :
  decimal v = Ok s → decimal_pattern (String.length s) s = true ∧ BigInt s <= U64_MAX.
Proof.
  unfold decimal. cbv zeta. match goal with |- context [decimal_pattern (String.length ?x) ?x] => set (t := x) end.
  case_tests; [done|]. intros [= <-]. bool_reflect. done.
Qed.

Lemma decimal_digits v s :
  decimal v = Ok s → (length (chars s) <= 20)%nat ∧ forallb is_digit (chars s) = true.
Proof.
  intros [Hp Hmax]%decimal_ok. unfold decimal_pattern in Hp.
  apply decimal_chars_value in Hp as [Hr Hn]. unfold BigInt in Hmax. rewrite <- Hn.
  split; [|by apply nat_chars_digits; lia].
  pose proof (decimal_chars_nat 19 (chars_value (chars s)) ltac:(unfold U64_MAX in *; lia)) as H.
  destruct (nat_chars (chars_value (chars s))) as [|c rest]; simpl in H; [done|]. simpl.
  case_bool_decide; bool_reflect.
  - apply Nat.eqb_eq in H. lia.
  - match goal with H : Nat.leb _ _ = true |- _ => apply Nat.leb_le in H; lia end.
Qed.

Lemma sorted_ok v s : sorted v = Ok s → is_stamp s ∧ ∃ n, decimal v = Ok n ∧ BigInt s = BigInt n.
Proof.
  unfold sorted. intros H. inv_ok H. subst s. destruct (decimal_digits _ _ E) as [Hl Hd].
  unfold is_stamp, BigInt. rewrite !chars_text. repeat split.
  - by apply padStart_length.
  - by apply padStart_digits.
  - exists a. by rewrite padStart_value.
Qed.

Lemma str_ltb_stamp a b : is_stamp a → is_stamp b → str_ltb a b = (BigInt a <? BigInt b).
Proof.
  intros [Ha Da] [Hb Db]. unfold str_ltb, String.ltb.
  rewrite <- (text_chars a), <- (text_chars b) at 1. rewrite compare_digits by congruence.
  unfold BigInt, Z.ltb. done.
Qed.

Section RecordLemmas.
Context `{C : Codec, B : Db, BS : !DbSpec B}.

Lemma reject_ok c code message u : reject c code message = Ok u → c = false.
Proof. by destruct c. Qed.

Lemma string_of_ok v f s : string_of v f = Ok s → v = VString s ∧ s ≠ "".
Proof. destruct v; try done. simpl. case_bool_decide; [done|]. by intros [= ->]. Qed.

Lemma encode_ok v s : encode v = Ok s → stringify v = Some s.
Proof. unfold encode. destruct (stringify v); [by intros [= ->] | done]. Qed.

Lemma column_ok c r o : column c r = Ok o → o = None ∨ ∃ s, r = Ok s ∧ o = Some s.
Proof. unfold column. destruct c, r; simpl; intros [= <-]; eauto. Qed.

Lemma metadata_ok kind v d :
  metadata kind v = Ok d →
  d.(Doc.kind) = kind ∧ recordKey kind v = Ok d.(Doc.key) ∧ d.(Doc.idempotency) ≠ Some "" ∧
  sorted (clock v) = Ok d.(Doc.updated).
Proof.
  unfold metadata. intros H. cbv zeta in H. inv_ok H. subst d. simpl. repeat split; [done| |done].
  intros ->. apply column_ok in E1 as [?|(s & Hs & [= <-])]; [done|]. by apply string_of_ok in Hs as [_ ?].
Qed.

Lemma recordKey_set kind v f x :
  f ∈ ["created_at_ms"; "idempotency_key"; "proof"; "response_status"] →
  recordKey kind (set v f x) = recordKey kind v.
Proof.
  intros Hf. unfold recordKey, receiptKey.
  repeat match goal with |- context [get (set v f x) ?n] => rewrite (get_set_ne v f n x) end; try done;
    intros <-; revert Hf; apply (bool_decide_unpack (¬ (_ ∈ _))); exact I.
Qed.

Lemma recordKey_keep kind v prior f :
  f ∈ ["created_at_ms"; "idempotency_key"; "proof"; "response_status"] →
  recordKey kind (keep_prior v prior f) = recordKey kind v.
Proof. intros Hf. unfold keep_prior. case_tests; [by apply recordKey_set | done]. Qed.

(** What a merge does to the incoming record. *)
Lemma merge_write kind old updated v w :
  merge kind old updated v = Ok (Write w) →
  recordKey kind w = recordKey kind v ∧
  ∃ prior, json (VString old.(Doc.record_json)) = Ok prior ∧
    (has_status kind = true → is_terminal kind prior v = false ∧ str_ltb updated old.(Doc.updated) = false) ∧
    (has_status kind = true → kind ≠ RecordKind.x402_payments →
      w = set v "created_at_ms" (get prior "created_at_ms")).
Proof.
  unfold merge. intros H. apply bind_ok in H as (prior & Hp & H). cbv zeta in H.
  case_bool_decide; [done|]. case_bool_decide; [done|].
  destruct (has_status kind) eqn:Hs.
  - inv_ok H. destruct (is_terminal kind prior v || str_ltb updated (Doc.updated old) || a0) eqn:Ht; [done|].
    injection H as <-. bool_reflect. split.
    + case_bool_decide; [rewrite !recordKey_keep, !recordKey_set by listed | rewrite recordKey_set by listed]; done.
    + exists prior. split; [done|]. split; [done|]. intros _ Hne. by rewrite bool_decide_eq_false_2.
  - case_bool_decide; injection H as <-; (split; [try rewrite recordKey_set by listed; done | by exists prior]).
Qed.

Lemma merge_settlement kind old updated v m :
  kind = RecordKind.payments ∨ kind = RecordKind.transactions →
  merge kind old updated v = Ok m →
  ∃ prior, json (VString old.(Doc.record_json)) = Ok prior ∧
    m = if is_one_of ["confirmed"; "failed"] (get prior "status") || str_ltb updated old.(Doc.updated)
        then Return Null else Write (set v "created_at_ms" (get prior "created_at_ms")).
Proof.
  intros Hk H. apply bind_ok in H as (prior & Hp & H). exists prior. split; [done|].
  assert (∀ source, older_than_sql kind source v = Ok false) as Hold
    by (intros [|]; [|done]; by destruct Hk as [-> | ->]).
  assert (bool_decide (kind = RecordKind.delivery_attestations) = false ∧
    bool_decide (kind = RecordKind.managed_signer_challenges) = false ∧ has_status kind = true ∧
    bool_decide (kind = RecordKind.x402_payments) = false) as (E1 & E2 & E3 & E4)
    by (by destruct Hk as [-> | ->]).
  cbv beta zeta in H. rewrite E1, E2, E3 in H. apply bind_ok in H as (source & _ & H).
  rewrite Hold in H. cbn [bind] in H. unfold is_terminal in H. rewrite E4, orb_false_r in H.
  case_tests; by injection H as <-.
Qed.

(** An accepted write either leaves the table alone or stores one document,
    in the place of the record with its key. *)
Lemma writeRecord_inv records kind s source importing r records' :
  writeRecord records kind s source importing = Ok (r, records') →
  ∃ v fields old, json (VString s) = Ok v ∧ metadata kind v = Ok fields ∧
    getRecord records kind fields.(Doc.key) = Ok old ∧ validate kind v = Ok tt ∧
    (records' = records ∧ importing = false ∧ (∃ i d, old = Some (i, d) ∧
        merge kind d fields.(Doc.updated) v = Ok (Return r)) ∨
     ∃ w final text source',
       (match old with
        | Some (_, d) => if importing then w = v else merge kind d fields.(Doc.updated) v = Ok (Write w)
        | None => w = v
        end) ∧
       metadata kind w = Ok final ∧ links records kind (fst <$> old) w final = Ok tt ∧ encode w = Ok text ∧
       records' = store_doc records (fst <$> old) (with_text final text source') ∧
       r = (if bool_decide (kind = RecordKind.delivery_attestations) then Attestation "created" text else Null) ∧
       final.(Doc.kind) = kind ∧ final.(Doc.key) = fields.(Doc.key)).
Proof.
  unfold writeRecord. intros H. apply bind_ok in H as (v & Hv & H). apply bind_ok in H as (fields & Hf & H).
  apply bind_ok in H as (old & Ho & H). apply bind_ok in H as ([] & Hval & H).
  apply bind_ok in H as (merged & Hm & H).
  exists v, fields, old. do 4 (split; [done|]).
  destruct merged as [ret|w].
  - injection H as <- <-. left. destruct old as [[i d]|]; [|done]. destruct importing; [done|].
    split; [done|]. split; [done|]. by exists i, d.
  - right. inv_ok H. destruct (900000 <? doc_bytes (with_text a a1 a2)); [done|]. injection H as <- <-.
    destruct a0. exists w, a, a1, a2.
    pose proof (metadata_ok _ _ _ E) as (Hk & Hkey & _). pose proof (metadata_ok _ _ _ Hf) as (_ & Hkey' & _).
    assert (recordKey kind w = recordKey kind v) as Hsame.
    { destruct old as [[i d]|]; [|by injection Hm as <-].
      destruct importing; [by injection Hm as <-|]. by apply merge_write in Hm as [? _]. }
    split; [|repeat split; try done; congruence].
    destruct old as [[i d]|]; [|by injection Hm as <-]. destruct importing; [by injection Hm as <-|done].
Qed.

Lemma store_doc_docs {D} (t : table D) old d :
  (∀ i, old = Some i → is_Some (docs t !! i)) →
  ∃ i, docs (store_doc t old d) = <[i := d]> (docs t) ∧
    match old with Some k => i = k | None => docs t !! i = None end.
Proof.
  intros Hold. destruct old as [k|]; simpl.
  - exists k. split; [|done]. by apply put_docs, Hold.
  - exists (insert_doc d t).1. split; [apply insert_docs | apply insert_fresh].
Qed.

(** [only old f x t]: no document but [old] has [x] in column [f]. *)
Definition only {D K} (old : option DocId) (f : D → option K) (x : option K) (t : table D) : Prop :=
  ∀ j e y, x = Some y → docs t !! j = Some e → f e = Some y → Some j = old.

Lemma store_unique_on {D K} (f : D → option K) (t : table D) old d :
  unique_on f (docs t) → (∀ i, old = Some i → is_Some (docs t !! i)) → only old f (f d) t →
  unique_on f (docs (store_doc t old d)).
Proof.
  intros Hu Hold Hf. destruct (store_doc_docs t old d Hold) as (i & -> & Hi).
  apply unique_on_put; [done|]. intros j e x Hj He Hx Hd.
  pose proof (Hf j e x Hd He Hx) as <-. by subst i.
Qed.

Lemma store_unique t old d :
  records_unique (docs t) → (∀ i, old = Some i → is_Some (docs t !! i)) →
  only old id_of (id_of d) t → only old idempotency_of (idempotency_of d) t →
  (∀ column, column ∈ [Doc.public_key; Doc.mandate; Doc.provider_wallet] →
    only old (signer_column column) (signer_column column d) t) →
  records_unique (docs (store_doc t old d)).
Proof.
  intros [] Hold Hid Hidem Hcol.
  split; apply store_unique_on; try done; apply Hcol; rewrite !elem_of_cons; auto.
Qed.

Lemma by_kind_key_spec k key d : by_kind_key k key d = true ↔ id_of d = Some (k, key).
Proof.
  unfold by_kind_key, id_of. rewrite andb_true_iff, !bool_decide_eq_true.
  split; [by intros [-> ->] | by intros [= -> ->]].
Qed.

Lemma by_kind_idempotency_spec k key d :
  by_kind_idempotency k key d = true ↔ idempotency_of d = Some (k, key).
Proof.
  unfold by_kind_idempotency, idempotency_of. rewrite andb_true_iff, !bool_decide_eq_true.
  destruct (Doc.idempotency d); simpl; naive_solver.
Qed.

Lemma getRecord_some t k key i d :
  getRecord t k key = Ok (Some (i, d)) → docs t !! i = Some d ∧ id_of d = Some (k, key).
Proof.
  intros H. apply unique_some in H as [Hi Hp]. by rewrite by_kind_key_spec in Hp.
Qed.

Lemma getRecord_only t k key old :
  getRecord t k key = Ok old → only (fst <$> old) id_of (Some (k, key)) t.
Proof.
  intros H j e y [= <-] He Hy. apply by_kind_key_spec in Hy.
  by rewrite (unique_found _ _ _ _ _ _ H He Hy).
Qed.

Lemma getRecord_exists t k key old i :
  getRecord t k key = Ok old → fst <$> old = Some i → is_Some (docs t !! i).
Proof.
  intros H Hi. destruct old as [[j d]|]; [|done]. injection Hi as <-.
  apply getRecord_some in H as [-> _]. done.
Qed.

Lemma no_duplicate_only {K} t p old m (f : Doc.t → option K) x :
  no_duplicate t p old m = Ok tt → (∀ e, f e = Some x → p e = true) → only old f (Some x) t.
Proof.
  intros H Hp j e y [= <-] He Hy. unfold no_duplicate in H. inv_ok H.
  pose proof (unique_found _ _ _ _ _ _ E He (Hp e Hy)) as ->. apply reject_ok in H. by bool_reflect.
Qed.

Lemma links_only t kind old w final :
  links t kind old w final = Ok tt → final.(Doc.kind) = kind → final.(Doc.idempotency) ≠ Some "" →
  only old idempotency_of (idempotency_of final) t ∧
  ∀ column, column ∈ [Doc.public_key; Doc.mandate; Doc.provider_wallet] →
    only old (signer_column column) (signer_column column final) t.
Proof.
  unfold links. intros H Hk Hne. apply bind_ok in H as ([] & _ & H). apply bind_ok in H as ([] & Hi & H).
  split.
  - unfold idempotency_of at 2. destruct (Doc.idempotency final) as [key|] eqn:E; [|by intros j e y].
    simpl in Hi. rewrite bool_decide_eq_false_2 in Hi by congruence.
    eapply no_duplicate_only; [exact Hi|]. intros e He. apply by_kind_idempotency_spec. by rewrite He, Hk.
  - intros column Hc. unfold signer_column at 2. rewrite Hk. case_bool_decide as Hs; [|by intros j e y].
    assert (∀ e, signer_column column e = Some (column final) →
      by_kind_column kind column (column final) e = true) as Hp.
    { intros e. unfold signer_column, by_kind_column. case_bool_decide; [|done]. intros [= ->].
      by rewrite !bool_decide_eq_true_2 by congruence. }
    inv_ok H. destruct a, a0.
    rewrite !elem_of_cons in Hc.
    destruct Hc as [->|[->|[->|Hn]]]; [| | |by apply elem_of_nil in Hn].
    all: (eapply no_duplicate_only; [|exact Hp]; eassumption).
Qed.

(** Every write keeps the columns that name records unique. *)
Lemma writeRecord_unique t kind s source importing r t' :
  records_unique (docs t) → writeRecord t kind s source importing = Ok (r, t') → records_unique (docs t').
Proof.
  intros Hu H. apply writeRecord_inv in H as (v & fields & old & Hv & Hf & Ho & _ & Hcases).
  destruct Hcases as [(-> & _)|(w & final & text & source' & _ & Hm & Hl & _ & -> & _ & Hk & Hkey)]; [done|].
  pose proof (metadata_ok _ _ _ Hm) as (_ & _ & Hne & _).
  destruct (links_only _ _ _ _ _ Hl Hk Hne) as [Hidem Hcol].
  apply store_unique; [done| | |exact Hidem|].
  - intros i Hi. by eapply getRecord_exists.
  - replace (id_of (with_text final text source')) with (Some (kind, Doc.key fields))
      by (unfold id_of; simpl; congruence).
    by apply getRecord_only.
  - intros column Hc j e y Hy. apply (Hcol column Hc j e y). revert Hy. rewrite !elem_of_cons in Hc.
    by destruct Hc as [->|[->|[->|[]%elem_of_nil]]].
Qed.

(** A settled record of kind payments or transactions is never written again. *)
Lemma writeRecord_settled t kind s source r t' i d prior :
  records_unique (docs t) → docs t !! i = Some d →
  d.(Doc.kind) = RecordKind.payments ∨ d.(Doc.kind) = RecordKind.transactions →
  json (VString d.(Doc.record_json)) = Ok prior →
  is_one_of ["confirmed"; "failed"] (get prior "status") = true →
  writeRecord t kind s source false = Ok (r, t') → docs t' !! i = Some d.
Proof.
  intros Hu Hi Hkind Hp Hs H.
  apply writeRecord_inv in H as (v & fields & old & Hv & Hf & Ho & _ & Hcases).
  destruct Hcases as [(-> & _)|(w & final & text & source' & Hw & Hm & Hl & _ & -> & _ & Hk & Hkey)]; [done|].
  destruct (store_doc_docs t (fst <$> old) (with_text final text source')) as (j & -> & Hj).
  { intros k. by eapply getRecord_exists. }
  rewrite lookup_insert_ne; [done|]. intros ->.
  destruct old as [[k e]|]; simpl in Hj; [|congruence]. subst k.
  apply getRecord_some in Ho as [He Hid]. replace e with d in * by congruence.
  assert (Doc.kind d = kind) as Hdk by (unfold id_of in Hid; congruence).
  apply merge_write in Hw as (_ & prior' & Hp' & Hterm & _).
  assert (prior' = prior) as -> by congruence.
  destruct (Hterm ltac:(rewrite <- Hdk; by destruct Hkind as [-> | ->])) as [Ht _].
  unfold is_terminal in Ht. rewrite bool_decide_eq_false_2 in Ht; [congruence|].
  intros ->. by destruct Hkind; congruence.
Qed.
End RecordLemmas.

Definition stamped (m : gmap DocId Doc.t) : Prop := ∀ i d, m !! i = Some d → is_stamp d.(Doc.updated).

Lemma records_unique_empty : records_unique ∅.
Proof. split; apply unique_on_empty. Qed.

Lemma stamped_empty : stamped ∅.
Proof. intros i d H. by rewrite lookup_empty in H. Qed.

Lemma stamped_put m i d : stamped m → is_stamp d.(Doc.updated) → stamped (<[i := d]> m).
Proof. intros Hm Hd j e. rewrite lookup_insert_Some. intros [[<- <-]|[_ He]]; [done|]. by apply (Hm j). Qed.

Lemma writeRecord_stamped `{C : Codec, B : Db, BS : !DbSpec B} t kind s source importing r t' :
  stamped (docs t) → writeRecord t kind s source importing = Ok (r, t') → stamped (docs t').
Proof.
  intros Hs H. apply writeRecord_inv in H as (v & fields & old & Hv & Hf & Ho & _ & Hcases).
  destruct Hcases as [(-> & _)|(w & final & text & src & _ & Hm & _ & _ & -> & _)]; [done|].
  destruct (store_doc_docs t (fst <$> old) (with_text final text src)) as (i & -> & _).
  { intros i. by eapply getRecord_exists. }
  apply stamped_put; [done|]. apply metadata_ok in Hm as (_ & _ & _ & Hm). by apply sorted_ok in Hm as [? _].
Qed.

(** ** Properties *)

Section RecordProperties.
Context `{C : Codec, B : Db, BS : !DbSpec B}.

(** Writing over a stored payment or batch transaction.  A record that is
    confirmed or failed, or newer than the incoming one, is left as it is;
    otherwise the incoming record replaces it under the same key, with the
    stored creation time whatever the caller sent, and (when the caller gives
    an update time) never with an earlier time than the stored one. *)
Theorem writeRecord_update (t t' : table Doc.t) (kind : RecordKind.t) (s : string)
    (source : option string) (r : WriteResult) (i : DocId) (d : Doc.t) (v : value) :
  records_unique (docs t) → stamped (docs t) → docs t !! i = Some d →
  kind = RecordKind.payments ∨ kind = RecordKind.transactions → d.(Doc.kind) = kind →
  json (VString s) = Ok v → recordKey kind v = Ok d.(Doc.key) →
  writeRecord t kind s source false = Ok (r, t') →
  r = Null ∧ ∃ prior now,
    json (VString d.(Doc.record_json)) = Ok prior ∧ sorted (clock v) = Ok now ∧
    if is_one_of ["confirmed"; "failed"] (get prior "status") || (BigInt now <? BigInt d.(Doc.updated))
    then t' = t
    else ∃ d', docs t' = <[i := d']> (docs t) ∧ d'.(Doc.kind) = kind ∧ d'.(Doc.key) = d.(Doc.key) ∧
      stringify (set v "created_at_ms" (get prior "created_at_ms")) = Some d'.(Doc.record_json) ∧
      (nullish (get v "updated_at_ms") = false → BigInt d.(Doc.updated) <= BigInt d'.(Doc.updated)).
Proof using BS.
  intros Hu Hst Hi Hkind Hdk Hv Hkey H.
  apply writeRecord_inv in H as (v' & fields & old & Hv' & Hf & Ho & _ & Hcases).
  replace v' with v in * by congruence. clear v' Hv'.
  destruct (metadata_ok _ _ _ Hf) as (_ & Hfk & _ & Hnow).
  assert (Doc.key fields = Doc.key d) as Hkd by congruence.
  pose proof (getRecord_only _ _ _ _ Ho i d _ eq_refl Hi) as Hold.
  destruct old as [[j e]|]; [|by discriminate Hold; unfold id_of; congruence].
  assert (j = i) as -> by (injection (Hold ltac:(unfold id_of; congruence)); congruence).
  apply getRecord_some in Ho as [He _]. replace e with d in * by congruence. clear e He Hold.
  destruct (sorted_ok _ _ Hnow) as [Hs _]. pose proof (Hst _ _ Hi) as Hd.
  destruct Hcases as [(-> & _ & i' & d' & [= <- <-] & Hm)|(w & final & text & src & Hw & Hm & _ & Ht & -> & -> & Hk & Hkey')].
  - apply (merge_settlement _ _ _ _ _ Hkind) in Hm as (prior & Hp & Hm).
    rewrite (str_ltb_stamp _ _ Hs Hd) in Hm. destruct (_ || _) eqn:E in Hm; [|done]. injection Hm as ->.
    split; [done|]. exists prior, fields.(Doc.updated). by rewrite E.
  - apply (merge_settlement _ _ _ _ _ Hkind) in Hw as (prior & Hp & Hw).
    rewrite (str_ltb_stamp _ _ Hs Hd) in Hw. destruct (_ || _) eqn:E in Hw; [done|]. injection Hw as ->.
    destruct (metadata_ok _ _ _ Hm) as (_ & _ & _ & Hnow').
    split; [by destruct Hkind as [-> | ->]|]. exists prior, fields.(Doc.updated). rewrite E.
    split; [done|]. split; [done|]. exists (with_text final text src).
    cbn [with_text Doc.kind Doc.key Doc.record_json Doc.updated].
    split; [apply put_docs; eauto|]. split; [done|]. split; [congruence|].
    split; [by apply encode_ok|].
    intros Hup. bool_reflect.
    assert (clock (set v "created_at_ms" (get prior "created_at_ms")) = clock v) as Hc
      by (unfold clock; rewrite (get_set_ne v _ "updated_at_ms") by done; unfold coalesce at 1 5;
          by rewrite Hup).
    rewrite Hc in Hnow'. assert (Doc.updated final = Doc.updated fields) as -> by congruence. lia.
Qed.
End RecordProperties.

(** ** Examples *)

Import Model ModelCodec.

Definition sample_payment (status updated : string) : string :=
  "payment_id=p1;signing_mode=human;status=" +:+ status +:+ ";created_at_ms=5;updated_at_ms=" +:+ updated.

Definition sample_records : gmap DocId Doc.t :=
  match writeRecord (B := db) ∅ RecordKind.payments (sample_payment "submitted" "10") None false with
  | Ok (_, t) => t
  | Throw _ => ∅
  end.

Lemma sample_records_written :
  ∃ r, writeRecord (B := db) ∅ RecordKind.payments (sample_payment "submitted" "10") None false
    = Ok (r, sample_records).
Proof. exists Null. vm_compute. reflexivity. Qed.

Lemma sample_records_ok : records_unique sample_records ∧ stamped sample_records.
Proof.
  destruct sample_records_written as (r & H). split.
  - exact (writeRecord_unique _ _ _ _ _ _ _ records_unique_empty H).
  - exact (writeRecord_stamped _ _ _ _ _ _ _ stamped_empty H).
Qed.

Definition sample_stored : Doc.t := match sample_records !! 1%positive with Some d => d | None =>
  Doc.mk RecordKind.cards "" "" None None None None None None None None None "" end.

Definition sample_confirmed : gmap DocId Doc.t :=
  match writeRecord (B := db) sample_records RecordKind.payments (sample_payment "confirmed" "12") None false with
  | Ok (_, t) => t
  | Throw _ => ∅
  end.

Definition sample_update : value :=
  match json (VString (sample_payment "confirmed" "12")) with Ok v => v | Throw _ => VNull end.

Lemma sample_update_runs :
  sample_records !! 1%positive = Some sample_stored ∧ Doc.kind sample_stored = RecordKind.payments ∧
  json (VString (sample_payment "confirmed" "12")) = Ok sample_update ∧
  recordKey RecordKind.payments sample_update = Ok (Doc.key sample_stored) ∧
  writeRecord (B := db) sample_records RecordKind.payments (sample_payment "confirmed" "12") None false
    = Ok (Null, sample_confirmed).
Proof. vm_compute. repeat split. Qed.

Lemma writeRecord_update_witness :
  ∃ prior, json (VString (Doc.record_json sample_stored)) = Ok prior.
Proof.
  destruct sample_records_ok as [Hu Hs]. destruct sample_update_runs as (Hi & Hk & Hv & Hkey & Hw).
  destruct (@writeRecord_update codec db db_spec sample_records sample_confirmed RecordKind.payments
    (sample_payment "confirmed" "12") None Null 1%positive sample_stored sample_update
    Hu Hs Hi (or_introl eq_refl) Hk Hv Hkey Hw) as (_ & prior & _ & Hp & _).
  exists prior. exact Hp.
Defined.
