(* ===== verification/CardRecords.v ===== *)
(** * Card records (convex/cards.ts)

    The private card records: what a record's text may hold (sealed fields are
    encryption envelopes, amounts are integer-cent strings, nothing looks like a
    card number), and the compare-and-swap write on the record's revision. *)
From Stdlib Require Import ZArith Lia Strings.Ascii.
From stdpp Require Import base numbers strings list fin_maps gmap.
From S2P Require Import Prelude Bytes PublicKey Decimal CardPda Values Store Records.

Module CardKind.
Inductive t : Type := cards | card_events | card_statements | card_recovery.
Definition all : list t := [cards; card_events; card_statements; card_recovery].
Definition to_kind (k : t) : RecordKind.t :=
  match k with
  | cards => RecordKind.cards
  | card_events => RecordKind.card_events
  | card_statements => RecordKind.card_statements
  | card_recovery => RecordKind.card_recovery
  end.
End CardKind.

#[export] Instance CardKind_eq_dec : EqDecision CardKind.t.
Proof. solve_decision. Defined.

(** ** Patterns *)

Definition in_range (lo hi : N) (c : ascii) : bool := ((lo <=? N_of_ascii c) && (N_of_ascii c <=? hi))%N.
Definition is_letter (c : ascii) : bool := in_range 65 90 c || in_range 97 122 c.
Definition is_alnum (c : ascii) : bool := is_letter c || is_digit c.

Definition b64_char (c : ascii) : bool := is_alnum c || bool_decide (c ∈ ["+"; "/"]%char).

(** [/^[A-Za-z0-9+/]+={0,2}$/] *)
Fixpoint b64_tail (cs : list ascii) : bool :=
  match cs with
  | [] => true
  | c :: rest =>
      if b64_char c then b64_tail rest else bool_decide (cs = ["="%char] ∨ cs = ["="; "="]%char)
  end.
Definition B64 (s : string) : bool :=
  match chars s with c :: rest => b64_char c && b64_tail rest | [] => false end.

(** [CENTS] and [SIGNED_CENTS] *)
Definition CENTS (s : string) : bool := decimal_pattern 15 s.
Definition SIGNED_CENTS (s : string) : bool :=
  match s with
  | String.String "-" rest => decimal_pattern 15 rest && negb (bool_decide (rest = "0"))
  | _ => decimal_pattern 15 s
  end.

(** [/^[A-Za-z0-9_:.-]{1,200}$/] *)
Definition OPAQUE (s : string) : bool :=
  let cs := chars s in
  negb (Nat.eqb (length cs) 0) && Nat.leb (length cs) 200
    && forallb (λ c, is_alnum c || bool_decide (c ∈ ["_"; ":"; "."; "-"]%char)) cs.

(** [[1-9A-HJ-NP-Za-km-z]] *)
Definition base58_char (c : ascii) : bool :=
  in_range 49 57 c || in_range 65 72 c || in_range 74 78 c || in_range 80 90 c
    || in_range 97 107 c || in_range 109 122 c.

Definition IDENTIFIER (s : string) : bool :=
  let cs := chars s in
  (Nat.leb 32 (length cs) && forallb is_lower_hex cs)
    || (Nat.leb 32 (length cs) && Nat.leb (length cs) 90 && forallb base58_char cs).

(** The digits of a run that [DIGIT_RUN] can match: its runs begin at the start
    or after another character and end before another or at the end, so they
    are the maximal ones. *)
Fixpoint digit_runs (run : list ascii) (cs : list ascii) : list (list ascii) :=
  match cs with
  | [] => [reverse run]
  | c :: cs => if is_digit c then digit_runs (c :: run) cs else reverse run :: digit_runs [] cs
  end.
Definition DIGIT_RUN (s : string) : list (list ascii) :=
  List.filter (λ run, Nat.leb 13 (length run) && Nat.leb (length run) 19) (digit_runs [] (chars s)).

(** From the last digit: every second one is doubled, less 9 above 9. *)
Fixpoint luhn_sum (odd : bool) (digits : list ascii) : Z :=
  match digits with
  | [] => 0
  | c :: rest =>
      let d := char_digit c in
      let d := if odd then (if 9 <? d * 2 then d * 2 - 9 else d * 2) else d in
      d + luhn_sum (negb odd) rest
  end.
Definition luhn (digits : list ascii) : bool := luhn_sum false (reverse digits) mod 10 =? 0.

Definition panLike (s : string) : bool :=
  if IDENTIFIER s && existsb is_letter (chars s) then false
  else existsb luhn (DIGIT_RUN s).

(** ** Record contents *)

Definition SENSITIVE (kind : CardKind.t) : list string :=
  match kind with
  | CardKind.cards => ["issuer"; "label"; "recoveryReport"]
  | CardKind.card_events => ["provider"; "raw"; "secret"; "line"]
  | CardKind.card_statements => ["lines"]
  | CardKind.card_recovery => ["snapshot"; "masterSalt"; "report"]
  end.

Definition ENVELOPE_KEYS : list string := ["alg"; "ct"; "iv"; "kid"; "v"].

(** [Object.keys(v)] *)
Definition keys_of (v : value) : list string :=
  match v with
  | VObject fields => map fst fields
  | VLossless _ => ["isLosslessNumber"; "value"]
  | _ => []
  end.

Definition str_leb (a b : string) : bool := negb (str_ltb b a).

(** [/^[A-Za-z0-9_-]{1,32}$/] *)
Definition kid_pattern (s : string) : bool :=
  let cs := chars s in
  negb (Nat.eqb (length cs) 0) && Nat.leb (length cs) 32
    && forallb (λ c, is_alnum c || bool_decide (c ∈ ["_"; "-"]%char)) cs.

Definition is_string (v : value) (p : string → bool) : bool :=
  match v with VString s => p s | _ => false end.

(** [typeof v === "object" && v !== null] *)
Definition is_object (v : value) : bool :=
  match v with VObject _ | VArray _ | VLossless _ => true | _ => false end.

Definition isEnvelope (v : value) : bool :=
  match v with
  | VObject _ | VLossless _ =>
      bool_decide (sort_by str_leb (keys_of v) = ENVELOPE_KEYS)
      && (strict_eq (get v "v") (VNumber (JInt 1))
          || (is_object (get v "v") && bool_decide (coerce (get v "v") = "1")))
      && is_one_of ["A256GCM"] (get v "alg") && is_string (get v "kid") kid_pattern
      && is_string (get v "iv") (λ s, Nat.eqb (String.length s) 16 && B64 s)
      && is_string (get v "ct") (λ s, (24 <=? Z.of_nat (String.length s))
           && (Z.of_nat (String.length s) <=? 400000) && B64 s)
  | _ => false
  end.

(** Absent, null or sealed *)
Definition sealed (v : value) : bool := nullish v || isEnvelope v.

(** [/^(pan|cvv|cvv2|pin|expiry|exp_month|exp_year|card_number)$/i] *)
Definition card_data_key (key : string) : bool :=
  bool_decide (toLowerCase key ∈
    ["pan"; "cvv"; "cvv2"; "pin"; "expiry"; "exp_month"; "exp_year"; "card_number"]).

(** [/Cents$/] *)
Definition ends_with_cents (key : string) : bool :=
  let cs := chars key in
  Nat.leb 5 (length cs) && bool_decide (drop (length cs - 5) cs = chars "Cents").

Definition has_key (v : value) (key : string) : bool := bool_decide (key ∈ keys_of v).

Definition bad_amount (kind : CardKind.t) (key : string) (child : value) : bool :=
  ends_with_cents key && negb (nullish child)
    && negb (is_string child (if bool_decide (kind = CardKind.card_statements) then SIGNED_CENTS else CENTS)).

Definition pan_message (path : string) : string :=
  "Card record field " +:+ path +:+ " holds a card-number-like value".

Fixpoint walk (kind : CardKind.t) (v : value) (path : string) : result unit :=
  match v with
  | VString s => if panLike s then fail "invalid_argument" (pan_message path) else Ok tt
  | VLossless token => if panLike token then fail "invalid_argument" (pan_message (path +:+ ".value")) else Ok tt
  | VArray items =>
      (fix walk_items i items :=
        match items with
        | [] => Ok tt
        | item :: items =>
            let! _ := walk kind item (path +:+ "[" +:+ toString i +:+ "]") in walk_items (i + 1) items
        end) 0 items
  | VObject fields =>
      if has_key v "ct" || has_key v "alg" then
        (if isEnvelope v then Ok tt
         else fail "invalid_argument" ("Card record field " +:+ path +:+ " is a malformed encryption envelope"))
      else
        (fix walk_fields fields :=
          match fields with
          | [] => Ok tt
          | (key, child) :: fields =>
              if card_data_key key then fail "invalid_argument" "Card data is never stored"
              else if bad_amount kind key child then
                fail "invalid_argument"
                  ("Card record amount " +:+ path +:+ "." +:+ key +:+ " must be an integer-cent string")
              else let! _ := walk kind child (path +:+ "." +:+ key) in walk_fields fields
          end) fields
  | _ => Ok tt
  end.

Definition plain : list string := ["clientRefId"; "partnerCursor"; "settlementSignatures"; "settlementSlot"].

Definition no_plain (v : value) : result unit :=
  result_map (λ _, tt) (traverse (λ key, reject (has_key v key) "invalid_argument"
    ("Private repayment field " +:+ key +:+ " must be encrypted")) plain).

(** [v?.name] *)
Definition get_opt (v : value) (name : string) : value := if nullish v then VUndefined else get v name.

Definition privateRepaymentSealed (record : value) : result unit :=
  let attempts := get_opt (get record "privateRepayment") "attempts" in
  let! items := match attempts with
      | VUndefined => Ok []
      | VArray items => Ok items
      | _ => fail "invalid_argument" "Private repayment attempts must be a list"
      end in
  let! _ := traverse (λ attempt,
      if negb (is_object attempt) then fail "invalid_argument" "Private repayment attempt must be an object"
      else let! _ := no_plain attempt in
           reject (negb (sealed (get attempt "secret")))
             "invalid_argument" "Private repayment secret must be encrypted") items in
  let repayment := get record "repayment" in
  if is_object repayment then
    let! _ := no_plain repayment in
    reject (negb (sealed (get repayment "settlement")))
      "invalid_argument" "Private repayment settlement must be encrypted"
  else Ok tt.

(** ** Operations *)

Module Row.
Record t : Type := mk {
  key : string; record_json : string; owner : option string; connector : option string;
  reference : option string; idempotency : option string; updated : string;
}.
Definition of_doc (d : Doc.t) : t :=
  mk d.(Doc.key) d.(Doc.record_json) d.(Doc.owner) d.(Doc.connector) d.(Doc.reference)
    d.(Doc.idempotency) d.(Doc.updated).
End Row.

Inductive CardResult : Type :=
| OneRow (r : option Row.t)
| Rows (l : list Row.t)
| Written (written : bool) (record : option Row.t).

Definition kindOf (v : value) : result CardKind.t :=
  match v with
  | VString s =>
      match List.find (λ k, bool_decide (RecordKind.to_string (CardKind.to_kind k) = s)) CardKind.all with
      | Some k => Ok k
      | None => fail "invalid_argument" "Unknown card record kind"
      end
  | _ => fail "invalid_argument" "Unknown card record kind"
  end.

Definition opaque (v : value) (field : string) : result (option string) :=
  if nullish v then Ok None
  else match v with
       | VString s => if OPAQUE s then Ok (Some s)
                      else fail "invalid_argument" (field +:+ " must be an opaque identifier")
       | _ => fail "invalid_argument" (field +:+ " must be an opaque identifier")
       end.

(** [Math.max(1, Math.min(safeNumber(a.limit ?? d), max))] *)
Definition page_limit (v : value) (d max : Z) : result nat :=
  let! n := safeNumber (coalesce v (VNumber (JInt d))) in Ok (Z.to_nat (Z.max 1 (Z.min n max))).

Definition opt_eqb (a b : option string) : bool := bool_decide (a = b).

(** [s.startsWith(prefix)] *)
Definition startsWith (prefix s : string) : bool := String.prefix prefix s.

Section CardRecords.
Context `{C : Codec, B : Db}.

Definition validateCardRecord (kind : CardKind.t) (text : string) : result value :=
  let! record := json (VString text) in
  let! _ := reject (negb (bool_decide (coerce (get record "v") = "1")))
    "invalid_argument" "Card record version must be 1" in
  let! _ := traverse (λ f, reject (negb (sealed (get record f)))
    "invalid_argument" ("Card record field " +:+ f +:+ " must be encrypted")) (SENSITIVE kind) in
  let! _ := if bool_decide (kind = CardKind.card_statements) then privateRepaymentSealed record else Ok tt in
  let! _ := walk kind record "record" in
  Ok record.

(** A missing key is in no index range. *)
Definition getCard (records : table Doc.t) (kind : CardKind.t) (key : option string)
    : result (option (DocId * Doc.t)) :=
  unique (query (λ d, bool_decide (d.(Doc.kind) = CardKind.to_kind kind) && opt_eqb key (Some d.(Doc.key)))
    unordered records).

Definition by_idempotency (kind : CardKind.t) (idempotency : option string) (d : Doc.t) : bool :=
  bool_decide (d.(Doc.kind) = CardKind.to_kind kind) && opt_eqb d.(Doc.idempotency) idempotency.

Definition row (old : option (DocId * Doc.t)) : option Row.t := (λ x, Row.of_doc x.2) <$> old.

Definition by_updated (x y : Doc.t) : bool := str_leb x.(Doc.updated) y.(Doc.updated).
Definition by_key (x y : Doc.t) : bool := str_leb x.(Doc.key) y.(Doc.key).

Definition get_card_record (records : table Doc.t) (kind : CardKind.t) (a : value) : result CardResult :=
  let! key := opaque (get a "key") "key" in
  let! old := getCard records kind key in
  Ok (OneRow (row old)).

Definition find_card_record_by_idempotency (records : table Doc.t) (kind : CardKind.t) (a : value)
    : result CardResult :=
  let! idempotency := opaque (get a "idempotency") "idempotency" in
  let! old := unique (query (by_idempotency kind idempotency) unordered records) in
  Ok (OneRow (row old)).

(** [.order("desc")] on the last column of the index *)
Definition list_card_records_for_owner (records : table Doc.t) (kind : CardKind.t) (a : value)
    : result CardResult :=
  let! owner := opaque (get a "owner") "owner" in
  let! connector := opaque (get a "connector") "connector" in
  let! reference := opaque (get a "reference") "reference" in
  let! limit := page_limit (get a "limit") 50 200 in
  let! before := if nullish (get a "before") then Ok None else result_map Some (string_of (get a "before") "before") in
  let range d := bool_decide (d.(Doc.kind) = CardKind.to_kind kind) && opt_eqb d.(Doc.owner) owner
    && opt_eqb d.(Doc.connector) connector && opt_eqb d.(Doc.reference) reference
    && match before with Some b => str_ltb d.(Doc.updated) b | None => true end in
  let rows := query range by_updated records in
  Ok (Rows (take limit (map (λ x, Row.of_doc x.2) (reverse rows)))).

Fixpoint take_while {A} (p : A → bool) (l : list A) : list A :=
  match l with x :: l => if p x then x :: take_while p l else [] | [] => [] end.

Definition scan_card_records (records : table Doc.t) (kind : CardKind.t) (a : value) : result CardResult :=
  let prefix := match get a "prefix" with VString s => s | _ => "" end in
  let! after := if nullish (get a "after") then Ok None else result_map Some (string_of (get a "after") "after") in
  let! limit := page_limit (get a "limit") 50 100 in
  let start := match after with Some s => if str_leb prefix s then Some s else None | None => None end in
  let range d := bool_decide (d.(Doc.kind) = CardKind.to_kind kind)
    && match start with
       | Some s => str_ltb s d.(Doc.key)
       | None => bool_decide (prefix = "") || str_leb prefix d.(Doc.key)
       end in
  let rows := take_while (λ x, startsWith prefix x.2.(Doc.key)) (query range by_key records) in
  Ok (Rows (take limit (map (λ x, Row.of_doc x.2) rows))).

(** [fields] in JSON, as [doc_bytes] *)
Definition put_card_record (records : table Doc.t) (kind : CardKind.t) (a : value)
    : result (CardResult * table Doc.t) :=
  let! key := opaque (get a "key") "key" in
  let! text := string_of (get a "record_json") "record_json" in
  let! incoming := validateCardRecord kind text in
  let! old := getCard records kind key in
  let! expected := if nullish (get a "expected_rev") then Ok None
                   else result_map Some (decimal (get a "expected_rev")) in
  let! currentRev := match old with
      | Some (_, d) =>
          let! prior := json (VString d.(Doc.record_json)) in
          Ok (Some (coerce (coalesce (get prior "rev") (VString "0"))))
      | None => Ok None
      end in
  if match expected with
     | None => match old with Some _ => true | None => false end
     | Some _ => negb (opt_eqb currentRev expected)
     end
  then Ok (Written false (row old), records)
  else
    let nextRev := match expected with None => "1" | Some e => toString (BigInt e + 1) end in
    let! _ := reject (negb (bool_decide (coerce (get incoming "rev") = nextRev)))
      "invalid_argument" "Card record rev must advance by exactly one" in
    let! updated := sorted (get a "updated") in
    let! owner := opaque (get a "owner") "owner" in
    let! connector := opaque (get a "connector") "connector" in
    let! reference := opaque (get a "reference") "reference" in
    let! idempotency := opaque (get a "idempotency") "idempotency" in
    let! _ := match idempotency with
        | Some _ => no_duplicate records (by_idempotency kind idempotency) (fst <$> old)
            "Card record idempotency key already exists"
        | None => Ok tt
        end in
    match key with
    | None => Throw "Document does not match the schema"
    | Some key =>
        let doc := Doc.mk (CardKind.to_kind kind) key text None idempotency None connector reference owner
          None None None updated in
        if 900000 <? doc_bytes doc then fail "too_large" "Card record exceeds 900000 bytes"
        else
          let records := store_doc records (fst <$> old) doc in
          let! stored := getCard records kind (Some key) in
          Ok (Written true (row stored), records)
    end.

Definition cardOperation (records : table Doc.t) (op : string) (a : value)
    : result (CardResult * table Doc.t) :=
  let read r := result_map (λ x, (x, records)) r in
  let! kind := kindOf (get a "kind") in
  if bool_decide (op = "get_card_record") then read (get_card_record records kind a)
  else if bool_decide (op = "find_card_record_by_idempotency") then
    read (find_card_record_by_idempotency records kind a)
  else if bool_decide (op = "list_card_records_for_owner") then
    read (list_card_records_for_owner records kind a)
  else if bool_decide (op = "scan_card_records") then read (scan_card_records records kind a)
  else if bool_decide (op = "put_card_record") then put_card_record records kind a
  else fail "invalid_argument" "Unknown card operation".
End CardRecords.

(** ** Card-number-like text *)

(** [boundary l]: no digit at the near end of [l]. *)
Definition no_digit_first (cs : list ascii) : Prop := ∀ c rest, cs = c :: rest → is_digit c = false.
Definition no_digit_last (cs : list ascii) : Prop := ∀ c rest, cs = rest ++ [c] → is_digit c = false.

Lemma digit_runs_sound cs : ∀ acc run,
  forallb is_digit acc = true → run ∈ digit_runs acc cs →
  ∃ pre post, reverse acc ++ cs = pre ++ run ++ post ∧ forallb is_digit run = true ∧
    no_digit_last pre ∧ no_digit_first post.
Proof.
  assert (∀ acc, forallb is_digit acc = true → forallb is_digit (reverse acc) = true) as Hrev.
  { intros acc H. rewrite forallb_forall in *. intros c Hc. apply H. apply list_elem_of_In.
    apply list_elem_of_In in Hc. by rewrite elem_of_reverse in Hc. }
  induction cs as [|c cs IH]; intros acc run Hacc Hin; simpl in Hin.
  - apply list_elem_of_singleton in Hin as ->. exists [], []. rewrite !app_nil_r.
    repeat split; [by apply Hrev| |by intros ? ?]. intros c rest H. by destruct rest.
  - destruct (is_digit c) eqn:E.
    + destruct (IH (c :: acc) run) as (pre & post & H & Hr); [by simpl; rewrite E|done|].
      exists pre, post. split; [|done]. rewrite <- H, reverse_cons, <- app_assoc. done.
    + apply elem_of_cons in Hin as [->|Hin].
      * exists [], (c :: cs). simpl. repeat split; [by apply Hrev| |by intros ? ? [= <- _]].
        intros d rest H. by destruct rest.
      * destruct (IH [] run eq_refl Hin) as (pre & post & H & Hr & Hpre & Hpost).
        exists (reverse acc ++ c :: pre), post. split; [rewrite <- app_assoc; simpl; by f_equal; f_equal|].
        split; [done|]. split; [|done]. intros d rest Hd.
        destruct pre as [|p pre'] using rev_ind.
        -- change (reverse acc ++ [c] = rest ++ [d]) in Hd. apply app_inj_tail in Hd as [_ <-]. done.
        -- apply (Hpre d pre'). f_equal. f_equal.
           rewrite (app_comm_cons pre'), app_assoc in Hd. by apply app_inj_tail in Hd as [_ <-].
Qed.

Lemma digit_runs_complete cs : ∀ acc pre run post,
  cs = pre ++ run ++ post → forallb is_digit run = true → no_digit_first post →
  (match pre with [] => acc = [] | _ => no_digit_last pre end) → run ∈ digit_runs acc cs.
Proof.
  assert (∀ run post acc, forallb is_digit run = true → no_digit_first post →
    reverse acc ++ run ∈ digit_runs acc (run ++ post)) as Hrun.
  { induction run as [|c run IH]; intros post acc Hr Hp; simpl in *.
    - rewrite app_nil_r. destruct post as [|p post]; simpl; [by apply list_elem_of_singleton|].
      rewrite (Hp p post eq_refl). by left.
    - bool_reflect. match goal with H : is_digit c = true |- _ => rewrite H end.
      specialize (IH post (c :: acc)). rewrite reverse_cons, <- app_assoc in IH. by apply IH. }
  intros acc pre. revert cs acc. induction pre as [|p pre IH]; intros cs acc run post -> Hr Hp Hpre.
  - subst acc. by apply (Hrun run post []).
  - simpl. destruct pre as [|q pre].
    + rewrite (Hpre p [] eq_refl). right. by apply (Hrun run post []).
    + assert (no_digit_last (q :: pre)) as Hl by (intros c rest H; apply (Hpre c (p :: rest)); by rewrite H).
      destruct (is_digit p); [|right]; by eapply IH.
Qed.

Lemma DIGIT_RUN_spec s run :
  run ∈ DIGIT_RUN s ↔ (13 <= length run <= 19)%nat ∧ ∃ pre post,
    chars s = pre ++ run ++ post ∧ forallb is_digit run = true ∧ no_digit_last pre ∧ no_digit_first post.
Proof.
  unfold DIGIT_RUN. rewrite list_elem_of_In, filter_In, <- list_elem_of_In, andb_true_iff, !Nat.leb_le.
  split; intros [H1 H2]; split; try done.
  - by apply (digit_runs_sound (chars s) [] run) in H1.
  - destruct H2 as (pre & post & H & Hd & Hpre & Hpost).
    eapply digit_runs_complete; try done. destruct pre; done.
Qed.

(** ** Contents of a validated record *)

(** [within v x]: [x] occurs in [v] outside every encryption envelope. *)
Inductive within : value → value → Prop :=
| within_here v : within v v
| within_item v items x : within v (VArray items) → x ∈ items → within v x
| within_field v fields key x :
    within v (VObject fields) → has_key (VObject fields) "ct" = false → has_key (VObject fields) "alg" = false →
    (key, x) ∈ fields → within v x.

Lemma walk_within kind v x :
  within v x → (∃ path, walk kind v path = Ok tt) → ∃ path, walk kind x path = Ok tt.
Proof.
  induction 1 as [v|v items x _ IH Hx|v fields key x _ IH Hct Halg Hx]; [done| |]; intros [path H]%IH.
  - simpl in H. clear IH. revert H. generalize 0 at 1. induction Hx as [x items|x y items Hx IHx]; intros i H.
    + apply bind_ok in H as ([] & H & _). eauto.
    + apply bind_ok in H as ([] & _ & H). by apply IHx in H.
  - simpl in H. rewrite Hct, Halg in H. simpl in H. clear Hct Halg IH. revert H.
    induction fields as [|[k c] fields IHf]; [by apply elem_of_nil in Hx|]. intros H.
    destruct (card_data_key k); [done|]. destruct (bad_amount kind k c); [done|].
    apply bind_ok in H as ([] & H & Hrest). apply elem_of_cons in Hx as [[= <- <-]|Hx]; eauto.
Qed.

Lemma walk_string kind s path : walk kind (VString s) path = Ok tt → panLike s = false.
Proof. simpl. by destruct (panLike s). Qed.

Lemma walk_object kind fields path :
  walk kind (VObject fields) path = Ok tt →
  isEnvelope (VObject fields) = true ∨
  ∀ key x, (key, x) ∈ fields → card_data_key key = false ∧ bad_amount kind key x = false.
Proof.
  cbn [walk]. destruct (has_key _ "ct" || has_key _ "alg").
  { destruct (isEnvelope (VObject fields)); [by left | done]. }
  intros H. right. intros key x Hx. revert H. induction fields as [|[k c] fields IHf]; [by apply elem_of_nil in Hx|].
  destruct (card_data_key k) eqn:E1; [done|]. destruct (bad_amount kind k c) eqn:E2; [done|].
  intros H. apply bind_ok in H as ([] & _ & H). apply elem_of_cons in Hx as [[= <- <-]|Hx]; eauto.
Qed.

(** What a stored card record holds: its sealed fields are envelopes or absent,
    and outside envelopes no text looks like a card number, no field is card
    data, every amount is an integer-cent text and whatever resembles an
    envelope is one. *)
Record clean_record (kind : CardKind.t) (record : value) : Prop := {
  clean_version : coerce (get record "v") = "1";
  clean_sealed f : f ∈ SENSITIVE kind → sealed (get record f) = true;
  clean_text s : within record (VString s) → panLike s = false;
  clean_object fields : within record (VObject fields) →
    isEnvelope (VObject fields) = true ∨
    ∀ key x, (key, x) ∈ fields → card_data_key key = false ∧ bad_amount kind key x = false;
}.

(** The revision a record's text carries. *)
Definition revision (record : value) : string := coerce (coalesce (get record "rev") (VString "0")).

Lemma next_revision v e : decimal v = Ok e → toString (BigInt e + 1) ≠ e.
Proof.
  intros [Hp _]%decimal_ok E. apply decimal_pattern_iff in Hp as (n & Hn & ->).
  rewrite BigInt_text in E by lia. unfold toString in E.
  rewrite (proj2 (Z.ltb_ge _ _)) in E by lia. apply (f_equal chars) in E. rewrite !chars_text in E.
  apply nat_chars_inj in E; lia.
Qed.

Section CardLemmas.
Context `{C : Codec, B : Db, BS : !DbSpec B}.

Lemma traverse_reject {A} (p : A → bool) (message : A → string) code l u x :
  traverse (λ x, reject (p x) code (message x)) l = Ok u → x ∈ l → p x = false.
Proof.
  revert u. induction l as [|y l IH]; simpl; intros u H Hx; [by apply elem_of_nil in Hx|].
  inv_ok H. apply elem_of_cons in Hx as [->|Hx]; [by eapply reject_ok | by eapply IH].
Qed.

Lemma validateCardRecord_clean kind s v :
  validateCardRecord kind s = Ok v → json (VString s) = Ok v ∧ clean_record kind v.
Proof.
  unfold validateCardRecord. intros H. apply bind_ok in H as (record & Hj & H).
  apply bind_ok in H as ([] & Hv & H). apply bind_ok in H as (u & Hs & H).
  apply bind_ok in H as ([] & _ & H). apply bind_ok in H as ([] & Hw & H). injection H as <-.
  split; [done|]. split.
  - apply reject_ok in Hv. by bool_reflect.
  - intros f Hf. apply (traverse_reject _ _ _ _ _ _ Hs) in Hf. by bool_reflect.
  - intros x Hx. destruct (walk_within kind _ _ Hx) as [path Hp]; [eauto|]. by apply walk_string in Hp.
  - intros fields Hx. destruct (walk_within kind _ _ Hx) as [path Hp]; [eauto|]. by apply walk_object in Hp.
Qed.

Lemma getCard_spec kind key d :
  bool_decide (d.(Doc.kind) = CardKind.to_kind kind) && opt_eqb key (Some d.(Doc.key)) = true ↔
  ∃ k, key = Some k ∧ id_of d = Some (CardKind.to_kind kind, k).
Proof.
  unfold opt_eqb, id_of. rewrite andb_true_iff, !bool_decide_eq_true. split.
  - intros [-> ->]. eauto.
  - intros (k & -> & [= -> ->]). done.
Qed.

Lemma getCard_some t kind key i d :
  getCard t kind key = Ok (Some (i, d)) →
  docs t !! i = Some d ∧ ∃ k, key = Some k ∧ id_of d = Some (CardKind.to_kind kind, k).
Proof. intros H. apply unique_some in H as [Hi Hp]. split; [done|]. by apply getCard_spec. Qed.

Lemma getCard_only t kind k old :
  getCard t kind (Some k) = Ok old → only (fst <$> old) id_of (Some (CardKind.to_kind kind, k)) t.
Proof.
  intros H j e y [= <-] He Hy.
  pose proof (unique_found _ _ _ _ _ _ H He (proj2 (getCard_spec kind (Some k) e) (ex_intro _ k (conj eq_refl Hy)))) as ->.
  done.
Qed.

Lemma getCard_unique t kind k i d :
  records_unique (docs t) → docs t !! i = Some d → id_of d = Some (CardKind.to_kind kind, k) →
  getCard t kind (Some k) = Ok (Some (i, d)).
Proof.
  intros [Hu _ _ _ _] Hi Hid. unfold getCard.
  set (p := λ d, bool_decide (Doc.kind d = CardKind.to_kind kind) && opt_eqb (Some k) (Some (Doc.key d))).
  destruct (unique_query p unordered t) as [(j & e & -> & Hj & Hp)|[_ Hn]].
  - intros a b x y Ha Hb Hx Hy. unfold p in *. apply getCard_spec in Hx as (? & [= <-] & Hx), Hy as (? & [= <-] & Hy).
    by eapply Hu.
  - unfold p in Hp. apply getCard_spec in Hp as (? & [= <-] & Hp). assert (j = i) as -> by (by eapply Hu).
    by rewrite Hi in Hj; injection Hj as ->.
  - exfalso. pose proof (Hn i d Hi) as Hf. unfold p in Hf.
    rewrite (proj2 (getCard_spec kind (Some k) d)) in Hf by eauto. done.
Qed.

(** Both outcomes of a put. *)
Definition put_refused (expected : option string) (old : option (DocId * Doc.t)) : Prop :=
  match expected, old with
  | None, None => False
  | None, Some _ => True
  | Some e, None => True
  | Some e, Some (_, d) => ∃ prior, json (VString d.(Doc.record_json)) = Ok prior ∧ revision prior ≠ e
  end.

Definition put_accepted (expected : option string) (old : option (DocId * Doc.t)) : Prop :=
  match expected, old with
  | None, None => True
  | Some e, Some (_, d) => ∃ prior, json (VString d.(Doc.record_json)) = Ok prior ∧ revision prior = e
  | _, _ => False
  end.

Lemma opaque_some v f k : opaque v f = Ok (Some k) → v = VString k.
Proof. unfold opaque. destruct v; simpl; try done. destruct (OPAQUE s); [by intros [= ->] | done]. Qed.

Lemma put_card_record_inv t kind a res t' :
  put_card_record t kind a = Ok (res, t') →
  ∃ key text incoming old expected,
    opaque (get a "key") "key" = Ok key ∧ get a "record_json" = VString text ∧
    validateCardRecord kind text = Ok incoming ∧ getCard t kind key = Ok old ∧
    (if nullish (get a "expected_rev") then expected = None
     else ∃ e, decimal (get a "expected_rev") = Ok e ∧ expected = Some e) ∧
    (put_refused expected old ∧ res = Written false (row old) ∧ t' = t ∨
     ∃ k d, key = Some k ∧ put_accepted expected old ∧
       coerce (get incoming "rev") = match expected with None => "1" | Some e => toString (BigInt e + 1) end ∧
       id_of d = Some (CardKind.to_kind kind, k) ∧ d.(Doc.record_json) = text ∧ is_stamp d.(Doc.updated) ∧
       only (fst <$> old) idempotency_of (idempotency_of d) t ∧
       t' = store_doc t (fst <$> old) d ∧
       ∃ stored, getCard t' kind key = Ok stored ∧ res = Written true (row stored)).
Proof.
  unfold put_card_record. intros H. apply bind_ok in H as (key & Hkey & H).
  apply bind_ok in H as (txt & Ht & H). apply string_of_ok in Ht as [Ht _].
  apply bind_ok in H as (incoming & Hv & H). apply bind_ok in H as (old & Ho & H).
  apply bind_ok in H as (expected & He & H). apply bind_ok in H as (currentRev & Hc & H).
  exists key, txt, incoming, old, expected. do 4 (split; [done|]). split.
  { destruct (nullish _); [by injection He as <-|]. destruct (decimal _) as [e|]; [|done].
    injection He as <-. eauto. }
  match type of H with (if ?b then _ else _) = _ =>
    assert ((b = true → put_refused expected old) ∧ (b = false → put_accepted expected old)) as [Href Hacc];
    [|destruct b eqn:E] end.
  { destruct expected as [e|], old as [[i d]|]; simpl; [| |by split..].
    - inv_ok Hc. subst currentRev. unfold opt_eqb. split; intros Hb; exists a0; bool_reflect; unfold revision;
        (split; [done|congruence]).
    - injection Hc as <-. unfold opt_eqb. by rewrite bool_decide_eq_false_2. }
  { left. injection H as <- <-. split; [by apply Href | done]. }
  right. apply bind_ok in H as ([] & Hrev & H). apply reject_ok in Hrev. bool_reflect.
  apply bind_ok in H as (updated & Hup & H). apply bind_ok in H as (owner & _ & H).
  apply bind_ok in H as (connector & _ & H). apply bind_ok in H as (reference & _ & H).
  apply bind_ok in H as (idem & _ & H). apply bind_ok in H as ([] & Hdup & H).
  destruct key as [k|]; [|done].
  cbv zeta in H. match type of H with context [doc_bytes ?x] => set (doc := x) in H end.
  destruct (900000 <? doc_bytes doc); [done|]. apply bind_ok in H as (stored & Hst & H).
  injection H as <- <-. exists k, doc. split; [done|]. split; [by apply Hacc|].
  split; [done|]. split; [done|]. split; [done|]. split; [by apply sorted_ok in Hup as [? _]|].
  split; [|split; [done|eauto]].
  unfold idempotency_of at 2. cbn [doc Doc.idempotency Doc.kind]. destruct idem as [x|]; [|by intros j e y].
  eapply no_duplicate_only; [exact Hdup|]. intros e He'. unfold by_idempotency, opt_eqb.
  unfold idempotency_of in He'. destruct (Doc.idempotency e) eqn:Ee; [|done]. injection He' as <- <-.
  by rewrite !bool_decide_eq_true_2.
Qed.

Lemma put_old_exists t kind key old i :
  getCard t kind key = Ok old → fst <$> old = Some i → is_Some (docs t !! i).
Proof.
  intros H Hi. destruct old as [[j d]|]; [|done]. injection Hi as <-.
  apply getCard_some in H as [-> _]. done.
Qed.

(** A put keeps the table well formed. *)
Lemma put_card_record_unique t kind a res t' :
  records_unique (docs t) → put_card_record t kind a = Ok (res, t') → records_unique (docs t').
Proof.
  intros Hu H. apply put_card_record_inv in H as (key & s & v & old & expected & _ & _ & _ & Ho & _ & H).
  destruct H as [(_ & _ & ->)|(k & d & -> & _ & _ & Hid & _ & _ & Hidem & -> & _)]; [done|].
  apply store_unique; [done| | |exact Hidem|].
  - intros i. by eapply put_old_exists.
  - rewrite Hid. by apply getCard_only.
  - intros column _ j e y Hy. unfold signer_column in Hy.
    injection Hid as Hk _. rewrite Hk in Hy. rewrite bool_decide_eq_false_2 in Hy; [done|by destruct kind].
Qed.

Lemma put_card_record_stamped t kind a res t' :
  stamped (docs t) → put_card_record t kind a = Ok (res, t') → stamped (docs t').
Proof.
  intros Hu H. apply put_card_record_inv in H as (key & s & v & old & expected & _ & _ & _ & Ho & _ & H).
  destruct H as [(_ & _ & ->)|(k & d & -> & _ & _ & Hid & _ & Hs & Hidem & -> & _)]; [done|].
  destruct (store_doc_docs t (fst <$> old) d) as (i & -> & _); [intros i; by eapply put_old_exists|].
  by apply stamped_put.
Qed.

(** The record a write returns is the one it stored. *)
Lemma stored_record t kind k old d :
  records_unique (docs (store_doc t (fst <$> old) d)) → getCard t kind (Some k) = Ok old →
  id_of d = Some (CardKind.to_kind kind, k) →
  ∃ i, docs (store_doc t (fst <$> old) d) = <[i := d]> (docs t) ∧
    match old with Some (j, _) => i = j | None => docs t !! i = None end ∧
    getCard (store_doc t (fst <$> old) d) kind (Some k) = Ok (Some (i, d)).
Proof.
  intros Hu Ho Hid. destruct (store_doc_docs t (fst <$> old) d) as (i & Ht & Hi).
  { intros j; by eapply put_old_exists. }
  exists i. split; [done|]. split; [by destruct old as [[]|]|].
  apply getCard_unique; [done| |done]. rewrite Ht. by rewrite lookup_insert_eq.
Qed.

(** A put touches no record of another key. *)
Lemma put_card_record_other t kind a res t' i d :
  docs t !! i = Some d → d.(Doc.kind) ≠ CardKind.to_kind kind →
  put_card_record t kind a = Ok (res, t') → docs t' !! i = Some d.
Proof.
  intros Hi Hne H. apply put_card_record_inv in H as (key & s & v & old & expected & _ & _ & _ & Ho & _ & H).
  destruct H as [(_ & _ & ->)|(k & e & -> & _ & _ & Hid & _ & _ & _ & -> & _)]; [done|].
  destruct (store_doc_docs t (fst <$> old) e) as (j & -> & Hj); [intros j; by eapply put_old_exists|].
  rewrite lookup_insert_ne; [done|]. intros ->. destruct old as [[l f]|]; simpl in Hj; [|congruence].
  subst l. apply getCard_some in Ho as [Hf (k' & _ & Hid')]. rewrite Hi in Hf. injection Hf as ->.
  by injection Hid' as ? _.
Qed.
End CardLemmas.

(** ** Properties *)

(** What [panLike] refuses: a text with a free-standing run of 13 to 19
    digits that passes the Luhn check, unless the whole text is an identifier
    (long hex or base58) with a letter in it; and nothing else. *)
Theorem panLike_iff (s : string) :
  panLike s = true ↔
    (IDENTIFIER s && existsb is_letter (chars s) = false) ∧
    ∃ pre run post, chars s = pre ++ run ++ post ∧ (13 <= length run <= 19)%nat ∧
      forallb is_digit run = true ∧ no_digit_last pre ∧ no_digit_first post ∧ luhn run = true.
Proof.
  unfold panLike. destruct (IDENTIFIER s && existsb is_letter (chars s)); [naive_solver|].
  rewrite existsb_exists. split.
  - intros (run & Hin & Hl). apply list_elem_of_In, DIGIT_RUN_spec in Hin as (Hlen & pre & post & ?).
    split; [done|]. exists pre, run, post. naive_solver.
  - intros (_ & pre & run & post & ? & ? & ? & ? & ? & ?). exists run. split; [|done].
    apply list_elem_of_In, DIGIT_RUN_spec. split; [done|]. by exists pre, post.
Qed.

Section CardProperties.
Context `{C : Codec, B : Db, BS : !DbSpec B}.

(** A card record is written by compare-and-swap.  A put either changes
    nothing and returns the current record, when the expected revision is not
    the stored one; or it stores exactly the given text under the given kind and
    key, at revision 1 for a new record and one more than the expected revision
    for an old one, and returns the stored record.  What it stores is clean:
    its sensitive fields are sealed and nothing in it looks like card data. *)
Theorem put_card_record_spec (t t' : table Doc.t) (kind : CardKind.t) (a : value) (res : CardResult) :
  records_unique (docs t) → put_card_record t kind a = Ok (res, t') →
  (∃ old, res = Written false (row old) ∧ t' = t) ∨
  ∃ i d key record,
    res = Written true (Some (Row.of_doc d)) ∧ docs t' = <[i := d]> (docs t) ∧
    get a "key" = VString key ∧ get a "record_json" = VString d.(Doc.record_json) ∧
    d.(Doc.kind) = CardKind.to_kind kind ∧ d.(Doc.key) = key ∧
    json (VString d.(Doc.record_json)) = Ok record ∧ clean_record kind record ∧
    ((nullish (get a "expected_rev") = true ∧ coerce (get record "rev") = "1" ∧
       ∀ j e, docs t !! j = Some e → id_of e ≠ id_of d) ∨
     ∃ e old prior, decimal (get a "expected_rev") = Ok e ∧
       docs t !! i = Some old ∧ id_of old = id_of d ∧
       json (VString old.(Doc.record_json)) = Ok prior ∧ revision prior = e ∧
       coerce (get record "rev") = toString (BigInt e + 1)).
Proof using BS.
  intros Hu H. pose proof (put_card_record_unique _ _ _ _ _ Hu H) as Hu'.
  apply put_card_record_inv in H as (key & s & v & old & expected & Hkey & Hs & Hv & Ho & He & H).
  destruct H as [(_ & -> & ->)|(k & d & -> & Href & Hrev & Hid & Hd & _ & _ & -> & stored & Hst & ->)].
  { left. by exists old. }
  right. subst s. apply validateCardRecord_clean in Hv as [Hj Hclean].
  destruct (stored_record _ _ _ _ _ Hu' Ho Hid) as (i & Ht & Hi & Hg).
  assert (stored = Some (i, d)) as -> by congruence.
  exists i, d, k, v. split; [done|]. split; [done|].
  split; [by eapply opaque_some|].
  injection Hid as Hk Hkk. do 5 (split; [done|]).
  assert (id_of d = Some (CardKind.to_kind kind, k)) as Hid by (unfold id_of; congruence).
  destruct (nullish (get a "expected_rev")).
  - subst expected. left. split; [done|]. split; [done|]. intros j e Hje Hne.
    destruct old as [[l f]|]; [done|]. rewrite Hid in Hne.
    by pose proof (getCard_only _ _ _ _ Ho j e _ eq_refl Hje Hne).
  - right. destruct He as (e & He & ->). destruct old as [[l f]|]; [|done].
    simpl in Hi. subst l. apply getCard_some in Ho as [Hf (k' & [= <-] & Hid')].
    destruct Href as (prior & Hp & Hr). exists e, f, prior. repeat split; try done. congruence.
Qed.

(** No update is lost.  Once a put that expected a revision has written, a
    second put of that key with the same expectation writes nothing and gets
    the first one's record back. *)
Theorem put_card_record_cas (t t1 t2 : table Doc.t) (kind : CardKind.t) (a b : value)
    (r : option Row.t) (res : CardResult) :
  records_unique (docs t) → get a "key" = get b "key" → get a "expected_rev" = get b "expected_rev" →
  put_card_record t kind a = Ok (Written true r, t1) → put_card_record t1 kind b = Ok (res, t2) →
  res = Written false r ∧ t2 = t1.
Proof using BS.
  intros Hu Hab Hrev H1 H2. pose proof (put_card_record_unique _ _ _ _ _ Hu H1) as Hu1.
  apply put_card_record_inv in H1 as (key & s & v & old & expected & Hkey & _ & Hv & Ho & He & H1).
  apply put_card_record_inv in H2 as (key' & s' & v' & old' & expected' & Hkey' & _ & _ & Ho' & He' & H2).
  rewrite Hab in Hkey. assert (key' = key) as -> by congruence.
  rewrite Hrev in He. assert (expected' = expected) as ->.
  { destruct (nullish _); [congruence|]. destruct He as (? & ? & ->), He' as (? & ? & ->). congruence. }
  destruct H1 as [(_ & ? & _)|(k & d & -> & Hacc & Hr & Hid & Hd & _ & _ & -> & stored & Hst & [= ->])]; [done|].
  destruct (stored_record _ _ _ _ _ Hu1 Ho Hid) as (i & _ & _ & Hg).
  assert (stored = Some (i, d)) as -> by congruence. assert (old' = Some (i, d)) as -> by congruence.
  destruct H2 as [(_ & -> & ->)|(k' & d' & _ & Hacc' & _)]; [done|]. exfalso.
  destruct expected as [e|]; [|done]. destruct Hacc' as (prior & Hp & Hre).
  apply validateCardRecord_clean in Hv as [Hj _]. assert (prior = v) as -> by congruence.
  destruct (nullish _); [done|]. destruct He as (e' & He & [= <-]).
  unfold revision, coalesce in Hre. destruct (nullish (get v "rev")) eqn:En.
  - simpl in Hre. subst e. by destruct (get v "rev").
  - apply (next_revision _ _ He). by rewrite <- Hr.
Qed.
End CardProperties.

(** ** Examples *)

Import Model ModelCodec.

Definition sample_put (rev : string) (expected : value) : value :=
  VObject [("key", VString "card:1"); ("record_json", VString ("v=1;rev=" +:+ rev));
    ("expected_rev", expected); ("updated", VString "7")].

Definition put_sample (t : gmap DocId Doc.t) (a : value) : result (CardResult * gmap DocId Doc.t) :=
  put_card_record (B := db) t CardKind.cards a.

Definition table_after (r : result (CardResult * gmap DocId Doc.t)) : gmap DocId Doc.t :=
  match r with Ok (_, t) => t | Throw _ => ∅ end.
Definition row_after (r : result (CardResult * gmap DocId Doc.t)) : option Row.t :=
  match r with Ok (Written true row, _) => row | _ => None end.

Definition cards_1 := table_after (put_sample ∅ (sample_put "1" VNull)).
Definition cards_2 := table_after (put_sample cards_1 (sample_put "2" (VString "1"))).
Definition row_2 := row_after (put_sample cards_1 (sample_put "2" (VString "1"))).

Lemma sample_puts :
  (∃ r, put_sample ∅ (sample_put "1" VNull) = Ok (r, cards_1)) ∧
  put_sample cards_1 (sample_put "2" (VString "1")) = Ok (Written true row_2, cards_2) ∧
  put_sample cards_2 (sample_put "2" (VString "1")) = Ok (Written false row_2, cards_2).
Proof. split; [eexists|split]; vm_compute; reflexivity. Qed.

Lemma cards_1_unique : records_unique cards_1.
Proof.
  destruct sample_puts as ((r & H) & _).
  exact (put_card_record_unique _ _ _ _ _ records_unique_empty H).
Qed.

Lemma put_card_record_spec_witness : ∃ i d, cards_2 = <[i := d]> cards_1.
Proof.
  destruct sample_puts as (_ & H & _).
  destruct (@put_card_record_spec codec db db_spec cards_1 cards_2 CardKind.cards
    (sample_put "2" (VString "1")) (Written true row_2) cards_1_unique H)
    as [(old & E & _)|(i & d & key & record & _ & E & _)]; [discriminate E|].
  exists i, d. exact E.
Defined.

Lemma put_card_record_cas_witness :
  Written false row_2 = Written false row_2 ∧ cards_2 = cards_2.
Proof.
  destruct sample_puts as (_ & H1 & H2).
  exact (@put_card_record_cas codec db db_spec cards_1 cards_2 cards_2 CardKind.cards
    (sample_put "2" (VString "1")) (sample_put "2" (VString "1")) row_2 (Written false row_2)
    cards_1_unique eq_refl eq_refl H1 H2).
Defined.
