(* ===== verification/CardRedact.v ===== *)
(** * Card-data hygiene (sdk/src/cards/redact.ts)

    What leaves a process toward a model, a log or a screen: forbidden keys are
    dropped and every free-standing run of 13 to 19 digits is replaced.  The
    pattern is matched as the regular expression is: greedily, giving digits back
    until what follows is not part of an identifier.  The text of a number that is
    not an integer is an argument.  Values are those of [JSON]: no byte arrays, big
    integers or lossless number tokens, and no field called [__proto__]. *)
From Stdlib Require Import ZArith Lia Strings.Ascii.
From stdpp Require Import base numbers strings list.
From S2P Require Import Prelude PublicKey Decimal CardConstants CardPda Values Records CardRecords.

Definition CARD_DATA_REDACTION : string := "[redacted]".

(** ** Keys *)

(** [a_?b] *)
Definition joined (a b : string) : list string := [a +:+ b; a +:+ "_" +:+ b].

(** The words of [FORBIDDEN_KEY], which ignores case *)
Definition FORBIDDEN_KEYS : list string :=
  ["pan"; "cardnum"; "cvv"; "cvv2"; "cvc"; "cvc2"; "csc"; "pin"]
  ++ joined "card" "number" ++ joined "security" "code"
  ++ (p ← joined "primary" "account"; joined p "number")
  ++ (e ← ["exp"; "expiry"; "expiration"]; e :: (d ← ["date"; "month"; "year"]; joined e d))
  ++ joined "embed" "url" ++ joined "embed" "session" ++ joined "track" "data"
  ++ joined "tee" "token" ++ joined "auth" "token" ++ joined "access" "token".

Definition isForbiddenCardKey (key : string) : bool := bool_decide (text (map lower (chars key)) ∈ FORBIDDEN_KEYS).

(** ** Digit runs *)

(** [0-9A-Za-z_-] *)
Definition is_word (c : ascii) : bool := is_alnum c || bool_decide (c = "_"%char) || bool_decide (c = "-"%char).

Definition outside (c : option ascii) : bool := match c with Some c => negb (is_word c) | None => true end.

(** One more digit, after a separator or not *)
Definition next_digit (separator : ascii → bool) (cs : list ascii) : option (list ascii) :=
  match cs with
  | c :: rest =>
      if is_digit c then Some rest
      else if separator c then match rest with d :: rest => if is_digit d then Some rest else None | [] => None end
      else None
  | [] => None
  end.

(** At least [needed] and at most [allowed] more digits, as many as leave the end outside an identifier *)
Fixpoint more_digits (separator : ascii → bool) (allowed needed : nat) (cs : list ascii) : option (list ascii) :=
  let here := if (needed =? 0)%nat && outside (head cs) then Some cs else None in
  match allowed with
  | O => here
  | S allowed =>
      match (rest ← next_digit separator cs; more_digits separator allowed (needed - 1) rest) with
      | Some rest => Some rest
      | None => here
      end
  end.

(** The rest behind a match that begins here, [before] being the character in front *)
Definition match_at (separator : ascii → bool) (before : option ascii) (cs : list ascii) : option (list ascii) :=
  match cs with
  | c :: rest => if outside before && is_digit c then more_digits separator 18 12 rest else None
  | [] => None
  end.

(** All matches from left to right: [skip] characters are part of the last one. *)
Fixpoint matches (separator : ascii → bool) (before : option ascii) (skip : nat) (cs : list ascii) : list (list ascii) :=
  match cs with
  | [] => []
  | c :: rest =>
      match skip with
      | S skip => matches separator (Some c) skip rest
      | O =>
          match match_at separator before cs with
          | Some behind =>
              let n := (length cs - length behind)%nat in take n cs :: matches separator (Some c) (n - 1) rest
          | None => matches separator (Some c) 0 rest
          end
      end
  end.

Fixpoint replaced (separator : ascii → bool) (before : option ascii) (skip : nat) (cs : list ascii) : list ascii :=
  match cs with
  | [] => []
  | c :: rest =>
      match skip with
      | S skip => replaced separator (Some c) skip rest
      | O =>
          match match_at separator before cs with
          | Some behind => chars CARD_DATA_REDACTION ++ replaced separator (Some c) (length cs - length behind - 1) rest
          | None => c :: replaced separator (Some c) 0 rest
          end
      end
  end.

(** The separators of [CARD_NUMBER_RUN] and of [CARD_NUMBER_RUN_INPUT] *)
Definition strict_separator (c : ascii) : bool := bool_decide (c ∈ [" "; "-"]%char).
Definition input_separator (c : ascii) : bool := bool_decide (c ∈ [" "; "."; "/"; "-"]%char).

Definition findCardNumberLike (s : string) : list string := map text (matches strict_separator None 0 (chars s)).
Definition findCardNumberLikeInInput (s : string) : list string := map text (matches input_separator None 0 (chars s)).
Definition redactCardNumbers (s : string) : string := text (replaced strict_separator None 0 (chars s)).
Definition redactCardNumbersInInput (s : string) : string := text (replaced input_separator None 0 (chars s)).

(** ** Luhn *)

(** From the last digit: every second one is doubled *)
Fixpoint luhn_sum (double : bool) (digits : list ascii) : Z :=
  match digits with
  | [] => 0
  | c :: digits =>
      let d := char_digit c in
      (if double then if 9 <? d * 2 then d * 2 - 9 else d * 2 else d) + luhn_sum (negb double) digits
  end.

Definition luhnValid (digits : string) : bool :=
  let clean := filter (λ c, strict_separator c = false) (chars digits) in
  negb (length clean =? 0)%nat && forallb is_digit clean && (luhn_sum false (reverse clean) mod 10 =? 0).

(** ** Values *)

Section Redact.
(** [value.toString()] of a number that is not an integer *)
Context (other_text : number → string).

Definition number_text (n : number) : string := match n with JInt z => toString z | n => other_text n end.

Definition MAX_DEPTH : nat := 32.
Definition too_deep {A} : result A := Throw "Value is nested too deeply to check for card data".

(** [depth] counts down from [MAX_DEPTH]: an object or an array on the last level throws unless it is empty. *)
Fixpoint walk (depth : option nat) (v : value) : result (value * nat) :=
  match depth with
  | None => too_deep
  | Some d =>
      let deeper := match d with O => None | S d => Some d end in
      match v with
      | VString s => let next := redactCardNumbers s in Ok (VString next, if bool_decide (next = s) then O else 1%nat)
      | VNumber n =>
          if (length (findCardNumberLike (number_text n)) =? 0)%nat then Ok (v, O) else Ok (VString CARD_DATA_REDACTION, 1%nat)
      | VArray items =>
          let! done := (fix all (items : list value) : result (list value * nat) :=
                          match items with
                          | [] => Ok ([], O)
                          | x :: items =>
                              let! (x, n) := walk deeper x in let! (items, m) := all items in Ok (x :: items, (n + m)%nat)
                          end) items in
          let '(items, n) := done in Ok (VArray items, n)
      | VObject fields =>
          let! done := (fix all (fields : list (string * value)) : result (list (string * value) * nat) :=
                          match fields with
                          | [] => Ok ([], O)
                          | (k, x) :: fields =>
                              if isForbiddenCardKey k then let! (fields, m) := all fields in Ok (fields, S m)
                              else let! (x, n) := walk deeper x in let! (fields, m) := all fields in Ok ((k, x) :: fields, (n + m)%nat)
                          end) fields in
          let '(fields, n) := done in Ok (VObject fields, n)
      | v => Ok (v, O)
      end
  end.

Definition redactCardData (v : value) : result (value * nat) := walk (Some MAX_DEPTH) v.

Definition assertNoCardData (v : value) (where_ : string) : result unit :=
  let! (_, redactions) := redactCardData v in
  throw_if! (0 <? redactions)%nat with "Card data is never allowed in " +:+ where_;
  Ok tt.
End Redact.
