(* ===== verification/CardRedactProps.v ===== *)
(** * Theorems on card-data hygiene

    No text leaves the redaction with a run that could be a card number, and no
    object with a forbidden key; what had neither is unchanged, and the assertion
    passes exactly that. *)
From Stdlib Require Import ZArith Lia Strings.Ascii.
From stdpp Require Import base numbers strings list.
From S2P Require Import Prelude PublicKey Decimal CardConstants CardPda Values Records CardRecords CardRedact.

(** ** Runs *)
Section Runs.
Context (separator : ascii → bool).

Fixpoint steps (k : nat) (cs : list ascii) : option (list ascii) :=
  match k with
  | O => Some cs
  | S k => rest ← next_digit separator cs; steps k rest
  end.

(** Backtracking finds an end if there is one. *)
Lemma more_digits_iff allowed needed cs :
  is_Some (more_digits separator allowed needed cs) ↔
  ∃ k rest, (needed ≤ k ≤ allowed)%nat ∧ steps k cs = Some rest ∧ outside (head rest) = true.
Proof.
  revert needed cs. induction allowed as [|allowed IH]; intros needed cs; cbn [more_digits].
  - destruct ((needed =? 0)%nat && outside (head cs)) eqn:E.
    + apply andb_true_iff in E as [E1%Nat.eqb_eq E2]. split; [intros _; exists 0%nat, cs; split; [lia|done]|by eexists].
    + split; [by intros [? ?]|]. intros (k & rest & Hk & Hs & Ho). assert (k = 0%nat) as -> by lia. injection Hs as ->.
      rewrite Ho, andb_true_r in E. apply Nat.eqb_neq in E. lia.
  - assert (is_Some (rest ← next_digit separator cs; more_digits separator allowed (needed - 1) rest) ↔
      ∃ k rest, (needed - 1 ≤ k ≤ allowed)%nat ∧ steps (S k) cs = Some rest ∧ outside (head rest) = true) as Hnext.
    { cbn [steps]. destruct (next_digit separator cs) as [r|]; cbn; [apply IH|]. split; [by intros [? ?]|].
      by intros (k & rest & _ & ? & _). }
    destruct (rest ← next_digit separator cs; more_digits separator allowed (needed - 1) rest) as [r|] eqn:E.
    + split; [intros _|by eexists]. destruct (proj1 Hnext (ex_intro _ r eq_refl)) as (k & rest & Hk & Hs & Ho).
      exists (S k), rest. split; [lia|done].
    + split.
      * intros [r Hr]. destruct ((needed =? 0)%nat && outside (head cs)) eqn:E2; [|done].
        apply andb_true_iff in E2 as [E1%Nat.eqb_eq E2]. exists 0%nat, cs. split; [lia|done].
      * intros ([|k] & rest & Hk & Hs & Ho).
        -- injection Hs as ->. rewrite Ho, (proj2 (Nat.eqb_eq needed 0)) by lia. by eexists.
        -- destruct (proj2 Hnext) as [? ?]; [|done]. exists k, rest. split; [lia|done].
Qed.

Lemma next_digit_suffix cs rest : next_digit separator cs = Some rest → ∃ m, m ≠ [] ∧ cs = m ++ rest.
Proof.
  destruct cs as [|c cs]; cbn; [done|]. destruct (is_digit c); [intros [= <-]; by exists [c]|].
  destruct (separator c); [|done]. destruct cs as [|d cs]; [done|]. destruct (is_digit d); [|done].
  intros [= <-]. by exists [c; d].
Qed.

Lemma more_digits_suffix allowed needed cs rest :
  more_digits separator allowed needed cs = Some rest → outside (head rest) = true ∧ ∃ m, cs = m ++ rest.
Proof.
  revert needed cs. induction allowed as [|allowed IH]; intros needed cs; cbn [more_digits].
  - destruct ((needed =? 0)%nat && outside (head cs)) eqn:E; [|done]. intros [= <-].
    apply andb_true_iff in E as [_ E]. split; [done|by exists []].
  - destruct (rest ← next_digit separator cs; more_digits separator allowed (needed - 1) rest) as [r|] eqn:E.
    + intros [= ->]. apply bind_Some in E as (r & Hn & Hm). destruct (IH _ _ Hm) as (Ho & m & ->).
      apply next_digit_suffix in Hn as (m0 & _ & ->). split; [done|]. exists (m0 ++ m). by rewrite app_assoc.
    + destruct ((needed =? 0)%nat && outside (head cs)) eqn:E2; [|done]. intros [= <-].
      apply andb_true_iff in E2 as [_ E2]. split; [done|by exists []].
Qed.

#[local] Arguments more_digits : simpl never.

Lemma match_at_some before cs behind :
  match_at separator before cs = Some behind → outside (head behind) = true ∧ ∃ c m, cs = c :: m ++ behind.
Proof.
  destruct cs as [|c rest]; [done|]. unfold match_at. destruct (_ && _); [|done]. intros H.
  apply more_digits_suffix in H as (Ho & m & ->). split; [done|by exists c, m].
Qed.

Lemma match_at_no_digit before c rest : is_digit c = false → match_at separator before (c :: rest) = None.
Proof. intros H. unfold match_at. by rewrite H, andb_false_r. Qed.

Lemma digit_word c : is_digit c = true → is_word c = true.
Proof. intros H. unfold is_word, is_alnum. by rewrite H, orb_true_r. Qed.

Lemma outside_no_digit c : outside (Some c) = true → is_digit c = false.
Proof. cbn. destruct (is_digit c) eqn:E; [|done]. by rewrite (digit_word c E). Qed.

(** ** Skipping a match *)

Lemma replaced_skip before m behind :
  replaced separator before (length m) (m ++ behind) = replaced separator (match last m with Some c => Some c | None => before end) 0 behind.
Proof.
  revert before. induction m as [|c m IH]; intros before; [done|]. cbn [length app replaced]. rewrite IH.
  destruct m as [|d m]; [done|]. change (last (c :: d :: m)) with (last (d :: m)).
  destruct (last (d :: m)) eqn:E; [done|]. by apply last_None in E.
Qed.

Lemma matches_skip before m behind :
  matches separator before (length m) (m ++ behind) = matches separator (match last m with Some c => Some c | None => before end) 0 behind.
Proof.
  revert before. induction m as [|c m IH]; intros before; [done|]. cbn [length app matches]. rewrite IH.
  destruct m as [|d m]; [done|]. change (last (c :: d :: m)) with (last (d :: m)).
  destruct (last (d :: m)) eqn:E; [done|]. by apply last_None in E.
Qed.

(** One turn of the scan *)
Lemma replaced_eq before c rest :
  replaced separator before 0 (c :: rest) =
    match match_at separator before (c :: rest) with
    | Some behind => chars CARD_DATA_REDACTION ++ replaced separator (Some c) (length (c :: rest) - length behind - 1) rest
    | None => c :: replaced separator (Some c) 0 rest
    end.
Proof. done. Qed.

Lemma matches_eq before c rest :
  matches separator before 0 (c :: rest) =
    match match_at separator before (c :: rest) with
    | Some behind =>
        let n := (length (c :: rest) - length behind)%nat in take n (c :: rest) :: matches separator (Some c) (n - 1) rest
    | None => matches separator (Some c) 0 rest
    end.
Proof. done. Qed.

(** ** A redacted text has no run *)

(** The run of digits read in the redacted text is one of the text itself. *)
Lemma steps_replaced k c rest out :
  is_digit c = true → steps k (replaced separator (Some c) 0 rest) = Some out → outside (head out) = true →
  ∃ r, steps k rest = Some r ∧ outside (head r) = true.
Proof.
  revert c rest. induction k as [|k IH]; intros c rest Hc Hs Ho.
  - injection Hs as <-. exists rest. split; [done|]. destruct rest as [|d rest]; [done|].
    rewrite replaced_eq in Ho. cbn [match_at outside] in Ho. by rewrite (digit_word c Hc) in Ho.
  - cbn [steps] in Hs |- *. apply bind_Some in Hs as (o1 & Hn & Hs).
    destruct rest as [|d rest]; [done|]. rewrite replaced_eq in Hn.
    cbn [match_at outside] in Hn. rewrite (digit_word c Hc) in Hn. cbn [negb andb] in Hn.
    cbn [next_digit] in Hn |- *. destruct (is_digit d) eqn:Ed.
    + injection Hn as <-. cbn. by apply (IH d rest).
    + destruct (separator d); [|done]. destruct rest as [|e rest]; [done|]. rewrite replaced_eq in Hn.
      destruct (match_at separator (Some d) (e :: rest)) as [behind|]; [done|].
      destruct (is_digit e) eqn:Ee; [|done]. injection Hn as <-. cbn. by apply (IH e rest).
Qed.

Lemma no_match_kept before c rest :
  match_at separator before (c :: rest) = None →
  match_at separator before (c :: replaced separator (Some c) 0 rest) = None.
Proof.
  unfold match_at. destruct (outside before && is_digit c) eqn:E; [|done]. apply andb_true_iff in E as [_ Hc]. intros Hn.
  destruct (more_digits separator 18 12 (replaced separator (Some c) 0 rest)) as [r|] eqn:Em; [|done].
  destruct (proj1 (more_digits_iff 18 12 _) (ex_intro _ r Em)) as (k & out & Hk & Hs & Ho).
  destruct (steps_replaced k c rest out Hc Hs Ho) as (r' & Hs' & Ho').
  destruct (proj2 (more_digits_iff 18 12 rest)) as [x Hx]; [by exists k, r'|congruence].
Qed.

Lemma redaction_passed before X :
  matches separator before 0 (chars CARD_DATA_REDACTION ++ X) = matches separator (Some "]"%char) 0 X.
Proof.
  change (chars CARD_DATA_REDACTION) with ["["; "r"; "e"; "d"; "a"; "c"; "t"; "e"; "d"; "]"]%char. cbn [app].
  do 10 (rewrite matches_eq, match_at_no_digit by done). done.
Qed.

Lemma replaced_clean before before' cs :
  before' = before ∨ outside (head cs) = true → matches separator before' 0 (replaced separator before 0 cs) = [].
Proof.
  remember (length cs) as n eqn:En. revert before before' cs En.
  induction n as [n IH] using lt_wf_ind. intros before before' cs -> Hb. destruct cs as [|c rest]; [done|].
  rewrite replaced_eq. destruct (match_at separator before (c :: rest)) as [behind|] eqn:E.
  - rewrite redaction_passed. apply match_at_some in E as (Ho & c' & m & [= <- ->]).
    replace (length (c :: m ++ behind) - length behind - 1)%nat with (length m) by (cbn; rewrite length_app; lia).
    rewrite replaced_skip. eapply IH; [|done|by right]. cbn. rewrite length_app. lia.
  - assert (match_at separator before' (c :: replaced separator (Some c) 0 rest) = None) as Hn.
    { destruct Hb as [->|Ho]; [by apply no_match_kept|]. apply match_at_no_digit. by apply outside_no_digit. }
    rewrite matches_eq, Hn. eapply IH; [|done|by left]. cbn. lia.
Qed.

Lemma no_match_unchanged before cs : matches separator before 0 cs = [] → replaced separator before 0 cs = cs.
Proof.
  revert before. induction cs as [|c rest IH]; intros before; [done|].
  rewrite matches_eq, replaced_eq. destruct (match_at _ _ _); [done|]. intros H. f_equal. by apply IH.
Qed.

(** ** What the pattern matches *)

(** [k] digits, each after at most one separator *)
Inductive more : nat → list ascii → Prop :=
| more_none : more 0 []
| more_digit k d m : is_digit d = true → more k m → more (S k) (d :: m)
| more_separated k s d m : separator s = true → is_digit d = true → more k m → more (S k) (s :: d :: m).

(** 13 to 19 digits between ends that are not part of an identifier *)
Definition has_run (before : option ascii) (cs : list ascii) : Prop :=
  ∃ pre c m post k,
    cs = pre ++ c :: m ++ post ∧ is_digit c = true ∧ more k m ∧ (12 ≤ k ≤ 18)%nat ∧
    outside (match last pre with Some c => Some c | None => before end) = true ∧ outside (head post) = true.

Context (separators : ∀ c, separator c = true → is_digit c = false).

Lemma steps_iff k cs rest : steps k cs = Some rest ↔ ∃ m, more k m ∧ cs = m ++ rest.
Proof.
  revert cs. induction k as [|k IH]; intros cs; cbn [steps].
  - split; [intros [= ->]; exists []; by split; [constructor|]|]. intros (m & Hm & ->). by inversion Hm.
  - split.
    + intros (r & Hn & (m & Hm & ->)%IH)%bind_Some. destruct cs as [|c cs]; [done|]. cbn [next_digit] in Hn.
      destruct (is_digit c) eqn:Ec; [injection Hn as ->; exists (c :: m); by split; [constructor|]|].
      destruct (separator c) eqn:Es; [|done]. destruct cs as [|d cs]; [done|]. destruct (is_digit d) eqn:Ed; [|done].
      injection Hn as ->. exists (c :: d :: m). by split; [constructor|].
    + intros (m & Hm & ->). inversion Hm as [|? d m' Hd Hm'|? s d m' Hs Hd Hm']; subst; cbn [app next_digit].
      * rewrite Hd. apply IH. by exists m'.
      * rewrite (separators s Hs), Hs, Hd. apply IH. by exists m'.
Qed.

Lemma match_at_iff before c rest :
  is_Some (match_at separator before (c :: rest)) ↔
  is_digit c = true ∧ outside before = true ∧
  ∃ m post k, rest = m ++ post ∧ more k m ∧ (12 ≤ k ≤ 18)%nat ∧ outside (head post) = true.
Proof.
  unfold match_at. destruct (outside before); [|split; [by intros [? ?]|by intros (_ & ? & _)]].
  destruct (is_digit c); [|split; [by intros [? ?]|by intros (? & _)]]. cbn [andb]. rewrite more_digits_iff. split.
  - intros (k & out & Hk & (m & Hm & ->)%steps_iff & Ho). split; [done|]. split; [done|]. by exists m, out, k.
  - intros (_ & _ & m & out & k & -> & Hm & Hk & Ho). exists k, out. split; [done|]. split; [|done].
    apply steps_iff. by exists m.
Qed.

Lemma no_matches_iff before cs : matches separator before 0 cs = [] ↔ ¬ has_run before cs.
Proof.
  revert before. induction cs as [|c rest IH]; intros before.
  { split; [|done]. intros _ ([|] & ? & ? & ? & ? & ? & _); done. }
  rewrite matches_eq. destruct (match_at separator before (c :: rest)) as [behind|] eqn:E.
  - split; [done|]. intros Hn. destruct Hn.
    destruct (proj1 (match_at_iff before c rest) (ex_intro _ behind E)) as (Hc & Hb & m & post & k & -> & Hm & Hk & Ho).
    by exists [], c, m, post, k.
  - rewrite IH. split; intros Hn.
    + intros ([|p pre] & d & m & post & k & [= <- ->] & Hd & Hm & Hk & Hb & Ho).
      * destruct (proj2 (match_at_iff before c (m ++ post))) as [? ?]; [|congruence].
        split; [done|]. split; [done|]. by exists m, post, k.
      * apply Hn. exists pre, d, m, post, k. repeat (split; [done|]). split; [|done].
        destruct pre as [|q pre]; [done|]. change (last (c :: q :: pre)) with (last (q :: pre)) in Hb.
        destruct (last (q :: pre)) eqn:El; [done|]. by apply last_None in El.
    + intros (pre & d & m & post & k & -> & Hd & Hm & Hk & Hb & Ho). apply Hn.
      exists (c :: pre), d, m, post, k. repeat (split; [done|]). split; [|done].
      destruct pre as [|q pre]; [done|]. change (last (c :: q :: pre)) with (last (q :: pre)).
      destruct (last (q :: pre)) eqn:El; [done|]. by apply last_None in El.
Qed.
End Runs.

Lemma strict_no_digit c : strict_separator c = true → is_digit c = false.
Proof.
  intros H%bool_decide_eq_true. apply elem_of_cons in H as [->|H]; [done|].
  apply elem_of_cons in H as [->|H]; [done|]. by apply elem_of_nil in H.
Qed.

(** A text that could show a card number *)
Definition shows_number (s : string) : Prop := has_run strict_separator None (chars s).

Lemma found_iff s : findCardNumberLike s = [] ↔ ¬ shows_number s.
Proof.
  unfold findCardNumberLike, shows_number. rewrite <- (no_matches_iff _ strict_no_digit).
  split; [apply map_eq_nil|by intros ->].
Qed.

Lemma redactCardNumbers_clean s : ¬ shows_number (redactCardNumbers s).
Proof.
  apply found_iff. unfold findCardNumberLike, redactCardNumbers. rewrite chars_text, replaced_clean by by left. done.
Qed.

Lemma redactCardNumbers_id s : redactCardNumbers s = s ↔ ¬ shows_number s.
Proof.
  rewrite <- found_iff. split.
  - intros <-. apply found_iff, redactCardNumbers_clean.
  - unfold findCardNumberLike, redactCardNumbers. intros H%map_eq_nil. by rewrite no_match_unchanged, text_chars.
Qed.

(** ** Values *)

(** Induction on a value with the hypothesis for every item and field *)
Fixpoint value_items_ind (P : value → Prop)
    (Hother : ∀ v, (∀ l, v ≠ VArray l) → (∀ l, v ≠ VObject l) → P v)
    (Harray : ∀ items, Forall P items → P (VArray items))
    (Hobject : ∀ fields, Forall (λ f, P f.2) fields → P (VObject fields)) (v : value) : P v :=
  let rec := value_items_ind P Hother Harray Hobject in
  match v with
  | VArray items =>
      Harray items ((fix all items := match items return Forall P items with
                     | [] => Forall_nil_2 _ | x :: items => Forall_cons_2 _ _ _ (rec x) (all items) end) items)
  | VObject fields =>
      Hobject fields ((fix all fields := match fields return Forall (λ f : string * value, P f.2) fields with
                       | [] => Forall_nil_2 _ | f :: fields => Forall_cons_2 _ _ _ (rec f.2) (all fields) end) fields)
  | v => Hother v ltac:(done) ltac:(done)
  end.

Section Redaction.
Context (other_text : number → string).
Local Abbreviation walk := (walk other_text).

(** No key that names card data, and no text or number with a run as a value; digits in a key are not looked at *)
Fixpoint clean (v : value) : Prop :=
  match v with
  | VString s => ¬ shows_number s
  | VNumber n => ¬ shows_number (number_text other_text n)
  | VArray items => (fix all (items : list value) : Prop := match items with [] => True | x :: items => clean x ∧ all items end) items
  | VObject fields =>
      (fix all (fields : list (string * value)) : Prop :=
         match fields with [] => True | (k, x) :: fields => (isForbiddenCardKey k = false ∧ clean x) ∧ all fields end) fields
  | _ => True
  end.

(** How deep the walk goes: it does not enter a dropped field. *)
Fixpoint levels (v : value) : nat :=
  match v with
  | VArray items => (fix most (items : list value) : nat := match items with [] => O | x :: items => Nat.max (S (levels x)) (most items) end) items
  | VObject fields =>
      (fix most (fields : list (string * value)) : nat :=
         match fields with
         | [] => O
         | (k, x) :: fields => if isForbiddenCardKey k then most fields else Nat.max (S (levels x)) (most fields)
         end) fields
  | _ => O
  end.

Definition deeper (d : nat) : option nat := match d with O => None | S d => Some d end.

Lemma walk_none v : walk None v = too_deep.
Proof. by destruct v. Qed.

(** The walk of a list, one item at a time *)
Lemma walk_array_cons d x items :
  walk (Some d) (VArray (x :: items)) =
    let! (x, n) := walk (deeper d) x in
    let! (v, m) := walk (Some d) (VArray items) in
    Ok (match v with VArray items => VArray (x :: items) | v => v end, (n + m)%nat).
Proof.
  cbn [walk]. destruct (walk _ x) as [[x' n]|]; [|done]. cbn [bind].
  destruct ((fix all items := match items with [] => _ | _ :: _ => _ end) items) as [[items' m]|]; done.
Qed.

Lemma walk_object_cons d k x fields :
  walk (Some d) (VObject ((k, x) :: fields)) =
    if isForbiddenCardKey k then let! (v, m) := walk (Some d) (VObject fields) in Ok (v, S m)
    else
      let! (x, n) := walk (deeper d) x in
      let! (v, m) := walk (Some d) (VObject fields) in
      Ok (match v with VObject fields => VObject ((k, x) :: fields) | v => v end, (n + m)%nat).
Proof.
  cbn [walk]. destruct (isForbiddenCardKey k);
    [|destruct (walk _ x) as [[x' n]|]; [|done]; cbn [bind]];
    destruct ((fix all fields := match fields with [] => _ | _ :: _ => _ end) fields) as [[fields' m]|]; done.
Qed.

(** What a walk gives for a value it goes through *)
Definition redacted (v w : value) (n : nat) : Prop := clean w ∧ (n = O ↔ clean v) ∧ (clean v → w = v).

Definition same_shape (v w : value) : Prop :=
  match v, w with VArray _, VArray _ | VObject _, VObject _ => True | VArray _, _ | VObject _, _ => False | _, _ => True end.

Lemma walk_redacts v d :
  (levels v ≤ d)%nat → ∃ w n, walk (Some d) v = Ok (w, n) ∧ redacted v w n ∧ same_shape v w.
Proof.
  revert d. induction v as [v Ha Ho|items IH|fields IH] using value_items_ind; intros d Hd.
  - destruct v as [| | |num| |s|items|fields]; try by eexists _, O.
    + cbn [walk]. destruct (findCardNumberLike (number_text other_text num)) as [|r rs] eqn:E; cbn [length Nat.eqb].
      * exists (VNumber num), O. apply found_iff in E. by repeat split.
      * exists (VString CARD_DATA_REDACTION), 1%nat. unfold redacted. cbn [clean]. rewrite <- !found_iff, E. by repeat split.
    + cbn [walk]. eexists _, _. split; [done|]. unfold redacted. cbn [clean].
      case_bool_decide as E; rewrite redactCardNumbers_id in E.
      * rewrite (proj2 (redactCardNumbers_id s) E). done.
      * split; [|done]. split; [apply redactCardNumbers_clean|]. by split.
    + by destruct (Ha items).
    + by destruct (Ho fields).
  - revert d Hd. induction IH as [|x items Hx _ IHitems]; intros d Hd; [by exists (VArray []), O|].
    cbn [levels] in Hd. destruct d as [|d]; [lia|]. rewrite walk_array_cons. cbn [deeper].
    destruct (Hx d) as (x' & n & -> & (Hc & Hn & Hi) & _); [lia|]. cbn [bind].
    destruct (IHitems (S d)) as ([| | | | | |items'|] & m & -> & (Hc' & Hm & Hi') & Hs); try done; [cbn [levels]; lia|].
    eexists _, _. split; [done|]. split; [|done]. split; [done|]. cbn [clean]. split.
    + rewrite <- Hn. cbn [clean] in Hm. rewrite <- Hm. lia.
    + intros [Hx1 Hx2]. rewrite (Hi Hx1). specialize (Hi' Hx2). by injection Hi' as ->.
  - revert d Hd. induction IH as [|[k x] fields Hx _ IHfields]; intros d Hd; [by exists (VObject []), O|].
    cbn [levels] in Hd. rewrite walk_object_cons. destruct (isForbiddenCardKey k) eqn:Hk.
    + destruct (IHfields d) as (w & m & -> & (Hc & Hm & Hi) & Hs); [done|].
      eexists _, _. split; [done|]. split; [|done]. split; [done|]. cbn [clean]. rewrite Hk. split; [|by intros [[? _] _]].
      split; [done|by intros [[? _] _]].
    + cbn [snd] in Hx. destruct d as [|d]; [lia|]. cbn [deeper].
      destruct (Hx d) as (x' & n & -> & (Hc & Hn & Hi) & _); [lia|]. cbn [bind].
      destruct (IHfields (S d)) as ([| | | | | | |fields'] & m & -> & (Hc' & Hm & Hi') & Hs); try done; [cbn [levels]; lia|].
      eexists _, _. split; [done|]. split; [|done]. split; [by cbn [clean]; rewrite Hk|]. cbn [clean]. rewrite Hk. split.
      * rewrite <- Hn. cbn [clean] in Hm. rewrite <- Hm. split; [intros ?; split; [split; [done|lia]|lia]|intros [[_ ?] ?]; lia].
      * intros [[_ Hx1] Hx2]. rewrite (Hi Hx1). specialize (Hi' Hx2). by injection Hi' as ->.
Qed.

(** Deeper values are refused. *)
Lemma walk_too_deep v d : (d < levels v)%nat → walk (Some d) v = too_deep.
Proof.
  revert d. induction v as [v Ha Ho|items IH|fields IH] using value_items_ind; intros d Hd.
  - destruct v as [| | | | | |items|fields]; try (cbn in Hd; lia); [by destruct (Ha items)|by destruct (Ho fields)].
  - revert d Hd. induction IH as [|x items Hx _ IHitems]; intros d Hd; [cbn in Hd; lia|].
    cbn [levels] in Hd. rewrite walk_array_cons. destruct d as [|d]; [by rewrite walk_none|]. cbn [deeper].
    destruct (decide (d < levels x)%nat) as [Hlt|Hge]; [by rewrite (Hx d Hlt)|].
    destruct (walk_redacts x d) as (x' & n & -> & _); [lia|]. cbn [bind]. rewrite IHitems; [done|]. cbn [levels]. lia.
  - revert d Hd. induction IH as [|[k x] fields Hx _ IHfields]; intros d Hd; [cbn in Hd; lia|].
    cbn [levels] in Hd. rewrite walk_object_cons. destruct (isForbiddenCardKey k).
    { by rewrite IHfields. }
    destruct d as [|d]; [by rewrite walk_none|]. cbn [deeper snd] in *.
    destruct (decide (d < levels x)%nat) as [Hlt|Hge]; [by rewrite (Hx d Hlt)|].
    destruct (walk_redacts x d) as (x' & n & -> & _); [lia|]. cbn [bind]. rewrite IHfields; [done|]. cbn [levels]. lia.
Qed.

(** C36: A value nested at most 32 levels deep is redacted: the copy has no key that names card data and no text or
    number as a value with a free-standing run of 13 to 19 digits, the count is zero exactly when the value had none,
    which then is returned unchanged, and the assertion passes exactly such a value; every deeper value is refused.
    The keys of objects are compared with the names of card data only: digits in a key are neither counted nor
    replaced ([digits_in_key_stay]). *)
Theorem redaction_complete v where_ :
  ((levels v ≤ MAX_DEPTH)%nat →
     ∃ w n, redactCardData other_text v = Ok (w, n) ∧ redacted v w n ∧
            (assertNoCardData other_text v where_ = Ok tt ↔ clean v)) ∧
  ((MAX_DEPTH < levels v)%nat →
     redactCardData other_text v = too_deep ∧ assertNoCardData other_text v where_ = too_deep).
Proof.
  unfold assertNoCardData, redactCardData. split; intros H.
  - destruct (walk_redacts v MAX_DEPTH H) as (w & n & -> & Hr & _). exists w, n. split; [done|]. split; [done|].
    destruct Hr as (_ & <- & _). cbn [bind]. destruct (0 <? n)%nat eqn:E.
    + apply Nat.ltb_lt in E. split; [done|lia].
    + apply Nat.ltb_ge in E. split; [intros _; lia|done].
  - by rewrite (walk_too_deep v MAX_DEPTH H).
Qed.
End Redaction.

(** A number with spaces is replaced and a code dropped; a dashed identifier stays. *)
Example sample_redaction other_text :
  redactCardData other_text
    (VObject [("note", VString "pay 4111 1111 1111 1111 now"); ("CVV", VNumber (JInt 123));
              ("ref", VString "550e8400-1234-4321-8716-446655440000"); ("at", VNumber (JInt 1700000000000))]) =
  Ok (VObject [("note", VString "pay [redacted] now"); ("ref", VString "550e8400-1234-4321-8716-446655440000");
               ("at", VString "[redacted]")], 3%nat).
Proof. vm_compute. reflexivity. Qed.

(** Digits in a key are not looked at: the value passes the assertion as it is. *)
Example digits_in_key_stay other_text :
  findCardNumberLike "4111111111111111" = ["4111111111111111"] ∧
  redactCardData other_text (VObject [("4111111111111111", VNumber (JInt 1))]) = Ok (VObject [("4111111111111111", VNumber (JInt 1))], 0%nat) ∧
  assertNoCardData other_text (VObject [("4111111111111111", VNumber (JInt 1))]) "value" = Ok tt.
Proof. vm_compute. done. Qed.

(** Twenty digits are more than a card number, a dashed one that is part of a word is an identifier. *)
Example sample_runs :
  findCardNumberLike "4111-1111-1111-1111, 12345678901234567890, x-4111111111111111" = ["4111-1111-1111-1111"] ∧
  findCardNumberLikeInInput "4111.1111/1111.1111" = ["4111.1111/1111.1111"] ∧
  luhnValid "4111 1111 1111 1111" = true ∧ luhnValid "4111 1111 1111 1112" = false.
Proof. vm_compute. done. Qed.

Definition no_fraction (n : number) : string := "NaN".

Lemma redaction_complete_witness :
  (levels (VArray [VString "4111111111111111"]) ≤ MAX_DEPTH)%nat ∧
  ∃ w n, redactCardData no_fraction (VArray [VString "4111111111111111"]) = Ok (w, n) ∧
         redacted no_fraction (VArray [VString "4111111111111111"]) w n ∧
         (assertNoCardData no_fraction (VArray [VString "4111111111111111"]) "value" = Ok tt ↔
          clean no_fraction (VArray [VString "4111111111111111"])).
Proof.
  split; [vm_compute; lia|]. apply (proj1 (redaction_complete no_fraction (VArray [VString "4111111111111111"]) "value")).
  vm_compute. lia.
Defined.
