(* ===== verification/Webhooks.v ===== *)
(** * Owner webhook outbox (convex/webhooks.ts)

    Events, subscriptions and their deliveries.  An event is written once per
    (receipt, type, version) and fans out to one delivery per active
    subscription; a delivery is leased to a worker by a token, and only the
    holder of the lease records an outcome. *)
From Stdlib Require Import ZArith Lia Strings.Ascii.
From stdpp Require Import base numbers strings list fin_maps gmap.
From S2P Require Import Prelude Bytes PublicKey Decimal CardConstants Values Store Records CardRecords.

Inductive SubscriptionStatus : Type := active | disabled.
#[export] Instance SubscriptionStatus_eq_dec : EqDecision SubscriptionStatus.
Proof. solve_decision. Defined.

Inductive DeliveryState : Type := pending | delivering | delivered | retry_scheduled | exhausted.
#[export] Instance DeliveryState_eq_dec : EqDecision DeliveryState.
Proof. solve_decision. Defined.

Module Subscription.
Record t : Type := mk {
  subscription_id : string; owner_wallet : string; url : string; description : option string;
  status : SubscriptionStatus; secrets_json : string; created_at_ms : Z; updated_at_ms : Z;
}.
End Subscription.

Module Event.
Record t : Type := mk {
  event_id : string; owner_wallet : string; event_type : string; version : Z; receipt_address : string;
  body : string; occurred_at_ms : Z; created_at_ms : Z;
}.
End Event.

Module Delivery.
Record t : Type := mk {
  delivery_id : string; event_id : string; subscription_id : string; owner_wallet : string;
  event_type : string; receipt_address : string; state : DeliveryState; attempts : Z;
  next_attempt_at_ms : Z; lease_token : option string; lease_expires_at_ms : option Z;
  last_status : option Z; last_error : option string; delivered_at_ms : option Z;
  created_at_ms : Z; updated_at_ms : Z;
}.
(** [{ ...d, state, attempts, next_attempt_at_ms, lease_token,
    lease_expires_at_ms, last_status, last_error, delivered_at_ms, updated_at_ms }] *)
Definition patch (d : t) (state : DeliveryState) (attempts next : Z) (lease : option (string * Z))
    (last_status : option Z) (last_error : option string) (delivered_at : option Z) (now : Z) : t :=
  mk d.(delivery_id) d.(event_id) d.(subscription_id) d.(owner_wallet) d.(event_type)
    d.(receipt_address) state attempts next (fst <$> lease) (snd <$> lease) last_status last_error
    delivered_at d.(created_at_ms) now.
End Delivery.

(** A claimed delivery, as the worker gets it. *)
Module Claimed.
Record t : Type := mk { delivery : Delivery.t; event_body : string; url : string; secrets : value }.
End Claimed.

(** The three tables. *)
Module Outbox.
Record t `{B : Db} : Type := mk {
  subscriptions : table Subscription.t;
  events : table Event.t;
  deliveries : table Delivery.t;
}.
Arguments t {B}.
Arguments mk {B}.
End Outbox.

Definition DISABLED : string := "Endpoint disabled before delivery".
Definition MAX_ERROR : nat := 200.

(** [/^[A-Za-z0-9_-]{1,120}$/] *)
Definition ID (s : string) : bool :=
  let cs := chars s in
  negb (Nat.eqb (length cs) 0) && Nat.leb (length cs) 120
    && forallb (λ c, is_alnum c || bool_decide (c ∈ ["_"; "-"]%char)) cs.

Definition id_value (v : value) (field : string) : result string :=
  let! s := string_of v field in
  if ID s then Ok s else fail "invalid_argument" (field +:+ " must be an opaque identifier").

Definition wallet (v : value) : result string :=
  let! s := string_of v "owner" in
  if Nat.ltb 64 (String.length (trim s)) then fail "invalid_argument" "owner is too long" else Ok (trim s).

Definition truncate (s : string) : string := text (take MAX_ERROR (chars s)).

(** [value.slice(value.indexOf("_") + 1)], or the whole text *)
Fixpoint tail_chars (cs : list ascii) : option (list ascii) :=
  match cs with
  | [] => None
  | c :: cs => if bool_decide (c = "_"%char) then Some cs else tail_chars cs
  end.
Definition tail (s : string) : string := text (default (chars s) (tail_chars (chars s))).

Definition deliveryId (event_id subscription_id : string) : string :=
  "dlv_" +:+ tail event_id +:+ "_" +:+ tail subscription_id.

Section Webhooks.
Context `{C : Codec, B : Db}.

Definition validEvent (raw : value) : result Event.t :=
  if negb (is_object raw) then fail "invalid_argument" "Invalid webhook event"
  else
    let f := get raw in
    let! body := string_of (f "body") "body" in
    if 16384 <? Z.of_nat (String.length body) then fail "invalid_argument" "Webhook event body is too large"
    else
      let! _ := match JSON_parse body with Some _ => Ok tt | None => Throw "SyntaxError" end in
      let! version := safeNumber (f "version") in
      let! _ := reject (version <? 1) "invalid_argument" "Invalid event version" in
      let! event_id := id_value (f "event_id") "event_id" in
      let! owner_wallet := wallet (f "owner_wallet") in
      let! event_type := string_of (f "event_type") "event_type" in
      let! receipt_address := string_of (f "receipt_address") "receipt_address" in
      let! occurred_at_ms := safeNumber (f "occurred_at_ms") in
      let! created_at_ms := safeNumber (f "created_at_ms") in
      Ok (Event.mk event_id owner_wallet event_type version receipt_address body occurred_at_ms created_at_ms).

Definition parseEvents (events_json : value) : result (list Event.t) :=
  match events_json with
  | VString s =>
      if 400000 <? Z.of_nat (String.length s) then fail "invalid_argument" "events_json must be a string"
      else match JSON_parse s with
           | None => Throw "SyntaxError"
           | Some (VArray items) =>
               if Nat.ltb 50 (length items)
               then fail "invalid_argument" "events_json must be a list of up to 50 events"
               else traverse validEvent items
           | Some _ => fail "invalid_argument" "events_json must be a list of up to 50 events"
           end
  | _ => fail "invalid_argument" "events_json must be a string"
  end.

(** [text.includes(s)] *)
Fixpoint contains (text s : string) : bool :=
  String.prefix s text || match text with EmptyString => false | String.String _ rest => contains rest s end.

Definition validSecrets (v : value) : result string :=
  match v with
  | VArray items =>
      if Nat.eqb (length items) 0 || Nat.ltb 2 (length items)
      then fail "invalid_argument" "Secret set must hold one or two entries"
      else
        let! _ := traverse (λ entry,
          if negb (is_object entry && isEnvelope (get entry "envelope"))
          then fail "invalid_argument" "Webhook secrets must be encrypted"
          else
            let! _ := safeNumber (get entry "created_at_ms") in
            match get entry "expires_at_ms" with VNull => Ok 0 | x => safeNumber x end) items in
        let text := JSON_stringify v in
        if contains text "whsec_" then fail "invalid_argument" "Webhook secrets must be encrypted" else Ok text
  | _ => fail "invalid_argument" "Secret set must hold one or two entries"
  end.

Definition subscriptionById (t : table Subscription.t) (id : string)
    : result (option (DocId * Subscription.t)) :=
  unique (query (λ s, bool_decide (s.(Subscription.subscription_id) = id)) unordered t).
Definition deliveryById (t : table Delivery.t) (id : string) : result (option (DocId * Delivery.t)) :=
  unique (query (λ d, bool_decide (d.(Delivery.delivery_id) = id)) unordered t).
Definition eventById (t : table Event.t) (id : string) : result (option (DocId * Event.t)) :=
  unique (query (λ e, bool_decide (e.(Event.event_id) = id)) unordered t).

Definition by_created (x y : Subscription.t) : bool :=
  x.(Subscription.created_at_ms) <=? y.(Subscription.created_at_ms).

Definition new_delivery (e : Event.t) (s : Subscription.t) : Delivery.t :=
  Delivery.mk (deliveryId e.(Event.event_id) s.(Subscription.subscription_id)) e.(Event.event_id)
    s.(Subscription.subscription_id) e.(Event.owner_wallet) e.(Event.event_type)
    e.(Event.receipt_address) pending 0 e.(Event.created_at_ms) None None None None None
    e.(Event.created_at_ms) e.(Event.created_at_ms).

Fixpoint fan_out (e : Event.t) (subs : list Subscription.t) (deliveries : table Delivery.t)
    : result (table Delivery.t) :=
  match subs with
  | [] => Ok deliveries
  | s :: subs =>
      if negb (bool_decide (s.(Subscription.status) = active)) then fan_out e subs deliveries
      else
        let! existing := deliveryById deliveries (deliveryId e.(Event.event_id) s.(Subscription.subscription_id)) in
        match existing with
        | Some _ => fan_out e subs deliveries
        | None => fan_out e subs (insert_doc (new_delivery e s) deliveries).2
        end
  end.

(** The subscriptions of the owner that existed when the payment confirmed. *)
Definition subscribers (t : table Subscription.t) (e : Event.t) : list Subscription.t :=
  take 100 (query (λ s, bool_decide (s.(Subscription.owner_wallet) = e.(Event.owner_wallet))
    && (s.(Subscription.created_at_ms) <=? e.(Event.occurred_at_ms))) by_created t).*2.

Definition same_receipt (e x : Event.t) : bool :=
  bool_decide (x.(Event.receipt_address) = e.(Event.receipt_address))
  && bool_decide (x.(Event.event_type) = e.(Event.event_type)) && (x.(Event.version) =? e.(Event.version)).

Definition emitEvent (o : Outbox.t) (e : Event.t) : result (bool * Outbox.t) :=
  let! known := eventById o.(Outbox.events) e.(Event.event_id) in
  match known with
  | Some _ => Ok (false, o)
  | None =>
      match query (same_receipt e) unordered o.(Outbox.events) with
      | _ :: _ => Ok (false, o)
      | [] =>
          let events := (insert_doc e o.(Outbox.events)).2 in
          let! deliveries := fan_out e (subscribers o.(Outbox.subscriptions) e) o.(Outbox.deliveries) in
          Ok (true, Outbox.mk o.(Outbox.subscriptions) events deliveries)
      end
  end.

(** [for (const event of events) if (await emitEvent(event)) created++] *)
Fixpoint emit_all (o : Outbox.t) (events : list Event.t) : result (Z * Outbox.t) :=
  match events with
  | [] => Ok (0, o)
  | e :: events =>
      let! (made, o) := emitEvent o e in
      let! (n, o) := emit_all o events in
      Ok ((if made then 1 else 0) + n, o)
  end.

Definition emitAfterWrite (records : table Doc.t) (o : Outbox.t) (kind : RecordKind.t) (key : string)
    (events_json : value) : result (Z * Outbox.t) :=
  let! events := parseEvents events_json in
  let! stored := getRecord records kind key in
  match stored with
  | None => Ok (0, o)
  | Some (_, d) =>
      let! record := json (VString d.(Doc.record_json)) in
      if negb (is_one_of ["confirmed"] (get record "status")) then Ok (0, o)
      else emit_all o (List.filter (λ e, negb (bool_decide (kind = RecordKind.payments)
             && negb (is_one_of [e.(Event.receipt_address)] (get record "receipt_address")))) events)
  end.

Definition claimAction (d : Delivery.t) (is_active : bool) (maxAttempts : Z) : option string :=
  if negb is_active then Some DISABLED
  else if maxAttempts <=? d.(Delivery.attempts)
    then Some "Attempt limit reached; the last attempt's outcome was not recorded"
    else None.

(** ** Operations *)

Definition with_deliveries (o : Outbox.t) (d : table Delivery.t) : Outbox.t :=
  Outbox.mk o.(Outbox.subscriptions) o.(Outbox.events) d.
Definition with_subscriptions (o : Outbox.t) (s : table Subscription.t) : Outbox.t :=
  Outbox.mk s o.(Outbox.events) o.(Outbox.deliveries).

Definition parse_json (s : string) : result value :=
  match JSON_parse s with Some v => Ok v | None => Throw "SyntaxError" end.

Definition subscriptionRow (s : Subscription.t) : result (Subscription.t * value) :=
  let! secrets := parse_json s.(Subscription.secrets_json) in Ok (s, secrets).

Definition emit_webhook_events (o : Outbox.t) (a : value) : result (Z * Outbox.t) :=
  let! events := parseEvents (get a "events_json") in emit_all o events.

Fixpoint missing_ids (events : table Event.t) (ids : list value) : result (list string) :=
  match ids with
  | [] => Ok []
  | x :: ids =>
      let! event_id := id_value x "event_id" in
      let! known := eventById events event_id in
      let! rest := missing_ids events ids in
      Ok (match known with Some _ => rest | None => event_id :: rest end)
  end.

Definition missing_webhook_events (o : Outbox.t) (a : value) : result (list string) :=
  match get a "event_ids" with
  | VArray ids =>
      if Nat.ltb 200 (length ids) then fail "invalid_argument" "event_ids must be a list of up to 200 ids"
      else missing_ids o.(Outbox.events) ids
  | _ => fail "invalid_argument" "event_ids must be a list of up to 200 ids"
  end.

Definition get_webhook_event (o : Outbox.t) (a : value) : result (option Event.t) :=
  let! event_id := id_value (get a "event_id") "event_id" in
  let! found := eventById o.(Outbox.events) event_id in
  Ok (snd <$> found).

(** The loop over the newest rows: it stops after [limit] rows, past the rows
    tied with the last of them. *)
Fixpoint page_rows (rows : list Doc.t) (limit scanned : nat) (boundary : option string) (taken : nat)
    : result (list string) :=
  match rows with
  | [] => Ok []
  | row :: rows =>
      if Nat.ltb 5000 (S scanned) then Ok []
      else if match boundary with Some b => str_ltb row.(Doc.updated) b | None => false end then Ok []
      else
        let! record := json (VString row.(Doc.record_json)) in
        if negb (is_one_of ["confirmed"] (get record "status"))
        then page_rows rows limit (S scanned) boundary taken
        else
          let boundary := if Nat.eqb (S taken) limit then Some row.(Doc.updated) else boundary in
          let! rest := page_rows rows limit (S scanned) boundary (S taken) in
          Ok (row.(Doc.record_json) :: rest)
  end.

Definition confirmedPage (records : table Doc.t) (kind : RecordKind.t) (a : value) : result (list string) :=
  let! limit := page_limit (get a "limit") 100 200 in
  let! since := sorted (get a "since") in
  let! before := sorted (get a "before") in
  let range d := bool_decide (d.(Doc.kind) = kind) && bool_decide (d.(Doc.owner) = None)
    && str_leb since d.(Doc.updated) && str_ltb d.(Doc.updated) before in
  page_rows (reverse (query range by_updated records).*2) limit 0 None 0.

Definition create_webhook_subscription (o : Outbox.t) (a : value) : result (bool * Outbox.t) :=
  let s := coalesce (get a "subscription") (VObject []) in
  let! owner := wallet (get s "owner_wallet") in
  let! url := string_of (get s "url") "url" in
  let! _ := reject (negb (startsWith "https://" url) || Nat.ltb 2048 (String.length url))
    "invalid_argument" "Webhook URL must be https" in
  let! description := if nullish (get s "description") then Ok None
                      else result_map Some (string_of (get s "description") "description") in
  let! _ := reject (match description with Some d => Nat.ltb 80 (String.length d) | None => false end)
    "invalid_argument" "Label is too long" in
  let! _ := reject (negb (is_one_of ["active"] (get s "status")))
    "invalid_argument" "A new endpoint must be active" in
  let! subscription_id := id_value (get s "subscription_id") "subscription_id" in
  let! secrets := validSecrets (get s "secrets") in
  let! created_at := safeNumber (get s "created_at_ms") in
  let! updated_at := safeNumber (get s "updated_at_ms") in
  let row := Subscription.mk subscription_id owner url description active secrets created_at updated_at in
  let! maxActive := safeNumber (get a "max_active") in
  let! maxRows := safeNumber (get a "max_rows") in
  let owned := take (Z.to_nat (maxRows + 1))
    (query (λ x, bool_decide (x.(Subscription.owner_wallet) = owner)) by_created o.(Outbox.subscriptions)).*2 in
  let live := List.filter (λ x, bool_decide (x.(Subscription.status) = active)) owned in
  if (maxRows <=? Z.of_nat (length owned)) || (maxActive <=? Z.of_nat (length live)) then Ok (false, o)
  else
    let! existing := subscriptionById o.(Outbox.subscriptions) subscription_id in
    match existing with
    | Some _ => Ok (false, o)
    | None => Ok (true, with_subscriptions o (insert_doc row o.(Outbox.subscriptions)).2)
    end.

Definition list_webhook_subscriptions (o : Outbox.t) (a : value) : result (list (Subscription.t * value)) :=
  let! owner := wallet (get a "owner") in
  let rows := query (λ x, bool_decide (x.(Subscription.owner_wallet) = owner)) by_created
    o.(Outbox.subscriptions) in
  traverse subscriptionRow (take 100 (reverse rows.*2)).

(** Another owner's id reads exactly like a missing one. *)
Definition owned_subscription (o : Outbox.t) (a : value) : result (option (DocId * Subscription.t)) :=
  let! subscription_id := id_value (get a "subscription_id") "subscription_id" in
  let! found := subscriptionById o.(Outbox.subscriptions) subscription_id in
  match found with
  | None => Ok None
  | Some (i, s) =>
      let! owner := wallet (get a "owner") in
      Ok (if bool_decide (s.(Subscription.owner_wallet) = owner) then Some (i, s) else None)
  end.

Definition get_webhook_subscription (o : Outbox.t) (a : value) : result (option (Subscription.t * value)) :=
  let! found := owned_subscription o a in
  match found with None => Ok None | Some (_, s) => result_map Some (subscriptionRow s) end.

Definition patch_subscription (s : Subscription.t) (status : SubscriptionStatus) (secrets : string) (now : Z)
    : Subscription.t :=
  Subscription.mk s.(Subscription.subscription_id) s.(Subscription.owner_wallet) s.(Subscription.url)
    s.(Subscription.description) status secrets s.(Subscription.created_at_ms) now.

Definition rotate_webhook_secrets (o : Outbox.t) (a : value)
    : result (option (Subscription.t * value) * Outbox.t) :=
  let! found := owned_subscription o a in
  match found with
  | None => Ok (None, o)
  | Some (i, s) =>
      let! now := safeNumber (get a "now") in
      if negb (bool_decide (s.(Subscription.status) = active)) then Ok (None, o)
      else
        let! secrets := validSecrets (get a "secrets") in
        let s' := patch_subscription s active secrets now in
        let! row := subscriptionRow s' in
        Ok (Some row, with_subscriptions o (put_doc i s' o.(Outbox.subscriptions)))
  end.

Definition exhaust (error : string) (now : Z) (d : Delivery.t) : Delivery.t :=
  Delivery.patch d exhausted d.(Delivery.attempts) d.(Delivery.next_attempt_at_ms) None
    d.(Delivery.last_status) (Some error) d.(Delivery.delivered_at_ms) now.

Definition exhaust_all (now : Z) (rows : list (DocId * Delivery.t)) (t : table Delivery.t)
    : table Delivery.t :=
  foldl (λ t x, put_doc x.1 (exhaust DISABLED now x.2) t) t rows.

Definition queued (subscription_id : string) (state : DeliveryState) (t : table Delivery.t)
    : list (DocId * Delivery.t) :=
  take 1000 (query (λ d, bool_decide (d.(Delivery.subscription_id) = subscription_id)
    && bool_decide (d.(Delivery.state) = state)) unordered t).

Definition disable_webhook_subscription (o : Outbox.t) (a : value)
    : result (option (Subscription.t * value) * Outbox.t) :=
  let! found := owned_subscription o a in
  match found with
  | None => Ok (None, o)
  | Some (i, s) =>
      let! now := safeNumber (get a "now") in
      let is_active := bool_decide (s.(Subscription.status) = active) in
      let s' := if is_active then patch_subscription s disabled s.(Subscription.secrets_json) now else s in
      let subscriptions := if is_active then put_doc i s' o.(Outbox.subscriptions) else o.(Outbox.subscriptions) in
      let d1 := exhaust_all now (queued s.(Subscription.subscription_id) pending o.(Outbox.deliveries))
        o.(Outbox.deliveries) in
      let d2 := exhaust_all now (queued s.(Subscription.subscription_id) retry_scheduled d1) d1 in
      let! row := subscriptionRow s' in
      Ok (Some row, Outbox.mk subscriptions o.(Outbox.events) d2)
  end.

Definition by_next (x y : Delivery.t) : bool :=
  x.(Delivery.next_attempt_at_ms) <=? y.(Delivery.next_attempt_at_ms).

Definition due_in (state : DeliveryState) (now : Z) (limit : nat) (t : table Delivery.t)
    : list (DocId * Delivery.t) :=
  take limit (query (λ d, bool_decide (d.(Delivery.state) = state)
    && (d.(Delivery.next_attempt_at_ms) <=? now)) by_next t).

Definition due_first (x y : DocId * Delivery.t) : bool :=
  (x.2.(Delivery.next_attempt_at_ms) <? y.2.(Delivery.next_attempt_at_ms))
  || ((x.2.(Delivery.next_attempt_at_ms) =? y.2.(Delivery.next_attempt_at_ms))
      && str_ltb x.2.(Delivery.delivery_id) y.2.(Delivery.delivery_id)).

Definition lease (now leaseMs : Z) (token : string) (d : Delivery.t) : Delivery.t :=
  Delivery.patch d delivering (d.(Delivery.attempts) + 1) (now + leaseMs) (Some (token, now + leaseMs))
    d.(Delivery.last_status) d.(Delivery.last_error) d.(Delivery.delivered_at_ms) now.

Fixpoint claim_each (now leaseMs maxAttempts : Z) (token : string) (rows : list (DocId * Delivery.t))
    (o : Outbox.t) : result (list Claimed.t * Outbox.t) :=
  match rows with
  | [] => Ok ([], o)
  | (i, d) :: rows =>
      let! subscription := subscriptionById o.(Outbox.subscriptions) d.(Delivery.subscription_id) in
      let! event := eventById o.(Outbox.events) d.(Delivery.event_id) in
      let drop error := with_deliveries o (put_doc i (exhaust error now d) o.(Outbox.deliveries)) in
      match subscription, event with
      | Some (_, s), Some (_, e) =>
          match claimAction d (bool_decide (s.(Subscription.status) = active)) maxAttempts with
          | Some error => claim_each now leaseMs maxAttempts token rows (drop error)
          | None =>
              let d' := lease now leaseMs token d in
              let o := with_deliveries o (put_doc i d' o.(Outbox.deliveries)) in
              let! secrets := parse_json s.(Subscription.secrets_json) in
              let! (claimed, o) := claim_each now leaseMs maxAttempts token rows o in
              Ok (Claimed.mk d' e.(Event.body) s.(Subscription.url) secrets :: claimed, o)
          end
      | _, _ => claim_each now leaseMs maxAttempts token rows (drop "Event or endpoint record missing")
      end
  end.

(** The rows a claim looks at: due in one of three states, soonest first. *)
Definition due (now : Z) (limit : nat) (t : table Delivery.t) : list (DocId * Delivery.t) :=
  take limit (sort_by due_first
    (due_in pending now limit t ++ due_in retry_scheduled now limit t ++ due_in delivering now limit t)).

Definition claim_webhook_deliveries (o : Outbox.t) (a : value) : result (list Claimed.t * Outbox.t) :=
  let! now := safeNumber (get a "now") in
  let! leaseMs := safeNumber (get a "lease_ms") in
  let! maxAttempts := safeNumber (get a "max_attempts") in
  let! limit := page_limit (get a "limit") 10 50 in
  let! token := id_value (get a "lease_token") "lease_token" in
  claim_each now leaseMs maxAttempts token (due now limit o.(Outbox.deliveries)) o.

Definition complete_webhook_delivery (o : Outbox.t) (a : value) : result (bool * Outbox.t) :=
  let! delivery_id := id_value (get a "delivery_id") "delivery_id" in
  let! found := deliveryById o.(Outbox.deliveries) delivery_id in
  match found with
  | None => Ok (false, o)
  | Some (i, d) =>
      if negb (bool_decide (d.(Delivery.state) = delivering)) then Ok (false, o)
      else
        let! token := string_of (get a "lease_token") "lease_token" in
        if negb (bool_decide (d.(Delivery.lease_token) = Some token)) then Ok (false, o)
        else
          let! now := safeNumber (get a "now") in
          let! status := if nullish (get a "status") then Ok None
                         else result_map Some (safeNumber (get a "status")) in
          let! _ := reject (match status with Some z => (z <? 100) || (599 <? z) | None => false end)
            "invalid_argument" "Invalid HTTP status" in
          let done_with d' := Ok (true, with_deliveries o (put_doc i d' o.(Outbox.deliveries))) in
          let base state next error delivered_at :=
            Delivery.patch d state d.(Delivery.attempts) next None status error delivered_at now in
          let next := d.(Delivery.next_attempt_at_ms) in
          let at_ := d.(Delivery.delivered_at_ms) in
          let outcome o := is_one_of [o] (get a "outcome") in
          if outcome "delivered" then done_with (base delivered next None (Some now))
          else if outcome "retry_scheduled" then
            let! error := string_of (get a "error") "error" in
            let! next := safeNumber (get a "next_attempt_at") in
            done_with (base retry_scheduled next (Some (truncate error)) at_)
          else if outcome "exhausted" then
            let! error := string_of (get a "error") "error" in
            done_with (base exhausted next (Some (truncate error)) at_)
          else fail "invalid_argument" "Unknown delivery outcome"
  end.

Definition by_delivery_created (x y : Delivery.t) : bool :=
  x.(Delivery.created_at_ms) <=? y.(Delivery.created_at_ms).

Definition list_webhook_deliveries (o : Outbox.t) (a : value) : result (list Delivery.t) :=
  let! owner := wallet (get a "owner") in
  let! limit := page_limit (get a "limit") 25 100 in
  let! subscription_id := id_value (get a "subscription_id") "subscription_id" in
  let rows := query (λ d, bool_decide (d.(Delivery.subscription_id) = subscription_id)) by_delivery_created
    o.(Outbox.deliveries) in
  Ok (List.filter (λ d, bool_decide (d.(Delivery.owner_wallet) = owner)) (take limit (reverse rows.*2))).

Inductive Redelivery : Type :=
| not_found | in_flight | endpoint_disabled | scheduled (d : Delivery.t).

Definition redeliver_webhook (o : Outbox.t) (a : value) : result (Redelivery * Outbox.t) :=
  let! delivery_id := id_value (get a "delivery_id") "delivery_id" in
  let! found := deliveryById o.(Outbox.deliveries) delivery_id in
  match found with
  | None => Ok (not_found, o)
  | Some (i, d) =>
      let! owner := wallet (get a "owner") in
      if negb (bool_decide (d.(Delivery.owner_wallet) = owner)) then Ok (not_found, o)
      else if bool_decide (d.(Delivery.state) = pending) || bool_decide (d.(Delivery.state) = delivering)
      then Ok (in_flight, o)
      else
        let! subscription := subscriptionById o.(Outbox.subscriptions) d.(Delivery.subscription_id) in
        if negb (match subscription with Some (_, s) => bool_decide (s.(Subscription.status) = active)
                 | None => false end)
        then Ok (endpoint_disabled, o)
        else
          let! now := safeNumber (get a "now") in
          let d' := Delivery.patch d pending 0 now None d.(Delivery.last_status) d.(Delivery.last_error) None now in
          Ok (scheduled d', with_deliveries o (put_doc i d' o.(Outbox.deliveries)))
  end.

(** What an operation answers. *)
Inductive WebhookReply : Type :=
| Count (n : Z)
| Ids (l : list string)
| FoundEvent (e : option Event.t)
| Page (l : list string)
| Flag (b : bool)
| SubscriptionList (l : list (Subscription.t * value))
| FoundSubscription (s : option (Subscription.t * value))
| ClaimedDeliveries (l : list Claimed.t)
| DeliveryList (l : list Delivery.t)
| Redelivered (r : Redelivery).

Definition webhookOperation (records : table Doc.t) (o : Outbox.t) (op : string) (a : value)
    : result (WebhookReply * Outbox.t) :=
  let answer {A} (f : A → WebhookReply) (r : result (A * Outbox.t)) := result_map (λ x, (f x.1, x.2)) r in
  let read {A} (f : A → WebhookReply) (r : result A) := result_map (λ x, (f x, o)) r in
  let is_op name := bool_decide (op = name) in
  if is_op "emit_webhook_events" then answer Count (emit_webhook_events o a)
  else if is_op "missing_webhook_events" then read Ids (missing_webhook_events o a)
  else if is_op "get_webhook_event" then read FoundEvent (get_webhook_event o a)
  else if is_op "list_confirmed_payments" then read Page (confirmedPage records RecordKind.payments a)
  else if is_op "list_confirmed_transactions" then read Page (confirmedPage records RecordKind.transactions a)
  else if is_op "create_webhook_subscription" then answer Flag (create_webhook_subscription o a)
  else if is_op "list_webhook_subscriptions" then read SubscriptionList (list_webhook_subscriptions o a)
  else if is_op "get_webhook_subscription" then read FoundSubscription (get_webhook_subscription o a)
  else if is_op "rotate_webhook_secrets" then answer FoundSubscription (rotate_webhook_secrets o a)
  else if is_op "disable_webhook_subscription" then
    answer FoundSubscription (disable_webhook_subscription o a)
  else if is_op "claim_webhook_deliveries" then answer ClaimedDeliveries (claim_webhook_deliveries o a)
  else if is_op "complete_webhook_delivery" then answer Flag (complete_webhook_delivery o a)
  else if is_op "list_webhook_deliveries" then read DeliveryList (list_webhook_deliveries o a)
  else if is_op "redeliver_webhook" then answer Redelivered (redeliver_webhook o a)
  else fail "invalid_argument" "Unknown webhook operation".
End Webhooks.
