(* ===== verification/WebhookRuns.v ===== *)
(** * The outbox as a state machine

    What the operations of [Webhooks] may do to one delivery, as a step relation;
    that every operation refines it and keeps the tables consistent; and what
    follows for runs of any operations: exclusive leases, bounded claims, events
    that are emitted once. *)
From Stdlib Require Import ZArith Lia Strings.Ascii.
From stdpp Require Import base numbers strings list fin_maps gmap.
From S2P Require Import Prelude Bytes PublicKey Decimal CardConstants Values Store Records CardRecords Webhooks.

(** ** The delivery state machine

    What one operation may do to one delivery; [Webhooks] refines it. *)
Inductive Label : Type :=
| LClaim (now : Z)
| LDisable
| LComplete (token : string)
| LRedeliver
| LOther.

Inductive delivery_step : Label → Delivery.t → Delivery.t → Prop :=
| claim_step now leaseMs token d :
    d.(Delivery.state) = pending ∨ d.(Delivery.state) = retry_scheduled ∨ d.(Delivery.state) = delivering →
    d.(Delivery.next_attempt_at_ms) <= now →
    delivery_step (LClaim now) d (lease now leaseMs token d)
| drop_step now error d :
    d.(Delivery.state) = pending ∨ d.(Delivery.state) = retry_scheduled ∨ d.(Delivery.state) = delivering →
    d.(Delivery.next_attempt_at_ms) <= now →
    delivery_step (LClaim now) d (exhaust error now d)
| disable_step now d :
    d.(Delivery.state) = pending ∨ d.(Delivery.state) = retry_scheduled →
    delivery_step LDisable d (exhaust DISABLED now d)
| complete_step token d state next status error delivered_at now :
    d.(Delivery.state) = delivering → d.(Delivery.lease_token) = Some token →
    state = delivered ∨ state = retry_scheduled ∨ state = exhausted →
    delivery_step (LComplete token) d
      (Delivery.patch d state d.(Delivery.attempts) next None status error delivered_at now)
| redeliver_step d now :
    d.(Delivery.state) ≠ pending → d.(Delivery.state) ≠ delivering →
    delivery_step LRedeliver d
      (Delivery.patch d pending 0 now None d.(Delivery.last_status) d.(Delivery.last_error) None now).

(** The operations as steps of the store. *)
Inductive webhook_step `{C : Codec, B : Db} : Label → Outbox.t → Outbox.t → Prop :=
| step_emit o a n o' : emit_webhook_events o a = Ok (n, o') → webhook_step LOther o o'
| step_emit_after records o kind key events n o' :
    emitAfterWrite records o kind key events = Ok (n, o') → webhook_step LOther o o'
| step_create o a b o' : create_webhook_subscription o a = Ok (b, o') → webhook_step LOther o o'
| step_rotate o a r o' : rotate_webhook_secrets o a = Ok (r, o') → webhook_step LOther o o'
| step_disable o a r o' : disable_webhook_subscription o a = Ok (r, o') → webhook_step LDisable o o'
| step_claim o a now r o' :
    safeNumber (get a "now") = Ok now → claim_webhook_deliveries o a = Ok (r, o') →
    webhook_step (LClaim now) o o'
| step_complete o a token b o' :
    get a "lease_token" = VString token → complete_webhook_delivery o a = Ok (b, o') →
    webhook_step (LComplete token) o o'
| step_redeliver o a r o' : redeliver_webhook o a = Ok (r, o') → webhook_step LRedeliver o o'.

(** A lease is held exactly while a delivery is being made, until its next
    attempt is due. *)
Definition lease_wf (d : Delivery.t) : Prop :=
  if bool_decide (d.(Delivery.state) = delivering)
  then is_Some d.(Delivery.lease_token) ∧ d.(Delivery.lease_expires_at_ms) = Some d.(Delivery.next_attempt_at_ms)
  else d.(Delivery.lease_token) = None ∧ d.(Delivery.lease_expires_at_ms) = None.

Definition event_key (e : Event.t) : option (string * string * Z) :=
  Some (e.(Event.receipt_address), e.(Event.event_type), e.(Event.version)).

Record outbox_wf `{B : Db} (o : Outbox.t) : Prop := {
  wf_subscription_id : unique_on (λ s, Some s.(Subscription.subscription_id)) (docs o.(Outbox.subscriptions));
  wf_event_id : unique_on (λ e, Some e.(Event.event_id)) (docs o.(Outbox.events));
  wf_event_key : unique_on event_key (docs o.(Outbox.events));
  wf_delivery_id : unique_on (λ d, Some d.(Delivery.delivery_id)) (docs o.(Outbox.deliveries));
  wf_delivery i d : docs o.(Outbox.deliveries) !! i = Some d →
    d.(Delivery.delivery_id) = deliveryId d.(Delivery.event_id) d.(Delivery.subscription_id) ∧
    0 <= d.(Delivery.attempts) ∧ lease_wf d ∧
    (∃ j e, docs o.(Outbox.events) !! j = Some e ∧ e.(Event.event_id) = d.(Delivery.event_id) ∧
      e.(Event.owner_wallet) = d.(Delivery.owner_wallet)) ∧
    (∃ j s, docs o.(Outbox.subscriptions) !! j = Some s ∧
      s.(Subscription.subscription_id) = d.(Delivery.subscription_id) ∧
      s.(Subscription.owner_wallet) = d.(Delivery.owner_wallet));
}.

Section WebhookLemmas.
Context `{C : Codec, B : Db, BS : !DbSpec B}.

Lemma lease_step_wf l d d' : delivery_step l d d' → lease_wf d → lease_wf d'.
Proof. destruct 1; intros _; unfold lease_wf; simpl; try done. by destruct H1 as [->|[->| ->]]. Qed.

Lemma step_static l d d' :
  delivery_step l d d' →
  d'.(Delivery.delivery_id) = d.(Delivery.delivery_id) ∧ d'.(Delivery.event_id) = d.(Delivery.event_id) ∧
  d'.(Delivery.subscription_id) = d.(Delivery.subscription_id) ∧
  d'.(Delivery.owner_wallet) = d.(Delivery.owner_wallet) ∧
  (0 <= d.(Delivery.attempts) → 0 <= d'.(Delivery.attempts)).
Proof. destruct 1; simpl; repeat split; lia. Qed.

(** What every operation keeps of the three tables. *)
Record evolves (l : Label) (o o' : Outbox.t) : Prop := {
  ev_events i e : docs o.(Outbox.events) !! i = Some e → docs o'.(Outbox.events) !! i = Some e;
  ev_subscriptions i s : docs o.(Outbox.subscriptions) !! i = Some s → ∃ s',
    docs o'.(Outbox.subscriptions) !! i = Some s' ∧
    s'.(Subscription.subscription_id) = s.(Subscription.subscription_id) ∧
    s'.(Subscription.owner_wallet) = s.(Subscription.owner_wallet);
  ev_deliveries i d : docs o.(Outbox.deliveries) !! i = Some d → ∃ d',
    docs o'.(Outbox.deliveries) !! i = Some d' ∧ (d' = d ∨ delivery_step l d d');
}.

Lemma evolves_refl l o : evolves l o o.
Proof. split; eauto. Qed.

(** One document of a table changed in place. *)
Lemma unique_on_move {D K} (f : D → option K) (m : gmap DocId D) i d d' :
  unique_on f m → m !! i = Some d → f d' = f d → unique_on f (<[i := d']> m).
Proof.
  intros Hu Hi Hf. apply unique_on_put; [done|]. intros j e x Hj He Hx Hd. apply Hj. rewrite Hf in Hd.
  by eapply Hu.
Qed.

Lemma put_delivery l o i d d' :
  outbox_wf o → docs o.(Outbox.deliveries) !! i = Some d → delivery_step l d d' →
  let o' := with_deliveries o (put_doc i d' o.(Outbox.deliveries)) in
  outbox_wf o' ∧ evolves l o o' ∧ docs o'.(Outbox.deliveries) = <[i := d']> (docs o.(Outbox.deliveries)).
Proof.
  intros [Hs He Hk Hd Hw] Hi Hstep o'.
  assert (docs (put_doc i d' (Outbox.deliveries o)) = <[i := d']> (docs (Outbox.deliveries o))) as Hput
    by (apply put_docs; eauto).
  destruct (step_static _ _ _ Hstep) as (E1 & E2 & E3 & E4 & E5).
  split; [|split; [|done]].
  - split; simpl; try done.
    + rewrite Hput. apply (unique_on_move _ _ _ d); [done|done|by rewrite E1].
    + intros j e. rewrite Hput, lookup_insert_Some. intros [[<- <-]|[_ Hj]]; [|by apply (Hw j)].
      destruct (Hw i d Hi) as (H1 & H2 & H3 & H4 & H5).
      rewrite E1, E2, E3, E4. repeat split; eauto. by eapply lease_step_wf.
  - split; simpl; eauto. intros j e Hj. rewrite Hput. destruct (decide (j = i)) as [->|Hne].
    + rewrite lookup_insert_eq. exists d'. split; [done|]. right. by replace e with d by congruence.
    + rewrite lookup_insert_ne by done. eauto.
Qed.

(** Two operations on different deliveries, one after the other. *)
Lemma evolves_trans_at l o o1 o2 :
  evolves l o o1 → evolves l o1 o2 →
  (∀ i d, docs o.(Outbox.deliveries) !! i = Some d →
    docs o1.(Outbox.deliveries) !! i = Some d ∨ docs o2.(Outbox.deliveries) !! i = docs o1.(Outbox.deliveries) !! i) →
  evolves l o o2.
Proof.
  intros [E1 S1 D1] [E2 S2 D2] Hsplit. split.
  - eauto.
  - intros i s Hs. destruct (S1 i s Hs) as (s1 & H1 & Ha & Hb).
    destruct (S2 i s1 H1) as (s2 & H2 & Hc & Hd). exists s2. split; [done|]. split; congruence.
  - intros i d Hd. destruct (Hsplit i d Hd) as [H1|H2].
    + destruct (D2 i d H1) as (d2 & H2 & Hs). eauto.
    + destruct (D1 i d Hd) as (d1 & H1 & Hs). exists d1. split; [congruence | done].
Qed.

(** Several deliveries moved, each once. *)
Definition Moves : Type := list (DocId * (Delivery.t * Delivery.t)).

Definition put_all (moves : Moves) (t : table Delivery.t) : table Delivery.t :=
  foldl (λ t m, put_doc m.1 m.2.2 t) t moves.

Definition valid_moves (l : Label) (moves : Moves) (t : table Delivery.t) : Prop :=
  NoDup moves.*1 ∧ ∀ i d d', (i, (d, d')) ∈ moves → docs t !! i = Some d ∧ delivery_step l d d'.

Lemma put_all_spec l moves o :
  outbox_wf o → valid_moves l moves o.(Outbox.deliveries) →
  let o' := with_deliveries o (put_all moves o.(Outbox.deliveries)) in
  outbox_wf o' ∧ evolves l o o' ∧
  (∀ i, i ∉ moves.*1 → docs o'.(Outbox.deliveries) !! i = docs o.(Outbox.deliveries) !! i) ∧
  (∀ i d d', (i, (d, d')) ∈ moves → docs o'.(Outbox.deliveries) !! i = Some d').
Proof.
  revert o. induction moves as [|[i [d d']] moves IH]; intros o Hw [Hn Hv] o'.
  { assert (o' = o) as -> by (by destruct o). split; [done|]. split; [apply evolves_refl|].
    split; [done|]. intros i d d' H. by apply elem_of_nil in H. }
  simpl in Hn. apply NoDup_cons in Hn as [Hni Hn].
  destruct (Hv i d d' ltac:(by left)) as [Hi Hs].
  destruct (put_delivery l o i d d' Hw Hi Hs) as (Hw1 & He1 & Hd1).
  set (o1 := with_deliveries o (put_doc i d' (Outbox.deliveries o))) in *.
  destruct (IH o1 Hw1) as (Hw2 & He2 & Hout & Hin).
  { split; [done|]. intros j e e' Hj. destruct (Hv j e e' ltac:(by right)) as [Hje Hse]. split; [|done].
    rewrite Hd1, lookup_insert_ne; [done|]. intros ->. apply Hni, list_elem_of_fmap. by exists (j, (e, e')). }
  change (with_deliveries o1 (put_all moves (Outbox.deliveries o1))) with o' in *.
  split; [done|]. split; [|split].
  - apply (evolves_trans_at l o o1 o'); [done..|]. intros j e Hj.
    destruct (decide (j = i)) as [->|Hne]; [right; by apply Hout|]. left. rewrite Hd1. by rewrite lookup_insert_ne.
  - intros j Hj. simpl in Hj. apply not_elem_of_cons in Hj as [Hji Hj]. rewrite (Hout j Hj), Hd1.
    by rewrite lookup_insert_ne.
  - intros j e e' Hj. apply elem_of_cons in Hj as [[= -> -> ->]|Hj]; [|by eapply Hin].
    rewrite (Hout i Hni), Hd1. by rewrite lookup_insert_eq.
Qed.

Definition claimable (now : Z) (d : Delivery.t) : Prop :=
  (d.(Delivery.state) = pending ∨ d.(Delivery.state) = retry_scheduled ∨ d.(Delivery.state) = delivering) ∧
  d.(Delivery.next_attempt_at_ms) <= now.

(** A claimed delivery: leased from a due row of a live endpoint with attempts left. *)
Definition claimed_from (o : Outbox.t) (now leaseMs maxAttempts : Z) (token : string)
    (moves : Moves) (c : Claimed.t) : Prop :=
  ∃ i d, (i, (d, c.(Claimed.delivery))) ∈ moves ∧ c.(Claimed.delivery) = lease now leaseMs token d ∧
    d.(Delivery.attempts) < maxAttempts ∧
    (∃ j s, docs o.(Outbox.subscriptions) !! j = Some s ∧ s.(Subscription.status) = active ∧
      s.(Subscription.subscription_id) = d.(Delivery.subscription_id) ∧ c.(Claimed.url) = s.(Subscription.url)) ∧
    (∃ k e, docs o.(Outbox.events) !! k = Some e ∧ e.(Event.event_id) = d.(Delivery.event_id) ∧
      c.(Claimed.event_body) = e.(Event.body)).

Lemma claimed_from_cons o t now leaseMs maxAttempts token moves c m :
  claimed_from (with_deliveries o t) now leaseMs maxAttempts token moves c →
  claimed_from o now leaseMs maxAttempts token (m :: moves) c.
Proof. intros (i & d & Hin & H). exists i, d. split; [by right | done]. Qed.

Lemma claim_each_moves now leaseMs maxAttempts token rows : ∀ o claimed o',
  (∀ i d, (i, d) ∈ rows → claimable now d) →
  claim_each now leaseMs maxAttempts token rows o = Ok (claimed, o') →
  ∃ moves, map (λ m : DocId * (Delivery.t * Delivery.t), (m.1, m.2.1)) moves = rows ∧
    o' = with_deliveries o (put_all moves o.(Outbox.deliveries)) ∧
    Forall (λ m : DocId * (Delivery.t * Delivery.t), delivery_step (LClaim now) m.2.1 m.2.2) moves ∧
    Forall (claimed_from o now leaseMs maxAttempts token moves) claimed ∧
    (length claimed <= length rows)%nat.
Proof.
  induction rows as [|[i d] rows IH]; intros o claimed o' Hrows H; cbn [claim_each] in H.
  { injection H as <- <-. exists []. split; [done|]. split; [by destruct o|]. split; [constructor|]. split; [constructor|done]. }
  apply bind_ok in H as (sub & Hsub & H). apply bind_ok in H as (ev & Hev & H). cbv zeta in H.
  destruct (Hrows i d ltac:(by left)) as [Hst Hdue].
  assert (∀ j e, (j, e) ∈ rows → claimable now e) as Hrest by (intros j e Hj; apply (Hrows j); by right).
  assert (∀ error claimed' o'', claim_each now leaseMs maxAttempts token rows
      (with_deliveries o (put_doc i (exhaust error now d) (Outbox.deliveries o))) = Ok (claimed', o'') →
    claimed = claimed' → o' = o'' → ∃ moves,
      map (λ m : DocId * (Delivery.t * Delivery.t), (m.1, m.2.1)) moves = (i, d) :: rows ∧
      o' = with_deliveries o (put_all moves (Outbox.deliveries o)) ∧
      Forall (λ m : DocId * (Delivery.t * Delivery.t), delivery_step (LClaim now) m.2.1 m.2.2) moves ∧
      Forall (claimed_from o now leaseMs maxAttempts token moves) claimed ∧
      (length claimed <= length ((i, d) :: rows))%nat) as Hdrop.
  { intros error claimed' o'' Hc -> ->. apply IH in Hc as (moves & Hm & -> & Hs & Hcl & Hlen); [|done].
    exists ((i, (d, exhaust error now d)) :: moves). simpl. rewrite Hm. repeat split; try done.
    - constructor; [|done]. by apply drop_step.
    - eapply Forall_impl; [exact Hcl|]. intros c. apply claimed_from_cons.
    - lia. }
  destruct sub as [[j s]|]; [|by eapply Hdrop]. destruct ev as [[k e]|]; [|by eapply Hdrop].
  apply unique_some in Hsub as [Hj Hsid], Hev as [Hk Heid]. bool_reflect.
  destruct (claimAction d _ maxAttempts) as [error|] eqn:Ea; [by eapply Hdrop|].
  apply bind_ok in H as (secrets & _ & H). apply bind_ok in H as ([rest o2] & H & Hout). injection Hout as <- <-.
  apply IH in H as (moves & Hm & -> & Hs & Hcl & Hlen); [|done].
  exists ((i, (d, lease now leaseMs token d)) :: moves). simpl. rewrite Hm. repeat split; try done.
  - constructor; [|done]. by apply claim_step.
  - unfold claimAction in Ea. destruct (bool_decide (Subscription.status s = active)) eqn:Eact; [|done].
    simpl in Ea. destruct (maxAttempts <=? Delivery.attempts d) eqn:Emax; [done|]. bool_reflect.
    constructor.
    + exists i, d. simpl. split; [by left|]. split; [done|]. split; [done|]. split.
      * by exists j, s.
      * by exists k, e.
    + eapply Forall_impl; [exact Hcl|]. intros c. apply claimed_from_cons.
  - lia.
Qed.

(** The due rows are current, each once. *)
Lemma due_in_spec state now limit t i d :
  (i, d) ∈ due_in state now limit t →
  docs t !! i = Some d ∧ d.(Delivery.state) = state ∧ d.(Delivery.next_attempt_at_ms) <= now.
Proof.
  unfold due_in. intros H. apply elem_of_take in H as (n & H & _). apply list_elem_of_lookup_2 in H.
  apply query_elem in H as [H1 H2]. bool_reflect. done.
Qed.

Lemma due_in_nodup state now limit t : NoDup (due_in state now limit t).*1.
Proof.
  unfold due_in. rewrite <- firstn_map. eapply sublist_NoDup; [|apply sublist_take]. apply query_nodup.
Qed.

Lemma due_spec now limit t i d :
  (i, d) ∈ due now limit t → docs t !! i = Some d ∧ claimable now d.
Proof.
  unfold due. intros H. apply elem_of_take in H as (n & H & _). apply list_elem_of_lookup_2 in H.
  rewrite sort_by_elem, !elem_of_app in H. unfold claimable.
  destruct H as [H|[H|H]]; apply due_in_spec in H as (? & ? & ?); auto.
Qed.

Lemma nodup_app_fst (a b : list (DocId * Delivery.t)) (t : table Delivery.t) :
  NoDup a.*1 → NoDup b.*1 →
  (∀ i d, (i, d) ∈ a → docs t !! i = Some d) → (∀ i d, (i, d) ∈ b → docs t !! i = Some d) →
  (∀ i d e, (i, d) ∈ a → (i, e) ∈ b → d ≠ e) → NoDup (a ++ b).*1.
Proof.
  intros Ha Hb Hat Hbt Hne. rewrite fmap_app. apply NoDup_app. split; [done|]. split; [|done].
  intros i Hia Hib. apply list_elem_of_fmap in Hia as ([j d] & -> & Hia), Hib as ([j' e] & Hj & Hib).
  simpl in Hj. subst j'. apply (Hne _ _ _ Hia Hib). apply Hat in Hia. apply Hbt in Hib. congruence.
Qed.

Lemma due_nodup now limit t : NoDup (due now limit t).*1.
Proof.
  unfold due. rewrite <- firstn_map. eapply sublist_NoDup; [|apply sublist_take].
  rewrite (sort_by_perm due_first).
  assert (∀ s i d, (i, d) ∈ due_in s now limit t → docs t !! i = Some d) as Hcur
    by (intros s i d H; by apply due_in_spec in H as [? _]).
  assert (∀ s s' i d e, s ≠ s' → (i, d) ∈ due_in s now limit t → (i, e) ∈ due_in s' now limit t → d ≠ e) as Hne.
  { intros s s' i d e Hs Hd He <-. apply due_in_spec in Hd as (_ & Hd & _), He as (_ & He & _). congruence. }
  apply (nodup_app_fst _ _ t); [apply due_in_nodup| | | |].
  - apply (nodup_app_fst _ _ t); [apply due_in_nodup..| | |]; [apply Hcur..|]. intros i d e. exact (Hne retry_scheduled delivering i d e ltac:(done)).
  - apply Hcur.
  - intros i d H. apply elem_of_app in H as [H|H]; by eapply Hcur.
  - intros i d e Hd He. apply elem_of_app in He as [He|He].
    + exact (Hne pending retry_scheduled i d e ltac:(done) Hd He).
    + exact (Hne pending delivering i d e ltac:(done) Hd He).
Qed.

Lemma claim_spec o a now r o' :
  outbox_wf o → safeNumber (get a "now") = Ok now → claim_webhook_deliveries o a = Ok (r, o') →
  ∃ leaseMs maxAttempts limit token moves,
    safeNumber (get a "lease_ms") = Ok leaseMs ∧ safeNumber (get a "max_attempts") = Ok maxAttempts ∧
    page_limit (get a "limit") 10 50 = Ok limit ∧ id_value (get a "lease_token") "lease_token" = Ok token ∧
    valid_moves (LClaim now) moves o.(Outbox.deliveries) ∧
    o' = with_deliveries o (put_all moves o.(Outbox.deliveries)) ∧
    Forall (claimed_from o now leaseMs maxAttempts token moves) r ∧ (length r <= limit)%nat ∧
    (∀ i d d', (i, (d, d')) ∈ moves → claimable now d).
Proof.
  intros Hw Hnow H. unfold claim_webhook_deliveries in H. rewrite Hnow in H. cbn [bind] in H.
  apply bind_ok in H as (leaseMs & Hl & H). apply bind_ok in H as (maxAttempts & Hm & H).
  apply bind_ok in H as (limit & Hlim & H). apply bind_ok in H as (token & Ht & H).
  apply claim_each_moves in H as (moves & Hrows & -> & Hs & Hc & Hlen);
    [|intros i d Hin; by apply due_spec in Hin as [_ ?]].
  exists leaseMs, maxAttempts, limit, token, moves. do 4 (split; [done|]).
  assert (∀ i d d', (i, (d, d')) ∈ moves → (i, d) ∈ due now limit o.(Outbox.deliveries)) as Hdue.
  { intros i d d' Hin. rewrite <- Hrows. apply list_elem_of_In, in_map_iff. exists (i, (d, d')).
    split; [done|]. by apply list_elem_of_In. }
  split; [|split; [done|split; [done|split]]].
  - split.
    + pose proof (due_nodup now limit o.(Outbox.deliveries)) as Hn. rewrite <- Hrows in Hn.
      by rewrite map_map in Hn.
    + intros i d d' Hin. split; [apply Hdue in Hin; by apply due_spec in Hin as [? _]|].
      rewrite Forall_forall in Hs. exact (Hs _ Hin).
  - unfold due in Hlen. rewrite length_take in Hlen. lia.
  - intros i d d' Hin. apply Hdue in Hin. by apply due_spec in Hin as [_ ?].
Qed.

Lemma exhaust_all_moves now rows t :
  exhaust_all now rows t = put_all (map (λ x, (x.1, (x.2, exhaust DISABLED now x.2))) rows) t.
Proof. revert t. induction rows as [|x rows IH]; intros t; simpl; [done|]. apply IH. Qed.

Lemma queued_spec id state t i d :
  (i, d) ∈ queued id state t → docs t !! i = Some d ∧ d.(Delivery.state) = state.
Proof.
  unfold queued. intros H. apply elem_of_take in H as (n & H & _). apply list_elem_of_lookup_2 in H.
  apply query_elem in H as [H1 H2]. bool_reflect. done.
Qed.

Lemma queued_moves id state now t :
  state = pending ∨ state = retry_scheduled →
  valid_moves LDisable (map (λ x, (x.1, (x.2, exhaust DISABLED now x.2))) (queued id state t)) t.
Proof.
  intros Hs. split.
  - rewrite <- list_fmap_compose. change (NoDup (queued id state t).*1). unfold queued.
    rewrite <- firstn_map. eapply sublist_NoDup; [|apply sublist_take]. apply query_nodup.
  - intros i d d' Hin. apply list_elem_of_In, in_map_iff in Hin as ([j e] & [= <- <- <-] & Hin).
    apply list_elem_of_In, queued_spec in Hin as [Hj He]. split; [done|]. apply disable_step.
    by rewrite He.
Qed.

Lemma owned_some o a i s :
  owned_subscription o a = Ok (Some (i, s)) → docs o.(Outbox.subscriptions) !! i = Some s.
Proof.
  unfold owned_subscription. intros H. apply bind_ok in H as (id & _ & H). apply bind_ok in H as (f & Hf & H).
  destruct f as [[j e]|]; [|done]. apply bind_ok in H as (owner & _ & H). case_bool_decide; [|done].
  injection H as -> ->. by apply unique_some in Hf as [? _].
Qed.

(** A subscription changed in place, keeping its id and its owner. *)
Lemma put_subscription l o i s s' :
  outbox_wf o → docs o.(Outbox.subscriptions) !! i = Some s →
  s'.(Subscription.subscription_id) = s.(Subscription.subscription_id) →
  s'.(Subscription.owner_wallet) = s.(Subscription.owner_wallet) →
  let o' := with_subscriptions o (put_doc i s' o.(Outbox.subscriptions)) in
  outbox_wf o' ∧ evolves l o o'.
Proof.
  intros [Hs He Hk Hd Hw] Hi Hid Hown o'.
  assert (docs (put_doc i s' (Outbox.subscriptions o)) = <[i := s']> (docs (Outbox.subscriptions o))) as Hput
    by (apply put_docs; eauto).
  assert (∀ j x, docs (Outbox.subscriptions o) !! j = Some x → ∃ y,
    docs (Outbox.subscriptions o') !! j = Some y ∧
    y.(Subscription.subscription_id) = x.(Subscription.subscription_id) ∧
    y.(Subscription.owner_wallet) = x.(Subscription.owner_wallet)) as Hsub.
  { intros j x Hj. simpl. rewrite Hput. destruct (decide (j = i)) as [->|Hne].
    - rewrite lookup_insert_eq. exists s'. split; [done|]. replace x with s by congruence. done.
    - rewrite lookup_insert_ne by done. by exists x. }
  split.
  - split; try done.
    + simpl. rewrite Hput. apply (unique_on_move _ _ _ s); [done|done|by rewrite Hid].
    + intros j d Hj. destruct (Hw j d Hj) as (H1 & H2 & H3 & H4 & k & x & Hx & Hxi & Hxo).
      repeat split; try done. destruct (Hsub k x Hx) as (y & Hy & Hyi & Hyo). exists k, y.
      split; [done|]. split; congruence.
  - split; [done|exact Hsub|]. intros j d Hj. exists d. by split; [|left].
Qed.

(** ** Emission *)

Lemma fan_out_spec e subs : ∀ t t',
  unique_on (λ d, Some d.(Delivery.delivery_id)) (docs t) → fan_out e subs t = Ok t' →
  unique_on (λ d, Some d.(Delivery.delivery_id)) (docs t') ∧
  (∀ i d, docs t !! i = Some d → docs t' !! i = Some d) ∧
  (∀ i d, docs t' !! i = Some d → docs t !! i = Some d ∨ docs t !! i = None ∧
    ∃ s, s ∈ subs ∧ s.(Subscription.status) = active ∧ d = new_delivery e s) ∧
  (∀ s, s ∈ subs → s.(Subscription.status) = active → ∃ i d, docs t' !! i = Some d ∧
    d.(Delivery.delivery_id) = deliveryId e.(Event.event_id) s.(Subscription.subscription_id)).
Proof.
  induction subs as [|s subs IH]; intros t t' Hu H; cbn [fan_out] in H.
  { injection H as <-. split; [done|]. split; [done|]. split; [auto|]. intros s Hs. by apply elem_of_nil in Hs. }
  destruct (bool_decide (Subscription.status s = active)) eqn:Ea; bool_reflect; simpl in H.
  2:{ destruct (IH t t' Hu H) as (H1 & H2 & H3 & H4). split; [done|]. split; [done|]. split.
      - intros i d Hi. destruct (H3 i d Hi) as [?|(Hn & x & Hx & ?)]; [auto|]. right. split; [done|].
        exists x. split; [by right | done].
      - intros x Hx Hact. apply elem_of_cons in Hx as [->|Hx]; [done|auto]. }
  apply bind_ok in H as (existing & Hex & H). destruct existing as [[k old]|].
  - apply unique_some in Hex as [Hk Hid]. bool_reflect.
    destruct (IH t t' Hu H) as (H1 & H2 & H3 & H4). split; [done|]. split; [done|]. split.
    + intros i d Hi. destruct (H3 i d Hi) as [?|(Hn & x & Hx & ?)]; [auto|]. right. split; [done|].
      exists x. split; [by right | done].
    + intros x Hx Hact. apply elem_of_cons in Hx as [->|Hx]; [|auto]. exists k, old. split; [auto|done].
  - pose proof (λ i d, unique_none _ _ _ i d Hex) as Hnone.
    set (n := new_delivery e s) in *. pose proof (insert_docs _ n t) as Hins. pose proof (insert_fresh _ n t) as Hfr.
    assert (unique_on (λ d, Some d.(Delivery.delivery_id)) (docs (insert_doc n t).2)) as Hu'.
    { rewrite Hins. apply unique_on_put; [done|]. intros j d x Hj Hd [= <-] [= Heq].
      specialize (Hnone j d Hd). cbv beta in Hnone. apply bool_decide_eq_false in Hnone. congruence. }
    destruct (IH _ t' Hu' H) as (H1 & H2 & H3 & H4). rewrite Hins in H2, H3. split; [done|]. split; [|split].
    + intros i d Hi. apply H2. rewrite lookup_insert_ne; [done|]. intros <-. congruence.
    + intros i d Hi. destruct (H3 i d Hi) as [Hl|(Hn & x & Hx & ?)].
      * apply lookup_insert_Some in Hl as [[<- <-]|[_ Hl]]; [|auto]. right. split; [done|].
        exists s. split; [by left | done].
      * right. apply lookup_insert_None in Hn as [Hn _]. split; [done|]. exists x. split; [by right|done].
    + intros x Hx Hact. apply elem_of_cons in Hx as [->|Hx]; [|auto].
      exists (insert_doc n t).1, n. split; [|done]. apply H2. by rewrite lookup_insert_eq.
Qed.

Lemma subscribers_spec t e s :
  s ∈ subscribers t e → (∃ i, docs t !! i = Some s) ∧ s.(Subscription.owner_wallet) = e.(Event.owner_wallet) ∧
    s.(Subscription.created_at_ms) <= e.(Event.occurred_at_ms).
Proof.
  unfold subscribers. intros H. apply elem_of_take in H as (n & H & _). apply list_elem_of_lookup_2 in H.
  apply list_elem_of_fmap in H as ([i x] & -> & H). apply query_elem in H as [H1 H2]. bool_reflect.
  split; [by exists i | done].
Qed.

Lemma other_keeps o o' i d :
  evolves LOther o o' → docs o.(Outbox.deliveries) !! i = Some d → docs o'.(Outbox.deliveries) !! i = Some d.
Proof. intros [_ _ He] Hi. destruct (He i d Hi) as (d' & Hd & [->|Hs]); [done|inversion Hs]. Qed.

(** An event already there, by its id or by what it is about. *)
Definition known_event (o : Outbox.t) (e : Event.t) : Prop :=
  ∃ i x, docs o.(Outbox.events) !! i = Some x ∧
    (x.(Event.event_id) = e.(Event.event_id) ∨ event_key x = event_key e).

Lemma same_receipt_spec e x : same_receipt e x = true ↔ event_key x = event_key e.
Proof.
  unfold same_receipt, event_key. rewrite !andb_true_iff, !bool_decide_eq_true, Z.eqb_eq.
  split; [by intros [[-> ->] ->] | by intros [= -> -> ->]].
Qed.

Lemma emitEvent_known o e b o' :
  outbox_wf o → known_event o e → emitEvent o e = Ok (b, o') → b = false ∧ o' = o.
Proof.
  intros Hw (i & x & Hi & Hx) H. apply bind_ok in H as (known & Hk & H).
  destruct known as [p|]; [by injection H as <- <-|].
  destruct (query (same_receipt e) unordered (Outbox.events o)) as [|row rows] eqn:Eq; [|by injection H as <- <-].
  exfalso. destruct Hx as [Hid|Hkey].
  - pose proof (unique_none _ _ _ i x Hk Hi) as Hf. cbv beta in Hf. apply bool_decide_eq_false in Hf. done.
  - assert ((i, x) ∈ query (same_receipt e) unordered (Outbox.events o)) as Hin
      by (apply query_elem; split; [done|by apply same_receipt_spec]).
    rewrite Eq in Hin. by apply elem_of_nil in Hin.
Qed.

Lemma emitEvent_new o e o' :
  outbox_wf o → emitEvent o e = Ok (true, o') →
  outbox_wf o' ∧ evolves LOther o o' ∧ ¬ known_event o e ∧
  (∃ i, docs o.(Outbox.events) !! i = None ∧ docs o'.(Outbox.events) = <[i := e]> (docs o.(Outbox.events))) ∧
  (∀ i d, docs o'.(Outbox.deliveries) !! i = Some d → docs o.(Outbox.deliveries) !! i = Some d ∨
    docs o.(Outbox.deliveries) !! i = None ∧
    ∃ s, s ∈ subscribers o.(Outbox.subscriptions) e ∧ s.(Subscription.status) = active ∧ d = new_delivery e s) ∧
  (∀ s, s ∈ subscribers o.(Outbox.subscriptions) e → s.(Subscription.status) = active →
    ∃ i d, docs o'.(Outbox.deliveries) !! i = Some d ∧
      d.(Delivery.delivery_id) = deliveryId e.(Event.event_id) s.(Subscription.subscription_id)).
Proof.
  intros [Hs He Hkey Hd Hw] H. apply bind_ok in H as (known & Hk & H).
  destruct known as [p|]; [by injection H|].
  destruct (query (same_receipt e) unordered (Outbox.events o)) as [|row rows] eqn:Eq; [|by injection H].
  apply bind_ok in H as (deliveries & Hfan & H). injection H as <-.
  pose proof (insert_docs _ e (Outbox.events o)) as Hins. pose proof (insert_fresh _ e (Outbox.events o)) as Hfr.
  assert (∀ i x, docs (Outbox.events o) !! i = Some x →
    x.(Event.event_id) ≠ e.(Event.event_id) ∧ event_key x ≠ event_key e) as Hnew.
  { intros i x Hi. split.
    - pose proof (unique_none _ _ _ i x Hk Hi) as Hf. cbv beta in Hf. by apply bool_decide_eq_false in Hf.
    - intros Hx. assert ((i, x) ∈ query (same_receipt e) unordered (Outbox.events o)) as Hin
        by (apply query_elem; split; [done|by apply same_receipt_spec]).
      rewrite Eq in Hin. by apply elem_of_nil in Hin. }
  assert (∀ i x, docs (Outbox.events o) !! i = Some x →
    docs (insert_doc e (Outbox.events o)).2 !! i = Some x) as Hkeep.
  { intros i x Hi. rewrite Hins, lookup_insert_ne; [done|]. intros <-. congruence. }
  destruct (fan_out_spec _ _ _ _ Hd Hfan) as (F1 & F2 & F3 & F4).
  split; [|split; [|split; [|split; [|by split]]]].
  - split; simpl; try done.
    + rewrite Hins. apply unique_on_put; [done|]. intros j x y _ Hj [= <-] [= E]. destruct (Hnew j x Hj). congruence.
    + rewrite Hins. apply unique_on_put; [done|]. intros j x y _ Hj Hy E. destruct (Hnew j x Hj). congruence.
    + intros i d Hi. destruct (F3 i d Hi) as [Ho|(_ & s & Hsub & _ & ->)].
      * destruct (Hw i d Ho) as (H1 & H2 & H3 & (k & x & Hx & H4) & H5). repeat split; try done.
        exists k, x. split; [by apply Hkeep | done].
      * apply subscribers_spec in Hsub as ((k & Hk') & Hown & _). simpl. repeat split; try done.
        -- exists (insert_doc e (Outbox.events o)).1, e. rewrite Hins, lookup_insert_eq. done.
        -- exists k, s. done.
  - split; simpl; eauto.
  - intros (i & x & Hi & Hx). destruct (Hnew i x Hi). tauto.
  - exists (insert_doc e (Outbox.events o)).1. split; [apply insert_fresh | apply insert_docs].
Qed.

Lemma emitEvent_step o e b o' :
  outbox_wf o → emitEvent o e = Ok (b, o') → outbox_wf o' ∧ evolves LOther o o'.
Proof.
  intros Hw H. destruct b.
  - destruct (emitEvent_new o e o' Hw H) as (? & ? & _). done.
  - assert (o' = o) as ->; [|split; [done|apply evolves_refl]].
    apply bind_ok in H as (known & Hk & H). destruct known as [p|]; [by injection H as <-|].
    destruct (query _ _ _); [|by injection H as <-]. by apply bind_ok in H as (? & _ & [=]).
Qed.

Lemma emit_all_step events : ∀ o n o',
  outbox_wf o → emit_all o events = Ok (n, o') → outbox_wf o' ∧ evolves LOther o o'.
Proof.
  induction events as [|e events IH]; intros o n o' Hw H; cbn [emit_all] in H.
  { injection H as <- <-. split; [done|apply evolves_refl]. }
  apply bind_ok in H as ([made o1] & He & H). apply bind_ok in H as ([k o2] & Ha & H). injection H as _ <-.
  destruct (emitEvent_step _ _ _ _ Hw He) as [Hw1 Hv1]. destruct (IH _ _ _ Hw1 Ha) as [Hw2 Hv2].
  split; [done|]. apply (evolves_trans_at _ _ o1); [done..|]. intros i d Hi. left. by eapply other_keeps.
Qed.

Lemma create_step o a b o' :
  outbox_wf o → create_webhook_subscription o a = Ok (b, o') → outbox_wf o' ∧ evolves LOther o o'.
Proof.
  intros Hw H. assert (outbox_wf o ∧ evolves LOther o o) as Hsame by (split; [done|apply evolves_refl]).
  unfold create_webhook_subscription in H. cbv zeta in H.
  do 12 (apply bind_ok in H as (? & _ & H)).
  match type of H with (if ?c then _ else _) = _ => destruct c end; [by injection H as _ <-|].
  apply bind_ok in H as (existing & Hex & H). destruct existing as [p|]; [by injection H as _ <-|].
  injection H as _ <-. match goal with |- context [insert_doc ?n _] => set (s := n) in * end.
  pose proof (insert_docs _ s (Outbox.subscriptions o)) as Hins.
  pose proof (insert_fresh _ s (Outbox.subscriptions o)) as Hfr.
  destruct Hw as [Hs He Hkey Hd Hw].
  assert (∀ i x, docs (Outbox.subscriptions o) !! i = Some x →
    docs (insert_doc s (Outbox.subscriptions o)).2 !! i = Some x) as Hkeep.
  { intros i y Hi. rewrite Hins, lookup_insert_ne; [done|]. intros <-. congruence. }
  split.
  - split; simpl; try done.
    + rewrite Hins. apply unique_on_put; [done|]. intros j y z _ Hj [= <-] [= E].
      pose proof (unique_none _ _ _ j y Hex Hj) as Hf. cbv beta in Hf. apply bool_decide_eq_false in Hf.
      by apply Hf.
    + intros i d Hi. destruct (Hw i d Hi) as (H1 & H2 & H3 & H4 & k & y & Hy & H5).
      repeat split; try done. exists k, y. split; [by apply Hkeep | done].
  - split; simpl; [done| |eauto]. intros i y Hi. exists y. by split; [apply Hkeep|].
Qed.

Lemma rotate_step o a r o' :
  outbox_wf o → rotate_webhook_secrets o a = Ok (r, o') → outbox_wf o' ∧ evolves LOther o o'.
Proof.
  intros Hw H. apply bind_ok in H as (found & Hf & H).
  destruct found as [[i s]|]; [|injection H as _ <-; split; [done|apply evolves_refl]].
  apply bind_ok in H as (now & _ & H). case_bool_decide; simpl in H;
    [|injection H as _ <-; split; [done|apply evolves_refl]].
  apply bind_ok in H as (secrets & _ & H). cbv zeta in H. apply bind_ok in H as (row & _ & H).
  injection H as _ <-. apply owned_some in Hf. by apply (put_subscription _ _ _ s).
Qed.

Lemma disable_step_ok o a r o' :
  outbox_wf o → disable_webhook_subscription o a = Ok (r, o') → outbox_wf o' ∧ evolves LDisable o o'.
Proof.
  intros Hw H. apply bind_ok in H as (found & Hf & H).
  destruct found as [[i s]|]; [|injection H as _ <-; split; [done|apply evolves_refl]].
  apply bind_ok in H as (now & _ & H). cbv zeta in H. apply bind_ok in H as (row & _ & H).
  injection H as _ <-. apply owned_some in Hf.
  set (c := bool_decide (Subscription.status s = active)).
  set (subs := if c then _ else _).
  assert (outbox_wf (with_subscriptions o subs) ∧ evolves LDisable o (with_subscriptions o subs)) as [Hw1 Hv1].
  { subst subs. destruct c; [by apply (put_subscription _ _ _ s)|].
    assert (with_subscriptions o (Outbox.subscriptions o) = o) as -> by (by destruct o).
    split; [done|apply evolves_refl]. }
  set (id := Subscription.subscription_id s). set (t := Outbox.deliveries o).
  set (o1 := with_subscriptions o subs) in *.
  pose proof (queued_moves id pending now t (or_introl eq_refl)) as Hm1.
  destruct (put_all_spec LDisable _ o1 Hw1 Hm1) as (Hw2 & Hv2 & Hout1 & Hin1).
  rewrite <- exhaust_all_moves in Hw2, Hv2, Hout1, Hin1.
  set (t1 := exhaust_all now (queued id pending t) t) in *.
  set (o2 := with_deliveries o1 t1) in *.
  pose proof (queued_moves id retry_scheduled now t1 (or_intror eq_refl)) as Hm2.
  destruct (put_all_spec LDisable _ o2 Hw2 Hm2) as (Hw3 & Hv3 & Hout2 & Hin2).
  rewrite <- exhaust_all_moves in Hw3, Hv3, Hout2, Hin2.
  split; [exact Hw3|].
  change (Outbox.mk subs (Outbox.events o) (exhaust_all now (queued id retry_scheduled t1) t1)) with
    (with_deliveries o2 (exhaust_all now (queued id retry_scheduled t1) t1)).
  apply (evolves_trans_at _ _ o1); [done| |intros j d Hj; left; exact Hj].
  apply (evolves_trans_at _ _ o2); [done..|]. intros j d Hj.
  destruct (decide (j ∈ (queued id pending t).*1)) as [Hin|Hnin].
  - right. apply Hout2. rewrite <- list_fmap_compose. change (j ∉ (queued id retry_scheduled t1).*1).
    intros Hin'. apply list_elem_of_fmap in Hin as ([k e] & -> & Hin), Hin' as ([k' e'] & Hk & Hin').
    simpl in Hk. subst k'. apply queued_spec in Hin' as [He' Hst].
    assert (docs (Outbox.deliveries o2) !! k = Some (exhaust DISABLED now e)) as He.
    { apply (Hin1 k e). apply list_elem_of_In, in_map_iff. exists (k, e). split; [done|].
      by apply list_elem_of_In. }
    simpl in He. assert (e' = exhaust DISABLED now e) as -> by congruence. done.
  - left. rewrite Hout1; [exact Hj|]. rewrite <- list_fmap_compose. exact Hnin.
Qed.

Lemma complete_step_ok o a token b o' :
  outbox_wf o → get a "lease_token" = VString token → complete_webhook_delivery o a = Ok (b, o') →
  outbox_wf o' ∧ evolves (LComplete token) o o'.
Proof.
  intros Hw Htok H. assert (outbox_wf o ∧ evolves (LComplete token) o o) as Hsame by (split; [done|apply evolves_refl]).
  apply bind_ok in H as (id & _ & H). apply bind_ok in H as (found & Hf & H).
  destruct found as [[i d]|]; [|by injection H as _ <-].
  apply unique_some in Hf as [Hi _].
  destruct (bool_decide (Delivery.state d = delivering)) eqn:Es; simpl in H; [|by injection H as _ <-].
  apply bind_ok in H as (token' & Ht & H). apply string_of_ok in Ht as [Ht _].
  destruct (bool_decide (Delivery.lease_token d = Some token')) eqn:El; simpl in H; [|by injection H as _ <-].
  bool_reflect. assert (token' = token) as -> by congruence.
  apply bind_ok in H as (now & _ & H). apply bind_ok in H as (status & _ & H).
  apply bind_ok in H as ([] & _ & H). cbv zeta in H.
  assert (∀ state next error at_,
    state = delivered ∨ state = retry_scheduled ∨ state = exhausted →
    o' = with_deliveries o (put_doc i (Delivery.patch d state (Delivery.attempts d) next None status error at_ now)
      (Outbox.deliveries o)) → outbox_wf o' ∧ evolves (LComplete token) o o') as Hdone.
  { intros state next error at_ Hst ->.
    destruct (put_delivery (LComplete token) o i d _ Hw Hi (complete_step token d state next status error at_ now Es El Hst))
      as (? & ? & _). done. }
  repeat match type of H with (if ?b then _ else _) = _ => destruct b end; [| | |done].
  all: repeat (apply bind_ok in H as (? & _ & H)); injection H as _ <-; (eapply Hdone; [|reflexivity]; auto).
Qed.

Lemma redeliver_step_ok o a r o' :
  outbox_wf o → redeliver_webhook o a = Ok (r, o') → outbox_wf o' ∧ evolves LRedeliver o o'.
Proof.
  intros Hw H. assert (outbox_wf o ∧ evolves LRedeliver o o) as Hsame by (split; [done|apply evolves_refl]).
  apply bind_ok in H as (id & _ & H). apply bind_ok in H as (found & Hf & H).
  destruct found as [[i d]|]; [|by injection H as _ <-]. apply unique_some in Hf as [Hi _].
  apply bind_ok in H as (owner & _ & H). destruct (negb _); [by injection H as _ <-|].
  destruct (bool_decide (Delivery.state d = pending) || bool_decide (Delivery.state d = delivering)) eqn:E;
    [by injection H as _ <-|]. bool_reflect.
  apply bind_ok in H as (sub & _ & H). destruct (negb _); [by injection H as _ <-|].
  apply bind_ok in H as (now & _ & H). cbv zeta in H. injection H as _ <-.
  destruct (put_delivery LRedeliver o i d _ Hw Hi (redeliver_step d now ltac:(done) ltac:(done))) as (? & ? & _).
  done.
Qed.

(** Every operation keeps the store well formed, and moves each delivery by at
    most one step of the state machine. *)
Lemma webhook_step_ok l o o' : outbox_wf o → webhook_step l o o' → outbox_wf o' ∧ evolves l o o'.
Proof.
  intros Hw Hstep.
  destruct Hstep as [o a n o' H|records o kind key ev n o' H|o a b o' H|o a r o' H|o a r o' H
    |o a now r o' Hnow H|o a token b o' Htok H|o a r o' H].
  - apply bind_ok in H as (events & _ & H). by eapply emit_all_step.
  - apply bind_ok in H as (events & _ & H). apply bind_ok in H as (stored & _ & H).
    destruct stored as [[i d]|]; [|injection H as _ <-; split; [done|apply evolves_refl]].
    apply bind_ok in H as (record & _ & H).
    destruct (negb _); [injection H as _ <-; split; [done|apply evolves_refl]|]. by eapply emit_all_step.
  - by apply (create_step o a b o').
  - by apply (rotate_step o a r o').
  - by apply (disable_step_ok o a r o').
  - destruct (claim_spec _ _ _ _ _ Hw Hnow H) as (? & ? & ? & ? & moves & _ & _ & _ & _ & Hv & -> & _).
    by destruct (put_all_spec _ _ _ Hw Hv) as (? & ? & _).
  - by apply (complete_step_ok o a token b o').
  - by apply (redeliver_step_ok o a r o').
Qed.
End WebhookLemmas.

(** A sequence of operations. *)
Inductive run `{C : Codec, B : Db} : list Label → Outbox.t → Outbox.t → Prop :=
| run_nil o : run [] o o
| run_cons l ls o o1 o2 : webhook_step l o o1 → run ls o1 o2 → run (l :: ls) o o2.

(** Tables with nothing in them. *)
Definition empty_outbox `{B : Db} (o : Outbox.t) : Prop :=
  docs o.(Outbox.subscriptions) = ∅ ∧ docs o.(Outbox.events) = ∅ ∧ docs o.(Outbox.deliveries) = ∅.

(** What leaves the lease of [token] until [until] alone: claims before it runs
    out, other workers' results, and everything that is neither. *)
Definition respects (token : string) (until : Z) (l : Label) : Prop :=
  match l with
  | LClaim now => now < until
  | LComplete other => other ≠ token
  | LDisable | LRedeliver | LOther => True
  end.

(** ** Properties *)

Section WebhookProperties.
Context `{C : Codec, B : Db, BS : !DbSpec B}.

Lemma empty_wf o : empty_outbox o → outbox_wf o.
Proof.
  intros (Hs & He & Hd). split; rewrite ?Hs, ?He, ?Hd; try apply unique_on_empty.
  intros i d H. by rewrite lookup_empty in H.
Qed.

Lemma run_wf ls o o' : outbox_wf o → run ls o o' → outbox_wf o'.
Proof. intros Hw H. induction H as [|l ls o o1 o2 Hs _ IH]; [done|]. apply IH. by eapply webhook_step_ok. Qed.

Lemma run_events ls o o' i e :
  outbox_wf o → run ls o o' → docs o.(Outbox.events) !! i = Some e → docs o'.(Outbox.events) !! i = Some e.
Proof.
  intros Hw H. revert i e. induction H as [|l ls o o1 o2 Hs _ IH]; intros i e Hi; [done|].
  destruct (webhook_step_ok _ _ _ Hw Hs) as [Hw1 [He _ _]]. apply IH; [done|]. by apply He.
Qed.

(** C31: The outbox stays consistent.  Whatever operations run, in whatever
    order, from empty tables: ids are unique, there is one event per (receipt,
    type, version) and one delivery per event and subscription; every delivery
    belongs to a stored event and a stored subscription of the same owner; and a
    delivery has a lease exactly while it is being delivered, until its next
    attempt is due. *)
Theorem outbox_invariant (ls : list Label) (o o' : Outbox.t) :
  empty_outbox o → run ls o o' →
  outbox_wf o' ∧
  ∀ i j d e, docs o'.(Outbox.deliveries) !! i = Some d → docs o'.(Outbox.deliveries) !! j = Some e →
    d.(Delivery.event_id) = e.(Delivery.event_id) →
    d.(Delivery.subscription_id) = e.(Delivery.subscription_id) → i = j.
Proof using BS.
  intros Ho Hr. pose proof (run_wf _ _ _ (empty_wf _ Ho) Hr) as Hw. split; [done|].
  intros i j d e Hi Hj He Hs. destruct Hw as [_ _ _ Hu Hwd].
  destruct (Hwd i d Hi) as [Hd _], (Hwd j e Hj) as [He' _].
  apply (Hu i j d e d.(Delivery.delivery_id)); try done. rewrite He', <- He, <- Hs. congruence.
Qed.

(** C30: A lease is exclusive.  While one worker holds the lease of a delivery,
    nothing else changes that delivery: not another worker's claim before the
    lease runs out, not a result reported with another token, not a redelivery,
    a disabled endpoint or any other operation, in any number and order; and the
    holder's own report is then accepted. *)
Theorem lease_exclusive (ls : list Label) (o o' : Outbox.t) (i : DocId) (d : Delivery.t)
    (token : string) (until : Z) (a : value) (b : bool) (o2 : Outbox.t) :
  outbox_wf o → run ls o o' → docs o.(Outbox.deliveries) !! i = Some d →
  d.(Delivery.state) = delivering → d.(Delivery.lease_token) = Some token →
  d.(Delivery.lease_expires_at_ms) = Some until → Forall (respects token until) ls →
  docs o'.(Outbox.deliveries) !! i = Some d ∧
  (get a "delivery_id" = VString d.(Delivery.delivery_id) → get a "lease_token" = VString token →
    complete_webhook_delivery o' a = Ok (b, o2) → b = true).
Proof using BS.
  intros Hw Hr Hi Hst Htok Huntil Hls.
  assert (outbox_wf o' ∧ docs o'.(Outbox.deliveries) !! i = Some d) as [Hw' Hi'].
  { induction Hr as [|l ls o o1 o3 Hs _ IH]; [done|]. apply Forall_cons in Hls as [Hl Hls].
    destruct (webhook_step_ok _ _ _ Hw Hs) as [Hw1 [_ _ Hd]].
    destruct (Hd i d Hi) as (d' & Hd' & Hmove). apply IH; [done| |done]. rewrite Hd'. f_equal.
    destruct Hmove as [?|Hstep]; [done|]. exfalso.
    destruct (wf_delivery _ Hw i d Hi) as (_ & _ & Hlw & _). unfold lease_wf in Hlw.
    rewrite bool_decide_eq_true_2 in Hlw by done. destruct Hlw as [_ Hexp].
    assert (until = Delivery.next_attempt_at_ms d) as -> by congruence.
    inversion Hstep; subst; simpl in Hl; try lia; try congruence. intuition congruence. }
  split; [done|]. intros Hid Hat H. unfold complete_webhook_delivery in H.
  apply bind_ok in H as (id & Hidv & H). apply bind_ok in H as (found & Hf & H).
  assert (id = Delivery.delivery_id d) as ->.
  { unfold id_value in Hidv. rewrite Hid in Hidv. apply bind_ok in Hidv as (s & Hs & Hidv).
    apply string_of_ok in Hs as [[= <-] _]. destruct (ID _); [by injection Hidv | done]. }
  assert (found = Some (i, d)) as ->
    by (eapply unique_found; [exact Hf|exact Hi'|by apply bool_decide_eq_true_2]).
  rewrite Hst, Hat, Htok in H. simpl negb in H. cbv iota in H.
  apply bind_ok in H as (token' & Ht & H). apply string_of_ok in Ht as [[= <-] _].
  rewrite bool_decide_eq_true_2 in H by done. simpl negb in H. cbv iota in H.
  apply bind_ok in H as (now & _ & H). apply bind_ok in H as (status & _ & H).
  apply bind_ok in H as ([] & _ & H). cbv zeta in H.
  repeat match type of H with (if ?x then _ else _) = _ => destruct x end; [| | |done].
  all: repeat (apply bind_ok in H as (? & _ & H)); by injection H as <- _.
Qed.

(** What a worker is handed.  A claim gives out at most the asked number of
    deliveries; each was due (pending, to be retried, or with a lease that has
    run out), belongs to an active endpoint and a stored event, has had fewer
    than the allowed attempts, and is stored as leased to this token until now
    plus the lease time; rows it does not look at stay as they were. *)
Theorem claim_gives_due_deliveries (o o' : Outbox.t) (a : value) (claimed : list Claimed.t)
    (now leaseMs maxAttempts : Z) (limit : nat) (token : string) :
  outbox_wf o → safeNumber (get a "now") = Ok now → safeNumber (get a "lease_ms") = Ok leaseMs →
  safeNumber (get a "max_attempts") = Ok maxAttempts → page_limit (get a "limit") 10 50 = Ok limit →
  get a "lease_token" = VString token → claim_webhook_deliveries o a = Ok (claimed, o') →
  (length claimed <= limit)%nat ∧
  (∀ c, c ∈ claimed → ∃ i d j s k e,
    docs o.(Outbox.deliveries) !! i = Some d ∧ claimable now d ∧
    docs o'.(Outbox.deliveries) !! i = Some c.(Claimed.delivery) ∧
    c.(Claimed.delivery).(Delivery.lease_token) = Some token ∧
    c.(Claimed.delivery).(Delivery.lease_expires_at_ms) = Some (now + leaseMs) ∧
    c.(Claimed.delivery).(Delivery.attempts) = d.(Delivery.attempts) + 1 ∧
    c.(Claimed.delivery).(Delivery.attempts) <= maxAttempts ∧
    docs o.(Outbox.subscriptions) !! j = Some s ∧ s.(Subscription.status) = active ∧
    s.(Subscription.subscription_id) = d.(Delivery.subscription_id) ∧ c.(Claimed.url) = s.(Subscription.url) ∧
    docs o.(Outbox.events) !! k = Some e ∧ e.(Event.event_id) = d.(Delivery.event_id) ∧
    c.(Claimed.event_body) = e.(Event.body)) ∧
  (∀ i d, docs o.(Outbox.deliveries) !! i = Some d → ¬ claimable now d →
    docs o'.(Outbox.deliveries) !! i = Some d).
Proof using BS.
  intros Hw Hnow Hlease Hmax Hlim Htok H.
  destruct (claim_spec _ _ _ _ _ Hw Hnow H) as (leaseMs' & max' & limit' & token' & moves & Hl & Hm & Hlm & Ht & Hv & -> & Hc & Hlen & Hcl).
  replace leaseMs' with leaseMs in * by congruence. replace max' with maxAttempts in * by congruence.
  replace limit' with limit in * by congruence.
  assert (token' = token) as ->.
  { unfold id_value in Ht. rewrite Htok in Ht. apply bind_ok in Ht as (s & Hs & Ht).
    apply string_of_ok in Hs as [[= <-] _]. destruct (ID _); [by injection Ht | done]. }
  destruct (put_all_spec _ _ _ Hw Hv) as (_ & _ & Hout & Hin).
  split; [done|]. split.
  - intros c Hcin. rewrite Forall_forall in Hc.
    destruct (Hc c Hcin) as (i & d & Hmv & Hld & Hatt & (j & s & Hs1 & Hs2 & Hs3 & Hs4) & k & e & He1 & He2 & He3).
    destruct Hv as [_ Hcur]. destruct (Hcur _ _ _ Hmv) as [Hi _].
    exists i, d, j, s, k, e. split; [done|]. split; [by eapply Hcl|]. split; [by eapply Hin|].
    rewrite Hld. simpl. repeat split; try done. lia.
  - intros i d Hi Hno. rewrite Hout; [done|]. intros Hmem.
    apply list_elem_of_fmap in Hmem as ([i' [e e']] & -> & Hmem).
    destruct Hv as [_ Hcur]. destruct (Hcur _ _ _ Hmem) as [Hi' _]. simpl in Hi.
    assert (e = d) as -> by congruence. apply Hno. by eapply Hcl.
Qed.

(** An event is delivered once.  The first emission stores the event and
    gives every active subscription of the owner that existed when the payment
    confirmed (up to the first hundred) one pending delivery, and makes no other;
    after it, whatever operations have run, an event with the same id, or the
    same receipt, type and version, changes nothing. *)
Theorem emit_exactly_once (ls : list Label) (o o1 o2 o3 : Outbox.t) (e e' : Event.t) (b : bool) :
  outbox_wf o → emitEvent o e = Ok (true, o1) → run ls o1 o2 →
  e'.(Event.event_id) = e.(Event.event_id) ∨ event_key e' = event_key e →
  emitEvent o2 e' = Ok (b, o3) →
  (∀ s, s ∈ subscribers o.(Outbox.subscriptions) e → s.(Subscription.status) = active →
    ∃ i d, docs o1.(Outbox.deliveries) !! i = Some d ∧
      d.(Delivery.delivery_id) = deliveryId e.(Event.event_id) s.(Subscription.subscription_id)) ∧
  (∀ i d, docs o1.(Outbox.deliveries) !! i = Some d →
    docs o.(Outbox.deliveries) !! i = Some d ∨
    ∃ s, s ∈ subscribers o.(Outbox.subscriptions) e ∧ s.(Subscription.status) = active ∧ d = new_delivery e s) ∧
  b = false ∧ o3 = o2.
Proof using BS.
  intros Hw H1 Hr Hsame H2.
  destruct (emitEvent_new _ _ _ Hw H1) as (Hw1 & _ & _ & (i & _ & Hev) & Hnew & Hall).
  split; [done|]. split; [intros j d Hj; destruct (Hnew j d Hj) as [?|[_ ?]]; auto|].
  apply (emitEvent_known o2 e'); [by eapply run_wf| |done].
  exists i, e. split; [|destruct Hsame; [left|right]; congruence].
  eapply run_events; [exact Hw1|exact Hr|]. rewrite Hev. by rewrite lookup_insert_eq.
Qed.
End WebhookProperties.

(** ** Delivery ids *)

(** Ids whose tails hold an underscore can share a delivery id, and then the
    second fan-out writes no delivery. *)
Lemma deliveryId_collides :
  ID "evt_1_2" = true ∧ ID "whk_3" = true ∧ ID "evt_1" = true ∧ ID "whk_2_3" = true ∧
  deliveryId "evt_1_2" "whk_3" = deliveryId "evt_1" "whk_2_3".
Proof. vm_compute. repeat split. Qed.

(** ** Examples *)

Import Model ModelCodec.

Definition sample_envelope : value :=
  VObject [("v", VNumber (JInt 1)); ("alg", VString "A256GCM"); ("kid", VString "k1");
    ("iv", VString "AAAAAAAAAAAAAAAA"); ("ct", VString "c2VjcmV0LWNpcGhlcnRleHQtYnl0ZXM=")].

Definition sample_create : value :=
  VObject [("subscription", VObject [("owner_wallet", VString "owner"); ("url", VString "https://r.example/hook");
      ("description", VNull); ("status", VString "active"); ("subscription_id", VString "whk_a");
      ("secrets", VArray [VObject [("envelope", sample_envelope); ("created_at_ms", VNumber (JInt 0));
        ("expires_at_ms", VNull)]]);
      ("created_at_ms", VNumber (JInt 100)); ("updated_at_ms", VNumber (JInt 100))]);
    ("max_active", VString "5"); ("max_rows", VString "25")].

Definition sample_event : Event.t :=
  Event.mk "evt_r" "owner" "payment.receipt_ready" 1 "r" "id=evt_r" 200 200.

Definition sample_claim (now : Z) (token : string) : value :=
  VObject [("now", VNumber (JInt now)); ("limit", VString "50"); ("lease_ms", VString "1000");
    ("lease_token", VString token); ("max_attempts", VString "8")].

Definition sample_complete : value :=
  VObject [("delivery_id", VString "dlv_r_a"); ("lease_token", VString "t1"); ("now", VNumber (JInt 450));
    ("status", VNumber (JInt 200)); ("outcome", VString "delivered")].

Definition outbox_0 : Outbox.t := Outbox.mk (B := db) ∅ ∅ ∅.
Definition after {A} (r : result (A * Outbox.t)) : Outbox.t := match r with Ok (_, o) => o | Throw _ => outbox_0 end.
Definition outbox_1 : Outbox.t := after (create_webhook_subscription outbox_0 sample_create).
Definition outbox_2 : Outbox.t := after (emitEvent outbox_1 sample_event).
Definition outbox_3 : Outbox.t := after (claim_webhook_deliveries outbox_2 (sample_claim 300 "t1")).
Definition outbox_4 : Outbox.t := after (claim_webhook_deliveries outbox_3 (sample_claim 400 "t2")).
Definition outbox_5 : Outbox.t := after (complete_webhook_delivery outbox_4 sample_complete).
Definition sample_claimed : list Claimed.t :=
  match claim_webhook_deliveries outbox_2 (sample_claim 300 "t1") with Ok (l, _) => l | Throw _ => [] end.
Definition sample_leased : option Delivery.t := outbox_3.(Outbox.deliveries) !! 1%positive.

Lemma sample_outbox_runs :
  create_webhook_subscription outbox_0 sample_create = Ok (true, outbox_1) ∧
  emitEvent outbox_1 sample_event = Ok (true, outbox_2) ∧
  claim_webhook_deliveries outbox_2 (sample_claim 300 "t1") = Ok (sample_claimed, outbox_3) ∧
  claim_webhook_deliveries outbox_3 (sample_claim 400 "t2") = Ok ([], outbox_4) ∧
  emitEvent outbox_4 sample_event = Ok (false, outbox_4) ∧
  complete_webhook_delivery outbox_4 sample_complete = Ok (true, outbox_5).
Proof. vm_compute. repeat split. Qed.

Lemma sample_lease :
  length sample_claimed = 1%nat ∧
  match sample_leased with
  | Some d => d.(Delivery.state) = delivering ∧ d.(Delivery.lease_token) = Some "t1" ∧
      d.(Delivery.lease_expires_at_ms) = Some 1300 ∧ d.(Delivery.delivery_id) = "dlv_r_a"
  | None => False
  end.
Proof. vm_compute. repeat split. Qed.

Lemma sample_respects : Forall (respects "t1" 1300) [LClaim 400].
Proof. repeat constructor. Qed.

Lemma empty_outbox_0 : empty_outbox outbox_0.
Proof. done. Qed.

Lemma outbox_wfs : outbox_wf outbox_1 ∧ outbox_wf outbox_2 ∧ outbox_wf outbox_3.
Proof.
  destruct sample_outbox_runs as (H1 & H2 & H3 & _).
  pose proof (create_step _ _ _ _ (empty_wf _ empty_outbox_0) H1) as [Hw1 _].
  pose proof (emitEvent_step _ _ _ _ Hw1 H2) as [Hw2 _].
  split; [done|]. split; [done|].
  by destruct (webhook_step_ok _ _ _ Hw2 (step_claim outbox_2 (sample_claim 300 "t1") 300 _ _ eq_refl H3)) as [Hw3 _].
Qed.

Lemma outbox_invariant_witness : outbox_wf outbox_1.
Proof.
  destruct sample_outbox_runs as (H1 & _).
  exact (proj1 (@outbox_invariant codec db db_spec [LOther] outbox_0 outbox_1 empty_outbox_0
    (run_cons LOther [] outbox_0 outbox_1 outbox_1 (step_create _ _ _ _ H1) (run_nil outbox_1)))).
Defined.

Lemma lease_exclusive_witness : ∃ d, outbox_4.(Outbox.deliveries) !! 1%positive = Some d.
Proof.
  destruct sample_outbox_runs as (_ & _ & _ & H4 & _ & H5). destruct sample_lease as [_ Hl].
  destruct sample_leased as [d|] eqn:Ed; [|destruct Hl]. destruct Hl as (Hs & Ht & Hu & Hid).
  exists d.
  exact (proj1 (@lease_exclusive codec db db_spec [LClaim 400] outbox_3 outbox_4 1%positive d "t1" 1300
    sample_complete true outbox_5 (proj2 (proj2 outbox_wfs))
    (run_cons (LClaim 400) [] outbox_3 outbox_4 outbox_4 (step_claim outbox_3 (sample_claim 400 "t2") 400 _ _ eq_refl H4) (run_nil outbox_4))
    Ed Hs Ht Hu sample_respects)).
Defined.

Lemma claim_gives_due_deliveries_witness : (length sample_claimed <= 50)%nat.
Proof.
  destruct sample_outbox_runs as (_ & _ & H3 & _).
  exact (proj1 (@claim_gives_due_deliveries codec db db_spec outbox_2 outbox_3 (sample_claim 300 "t1")
    sample_claimed 300 1000 8 50 "t1" (proj1 (proj2 outbox_wfs)) eq_refl eq_refl eq_refl eq_refl eq_refl H3)).
Defined.

Lemma emit_exactly_once_witness : false = false ∧ outbox_4 = outbox_4.
Proof.
  destruct sample_outbox_runs as (_ & H2 & H3 & H4 & H5 & _).
  exact (proj2 (proj2 (@emit_exactly_once codec db db_spec [LClaim 300; LClaim 400] outbox_1 outbox_2 outbox_4
    outbox_4 sample_event sample_event false (proj1 outbox_wfs) H2
    (run_cons (LClaim 300) [LClaim 400] outbox_2 outbox_3 outbox_4 (step_claim outbox_2 (sample_claim 300 "t1") 300 _ _ eq_refl H3)
      (run_cons (LClaim 400) [] outbox_3 outbox_4 outbox_4 (step_claim outbox_3 (sample_claim 400 "t2") 400 _ _ eq_refl H4) (run_nil outbox_4)))
    (or_introl eq_refl) H5))).
Defined.
