(* ===== verification/Storage.v ===== *)
(** * The storage dispatcher (convex/storage.ts)

    [execute] is the only mutation the gateway can call.  Each call is one
    transaction over all tables; the Rust backend and the MCP server each have
    their own set of operations.  Card records, webhooks and [writeRecord] are
    the components it calls. *)
From Stdlib Require Import ZArith Lia Strings.Ascii.
From stdpp Require Import base numbers strings list fin_maps gmap.
From S2P Require Import Prelude Bytes PublicKey Decimal CardConstants Values Store Records CardRecords Webhooks.

(** ** Tables (convex/schema.ts) *)

(** [operation_claims] *)
Module OperationClaim.
Record t : Type := mk {
  key : string; owner : string; intent_json : string; initial_json : string;
  source_json : option string;
}.
End OperationClaim.

(** [owner_auth] *)
Module OwnerAuth.
Record t : Type := mk { key : string; value_json : string; expires : string; source_json : option string }.
End OwnerAuth.

(** An entry of [toolsCalled] *)
Module ToolUse.
Record t : Type := mk { name : string; count : number; lastCalledAt : string }.
End ToolUse.

(** [agent_connections] *)
Module Connection.
Record t : Type := mk {
  id : string; tokenHash : string; wallet : string; agentName : string; scope : string;
  connectedAt : string; lastSeenAt : option string; totalCalls : number;
  toolsCalled : list ToolUse.t; revokedAt : option string; source_json : option string;
}.
End Connection.

(** What [publicConnection] leaves of a connection *)
Module PublicConnection.
Record t : Type := mk {
  id : string; wallet : string; agentName : string; scope : string; connectedAt : string;
  lastSeenAt : option string; totalCalls : number; toolsCalled : list ToolUse.t;
}.
End PublicConnection.

Inductive InboxRole : Type := user | assistant | tool.

(** [inbox_messages] *)
Module InboxMessage.
Record t : Type := mk {
  id : string; wallet : string; role : InboxRole; content_json : string; createdAt : string;
  source_json : option string;
}.
End InboxMessage.

(** What [publicInbox] leaves of a message *)
Module PublicInbox.
Record t : Type := mk {
  id : string; wallet : string; role : InboxRole; content_json : string; createdAt : string;
}.
End PublicInbox.

(** [rate_limits] *)
Module RateLimit.
Record t : Type := mk { key : string; count : Z; expires : Z }.
End RateLimit.

(** [payment_flows] *)
Module Flow.
Record t : Type := mk { flowId : string; wallet : string; record_json : string; expires : Z }.
End Flow.

(** Every table [execute] works on.  The pet world's own tables are [pet]. *)
Module Storage.
Record t `{B : Db} {Pet : Type} : Type := mk {
  records : table Doc.t;
  outbox : Outbox.t;
  operation_claims : table OperationClaim.t;
  owner_auth : table OwnerAuth.t;
  agent_connections : table Connection.t;
  inbox_messages : table InboxMessage.t;
  rate_limits : table RateLimit.t;
  payment_flows : table Flow.t;
  pet : Pet;
}.
Arguments t {B} Pet.
Arguments mk {B Pet}.
End Storage.

Definition publicConnection (r : Connection.t) : PublicConnection.t :=
  PublicConnection.mk r.(Connection.id) r.(Connection.wallet) r.(Connection.agentName)
    r.(Connection.scope) r.(Connection.connectedAt) r.(Connection.lastSeenAt)
    r.(Connection.totalCalls) r.(Connection.toolsCalled).

Definition publicInbox (r : InboxMessage.t) : PublicInbox.t :=
  PublicInbox.mk r.(InboxMessage.id) r.(InboxMessage.wallet) r.(InboxMessage.role)
    r.(InboxMessage.content_json) r.(InboxMessage.createdAt).

(** ** Operations by name *)

Definition cardOperations : list string :=
  ["put_card_record"; "get_card_record"; "find_card_record_by_idempotency";
   "list_card_records_for_owner"; "scan_card_records"].
Definition cardReadOperations : list string :=
  ["get_card_record"; "find_card_record_by_idempotency"; "list_card_records_for_owner";
   "scan_card_records"].
Definition webhookOperations : list string :=
  ["emit_webhook_events"; "missing_webhook_events"; "get_webhook_event"; "list_confirmed_payments";
   "list_confirmed_transactions"; "create_webhook_subscription"; "list_webhook_subscriptions";
   "get_webhook_subscription"; "disable_webhook_subscription"; "rotate_webhook_secrets";
   "claim_webhook_deliveries"; "complete_webhook_delivery"; "list_webhook_deliveries";
   "redeliver_webhook"].
Definition webhookReadOperations : list string :=
  ["missing_webhook_events"; "get_webhook_event"; "list_confirmed_payments";
   "list_confirmed_transactions"; "list_webhook_subscriptions"; "get_webhook_subscription";
   "list_webhook_deliveries"].

Definition backendOperations : list string :=
  ["pet.state"; "pet.visitors"; "pet.act"; "pet.memories"; "find_other_connector_job_for_owner";
   "put_crossmint_proof"; "put_mandate_request"; "get_mandate_request"; "put_receipt_request";
   "find_receipt_request"; "put_observed_policy"; "find_observed_policy"; "ping"; "claim_operation";
   "operation_record"; "operation_owner"; "auth_rate"; "put_auth"; "get_auth"; "auth_connection";
   "get_payment"; "find_payment_by_idempotency"; "find_payment_by_receipt"; "put_payment";
   "get_transaction"; "find_transaction_by_idempotency"; "put_transaction"; "list_x402_for_owner";
   "find_x402_by_idempotency"; "put_x402"; "put_managed_signer_challenge";
   "get_managed_signer_challenge"; "consume_managed_signer_challenge"; "put_managed_signer";
   "find_managed_signer_by_public_key"; "find_managed_signer_by_mandate"; "put_delivery_attestation";
   "find_delivery_attestation"] ++ cardOperations ++ webhookOperations.
Definition mcpOperations : list string :=
  ["ping"; "mcp.register"; "mcp.identify"; "mcp.observe"; "mcp.list"; "mcp.revoke";
   "mcp.appendInboxMessage"; "mcp.listInbox"; "mcp.rateLimit"; "mcp.putFlow"; "mcp.getFlow"].
Definition readOperations : list string :=
  ["get_mandate_request"; "find_receipt_request"; "find_observed_policy";
   "find_other_connector_job_for_owner"; "ping"; "operation_record"; "operation_owner";
   "auth_connection"; "get_payment"; "find_payment_by_idempotency"; "find_payment_by_receipt";
   "get_transaction"; "find_transaction_by_idempotency"; "list_x402_for_owner";
   "find_x402_by_idempotency"; "get_managed_signer_challenge"; "find_managed_signer_by_public_key";
   "find_managed_signer_by_mandate"; "find_delivery_attestation"; "mcp.identify"; "mcp.list";
   "mcp.listInbox"; "mcp.getFlow"] ++ cardReadOperations ++ webhookReadOperations.

Definition isRead (operation : string) (args : value) : bool :=
  bool_decide (operation ∈ readOperations)
  || (bool_decide (operation = "get_auth") && strict_eq (get args "consume") (VBool false)).

(** ** Answers *)

Definition str_or_null (s : option string) : value :=
  match s with Some s => VString s | None => VNull end.

Inductive Reply : Type :=
| Answer (v : value)
| CardReply (r : CardResult)
| HookReply (r : WebhookReply)
| Connected (r : option PublicConnection.t)
| Connections (l : list PublicConnection.t)
| Message (m : PublicInbox.t)
| Messages (l : list PublicInbox.t).

Definition written_value (r : WriteResult) : value :=
  match r with
  | Null => VNull
  | Attestation kind record_json => VObject [("kind", VString kind); ("record_json", VString record_json)]
  end.

(** ** Documents from arguments

    A document inserted from the arguments must match its table's schema:
    exactly the declared fields, each of its type. *)

Definition mismatch {A} : result A := Throw "Document does not match the schema".

Definition only_fields (names : list string) (v : value) : bool :=
  match v with
  | VObject fields => forallb (λ f, match f.2 with VUndefined => true | _ => bool_decide (f.1 ∈ names) end) fields
  | _ => false
  end.
Definition schema_string (v : value) : result string :=
  match v with VString s => Ok s | _ => mismatch end.
Definition schema_number (v : value) : result number :=
  match v with VNumber n => Ok n | _ => mismatch end.
Definition schema_nullable (v : value) : result (option string) :=
  match v with VNull => Ok None | VString s => Ok (Some s) | _ => mismatch end.
Definition schema_optional (v : value) : result (option string) :=
  match v with VUndefined => Ok None | VString s => Ok (Some s) | _ => mismatch end.

Definition tool_of (v : value) : result ToolUse.t :=
  assert! only_fields ["name"; "count"; "lastCalledAt"] v else "Document does not match the schema";
  let! name := schema_string (get v "name") in
  let! count := schema_number (get v "count") in
  let! last := schema_string (get v "lastCalledAt") in
  Ok (ToolUse.mk name count last).

Definition connection_of (v : value) : result Connection.t :=
  assert! only_fields ["id"; "tokenHash"; "wallet"; "agentName"; "scope"; "connectedAt"; "lastSeenAt";
    "totalCalls"; "toolsCalled"; "revokedAt"; "source_json"] v else "Document does not match the schema";
  let! id := schema_string (get v "id") in
  let! tokenHash := schema_string (get v "tokenHash") in
  let! wallet := schema_string (get v "wallet") in
  let! agentName := schema_string (get v "agentName") in
  let! scope := schema_string (get v "scope") in
  let! connectedAt := schema_string (get v "connectedAt") in
  let! lastSeenAt := schema_nullable (get v "lastSeenAt") in
  let! totalCalls := schema_number (get v "totalCalls") in
  let! toolsCalled := match get v "toolsCalled" with VArray l => traverse tool_of l | _ => mismatch end in
  let! revokedAt := schema_nullable (get v "revokedAt") in
  let! source_json := schema_optional (get v "source_json") in
  Ok (Connection.mk id tokenHash wallet agentName scope connectedAt lastSeenAt totalCalls toolsCalled
    revokedAt source_json).

Definition role_of (v : value) : result InboxRole :=
  if is_one_of ["user"] v then Ok user
  else if is_one_of ["assistant"] v then Ok assistant
  else if is_one_of ["tool"] v then Ok tool else mismatch.

Definition message_of (v : value) : result InboxMessage.t :=
  assert! only_fields ["id"; "wallet"; "role"; "content_json"; "createdAt"; "source_json"] v
    else "Document does not match the schema";
  let! id := schema_string (get v "id") in
  let! wallet := schema_string (get v "wallet") in
  let! role := role_of (get v "role") in
  let! content_json := schema_string (get v "content_json") in
  let! createdAt := schema_string (get v "createdAt") in
  let! source_json := schema_optional (get v "source_json") in
  Ok (InboxMessage.mk id wallet role content_json createdAt source_json).

(** [n + 1] *)
Definition succ_number (n : number) : number :=
  match n with JInt z => JInt (z + 1) | JFrac f p => JFrac (f + 1) p | n => n end.

(** ** Operations *)

Section Operations.
Context `{C : Codec, B : Db}.

Definition is_key {D} (column : D → string) (key : string) (d : D) : bool := bool_decide (column d = key).

(** [...query.withIndex(.., q => q.eq(column, key)).unique()] *)
Definition by_column {D} (column : D → string) (t : table D) (key : string) : result (option (DocId * D)) :=
  unique (query (is_key column key) unordered t).

(** [for (const row of stale) await ctx.db.delete(row._id)] *)
Definition delete_all {D} (rows : list (DocId * D)) (t : table D) : table D :=
  foldl (λ t row, delete_doc row.1 t) t rows.

Definition by_expires (x y : RateLimit.t) : bool := x.(RateLimit.expires) <=? y.(RateLimit.expires).

Definition stale (now : Z) (t : table RateLimit.t) : list (DocId * RateLimit.t) :=
  take 50 (query (λ r, r.(RateLimit.expires) <=? now) by_expires t).

Definition bucket_of (key : string) (now window : Z) : string := key +:+ ":" +:+ toString (now / window).

Definition rate (t : table RateLimit.t) (key : string) (now maximum window : Z)
    : result (bool * table RateLimit.t) :=
  let! _ := reject (negb (is_safe window) || (window <? 1) || negb (is_safe (now + window)))
    "invalid_argument" "Invalid rate window" in
  let t := delete_all (stale now t) t in
  let bucket := bucket_of key now window in
  let! old := by_column RateLimit.key t bucket in
  let! count := safeNumber (VNumber (JInt
    (match old with Some (_, r) => r.(RateLimit.count) | None => 0 end + 1))) in
  let t := match old with
           | Some (i, r) => put_doc i (RateLimit.mk r.(RateLimit.key) count r.(RateLimit.expires)) t
           | None => (insert_doc (RateLimit.mk bucket count (now + window)) t).2
           end in
  Ok (count <=? maximum, t).

Definition claim_reply (made : bool) (c : OperationClaim.t) : value :=
  VArray [VBool made; VString c.(OperationClaim.owner); VString c.(OperationClaim.intent_json);
    VString c.(OperationClaim.initial_json)].

Definition claim_operation (t : table OperationClaim.t) (a : value) : result (value * table OperationClaim.t) :=
  let! key := string_of (get a "id") "value" in
  let! old := by_column OperationClaim.key t key in
  match old with
  | Some (_, c) => Ok (claim_reply false c, t)
  | None =>
      let! owner := string_of (get a "owner") "value" in
      let! intent_json := string_of (get a "intent_json") "value" in
      let! initial_json := string_of (get a "initial_json") "value" in
      let! _ := jsonValue (VString intent_json) in
      let! _ := jsonValue (VString initial_json) in
      let record := OperationClaim.mk key owner intent_json initial_json None in
      Ok (claim_reply true record, (insert_doc record t).2)
  end.

Definition operation_owner (t : table OperationClaim.t) (a : value) : result value :=
  let! key := string_of (get a "id") "value" in
  let! old := by_column OperationClaim.key t key in
  Ok (str_or_null ((λ x, x.2.(OperationClaim.owner)) <$> old)).

Definition operation_record (t : table OperationClaim.t) (a : value) : result value :=
  let! key := string_of (get a "id") "value" in
  let! old := by_column OperationClaim.key t key in
  Ok match old with
     | Some (_, c) => VArray [VString c.(OperationClaim.owner); VString c.(OperationClaim.intent_json);
         VString c.(OperationClaim.initial_json)]
     | None => VNull
     end.

Definition put_auth (t : table OwnerAuth.t) (a : value) : result (value * table OwnerAuth.t) :=
  let! key := string_of (get a "key") "value" in
  let! old := by_column OwnerAuth.key t key in
  let! _ := jsonValue (get a "value_json") in
  let! value_json := string_of (get a "value_json") "value" in
  let! expires := sorted (get a "expires") in
  Ok (VNull, match old with
             | Some (i, d) => put_doc i (OwnerAuth.mk key value_json expires d.(OwnerAuth.source_json)) t
             | None => (insert_doc (OwnerAuth.mk key value_json expires None) t).2
             end).

Definition get_auth (t : table OwnerAuth.t) (a : value) : result (value * table OwnerAuth.t) :=
  let! key := string_of (get a "key") "value" in
  let! old := by_column OwnerAuth.key t key in
  match get a "consume" with
  | VBool consume =>
      match old with
      | None => Ok (VNull, t)
      | Some (i, d) =>
          let! now := sorted (get a "now") in
          if str_leb d.(OwnerAuth.expires) now then Ok (VNull, t)
          else Ok (VString d.(OwnerAuth.value_json), if consume then delete_doc i t else t)
      end
  | _ => fail "invalid_argument" "consume must be boolean"
  end.

(** ** Agent connections *)

(** [!record || record.revokedAt]: an empty time is not a revocation. *)
Definition revoked (r : Connection.t) : bool :=
  match r.(Connection.revokedAt) with Some s => negb (bool_decide (s = "")) | None => false end.

Definition live_connection (t : table Connection.t) (a : value) : result (option (DocId * Connection.t)) :=
  let! hash := string_of (get a "hash") "value" in
  let! record := by_column Connection.tokenHash t hash in
  Ok match record with
     | Some (i, r) => if revoked r then None else Some (i, r)
     | None => None
     end.

Definition auth_connection (t : table Connection.t) (a : value) : result value :=
  let! record := live_connection t a in
  Ok match record with
     | Some (_, r) => VObject [("wallet", VString r.(Connection.wallet)); ("scope", VString r.(Connection.scope))]
     | None => VNull
     end.

Definition mcp_identify (t : table Connection.t) (a : value) : result (option PublicConnection.t) :=
  let! record := live_connection t a in
  Ok ((λ x, publicConnection x.2) <$> record).

(** [toolsCalled.find(t => t.name === name)], counted up, or a new entry *)
Fixpoint count_tool (tools : list ToolUse.t) (name now : string) : result (list ToolUse.t) :=
  match tools with
  | [] => Ok [ToolUse.mk name (JInt 1) now]
  | u :: tools =>
      if bool_decide (u.(ToolUse.name) = name) then
        let! count := safeNumber (VNumber (succ_number u.(ToolUse.count))) in
        Ok (ToolUse.mk name (JInt count) now :: tools)
      else let! tools := count_tool tools name now in Ok (u :: tools)
  end.

Definition mcp_observe (t : table Connection.t) (a : value) : result (value * table Connection.t) :=
  let! record := live_connection t a in
  match record with
  | None => Ok (VNull, t)
  | Some (i, r) =>
      let named := truthy (get a "name") in
      let! now := string_of (get a "now") "value" in
      let! tools := if named then
          let! name := string_of (get a "name") "value" in count_tool r.(Connection.toolsCalled) name now
        else Ok r.(Connection.toolsCalled) in
      let! source := parse_source r.(Connection.source_json) in
      let! total := safeNumber (VNumber
        (if named then succ_number r.(Connection.totalCalls) else r.(Connection.totalCalls))) in
      let! source_json :=
        match source with
        | Some s =>
            let s := delete_field s "last_seen_at" in
            result_map Some (encode (if named then delete_field s "tools_called" else s))
        | None => Ok r.(Connection.source_json)
        end in
      Ok (VNull, put_doc i (Connection.mk r.(Connection.id) r.(Connection.tokenHash) r.(Connection.wallet)
        r.(Connection.agentName) r.(Connection.scope) r.(Connection.connectedAt) (Some now) (JInt total) tools
        r.(Connection.revokedAt) source_json) t)
  end.

(** [v.length > n]: only strings and arrays have a length. *)
Definition longer_than (n : nat) (v : value) : bool :=
  match v with
  | VString s => Nat.ltb n (String.length s)
  | VArray l => Nat.ltb n (length l)
  | _ => false
  end.

Definition is_text (v : value) : bool := match v with VString _ => true | _ => false end.

Definition mcp_register (t : table Connection.t) (a : value)
    : result (PublicConnection.t * table Connection.t) :=
  let r := get a "record" in
  let! _ := reject (negb (truthy r) || negb (truthy (get r "wallet")) || longer_than 44 (get r "wallet")
      || negb (truthy (get r "agentName")) || longer_than 128 (get r "agentName")
      || negb (is_text (get r "scope")) || longer_than 8192 (get r "scope")
      || negb (hash_pattern (coerce (get r "tokenHash"))))
    "invalid_argument" "Invalid connection" in
  let! id := string_of (get r "id") "value" in
  let! old := by_column Connection.id t id in
  let! hash := string_of (get r "tokenHash") "value" in
  let! token := by_column Connection.tokenHash t hash in
  let! _ := reject (match old, token with None, None => false | _, _ => true end)
    "conflict" "Connection already exists" in
  let! record := connection_of r in
  Ok (publicConnection record, (insert_doc record t).2).

Definition by_connected (x y : Connection.t) : bool := str_leb x.(Connection.connectedAt) y.(Connection.connectedAt).

Definition mcp_list (t : table Connection.t) (a : value) : result (list PublicConnection.t) :=
  let! wallet := string_of (get a "wallet") "value" in
  let range r := bool_decide (r.(Connection.wallet) = trim wallet) && opt_eqb r.(Connection.revokedAt) None in
  let records := take 1001 (reverse (query range by_connected t).*2) in
  if Nat.ltb 1000 (length records)
  then fail "query_limit" "Connection list exceeds 1000 entries; use pagination"
  else Ok (map publicConnection records).

Definition mcp_revoke (t : table Connection.t) (a : value) : result (bool * table Connection.t) :=
  let! id := string_of (get a "id") "value" in
  let! found := by_column Connection.id t id in
  match found with
  | None => Ok (false, t)
  | Some (i, r) =>
      let! wallet := string_of (get a "wallet") "value" in
      if negb (bool_decide (r.(Connection.wallet) = trim wallet)) || revoked r then Ok (false, t)
      else
        let! source := parse_source r.(Connection.source_json) in
        let! now := string_of (get a "now") "value" in
        let! source_json := match source with
                            | Some s => result_map Some (encode (delete_field s "revoked_at"))
                            | None => Ok r.(Connection.source_json)
                            end in
        Ok (true, put_doc i (Connection.mk r.(Connection.id) r.(Connection.tokenHash) r.(Connection.wallet)
          r.(Connection.agentName) r.(Connection.scope) r.(Connection.connectedAt) r.(Connection.lastSeenAt)
          r.(Connection.totalCalls) r.(Connection.toolsCalled) (Some now) source_json) t)
  end.

(** ** Inbox *)

Definition mcp_appendInboxMessage (t : table InboxMessage.t) (a : value)
    : result (PublicInbox.t * table InboxMessage.t) :=
  let r := get a "record" in
  let! _ := string_of (get r "wallet") "value" in
  let! _ := jsonValue (get r "content_json") in
  let! id := string_of (get r "id") "value" in
  let! old := by_column InboxMessage.id t id in
  let! _ := reject (match old with Some _ => true | None => false end) "conflict" "Message already exists" in
  let! record := message_of r in
  Ok (publicInbox record, (insert_doc record t).2).

Definition by_message_created (x y : InboxMessage.t) : bool :=
  str_leb x.(InboxMessage.createdAt) y.(InboxMessage.createdAt).

Definition mcp_listInbox (t : table InboxMessage.t) (a : value) : result (list PublicInbox.t) :=
  let! wallet := string_of (get a "wallet") "value" in
  let! limit := page_limit (get a "limit") 30 100 in
  Ok (map publicInbox (take limit
    (reverse (query (is_key InboxMessage.wallet (trim wallet)) by_message_created t).*2))).

(** ** Payment cards *)

Definition mcp_getFlow (t : table Flow.t) (a : value) : result value :=
  let! flowId := string_of (get a "flowId") "value" in
  let! old := by_column Flow.flowId t flowId in
  match old with
  | None => Ok VNull
  | Some (_, f) =>
      let! now := safeNumber (get a "now") in
      Ok (if now <? f.(Flow.expires) then VString f.(Flow.record_json) else VNull)
  end.

(** Whether an update fits the stored card: it is live, for the same payment,
    made at the expected time and moves it forward. *)
Definition flow_conflict (clock : Z) (old : option (DocId * Flow.t)) (record : Flow.t) (v : value)
    (expectedUpdatedAt : value) : result bool :=
  match expectedUpdatedAt with
  | VUndefined => Ok (match old with Some _ => true | None => false end)
  | _ =>
      let! expected := safeNumber expectedUpdatedAt in
      match old with
      | None => Ok true
      | Some (_, f) =>
          let! previous := json (VString f.(Flow.record_json)) in
          if (f.(Flow.expires) <=? clock) || negb (f.(Flow.expires) =? record.(Flow.expires))
             || negb (strict_eq (get previous "paymentId") (get v "paymentId")) then Ok true
          else
            let! before := safeNumber (get previous "updatedAt") in
            if negb (before =? expected) then Ok true
            else
              let! after := safeNumber (get v "updatedAt") in
              if after <=? expected then Ok true
              else
                let! created := safeNumber (get previous "createdAt") in
                let! created' := safeNumber (get v "createdAt") in
                Ok (negb (created =? created'))
      end
  end.

Definition mcp_putFlow (clock : Z) (t : table Flow.t) (a : value) : result (value * table Flow.t) :=
  let! flowId := string_of (get a "flowId") "value" in
  let! old := by_column Flow.flowId t flowId in
  let! wallet := string_of (get a "wallet") "value" in
  let! record_json := string_of (get a "record_json") "value" in
  let! expires := safeNumber (get a "expires") in
  let record := Flow.mk flowId wallet record_json expires in
  let! v := json (VString record_json) in
  let! _ := reject (32000 <? Z.of_nat (String.length record_json))
    "invalid_argument" "Payment card record is too large" in
  let! _ := reject (match old with Some (_, f) => negb (bool_decide (f.(Flow.wallet) = wallet)) | None => false end)
    "forbidden" "Payment card belongs to another wallet" in
  let! conflict := flow_conflict clock old record v (get a "expectedUpdatedAt") in
  let! _ := reject conflict "conflict" "Payment flow update conflict" in
  Ok (VNull, store_doc t (fst <$> old) record).
End Operations.

(** ** Record operations *)

Section RecordOperations.
Context `{C : Codec, B : Db}.

(** [put_receipt_request], [put_observed_policy], [put_mandate_request]: the
    first record under a key stays. *)
Definition put_immutable (t : table Doc.t) (kind : RecordKind.t) (a : value) : result (value * table Doc.t) :=
  let mandates := bool_decide (kind = RecordKind.mandate_requests) in
  let! incoming := json (get a "record_json") in
  let! key := if mandates then string_of (get incoming "mandate_pda") "value" else receiptKey incoming in
  let! old := getRecord t kind key in
  let! t := match old with
      | Some _ => Ok t
      | None =>
          let! text := string_of (get a "record_json") "value" in
          let! (_, t) := writeRecord t kind text None false in Ok t
      end in
  let! stored := match old with
      | Some (_, d) => Ok d.(Doc.record_json)
      | None => string_of (get a "record_json") "value"
      end in
  if mandates then
    let! v := json (VString stored) in
    let! record := encode (get v "record") in
    Ok (VArray [VBool (match old with Some _ => false | None => true end); VString record], t)
  else Ok (VString stored, t).

(** [receiptKey({ cluster, program_id, receipt_address })] of the arguments *)
Definition receipt_key_of (a : value) : result string :=
  let! cluster := string_of (get a "cluster") "value" in
  let! program_id := string_of (get a "program_id") "value" in
  let! receipt_address := string_of (get a "receipt_address") "value" in
  receiptKey (VObject [("cluster", VString cluster); ("program_id", VString program_id);
    ("receipt_address", VString receipt_address)]).

Definition get_immutable (t : table Doc.t) (kind : RecordKind.t) (a : value) : result value :=
  let mandates := bool_decide (kind = RecordKind.mandate_requests) in
  let! key := if mandates then string_of (get a "mandate_pda") "value" else receipt_key_of a in
  let! old := getRecord t kind key in
  match old with
  | None => Ok VNull
  | Some (_, d) =>
      if mandates then
        let! v := json (VString d.(Doc.record_json)) in
        result_map VString (encode (get v "record"))
      else Ok (VString d.(Doc.record_json))
  end.

Definition of_owner (kind : RecordKind.t) (owner : string) (connector : option string) (d : Doc.t) : bool :=
  bool_decide (d.(Doc.kind) = kind) && opt_eqb d.(Doc.owner) (Some owner) && opt_eqb d.(Doc.connector) connector.

(** The rows a backfill has not reached *)
Definition has_legacy (t : table Doc.t) (owner : string) : bool :=
  match query (of_owner RecordKind.x402_payments owner None) by_updated t with [] => false | _ => true end.

Fixpoint first_other (rows : list Doc.t) (current_key : value) : result value :=
  match rows with
  | [] => Ok VNull
  | d :: rows =>
      let! key := string_of current_key "value" in
      if opt_eqb d.(Doc.idempotency) (Some key) then first_other rows current_key
      else Ok (VString d.(Doc.record_json))
  end.

Definition find_other_connector_job_for_owner (t : table Doc.t) (a : value) : result value :=
  let! owner := string_of (get a "owner") "value" in
  let! _ := reject (has_legacy t owner) "migration_required"
    "Backfill connector indexes before reserving orders" in
  let! connector := string_of (get a "connector") "value" in
  let! reference := string_of (get a "reference") "value" in
  let range d := of_owner RecordKind.x402_payments owner (Some connector) d
    && opt_eqb d.(Doc.reference) (Some reference) in
  first_other (take 2 (reverse (query range by_updated t).*2)) (get a "current_key").

(** [typeof v === "object"] for a [v] that is not null *)
Definition reverses (proof : value) : bool :=
  is_one_of ["failed"] (get_opt proof "delivery") || is_object (get_opt proof "refunded").

(** [{ ...d, record_json, updated, ...(source ? { source_json } : {}) }] *)
Definition patch_proof (d : Doc.t) (record_json updated : string) (source_json : option string) : Doc.t :=
  Doc.mk d.(Doc.kind) d.(Doc.key) record_json source_json d.(Doc.idempotency) d.(Doc.receipt)
    d.(Doc.connector) d.(Doc.reference) d.(Doc.owner) d.(Doc.mandate) d.(Doc.public_key)
    d.(Doc.provider_wallet) updated.

(** The stored order with the new evidence: a verified one is only reopened by a
    failed delivery or a refund. *)
Definition with_evidence (prior incoming : value) : value :=
  let v := set prior "proof" (get incoming "proof") in
  let v := set v "response_status" (get incoming "response_status") in
  let v := set v "error" (get incoming "error") in
  let v := if negb (is_one_of ["verified"] (get prior "status")) || reverses (get incoming "proof")
           then set v "status" (get incoming "status") else v in
  set v "updated_at_ms" (get incoming "updated_at_ms").

Definition put_crossmint_proof (t : table Doc.t) (a : value) : result (value * table Doc.t) :=
  let! incoming := json (get a "record_json") in
  let! key := string_of (get incoming "x402_payment_id") "value" in
  let! old := getRecord t RecordKind.x402_payments key in
  match old with
  | None => Ok (VNull, t)
  | Some (i, d) =>
      let! prior := json (VString d.(Doc.record_json)) in
      let! original := parse_source d.(Doc.source_json) in
      let! older := older_than_sql RecordKind.x402_payments original incoming in
      if older then Ok (VNull, t)
      else if negb (is_one_of ["crossmint"] (get prior "connector"))
              || negb (is_one_of ["confirmed"; "verified"] (get prior "status")) then Ok (VNull, t)
      else
        let! now := sorted (get incoming "updated_at_ms") in
        if str_ltb now d.(Doc.updated) then Ok (VNull, t)
        else
          let! _ := reject (negb (is_one_of ["confirmed"; "verified"] (get incoming "status")))
            "invalid_argument" "Invalid order evidence status" in
          let! record_json := encode (with_evidence prior incoming) in
          let! source_json := match original with
              | Some s => result_map Some (encode (delete_field s "updated_at"))
              | None => Ok d.(Doc.source_json)
              end in
          Ok (VNull, put_doc i (patch_proof d record_json now source_json) t)
  end.

(** The [put_*] operations by name: the kind they write and the argument that
    holds the record. *)
Definition puts (op : string) : option (RecordKind.t * string) :=
  if bool_decide (op = "put_payment") then Some (RecordKind.payments, "record_json")
  else if bool_decide (op = "put_transaction") then Some (RecordKind.transactions, "record_json")
  else if bool_decide (op = "put_x402") then Some (RecordKind.x402_payments, "record_json")
  else if bool_decide (op = "put_managed_signer_challenge")
    then Some (RecordKind.managed_signer_challenges, "challenge_json")
  else if bool_decide (op = "put_managed_signer") then Some (RecordKind.managed_signers, "signer_json")
  else if bool_decide (op = "put_delivery_attestation")
    then Some (RecordKind.delivery_attestations, "record_json")
  else None.

(** A put and, for a payment or batch transaction, its events in the same
    transaction. *)
Definition put_record (t : table Doc.t) (o : Outbox.t) (op : string) (kind : RecordKind.t) (field : string)
    (a : value) : result (value * table Doc.t * Outbox.t) :=
  let! text := string_of (get a field) "value" in
  let! (written, t) := writeRecord t kind text None false in
  if (bool_decide (op = "put_payment") || bool_decide (op = "put_transaction"))
     && negb (nullish (get a "events_json")) then
    let! record := json (get a field) in
    let! key := string_of (get record (if bool_decide (op = "put_payment") then "payment_id" else "transaction_id"))
      "value" in
    let! (created, o) := emitAfterWrite t o kind key (get a "events_json") in
    Ok (VNumber (JInt created), t, o)
  else Ok (written_value written, t, o).

Definition get_record (t : table Doc.t) (kind : RecordKind.t) (field : string) (a : value) : result value :=
  let! key := string_of (get a field) "value" in
  let! old := getRecord t kind key in
  Ok (str_or_null ((λ x, x.2.(Doc.record_json)) <$> old)).

Definition find_by_idempotency (t : table Doc.t) (kind : RecordKind.t) (a : value) : result value :=
  let! key := string_of (get a "key") "value" in
  let! old := unique (query (by_kind_idempotency kind key) unordered t) in
  Ok (str_or_null ((λ x, x.2.(Doc.record_json)) <$> old)).

(** The oldest attestation, the newest payment *)
Definition find_by_receipt (t : table Doc.t) (delivery : bool) (a : value) : result value :=
  let! receipt := if delivery then receipt_key_of a else string_of (get a "receipt_address") "value" in
  let kind := if delivery then RecordKind.delivery_attestations else RecordKind.payments in
  let rows := query (λ d, bool_decide (d.(Doc.kind) = kind) && opt_eqb d.(Doc.receipt) (Some receipt))
    by_updated t in
  Ok (str_or_null ((λ x, x.2.(Doc.record_json)) <$> head (if delivery then rows else reverse rows))).

Definition find_managed_signer (t : table Doc.t) (column : Doc.t → option string) (field : string) (a : value)
    : result value :=
  let! key := string_of (get a field) "value" in
  let! old := unique (query (by_kind_column RecordKind.managed_signers column (Some key)) unordered t) in
  Ok (str_or_null ((λ x, x.2.(Doc.record_json)) <$> old)).

Definition consume_managed_signer_challenge (t : table Doc.t) (a : value) : result (bool * table Doc.t) :=
  let! key := string_of (get a "challenge_id") "value" in
  let! old := getRecord t RecordKind.managed_signer_challenges key in
  match old with
  | None => Ok (false, t)
  | Some (i, d) =>
      let! r := json (VString d.(Doc.record_json)) in
      let! consumed := decimal (get a "consumed_at_ms") in
      if negb (nullish (get r "consumed_at_ms")) then Ok (false, t)
      else
        let! expires := decimal (get r "expires_at_ms") in
        if BigInt expires <? BigInt consumed then Ok (false, t)
        else
          let! token := numberToken (VString consumed) in
          let! record_json := encode (set r "consumed_at_ms" token) in
          Ok (true, put_doc i (patch_proof d record_json d.(Doc.updated) d.(Doc.source_json)) t)
  end.

(** The bounded walk over an owner's history, newest first *)
Fixpoint x402_rows (t : table Doc.t) (rows : list Doc.t) (mandate : value) (scanned taken maximum : nat)
    : result (list value) :=
  match rows with
  | [] => Ok []
  | d :: rows =>
      if Nat.ltb 2000 (S scanned)
      then fail "query_limit" "Narrow this owner's x402 history before retrying"
      else
        let! r := json (VString d.(Doc.record_json)) in
        let! payment := if truthy (get r "payment_id") then
            match get r "payment_id" with
            | VString id => getRecord t RecordKind.payments id
            | _ => Ok None
            end else Ok None in
        let paid := str_or_null (match payment with Some (_, p) => p.(Doc.mandate) | None => None end) in
        let keep := nullish mandate || strict_eq mandate paid in
        let taken := if keep then S taken else taken in
        let! rest := if Nat.eqb taken maximum then Ok []
                     else x402_rows t rows mandate (S scanned) taken maximum in
        Ok (if keep then VArray [VString d.(Doc.record_json); paid] :: rest else rest)
  end.

Definition list_x402_for_owner (t : table Doc.t) (a : value) : result value :=
  let! owner := string_of (get a "owner_wallet") "value" in
  let! _ := reject (has_legacy t owner) "migration_required"
    "Backfill connector indexes before serving history" in
  let! maximum := page_limit (get a "limit") 100 100 in
  let! connector := string_of (coalesce (get a "connector") (VString "x402")) "value" in
  let rows := reverse (query (of_owner RecordKind.x402_payments owner (Some connector)) by_updated t).*2 in
  result_map VArray (x402_rows t rows (get a "mandate") 0 0 maximum).
End RecordOperations.

(** ** The dispatcher *)

Inductive Role : Type := backend | mcp.

(** What a call reads besides its arguments: the maintenance flag of the
    deployment and [Date.now()]. *)
Module Env.
Record t : Type := mk { maintenance : bool; clock : Z }.
End Env.

Section Execute.
Context `{C : Codec, B : Db}.

(** The pet world of [convex/pet.ts], on tables of its own. *)
Context {Pet : Type} (petOperation : string → value → Pet → result (value * Pet)).

Abbreviation Tables := (Storage.t Pet).

Definition with_records (s : Tables) (t : table Doc.t) : Tables :=
  Storage.mk t s.(Storage.outbox) s.(Storage.operation_claims) s.(Storage.owner_auth)
    s.(Storage.agent_connections) s.(Storage.inbox_messages) s.(Storage.rate_limits)
    s.(Storage.payment_flows) s.(Storage.pet).
Definition with_outbox (s : Tables) (o : Outbox.t) : Tables :=
  Storage.mk s.(Storage.records) o s.(Storage.operation_claims) s.(Storage.owner_auth)
    s.(Storage.agent_connections) s.(Storage.inbox_messages) s.(Storage.rate_limits)
    s.(Storage.payment_flows) s.(Storage.pet).
Definition with_claims (s : Tables) (t : table OperationClaim.t) : Tables :=
  Storage.mk s.(Storage.records) s.(Storage.outbox) t s.(Storage.owner_auth)
    s.(Storage.agent_connections) s.(Storage.inbox_messages) s.(Storage.rate_limits)
    s.(Storage.payment_flows) s.(Storage.pet).
Definition with_auth (s : Tables) (t : table OwnerAuth.t) : Tables :=
  Storage.mk s.(Storage.records) s.(Storage.outbox) s.(Storage.operation_claims) t
    s.(Storage.agent_connections) s.(Storage.inbox_messages) s.(Storage.rate_limits)
    s.(Storage.payment_flows) s.(Storage.pet).
Definition with_connections (s : Tables) (t : table Connection.t) : Tables :=
  Storage.mk s.(Storage.records) s.(Storage.outbox) s.(Storage.operation_claims) s.(Storage.owner_auth)
    t s.(Storage.inbox_messages) s.(Storage.rate_limits) s.(Storage.payment_flows) s.(Storage.pet).
Definition with_inbox (s : Tables) (t : table InboxMessage.t) : Tables :=
  Storage.mk s.(Storage.records) s.(Storage.outbox) s.(Storage.operation_claims) s.(Storage.owner_auth)
    s.(Storage.agent_connections) t s.(Storage.rate_limits) s.(Storage.payment_flows) s.(Storage.pet).
Definition with_rates (s : Tables) (t : table RateLimit.t) : Tables :=
  Storage.mk s.(Storage.records) s.(Storage.outbox) s.(Storage.operation_claims) s.(Storage.owner_auth)
    s.(Storage.agent_connections) s.(Storage.inbox_messages) t s.(Storage.payment_flows) s.(Storage.pet).
Definition with_flows (s : Tables) (t : table Flow.t) : Tables :=
  Storage.mk s.(Storage.records) s.(Storage.outbox) s.(Storage.operation_claims) s.(Storage.owner_auth)
    s.(Storage.agent_connections) s.(Storage.inbox_messages) s.(Storage.rate_limits) t s.(Storage.pet).
Definition with_pet (s : Tables) (p : Pet) : Tables :=
  Storage.mk s.(Storage.records) s.(Storage.outbox) s.(Storage.operation_claims) s.(Storage.owner_auth)
    s.(Storage.agent_connections) s.(Storage.inbox_messages) s.(Storage.rate_limits)
    s.(Storage.payment_flows) p.

(** An operation that only reads, and one that also gives its table back *)
Definition reads {A} (s : Tables) (f : A → Reply) (r : result A) : result (Reply * Tables) :=
  result_map (λ x, (f x, s)) r.
Definition writes {A T} (put : T → Tables) (f : A → Reply) (r : result (A * T)) : result (Reply * Tables) :=
  result_map (λ x, (f x.1, put x.2)) r.

Definition bool_answer (b : bool) : Reply := Answer (VBool b).

Definition auth_rate (s : Tables) (a : value) : result (Reply * Tables) :=
  let! bucket := string_of (get a "bucket") "value" in
  let! now := safeNumber (get a "now") in
  let! maximum := safeNumber (get a "limit") in
  writes (with_rates s) bool_answer (rate s.(Storage.rate_limits) ("auth:" +:+ bucket) now maximum 60000).

Definition mcp_rateLimit (s : Tables) (a : value) : result (Reply * Tables) :=
  let! key := string_of (get a "key") "value" in
  let! now := safeNumber (get a "now") in
  let! maximum := safeNumber (get a "limit") in
  let! window := safeNumber (get a "windowMs") in
  writes (with_rates s) bool_answer (rate s.(Storage.rate_limits) ("mcp:" +:+ key) now maximum window).

Definition put_operation (s : Tables) (op : string) (kind : RecordKind.t) (field : string) (a : value)
    : result (Reply * Tables) :=
  result_map (λ x, (Answer x.1.1, with_outbox (with_records s x.1.2) x.2))
    (put_record s.(Storage.records) s.(Storage.outbox) op kind field a).

(** The operations of the handler, in the order of its tests. *)
Definition operation (e : Env.t) (s : Tables) (op : string) (a : value) : result (Reply * Tables) :=
  let is_op name := bool_decide (op = name) in
  let t := s.(Storage.records) in
  if String.prefix "pet." op then writes (with_pet s) Answer (petOperation op a s.(Storage.pet))
  else if is_op "ping" then Ok (Answer (VObject [("version", VNumber (JInt 1))]), s)
  else if bool_decide (op ∈ cardOperations) then
    writes (with_records s) CardReply (cardOperation t op a)
  else if bool_decide (op ∈ webhookOperations) then
    writes (with_outbox s) HookReply (webhookOperation t s.(Storage.outbox) op a)
  else if is_op "claim_operation" then
    writes (with_claims s) Answer (claim_operation s.(Storage.operation_claims) a)
  else if is_op "operation_record" then reads s Answer (operation_record s.(Storage.operation_claims) a)
  else if is_op "operation_owner" then reads s Answer (operation_owner s.(Storage.operation_claims) a)
  else if is_op "auth_rate" then auth_rate s a
  else if is_op "mcp.rateLimit" then mcp_rateLimit s a
  else if is_op "put_auth" then writes (with_auth s) Answer (put_auth s.(Storage.owner_auth) a)
  else if is_op "get_auth" then writes (with_auth s) Answer (get_auth s.(Storage.owner_auth) a)
  else if is_op "auth_connection" then reads s Answer (auth_connection s.(Storage.agent_connections) a)
  else if is_op "mcp.identify" then reads s Connected (mcp_identify s.(Storage.agent_connections) a)
  else if is_op "mcp.observe" then
    writes (with_connections s) Answer (mcp_observe s.(Storage.agent_connections) a)
  else if is_op "put_receipt_request" then
    writes (with_records s) Answer (put_immutable t RecordKind.receipt_requests a)
  else if is_op "put_observed_policy" then
    writes (with_records s) Answer (put_immutable t RecordKind.observed_policies a)
  else if is_op "put_mandate_request" then
    writes (with_records s) Answer (put_immutable t RecordKind.mandate_requests a)
  else if is_op "get_mandate_request" then reads s Answer (get_immutable t RecordKind.mandate_requests a)
  else if is_op "find_receipt_request" then reads s Answer (get_immutable t RecordKind.receipt_requests a)
  else if is_op "find_observed_policy" then reads s Answer (get_immutable t RecordKind.observed_policies a)
  else if is_op "find_other_connector_job_for_owner" then
    reads s Answer (find_other_connector_job_for_owner t a)
  else if is_op "put_crossmint_proof" then writes (with_records s) Answer (put_crossmint_proof t a)
  else match puts op with
  | Some (kind, field) => put_operation s op kind field a
  | None =>
    if is_op "get_payment" then reads s Answer (get_record t RecordKind.payments "payment_id" a)
    else if is_op "get_transaction" then reads s Answer (get_record t RecordKind.transactions "transaction_id" a)
    else if is_op "get_managed_signer_challenge" then
      reads s Answer (get_record t RecordKind.managed_signer_challenges "challenge_id" a)
    else if is_op "find_payment_by_idempotency" then reads s Answer (find_by_idempotency t RecordKind.payments a)
    else if is_op "find_transaction_by_idempotency" then
      reads s Answer (find_by_idempotency t RecordKind.transactions a)
    else if is_op "find_x402_by_idempotency" then
      reads s Answer (find_by_idempotency t RecordKind.x402_payments a)
    else if is_op "find_payment_by_receipt" then reads s Answer (find_by_receipt t false a)
    else if is_op "find_delivery_attestation" then reads s Answer (find_by_receipt t true a)
    else if is_op "find_managed_signer_by_public_key" then
      reads s Answer (find_managed_signer t Doc.public_key "public_key" a)
    else if is_op "find_managed_signer_by_mandate" then
      reads s Answer (find_managed_signer t Doc.mandate "mandate_pda" a)
    else if is_op "consume_managed_signer_challenge" then
      writes (with_records s) bool_answer (consume_managed_signer_challenge t a)
    else if is_op "list_x402_for_owner" then reads s Answer (list_x402_for_owner t a)
    else if is_op "mcp.register" then
      writes (with_connections s) (λ r, Connected (Some r)) (mcp_register s.(Storage.agent_connections) a)
    else if is_op "mcp.list" then reads s Connections (mcp_list s.(Storage.agent_connections) a)
    else if is_op "mcp.revoke" then
      writes (with_connections s) bool_answer (mcp_revoke s.(Storage.agent_connections) a)
    else if is_op "mcp.appendInboxMessage" then
      writes (with_inbox s) Message (mcp_appendInboxMessage s.(Storage.inbox_messages) a)
    else if is_op "mcp.getFlow" then reads s Answer (mcp_getFlow s.(Storage.payment_flows) a)
    else if is_op "mcp.putFlow" then
      writes (with_flows s) Answer (mcp_putFlow e.(Env.clock) s.(Storage.payment_flows) a)
    else if is_op "mcp.listInbox" then reads s Messages (mcp_listInbox s.(Storage.inbox_messages) a)
    else fail "invalid_argument" "Unknown operation"
  end.

Definition execute (e : Env.t) (s : Tables) (role : Role) (op : string) (a : value) : result (Reply * Tables) :=
  let allowed := match role with backend => backendOperations | mcp => mcpOperations end in
  let! _ := reject (negb (bool_decide (op ∈ allowed))) "forbidden" "Operation is not allowed for this service" in
  let! _ := reject (match a with VObject _ | VLossless _ => false | _ => true end)
    "invalid_argument" "args must be an object" in
  let! _ := reject (e.(Env.maintenance) && negb (isRead op a)) "maintenance" "Storage writes are paused" in
  operation e s op a.
End Execute.
