(* ===== verification/StorageRuns.v ===== *)
(** * The backend store as a state machine

    What one call of [execute] may do to each table ([change]); the invariant of
    all tables; and what follows for any sequence of calls from the two services:
    records that are final stay, one-time things happen once, and readers and
    paused deployments change nothing. *)
From Stdlib Require Import ZArith Lia Strings.Ascii.
From stdpp Require Import base numbers strings list fin_maps gmap.
From S2P Require Import Prelude Bytes PublicKey Decimal CardConstants Values Store Records CardRecords Webhooks WebhookRuns Storage.

Section Changes.
Context `{C : Codec, B : Db}.

(** The kinds whose first record stays. *)
Definition immutable_kind (kind : RecordKind.t) : Prop :=
  kind ∈ [RecordKind.receipt_requests; RecordKind.observed_policies; RecordKind.mandate_requests].

(** The kinds the [put_*] operations write. *)
Definition put_kind (kind : RecordKind.t) : Prop :=
  kind ∈ [RecordKind.payments; RecordKind.transactions; RecordKind.x402_payments;
    RecordKind.managed_signer_challenges; RecordKind.managed_signers; RecordKind.delivery_attestations].

(** What one call does to the record table. *)
Inductive records_step (t : table Doc.t) : table Doc.t → Prop :=
| same_records : records_step t t
| card_put kind a r t' : put_card_record t kind a = Ok (r, t') → records_step t t'
| immutable_put kind a v t' : immutable_kind kind → put_immutable t kind a = Ok (v, t') → records_step t t'
| proof_put a v t' : put_crossmint_proof t a = Ok (v, t') → records_step t t'
| record_put kind text r t' :
    put_kind kind → writeRecord t kind text None false = Ok (r, t') → records_step t t'
| challenge_consumed a b t' : consume_managed_signer_challenge t a = Ok (b, t') → records_step t t'.

(** What one call does to the connections, by the operation it runs. *)
Inductive connections_step (t : table Connection.t) : table Connection.t → Prop :=
| same_connections : connections_step t t
| observed a v t' : mcp_observe t a = Ok (v, t') → connections_step t t'
| registered a v t' : mcp_register t a = Ok (v, t') → connections_step t t'
| withdrawn a b t' : mcp_revoke t a = Ok (b, t') → connections_step t t'.

(** What one call may do to the tables, other than the pet world. *)
Record change {Pet} (e : Env.t) (op : string) (a : value) (s s' : Storage.t Pet) : Prop := {
  change_records : records_step s.(Storage.records) s'.(Storage.records);
  change_outbox : s'.(Storage.outbox) = s.(Storage.outbox) ∨
    ∃ l, webhook_step l s.(Storage.outbox) s'.(Storage.outbox);
  change_claims : s'.(Storage.operation_claims) = s.(Storage.operation_claims) ∨
    ∃ v, claim_operation s.(Storage.operation_claims) a = Ok (v, s'.(Storage.operation_claims));
  change_auth : s'.(Storage.owner_auth) = s.(Storage.owner_auth) ∨
    (op = "put_auth" ∧ ∃ v, put_auth s.(Storage.owner_auth) a = Ok (v, s'.(Storage.owner_auth))) ∨
    ∃ v, get_auth s.(Storage.owner_auth) a = Ok (v, s'.(Storage.owner_auth));
  change_connections : connections_step s.(Storage.agent_connections) s'.(Storage.agent_connections);
  change_inbox : s'.(Storage.inbox_messages) = s.(Storage.inbox_messages) ∨
    ∃ m, mcp_appendInboxMessage s.(Storage.inbox_messages) a = Ok (m, s'.(Storage.inbox_messages));
  change_rates : s'.(Storage.rate_limits) = s.(Storage.rate_limits) ∨
    ∃ key now maximum window b,
      rate s.(Storage.rate_limits) key now maximum window = Ok (b, s'.(Storage.rate_limits));
  change_flows : s'.(Storage.payment_flows) = s.(Storage.payment_flows) ∨
    ∃ v, mcp_putFlow e.(Env.clock) s.(Storage.payment_flows) a = Ok (v, s'.(Storage.payment_flows));
}.

Lemma change_refl {Pet} e op a (s : Storage.t Pet) : change e op a s s.
Proof. split; auto; constructor. Qed.

Lemma reads_ok {Pet A} (s : Storage.t Pet) (f : A → Reply) r x s' :
  reads s f r = Ok (x, s') → s' = s ∧ ∃ v, r = Ok v ∧ x = f v.
Proof. unfold reads, result_map. destruct r; [|done]. intros [= <- <-]. eauto. Qed.

Lemma writes_ok {Pet A T} (put : T → Storage.t Pet) (f : A → Reply) r x s' :
  writes put f r = Ok (x, s') → ∃ v t, r = Ok (v, t) ∧ s' = put t ∧ x = f v.
Proof. unfold writes, result_map. destruct r as [[v t]|]; [|done]. intros [= <- <-]. eauto. Qed.

(** *** The components called *)

Lemma cardOperation_step t op a r t' : cardOperation t op a = Ok (r, t') → records_step t t'.
Proof.
  unfold cardOperation. intros H. apply bind_ok in H as (kind & _ & H). cbv zeta in H.
  repeat match type of H with
  | (if ?b then _ else _) = _ => destruct b
  | result_map _ ?r = Ok _ => destruct r; [|done]; injection H as _ <-; apply same_records
  end; [by eapply card_put | done].
Qed.

Lemma complete_untold o a b o' :
  is_text (get a "lease_token") = false → complete_webhook_delivery o a = Ok (b, o') → o' = o.
Proof.
  intros Htok H. apply bind_ok in H as (id & _ & H). apply bind_ok in H as (found & _ & H).
  destruct found as [[i d]|]; [|by injection H as _ <-].
  destruct (negb _); [by injection H as _ <-|].
  apply bind_ok in H as (token & Ht & _). apply string_of_ok in Ht as [Ht _]. by rewrite Ht in Htok.
Qed.

Lemma webhookOperation_step t o op a r o' :
  webhookOperation t o op a = Ok (r, o') → o' = o ∨ ∃ l, webhook_step l o o'.
Proof.
  unfold webhookOperation. intros H. cbv zeta in H.
  repeat match type of H with (if ?b then _ else _) = _ => destruct b end; try done.
  all: match type of H with result_map _ ?r = _ => destruct r as [x|] eqn:E; [|done] end; simpl in H;
    injection H as _ <-; auto; destruct x as [v o2]; simpl.
  - right. exists LOther. by eapply step_emit.
  - right. exists LOther. by eapply step_create.
  - right. exists LOther. by eapply step_rotate.
  - right. exists LDisable. by eapply step_disable.
  - right. pose proof E as E'. apply bind_ok in E' as (now & Hn & _). exists (LClaim now). by eapply step_claim.
  - destruct (is_text (get a "lease_token")) eqn:Et; [right|left; by eapply complete_untold].
    destruct (get a "lease_token") eqn:Ea; try done. eexists. by eapply step_complete.
  - right. exists LRedeliver. by eapply step_redeliver.
Qed.

Lemma puts_kind op kind field : puts op = Some (kind, field) → put_kind kind.
Proof.
  unfold puts, put_kind. intros H.
  repeat match type of H with (if ?b then _ else _) = _ => destruct b end; try done; injection H as <- _; listed.
Qed.

Lemma put_record_step t o op kind field a v t' o' :
  put_kind kind → put_record t o op kind field a = Ok (v, t', o') →
  records_step t t' ∧ (o' = o ∨ ∃ l, webhook_step l o o').
Proof.
  intros Hk H. unfold put_record in H. apply bind_ok in H as (s & _ & H).
  apply bind_ok in H as ([w t1] & Hw & H).
  assert (records_step t t1) as Hs by (by eapply record_put).
  destruct (_ && _) in H.
  - apply bind_ok in H as (record & _ & H). apply bind_ok in H as (key & _ & H).
    apply bind_ok in H as ([n o1] & He & H). injection H as _ <- <-.
    split; [done|]. right. exists LOther. by eapply step_emit_after.
  - injection H as _ <- <-. auto.
Qed.

(** *** One table changed *)

Lemma records_changed {Pet} e op a (s : Storage.t Pet) t :
  records_step s.(Storage.records) t → change e op a s (with_records s t).
Proof. intros H. split; simpl; try (by left); [done|constructor]. Qed.

Lemma connections_changed {Pet} e op a (s : Storage.t Pet) t :
  connections_step s.(Storage.agent_connections) t → change e op a s (with_connections s t).
Proof. intros H. split; simpl; try (by left); [constructor|done]. Qed.

Lemma outbox_changed {Pet} e op a (s : Storage.t Pet) o :
  o = s.(Storage.outbox) ∨ (∃ l, webhook_step l s.(Storage.outbox) o) → change e op a s (with_outbox s o).
Proof. intros H. split; simpl; try (by left); [constructor|done|constructor]. Qed.

Lemma put_changed {Pet} e op a (s : Storage.t Pet) t o :
  records_step s.(Storage.records) t → o = s.(Storage.outbox) ∨ (∃ l, webhook_step l s.(Storage.outbox) o) →
  change e op a s (with_outbox (with_records s t) o).
Proof. intros Ht Ho. split; simpl; try (by left); [done|done|constructor]. Qed.

Lemma rate_changed {Pet} e op a (s : Storage.t Pet) key now maximum window b t :
  rate s.(Storage.rate_limits) key now maximum window = Ok (b, t) → change e op a s (with_rates s t).
Proof. intros H. split; simpl; try (by left); [constructor|constructor|]. right. by exists key, now, maximum, window, b. Qed.

(** Every operation of the dispatcher is one change. *)
Lemma operation_change {Pet} petOperation e (s : Storage.t Pet) op a r s' :
  operation petOperation e s op a = Ok (r, s') → change e op a s s'.
Proof.
  unfold operation. intros H. cbv zeta in H.
  repeat match type of H with
  | (if bool_decide (op = "put_auth") then _ else _) = _ => destruct (decide (op = "put_auth")) as [Hop|];
      [rewrite bool_decide_eq_true_2 in H by done | rewrite bool_decide_eq_false_2 in H by done]
  | (if ?b then _ else _) = _ => destruct b
  | match puts op with _ => _ end = _ => destruct (puts op) as [[kind field]|] eqn:Hputs
  end; try done.
  all: try (apply reads_ok in H as [-> _]; apply change_refl).
  all: try (injection H as _ <-; apply change_refl).
  all: try (apply writes_ok in H as (v & t & H & -> & _)).
  - split; simpl; auto; constructor.
  - apply records_changed. by eapply cardOperation_step.
  - apply outbox_changed. by eapply webhookOperation_step.
  - split; simpl; try (by left); [constructor|eauto|constructor].
  - do 3 apply bind_ok in H as (? & _ & H). apply writes_ok in H as (b & t & H & -> & _). by eapply rate_changed.
  - do 4 apply bind_ok in H as (? & _ & H). apply writes_ok in H as (b & t & H & -> & _). by eapply rate_changed.
  - split; simpl; try (by left); [constructor|eauto|constructor].
  - split; simpl; try (by left); [constructor|eauto|constructor].
  - apply connections_changed. by eapply observed.
  - apply records_changed. eapply immutable_put; [|done]. unfold immutable_kind. listed.
  - apply records_changed. eapply immutable_put; [|done]. unfold immutable_kind. listed.
  - apply records_changed. eapply immutable_put; [|done]. unfold immutable_kind. listed.
  - apply records_changed. by eapply proof_put.
  - unfold put_operation, result_map in H.
    destruct (put_record _ _ _ _ _ _) as [[[v t] o]|] eqn:E; [|done]. injection H as _ <-.
    destruct (put_record_step _ _ _ _ _ _ _ _ _ (puts_kind _ _ _ Hputs) E) as [Ht Ho].
    by apply put_changed.
  - apply records_changed. by eapply challenge_consumed.
  - apply connections_changed. by eapply registered.
  - apply connections_changed. by eapply withdrawn.
  - split; simpl; try (by left); [constructor|constructor|eauto].
  - split; simpl; try (by left); [constructor|constructor|eauto].
Qed.

Lemma execute_change {Pet} petOperation e (s : Storage.t Pet) role op a r s' :
  execute petOperation e s role op a = Ok (r, s') → change e op a s s'.
Proof. unfold execute. intros H. cbv zeta in H. do 3 apply bind_ok in H as (? & _ & H). by eapply operation_change. Qed.
End Changes.

(** ** The invariant of the tables *)

Abbreviation unique_key column := (unique_on (λ d, Some (column d))).

Record storage_wf `{B : Db} {Pet} (s : Storage.t Pet) : Prop := {
  wf_records : records_unique (docs s.(Storage.records));
  wf_stamps : stamped (docs s.(Storage.records));
  wf_outbox : outbox_wf s.(Storage.outbox);
  wf_claims : unique_key OperationClaim.key (docs s.(Storage.operation_claims));
  wf_auth : unique_key OwnerAuth.key (docs s.(Storage.owner_auth));
  wf_connection_ids : unique_key Connection.id (docs s.(Storage.agent_connections));
  wf_tokens : unique_key Connection.tokenHash (docs s.(Storage.agent_connections));
  wf_messages : unique_key InboxMessage.id (docs s.(Storage.inbox_messages));
  wf_rates : unique_key RateLimit.key (docs s.(Storage.rate_limits));
  wf_flows : unique_key Flow.flowId (docs s.(Storage.payment_flows));
}.

Section Invariant.
Context `{C : Codec, B : Db, BS : !DbSpec B}.

(** *** Tables with one key column *)

Lemma by_column_some {D} (column : D → string) t key i d :
  by_column column t key = Ok (Some (i, d)) → docs t !! i = Some d ∧ column d = key.
Proof. intros H. apply unique_some in H as [Hi Hp]. unfold is_key in Hp. by bool_reflect. Qed.

Lemma by_column_none {D} (column : D → string) t key i d :
  by_column column t key = Ok None → docs t !! i = Some d → column d ≠ key.
Proof. intros H Hi E. pose proof (unique_none _ _ _ i d H Hi) as Hp. unfold is_key in Hp. by bool_reflect. Qed.

Lemma by_column_found {D} (column : D → string) t i d :
  unique_key column (docs t) → docs t !! i = Some d → by_column column t (column d) = Ok (Some (i, d)).
Proof.
  intros Hu Hi. unfold by_column, is_key.
  destruct (unique_query (λ x, bool_decide (column x = column d)) unordered t) as [(j & e & E & Hj & Hp)|[_ Hn]].
  - intros a b x y Ha Hb Hx Hy. bool_reflect. apply (Hu a b x y (column d)); congruence.
  - bool_reflect. assert (j = i) as -> by (apply (Hu j i e d (column d)); congruence).
    rewrite E. rewrite Hi in Hj. by injection Hj as ->.
  - pose proof (Hn i d Hi). by bool_reflect.
Qed.

Lemma insert_key {D} (column : D → string) t d :
  unique_key column (docs t) → by_column column t (column d) = Ok None →
  unique_key column (docs (insert_doc d t).2).
Proof.
  intros Hu Hn. rewrite insert_docs. apply unique_on_put; [done|].
  intros j e x _ Hj [= <-] [= E]. by apply (by_column_none _ _ _ _ _ Hn Hj).
Qed.

Lemma put_key {D K} (column : D → option K) t i d d' :
  unique_on column (docs t) → docs t !! i = Some d → column d' = column d →
  unique_on column (docs (put_doc i d' t)).
Proof. intros Hu Hi E. rewrite put_docs by eauto. by eapply unique_on_move. Qed.

Lemma store_key {D} (column : D → string) t old d :
  unique_key column (docs t) → by_column column t (column d) = Ok old →
  unique_key column (docs (store_doc t (fst <$> old) d)).
Proof.
  intros Hu Ho. destruct old as [[i e]|]; simpl; [|by apply insert_key].
  apply by_column_some in Ho as [Hi E]. eapply put_key; [done|done|by rewrite E].
Qed.

Lemma delete_all_docs {D} rows (t : table D) i :
  docs (delete_all rows t) !! i = if bool_decide (i ∈ rows.*1) then None else docs t !! i.
Proof.
  unfold delete_all. revert t. induction rows as [|[j d] rows IH]; intros t; simpl; [done|].
  rewrite IH, delete_docs. destruct (decide (i ∈ rows.*1)) as [Hin|Hin].
  - rewrite !bool_decide_eq_true_2; [done|by right|done].
  - rewrite (bool_decide_eq_false_2 (i ∈ rows.*1)) by done.
    destruct (decide (i = j)) as [->|Hne].
    + rewrite lookup_delete_eq, bool_decide_eq_true_2; [done|by left].
    + rewrite lookup_delete_ne by done. rewrite bool_decide_eq_false_2; [done|].
      intros [?|?]%elem_of_cons; done.
Qed.

Lemma delete_all_key {D K} (column : D → option K) rows t :
  unique_on column (docs t) → unique_on column (docs (delete_all rows t)).
Proof.
  intros Hu a b x y k Ha Hb. rewrite delete_all_docs in Ha, Hb.
  destruct (bool_decide (a ∈ _)); [done|]. destruct (bool_decide (b ∈ _)); [done|]. by eapply Hu.
Qed.

Lemma rate_key t key now maximum window b t' :
  unique_key RateLimit.key (docs t) → rate t key now maximum window = Ok (b, t') →
  unique_key RateLimit.key (docs t').
Proof.
  intros Hu H. apply bind_ok in H as (_ & _ & H). cbv zeta in H.
  apply bind_ok in H as (old & Ho & H). apply bind_ok in H as (count & _ & H). injection H as _ <-.
  apply (delete_all_key _ (stale now t)) in Hu. destruct old as [[i r]|].
  - apply by_column_some in Ho as [Hi _]. eapply put_key; done.
  - by apply insert_key.
Qed.

(** *** Connections *)

Lemma live_some t a i r :
  live_connection t a = Ok (Some (i, r)) →
  docs t !! i = Some r ∧ revoked r = false ∧ get a "hash" = VString r.(Connection.tokenHash).
Proof.
  unfold live_connection. intros H. apply bind_ok in H as (hash & Hh & H). apply string_of_ok in Hh as [Hh _].
  apply bind_ok in H as (record & Hr & H). destruct record as [[j r']|]; [|done].
  destruct (revoked r') eqn:E; [done|]. injection H as -> ->. apply by_column_some in Hr as [Hi <-]. done.
Qed.

(** A call replaces one connection by one with the same identity, which is
    revoked if it was, or adds one whose id and token are new. *)
Lemma connections_step_inv t t' :
  connections_step t t' →
  t' = t ∨
  (∃ i r r', docs t !! i = Some r ∧ docs t' = <[i := r']> (docs t) ∧
    r'.(Connection.id) = r.(Connection.id) ∧ r'.(Connection.tokenHash) = r.(Connection.tokenHash) ∧
    r'.(Connection.wallet) = r.(Connection.wallet) ∧ revoked r = false) ∨
  ∃ i r, docs t !! i = None ∧ docs t' = <[i := r]> (docs t) ∧
    by_column Connection.id t r.(Connection.id) = Ok None ∧
    by_column Connection.tokenHash t r.(Connection.tokenHash) = Ok None.
Proof.
  destruct 1 as [|a v t' H|a v t' H|a b t' H]; [by left|..].
  - apply bind_ok in H as (record & Hl & H). destruct record as [[i r]|]; [|injection H as _ <-; by left].
    apply live_some in Hl as (Hi & Hrev & _). right; left. cbv zeta in H.
    do 5 apply bind_ok in H as (? & _ & H). injection H as _ <-.
    exists i, r. eexists. split; [done|]. split; [apply put_docs; eauto|]. done.
  - cbv zeta in H. apply bind_ok in H as (? & _ & H). apply bind_ok in H as (id & Hid & H).
    apply bind_ok in H as (old & Ho & H). apply bind_ok in H as (hash & Hh & H).
    apply bind_ok in H as (token & Ht & H). apply bind_ok in H as ([] & Hr & H).
    apply bind_ok in H as (r & Hc & H). injection H as _ <-. right; right.
    apply reject_ok in Hr. destruct old; [done|]. destruct token; [done|].
    apply string_of_ok in Hid as [Hid _], Hh as [Hh _].
    assert (r.(Connection.id) = id ∧ r.(Connection.tokenHash) = hash) as [<- <-].
    { unfold connection_of in Hc. rewrite Hid, Hh in Hc. inv_ok Hc.
      repeat match goal with E : schema_string (VString _) = Ok _ |- _ => injection E as <- end.
      by subst r. }
    exists (insert_doc r t).1, r. split; [apply insert_fresh|]. split; [apply insert_docs|]. done.
  - apply bind_ok in H as (id & _ & H). apply bind_ok in H as (found & Hf & H).
    destruct found as [[i r]|]; [|injection H as _ <-; by left].
    apply by_column_some in Hf as [Hi _]. apply bind_ok in H as (wallet & _ & H).
    destruct (negb _ || revoked r) eqn:E; [injection H as _ <-; by left|].
    bool_reflect. right; left. do 3 apply bind_ok in H as (? & _ & H). injection H as _ <-.
    exists i, r. eexists. split; [done|]. split; [apply put_docs; eauto|]. done.
Qed.

Lemma connections_step_key column t t' :
  column = Connection.id ∨ column = Connection.tokenHash →
  connections_step t t' → unique_key column (docs t) → unique_key column (docs t').
Proof.
  intros Hcol Hs Hu. apply connections_step_inv in Hs as [->|[(i & r & r' & Hi & -> & Hid & Htok & _)|(i & r & Hi & -> & Hid & Htok)]].
  - done.
  - eapply unique_on_move; [done..|]. by destruct Hcol as [-> | ->]; f_equal.
  - apply unique_on_put; [done|]. intros j e x _ Hj [= <-] [= E].
    destruct Hcol as [-> | ->]; [by apply (by_column_none _ _ _ _ _ Hid Hj)|by apply (by_column_none _ _ _ _ _ Htok Hj)].
Qed.
End Invariant.

(** ** Final records *)

(** A record no call changes any more: immutable kinds, attestations, settled
    payments and transactions, verified x402 payments of connectors other than
    Crossmint ([put_crossmint_proof] rewrites the evidence of a verified one),
    challenges that do not read as unconsumed. *)
Definition final `{C : Codec} (d : Doc.t) : Prop :=
  match d.(Doc.kind) with
  | RecordKind.receipt_requests | RecordKind.observed_policies | RecordKind.mandate_requests
  | RecordKind.delivery_attestations => True
  | RecordKind.payments | RecordKind.transactions =>
      ∃ v, json (VString d.(Doc.record_json)) = Ok v ∧ is_one_of ["confirmed"; "failed"] (get v "status") = true
  | RecordKind.x402_payments =>
      ∃ v, json (VString d.(Doc.record_json)) = Ok v ∧ is_one_of ["verified"] (get v "status") = true ∧
        is_one_of ["crossmint"] (get v "connector") = false
  | RecordKind.managed_signer_challenges =>
      ∀ v, json (VString d.(Doc.record_json)) = Ok v → nullish (get v "consumed_at_ms") = false
  | _ => False
  end.

Section RecordSteps.
Context `{C : Codec, B : Db, BS : !DbSpec B}.

Lemma records_unique_patch m i d text updated source :
  records_unique m → m !! i = Some d → records_unique (<[i := patch_proof d text updated source]> m).
Proof. intros [] Hi. split; by eapply unique_on_move. Qed.

Lemma put_crossmint_proof_inv t a v t' :
  put_crossmint_proof t a = Ok (v, t') →
  t' = t ∨ ∃ i d prior text now source,
    docs t !! i = Some d ∧ d.(Doc.kind) = RecordKind.x402_payments ∧
    json (VString d.(Doc.record_json)) = Ok prior ∧ is_one_of ["crossmint"] (get prior "connector") = true ∧
    is_stamp now ∧ docs t' = <[i := patch_proof d text now source]> (docs t).
Proof.
  unfold put_crossmint_proof. intros H. apply bind_ok in H as (incoming & _ & H).
  apply bind_ok in H as (key & _ & H). apply bind_ok in H as (old & Ho & H).
  destruct old as [[i d]|]; [|injection H as _ <-; by left].
  apply getRecord_some in Ho as [Hi Hid]. apply bind_ok in H as (prior & Hp & H).
  apply bind_ok in H as (original & _ & H). apply bind_ok in H as (older & _ & H).
  destruct older; [injection H as _ <-; by left|].
  destruct (negb (is_one_of ["crossmint"] _) || _) eqn:E; [injection H as _ <-; by left|]. bool_reflect.
  apply bind_ok in H as (now & Hn & H). destruct (str_ltb _ _); [injection H as _ <-; by left|].
  apply bind_ok in H as (? & _ & H). apply bind_ok in H as (text & _ & H).
  apply bind_ok in H as (source & _ & H). injection H as _ <-. right.
  exists i, d, prior, text, now, source. split; [done|]. split; [by unfold id_of in Hid; congruence|].
  split; [done|]. split; [done|]. split; [by apply sorted_ok in Hn as [? _]|]. apply put_docs; eauto.
Qed.

Lemma consume_challenge_inv t a b t' :
  consume_managed_signer_challenge t a = Ok (b, t') →
  ∃ key old, get a "challenge_id" = VString key ∧
    getRecord t RecordKind.managed_signer_challenges key = Ok old ∧
  (b = false ∧ t' = t ∨
   b = true ∧ ∃ i d r consumed expires text, old = Some (i, d) ∧ docs t !! i = Some d ∧
    id_of d = Some (RecordKind.managed_signer_challenges, key) ∧
    json (VString d.(Doc.record_json)) = Ok r ∧ nullish (get r "consumed_at_ms") = true ∧
    decimal (get a "consumed_at_ms") = Ok consumed ∧ decimal (get r "expires_at_ms") = Ok expires ∧
    BigInt consumed <= BigInt expires ∧ encode (set r "consumed_at_ms" (VLossless consumed)) = Ok text ∧
    docs t' = <[i := patch_proof d text d.(Doc.updated) d.(Doc.source_json)]> (docs t)).
Proof.
  unfold consume_managed_signer_challenge. intros H. apply bind_ok in H as (key & Hk & H).
  apply string_of_ok in Hk as [Hk _].
  apply bind_ok in H as (old & Ho & H). exists key, old. split; [done|]. split; [done|].
  destruct old as [[i d]|]; [|injection H as <- <-; by left].
  apply getRecord_some in Ho as [Hi Hid]. apply bind_ok in H as (r & Hr & H).
  apply bind_ok in H as (consumed & Hc & H).
  destruct (negb (nullish (get r "consumed_at_ms"))) eqn:E; [injection H as <- <-; by left|].
  bool_reflect. apply bind_ok in H as (expires & He & H).
  destruct (BigInt expires <? BigInt consumed) eqn:El; [injection H as <- <-; by left|].
  bool_reflect. apply bind_ok in H as (token & Ht & H). apply bind_ok in H as (text & Htext & H).
  injection H as <- <-. right. split; [done|]. exists i, d, r, consumed, expires, text.
  do 8 (split; [done|]). split; [|apply put_docs; eauto].
  unfold numberToken in Ht. apply bind_ok in Ht as (s & Hs & [= <-]).
  enough (s = consumed) as -> by done.
  unfold decimal in Hs. cbv zeta in Hs. by destruct (_ || _); [|injection Hs].
Qed.

Lemma put_immutable_inv t kind a v t' :
  immutable_kind kind → put_immutable t kind a = Ok (v, t') →
  t' = t ∨ ∃ text r, writeRecord t kind text None false = Ok (r, t') ∧
    ∃ w key, json (VString text) = Ok w ∧ recordKey kind w = Ok key ∧ getRecord t kind key = Ok None.
Proof.
  intros Hk. unfold put_immutable. cbv zeta. intros H. apply bind_ok in H as (incoming & Hj & H).
  apply bind_ok in H as (key & Hkey & H). apply bind_ok in H as (old & Ho & H).
  apply bind_ok in H as (t1 & Hw & H). assert (t1 = t') as ->.
  { apply bind_ok in H as (stored & _ & H). destruct (bool_decide _); [|by injection H].
    apply bind_ok in H as (? & _ & H). apply bind_ok in H as (? & _ & H). by injection H. }
  destruct old as [[i d]|]; [injection Hw as <-; by left|].
  apply bind_ok in Hw as (text & Ht & Hw). apply bind_ok in Hw as ([r t2] & Hw & [= <-]).
  right. exists text, r. split; [done|]. apply string_of_ok in Ht as [Ht _]. rewrite Ht in Hj.
  exists incoming, key. split; [done|]. split; [|done]. clear -Hkey Hk.
  unfold immutable_kind in Hk. rewrite !elem_of_cons, elem_of_nil in Hk.
  by destruct Hk as [->|[->|[->|[]]]].
Qed.

Lemma records_step_wf t t' :
  records_unique (docs t) ∧ stamped (docs t) → records_step t t' →
  records_unique (docs t') ∧ stamped (docs t').
Proof.
  intros [Hu Hs] H. destruct H as [|kind a r t' H|kind a v t' Hk H|a v t' H|kind text r t' _ H|a b t' H].
  - done.
  - split; [by eapply put_card_record_unique | by eapply put_card_record_stamped].
  - apply put_immutable_inv in H as [->|(text & r & H & _)]; [done| |done].
    split; [by eapply writeRecord_unique | by eapply writeRecord_stamped].
  - apply put_crossmint_proof_inv in H as [->|(i & d & prior & text & now & src & Hi & _ & _ & _ & Hn & ->)]; [done|].
    split; [by eapply records_unique_patch | by apply stamped_put].
  - split; [by eapply writeRecord_unique | by eapply writeRecord_stamped].
  - apply consume_challenge_inv in H as (key & old & _ & _ & [[_ ->]|(_ & i & d & v & c & e & text & _ & Hi & _ & _ & _ & _ & _ & _ & _ & ->)]);
      [done|]. split; [by eapply records_unique_patch | apply stamped_put; [done|exact (Hs i d Hi)]].
Qed.

(** A record a put meets under its key and replaces was not final. *)
Lemma put_replaces_not_final kind d updated v w :
  put_kind kind → d.(Doc.kind) = kind → merge kind d updated v = Ok (Write w) → ¬ final d.
Proof.
  intros Hk Hd H. unfold final. rewrite Hd.
  pose proof (merge_write _ _ _ _ _ H) as (_ & prior & Hp & Hs & _).
  unfold put_kind in Hk. rewrite !elem_of_cons, elem_of_nil in Hk.
  destruct Hk as [->|[->|[->|[->|[->|[->|[]]]]]]].
  - destruct (Hs eq_refl) as [Ht _]. intros (v' & Hv & Hst). assert (v' = prior) as -> by congruence.
    unfold is_terminal in Ht. rewrite bool_decide_eq_false_2 in Ht by done. congruence.
  - destruct (Hs eq_refl) as [Ht _]. intros (v' & Hv & Hst). assert (v' = prior) as -> by congruence.
    unfold is_terminal in Ht. rewrite bool_decide_eq_false_2 in Ht by done. congruence.
  - destruct (Hs eq_refl) as [Ht _]. intros (v' & Hv & Hst & _). assert (v' = prior) as -> by congruence.
    unfold is_terminal in Ht. rewrite bool_decide_eq_true_2, Hst in Ht by done. done.
  - exfalso. unfold merge in H. apply bind_ok in H as (? & _ & H). cbv zeta in H.
    rewrite bool_decide_eq_false_2, bool_decide_eq_true_2 in H by done. done.
  - by intros [].
  - exfalso. unfold merge in H. apply bind_ok in H as (? & _ & H). cbv zeta in H.
    by rewrite bool_decide_eq_true_2 in H by done.
Qed.

Lemma writeRecord_final t kind text r t' i d :
  docs t !! i = Some d → final d → put_kind kind ∨
    (∃ w key, json (VString text) = Ok w ∧ recordKey kind w = Ok key ∧ getRecord t kind key = Ok None) →
  writeRecord t kind text None false = Ok (r, t') → docs t' !! i = Some d.
Proof.
  intros Hi Hf Hkind H. apply writeRecord_inv in H as (v & fields & old & Hv & Hm & Ho & _ & Hcases).
  destruct Hcases as [(-> & _)|(w & fin & txt & source & Hw & _ & _ & _ & -> & _)]; [done|].
  destruct (store_doc_docs t (fst <$> old) (with_text fin txt source)) as (j & -> & Hj).
  { intros k. by eapply getRecord_exists. }
  rewrite lookup_insert_ne; [done|]. intros ->. destruct old as [[k e]|]; simpl in Hj; [subst k|congruence].
  apply getRecord_some in Ho as [He Hid]. assert (e = d) as -> by congruence.
  assert (d.(Doc.kind) = kind ∧ d.(Doc.key) = Doc.key fields) as [Hdk Hdkey] by (unfold id_of in Hid; split; congruence).
  destruct Hkind as [Hput|(w' & key & Hw' & Hkey & Hnone)].
  - by eapply put_replaces_not_final.
  - assert (w' = v) as -> by congruence. apply metadata_ok in Hm as (_ & Hkey' & _).
    assert (key = Doc.key fields) as -> by congruence.
    pose proof (getRecord_only _ _ _ _ Hnone i d _ eq_refl Hi) as Hno. simpl in Hno.
    by discriminate Hno.
Qed.

Lemma card_kind_not_final d kind : d.(Doc.kind) = CardKind.to_kind kind → ¬ final d.
Proof. unfold final. intros ->. destruct kind; intros []. Qed.

Lemma records_step_final t t' i d :
  records_step t t' → docs t !! i = Some d → final d → docs t' !! i = Some d.
Proof.
  intros H Hi Hf. destruct H as [|kind a r t' H|kind a v t' Hk H|a v t' H|kind text r t' Hk H|a b t' H].
  - done.
  - destruct (decide (d.(Doc.kind) = CardKind.to_kind kind)) as [E|E].
    + by apply card_kind_not_final in E.
    + by eapply put_card_record_other.
  - apply put_immutable_inv in H as [->|(text & r & H & Hnew)]; [done| |done]. eapply writeRecord_final; eauto.
  - apply put_crossmint_proof_inv in H as [->|(j & e & prior & text & now & src & Hj & Hk & Hp & Hc & _ & ->)]; [done|].
    rewrite lookup_insert_ne; [done|]. intros ->. assert (e = d) as -> by congruence.
    unfold final in Hf. rewrite Hk in Hf. destruct Hf as (v' & Hv & _ & Hno). congruence.
  - eapply writeRecord_final; eauto.
  - apply consume_challenge_inv in H as (key & old & _ & _ & [[_ ->]|(_ & j & e & v & c & ex & text & _ & Hj & Hid & Hp & Hn & _ & _ & _ & _ & ->)]); [done|].
    rewrite lookup_insert_ne; [done|]. intros ->. assert (e = d) as -> by congruence.
    unfold final in Hf. unfold id_of in Hid. injection Hid as Hk _. rewrite Hk in Hf.
    specialize (Hf _ Hp). congruence.
Qed.

(** A consumed challenge reads as consumed. *)
Lemma consumed_reads `{CS : !CodecSpec C} v expires token text w :
  decimal (get v "expires_at_ms") = Ok expires → decimal_pattern (String.length token) token = true →
  encode (set v "consumed_at_ms" (VLossless token)) = Ok text → json (VString text) = Ok w →
  nullish (get w "consumed_at_ms") = false.
Proof.
  intros He Htok Hs Hw. destruct v as [| | | | | | |fields]; try done.
  apply encode_ok in Hs. simpl in Hs.
  destruct (token_kept _ "consumed_at_ms" token text (field_set _ _ _) Htok Hs) as (w' & Hp & Hg).
  unfold json, jsonValue in Hw. destruct (700000 <? _); [done|]. rewrite Hp in Hw. simpl in Hw.
  assert (w = w') as -> by (by destruct w'; first [done | injection Hw as <-]). by rewrite Hg.
Qed.
End RecordSteps.

(** ** Sequences of calls *)

(** A call of either service that returned, with its answer.  A call that throws
    changes nothing and is left out. *)
Module Call.
Record t : Type := mk { env : Env.t; role : Role; op : string; args : value; reply : Reply }.
End Call.

Inductive runs `{C : Codec, B : Db} {Pet} (petOperation : string → value → Pet → result (value * Pet))
    : list Call.t → Storage.t Pet → Storage.t Pet → Prop :=
| runs_nil s : runs petOperation [] s s
| runs_cons e role op a r cs s s1 s2 :
    execute petOperation e s role op a = Ok (r, s1) → runs petOperation cs s1 s2 →
    runs petOperation (Call.mk e role op a r :: cs) s s2.

Section Runs.
Context `{C : Codec, B : Db, BS : !DbSpec B} {Pet : Type}.
Context (petOperation : string → value → Pet → result (value * Pet)).

Lemma claim_inv t a v t' :
  claim_operation t a = Ok (v, t') →
  ∃ key old, get a "id" = VString key ∧ by_column OperationClaim.key t key = Ok old ∧
    match old with
    | Some (_, c) => v = claim_reply false c ∧ t' = t
    | None => ∃ c, v = claim_reply true c ∧ t' = (insert_doc c t).2 ∧ c.(OperationClaim.key) = key ∧
        get a "owner" = VString c.(OperationClaim.owner) ∧
        get a "intent_json" = VString c.(OperationClaim.intent_json) ∧
        get a "initial_json" = VString c.(OperationClaim.initial_json)
    end.
Proof.
  unfold claim_operation. intros H. apply bind_ok in H as (key & Hk & H). apply string_of_ok in Hk as [Hk _].
  apply bind_ok in H as (old & Ho & H). exists key, old. split; [done|]. split; [done|].
  destruct old as [[i c]|]; [by injection H as <- <-|].
  apply bind_ok in H as (owner & H1 & H). apply bind_ok in H as (intent & H2 & H).
  apply bind_ok in H as (initial & H3 & H). do 2 apply bind_ok in H as (? & _ & H). injection H as <- <-.
  apply string_of_ok in H1 as [H1 _], H2 as [H2 _], H3 as [H3 _]. by eexists.
Qed.

(** [put_auth] stores under its key; [get_auth] at most deletes there. *)
Lemma put_auth_inv t a v t' :
  put_auth t a = Ok (v, t') → ∃ key old d, get a "key" = VString key ∧
    by_column OwnerAuth.key t key = Ok old ∧ d.(OwnerAuth.key) = key ∧ t' = store_doc t (fst <$> old) d.
Proof.
  unfold put_auth. intros H. apply bind_ok in H as (key & Hk & H). apply string_of_ok in Hk as [Hk _].
  apply bind_ok in H as (old & Ho & H). do 3 apply bind_ok in H as (? & _ & H). injection H as _ <-.
  exists key, old. destruct old as [[i d]|]; (eexists; split; [done|]; split; [done|]; split; [|reflexivity]; done).
Qed.

Lemma get_auth_inv t a v t' :
  get_auth t a = Ok (v, t') → ∃ key old, get a "key" = VString key ∧ by_column OwnerAuth.key t key = Ok old ∧
    (t' = t ∨ ∃ i d, old = Some (i, d) ∧ get a "consume" = VBool true ∧ t' = delete_doc i t).
Proof.
  unfold get_auth. intros H. apply bind_ok in H as (key & Hk & H). apply string_of_ok in Hk as [Hk _].
  apply bind_ok in H as (old & Ho & H). exists key, old. split; [done|]. split; [done|].
  destruct (get a "consume") as [| |consume| | | | |]; try done.
  destruct old as [[i d]|]; [|injection H as _ <-; by left].
  apply bind_ok in H as (now & _ & H). destruct (str_leb _ now); [injection H as _ <-; by left|].
  injection H as _ <-. destruct consume; [right; by exists i, d | by left].
Qed.

Lemma append_inv t a m t' :
  mcp_appendInboxMessage t a = Ok (m, t') →
  ∃ d, by_column InboxMessage.id t d.(InboxMessage.id) = Ok None ∧ t' = (insert_doc d t).2.
Proof.
  unfold mcp_appendInboxMessage. cbv zeta. intros H. do 2 apply bind_ok in H as (? & _ & H).
  apply bind_ok in H as (id & Hid & H). apply bind_ok in H as (old & Ho & H).
  apply bind_ok in H as ([] & Hr & H). apply reject_ok in Hr. destruct old; [done|].
  apply bind_ok in H as (d & Hd & H). injection H as _ <-. exists d. split; [|done].
  enough (d.(InboxMessage.id) = id) as -> by done. apply string_of_ok in Hid as [Hid _].
  unfold message_of in Hd. rewrite Hid in Hd. inv_ok Hd.
  match goal with E : schema_string (VString _) = Ok _ |- _ => injection E as <- end. by subst d.
Qed.

Lemma putFlow_inv clock t a v t' :
  mcp_putFlow clock t a = Ok (v, t') → ∃ old record w,
    by_column Flow.flowId t record.(Flow.flowId) = Ok old ∧ get a "flowId" = VString record.(Flow.flowId) ∧
    json (VString record.(Flow.record_json)) = Ok w ∧
    (∀ i f, old = Some (i, f) → f.(Flow.wallet) = record.(Flow.wallet)) ∧
    flow_conflict clock old record w (get a "expectedUpdatedAt") = Ok false ∧
    t' = store_doc t (fst <$> old) record.
Proof.
  unfold mcp_putFlow. intros H. apply bind_ok in H as (flowId & Hid & H). apply string_of_ok in Hid as [Hid _].
  apply bind_ok in H as (old & Ho & H). apply bind_ok in H as (wallet & _ & H).
  apply bind_ok in H as (text & _ & H). apply bind_ok in H as (expires & _ & H). cbv zeta in H.
  apply bind_ok in H as (w & Hw & H). apply bind_ok in H as (? & _ & H).
  apply bind_ok in H as ([] & Hr & H). apply bind_ok in H as (conflict & Hc & H).
  apply bind_ok in H as ([] & Hrc & H). injection H as _ <-.
  apply reject_ok in Hr, Hrc. subst conflict.
  exists old, (Flow.mk flowId wallet text expires), w. do 3 (split; [done|]). split; [|done].
  intros i f ->. by bool_reflect.
Qed.

Lemma change_wf e op a (s s' : Storage.t Pet) : storage_wf s → change e op a s s' → storage_wf s'.
Proof.
  intros [] [Hr Ho Hc Ha Hn Hi Hl Hf].
  destruct (records_step_wf _ _ (conj wf_records0 wf_stamps0) Hr) as [Hu Hst].
  split; try done.
  - destruct Ho as [->|[l Ho]]; [done|]. by destruct (webhook_step_ok _ _ _ wf_outbox0 Ho).
  - destruct Hc as [->|[v Hc]]; [done|]. apply claim_inv in Hc as (key & old & _ & Hold & Hc).
    destruct old as [[i c]|]; [by destruct Hc as [_ ->]|]. destruct Hc as (c & _ & -> & <- & _). by apply insert_key.
  - destruct Ha as [->|[(_ & v & Ha)|[v Ha]]]; [done| |].
    + apply put_auth_inv in Ha as (key & old & d & _ & Hold & <- & ->). by apply store_key.
    + apply get_auth_inv in Ha as (key & old & _ & _ & [->|(i & d & _ & _ & ->)]); [done|].
      rewrite delete_docs. by apply unique_on_delete.
  - eapply connections_step_key; eauto.
  - eapply connections_step_key; eauto.
  - destruct Hi as [->|[m Hi]]; [done|]. apply append_inv in Hi as (d & Hd & ->). by apply insert_key.
  - destruct Hl as [->|(key & now & maximum & window & b & Hl)]; [done|]. by eapply rate_key.
  - destruct Hf as [->|[v Hf]]; [done|].
    apply putFlow_inv in Hf as (old & record & w & Hold & _ & _ & _ & _ & ->). by apply store_key.
Qed.

(** A predicate every change keeps holds after any run. *)
Lemma runs_keep (P : Storage.t Pet → Prop) cs s s' :
  (∀ e op a s s', storage_wf s → change e op a s s' → P s → P s') →
  runs petOperation cs s s' → storage_wf s → P s → storage_wf s' ∧ P s'.
Proof.
  intros Hstep H. induction H as [|e role op a r cs s s1 s2 He _ IH]; intros Hw HP; [done|].
  apply execute_change in He. apply IH; [by eapply change_wf | by eapply Hstep].
Qed.

Lemma runs_wf cs s s' : runs petOperation cs s s' → storage_wf s → storage_wf s'.
Proof. intros H Hw. by destruct (runs_keep (λ _, True) cs s s' ltac:(done) H Hw I). Qed.
End Runs.
