(* ===== verification/StorageProps.v ===== *)
(** * What the storage dispatcher guarantees

    Properties of sequences of [execute] calls by both services, in any order. *)
From Stdlib Require Import ZArith Lia Strings.Ascii Sorting.Sorted.
From stdpp Require Import base numbers strings list fin_maps gmap.
From S2P Require Import Prelude Bytes PublicKey CardConstants Decimal Store Values Records CardRecords Webhooks WebhookRuns Storage StorageRuns.

Section Calls.
Context `{C : Codec, B : Db} {Pet : Type} (petOperation : string → value → Pet → result (value * Pet)).

Lemma execute_operation e (s : Storage.t Pet) role op a r :
  execute petOperation e s role op a = Ok r → operation petOperation e s op a = Ok r.
Proof. unfold execute. cbv zeta. intros H. by do 3 apply bind_ok in H as (? & _ & H). Qed.

(** The operations the properties name, as calls of their components. *)
Ltac run_op H r :=
  apply execute_operation in H; match type of H with _ = ?y => change (r = y) in H end; apply writes_ok in H.

Lemma execute_claim e (s : Storage.t Pet) role a r s' :
  execute petOperation e s role "claim_operation" a = Ok (r, s') →
  ∃ v t, claim_operation s.(Storage.operation_claims) a = Ok (v, t) ∧ s' = with_claims s t ∧ r = Answer v.
Proof. intros H. by run_op H (writes (with_claims s) Answer (claim_operation s.(Storage.operation_claims) a)). Qed.

Lemma execute_get_auth e (s : Storage.t Pet) role a r s' :
  execute petOperation e s role "get_auth" a = Ok (r, s') →
  ∃ v t, get_auth s.(Storage.owner_auth) a = Ok (v, t) ∧ s' = with_auth s t ∧ r = Answer v.
Proof. intros H. by run_op H (writes (with_auth s) Answer (get_auth s.(Storage.owner_auth) a)). Qed.

Lemma execute_consume e (s : Storage.t Pet) role a r s' :
  execute petOperation e s role "consume_managed_signer_challenge" a = Ok (r, s') →
  ∃ b t, consume_managed_signer_challenge s.(Storage.records) a = Ok (b, t) ∧ s' = with_records s t ∧
    r = Answer (VBool b).
Proof.
  intros H. by run_op H (writes (with_records s) bool_answer (consume_managed_signer_challenge s.(Storage.records) a)).
Qed.

Lemma execute_revoke e (s : Storage.t Pet) role a r s' :
  execute petOperation e s role "mcp.revoke" a = Ok (r, s') →
  ∃ b t, mcp_revoke s.(Storage.agent_connections) a = Ok (b, t) ∧ s' = with_connections s t ∧ r = Answer (VBool b).
Proof.
  intros H. by run_op H (writes (with_connections s) bool_answer (mcp_revoke s.(Storage.agent_connections) a)).
Qed.

Lemma execute_put_payment e (s : Storage.t Pet) role a r s' :
  execute petOperation e s role "put_payment" a = Ok (r, s') →
  ∃ v t o, put_record s.(Storage.records) s.(Storage.outbox) "put_payment" RecordKind.payments "record_json" a
      = Ok (v, t, o) ∧ s' = with_outbox (with_records s t) o ∧ r = Answer v.
Proof.
  intros H%execute_operation.
  change (put_operation s "put_payment" RecordKind.payments "record_json" a = Ok (r, s')) in H.
  unfold put_operation, result_map in H. destruct (put_record _ _ _ _ _ _) as [[[v t] o]|]; [|done].
  injection H as <- <-. by exists v, t, o.
Qed.
End Calls.

(** ** Tables across a run *)

Section Tables.
Context `{C : Codec, B : Db, BS : !DbSpec B} {Pet : Type}.
Context (petOperation : string → value → Pet → result (value * Pet)).
Abbreviation Runs := (runs petOperation).

Lemma getRecord_found t i d :
  records_unique (docs t) → docs t !! i = Some d → getRecord t d.(Doc.kind) d.(Doc.key) = Ok (Some (i, d)).
Proof.
  intros Hu Hi. unfold getRecord.
  destruct (unique_query (by_kind_key (Doc.kind d) (Doc.key d)) unordered t) as [(j & e & E & Hj & Hp)|[_ Hn]].
  - intros a b x y Ha Hb Hx Hy. apply by_kind_key_spec in Hx, Hy. by eapply (unique_id _ Hu).
  - apply by_kind_key_spec in Hp. assert (j = i) as -> by (by eapply (unique_id _ Hu)).
    rewrite E. rewrite Hi in Hj. by injection Hj as ->.
  - pose proof (Hn i d Hi) as Hf. by rewrite (proj2 (by_kind_key_spec _ _ d) eq_refl) in Hf.
Qed.

Lemma runs_final cs s s' i d :
  Runs cs s s' → docs s.(Storage.records) !! i = Some d → final d → docs s'.(Storage.records) !! i = Some d.
Proof.
  intros H. induction H as [|e role op a r cs s s1 s2 He _ IH]; intros Hi Hf; [done|].
  apply execute_change in He. apply IH; [|done]. eapply records_step_final; [apply He|done..].
Qed.

Lemma final_stays cs s s' kind key i d :
  storage_wf s → Runs cs s s' → getRecord s.(Storage.records) kind key = Ok (Some (i, d)) → final d →
  getRecord s'.(Storage.records) kind key = Ok (Some (i, d)).
Proof.
  intros Hw H Hg Hf. apply getRecord_some in Hg as [Hi Hid]. unfold id_of in Hid. injection Hid as <- <-.
  apply getRecord_found; [by eapply wf_records, runs_wf|]. by eapply runs_final.
Qed.

Lemma runs_claims cs s s' i c :
  Runs cs s s' → docs s.(Storage.operation_claims) !! i = Some c →
  docs s'.(Storage.operation_claims) !! i = Some c.
Proof.
  intros H. induction H as [|e role op a r cs s s1 s2 He _ IH]; intros Hi; [done|].
  apply IH. apply execute_change in He as [_ _ Hc _ _ _ _ _]. destruct Hc as [->|[v Hc]]; [done|].
  apply claim_inv in Hc as (key & old & _ & _ & Hc). destruct old as [[j d]|]; [by destruct Hc as [_ ->]|].
  destruct Hc as (d & _ & -> & _). rewrite insert_docs, lookup_insert_ne; [done|].
  intros E. pose proof (insert_fresh _ d (Storage.operation_claims s)). congruence.
Qed.

(** Nothing but [put_auth] puts a key into [owner_auth]. *)
Lemma runs_auth_absent cs s s' key :
  Runs cs s s' → Forall (λ c, c.(Call.op) = "put_auth" → get c.(Call.args) "key" ≠ VString key) cs →
  (∀ i d, docs s.(Storage.owner_auth) !! i = Some d → d.(OwnerAuth.key) ≠ key) →
  ∀ i d, docs s'.(Storage.owner_auth) !! i = Some d → d.(OwnerAuth.key) ≠ key.
Proof.
  intros H. induction H as [|e role op a r cs s s1 s2 He _ IH]; intros Hcs Hno; [done|].
  apply Forall_cons in Hcs as [Hc Hcs]. apply IH; [done|]. simpl in Hc.
  apply execute_change in He as [_ _ _ Ha _ _ _ _]. destruct Ha as [->|[(-> & v & Ha)|[v Ha]]]; [done| |].
  - apply put_auth_inv in Ha as (k & old & d & Hk & Ho & Hd & ->).
    destruct (store_doc_docs (Storage.owner_auth s) (fst <$> old) d) as (j & -> & _).
    { intros i Hi. destruct old as [[l x]|]; [|done]. injection Hi as <-. apply by_column_some in Ho as [-> _]. done. }
    intros i x. rewrite lookup_insert_Some. intros [[<- <-]|[_ Hx]]; [|by eapply Hno].
    rewrite Hd. intros ->. by apply (Hc eq_refl).
  - apply get_auth_inv in Ha as (k & old & _ & _ & [->|(j & d & _ & _ & ->)]); [done|].
    intros i x. rewrite delete_docs, lookup_delete_Some. intros [_ Hx]. by eapply Hno.
Qed.

(** A revoked connection keeps its token and stays revoked. *)
Lemma runs_revoked cs s s' i r :
  Runs cs s s' → docs s.(Storage.agent_connections) !! i = Some r → revoked r = true →
  docs s'.(Storage.agent_connections) !! i = Some r.
Proof.
  intros H. induction H as [|e role op a x cs s s1 s2 He _ IH]; intros Hi Hr; [done|].
  apply IH; [|done]. apply execute_change in He as [_ _ _ _ Hc _ _ _].
  apply connections_step_inv in Hc as [->|[(j & d & d' & Hj & -> & _ & _ & _ & Hd)|(j & d & Hj & -> & _)]]; [done| |].
  - rewrite lookup_insert_ne; [done|]. intros ->. congruence.
  - rewrite lookup_insert_ne; [done|]. intros ->. congruence.
Qed.

Lemma live_connection_revoked t a i r x :
  unique_key Connection.tokenHash (docs t) → docs t !! i = Some r → revoked r = true →
  get a "hash" = VString r.(Connection.tokenHash) → live_connection t a = Ok x → x = None.
Proof.
  intros Hu Hi Hr Ha H. unfold live_connection in H. rewrite Ha in H.
  apply bind_ok in H as (hash & Hh & H). apply string_of_ok in Hh as [[= <-] _].
  rewrite (by_column_found Connection.tokenHash t i r Hu Hi) in H. cbn [bind] in H. rewrite Hr in H. by injection H as <-.
Qed.

Lemma revoke_inv t a t' :
  mcp_revoke t a = Ok (true, t') →
  ∃ i c c', docs t !! i = Some c ∧ get a "id" = VString c.(Connection.id) ∧ docs t' = <[i := c']> (docs t) ∧
    revoked c' = true ∧ c'.(Connection.tokenHash) = c.(Connection.tokenHash).
Proof.
  unfold mcp_revoke. intros H. apply bind_ok in H as (id & Hid & H). apply string_of_ok in Hid as [Hid _].
  apply bind_ok in H as (found & Hf & H). destruct found as [[i c]|]; [|done].
  apply by_column_some in Hf as [Hi <-]. apply bind_ok in H as (wallet & _ & H).
  destruct (_ || _); [done|]. apply bind_ok in H as (source & _ & H). apply bind_ok in H as (now & Hn & H).
  apply string_of_ok in Hn as [_ Hn]. apply bind_ok in H as (? & _ & H). injection H as <-.
  eexists i, c, _. split; [done|]. split; [done|]. split; [apply put_docs; eauto|]. split; [|done].
  unfold revoked. simpl. by rewrite bool_decide_eq_false_2.
Qed.

(** After a put of a payment, a record is stored under its id. *)
Lemma payment_stored t txt w t' record key :
  records_unique (docs t) → writeRecord t RecordKind.payments txt None false = Ok (w, t') →
  json (VString txt) = Ok record → get record "payment_id" = VString key →
  ∃ i d, getRecord t' RecordKind.payments key = Ok (Some (i, d)).
Proof.
  intros Hu H Hj Hk. pose proof (writeRecord_unique _ _ _ _ _ _ _ Hu H) as Hu'.
  apply writeRecord_inv in H as (v & fields & old & Hv & Hm & Ho & _ & Hcases).
  assert (v = record) as -> by congruence. apply metadata_ok in Hm as (_ & Hkey & _).
  simpl in Hkey. rewrite Hk in Hkey. apply string_of_ok in Hkey as [Hkey _]. injection Hkey as Hkey. subst key.
  destruct Hcases as [(-> & _ & i & d & -> & _)|(x & fin & txt' & source & _ & _ & _ & _ & -> & _ & Hfk & Hfkey)]; [by exists i, d|].
  destruct (store_doc_docs t (fst <$> old) (with_text fin txt' source)) as (i & Hdocs & _).
  { intros k. by eapply getRecord_exists. }
  exists i, (with_text fin txt' source).
  assert (docs (store_doc t (fst <$> old) (with_text fin txt' source)) !! i = Some (with_text fin txt' source)) as Hi
    by (by rewrite Hdocs, lookup_insert_eq).
  pose proof (getRecord_found _ _ _ Hu' Hi) as Hg. simpl in Hg. by rewrite Hfk, Hfkey in Hg.
Qed.

(** Every event emitted is in the outbox afterwards. *)
Lemma emitEvent_makes_known o event b o' : outbox_wf o → emitEvent o event = Ok (b, o') → known_event o' event.
Proof.
  intros Hw H. destruct b.
  - destruct (emitEvent_new _ _ _ Hw H) as (_ & _ & _ & (i & _ & Hd) & _).
    exists i, event. rewrite Hd, lookup_insert_eq. auto.
  - apply bind_ok in H as (known & Hk & H). destruct known as [[i x]|].
    + injection H as <-. apply unique_some in Hk as [Hi Hx]. bool_reflect. exists i, x. auto.
    + destruct (query (same_receipt event) unordered (Outbox.events o)) as [|[i x] rows] eqn:Eq.
      * by apply bind_ok in H as (? & _ & [=]).
      * injection H as <-. assert ((i, x) ∈ query (same_receipt event) unordered (Outbox.events o)) as Hin
          by (rewrite Eq; by left).
        apply query_elem in Hin as [Hi Hx]. apply same_receipt_spec in Hx. exists i, x. auto.
Qed.

Lemma known_event_evolves l o o' event : evolves l o o' → known_event o event → known_event o' event.
Proof. intros [He _ _] (i & x & Hi & Hx). exists i, x. auto. Qed.

Lemma emit_all_known events : ∀ o n o' event,
  outbox_wf o → emit_all o events = Ok (n, o') → event ∈ events → known_event o' event.
Proof.
  induction events as [|x events IH]; intros o n o' event Hw H Hin; [by apply elem_of_nil in Hin|].
  cbn [emit_all] in H. apply bind_ok in H as ([made o1] & He & H). apply bind_ok in H as ([k o2] & Ha & H).
  injection H as _ <-. destruct (emitEvent_step _ _ _ _ Hw He) as [Hw1 _].
  apply elem_of_cons in Hin as [->|Hin]; [|by eapply IH].
  destruct (emit_all_step _ _ _ _ Hw1 Ha) as [_ Hev]. eapply known_event_evolves; [exact Hev|].
  exact (emitEvent_makes_known _ _ _ _ Hw He).
Qed.
End Tables.

(** ** Reading and roles *)

Section Dispatch.
Context `{C : Codec, B : Db} {Pet : Type} (petOperation : string → value → Pet → result (value * Pet)).

(** One test of a dispatcher, with the operation's name in the context. *)
Ltac next_op H :=
  match type of H with
  | (if bool_decide (?op = ?x) then _ else _) = _ => destruct (decide (op = x)) as [->|];
      [rewrite bool_decide_eq_true_2 in H by done | rewrite bool_decide_eq_false_2 in H by done]
  end.

(** A read that is not one by its name *)
Ltac not_read := match goal with Hr : isRead _ _ = true |- _ => vm_compute in Hr; discriminate Hr end.

Lemma cardOperation_reads t op a r t' :
  isRead op a = true → cardOperation t op a = Ok (r, t') → t' = t.
Proof.
  unfold cardOperation. intros Hr H. apply bind_ok in H as (kind & _ & H). cbv zeta in H.
  repeat next_op H; try done; try not_read.
  all: unfold result_map in H; match type of H with match ?r with _ => _ end = _ => destruct r end; congruence.
Qed.

Lemma webhookOperation_reads t o op a r o' :
  isRead op a = true → webhookOperation t o op a = Ok (r, o') → o' = o.
Proof.
  unfold webhookOperation. intros Hr H. cbv zeta in H.
  repeat next_op H; try done; try not_read.
  all: unfold result_map in H; match type of H with match ?r with _ => _ end = _ => destruct r end; congruence.
Qed.

Lemma get_auth_reads t a v t' :
  strict_eq (get a "consume") (VBool false) = true → get_auth t a = Ok (v, t') → t' = t.
Proof.
  intros Hc H. apply get_auth_inv in H as (key & old & _ & _ & [->|(i & d & _ & Hc' & _)]); [done|].
  by rewrite Hc' in Hc.
Qed.

Lemma read_not_pet op a : isRead op a = true → String.prefix "pet." op = false.
Proof.
  unfold isRead. intros [H|H]%orb_true_iff; bool_reflect; [|by subst].
  assert (forallb (λ x, negb (String.prefix "pet." x)) readOperations = true) as Hall by (vm_compute; reflexivity).
  rewrite forallb_forall in Hall. apply list_elem_of_In, Hall in H. by bool_reflect.
Qed.

Lemma read_not_put op a : isRead op a = true → puts op = None.
Proof. unfold puts. intros Hr. repeat (case_bool_decide; [subst; not_read|]). done. Qed.

Lemma operation_reads e (s : Storage.t Pet) op a r s' :
  isRead op a = true → operation petOperation e s op a = Ok (r, s') → s' = s.
Proof.
  unfold operation. intros Hr H. cbv zeta in H. rewrite (read_not_pet _ _ Hr), (read_not_put _ _ Hr) in H.
  repeat match type of H with
  | (if bool_decide (op ∈ cardOperations) then _ else _) = _ => destruct (bool_decide (op ∈ cardOperations))
  | (if bool_decide (op ∈ webhookOperations) then _ else _) = _ => destruct (bool_decide (op ∈ webhookOperations))
  | _ => next_op H
  end; try done; try not_read.
  all: try (by apply reads_ok in H as [-> _]).
  - by injection H as _ <-.
  - apply writes_ok in H as (v & t & H & -> & _). apply (cardOperation_reads _ _ _ _ _ Hr) in H as ->. by destruct s.
  - apply writes_ok in H as (v & t & H & -> & _). apply (webhookOperation_reads _ _ _ _ _ _ Hr) in H as ->. by destruct s.
  - apply writes_ok in H as (v & t & H & -> & _). apply get_auth_reads in H as ->; [by destruct s|]. exact Hr.
Qed.

Lemma execute_guards e (s : Storage.t Pet) role op a x :
  execute petOperation e s role op a = Ok x →
  op ∈ (match role with backend => backendOperations | mcp => mcpOperations end) ∧
  (e.(Env.maintenance) = true → isRead op a = true).
Proof.
  unfold execute. cbv zeta. intros H. apply bind_ok in H as ([] & H1 & H). apply bind_ok in H as (? & _ & H).
  apply bind_ok in H as ([] & H2 & _). apply reject_ok in H1, H2. bool_reflect. split; [done|].
  intros Hm. rewrite Hm in H2. simpl in H2. by bool_reflect.
Qed.
End Dispatch.

(** ** Payment cards *)

(** A later version of the same payment card *)
Definition card_after `{C : Codec} (f f' : Flow.t) : Prop :=
  ∃ p p' created before after,
    json (VString f.(Flow.record_json)) = Ok p ∧ json (VString f'.(Flow.record_json)) = Ok p' ∧
    get p' "paymentId" = get p "paymentId" ∧
    safeNumber (get p "createdAt") = Ok created ∧ safeNumber (get p' "createdAt") = Ok created ∧
    safeNumber (get p "updatedAt") = Ok before ∧ safeNumber (get p' "updatedAt") = Ok after ∧ before < after.

Section Flows.
Context `{C : Codec, B : Db, BS : !DbSpec B}.

Lemma strict_eq_eq a b : strict_eq a b = true → a = b.
Proof.
  destruct a as [| |x|[]| | | |], b as [| |y|[]| | | |]; simpl; try done; intros H; bool_reflect.
  - by destruct x, y.
  - by subst.
  - by simplify_eq.
  - f_equal. f_equal. by destruct positive, positive0.
  - by subst.
Qed.

Lemma card_after_trans f g h : card_after f g → card_after g h → card_after f h.
Proof.
  intros (p & p' & c & u & v & H1 & H2 & H3 & H4 & H5 & H6 & H7 & H8)
    (q & q' & c' & u' & v' & K1 & K2 & K3 & K4 & K5 & K6 & K7 & K8).
  assert (q = p') as -> by congruence. exists p, q', c, u, v'. repeat split; try done; try congruence.
  assert (u' = v) by congruence. lia.
Qed.

Lemma flow_update clock i f record w expected :
  json (VString record.(Flow.record_json)) = Ok w →
  flow_conflict clock (Some (i, f)) record w expected = Ok false →
  record.(Flow.expires) = f.(Flow.expires) ∧ card_after f record.
Proof.
  intros Hw. unfold flow_conflict.
  enough (∀ r, (let! expected := safeNumber expected in r expected) = Ok false →
    (∀ x, r x = Ok false → record.(Flow.expires) = f.(Flow.expires) ∧ card_after f record) →
    record.(Flow.expires) = f.(Flow.expires) ∧ card_after f record) as Hgo.
  { intros H. destruct expected; try done; (eapply Hgo; [exact H|]); clear H; intros x H; cbv beta in H.
    all: apply bind_ok in H as (p & Hp & H); destruct (_ || _) eqn:E in H; [done|]; bool_reflect.
    all: apply bind_ok in H as (u & Hu & H); destruct (negb (u =? x)) eqn:Ex; [done|]; bool_reflect.
    all: apply bind_ok in H as (v & Hv & H); destruct (v <=? x) eqn:Ev; [done|]; bool_reflect.
    all: apply bind_ok in H as (c & Hc & H); apply bind_ok in H as (c' & Hc' & H); injection H as H; bool_reflect.
    all: split; [done|]; exists p, w, c, u, v; subst; repeat split; try done; symmetry; by apply strict_eq_eq. }
  intros r H Hr. apply bind_ok in H as (x & _ & H). by apply Hr in H.
Qed.

(** A call keeps every card, or moves it forward. *)
Lemma putFlow_step clock t a v t' i f :
  unique_key Flow.flowId (docs t) → mcp_putFlow clock t a = Ok (v, t') → docs t !! i = Some f →
  ∃ f', docs t' !! i = Some f' ∧ (f' = f ∨
    f'.(Flow.flowId) = f.(Flow.flowId) ∧ f'.(Flow.wallet) = f.(Flow.wallet) ∧
    f'.(Flow.expires) = f.(Flow.expires) ∧ card_after f f').
Proof.
  intros Hu H Hi. apply putFlow_inv in H as (old & record & w & Ho & _ & Hw & Hwal & Hc & ->).
  destruct (store_doc_docs t (fst <$> old) record) as (j & -> & Hj).
  { intros k Hk. destruct old as [[l x]|]; [|done]. injection Hk as <-. by apply by_column_some in Ho as [-> _]. }
  destruct (decide (i = j)) as [->|Hne]; [|exists f; rewrite lookup_insert_ne by done; auto].
  destruct old as [[l x]|]; simpl in Hj; [subst l|congruence].
  apply by_column_some in Ho as [Hx Hid]. assert (x = f) as -> by congruence.
  exists record. rewrite lookup_insert_eq. split; [done|]. right.
  destruct (flow_update _ _ _ _ _ _ Hw Hc) as [He Hcard]. by rewrite (Hwal j f eq_refl).
Qed.
End Flows.

(** ** Properties *)

(** Every table empty *)
Definition empty_storage `{B : Db} {Pet} (s : Storage.t Pet) : Prop :=
  docs s.(Storage.records) = ∅ ∧ empty_outbox s.(Storage.outbox) ∧ docs s.(Storage.operation_claims) = ∅ ∧
  docs s.(Storage.owner_auth) = ∅ ∧ docs s.(Storage.agent_connections) = ∅ ∧
  docs s.(Storage.inbox_messages) = ∅ ∧ docs s.(Storage.rate_limits) = ∅ ∧ docs s.(Storage.payment_flows) = ∅.

Section Properties.
Context `{C : Codec, B : Db, BS : !DbSpec B} {Pet : Type}.
Context (petOperation : string → value → Pet → result (value * Pet)).
Abbreviation Runs := (runs petOperation).
Abbreviation Execute := (execute petOperation).

Lemma empty_storage_wf (s : Storage.t Pet) : empty_storage s → storage_wf s.
Proof.
  intros (Hr & Ho & Hc & Ha & Hn & Hi & Hl & Hf). split; rewrite ?Hr, ?Hc, ?Ha, ?Hn, ?Hi, ?Hl, ?Hf.
  all: try apply unique_on_empty.
  - apply records_unique_empty.
  - apply stamped_empty.
  - by apply empty_wf.
Qed.

(** C40: The store stays consistent.  Whatever calls the two services make, in
    whatever order, from empty tables: every key, id and token names at most one
    document of its table, times keep their sortable form, and the outbox keeps
    its own invariant. *)
Theorem storage_invariant (cs : list Call.t) (s s' : Storage.t Pet) :
  empty_storage s → Runs cs s s' → storage_wf s'.
Proof. intros Hs H. by eapply runs_wf, empty_storage_wf. Qed.

(** C24: Final is final.  Once a record reads as a settled payment or batch
    transaction, a verified x402 payment of a connector other than Crossmint, a
    consumed challenge, an attestation or one of the write-once kinds, every later
    read of its key, after any calls of either service, returns that same
    document.  A verified payment of Crossmint's is not final: the evidence of its
    order may still be rewritten ([put_crossmint_proof]). *)
Theorem final_records_stay (cs : list Call.t) (s s' : Storage.t Pet) (kind : RecordKind.t) (key : string)
    (i : DocId) (d : Doc.t) :
  storage_wf s → Runs cs s s' → getRecord s.(Storage.records) kind key = Ok (Some (i, d)) → final d →
  getRecord s'.(Storage.records) kind key = Ok (Some (i, d)).
Proof.
  apply final_stays.
Qed.

(** An operation id belongs to whoever claimed it first.  After a claim has
    returned, with whatever answer, a claim of the same id by anybody, after any
    other calls, is refused with the first owner's data and changes nothing. *)
Theorem claim_first_writer (cs : list Call.t) (s s1 s2 s3 : Storage.t Pet) (e e' : Env.t) (role role' : Role)
    (a a' : value) (r r' : Reply) :
  storage_wf s → Execute e s role "claim_operation" a = Ok (r, s1) → Runs cs s1 s2 →
  get a' "id" = get a "id" → Execute e' s2 role' "claim_operation" a' = Ok (r', s3) →
  s3 = s2 ∧ ∃ c made, r = Answer (claim_reply made c) ∧ r' = Answer (claim_reply false c) ∧
    (made = true → get a "owner" = VString c.(OperationClaim.owner) ∧
      get a "intent_json" = VString c.(OperationClaim.intent_json)).
Proof.
  intros Hw H1 Hr Hid H2. pose proof (change_wf _ _ _ _ _ Hw (execute_change _ _ _ _ _ _ _ _ H1)) as Hw1.
  apply execute_claim in H1 as (v & t & H1 & -> & ->).
  apply execute_claim in H2 as (v' & t' & H2 & -> & ->).
  assert (∃ i c made, v = claim_reply made c ∧ docs t !! i = Some c ∧ get a "id" = VString c.(OperationClaim.key) ∧
    (made = true → get a "owner" = VString c.(OperationClaim.owner) ∧
      get a "intent_json" = VString c.(OperationClaim.intent_json))) as (i & c & made & -> & Hi & Hk & Hmade).
  { apply claim_inv in H1 as (key & old & Hk & Ho & H1). destruct old as [[i c]|].
    - destruct H1 as [-> ->]. apply by_column_some in Ho as [Hi <-]. exists i, c, false. naive_solver.
    - destruct H1 as (c & -> & -> & <- & Hown & Hint & _).
      exists (insert_doc c (Storage.operation_claims s)).1, c, true. rewrite insert_docs, lookup_insert_eq. naive_solver. }
  pose proof (runs_claims petOperation _ _ _ _ _ Hr Hi) as Hi2.
  pose proof (runs_wf petOperation _ _ _ Hr Hw1) as Hw2.
  apply claim_inv in H2 as (key & old & Hk' & Ho & H2).
  rewrite Hid, Hk in Hk'. injection Hk' as <-.
  rewrite (by_column_found OperationClaim.key _ i c (wf_claims _ Hw2) Hi2) in Ho. injection Ho as <-.
  destruct H2 as [-> ->]. split; [by destruct s2|]. by exists c, made.
Qed.

(** A one-time owner secret is given out once.  After a consuming [get_auth]
    has returned a value, no [get_auth] of that key, consuming or not, returns
    anything until a new [put_auth] of the key, whatever else runs. *)
Theorem auth_consumed_once (cs : list Call.t) (s s1 s2 s3 : Storage.t Pet) (e e' : Env.t) (role role' : Role)
    (a a' : value) (secret : string) (r : Reply) :
  storage_wf s → get a "consume" = VBool true → get a' "key" = get a "key" →
  Execute e s role "get_auth" a = Ok (Answer (VString secret), s1) → Runs cs s1 s2 →
  Forall (λ c, c.(Call.op) = "put_auth" → get c.(Call.args) "key" ≠ get a "key") cs →
  Execute e' s2 role' "get_auth" a' = Ok (r, s3) →
  r = Answer VNull ∧ s3 = s2.
Proof.
  intros Hw Hconsume Hkey H1 Hr Hcs H2. apply execute_get_auth in H1 as (v & t & H1 & -> & [= <-]).
  apply execute_get_auth in H2 as (v' & t' & H2 & -> & ->).
  unfold get_auth in H1. apply bind_ok in H1 as (key & Hk & H1). apply string_of_ok in Hk as [Hk _].
  apply bind_ok in H1 as (old & Ho & H1). rewrite Hconsume in H1. destruct old as [[i d]|]; [|done].
  apply bind_ok in H1 as (now & _ & H1). destruct (str_leb _ now); [done|]. injection H1 as _ <-.
  apply by_column_some in Ho as [Hi <-].
  assert (∀ j x, docs s2.(Storage.owner_auth) !! j = Some x → x.(OwnerAuth.key) ≠ d.(OwnerAuth.key)) as Hno.
  { eapply (runs_auth_absent petOperation); [exact Hr|by rewrite <- Hk|]. simpl. intros j x.
    rewrite delete_docs, lookup_delete_Some. intros [Hne Hj] E. apply Hne.
    apply (wf_auth _ Hw i j d x d.(OwnerAuth.key)); [done|done|done|by rewrite E]. }
  unfold get_auth in H2. rewrite Hkey, Hk in H2.
  apply bind_ok in H2 as (key & Hk' & H2). apply string_of_ok in Hk' as [[= <-] _].
  apply bind_ok in H2 as (old & Ho & H2). destruct old as [[j x]|].
  { apply by_column_some in Ho as [Hj E]. by destruct (Hno j x Hj). }
  destruct (get a' "consume"); try done. injection H2 as <- <-. split; [done|by destruct s2].
Qed.

(** A signing challenge is consumed once.  After a call has consumed it, no
    later call consumes it again or changes its record, whatever ran in between
    and whatever time it claims. *)
Theorem challenge_consumed_once `{CS : !CodecSpec C} (cs : list Call.t) (s s1 s2 s3 : Storage.t Pet)
    (e e' : Env.t) (role role' : Role) (a a' : value) (r : Reply) :
  storage_wf s → get a' "challenge_id" = get a "challenge_id" →
  Execute e s role "consume_managed_signer_challenge" a = Ok (Answer (VBool true), s1) → Runs cs s1 s2 →
  Execute e' s2 role' "consume_managed_signer_challenge" a' = Ok (r, s3) →
  r = Answer (VBool false) ∧ s3 = s2.
Proof.
  intros Hw Hid H1 Hr H2. pose proof (change_wf _ _ _ _ _ Hw (execute_change _ _ _ _ _ _ _ _ H1)) as Hw1.
  apply execute_consume in H1 as (b & t & H1 & -> & [= <-]).
  apply execute_consume in H2 as (b' & t' & H2 & -> & ->).
  apply consume_challenge_inv in H1 as (key & old & Hk & _ & [[? _]|(_ & i & d & v & c & ex & txt & _ & Hi & Hd & Hv & _ & Hc & Hx & _ & Ht & Hdocs)]); [done|].
  apply consume_challenge_inv in H2 as (key' & old' & Hk' & Ho' & H2).
  assert (key' = key) as -> by congruence.
  destruct H2 as [[-> ->]|(_ & j & d' & v' & c' & ex' & txt' & -> & Hj & Hd' & Hv' & Hn & _ & _ & _ & _ & _)];
    [split; [done|by destruct s2]|]. exfalso.
  set (d1 := patch_proof d txt d.(Doc.updated) d.(Doc.source_json)) in *.
  assert (getRecord t RecordKind.managed_signer_challenges key = Ok (Some (i, d1))) as Hg.
  { pose proof (wf_records _ Hw1) as Hu. simpl in Hu. unfold id_of in Hd. injection Hd as <- <-.
    apply (getRecord_found _ i d1 Hu). by rewrite Hdocs, lookup_insert_eq. }
  assert (final d1) as Hfin.
  { unfold final. unfold id_of in Hd. injection Hd as Hkind _. simpl. rewrite Hkind. intros w Hj'.
    eapply consumed_reads; eauto. by apply decimal_ok in Hc as [? _]. }
  pose proof (final_stays petOperation _ _ _ _ _ _ _ Hw1 Hr Hg Hfin) as Hg2.
  assert (d' = d1) as -> by congruence. unfold final in Hfin.
  change (Doc.kind d1) with (Doc.kind d) in Hfin. unfold id_of in Hd. injection Hd as Hkind _.
  rewrite Hkind in Hfin. specialize (Hfin _ Hv'). congruence.
Qed.

(** A revoked agent stays out.  Once an owner has revoked a connection, the
    hash of its token identifies nobody to any of the three operations that take
    one, after any other calls, and such a call changes nothing. *)
Theorem revoked_stays_out (cs : list Call.t) (s s1 s2 : Storage.t Pet) (e : Env.t) (role : Role) (a : value) :
  storage_wf s → Execute e s role "mcp.revoke" a = Ok (Answer (VBool true), s1) → Runs cs s1 s2 →
  ∃ i c, docs s.(Storage.agent_connections) !! i = Some c ∧ get a "id" = VString c.(Connection.id) ∧
    ∀ e' role' op a' r s3, op ∈ ["auth_connection"; "mcp.identify"; "mcp.observe"] →
      get a' "hash" = VString c.(Connection.tokenHash) → Execute e' s2 role' op a' = Ok (r, s3) →
      s3 = s2 ∧ (r = Answer VNull ∨ r = Connected None).
Proof.
  intros Hw H Hr. pose proof (change_wf _ _ _ _ _ Hw (execute_change _ _ _ _ _ _ _ _ H)) as Hw1.
  pose proof (runs_wf petOperation _ _ _ Hr Hw1) as Hw2.
  apply execute_revoke in H as (b & t & H & -> & [= <-]).
  apply revoke_inv in H as (i & c & c' & Hi & Hid & Ht & Hrev & Htok). exists i, c. split; [done|]. split; [done|].
  intros e' role' op a' r s3 Hop Hhash H.
  assert (docs s2.(Storage.agent_connections) !! i = Some c') as Hi2.
  { eapply (runs_revoked petOperation); [exact Hr| |done]. simpl. by rewrite Ht, lookup_insert_eq. }
  rewrite <- Htok in Hhash.
  assert (∀ x, live_connection s2.(Storage.agent_connections) a' = Ok x → x = None) as Hlive
    by (intros x; by apply (live_connection_revoked _ a' i c' x (wf_tokens _ Hw2))).
  apply execute_operation in H. rewrite !elem_of_cons, elem_of_nil in Hop. destruct Hop as [->|[->|[->|[]]]].
  - change (reads s2 Answer (auth_connection s2.(Storage.agent_connections) a') = Ok (r, s3)) in H.
    apply reads_ok in H as (-> & v & H & ->). apply bind_ok in H as (x & Hx & H).
    apply Hlive in Hx as ->. injection H as <-. auto.
  - change (reads s2 Connected (mcp_identify s2.(Storage.agent_connections) a') = Ok (r, s3)) in H.
    apply reads_ok in H as (-> & v & H & ->). apply bind_ok in H as (x & Hx & H).
    apply Hlive in Hx as ->. injection H as <-. auto.
  - change (writes (with_connections s2) Answer (mcp_observe s2.(Storage.agent_connections) a') = Ok (r, s3)) in H.
    apply writes_ok in H as (v & t' & H & -> & ->). apply bind_ok in H as (x & Hx & H).
    apply Hlive in Hx as ->. injection H as <- <-. split; [by destruct s2|auto].
Qed.

(** A payment and its events are one transaction.  After a put of a payment
    with events, every offered event for its receipt is in the outbox if the
    payment now reads confirmed, and otherwise the outbox is as it was. *)
Theorem put_payment_emits (s s' : Storage.t Pet) (e : Env.t) (role : Role) (a : value) (r : Reply)
    (events : list Event.t) :
  storage_wf s → nullish (get a "events_json") = false → parseEvents (get a "events_json") = Ok events →
  Execute e s role "put_payment" a = Ok (r, s') →
  ∃ record key i d stored, json (get a "record_json") = Ok record ∧ get record "payment_id" = VString key ∧
    getRecord s'.(Storage.records) RecordKind.payments key = Ok (Some (i, d)) ∧
    json (VString d.(Doc.record_json)) = Ok stored ∧
    if is_one_of ["confirmed"] (get stored "status")
    then ∀ event, event ∈ events → get stored "receipt_address" = VString event.(Event.receipt_address) →
      known_event s'.(Storage.outbox) event
    else s'.(Storage.outbox) = s.(Storage.outbox).
Proof.
  intros Hw Hev Hparse H. apply execute_put_payment in H as (v & t & o & H & -> & _).
  unfold put_record in H. apply bind_ok in H as (txt & Ht & H). apply string_of_ok in Ht as [Ht _].
  apply bind_ok in H as ([w t1] & Hwr & H). rewrite Hev in H. simpl in H.
  apply bind_ok in H as (record & Hrec & H). apply bind_ok in H as (key & Hk & H). apply string_of_ok in Hk as [Hk _].
  apply bind_ok in H as ([n o1] & Hem & H). injection H as _ <- <-.
  unfold emitAfterWrite in Hem. rewrite Hparse in Hem. cbn [bind] in Hem.
  apply bind_ok in Hem as (found & Hg & Hem).
  rewrite Ht in Hrec.
  destruct (payment_stored _ _ _ _ _ _ (wf_records _ Hw) Hwr Hrec Hk) as (i & d & Hst).
  rewrite Hst in Hg. injection Hg as <-. apply bind_ok in Hem as (stored & Hj & Hem).
  exists record, key, i, d, stored. rewrite Ht. do 4 (split; [done|]). simpl.
  destruct (is_one_of ["confirmed"] _); simpl in Hem; [|by injection Hem as _ <-].
  intros event Hin Haddr. eapply emit_all_known; [apply (wf_outbox _ Hw)|exact Hem|].
  apply list_elem_of_In, filter_In. split; [by apply list_elem_of_In|]. rewrite Haddr. simpl.
  by rewrite bool_decide_eq_true_2 by (by left).
Qed.

(** Readers only read, and a paused deployment changes nothing.  A call of an
    operation [isRead] names, and any call while maintenance is on, leaves every
    table as it was. *)
Theorem reading_changes_nothing (s s' : Storage.t Pet) (e : Env.t) (role : Role) (op : string) (a : value)
    (r : Reply) :
  isRead op a = true ∨ e.(Env.maintenance) = true → Execute e s role op a = Ok (r, s') → s' = s.
Proof.
  intros Hr H. destruct (execute_guards _ _ _ _ _ _ _ H) as [_ Hm]. apply execute_operation in H.
  eapply operation_reads; [|exact H]. tauto.
Qed.

(** A payment card keeps its owner and moves forward.  Across any calls, a
    stored card keeps its id, wallet and expiry; if it was written again, it is
    for the same payment, with the same creation time and a later update time. *)
Theorem payment_card_history (cs : list Call.t) (s s' : Storage.t Pet) (i : DocId) (f : Flow.t) :
  storage_wf s → Runs cs s s' → docs s.(Storage.payment_flows) !! i = Some f →
  ∃ f', docs s'.(Storage.payment_flows) !! i = Some f' ∧ f'.(Flow.flowId) = f.(Flow.flowId) ∧
    f'.(Flow.wallet) = f.(Flow.wallet) ∧ f'.(Flow.expires) = f.(Flow.expires) ∧ (f' = f ∨ card_after f f').
Proof.
  intros Hw H. revert f. induction H as [|e role op a r cs s s1 s2 He _ IH]; intros f Hi.
  { exists f. do 4 (split; [done|]). by left. }
  apply execute_change in He. pose proof (change_wf _ _ _ _ _ Hw He) as Hw1.
  assert (∃ g, docs s1.(Storage.payment_flows) !! i = Some g ∧ (g = f ∨
    g.(Flow.flowId) = f.(Flow.flowId) ∧ g.(Flow.wallet) = f.(Flow.wallet) ∧
    g.(Flow.expires) = f.(Flow.expires) ∧ card_after f g)) as (g & Hg & Hfg).
  { destruct (change_flows _ _ _ _ _ He) as [->|[v Hf]]; [exists f; auto|].
    eapply putFlow_step; [apply (wf_flows _ Hw)|exact Hf|done]. }
  destruct (IH Hw1 g Hg) as (h & Hh & E1 & E2 & E3 & Hgh). exists h. split; [done|].
  destruct Hfg as [->|(F1 & F2 & F3 & Hfg)]; [done|]. repeat split; try congruence. right.
  destruct Hgh as [->|Hgh]; [done|]. by eapply card_after_trans.
Qed.
End Properties.

(** ** The rate limiter *)

Module RateCall.
Record t : Type := mk { key : string; now : Z; maximum : Z; window : Z }.
Definition bucket (c : t) : string := bucket_of c.(key) c.(now) c.(window).
End RateCall.

(** Calls that returned, in order *)
Inductive rate_run `{C : Codec, B : Db} : list RateCall.t → table RateLimit.t → table RateLimit.t → Prop :=
| rate_nil t : rate_run [] t t
| rate_cons c cs t t1 t2 b :
    rate t c.(RateCall.key) c.(RateCall.now) c.(RateCall.maximum) c.(RateCall.window) = Ok (b, t1) →
    rate_run cs t1 t2 → rate_run (c :: cs) t t2.

(** The calls counted by a window *)
Definition hits (bucket : string) (cs : list RateCall.t) : nat :=
  length (filter (λ c, RateCall.bucket c = bucket) cs).

(** ** Window names *)

Lemma after_colon l1 l2 d1 d2 :
  l1 ++ ":"%char :: d1 = l2 ++ ":"%char :: d2 → forallb is_digit d1 = true → forallb is_digit d2 = true → d1 = d2.
Proof.
  revert l2. induction l1 as [|c l1 IH]; intros [|c' l2] E H1 H2; simpl in E.
  - by injection E.
  - injection E as <- ->. by rewrite forallb_app, andb_true_iff in H1; destruct H1 as [_ [=]].
  - injection E as -> <-. by rewrite forallb_app, andb_true_iff in H2; destruct H2 as [_ [=]].
  - injection E as _ E. by apply (IH l2).
Qed.

Lemma bucket_window k1 k2 n1 n2 w :
  0 <= n1 → 0 <= n2 → 1 <= w → bucket_of k1 n1 w = bucket_of k2 n2 w → n1 / w = n2 / w.
Proof.
  intros H1 H2 Hw E. pose proof (Z.div_pos n1 w H1 ltac:(lia)) as D1. pose proof (Z.div_pos n2 w H2 ltac:(lia)) as D2.
  unfold bucket_of, toString in E. rewrite !(proj2 (Z.ltb_ge _ _)) in E by lia.
  apply (f_equal chars) in E. rewrite !chars_app, !chars_text in E.
  apply after_colon in E; [by apply nat_chars_inj|by apply nat_chars_digits..].
Qed.

Lemma decimal_int z s : decimal (VNumber (JInt z)) = Ok s → BigInt s = z.
Proof.
  unfold decimal. destruct (is_safe z); [|done]. destruct (_ || _) eqn:E; [done|]. intros [= <-]. bool_reflect.
  unfold toString in *. destruct (z <? 0) eqn:Ez; [done|]. bool_reflect. by apply BigInt_text.
Qed.

Section RateLimiter.
Context `{C : Codec, B : Db, BS : !DbSpec B}.

(** [n] calls counted for the window of [c], whose row is there and still open
    at the time of [c]. *)
Definition counted (c : RateCall.t) (n : nat) (t : table RateLimit.t) : Prop :=
  unique_key RateLimit.key (docs t) ∧
  if decide (n = 0%nat) then ∀ i r, docs t !! i = Some r → r.(RateLimit.key) ≠ RateCall.bucket c
  else ∃ i r, docs t !! i = Some r ∧ r.(RateLimit.key) = RateCall.bucket c ∧
    r.(RateLimit.count) = Z.of_nat n ∧ c.(RateCall.now) < r.(RateLimit.expires).

Lemma stale_spec now t i r : (i, r) ∈ stale now t → docs t !! i = Some r ∧ r.(RateLimit.expires) <= now.
Proof.
  unfold stale. intros H. apply elem_of_take in H as (k & H & _). apply list_elem_of_lookup_2 in H.
  apply query_elem in H as [H1 H2]. by bool_reflect.
Qed.

(** Sweeping keeps the open window. *)
Lemma sweep_counted c n t now :
  now <= c.(RateCall.now) → counted c n t → counted c n (delete_all (stale now t) t).
Proof.
  intros Hnow [Hu Hc]. split; [by apply delete_all_key|]. destruct (decide (n = 0%nat)).
  - intros i r Hi. rewrite delete_all_docs in Hi. destruct (bool_decide _); [done|]. by eapply Hc.
  - destruct Hc as (i & r & Hi & Hk & Hn & Hx). exists i, r. split; [|done].
    rewrite delete_all_docs, bool_decide_eq_false_2; [done|]. intros Hin.
    apply list_elem_of_fmap in Hin as ([j r'] & -> & Hin). apply stale_spec in Hin as [Hj Hexp].
    simpl in Hi. assert (r' = r) as -> by congruence. lia.
Qed.

(** What one call does to the count of a window, and what it answers. *)
Lemma rate_step c n t x b t' :
  counted c n t → 0 <= x.(RateCall.now) <= c.(RateCall.now) →
  (RateCall.bucket x = RateCall.bucket c → x.(RateCall.window) = c.(RateCall.window)) →
  rate t x.(RateCall.key) x.(RateCall.now) x.(RateCall.maximum) x.(RateCall.window) = Ok (b, t') →
  if decide (RateCall.bucket x = RateCall.bucket c)
  then b = (Z.of_nat n + 1 <=? x.(RateCall.maximum)) ∧ counted c (S n) t'
  else counted c n t'.
Proof.
  intros Hc Hnow Hwin H. apply bind_ok in H as ([] & Hw & H). apply reject_ok in Hw.
  apply (sweep_counted c n t x.(RateCall.now) ltac:(lia)) in Hc. cbv zeta in H.
  set (t1 := delete_all (stale (RateCall.now x) t) t) in *. clearbody t1. clear t.
  apply bind_ok in H as (old & Ho & H). apply bind_ok in H as (count & Hn & H). injection H as <- <-.
  change (bucket_of _ _ _) with (RateCall.bucket x) in *. bool_reflect.
  assert (unique_key RateLimit.key (docs (match old with
    | Some (i, r) => put_doc i (RateLimit.mk (RateLimit.key r) count (RateLimit.expires r)) t1
    | None => (insert_doc (RateLimit.mk (RateCall.bucket x) count (RateCall.now x + RateCall.window x)) t1).2
    end))) as Hu'.
  { destruct Hc as [Hu _]. destruct old as [[i r]|]; [|by apply insert_key].
    apply by_column_some in Ho as [Hi _]. by eapply put_key. }
  assert (count = match old with Some (_, r) => RateLimit.count r | None => 0 end + 1) as ->.
  { unfold safeNumber in Hn. apply bind_ok in Hn as (d & Hd & Hn). destruct (negb _); [done|].
    injection Hn as <-. by apply decimal_int. }
  destruct Hc as [Hu Hc]. destruct (decide (RateCall.bucket x = RateCall.bucket c)) as [Eb|Eb].
  - destruct (decide (n = 0%nat)) as [->|Hn0].
    + destruct old as [[i r]|].
      { apply by_column_some in Ho as [Hi Hk]. by destruct (Hc i r Hi); congruence. }
      split; [done|]. split; [done|]. simpl. eexists _, _. rewrite insert_docs, lookup_insert_eq.
      split; [done|]. split; [done|]. split; [done|]. simpl. specialize (Hwin Eb).
      assert (RateCall.now x / RateCall.window x = RateCall.now c / RateCall.window x) as Hdiv.
      { eapply bucket_window; [lia|lia|lia|]. unfold RateCall.bucket in Eb. by rewrite Hwin in Eb |- *. }
      pose proof (Z.mul_div_le (RateCall.now x) (RateCall.window x) ltac:(lia)).
      pose proof (Z.mul_succ_div_gt (RateCall.now c) (RateCall.window x) ltac:(lia)). rewrite <- Hdiv in *. lia.
    + destruct Hc as (i & r & Hi & Hk & Hcount & Hx).
      assert (old = Some (i, r)) as ->.
      { rewrite Eb, <- Hk in Ho. rewrite (by_column_found RateLimit.key t1 i r Hu Hi) in Ho. by injection Ho. }
      split; [by rewrite Hcount|]. split; [exact Hu'|]. simpl. exists i. eexists. rewrite put_docs, lookup_insert_eq by eauto.
      split; [done|]. split; [done|]. simpl. split; [lia|done].
  - split; [done|]. destruct (decide (n = 0%nat)).
    + intros i r. destruct old as [[j q]|].
      * apply by_column_some in Ho as [Hj Hk]. rewrite put_docs, lookup_insert_Some by eauto.
        intros [[<- <-]|[_ Hi]]; [simpl; congruence|by eapply Hc].
      * rewrite insert_docs, lookup_insert_Some. intros [[<- <-]|[_ Hi]]; [done|by eapply Hc].
    + destruct Hc as (i & r & Hi & Hk & Hcount & Hx). exists i, r. split; [|done]. destruct old as [[j q]|].
      * apply by_column_some in Ho as [Hj Hkj]. rewrite put_docs, lookup_insert_ne; [done| |eauto].
        intros ->. congruence.
      * rewrite insert_docs, lookup_insert_ne; [done|]. intros E.
        pose proof (insert_fresh _ (RateLimit.mk (RateCall.bucket x) (0 + 1) (RateCall.now x + RateCall.window x)) t1).
        congruence.
Qed.

Lemma rate_run_counted c cs t t' n :
  counted c n t → rate_run cs t t' →
  Forall (λ x, 0 <= x.(RateCall.now) <= c.(RateCall.now) ∧
    (RateCall.bucket x = RateCall.bucket c → x.(RateCall.window) = c.(RateCall.window))) cs →
  counted c (n + hits (RateCall.bucket c) cs) t'.
Proof.
  intros Hc H. revert n Hc. induction H as [t|x cs t t1 t2 b Hx _ IH]; intros n Hc Hcs.
  { unfold hits. simpl. by rewrite Nat.add_0_r. }
  apply Forall_cons in Hcs as [[Hnow Hwin] Hcs]. pose proof (rate_step c n t x b t1 Hc Hnow Hwin Hx) as Hs.
  unfold hits. rewrite filter_cons. destruct (decide (RateCall.bucket x = RateCall.bucket c)).
  - destruct Hs as [_ Hs]. simpl. rewrite <- plus_n_Sm. by apply (IH (S n)).
  - by apply IH.
Qed.

(** The limiter counts a fixed window.  For calls whose clocks do not go
    back, and one length per window name, a call is allowed exactly when the
    calls already made in its window, and it, are within the maximum: sweeping
    old rows never resets a window that is still open. *)
Theorem rate_fixed_window (cs : list RateCall.t) (c : RateCall.t) (t t1 t2 : table RateLimit.t) (b : bool) :
  docs t = ∅ → rate_run cs t t1 →
  Forall (λ x, 0 <= x.(RateCall.now) <= c.(RateCall.now) ∧
    (RateCall.bucket x = RateCall.bucket c → x.(RateCall.window) = c.(RateCall.window))) cs →
  0 <= c.(RateCall.now) →
  rate t1 c.(RateCall.key) c.(RateCall.now) c.(RateCall.maximum) c.(RateCall.window) = Ok (b, t2) →
  b = (Z.of_nat (hits (RateCall.bucket c) cs) + 1 <=? c.(RateCall.maximum)).
Proof.
  intros Ht Hr Hcs Hnow H.
  assert (counted c 0 t) as H0.
  { split; rewrite Ht; [apply unique_on_empty|]. simpl. intros i r Hi. by rewrite lookup_empty in Hi. }
  pose proof (rate_run_counted c cs t t1 0 H0 Hr Hcs) as Hc.
  pose proof (rate_step c _ t1 c b t2 Hc ltac:(lia) ltac:(done) H) as Hs.
  rewrite decide_True in Hs by done. by destruct Hs as [-> _].
Qed.
End RateLimiter.

(** ** Concrete calls *)

Import Model TextCodec.

Definition no_pet (op : string) (a : value) (p : unit) : result (value * unit) := Ok (VNull, p).

Abbreviation State := (@Storage.t db unit).
Abbreviation call e s role op a := (@execute codec db unit no_pet e s role op a).

Definition live : Env.t := Env.mk false 1000.
Definition paused : Env.t := Env.mk true 1000.

Definition state_0 : State := Storage.mk (B := db) ∅ (Outbox.mk (B := db) ∅ ∅ ∅) ∅ ∅ ∅ ∅ ∅ ∅ tt.

Definition json_text (v : value) : value := VString (default "" (print v)).
Definition obj (fields : list (string * value)) : value := VObject fields.
Definition num (n : Z) : value := VLossless (toString n).

(** The state after a call, and its answer *)
Definition state_of (r : result (Reply * State)) : State := match r with Ok (_, s) => s | Throw _ => state_0 end.
Definition reply_of (r : result (Reply * State)) : Reply := match r with Ok (x, _) => x | Throw _ => Answer VUndefined end.
Definition returns (r : result (Reply * State)) : bool := is_ok r.

Lemma returns_ok r : returns r = true → r = Ok (reply_of r, state_of r).
Proof. by destruct r as [[]|]. Qed.

(** ** The arguments *)

Definition claim_by (owner : string) : value :=
  obj [("id", VString "op-1"); ("owner", VString owner); ("intent_json", json_text (obj [("pay", VString owner)]));
    ("initial_json", json_text (obj []))].
Definition store_secret : value :=
  obj [("key", VString "login"); ("value_json", json_text (obj [("nonce", VString "n")])); ("expires", num 5000)].
Definition take_secret : value := obj [("key", VString "login"); ("consume", VBool true); ("now", num 2000)].
Definition challenge : value :=
  obj [("challenge_json", json_text (obj [("challenge_id", VString "c-1"); ("owner_wallet", VString "alice");
    ("mandate_pda", VString "m-1"); ("message", VString "sign me"); ("expires_at_ms", num 9000);
    ("created_at_ms", num 1000)]))].
Definition consume_challenge : value := obj [("challenge_id", VString "c-1"); ("consumed_at_ms", num 3000)].
Definition token_hash : string := String.concat "" (replicate 8 "0123abcd").
Definition register : value :=
  obj [("record", obj [("id", VString "agent-1"); ("tokenHash", VString token_hash); ("wallet", VString "alice");
    ("agentName", VString "shopper"); ("scope", VString "pay"); ("connectedAt", VString "2026-01-01");
    ("lastSeenAt", VNull); ("totalCalls", VNumber (JInt 0)); ("toolsCalled", VArray []); ("revokedAt", VNull)])].
Definition revoke : value :=
  obj [("id", VString "agent-1"); ("wallet", VString "alice"); ("now", VString "2026-01-02")].
Definition by_token : value := obj [("hash", VString token_hash); ("now", VString "2026-01-03")].
Definition payment_event : value :=
  obj [("event_id", VString "evt_1"); ("owner_wallet", VString "alice"); ("event_type", VString "payment.receipt_ready");
    ("version", num 1); ("receipt_address", VString "r-1"); ("body", json_text (obj []));
    ("occurred_at_ms", num 4000); ("created_at_ms", num 4000)].
Definition confirmed_payment : value :=
  obj [("record_json", json_text (obj [("payment_id", VString "p-1"); ("signing_mode", VString "human");
      ("status", VString "confirmed"); ("receipt_address", VString "r-1"); ("created_at_ms", num 4000);
      ("updated_at_ms", num 4000)]));
    ("events_json", json_text (VArray [payment_event]))].
Definition card_record (updated : Z) : value :=
  json_text (obj [("paymentId", VString "p-1"); ("createdAt", num 100); ("updatedAt", num updated)]).
Definition new_card : value :=
  obj [("flowId", VString "f-1"); ("wallet", VString "alice"); ("expires", num 9000); ("record_json", card_record 100)].
Definition update_card : value :=
  obj [("flowId", VString "f-1"); ("wallet", VString "alice"); ("expires", num 9000); ("record_json", card_record 200);
    ("expectedUpdatedAt", num 100)].

(** ** The runs *)

Definition step (s : State) (role : Role) (op : string) (a : value) : State := state_of (call live s role op a).
Definition answer (s : State) (role : Role) (op : string) (a : value) : Reply := reply_of (call live s role op a).

(** A call that returns is a step of a run. *)
Lemma steps s role op a :
  returns (call live s role op a) = true →
  call live s role op a = Ok (answer s role op a, step s role op a).
Proof. apply returns_ok. Qed.

Lemma run_1 s role op a :
  returns (call live s role op a) = true →
  runs no_pet [Call.mk live role op a (answer s role op a)] s (step s role op a).
Proof. intros H. eapply runs_cons; [by apply steps|]. apply runs_nil. Qed.

Lemma answers s role op a r :
  returns (call live s role op a) = true → answer s role op a = r →
  call live s role op a = Ok (r, step s role op a).
Proof. intros H <-. by apply steps. Qed.

Lemma empty_state_0 : empty_storage state_0.
Proof. done. Qed.

Lemma state_0_wf : storage_wf state_0.
Proof. apply empty_storage_wf, empty_state_0. Qed.

Lemma step_wf s role op a : returns (call live s role op a) = true → storage_wf s → storage_wf (step s role op a).
Proof. intros H Hw. by eapply (runs_wf no_pet), Hw; apply run_1. Qed.

Definition secret_stored : State := step state_0 backend "put_auth" store_secret.
Definition secret_taken : State := step secret_stored backend "get_auth" take_secret.
Definition claimed : State := step state_0 backend "claim_operation" (claim_by "alice").
Definition claimed_later : State := step claimed backend "put_auth" store_secret.
Definition challenged : State := step state_0 backend "put_managed_signer_challenge" challenge.
Definition consumed : State := step challenged backend "consume_managed_signer_challenge" consume_challenge.
Definition registered_agent : State := step state_0 mcp "mcp.register" register.
Definition revoked_agent : State := step registered_agent mcp "mcp.revoke" revoke.
Definition with_card : State := step state_0 mcp "mcp.putFlow" new_card.
Definition with_newer_card : State := step with_card mcp "mcp.putFlow" update_card.
Definition paid : State := step state_0 backend "put_payment" confirmed_payment.
Definition paid_later : State := step paid backend "put_auth" store_secret.

Lemma runs_return :
  returns (call live state_0 backend "put_auth" store_secret) = true ∧
  returns (call live state_0 backend "claim_operation" (claim_by "alice")) = true ∧
  returns (call live state_0 backend "put_managed_signer_challenge" challenge) = true ∧
  returns (call live state_0 mcp "mcp.register" register) = true ∧
  returns (call live state_0 mcp "mcp.putFlow" new_card) = true ∧
  returns (call live state_0 backend "put_payment" confirmed_payment) = true.
Proof. vm_compute. repeat split. Qed.

Lemma runs_return_later :
  returns (call live secret_stored backend "get_auth" take_secret) = true ∧
  returns (call live challenged backend "consume_managed_signer_challenge" consume_challenge) = true ∧
  returns (call live registered_agent mcp "mcp.revoke" revoke) = true ∧
  returns (call live with_card mcp "mcp.putFlow" update_card) = true.
Proof. vm_compute. repeat split. Qed.

Lemma answers_given :
  answer secret_stored backend "get_auth" take_secret = Answer (json_text (obj [("nonce", VString "n")])) ∧
  answer challenged backend "consume_managed_signer_challenge" consume_challenge = Answer (VBool true) ∧
  answer registered_agent mcp "mcp.revoke" revoke = Answer (VBool true).
Proof. vm_compute. repeat split. Qed.

(** ** The properties at these runs *)

Lemma storage_invariant_witness : storage_wf secret_stored.
Proof.
  destruct runs_return as (H & _).
  exact (@storage_invariant codec db db_spec unit no_pet _ state_0 secret_stored empty_state_0
    (run_1 state_0 backend "put_auth" store_secret H)).
Defined.

(** The payment under its key, and that it is settled *)
Definition paid_row : option (DocId * Doc.t) :=
  match getRecord (B := db) paid.(Storage.records) RecordKind.payments "p-1" with Ok r => r | Throw _ => None end.

Lemma paid_found : ∃ i d, getRecord (B := db) paid.(Storage.records) RecordKind.payments "p-1" = Ok (Some (i, d)).
Proof.
  assert (is_ok (getRecord (B := db) paid.(Storage.records) RecordKind.payments "p-1") = true ∧
    match paid_row with Some _ => true | None => false end = true) as [H1 H2] by (vm_compute; split; reflexivity).
  unfold paid_row in H2. destruct (getRecord _ _ _) as [[[i d]|]|]; try done. by exists i, d.
Qed.

Lemma paid_final i d :
  getRecord (B := db) paid.(Storage.records) RecordKind.payments "p-1" = Ok (Some (i, d)) → final d.
Proof.
  intros H. pose proof (getRecord_some _ _ _ _ _ H) as [_ Hid].
  assert (match paid_row with
    | Some (_, d) => match json (VString d.(Doc.record_json)) with
        | Ok v => is_one_of ["confirmed"; "failed"] (get v "status") | Throw _ => false end
    | None => false end = true) as Hs by (vm_compute; reflexivity).
  unfold paid_row in Hs. rewrite H in Hs. unfold final. unfold id_of in Hid. injection Hid as -> _.
  destruct (json _) as [v|]; [by exists v | done].
Qed.

Lemma paid_wf : storage_wf paid.
Proof. destruct runs_return as (_ & _ & _ & _ & _ & H). exact (step_wf _ _ _ _ H state_0_wf). Qed.

Lemma paid_later_returns : returns (call live paid backend "put_auth" store_secret) = true.
Proof. vm_compute. reflexivity. Qed.

Lemma final_records_stay_witness :
  ∃ i d, getRecord (B := db) paid_later.(Storage.records) RecordKind.payments "p-1" = Ok (Some (i, d)).
Proof.
  destruct paid_found as (i & d & H).
  exact (ex_intro _ i (ex_intro _ d (@final_records_stay codec db db_spec unit no_pet _ paid paid_later
    RecordKind.payments "p-1" i d paid_wf (run_1 paid backend "put_auth" store_secret paid_later_returns) H
    (paid_final i d H)))).
Defined.

Lemma claimed_later_returns : returns (call live claimed backend "put_auth" store_secret) = true.
Proof. vm_compute. reflexivity. Qed.

Lemma claim_again_returns : returns (call live claimed_later backend "claim_operation" (claim_by "bob")) = true.
Proof. vm_compute. reflexivity. Qed.

Lemma claim_first_writer_witness :
  step claimed_later backend "claim_operation" (claim_by "bob") = claimed_later.
Proof.
  destruct runs_return as (_ & H & _).
  exact (proj1 (@claim_first_writer codec db db_spec unit no_pet _ state_0 claimed claimed_later _ live live backend
    backend (claim_by "alice") (claim_by "bob") _ _ state_0_wf (steps _ _ _ _ H)
    (run_1 claimed backend "put_auth" store_secret claimed_later_returns) eq_refl
    (steps claimed_later backend "claim_operation" (claim_by "bob") claim_again_returns))).
Defined.

Lemma secret_again_returns : returns (call live secret_taken backend "get_auth" take_secret) = true.
Proof. vm_compute. reflexivity. Qed.

Lemma auth_consumed_once_witness : answer secret_taken backend "get_auth" take_secret = Answer VNull.
Proof.
  destruct runs_return as (H & _). destruct runs_return_later as (H1 & _). destruct answers_given as (E & _).
  exact (proj1 (@auth_consumed_once codec db db_spec unit no_pet [] secret_stored secret_taken secret_taken _
    live live backend backend take_secret take_secret _ _ (step_wf _ _ _ _ H state_0_wf) eq_refl eq_refl
    (answers _ _ _ _ _ H1 E) (runs_nil no_pet secret_taken) (Forall_nil_2 _)
    (steps secret_taken backend "get_auth" take_secret secret_again_returns))).
Defined.

Lemma consume_again_returns :
  returns (call live consumed backend "consume_managed_signer_challenge" consume_challenge) = true.
Proof. vm_compute. reflexivity. Qed.

Lemma challenge_consumed_once_witness :
  answer consumed backend "consume_managed_signer_challenge" consume_challenge = Answer (VBool false).
Proof.
  destruct runs_return as (_ & _ & H & _). destruct runs_return_later as (_ & H1 & _).
  destruct answers_given as (_ & E & _).
  exact (proj1 (@challenge_consumed_once codec db db_spec unit no_pet codec_spec [] challenged consumed consumed _
    live live backend backend consume_challenge consume_challenge _ (step_wf _ _ _ _ H state_0_wf) eq_refl
    (answers _ _ _ _ _ H1 E) (runs_nil no_pet consumed)
    (steps consumed backend "consume_managed_signer_challenge" consume_challenge consume_again_returns))).
Defined.

Lemma revoked_stays_out_witness :
  ∃ i c, docs (Db := db) registered_agent.(Storage.agent_connections) !! i = Some c ∧
    c.(Connection.id) = "agent-1".
Proof.
  destruct runs_return as (_ & _ & _ & H & _). destruct runs_return_later as (_ & _ & H1 & _).
  destruct answers_given as (_ & _ & E).
  destruct (@revoked_stays_out codec db db_spec unit no_pet [] registered_agent revoked_agent revoked_agent live mcp
    revoke (step_wf _ _ _ _ H state_0_wf) (answers _ _ _ _ _ H1 E) (runs_nil no_pet revoked_agent))
    as (i & c & Hi & Hid & _).
  exact (ex_intro _ i (ex_intro _ c (conj Hi (eq_sym (f_equal (λ v, match v with VString s => s | _ => "" end) Hid))))).
Defined.

(** The event the payment offers *)
Definition offered : list Event.t :=
  match parseEvents (get confirmed_payment "events_json") with Ok l => l | Throw _ => [] end.

Lemma offered_parses : parseEvents (get confirmed_payment "events_json") = Ok offered.
Proof. vm_compute. reflexivity. Qed.

Lemma put_payment_emits_witness :
  ∃ i d, getRecord (B := db) paid.(Storage.records) RecordKind.payments "p-1" = Ok (Some (i, d)).
Proof.
  destruct runs_return as (_ & _ & _ & _ & _ & H).
  destruct (@put_payment_emits codec db db_spec unit no_pet state_0 paid live backend confirmed_payment _ offered
    state_0_wf eq_refl offered_parses (steps state_0 backend "put_payment" confirmed_payment H))
    as (record & key & i & d & stored & Hj & Hk & Hg & _).
  assert (key = "p-1") as -> by
    (vm_compute in Hj; injection Hj as <-; vm_compute in Hk; injection Hk as <-; reflexivity).
  exact (ex_intro _ i (ex_intro _ d Hg)).
Defined.

Lemma read_returns : returns (call paused claimed backend "operation_owner" (claim_by "bob")) = true.
Proof. vm_compute. reflexivity. Qed.

Lemma reading_changes_nothing_witness :
  state_of (call paused claimed backend "operation_owner" (claim_by "bob")) = claimed.
Proof.
  exact (@reading_changes_nothing codec db unit no_pet claimed _ paused backend "operation_owner" (claim_by "bob") _
    (or_intror eq_refl) (returns_ok _ read_returns)).
Defined.

Lemma card_stored : ∃ f, docs (Db := db) with_card.(Storage.payment_flows) !! 1%positive = Some f.
Proof.
  assert (match docs (Db := db) with_card.(Storage.payment_flows) !! 1%positive with
    | Some _ => true | None => false end = true) as H by (vm_compute; reflexivity).
  destruct (docs _ !! _) as [f|]; [by exists f | done].
Qed.

Lemma payment_card_history_witness :
  ∃ f', docs (Db := db) with_newer_card.(Storage.payment_flows) !! 1%positive = Some f'.
Proof.
  destruct runs_return as (_ & _ & _ & _ & H & _). destruct runs_return_later as (_ & _ & _ & H1).
  destruct card_stored as (f & Hf).
  destruct (@payment_card_history codec db db_spec unit no_pet _ with_card with_newer_card 1%positive f
    (step_wf _ _ _ _ H state_0_wf) (run_1 with_card mcp "mcp.putFlow" update_card H1) Hf) as (f' & Hf' & _).
  exact (ex_intro _ f' Hf').
Defined.

(** ** The limiter at three calls *)

Definition three_calls (now : Z) : RateCall.t := RateCall.mk "auth:login" now 2 60000.

Definition rates_after (t : gmap DocId RateLimit.t) (c : RateCall.t) : gmap DocId RateLimit.t :=
  match rate (B := db) t c.(RateCall.key) c.(RateCall.now) c.(RateCall.maximum) c.(RateCall.window) with
  | Ok (_, t) => t | Throw _ => ∅ end.
Definition rates_1 : gmap DocId RateLimit.t := rates_after ∅ (three_calls 60500).
Definition rates_2 : gmap DocId RateLimit.t := rates_after rates_1 (three_calls 70000).
Definition rates_3 : gmap DocId RateLimit.t := rates_after rates_2 (three_calls 119999).

Lemma rate_calls :
  rate (B := db) (∅ : gmap DocId RateLimit.t) "auth:login" 60500 2 60000 = Ok (true, rates_1) ∧
  rate (B := db) rates_1 "auth:login" 70000 2 60000 = Ok (true, rates_2) ∧
  rate (B := db) rates_2 "auth:login" 119999 2 60000 = Ok (false, rates_3).
Proof. vm_compute. repeat split. Qed.

Lemma rate_fixed_window_witness : false = (Z.of_nat 2 + 1 <=? 2).
Proof.
  destruct rate_calls as (H1 & H2 & H3).
  exact (@rate_fixed_window codec db db_spec [three_calls 60500; three_calls 70000] (three_calls 119999)
    (∅ : gmap DocId RateLimit.t) rates_2 rates_3 false eq_refl
    (rate_cons (three_calls 60500) _ ∅ rates_1 rates_2 true H1
      (rate_cons (three_calls 70000) _ rates_1 rates_2 rates_2 true H2 (rate_nil rates_2)))
    ltac:(repeat constructor; simpl; lia) ltac:(simpl; lia) H3).
Defined.
