(* ===== verification/SupportParse.v ===== *)
(** * Parsing the support vault's history (convex/supportParse.ts)

    What one transaction contributed to the support vault or paid out of it, the
    cursor that walks the vault's signatures page by page, and the public
    summary.  A transaction is the record of an RPC reply; what the code reads
    through [unknown] is a [value]. *)
From Stdlib Require Import ZArith Lia Strings.Byte Strings.Ascii.
From stdpp Require Import base numbers strings list.
From S2P Require Import Prelude Bytes PublicKey Decimal Base64 CardConstants Values.

(** ** [BigInt(v)] of unknown values *)

Definition radix_digit (radix : Z) (c : ascii) : option Z :=
  let n := char_code c in
  let d := if (48 <=? n) && (n <=? 57) then n - 48
           else if (97 <=? n) && (n <=? 102) then n - 87
           else if (65 <=? n) && (n <=? 70) then n - 55 else 16 in
  if d <? radix then Some d else None.

Fixpoint radix_value (radix : Z) (acc : Z) (cs : list ascii) : option Z :=
  match cs with
  | [] => Some acc
  | c :: cs => match radix_digit radix c with Some d => radix_value radix (acc * radix + d) cs | None => None end
  end.

Definition digits_value (radix : Z) (cs : list ascii) : option Z :=
  match cs with [] => None | _ => radix_value radix 0 cs end.

(** The specification's StringToBigInt, after trimming *)
Definition integer_literal (cs : list ascii) : option Z :=
  match cs with
  | [] => Some 0
  | "0"%char :: c :: rest =>
      if bool_decide (c = "x"%char ∨ c = "X"%char) then digits_value 16 rest
      else if bool_decide (c = "o"%char ∨ c = "O"%char) then digits_value 8 rest
      else if bool_decide (c = "b"%char ∨ c = "B"%char) then digits_value 2 rest
      else digits_value 10 cs
  | "-"%char :: rest => Z.opp <$> digits_value 10 rest
  | "+"%char :: rest => digits_value 10 rest
  | _ => digits_value 10 cs
  end.
Definition string_bigint (s : string) : result Z :=
  match integer_literal (chars (trim s)) with Some z => Ok z | None => Throw "SyntaxError" end.

(** [BigInt(typeof v === "number" ? Math.trunc(v) : (v ?? "0"))] *)
Definition big (v : value) : result Z :=
  match v with
  | VNumber (JInt z) => Ok z
  | VNumber (JFrac f _) => Ok (if 0 <=? f then f else f + 1)
  | VNumber _ => Throw "RangeError"
  | VUndefined | VNull => Ok 0
  | VBool b => Ok (if b then 1 else 0)
  | _ => string_bigint (coerce v)
  end.

(** ** Data *)

Inductive Asset : Type := SOL | USDC.
Inductive Side : Type := side_A | side_B.
Inductive Kind : Type := contribution | payout | funding | anomaly.

#[export] Instance Asset_eq_dec : EqDecision Asset.
Proof. solve_decision. Defined.
#[export] Instance Side_eq_dec : EqDecision Side.
Proof. solve_decision. Defined.
#[export] Instance Kind_eq_dec : EqDecision Kind.
Proof. solve_decision. Defined.

Module SupportEvent.
Record t : Type := mk {
  kind : Kind;
  asset : Asset;
  amount : string;
  donor : option string;
  note : option string;
  side : option Side;
}.
End SupportEvent.

Module ParsedSupportTx.
Record t : Type := mk {
  signature : option string;
  slot : Z;
  blockTime : option Z;
  events : list SupportEvent.t;
}.
End ParsedSupportTx.

Module SupportAccounts.
Record t : Type := mk { programId : string; vault : string; vaultUsdc : string }.
End SupportAccounts.

Definition MEMO_PROGRAM_ID : string := "MemoSq4gqABAXKb96qnH8TysNcWxMyWCqXgDLGmfcHr".
Definition MEMO_PREFIX : string := "chainpay-support:v1".
Definition NOTE_MAX : nat := 80.

Definition PAID : list Z := [240; 193; 17; 238; 238; 210; 129; 235].
Definition VAULT_INITIALIZED : list Z := [180; 43; 207; 2; 18; 71; 3; 75].

Module ParsedIx.
Record t : Type := mk { program : option string; programId : option string; parsed : value }.
End ParsedIx.

Module TokenBalance.
Record t : Type := mk { accountIndex : Z; uiTokenAmount : value }.
End TokenBalance.

Module Meta.
Record t : Type := mk {
  err : value;
  preBalances : list value;
  postBalances : list value;
  preTokenBalances : option (list TokenBalance.t);
  postTokenBalances : option (list TokenBalance.t);
  innerInstructions : option (list (list ParsedIx.t));
  logMessages : option (list string);
}.
End Meta.

(** An account key: an object with its signer flag, or the key alone *)
Inductive AccountKey : Type := parsed_key (pubkey : string) (signer : bool) | plain_key (pubkey : string).

Module RpcTransaction.
Record t : Type := mk {
  slot : Z;
  blockTime : option Z;
  meta : option Meta.t;
  signatures : list string;
  accountKeys : list AccountKey;
  instructions : list ParsedIx.t;
}.
End RpcTransaction.

Definition key (k : AccountKey) : string := match k with parsed_key p _ | plain_key p => p end.

(** ** Memos *)

Fixpoint strip_prefix (p cs : list ascii) : option (list ascii) :=
  match p, cs with
  | [], _ => Some cs
  | a :: p, c :: cs => if bool_decide (a = c) then strip_prefix p cs else None
  | _ :: _, [] => None
  end.
Definition starts_with (p : string) (s : string) : bool :=
  match strip_prefix (chars p) (chars s) with Some _ => true | None => false end.

(** [[\u0000-\u001f\u007f-\u009f]] *)
Definition is_control (c : ascii) : bool :=
  let n := char_code c in (n <=? 31) || (127 <=? n) && (n <=? 159).

Module SupportMemo.
Record t : Type := mk { anon : bool; note : option string }.
End SupportMemo.

Definition parseSupportMemo (memo : option string) : SupportMemo.t :=
  match memo with
  | None => SupportMemo.mk false None
  | Some memo =>
      match strip_prefix (chars MEMO_PREFIX) (chars memo) with
      | None => SupportMemo.mk false None
      | Some rest =>
          if negb (bool_decide (rest = [])) && negb (bool_decide (head rest = Some " "%char))
          then SupportMemo.mk false None
          else
            let '(anon, rest) := match strip_prefix (chars " anon=1") rest with
                                 | Some rest => (true, rest)
                                 | None => (false, rest)
                                 end in
            SupportMemo.mk anon
              match strip_prefix (chars " note=") rest with
              | None => None
              | Some note =>
                  let clean := trim (text (List.filter (λ c, negb (is_control c)) note)) in
                  if bool_decide (clean = "") then None else Some (text (take NOTE_MAX (chars clean)))
              end
      end
  end.

(** ** Program logs *)

Definition startsWith (bs : bytes) (prefix : list Z) : bool :=
  bool_decide (take (length prefix) (map byte_val bs) = prefix).

Definition readU64 (bs : bytes) (offset : nat) : Z := le_val (slice bs offset 8).

(** [\w] *)
Definition is_word (c : ascii) : bool :=
  let n := char_code c in
  (65 <=? n) && (n <=? 90) || (97 <=? n) && (n <=? 122) || (48 <=? n) && (n <=? 57) || (n =? 95).

Fixpoint span (p : ascii → bool) (cs : list ascii) : list ascii * list ascii :=
  match cs with
  | c :: rest => if p c then let '(a, b) := span p rest in (c :: a, b) else ([], cs)
  | [] => ([], [])
  end.

(** [line.match(/^Program (\w+) invoke \[\d+\]$/)] *)
Definition invoke_of (line : string) : option string :=
  match strip_prefix (chars "Program ") (chars line) with
  | None => None
  | Some rest =>
      let '(word, rest) := span is_word rest in
      match word, strip_prefix (chars " invoke [") rest with
      | _ :: _, Some rest =>
          let '(depth, rest) := span is_digit rest in
          if negb (bool_decide (depth = [])) && bool_decide (rest = ["]"%char]) then Some (text word) else None
      | _, _ => None
      end
  end.

(** [/^Program \w+ (success|failed)/.test(line)] *)
Definition ends_call (line : string) : bool :=
  match strip_prefix (chars "Program ") (chars line) with
  | None => false
  | Some rest =>
      let '(word, rest) := span is_word rest in
      negb (bool_decide (word = [])) &&
      (starts_with " success" (text rest) || starts_with " failed" (text rest))
  end.

(** [line.match(/^Program data: (.+)$/)] *)
Definition data_of (line : string) : option string :=
  match strip_prefix (chars "Program data: ") (chars line) with
  | Some (c :: rest) =>
      if existsb (λ c, (char_code c =? 10) || (char_code c =? 13)) (c :: rest) then None else Some (text (c :: rest))
  | _ => None
  end.

Module Paid.
Record t : Type := mk { asset : Asset; side : Side; amount : Z }.
End Paid.

Module SplitterEvents.
Record t : Type := mk { paid : list Paid.t; initialized : bool }.
End SplitterEvents.

Definition byte_at (bs : bytes) (i : nat) : Z := match bs !! i with Some b => byte_val b | None => 0 end.

(** One event emitted by the program itself *)
Definition splitter_event (e : SplitterEvents.t) (bs : bytes) : SplitterEvents.t :=
  if startsWith bs PAID && Nat.leb 50 (length bs) && (byte_at bs 8 <=? 1) && (byte_at bs 9 <=? 1) then
    SplitterEvents.mk (e.(SplitterEvents.paid) ++
      [Paid.mk (if byte_at bs 8 =? 0 then SOL else USDC) (if byte_at bs 9 =? 0 then side_A else side_B) (readU64 bs 10)])
      e.(SplitterEvents.initialized)
  else if startsWith bs VAULT_INITIALIZED then SplitterEvents.mk e.(SplitterEvents.paid) true
  else e.

(** The loop over the lines; the top of the call stack comes first. *)
Fixpoint splitter_loop (logs : list string) (programId : string) (stack : list string) (e : SplitterEvents.t)
    : SplitterEvents.t :=
  match logs with
  | [] => e
  | line :: logs =>
      match invoke_of line with
      | Some program => splitter_loop logs programId (program :: stack) e
      | None =>
          if ends_call line then splitter_loop logs programId (tail stack) e
          else
            match data_of line with
            | Some data =>
                if bool_decide (head stack = Some programId) then
                  match atob data with
                  | Some bs => splitter_loop logs programId stack (splitter_event e bs)
                  | None => splitter_loop logs programId stack e
                  end
                else splitter_loop logs programId stack e
            | None => splitter_loop logs programId stack e
            end
      end
  end.

Definition splitterEvents (logs : list string) (programId : string) : SplitterEvents.t :=
  splitter_loop logs programId [] (SplitterEvents.mk [] false).

(** ** Transactions *)

Definition allInstructions (meta : Meta.t) (tx : RpcTransaction.t) : list ParsedIx.t :=
  tx.(RpcTransaction.instructions) ++ concat (default [] meta.(Meta.innerInstructions)).

Module Transfer.
Record t : Type := mk { asset : Asset; donor : option string; amount : Z }.
End Transfer.

Definition string_or_null (v : value) : option string := match v with VString s => Some s | _ => None end.

(** The transfers one instruction makes into the vault *)
Definition transfer_of (ix : ParsedIx.t) (accounts : SupportAccounts.t) : result (list Transfer.t) :=
  let parsed := ix.(ParsedIx.parsed) in
  let info := get parsed "info" in
  let to account := strict_eq (get info "destination") (VString account) in
  match parsed with
  | VObject _ =>
      if negb (truthy info) then Ok []
      else
        let type := get parsed "type" in
        let! sol :=
          if bool_decide (ix.(ParsedIx.program) = Some "system") && is_one_of ["transfer"] type
             && to accounts.(SupportAccounts.vault)
          then let! amount := big (get info "lamports") in
               Ok [Transfer.mk SOL (string_or_null (get info "source")) amount]
          else Ok [] in
        let! usdc :=
          if bool_decide (ix.(ParsedIx.program) = Some "spl-token") && is_one_of ["transfer"; "transferChecked"] type
             && to accounts.(SupportAccounts.vaultUsdc)
          then
            let! amount := big (if is_one_of ["transferChecked"] type
                                then get (get info "tokenAmount") "amount" else get info "amount") in
            let authority := coalesce (get info "authority") (get info "multisigAuthority") in
            Ok [Transfer.mk USDC (string_or_null authority) amount]
          else Ok [] in
        Ok (sol ++ usdc)
  | _ => Ok []
  end.

Definition transfersIntoVault (meta : Meta.t) (tx : RpcTransaction.t) (accounts : SupportAccounts.t)
    : result (list Transfer.t) :=
  result_map (@concat _) (traverse (λ ix, transfer_of ix accounts) (allInstructions meta tx)).

Definition is_memo (ix : ParsedIx.t) : bool :=
  (bool_decide (ix.(ParsedIx.programId) = Some MEMO_PROGRAM_ID) || bool_decide (ix.(ParsedIx.program) = Some "spl-memo"))
  && match ix.(ParsedIx.parsed) with VString _ => true | _ => false end.

Definition memoText (meta : Meta.t) (tx : RpcTransaction.t) : option string :=
  match List.find is_memo (allInstructions meta tx) with
  | Some ix => string_or_null ix.(ParsedIx.parsed)
  | None => None
  end.

(** [findIndex] *)
Fixpoint find_index (p : AccountKey → bool) (keys : list AccountKey) : option nat :=
  match keys with
  | [] => None
  | k :: keys => if p k then Some O else S <$> find_index p keys
  end.

Definition token_amount (index : nat) (balances : option (list TokenBalance.t)) : result Z :=
  big match List.find (λ b, b.(TokenBalance.accountIndex) =? Z.of_nat index) (default [] balances) with
      | Some b => get b.(TokenBalance.uiTokenAmount) "amount"
      | None => VUndefined
      end.

Definition balanceDelta (meta : Meta.t) (tx : RpcTransaction.t) (address : string) (asset : Asset) : result Z :=
  match find_index (λ k, bool_decide (key k = address)) tx.(RpcTransaction.accountKeys) with
  | None => Ok 0
  | Some index =>
      match asset with
      | SOL =>
          let! post := big (default VUndefined (meta.(Meta.postBalances) !! index)) in
          let! pre := big (default VUndefined (meta.(Meta.preBalances) !! index)) in
          Ok (post - pre)
      | USDC =>
          let! post := token_amount index meta.(Meta.postTokenBalances) in
          let! pre := token_amount index meta.(Meta.preTokenBalances) in
          Ok (post - pre)
      end
  end.

(** [new Set(keys)], in insertion order *)
Definition set_of (l : list string) : list string :=
  foldl (λ acc x, if bool_decide (x ∈ acc) then acc else acc ++ [x]) [] l.

Definition is_signer (k : AccountKey) : bool := match k with parsed_key _ s => s | plain_key _ => false end.

Definition total (l : list Z) : Z := foldr Z.add 0 l.

(** What the events of one asset need to know of the transaction *)
Module TxContext.
Record t : Type := mk {
  signers : list string;
  paid : list Paid.t;
  initialized : bool;
  hasSupportMemo : bool;
  memo : SupportMemo.t;
  transfers : list Transfer.t;
}.
End TxContext.

Definition contribution_of (c : TxContext.t) (asset : Asset) (t : Transfer.t) : list SupportEvent.t :=
  if t.(Transfer.amount) =? 0 then []
  else
    let signers := c.(TxContext.signers) in
    let donor :=
      match t.(Transfer.donor) with
      | Some d =>
          if bool_decide (asset = USDC) && negb (bool_decide (d ∈ signers))
          then if c.(TxContext.hasSupportMemo) && Nat.eqb (length signers) 1 then head signers else None
          else Some d
      | None => None
      end in
    let signed := match donor with Some d => bool_decide (d ∈ signers) | None => false end in
    [SupportEvent.mk contribution asset (toString t.(Transfer.amount))
       (if signed && c.(TxContext.memo).(SupportMemo.anon) then None else donor)
       (if signed then c.(TxContext.memo).(SupportMemo.note) else None) None].

Definition plain_event (kind : Kind) (asset : Asset) (amount : Z) : SupportEvent.t :=
  SupportEvent.mk kind asset (toString amount) None None None.

(** One round of the loop over the assets, given the vault's balance change *)
Definition asset_events (c : TxContext.t) (asset : Asset) (delta : Z) : list SupportEvent.t :=
  let payouts := List.filter (λ p, bool_decide (p.(Paid.asset) = asset)) c.(TxContext.paid) in
  let paidOut := total (map Paid.amount payouts) in
  let inflow := delta + paidOut in
  map (λ p, SupportEvent.mk payout asset (toString p.(Paid.amount)) None None (Some p.(Paid.side))) payouts ++
  (if inflow <? 0 then [plain_event anomaly asset (- inflow)]
   else if inflow =? 0 then []
   else if c.(TxContext.initialized) && bool_decide (asset = SOL) then [plain_event funding asset inflow]
   else
     let mine := List.filter (λ t, bool_decide (t.(Transfer.asset) = asset)) c.(TxContext.transfers) in
     let attributed := total (map Transfer.amount mine) in
     if inflow <? attributed then [plain_event contribution asset inflow]
     else concat (map (contribution_of c asset) mine) ++
          (if attributed <? inflow then [plain_event contribution asset (inflow - attributed)] else [])).

Definition tx_context (meta : Meta.t) (tx : RpcTransaction.t) (accounts : SupportAccounts.t) : result TxContext.t :=
  let signers := set_of (map key (List.filter is_signer tx.(RpcTransaction.accountKeys))) in
  let e := splitterEvents (default [] meta.(Meta.logMessages)) accounts.(SupportAccounts.programId) in
  let memo := memoText meta tx in
  let hasSupportMemo := match memo with Some m => starts_with "chainpay-support:v1" m | None => false end in
  let! transfers := transfersIntoVault meta tx accounts in
  Ok (TxContext.mk signers e.(SplitterEvents.paid) e.(SplitterEvents.initialized) hasSupportMemo
        (parseSupportMemo memo) transfers).

Definition parseSupportTx (tx : option RpcTransaction.t) (accounts : SupportAccounts.t)
    : result (option ParsedSupportTx.t) :=
  match tx with
  | None => Ok None
  | Some tx =>
      match tx.(RpcTransaction.meta) with
      | None => Ok None
      | Some meta =>
          if negb (strict_eq meta.(Meta.err) VNull) then Ok None
          else
            let! c := tx_context meta tx accounts in
            let! sol := balanceDelta meta tx accounts.(SupportAccounts.vault) SOL in
            let! usdc := balanceDelta meta tx accounts.(SupportAccounts.vaultUsdc) USDC in
            Ok (Some (ParsedSupportTx.mk (head tx.(RpcTransaction.signatures)) tx.(RpcTransaction.slot)
              tx.(RpcTransaction.blockTime) (asset_events c SOL sol ++ asset_events c USDC usdc)))
      end
  end.

(** ** Paging *)

Module SupportCursor.
(** [pending] is the pair [top], [before] *)
Record t : Type := mk { newest : option string; pending : option (string * string) }.
End SupportCursor.

Module SignatureInfo.
Record t : Type := mk { signature : string; err : value }.
End SignatureInfo.

(** A string that is missing or empty is falsy. *)
Definition present (v : option string) : option string :=
  match v with Some s => if bool_decide (s = "") then None else Some s | None => None end.

(** The [before] and [until] of the next request *)
Definition planPage (cursor : SupportCursor.t) : option string * option string :=
  (snd <$> cursor.(SupportCursor.pending), present cursor.(SupportCursor.newest)).

Definition advanceCursor (cursor : SupportCursor.t) (page : list SignatureInfo.t) (limit : nat) : SupportCursor.t :=
  match page with
  | [] => match cursor.(SupportCursor.pending) with
          | Some (top, _) => SupportCursor.mk (Some top) None
          | None => cursor
          end
  | first :: _ =>
      let top := match cursor.(SupportCursor.pending) with
                 | Some (top, _) => top
                 | None => first.(SignatureInfo.signature)
                 end in
      if Nat.ltb (length page) limit then SupportCursor.mk (Some top) None
      else SupportCursor.mk cursor.(SupportCursor.newest)
             (Some (top, (List.last page first).(SignatureInfo.signature)))
  end.

(** ** The public summary *)

Module StoredEvent.
Record t : Type := mk { event : SupportEvent.t; signature : string; blockTime : option Z; slot : Z }.
End StoredEvent.

Module Totals.
Record t : Type := mk { contributed : Z; paidA : Z; paidB : Z }.
End Totals.

(** [totals[asset]] after the loop over the rows *)
Fixpoint totals_of (asset : Asset) (rows : list StoredEvent.t) (t : Totals.t) : result Totals.t :=
  match rows with
  | [] => Ok t
  | row :: rows =>
      let e := row.(StoredEvent.event) in
      let! amount := string_bigint e.(SupportEvent.amount) in
      let t :=
        if negb (bool_decide (e.(SupportEvent.asset) = asset)) then t
        else match e.(SupportEvent.kind) with
             | contribution => Totals.mk (t.(Totals.contributed) + amount) t.(Totals.paidA) t.(Totals.paidB)
             | payout =>
                 match e.(SupportEvent.side) with
                 | Some side_A => Totals.mk t.(Totals.contributed) (t.(Totals.paidA) + amount) t.(Totals.paidB)
                 | _ => Totals.mk t.(Totals.contributed) t.(Totals.paidA) (t.(Totals.paidB) + amount)
                 end
             | _ => t
             end in
      totals_of asset rows t
  end.

Module Summary.
Record t : Type := mk {
  live : bool;
  sol : Totals.t;
  usdc : Totals.t;
  contributionCount : nat;
  recent : list StoredEvent.t;
  recentPayouts : list StoredEvent.t;
}.
End Summary.

Definition is_kind (kind : Kind) (row : StoredEvent.t) : bool :=
  bool_decide (row.(StoredEvent.event).(SupportEvent.kind) = kind).

(** [sort((a, b) => b.slot - a.slot)] *)
Definition newer (a b : StoredEvent.t) : bool := b.(StoredEvent.slot) <=? a.(StoredEvent.slot).

Definition summarize (rows : list StoredEvent.t) (live : bool) : result Summary.t :=
  let! sol := totals_of SOL rows (Totals.mk 0 0 0) in
  let! usdc := totals_of USDC rows (Totals.mk 0 0 0) in
  let newestFirst := sort_by newer rows in
  Ok (Summary.mk live sol usdc (length (List.filter (is_kind contribution) rows))
        (take 25 (List.filter (is_kind contribution) newestFirst))
        (take 10 (List.filter (is_kind payout) newestFirst))).

(** ** Configuration *)

Definition SUPPORT_CLUSTER : string := "devnet".
Definition SUPPORT_GENESIS : string := "EtWTRABZaYq6iMfeYKouRu166VU2xqa1wcaWoxPkrZBG".
Definition SUPPORT_USDC_MINT : string := "4zMMC9srt5Ri5X14GAgXhaHii3GnPAEERYPJgZJDncDU".

Module SupportEnv.
Record t : Type := mk {
  cluster : option string;
  rpc : option string;
  programId : option string;
  vault : option string;
  vaultUsdc : option string;
}.
End SupportEnv.

Inductive Config : Type := config_ok (rpc : string) (accounts : SupportAccounts.t) | config_missing (reason : string).

(** [[1-9A-HJ-NP-Za-km-z]] *)
Definition is_base58 (c : ascii) : bool :=
  let n := char_code c in
  (49 <=? n) && (n <=? 57) || (65 <=? n) && (n <=? 90) && negb (n =? 73) && negb (n =? 79)
  || (97 <=? n) && (n <=? 122) && negb (n =? 108).

Definition isAddress (s : string) : bool :=
  forallb is_base58 (chars s) && Nat.leb 32 (String.length s) && Nat.leb (String.length s) 44
  && negb (forallb (λ c, bool_decide (c = "1"%char)) (chars s)).

Definition supportServerConfig (env : SupportEnv.t) : Config :=
  match present env.(SupportEnv.rpc), present env.(SupportEnv.programId), present env.(SupportEnv.vault),
        present env.(SupportEnv.vaultUsdc) with
  | Some rpc, Some programId, Some vault, Some vaultUsdc =>
      if negb (bool_decide (env.(SupportEnv.cluster) = Some SUPPORT_CLUSTER))
      then config_missing "SUPPORT_CLUSTER must be devnet (support tips are Devnet only in this release)"
      else if negb (forallb isAddress [programId; vault; vaultUsdc])
              || negb (Nat.eqb (length (set_of [programId; vault; vaultUsdc])) 3)
      then config_missing "SUPPORT_PROGRAM_ID, SUPPORT_VAULT and SUPPORT_VAULT_USDC must be three different addresses"
      else config_ok rpc (SupportAccounts.mk programId vault vaultUsdc)
  | _, _, _, _ =>
      config_missing "SUPPORT_RPC_URL, SUPPORT_PROGRAM_ID, SUPPORT_VAULT or SUPPORT_VAULT_USDC not set"
  end.

Module IndexerTarget.
Record t : Type := mk {
  genesisHash : string;
  vaultOwner : option string;
  (** the mint and the owner of the token account *)
  vaultUsdc : option (string * string);
}.
End IndexerTarget.

Definition indexerTargetProblem (target : IndexerTarget.t) (accounts : SupportAccounts.t) : option string :=
  if negb (bool_decide (target.(IndexerTarget.genesisHash) = SUPPORT_GENESIS))
  then Some "SUPPORT_RPC_URL is not a Devnet RPC"
  else if negb (bool_decide (target.(IndexerTarget.vaultOwner) = Some accounts.(SupportAccounts.programId)))
  then Some "SUPPORT_VAULT is not owned by SUPPORT_PROGRAM_ID"
  else match target.(IndexerTarget.vaultUsdc) with
       | None => Some "SUPPORT_VAULT_USDC is not a token account"
       | Some (mint, owner) =>
           if negb (bool_decide (mint = SUPPORT_USDC_MINT)) then Some "SUPPORT_VAULT_USDC does not hold Devnet USDC"
           else if negb (bool_decide (owner = accounts.(SupportAccounts.vault)))
           then Some "SUPPORT_VAULT_USDC is not owned by SUPPORT_VAULT" else None
       end.

(** ** [BigInt] reads what [toString] prints *)

Lemma radix_digit_10 c : is_digit c = true → radix_digit 10 c = Some (char_digit c).
Proof.
  unfold is_digit, radix_digit, char_digit, char_code. intros H. bool_reflect.
  rewrite (proj2 (Z.leb_le 48 _)), (proj2 (Z.leb_le _ 57)) by lia. cbn [andb].
  by rewrite (proj2 (Z.ltb_lt _ 10)) by lia.
Qed.

Lemma radix_value_10 cs : ∀ acc,
  forallb is_digit cs = true → radix_value 10 acc cs = Some (acc * 10 ^ Z.of_nat (length cs) + chars_value cs).
Proof.
  induction cs as [|c cs IH]; intros acc H; cbn [radix_value length].
  { f_equal. change (chars_value []) with 0. rewrite Z.pow_0_r. lia. }
  cbn [forallb] in H. bool_reflect. rewrite radix_digit_10, IH, chars_value_cons by done. f_equal.
  rewrite Nat2Z.inj_succ, Z.pow_succ_r by lia. lia.
Qed.

Lemma nat_chars_cons n : 0 <= n → ∃ c cs, nat_chars n = c :: cs ∧ is_digit c = true ∧ (c = "0"%char → cs = []).
Proof.
  intros Hn. pose proof (nat_chars_digits n Hn) as Hd.
  assert (decimal_chars (dec_fuel n) (nat_chars n) = true) as Hp.
  { apply decimal_chars_nat. destruct (decide (n = 0)) as [->|]; [split; [done|]; by apply Z.pow_pos_nonneg|].
    pose proof (dec_fuel_enough n ltac:(lia)). split; [lia|].
    eapply Z.lt_le_trans; [apply H|]. apply Z.pow_le_mono_r; lia. }
  destruct (nat_chars n) as [|c cs]; [done|]. exists c, cs. cbn [forallb] in Hd. bool_reflect.
  split_and!; [done|done|]. intros ->. cbn [decimal_chars] in Hp. rewrite bool_decide_eq_true_2 in Hp by done.
  apply Nat.eqb_eq in Hp. by apply nil_length_inv in Hp.
Qed.

Lemma integer_literal_nat n : 0 <= n → integer_literal (nat_chars n) = Some n ∧ digits_value 10 (nat_chars n) = Some n.
Proof.
  intros Hn. destruct (nat_chars_cons n Hn) as (c & cs & E & Hc & H0).
  assert (digits_value 10 (nat_chars n) = Some n) as Hv.
  { pose proof (radix_value_10 (nat_chars n) 0 (nat_chars_digits n Hn)) as H. rewrite chars_value_nat in H by done.
    unfold digits_value. rewrite E in *. by rewrite H. }
  split; [|done]. rewrite E in *. unfold integer_literal.
  destruct (decide (c = "0"%char)) as [->|Hne]; [by rewrite (H0 eq_refl) in *|].
  by destruct c as [[] [] [] [] [] [] [] []].
Qed.

Lemma trim_digits (c : ascii) cs :
  is_space c = false → forallb (λ c, negb (is_space c)) cs = true → trim (text (c :: cs)) = text (c :: cs).
Proof.
  intros Hc Hcs. unfold trim. cbn [text String.string_of_list_ascii trim_start]. rewrite Hc.
  assert (∀ l, forallb (λ c, negb (is_space c)) l = true → trim_end (text l) = text l) as He.
  { induction l as [|x l IH]; intros Hl; [done|]. cbn [forallb] in Hl. bool_reflect.
    change (text (x :: l)) with (String.String x (text l)). cbn [trim_end]. rewrite IH by done.
    destruct (text l); [|done]. by rewrite H. }
  apply (He (c :: cs)). cbn [forallb]. by rewrite Hc.
Qed.

Lemma digit_not_space c : is_digit c = true → is_space c = false.
Proof.
  unfold is_digit, char_digit, is_space. intros H. cbv zeta. bool_reflect.
  rewrite !orb_false_iff, andb_false_iff, !N.eqb_neq, !N.leb_gt. lia.
Qed.

Lemma string_bigint_toString n : string_bigint (toString n) = Ok n.
Proof.
  unfold string_bigint, toString. destruct (n <? 0) eqn:E; bool_reflect.
  - destruct (nat_chars_cons (- n) ltac:(lia)) as (c & cs & Hn & Hc & _).
    pose proof (nat_chars_digits (- n) ltac:(lia)) as Hd. pose proof (integer_literal_nat (- n) ltac:(lia)) as [_ Hv].
    change (String.String "-" (text (nat_chars (- n)))) with (text ("-"%char :: nat_chars (- n))).
    rewrite trim_digits, chars_text; [|done|].
    + cbn [integer_literal]. rewrite Hv. simpl. f_equal. lia.
    + eapply forallb_impl; [|exact Hd]. intros x Hx. by rewrite digit_not_space.
  - destruct (nat_chars_cons n ltac:(lia)) as (c & cs & Hn & Hc & _).
    pose proof (nat_chars_digits n ltac:(lia)) as Hd. pose proof (integer_literal_nat n ltac:(lia)) as [Hv _].
    rewrite Hn in *. rewrite trim_digits, chars_text, Hv; [done|by apply digit_not_space|].
    cbn [forallb] in Hd. bool_reflect.
    eapply forallb_impl; [|done]. intros x Hx. by rewrite digit_not_space.
Qed.

(** ** Every change of the vault's balance is accounted for *)

Definition amount_of (e : SupportEvent.t) : Z :=
  match string_bigint e.(SupportEvent.amount) with Ok z => z | Throw _ => 0 end.

Definition of_kind (kind : Kind) (asset : Asset) (e : SupportEvent.t) : bool :=
  bool_decide (e.(SupportEvent.kind) = kind) && bool_decide (e.(SupportEvent.asset) = asset).

(** The sum of the events of one kind and asset *)
Definition sum_of (kind : Kind) (asset : Asset) (events : list SupportEvent.t) : Z :=
  total (map amount_of (List.filter (of_kind kind asset) events)).

(** What came in less what went out, by the events *)
Definition balance_of (asset : Asset) (events : list SupportEvent.t) : Z :=
  sum_of contribution asset events + sum_of funding asset events
  - sum_of anomaly asset events - sum_of payout asset events.

Lemma total_app l k : total (l ++ k) = total l + total k.
Proof. induction l; simpl; lia. Qed.

Lemma sum_of_app kind asset l k : sum_of kind asset (l ++ k) = sum_of kind asset l + sum_of kind asset k.
Proof. unfold sum_of. by rewrite List.filter_app, map_app, total_app. Qed.

Lemma balance_of_app asset l k : balance_of asset (l ++ k) = balance_of asset l + balance_of asset k.
Proof. unfold balance_of. rewrite !sum_of_app. lia. Qed.

Lemma amount_of_event kind asset z donor note side :
  amount_of (SupportEvent.mk kind asset (toString z) donor note side) = z.
Proof. unfold amount_of. simpl. by rewrite string_bigint_toString. Qed.

(** One event's share of the balance *)
Lemma balance_of_cons asset e l :
  balance_of asset (e :: l) =
    (if bool_decide (e.(SupportEvent.asset) = asset)
     then match e.(SupportEvent.kind) with contribution | funding => amount_of e | anomaly | payout => - amount_of e end
     else 0) + balance_of asset l.
Proof.
  unfold balance_of, sum_of, of_kind. cbn [List.filter].
  destruct (SupportEvent.kind e); simpl; case_bool_decide; simpl; lia.
Qed.

Lemma balance_other c asset asset' delta : asset ≠ asset' → balance_of asset (asset_events c asset' delta) = 0.
Proof.
  intros Hne. enough (Forall (λ e, e.(SupportEvent.asset) = asset') (asset_events c asset' delta)) as H.
  { induction H as [|e l He _ IH]; [done|]. rewrite balance_of_cons, IH, bool_decide_eq_false_2 by congruence. done. }
  unfold asset_events. cbv zeta. apply Forall_app. split; [by apply Forall_map, Forall_true|].
  assert (∀ l, Forall (λ e, e.(SupportEvent.asset) = asset') (concat (map (contribution_of c asset') l))) as Hc.
  { intros l. apply Forall_concat, Forall_map, Forall_true. intros t. unfold contribution_of. case_tests; repeat constructor. }
  case_tests; repeat constructor; apply Forall_app; (split; [apply Hc|]); repeat constructor.
Qed.

Lemma payouts_balance asset (l : list Paid.t) :
  balance_of asset (map (λ p, SupportEvent.mk payout asset (toString p.(Paid.amount)) None None (Some p.(Paid.side))) l)
    = - total (map Paid.amount l).
Proof.
  induction l as [|p l IH]; [done|]. cbn [map]. rewrite balance_of_cons, IH. simpl.
  rewrite bool_decide_eq_true_2, amount_of_event by done. lia.
Qed.

Lemma contributions_balance c asset (l : list Transfer.t) :
  balance_of asset (concat (map (contribution_of c asset) l)) = total (map Transfer.amount l).
Proof.
  induction l as [|t l IH]; [done|]. cbn [map concat]. rewrite balance_of_app, IH. cbn [total foldr]. f_equal.
  unfold contribution_of. destruct (Transfer.amount t =? 0) eqn:E; bool_reflect; [by rewrite E|].
  rewrite balance_of_cons. cbn [SupportEvent.kind SupportEvent.asset].
  rewrite bool_decide_eq_true_2, amount_of_event by done. change (balance_of asset []) with 0. lia.
Qed.

Lemma plain_balance kind asset z :
  balance_of asset [plain_event kind asset z] = match kind with contribution | funding => z | _ => - z end.
Proof.
  rewrite balance_of_cons. unfold plain_event. cbn [SupportEvent.kind SupportEvent.asset].
  rewrite bool_decide_eq_true_2, amount_of_event by done. change (balance_of asset []) with 0.
  destruct kind; lia.
Qed.

Lemma asset_events_balance c asset delta : balance_of asset (asset_events c asset delta) = delta.
Proof.
  unfold asset_events. cbv zeta. rewrite balance_of_app, payouts_balance.
  set (out := total _). destruct (delta + out <? 0) eqn:E1; bool_reflect; [rewrite plain_balance; lia|].
  destruct (delta + out =? 0) eqn:E2; bool_reflect; [change (balance_of asset []) with 0; lia|].
  destruct (_ && _); [rewrite plain_balance; lia|].
  destruct (_ <? _) eqn:E3; [rewrite plain_balance; lia|]. rewrite balance_of_app, contributions_balance.
  bool_reflect. destruct (_ <? _) eqn:E4; bool_reflect; [rewrite plain_balance; lia|].
  change (balance_of asset []) with 0. lia.
Qed.

(** ** Forged log lines *)

Lemma splitter_loop_quiet logs programId : ∀ stack e,
  Forall (λ line, invoke_of line ≠ Some programId) logs → programId ∉ stack → splitter_loop logs programId stack e = e.
Proof.
  induction logs as [|line logs IH]; intros stack e Hl Hs; simpl; [done|].
  apply Forall_cons in Hl as [Hline Hl].
  destruct (invoke_of line) as [p|]; [apply IH; [done|]; apply not_elem_of_cons; split; [congruence|done]|].
  assert (programId ∉ tail stack) by (destruct stack; [done|]; by apply not_elem_of_cons in Hs as [_ ?]).
  destruct (ends_call line); [by apply IH|]. destruct (data_of line); [|by apply IH].
  rewrite bool_decide_eq_false_2; [by apply IH|]. destruct stack as [|x stack]; [done|]. simpl. intros [= ->].
  apply Hs. by left.
Qed.
