(* ===== verification/CardGuards.v ===== *)
(** * What the owner's wallet is asked to sign (frontend/src/dashboard/cards/signingGuards.ts)

    The checks the dashboard makes on card transactions a server built: the
    three steps of a card's setup, and the restore the service has signed its
    half of.  A transaction is what web3.js deserializes; the instructions it is
    compared with are those of [CardInstructions]. *)
From Stdlib Require Import ZArith Lia Strings.Byte Strings.Ascii.
From stdpp Require Import base numbers sets strings list sorting.
From S2P Require Import Prelude Bytes PublicKey Types Encoding Borsh CardConstants CardAccounts Decimal CardPda CardInstructions Utf8 Values SupportParse.

(** ** Transactions of web3.js *)

Module Web3Key.
Record t : Type := mk { pubkey : bytes; isSigner : bool; isWritable : bool }.
End Web3Key.

Module Web3Instruction.
Record t : Type := mk { programId : bytes; keys : list Web3Key.t; data : bytes }.
End Web3Instruction.

Module Web3Transaction.
Record t : Type := mk {
  feePayer : option bytes;
  instructions : list Web3Instruction.t;
  (** a public key with its signature, once it has signed *)
  signatures : list (bytes * option bytes);
}.
End Web3Transaction.

(** ** What the server says it prepared (sdk/src/cards/api.ts) *)

Module CardAccountsView.
Record t : Type := mk { binding : string; policy : string; period : string; commitment : string; escrow : string }.
End CardAccountsView.

(** The fields of a [PreparedCard] the checks read *)
Module PreparedCard.
Record t : Type := mk {
  cardId : string;
  accounts : option CardAccountsView.t;
  teeValidator : Address;
  prefundLamports : string;
}.
End PreparedCard.

(** ** The checks *)

Definition SYSTEM_PROGRAM : Address := "11111111111111111111111111111111".
Definition MAX_PREFUND_LAMPORTS : Z := 5000000.
Definition MAX_ESCROW_TOP_UP_LAMPORTS : Z := 20000000.
Definition TOP_UP_DISCRIMINATOR : Z := 9.
Definition ESCROW_INDEX : Z := 255.
(** [Object.values(CARD_ISSUER)]: the Lithic sandbox and the simulator *)
Definition CARD_ISSUERS : list number := [JInt 1; JInt 2].

Definition SETUP_REFUSED : string :=
  "ChainPay sent a card setup step that does something other than set up this card, so it wasn't signed.".
Definition RESTORE_MISMATCH : string :=
  "The restore ChainPay prepared doesn't match the numbers you reviewed, so it wasn't signed.".

(** [try { ... } catch { throw new Error(refused) }] *)
Definition or_refused {A} (r : result A) (refused : string) : result A :=
  match r with Ok a => Ok a | Throw _ => Throw refused end.

Section Guards.
Context `{K : PublicKeys}.

Definition same_key (got : Web3Key.t) (key : AccountMeta.t) (owner : Address) : bool :=
  bool_decide (toBase58 got.(Web3Key.pubkey) = key.(AccountMeta.address))
  && Bool.eqb got.(Web3Key.isSigner) key.(AccountMeta.isSigner)
  && (bool_decide (key.(AccountMeta.address) = owner) || Bool.eqb got.(Web3Key.isWritable) key.(AccountMeta.isWritable)).

Definition sameInstruction (actual : Web3Instruction.t) (want : ChainPayInstruction.t) (owner : Address) : bool :=
  if negb (bool_decide (toBase58 actual.(Web3Instruction.programId) = want.(ChainPayInstruction.programId))) then false
  else if negb (Nat.eqb (length actual.(Web3Instruction.keys)) (length want.(ChainPayInstruction.keys))) then false
  else forallb (λ k, same_key k.1 k.2 owner) (zip actual.(Web3Instruction.keys) want.(ChainPayInstruction.keys))
       && bool_decide (actual.(Web3Instruction.data) = want.(ChainPayInstruction.data)).

Definition pays (transaction : Web3Transaction.t) (owner : Address) : bool :=
  match transaction.(Web3Transaction.feePayer) with Some payer => bool_decide (toBase58 payer = owner) | None => false end.

Definition onlyInstruction (transaction : Web3Transaction.t) (owner : Address) (refused : string) : result Web3Instruction.t :=
  throw_if! negb (pays transaction owner) with refused;
  match transaction.(Web3Transaction.instructions) with
  | [only] =>
      throw_if! existsb (λ entry, negb (bool_decide (toBase58 entry.1 = owner))
                                  && match entry.2 with None => true | Some _ => false end) transaction.(Web3Transaction.signatures)
        with refused;
      Ok only
  | _ => Throw refused
  end.

Definition served_accounts (prepared : PreparedCard.t) (a : CardAccountAddresses.t) : bool :=
  match prepared.(PreparedCard.accounts) with
  | Some served =>
      bool_decide (served.(CardAccountsView.binding) = a.(CardAccountAddresses.binding))
      && bool_decide (served.(CardAccountsView.policy) = a.(CardAccountAddresses.policy))
      && bool_decide (served.(CardAccountsView.period) = a.(CardAccountAddresses.period))
      && bool_decide (served.(CardAccountsView.commitment) = a.(CardAccountAddresses.commitment))
      && bool_decide (served.(CardAccountsView.escrow) = a.(CardAccountAddresses.escrow))
  | None => false
  end.

(** The instruction of steps 0 and 1, built again from what the transaction's own data decodes to *)
Definition card_instruction_for (step : Z) (decoded : CardInstruction.t) (owner : Address) (cardId : bytes)
    (prepared : PreparedCard.t) (programId : Address) : result ChainPayInstruction.t :=
  if step =? 0 then
    match decoded with
    | CardInstruction.initCard id issuer issuerCardRefHash prefundLamports =>
        throw_if! negb (bool_decide (bytesToHex id = bytesToHex cardId)) || negb (bool_decide (issuer ∈ CARD_ISSUERS)) with "wrong";
        throw_if! (MAX_PREFUND_LAMPORTS <? prefundLamports)
                  || negb (bool_decide (toString prefundLamports = prepared.(PreparedCard.prefundLamports))) with "wrong";
        buildInitCardInstruction owner cardId issuer issuerCardRefHash prefundLamports (Some programId)
    | _ => Throw "wrong"
    end
  else
    match decoded with
    | CardInstruction.delegateCard validator =>
        throw_if! negb (bool_decide (validator = prepared.(PreparedCard.teeValidator))) with "wrong";
        buildDelegateCardInstruction owner cardId validator (Some programId)
    | _ => Throw "wrong"
    end.

(** The escrow top-up whose data is [data] *)
Definition top_up_instruction (owner : Address) (a : CardAccountAddresses.t) (data : bytes) : ChainPayInstruction.t :=
  ChainPayInstruction.mk "top_up_escrow" DELEGATION_PROGRAM_ID
    [AccountMeta.mk owner true true; AccountMeta.mk a.(CardAccountAddresses.policy) false false;
     AccountMeta.mk a.(CardAccountAddresses.escrow) false true; AccountMeta.mk SYSTEM_PROGRAM false false] data.

Definition assertCardSetupTransaction (transaction : Web3Transaction.t) (step : Z) (owner : Address)
    (prepared : PreparedCard.t) (programId : Address) : result unit :=
  let! only := onlyInstruction transaction owner SETUP_REFUSED in
  let! cardId := or_refused (cardIdFromHex prepared.(PreparedCard.cardId)) SETUP_REFUSED in
  let! accounts := deriveCardAccounts owner cardId (Some programId) in
  throw_if! negb (served_accounts prepared accounts) with SETUP_REFUSED;
  if (step =? 0) || (step =? 1) then
    let! decoded := or_refused (decodeCardInstructionData only.(Web3Instruction.data)) SETUP_REFUSED in
    let! want := or_refused (card_instruction_for step decoded owner cardId prepared programId) SETUP_REFUSED in
    throw_if! negb (sameInstruction only want owner) with SETUP_REFUSED;
    Ok tt
  else if step =? 2 then
    let data := only.(Web3Instruction.data) in
    throw_if! negb (bool_decide (toBase58 only.(Web3Instruction.programId) = DELEGATION_PROGRAM_ID))
              || negb (Nat.eqb (length data) 17) with SETUP_REFUSED;
    let lamports := le_val (slice data 8 8) in
    throw_if! negb (le_val (slice data 0 8) =? TOP_UP_DISCRIMINATOR)
              || negb (byte_val (nth 16 data x00) =? ESCROW_INDEX)
              || (lamports <=? 0) || (MAX_ESCROW_TOP_UP_LAMPORTS <? lamports) with SETUP_REFUSED;
    throw_if! negb (sameInstruction only (top_up_instruction owner accounts data) owner) with SETUP_REFUSED;
    Ok tt
  else Throw SETUP_REFUSED.
End Guards.

(** ** Reviewing a restore *)

(** The card's rules, cents and seconds as decimal text; [periodIndex] where it is known *)
Module RecoveryRules.
Record t : Type := mk {
  maxPurchaseCents : string;
  maxPurchasesPerPeriod : number;
  periodSeconds : number;
  currency : string;
  merchantIdHashes : list string;
  mccs : list number;
  expiresAt : string;
  recurringAllowed : bool;
  feeBps : number;
  authorizer : string;
  periodIndex : option number;
}.
End RecoveryRules.

Module RecoveryNumber.
Record t : Type := mk { key : string; cents : option string; count : option number }.
End RecoveryNumber.

(** The fields of a [RecoveryReport] the checks read *)
Module RecoveryReport.
Record t : Type := mk {
  digest : string;
  snapshotLedgerSeq : string;
  numbers : list RecoveryNumber.t;
  rules : option RecoveryRules.t;
}.
End RecoveryReport.

(** The fields of a [CardPolicyView] (sdk/src/cards/tee.ts) that are rules *)
Module CardPolicyView.
Record t : Type := mk {
  authorizer : Address;
  maxPurchaseCents : string;
  maxPurchasesPerPeriod : number;
  periodSeconds : number;
  currency : string;
  merchantIdHashes : list string;
  mccs : list number;
  expiresAt : option string;
  recurringAllowed : bool;
  feeBps : number;
}.
End CardPolicyView.

Module ReviewedRestore.
Record t : Type := mk { rules : RecoveryRules.t; periodIndex : number }.
End ReviewedRestore.

Definition RECOVERY_NUMBER_KEYS : list string :=
  ["budget"; "captured"; "reserved"; "refunded"; "purchases"; "exceptions"; "outstanding"].

(** [row.cents ?? (row.count === undefined ? undefined : String(row.count))] *)
Definition shown_number (row : RecoveryNumber.t) : option string :=
  match row.(RecoveryNumber.cents), row.(RecoveryNumber.count) with
  | Some cents, _ => Some cents
  | None, Some count => Some (coerce (VNumber count))
  | None, None => None
  end.

(** [new Map(rows).get(key)]: the last row of a key *)
Fixpoint shown_as (rows : list RecoveryNumber.t) (key : string) : option string :=
  match rows with
  | [] => None
  | row :: rows =>
      if existsb (λ row, bool_decide (row.(RecoveryNumber.key) = key)) rows then shown_as rows key
      else if bool_decide (row.(RecoveryNumber.key) = key) then shown_number row else None
  end.

(** The numbers a restore writes, by the key they are shown under *)
Definition signed_numbers (args : RestoreArgs.t) : list (string * string) :=
  [("budget", toString args.(RestoreArgs.policy).(PolicyArgs.budgetCents));
   ("captured", toString args.(RestoreArgs.capturedCents));
   ("reserved", toString args.(RestoreArgs.reservedCents));
   ("refunded", toString args.(RestoreArgs.refundedCents));
   ("purchases", coerce (VNumber args.(RestoreArgs.purchasesCount)));
   ("exceptions", toString args.(RestoreArgs.exceptionCents));
   ("outstanding", toString args.(RestoreArgs.statementOutstandingCents))].

(** The keys are checked in their order; all fail with the same message. *)
Definition assertRestoreMatchesReport (args : RestoreArgs.t) (report : RecoveryReport.t) : result unit :=
  throw_if! negb (forallb (λ n, bool_decide (shown_as report.(RecoveryReport.numbers) n.1 = Some n.2)) (signed_numbers args))
    with RESTORE_MISMATCH;
  Ok tt.

(** [String(Math.floor(ms / 1000))] *)
Definition floor_seconds (ms : number) : string :=
  coerce (VNumber match ms with
                  | JInt z | JFrac z _ => JInt (z / 1000)
                  | n => n
                  end).

Definition rulesFromPolicy `{Codec} (policy : CardPolicyView.t) (period : option CardPeriod.t) : RecoveryRules.t :=
  let expires :=
    match policy.(CardPolicyView.expiresAt) with
    | None => "0"
    | Some at_ => match strip_prefix (chars "unix:") (chars at_) with
                  | Some rest => text rest
                  | None => floor_seconds (Date_parse at_)
                  end
    end in
  RecoveryRules.mk policy.(CardPolicyView.maxPurchaseCents) policy.(CardPolicyView.maxPurchasesPerPeriod)
    policy.(CardPolicyView.periodSeconds) policy.(CardPolicyView.currency) policy.(CardPolicyView.merchantIdHashes)
    policy.(CardPolicyView.mccs) expires policy.(CardPolicyView.recurringAllowed) policy.(CardPolicyView.feeBps)
    policy.(CardPolicyView.authorizer) (CardPeriod.periodIndex <$> period).

(** [toLowerCase] on code units below 256 *)
Definition lower_unit (c : ascii) : ascii :=
  let n := N_of_ascii c in
  if ((65 <=? n) && (n <=? 90) || (192 <=? n) && (n <=? 222) && negb (n =? 215))%N then ascii_of_N (n + 32) else c.
Definition lower_text (s : string) : string := text (map lower_unit (chars s)).

(** The order of [sort()]: by code unit *)
Definition str_leb (a b : string) : bool := String.leb a b.

(** [(a, b) => a - b]: of two numbers between the same integers either order gives a text with points, which no text of integers is. *)
Definition num_leb (a b : number) : bool :=
  match a, b with
  | (JInt x | JFrac x _), (JInt y | JFrac y _) => x <=? y
  | JInfinity p, _ => negb p
  | _, JInfinity p => p
  | _, _ => true
  end.

Definition sortedHex (values : list string) : string := String.concat "," (sort_by str_leb (map lower_text values)).
Definition sortedNumbers (values : list number) : string :=
  String.concat "," (map (λ n, coerce (VNumber n)) (sort_by num_leb values)).

Definition numbers_differ (a b : number) : bool := negb (strict_eq (VNumber a) (VNumber b)).
Definition texts_differ (a b : string) : bool := negb (bool_decide (a = b)).

(** The name of each rule, with whether two sets of rules disagree on it *)
Definition rule_tests (a b : RecoveryRules.t) : list (string * bool) :=
  [("max per purchase", texts_differ a.(RecoveryRules.maxPurchaseCents) b.(RecoveryRules.maxPurchaseCents));
   ("purchases per period", numbers_differ a.(RecoveryRules.maxPurchasesPerPeriod) b.(RecoveryRules.maxPurchasesPerPeriod));
   ("period length", numbers_differ a.(RecoveryRules.periodSeconds) b.(RecoveryRules.periodSeconds));
   ("currency", texts_differ a.(RecoveryRules.currency) b.(RecoveryRules.currency));
   ("shops", negb (Nat.eqb (length a.(RecoveryRules.merchantIdHashes)) (length b.(RecoveryRules.merchantIdHashes)))
             || texts_differ (sortedHex a.(RecoveryRules.merchantIdHashes)) (sortedHex b.(RecoveryRules.merchantIdHashes)));
   ("categories", negb (Nat.eqb (length a.(RecoveryRules.mccs)) (length b.(RecoveryRules.mccs)))
                  || texts_differ (sortedNumbers a.(RecoveryRules.mccs)) (sortedNumbers b.(RecoveryRules.mccs)));
   ("end date", texts_differ a.(RecoveryRules.expiresAt) b.(RecoveryRules.expiresAt));
   ("repeat charges", negb (Bool.eqb a.(RecoveryRules.recurringAllowed) b.(RecoveryRules.recurringAllowed)));
   ("fee", numbers_differ a.(RecoveryRules.feeBps) b.(RecoveryRules.feeBps));
   ("ChainPay approver", texts_differ a.(RecoveryRules.authorizer) b.(RecoveryRules.authorizer))].

Definition rulesDifferences (a b : RecoveryRules.t) : list string := map fst (filter (λ t, t.2 = true) (rule_tests a b)).

(** [theirs?.periodIndex ?? mine?.periodIndex] *)
Definition known_period (theirs mine : option RecoveryRules.t) : option number :=
  match theirs ≫= RecoveryRules.periodIndex with
  | Some p => Some p
  | None => mine ≫= RecoveryRules.periodIndex
  end.

Definition reviewedRestore `{Codec} (report : RecoveryReport.t) (policy : option CardPolicyView.t) (period : option CardPeriod.t) :
    result ReviewedRestore.t :=
  let mine := (λ p, rulesFromPolicy p period) <$> policy in
  let theirs := report.(RecoveryReport.rules) in
  let! _ := match mine, theirs with
            | Some mine, Some theirs =>
                throw_if! negb (Nat.eqb (length (rulesDifferences mine theirs)) 0)
                  with "ChainPay's report shows different card rules than your private records ("
                       +:+ String.concat ", " (rulesDifferences mine theirs) +:+ "), so nothing was signed.";
                Ok tt
            | _, _ => Ok tt
            end in
  match match mine with Some r => Some r | None => theirs end with
  | None => Throw "ChainPay's report doesn't show this card's rules and your private records can't be read, so the restore can't be checked. Nothing was signed."
  | Some rules =>
      match known_period theirs mine with
      | None => Throw "ChainPay's report doesn't say which period it restores, so nothing was signed."
      | Some periodIndex => Ok (ReviewedRestore.mk rules periodIndex)
      end
  end.

(** The rules a restore writes *)
Definition signed_rules (args : RestoreArgs.t) : RecoveryRules.t :=
  let p := args.(RestoreArgs.policy) in
  RecoveryRules.mk (toString p.(PolicyArgs.maxPurchaseCents)) p.(PolicyArgs.maxPurchasesPerPeriod) p.(PolicyArgs.periodSeconds)
    p.(PolicyArgs.currency) (map bytesToHex p.(PolicyArgs.merchantIdHashes)) p.(PolicyArgs.mccs)
    (toString p.(PolicyArgs.expiresAt)) p.(PolicyArgs.recurringAllowed) p.(PolicyArgs.feeBps) p.(PolicyArgs.authorizer) None.

Section Restore.
Context `{K : PublicKeys}.

Definition restored_data (only : Web3Instruction.t) : result RestoreArgs.t :=
  let! decoded := or_refused (decodeCardInstructionData only.(Web3Instruction.data)) RESTORE_MISMATCH in
  match decoded with CardInstruction.restore args => Ok args | _ => Throw RESTORE_MISMATCH end.

Definition restore_differences (args : RestoreArgs.t) (reviewed : ReviewedRestore.t) : list string :=
  rulesDifferences (signed_rules args) reviewed.(ReviewedRestore.rules)
  ++ (if numbers_differ args.(RestoreArgs.periodIndex) reviewed.(ReviewedRestore.periodIndex) then ["period"] else []).

Definition has_signed (transaction : Web3Transaction.t) (a : Address) : bool :=
  existsb (λ entry, bool_decide (toBase58 entry.1 = a) && match entry.2 with Some _ => true | None => false end)
    transaction.(Web3Transaction.signatures).

(** The co-signer the instruction names, and the instruction itself *)
Definition cosigned (transaction : Web3Transaction.t) (only : Web3Instruction.t) (args : RestoreArgs.t) (owner : Address)
    (cardId : bytes) (programId : Address) (reviewed : RecoveryRules.t) : result unit :=
  match only.(Web3Instruction.keys) with
  | _ :: key :: _ =>
      let authorizer := toBase58 key.(Web3Key.pubkey) in
      throw_if! bool_decide (authorizer = "") || bool_decide (authorizer = owner)
                || texts_differ authorizer reviewed.(RecoveryRules.authorizer)
                || texts_differ args.(RestoreArgs.policy).(PolicyArgs.authorizer) reviewed.(RecoveryRules.authorizer)
        with RESTORE_MISMATCH;
      let! want := buildRestoreInstruction owner cardId authorizer args (Some programId) in
      throw_if! negb (sameInstruction only want owner) with RESTORE_MISMATCH;
      throw_if! negb (has_signed transaction authorizer) with "ChainPay's half of the restore isn't signed yet, so it wasn't signed.";
      Ok tt
  | _ => Throw RESTORE_MISMATCH
  end.

Definition assertCoSignedRestore (transaction : Web3Transaction.t) (owner : Address) (cardId : bytes) (programId : Address)
    (report : RecoveryReport.t) (reviewed : ReviewedRestore.t) : result RestoreArgs.t :=
  match transaction.(Web3Transaction.instructions) with
  | [only] =>
      let! program := newPublicKey programId in
      throw_if! negb (bool_decide (only.(Web3Instruction.programId) = program)) with RESTORE_MISMATCH;
      throw_if! negb (pays transaction owner) with RESTORE_MISMATCH;
      let! args := restored_data only in
      throw_if! texts_differ (bytesToHex args.(RestoreArgs.reconDigest)) report.(RecoveryReport.digest) with RESTORE_MISMATCH;
      let! _ := assertRestoreMatchesReport args report in
      let differs := restore_differences args reviewed in
      throw_if! negb (Nat.eqb (length differs) 0)
        with "The restore ChainPay prepared changes " +:+ String.concat ", " differs +:+ ", which you didn't review, so it wasn't signed.";
      let! snapshotSeq := or_refused (string_bigint report.(RecoveryReport.snapshotLedgerSeq)) RESTORE_MISMATCH in
      throw_if! args.(RestoreArgs.ledgerSeq) <? snapshotSeq with RESTORE_MISMATCH;
      let! _ := cosigned transaction only args owner cardId programId reviewed.(ReviewedRestore.rules) in
      Ok args
  | _ => Throw RESTORE_MISMATCH
  end.
End Restore.
