(* ===== verification/CardGuardsProps.v ===== *)
(** * What the signing guards let through

    The card setup and the restore a wallet is asked to sign are, in every
    field the chain acts on, the ones the owner confirmed. *)
From Stdlib Require Import ZArith Lia Strings.Byte Strings.Ascii.
From stdpp Require Import base numbers sets strings list sorting.
From S2P Require Import Prelude Bytes PublicKey Types Encoding Borsh CardConstants CardAccounts Decimal CardPda CardInstructions Utf8 Values SupportParse CardGuards.

(** ** What the checks guarantee *)

(** [ix] is [want], but for the writable flag of the owner, who pays *)
Definition carries `{K : PublicKeys} (ix : Web3Instruction.t) (want : ChainPayInstruction.t) (owner : Address) : Prop :=
  toBase58 ix.(Web3Instruction.programId) = want.(ChainPayInstruction.programId) ∧
  ix.(Web3Instruction.data) = want.(ChainPayInstruction.data) ∧
  Forall2 (λ got key, toBase58 got.(Web3Key.pubkey) = key.(AccountMeta.address) ∧
                      got.(Web3Key.isSigner) = key.(AccountMeta.isSigner) ∧
                      (key.(AccountMeta.address) = owner ∨ got.(Web3Key.isWritable) = key.(AccountMeta.isWritable)))
    ix.(Web3Instruction.keys) want.(ChainPayInstruction.keys).

(** The transaction is [ix] alone, paid by the owner, and waits for nobody else's signature. *)
Definition lone_instruction `{K : PublicKeys} (transaction : Web3Transaction.t) (owner : Address) (ix : Web3Instruction.t) : Prop :=
  (toBase58 <$> transaction.(Web3Transaction.feePayer)) = Some owner ∧
  transaction.(Web3Transaction.instructions) = [ix] ∧
  ∀ k, (k, None) ∈ transaction.(Web3Transaction.signatures) → toBase58 k = owner.

Definition top_up_data (lamports : Z) : bytes := le_bytes 8 9 ++ le_bytes 8 lamports ++ [byte_of 255].

(** The instruction of each setup step of a card *)
Inductive setup_step `{K : PublicKeys} (owner : Address) (cardId : bytes) (prepared : PreparedCard.t) (programId : Address)
    (a : CardAccountAddresses.t) : Z → ChainPayInstruction.t → Prop :=
| step_init issuer ref prefund want :
    issuer ∈ CARD_ISSUERS → prefund <= 5000000 → toString prefund = prepared.(PreparedCard.prefundLamports) →
    buildInitCardInstruction owner cardId issuer ref prefund (Some programId) = Ok want →
    setup_step owner cardId prepared programId a 0 want
| step_delegate want :
    buildDelegateCardInstruction owner cardId prepared.(PreparedCard.teeValidator) (Some programId) = Ok want →
    setup_step owner cardId prepared programId a 1 want
| step_top_up lamports :
    0 < lamports <= 20000000 →
    setup_step owner cardId prepared programId a 2 (top_up_instruction owner a (top_up_data lamports)).

Definition served `{K : PublicKeys} (prepared : PreparedCard.t) (a : CardAccountAddresses.t) : Prop :=
  prepared.(PreparedCard.accounts)
  = Some (CardAccountsView.mk a.(CardAccountAddresses.binding) a.(CardAccountAddresses.policy) a.(CardAccountAddresses.period)
            a.(CardAccountAddresses.commitment) a.(CardAccountAddresses.escrow)).

Section Setup.
Context `{K : PublicKeys, KS : !PublicKeysSpec K}.

Lemma same_key_true got key owner :
  same_key got key owner = true ↔
  toBase58 got.(Web3Key.pubkey) = key.(AccountMeta.address) ∧ got.(Web3Key.isSigner) = key.(AccountMeta.isSigner) ∧
  (key.(AccountMeta.address) = owner ∨ got.(Web3Key.isWritable) = key.(AccountMeta.isWritable)).
Proof. unfold same_key. rewrite !andb_true_iff, orb_true_iff, !eqb_true_iff, !bool_decide_eq_true. tauto. Qed.

Lemma same_keys_true gots keys owner :
  length gots = length keys ∧ forallb (λ k, same_key k.1 k.2 owner) (zip gots keys) = true ↔
  Forall2 (λ got key, same_key got key owner = true) gots keys.
Proof.
  revert keys. induction gots as [|got gots IH]; intros [|key keys]; cbn.
  - split; [constructor|done].
  - split; [by intros [? _]|intros H; inversion H].
  - split; [by intros [? _]|intros H; inversion H].
  - rewrite Forall2_cons, <- IH, andb_true_iff. intuition lia.
Qed.

Lemma sameInstruction_iff ix want owner : sameInstruction ix want owner = true ↔ carries ix want owner.
Proof.
  unfold sameInstruction, carries.
  assert (∀ gots keys, Forall2 (λ got key, same_key got key owner = true) gots keys ↔
    Forall2 (λ got key, toBase58 got.(Web3Key.pubkey) = key.(AccountMeta.address) ∧
       got.(Web3Key.isSigner) = key.(AccountMeta.isSigner) ∧
       (key.(AccountMeta.address) = owner ∨ got.(Web3Key.isWritable) = key.(AccountMeta.isWritable))) gots keys) as Hk.
  { intros gots keys. split; intros H; (eapply Forall2_impl; [exact H|]); intros ??; apply same_key_true. }
  rewrite <- Hk, <- same_keys_true.
  destruct (decide (toBase58 ix.(Web3Instruction.programId) = want.(ChainPayInstruction.programId))) as [Ep|Ep];
    [rewrite (bool_decide_eq_true_2 _ Ep)|rewrite (bool_decide_eq_false_2 _ Ep)]; cbn [negb]; [|intuition done].
  destruct (Nat.eqb_spec (length ix.(Web3Instruction.keys)) (length want.(ChainPayInstruction.keys))) as [E|E]; cbn [negb]; [|intuition done].
  rewrite andb_true_iff, bool_decide_eq_true. tauto.
Qed.

Lemma pays_iff transaction owner : pays transaction owner = true ↔ (toBase58 <$> transaction.(Web3Transaction.feePayer)) = Some owner.
Proof. unfold pays. destruct (Web3Transaction.feePayer _); cbn; [|done]. rewrite bool_decide_eq_true. split; congruence. Qed.

Lemma onlyInstruction_iff transaction owner refused ix :
  onlyInstruction transaction owner refused = Ok ix ↔ lone_instruction transaction owner ix.
Proof.
  unfold onlyInstruction, lone_instruction. rewrite <- pays_iff. destruct (pays transaction owner); cbn [negb]; [|intuition done].
  destruct (Web3Transaction.instructions transaction) as [|only [|]]; [intuition done| |intuition done].
  assert (existsb (λ entry, negb (bool_decide (toBase58 entry.1 = owner)) && match entry.2 with None => true | Some _ => false end)
            transaction.(Web3Transaction.signatures) = false ↔
          ∀ k, (k, None) ∈ transaction.(Web3Transaction.signatures) → toBase58 k = owner) as H.
  { rewrite <- not_true_iff_false, existsb_exists. split.
    - intros Hn k Hk. destruct (decide (toBase58 k = owner)); [done|]. exfalso. apply Hn. exists (k, None).
      rewrite <- list_elem_of_In. split; [done|]. cbn. by rewrite bool_decide_eq_false_2.
    - intros Ha ([k [s|]] & Hin%list_elem_of_In & Hk); cbn in Hk; [by rewrite andb_false_r in Hk|].
      rewrite andb_true_r, negb_true_iff, bool_decide_eq_false in Hk. by apply Hk, Ha. }
  destruct (existsb _ _) eqn:E; rewrite <- H; intuition congruence.
Qed.

Lemma served_iff prepared a : served_accounts prepared a = true ↔ served prepared a.
Proof.
  unfold served_accounts, served. destruct (PreparedCard.accounts prepared) as [v|]; [|done].
  rewrite !andb_true_iff, !bool_decide_eq_true. destruct v; cbn. split; [intros [[[[-> ->] ->] ->] ->]; done|intros [= -> -> -> -> ->]; done].
Qed.

Lemma le_val_top_up lamports :
  0 < lamports <= 20000000 →
  length (top_up_data lamports) = 17%nat ∧ le_val (slice (top_up_data lamports) 0 8) = 9 ∧
  le_val (slice (top_up_data lamports) 8 8) = lamports ∧ byte_val (nth 16 (top_up_data lamports) x00) = 255.
Proof.
  intros H. unfold top_up_data, slice. split_and!.
  - by rewrite !length_app, !le_bytes_length.
  - rewrite drop_0, take_app_length' by (by rewrite le_bytes_length). by vm_compute.
  - rewrite drop_app_length' by (by rewrite le_bytes_length). rewrite take_app_length' by (by rewrite le_bytes_length).
    apply le_val_bytes_small. lia.
  - rewrite app_nth2; rewrite le_bytes_length; [|lia]. rewrite app_nth2; rewrite le_bytes_length; [|lia]. by vm_compute.
Qed.

Lemma top_up_read data :
  length data = 17%nat → le_val (slice data 0 8) = 9 → byte_val (nth 16 data x00) = 255 → data = top_up_data (le_val (slice data 8 8)).
Proof.
  intros Hl H9 H255. unfold top_up_data.
  assert (∀ o, (o + 8 <= 17)%nat → le_bytes 8 (le_val (slice data o 8)) = slice data o 8) as Hr.
  { intros o Ho. assert (length (slice data o 8) = 8%nat) as H8 by (unfold slice; rewrite length_take, length_drop; lia).
    rewrite <- H8 at 1. apply le_bytes_val. }
  rewrite Hr by lia. rewrite <- H9, Hr by lia. rewrite <- H255, byte_of_val. unfold slice.
  rewrite <- (take_drop 8 data) at 1. rewrite drop_0. f_equal. rewrite <- (take_drop 8 (drop 8 data)) at 1. f_equal.
  rewrite drop_drop. change (8 + 8)%nat with 16%nat.
  destruct (drop 16 data) as [|b rest] eqn:E; [apply (f_equal length) in E; rewrite length_drop in E; cbn in E; lia|].
  assert (rest = []) as -> by (apply length_zero_iff_nil; apply (f_equal length) in E; rewrite length_drop in E; cbn in E; lia).
  f_equal. rewrite <- (Nat.add_0_r 16), <- nth_skipn. change (skipn 16 data) with (drop 16 data). by rewrite E.
Qed.
End Setup.

Section SetupTheorem.
Context `{K : PublicKeys, KS : !PublicKeysSpec K}.

Lemma or_refused_ok {A} (r : result A) m a : or_refused r m = Ok a ↔ r = Ok a.
Proof. by destruct r. Qed.

(** Steps 0 and 1: what the data decodes to is built again, and what is built decodes to itself. *)
Lemma card_step_iff step ix owner cardId prepared programId a :
  step = 0 ∨ step = 1 →
  (∃ decoded want, decodeCardInstructionData ix.(Web3Instruction.data) = Ok decoded ∧
     card_instruction_for step decoded owner cardId prepared programId = Ok want ∧ carries ix want owner)
  ↔ ∃ want, setup_step owner cardId prepared programId a step want ∧ carries ix want owner.
Proof.
  intros Hs. split.
  - intros (decoded & want & _ & Hw & Hc). exists want. split; [|done]. unfold card_instruction_for in Hw.
    destruct Hs as [-> | ->]; cbn [Z.eqb Pos.eqb] in Hw; destruct decoded; try done.
    + apply if_throw_ok in Hw as [H1 Hw]. apply if_throw_ok in Hw as [H2 Hw]. bool_reflect. by apply (step_init _ _ _ _ _ issuer issuerCardRefHash prefundLamports).
    + apply if_throw_ok in Hw as [H1 Hw]. bool_reflect. subst validator. by apply step_delegate.
  - intros (want & Hw & Hc). destruct Hw as [issuer ref prefund want Hi Hm Hp Hb|want Hb|]; [| |lia].
    + assert (decodeCardInstructionData ix.(Web3Instruction.data) = Ok (CardInstruction.initCard cardId issuer ref prefund)) as Hd.
      { pose proof Hb as Hb'. unfold buildInitCardInstruction in Hb'. inv_ok Hb'. apply build_ok in Hb' as (_ & _ & Hd).
        destruct Hc as (_ & -> & _). by apply decode_encoded. }
      exists (CardInstruction.initCard cardId issuer ref prefund), want. split_and!; [done| |done].
      unfold card_instruction_for. cbn [Z.eqb]. rewrite !bool_decide_eq_true_2 by done. cbn [negb orb].
      rewrite (proj2 (Z.ltb_ge _ _)) by (unfold MAX_PREFUND_LAMPORTS; lia). done.
    + assert (decodeCardInstructionData ix.(Web3Instruction.data) = Ok (CardInstruction.delegateCard prepared.(PreparedCard.teeValidator))) as Hd.
      { pose proof Hb as Hb'. unfold buildDelegateCardInstruction in Hb'. apply if_throw_ok in Hb' as [_ Hb']. inv_ok Hb'. apply build_ok in Hb' as (_ & _ & Hd).
        destruct Hc as (_ & -> & _). by apply decode_encoded. }
      exists (CardInstruction.delegateCard prepared.(PreparedCard.teeValidator)), want. split_and!; [done| |done].
      unfold card_instruction_for. cbn [Z.eqb Pos.eqb]. by rewrite bool_decide_eq_true_2.
Qed.

(** Step 2: the data is a top-up of an amount within the cap. *)
Definition top_up_checks (ix : Web3Instruction.t) : bool :=
  let data := ix.(Web3Instruction.data) in
  let lamports := le_val (slice data 8 8) in
  negb (negb (bool_decide (toBase58 ix.(Web3Instruction.programId) = DELEGATION_PROGRAM_ID)) || negb (Nat.eqb (length data) 17))
  && negb (negb (le_val (slice data 0 8) =? TOP_UP_DISCRIMINATOR) || negb (byte_val (nth 16 data x00) =? ESCROW_INDEX)
           || (lamports <=? 0) || (MAX_ESCROW_TOP_UP_LAMPORTS <? lamports)).

Lemma top_up_iff ix owner cardId prepared programId a :
  top_up_checks ix = true ∧ carries ix (top_up_instruction owner a ix.(Web3Instruction.data)) owner
  ↔ ∃ want, setup_step owner cardId prepared programId a 2 want ∧ carries ix want owner.
Proof.
  unfold top_up_checks, TOP_UP_DISCRIMINATOR, ESCROW_INDEX, MAX_ESCROW_TOP_UP_LAMPORTS. split.
  - intros [Ht Hc]. rewrite !andb_true_iff, !negb_true_iff, !orb_false_iff, !negb_false_iff, !Z.eqb_eq, Z.leb_gt, Z.ltb_ge, Nat.eqb_eq in Ht.
    destruct Ht as [[_ Hl] [[[H9 H255] Hpos] Hmax]]. pose proof (top_up_read _ Hl H9 H255) as Hd.
    rewrite Hd in Hc. eexists. split; [by apply (step_top_up _ _ _ _ _ (le_val (slice ix.(Web3Instruction.data) 8 8)))|done].
  - intros (want & Hw & Hc). inversion Hw as [| |lamports Hr E]; subst; clear Hw.
    destruct (le_val_top_up lamports Hr) as (Hl & H9 & Hv & H255). destruct Hc as (Hp & Hd & Hk). cbn [ChainPayInstruction.programId ChainPayInstruction.data ChainPayInstruction.keys top_up_instruction] in *.
    split; [|by split_and!]. rewrite Hd, Hl, H9, Hv, H255, (bool_decide_eq_true_2 _ Hp). cbn [negb orb Nat.eqb andb].
    rewrite (proj2 (Z.leb_gt _ _)), (proj2 (Z.ltb_ge _ _)) by lia. done.
Qed.

(** C22: A card setup transaction is passed to the owner's wallet exactly when it is one instruction, paid by the owner and
    waiting for no other signer, and that instruction is the one the SDK builds for this step of this card: the
    creation with a known issuer and the prefund that was shown, at most 5,000,000 lamports; the delegation to the
    validator that was shown, one of those allowed; or a top-up of the card's own escrow by at most 20,000,000
    lamports; and the accounts that were shown are the card's. *)
Theorem setup_signed_iff transaction step owner prepared programId :
  assertCardSetupTransaction transaction step owner prepared programId = Ok tt ↔
  ∃ ix cardId a want,
    lone_instruction transaction owner ix ∧ cardIdFromHex prepared.(PreparedCard.cardId) = Ok cardId ∧
    deriveCardAccounts owner cardId (Some programId) = Ok a ∧ served prepared a ∧
    setup_step owner cardId prepared programId a step want ∧ carries ix want owner.
Proof.
  unfold assertCardSetupTransaction. split.
  - intros H. apply bind_ok in H as (ix & Hix & H). apply bind_ok in H as (cardId & Hid & H). apply bind_ok in H as (a & Ha & H).
    apply if_throw_ok in H as [Hs H]. apply negb_false_iff, served_iff in Hs. apply onlyInstruction_iff in Hix. apply or_refused_ok in Hid.
    exists ix, cardId, a.
    enough (∃ want, setup_step owner cardId prepared programId a step want ∧ carries ix want owner) as (want & ? & ?) by (exists want; by split_and!).
    destruct ((step =? 0) || (step =? 1)) eqn:E01.
    + apply bind_ok in H as (decoded & Hd & H). apply bind_ok in H as (want & Hw & H). apply if_throw_ok in H as [Hsame _].
      apply or_refused_ok in Hd, Hw. apply negb_false_iff, sameInstruction_iff in Hsame.
      apply card_step_iff; [lia|]. by exists decoded, want.
    + destruct (step =? 2) eqn:E2; [|done]. apply Z.eqb_eq in E2 as ->.
      apply if_throw_ok in H as [H1 H]. apply if_throw_ok in H as [H2 H]. apply if_throw_ok in H as [H3 _].
      apply negb_false_iff, sameInstruction_iff in H3. apply top_up_iff. split; [|done].
      unfold top_up_checks. by rewrite H1, H2.
  - intros (ix & cardId & a & want & Hix & Hid & Ha & Hs & Hw & Hc).
    apply (onlyInstruction_iff _ _ SETUP_REFUSED) in Hix. apply served_iff in Hs. rewrite Hix, Hid. cbn [bind or_refused].
    rewrite Ha. cbn [bind]. rewrite Hs. cbn [negb].
    destruct (decide (step = 0 ∨ step = 1)) as [E|E].
    + rewrite (proj2 (orb_true_iff _ _)) by (rewrite !Z.eqb_eq; done).
      destruct (proj2 (card_step_iff step ix owner cardId prepared programId a E)) as (decoded & want' & Hd & Hw' & Hc'); [by exists want|].
      rewrite Hd. cbn [or_refused bind]. rewrite Hw'. cbn [or_refused bind]. by rewrite (proj2 (sameInstruction_iff _ _ _) Hc').
    + assert (step = 2) as -> by (destruct Hw; [lia|lia|done]). cbn [Z.eqb Pos.eqb orb].
      destruct (proj2 (top_up_iff ix owner cardId prepared programId a)) as [Ht Hc']; [by exists want|].
      unfold top_up_checks in Ht. apply andb_true_iff in Ht as [H1 H2]. apply negb_true_iff in H1, H2. rewrite H1, H2.
      by rewrite (proj2 (sameInstruction_iff _ _ _) Hc').
Qed.
End SetupTheorem.

(** ** Lists as comma-separated text *)

Fixpoint join (sep : ascii) (parts : list (list ascii)) : list ascii :=
  match parts with
  | [] => []
  | [part] => part
  | part :: parts => part ++ sep :: join sep parts
  end.

Lemma chars_concat l : chars (String.concat "," l) = join ","%char (map chars l).
Proof.
  induction l as [|x l IH]; [done|]. destruct l as [|y l]; [done|].
  change (String.concat "," (x :: y :: l)) with (x +:+ "," +:+ String.concat "," (y :: l)).
  rewrite !chars_app, IH. done.
Qed.

Lemma split_nonempty sep cs : split_char sep cs ≠ [].
Proof. destruct cs as [|c cs]; cbn; [done|]. case_bool_decide; [done|]. by destruct (split_char sep cs). Qed.

Lemma split_sep sep a b : split_char sep (a ++ sep :: b) = split_char sep a ++ split_char sep b.
Proof.
  induction a as [|c a IH]; cbn [app split_char]; [by rewrite bool_decide_eq_true_2|].
  rewrite IH. case_bool_decide; [done|]. destruct (split_char sep a) eqn:E; [by destruct (split_nonempty sep a)|done].
Qed.

Lemma split_join sep parts : parts ≠ [] → split_char sep (join sep parts) = concat (map (split_char sep) parts).
Proof.
  induction parts as [|p parts IH]; [done|]. intros _. destruct parts as [|q parts]; [cbn; by rewrite app_nil_r|].
  change (join sep (p :: q :: parts)) with (p ++ sep :: join sep (q :: parts)). rewrite split_sep, IH by done. done.
Qed.

Lemma split_single sep cs part : split_char sep cs = [part] → cs = part.
Proof.
  revert part. induction cs as [|c cs IH]; cbn; intros part; [by intros [= <-]|].
  case_bool_decide; [intros [= <- E]; by destruct (split_nonempty sep cs)|].
  destruct (split_char sep cs) as [|p ps] eqn:E; [by destruct (split_nonempty sep cs)|]. intros [= <- ->]. by rewrite (IH p).
Qed.

Lemma splits_length sep parts : (length parts <= length (concat (map (split_char sep) parts)))%nat.
Proof.
  induction parts as [|p parts IH]; cbn; [lia|]. rewrite length_app.
  destruct (split_char sep p) eqn:E; [by destruct (split_nonempty sep p)|]. cbn. lia.
Qed.

Lemma splits_same sep parts : length (concat (map (split_char sep) parts)) = length parts → concat (map (split_char sep) parts) = parts.
Proof.
  induction parts as [|p parts IH]; cbn [map concat length]; [done|]. rewrite length_app. intros H.
  pose proof (splits_length sep parts). destruct (split_char sep p) as [|q [|q' qs]] eqn:E; cbn [length] in H; [by destruct (split_nonempty sep p)| |lia].
  rewrite IH by lia. by apply split_single in E as ->.
Qed.

Lemma splits_free sep parts : Forall (Forall (λ c, c ≠ sep)) parts → concat (map (split_char sep) parts) = parts.
Proof. induction 1 as [|p parts Hp _ IH]; [done|]. cbn. by rewrite split_char_free, IH. Qed.

Definition no_comma (s : string) : Prop := Forall (λ c, c ≠ ","%char) (chars s).

Lemma concat_comma_inj l k :
  Forall no_comma l → length l = length k → String.concat "," l = String.concat "," k → l = k.
Proof.
  intros Hl Hn E. destruct (decide (l = [])) as [->|Hne]; [symmetry; by apply length_zero_iff_nil|].
  apply (f_equal chars) in E. rewrite !chars_concat in E. apply (f_equal (split_char ","%char)) in E.
  assert (k ≠ []) by (intros ->; by destruct l).
  rewrite !split_join in E by (by destruct l, k). rewrite splits_free in E by (by apply Forall_map).
  assert (map chars l = map chars k) as E'.
  { rewrite E. apply splits_same. by rewrite <- E, !length_map. }
  clear -E'. revert k E'. induction l as [|x l IH]; intros [|y k]; try done. intros [= Ex E]. f_equal; [|by apply IH].
  by rewrite <- (text_chars x), Ex, text_chars.
Qed.

(** ** Sorted lists as text *)

Lemma str_leb_total a b : str_leb a b = false → str_leb b a = true.
Proof. intros H. destruct (String.leb_total a b) as [E|E]; unfold str_leb in *; congruence. Qed.

Lemma compare_trans a b c : String.compare a b ≠ Gt → String.compare b c ≠ Gt → String.compare a c ≠ Gt.
Proof.
  revert b c. induction a as [|x a IH]; intros [|y b] [|z c]; cbn; try done.
  unfold Ascii.compare.
  destruct (N.compare_spec (N_of_ascii x) (N_of_ascii y)), (N.compare_spec (N_of_ascii y) (N_of_ascii z)),
    (N.compare_spec (N_of_ascii x) (N_of_ascii z)); try done; try lia; eauto.
Qed.

Lemma str_leb_trans a b c : str_leb a b = true → str_leb b c = true → str_leb a c = true.
Proof.
  unfold str_leb, String.leb. pose proof (compare_trans a b c) as H.
  destruct (String.compare a b), (String.compare b c), (String.compare a c); try done; by destruct H.
Qed.

Lemma sorted_same {A} (leb : A → A → bool) l k :
  (∀ x y, leb x y = false → leb y x = true) → (∀ x y z, leb x y = true → leb y z = true → leb x z = true) →
  (∀ x y, x ∈ l → y ∈ l → leb x y = true → leb y x = true → x = y) →
  l ≡ₚ k → sort_by leb l = sort_by leb k.
Proof.
  intros Htotal Htrans Hanti Hp. eapply (StronglySorted_unique_strong (λ x y, leb x y = true)).
  - intros x y Hx Hy. rewrite sort_by_elem in Hx. rewrite sort_by_elem, <- Hp in Hy. by apply Hanti.
  - by apply sort_by_sorted.
  - by apply sort_by_sorted.
  - by rewrite !sort_by_perm.
Qed.

Lemma lower_no_comma s : no_comma s → no_comma (lower_text s).
Proof.
  unfold no_comma, lower_text. rewrite chars_text, Forall_map. intros Hs. eapply Forall_impl; [exact Hs|]. intros c Hc E. apply Hc. clear Hc.
  revert E. by destruct c as [[] [] [] [] [] [] [] []]; vm_compute.
Qed.

Lemma sortedHex_iff l k :
  Forall no_comma l → length l = length k → (sortedHex l = sortedHex k ↔ map lower_text l ≡ₚ map lower_text k).
Proof.
  intros Hl Hn. split.
  - intros E. unfold sortedHex in E. apply concat_comma_inj in E.
    + by rewrite <- (sort_by_perm str_leb (map lower_text l)), E, sort_by_perm.
    + apply Forall_forall. intros s Hs. rewrite sort_by_elem in Hs. apply list_elem_of_fmap in Hs as (x & -> & Hx).
      rewrite Forall_forall in Hl. by apply lower_no_comma, Hl.
    + rewrite (Permutation_length (sort_by_perm str_leb (map lower_text l))), (Permutation_length (sort_by_perm str_leb (map lower_text k))).
      by rewrite !length_map.
  - intros Hp. unfold sortedHex. f_equal. apply sorted_same; [apply str_leb_total|apply str_leb_trans| |done].
    intros x y _ _. apply String.leb_antisym.
Qed.

Definition integral (n : number) : Prop := ∃ z, n = JInt z.

Definition number_text (n : number) : string := coerce (VNumber n).

Definition number_char (c : ascii) : Prop := is_digit c = true ∨ c = "-"%char.

Lemma toString_chars z : Forall number_char (chars (toString z)).
Proof.
  unfold toString. destruct (Z.ltb_spec z 0).
  - change (chars (String.String "-" (text (nat_chars (- z))))) with ("-"%char :: chars (text (nat_chars (- z)))). rewrite chars_text.
    constructor; [by right|]. apply Forall_forall. intros c Hc. left.
    pose proof (nat_chars_digits (- z) ltac:(lia)) as Hd. rewrite forallb_forall in Hd. by apply Hd, list_elem_of_In.
  - rewrite chars_text. apply Forall_forall. intros c Hc. left.
    pose proof (nat_chars_digits z ltac:(lia)) as Hd. rewrite forallb_forall in Hd. by apply Hd, list_elem_of_In.
Qed.

Lemma number_char_not c : number_char c → c ≠ ","%char ∧ c ≠ "."%char ∧ c ≠ "N"%char ∧ c ≠ "I"%char.
Proof. intros [H| ->]; [|done]. split_and!; intros ->; by vm_compute in H. Qed.

Lemma toString_no_comma z : no_comma (toString z).
Proof. eapply Forall_impl; [apply toString_chars|]. intros c Hc. by apply number_char_not. Qed.

Lemma number_text_int z n : number_text (JInt z) = number_text n → n = JInt z.
Proof.
  pose proof (toString_chars z) as Hz. unfold number_text. destruct n as [y|y p| |[]]; cbn [coerce]; intros E.
  - apply (f_equal string_bigint) in E. rewrite !string_bigint_toString in E. by injection E as ->.
  - rewrite E, chars_app, Forall_app in Hz. destruct Hz as [_ Hz]. inversion Hz as [|? ? Hc]; subst. by apply number_char_not in Hc as (_ & Hc & _).
  - rewrite E in Hz. inversion Hz as [|? ? Hc]; subst. by apply number_char_not in Hc as (_ & _ & Hc & _).
  - rewrite E in Hz. inversion Hz as [|? ? Hc]; subst. by apply number_char_not in Hc as (_ & _ & _ & Hc).
  - rewrite E in Hz. inversion Hz as [|? ? _ Hz']; subst. inversion Hz' as [|? ? Hc]; subst. by apply number_char_not in Hc as (_ & _ & _ & Hc).
Qed.

Lemma sort_ints zs : sort_by num_leb (map JInt zs) = map JInt (sort_by Z.leb zs).
Proof.
  induction zs as [|z zs IH]; [done|]. cbn [sort_by foldr map]. change (foldr (insert_by num_leb) [] (map JInt zs)) with (sort_by num_leb (map JInt zs)).
  rewrite IH. change (foldr (insert_by Z.leb) [] zs) with (sort_by Z.leb zs). generalize (sort_by Z.leb zs) as l. intros l.
  induction l as [|y l IHl]; [done|]. cbn [insert_by map]. change (num_leb (JInt z) (JInt y)) with (z <=? y). destruct (z <=? y); [done|]. cbn. by rewrite IHl.
Qed.

Lemma integral_list l : Forall integral l → ∃ zs, l = map JInt zs.
Proof. induction 1 as [|n l [z ->] _ [zs ->]]; [by exists []|by exists (z :: zs)]. Qed.

Lemma sortedNumbers_iff l k :
  Forall integral l → length l = length k → (sortedNumbers l = sortedNumbers k ↔ l ≡ₚ k).
Proof.
  intros Hl Hn. split.
  - intros E. unfold sortedNumbers in E. apply concat_comma_inj in E.
    + assert (sort_by num_leb l = sort_by num_leb k) as Es.
      { assert (Forall integral (sort_by num_leb l)) as Hi by (by rewrite sort_by_perm).
        clear -E Hi. revert E. generalize (sort_by num_leb k) as k'. induction Hi as [|n l' [z ->] _ IH]; intros [|m k']; try done.
        cbn [map]. intros [= E1 E2]. apply number_text_int in E1 as ->. f_equal. by apply IH. }
      by rewrite <- (sort_by_perm num_leb l), Es, sort_by_perm.
    + rewrite Forall_map. rewrite sort_by_perm. eapply Forall_impl; [exact Hl|]. intros n [z ->]. apply toString_no_comma.
    + rewrite !length_map. by rewrite (Permutation_length (sort_by_perm num_leb l)), (Permutation_length (sort_by_perm num_leb k)).
  - intros Hp. assert (Forall integral k) as Hk by (by rewrite <- Hp).
    apply integral_list in Hl as [zs ->]. apply integral_list in Hk as [ys ->].
    assert (zs ≡ₚ ys) as Hz.
    { apply (Permutation_map bigint_of) in Hp. rewrite !map_map in Hp. cbn in Hp. by rewrite !map_id in Hp. }
    unfold sortedNumbers. rewrite !sort_ints. do 3 f_equal. apply sorted_same; [intros ??; lia|intros ???; lia|intros ????; lia|done].
Qed.

(** ** The rules that were reviewed *)

(** The same rules; shops and categories are sets, and the shops are hex. *)
Definition same_rules (a b : RecoveryRules.t) : Prop :=
  a.(RecoveryRules.maxPurchaseCents) = b.(RecoveryRules.maxPurchaseCents) ∧
  a.(RecoveryRules.maxPurchasesPerPeriod) = b.(RecoveryRules.maxPurchasesPerPeriod) ∧
  a.(RecoveryRules.periodSeconds) = b.(RecoveryRules.periodSeconds) ∧
  a.(RecoveryRules.currency) = b.(RecoveryRules.currency) ∧
  map lower_text a.(RecoveryRules.merchantIdHashes) ≡ₚ map lower_text b.(RecoveryRules.merchantIdHashes) ∧
  a.(RecoveryRules.mccs) ≡ₚ b.(RecoveryRules.mccs) ∧
  a.(RecoveryRules.expiresAt) = b.(RecoveryRules.expiresAt) ∧
  a.(RecoveryRules.recurringAllowed) = b.(RecoveryRules.recurringAllowed) ∧
  a.(RecoveryRules.feeBps) = b.(RecoveryRules.feeBps) ∧
  a.(RecoveryRules.authorizer) = b.(RecoveryRules.authorizer).

(** Rules as they are read from the chain *)
Definition chain_rules (a : RecoveryRules.t) : Prop :=
  integral a.(RecoveryRules.maxPurchasesPerPeriod) ∧ integral a.(RecoveryRules.periodSeconds) ∧ integral a.(RecoveryRules.feeBps) ∧
  Forall integral a.(RecoveryRules.mccs) ∧ Forall no_comma a.(RecoveryRules.merchantIdHashes).

Lemma texts_differ_false a b : texts_differ a b = false ↔ a = b.
Proof. unfold texts_differ. by rewrite negb_false_iff, bool_decide_eq_true. Qed.

Lemma numbers_differ_false a b : integral a → numbers_differ a b = false ↔ a = b.
Proof.
  intros [z ->]. unfold numbers_differ. rewrite negb_false_iff. destruct b; cbn; [|split; congruence..].
  rewrite Z.eqb_eq. split; congruence.
Qed.

Lemma differences_nil tests : map fst (filter (λ t : string * bool, t.2 = true) tests) = [] ↔ Forall (λ t, t.2 = false) tests.
Proof.
  induction tests as [|[n []] tests IH]; [done| |].
  - rewrite filter_cons_True by done. rewrite Forall_cons. cbn. split; [done|by intros [? _]].
  - rewrite filter_cons_False by done. rewrite Forall_cons, IH. cbn. tauto.
Qed.

Lemma sets_differ_false n m (a b : string) : (n = m ∧ a = b) ↔ negb (Nat.eqb n m) || texts_differ a b = false.
Proof. by rewrite orb_false_iff, negb_false_iff, Nat.eqb_eq, texts_differ_false. Qed.

Lemma rulesDifferences_nil a b : chain_rules a → rulesDifferences a b = [] ↔ same_rules a b.
Proof.
  intros (H1 & H2 & H3 & H4 & H5). unfold rulesDifferences, same_rules. rewrite differences_nil. unfold rule_tests.
  rewrite !Forall_cons. cbn [snd].
  rewrite !texts_differ_false, !numbers_differ_false, <- !sets_differ_false, negb_false_iff, eqb_true_iff by done.
  assert (length a.(RecoveryRules.merchantIdHashes) = length b.(RecoveryRules.merchantIdHashes) ∧
      sortedHex a.(RecoveryRules.merchantIdHashes) = sortedHex b.(RecoveryRules.merchantIdHashes)
    ↔ map lower_text a.(RecoveryRules.merchantIdHashes) ≡ₚ map lower_text b.(RecoveryRules.merchantIdHashes)) as ->.
  { split; [intros [Hl E]; by apply sortedHex_iff|]. intros Hp. pose proof (Permutation_length Hp) as Hl. rewrite !length_map in Hl.
    split; [done|by apply sortedHex_iff]. }
  assert (length a.(RecoveryRules.mccs) = length b.(RecoveryRules.mccs) ∧
      sortedNumbers a.(RecoveryRules.mccs) = sortedNumbers b.(RecoveryRules.mccs) ↔ a.(RecoveryRules.mccs) ≡ₚ b.(RecoveryRules.mccs)) as ->.
  { split; [intros [Hl E]; by apply sortedNumbers_iff|]. intros Hp. pose proof (Permutation_length Hp) as Hl.
    split; [done|by apply sortedNumbers_iff]. }
  intuition (done || constructor).
Qed.

(** ** What an encoded restore says about its arguments *)

Section Encoded.
Context `{K : PublicKeys}.

Lemma run_each ops w w' : BorshWriter.run ops w = Ok w' → ∀ o, o ∈ ops → ∃ u u', o u = Ok u'.
Proof.
  revert w. induction ops as [|o ops IH]; cbn; intros w H o' Ho; [by apply elem_of_nil in Ho|].
  apply bind_ok in H as (u & Hu & H). apply elem_of_cons in Ho as [->|Ho]; [by exists w, u|by eapply IH].
Qed.

Lemma u16_integral n s u u' : BorshWriter.u16 n s u = Ok u' → integral n.
Proof.
  intros H. apply bind_ok in H as (p & H & _). apply if_throw_ok in H as [H _]. apply in_range_inv in H as (z & -> & _). by exists z.
Qed.

Lemma u32_integral n s u u' : BorshWriter.u32 n s u = Ok u' → integral n.
Proof.
  intros H. apply bind_ok in H as (p & H & _). apply if_throw_ok in H as [H _]. apply in_range_inv in H as (z & -> & _). by exists z.
Qed.

Lemma encoded_restore args data :
  encodeCardInstructionData (CardInstruction.restore args) = Ok data →
  chain_rules (signed_rules args) ∧ integral args.(RestoreArgs.periodIndex).
Proof.
  intros H. unfold encodeCardInstructionData, BorshWriter.write in H. apply bind_ok in H as (w & H & _).
  pose proof (run_each _ _ _ H) as Hall. clear H.
  assert (∀ o, o ∈ writePolicy args.(RestoreArgs.policy) → ∃ u u', o u = Ok u') as Hp.
  { intros o Ho. apply Hall. apply elem_of_cons. right. cbn [encode_args]. apply elem_of_app. by left. }
  split; [|].
  - split_and!; cbn [signed_rules RecoveryRules.maxPurchasesPerPeriod RecoveryRules.periodSeconds RecoveryRules.feeBps RecoveryRules.mccs RecoveryRules.merchantIdHashes].
    + edestruct (Hp (BorshWriter.u16 args.(RestoreArgs.policy).(PolicyArgs.maxPurchasesPerPeriod) "maxPurchasesPerPeriod")) as (? & ? & E); [|by eapply u16_integral].
      unfold writePolicy. rewrite !elem_of_app, !elem_of_cons. tauto.
    + edestruct (Hp (BorshWriter.u32 args.(RestoreArgs.policy).(PolicyArgs.periodSeconds) "periodSeconds")) as (? & ? & E); [|by eapply u32_integral].
      unfold writePolicy. rewrite !elem_of_app, !elem_of_cons. tauto.
    + edestruct (Hp (BorshWriter.u16 args.(RestoreArgs.policy).(PolicyArgs.feeBps) "feeBps")) as (? & ? & E); [|by eapply u16_integral].
      unfold writePolicy. rewrite !elem_of_app, !elem_of_cons. tauto.
    + apply Forall_lookup. intros i mcc Hi.
      edestruct (Hp (BorshWriter.u16 mcc (indexed "mccs" i))) as (? & ? & E); [|by eapply u16_integral].
      unfold writePolicy. rewrite !elem_of_app. right. right. right. left. apply list_elem_of_lookup. exists i. by rewrite list_lookup_imap, Hi.
    + rewrite Forall_map. apply Forall_true. intros h. eapply Forall_impl; [apply bytesToHex_plain|].
      intros c (_ & _ & Hc & _) ->. by vm_compute in Hc.
  - edestruct (Hall (BorshWriter.u32 args.(RestoreArgs.periodIndex) "periodIndex")) as (? & ? & E); [|by eapply u32_integral].
    apply elem_of_cons. right. cbn [encode_args]. rewrite !elem_of_app, !elem_of_cons. tauto.
Qed.
End Encoded.

Section RestoreTheorem.
Context `{K : PublicKeys, KS : !PublicKeysSpec K}.

(** The transaction is the restore of [args] for this card, and its co-signer has signed. *)
Definition cosigned_restore (transaction : Web3Transaction.t) (ix : Web3Instruction.t) (owner authorizer : Address)
    (cardId : bytes) (programId : Address) (args : RestoreArgs.t) : Prop :=
  transaction.(Web3Transaction.instructions) = [ix] ∧
  (toBase58 <$> transaction.(Web3Transaction.feePayer)) = Some owner ∧
  newPublicKey programId = Ok ix.(Web3Instruction.programId) ∧
  decodeCardInstructionData ix.(Web3Instruction.data) = Ok (CardInstruction.restore args) ∧
  (∃ want, buildRestoreInstruction owner cardId authorizer args (Some programId) = Ok want ∧ carries ix want owner) ∧
  ∃ k s, (k, Some s) ∈ transaction.(Web3Transaction.signatures) ∧ toBase58 k = authorizer.

(** Every value [args] writes is one the owner reviewed. *)
Definition restore_reviewed (args : RestoreArgs.t) (authorizer : Address) (report : RecoveryReport.t) (reviewed : ReviewedRestore.t) : Prop :=
  bytesToHex args.(RestoreArgs.reconDigest) = report.(RecoveryReport.digest) ∧
  Forall (λ n, shown_as report.(RecoveryReport.numbers) n.1 = Some n.2) (signed_numbers args) ∧
  same_rules (signed_rules args) reviewed.(ReviewedRestore.rules) ∧
  args.(RestoreArgs.periodIndex) = reviewed.(ReviewedRestore.periodIndex) ∧
  authorizer ≠ "" ∧ authorizer = args.(RestoreArgs.policy).(PolicyArgs.authorizer) ∧
  ∃ snapshot, string_bigint report.(RecoveryReport.snapshotLedgerSeq) = Ok snapshot ∧ snapshot <= args.(RestoreArgs.ledgerSeq).

Lemma restored_data_iff ix args :
  restored_data ix = Ok args ↔ decodeCardInstructionData ix.(Web3Instruction.data) = Ok (CardInstruction.restore args).
Proof.
  unfold restored_data. destruct (decodeCardInstructionData _) as [i|]; cbn; [|done].
  destruct i; try (split; congruence).
Qed.

Lemma has_signed_iff transaction a :
  has_signed transaction a = true ↔ ∃ k s, (k, Some s) ∈ transaction.(Web3Transaction.signatures) ∧ toBase58 k = a.
Proof.
  unfold has_signed. rewrite existsb_exists. split.
  - intros ([k [s|]] & Hin%list_elem_of_In & Hk); cbn in Hk; [|by rewrite andb_false_r in Hk].
    rewrite andb_true_r, bool_decide_eq_true in Hk. by exists k, s.
  - intros (k & s & Hin & <-). exists (k, Some s). rewrite <- list_elem_of_In. split; [done|]. cbn. by rewrite bool_decide_eq_true_2.
Qed.

Lemma restore_built owner cardId authorizer args programId want :
  buildRestoreInstruction owner cardId authorizer args programId = Ok want →
  authorizer ≠ owner ∧ encodeCardInstructionData (CardInstruction.restore args) = Ok want.(ChainPayInstruction.data) ∧
  ∃ first rest, want.(ChainPayInstruction.keys) = first :: AccountMeta.mk authorizer true false :: rest.
Proof.
  unfold buildRestoreInstruction. intros H. apply if_throw_ok in H as [Hne H]. apply bool_decide_eq_false in Hne.
  apply bind_ok in H as (a & _ & H). apply bind_ok in H as (keys & Hk & H). apply metas_ok in Hk. apply build_ok in H as (-> & _ & Hd).
  split_and!; [done|done|]. rewrite Hk. by eexists _, _.
Qed.

(** What [cosigned] checks, given the arguments the data decodes to *)
Lemma cosigned_iff transaction ix args owner cardId programId reviewed :
  cosigned transaction ix args owner cardId programId reviewed = Ok tt ↔
  ∃ authorizer want,
    authorizer ≠ "" ∧ authorizer = reviewed.(RecoveryRules.authorizer) ∧
    args.(RestoreArgs.policy).(PolicyArgs.authorizer) = reviewed.(RecoveryRules.authorizer) ∧
    buildRestoreInstruction owner cardId authorizer args (Some programId) = Ok want ∧ carries ix want owner ∧
    ∃ k s, (k, Some s) ∈ transaction.(Web3Transaction.signatures) ∧ toBase58 k = authorizer.
Proof.
  unfold cosigned. split.
  - destruct (Web3Instruction.keys ix) as [|first [|key keys]] eqn:Ek; [done..|]. intros H.
    apply if_throw_ok in H as [H1 H]. apply bind_ok in H as (want & Hw & H). apply if_throw_ok in H as [H2 H]. apply if_throw_ok in H as [H3 _].
    rewrite !orb_false_iff, !bool_decide_eq_false, !texts_differ_false in H1. destruct H1 as [[[Hne _] Ha] Hp].
    apply negb_false_iff, sameInstruction_iff in H2. apply negb_false_iff, has_signed_iff in H3.
    exists (toBase58 key.(Web3Key.pubkey)), want. by split_and!.
  - intros (authorizer & want & Hne & Ha & Hp & Hw & Hc & Hs). pose proof (restore_built _ _ _ _ _ _ Hw) as (Ho & _ & f & rest & Hk).
    pose proof Hc as (_ & _ & Hkeys). rewrite Hk in Hkeys.
    apply Forall2_cons_inv_r in Hkeys as (first & more & _ & Hkeys & Ek). apply Forall2_cons_inv_r in Hkeys as (key & keys & (Hkey & _) & _ & ->).
    rewrite Ek. cbn [AccountMeta.address] in Hkey. rewrite Hkey, !bool_decide_eq_false_2 by done.
    rewrite (proj2 (texts_differ_false authorizer _) Ha), (proj2 (texts_differ_false _ _) Hp). cbn [orb].
    rewrite Hw. cbn [bind]. rewrite (proj2 (sameInstruction_iff _ _ _) Hc). cbn [negb]. by rewrite (proj2 (has_signed_iff _ _) Hs).
Qed.

Lemma report_iff args report :
  assertRestoreMatchesReport args report = Ok tt ↔
  Forall (λ n, shown_as report.(RecoveryReport.numbers) n.1 = Some n.2) (signed_numbers args).
Proof.
  unfold assertRestoreMatchesReport. destruct (forallb _ _) eqn:E; cbn [negb].
  - split; [intros _|done]. apply Forall_forall. intros n Hn%list_elem_of_In. rewrite forallb_forall in E. apply E in Hn. by apply bool_decide_eq_true in Hn.
  - split; [done|]. intros H. exfalso. apply not_true_iff_false in E. apply E. rewrite forallb_forall. intros n Hn%list_elem_of_In.
    rewrite Forall_forall in H. by apply bool_decide_eq_true, H.
Qed.

Lemma differences_iff args reviewed :
  chain_rules (signed_rules args) → integral args.(RestoreArgs.periodIndex) →
  restore_differences args reviewed = [] ↔
  same_rules (signed_rules args) reviewed.(ReviewedRestore.rules) ∧ args.(RestoreArgs.periodIndex) = reviewed.(ReviewedRestore.periodIndex).
Proof.
  intros Hr Hp. unfold restore_differences. rewrite app_nil, rulesDifferences_nil by done.
  rewrite <- (numbers_differ_false _ reviewed.(ReviewedRestore.periodIndex) Hp). destruct (numbers_differ _ _); split; by intros [? ?].
Qed.

(** C23: A restore is passed to the owner's wallet exactly when it is one instruction, the card's restore as the SDK builds
    it, paid by the owner and already signed by the approver the reviewed rules name, who is not the owner; and every
    value it writes is one the owner reviewed: the seven numbers as shown, the same rules, with shops and categories as
    sets, the period, the digest of the report, and a ledger position not before its snapshot. *)
Theorem restore_signed_iff transaction owner cardId programId report reviewed args :
  assertCoSignedRestore transaction owner cardId programId report reviewed = Ok args ↔
  ∃ ix authorizer,
    cosigned_restore transaction ix owner authorizer cardId programId args ∧ authorizer ≠ owner ∧
    restore_reviewed args authorizer report reviewed.
Proof.
  unfold assertCoSignedRestore. split.
  - destruct (Web3Transaction.instructions transaction) as [|ix [|]] eqn:Ei; [done| |done]. intros H.
    apply bind_ok in H as (program & Hpr & H). apply if_throw_ok in H as [H1 H]. apply if_throw_ok in H as [H2 H].
    apply bind_ok in H as (args' & Hd & H). apply if_throw_ok in H as [H3 H]. apply bind_ok in H as ([] & H4 & H). apply if_throw_ok in H as [H5 H].
    apply bind_ok in H as (snapshot & Hsn & H). apply if_throw_ok in H as [H6 H]. apply bind_ok in H as ([] & H7 & H). injection H as ->.
    apply cosigned_iff in H7 as (authorizer & want & Hne & Ha & Hp & Hw & Hc & Hs).
    pose proof (restore_built _ _ _ _ _ _ Hw) as (Ho & He & _). apply encoded_restore in He as [Hrules Hperiod].
    apply restored_data_iff in Hd. apply negb_false_iff, bool_decide_eq_true in H1. apply negb_false_iff, pays_iff in H2.
    apply negb_false_iff, Nat.eqb_eq, length_zero_iff_nil, differences_iff in H5 as [Hsame Hpi]; [|done..].
    apply or_refused_ok in Hsn. apply texts_differ_false in H3. apply report_iff in H4. apply Z.ltb_ge in H6.
    exists ix, authorizer. split; [|split; [done|]].
    + split_and!; try done; [by rewrite H1|by exists want].
    + split_and!; try done; [congruence|by exists snapshot].
  - intros (ix & authorizer & (Hi & Hpay & Hpr & Hd & (want & Hw & Hc) & Hs) & _ & H3 & H4 & H5 & H6 & Hne & Ha & snapshot & Hsn & Hle).
    rewrite Hi, Hpr. cbn [bind]. rewrite bool_decide_eq_true_2 by done. cbn [negb]. rewrite (proj2 (pays_iff _ _) Hpay). cbn [negb].
    rewrite (proj2 (restored_data_iff _ _) Hd). cbn [bind]. rewrite (proj2 (texts_differ_false _ _) H3), (proj2 (report_iff _ _) H4). cbn [bind].
    pose proof (restore_built _ _ _ _ _ _ Hw) as (_ & He & _). apply encoded_restore in He as [Hrules Hperiod].
    rewrite (proj2 (differences_iff _ _ Hrules Hperiod) (conj H5 H6)). cbn [length Nat.eqb negb]. rewrite Hsn. cbn [or_refused bind].
    rewrite (proj2 (Z.ltb_ge _ _) Hle).
    assert (args.(RestoreArgs.policy).(PolicyArgs.authorizer) = reviewed.(ReviewedRestore.rules).(RecoveryRules.authorizer)) as Hra
      by apply H5.
    rewrite (proj2 (cosigned_iff _ _ _ _ _ _ _)); [done|]. exists authorizer, want. split_and!; try done. congruence.
Qed.
End RestoreTheorem.

(** ** With the private records as the anchor *)

Section Anchor.
Context `{K : PublicKeys, KS : !PublicKeysSpec K, C : Codec}.

(** With the private records readable, the rules a restore may write are those; the report's, if it shows any, agree. *)
Lemma reviewed_mine report policy period reviewed :
  reviewedRestore report (Some policy) period = Ok reviewed →
  reviewed.(ReviewedRestore.rules) = rulesFromPolicy policy period ∧
  ∀ theirs, report.(RecoveryReport.rules) = Some theirs → rulesDifferences (rulesFromPolicy policy period) theirs = [].
Proof.
  unfold reviewedRestore. cbn [fmap option_fmap option_map]. intros H. apply bind_ok in H as ([] & Hd & H).
  destruct (known_period _ _); [|done]. injection H as <-. split; [done|]. intros theirs Ht. rewrite Ht in Hd.
  apply if_throw_ok in Hd as [Hd _]. by apply negb_false_iff, Nat.eqb_eq, length_zero_iff_nil in Hd.
Qed.

Lemma restore_keeps_rules transaction owner cardId programId report policy period reviewed args :
  reviewedRestore report (Some policy) period = Ok reviewed →
  assertCoSignedRestore transaction owner cardId programId report reviewed = Ok args →
  same_rules (signed_rules args) (rulesFromPolicy policy period).
Proof.
  intros Hr H. apply reviewed_mine in Hr as [<- _]. unfold assertCoSignedRestore in H.
  destruct (Web3Transaction.instructions transaction) as [|ix [|]]; [done| |done].
  apply bind_ok in H as (program & _ & H). apply if_throw_ok in H as [_ H]. apply if_throw_ok in H as [_ H].
  apply bind_ok in H as (args' & _ & H). apply if_throw_ok in H as [_ H]. apply bind_ok in H as ([] & _ & H). apply if_throw_ok in H as [H5 H].
  apply bind_ok in H as (snapshot & _ & H). apply if_throw_ok in H as [_ H]. apply bind_ok in H as ([] & H7 & H). injection H as ->.
  apply cosigned_iff in H7 as (authorizer & want & _ & _ & _ & Hw & _).
  apply restore_built in Hw as (_ & He & _). apply encoded_restore in He as [Hrules Hperiod].
  by apply negb_false_iff, Nat.eqb_eq, length_zero_iff_nil, differences_iff in H5 as [Hsame _].
Qed.
End Anchor.

(** ** A card on a concrete chain *)

#[local] Existing Instance Base58.keys.
#[local] Existing Instance Base58.keys_spec.

Definition card_owner : Address := Eval vm_compute in toBase58 (sample_key 31).
Definition card_approver : Address := Eval vm_compute in toBase58 (sample_key 35).
Definition card_program : Address := CARD_POLICY_PROGRAM_ID.
Definition card_key : bytes := sample_key 41.

(** The instruction as web3.js reads it back, the fee payer writable *)
Definition deserialized (i : ChainPayInstruction.t) : Web3Instruction.t :=
  let key a := match newPublicKey a with Ok k => k | Throw _ => [] end in
  Web3Instruction.mk (key i.(ChainPayInstruction.programId))
    (map (λ m, Web3Key.mk (key m.(AccountMeta.address)) m.(AccountMeta.isSigner)
                 (m.(AccountMeta.isWritable) || bool_decide (m.(AccountMeta.address) = card_owner))) i.(ChainPayInstruction.keys))
    i.(ChainPayInstruction.data).

Definition built (r : result ChainPayInstruction.t) : ChainPayInstruction.t :=
  match r with Ok i => i | Throw _ => ChainPayInstruction.mk "" "" [] [] end.

Definition card_addresses : CardAccountAddresses.t :=
  Eval vm_compute in match deriveCardAccounts card_owner card_key (Some card_program) with
                     | Ok a => a
                     | Throw _ => CardAccountAddresses.mk "" "" "" "" "" "" ""
                     end.

Definition shown_card : PreparedCard.t :=
  PreparedCard.mk (bytesToHex card_key)
    (Some (CardAccountsView.mk card_addresses.(CardAccountAddresses.binding) card_addresses.(CardAccountAddresses.policy)
             card_addresses.(CardAccountAddresses.period) card_addresses.(CardAccountAddresses.commitment) card_addresses.(CardAccountAddresses.escrow)))
    DEVNET_TEE_VALIDATOR "5000000".

Definition init_card_transaction : Web3Transaction.t :=
  Eval vm_compute in Web3Transaction.mk (Some (sample_key 31))
    [deserialized (built (buildInitCardInstruction card_owner card_key (JInt 1) (sample_key 42) 5000000 (Some card_program)))]
    [(sample_key 31, None)].

Lemma init_card_passes : assertCardSetupTransaction init_card_transaction 0 card_owner shown_card card_program = Ok tt.
Proof. by vm_compute. Qed.

Lemma setup_signed_iff_witness :
  ∃ ix cardId a want, lone_instruction init_card_transaction card_owner ix ∧
    cardIdFromHex shown_card.(PreparedCard.cardId) = Ok cardId ∧
    deriveCardAccounts card_owner cardId (Some card_program) = Ok a ∧ served shown_card a ∧
    setup_step card_owner cardId shown_card card_program a 0 want ∧ carries ix want card_owner.
Proof. exact (proj1 (setup_signed_iff init_card_transaction 0 card_owner shown_card card_program) init_card_passes). Defined.

(** One lamport more than was shown, or a second instruction, is refused. *)
Example larger_prefund_refused :
  assertCardSetupTransaction init_card_transaction 0 card_owner
    (PreparedCard.mk shown_card.(PreparedCard.cardId) shown_card.(PreparedCard.accounts) DEVNET_TEE_VALIDATOR "4999999") card_program
  = Throw SETUP_REFUSED.
Proof. by vm_compute. Qed.

(** A restore whose reviewed rules list the shops in the other order and in capitals *)
Definition restore_args : RestoreArgs.t :=
  Eval vm_compute in RestoreArgs.mk sample_policy_args (JInt 1) 0 0 0 (JInt 0) 0 0 (sample_key 1) 7 (sample_key 2).

Definition restore_rules : RecoveryRules.t :=
  let p := signed_rules restore_args in
  RecoveryRules.mk p.(RecoveryRules.maxPurchaseCents) p.(RecoveryRules.maxPurchasesPerPeriod) p.(RecoveryRules.periodSeconds)
    p.(RecoveryRules.currency) (reverse p.(RecoveryRules.merchantIdHashes)) (reverse p.(RecoveryRules.mccs)) p.(RecoveryRules.expiresAt)
    p.(RecoveryRules.recurringAllowed) p.(RecoveryRules.feeBps) p.(RecoveryRules.authorizer) (Some (JInt 1)).

Definition restore_report : RecoveryReport.t :=
  RecoveryReport.mk (bytesToHex (sample_key 2)) "6"
    [RecoveryNumber.mk "budget" (Some "50000") None; RecoveryNumber.mk "captured" (Some "0") None; RecoveryNumber.mk "reserved" (Some "0") None;
     RecoveryNumber.mk "refunded" (Some "0") None; RecoveryNumber.mk "purchases" None (Some (JInt 0));
     RecoveryNumber.mk "exceptions" (Some "0") None; RecoveryNumber.mk "outstanding" (Some "0") None]
    (Some restore_rules).

Definition restore_transaction : Web3Transaction.t :=
  Eval vm_compute in Web3Transaction.mk (Some (sample_key 31))
    [deserialized (built (buildRestoreInstruction card_owner card_key card_approver restore_args (Some card_program)))]
    [(sample_key 31, None); (sample_key 35, Some (sample_key 36))].

Definition restore_review : ReviewedRestore.t := ReviewedRestore.mk restore_rules (JInt 1).

Lemma restore_passes :
  assertCoSignedRestore restore_transaction card_owner card_key card_program restore_report restore_review = Ok restore_args.
Proof. by vm_compute. Qed.

Lemma restore_signed_iff_witness :
  ∃ ix authorizer, cosigned_restore restore_transaction ix card_owner authorizer card_key card_program restore_args ∧
    authorizer ≠ card_owner ∧ restore_reviewed restore_args authorizer restore_report restore_review.
Proof.
  exact (proj1 (restore_signed_iff restore_transaction card_owner card_key card_program restore_report restore_review restore_args) restore_passes).
Defined.

(** The period is the report's, also where the private records say another one. *)
Definition private_policy : CardPolicyView.t :=
  let r := restore_rules in
  CardPolicyView.mk r.(RecoveryRules.authorizer) r.(RecoveryRules.maxPurchaseCents) r.(RecoveryRules.maxPurchasesPerPeriod)
    r.(RecoveryRules.periodSeconds) r.(RecoveryRules.currency) r.(RecoveryRules.merchantIdHashes) r.(RecoveryRules.mccs) None
    r.(RecoveryRules.recurringAllowed) r.(RecoveryRules.feeBps).

Definition later_period : CardPeriod.t := CardPeriod.mk "" (JInt 9) 0 0 0 0 0 (JInt 0) 0 (JInt 0).

Example report_period_unchecked `{Codec} :
  reviewedRestore restore_report (Some private_policy) (Some later_period)
  = Ok (ReviewedRestore.mk (rulesFromPolicy private_policy (Some later_period)) (JInt 1)).
Proof. by vm_compute. Qed.
