(* ===== verification/Support.v ===== *)
(** * The support tracker (convex/support.ts)

    The indexer that walks the history of the two vault accounts, the tables it
    fills, the public summary over them and the relay's rate limit.

    An action is not a transaction: each mutation it runs stays when a later
    request fails, so [sync] returns the tables reached together with its result.
    The RPC node is a record of replies per request; the model takes one such
    record per page, since the chain moves between requests. *)
From Stdlib Require Import ZArith Lia Strings.Byte Strings.Ascii.
From stdpp Require Import base numbers strings list fin_maps gmap.
From S2P Require Import Prelude Bytes PublicKey Decimal Base64 CardConstants Values Store Records Storage SupportParse.

Definition PAGE : nat := 100.
Definition MAX_PAGES_PER_ACCOUNT : nat := 5.

(** ** Tables *)

Module EventRow.
Record t : Type := mk { index : nat; stored : StoredEvent.t }.
Definition signature (r : t) : string := r.(stored).(StoredEvent.signature).
End EventRow.

Module CursorRow.
Record t : Type := mk { account : string; cursor : SupportCursor.t }.
End CursorRow.

(** The replies of the RPC node to [getSignaturesForAddress] and [getTransaction] *)
Module Rpc.
Record t : Type := mk {
  signatures : string → option string → option string → nat → result (list SignatureInfo.t);
  transaction : string → result (option RpcTransaction.t);
}.
End Rpc.

Module Tables.
Record t `{B : Db} : Type := mk { events : table EventRow.t; cursors : table CursorRow.t }.
Arguments mk {B} _ _.
Arguments events {B} _.
Arguments cursors {B} _.
End Tables.

Section Support.
Context `{B : Db}.

(** ** Queries and mutations *)

Definition cursor_of (t : table CursorRow.t) (account : string) : result (option (DocId * CursorRow.t)) :=
  unique (query (λ r, bool_decide (r.(CursorRow.account) = account)) unordered t).

Definition no_cursor : SupportCursor.t := SupportCursor.mk None None.

Definition getCursor (t : table CursorRow.t) (account : string) : result SupportCursor.t :=
  let! row := cursor_of t account in
  Ok match row with Some (_, r) => r.(CursorRow.cursor) | None => no_cursor end.

Definition setCursor (t : table CursorRow.t) (account : string) (cursor : SupportCursor.t) : result (table CursorRow.t) :=
  let! row := cursor_of t account in
  Ok match row with
     | Some (i, r) => put_doc i (CursorRow.mk r.(CursorRow.account) cursor) t
     | None => (insert_doc (CursorRow.mk account cursor) t).2
     end.

(** The rows [upsert] writes *)
Definition event_rows (signature : string) (slot : Z) (blockTime : option Z) (events : list SupportEvent.t)
    : list EventRow.t :=
  imap (λ index e, EventRow.mk index (StoredEvent.mk e signature blockTime slot)) events.

Definition insert_all {D} (rows : list D) (t : table D) : table D := foldl (λ t d, (insert_doc d t).2) t rows.

Definition upsert (t : table EventRow.t) (signature : string) (slot : Z) (blockTime : option Z)
    (events : list SupportEvent.t) : table EventRow.t :=
  let existing := query (λ r, bool_decide (EventRow.signature r = signature)) unordered t in
  insert_all (event_rows signature slot blockTime events) (delete_all existing t).

Definition by_slot (a b : EventRow.t) : bool :=
  a.(EventRow.stored).(StoredEvent.slot) <=? b.(EventRow.stored).(StoredEvent.slot).

Definition publicSummary (t : table EventRow.t) (live : bool) : result Summary.t :=
  summarize (map EventRow.stored (query (λ _, true) by_slot t).*2) live.

(** ** The indexer *)

Section Sync.
Variable accounts : SupportAccounts.t.

(** The loop over a page's signatures *)
Fixpoint ingest (rpc : Rpc.t) (sigs : list SignatureInfo.t) (events : table EventRow.t) (stored : nat)
    : table EventRow.t * result nat :=
  match sigs with
  | [] => (events, Ok stored)
  | sig :: sigs =>
      if negb (strict_eq sig.(SignatureInfo.err) VNull) then ingest rpc sigs events stored
      else
        match rpc.(Rpc.transaction) sig.(SignatureInfo.signature) with
        | Throw e => (events, Throw e)
        | Ok None => (events, Throw ("transaction " +:+ sig.(SignatureInfo.signature) +:+ " not available yet"))
        | Ok (Some tx) =>
            match parseSupportTx (Some tx) accounts with
            | Throw e => (events, Throw e)
            | Ok None => ingest rpc sigs events stored
            | Ok (Some parsed) =>
                match parsed.(ParsedSupportTx.signature) with
                | None => (events, Throw "ArgumentValidationError")
                | Some signature =>
                    ingest rpc sigs
                      (upsert events signature parsed.(ParsedSupportTx.slot) parsed.(ParsedSupportTx.blockTime)
                         parsed.(ParsedSupportTx.events)) (S stored)
                end
            end
        end
  end.

(** One page: its signatures, their transactions, then the cursor *)
Definition sync_page (rpc : Rpc.t) (account : string) (current : SupportCursor.t) (s : Tables.t) (stored : nat)
    : Tables.t * result (SupportCursor.t * nat) :=
  let '(before, until) := planPage current in
  match rpc.(Rpc.signatures) account before until PAGE with
  | Throw e => (s, Throw e)
  | Ok sigs =>
      let '(events, r) := ingest rpc sigs s.(Tables.events) stored in
      match r with
      | Throw e => (Tables.mk events s.(Tables.cursors), Throw e)
      | Ok stored =>
          let current := advanceCursor current sigs PAGE in
          match setCursor s.(Tables.cursors) account current with
          | Throw e => (Tables.mk events s.(Tables.cursors), Throw e)
          | Ok cursors => (Tables.mk events cursors, Ok (current, stored))
          end
      end
  end.

(** At most [pages] pages of one account; [rpcs k] answers its page [k] *)
Fixpoint sync_pages (pages : nat) (rpcs : nat → Rpc.t) (account : string) (current : SupportCursor.t) (s : Tables.t)
    (stored : nat) : Tables.t * result nat :=
  match pages with
  | O => (s, Ok stored)
  | S pages =>
      match sync_page (rpcs O) account current s stored with
      | (s, Throw e) => (s, Throw e)
      | (s, Ok (current, stored)) =>
          match current.(SupportCursor.pending) with
          | None => (s, Ok stored)
          | Some _ => sync_pages pages (λ k, rpcs (S k)) account current s stored
          end
      end
  end.

Definition sync_account (rpcs : nat → Rpc.t) (account : string) (s : Tables.t) (stored : nat) : Tables.t * result nat :=
  match getCursor s.(Tables.cursors) account with
  | Throw e => (s, Throw e)
  | Ok current => sync_pages MAX_PAGES_PER_ACCOUNT rpcs account current s stored
  end.
End Sync.

(** [sync]: [target] is what the three reads of the target replied; skipping is
    [Ok None]. *)
Definition sync (env : SupportEnv.t) (target : result IndexerTarget.t) (rpcs : nat → Rpc.t) (s : Tables.t)
    : Tables.t * result (option nat) :=
  match supportServerConfig env with
  | config_missing _ => (s, Ok None)
  | config_ok _ accounts =>
      match target with
      | Throw e => (s, Throw e)
      | Ok target =>
          match indexerTargetProblem target accounts with
          | Some _ => (s, Ok None)
          | None =>
              match sync_account accounts rpcs accounts.(SupportAccounts.vault) s 0 with
              | (s, Throw e) => (s, Throw e)
              | (s, Ok stored) =>
                  match sync_account accounts (λ k, rpcs (MAX_PAGES_PER_ACCOUNT + k)%nat)
                          accounts.(SupportAccounts.vaultUsdc) s stored with
                  | (s, Throw e) => (s, Throw e)
                  | (s, Ok stored) => (s, Ok (Some stored))
                  end
              end
          end
      end
  end.

(** ** The relay's rate limit *)

Definition GLOBAL_PER_MINUTE : Z := 3000.
Definition IP_PER_MINUTE : Z := 150.
Definition IP_SENDS_PER_MINUTE : Z := 6.
Definition WINDOW : Z := 60000.

(** Keys and limits of the buckets of one call *)
Definition relay_buckets (client : string) (send : bool) (slot : Z) : list (string * Z) :=
  [("support-rpc:all:" +:+ toString slot, GLOBAL_PER_MINUTE);
   ("support-rpc:ip:" +:+ client +:+ ":" +:+ toString slot, IP_PER_MINUTE)] ++
  (if send then [("support-rpc:send:" +:+ client +:+ ":" +:+ toString slot, IP_SENDS_PER_MINUTE)] else []).

Definition bucket_row (t : table RateLimit.t) (key : string) : result (option (DocId * RateLimit.t)) :=
  unique (query (λ r, bool_decide (r.(RateLimit.key) = key)) unordered t).

Definition row_count (row : option (DocId * RateLimit.t)) : Z :=
  match row with Some (_, r) => r.(RateLimit.count) | None => 0 end.

(** The loop that counts the call in each bucket; a row is looked up once, before *)
Fixpoint count_rows (slot : Z) (rows : list (option (DocId * RateLimit.t) * (string * Z))) (t : table RateLimit.t)
    : table RateLimit.t :=
  match rows with
  | [] => t
  | (row, (key, _)) :: rows =>
      count_rows slot rows
        match row with
        | Some (i, r) => put_doc i (RateLimit.mk r.(RateLimit.key) (r.(RateLimit.count) + 1) r.(RateLimit.expires)) t
        | None => (insert_doc (RateLimit.mk key 1 ((slot + 1) * WINDOW)) t).2
        end
  end.

Definition relayAllowed (t : table RateLimit.t) (client : string) (send : bool) (now : Z)
    : result (bool * table RateLimit.t) :=
  let slot := now / WINDOW in
  let buckets := relay_buckets client send slot in
  let! rows := traverse (λ b, bucket_row t b.1) buckets in
  if existsb (λ x, x.2.2 <=? row_count x.1) (zip rows buckets) then Ok (false, t)
  else Ok (true, count_rows slot (zip rows buckets) t).
End Support.
