(* ===== verification/SupportRuns.v ===== *)
(** * Nothing is lost by the support tracker

    Properties of convex/supportParse.ts and convex/support.ts.  First the walk
    over an account's signatures: which part of the history a cursor has covered,
    and that a page covers exactly its own signatures more.  Then any sequence of
    [sync] calls, failing ones included, while the chain grows: the events table
    holds exactly the events of the transactions ingested, each once, and every
    covered transaction is ingested. *)
From Stdlib Require Import ZArith Lia Strings.Byte Strings.Ascii.
From stdpp Require Import base numbers strings list fin_maps gmap.
From S2P Require Import Prelude Bytes PublicKey Decimal Base64 CardConstants Values Store Records Storage CardMath StorageRuns SupportParse Support.

(** ** Histories

    The finalized signatures of an account, newest first. *)
Abbreviation History := (list SignatureInfo.t).

Definition sigs (h : History) : list string := SignatureInfo.signature <$> h.

(** Signatures are unique, and none is empty. *)
Definition genuine (h : History) : Prop := NoDup ("" :: sigs h).

Lemma genuine_nodup h : genuine h → NoDup (sigs h).
Proof. by intros [_ ?]%NoDup_cons. Qed.

(** What lies after the signature [b], and what comes before the signature [u] *)
Fixpoint after (b : string) (h : History) : History :=
  match h with
  | [] => []
  | x :: h => if bool_decide (x.(SignatureInfo.signature) = b) then h else after b h
  end.
Fixpoint before (u : string) (h : History) : History :=
  match h with
  | [] => []
  | x :: h => if bool_decide (x.(SignatureInfo.signature) = u) then [] else x :: before u h
  end.

(** The documented reply of [getSignaturesForAddress]: newest first, older than
    [b], newer than [u], at most [limit] of them. *)
Definition page_of (h : History) (b u : option string) (limit : nat) : History :=
  let h := match b with Some b => after b h | None => h end in
  take limit match u with Some u => before u h | None => h end.

Lemma after_app a h x k :
  a = x.(SignatureInfo.signature) → a ∉ sigs h → after a (h ++ x :: k) = k.
Proof.
  intros -> Hn. induction h as [|y h IH]; simpl in *.
  - by rewrite bool_decide_eq_true_2.
  - apply not_elem_of_cons in Hn as [? ?]. rewrite bool_decide_eq_false_2 by congruence. auto.
Qed.

Lemma before_app u h x k :
  u = x.(SignatureInfo.signature) → u ∉ sigs h → before u (h ++ x :: k) = h.
Proof.
  intros -> Hn. induction h as [|y h IH]; simpl in *.
  - by rewrite bool_decide_eq_true_2.
  - apply not_elem_of_cons in Hn as [? ?]. rewrite bool_decide_eq_false_2 by congruence. f_equal. auto.
Qed.

(** ** The walk

    [walk h c fresh mid gap old]: the history is [fresh ++ mid ++ gap ++ old];
    the cursor has covered [old], down from [newest], and [mid], from [top] to
    [before] of a backlog it is working through. *)
Definition newest_is (c : SupportCursor.t) (old : History) : Prop :=
  c.(SupportCursor.newest) = head (sigs old).
Definition pending_is (c : SupportCursor.t) (mid gap : History) : Prop :=
  match c.(SupportCursor.pending) with
  | None => mid = [] ∧ gap = []
  | Some (top, b) => head (sigs mid) = Some top ∧ last (sigs mid) = Some b
  end.

Definition walk (h : History) (c : SupportCursor.t) (fresh mid gap old : History) : Prop :=
  h = fresh ++ mid ++ gap ++ old ∧ newest_is c old ∧ pending_is c mid gap.

(** The covered part of the history *)
Definition covers (h : History) (c : SupportCursor.t) (done : History) : Prop :=
  ∃ fresh mid gap old, walk h c fresh mid gap old ∧ done = mid ++ old.

Lemma walk_start h : walk h no_cursor h [] [] [].
Proof. split; [by rewrite !app_nil_r|]. by split. Qed.

Lemma walk_grow more h c fresh mid gap old :
  walk h c fresh mid gap old → walk (more ++ h) c (more ++ fresh) mid gap old.
Proof. intros (-> & ? & ?). split; [by rewrite <- app_assoc|done]. Qed.

Lemma sigs_app h k : sigs (h ++ k) = sigs h ++ sigs k.
Proof. apply fmap_app. Qed.

Lemma until_newest c old h :
  newest_is c old → genuine (h ++ old) →
  match present c.(SupportCursor.newest) with Some u => before u (h ++ old) | None => h ++ old end = h.
Proof.
  unfold newest_is. intros -> Hn. destruct old as [|x old]; [by rewrite app_nil_r|]. apply NoDup_cons in Hn as [He Hn].
  simpl. rewrite bool_decide_eq_false_2.
  2:{ intros E. apply He. rewrite sigs_app, elem_of_app, <- E. right. by left. }
  apply before_app; [done|]. rewrite sigs_app in Hn. simpl in Hn. apply NoDup_app in Hn as (_ & Hd & _).
  intros Hin. apply (Hd _ Hin). by left.
Qed.

(** The page [planPage] asks for: the newest [limit] signatures not covered, of
    the backlog if there is one. *)
Lemma planned_page h c fresh mid gap old limit :
  walk h c fresh mid gap old → genuine h →
  page_of h (planPage c).1 (planPage c).2 limit
    = take limit match c.(SupportCursor.pending) with None => fresh | Some _ => gap end.
Proof.
  intros (-> & Hn & Hp) Hg. pose proof (genuine_nodup _ Hg) as Hd. unfold page_of, planPage, pending_is in *. simpl.
  destruct (SupportCursor.pending c) as [[top b]|]; simpl.
  - destruct Hp as [_ Hb].
    assert (∃ mid' x, mid = mid' ++ [x] ∧ x.(SignatureInfo.signature) = b) as (mid' & x & -> & Hx).
    { destruct (decide (mid = [])) as [->|Hne]; [done|]. destruct (exists_last Hne) as (mid' & x & ->).
      exists mid', x. split; [done|]. unfold sigs in Hb. rewrite fmap_last, last_snoc in Hb. by injection Hb. }
    assert (after b (fresh ++ (mid' ++ [x]) ++ gap ++ old) = gap ++ old) as ->.
    { replace (fresh ++ (mid' ++ [x]) ++ gap ++ old) with ((fresh ++ mid') ++ x :: (gap ++ old))
        by (rewrite <- !app_assoc; done).
      apply after_app; [done|]. subst b. rewrite <- (app_assoc mid'), app_assoc in Hd. rewrite (sigs_app (fresh ++ mid')) in Hd.
      apply NoDup_app in Hd as (_ & Hd & _). intros Hin. apply (Hd _ Hin). by left. }
    f_equal. apply until_newest; [done|]. rewrite app_assoc in Hg. unfold genuine in *.
    rewrite sigs_app, NoDup_cons, elem_of_app, NoDup_app in Hg. apply NoDup_cons. naive_solver.
  - destruct Hp as [-> ->]. f_equal. by apply until_newest.
Qed.

Lemma list_last_default {A} (d : A) l : l ≠ [] → Some (List.last l d) = last l.
Proof.
  induction l as [|x l IH]; [done|]. intros _. destruct l as [|y l]; [done|].
  change (List.last (x :: y :: l) d) with (List.last (y :: l) d). rewrite IH by done. done.
Qed.

(** The last signature of a nonempty page *)
Lemma last_of_page (g : SignatureInfo.t) l k :
  last (sigs (l ++ g :: k)) = Some (List.last (g :: k) g).(SignatureInfo.signature).
Proof.
  unfold sigs. rewrite fmap_last, last_app. pose proof (list_last_default g (g :: k) ltac:(done)) as <-. done.
Qed.

Lemma head_sigs_app top l k : head (sigs l) = Some top → head (sigs (l ++ k)) = Some top.
Proof. by destruct l. Qed.

(** A page covers its own signatures more, and no other. *)
Lemma advance_walk h c fresh mid gap old limit page :
  walk h c fresh mid gap old → (0 < limit)%nat →
  page = take limit match c.(SupportCursor.pending) with None => fresh | Some _ => gap end →
  ∃ fresh' mid' gap' old', walk h (advanceCursor c page limit) fresh' mid' gap' old' ∧
    mid' ++ old' ≡ₚ page ++ mid ++ old ∧
    (Nat.ltb (length page) limit = true → gap' = [] ∧ mid' = []) ∧
    (c.(SupportCursor.pending) = None → Nat.ltb (length page) limit = true → fresh' = []) ∧
    (c.(SupportCursor.pending) ≠ None → fresh' = fresh) ∧
    length (fresh' ++ gap') = (length (fresh ++ gap) - length page)%nat.
Proof.
  intros (-> & Hn & Hp) Hl ->. unfold advanceCursor, pending_is in *.
  destruct c as [newest [[top b]|]]; simpl in *.
  - destruct Hp as [Ht Hb]. destruct gap as [|g gap]; simpl.
    { rewrite take_nil. exists fresh, [], [], (mid ++ old). split_and!; try done.
      - split; [done|]. split; [|done]. unfold newest_is. simpl. by rewrite (head_sigs_app top).
      - rewrite app_nil_r. simpl. lia. }
    destruct limit as [|n]; [lia|]. cbn [take]. destruct (Nat.ltb _ _) eqn:E.
    + apply Nat.ltb_lt in E. cbn [length] in E. rewrite length_take in E. rewrite take_ge by lia.
      exists fresh, [], [], (mid ++ (g :: gap) ++ old). split_and!; try done.
      * split; [done|]. split; [|done]. unfold newest_is. simpl. by rewrite (head_sigs_app top).
      * rewrite app_nil_l, app_assoc, (app_assoc (g :: gap)). apply Permutation_app_tail, Permutation_app_comm.
      * rewrite app_nil_r, length_app. simpl. lia.
    + exists fresh, (mid ++ g :: take n gap), (drop n gap), old. split_and!; try done.
      * split; [|split; [done|]].
        -- rewrite <- !app_assoc. do 2 f_equal. simpl. f_equal. by rewrite app_assoc, take_drop.
        -- simpl. split; [by apply head_sigs_app | apply last_of_page].
      * rewrite app_assoc. apply Permutation_app_tail, Permutation_app_comm.
      * rewrite !length_app. cbn [length]. rewrite length_take, length_drop. lia.
  - destruct Hp as [-> ->]. simpl in *. destruct fresh as [|f fresh]; simpl.
    { rewrite take_nil. exists [], [], [], old. split_and!; done. }
    destruct limit as [|n]; [lia|]. cbn [take]. destruct (Nat.ltb _ _) eqn:E.
    + apply Nat.ltb_lt in E. cbn [length] in E. rewrite length_take in E. rewrite take_ge by lia.
      exists [], [], [], ((f :: fresh) ++ old). split_and!; try done.
      rewrite !app_nil_r. simpl. lia.
    + exists [], (f :: take n fresh), (drop n fresh), old. split_and!; try done.
      * split; [|split; [done|]].
        -- simpl. f_equal. by rewrite app_assoc, take_drop.
        -- simpl. split; [done|]. apply (last_of_page f []).
      * rewrite !app_nil_r. simpl. rewrite length_take, length_drop. lia.
Qed.

(** ** The events table *)

Section Table.
Context `{B : Db, BS : !DbSpec B}.

(** The table's documents, in some order *)
Definition table_is {D} (t : table D) (rows : list D) : Prop := (map_to_list (docs t)).*2 ≡ₚ rows.

Lemma table_insert {D} (d : D) t rows : table_is t rows → table_is (insert_doc d t).2 (d :: rows).
Proof using BS.
  unfold table_is. intros <-. rewrite insert_docs, map_to_list_insert by apply insert_fresh. done.
Qed.

Lemma table_insert_all {D} (ds : list D) : ∀ t rows, table_is t rows → table_is (insert_all ds t) (ds ++ rows).
Proof using BS.
  unfold insert_all. induction ds as [|d ds IH]; intros t rows H; simpl; [done|].
  unfold table_is in *. rewrite (IH _ (d :: rows)); [by rewrite Permutation_middle|]. by apply table_insert.
Qed.

Lemma table_delete_query {D} (p : D → bool) leb (t : table D) rows :
  table_is t rows → table_is (delete_all (query p leb t) t) (List.filter (λ d, negb (p d)) rows).
Proof using BS.
  unfold table_is. intros H.
  assert (docs (delete_all (query p leb t) t) = filter (λ x : DocId * D, p x.2 = false) (docs t)) as ->.
  { apply map_eq. intros i. rewrite delete_all_docs.
    destruct (docs t !! i) as [d|] eqn:E.
    - destruct (p d) eqn:Ep.
      + rewrite bool_decide_eq_true_2.
        * symmetry. apply map_lookup_filter_None. right. intros e He. simpl. congruence.
        * apply list_elem_of_fmap. exists (i, d). split; [done|]. by apply query_elem.
      + rewrite bool_decide_eq_false_2.
        * symmetry. apply map_lookup_filter_Some. done.
        * intros ((j & e) & -> & He)%list_elem_of_fmap. apply query_elem in He as [He ?]. simpl in E. congruence.
    - transitivity (@None D); [by case_bool_decide|]. symmetry. apply map_lookup_filter_None. by left. }
  assert (map_to_list (filter (λ x : DocId * D, p x.2 = false) (docs t))
    ≡ₚ filter (λ x : DocId * D, p x.2 = false) (map_to_list (docs t))) as ->.
  { rewrite map_filter_alt. apply map_to_list_to_map.
    apply (sublist_NoDup _ ((map_to_list (docs t)).*1)); [apply (NoDup_fst_map_to_list (docs t)) | by apply fmap_sublist, sublist_filter]. }
  rewrite <- (filter_perm _ _ _ H). clear.
  induction (map_to_list (docs t)) as [|[i d] l IH]; simpl; [done|].
  rewrite filter_cons. simpl. destruct (p d); simpl; [|constructor]; done.
Qed.
End Table.

(** ** What a transaction leaves in the table *)

Section Tracker.
Context `{B : Db, BS : !DbSpec B}.
Context (accounts : SupportAccounts.t) (chain : string → option RpcTransaction.t).

(** A node's reply names the transaction asked for. *)
Hypothesis chain_signature : ∀ s tx, chain s = Some tx → head tx.(RpcTransaction.signatures) = Some s.

(** The parsed form of a finalized signature *)
Definition parsed_of (s : string) : option ParsedSupportTx.t :=
  match chain s with
  | Some tx => match parseSupportTx (Some tx) accounts with Ok p => p | Throw _ => None end
  | None => None
  end.

Definition rows_of (s : string) : list EventRow.t :=
  match parsed_of s with
  | Some p => event_rows s p.(ParsedSupportTx.slot) p.(ParsedSupportTx.blockTime) p.(ParsedSupportTx.events)
  | None => []
  end.

(** The signatures ingested: the table is their rows, each once. *)
Record ingested (t : table EventRow.t) (I : list string) : Prop := {
  ingested_nodup : NoDup I;
  ingested_parsed s : s ∈ I → parsed_of s ≠ None;
  ingested_rows : table_is t (concat (map rows_of I));
}.

Lemma parsed_signature s p tx :
  chain s = Some tx → parseSupportTx (Some tx) accounts = Ok (Some p) →
  p.(ParsedSupportTx.signature) = Some s ∧ parsed_of s = Some p.
Proof using chain_signature.
  intros Hc Hp. split; [|unfold parsed_of; by rewrite Hc, Hp].
  rewrite <- (chain_signature s tx Hc). unfold parseSupportTx in Hp.
  destruct (RpcTransaction.meta tx) as [meta|]; [|done]. destruct (negb _); [done|]. inv_ok Hp. by subst p.
Qed.

Lemma rows_signature s r : r ∈ rows_of s → EventRow.signature r = s.
Proof using Type.
  unfold rows_of, event_rows. destruct (parsed_of s); [|by intros ?%not_elem_of_nil].
  intros (i & e & -> & _)%elem_of_lookup_imap. done.
Qed.

Lemma filter_rows s I :
  List.filter (λ r, negb (bool_decide (EventRow.signature r = s))) (concat (map rows_of I))
    = concat (map rows_of (List.filter (λ x, negb (bool_decide (x = s))) I)).
Proof using Type.
  induction I as [|x I IH]; simpl; [done|]. rewrite List.filter_app, IH.
  case_bool_decide as E; simpl.
  - subst. assert (List.filter (λ r, negb (bool_decide (EventRow.signature r = s))) (rows_of s) = []) as ->; [|done].
    pose proof (rows_signature s) as Hs. induction (rows_of s) as [|r l IHl]; [done|]. simpl.
    rewrite (Hs r), bool_decide_eq_true_2 by (done || by left). apply IHl. intros r' Hr'. apply Hs. by right.
  - f_equal. apply forallb_filter_id, forallb_forall. intros r Hr%list_elem_of_In.
    by rewrite (rows_signature _ _ Hr), bool_decide_eq_false_2.
Qed.

(** Ingesting a transaction again replaces its rows. *)
Lemma upsert_ingested t I s p :
  ingested t I → parsed_of s = Some p →
  ingested (upsert t s p.(ParsedSupportTx.slot) p.(ParsedSupportTx.blockTime) p.(ParsedSupportTx.events))
    (s :: List.filter (λ x, negb (bool_decide (x = s))) I).
Proof using BS.
  intros [Hn Hp Hr] Hs. split.
  - constructor.
    + intros [_ H]%list_elem_of_In%filter_In. by rewrite bool_decide_eq_true_2 in H.
    + by apply NoDup_ListNoDup, List.NoDup_filter, NoDup_ListNoDup.
  - intros x [->|H]%elem_of_cons; [by rewrite Hs|]. apply Hp. by apply list_elem_of_In, filter_In in H as [?%list_elem_of_In _].
  - cbn [map concat]. unfold upsert. assert (event_rows s (ParsedSupportTx.slot p) (ParsedSupportTx.blockTime p)
      (ParsedSupportTx.events p) = rows_of s) as -> by (unfold rows_of; by rewrite Hs).
    apply table_insert_all. rewrite <- filter_rows. by apply table_delete_query.
Qed.

#[local] Arguments parseSupportTx : simpl never.

(** A signature the tracker means to ingest: it succeeded, and its transaction
    parses. *)
Definition wanted (x : SignatureInfo.t) : Prop :=
  strict_eq x.(SignatureInfo.err) VNull = true ∧ parsed_of x.(SignatureInfo.signature) ≠ None.

(** What a node may reply while the accounts' histories are [h]: an error, a
    transaction it does not have yet, or the truth. *)
Record answers (rpc : Rpc.t) (h : string → History) : Prop := {
  answers_signatures account b u n l : rpc.(Rpc.signatures) account b u n = Ok l → l = page_of (h account) b u n;
  answers_transaction s tx : rpc.(Rpc.transaction) s = Ok (Some tx) → chain s = Some tx;
}.

Lemma ingest_spec rpc h : answers rpc h → ∀ page t I stored t' r,
  ingested t I → ingest accounts rpc page t stored = (t', r) →
  ∃ I', ingested t' I' ∧ (∀ s, s ∈ I → s ∈ I') ∧ (∀ s, s ∈ I' → s ∈ I ∨ ∃ x, x ∈ page ∧ wanted x ∧ x.(SignatureInfo.signature) = s) ∧
    ∀ n, r = Ok n → ∀ x, x ∈ page → wanted x → x.(SignatureInfo.signature) ∈ I'.
Proof using BS chain_signature.
  intros Ha. induction page as [|x page IH]; intros t I stored t' r Hi H; simpl in H.
  { simplify_eq. exists I. split_and!; [done|auto|auto|]. by intros ? _ ? ?%not_elem_of_nil. }
  destruct (strict_eq (SignatureInfo.err x) VNull) eqn:Ee; cbn [negb] in H.
  2:{ destruct (IH _ _ _ _ _ Hi H) as (I' & H1 & H2 & H3 & H4). exists I'. split_and!; [done|done| |].
      - intros s [?|(y & ? & ?)]%H3; [by left|]. right. exists y. split; [by right|done].
      - intros n Hn y [->|Hy]%elem_of_cons Hw; [|by eapply H4]. destruct Hw as [Hw _]. congruence. }
  assert (∀ e, (t, Throw e) = (t', r) → ∃ I', ingested t' I' ∧ (∀ s, s ∈ I → s ∈ I') ∧
    (∀ s, s ∈ I' → s ∈ I ∨ ∃ y, y ∈ x :: page ∧ wanted y ∧ y.(SignatureInfo.signature) = s) ∧
    ∀ n, r = Ok n → ∀ y, y ∈ x :: page → wanted y → y.(SignatureInfo.signature) ∈ I') as Hthrow.
  { intros e [= <- <-]. exists I. split_and!; auto. done. }
  destruct (Rpc.transaction rpc (SignatureInfo.signature x)) as [[tx|]|] eqn:Et; [|by eapply Hthrow..].
  apply (answers_transaction _ _ Ha) in Et.
  destruct (parseSupportTx (Some tx) accounts) as [[p|]|] eqn:Ep; [| |by eapply Hthrow].
  - destruct (parsed_signature _ _ _ Et Ep) as [Hs Hp]. rewrite Hs in H.
    destruct (IH _ _ _ _ _ (upsert_ingested _ _ _ _ Hi Hp) H) as (I' & H1 & H2 & H3 & H4).
    assert (∀ s, s ∈ I → s ∈ I') as Hsub.
    { intros s Hin. apply H2. destruct (decide (s = SignatureInfo.signature x)) as [->|]; [by left|]. right.
      apply list_elem_of_In, filter_In. split; [by apply list_elem_of_In|]. by rewrite bool_decide_eq_false_2. }
    exists I'. split_and!; [done|done| |].
    + intros s [[->|Hin]%elem_of_cons|(y & ? & ?)]%H3.
      * right. exists x. split; [by left|]. split; [split; [done|congruence]|done].
      * left. by apply list_elem_of_In, filter_In in Hin as [?%list_elem_of_In _].
      * right. exists y. split; [by right|done].
    + intros n Hn y [->|Hy]%elem_of_cons Hw; [|by eapply H4]. apply H2. by left.
  - destruct (IH _ _ _ _ _ Hi H) as (I' & H1 & H2 & H3 & H4). exists I'. split_and!; [done|done| |].
    + intros s [?|(y & ? & ?)]%H3; [by left|]. right. exists y. split; [by right|done].
    + intros n Hn y [->|Hy]%elem_of_cons Hw; [|by eapply H4]. destruct Hw as [_ Hw].
      destruct Hw. unfold parsed_of. by rewrite Et, Ep.
Qed.

(** ** Cursors *)

Definition cursor_key (r : CursorRow.t) : option string := Some r.(CursorRow.account).

Lemma cursor_unique t account : unique_on cursor_key (docs t) → ∃ r, cursor_of t account = Ok r.
Proof using BS. apply (row_of_ok CursorRow.account). Qed.

Lemma setCursor_spec t account c t' :
  unique_on cursor_key (docs t) → setCursor t account c = Ok t' →
  unique_on cursor_key (docs t') ∧ getCursor t' account = Ok c ∧
  ∀ other, other ≠ account → getCursor t' other = getCursor t other.
Proof using BS.
  intros Hu H. unfold setCursor in H. destruct (cursor_unique t account Hu) as [r Hr]. rewrite Hr in H. cbn [bind] in H.
  destruct (row_of_write CursorRow.account t account r (CursorRow.mk account c) t' Hu Hr) as (Hu' & (i & Hi) & Ho); [done| |].
  { destruct r as [[i d]|]; injection H as <-; [|done]. by apply (row_of_some CursorRow.account) in Hr as [_ ->]. }
  split; [done|]. split.
  - unfold getCursor, cursor_of. fold (row_of CursorRow.account t' account). by rewrite Hi.
  - intros other Hne. unfold getCursor, cursor_of. specialize (Ho other Hne). unfold row_of in Ho. by rewrite Ho.
Qed.

(** ** Any sequence of runs *)

Definition vaults : list string := [accounts.(SupportAccounts.vault); accounts.(SupportAccounts.vaultUsdc)].

(** The signature of a wanted transaction in the history of a vault account *)
Definition in_history (h : string → History) (s : string) : Prop :=
  ∃ a x, a ∈ vaults ∧ x ∈ h a ∧ wanted x ∧ x.(SignatureInfo.signature) = s.

(** The tables are the transactions [I] of the histories [h], and whatever a
    cursor has covered is among them. *)
Record tracked (h : string → History) (s : Tables.t) (I : list string) : Prop := {
  tracked_cursors : unique_on cursor_key (docs s.(Tables.cursors));
  tracked_genuine a : genuine (h a);
  tracked_events : ingested s.(Tables.events) I;
  tracked_history x : x ∈ I → in_history h x;
  tracked_covered a : ∃ c done, getCursor s.(Tables.cursors) a = Ok c ∧ covers (h a) c done ∧
    ∀ x, x ∈ done → wanted x → x.(SignatureInfo.signature) ∈ I;
}.

(** The chain only grows, at the new end. *)
Definition grows (h h' : string → History) : Prop := ∀ a, genuine (h' a) ∧ ∃ more, h' a = more ++ h a.

Lemma grows_refl h : (∀ a, genuine (h a)) → grows h h.
Proof using Type. intros Hn a. split; [done|]. by exists []. Qed.

Lemma tracked_grow h h' s I : tracked h s I → grows h h' → tracked h' s I.
Proof using Type.
  intros [Hc _ He Hh Hd] Hg. split; [done| |done| |].
  - apply Hg.
  - intros x Hx. destruct (Hh x Hx) as (a & y & Ha & Hy & Hw). destruct (Hg a) as [_ [more E]].
    exists a, y. split; [done|]. split; [|done]. rewrite E. apply elem_of_app. by right.
  - intros a. destruct (Hd a) as (c & done & Hcur & (fresh & mid & gap & old & Hw & ->) & Hin).
    destruct (Hg a) as [_ [more ->]]. exists c, (mid ++ old). split; [done|]. split; [|done].
    exists (more ++ fresh), mid, gap, old. split; [by apply walk_grow|done].
Qed.

Lemma elem_of_page (h : string → History) a c fresh mid gap old x :
  walk (h a) c fresh mid gap old →
  x ∈ take PAGE match c.(SupportCursor.pending) with None => fresh | Some _ => gap end → x ∈ h a.
Proof using Type.
  intros (-> & _) Hx. rewrite !elem_of_app.
  assert (x ∈ match c.(SupportCursor.pending) with None => fresh | Some _ => gap end).
  { rewrite <- (take_drop PAGE). apply elem_of_app. by left. }
  destruct (SupportCursor.pending c); auto.
Qed.

Lemma page_tracked rpc h a c s I n s' r :
  tracked h s I → a ∈ vaults → answers rpc h → getCursor s.(Tables.cursors) a = Ok c →
  sync_page accounts rpc a c s n = (s', r) →
  ∃ I', tracked h s' I' ∧ (∀ x, x ∈ I → x ∈ I') ∧ ∀ c' n', r = Ok (c', n') → getCursor s'.(Tables.cursors) a = Ok c' ∧
    ∃ page, page = page_of (h a) (planPage c).1 (planPage c).2 PAGE ∧ c' = advanceCursor c page PAGE.
Proof using BS chain_signature.
  intros Ht Ha Hr Hcur H. pose proof Ht as [Hc Hn He Hh Hd]. unfold sync_page in H.
  destruct (Hd a) as (c0 & done & Hcur' & (fresh & mid & gap & old & Hw & ->) & Hin).
  rewrite Hcur in Hcur'. injection Hcur' as <-.
  pose proof (planned_page _ _ _ _ _ _ PAGE Hw (Hn a)) as Hpage.
  destruct (planPage c) as [b u] eqn:Epl. cbn [fst snd] in Hpage.
  destruct (Rpc.signatures rpc a b u PAGE) as [page|e] eqn:Es; [|simplify_eq; by exists I].
  apply (answers_signatures _ _ Hr) in Es. rewrite <- Es in Hpage.
  destruct (ingest accounts rpc page (Tables.events s) n) as [ev r0] eqn:Ei.
  destruct (ingest_spec _ _ Hr _ _ _ _ _ _ He Ei) as (I' & H1 & H2 & H3 & H4).
  assert (∀ x, x ∈ I' → in_history h x) as Hh'.
  { intros x [?|(y & Hy & Hwant & Hs)]%H3; [by apply Hh|]. exists a, y. split; [done|]. split; [|done].
    rewrite Hpage in Hy. by eapply elem_of_page. }
  assert (tracked h (Tables.mk ev s.(Tables.cursors)) I') as Hfail.
  { split; [done|done|done|done|]. intros a'. destruct (Hd a') as (c' & d' & ? & ? & Hd'). exists c', d'.
    split; [done|]. split; [done|]. auto. }
  destruct r0 as [n'|e]; [|simplify_eq; by exists I'].
  destruct (setCursor (Tables.cursors s) a (advanceCursor c page PAGE)) as [cur|e] eqn:Ec; [|simplify_eq; by exists I'].
  injection H as <- <-. exists I'. destruct (setCursor_spec _ _ _ _ Hc Ec) as (Hu & Hset & Hother).
  split; [|split; [done|intros c' n'' [= <- <-]; split; [done|]; by exists page]].
  split; [done|done|done|done|]. intros a'. cbn [Tables.cursors].
  destruct (decide (a' = a)) as [->|Hne].
  - destruct (advance_walk _ _ _ _ _ _ PAGE page Hw ltac:(unfold PAGE; lia) Hpage)
      as (f' & m' & g' & o' & Hw' & Hperm & _). exists (advanceCursor c page PAGE), (m' ++ o').
    split; [done|]. split; [by exists f', m', g', o'|]. intros x Hx Hwant.
    rewrite Hperm in Hx. apply elem_of_app in Hx as [Hx|Hx]; [by eapply H4|]. apply H2. auto.
  - rewrite Hother by done. destruct (Hd a') as (c' & d' & ? & ? & Hd'). exists c', d'. split; [done|]. split; [done|]. auto.
Qed.

Lemma pages_tracked a n : a ∈ vaults → ∀ rpcs hs c s I stored s' r,
  (∀ k, answers (rpcs k) (hs k)) → (∀ k, grows (hs k) (hs (S k))) →
  tracked (hs 0%nat) s I → getCursor s.(Tables.cursors) a = Ok c →
  sync_pages accounts n rpcs a c s stored = (s', r) → ∃ k I', (k <= n)%nat ∧ tracked (hs k) s' I'.
Proof using BS chain_signature.
  intros Ha. induction n as [|n IH]; intros rpcs hs c s I stored s' r Hr Hg Ht Hc H; cbn [sync_pages] in H.
  { simplify_eq. exists 0%nat, I. split; [lia|done]. }
  destruct (sync_page accounts (rpcs 0%nat) a c s stored) as [s1 r1] eqn:E1.
  destruct (page_tracked _ _ _ _ _ _ _ _ _ Ht Ha (Hr 0%nat) Hc E1) as (I1 & Ht1 & _ & Hc1).
  destruct r1 as [[c1 n1]|e]; [|simplify_eq; exists 0%nat, I1; split; [lia|done]].
  destruct (Hc1 _ _ eq_refl) as [Hcur _].
  destruct (SupportCursor.pending c1); [|simplify_eq; exists 0%nat, I1; split; [lia|done]].
  destruct (IH (λ k, rpcs (S k)) (λ k, hs (S k)) _ _ _ _ _ _ (λ k, Hr (S k)) (λ k, Hg (S k))
    (tracked_grow _ _ _ _ Ht1 (Hg 0%nat)) Hcur H) as (k & I' & Hk & Ht'). exists (S k), I'. split; [lia|done].
Qed.

Lemma account_tracked a : a ∈ vaults → ∀ rpcs hs s I stored s' r,
  (∀ k, answers (rpcs k) (hs k)) → (∀ k, grows (hs k) (hs (S k))) → tracked (hs 0%nat) s I →
  sync_account accounts rpcs a s stored = (s', r) → ∃ k I', (k <= MAX_PAGES_PER_ACCOUNT)%nat ∧ tracked (hs k) s' I'.
Proof using BS chain_signature.
  intros Ha rpcs hs s I stored s' r Hr Hg Ht H. unfold sync_account in H.
  destruct (tracked_covered _ _ _ Ht a) as (c & d & Hc & _). rewrite Hc in H. by eapply pages_tracked.
Qed.

Lemma grows_trans h1 h2 h3 : grows h1 h2 → grows h2 h3 → grows h1 h3.
Proof using Type.
  intros H12 H23 a. destruct (H12 a) as [_ [m1 E1]], (H23 a) as [Hn [m2 E2]]. split; [done|].
  exists (m2 ++ m1). by rewrite E2, E1, app_assoc.
Qed.

Lemma grows_le hs : (∀ k, grows (hs k) (hs (S k))) → (∀ a, genuine (hs 0%nat a)) → ∀ j k, (j <= k)%nat → grows (hs j) (hs k).
Proof using Type.
  intros Hg Hn j k Hle. assert (∀ i, ∀ a, genuine (hs i a)) as Hn' by (intros [|i]; [done | intros a; apply Hg]).
  induction Hle as [|k _ IH]; [by apply grows_refl|]. by eapply grows_trans.
Qed.

Lemma sync_tracked env target rpcs hs s I s' r :
  (∀ rpc accounts', supportServerConfig env = config_ok rpc accounts' → accounts' = accounts) →
  (∀ k, answers (rpcs k) (hs k)) → (∀ k, grows (hs k) (hs (S k))) → tracked (hs 0%nat) s I →
  sync env target rpcs s = (s', r) → ∃ k I', tracked (hs k) s' I'.
Proof using BS chain_signature.
  intros Hcfg Hr Hg Ht H. unfold sync in H.
  destruct (supportServerConfig env) as [rpc acc|] eqn:Ec; [|simplify_eq; by exists 0%nat, I].
  rewrite (Hcfg _ _ eq_refl) in H. clear Hcfg Ec acc.
  destruct target as [target|]; [|simplify_eq; by exists 0%nat, I].
  destruct (indexerTargetProblem target accounts); [simplify_eq; by exists 0%nat, I|].
  destruct (sync_account accounts rpcs (SupportAccounts.vault accounts) s 0) as [s1 r1] eqn:E1.
  destruct (account_tracked _ ltac:(by left) _ _ _ _ _ _ _ Hr Hg Ht E1) as (k1 & I1 & Hk1 & Ht1).
  destruct r1 as [n1|]; [|simplify_eq; by exists k1, I1].
  destruct (sync_account accounts _ (SupportAccounts.vaultUsdc accounts) s1 n1) as [s2 r2] eqn:E2.
  pose proof (grows_le hs Hg (tracked_genuine _ _ _ Ht) k1 MAX_PAGES_PER_ACCOUNT Hk1) as Hgrow.
  destruct (account_tracked (SupportAccounts.vaultUsdc accounts) ltac:(right; by left) _
    (λ k, hs (MAX_PAGES_PER_ACCOUNT + k)%nat) _ _ _ _ _ (λ k, Hr _) (λ k, Hg (MAX_PAGES_PER_ACCOUNT + k)%nat)
    (tracked_grow _ _ _ _ Ht1 Hgrow) E2) as (k2 & I2 & _ & Ht2).
  exists (MAX_PAGES_PER_ACCOUNT + k2)%nat, I2. by destruct r2; simplify_eq.
Qed.

(** [synced h s]: the tables [s] after any [sync] calls of this configuration,
    failing ones included, while the histories grew to [h]. *)
Inductive synced : (string → History) → Tables.t → Prop :=
| synced_start h s :
    (∀ a, genuine (h a)) → docs s.(Tables.events) = ∅ → docs s.(Tables.cursors) = ∅ → synced h s
| synced_grow h h' s : synced h s → grows h h' → synced h' s
| synced_sync env target rpcs hs h' s s' r :
    synced (hs 0%nat) s →
    (∀ rpc accounts', supportServerConfig env = config_ok rpc accounts' → accounts' = accounts) →
    (∀ k, answers (rpcs k) (hs k)) → (∀ k, grows (hs k) (hs (S k))) → (∀ k, grows (hs k) h') →
    sync env target rpcs s = (s', r) → synced h' s'.

Lemma empty_cursor (t : table CursorRow.t) a : docs t = ∅ → getCursor t a = Ok no_cursor.
Proof using BS.
  intros He. unfold getCursor, cursor_of.
  destruct (unique_query (λ r, bool_decide (CursorRow.account r = a)) unordered t) as [(i & d & _ & Hd & _)|[-> _]]; [|..|done].
  - intros i j d e Hd. by rewrite He, lookup_empty in Hd.
  - by rewrite He, lookup_empty in Hd.
Qed.

Lemma start_tracked h s :
  (∀ a, genuine (h a)) → docs s.(Tables.events) = ∅ → docs s.(Tables.cursors) = ∅ → tracked h s [].
Proof using BS.
  intros Hn He Hc. split.
  - rewrite Hc. apply unique_on_empty.
  - done.
  - split; [constructor|by intros ? ?%not_elem_of_nil|]. unfold table_is. by rewrite He, map_to_list_empty.
  - by intros ? ?%not_elem_of_nil.
  - intros a. exists no_cursor, []. split; [by apply empty_cursor|]. split; [|by intros ? ?%not_elem_of_nil].
    exists (h a), [], [], []. split; [apply walk_start|done].
Qed.

Lemma synced_tracked h s : synced h s → ∃ I, tracked h s I.
Proof using BS chain_signature.
  induction 1 as [h s Hn He Hc|h h' s _ [I IH] Hg|env target rpcs hs h' s s' r _ [I IH] Hcfg Hr Hg Hg' Hs].
  - exists []. by apply start_tracked.
  - exists I. by eapply tracked_grow.
  - destruct (sync_tracked _ _ _ _ _ _ _ _ Hcfg Hr Hg IH Hs) as (k & I' & Ht). exists I'. by eapply tracked_grow.
Qed.

(** ** Catching up *)

Definition caught_up (h : string → History) (s : Tables.t) (a : string) : Prop :=
  ∃ c, getCursor s.(Tables.cursors) a = Ok c ∧ c.(SupportCursor.pending) = None ∧
    c.(SupportCursor.newest) = head (sigs (h a)).

(** All of the history is covered. *)
Lemma caught_up_covers h s I a : tracked h s I → caught_up h s a → ∀ x, x ∈ h a → wanted x → x.(SignatureInfo.signature) ∈ I.
Proof using Type.
  intros [_ Hn _ _ Hd] (c & Hc & Hp & Hnew) x Hx. destruct (Hd a) as (c' & done & Hc' & (f & m & g & o & (E & Hno & Hpe) & ->) & Hin).
  rewrite Hc in Hc'. injection Hc' as <-. unfold pending_is in Hpe. rewrite Hp in Hpe. destruct Hpe as [-> ->].
  apply Hin. specialize (Hn a). apply genuine_nodup in Hn. rewrite E in Hx, Hn, Hnew. simpl in *. unfold newest_is in Hno. rewrite Hnew in Hno.
  destruct f as [|y f]; [done|]. exfalso. rewrite sigs_app in Hno, Hn. simpl in Hno, Hn.
  apply NoDup_cons in Hn as [Hn _]. apply Hn, elem_of_app. right. destruct (sigs o); [done|]. injection Hno as ->. by left.
Qed.

(** At most [m] more pages of a history that stands still *)
Definition to_go (h : History) (c : SupportCursor.t) (m : nat) : Prop :=
  ∃ fresh mid gap old, walk h c fresh mid gap old ∧
    (2 * length (fresh ++ gap) + match c.(SupportCursor.pending) with Some _ => 1 | None => 0 end <= m)%nat.

Lemma to_go_mono h c m n : to_go h c m → (m <= n)%nat → to_go h c n.
Proof using Type. intros (f & mi & g & o & Hw & Hm) Hle. exists f, mi, g, o. split; [done|lia]. Qed.

Lemma to_go_page h c m :
  to_go h c m → genuine h →
  to_go h (advanceCursor c (page_of h (planPage c).1 (planPage c).2 PAGE) PAGE) (pred m).
Proof using Type.
  intros (f & mi & g & o & Hw & Hm) Hn. rewrite (planned_page _ _ _ _ _ _ PAGE Hw Hn).
  set (page := take PAGE _).
  destruct (advance_walk _ _ _ _ _ _ PAGE page Hw ltac:(unfold PAGE; lia) eq_refl)
    as (f' & m' & g' & o' & Hw' & _ & _ & _ & _ & Hlen).
  exists f', m', g', o'. split; [done|]. rewrite Hlen. clear Hlen. pose proof Hw as (_ & _ & Hp). unfold pending_is in Hp.
  subst page. destruct c as [newest [[top b]|]]; simpl in Hp, Hm |- *.
  - destruct g as [|x g]; [rewrite take_nil; simpl; lia|].
    assert (1 <= length (take PAGE (x :: g)))%nat by (rewrite length_take; unfold PAGE; simpl; lia).
    rewrite length_app in *. cbn [length] in *. destruct (SupportCursor.pending (advanceCursor _ _ _)); lia.
  - destruct Hp as [-> ->]. destruct f as [|x f]; [rewrite take_nil; simpl; lia|].
    assert (1 <= length (take PAGE (x :: f)))%nat by (rewrite length_take; unfold PAGE; simpl; lia).
    rewrite app_nil_r in *. cbn [length] in *. destruct (SupportCursor.pending (advanceCursor _ _ _)); lia.
Qed.

Lemma to_go_done h c : to_go h c 0 → c.(SupportCursor.pending) = None ∧ c.(SupportCursor.newest) = head (sigs h).
Proof using Type.
  intros (f & m & g & o & (-> & Hno & Hp) & Hm). unfold pending_is in Hp. destruct (SupportCursor.pending c); [lia|].
  destruct Hp as [-> ->]. rewrite app_nil_r in Hm. destruct f; [|simpl in Hm; lia]. done.
Qed.

Lemma to_go_start h c done : covers h c done → to_go h c (2 * length h + 1).
Proof using Type.
  intros (f & m & g & o & Hw & _). exists f, m, g, o. split; [done|]. destruct Hw as (-> & _). rewrite !length_app.
  destruct (SupportCursor.pending c); lia.
Qed.

Lemma page_other rpc a b c s n s' r :
  unique_on cursor_key (docs s.(Tables.cursors)) → sync_page accounts rpc b c s n = (s', r) → a ≠ b →
  getCursor s'.(Tables.cursors) a = getCursor s.(Tables.cursors) a.
Proof using BS.
  intros Hu H Hne. unfold sync_page in H. destruct (planPage c) as [x u].
  destruct (Rpc.signatures rpc b x u PAGE) as [page|]; [|by simplify_eq].
  destruct (ingest accounts rpc page (Tables.events s) n) as [ev [n'|]]; [|by simplify_eq].
  destruct (setCursor _ b _) as [cur|] eqn:E; [|by simplify_eq]. injection H as <- <-. simpl.
  by eapply (setCursor_spec _ b).
Qed.

(** The other account's pages leave this one's cursor alone. *)
Lemma pages_other a b n : a ≠ b → b ∈ vaults → ∀ h rpcs c s I stored s' r,
  (∀ k, answers (rpcs k) h) → tracked h s I → getCursor s.(Tables.cursors) b = Ok c →
  sync_pages accounts n rpcs b c s stored = (s', r) →
  getCursor s'.(Tables.cursors) a = getCursor s.(Tables.cursors) a.
Proof using BS chain_signature.
  intros Hne Hb. induction n as [|n IH]; intros h rpcs c s I stored s' r Hr Ht Hc H; cbn [sync_pages] in H; [by simplify_eq|].
  destruct (sync_page accounts (rpcs 0%nat) b c s stored) as [s1 r1] eqn:E1.
  pose proof (page_other _ _ _ _ _ _ _ _ (tracked_cursors _ _ _ Ht) E1 Hne) as Ho.
  destruct (page_tracked _ _ _ _ _ _ _ _ _ Ht Hb (Hr 0%nat) Hc E1) as (I1 & Ht1 & _ & Hc1).
  destruct r1 as [[c1 n1]|]; [|by simplify_eq]. destruct (Hc1 _ _ eq_refl) as [Hcur _].
  destruct (SupportCursor.pending c1); [|by simplify_eq].
  rewrite (IH h _ _ _ _ _ _ _ (λ k, Hr (S k)) Ht1 Hcur H). done.
Qed.

(** Each page of its own brings it nearer. *)
Lemma pages_to_go a n : a ∈ vaults → ∀ h rpcs c s I m stored s' k,
  (∀ k, answers (rpcs k) h) → tracked h s I → getCursor s.(Tables.cursors) a = Ok c → to_go (h a) c m →
  sync_pages accounts n rpcs a c s stored = (s', Ok k) →
  ∃ c', getCursor s'.(Tables.cursors) a = Ok c' ∧ to_go (h a) c' (match n with O => m | S _ => pred m end).
Proof using BS chain_signature.
  intros Ha. induction n as [|n IH]; intros h rpcs c s I m stored s' k Hr Ht Hc Hm H; cbn [sync_pages] in H.
  { simplify_eq. eauto. }
  destruct (sync_page accounts (rpcs 0%nat) a c s stored) as [s1 r1] eqn:E1.
  destruct (page_tracked _ _ _ _ _ _ _ _ _ Ht Ha (Hr 0%nat) Hc E1) as (I1 & Ht1 & _ & Hc1).
  destruct r1 as [[c1 n1]|]; [|done]. destruct (Hc1 _ _ eq_refl) as (Hcur & page & -> & ->).
  pose proof (to_go_page _ _ _ Hm (tracked_genuine _ _ _ Ht a)) as Hgo.
  destruct (SupportCursor.pending _); [|simplify_eq; eauto].
  destruct (IH h _ _ _ _ _ _ _ _ (λ k, Hr (S k)) Ht1 Hcur Hgo H) as (c' & Hc' & Hgo').
  exists c'. split; [done|]. eapply to_go_mono; [done|]. destruct n; lia.
Qed.

Lemma account_to_go a b h rpcs s I m stored s' k c :
  a ∈ vaults → b ∈ vaults → (∀ k, answers (rpcs k) h) → tracked h s I →
  getCursor s.(Tables.cursors) a = Ok c → to_go (h a) c m → sync_account accounts rpcs b s stored = (s', Ok k) →
  (∃ I', tracked h s' I') ∧
  ∃ c', getCursor s'.(Tables.cursors) a = Ok c' ∧ to_go (h a) c' (if decide (a = b) then pred m else m).
Proof using BS chain_signature.
  intros Ha Hb Hr Ht Hc Hm H. split.
  - destruct (account_tracked b Hb _ (λ _, h) _ _ _ _ _ Hr (λ _, grows_refl h (tracked_genuine _ _ _ Ht)) Ht H) as (_ & I' & _ & ?).
    by exists I'.
  - unfold sync_account in H. destruct (getCursor (Tables.cursors s) b) as [c0|] eqn:Hc0; [|done].
    case_decide as E.
    + subst. rewrite Hc in Hc0. injection Hc0 as <-. unfold MAX_PAGES_PER_ACCOUNT in H. by eapply (pages_to_go b 5).
    + rewrite <- (pages_other a b _ E Hb _ _ _ _ _ _ _ _ Hr Ht Hc0 H) in Hc. eauto.
Qed.

(** [k] successful [sync] calls against a chain that stands still *)
Inductive rounds (h : string → History) : nat → Tables.t → Tables.t → Prop :=
| rounds_none s : rounds h 0 s s
| rounds_more k env rpc target rpcs s s1 s' n :
    supportServerConfig env = config_ok rpc accounts → (∀ j, answers (rpcs j) h) →
    sync env target rpcs s = (s1, Ok (Some n)) → rounds h k s1 s' → rounds h (S k) s s'.

Lemma sync_to_go a h rpcs env rpc target s I m s' n c :
  a ∈ vaults → supportServerConfig env = config_ok rpc accounts → (∀ j, answers (rpcs j) h) → tracked h s I →
  getCursor s.(Tables.cursors) a = Ok c → to_go (h a) c m → sync env target rpcs s = (s', Ok (Some n)) →
  (∃ I', tracked h s' I') ∧ ∃ c', getCursor s'.(Tables.cursors) a = Ok c' ∧ to_go (h a) c' (pred m).
Proof using BS chain_signature.
  intros Ha Hcfg Hr Ht Hc Hm H. unfold sync in H. rewrite Hcfg in H.
  destruct target as [target|]; [|done]. destruct (indexerTargetProblem target accounts); [done|].
  destruct (sync_account accounts rpcs (SupportAccounts.vault accounts) s 0) as [s1 [n1|]] eqn:E1; [|done].
  destruct (sync_account accounts _ (SupportAccounts.vaultUsdc accounts) s1 n1) as [s2 [n2|]] eqn:E2; [|done]. injection H as <- <-.
  destruct (account_to_go a _ h rpcs s I m 0%nat s1 n1 c Ha ltac:(by left) Hr Ht Hc Hm E1) as ([I1 Ht1] & c1 & Hc1 & Hm1).
  destruct (account_to_go a _ h _ s1 I1 _ n1 s2 n2 c1 Ha ltac:(right; by left) (λ k, Hr _) Ht1 Hc1 Hm1 E2) as (HI & c2 & Hc2 & Hm2).
  split; [done|]. exists c2. split; [done|]. eapply to_go_mono; [done|].
  destruct (decide (a = SupportAccounts.vault accounts)); destruct (decide (a = SupportAccounts.vaultUsdc accounts)); [lia..|].
  by apply elem_of_cons in Ha as [?|[?|?%not_elem_of_nil]%elem_of_cons].
Qed.

Lemma rounds_to_go a h k s s' : rounds h k s s' → ∀ I m c,
  a ∈ vaults → tracked h s I → getCursor s.(Tables.cursors) a = Ok c → to_go (h a) c m →
  ∃ c', getCursor s'.(Tables.cursors) a = Ok c' ∧ to_go (h a) c' (m - k).
Proof using BS chain_signature.
  induction 1 as [s|k env rpc target rpcs s s1 s' n Hcfg Hr Hs _ IH]; intros I m c Ha Ht Hc Hm.
  { exists c. split; [done|]. by rewrite Nat.sub_0_r. }
  destruct (sync_to_go _ _ _ _ _ _ _ _ _ _ _ _ Ha Hcfg Hr Ht Hc Hm Hs) as ([I1 Ht1] & c1 & Hc1 & Hm1).
  destruct (IH _ _ _ Ha Ht1 Hc1 Hm1) as (c' & Hc' & Hm'). exists c'. split; [done|].
  eapply to_go_mono; [done|lia].
Qed.

(** ** A node that answers *)

(** It knows every signature and transaction. *)
Definition honest (h : string → History) : Rpc.t :=
  Rpc.mk (λ account b u limit, Ok (page_of (h account) b u limit)) (λ s, Ok (chain s)).

Lemma honest_answers h : answers (honest h) h.
Proof using Type. split; [by intros a b u n l [= <-]|by intros s tx [= ->]]. Qed.

(** Every successful transaction of the vaults' histories is on the chain, and
    its balances and transfers are integers. *)
Definition readable (h : string → History) : Prop :=
  ∀ a x, a ∈ vaults → x ∈ h a → strict_eq x.(SignatureInfo.err) VNull = true →
  ∃ tx p, chain x.(SignatureInfo.signature) = Some tx ∧ parseSupportTx (Some tx) accounts = Ok p.

Lemma ingest_returns h a page : readable h → a ∈ vaults → (∀ x, x ∈ page → x ∈ h a) → ∀ t n,
  ∃ t' n', ingest accounts (honest h) page t n = (t', Ok n').
Proof using chain_signature.
  intros Hr Ha. induction page as [|x page IH]; intros Hp t n; [by eexists _, _|]. cbn [ingest].
  assert (∀ y, y ∈ page → y ∈ h a) as Hp' by (intros; apply Hp; by right).
  destruct (strict_eq (SignatureInfo.err x) VNull) eqn:E; cbn [negb]; [|by apply IH].
  destruct (Hr a x Ha ltac:(apply Hp; by left) E) as (tx & p & Hc & Hpar). cbn [honest Rpc.transaction].
  rewrite Hc, Hpar. destruct p as [p|]; [|by apply IH].
  destruct (parsed_signature _ _ _ Hc Hpar) as [-> _]. by apply IH.
Qed.

Lemma page_returns h a c s I n :
  readable h → tracked h s I → a ∈ vaults → getCursor s.(Tables.cursors) a = Ok c →
  ∃ s' c' n', sync_page accounts (honest h) a c s n = (s', Ok (c', n')).
Proof using BS chain_signature.
  intros Hr Ht Ha Hc. unfold sync_page. destruct (planPage c) as [b u] eqn:Epl. cbn [honest Rpc.signatures].
  destruct (tracked_covered _ _ _ Ht a) as (c0 & d & Hc0 & (f & m & g & o & Hw & _) & _).
  rewrite Hc in Hc0. injection Hc0 as <-.
  pose proof (planned_page _ _ _ _ _ _ PAGE Hw (tracked_genuine _ _ _ Ht a)) as Hpage. rewrite Epl in Hpage. cbn [fst snd] in Hpage.
  destruct (ingest_returns h a (page_of (h a) b u PAGE) Hr Ha) with (t := Tables.events s) (n := n) as (t' & n' & ->).
  { intros x. rewrite Hpage. by apply (elem_of_page h a c f m g o). }
  unfold setCursor. destruct (cursor_unique _ a (tracked_cursors _ _ _ Ht)) as [r ->]. cbn [bind]. by eexists _, _, _.
Qed.

Lemma pages_return h a k : readable h → a ∈ vaults → ∀ c s I n,
  tracked h s I → getCursor s.(Tables.cursors) a = Ok c →
  ∃ s' n', sync_pages accounts k (λ _, honest h) a c s n = (s', Ok n').
Proof using BS chain_signature.
  intros Hr Ha. induction k as [|k IH]; intros c s I n Ht Hc; cbn [sync_pages]; [by eexists _, _|].
  destruct (page_returns h a c s I n Hr Ht Ha Hc) as (s' & c' & n' & E). rewrite E.
  destruct (page_tracked _ _ _ _ _ _ _ _ _ Ht Ha (honest_answers h) Hc E) as (I' & Ht' & _ & Hc').
  destruct (Hc' _ _ eq_refl) as [Hcur _]. destruct (SupportCursor.pending c'); [|by eexists _, _].
  by eapply IH.
Qed.

Lemma account_returns h a s I n :
  readable h → a ∈ vaults → tracked h s I →
  ∃ s' n' I', sync_account accounts (λ _, honest h) a s n = (s', Ok n') ∧ tracked h s' I'.
Proof using BS chain_signature.
  intros Hr Ha Ht. destruct (tracked_covered _ _ _ Ht a) as (c & d & Hc & _).
  destruct (pages_return h a MAX_PAGES_PER_ACCOUNT Hr Ha c s I n Ht Hc) as (s' & n' & E).
  assert (sync_account accounts (λ _, honest h) a s n = (s', Ok n')) as Es by (unfold sync_account; by rewrite Hc).
  destruct (account_tracked a Ha _ (λ _, h) _ _ _ _ _ (λ _, honest_answers h)
    (λ _, grows_refl h (tracked_genuine _ _ _ Ht)) Ht Es) as (_ & I' & _ & Ht'). by exists s', n', I'.
Qed.

(** The configuration is complete and names the vault the node serves. *)
Definition ready (env : SupportEnv.t) (target : IndexerTarget.t) : Prop :=
  (∃ rpc, supportServerConfig env = config_ok rpc accounts) ∧ indexerTargetProblem target accounts = None.

Lemma sync_returns env target h s I :
  ready env target → readable h → tracked h s I →
  ∃ s' n I', sync env (Ok target) (λ _, honest h) s = (s', Ok (Some n)) ∧ tracked h s' I'.
Proof using BS chain_signature.
  intros [[rpc Hcfg] Htg] Hr Ht. unfold sync. rewrite Hcfg, Htg.
  destruct (account_returns h (SupportAccounts.vault accounts) s I 0 Hr ltac:(by left) Ht) as (s1 & n1 & I1 & -> & Ht1).
  destruct (account_returns h (SupportAccounts.vaultUsdc accounts) s1 I1 n1 Hr ltac:(right; by left) Ht1) as (s2 & n2 & I2 & -> & Ht2).
  by exists s2, n2, I2.
Qed.

(** [k] calls of the cron job against that node *)
Fixpoint sync_times (env : SupportEnv.t) (target : IndexerTarget.t) (h : string → History) (k : nat) (s : Tables.t) : Tables.t :=
  match k with
  | O => s
  | S k => sync_times env target h k (sync env (Ok target) (λ _, honest h) s).1
  end.

Lemma sync_times_tracked env target h : ready env target → readable h → ∀ k s I,
  tracked h s I → rounds h k s (sync_times env target h k s) ∧ ∃ I', tracked h (sync_times env target h k s) I'.
Proof using BS chain_signature.
  intros Hready Hr. induction k as [|k IH]; intros s I Ht; cbn [sync_times]; [split; [constructor|by exists I]|].
  destruct (sync_returns _ _ _ _ _ Hready Hr Ht) as (s1 & n & I1 & E & Ht1). rewrite E. cbn [fst].
  destruct (IH _ _ Ht1) as [Hrounds HI]. split; [|done]. pose proof (proj1 Hready) as [rpc Hcfg].
  by eapply rounds_more; [|intros ?; apply honest_answers| |].
Qed.
End Tracker.
