(* ===== verification/SupportProps.v ===== *)
(** * What the support tracker guarantees

    Over one transaction (convex/supportParse.ts): every change of the vault's
    balance is accounted for, an anonymous giver is not named, and log lines of
    other programs pay nobody.  Over any runs of the indexer (convex/support.ts):
    the public summary adds up to the balance changes of the transactions
    ingested, and against a node that answers, the indexer catches up. *)
From Stdlib Require Import ZArith Lia Strings.Byte Strings.Ascii.
From stdpp Require Import base numbers strings list fin_maps gmap.
From S2P Require Import Prelude Bytes PublicKey CardConstants Decimal Base64 CardMath Store Values Records Storage StorageRuns SupportParse Support SupportRuns.

#[local] Arguments parseSupportTx : simpl never.

(** ** One transaction *)

(** The vault's account of an asset *)
Definition vault_account (accounts : SupportAccounts.t) (asset : Asset) : string :=
  match asset with SOL => accounts.(SupportAccounts.vault) | USDC => accounts.(SupportAccounts.vaultUsdc) end.

Lemma parse_inv tx accounts p :
  parseSupportTx (Some tx) accounts = Ok (Some p) →
  ∃ meta c dsol dusdc, tx.(RpcTransaction.meta) = Some meta ∧ strict_eq meta.(Meta.err) VNull = true ∧
    tx_context meta tx accounts = Ok c ∧
    balanceDelta meta tx accounts.(SupportAccounts.vault) SOL = Ok dsol ∧
    balanceDelta meta tx accounts.(SupportAccounts.vaultUsdc) USDC = Ok dusdc ∧
    p = ParsedSupportTx.mk (head tx.(RpcTransaction.signatures)) tx.(RpcTransaction.slot) tx.(RpcTransaction.blockTime)
      (asset_events c SOL dsol ++ asset_events c USDC dusdc).
Proof.
  unfold parseSupportTx. intros H. destruct (RpcTransaction.meta tx) as [meta|]; [|done].
  destruct (strict_eq (Meta.err meta) VNull) eqn:E; [|done]. simpl in H.
  apply bind_ok in H as (c & Hc & H). apply bind_ok in H as (dsol & Hsol & H). apply bind_ok in H as (dusdc & Husdc & H).
  injection H as <-. by exists meta, c, dsol, dusdc.
Qed.

Lemma parse_balance tx accounts p :
  parseSupportTx (Some tx) accounts = Ok (Some p) →
  ∃ meta, tx.(RpcTransaction.meta) = Some meta ∧
    ∀ asset, balanceDelta meta tx (vault_account accounts asset) asset
      = Ok (balance_of asset p.(ParsedSupportTx.events)).
Proof.
  intros (meta & c & dsol & dusdc & Hm & _ & _ & Hs & Hu & ->)%parse_inv. exists meta. split; [done|].
  intros []; cbn [vault_account ParsedSupportTx.events]; rewrite balance_of_app, asset_events_balance, balance_other by done.
  - by rewrite Hs, Z.add_0_r.
  - by rewrite Hu.
Qed.

(** Each event of a transaction comes from one of these places. *)
Lemma asset_events_elem c asset delta e :
  e ∈ asset_events c asset delta →
  (∃ p, p ∈ c.(TxContext.paid) ∧ e = SupportEvent.mk payout asset (toString p.(Paid.amount)) None None (Some p.(Paid.side))) ∨
  (∃ kind z, e = plain_event kind asset z ∧ kind ≠ payout ∧ (kind = funding → c.(TxContext.initialized) = true)) ∨
  (∃ t, t ∈ c.(TxContext.transfers) ∧ t.(Transfer.asset) = asset ∧ e ∈ contribution_of c asset t).
Proof.
  unfold asset_events. cbv zeta. intros [H|H]%elem_of_app.
  { left. apply list_elem_of_fmap in H as (p & -> & Hp). exists p. split; [|done].
    by apply list_elem_of_In, filter_In in Hp as [?%list_elem_of_In _]. }
  right. destruct (_ <? 0); [left; apply list_elem_of_singleton in H as ->; by eexists anomaly, _|].
  destruct (_ =? 0); [by apply not_elem_of_nil in H|].
  destruct (_ && _) eqn:Ei; [left; apply list_elem_of_singleton in H as ->; bool_reflect; by eexists funding, _|].
  destruct (_ <? _); [left; apply list_elem_of_singleton in H as ->; by eexists contribution, _|].
  apply elem_of_app in H as [H|H].
  - right. apply list_elem_of_In, in_concat in H as (l & Hl & He). apply in_map_iff in Hl as (t & <- & Ht).
    apply filter_In in Ht as [Ht Ha]. bool_reflect. exists t. split; [by apply list_elem_of_In|].
    split; [done|by apply list_elem_of_In].
  - left. destruct (_ <? _); [apply list_elem_of_singleton in H as ->; by eexists contribution, _|by apply not_elem_of_nil in H].
Qed.

Lemma parse_elem tx accounts p e :
  parseSupportTx (Some tx) accounts = Ok (Some p) → e ∈ p.(ParsedSupportTx.events) →
  ∃ meta c asset delta, tx.(RpcTransaction.meta) = Some meta ∧ tx_context meta tx accounts = Ok c ∧
    e ∈ asset_events c asset delta.
Proof.
  intros (meta & c & dsol & dusdc & Hm & _ & Hc & _ & _ & ->)%parse_inv [H|H]%elem_of_app;
    exists meta, c; eauto.
Qed.

(** Amounts are printed integers. *)
Lemma parse_amount tx accounts p e :
  parseSupportTx (Some tx) accounts = Ok (Some p) → e ∈ p.(ParsedSupportTx.events) →
  ∃ z, e.(SupportEvent.amount) = toString z.
Proof.
  intros Hp (meta & c & asset & delta & _ & _ & H)%(parse_elem _ _ _ _ Hp).
  apply asset_events_elem in H as [(q & _ & ->)|[(kind & z & -> & _)|(t & _ & _ & H)]]; [by eexists..|].
  unfold contribution_of in H. destruct (_ =? 0); [by apply not_elem_of_nil in H|].
  apply list_elem_of_singleton in H as ->. by eexists.
Qed.

(** ** Whose data a log line is

    [frames programId f logs ds]: in a frame of program [f] (none at top level),
    the lines [logs] are properly nested calls, and [ds] is the data the frames of
    [programId] themselves emitted, in order. *)
Definition plain_line (line : string) : Prop := invoke_of line = None ∧ ends_call line = false.

Inductive frames (programId : string) : option string → list string → list string → Prop :=
| frames_end f : frames programId f [] []
| frames_line f line logs ds :
    plain_line line → data_of line = None → frames programId f logs ds → frames programId f (line :: logs) ds
| frames_data f line d logs ds :
    plain_line line → data_of line = Some d → frames programId f logs ds →
    frames programId f (line :: logs) ((if decide (f = Some programId) then [d] else []) ++ ds)
| frames_call f enter p body leave logs ds ds' :
    invoke_of enter = Some p → frames programId (Some p) body ds →
    invoke_of leave = None → ends_call leave = true → frames programId f logs ds' →
    frames programId f (enter :: body ++ leave :: logs) (ds ++ ds').

(** The events in a list of base64 data *)
Definition events_in (ds : list string) (e : SplitterEvents.t) : SplitterEvents.t :=
  foldl (λ e d, match atob d with Some bs => splitter_event e bs | None => e end) e ds.

Lemma frames_loop programId f logs ds :
  frames programId f logs ds → ∀ stack k e, head stack = f →
  splitter_loop (logs ++ k) programId stack e = splitter_loop k programId stack (events_in ds e).
Proof.
  induction 1 as [f|f line logs ds [Hi He] Hd _ IH|f line d logs ds [Hi He] Hd _ IH
    |f enter p body leave logs ds ds' Hi _ IHb Hl He _ IH]; intros stack k e Hf; cbn [app splitter_loop].
  - done.
  - rewrite Hi, He, Hd. by apply IH.
  - rewrite Hi, He, Hd, Hf. case_decide as E.
    + rewrite bool_decide_eq_true_2 by done. cbn [app]. unfold events_in at 1. cbn [foldl].
      destruct (atob d); by apply IH.
    + rewrite bool_decide_eq_false_2 by done. by apply IH.
  - rewrite Hi, <- app_assoc, IHb by done. cbn [app splitter_loop tail]. rewrite Hl, He, IH by done.
    unfold events_in. by rewrite foldl_app.
Qed.

(** the splitter's events in the logs of a transaction are those its own
    frames emitted, in order: a line another program prints, whatever it says, is
    nobody's payout. *)
Theorem splitterEvents_by_frames programId logs ds :
  frames programId None logs ds → splitterEvents logs programId = events_in ds (SplitterEvents.mk [] false).
Proof.
  intros H. unfold splitterEvents. rewrite <- (app_nil_r logs).
  rewrite (frames_loop programId None logs ds H [] [] (SplitterEvents.mk [] false) eq_refl). done.
Qed.

(** ** Who is named *)

Lemma elem_of_set_of x l : x ∈ set_of l ↔ x ∈ l.
Proof.
  unfold set_of. enough (∀ acc, x ∈ foldl (λ acc x, if bool_decide (x ∈ acc) then acc else acc ++ [x]) acc l ↔ x ∈ acc ∨ x ∈ l) as H.
  { rewrite H. split; [intros [?%not_elem_of_nil|?]; done|by right]. }
  induction l as [|y l IH]; intros acc; simpl.
  - split; [by left|intros [?|?%not_elem_of_nil]; done].
  - rewrite IH. case_bool_decide; rewrite ?elem_of_app, !elem_of_cons; set_solver.
Qed.

(** The keys that signed *)
Definition signed_by (tx : RpcTransaction.t) (d : string) : Prop :=
  ∃ k, k ∈ tx.(RpcTransaction.accountKeys) ∧ is_signer k = true ∧ key k = d.

Lemma context_signers meta tx accounts c :
  tx_context meta tx accounts = Ok c →
  c.(TxContext.memo) = parseSupportMemo (memoText meta tx) ∧ ∀ d, d ∈ c.(TxContext.signers) ↔ signed_by tx d.
Proof.
  unfold tx_context. cbv zeta. intros (transfers & _ & [= <-])%bind_ok. split; [done|]. intros d.
  cbn [TxContext.signers]. rewrite elem_of_set_of, list_elem_of_In, in_map_iff. unfold signed_by.
  setoid_rewrite filter_In. setoid_rewrite <- list_elem_of_In. naive_solver.
Qed.

Lemma head_elem {A} (l : list A) x : head l = Some x → x ∈ l.
Proof. destruct l; [done|]. intros [= ->]. by left. Qed.

Lemma contribution_named c asset t e :
  e ∈ contribution_of c asset t →
  e.(SupportEvent.kind) = contribution ∧ e.(SupportEvent.asset) = asset ∧
  (∀ d, e.(SupportEvent.donor) = Some d →
    (asset = USDC → d ∈ c.(TxContext.signers)) ∧ (d ∈ c.(TxContext.signers) → c.(TxContext.memo).(SupportMemo.anon) = false)) ∧
  (∀ n, e.(SupportEvent.note) = Some n → c.(TxContext.memo).(SupportMemo.note) = Some n).
Proof.
  unfold contribution_of. destruct (_ =? 0); [by intros ?%not_elem_of_nil|].
  set (donor := match Transfer.donor t with Some d => _ | None => None end). intros ->%list_elem_of_singleton. cbn.
  assert (∀ d, donor = Some d → asset = USDC → d ∈ c.(TxContext.signers)) as Hd.
  { intros d Hd ->. subst donor. destruct (Transfer.donor t) as [x|]; [|done]. rewrite bool_decide_eq_true_2 in Hd by done.
    destruct (bool_decide (x ∈ _)) eqn:E; cbn in Hd; [bool_reflect; by injection Hd as <-|].
    destruct (_ && _); [|done]. by apply head_elem. }
  clearbody donor. split_and!; [done|done| |].
  - intros d. destruct donor as [x|]; [|by destruct (_ && _)]. case_bool_decide as E; cbn.
    + destruct (SupportMemo.anon (TxContext.memo c)); [done|]. intros [= <-]. auto.
    + intros [= <-]. split; [auto|]. done.
  - intros n. destruct donor; [|done]. by case_bool_decide.
Qed.

Lemma trim_forallb p s : forallb p (chars s) = true → forallb p (chars (trim s)) = true.
Proof.
  assert (∀ s, forallb p (chars s) = true → forallb p (chars (trim_start s)) = true) as Hs.
  { clear s. intros s. induction s as [|c s IH]; intros H; [done|]. cbn [trim_start]. destruct (is_space c); [|done].
    apply IH. cbn in H. by bool_reflect. }
  assert (∀ s, forallb p (chars s) = true → forallb p (chars (trim_end s)) = true) as He.
  { clear s. intros s. induction s as [|c s IH]; intros H; [done|]. cbn in H. bool_reflect. specialize (IH ltac:(done)).
    cbn [trim_end]. destruct (trim_end s) as [|c' t]; [destruct (is_space c); [done|]; cbn; by rewrite andb_true_r|].
    cbn in IH |- *. by rewrite H, IH. }
  intros H. apply He, Hs, H.
Qed.

Lemma forallb_take {A} (p : A → bool) n l : forallb p l = true → forallb p (take n l) = true.
Proof.
  intros H. rewrite <- (take_drop n l), forallb_app in H. by bool_reflect.
Qed.

(** A note is a short printable line. *)
Lemma memo_note memo n :
  (parseSupportMemo memo).(SupportMemo.note) = Some n →
  n ≠ "" ∧ (length (chars n) <= NOTE_MAX)%nat ∧ forallb (λ c, negb (is_control c)) (chars n) = true.
Proof.
  unfold parseSupportMemo. destruct memo as [memo|]; [|done].
  destruct (strip_prefix _ (chars memo)) as [rest|]; [|done]. destruct (_ && _); [done|].
  destruct (match strip_prefix _ rest with Some _ => _ | None => _ end) as [anon rest']. cbn [SupportMemo.note].
  destruct (strip_prefix (chars " note=") rest') as [note|]; [|done]. cbv zeta.
  set (clean := trim _). case_bool_decide as Hne; [done|]. intros [= <-]. rewrite chars_text. split_and!.
  - destruct clean as [|c s]; [done|]. unfold NOTE_MAX. cbn. done.
  - rewrite length_take. lia.
  - apply forallb_take, trim_forallb. rewrite chars_text. apply forallb_forall. by intros c [_ ?]%filter_In.
Qed.

(** an event that names a donor is a contribution; the donor of a USDC
    contribution signed, and a donor who signed has not asked, in the memo, to
    stay anonymous.  A note is the memo's, at most 80 characters and without
    control characters. *)
Theorem donors_and_notes tx accounts p e :
  parseSupportTx (Some tx) accounts = Ok (Some p) → e ∈ p.(ParsedSupportTx.events) →
  ∃ meta, tx.(RpcTransaction.meta) = Some meta ∧
    (∀ d, e.(SupportEvent.donor) = Some d →
      e.(SupportEvent.kind) = contribution ∧ (e.(SupportEvent.asset) = USDC → signed_by tx d) ∧
      (signed_by tx d → (parseSupportMemo (memoText meta tx)).(SupportMemo.anon) = false)) ∧
    (∀ n, e.(SupportEvent.note) = Some n →
      e.(SupportEvent.kind) = contribution ∧ (parseSupportMemo (memoText meta tx)).(SupportMemo.note) = Some n ∧
      (length (chars n) <= NOTE_MAX)%nat ∧ forallb (λ c, negb (is_control c)) (chars n) = true).
Proof.
  intros Hp (meta & c & asset & delta & Hm & Hc & He)%(parse_elem _ _ _ _ Hp). exists meta. split; [done|].
  destruct (context_signers _ _ _ _ Hc) as [<- Hs].
  apply asset_events_elem in He as [(q & _ & ->)|[(kind & z & -> & _)|(t & _ & _ & He)]]; [done..|].
  apply contribution_named in He as (Hk & <- & Hd & Hn). split.
  - intros d [Hu Ha]%Hd. split; [done|]. setoid_rewrite <- Hs. done.
  - intros n Hn'%Hn. split_and!; [done|done|..].
    all: destruct (context_signers _ _ _ _ Hc) as [E _]; rewrite E in Hn'; by apply memo_note in Hn' as (_ & ? & ?).
Qed.

(** ** Sums over the table *)

Lemma sum_of_cons kind asset e l : sum_of kind asset (e :: l) = sum_of kind asset [e] + sum_of kind asset l.
Proof. apply (sum_of_app kind asset [e] l). Qed.

Lemma sum_of_perm kind asset l k : l ≡ₚ k → sum_of kind asset l = sum_of kind asset k.
Proof.
  induction 1 as [|e l k _ IH|e e' l|l k m _ IH1 _ IH2].
  - done.
  - by rewrite (sum_of_cons kind asset e l), (sum_of_cons kind asset e k), IH.
  - rewrite (sum_of_cons _ _ e (e' :: l)), (sum_of_cons _ _ e' l), (sum_of_cons _ _ e' (e :: l)), (sum_of_cons _ _ e l). lia.
  - congruence.
Qed.

Lemma sum_of_concat {A} kind asset (f : A → list SupportEvent.t) l :
  sum_of kind asset (concat (map f l)) = total (map (λ x, sum_of kind asset (f x)) l).
Proof. induction l as [|x l IH]; [done|]. cbn [map concat]. by rewrite sum_of_app, IH. Qed.

Lemma sum_of_one kind asset e : sum_of kind asset [e] = if of_kind kind asset e then amount_of e else 0.
Proof. unfold sum_of. cbn [List.filter]. destruct (of_kind kind asset e); cbn; lia. Qed.

Definition printed (row : StoredEvent.t) : Prop := ∃ z, row.(StoredEvent.event).(SupportEvent.amount) = toString z.

Lemma totals_of_sums asset rows : ∀ t, Forall printed rows →
  ∃ t', totals_of asset rows t = Ok t' ∧
    t'.(Totals.contributed) = t.(Totals.contributed) + sum_of contribution asset (map StoredEvent.event rows) ∧
    t'.(Totals.paidA) + t'.(Totals.paidB)
      = t.(Totals.paidA) + t.(Totals.paidB) + sum_of payout asset (map StoredEvent.event rows).
Proof.
  induction rows as [|r rows IH]; intros t Hr; [exists t; split; [done|]; cbn; lia|].
  apply Forall_cons in Hr as [[z Hz] Hr]. cbn [totals_of map]. rewrite Hz, string_bigint_toString. cbn [bind].
  set (e := StoredEvent.event r) in *. rewrite (sum_of_cons contribution asset e), (sum_of_cons payout asset e).
  edestruct IH as (t' & -> & H1 & H2); [done|]. exists t'. split; [done|]. rewrite H1, H2. clear H1 H2.
  assert (amount_of e = z) as Hz' by (unfold amount_of; by rewrite Hz, string_bigint_toString).
  rewrite !sum_of_one, Hz'. unfold of_kind.
  destruct (bool_decide (SupportEvent.asset e = asset)); cbn [negb]; [|rewrite !andb_false_r; lia].
  destruct (SupportEvent.kind e); repeat (case_bool_decide; try done); cbn; try (split; lia).
  destruct (SupportEvent.side e) as [[]|]; cbn; split; lia.
Qed.

Section Ledger.
Context `{B : Db, BS : !DbSpec B}.
Context (accounts : SupportAccounts.t) (chain : string → option RpcTransaction.t).
Hypothesis chain_signature : ∀ s tx, chain s = Some tx → head tx.(RpcTransaction.signatures) = Some s.

Abbreviation parsed_of := (parsed_of accounts chain).
Abbreviation rows_of := (rows_of accounts chain).

Definition events_of (s : string) : list SupportEvent.t :=
  match parsed_of s with Some p => p.(ParsedSupportTx.events) | None => [] end.

(** The vault's balance change in a finalized transaction *)
Definition delta_of (asset : Asset) (s : string) : Z :=
  match chain s with
  | Some tx =>
      match tx.(RpcTransaction.meta) with
      | Some meta => match balanceDelta meta tx (vault_account accounts asset) asset with Ok d => d | Throw _ => 0 end
      | None => 0
      end
  | None => 0
  end.

(** What a transaction brought in that is not a contribution: the vault's initial
    funding, less what left it without a payout. *)
Definition not_contributed (asset : Asset) (s : string) : Z :=
  sum_of funding asset (events_of s) - sum_of anomaly asset (events_of s).

Lemma parsed_inv s p :
  parsed_of s = Some p → ∃ tx, chain s = Some tx ∧ parseSupportTx (Some tx) accounts = Ok (Some p).
Proof using Type.
  unfold SupportRuns.parsed_of. destruct (chain s) as [tx|]; [|done].
  destruct (parseSupportTx (Some tx) accounts) as [q|] eqn:E; [|done]. intros ->. by exists tx.
Qed.

Lemma delta_of_events s asset :
  parsed_of s ≠ None →
  delta_of asset s = sum_of contribution asset (events_of s) - sum_of payout asset (events_of s) + not_contributed asset s.
Proof using Type.
  unfold not_contributed, events_of, delta_of. destruct (parsed_of s) as [p|] eqn:Hp; [intros _|done].
  apply parsed_inv in Hp as (tx & -> & (meta & -> & Hd)%parse_balance). rewrite Hd. unfold balance_of. lia.
Qed.

Lemma rows_events s : map (λ r, StoredEvent.event (EventRow.stored r)) (rows_of s) = events_of s.
Proof using Type.
  unfold SupportRuns.rows_of, events_of, event_rows. destruct (parsed_of s) as [p|]; [|done].
  set (l := ParsedSupportTx.events p). change (map ?f ?x) with (f <$> x). rewrite fmap_imap.
  rewrite <- (list_fmap_id l) at 2. rewrite <- imap_const. done.
Qed.

Lemma rows_printed s : Forall printed (map EventRow.stored (rows_of s)).
Proof using Type.
  apply Forall_map, Forall_forall. intros r Hr.
  assert (StoredEvent.event (EventRow.stored r) ∈ events_of s) as He
    by (rewrite <- rows_events; by apply (list_elem_of_fmap_2 (λ r, StoredEvent.event (EventRow.stored r)))).
  unfold events_of in He. destruct (parsed_of s) as [p|] eqn:Hp; [|by apply not_elem_of_nil in He].
  apply parsed_inv in Hp as (tx & _ & Hp). by eapply parse_amount.
Qed.

Lemma query_all {D} leb (t : table D) rows : table_is t rows → (query (λ _, true) leb t).*2 ≡ₚ rows.
Proof using BS.
  unfold table_is. intros <-. apply fmap_Permutation, NoDup_Permutation.
  - eapply NoDup_fmap_1, (query_nodup D (λ _, true) leb t).
  - apply NoDup_map_to_list.
  - intros [i d]. rewrite elem_of_map_to_list, query_elem. tauto.
Qed.

(** The totals of one asset over a table of ingested transactions *)
Lemma ledger_totals asset I rows :
  (∀ x, x ∈ I → parsed_of x ≠ None) → map EventRow.stored (concat (map rows_of I)) ≡ₚ rows →
  ∃ t, totals_of asset rows (Totals.mk 0 0 0) = Ok t ∧
    t.(Totals.contributed) = total (map (λ x, sum_of contribution asset (events_of x)) I) ∧
    t.(Totals.contributed) - t.(Totals.paidA) - t.(Totals.paidB) + total (map (not_contributed asset) I)
      = total (map (delta_of asset) I).
Proof using Type.
  intros Hp Hrows.
  assert (Forall printed rows) as Hpr.
  { rewrite <- Hrows, concat_map, List.map_map. apply Forall_concat, Forall_map, Forall_true. apply rows_printed. }
  destruct (totals_of_sums asset rows (Totals.mk 0 0 0) Hpr) as (t & Ht & H1 & H2). exists t. split; [done|].
  assert (map StoredEvent.event rows ≡ₚ concat (map events_of I)) as He.
  { rewrite <- Hrows, List.map_map, concat_map, List.map_map.
    rewrite (map_ext_in _ events_of) by (intros x _; apply rows_events). done. }
  rewrite (sum_of_perm _ _ _ _ He), sum_of_concat in H1. rewrite (sum_of_perm _ _ _ _ He), sum_of_concat in H2.
  cbn in H1, H2. split; [done|].
  clear Ht Hpr Hrows He.
  assert (total (map (delta_of asset) I) = total (map (λ x, sum_of contribution asset (events_of x)) I)
    - total (map (λ x, sum_of payout asset (events_of x)) I) + total (map (not_contributed asset) I)) as ->; [|lia].
  clear H1 H2. induction I as [|x I IH]; [done|]. cbn [map total foldr].
  rewrite (delta_of_events x) by (apply Hp; by left). fold (total (map (delta_of asset) I)).
  rewrite IH by (intros y Hy; apply Hp; by right). unfold total. lia.
Qed.

(** C32: after any runs of the indexer, failing ones included, the public summary
    is the one of some finalized transactions of the vault, each counted once; if
    the indexer has caught up with an account's history, all of it is there.  Per
    asset, contributions less payouts, with the vault's funding and what left it
    otherwise, are exactly the balance change of the vault over them. *)
Theorem summary_adds_up h s live :
  synced accounts chain h s →
  ∃ I sum, publicSummary s.(Tables.events) live = Ok sum ∧ NoDup I ∧
    (∀ x, x ∈ I → in_history accounts chain h x) ∧
    (∀ a x, caught_up h s a → x ∈ h a → wanted accounts chain x → x.(SignatureInfo.signature) ∈ I) ∧
    ∀ asset, let t := match asset with SOL => sum.(Summary.sol) | USDC => sum.(Summary.usdc) end in
      t.(Totals.contributed) = total (map (λ x, sum_of contribution asset (events_of x)) I) ∧
      t.(Totals.contributed) - t.(Totals.paidA) - t.(Totals.paidB) + total (map (not_contributed asset) I)
        = total (map (delta_of asset) I).
Proof using BS chain_signature.
  intros Hs. destruct (synced_tracked _ _ chain_signature _ _ Hs) as [I Ht]. exists I.
  destruct (tracked_events _ _ _ _ _ Ht) as [Hn Hp Hrows].
  set (rows := map EventRow.stored (query (λ _, true) by_slot (Tables.events s)).*2).
  assert (map EventRow.stored (concat (map rows_of I)) ≡ₚ rows) as Hperm
    by (symmetry; by apply fmap_Permutation, query_all).
  destruct (ledger_totals SOL I rows Hp Hperm) as (t1 & E1 & H1), (ledger_totals USDC I rows Hp Hperm) as (t2 & E2 & H2).
  eexists. split; [unfold publicSummary, summarize; fold rows; rewrite E1, E2; cbn [bind]; reflexivity|].
  split_and!; [done|apply (tracked_history _ _ _ _ _ Ht)| |by intros []].
  intros a x Hc. by apply (caught_up_covers _ _ _ _ _ _ Ht Hc).
Qed.

(** C33: against a node that answers, with the chain standing still, the indexer
    catches up: whatever state earlier runs, failing ones included, left it in,
    each call of the cron job returns, and after twice the history's length and
    one more of them the summary's table has the rows of every transaction of
    that account's history. *)
Theorem indexer_catches_up env target h s a k :
  synced accounts chain h s → ready accounts env target → readable accounts chain h → a ∈ vaults accounts →
  (2 * length (h a) + 1 <= k)%nat →
  let s' := sync_times chain env target h k s in
  (∃ s1 n, sync env (Ok target) (λ _, honest chain h) s = (s1, Ok (Some n))) ∧ caught_up h s' a ∧
  ∀ x r, x ∈ h a → wanted accounts chain x → r ∈ rows_of x.(SignatureInfo.signature) →
    ∃ i, docs s'.(Tables.events) !! i = Some r.
Proof using BS chain_signature.
  cbv zeta. intros Hs Hready Hr Ha Hk. destruct (synced_tracked _ _ chain_signature _ _ Hs) as [I Ht].
  destruct (sync_returns _ _ chain_signature _ _ _ _ _ Hready Hr Ht) as (s1 & n & _ & Hret & _).
  destruct (sync_times_tracked _ _ chain_signature _ _ _ Hready Hr k _ _ Ht) as [Hrounds [I' Ht']].
  destruct (tracked_covered _ _ _ _ _ Ht a) as (c & done & Hc & Hcov & _).
  destruct (rounds_to_go _ _ chain_signature a _ _ _ _ Hrounds _ _ _ Ha Ht Hc (to_go_start _ _ _ Hcov)) as (c' & Hc' & Hgo).
  replace (2 * length (h a) + 1 - k)%nat with 0%nat in Hgo by lia. apply to_go_done in Hgo.
  assert (caught_up h (sync_times chain env target h k s) a) as Hup by (by exists c').
  split; [by exists s1, n|]. split; [done|]. intros x r Hx Hw Hrow.
  pose proof (caught_up_covers _ _ _ _ _ _ Ht' Hup x Hx Hw) as Hin.
  destruct (tracked_events _ _ _ _ _ Ht') as [_ _ Hrows].
  assert (r ∈ (map_to_list (docs (Tables.events (sync_times chain env target h k s)))).*2) as Hr'.
  { unfold table_is in Hrows. rewrite Hrows. apply list_elem_of_In, in_concat. exists (rows_of (SignatureInfo.signature x)).
    split; [apply in_map; by apply list_elem_of_In|by apply list_elem_of_In]. }
  apply list_elem_of_fmap in Hr' as ([i d] & -> & Hd). exists i. by apply elem_of_map_to_list in Hd.
Qed.
End Ledger.

(** ** Concrete runs *)

Import Model.

Definition splitter : string := "5cGkHpd1YJkZYmA3QyT4p9Vw8nD2sLxBfRj6uEhNgKtW".
Definition sol_vault : string := "7vAuLtSoLsd1YJkZYmA3QyT4p9Vw8nD2sLxBfRj6uEhN".
Definition usdc_vault : string := "9vAuLtUSdCd1YJkZYmA3QyT4p9Vw8nD2sLxBfRj6uEhN".
Definition sample_accounts : SupportAccounts.t := SupportAccounts.mk splitter sol_vault usdc_vault.
Definition sample_env : SupportEnv.t :=
  SupportEnv.mk (Some SUPPORT_CLUSTER) (Some "https://rpc") (Some splitter) (Some sol_vault) (Some usdc_vault).
Definition sample_target : IndexerTarget.t :=
  IndexerTarget.mk SUPPORT_GENESIS (Some splitter) (Some (SUPPORT_USDC_MINT, sol_vault)).

Definition data_line (bs : list Z) : string := "Program data: " +:+ btoa (map byte_of bs).
Definition paid_line : string := data_line (PAID ++ 0 :: 0 :: 200 :: replicate 39 0).

(** The splitter pays 200 lamports to its first beneficiary; another program
    prints the same line. *)
Definition payout_logs : list string :=
  ["Program " +:+ splitter +:+ " invoke [1]"; "Program log: Instruction: Pay";
   "Program 11111111111111111111111111111111 invoke [2]"; paid_line;
   "Program 11111111111111111111111111111111 success"; paid_line;
   "Program " +:+ splitter +:+ " success"].
Definition init_logs : list string :=
  ["Program " +:+ splitter +:+ " invoke [1]"; data_line (VAULT_INITIALIZED ++ replicate 32 0);
   "Program " +:+ splitter +:+ " success"].

Definition transfer_ix (from : string) (lamports : Z) : ParsedIx.t :=
  ParsedIx.mk (Some "system") None (VObject [("type", VString "transfer");
    ("info", VObject [("source", VString from); ("destination", VString sol_vault); ("lamports", VNumber (JInt lamports))])]).
Definition memo_ix (text : string) : ParsedIx.t := ParsedIx.mk (Some "spl-memo") (Some MEMO_PROGRAM_ID) (VString text).

(** A transaction that [from] signs and that takes the vault from [pre] to [post] *)
Definition sample_tx (sig from : string) (slot pre post : Z) (ixs : list ParsedIx.t) (logs : list string) : RpcTransaction.t :=
  RpcTransaction.mk slot (Some (1000 + slot))
    (Some (Meta.mk VNull [VNumber (JInt 9000); VNumber (JInt pre)] [VNumber (JInt 8000); VNumber (JInt post)]
      None None None (Some logs)))
    [sig] [parsed_key from true; parsed_key sol_vault false] ixs.

Definition tx_init := sample_tx "s1" "owner" 1 0 1000 [transfer_ix "owner" 1000] init_logs.
Definition tx_anon := sample_tx "s2" "alice" 2 1000 1500 [transfer_ix "alice" 500; memo_ix "chainpay-support:v1 anon=1 note=thanks"] [].
Definition tx_named := sample_tx "s3" "bob" 3 1500 1700 [transfer_ix "bob" 200] [].
Definition tx_paid := sample_tx "s4" "keeper" 4 1700 1500 [] payout_logs.

Definition sample_chain (s : string) : option RpcTransaction.t :=
  if decide (s = "s1") then Some tx_init else if decide (s = "s2") then Some tx_anon
  else if decide (s = "s3") then Some tx_named else if decide (s = "s4") then Some tx_paid else None.

(** The vault's history, with a failed transaction in it *)
Definition vault_history : History :=
  [SignatureInfo.mk "s4" VNull; SignatureInfo.mk "s3" VNull; SignatureInfo.mk "bad" (VString "InstructionError");
   SignatureInfo.mk "s2" VNull; SignatureInfo.mk "s1" VNull].
Definition sample_history (a : string) : History := if decide (a = sol_vault) then vault_history else [].

Definition empty_tables : Tables.t := Tables.mk (B := db) ∅ ∅.
Definition synced_tables : Tables.t := sync_times sample_chain sample_env sample_target sample_history 1 empty_tables.

(** What the summary says of it *)
Example sample_summary :
  match publicSummary synced_tables.(Tables.events) true with
  | Ok sum => sum.(Summary.sol) = Totals.mk 700 200 0 ∧ sum.(Summary.contributionCount) = 2%nat ∧
      map (λ e, (StoredEvent.signature e, SupportEvent.donor (StoredEvent.event e), SupportEvent.note (StoredEvent.event e)))
        sum.(Summary.recent) = [("s3", Some "bob", None); ("s2", None, Some "thanks")]
  | Throw _ => False
  end.
Proof. vm_compute. done. Qed.

(** ** The hypotheses of the tracker's properties hold here *)

Lemma sample_signature s tx : sample_chain s = Some tx → head tx.(RpcTransaction.signatures) = Some s.
Proof. unfold sample_chain. repeat case_decide; intros [= <-]; by subst. Qed.

Lemma sample_genuine a : genuine (sample_history a).
Proof. unfold genuine, sample_history. case_decide; apply (bool_decide_unpack _); by vm_compute. Qed.

Lemma sample_ready : ready sample_accounts sample_env sample_target.
Proof. split; [exists "https://rpc"|]; by vm_compute. Qed.

Lemma sample_parses s tx :
  sample_chain s = Some tx → is_ok (parseSupportTx (Some tx) sample_accounts) = true →
  ∃ tx p, sample_chain s = Some tx ∧ parseSupportTx (Some tx) sample_accounts = Ok p.
Proof. intros Hc Hp. destruct (parseSupportTx (Some tx) sample_accounts) as [p|] eqn:E; [|done]. by exists tx, p. Qed.

Lemma sample_readable : readable sample_accounts sample_chain sample_history.
Proof.
  intros a x _ Hx He. unfold sample_history in Hx. case_decide; [|by apply not_elem_of_nil in Hx].
  unfold vault_history in Hx. rewrite !elem_of_cons in Hx. destruct Hx as [->|[->|[->|[->|[->|Hx]]]]]; [| |done| | |by apply not_elem_of_nil in Hx].
  - apply (sample_parses _ tx_paid); by vm_compute.
  - apply (sample_parses _ tx_named); by vm_compute.
  - apply (sample_parses _ tx_anon); by vm_compute.
  - apply (sample_parses _ tx_init); by vm_compute.
Qed.

Lemma sample_start : synced sample_accounts sample_chain sample_history empty_tables.
Proof. apply synced_start; [apply sample_genuine|done|done]. Qed.

Lemma sample_synced : synced sample_accounts sample_chain sample_history synced_tables.
Proof.
  apply (synced_sync _ _ sample_env (Ok sample_target) (λ _, honest sample_chain sample_history) (λ _, sample_history)
    sample_history empty_tables synced_tables
    (sync sample_env (Ok sample_target) (λ _, honest sample_chain sample_history) empty_tables).2).
  - apply sample_start.
  - intros rpc accounts'. destruct sample_ready as [[rpc' ->] _]. by intros [= _ ->].
  - intros _. apply honest_answers.
  - intros _. apply grows_refl, sample_genuine.
  - intros _. apply grows_refl, sample_genuine.
  - apply surjective_pairing.
Qed.

Lemma paid_frame f :
  frames splitter f [paid_line]
    ((if decide (f = Some splitter) then [btoa (map byte_of (PAID ++ 0 :: 0 :: 200 :: replicate 39 0))] else []) ++ []).
Proof. apply frames_data; [by split; vm_compute|by vm_compute|constructor]. Qed.

Lemma sample_frames :
  frames splitter None payout_logs [btoa (map byte_of (PAID ++ 0 :: 0 :: 200 :: replicate 39 0))].
Proof.
  apply (frames_call splitter None _ splitter
    ["Program log: Instruction: Pay"; "Program 11111111111111111111111111111111 invoke [2]"; paid_line;
     "Program 11111111111111111111111111111111 success"; paid_line] _ []
    [btoa (map byte_of (PAID ++ 0 :: 0 :: 200 :: replicate 39 0))] []); [by vm_compute| |by vm_compute..|constructor].
  apply frames_line; [by split; vm_compute|by vm_compute|].
  apply (frames_call splitter _ _ "11111111111111111111111111111111" [paid_line] _ [paid_line] []); [by vm_compute| |by vm_compute..|].
  - exact (paid_frame (Some "11111111111111111111111111111111")).
  - exact (paid_frame (Some splitter)).
Qed.

Definition anon_event : SupportEvent.t := SupportEvent.mk contribution SOL "500" None (Some "thanks") None.
Definition anon_parsed : ParsedSupportTx.t := ParsedSupportTx.mk (Some "s2") 2 (Some 1002) [anon_event].

Lemma anon_parses : parseSupportTx (Some tx_anon) sample_accounts = Ok (Some anon_parsed).
Proof. by vm_compute. Qed.

(** ** The properties applied *)

Lemma splitterEvents_by_frames_witness :
  splitterEvents payout_logs splitter
    = events_in [btoa (map byte_of (PAID ++ 0 :: 0 :: 200 :: replicate 39 0))] (SplitterEvents.mk [] false).
Proof. exact (splitterEvents_by_frames splitter payout_logs _ sample_frames). Defined.

Lemma donors_and_notes_witness :
  parseSupportTx (Some tx_anon) sample_accounts = Ok (Some anon_parsed) ∧
  ∃ meta, tx_anon.(RpcTransaction.meta) = Some meta ∧
    (parseSupportMemo (memoText meta tx_anon)).(SupportMemo.note) = Some "thanks".
Proof.
  split; [exact anon_parses|].
  destruct (donors_and_notes tx_anon sample_accounts anon_parsed anon_event anon_parses) as (meta & Hm & _ & Hn).
  - by left.
  - exists meta. split; [exact Hm|]. apply (Hn "thanks"). reflexivity.
Defined.

Lemma summary_adds_up_witness :
  synced sample_accounts sample_chain sample_history synced_tables ∧
  ∃ (I : list string) sum, publicSummary synced_tables.(Tables.events) true = Ok sum ∧ NoDup I.
Proof.
  split; [exact sample_synced|].
  destruct (summary_adds_up sample_accounts sample_chain sample_signature sample_history synced_tables true sample_synced)
    as (I & sum & Hs & Hn & _).
  exists I, sum. split; [exact Hs|exact Hn].
Defined.

Lemma indexer_catches_up_witness :
  ready sample_accounts sample_env sample_target ∧
  caught_up sample_history (sync_times sample_chain sample_env sample_target sample_history 11 empty_tables) sol_vault.
Proof.
  split; [exact sample_ready|].
  apply (indexer_catches_up sample_accounts sample_chain sample_signature sample_env sample_target sample_history empty_tables
    sol_vault 11 sample_start sample_ready sample_readable).
  - by left.
  - vm_compute. lia.
Defined.
