(* ===== verification/SupportRpc.v ===== *)
(** * The relay of the support page (convex/supportRpc.ts)

    A public route that passes JSON-RPC requests on to a Solana node: which
    requests it accepts, and how it reads the wire form of a transaction to see
    which programs it calls.  [Wire] is Solana's documented transaction format,
    as the specification: on the wire form of any transaction the reader decides
    exactly the stated policy over its instructions. *)
From Stdlib Require Import ZArith Lia Strings.Byte Strings.Ascii.
From stdpp Require Import base numbers strings list.
From S2P Require Import Prelude Bytes PublicKey Decimal Base64 CardConstants Values CardCommitment Utf8 SupportParse.

Definition ALLOWED_METHODS : list string :=
  ["getBalance"; "getTokenAccountBalance"; "getLatestBlockhash"; "getAccountInfo"; "sendTransaction";
   "getSignatureStatuses"; "getBlockHeight"; "getGenesisHash"].

Definition MAX_BODY_BYTES : Z := 8192.
Definition MAX_ACCOUNT_BYTES : Z := 56 + 256 * 32.
Definition MAX_RESPONSE_BYTES : Z := 32768.

Definition SYSTEM : string := "11111111111111111111111111111111".
Definition TOKEN : string := "TokenkegQfeZyiNwAJbNbGKPFXCWuBvf9Ss623VQ5DA".
Definition ATA : string := "ATokenGPvbdGVxr1b2hvZbsiqW5xWH25efTNsLJA8knL".
Definition COMPUTE_BUDGET : string := "ComputeBudget111111111111111111111111111111".
Definition MEMO : string := "MemoSq4gqABAXKb96qnH8TysNcWxMyWCqXgDLGmfcHr".
Definition JUPITER : string := "JUP6LkbZbjS1jKKwapdHNy74zcZ3tLUZoi5QNyVTaV4".
Definition LIGHTHOUSE : string := "L2TExMFKdjpN9kozasaurPtAaCGqXGTDUDiKN3EuHHB".
Definition SUPPORT_IXS : list string :=
  ["0e10b886da012523"; "f72fe3dfcd8f9b38"; "83659a3225880d43"; "18013a5f085283dd"].
Definition JUPITER_IXS : list string := ["e517cb977ae3ad2a"; "c1209b3341d69c81"].

(** ** Base58 by repeated multiplication *)

(** The loop over [digits], least significant first, with its carry *)
Fixpoint mul_add (ds : list Z) (carry : Z) : list Z * Z :=
  match ds with
  | [] => ([], carry)
  | d :: ds =>
      let carry := carry + Z.shiftl d 8 in
      let '(ds, rest) := mul_add ds (carry / 58) in
      (carry mod 58 :: ds, rest)
  end.

(** [while (carry > 0)]; a carry has fewer digits than its own value. *)
Fixpoint carry_digits (fuel : nat) (carry : Z) : list Z :=
  match fuel with
  | O => []
  | S fuel => if 0 <? carry then carry mod 58 :: carry_digits fuel (carry / 58) else []
  end.

Definition push_byte (ds : list Z) (b : byte) : list Z :=
  let '(ds, carry) := mul_add ds (byte_val b) in ds ++ carry_digits (Z.to_nat carry) carry.

Definition base58 (bs : bytes) : string :=
  let ds := foldl push_byte [0] bs in
  let out := replicate (leading x00 bs) "1"%char in
  if bool_decide (ds = [0]) then text out else text (out ++ map char58 (reverse ds)).

(** ** Reading a transaction

    The remaining bytes are the state; [None] is the thrown error that makes the
    answer "not a transaction". *)

Definition byte_ (bs : bytes) : option (Z * bytes) :=
  match bs with [] => None | b :: bs => Some (byte_val b, bs) end.

Definition take_ (n : nat) (bs : bytes) : option (bytes * bytes) :=
  if Nat.leb n (length bs) then Some (take n bs, drop n bs) else None.

(** The loop of [compact], [rounds] rounds left *)
Fixpoint compact_from (rounds : nat) (shift value : Z) (bs : bytes) : option (nat * bytes) :=
  match rounds with
  | O => None
  | S rounds =>
      '(b, bs) ← byte_ bs;
      let value := Z.lor value (Z.shiftl (Z.land b 127) shift) in
      if Z.land b 128 =? 0 then Some (Z.to_nat value, bs) else compact_from rounds (shift + 7) value bs
  end.
Definition compact : bytes → option (nat * bytes) := compact_from 3 0 0.

Fixpoint take_keys (n : nat) (bs : bytes) : option (list string * bytes) :=
  match n with
  | O => Some ([], bs)
  | S n =>
      '(k, bs) ← take_ 32 bs;
      '(ks, bs) ← take_keys n bs;
      Some (base58 k :: ks, bs)
  end.

Definition allowed_programs (programId : string) : list string :=
  [SYSTEM; TOKEN; ATA; COMPUTE_BUDGET; MEMO; JUPITER; LIGHTHOUSE; programId].

(** Why one instruction is refused *)
Definition instruction_problem (programId : string) (program : option string) (data : bytes) : option string :=
  match present program with
  | None => Some "calls a program a tip doesn't use"
  | Some program =>
      let tag := bytesToHex (take 8 data) in
      let at_byte i z := bool_decide (byte_val <$> data !! i = Some z) in
      if negb (bool_decide (program ∈ allowed_programs programId)) then Some "calls a program a tip doesn't use"
      else if bool_decide (program = programId) && negb (bool_decide (tag ∈ SUPPORT_IXS))
      then Some "unknown support instruction"
      else if bool_decide (program = JUPITER) && negb (bool_decide (tag ∈ JUPITER_IXS))
      then Some "unknown swap instruction"
      else if bool_decide (program = SYSTEM)
              && negb (Nat.eqb (length data) 12 && at_byte 0%nat 2 && at_byte 1%nat 0 && at_byte 2%nat 0 && at_byte 3%nat 0)
      then Some "unexpected system instruction"
      else if bool_decide (program = TOKEN) && negb (at_byte 0%nat 12 || at_byte 0%nat 9)
      then Some "unexpected token instruction"
      else None
  end.

(** The loop over the instructions *)
Fixpoint check_instructions (count : nat) (keys : list string) (programId : string) (callsSupport : bool) (bs : bytes)
    : option (option string) :=
  match count with
  | O => Some (if callsSupport then None else Some "doesn't call the support program")
  | S count =>
      '(index, bs) ← byte_ bs;
      let program := keys !! Z.to_nat index in
      '(n, bs) ← compact bs;
      '(_, bs) ← take_ n bs;
      '(n, bs) ← compact bs;
      '(data, bs) ← take_ n bs;
      match instruction_problem programId program data with
      | Some problem => Some (Some problem)
      | None => check_instructions count keys programId (callsSupport || bool_decide (program = Some programId)) bs
      end
  end.

(** Everything after the version prefix *)
Definition check_message (programId : string) (bs : bytes) : option (option string) :=
  '(_, bs) ← take_ 3 bs;
  '(keyCount, bs) ← compact bs;
  '(keys, bs) ← take_keys keyCount bs;
  '(_, bs) ← take_ 32 bs;
  '(count, bs) ← compact bs;
  check_instructions count keys programId false bs.

Definition check_wire (programId : string) (bs : bytes) : option (option string) :=
  '(n, bs) ← compact bs;
  '(_, bs) ← take_ (n * 64) bs;
  match bs with
  | b :: rest =>
      if Z.land (byte_val b) 128 =? 0 then check_message programId bs
      else if byte_val b =? 128 then check_message programId rest
      else Some (Some "unsupported transaction version")
  | [] => check_message programId bs
  end.

Definition checkSupportTransaction (bs : bytes) (programId : string) : option string :=
  match check_wire programId bs with Some answer => answer | None => Some "not a transaction" end.

(** ** One request *)

(** [/^[1-9A-HJ-NP-Za-km-z]{lo,hi}$/] *)
Definition base58_text (lo hi : nat) (v : value) : bool :=
  match v with
  | VString s => forallb is_base58 (chars s) && Nat.leb lo (String.length s) && Nat.leb (String.length s) hi
  | _ => false
  end.
Definition isAddressValue : value → bool := base58_text 32 44.
Definition isSignature : value → bool := base58_text 64 88.

(** A truthy object that is not an array *)
Definition isConfig (v : value) : bool := match v with VObject _ => true | _ => false end.

(** [params[i]] *)
Definition param (params : list value) (i : nat) : value := default VUndefined (params !! i).

Definition optionalConfig (params : list value) (at_ : nat) : bool :=
  Nat.leb (length params) at_ || (Nat.eqb (length params) (at_ + 1) && isConfig (param params at_)).

(** [Number.isSafeInteger] *)
Definition safe_integer (v : value) : option Z :=
  match v with VNumber (JInt z) => if Z.abs z <=? 9007199254740991 then Some z else None | _ => None end.

(** A nonnegative safe integer *)
Definition size_of (v : value) : option Z :=
  z ← safe_integer v; if z <? 0 then None else Some z.

Module RelayBody.
(** [jsonrpc] is always "2.0". *)
Record t : Type := mk { id : value; method : string; params : list value }.
End RelayBody.

Inductive RelayCheck : Type := relay_ok (body : RelayBody.t) | relay_fail (status : Z) (message : string).

(** The [dataSlice] sent on: [None] when the given one is malformed *)
Definition account_slice (slice : value) : option value :=
  match slice with
  | VUndefined => Some (VObject [("offset", VNumber (JInt 0)); ("length", VNumber (JInt MAX_ACCOUNT_BYTES))])
  | _ =>
      if negb (isConfig slice) then None
      else
        offset ← size_of (get slice "offset");
        len ← size_of (get slice "length");
        Some (VObject [("offset", VNumber (JInt offset)); ("length", VNumber (JInt (Z.min len MAX_ACCOUNT_BYTES)))])
  end.

(** The [switch] over the methods: the parameters to send on, or why not *)
Definition check_params (method : string) (params : list value) (programId : string) : list value + (Z * string) :=
  let bad := inr (400, "Invalid params") in
  let given := coalesce (param params 1) (VObject []) in
  if bool_decide (method = "getBalance" ∨ method = "getTokenAccountBalance") then
    if negb (isAddressValue (param params 0)) || negb (optionalConfig params 1) then bad else inl params
  else if bool_decide (method = "getGenesisHash") then
    if negb (Nat.eqb (length params) 0) then bad else inl params
  else if bool_decide (method = "getLatestBlockhash" ∨ method = "getBlockHeight") then
    if negb (optionalConfig params 0) then bad else inl params
  else if bool_decide (method = "getSignatureStatuses") then
    match param params 0 with
    | VArray sigs =>
        if Nat.eqb (length sigs) 0 || negb (forallb isSignature sigs) || negb (optionalConfig params 1) then bad
        else if Nat.ltb 10 (length sigs) then inr (400, "Too many signatures")
        else inl params
    | _ => bad
    end
  else if bool_decide (method = "getAccountInfo") then
    if negb (isAddressValue (param params 0)) || negb (optionalConfig params 1) then bad
    else if negb (strict_eq (get given "encoding") VUndefined) && negb (strict_eq (get given "encoding") (VString "base64"))
    then inr (400, "Only base64 account data")
    else
      match account_slice (get given "dataSlice") with
      | None => bad
      | Some slice =>
          inl [param params 0; set (set given "encoding" (VString "base64")) "dataSlice" slice]
      end
  else if bool_decide (method = "sendTransaction") then
    match param params 0 with
    | VString encoded =>
        if negb (optionalConfig params 1) then bad
        else if negb (strict_eq (get given "encoding") (VString "base64")) then inr (400, "Only base64 transactions")
        else
          match atob encoded with
          | None => bad
          | Some bs =>
              match checkSupportTransaction bs programId with
              | Some problem => inr (403, "Not a support transaction: " +:+ problem)
              | None => inl params
              end
          end
    | _ => bad
    end
  else inl params.

Definition valid_id (id : value) : bool :=
  match id with VUndefined | VNull | VNumber _ | VString _ => true | _ => false end.

Section Relay.
Context `{C : Codec}.

Definition checkRelayRequest (body : string) (programId : string) : RelayCheck :=
  if MAX_BODY_BYTES <? utf8_length body then relay_fail 413 "Request too large"
  else
    match JSON_parse body with
    | None => relay_fail 400 "Invalid JSON"
    | Some (VObject _ as parsed) =>
        match get parsed "method" with
        | VString method =>
            if negb (bool_decide (method ∈ ALLOWED_METHODS)) then relay_fail 403 "Method not allowed"
            else
              let check params :=
                if negb (valid_id (get parsed "id")) then relay_fail 400 "Invalid id"
                else
                  match check_params method params programId with
                  | inl params => relay_ok (RelayBody.mk (coalesce (get parsed "id") (VNumber (JInt 1))) method params)
                  | inr (status, message) => relay_fail status message
                  end in
              match get parsed "params" with
              | VUndefined => check []
              | VArray params => check params
              | _ => relay_fail 400 "params must be an array"
              end
        | _ => relay_fail 403 "Method not allowed"
        end
    | Some _ => relay_fail 400 "One request at a time"
    end.
End Relay.

(** ** Bodies and callers *)

(** [readLimited]: the bytes of the chunks, unless they pass the limit *)
Fixpoint read_limited (limit : Z) (size : Z) (chunks : list bytes) : option bytes :=
  match chunks with
  | [] => Some []
  | chunk :: chunks =>
      let size := size + Z.of_nat (length chunk) in
      if limit <? size then None
      else rest ← read_limited limit size chunks; Some (chunk ++ rest)
  end.

(** [value.split(",")[0]] *)
Definition before_comma (s : string) : string :=
  text (span (λ c, negb (bool_decide (c = ","%char))) (chars s)).1.

(** [clientKey] of the two headers *)
Definition clientKey `{H : Sha256} (forwarded real_ip : option string) : string :=
  let ip := default "unknown" (match present ((λ s, trim (before_comma s)) <$> forwarded) with
                               | Some ip => Some ip
                               | None => present (trim <$> real_ip)
                               end) in
  bytesToHex (take 16 (sha256 (text_encode ("support-rpc:" +:+ ip)))).

(** ** The wire form

    Solana's documented transaction format: a compact-u16 count before each
    list, 32-byte keys, and for a versioned message a prefix byte. *)
Module Wire.
Module Instruction.
Record t : Type := mk { program : byte; accounts : bytes; data : bytes }.
End Instruction.

(** [versioned]: a version 0 message; [lookups]: what follows the instructions *)
Module Transaction.
Record t : Type := mk {
  signatures : list bytes;
  versioned : bool;
  header : bytes;
  keys : list bytes;
  blockhash : bytes;
  instructions : list Instruction.t;
  lookups : bytes;
}.
End Transaction.

(** A compact-u16: seven bits a byte, least significant first *)
Fixpoint shortvec (fuel : nat) (n : Z) : bytes :=
  match fuel with
  | O => []
  | S fuel => if n <? 128 then [byte_of n] else byte_of (Z.lor (n mod 128) 128) :: shortvec fuel (n / 128)
  end.
Definition count {A} (l : list A) : bytes := shortvec 3 (Z.of_nat (length l)).

Definition instruction (ix : Instruction.t) : bytes :=
  [ix.(Instruction.program)] ++ count ix.(Instruction.accounts) ++ ix.(Instruction.accounts)
  ++ count ix.(Instruction.data) ++ ix.(Instruction.data).

Definition message (tx : Transaction.t) : bytes :=
  tx.(Transaction.header) ++ count tx.(Transaction.keys) ++ concat tx.(Transaction.keys)
  ++ tx.(Transaction.blockhash) ++ count tx.(Transaction.instructions)
  ++ concat (map instruction tx.(Transaction.instructions)) ++ tx.(Transaction.lookups).

Definition wire (tx : Transaction.t) : bytes :=
  count tx.(Transaction.signatures) ++ concat tx.(Transaction.signatures)
  ++ (if tx.(Transaction.versioned) then [byte_of 128] else []) ++ message tx.

(** Counts fit in sixteen bits; the first header byte of an unversioned message is
    its number of signatures, below 128. *)
Definition u16 {A} (l : list A) : Prop := Z.of_nat (length l) < 65536.
Record well_formed (tx : Transaction.t) : Prop := {
  wf_signatures : u16 tx.(Transaction.signatures) ∧ Forall (λ s, length s = 64%nat) tx.(Transaction.signatures);
  wf_header : length tx.(Transaction.header) = 3%nat;
  wf_legacy : tx.(Transaction.versioned) = false →
    ∃ b, head tx.(Transaction.header) = Some b ∧ byte_val b < 128;
  wf_keys : u16 tx.(Transaction.keys) ∧ Forall (λ k, length k = 32%nat) tx.(Transaction.keys);
  wf_blockhash : length tx.(Transaction.blockhash) = 32%nat;
  wf_instructions : u16 tx.(Transaction.instructions)
    ∧ Forall (λ ix, u16 ix.(Instruction.accounts) ∧ u16 ix.(Instruction.data)) tx.(Transaction.instructions);
}.

(** The program an instruction calls *)
Definition program_of (tx : Transaction.t) (ix : Instruction.t) : option string :=
  base58_encode <$> tx.(Transaction.keys) !! Z.to_nat (byte_val ix.(Instruction.program)).
End Wire.
