(* ===== verification/SupportRpcProps.v ===== *)
(** * What the support relay lets through

    The relay's base58 is the usual one; on the wire form of a transaction its
    reader decides the policy over the programs called; and what a request it
    accepts can ask of the node. *)
From Stdlib Require Import ZArith Lia Strings.Byte Strings.Ascii.
From stdpp Require Import base numbers strings list.
From S2P Require Import Prelude Bytes PublicKey Decimal Base64 CardConstants Values CardCommitment SupportParse SupportRpc.

(** ** Base58 *)

Lemma digits_app_value base a b : PublicKey.value base (a ++ b) = PublicKey.value base a + base ^ Z.of_nat (length a) * PublicKey.value base b.
Proof.
  induction a as [|d a IH]; cbn [PublicKey.value app length]; [rewrite Z.pow_0_r; lia|].
  rewrite IH, Nat2Z.inj_succ, Z.pow_succ_r by lia. lia.
Qed.

(** Enough value for its length: no leading zero *)
Lemma trimmed_by_value base ds :
  1 < base → digit_range base ds → ds ≠ [] → base ^ Z.of_nat (length ds - 1) <= PublicKey.value base ds → trimmed ds.
Proof.
  intros Hb Hr Hne Hv Hl. apply last_Some in Hl as [l ->]. apply Forall_app in Hr as [Hr _].
  pose proof (value_range base Hb l Hr). rewrite digits_app_value, length_app in Hv. cbn in Hv.
  replace (length l + 1 - 1)%nat with (length l) in Hv by lia. lia.
Qed.

Lemma mul_add_spec ds : ∀ carry ds' c,
  digit_range 58 ds → 0 <= carry → mul_add ds carry = (ds', c) →
  digit_range 58 ds' ∧ length ds' = length ds ∧ 0 <= c ∧
  PublicKey.value 58 ds' + 58 ^ Z.of_nat (length ds) * c = 256 * PublicKey.value 58 ds + carry.
Proof.
  induction ds as [|d ds IH]; intros carry ds' c Hr Hc H; cbn [mul_add] in H.
  - injection H as <- <-. split_and!; [constructor|done|done|]. cbn. lia.
  - apply Forall_cons in Hr as [Hd Hr]. rewrite Z.shiftl_mul_pow2 in H by lia.
    change (2 ^ 8) with 256 in H. cbv zeta in H.
    destruct (mul_add ds ((carry + d * 256) / 58)) as [ds1 c1] eqn:E. injection H as <- <-.
    assert (0 <= (carry + d * 256) / 58) as Hq by (apply Z.div_pos; lia).
    destruct (IH _ _ _ Hr Hq E) as (H1 & H2 & H3 & H4). split_and!.
    + constructor; [apply Z.mod_pos_bound; lia|done].
    + simpl. by rewrite H2.
    + done.
    + cbn [PublicKey.value length]. rewrite Nat2Z.inj_succ, Z.pow_succ_r by lia.
      pose proof (Z.div_mod (carry + d * 256) 58 ltac:(lia)). nia.
Qed.

Lemma carry_digits_eq fuel n : 0 <= n → carry_digits fuel n = digits 58 fuel n.
Proof.
  revert n. induction fuel as [|fuel IH]; intros n Hn; cbn [carry_digits digits]; [done|].
  destruct (n =? 0) eqn:E; bool_reflect; [by subst|]. rewrite (proj2 (Z.ltb_lt 0 n)) by lia.
  by rewrite IH by (apply Z.div_pos; lia).
Qed.

(** The digits so far: those of the number read, a single zero for zero *)
Definition digits_of (ds : list Z) (v : Z) : Prop :=
  digit_range 58 ds ∧ PublicKey.value 58 ds = v ∧ ds ≠ [] ∧ (ds = [0] ∨ trimmed ds).

Lemma push_byte_digits ds v b : digits_of ds v → digits_of (push_byte ds b) (256 * v + byte_val b).
Proof.
  intros (Hr & Hv & Hne & Ht). unfold push_byte. destruct (mul_add ds (byte_val b)) as [ds' c] eqn:E.
  pose proof (byte_val_range b). destruct (mul_add_spec _ _ _ _ Hr (proj1 H) E) as (H1 & H2 & H3 & H4).
  rewrite carry_digits_eq by done. pose proof (Z.pow_gt_lin_r 58 c ltac:(lia) H3) as Hlin.
  assert (0 <= c < 58 ^ Z.of_nat (Z.to_nat c)) as Hf by (rewrite Z2Nat.id; lia).
  split_and!.
  - apply Forall_app. split; [done|]. apply digits_range; lia.
  - rewrite digits_app_value, value_digits, H2 by lia. lia.
  - destruct ds'; [|done]. by destruct ds.
  - destruct (decide (c = 0)) as [->|Hc].
    + cbn [Z.to_nat digits]. rewrite app_nil_r.
      destruct Ht as [->|Ht].
      * destruct ds' as [|x [|]]; try done. destruct (decide (x = 0)) as [->|Hx]; [by left|right]. intros [= ?]. done.
      * right. apply (trimmed_by_value 58); [lia|done|by destruct ds, ds'|].
        pose proof (value_lower 58 ltac:(lia) ds Hr Ht Hne). rewrite H2. lia.
    + right. unfold trimmed. rewrite last_app.
      pose proof (digits_trimmed 58 ltac:(lia) _ _ Hf) as Htr. pose proof (digits_nonempty 58 ltac:(lia) _ _ Hc Hf) as Hnn.
      unfold trimmed in Htr. destruct (last (digits 58 (Z.to_nat c) c)) eqn:El; [done|]. by apply last_None in El.
Qed.

Lemma int_of_bytes_snoc bs b : int_of_bytes (bs ++ [b]) = 256 * int_of_bytes bs + byte_val b.
Proof. unfold int_of_bytes. rewrite map_app, reverse_app. cbn. lia. Qed.

Lemma int_of_bytes_zeros n bs : int_of_bytes (replicate n x00 ++ bs) = int_of_bytes bs.
Proof.
  induction bs as [|b bs IH] using rev_ind.
  - rewrite app_nil_r. induction n as [|n IHn]; [done|]. by rewrite replicate_S_end, int_of_bytes_snoc, IHn.
  - by rewrite app_assoc, !int_of_bytes_snoc, IH.
Qed.

Lemma push_bytes_digits bs : digits_of (foldl push_byte [0] bs) (int_of_bytes bs).
Proof.
  induction bs as [|b bs IH] using rev_ind.
  - split_and!; [repeat constructor; lia|done|done|by left].
  - rewrite foldl_app, int_of_bytes_snoc. by apply push_byte_digits.
Qed.

(** The relay's base58, by repeated multiplication over the digits, is the
    base58 of the number the bytes spell, with a "1" per leading zero. *)
Lemma base58_reference bs : base58 bs = base58_encode bs.
Proof.
  unfold base58, base58_encode. set (n := leading x00 bs). set (rest := drop n bs). cbv zeta.
  assert (int_of_bytes bs = int_of_bytes rest) as Hint
    by (rewrite (leading_split x00 bs) at 1; by rewrite int_of_bytes_zeros).
  destruct (push_bytes_digits bs) as (Hr & Hv & Hne & Ht). rewrite Hint in Hv.
  set (ds := foldl push_byte [0] bs) in *. pose proof (value256_bound rest) as Hb. case_bool_decide as E.
  - rewrite E in Hv. change (0 = int_of_bytes rest) in Hv. rewrite <- Hv.
    destruct (2 * length rest)%nat; cbn; by rewrite app_nil_r.
  - destruct Ht as [|Ht]; [done|].
    enough (digits 58 (2 * length rest) (int_of_bytes rest) = ds) as -> by done.
    rewrite <- Hv. apply PublicKey.digits_value; [lia|done|done|].
    pose proof (value_lower 58 ltac:(lia) ds Hr Ht Hne) as Hlow. rewrite Hv in Hlow.
    assert (58 ^ Z.of_nat (length ds - 1) < 58 ^ Z.of_nat (2 * length rest)) as Hlt by lia.
    apply Z.pow_lt_mono_r_iff in Hlt; [|lia..]. lia.
Qed.

(** ** Reading back the wire form *)

Lemma byte_app b bs : byte_ (b :: bs) = Some (byte_val b, bs).
Proof. done. Qed.

Lemma take_app_ (a b : bytes) n : length a = n → take_ n (a ++ b) = Some (a, b).
Proof.
  intros <-. unfold take_. rewrite length_app, (proj2 (Nat.leb_le _ _)) by lia.
  by rewrite take_app_length, drop_app_length.
Qed.

Lemma lor_shift v m s : 0 <= s → 0 <= v < 2 ^ s → Z.lor v (Z.shiftl m s) = v + m * 2 ^ s.
Proof.
  intros Hs Hv. rewrite <- Z.shiftl_mul_pow2, <- Z.add_lor_land by done.
  assert (Z.land v (Z.shiftl m s) = 0) as ->; [|lia].
  apply Z.bits_inj'. intros i Hi. rewrite Z.land_spec, Z.bits_0. destruct (decide (i < s)).
  - by rewrite Z.shiftl_spec_low, andb_false_r by done.
  - rewrite <- (Z.mod_small v (2 ^ s)), Z.mod_pow2_bits_high by lia. done.
Qed.

(** One byte of a compact-u16: its seven bits and its continuation bit *)
Lemma group_bits m : 0 <= m < 128 →
  (byte_val (byte_of m) = m ∧ Z.land m 127 = m ∧ Z.land m 128 = 0) ∧
  (byte_val (byte_of (Z.lor m 128)) = m + 128 ∧ Z.land (m + 128) 127 = m ∧ Z.land (m + 128) 128 = 128).
Proof.
  intros Hm.
  assert (Forall (λ m, (byte_val (byte_of m) = m ∧ Z.land m 127 = m ∧ Z.land m 128 = 0) ∧
    (byte_val (byte_of (Z.lor m 128)) = m + 128 ∧ Z.land (m + 128) 127 = m ∧ Z.land (m + 128) 128 = 128)) (seqZ 0 128)) as H
    by (apply (bool_decide_unpack _); by vm_compute).
  rewrite Forall_forall in H. apply H, elem_of_seqZ. lia.
Qed.

Lemma compact_shortvec rounds : ∀ shift v n rest,
  (0 < rounds)%nat → 0 <= shift → 0 <= v < 2 ^ shift → 0 <= n < 128 ^ Z.of_nat rounds →
  compact_from rounds shift v (Wire.shortvec rounds n ++ rest) = Some (Z.to_nat (v + n * 2 ^ shift), rest).
Proof.
  induction rounds as [|rounds IH]; intros shift v n rest Hr Hs Hv Hn; [lia|].
  cbn [Wire.shortvec compact_from]. rewrite Nat2Z.inj_succ, Z.pow_succ_r in Hn by lia.
  destruct (n <? 128) eqn:E; bool_reflect; cbn [app].
  - destruct (group_bits n ltac:(lia)) as [(H1 & H2 & H3) _]. rewrite byte_app. cbn [mbind option_bind].
    rewrite H1, H2, H3. cbv zeta. by rewrite lor_shift.
  - pose proof (Z.mod_pos_bound n 128 ltac:(lia)) as Hm. destruct (group_bits _ Hm) as [_ (H1 & H2 & H3)].
    rewrite byte_app. cbn [mbind option_bind]. rewrite H1, H2, H3. cbv zeta. cbn [Z.eqb].
    rewrite lor_shift, IH; [|destruct rounds; lia|lia| | |done|done].
    + do 2 f_equal. rewrite Z.pow_add_r by lia. change (2 ^ 7) with 128.
      pose proof (Z.div_mod n 128 ltac:(lia)). f_equal. nia.
    + rewrite Z.pow_add_r by lia. change (2 ^ 7) with 128. nia.
    + split; [apply Z.div_pos; lia|]. apply Z.div_lt_upper_bound; lia.
Qed.

Lemma compact_count {A} (l : list A) rest : Wire.u16 l → compact (Wire.count l ++ rest) = Some (length l, rest).
Proof.
  unfold Wire.u16, compact, Wire.count. intros H. rewrite compact_shortvec; [|lia|lia|rewrite Z.pow_0_r; lia|].
  - rewrite Z.pow_0_r, Z.add_0_l, Z.mul_1_r, Nat2Z.id. done.
  - change (128 ^ Z.of_nat 3) with 2097152. lia.
Qed.

Lemma take_keys_concat keys rest :
  Forall (λ k, length k = 32%nat) keys →
  take_keys (length keys) (concat keys ++ rest) = Some (map base58_encode keys, rest).
Proof.
  induction 1 as [|k keys Hk _ IH]; cbn [length take_keys concat map]; [done|].
  rewrite <- app_assoc, take_app_ by done. cbn [mbind option_bind]. rewrite IH. cbn [mbind option_bind].
  by rewrite base58_reference.
Qed.

Lemma concat_length n (l : list bytes) : Forall (λ s, length s = n) l → length (concat l) = (length l * n)%nat.
Proof. induction 1 as [|s l Hs _ IH]; [done|]. cbn. rewrite length_app, IH. lia. Qed.

(** ** The policy over the programs called *)

(** What a tip may call: one of the listed programs, with the listed instructions *)
Definition permitted (programId program : string) (data : bytes) : Prop :=
  program ≠ "" ∧ program ∈ allowed_programs programId ∧
  (program = programId → bytesToHex (take 8 data) ∈ SUPPORT_IXS) ∧
  (program = JUPITER → bytesToHex (take 8 data) ∈ JUPITER_IXS) ∧
  (program = SYSTEM → length data = 12%nat ∧ map byte_val (take 4 data) = [2; 0; 0; 0]) ∧
  (program = TOKEN → ∃ b rest, data = b :: rest ∧ (byte_val b = 12 ∨ byte_val b = 9)).

Lemma andb_imp (P Q : Prop) `{Decision P, Decision Q} : bool_decide P && negb (bool_decide Q) = false ↔ (P → Q).
Proof. repeat case_bool_decide; simpl; naive_solver. Qed.

Lemma transfer_data data :
  Nat.eqb (length data) 12 && bool_decide (byte_val <$> data !! 0%nat = Some 2) && bool_decide (byte_val <$> data !! 1%nat = Some 0)
    && bool_decide (byte_val <$> data !! 2%nat = Some 0) && bool_decide (byte_val <$> data !! 3%nat = Some 0) = true
  ↔ length data = 12%nat ∧ map byte_val (take 4 data) = [2; 0; 0; 0].
Proof.
  rewrite !andb_true_iff, !bool_decide_eq_true, Nat.eqb_eq.
  destruct data as [|a [|b [|c [|d data]]]]; try (split; [intros ((((? & ?) & ?) & ?) & ?)|intros [? ?]]; done).
  cbn. naive_solver congruence.
Qed.

Lemma approve_data data :
  bool_decide (byte_val <$> data !! 0%nat = Some 12) || bool_decide (byte_val <$> data !! 0%nat = Some 9) = true
  ↔ ∃ b rest, data = b :: rest ∧ (byte_val b = 12 ∨ byte_val b = 9).
Proof. rewrite orb_true_iff, !bool_decide_eq_true. destruct data; cbn; naive_solver congruence. Qed.

Lemma imp_bool (P Q : Prop) `{Decision P} (b : bool) : (b = true ↔ Q) → bool_decide P && negb b = false ↔ (P → Q).
Proof. intros <-. case_bool_decide; destruct b; simpl; naive_solver. Qed.

Lemma instruction_problem_none programId program data :
  instruction_problem programId program data = None ↔ ∃ p, program = Some p ∧ permitted programId p data.
Proof.
  unfold instruction_problem, permitted. destruct program as [p|]; [|cbn; naive_solver].
  cbn [present]. destruct (decide (p = "")) as [->|Hp]; [rewrite bool_decide_eq_true_2 by done; naive_solver|].
  rewrite bool_decide_eq_false_2 by done. cbv zeta.
  transitivity (p ∈ allowed_programs programId ∧ (p = programId → bytesToHex (take 8 data) ∈ SUPPORT_IXS) ∧
    (p = JUPITER → bytesToHex (take 8 data) ∈ JUPITER_IXS) ∧
    (p = SYSTEM → length data = 12%nat ∧ map byte_val (take 4 data) = [2; 0; 0; 0]) ∧
    (p = TOKEN → ∃ b rest, data = b :: rest ∧ (byte_val b = 12 ∨ byte_val b = 9))); [|naive_solver].
  pose proof (imp_bool (p = TOKEN) _ _ (approve_data data)) as <-. pose proof (imp_bool (p = SYSTEM) _ _ (transfer_data data)) as <-.
  pose proof (andb_imp (p = programId) (bytesToHex (take 8 data) ∈ SUPPORT_IXS)) as <-.
  pose proof (andb_imp (p = JUPITER) (bytesToHex (take 8 data) ∈ JUPITER_IXS)) as <-.
  destruct (decide (p ∈ allowed_programs programId)) as [Hin|Hin]; [rewrite bool_decide_eq_true_2 by done|rewrite bool_decide_eq_false_2 by done; split; [done|by intros [? _]]].
  cbn [negb].
  repeat match goal with |- context [if ?b then _ else _] => destruct b eqn:?; [split; [done|intros (? & ? & ? & ? & ?); congruence]|] end.
  split; [intros _; by split_and!|done].
Qed.

(** The loop's answer, over the programs called and their data *)
Fixpoint verdict (programId : string) (callsSupport : bool) (calls : list (option string * bytes)) : option string :=
  match calls with
  | [] => if callsSupport then None else Some "doesn't call the support program"
  | (program, data) :: calls =>
      match instruction_problem programId program data with
      | Some problem => Some problem
      | None => verdict programId (callsSupport || bool_decide (program = Some programId)) calls
      end
  end.

Lemma verdict_none programId calls : ∀ callsSupport,
  verdict programId callsSupport calls = None ↔
    (∀ program data, (program, data) ∈ calls → ∃ p, program = Some p ∧ permitted programId p data) ∧
    (callsSupport = true ∨ ∃ data, (Some programId, data) ∈ calls).
Proof.
  induction calls as [|[program data] calls IH]; intros c; cbn [verdict].
  - setoid_rewrite elem_of_nil. destruct c; naive_solver.
  - setoid_rewrite elem_of_cons. pose proof (instruction_problem_none programId program data) as Hn.
    destruct (instruction_problem programId program data) as [e|].
    + split; [done|]. intros [H _]. by apply Hn, (H program data); left.
    + rewrite IH, orb_true_iff, bool_decide_eq_true. destruct Hn as [Hn _]. specialize (Hn eq_refl). split.
      * intros [H1 H2]. split; [|naive_solver]. intros p d [[= -> ->]|Hin]; [done|by apply H1].
      * intros [H1 H2]. split; [intros p d Hin; apply H1; by right|].
        destruct H2 as [?|[d [[= -> ->]|Hin]]]; [by left; left|by left; right|right; by exists d].
Qed.

(** The instructions of a transaction, as the loop reads them *)
Definition calls_of (tx : Wire.Transaction.t) : list (option string * bytes) :=
  map (λ ix, (Wire.program_of tx ix, ix.(Wire.Instruction.data))) tx.(Wire.Transaction.instructions).

Lemma check_instructions_wire keys programId ixs rest :
  Forall (λ ix, Wire.u16 ix.(Wire.Instruction.accounts) ∧ Wire.u16 ix.(Wire.Instruction.data)) ixs → ∀ c,
  check_instructions (length ixs) keys programId c (concat (map Wire.instruction ixs) ++ rest)
    = Some (verdict programId c
        (map (λ ix, (keys !! Z.to_nat (byte_val ix.(Wire.Instruction.program)), ix.(Wire.Instruction.data))) ixs)).
Proof.
  induction 1 as [|ix ixs [Ha Hd] _ IH]; intros c; cbn [length check_instructions map concat verdict]; [done|].
  unfold Wire.instruction. rewrite <- !app_assoc. cbn [app]. rewrite byte_app. cbn [mbind option_bind].
  rewrite compact_count by done. cbn [mbind option_bind]. rewrite take_app_ by done. cbn [mbind option_bind].
  rewrite compact_count by done. cbn [mbind option_bind]. rewrite take_app_ by done. cbn [mbind option_bind].
  destruct (instruction_problem _ _ _); [done|]. apply IH.
Qed.

Lemma check_message_wire tx programId :
  Wire.well_formed tx → check_message programId (Wire.message tx) = Some (verdict programId false (calls_of tx)).
Proof.
  intros [_ Hh _ [Hk1 Hk2] Hb [Hi1 Hi2]]. unfold check_message, Wire.message.
  rewrite take_app_ by done. cbn [mbind option_bind]. rewrite compact_count by done. cbn [mbind option_bind].
  rewrite take_keys_concat by done. cbn [mbind option_bind]. rewrite take_app_ by done. cbn [mbind option_bind].
  rewrite compact_count by done. cbn [mbind option_bind]. rewrite check_instructions_wire by done.
  unfold calls_of, Wire.program_of. do 2 f_equal. apply map_ext. intros ix. by rewrite <- list_lookup_fmap.
Qed.

Lemma checkSupportTransaction_wire tx programId :
  Wire.well_formed tx → checkSupportTransaction (Wire.wire tx) programId = verdict programId false (calls_of tx).
Proof.
  intros Hw. pose proof (check_message_wire tx programId Hw) as Hm. destruct Hw as [[Hs1 Hs2] Hh Hl _ _ _].
  unfold checkSupportTransaction, check_wire, Wire.wire. rewrite compact_count by done. cbn [mbind option_bind].
  rewrite take_app_ by (by rewrite (concat_length 64)). cbn [mbind option_bind].
  destruct (Wire.Transaction.versioned tx) eqn:Ev; cbn [app].
  - change (byte_val (byte_of 128)) with 128. cbn [Z.land Pos.land Z.eqb]. by rewrite Hm.
  - destruct (Hl eq_refl) as (b & Hb & Hlt). unfold Wire.message in *.
    destruct (Wire.Transaction.header tx) as [|b' h]; [done|]. injection Hb as ->. cbn [app] in *.
    destruct (group_bits (byte_val b)) as [(_ & _ & ->) _]; [pose proof (byte_val_range b); lia|]. cbn [Z.eqb].
    by rewrite Hm.
Qed.

(** C29: on the wire form of a transaction, legacy or version 0, the relay's check
    passes exactly when every instruction calls a listed program, with one of the
    listed instructions where there is a list, and one of them calls the support
    program. *)
Theorem relay_decides_transactions tx programId :
  Wire.well_formed tx →
  checkSupportTransaction (Wire.wire tx) programId = None ↔
    (∀ ix, ix ∈ tx.(Wire.Transaction.instructions) →
      ∃ p, Wire.program_of tx ix = Some p ∧ permitted programId p ix.(Wire.Instruction.data)) ∧
    (∃ ix, ix ∈ tx.(Wire.Transaction.instructions) ∧ Wire.program_of tx ix = Some programId).
Proof.
  intros Hw. rewrite checkSupportTransaction_wire, verdict_none by done. unfold calls_of.
  setoid_rewrite list_elem_of_fmap. split.
  - intros [H1 [?|[d (ix & [= E ->] & Hix)]]]; [done|]. split; [|by exists ix].
    intros ix' Hix'. apply (H1 (Wire.program_of tx ix')). by exists ix'.
  - intros [H1 (ix & Hix & E)]. split.
    + intros p d (ix' & [= -> ->] & Hix'). by apply H1.
    + right. exists ix.(Wire.Instruction.data), ix. by rewrite E.
Qed.

(** ** What an accepted request can ask *)

Lemma optional_given params i :
  optionalConfig params i = true → ∃ fields, coalesce (param params i) (VObject []) = VObject fields ∧
    (length params <= i + 1)%nat.
Proof.
  unfold optionalConfig. intros [H|H]%orb_true_iff.
  - apply Nat.leb_le in H. unfold param. rewrite lookup_ge_None_2 by done. exists []. split; [done|lia].
  - apply andb_true_iff in H as [Hl H]. apply Nat.eqb_eq in Hl. unfold isConfig in H.
    destruct (param params i) as [| | | | | | |fields]; try done. exists fields. split; [done|lia].
Qed.

Lemma size_of_ok v z : size_of v = Some z → 0 <= z.
Proof.
  unfold size_of. destruct (safe_integer v) as [n|]; [|done]. cbn. destruct (n <? 0) eqn:E; [done|].
  intros [= <-]. bool_reflect. lia.
Qed.

Definition slice_within (limit : Z) (v : value) : Prop :=
  ∃ offset len, v = VObject [("offset", VNumber (JInt offset)); ("length", VNumber (JInt len))] ∧
    0 <= offset ∧ 0 <= len <= limit.

Lemma account_slice_within v s : account_slice v = Some s → slice_within MAX_ACCOUNT_BYTES s.
Proof.
  intros H. assert (s = VObject [("offset", VNumber (JInt 0)); ("length", VNumber (JInt MAX_ACCOUNT_BYTES))] ∨
    ∃ o l, size_of (get v "offset") = Some o ∧ size_of (get v "length") = Some l ∧
      s = VObject [("offset", VNumber (JInt o)); ("length", VNumber (JInt (Z.min l MAX_ACCOUNT_BYTES)))]) as [->|(o & l & Ho & Hl & ->)].
  { unfold account_slice in H. destruct v as [| | | | | | |fields]; cbn [isConfig negb] in H; try done; [left; by injection H as <-|].
    apply bind_Some in H as (o & Ho & H). apply bind_Some in H as (l & Hl & H). injection H as <-. right. by exists o, l. }
  - exists 0, MAX_ACCOUNT_BYTES. split; [done|]. unfold MAX_ACCOUNT_BYTES. lia.
  - apply size_of_ok in Ho, Hl. eexists _, _. split; [done|]. unfold MAX_ACCOUNT_BYTES. lia.
Qed.

(** What the accepted methods carry *)
Definition narrow (programId method : string) (params : list value) : Prop :=
  method ∈ ALLOWED_METHODS ∧ (length params <= 2)%nat ∧
  (method = "sendTransaction" → ∃ encoded rest bs, params = VString encoded :: rest ∧
    atob encoded = Some bs ∧ checkSupportTransaction bs programId = None) ∧
  (method = "getAccountInfo" → ∃ address config, params = [address; config] ∧ isAddressValue address = true ∧
    get config "encoding" = VString "base64" ∧ slice_within MAX_ACCOUNT_BYTES (get config "dataSlice")) ∧
  (method = "getSignatureStatuses" → ∃ sigs rest, params = VArray sigs :: rest ∧ (length sigs <= 10)%nat).

Lemma param_0 params v : param params 0 = v → v ≠ VUndefined → ∃ rest, params = v :: rest.
Proof. unfold param. destruct params as [|x params]; cbn; [by intros <-|]. intros -> _. by exists params. Qed.

Lemma check_params_narrow method params programId out :
  method ∈ ALLOWED_METHODS → check_params method params programId = inl out → narrow programId method out.
Proof.
  intros Hm H. unfold narrow. split; [done|]. unfold check_params in H. cbv zeta in H.
  case_bool_decide as E1.
  { destruct (_ || _) eqn:Eb; [done|]. injection H as <-. bool_reflect.
    destruct (optional_given params 1) as (? & _ & ?); [done|]. split; [lia|]. naive_solver. }
  case_bool_decide as E2.
  { destruct (negb _) eqn:Eb; [done|]. injection H as <-. apply negb_false_iff, Nat.eqb_eq in Eb. split; [lia|]. naive_solver. }
  case_bool_decide as E3.
  { destruct (negb _) eqn:Eb; [done|]. injection H as <-. bool_reflect.
    destruct (optional_given params 0) as (? & _ & ?); [done|]. split; [lia|]. naive_solver. }
  case_bool_decide as E4.
  { destruct (param params 0) as [| | | | | |sigs|] eqn:Ep; try done. destruct (_ || _) eqn:Eb; [done|].
    destruct (Nat.ltb 10 _) eqn:El; [done|]. injection H as <-. bool_reflect. apply Nat.ltb_ge in El.
    destruct (optional_given params 1) as (? & _ & ?); [done|]. split; [lia|].
    destruct (param_0 _ _ Ep ltac:(done)) as [rest ->]. split_and!; [naive_solver..|]. intros _. by exists sigs, rest. }
  case_bool_decide as E5.
  { destruct (_ || _) eqn:Eb; [done|]. destruct (_ && _); [done|]. destruct (account_slice _) as [s|] eqn:Es; [|done].
    injection H as <-. apply account_slice_within in Es. bool_reflect.
    destruct (optional_given params 1) as (fields & -> & _); [done|]. split; [done|].
    split_and!; [naive_solver| |naive_solver]. intros _. eexists _, _. split; [done|]. split; [done|].
    change (set (VObject fields) "encoding" (VString "base64")) with (VObject (set_field fields "encoding" (VString "base64"))).
    rewrite get_set. split; [|done]. rewrite get_set_ne by done. apply field_set. }
  case_bool_decide as E6.
  { destruct (param params 0) as [| | | | |encoded| |] eqn:Ep; try done. destruct (optionalConfig params 1) eqn:Eb; cbn [negb] in H; [|done].
    destruct (strict_eq _ _); cbn [negb] in H; [|done]. destruct (atob encoded) as [bs|] eqn:Ea; [|done].
    destruct (checkSupportTransaction bs programId) eqn:Ec; [done|]. injection H as <-.
    destruct (optional_given params 1) as (? & _ & ?); [done|]. split; [lia|].
    destruct (param_0 _ _ Ep ltac:(done)) as [rest ->]. split_and!; [|naive_solver..]. intros _. by exists encoded, rest, bs. }
  exfalso. unfold ALLOWED_METHODS in Hm. rewrite !elem_of_cons, elem_of_nil in Hm. naive_solver.
Qed.

Lemma checkRelayRequest_narrow `{C : Codec} body programId r :
  checkRelayRequest body programId = relay_ok r →
  utf8_length body <= MAX_BODY_BYTES ∧ narrow programId r.(RelayBody.method) r.(RelayBody.params).
Proof.
  unfold checkRelayRequest. destruct (_ <? _) eqn:El; [done|]. bool_reflect. intros H. split; [done|]. revert H.
  destruct (JSON_parse body) as [[]|]; try done. destruct (get (VObject fields) "method") as [| | | | |method| |]; try done.
  case_bool_decide as Hm; cbn [negb]; [|done]. cbv zeta.
  assert (∀ params, (if negb (valid_id (get (VObject fields) "id")) then relay_fail 400 "Invalid id"
    else match check_params method params programId with
         | inl params => relay_ok (RelayBody.mk (coalesce (get (VObject fields) "id") (VNumber (JInt 1))) method params)
         | inr (status, message) => relay_fail status message
         end) = relay_ok r → narrow programId (RelayBody.method r) (RelayBody.params r)) as Hc.
  { intros params. destruct (negb _); [done|]. destruct (check_params method params programId) as [out|[]] eqn:E; [|done].
    intros [= <-]. by eapply check_params_narrow. }
  destruct (get (VObject fields) "params"); try done; apply Hc.
Qed.
