(* ===== verification/HttpRoutes.v ===== *)
(** * The HTTP routes (convex/http.ts)

    The authenticated storage endpoint in front of [Storage.execute], and the
    public relay in front of a Solana node.  A request is what the handlers read
    of it; environment variables, clocks and the upstream's reply are arguments.
    The migration operations are an argument as the pet world is for [execute]. *)
From Stdlib Require Import ZArith Lia Strings.Byte Strings.Ascii.
From stdpp Require Import base numbers strings list fin_maps gmap.
From S2P Require Import Prelude Bytes PublicKey Decimal Base64 CardConstants Values CardCommitment Store Records CardRecords Webhooks WebhookRuns Storage Utf8 SupportParse Support SupportRpc.

(** ** Service credentials *)

(** The service secrets of the deployment and the flags of its modes *)
Module StorageEnv.
Record t : Type := mk {
  backend_secret : option string;
  mcp_secret : option string;
  migration_secret : option string;
  migration_enabled : bool;
  env : Env.t;
}.
End StorageEnv.

Inductive ServiceRole : Type := service (role : Role) | migration.

(** [filter(Boolean)] *)
Definition configured (e : StorageEnv.t) : list string :=
  omap present [e.(StorageEnv.backend_secret); e.(StorageEnv.mcp_secret); e.(StorageEnv.migration_secret)].

(** [status] and [code] of an error, or the value of an operation *)
Inductive HttpReply (A : Type) : Type :=
| http_value (value : A)
| http_error (status : Z) (code : string).
Arguments http_value {A} value.
Arguments http_error {A} status code.

(** The code of a [ConvexError]: what [fail] puts before the message *)
Definition convex_code (message : string) : option string :=
  let '(code, rest) := span (λ c, negb (bool_decide (c = ":"%char))) (chars message) in
  if starts_with ": " (text rest) then Some (text code) else None.

(** The response to an error of the mutation *)
Definition error_reply {A} (message : string) : HttpReply A :=
  match convex_code message with
  | None => http_error 500 "storage_error"
  | Some code =>
      http_error
        (if bool_decide (code ∈ ["maintenance"; "unavailable"]) then 503
         else if bool_decide (code = "unauthorized") then 401
         else if bool_decide (code = "rate_limited") then 429
         else if bool_decide (code = "forbidden") then 403
         else if bool_decide (code = "conflict") then 409 else 400) code
  end.

Section Credentials.
Context `{H : Sha256}.

(** [difference |= left[i] ^ right[i]] over two digests *)
Definition difference (left right : bytes) : Z :=
  foldl (λ d p, Z.lor d (Z.lxor (byte_val p.1) (byte_val p.2))) 0 (zip left right).

Definition matches (token : string) (secret : option string) : bool :=
  match present secret with
  | None => false
  | Some secret =>
      Nat.leb 32 (String.length secret)
      && (difference (sha256 (text_encode token)) (sha256 (text_encode secret)) =? 0)
  end.

Definition role_of_token (e : StorageEnv.t) (token : string) : option ServiceRole :=
  if matches token e.(StorageEnv.backend_secret) then Some (service backend)
  else if matches token e.(StorageEnv.mcp_secret) then Some (service mcp)
  else if matches token e.(StorageEnv.migration_secret) then Some migration
  else None.
End Credentials.

(** ** /internal/storage/v1 *)

Section StorageRoute.
Context `{H : Sha256, C : Codec, B : Db}.
Context {Pet : Type} (petOperation : string → value → Pet → result (value * Pet)).
Abbreviation Tables := (Storage.t Pet).
Context (migrationOperation : string → value → Tables → result (value * Tables)).

Definition operations_of (role : Role) : list string :=
  match role with backend => backendOperations | mcp => mcpOperations end.

(** A mutation: its tables stand when it returns, and nothing changes when it throws. *)
Definition run {A} (s : Tables) (r : result (A * Tables)) (f : A → Reply) : HttpReply Reply * Tables :=
  match r with
  | Ok (a, s') => (http_value (f a), s')
  | Throw e => (error_reply e, s)
  end.

Definition storage_operation (e : StorageEnv.t) (role : ServiceRole) (operation : string) (args : value) (s : Tables)
    : HttpReply Reply * Tables :=
  match role with
  | migration =>
      if negb e.(StorageEnv.migration_enabled) || negb e.(StorageEnv.env).(Env.maintenance) then (http_error 403 "forbidden", s)
      else if bool_decide (operation = "migration.import" ∨ operation = "migration.export")
      then run s (migrationOperation operation args s) Answer
      else (http_error 403 "forbidden", s)
  | service role =>
      if negb (bool_decide (operation ∈ operations_of role)) then (http_error 403 "forbidden", s)
      else run s (execute petOperation e.(StorageEnv.env) s role operation args) id
  end.

Definition storage_route (e : StorageEnv.t) (authorization : option string) (body : string) (s : Tables)
    : HttpReply Reply * Tables :=
  match strip_prefix (chars "Bearer ") (chars (default "" authorization)) with
  | None => (http_error 401 "unauthorized", s)
  | Some token =>
      if negb (Nat.eqb (length (set_of (configured e))) (length (configured e))) then (http_error 503 "configuration", s)
      else
        match role_of_token e (text token) with
        | None => (http_error 401 "unauthorized", s)
        | Some role =>
            if 900000 <? utf8_length body then (http_error 413 "too_large", s)
            else
              match JSON_parse body with
              | None => (http_error 400 "invalid_argument", s)
              | Some parsed =>
                  match get parsed "operation", get parsed "args" with
                  | VString operation, VObject _ as args => storage_operation e role operation args s
                  | _, _ => (http_error 400 "invalid_argument", s)
                  end
              end
        end
  end.
End StorageRoute.

(** ** /support/rpc *)

Module RelayEnv.
Record t : Type := mk {
  upstream : option string;
  programId : option string;
  live : option string;
  cluster : option string;
}.
End RelayEnv.

(** The parts of a request the relay reads *)
Module RelayRequest.
Record t : Type := mk { body : list bytes; forwarded_for : option string; real_ip : option string }.
End RelayRequest.

Inductive RelayReply : Type :=
| relay_error (status : Z) (message : string) (id : value)
| relay_answer (status : Z) (body : bytes).

Section RelayRoute.
Context `{H : Sha256, C : Codec, B : Db}.
(** [new TextDecoder().decode] *)
Context (text_decode : bytes → string).

(** What the upstream replies to a request: a status with the chunks of its body,
    or no answer in time *)
Abbreviation Upstream := (RelayBody.t → option (Z * list bytes)).

(** The reply, the rate limit rows, and what was sent upstream *)
Definition relay_route (e : RelayEnv.t) (request : RelayRequest.t) (fetch : Upstream) (now : Z) (t : table RateLimit.t)
    : result (RelayReply * table RateLimit.t * option RelayBody.t) :=
  let refuse status message id t := Ok (relay_error status message id, t, None) in
  match present e.(RelayEnv.upstream), present e.(RelayEnv.programId) with
  | Some _, Some programId =>
      if negb (bool_decide (e.(RelayEnv.live) = Some "true")) || negb (bool_decide (e.(RelayEnv.cluster) = Some "devnet"))
      then refuse 503 "Support RPC is off" VNull t
      else
        match read_limited MAX_BODY_BYTES 0 request.(RelayRequest.body) with
        | None => refuse 413 "Request too large" VNull t
        | Some body =>
            match checkRelayRequest (text_decode body) programId with
            | relay_fail status message => refuse status message VNull t
            | relay_ok r =>
                let client := clientKey request.(RelayRequest.forwarded_for) request.(RelayRequest.real_ip) in
                let! counted := relayAllowed t client (bool_decide (r.(RelayBody.method) = "sendTransaction")) now in
                let '(allowed, t) := counted in
                if negb allowed then refuse 429 "Too many requests; try again in a minute" r.(RelayBody.id) t
                else
                  match fetch r with
                  | None => Ok (relay_error 502 "Upstream RPC unavailable" r.(RelayBody.id), t, Some r)
                  | Some (status, chunks) =>
                      match read_limited MAX_RESPONSE_BYTES 0 chunks with
                      | None => Ok (relay_error 502 "Upstream response too large" r.(RelayBody.id), t, Some r)
                      | Some body => Ok (relay_answer status body, t, Some r)
                      end
                  end
            end
        end
  | _, _ => refuse 503 "Support RPC is off" VNull t
  end.
End RelayRoute.
