(* ===== verification/HttpProps.v ===== *)
(** * Who gets through the HTTP routes

    Credentials of the storage endpoint, and the budget of the relay. *)
From Stdlib Require Import ZArith Lia Strings.Byte Strings.Ascii.
From stdpp Require Import base numbers strings list fin_maps gmap.
From S2P Require Import Prelude Bytes PublicKey CardConstants Decimal Base64 Utf8 CardCommitment Store Values Records CardRecords Webhooks WebhookRuns Storage StorageRuns StorageProps SupportParse Support SupportRpc SupportRpcProps HttpRoutes.

(** ** Texts and prefixes *)

Lemma strip_prefix_app p cs rest : strip_prefix p cs = Some rest ↔ cs = p ++ rest.
Proof.
  revert cs. induction p as [|a p IH]; intros cs; cbn; [split; congruence|].
  destruct cs as [|c cs]; [done|]. case_bool_decide as E.
  - subst. rewrite IH. split; congruence.
  - split; [done|]. intros [= -> _]. done.
Qed.

Lemma difference_from d left right :
  length left = length right →
  foldl (λ d p, Z.lor d (Z.lxor (byte_val p.1) (byte_val p.2))) d (zip left right) = 0 → d = 0 ∧ left = right.
Proof.
  revert d right. induction left as [|a left IH]; intros d [|b right] Hl; cbn [zip zip_with foldl]; [by intros ->|done..|].
  injection Hl as Hl. intros [E ->]%IH; [|done]. apply Z.lor_eq_0_iff in E as [-> E]. split; [done|]. f_equal.
  apply byte_val_inj. by apply Z.lxor_eq.
Qed.

Lemma difference_zero left right : length left = length right → difference left right = 0 → left = right.
Proof. by intros Hl [_ ?]%difference_from. Qed.

(** ** Credentials *)

Section Credentials.
Context `{H : Sha256, HS : !Sha256Spec H}.

(** Without a collision, the token that matches a secret is the secret. *)
Lemma matches_secret token secret :
  matches token secret = true →
  collision_free [text_encode token; text_encode (default "" secret)] →
  secret = Some token ∧ (32 <= String.length token)%nat.
Proof using HS.
  unfold matches, present. destruct secret as [s|]; [|done]. case_bool_decide; [done|].
  intros [Hl Hd]%andb_true_iff Hcf. apply Nat.leb_le in Hl. apply Z.eqb_eq, difference_zero in Hd; [|by rewrite !sha256_length].
  apply Hcf in Hd; [|by left|right; by left]. apply text_encode_inj in Hd. by subst.
Qed.

Definition secret_of (e : StorageEnv.t) (role : ServiceRole) : option string :=
  match role with
  | service backend => e.(StorageEnv.backend_secret)
  | service mcp => e.(StorageEnv.mcp_secret)
  | migration => e.(StorageEnv.migration_secret)
  end.

Lemma role_of_token_matches e token role : role_of_token e token = Some role → matches token (secret_of e role) = true.
Proof using Type.
  unfold role_of_token. destruct (matches token (StorageEnv.backend_secret e)) eqn:E1; [by intros [= <-]|].
  destruct (matches token (StorageEnv.mcp_secret e)) eqn:E2; [by intros [= <-]|].
  destruct (matches token (StorageEnv.migration_secret e)) eqn:E3; [by intros [= <-]|done].
Qed.
End Credentials.

Lemma set_of_from l : ∀ acc, let s := foldl (λ acc x, if bool_decide (x ∈ acc) then acc else acc ++ [x]) acc l in
  (length s <= length acc + length l)%nat ∧
  (length s = (length acc + length l)%nat → NoDup l ∧ ∀ x : string, x ∈ l → x ∉ acc).
Proof.
  induction l as [|y l IH]; intros acc; cbv zeta; cbn [foldl length].
  { split; [lia|]. intros _. split; [constructor|]. by intros x ?%not_elem_of_nil. }
  case_bool_decide as E.
  - destruct (IH acc) as [H _]. split; [lia|]. intros E'. lia.
  - destruct (IH (acc ++ [y])) as [H1 H2]. rewrite length_app in H1, H2. cbn [length] in H1, H2. split; [lia|].
    intros E'. destruct H2 as [Hn Hd]; [lia|]. split.
    + constructor; [|done]. intros Hy. apply (Hd _ Hy), elem_of_app. right. by left.
    + intros x [->|Hx]%elem_of_cons; [done|]. intros Ha. apply (Hd _ Hx), elem_of_app. by left.
Qed.

Lemma set_of_nodup l : length (set_of l) = length l → NoDup l.
Proof. intros E. destruct (set_of_from l []) as [_ Hn]. by destruct (Hn E). Qed.

(** ** The storage endpoint *)

Section Storage.
Context `{H : Sha256, HS : !Sha256Spec H, C : Codec, B : Db}.
Context {Pet : Type} (petOperation : string → value → Pet → result (value * Pet)).
Context (migrationOperation : string → value → Storage.t Pet → result (value * Storage.t Pet)).

Lemma bearer authorization token :
  strip_prefix (chars "Bearer ") (chars (default "" authorization)) = Some token →
  authorization = Some ("Bearer " +:+ text token).
Proof using Type.
  intros E%strip_prefix_app. destruct authorization as [a|]; [|done]. change (chars a = chars "Bearer " ++ token) in E.
  apply (f_equal text) in E. rewrite text_chars in E. by subst a.
Qed.

(** What a caller was allowed to do *)
Definition authorized (e : StorageEnv.t) (s s' : Storage.t Pet) (reply : HttpReply Reply) (role : ServiceRole) : Prop :=
  match role with
  | service role => ∃ operation args v, operation ∈ operations_of role ∧
      execute petOperation e.(StorageEnv.env) s role operation args = Ok (v, s') ∧ reply = http_value v
  | migration => e.(StorageEnv.migration_enabled) = true ∧ e.(StorageEnv.env).(Env.maintenance) = true ∧
      ∃ operation args v, (operation = "migration.import" ∨ operation = "migration.export") ∧
        migrationOperation operation args s = Ok (v, s') ∧ reply = http_value (Answer v)
  end.

Lemma storage_operation_authorized e role operation args s reply s' :
  storage_operation petOperation migrationOperation e role operation args s = (reply, s') →
  (s' = s ∧ ∃ status code, reply = http_error status code) ∨ authorized e s s' reply role.
Proof using Type.
  unfold storage_operation, run. destruct role as [role|].
  - case_bool_decide as Ho; cbn [negb]; [|intros [= <- <-]; left; eauto].
    destruct (execute _ _ _ _ _ _) as [[v s1]|m] eqn:E; intros [= <- <-]; [right; by exists operation, args, v|].
    left. split; [done|]. unfold error_reply. destruct (convex_code m); eauto.
  - destruct (_ || _) eqn:Ef; [intros [= <- <-]; left; eauto|]. bool_reflect.
    case_bool_decide as Ho; [|intros [= <- <-]; left; eauto].
    destruct (migrationOperation operation args s) as [[v s1]|m] eqn:E; intros [= <- <-]; [right|].
    + split; [done|]. split; [done|]. by exists operation, args, v.
    + left. split; [done|]. unfold error_reply. destruct (convex_code m); eauto.
Qed.

(** C28: whatever the storage endpoint is sent, the tables change, or a value is
    returned, only for a caller whose bearer token is the secret of a service, at
    least 32 characters and different from the other services' secrets; what
    happened is then one of that service's operations, and for the migration
    service an import or an export, in maintenance with migrations enabled.  The digests are assumed not to collide
    on the texts compared. *)
Theorem storage_route_authorized e authorization body s reply s' :
  storage_route petOperation migrationOperation e authorization body s = (reply, s') →
  (∀ token, authorization = Some ("Bearer " +:+ token) → collision_free (text_encode token :: map text_encode (configured e))) →
  s' ≠ s ∨ (∃ v, reply = http_value v) →
  ∃ token role, authorization = Some ("Bearer " +:+ token) ∧ secret_of e role = Some token ∧
    (32 <= String.length token)%nat ∧ NoDup (configured e) ∧ authorized e s s' reply role.
Proof using HS.
  unfold storage_route. intros E Hcf Hc.
  assert (∀ status code, (@http_error Reply status code, s) = (reply, s') → False) as Hrefuse.
  { intros status code [= <- <-]. by destruct Hc as [|[v ?]]. }
  destruct (strip_prefix _ _) as [token|] eqn:Et; [|by destruct (Hrefuse _ _ E)]. apply bearer in Et.
  destruct (Nat.eqb _ _) eqn:En; cbn [negb] in E; [|by destruct (Hrefuse _ _ E)]. apply Nat.eqb_eq, set_of_nodup in En.
  destruct (role_of_token e (text token)) as [role|] eqn:Er; [|by destruct (Hrefuse _ _ E)].
  destruct (_ <? _); [by destruct (Hrefuse _ _ E)|]. destruct (JSON_parse body) as [parsed|]; [|by destruct (Hrefuse _ _ E)].
  destruct (get parsed "operation") as [| | | | |op| |]; try by destruct (Hrefuse _ _ E).
  destruct (get parsed "args") as [| | | | | | |args]; try by destruct (Hrefuse _ _ E).
  apply storage_operation_authorized in E as [[-> (status & code & ->)]|Ha]; [by destruct Hc as [|[v ?]]|].
  apply role_of_token_matches in Er.
  destruct (matches_secret _ _ Er) as [Hs Hl]; [|by exists (text token), role].
  eapply collision_free_weaken; [|by apply Hcf]. intros x [->|[->|Hx%not_elem_of_nil]%elem_of_cons]%elem_of_cons; [by left| |done].
  right. apply list_elem_of_fmap. exists (default "" (secret_of e role)). split; [done|].
  unfold matches in Er. destruct (present (secret_of e role)) as [sec|] eqn:Ep; [|done].
  unfold configured. rewrite list_elem_of_omap. exists (secret_of e role). split.
  - destruct role as [[]|]; cbn; rewrite !elem_of_cons; auto.
  - rewrite Ep. unfold present in Ep. destruct (secret_of e role); [|done]. by case_bool_decide.
Qed.
End Storage.

(** ** The relay *)

Lemma read_limited_spec limit chunks : ∀ size bs,
  read_limited limit size chunks = Some bs → size <= limit → bs = concat chunks ∧ size + Z.of_nat (length bs) <= limit.
Proof.
  induction chunks as [|c chunks IH]; intros size bs E Hs; cbn [read_limited] in E.
  - injection E as <-. cbn. split; [done|lia].
  - cbv zeta in E. destruct (_ <? _) eqn:El; [done|]. bool_reflect. apply bind_Some in E as (rest & E & [= <-]).
    apply IH in E as [-> E]; [|lia]. split; [done|]. rewrite length_app. lia.
Qed.

Section RelayCounts.
Context `{B : Db, BS : !DbSpec B}.

(** The calls counted in a bucket *)
Definition count_of (t : table RateLimit.t) (key : string) : Z :=
  match bucket_row t key with Ok row => row_count row | Throw _ => 0 end.

Lemma count_rows_spec slot rows : ∀ t,
  keyed RateLimit.key t → NoDup (map (λ x, x.2.1) rows) →
  (∀ x, x ∈ rows → bucket_row t x.2.1 = Ok x.1) →
  keyed RateLimit.key (count_rows slot rows t) ∧
  (∀ x, x ∈ rows → count_of (count_rows slot rows t) x.2.1 = count_of t x.2.1 + 1) ∧
  (∀ key, key ∉ map (λ x, x.2.1) rows → bucket_row (count_rows slot rows t) key = bucket_row t key).
Proof using BS.
  induction rows as [|[row [key m]] rows IH]; intros t Hk Hn Hr.
  { split; [done|]. split; [by intros x ?%not_elem_of_nil|done]. }
  apply NoDup_cons in Hn as [Hkey Hn]. cbn [count_rows snd fst] in *. pose proof (Hr _ ltac:(by left)) as Hrow. cbn in Hrow.
  set (d := match row with Some (_, r) => RateLimit.mk r.(RateLimit.key) (r.(RateLimit.count) + 1) r.(RateLimit.expires)
            | None => RateLimit.mk key 1 ((slot + 1) * WINDOW) end).
  set (t1 := match row with Some (i, r) => _ | None => _ end).
  destruct (row_of_write RateLimit.key t key row d t1 Hk Hrow) as (Hk1 & [i Hi] & Ho).
  { destruct row as [[i r]|]; [|done]. by apply (row_of_some RateLimit.key) in Hrow as [_ ?]. }
  { by destruct row as [[i r]|]. }
  assert (∀ x, x ∈ rows → bucket_row t1 x.2.1 = Ok x.1) as Hr1.
  { intros x Hx. transitivity (bucket_row t x.2.1); [apply (Ho x.2.1)|apply Hr; by right]. intros E. apply Hkey. rewrite <- E.
    by apply (list_elem_of_fmap_2 (λ x : option (DocId * RateLimit.t) * (string * Z), x.2.1)). }
  destruct (IH t1 Hk1 Hn Hr1) as (H1 & H2 & H3). split; [done|]. split.
  - intros x [->|Hx]%elem_of_cons; cbn [fst snd].
    + unfold count_of. rewrite (H3 key Hkey), Hrow. change (bucket_row t1 key) with (row_of RateLimit.key t1 key). rewrite Hi. by destruct row as [[]|].
    + rewrite H2 by done. f_equal. unfold count_of. by rewrite (Hr1 x Hx), (Hr x) by (by right).
  - intros k [Hne Hk']%not_elem_of_cons. rewrite H3 by done. by apply Ho.
Qed.

Lemma relay_buckets_nodup client send slot : NoDup (map fst (relay_buckets client send slot)).
Proof using Type.
  destruct send; cbn; repeat (apply NoDup_cons; split; [rewrite ?elem_of_cons, elem_of_nil; intros H; repeat destruct H as [H|H]; done|]); constructor.
Qed.

Lemma zip_names {A} (rows : list A) (buckets : list (string * Z)) :
  length rows = length buckets → map (λ x, x.2.1) (zip rows buckets) = map fst buckets.
Proof using Type. revert buckets. induction rows as [|r rows IH]; intros [|b buckets] E; try done. cbn. f_equal. apply IH. by injection E. Qed.

(** A call that is allowed is counted once in each of its buckets, none of which
    passes its limit; one that is not is not counted. *)
Lemma relayAllowed_spec t client send now b t' :
  keyed RateLimit.key t → relayAllowed t client send now = Ok (b, t') →
  if b then ∀ key limit, (key, limit) ∈ relay_buckets client send (now / WINDOW) →
    count_of t' key = count_of t key + 1 ∧ count_of t' key <= limit
  else t' = t.
Proof using BS.
  unfold relayAllowed. cbv zeta. intros Hk (rows & Hrows & E)%bind_ok. set (slot := now / WINDOW) in *.
  set (buckets := relay_buckets client send slot) in *. destruct (existsb _ _) eqn:Ee; injection E as <- <-; [done|].
  pose proof (traverse_length _ _ _ Hrows) as Hlen.
  assert (∀ x, x ∈ zip rows buckets → bucket_row t x.2.1 = Ok x.1) as Hr.
  { clear Ee Hk. revert rows Hrows Hlen. clearbody buckets. clear. induction buckets as [|b bs IH]; intros rows Hrows Hlen x Hx.
    - destruct rows; by apply not_elem_of_nil in Hx.
    - cbn in Hrows. apply bind_ok in Hrows as (r & Hr & (rs & Hrs & [= <-])%bind_ok). cbn in Hx.
      apply elem_of_cons in Hx as [->|Hx]; [done|]. eapply IH; [done|by injection Hlen|done]. }
  destruct (count_rows_spec slot (zip rows buckets) t Hk) as (_ & Hc & _); [|done|].
  { rewrite zip_names by done. apply relay_buckets_nodup. }
  intros key limit Hin. apply list_elem_of_lookup in Hin as [i Hi].
  destruct (lookup_lt_is_Some_2 rows i) as [row Hrow]; [rewrite Hlen; by eapply lookup_lt_Some|].
  assert ((row, (key, limit)) ∈ zip rows buckets) as Hz.
  { apply list_elem_of_lookup. exists i. apply lookup_zip_with_Some. by exists row, (key, limit). }
  assert (count_of (count_rows slot (zip rows buckets) t) key = count_of t key + 1) as E by exact (Hc _ Hz).
  split; [done|]. rewrite E. unfold count_of.
  assert (bucket_row t key = Ok row) as -> by exact (Hr _ Hz).
  assert ((limit <=? row_count row) = false) as Hl; [|bool_reflect; lia].
  destruct (limit <=? row_count row) eqn:El; [|done]. rewrite <- Ee. symmetry. apply existsb_exists.
  exists (row, (key, limit)). split; [by apply list_elem_of_In|done].
Qed.
End RelayCounts.

Section Relay.
Context `{H : Sha256, C : Codec, B : Db, BS : !DbSpec B}.
Context (text_decode : bytes → string).

Lemma present_some v x : present v = Some x → v = Some x.
Proof using Type. unfold present. destruct v; [|done]. by case_bool_decide. Qed.

(** The two ways the relay ends: refused, or sent on *)
Lemma relay_route_inv e request fetch now t reply t' sent :
  relay_route text_decode e request fetch now t = Ok (reply, t', sent) →
  (∃ status message id, reply = relay_error status message id ∧ sent = None ∧
    (t' = t ∨ ∃ client send, relayAllowed t client send now = Ok (false, t'))) ∨
  ∃ programId body r, e.(RelayEnv.programId) = Some programId ∧
    e.(RelayEnv.live) = Some "true" ∧ e.(RelayEnv.cluster) = Some "devnet" ∧
    read_limited MAX_BODY_BYTES 0 request.(RelayRequest.body) = Some body ∧
    checkRelayRequest (text_decode body) programId = relay_ok r ∧
    relayAllowed t (clientKey request.(RelayRequest.forwarded_for) request.(RelayRequest.real_ip))
      (bool_decide (r.(RelayBody.method) = "sendTransaction")) now = Ok (true, t') ∧
    sent = Some r ∧ ∀ status b, reply = relay_answer status b → Z.of_nat (length b) <= MAX_RESPONSE_BYTES.
Proof using Type.
  unfold relay_route. cbv zeta. intros E.
  assert (∀ status message id, Ok (relay_error status message id, t, None) = Ok (reply, t', sent) →
    ∃ status message id, reply = relay_error status message id ∧ sent = None ∧
      (t' = t ∨ ∃ client send, relayAllowed t client send now = Ok (false, t'))) as Hno.
  { intros status message id [= <- <- <-]. exists status, message, id. auto. }
  destruct (present (RelayEnv.upstream e)); [|left; by eapply Hno].
  destruct (present (RelayEnv.programId e)) as [programId|] eqn:Ep; [|left; by eapply Hno]. apply present_some in Ep.
  destruct (_ || _) eqn:Eo; [left; by eapply Hno|]. bool_reflect.
  destruct (read_limited _ _ (RelayRequest.body request)) as [body|] eqn:Eb; [|left; by eapply Hno].
  destruct (checkRelayRequest (text_decode body) programId) as [r|] eqn:Er; [|left; by eapply Hno].
  apply bind_ok in E as ([allowed t1] & Ea & E). destruct allowed; cbn [negb] in E.
  2:{ left. injection E as <- <- <-. eexists _, _, _. split; [done|]. split; [done|]. right. eauto. }
  right. exists programId, body, r. destruct (fetch r) as [[status chunks]|]; [|by injection E as <- <- <-].
  destruct (read_limited MAX_RESPONSE_BYTES 0 chunks) as [answer|] eqn:El; injection E as <- <- <-; [|done].
  split_and!; try done. intros st b [= _ <-]. apply read_limited_spec in El as [_ ?]; [lia|unfold MAX_RESPONSE_BYTES; lia].
Qed.

(** what the public relay does to its node and its counters.  It sends a
    request on only when it is switched on for Devnet, from a body of at most 8192
    bytes, and then a narrow one: an allowed method, account reads of bounded
    slices, at most ten signatures, transactions that pass the check.  That call
    is counted once in each of its buckets and leaves none above its limit.
    Anything else changes no counter and is answered with an error; no answer
    passes on more than 32768 bytes. *)
Theorem relay_forwards e request fetch now t reply t' sent :
  keyed RateLimit.key t → relay_route text_decode e request fetch now t = Ok (reply, t', sent) →
  (∀ status body, reply = relay_answer status body → Z.of_nat (length body) <= MAX_RESPONSE_BYTES ∧ sent ≠ None) ∧
  match sent with
  | None => t' = t
  | Some r =>
      e.(RelayEnv.live) = Some "true" ∧ e.(RelayEnv.cluster) = Some "devnet" ∧
      Z.of_nat (length (concat request.(RelayRequest.body))) <= MAX_BODY_BYTES ∧
      (∃ programId, e.(RelayEnv.programId) = Some programId ∧ narrow programId r.(RelayBody.method) r.(RelayBody.params)) ∧
      ∀ key limit,
        (key, limit) ∈ relay_buckets (clientKey request.(RelayRequest.forwarded_for) request.(RelayRequest.real_ip))
          (bool_decide (r.(RelayBody.method) = "sendTransaction")) (now / WINDOW) →
        count_of t' key = count_of t key + 1 ∧ count_of t' key <= limit
  end.
Proof using BS.
  intros Hk [(status & message & id & -> & -> & Ht)|(programId & body & r & Hp & Hl & Hc & Hb & Hr & Ha & -> & Hans)]%relay_route_inv.
  - split; [done|]. destruct Ht as [->|(client & send & Ha)]; [done|]. by apply relayAllowed_spec in Ha.
  - split; [intros ? ? E; split; [by eapply Hans|done]|]. apply read_limited_spec in Hb as [-> Hb]; [|unfold MAX_BODY_BYTES; lia].
    apply checkRelayRequest_narrow in Hr as [_ Hn]. pose proof (relayAllowed_spec _ _ _ _ _ _ Hk Ha) as Hcount.
    split_and!; [done|done|lia|by exists programId|exact Hcount].
Qed.
End Relay.

(** ** Concrete requests *)

Import Model TextCodec.

(** ** A tip on the wire *)

Definition tip_program_key : bytes := replicate 32 (byte_of 7).
Definition tip_program : string := base58_encode tip_program_key.

Definition hex_bytes (s : string) : bytes := default [] (hex_pairs s).

(** A version 0 transaction: a compute budget request, then a payment in SOL *)
Definition tip : Wire.Transaction.t :=
  Wire.Transaction.mk [replicate 64 x01] true [byte_of 1; byte_of 0; byte_of 2]
    [replicate 32 (byte_of 9); default [] (base58_decode COMPUTE_BUDGET); tip_program_key] (replicate 32 x05)
    [Wire.Instruction.mk (byte_of 1) [] [byte_of 2; x00]; Wire.Instruction.mk (byte_of 2) [x00] (hex_bytes "83659a3225880d43" ++ replicate 200 x00)]
    [x00].

Lemma tip_well_formed : Wire.well_formed tip.
Proof.
  split; [split|..|split| |split]; try (by vm_compute); [repeat constructor|repeat constructor|].
  repeat constructor; by vm_compute.
Qed.

Example tip_passes : checkSupportTransaction (Wire.wire tip) tip_program = None.
Proof. by vm_compute. Qed.

Lemma relay_decides_transactions_witness :
  Wire.well_formed tip ∧ ∃ ix, ix ∈ tip.(Wire.Transaction.instructions) ∧ Wire.program_of tip ix = Some tip_program.
Proof.
  split; [exact tip_well_formed|].
  apply (relay_decides_transactions tip tip_program tip_well_formed), tip_passes.
Defined.

(** ** A call of the storage endpoint *)

Definition backend_key : string := "backend-secret-0123456789-abcdefgh".
Definition sample_services : StorageEnv.t :=
  StorageEnv.mk (Some backend_key) (Some "mcp-secret-0123456789-abcdefghijk") None false StorageProps.live.
Definition claim_body : string :=
  default "" (print (obj [("operation", VString "claim_operation"); ("args", claim_by "alice")])).

Definition no_migration (op : string) (a : value) (s : StorageProps.State) : result (value * StorageProps.State) :=
  fail "forbidden" "no migration".
Definition storage_answer : HttpReply Reply * StorageProps.State :=
  @storage_route model_hash codec db unit no_pet no_migration sample_services (Some ("Bearer " +:+ backend_key)) claim_body state_0.

Example storage_claims : match storage_answer.1 with http_value _ => True | http_error _ _ => False end.
Proof. by vm_compute. Qed.

Lemma storage_value : ∃ v, storage_answer.1 = http_value v.
Proof. pose proof storage_claims as Hv. destruct (storage_answer.1) as [v|]; [by exists v|done]. Qed.

Lemma sample_secrets token :
  Some ("Bearer " +:+ backend_key) = Some ("Bearer " +:+ token) →
  @collision_free model_hash (text_encode token :: map text_encode (configured sample_services)).
Proof.
  intros [= E]. change (backend_key = token) in E. rewrite <- E. apply (@collision_free_check model_hash). by vm_compute.
Qed.

Lemma storage_route_authorized_witness :
  ∃ token role, Some ("Bearer " +:+ backend_key) = Some ("Bearer " +:+ token) ∧ secret_of sample_services role = Some token.
Proof.
  destruct (@storage_route_authorized model_hash model_hash_spec codec db unit no_pet no_migration sample_services
    (Some ("Bearer " +:+ backend_key)) claim_body state_0 storage_answer.1 storage_answer.2
    (surjective_pairing storage_answer) sample_secrets (or_intror storage_value)) as (token & role & Ht & Hs & _).
  exists token, role. split; [exact Ht|exact Hs].
Defined.

(** ** A relayed transaction *)

Definition sample_relay : RelayEnv.t :=
  RelayEnv.mk (Some "https://rpc") (Some tip_program) (Some "true") (Some "devnet").
Definition send_body : string :=
  default "" (print (obj [("method", VString "sendTransaction");
    ("params", VArray [VString (btoa (Wire.wire tip)); obj [("encoding", VString "base64")]])])).
Definition latin (bs : bytes) : string := text (map (λ b, code_char (byte_val b)) bs).
Definition sample_request : RelayRequest.t := RelayRequest.mk [text_encode send_body] (Some "10.0.0.1, 10.0.0.2") None.
Definition sample_upstream (r : RelayBody.t) : option (Z * list bytes) := Some (200, [text_encode "ok"]).
Definition no_limits : @table db RateLimit.t := ∅.
Abbreviation relayed := (@relay_route model_hash codec db latin sample_relay sample_request sample_upstream 120000 no_limits).

Lemma relayed_sent :
  ∃ reply t r, relayed = Ok (reply, t, Some r).
Proof.
  assert (match relayed with Ok (_, _, Some _) => true | _ => false end = true) as E by (by vm_compute).
  destruct relayed as [[[reply t] [r|]]|]; try done. by exists reply, t, r.
Qed.

Lemma no_rows : @keyed db RateLimit.t RateLimit.key no_limits.
Proof. apply unique_on_empty. Qed.

Lemma relay_forwards_witness :
  ∃ (r : RelayBody.t) programId, sample_relay.(RelayEnv.programId) = Some programId ∧
    narrow programId r.(RelayBody.method) r.(RelayBody.params).
Proof.
  destruct relayed_sent as (reply & t & r & E).
  destruct (@relay_forwards model_hash codec db db_spec latin sample_relay sample_request sample_upstream 120000 no_limits reply t (Some r)
    no_rows E) as (_ & _ & _ & _ & Hn & _).
  exists r. exact Hn.
Defined.
