(* ===== verification/Signed.v ===== *)
(** * Signed documents

    What payment requests, mandate requests and delivery attestations share: the
    Ed25519 operations of Web Crypto as the interface [Ed25519], with the laws of
    RFC 8032 and RFC 8037 in [Ed25519Spec], and the round trip of JSON texts as
    the interface [JsonSpec].  Both have an instance, over which the examples of
    the documents are stated. *)
From Stdlib Require Import ZArith Lia Strings.Byte Strings.Ascii.
From stdpp Require Import base numbers sets strings list.
From S2P Require Import Prelude Bytes PublicKey Decimal Base64 CardConstants CardPda Utf8 CardCommitment Values.

(** ** Objects of unknown type *)

(** [typeof v === "object" && v !== null && !Array.isArray(v)]; a field list
    holds the own keys in the order of [Object.keys]. *)
Definition plain_object (v : value) : option (list (string * value)) :=
  match v with VObject fields => Some fields | _ => None end.

Definition isPlainObject (v : value) : bool :=
  match plain_object v with Some _ => true | None => false end.

(** [Object.keys(value).filter((key) => !allowed.includes(key))] *)
Definition unknownKeys (fields : list (string * value)) (allowed : list string) : list string :=
  filter (λ key, key ∉ allowed) fields.*1.

(** A field that the declared type says is a string *)
Definition as_string (v : value) : string := match v with VString s => s | _ => "" end.

(** [...(x === undefined ? {} : { name: x })] *)
Definition present (name : string) (x : option string) : list (string * value) :=
  match x with Some s => [(name, VString s)] | None => [] end.

Definition as_optional (v : value) : option string := match v with VString s => Some s | _ => None end.
Definition optional_value (x : option string) : value := match x with Some s => VString s | None => VUndefined end.
Definition undefined (v : value) : bool := match v with VUndefined => true | _ => false end.

(** ** Texts of digits *)

(** One or more digits *)
Definition all_digits (s : string) : bool := negb (bool_decide (s = "")) && forallb is_digit (chars s).

(** Digits, with digits after a point or without: the parts around the point *)
Definition split_amount (s : string) : option (list ascii * list ascii) :=
  let '(whole, rest) := break_at "."%char (chars s) in
  let digits cs := negb (bool_decide (cs = [])) && forallb is_digit cs in
  if negb (digits whole) then None
  else match rest with
       | [] => Some (whole, [])
       | _ :: fraction => if digits fraction then Some (whole, fraction) else None
       end.

(** ** JSON *)

Definition index_like (key : string) : bool :=
  match chars key with c :: _ => is_digit c | [] => false end.

(** Values that survive [JSON.stringify] and [JSON.parse], with the order of
    their keys: no undefined, no number but a safe natural one, keys distinct
    and none that reads as an array index. *)
Fixpoint json (v : value) : bool :=
  match v with
  | VNull | VBool _ | VString _ => true
  | VNumber (JInt z) => (0 <=? z) && (z <=? 9007199254740991)
  | VArray items => forallb json items
  | VObject fields =>
      bool_decide (NoDup fields.*1) && forallb (λ f, negb (index_like f.1) && json f.2) fields
  | VNumber _ | VUndefined | VLossless _ => false
  end.

Class JsonSpec (C : Codec) : Prop := {
  json_roundtrip v : json v = true → JSON_parse (JSON_stringify v) = Some v;
  json_object fields : JSON_stringify (VObject fields) ≠ "";
}.

Lemma json_inj `{JsonSpec} v w :
  json v = true → json w = true → JSON_stringify v = JSON_stringify w → v = w.
Proof. intros Hv Hw E. apply json_roundtrip in Hv, Hw. rewrite E, Hw in Hv. by injection Hv. Qed.

(** ** Ed25519 *)

Class Ed25519 : Type := {
  private_key : Type;
  (** [importKey("pkcs8", bytes, { name: "Ed25519" }, ...)] *)
  import_pkcs8 : bytes → result private_key;
  (** [exportKey("jwk", key).x] *)
  jwk_x : private_key → option string;
  (** [sign("Ed25519", key, message)] *)
  ed_sign : private_key → bytes → bytes;
  (** [importKey("raw", publicKey, ...)], then [verify("Ed25519", key, signature, message)] *)
  ed_verify : bytes → bytes → bytes → result bool;
}.

(** The PKCS #8 form of a seed (RFC 8410) *)
Definition ED25519_PKCS8_PREFIX : bytes :=
  bytes_of_Zs [0x30; 0x2e; 0x02; 0x01; 0x00; 0x30; 0x05; 0x06; 0x03; 0x2b; 0x65; 0x70; 0x04; 0x22; 0x04; 0x20].

(** A seed has a key pair: the public key is 32 bytes, signatures are 64, and
    the public key accepts what the private key signed. *)
Class Ed25519Spec (E : Ed25519) : Prop :=
  ed_pair seed : length seed = 32%nat → ∃ key public,
    import_pkcs8 (ED25519_PKCS8_PREFIX ++ seed) = Ok key ∧
    jwk_x key = Some (bytesToBase64Url public) ∧ length public = 32%nat ∧
    ∀ message, length (ed_sign key message) = 64%nat ∧ ed_verify public (ed_sign key message) message = Ok true.

Definition ed25519Seed (secretKey : bytes) : result bytes :=
  if Nat.eqb (length secretKey) 32 then Ok secretKey
  else if Nat.eqb (length secretKey) 64 then Ok (take 32 secretKey)
  else Throw "Ed25519 secret key must be 32 or 64 bytes".

Definition pkcs8FromSeed (seed : bytes) : bytes := ED25519_PKCS8_PREFIX ++ seed.

Lemma ed25519Seed_length sk seed : ed25519Seed sk = Ok seed → length seed = 32%nat.
Proof.
  unfold ed25519Seed. destruct (Nat.eqb (length sk) 32) eqn:E; [apply Nat.eqb_eq in E; by intros [= <-]|].
  destruct (Nat.eqb (length sk) 64) eqn:E'; [|done]. apply Nat.eqb_eq in E'. intros [= <-].
  rewrite length_take. lia.
Qed.

(** [sha256Hex]: the digest as lowercase hex *)
Definition sha256Hex `{Sha256} (message : bytes) : string := bytesToHex (sha256 message).

(** ** Field lists *)

Lemma plain_object_ok v fields : plain_object v = Some fields ↔ v = VObject fields.
Proof. split; [|by intros ->]. destruct v; try done. by intros [= ->]. Qed.

Lemma strict_eq_string v s : strict_eq v (VString s) = true ↔ v = VString s.
Proof.
  split; [|intros ->; cbn; by rewrite bool_decide_eq_true_2].
  destruct v as [| | |[]| | | |]; cbn; try discriminate. intros E. bool_reflect. by subst.
Qed.

Lemma strict_eq_int v z : strict_eq v (VNumber (JInt z)) = true ↔ v = VNumber (JInt z).
Proof.
  split; [|intros ->; cbn; by rewrite Z.eqb_refl].
  destruct v as [| | |[]| | | |]; cbn; try discriminate. intros E. bool_reflect. by subst.
Qed.

Lemma field_absent fields name : name ∉ fields.*1 → field fields name = VUndefined.
Proof.
  induction fields as [|[k v] fields IH]; [done|]. rewrite fmap_cons, not_elem_of_cons. intros [Hk Hn].
  cbn in *. rewrite bool_decide_eq_false_2 by (intros ->; done). by apply IH.
Qed.

Lemma field_app a b name :
  field (a ++ b) name = if bool_decide (name ∈ a.*1) then field a name else field b name.
Proof.
  induction a as [|[k v] a IH]; [by rewrite bool_decide_eq_false_2 by (apply not_elem_of_nil)|].
  cbn [app field fmap list_fmap fst]. destruct (decide (k = name)) as [->|Hne].
  - rewrite !bool_decide_eq_true_2; [done|by left|done].
  - rewrite (bool_decide_eq_false_2 (k = name)), IH by done.
    rewrite (bool_decide_ext (name ∈ k :: a.*1) (name ∈ a.*1)); [done|].
    rewrite elem_of_cons. split; [by intros [->|]|by right].
Qed.

(** Without the fields that are undefined *)
Definition defined_fields (fields : list (string * value)) : list (string * value) :=
  filter (λ f, undefined f.2 = false) fields.

Lemma defined_keys fields k : k ∈ (defined_fields fields).*1 → k ∈ fields.*1.
Proof.
  intros (f & -> & Hf)%list_elem_of_fmap. apply list_elem_of_filter in Hf as [_ Hf].
  by apply list_elem_of_fmap_2.
Qed.

Lemma field_defined fields k : NoDup fields.*1 → field (defined_fields fields) k = field fields k.
Proof.
  induction fields as [|[n v] fields IH]; [done|]. rewrite fmap_cons, NoDup_cons. intros [Hn Hd].
  unfold defined_fields in *. destruct (undefined v) eqn:E.
  - rewrite filter_cons_False by (cbn; by rewrite E). rewrite IH by done. cbn. case_bool_decide as Hk; [|done].
    subst. rewrite field_absent by done. by destruct v.
  - rewrite filter_cons_True by done. cbn. by rewrite IH.
Qed.

Lemma json_defined fields :
  NoDup fields.*1 → Forall (λ f, index_like f.1 = false ∧ (undefined f.2 = true ∨ json f.2 = true)) fields →
  json (VObject (defined_fields fields)) = true.
Proof.
  intros Hd Hf. cbn [json]. apply andb_true_iff. split.
  - apply bool_decide_eq_true_2. clear Hf. induction fields as [|[n v] fields IH]; [done|].
    rewrite fmap_cons, NoDup_cons in Hd. destruct Hd as [Hn Hd]. unfold defined_fields in *.
    destruct (undefined v) eqn:E; [rewrite filter_cons_False by (cbn; by rewrite E); auto|].
    rewrite filter_cons_True, fmap_cons by done. constructor; [|auto]. intros Hin. apply Hn. by apply defined_keys.
  - apply forallb_forall. intros f Hin%list_elem_of_In. apply list_elem_of_filter in Hin as [Hu Hin].
    rewrite Forall_forall in Hf. apply Hf in Hin as (Hi & [E|Hj]); [congruence|]. by rewrite Hi, Hj.
Qed.

Lemma unknownKeys_nil fields allowed : unknownKeys fields allowed = [] ↔ ∀ k, k ∈ fields.*1 → k ∈ allowed.
Proof.
  unfold unknownKeys. split.
  - intros E k Hk. destruct (decide (k ∈ allowed)) as [|Hn]; [done|].
    assert (k ∈ filter (λ key, key ∉ allowed) fields.*1) as Hin by (by apply list_elem_of_filter).
    rewrite E in Hin. by apply not_elem_of_nil in Hin.
  - intros Hall. destruct (filter _ _) as [|k l] eqn:E; [done|].
    assert (k ∈ filter (λ key, key ∉ allowed) fields.*1) as Hin by (rewrite E; by left).
    apply list_elem_of_filter in Hin as [Hn Hk]. by destruct (Hn (Hall _ Hk)).
Qed.

(** ** A codec with the round trip

    The texts of [TextCodec], with number tokens read as numbers. *)
Module JsonCodec.
Fixpoint numbers (v : value) : value :=
  match v with
  | VLossless token => VNumber (JInt (BigInt token))
  | VArray items => VArray (map numbers items)
  | VObject fields => VObject (map (λ f, (f.1, numbers f.2)) fields)
  | v => v
  end.

#[export] Instance codec : Codec := {
  parse := TextCodec.read;
  stringify := TextCodec.print;
  JSON_parse s := numbers <$> TextCodec.read s;
  JSON_stringify v := default "" (TextCodec.print v);
  Date_parse _ := JNaN;
}.

Lemma numbers_kept v : json v = true → numbers (TextCodec.kept v) = v.
Proof.
  induction v as [v Ha Ho|items IH|fields IH] using value_nested_ind; intros Hj.
  - destruct v as [| | |n|t|s|items|fields]; try done; [|by destruct (Ha items)|by destruct (Ho fields)].
    destruct n as [z| | |]; try done. cbn in Hj. bool_reflect. cbn [TextCodec.kept numbers coerce].
    unfold toString. destruct (z <? 0) eqn:E; bool_reflect; [lia|]. by rewrite BigInt_text.
  - cbn [json] in Hj. cbn [TextCodec.kept numbers]. f_equal. rewrite map_map. induction IH as [|v items Hv _ IH]; [done|].
    cbn [forallb] in Hj. apply andb_true_iff in Hj as [H1 H2]. cbn [map]. rewrite Hv by done. f_equal. by apply IH.
  - cbn [json] in Hj. apply andb_true_iff in Hj as [_ Hj]. cbn [TextCodec.kept numbers]. f_equal. rewrite map_map.
    induction IH as [|[k v] fields Hv _ IH]; [done|].
    cbn [forallb] in Hj. apply andb_true_iff in Hj as [[_ H1]%andb_true_iff H2]. cbn [map fst snd] in *.
    rewrite Hv by done. f_equal. by apply IH.
Qed.

#[export] Instance json_spec : JsonSpec codec.
Proof.
  split; [|by intros fields]. intros v Hj. assert (∃ s, TextCodec.print v = Some s) as [s Hs] by (destruct v; by eauto).
  change (numbers <$> TextCodec.read (default "" (TextCodec.print v)) = Some v). rewrite Hs.
  change (default "" (Some s)) with s. rewrite (TextCodec.read_print _ _ Hs). cbn. by rewrite numbers_kept.
Qed.
End JsonCodec.

(** ** A stand-in for Ed25519

    The public key is the seed and the signature a checksum: enough for the
    laws, and for the examples to be evaluated. *)
Module ModelEd25519.
Definition checksum (seed message : bytes) : bytes :=
  le_bytes 64 (foldl (λ acc b, Z.land (acc * 257 + byte_val b + 1) 18446744073709551615) 7 (seed ++ message)).

#[export] Instance keys : Ed25519 := {
  private_key := bytes;
  import_pkcs8 b :=
    if bool_decide (take 16 b = ED25519_PKCS8_PREFIX) && Nat.eqb (length b) 48 then Ok (drop 16 b)
    else Throw "Invalid keyData";
  jwk_x seed := Some (bytesToBase64Url seed);
  ed_sign := checksum;
  ed_verify public signature message := Ok (bool_decide (signature = checksum public message));
}.

#[export] Instance keys_spec : Ed25519Spec keys.
Proof.
  intros seed Hs. exists seed, seed.
  assert (length (ED25519_PKCS8_PREFIX ++ seed) = 48%nat) as Hl by (by rewrite length_app, Hs).
  destruct (take_drop_app_eq 16 ED25519_PKCS8_PREFIX seed eq_refl) as [Ht Hd].
  split; [unfold import_pkcs8, keys; by rewrite Hl, Ht, Hd, bool_decide_eq_true_2|].
  split; [done|]. split; [done|]. intros message. split; [apply le_bytes_length|]. cbn.
  by rewrite bool_decide_eq_true_2.
Qed.
End ModelEd25519.
