(* ===== verification/MandateRequest.v ===== *)
(** * Signed mandate requests (sdk/src/mandate-request.ts)

    A vendor or a builder asks for a spending permission with a signed payload
    that travels in a link: the parser of the payload, its canonical text, the
    signature, the link, and amounts typed by people. *)
From Stdlib Require Import ZArith Lia Strings.Byte Strings.Ascii.
From stdpp Require Import base numbers sets strings list.
From S2P Require Import Prelude Bytes PublicKey Types Encoding Decimal Base64 CardConstants CardMath CardPda Utf8 CardCommitment Values SupportParse Signed.

Inductive Cluster : Type := devnet | mainnet_beta.
Inductive MandateRequestRole : Type := vendor | grantee.

Module MandateRequestPayload.
Record t : Type := mk {
  cluster : Cluster;
  role : MandateRequestRole;
  requester : Address;
  requesterName : option string;
  agent : option Address;
  mint : Address;
  tokenProgram : TokenProgram;
  recipient : option Address;
  suggestedMaxPerPayment : string;
  suggestedTotal : string;
  decimals : Z;
  suggestedExpirySlot : option string;
  validUntilSlot : option string;
  description : string;
  poNumber : option string;
  nonce : string;
}.
End MandateRequestPayload.

Module SignedMandateRequest.
Record t : Type := mk { payload : MandateRequestPayload.t; signature : string }.
End SignedMandateRequest.

Module MandateRequestVerification.
Record t : Type := mk { valid : bool; payload : value; requestHash : string; reason : option string }.
End MandateRequestVerification.

Definition MANDATE_REQUEST_PATH : string := "/app/requests/permission".
Definition MANDATE_REQUEST_FRAGMENT_KEY : string := "req".
Definition MAX_REQUESTER_NAME_LENGTH : nat := 64.
Definition MAX_REQUEST_DESCRIPTION_LENGTH : nat := 280.
Definition MAX_PO_NUMBER_LENGTH : nat := 64.
Definition MAX_REQUEST_NONCE_LENGTH : nat := 128.
Definition NOMINAL_SLOTS_PER_DAY : Z := 216000.
Definition MAX_U64 : Z := 18446744073709551615.

Definition PAYLOAD_KEYS : list string :=
  ["version"; "cluster"; "role"; "requester"; "requesterName"; "agent"; "mint"; "tokenProgram"; "recipient";
   "suggestedMaxPerPayment"; "suggestedTotal"; "decimals"; "suggestedExpirySlot"; "validUntilSlot"; "description";
   "poNumber"; "nonce"].
Definition ENVELOPE_KEYS : list string := ["payload"; "signature"].

(** ** The literal types *)

Definition cluster_name (c : Cluster) : string := match c with devnet => "devnet" | mainnet_beta => "mainnet-beta" end.
Definition role_name (r : MandateRequestRole) : string := match r with vendor => "vendor" | grantee => "grantee" end.
Definition token_program_name (p : TokenProgram) : string :=
  match p with spl_token => "spl-token" | token_2022 => "token-2022" end.

Definition read_cluster (v : value) : option Cluster :=
  if strict_eq v (VString "devnet") then Some devnet
  else if strict_eq v (VString "mainnet-beta") then Some mainnet_beta else None.
Definition read_role (v : value) : option MandateRequestRole :=
  if strict_eq v (VString "vendor") then Some vendor
  else if strict_eq v (VString "grantee") then Some grantee else None.
Definition read_token_program (v : value) : option TokenProgram :=
  if strict_eq v (VString "spl-token") then Some spl_token
  else if strict_eq v (VString "token-2022") then Some token_2022 else None.

(** ** The canonical text *)

Definition orderedPayload (p : MandateRequestPayload.t) : value :=
  VObject (
    [("version", VNumber (JInt 1));
     ("cluster", VString (cluster_name p.(MandateRequestPayload.cluster)));
     ("role", VString (role_name p.(MandateRequestPayload.role)));
     ("requester", VString p.(MandateRequestPayload.requester))]
    ++ present "requesterName" p.(MandateRequestPayload.requesterName)
    ++ present "agent" p.(MandateRequestPayload.agent)
    ++ [("mint", VString p.(MandateRequestPayload.mint));
        ("tokenProgram", VString (token_program_name p.(MandateRequestPayload.tokenProgram)))]
    ++ present "recipient" p.(MandateRequestPayload.recipient)
    ++ [("suggestedMaxPerPayment", VString p.(MandateRequestPayload.suggestedMaxPerPayment));
        ("suggestedTotal", VString p.(MandateRequestPayload.suggestedTotal));
        ("decimals", VNumber (JInt p.(MandateRequestPayload.decimals)))]
    ++ present "suggestedExpirySlot" p.(MandateRequestPayload.suggestedExpirySlot)
    ++ present "validUntilSlot" p.(MandateRequestPayload.validUntilSlot)
    ++ [("description", VString p.(MandateRequestPayload.description))]
    ++ present "poNumber" p.(MandateRequestPayload.poNumber)
    ++ [("nonce", VString p.(MandateRequestPayload.nonce))]).

Definition canonicalMandateRequest `{Codec} (p : MandateRequestPayload.t) : string :=
  JSON_stringify (orderedPayload p).

(** ** The fields *)

Definition characterCount (s : string) : nat := String.length s.

(** [/[\u0000-\u001f\u007f]/.test(s)] *)
Definition has_control (s : string) : bool :=
  existsb (λ c, (char_code c <=? 31) || (char_code c =? 127)) (chars s).

(** The pattern of an unsigned integer without leading zeros *)
Definition canonical_uint (s : string) : bool :=
  match chars s with
  | [] => false
  | [c] => is_digit c
  | c :: _ => forallb is_digit (chars s) && negb (bool_decide (c = "0"%char))
  end.

Definition canonicalAddress `{PublicKeys} (v : value) (name : string) : result Address :=
  match v with
  | VString s =>
      match address s with
      | Ok parsed =>
          throw_if! negb (bool_decide (parsed = s)) with name +:+ " must be a canonical Solana address";
          Ok parsed
      | Throw _ => Throw (name +:+ " must be a Solana address")
      end
  | _ => Throw (name +:+ " must be a Solana address")
  end.

Definition u64String (v : value) (name : string) (positive : bool) : result Z :=
  match v with
  | VString s =>
      throw_if! negb (canonical_uint s) with name +:+ " must be an unsigned integer string";
      let parsed := BigInt s in
      throw_if! MAX_U64 <? parsed with name +:+ " must fit in u64";
      throw_if! positive && (parsed =? 0) with name +:+ " must be greater than zero";
      Ok parsed
  | _ => Throw (name +:+ " must be an unsigned integer string")
  end.

Definition boundedText (v : value) (name : string) (max : nat) (required : bool) : result unit :=
  match v with
  | VUndefined => throw_if! required with name +:+ " must be text"; Ok tt
  | VString s =>
      throw_if! bool_decide (trim s = "") with name +:+ " must not be empty";
      throw_if! negb (bool_decide (s = trim s)) with name +:+ " must not start or end with spaces";
      throw_if! Nat.ltb max (characterCount s)
        with name +:+ " must be at most " +:+ toString (Z.of_nat max) +:+ " characters";
      throw_if! has_control s with name +:+ " must not contain control characters";
      Ok tt
  | _ => Throw (name +:+ " must be text")
  end.

(** [typeof v !== "number" || !Number.isInteger(v) || v < 0 || v > 255] *)
Definition byte_number (v : value) : option Z :=
  match v with VNumber n => if out_of_range n 0 255 then None else Some (bigint_of n) | _ => None end.

(** [value as MandateRequestPayload], once the literal fields are known *)
Definition cast_payload (v : value) (cluster : Cluster) (role : MandateRequestRole) (tokenProgram : TokenProgram)
    (decimals : Z) : MandateRequestPayload.t :=
  MandateRequestPayload.mk cluster role (as_string (get v "requester")) (as_optional (get v "requesterName"))
    (as_optional (get v "agent")) (as_string (get v "mint")) tokenProgram (as_optional (get v "recipient"))
    (as_string (get v "suggestedMaxPerPayment")) (as_string (get v "suggestedTotal")) decimals
    (as_optional (get v "suggestedExpirySlot")) (as_optional (get v "validUntilSlot"))
    (as_string (get v "description")) (as_optional (get v "poNumber")) (as_string (get v "nonce")).

Definition optional_u64 (v : value) (name : string) : result unit :=
  if undefined v then Ok tt else let! _ := u64String v name true in Ok tt.

(** The key a role names, and the one it must not *)
Definition check_role `{PublicKeys} (v : value) (role : MandateRequestRole) : result unit :=
  match role with
  | vendor =>
      let! _ := canonicalAddress (get v "recipient") "recipient" in
      throw_if! negb (undefined (get v "agent")) with "A vendor request must not name an agent"; Ok tt
  | grantee =>
      let! _ := canonicalAddress (get v "agent") "agent" in
      throw_if! negb (undefined (get v "recipient")) with "A budget request must not name a recipient"; Ok tt
  end.

Definition check_texts (v : value) : result unit :=
  let! _ := boundedText (get v "requesterName") "requesterName" MAX_REQUESTER_NAME_LENGTH false in
  let! _ := boundedText (get v "description") "description" MAX_REQUEST_DESCRIPTION_LENGTH true in
  let! _ := boundedText (get v "poNumber") "poNumber" MAX_PO_NUMBER_LENGTH false in
  boundedText (get v "nonce") "nonce" MAX_REQUEST_NONCE_LENGTH true.

Definition check_limits (v : value) : result unit :=
  let! perPayment := u64String (get v "suggestedMaxPerPayment") "suggestedMaxPerPayment" true in
  let! total := u64String (get v "suggestedTotal") "suggestedTotal" true in
  throw_if! total <? perPayment with "suggestedTotal must be at least suggestedMaxPerPayment";
  Ok tt.

Definition parseMandateRequestPayload `{PublicKeys} (v : value) : result MandateRequestPayload.t :=
  match plain_object v with
  | None => Throw "Mandate request payload must be an object"
  | Some fields =>
      match unknownKeys fields PAYLOAD_KEYS with
      | extra :: _ => Throw ("Unknown mandate request field: " +:+ extra)
      | [] =>
          throw_if! negb (strict_eq (get v "version") (VNumber (JInt 1))) with "Unsupported mandate request version";
          match read_cluster (get v "cluster") with
          | None => Throw "Unsupported Solana cluster"
          | Some cluster =>
          match read_role (get v "role") with
          | None => Throw "Role must be vendor or grantee"
          | Some role =>
          match read_token_program (get v "tokenProgram") with
          | None => Throw "Unsupported token program"
          | Some tokenProgram =>
              let! _ := canonicalAddress (get v "requester") "requester" in
              let! _ := canonicalAddress (get v "mint") "mint" in
              let! _ := check_role v role in
              let! _ := check_texts v in
              let! _ := check_limits v in
              match byte_number (get v "decimals") with
              | None => Throw "decimals must be an integer between 0 and 255"
              | Some decimals =>
                  let! _ := optional_u64 (get v "suggestedExpirySlot") "suggestedExpirySlot" in
                  let! _ := optional_u64 (get v "validUntilSlot") "validUntilSlot" in
                  Ok (cast_payload v cluster role tokenProgram decimals)
              end
          end end end
      end
  end.

Definition parseSignedMandateRequest `{PublicKeys} (v : value) : result SignedMandateRequest.t :=
  match plain_object v with
  | None => Throw "Mandate request must be an object"
  | Some fields =>
      match unknownKeys fields ENVELOPE_KEYS with
      | extra :: _ => Throw ("Unknown mandate request envelope field: " +:+ extra)
      | [] =>
          match get v "signature" with
          | VString signature =>
              let! payload := parseMandateRequestPayload (get v "payload") in
              Ok (SignedMandateRequest.mk payload signature)
          | _ => Throw "Mandate request signature is required"
          end
      end
  end.

(** ** Signatures *)

Section Signatures.
Context `{K : PublicKeys, E : Ed25519, H : Sha256, C : Codec}.

Definition invalid (payload : value) (reason requestHash : string) : MandateRequestVerification.t :=
  MandateRequestVerification.mk false payload requestHash (Some reason).

(** [slot !== undefined && BigInt(slot) <= currentSlot] *)
Definition passed (slot : option string) (currentSlot : Z) : bool :=
  match slot with Some s => BigInt s <=? currentSlot | None => false end.

(** [base64UrlToBytes(signed.signature)] and the checks of the signature *)
Definition check_signature (payload : MandateRequestPayload.t) (signature : string) (message : bytes) : result unit :=
  match base64UrlToBytes signature with
  | Throw _ => Throw "Signature must be base64url"
  | Ok signature =>
      throw_if! negb (Nat.eqb (length signature) 64) with "Ed25519 signature must be 64 bytes";
      let! key := newPublicKey payload.(MandateRequestPayload.requester) in
      let! ok := ed_verify key signature message in
      throw_if! negb ok with "Mandate request signature is invalid";
      Ok tt
  end.

Definition check_slots (payload : MandateRequestPayload.t) (currentSlot : option Z) : result unit :=
  match currentSlot with
  | None => Ok tt
  | Some slot =>
      throw_if! passed payload.(MandateRequestPayload.validUntilSlot) slot with "This request link has expired";
      throw_if! passed payload.(MandateRequestPayload.suggestedExpirySlot) slot
        with "The suggested expiry has already passed";
      Ok tt
  end.

Definition verifyMandateRequest (request : value) (currentSlot : option Z) : MandateRequestVerification.t :=
  let raw := if isPlainObject request then request else VObject [] in
  let rawPayload := if isPlainObject (get raw "payload") then get raw "payload" else VObject [] in
  match parseSignedMandateRequest request with
  | Throw e => invalid rawPayload e ""
  | Ok signed =>
      let payload := signed.(SignedMandateRequest.payload) in
      let message := text_encode (canonicalMandateRequest payload) in
      let requestHash := sha256Hex message in
      match check_slots payload currentSlot with
      | Throw e => invalid (orderedPayload payload) e requestHash
      | Ok _ =>
          match check_signature payload signed.(SignedMandateRequest.signature) message with
          | Throw e => invalid (orderedPayload payload) e requestHash
          | Ok _ => MandateRequestVerification.mk true (orderedPayload payload) requestHash None
          end
      end
  end.

Definition signMandateRequest (payload : value) (secretKey : bytes) : result SignedMandateRequest.t :=
  let! parsed := parseMandateRequestPayload payload in
  let! seed := ed25519Seed secretKey in
  let! key := import_pkcs8 (pkcs8FromSeed seed) in
  let! public := base64UrlToBytes (default "" (jwk_x key)) in
  let signer := toBase58 public in
  throw_if! negb (bool_decide (signer = parsed.(MandateRequestPayload.requester)))
    with "Signing key does not match the requester";
  let message := text_encode (canonicalMandateRequest parsed) in
  Ok (SignedMandateRequest.mk parsed (bytesToBase64Url (ed_sign key message))).

(** ** Links *)

(** [{ payload: orderedPayload(signed.payload), signature: signed.signature }] *)
Definition signed_value (signed : SignedMandateRequest.t) : value :=
  VObject [("payload", orderedPayload signed.(SignedMandateRequest.payload));
           ("signature", VString signed.(SignedMandateRequest.signature))].

(** [.replace(/\/+$/, "")] *)
Definition drop_slashes (s : string) : string :=
  text (reverse (drop_while (λ c, bool_decide (c = "/"%char)) (reverse (chars s)))).

Definition encodeMandateRequestLink (signed : SignedMandateRequest.t) (appBaseUrl : string) : result string :=
  let origin := drop_slashes (trim appBaseUrl) in
  throw_if! bool_decide (origin = "") with "App URL is required";
  let body := JSON_stringify (signed_value signed) in
  Ok (origin +:+ MANDATE_REQUEST_PATH +:+ "#" +:+ MANDATE_REQUEST_FRAGMENT_KEY +:+ "="
        +:+ bytesToBase64Url (text_encode body)).

Definition contains_char (c : ascii) (s : string) : bool := existsb (λ d, bool_decide (d = c)) (chars s).

(** What follows the first ["#"], or all of it *)
Definition fragment_of (url : string) : string :=
  match (break_at "#"%char (chars url)).2 with _ :: rest => text rest | [] => url end.

Definition decodeMandateRequestLink (urlOrFragment : string) : result SignedMandateRequest.t :=
  let fragment := fragment_of (trim urlOrFragment) in
  let encoded :=
    if contains_char "="%char fragment then default "" (search_param fragment MANDATE_REQUEST_FRAGMENT_KEY)
    else fragment in
  throw_if! bool_decide (encoded = "") with "No mandate request in this link";
  let parsed :=
    match base64UrlToBytes encoded with
    | Ok bs => text ← utf8_decode bs; JSON_parse text
    | Throw _ => None
    end in
  match parsed with
  | None => Throw "This mandate request link is damaged"
  | Some parsed => parseSignedMandateRequest parsed
  end.
End Signatures.

(** ** Amounts *)

Definition parseHumanTokenAmount (s : string) (decimals : number) : result string :=
  let normalized := trim s in
  throw_if! out_of_range decimals 0 255 with "decimals must be an integer between 0 and 255";
  let d := bigint_of decimals in
  match split_amount normalized with
  | None => Throw ("Not a token amount: " +:+ s)
  | Some (whole, fraction) =>
      throw_if! d <? Z.of_nat (length fraction)
        with "This mint allows " +:+ toString d +:+ " decimal places";
      let padded := fraction ++ replicate (Z.to_nat d - length fraction) "0"%char in
      let units := chars_value whole * 10 ^ d + chars_value padded in
      throw_if! MAX_U64 <? units with "Amount is too large for a token account";
      Ok (toString units)
  end.

Definition formatHumanTokenAmount (baseUnits : string) (decimals : Z) : result string :=
  let! amount := string_bigint baseUnits in
  if decimals =? 0 then Ok (toString amount)
  else
    throw_if! decimals <? 0 with "RangeError";
    let scale := 10 ^ decimals in
    let whole := Z.quot amount scale in
    let fraction := Z.rem amount scale in
    Ok (if fraction =? 0 then toString whole
        else toString whole +:+ "."
             +:+ text (strip_trailing_zeros (padStart (Z.to_nat decimals) (chars (toString fraction))))).

(** ** Building a payload *)

Module BuildMandateRequestInput.
Record t : Type := mk {
  role : MandateRequestRole;
  cluster : option Cluster;
  requester : Address;
  requesterName : option string;
  agent : option Address;
  mint : Address;
  tokenProgram : TokenProgram;
  recipient : option Address;
  maxPerPayment : option string;
  total : string;
  decimals : number;
  currentSlot : Z;
  days : number;
  linkValidDays : option number;
  description : string;
  poNumber : option string;
  nonce : option string;
}.
End BuildMandateRequestInput.

Definition wholeDays (n : number) (name : string) : result Z :=
  throw_if! out_of_range n 1 3650 with name +:+ " must be a whole number of days from 1 to 3650";
  Ok (bigint_of n).

(** [...(x ? { name: x.trim() } : {})] *)
Definition trimmed_text (name : string) (x : option string) : list (string * value) :=
  match x with
  | Some s => if bool_decide (s = "") then [] else [(name, VString (trim s))]
  | None => []
  end.

(** [entropy] is what [getRandomValues] put in the 16 bytes of the nonce. *)
Definition buildMandateRequestPayload `{PublicKeys} (input : BuildMandateRequestInput.t) (entropy : bytes) :
    result MandateRequestPayload.t :=
  let! days := wholeDays input.(BuildMandateRequestInput.days) "days" in
  let! linkDays := wholeDays (default (JInt 7) input.(BuildMandateRequestInput.linkValidDays)) "link validity" in
  let total := input.(BuildMandateRequestInput.total) in
  let slot := input.(BuildMandateRequestInput.currentSlot) in
  parseMandateRequestPayload (VObject (
    [("version", VNumber (JInt 1));
     ("cluster", VString (cluster_name (default devnet input.(BuildMandateRequestInput.cluster))));
     ("role", VString (role_name input.(BuildMandateRequestInput.role)));
     ("requester", VString input.(BuildMandateRequestInput.requester))]
    ++ trimmed_text "requesterName" input.(BuildMandateRequestInput.requesterName)
    ++ match input.(BuildMandateRequestInput.role) with
       | grantee => [("agent", optional_value input.(BuildMandateRequestInput.agent))]
       | vendor => []
       end
    ++ [("mint", VString input.(BuildMandateRequestInput.mint));
        ("tokenProgram", VString (token_program_name input.(BuildMandateRequestInput.tokenProgram)))]
    ++ match input.(BuildMandateRequestInput.role) with
       | vendor => [("recipient", optional_value input.(BuildMandateRequestInput.recipient))]
       | grantee => []
       end
    ++ [("suggestedMaxPerPayment", VString (default total input.(BuildMandateRequestInput.maxPerPayment)));
        ("suggestedTotal", VString total);
        ("decimals", VNumber input.(BuildMandateRequestInput.decimals));
        ("suggestedExpirySlot", VString (toString (slot + days * NOMINAL_SLOTS_PER_DAY)));
        ("validUntilSlot", VString (toString (slot + linkDays * NOMINAL_SLOTS_PER_DAY)));
        ("description", VString (trim input.(BuildMandateRequestInput.description)))]
    ++ trimmed_text "poNumber" input.(BuildMandateRequestInput.poNumber)
    ++ [("nonce", VString (default (bytesToBase64Url entropy) input.(BuildMandateRequestInput.nonce)))])).

(** [daysFrom]: how the summary words a slot *)
Definition daysFrom (slot : option string) (currentSlot : Z) : result (option string) :=
  match slot with
  | None => Ok None
  | Some slot =>
      let! n := string_bigint slot in
      let remaining := n - currentSlot in
      if remaining <=? 0 then Ok (Some "0 days")
      else
        let days := Z.quot (remaining + Z.quot NOMINAL_SLOTS_PER_DAY 2) NOMINAL_SLOTS_PER_DAY in
        Ok (Some (if days =? 1 then "1 day" else toString days +:+ " days"))
  end.
