(* ===== verification/MandateRequestProps.v ===== *)
(** * What a signed mandate request proves

    Which payloads are accepted, what a valid request binds, and that a signed
    request survives its link. *)
From Stdlib Require Import ZArith Lia Strings.Byte Strings.Ascii.
From stdpp Require Import base numbers sets strings list.
From S2P Require Import Prelude Bytes PublicKey Types Encoding Decimal Base64 CardConstants CardMath CardPda Utf8 CardCommitment Values SupportParse Signed MandateRequest.

(** ** Well-formed payloads *)

Definition amount_text (s : string) : Prop := canonical_uint s = true ∧ 0 < BigInt s <= MAX_U64.

Definition bounded (max : nat) (s : string) : Prop :=
  s ≠ "" ∧ trim s = s ∧ (String.length s <= max)%nat ∧ has_control s = false.

Definition on_some {A} (P : A → Prop) (x : option A) : Prop := ∀ a, x = Some a → P a.

(** What [MandateRequestPayload] says in its comments *)
Record well_formed `{PublicKeys} (p : MandateRequestPayload.t) : Prop := {
  wf_requester : valid_address p.(MandateRequestPayload.requester);
  wf_mint : valid_address p.(MandateRequestPayload.mint);
  wf_role : match p.(MandateRequestPayload.role) with
    | vendor => (∃ a, p.(MandateRequestPayload.recipient) = Some a ∧ valid_address a) ∧ p.(MandateRequestPayload.agent) = None
    | grantee => (∃ a, p.(MandateRequestPayload.agent) = Some a ∧ valid_address a) ∧ p.(MandateRequestPayload.recipient) = None
    end;
  wf_name : on_some (bounded 64) p.(MandateRequestPayload.requesterName);
  wf_description : bounded 280 p.(MandateRequestPayload.description);
  wf_po : on_some (bounded 64) p.(MandateRequestPayload.poNumber);
  wf_nonce : bounded 128 p.(MandateRequestPayload.nonce);
  wf_max : amount_text p.(MandateRequestPayload.suggestedMaxPerPayment);
  wf_total : amount_text p.(MandateRequestPayload.suggestedTotal);
  wf_limits : BigInt p.(MandateRequestPayload.suggestedMaxPerPayment) <= BigInt p.(MandateRequestPayload.suggestedTotal);
  wf_decimals : 0 <= p.(MandateRequestPayload.decimals) <= 255;
  wf_expiry : on_some amount_text p.(MandateRequestPayload.suggestedExpirySlot);
  wf_until : on_some amount_text p.(MandateRequestPayload.validUntilSlot);
}.

(** ** The fields of the canonical object *)

Definition payload_fields (p : MandateRequestPayload.t) : list (string * value) :=
  [("version", VNumber (JInt 1)); ("cluster", VString (cluster_name p.(MandateRequestPayload.cluster)));
   ("role", VString (role_name p.(MandateRequestPayload.role)));
   ("requester", VString p.(MandateRequestPayload.requester));
   ("requesterName", optional_value p.(MandateRequestPayload.requesterName));
   ("agent", optional_value p.(MandateRequestPayload.agent)); ("mint", VString p.(MandateRequestPayload.mint));
   ("tokenProgram", VString (token_program_name p.(MandateRequestPayload.tokenProgram)));
   ("recipient", optional_value p.(MandateRequestPayload.recipient));
   ("suggestedMaxPerPayment", VString p.(MandateRequestPayload.suggestedMaxPerPayment));
   ("suggestedTotal", VString p.(MandateRequestPayload.suggestedTotal));
   ("decimals", VNumber (JInt p.(MandateRequestPayload.decimals)));
   ("suggestedExpirySlot", optional_value p.(MandateRequestPayload.suggestedExpirySlot));
   ("validUntilSlot", optional_value p.(MandateRequestPayload.validUntilSlot));
   ("description", VString p.(MandateRequestPayload.description));
   ("poNumber", optional_value p.(MandateRequestPayload.poNumber));
   ("nonce", VString p.(MandateRequestPayload.nonce))].

Ltac each_optional p :=
  destruct p as [? ? ? [] [] ? ? [] ? ? ? [] [] ? [] ?].

Definition object_fields (v : value) : list (string * value) := default [] (plain_object v).

Lemma ordered_filter p : orderedPayload p = VObject (defined_fields (payload_fields p)).
Proof. each_optional p; reflexivity. Qed.

Lemma ordered_get p k : get (orderedPayload p) k = field (payload_fields p) k.
Proof. rewrite ordered_filter. by apply field_defined, (bool_decide_unpack _). Qed.

Lemma ordered_keys p k : k ∈ (object_fields (orderedPayload p)).*1 → k ∈ PAYLOAD_KEYS.
Proof. rewrite ordered_filter. apply defined_keys. Qed.

Lemma ordered_json p : 0 <= p.(MandateRequestPayload.decimals) <= 255 → json (orderedPayload p) = true.
Proof.
  intros Hd. rewrite ordered_filter. apply json_defined; [by apply (bool_decide_unpack _)|].
  unfold payload_fields. repeat (apply Forall_cons; split); [..|by apply Forall_nil]; (split; [reflexivity|]); cbn [snd];
    first [by right | match goal with |- context [optional_value ?x] => destruct x; [by right|by left] end
          | right; cbn -[Z.leb]; lia].
Qed.

(** ** One check at a time *)

Section Checks.
Context `{K : PublicKeys, KS : !PublicKeysSpec K}.

Lemma canonicalAddress_ok v name a : canonicalAddress v name = Ok a ↔ v = VString a ∧ valid_address a.
Proof.
  unfold canonicalAddress. split.
  - destruct v as [| | | | |s| |]; try done. destruct (address s) as [p|] eqn:E; [|done].
    apply address_ok in E as [-> Hv]. rewrite bool_decide_eq_true_2 by done. by intros [= <-].
  - intros [-> Hv]. rewrite address_valid by done. by rewrite bool_decide_eq_true_2.
Qed.

Lemma canonical_uint_bound s : canonical_uint s = true → 0 <= BigInt s.
Proof.
  unfold canonical_uint, BigInt. intros H.
  apply chars_value_bound. destruct (chars s) as [|c [|d cs]]; [done|by cbn; rewrite H|by bool_reflect].
Qed.

Lemma u64String_ok v name n : u64String v name true = Ok n ↔ ∃ s, v = VString s ∧ amount_text s ∧ n = BigInt s.
Proof.
  unfold u64String, amount_text. split.
  - destruct v as [| | | | |s| |]; try done. intros H. cbv zeta in H. inv_ok H. exists s. subst.
    cbn [andb] in *. bool_reflect. pose proof (canonical_uint_bound _ G). repeat split; [done|lia..].
  - intros (s & -> & (Hc & Hb) & ->). rewrite Hc. cbn [negb]. cbv zeta.
    rewrite (proj2 (Z.ltb_ge _ _)) by lia. cbn [andb]. by rewrite (proj2 (Z.eqb_neq _ _)) by lia.
Qed.

Lemma boundedText_string s name max required : bounded max s → boundedText (VString s) name max required = Ok tt.
Proof.
  intros (Hne & Ht & Hl & Hc). unfold boundedText, characterCount.
  rewrite !bool_decide_eq_false_2, bool_decide_eq_true_2 by congruence. cbn [negb].
  by rewrite (proj2 (Nat.ltb_ge _ _)), Hc by lia.
Qed.

Lemma boundedText_ok v name max required u :
  boundedText v name max required = Ok u → (v = VUndefined ∧ required = false) ∨ ∃ s, v = VString s ∧ bounded max s.
Proof.
  destruct v as [| | | | |s| |]; cbn; try done; intros H; inv_ok H; [by left|right].
  exists s. bool_reflect. apply Nat.ltb_ge in G1. split; [done|]. unfold bounded. split_and!; [congruence|done..].
Qed.

Lemma boundedText_required v name max u :
  boundedText v name max true = Ok u → ∃ s, v = VString s ∧ bounded max s.
Proof. by intros [[_ ?]|?]%boundedText_ok. Qed.

Lemma boundedText_optional v name max u :
  boundedText v name max false = Ok u → v = optional_value (as_optional v) ∧ on_some (bounded max) (as_optional v).
Proof. intros [[-> _]|(s & -> & Hs)]%boundedText_ok; (split; [done|]); [by intros ?|by intros ? [= <-]]. Qed.

Lemma optional_u64_ok v name u :
  optional_u64 v name = Ok u → v = optional_value (as_optional v) ∧ on_some amount_text (as_optional v).
Proof.
  unfold optional_u64. destruct (undefined v) eqn:Eu.
  - by destruct v.
  - intros H. inv_ok H. apply u64String_ok in E as (s & -> & Hs & _). split; [done|]. by intros ? [= <-].
Qed.

Lemma undefined_true v : undefined v = true → v = VUndefined.
Proof. by destruct v. Qed.

Lemma read_cluster_ok v c : read_cluster v = Some c ↔ v = VString (cluster_name c).
Proof.
  unfold read_cluster. split.
  - destruct (strict_eq v (VString "devnet")) eqn:E1; [apply strict_eq_string in E1; by intros [= <-]|].
    destruct (strict_eq v (VString "mainnet-beta")) eqn:E2; [apply strict_eq_string in E2; by intros [= <-]|done].
  - intros ->. by destruct c.
Qed.

Lemma read_role_ok v c : read_role v = Some c ↔ v = VString (role_name c).
Proof.
  unfold read_role. split.
  - destruct (strict_eq v (VString "vendor")) eqn:E1; [apply strict_eq_string in E1; by intros [= <-]|].
    destruct (strict_eq v (VString "grantee")) eqn:E2; [apply strict_eq_string in E2; by intros [= <-]|done].
  - intros ->. by destruct c.
Qed.

Lemma read_token_program_ok v c : read_token_program v = Some c ↔ v = VString (token_program_name c).
Proof.
  unfold read_token_program. split.
  - destruct (strict_eq v (VString "spl-token")) eqn:E1; [apply strict_eq_string in E1; by intros [= <-]|].
    destruct (strict_eq v (VString "token-2022")) eqn:E2; [apply strict_eq_string in E2; by intros [= <-]|done].
  - intros ->. by destruct c.
Qed.

Lemma byte_number_ok v d : byte_number v = Some d ↔ v = VNumber (JInt d) ∧ 0 <= d <= 255.
Proof.
  unfold byte_number. split.
  - destruct v as [| | |n| | | |]; try done. destruct (out_of_range n 0 255) eqn:E; [done|].
    apply in_range_inv in E as (z & -> & Hz). by intros [= <-].
  - intros [-> Hd]. by rewrite in_range_int.
Qed.

Lemma check_role_ok v role u :
  check_role v role = Ok u →
  let agent := as_optional (get v "agent") in let recipient := as_optional (get v "recipient") in
  get v "agent" = optional_value agent ∧ get v "recipient" = optional_value recipient ∧
  match role with
  | vendor => (∃ a, recipient = Some a ∧ valid_address a) ∧ agent = None
  | grantee => (∃ a, agent = Some a ∧ valid_address a) ∧ recipient = None
  end.
Proof.
  destruct role; cbn; intros H; inv_ok H; apply canonicalAddress_ok in E as [E Ha]; bool_reflect;
    apply undefined_true in G; rewrite E, G; cbn; eauto 10.
Qed.
End Checks.

(** ** What is accepted *)

Section Parsing.
Context `{K : PublicKeys, KS : !PublicKeysSpec K}.

(** An object with the fields of [p] and no others *)
Definition presents (v : value) (p : MandateRequestPayload.t) : Prop :=
  ∃ fields, v = VObject fields ∧ (∀ k, k ∈ fields.*1 → k ∈ PAYLOAD_KEYS) ∧
    ∀ k, field fields k = get (orderedPayload p) k.

Lemma presents_ordered p : presents (orderedPayload p) p.
Proof.
  exists (defined_fields (payload_fields p)). split; [apply ordered_filter|].
  split; [intros k Hk; apply (ordered_keys p)|intros k]; by rewrite ordered_filter.
Qed.

Lemma check_texts_ok v u :
  check_texts v = Ok u →
  (get v "requesterName" = optional_value (as_optional (get v "requesterName")) ∧
     on_some (bounded 64) (as_optional (get v "requesterName"))) ∧
  (∃ s, get v "description" = VString s ∧ bounded 280 s) ∧
  (get v "poNumber" = optional_value (as_optional (get v "poNumber")) ∧ on_some (bounded 64) (as_optional (get v "poNumber"))) ∧
  ∃ s, get v "nonce" = VString s ∧ bounded 128 s.
Proof.
  unfold check_texts. intros H. inv_ok H. apply boundedText_required in H, E0. apply boundedText_optional in E, E1. done.
Qed.

Lemma check_limits_ok v u :
  check_limits v = Ok u → ∃ a b, get v "suggestedMaxPerPayment" = VString a ∧ get v "suggestedTotal" = VString b ∧
    amount_text a ∧ amount_text b ∧ BigInt a <= BigInt b.
Proof.
  unfold check_limits. intros H. inv_ok H. apply u64String_ok in E as (s & Hs & Ha & ->), E0 as (t & Ht & Hb & ->).
  bool_reflect. eauto 10.
Qed.

Lemma on_string v s : v = VString s → v = VString (as_string v).
Proof. by intros ->. Qed.

Lemma parse_sound v p : parseMandateRequestPayload v = Ok p → well_formed p ∧ presents v p.
Proof.
  unfold parseMandateRequestPayload. destruct (plain_object v) as [fields|] eqn:Ev; [|done].
  destruct (unknownKeys fields PAYLOAD_KEYS) as [|] eqn:Eu; [|done]. pose proof (proj1 (unknownKeys_nil _ _) Eu) as Hu.
  apply plain_object_ok in Ev as ->. intros Hp.
  apply if_throw_ok in Hp as [Hver Hp]. bool_reflect. apply strict_eq_int in Hver.
  destruct (read_cluster _) as [c|] eqn:Ec; [|done]. apply read_cluster_ok in Ec.
  destruct (read_role _) as [r|] eqn:Er; [|done]. apply read_role_ok in Er.
  destruct (read_token_program _) as [t|] eqn:Et; [|done]. apply read_token_program_ok in Et.
  apply bind_ok in Hp as (req & Hreq & Hp). apply canonicalAddress_ok in Hreq as [Hreq Hvr].
  apply bind_ok in Hp as (mint & Hmint & Hp). apply canonicalAddress_ok in Hmint as [Hmint Hvm].
  apply bind_ok in Hp as (u1 & Hrole & Hp). apply check_role_ok in Hrole as (Hag & Hrec & Hrole).
  apply bind_ok in Hp as (u2 & Htx & Hp). apply check_texts_ok in Htx as ((Hn & Hwn) & (de & Hde & Hwd) & (Hpo & Hwp) & no & Hno & Hwno).
  apply bind_ok in Hp as (u3 & Hlim & Hp). apply check_limits_ok in Hlim as (a & b & Ha & Hb & Hwa & Hwb & Hle).
  destruct (byte_number _) as [d|] eqn:Ed; [|done]. apply byte_number_ok in Ed as [Ed Hd].
  apply bind_ok in Hp as (u4 & Hex & Hp). apply optional_u64_ok in Hex as [Hex Hwex].
  apply bind_ok in Hp as (u5 & Hun & Hp). apply optional_u64_ok in Hun as [Hun Hwun]. injection Hp as <-. split.
  - constructor; cbn [cast_payload MandateRequestPayload.requester MandateRequestPayload.mint MandateRequestPayload.role
      MandateRequestPayload.recipient MandateRequestPayload.agent MandateRequestPayload.requesterName
      MandateRequestPayload.description MandateRequestPayload.poNumber MandateRequestPayload.nonce
      MandateRequestPayload.suggestedMaxPerPayment MandateRequestPayload.suggestedTotal MandateRequestPayload.decimals
      MandateRequestPayload.suggestedExpirySlot MandateRequestPayload.validUntilSlot];
      rewrite ?Hreq, ?Hmint, ?Hde, ?Hno, ?Ha, ?Hb; done.
  - exists fields. split; [done|]. split; [done|]. intros k. rewrite ordered_get.
    destruct (decide (k ∈ PAYLOAD_KEYS)) as [Hk|Hk].
    + change (get (VObject fields)) with (field fields) in *.
      unfold PAYLOAD_KEYS in Hk. rewrite !elem_of_cons in Hk.
      repeat destruct Hk as [->|Hk]; [..|by apply not_elem_of_nil in Hk];
        first [exact Hver|exact Ec|exact Er|exact Et|exact Ed|exact Hn|exact Hag|exact Hrec|exact Hex|exact Hun|exact Hpo
              |exact (on_string _ _ Hreq)|exact (on_string _ _ Hmint)|exact (on_string _ _ Ha)|exact (on_string _ _ Hb)
              |exact (on_string _ _ Hde)|exact (on_string _ _ Hno)].
    + rewrite (field_absent (payload_fields _)) by done. apply field_absent. intros Hin. by apply Hk, Hu.
Qed.

Lemma as_optional_value x : as_optional (optional_value x) = x.
Proof. by destruct x. Qed.

Lemma u64String_text s name : amount_text s → u64String (VString s) name true = Ok (BigInt s).
Proof. intros Hs. apply u64String_ok. eauto. Qed.

Lemma optional_u64_value x name : on_some amount_text x → optional_u64 (optional_value x) name = Ok tt.
Proof. intros Hx. destruct x as [s|]; [|done]. unfold optional_u64. cbn [optional_value undefined]. by rewrite u64String_text by auto. Qed.

Lemma boundedText_value x name max : on_some (bounded max) x → boundedText (optional_value x) name max false = Ok tt.
Proof. intros Hx. destruct x as [s|]; [|done]. apply boundedText_string. auto. Qed.

Lemma canonicalAddress_valid a name : valid_address a → canonicalAddress (VString a) name = Ok a.
Proof. intros Ha. by apply canonicalAddress_ok. Qed.

Lemma check_role_accepts v p :
  well_formed p → (∀ k, get v k = field (payload_fields p) k) → check_role v p.(MandateRequestPayload.role) = Ok tt.
Proof.
  intros W G. pose proof (wf_role _ W) as Wr. unfold check_role.
  rewrite (G "agent"), (G "recipient").
  change (field (payload_fields p) "agent") with (optional_value p.(MandateRequestPayload.agent)).
  change (field (payload_fields p) "recipient") with (optional_value p.(MandateRequestPayload.recipient)).
  destruct (MandateRequestPayload.role p); destruct Wr as [(a & -> & Ha) ->]; cbn [optional_value];
    by rewrite canonicalAddress_valid.
Qed.

Lemma check_texts_accepts v p : well_formed p → (∀ k, get v k = field (payload_fields p) k) → check_texts v = Ok tt.
Proof.
  intros [] G. unfold check_texts.
  rewrite (G "requesterName"), (G "description"), (G "poNumber"), (G "nonce").
  change (field (payload_fields p) "requesterName") with (optional_value p.(MandateRequestPayload.requesterName)).
  change (field (payload_fields p) "poNumber") with (optional_value p.(MandateRequestPayload.poNumber)).
  rewrite boundedText_value by done. cbn [bind].
  change (field (payload_fields p) "description") with (VString p.(MandateRequestPayload.description)).
  rewrite boundedText_string by done. cbn [bind]. rewrite boundedText_value by done. cbn [bind].
  by apply boundedText_string.
Qed.

Lemma check_limits_accepts v p : well_formed p → (∀ k, get v k = field (payload_fields p) k) → check_limits v = Ok tt.
Proof.
  intros [] G. unfold check_limits. rewrite (G "suggestedMaxPerPayment"), (G "suggestedTotal").
  change (field (payload_fields p) "suggestedMaxPerPayment") with (VString p.(MandateRequestPayload.suggestedMaxPerPayment)).
  change (field (payload_fields p) "suggestedTotal") with (VString p.(MandateRequestPayload.suggestedTotal)).
  rewrite !u64String_text by done. cbn [bind]. by rewrite (proj2 (Z.ltb_ge _ _)).
Qed.

Lemma cast_fields v p :
  (∀ k, get v k = field (payload_fields p) k) →
  cast_payload v p.(MandateRequestPayload.cluster) p.(MandateRequestPayload.role) p.(MandateRequestPayload.tokenProgram)
    p.(MandateRequestPayload.decimals) = p.
Proof.
  intros G. unfold cast_payload. rewrite !G. destruct p as [c r req nm ag mint tp rec mx tot d ex un de po no].
  destruct nm, ag, rec, ex, un, po; reflexivity.
Qed.

Lemma parse_complete v p : well_formed p → presents v p → parseMandateRequestPayload v = Ok p.
Proof.
  intros W (fields & -> & Hkeys & Hk). unfold parseMandateRequestPayload. cbn [plain_object].
  rewrite (proj2 (unknownKeys_nil _ _)) by done.
  assert (∀ k, get (VObject fields) k = field (payload_fields p) k) as G by (intros k; rewrite <- ordered_get; apply Hk).
  rewrite (proj2 (strict_eq_int _ _)) by apply G. cbn [negb].
  rewrite (proj2 (read_cluster_ok _ p.(MandateRequestPayload.cluster))) by apply G.
  rewrite (proj2 (read_role_ok _ p.(MandateRequestPayload.role))) by apply G.
  rewrite (proj2 (read_token_program_ok _ p.(MandateRequestPayload.tokenProgram))) by apply G.
  rewrite (G "requester"), (G "mint"), (check_role_accepts _ p), (check_texts_accepts _ p), (check_limits_accepts _ p) by done.
  change (field (payload_fields p) "requester") with (VString p.(MandateRequestPayload.requester)).
  change (field (payload_fields p) "mint") with (VString p.(MandateRequestPayload.mint)).
  pose proof (wf_requester _ W). pose proof (wf_mint _ W).
  rewrite !canonicalAddress_valid by done. cbn [bind].
  rewrite (proj2 (byte_number_ok _ p.(MandateRequestPayload.decimals))) by (split; [apply G|apply W]).
  rewrite (G "suggestedExpirySlot"), (G "validUntilSlot").
  change (field (payload_fields p) "suggestedExpirySlot") with (optional_value p.(MandateRequestPayload.suggestedExpirySlot)).
  change (field (payload_fields p) "validUntilSlot") with (optional_value p.(MandateRequestPayload.validUntilSlot)).
  rewrite !optional_u64_value by apply W. cbn [bind]. by rewrite cast_fields.
Qed.
End Parsing.
