(* ===== verification/MandateLinks.v ===== *)
(** * Signed requests and their links

    A request is signed, sent in a link, opened and verified.  The theorems on
    [MandateRequest] that involve signatures, and its examples. *)
From Stdlib Require Import ZArith Lia Strings.Byte Strings.Ascii.
From stdpp Require Import base numbers sets strings list.
From S2P Require Import Prelude Bytes PublicKey Types Encoding CardConstants Decimal Base64 CardMath CardPda Utf8 CardCommitment Values SupportParse Signed MandateRequest MandateRequestProps.

(** ** Trimmed texts *)

Lemma trim_start_head s c rest : trim_start s = String.String c rest → is_space c = false.
Proof.
  induction s as [|d s IH]; [done|]. cbn [trim_start]. destruct (is_space d) eqn:E; [done|]. by intros [= -> _].
Qed.

Lemma trim_start_id s c rest : s = String.String c rest → is_space c = false → trim_start s = s.
Proof. intros -> Hc. cbn. by rewrite Hc. Qed.

Lemma trim_end_last cs c : is_space c = false → trim_end (text (cs ++ [c])) = text (cs ++ [c]).
Proof.
  intros Hc. induction cs as [|d cs IH]; [cbn; by rewrite Hc|].
  cbn [app text String.string_of_list_ascii trim_end]. change (String.string_of_list_ascii (cs ++ [c])) with (text (cs ++ [c])).
  rewrite IH. by destruct (text (cs ++ [c])) eqn:E; [destruct cs|].
Qed.

Lemma trim_end_prefix s : ∃ tl, chars s = chars (trim_end s) ++ tl.
Proof.
  induction s as [|c s [tl IH]]; [by exists []|]. cbn [trim_end].
  destruct (trim_end s) as [|d r] eqn:E.
  - destruct (is_space c); [by exists (chars (String.String c s))|by exists (chars s)].
  - exists tl. unfold chars in *. cbn. by rewrite IH.
Qed.

Lemma trim_head s c rest : trim s = String.String c rest → is_space c = false.
Proof.
  unfold trim. intros E. destruct (trim_end_prefix (trim_start s)) as [tl Ht]. rewrite E in Ht.
  destruct (trim_start s) as [|d r] eqn:Es; [done|]. cbn in Ht. injection Ht as <- _. by eapply trim_start_head.
Qed.

(** A text is its own trim when neither end is white space. *)
Lemma trim_edges c cs d : is_space c = false → is_space d = false →
  trim (text (c :: cs ++ [d])) = text (c :: cs ++ [d]).
Proof.
  intros Hc Hd. unfold trim. rewrite (trim_start_id _ c (text (cs ++ [d]))) by done.
  by apply (trim_end_last (c :: cs)).
Qed.

Lemma drop_while_suffix p cs : ∃ pre, cs = pre ++ drop_while p cs.
Proof.
  induction cs as [|c cs [pre IH]]; [by exists []|]. cbn. destruct (p c); [|by exists []].
  exists (c :: pre). cbn. by rewrite <- IH.
Qed.

Lemma drop_slashes_prefix s : ∃ tl, chars s = chars (drop_slashes s) ++ tl.
Proof.
  unfold drop_slashes. rewrite chars_text. destruct (drop_while_suffix (λ c, bool_decide (c = "/"%char)) (reverse (chars s))) as [pre E].
  exists (reverse pre). rewrite <- reverse_app, <- E. by rewrite reverse_involutive.
Qed.

(** The base of a link begins with a character that is not white space, and has
    no ["#"] unless the address it came from has one. *)
Lemma origin_edges url :
  drop_slashes (trim url) ≠ "" →
  ∃ c cs, drop_slashes (trim url) = text (c :: cs) ∧ is_space c = false.
Proof.
  intros Hne. destruct (drop_slashes_prefix (trim url)) as [tl E].
  destruct (drop_slashes (trim url)) as [|c o] eqn:Eo; [done|]. exists c, (chars o).
  split; [change (String.String c o = String.String c (text (chars o))); by rewrite text_chars|].
  destruct (trim url) as [|d t] eqn:Et; [done|]. cbn in E. injection E as <- _. by eapply trim_head.
Qed.

Lemma trim_start_suffix s : ∃ hd, chars s = hd ++ chars (trim_start s).
Proof.
  induction s as [|c s [hd IH]]; [by exists []|]. cbn. destruct (is_space c); [|by exists []].
  exists (c :: hd). unfold chars in *. cbn. by rewrite <- IH.
Qed.

Lemma origin_chars url c : c ∈ chars (drop_slashes (trim url)) → c ∈ chars url.
Proof.
  intros Hc. destruct (drop_slashes_prefix (trim url)) as [t1 E1], (trim_end_prefix (trim_start url)) as [t2 E2],
    (trim_start_suffix url) as [t3 E3]. unfold trim in *. rewrite E3, E2, E1. set_solver.
Qed.

(** ** Links *)

Section Links.
Context `{K : PublicKeys, KS : !PublicKeysSpec K, E : Ed25519, ES : !Ed25519Spec E, H : Sha256, C : Codec, CS : !JsonSpec C}.

Definition check_slot_ok (p : MandateRequestPayload.t) (now : Z) : Prop :=
  on_some (λ s, now < BigInt s) p.(MandateRequestPayload.validUntilSlot) ∧
  on_some (λ s, now < BigInt s) p.(MandateRequestPayload.suggestedExpirySlot).

Lemma check_slots_ok p slot u : check_slots p slot = Ok u ↔ on_some (check_slot_ok p) slot.
Proof.
  unfold check_slots, check_slot_ok, passed, on_some. destruct u.
  destruct slot as [now|]; [|by split; [intros _ ?|]]. split.
  - intros Ho n [= <-]. inv_ok Ho. split; intros s Hs; [rewrite Hs in G|rewrite Hs in G0]; by bool_reflect.
  - intros Ho. destruct (Ho now eq_refl) as [H1 H2].
    destruct (MandateRequestPayload.validUntilSlot p) as [s|], (MandateRequestPayload.suggestedExpirySlot p) as [t|];
      rewrite ?(proj2 (Z.leb_gt _ _)) by auto; done.
Qed.

Lemma signed_json s : well_formed s.(SignedMandateRequest.payload) → json (signed_value s) = true.
Proof.
  intros W. unfold signed_value. cbn [json]. cbn [forallb fst snd]. rewrite ordered_json by apply W. done.
Qed.

(** What the parser accepted is parsed again from its canonical object. *)
Lemma parse_signed s :
  well_formed s.(SignedMandateRequest.payload) → parseSignedMandateRequest (signed_value s) = Ok s.
Proof.
  destruct s as [p sg]. intros W. unfold parseSignedMandateRequest.
  change (plain_object _) with (Some (object_fields (signed_value (SignedMandateRequest.mk p sg)))).
  cbv beta iota. rewrite (proj2 (unknownKeys_nil _ _)) by (intros k Hk; exact Hk).
  change (get _ "signature") with (VString sg). change (get _ "payload") with (orderedPayload p).
  by rewrite (parse_complete _ p) by (done || apply presents_ordered).
Qed.

Lemma sign_ok payload sk s :
  signMandateRequest payload sk = Ok s →
  well_formed s.(SignedMandateRequest.payload) ∧ presents payload s.(SignedMandateRequest.payload) ∧
  check_signature s.(SignedMandateRequest.payload) s.(SignedMandateRequest.signature)
    (text_encode (canonicalMandateRequest s.(SignedMandateRequest.payload))) = Ok tt.
Proof.
  unfold signMandateRequest. intros Hs. apply bind_ok in Hs as (p & Hp & Hs). apply bind_ok in Hs as (seed & Hseed & Hs).
  apply ed25519Seed_length in Hseed. destruct (ed_pair seed Hseed) as (key & public & Hkey & Hx & Hpub & Hsig).
  unfold pkcs8FromSeed in Hs. rewrite Hkey in Hs. cbn [bind] in Hs.
  assert (default "" (jwk_x key) = bytesToBase64Url public) as Ex by (by rewrite Hx). rewrite Ex in Hs.
  rewrite base64Url_roundtrip in Hs. cbn [bind] in Hs. cbv zeta in Hs. inv_ok Hs. subst s. bool_reflect.
  apply parse_sound in Hp as [W Hp]. split; [done|]. split; [done|].
  destruct (Hsig (text_encode (canonicalMandateRequest p))) as [Hl Hv].
  unfold check_signature. cbn [SignedMandateRequest.signature SignedMandateRequest.payload].
  rewrite base64Url_roundtrip, Hl. cbn [negb Nat.eqb]. rewrite <- G, newPublicKey_toBase58 by done. cbn [bind].
  by rewrite Hv.
Qed.

Lemma verify_accepts v p sig slot :
  parseSignedMandateRequest v = Ok (SignedMandateRequest.mk p sig) →
  on_some (check_slot_ok p) slot →
  check_signature p sig (text_encode (canonicalMandateRequest p)) = Ok tt →
  verifyMandateRequest v slot =
    MandateRequestVerification.mk true (orderedPayload p) (sha256Hex (text_encode (canonicalMandateRequest p))) None.
Proof.
  intros Hp Hslot Hsig. unfold verifyMandateRequest. rewrite Hp. cbn [SignedMandateRequest.payload SignedMandateRequest.signature].
  rewrite (proj2 (check_slots_ok p slot tt)) by done. by rewrite Hsig.
Qed.

Lemma url_chars_of bs : forallb is_url_char (chars (bytesToBase64Url bs)) = true.
Proof. rewrite url_encoded. apply url_sextets. Qed.

Lemma url_char_not_space c : is_url_char c = true → is_space c = false.
Proof. destruct c as [[] [] [] [] [] [] [] []]; by vm_compute. Qed.

(** The text of a nonempty byte string ends in a character that is kept. *)
Lemma url_text_last bs :
  bs ≠ [] → ∃ x d, chars (bytesToBase64Url bs) = x ++ [d] ∧ is_space d = false.
Proof.
  intros Hne. pose proof (url_chars_of bs) as Hu.
  destruct (chars (bytesToBase64Url bs)) as [|d x _] eqn:Ec using rev_ind.
  - exfalso. apply Hne. pose proof (base64Url_roundtrip bs) as Hr.
    assert (bytesToBase64Url bs = "") as E0 by (by rewrite <- (text_chars (bytesToBase64Url bs)), Ec).
    rewrite E0 in Hr. cbn in Hr. by injection Hr.
  - exists x, d. split; [done|]. apply url_char_not_space. rewrite forallb_app in Hu. cbn in Hu. by bool_reflect.
Qed.

Lemma text_encode_nil s : text_encode s = [] → s = "".
Proof. intros Hs. by apply text_encode_inj. Qed.

Lemma fragment_of_link origin rest :
  "#"%char ∉ origin → fragment_of (text (origin ++ "#"%char :: rest)) = text rest.
Proof.
  intros Ho. unfold fragment_of. rewrite chars_text, break_at_sep; [done|].
  apply Forall_forall. intros c Hc ->. by destruct Ho.
Qed.

(** A link whose base has no ["#"] opens as the request it was made of. *)
Lemma decode_link s url link :
  well_formed s.(SignedMandateRequest.payload) → "#"%char ∉ chars url →
  encodeMandateRequestLink s url = Ok link → decodeMandateRequestLink link = Ok s.
Proof.
  intros W Hurl Hl. unfold encodeMandateRequestLink in Hl. inv_ok Hl. bool_reflect.
  destruct (origin_edges url G) as (c & cs & Ho & Hc).
  assert ("#"%char ∉ c :: cs ++ chars MANDATE_REQUEST_PATH) as Hfree.
  { rewrite app_comm_cons, elem_of_app. intros [Hin|Hin]; [|by apply (bool_decide_eq_true_2 _) in Hin; vm_compute in Hin].
    apply Hurl, origin_chars. by rewrite Ho, chars_text. }
  set (bs := text_encode (JSON_stringify (signed_value s))) in *.
  assert (∃ x d, chars (bytesToBase64Url bs) = x ++ [d] ∧ is_space d = false) as (x & d & Hx & Hd).
  { apply url_text_last. intros Ebs. by apply (json_object _ (text_encode_nil _ Ebs)). }
  assert (link = text ((c :: cs ++ chars MANDATE_REQUEST_PATH) ++ "#"%char :: chars "req=" ++ chars (bytesToBase64Url bs))) as Elink.
  { rewrite <- (text_chars link), <- Hl. apply (f_equal text). rewrite !chars_app, Ho, chars_text.
    cbn. by rewrite <- !app_assoc. }
  assert (trim link = link) as Ht.
  { rewrite Elink, Hx.
    assert (∀ l : list ascii, (c :: l) ++ "#"%char :: chars "req=" ++ x ++ [d] = c :: (l ++ "#"%char :: chars "req=" ++ x) ++ [d])
      as -> by (intros l; rewrite <- !app_assoc; done). by apply trim_edges. }
  unfold decodeMandateRequestLink. rewrite Ht, Elink, fragment_of_link by done.
  pose proof (url_chars_of bs) as Hbs. assert (contains_char "=" (text (chars "req=" ++ chars (bytesToBase64Url bs))) = true) as -> by done.
  assert (text (chars "req=" ++ chars (bytesToBase64Url bs)) = text (chars "req" ++ "="%char :: chars (bytesToBase64Url bs))) as -> by done.
  change MANDATE_REQUEST_FRAGMENT_KEY with "req". rewrite search_param_single by done.
  change (default "" (Some (bytesToBase64Url bs))) with (bytesToBase64Url bs).
  rewrite bool_decide_eq_false_2 by (intros Eb; rewrite Eb in Hx; by destruct x).
  rewrite base64Url_roundtrip. unfold bs. rewrite utf8_roundtrip. cbn [mbind option_bind].
  rewrite json_roundtrip by (by apply signed_json). by apply parse_signed.
Qed.
End Links.

(** ** Amounts *)

Lemma drop_zeros_spec cs : ∃ k, cs = replicate k "0"%char ++ drop_zeros cs.
Proof.
  induction cs as [|c cs [k IH]]; [by exists 0%nat|]. cbn. case_bool_decide as Hc; [|by exists 0%nat].
  exists (S k). subst. cbn. by rewrite <- IH.
Qed.

Lemma strip_zeros_spec cs : ∃ k, cs = strip_trailing_zeros cs ++ replicate k "0"%char.
Proof.
  destruct (drop_zeros_spec (reverse cs)) as [k Hk]. exists k. unfold strip_trailing_zeros.
  rewrite <- (reverse_replicate k), <- reverse_app, <- Hk. by rewrite reverse_involutive.
Qed.

Lemma chars_value_zeros k : chars_value (replicate k "0"%char) = 0.
Proof. induction k as [|k IH]; [done|]. cbn [replicate]. rewrite chars_value_cons, IH. done. Qed.

Lemma digits_no_point cs : forallb is_digit cs = true → Forall (λ c, c ≠ "."%char) cs.
Proof.
  intros Hd. apply Forall_forall. intros c Hc ->. rewrite forallb_forall in Hd.
  by specialize (Hd _ (proj1 (list_elem_of_In _ _) Hc)).
Qed.

Definition digit_run (cs : list ascii) : Prop := cs ≠ [] ∧ forallb is_digit cs = true.

Lemma split_whole whole : digit_run whole → split_amount (text whole) = Some (whole, []).
Proof.
  intros [Hne Hd]. unfold split_amount. rewrite chars_text.
  assert (break_at "." whole = (whole, [])) as ->.
  { apply digits_no_point in Hd. clear Hne. induction Hd as [|c cs Hc _ IH]; [done|]. cbn.
    by rewrite bool_decide_eq_false_2, IH. }
  by rewrite bool_decide_eq_false_2, Hd.
Qed.

Lemma split_fraction whole fraction :
  digit_run whole → digit_run fraction → split_amount (text (whole ++ "."%char :: fraction)) = Some (whole, fraction).
Proof.
  intros [Hne Hd] [Hnf Hf]. unfold split_amount. rewrite chars_text, break_at_sep by (by apply digits_no_point).
  by rewrite !bool_decide_eq_false_2, Hd, Hf.
Qed.

Lemma split_amount_ok s whole fraction :
  split_amount s = Some (whole, fraction) →
  digit_run whole ∧ forallb is_digit fraction = true.
Proof.
  unfold split_amount, digit_run. destruct (break_at _ _) as [w r]. destruct (negb _) eqn:E; [done|].
  apply negb_false_iff, andb_true_iff in E as [Hne Hd]. bool_reflect.
  destruct r as [|c f]; [by intros [= <- <-]|]. destruct (_ && _) eqn:E; [|done]. bool_reflect. by intros [= <- <-].
Qed.

Lemma nat_chars_run n : 0 <= n → digit_run (nat_chars n).
Proof.
  intros Hn. split; [|by apply nat_chars_digits]. destruct (nat_chars_cons n Hn) as (c & cs & -> & _). done.
Qed.

Lemma nat_chars_short k n : (0 < k)%nat → 0 <= n < 10 ^ Z.of_nat k → (length (nat_chars n) <= k)%nat.
Proof.
  intros Hk Hn. unfold nat_chars. destruct (n =? 0) eqn:E; [cbn; lia|]. bool_reflect.
  rewrite length_map, length_reverse. apply digits_length_bound; [lia|]. apply dec_fuel_enough. lia.
Qed.

Lemma trim_nat n rest d : 0 <= n → is_space d = false → trim (text (nat_chars n ++ rest ++ [d])) = text (nat_chars n ++ rest ++ [d]).
Proof.
  intros Hn Hd. destruct (nat_chars_cons n Hn) as (c & cs & -> & Hc & _).
  rewrite <- app_comm_cons, app_assoc. apply trim_edges; [by apply digit_not_space|done].
Qed.

Lemma trim_toString n : 0 <= n → trim (toString n) = toString n.
Proof.
  intros Hn. rewrite toString_nat by done. pose proof (nat_chars_digits n Hn) as Hd.
  destruct (nat_chars_cons n Hn) as (c & cs & E & Hc & _). rewrite E in *. apply trim_digits; [by apply digit_not_space|].
  cbn in Hd. bool_reflect. eapply forallb_impl; [|done]. intros x Hx. by rewrite digit_not_space.
Qed.

Lemma parse_human_amount s d whole fraction :
  0 <= d <= 255 → split_amount (trim s) = Some (whole, fraction) → Z.of_nat (length fraction) <= d →
  chars_value whole * 10 ^ d + chars_value (fraction ++ replicate (Z.to_nat d - length fraction) "0"%char) <= MAX_U64 →
  parseHumanTokenAmount s (JInt d) =
    Ok (toString (chars_value whole * 10 ^ d + chars_value (fraction ++ replicate (Z.to_nat d - length fraction) "0"%char))).
Proof.
  intros Hd Hs Hf Hu. unfold parseHumanTokenAmount. rewrite in_range_int by done. cbv zeta. cbn [bigint_of].
  rewrite Hs. by rewrite !(proj2 (Z.ltb_ge _ _)) by lia.
Qed.

(** An amount without a fraction *)
Lemma parse_whole n d : 0 <= n → 0 <= d <= 255 → n * 10 ^ d <= MAX_U64 →
  parseHumanTokenAmount (toString n) (JInt d) = Ok (toString (n * 10 ^ d)).
Proof.
  intros Hn Hd Hu. pose proof (parse_human_amount (toString n) d (nat_chars n) []) as Hp. cbn [app length] in Hp.
  rewrite chars_value_zeros, chars_value_nat, Z.add_0_r in Hp by done. apply Hp; [done| |lia|done].
  rewrite trim_toString, toString_nat by done. apply split_whole. by apply nat_chars_run.
Qed.

(** The digits after the point, with the trailing zeros put back *)
Lemma fraction_digits d f :
  0 < f < 10 ^ d → 0 < d →
  let fraction := strip_trailing_zeros (padStart (Z.to_nat d) (nat_chars f)) in
  digit_run fraction ∧ (length fraction <= Z.to_nat d)%nat ∧
  chars_value (fraction ++ replicate (Z.to_nat d - length fraction) "0"%char) = f.
Proof.
  intros Hf Hd. cbv zeta. set (padded := padStart (Z.to_nat d) (nat_chars f)).
  assert (length padded = Z.to_nat d) as Hl.
  { apply padStart_length, nat_chars_short; [lia|]. rewrite Z2Nat.id by lia. lia. }
  assert (forallb is_digit padded = true) as Hdig by (apply padStart_digits, nat_chars_digits; lia).
  assert (chars_value padded = f) as Hv by (unfold padded; rewrite padStart_value, chars_value_nat; lia).
  destruct (strip_zeros_spec padded) as [k Hk]. pose proof (f_equal length Hk) as Hlk.
  rewrite length_app, length_replicate in Hlk.
  assert (Z.to_nat d - length (strip_trailing_zeros padded) = k)%nat as -> by lia.
  split_and!; [|lia|by rewrite <- Hk].
  rewrite Hk, forallb_app in Hdig. bool_reflect. split; [|done].
  intros E. rewrite E in Hk. cbn [app] in Hk. rewrite Hk, chars_value_zeros in Hv. lia.
Qed.

Lemma parse_format n d :
  0 <= n <= MAX_U64 → 0 <= d <= 255 →
  ∃ s, formatHumanTokenAmount (toString n) d = Ok s ∧ parseHumanTokenAmount s (JInt d) = Ok (toString n).
Proof.
  intros Hn Hd. unfold formatHumanTokenAmount. rewrite string_bigint_toString. cbn [bind].
  destruct (d =? 0) eqn:E0; bool_reflect.
  { subst. eexists. split; [done|]. replace n with (n * 10 ^ 0) at 2 by lia. apply parse_whole; lia. }
  rewrite (proj2 (Z.ltb_ge _ _)) by lia. cbv zeta. assert (0 < 10 ^ d) by (apply Z.pow_pos_nonneg; lia).
  rewrite Z.quot_div_nonneg, Z.rem_mod_nonneg by lia. pose proof (Z.div_mod n (10 ^ d) ltac:(lia)) as Hdm.
  pose proof (Z.mod_pos_bound n (10 ^ d) ltac:(lia)). pose proof (Z.div_pos n (10 ^ d)).
  eexists. split; [done|]. destruct (n mod 10 ^ d =? 0) eqn:Ef; bool_reflect.
  { replace n with (n / 10 ^ d * 10 ^ d) at 2 by lia. apply parse_whole; lia. }
  destruct (fraction_digits d (n mod 10 ^ d)) as (Hr & Hl & Hv); [lia..|].
  rewrite !toString_nat, chars_text by lia. set (fraction := strip_trailing_zeros _) in *.
  assert (text (nat_chars (n / 10 ^ d)) +:+ "." +:+ text fraction = text (nat_chars (n / 10 ^ d) ++ "."%char :: fraction)) as Es
    by (rewrite <- (text_chars (_ +:+ _)); apply (f_equal text); by rewrite !chars_app, !chars_text).
  rewrite Es, (parse_human_amount _ d (nat_chars (n / 10 ^ d)) fraction); [|done| |lia|].
  - rewrite chars_value_nat, Hv by lia. rewrite (Z.mul_comm (n / _)), <- Hdm. by rewrite toString_nat by lia.
  - rewrite <- split_fraction; [|by apply nat_chars_run; lia|done]. f_equal.
    destruct Hr as [Hne Hr]. destruct fraction as [|x l _] using rev_ind; [done|].
    rewrite app_comm_cons. apply trim_nat; [lia|]. rewrite forallb_app in Hr. cbn in Hr. bool_reflect. by apply digit_not_space.
  - rewrite chars_value_nat, Hv by lia. lia.
Qed.

(** ** The theorems *)

Section Theorems.
Context `{K : PublicKeys, KS : !PublicKeysSpec K, E : Ed25519, ES : !Ed25519Spec E, H : Sha256, C : Codec, CS : !JsonSpec C}.

(** C38: The parser accepts exactly the objects that hold the fields of a well
      formed payload and no other field, and returns that payload: well formed
      means the documented role rules, text bounds, u64 amounts with the total
      at least the per-payment limit, and canonical addresses. *)
Theorem payload_accepted (v : value) (p : MandateRequestPayload.t) :
  parseMandateRequestPayload v = Ok p ↔ well_formed p ∧ presents v p.
Proof. split; [apply parse_sound|]. intros [W Hp]. by apply parse_complete. Qed.

(** C27: A signed request survives its link: whoever opens the link of a request,
      at a base address without a fragment, decodes the request that was signed,
      with the payload that was given, and before its slots pass the request
      verifies with the hash of its canonical text. *)
Theorem signed_link_opens (payload : value) (secretKey : bytes) (s : SignedMandateRequest.t) (url link : string)
    (slot : option Z) :
  signMandateRequest payload secretKey = Ok s → encodeMandateRequestLink s url = Ok link → "#"%char ∉ chars url →
  on_some (check_slot_ok s.(SignedMandateRequest.payload)) slot →
  ∃ opened, decodeMandateRequestLink link = Ok opened ∧ presents payload opened.(SignedMandateRequest.payload) ∧
    verifyMandateRequest (signed_value opened) slot =
      MandateRequestVerification.mk true (orderedPayload s.(SignedMandateRequest.payload))
        (sha256Hex (text_encode (canonicalMandateRequest s.(SignedMandateRequest.payload)))) None.
Proof.
  intros Hs Hl Hurl Hslot. apply sign_ok in Hs as (W & Hp & Hsig). exists s.
  split; [by eapply decode_link|]. split; [done|]. eapply verify_accepts; [|done|exact Hsig].
  destruct s. by apply parse_signed.
Qed.

(** C26: A request that verifies is one its requester's key signed: its envelope
      and payload have no field outside what was signed, the payload shown is
      well formed and is the signed one, the hash is that of its canonical text,
      the 64-byte signature over that text is valid for the requester's key, and
      neither slot has passed. *)
Theorem verified_request_signed (request : value) (slot : option Z) :
  let r := verifyMandateRequest request slot in
  r.(MandateRequestVerification.valid) = true →
  ∃ fields p sig raw key, request = VObject fields ∧ (∀ k, k ∈ fields.*1 → k ∈ ENVELOPE_KEYS) ∧
    presents (field fields "payload") p ∧ well_formed p ∧ field fields "signature" = VString sig ∧
    base64UrlToBytes sig = Ok raw ∧ length raw = 64%nat ∧ newPublicKey p.(MandateRequestPayload.requester) = Ok key ∧
    ed_verify key raw (text_encode (canonicalMandateRequest p)) = Ok true ∧
    on_some (check_slot_ok p) slot ∧ r.(MandateRequestVerification.payload) = orderedPayload p ∧
    r.(MandateRequestVerification.requestHash) = sha256Hex (text_encode (canonicalMandateRequest p)).
Proof.
  cbv zeta. unfold verifyMandateRequest. destruct (parseSignedMandateRequest request) as [[p sig]|] eqn:Ep; [|done].
  cbn [SignedMandateRequest.payload SignedMandateRequest.signature].
  destruct (check_slots p slot) as [u|] eqn:Es; [|done]. apply check_slots_ok in Es.
  destruct (check_signature p sig _) as [u'|] eqn:Esig; [|done]. intros _. cbn.
  unfold parseSignedMandateRequest in Ep. destruct (plain_object request) as [fields|] eqn:Ef; [|done].
  apply plain_object_ok in Ef as ->.
  destruct (unknownKeys fields ENVELOPE_KEYS) eqn:Eu; [|done]. pose proof (proj1 (unknownKeys_nil _ _) Eu) as Hu.
  cbn [get] in Ep. destruct (field fields "signature") as [| | | | |sg| |] eqn:Eg; try done. apply bind_ok in Ep as (q & E0 & Ep). injection Ep as -> ->.
  apply parse_sound in E0 as [W Hp]. unfold check_signature in Esig.
  destruct (base64UrlToBytes sig) as [raw|] eqn:Eraw; [|done]. inv_ok Esig. bool_reflect. apply Nat.eqb_eq in G. subst.
  exists fields, p, sig, raw, a. done.
Qed.

(** Amounts are exact: text a person typed stands for the number of base
      units that is its decimal value times ten to the decimals, never rounded
      and never above u64, and every u64 amount prints as a text that reads back
      as the same amount. *)
Theorem human_amount_exact (d : Z) :
  0 <= d <= 255 →
  (∀ s u, parseHumanTokenAmount s (JInt d) = Ok u →
     ∃ whole fraction units, split_amount (trim s) = Some (whole, fraction) ∧ u = toString units ∧
       units * 10 ^ Z.of_nat (length fraction) = chars_value (whole ++ fraction) * 10 ^ d ∧ 0 <= units <= MAX_U64) ∧
  ∀ n, 0 <= n <= MAX_U64 →
    ∃ s, formatHumanTokenAmount (toString n) d = Ok s ∧ parseHumanTokenAmount s (JInt d) = Ok (toString n).
Proof.
  intros Hd. split; [|intros n Hn; by apply parse_format].
  intros s u Hp. unfold parseHumanTokenAmount in Hp. rewrite in_range_int in Hp by done. cbv zeta in Hp. cbn [bigint_of] in Hp.
  destruct (split_amount (trim s)) as [[whole fraction]|] eqn:Es; [|done]. inv_ok Hp. bool_reflect.
  apply split_amount_ok in Es as Hdig. destruct Hdig as [[_ Hw] Hf].
  set (k := (Z.to_nat d - length fraction)%nat) in *.
  pose proof (chars_value_bound _ Hw). pose proof (chars_value_bound _ Hf).
  rewrite chars_value_app, chars_value_zeros, length_replicate, Z.add_0_r in *.
  assert (10 ^ d = 10 ^ Z.of_nat (length fraction) * 10 ^ Z.of_nat k) as Epow
    by (rewrite <- Z.pow_add_r by lia; f_equal; lia).
  assert (0 < 10 ^ Z.of_nat k) by (apply Z.pow_pos_nonneg; lia). assert (0 < 10 ^ Z.of_nat (length fraction)) by (apply Z.pow_pos_nonneg; lia).
  exists whole, fraction, (chars_value whole * 10 ^ d + chars_value fraction * 10 ^ Z.of_nat k).
  split; [done|]. split; [done|]. split; [rewrite chars_value_app, Epow; ring|]. split; [nia|done].
Qed.
End Theorems.

(** ** Concrete links *)

#[local] Existing Instance Base58.keys.
#[local] Existing Instance ModelEd25519.keys.
#[local] Existing Instance model_hash.
#[local] Existing Instance JsonCodec.codec.

Definition sample_seed : bytes := replicate 32 x07.
Definition sample_requester : Address := Eval vm_compute in toBase58 sample_seed.
Definition sample_mint : Address := Eval vm_compute in toBase58 (replicate 32 x09).

Definition sample_ask : value :=
  VObject [("version", VNumber (JInt 1)); ("nonce", VString "n-1"); ("cluster", VString "devnet");
    ("role", VString "vendor"); ("requester", VString sample_requester); ("requesterName", VString "Caf" );
    ("recipient", VString sample_mint); ("mint", VString sample_mint); ("tokenProgram", VString "spl-token");
    ("poNumber", VUndefined); ("suggestedTotal", VString "50000000"); ("suggestedMaxPerPayment", VString "5000000");
    ("decimals", VNumber (JInt 6)); ("validUntilSlot", VString "1512000"); ("description", VString "Search API")].

Definition sample_payload : MandateRequestPayload.t :=
  MandateRequestPayload.mk devnet vendor sample_requester (Some "Caf") None sample_mint spl_token (Some sample_mint)
    "5000000" "50000000" 6 None (Some "1512000") "Search API" None "n-1".

Definition sample_signed : SignedMandateRequest.t :=
  Eval vm_compute in from_ok (SignedMandateRequest.mk sample_payload "") (signMandateRequest sample_ask sample_seed).

Lemma sample_signed_ok : signMandateRequest sample_ask sample_seed = Ok sample_signed.
Proof. vm_compute. reflexivity. Qed.

Definition sample_link : string :=
  Eval vm_compute in from_ok "" (encodeMandateRequestLink sample_signed " https://app.example/ ").

Lemma sample_link_ok : encodeMandateRequestLink sample_signed " https://app.example/ " = Ok sample_link.
Proof. vm_compute. reflexivity. Qed.

Lemma sample_slots : on_some (check_slot_ok sample_signed.(SignedMandateRequest.payload)) (Some 1000).
Proof. intros n [= <-]. split; intros s Hs; vm_compute in Hs; [injection Hs as <-; vm_compute; done|done]. Qed.

Lemma payload_accepted_witness : well_formed sample_payload ∧ presents sample_ask sample_payload.
Proof.
  apply (@payload_accepted Base58.keys Base58.keys_spec sample_ask sample_payload). vm_compute. reflexivity.
Defined.

Lemma signed_link_opens_witness :
  ∃ opened, decodeMandateRequestLink sample_link = Ok opened ∧
    presents sample_ask opened.(SignedMandateRequest.payload) ∧
    verifyMandateRequest (signed_value opened) (Some 1000) =
      MandateRequestVerification.mk true (orderedPayload sample_signed.(SignedMandateRequest.payload))
        (sha256Hex (text_encode (canonicalMandateRequest sample_signed.(SignedMandateRequest.payload)))) None.
Proof.
  apply (@signed_link_opens Base58.keys Base58.keys_spec ModelEd25519.keys ModelEd25519.keys_spec model_hash
    JsonCodec.codec JsonCodec.json_spec sample_ask sample_seed sample_signed " https://app.example/ " sample_link (Some 1000)).
  - exact sample_signed_ok.
  - exact sample_link_ok.
  - apply (bool_decide_unpack _). vm_compute. exact I.
  - exact sample_slots.
Defined.

Lemma verified_request_signed_witness :
  ∃ fields p sig raw key, signed_value sample_signed = VObject fields ∧ (∀ k, k ∈ fields.*1 → k ∈ ENVELOPE_KEYS) ∧
    presents (field fields "payload") p ∧ well_formed p ∧ field fields "signature" = VString sig ∧
    base64UrlToBytes sig = Ok raw ∧ length raw = 64%nat ∧ newPublicKey p.(MandateRequestPayload.requester) = Ok key ∧
    ed_verify key raw (text_encode (canonicalMandateRequest p)) = Ok true ∧
    on_some (check_slot_ok p) (Some 1000) ∧
    MandateRequestVerification.payload (verifyMandateRequest (signed_value sample_signed) (Some 1000)) = orderedPayload p ∧
    MandateRequestVerification.requestHash (verifyMandateRequest (signed_value sample_signed) (Some 1000))
      = sha256Hex (text_encode (canonicalMandateRequest p)).
Proof.
  apply (@verified_request_signed Base58.keys Base58.keys_spec ModelEd25519.keys model_hash JsonCodec.codec
    (signed_value sample_signed) (Some 1000)).
  vm_compute. reflexivity.
Defined.

Lemma human_amount_exact_witness :
  parseHumanTokenAmount " 5.25" (JInt 6) = Ok "5250000" ∧ parseHumanTokenAmount "5.1234567" (JInt 6) = Throw "This mint allows 6 decimal places" ∧
  ∃ s, formatHumanTokenAmount "18446744073709551615" 6 = Ok s ∧ parseHumanTokenAmount s (JInt 6) = Ok "18446744073709551615".
Proof.
  split; [reflexivity|]. split; [reflexivity|].
  apply (proj2 (human_amount_exact 6 ltac:(lia)) 18446744073709551615). unfold MAX_U64. lia.
Defined.

(** A field the signature does not cover, an expired link, another signer *)
Example unknown_field_refused :
  MandateRequestVerification.reason (verifyMandateRequest
    (VObject [("payload", VObject (("memo", VString "x") :: object_fields (orderedPayload sample_payload))); ("signature", VString "")]) None)
    = Some "Unknown mandate request field: memo".
Proof. vm_compute. reflexivity. Qed.

Example expired_link_refused :
  MandateRequestVerification.reason (verifyMandateRequest (signed_value sample_signed) (Some 1512000))
    = Some "This request link has expired".
Proof. vm_compute. reflexivity. Qed.

Example other_key_refused :
  signMandateRequest sample_ask (replicate 32 x08) = Throw "Signing key does not match the requester".
Proof. vm_compute. reflexivity. Qed.

Example damaged_link_refused : decodeMandateRequestLink "#req=AAAA" = Throw "This mandate request link is damaged".
Proof. vm_compute. reflexivity. Qed.

(** A base address with a fragment of its own makes a link that does not open. *)
Example fragment_base_lost :
  bind (encodeMandateRequestLink sample_signed "https://app.example/#x") decodeMandateRequestLink
    = Throw "No mandate request in this link".
Proof. vm_compute. reflexivity. Qed.
