(* ===== verification/Delivery.v ===== *)
(** * Signed delivery attestations (sdk/src/delivery.ts)

    A seller states that it served a response for a receipt: the parser of the
    statement, its canonical text, its signature, and the verification against a
    mapping of trusted sellers. *)
From Stdlib Require Import ZArith Lia Strings.Byte Strings.Ascii.
From stdpp Require Import base numbers sets strings list.
From S2P Require Import Prelude Bytes PublicKey Types Encoding Decimal Base64 Dates CardConstants CardPda Utf8 CardCommitment Values Signed.

Definition DELIVERY_STATEMENT : string := "chainpay.response-served".
Definition DELIVERY_VERSION : Z := 1.
Definition DELIVERY_CLUSTER : string := "devnet".

Definition PAYLOAD_KEYS : list string :=
  ["version"; "statement"; "cluster"; "programId"; "receiptAddress"; "seller"; "contentHash"; "servedAt"].
Definition ENVELOPE_KEYS : list string := ["payload"; "signature"].

Module DeliveryAttestationPayload.
Record t : Type := mk {
  programId : Address;
  receiptAddress : Address;
  seller : Address;
  contentHash : string;
  servedAt : string;
}.
End DeliveryAttestationPayload.

Module SignedDeliveryAttestation.
Record t : Type := mk { payload : DeliveryAttestationPayload.t; signature : string }.
End SignedDeliveryAttestation.

Module TrustedSellerMapping.
Record t : Type := mk {
  cluster : string;
  programId : Address;
  sellers : list Address;
  recipientTokenAccount : option Address;
}.
End TrustedSellerMapping.

Module DeliveryVerification.
Record t : Type := mk {
  valid : bool;
  payload : option DeliveryAttestationPayload.t;
  reason : option string;
  code : option string;
}.
End DeliveryVerification.

(** The two fields of the receipt that are looked at *)
Module ReceiptRef.
Record t : Type := mk { address : Address; recipientTokenAccount : Address }.
End ReceiptRef.

(** [now] is the time of a Date, [None] of an invalid one. *)
Module VerifyDeliveryOptions.
Record t : Type := mk {
  trustedSellers : option TrustedSellerMapping.t;
  receipt : option ReceiptRef.t;
  programId : option Address;
  now : option (option Z);
  maxFutureSkewMs : option number;
}.
End VerifyDeliveryOptions.

(** 64 characters of lowercase hex *)
Definition is_content_hash (s : string) : bool :=
  Nat.eqb (String.length s) 64
  && forallb (λ c, let n := char_code c in (48 <=? n) && (n <=? 57) || (97 <=? n) && (n <=? 102)) (chars s).

(** What the fields of a payload are when they are read as an object *)
Definition payload_value (p : DeliveryAttestationPayload.t) : value :=
  VObject [("version", VNumber (JInt DELIVERY_VERSION)); ("statement", VString DELIVERY_STATEMENT);
    ("cluster", VString DELIVERY_CLUSTER);
    ("programId", VString p.(DeliveryAttestationPayload.programId));
    ("receiptAddress", VString p.(DeliveryAttestationPayload.receiptAddress));
    ("seller", VString p.(DeliveryAttestationPayload.seller));
    ("contentHash", VString p.(DeliveryAttestationPayload.contentHash));
    ("servedAt", VString p.(DeliveryAttestationPayload.servedAt))].

Section Delivery.
Context `{K : PublicKeys, E : Ed25519, C : Codec}.

Definition parseDeliveryPayload (v : value) : result DeliveryAttestationPayload.t :=
  match plain_object v with
  | None => Throw "Delivery payload must be an object"
  | Some fields =>
      throw_if! negb (bool_decide ("version" ∈ fields.*1)) || negb (strict_eq (get v "version") (VNumber (JInt DELIVERY_VERSION)))
        with "Unsupported delivery attestation version";
      match unknownKeys fields PAYLOAD_KEYS with
      | extra :: _ => Throw ("Unknown delivery attestation field: " +:+ extra)
      | [] =>
          throw_if! negb (strict_eq (get v "statement") (VString DELIVERY_STATEMENT)) with "Unsupported delivery statement";
          throw_if! negb (strict_eq (get v "cluster") (VString DELIVERY_CLUSTER)) with "Unsupported delivery cluster";
          match get v "contentHash" with
          | VString contentHash =>
              throw_if! negb (is_content_hash contentHash) with "contentHash must be 64-char lowercase SHA-256 hex";
              match get v "servedAt" with
              | VString servedAt =>
                  throw_if! negb (isCanonicalUtcIso servedAt)
                    with "servedAt must be a canonical UTC ISO-8601 timestamp";
                  match get v "programId", get v "receiptAddress", get v "seller" with
                  | VString programId, VString receiptAddress, VString seller =>
                      let! programId := address programId in
                      let! receiptAddress := address receiptAddress in
                      let! seller := address seller in
                      Ok (DeliveryAttestationPayload.mk programId receiptAddress seller contentHash servedAt)
                  | _, _, _ => Throw "programId, receiptAddress, and seller must be Solana addresses"
                  end
              | _ => Throw "servedAt must be a canonical UTC ISO-8601 timestamp"
              end
          | _ => Throw "contentHash must be 64-char lowercase SHA-256 hex"
          end
      end
  end.

Definition parseDeliveryEnvelope (v : value) : result SignedDeliveryAttestation.t :=
  match plain_object v with
  | None => Throw "Delivery attestation must be an object"
  | Some fields =>
      match unknownKeys fields ENVELOPE_KEYS with
      | extra :: _ => Throw ("Unknown delivery envelope field: " +:+ extra)
      | [] =>
          match get v "signature" with
          | VString signature =>
              let! payload := parseDeliveryPayload (get v "payload") in
              Ok (SignedDeliveryAttestation.mk payload signature)
          | _ => Throw "Delivery signature is required"
          end
      end
  end.

Definition canonicalDeliveryPayload (p : DeliveryAttestationPayload.t) : result string :=
  let! parsed := parseDeliveryPayload (payload_value p) in
  Ok (JSON_stringify (payload_value parsed)).

Definition signDeliveryAttestation (payload : value) (secretKey : bytes) : result SignedDeliveryAttestation.t :=
  let! parsed := parseDeliveryPayload payload in
  let! canonical := canonicalDeliveryPayload parsed in
  let message := text_encode canonical in
  let! seed := ed25519Seed secretKey in
  let! key := import_pkcs8 (pkcs8FromSeed seed) in
  Ok (SignedDeliveryAttestation.mk parsed (bytesToCanonicalBase64 (ed_sign key message))).

(** The reason, unless the seller is one of the mapping's *)
Definition trustedSellerAllows (p : DeliveryAttestationPayload.t) (mapping : TrustedSellerMapping.t) :
    result (option string) :=
  if negb (bool_decide (mapping.(TrustedSellerMapping.cluster) = DELIVERY_CLUSTER))
  then Ok (Some "Delivery cluster is not trusted")
  else
    let! programId := address mapping.(TrustedSellerMapping.programId) in
    if negb (bool_decide (programId = p.(DeliveryAttestationPayload.programId)))
    then Ok (Some "Delivery programId is not trusted")
    else
      let! allowed := traverse address mapping.(TrustedSellerMapping.sellers) in
      if negb (bool_decide (p.(DeliveryAttestationPayload.seller) ∈ allowed)) then Ok (Some "Unknown delivery seller")
      else Ok None.

(** [validationError(reason, code, payload)] *)
Definition validationError (reason code : string) (payload : option DeliveryAttestationPayload.t) : DeliveryVerification.t :=
  DeliveryVerification.mk false payload (Some reason) (Some code).

(** [x && ...] on an optional text *)
Definition text_given (x : option string) : option string :=
  match x with Some s => if bool_decide (s = "") then None else Some s | None => None end.

(** [z > n] *)
Definition int_gtb (z : Z) (n : number) : bool :=
  match n with JInt m => m <? z | JFrac f _ => f <? z | JNaN => false | JInfinity positive => negb positive end.

(** A rejection that the [try] returns: its reason and its code *)
Definition rejection : Type := option (string * string).

Definition reject_if (test : result bool) (reason code : string) (k : result rejection) : result rejection :=
  let! b := test in if b then Ok (Some (reason, code)) else k.

(** [address(a) !== address(b)], evaluated when both are given *)
Definition differ (a b : option Address) : result bool :=
  match a, b with
  | Some a, Some b => let! x := address a in let! y := address b in Ok (negb (bool_decide (x = y)))
  | _, _ => Ok false
  end.

Definition differs_from (a : option Address) (b : Address) : result bool :=
  match a with Some a => let! x := address a in Ok (negb (bool_decide (x = b))) | None => Ok false end.

Definition check_signature (p : DeliveryAttestationPayload.t) (signature : string) : result rejection :=
  let! signature := canonicalBase64ToBytes signature in
  if negb (Nat.eqb (length signature) 64) then Ok (Some ("Ed25519 signature must be 64 bytes", "invalid_signature"))
  else
    let! key := newPublicKey p.(DeliveryAttestationPayload.seller) in
    let! canonical := canonicalDeliveryPayload p in
    let! ok := ed_verify key signature (text_encode canonical) in
    if negb ok then Ok (Some ("Delivery signature is invalid", "invalid_signature")) else Ok None.

(** The body of the [try]; [clock] is the time of [new Date()]. *)
Definition check_delivery (s : SignedDeliveryAttestation.t) (options : VerifyDeliveryOptions.t) (clock : Z) :
    result rejection :=
  let p := s.(SignedDeliveryAttestation.payload) in
  match options.(VerifyDeliveryOptions.trustedSellers) with
  | None => Ok (Some ("A trusted seller mapping is required to verify a delivery attestation.", "unknown_seller"))
  | Some mapping =>
      let! trustError := trustedSellerAllows p mapping in
      match trustError with
      | Some trustError => Ok (Some (trustError, "unknown_seller"))
      | None =>
          let receipt := options.(VerifyDeliveryOptions.receipt) in
          reject_if (differ (text_given mapping.(TrustedSellerMapping.recipientTokenAccount))
                       (ReceiptRef.recipientTokenAccount <$> receipt))
            "Trusted seller does not match receipt recipient" "recipient_mismatch"
          (reject_if (differs_from (text_given options.(VerifyDeliveryOptions.programId)) p.(DeliveryAttestationPayload.programId))
            "Delivery programId does not match expected program" "program_mismatch"
          (reject_if (differs_from (ReceiptRef.address <$> receipt) p.(DeliveryAttestationPayload.receiptAddress))
            "Delivery receiptAddress does not match the receipt" "receipt_mismatch"
          (let now := default (Some clock) options.(VerifyDeliveryOptions.now) in
           let servedAt := Date_parse_iso p.(DeliveryAttestationPayload.servedAt) in
           let skew := default (JInt 300000) options.(VerifyDeliveryOptions.maxFutureSkewMs) in
           reject_if (Ok match servedAt, now with Some t, Some now => int_gtb (t - now) skew | _, _ => false end)
             "Delivery servedAt is unreasonably far in the future" "invalid_timestamp"
           (check_signature p s.(SignedDeliveryAttestation.signature)))))
      end
  end.

Definition verifyDeliveryAttestation (envelope : value) (options : VerifyDeliveryOptions.t) (clock : Z) :
    DeliveryVerification.t :=
  match parseDeliveryEnvelope envelope with
  | Throw e => validationError e "invalid_payload" None
  | Ok parsed =>
      match check_delivery parsed options clock with
      | Throw e => validationError e "invalid_payload" (Some parsed.(SignedDeliveryAttestation.payload))
      | Ok (Some (reason, code)) => validationError reason code (Some parsed.(SignedDeliveryAttestation.payload))
      | Ok None => DeliveryVerification.mk true (Some parsed.(SignedDeliveryAttestation.payload)) None None
      end
  end.

Definition defaultTrustedSellerMapping (sellers : list Address) (programId : option Address) :
    result TrustedSellerMapping.t :=
  let! program := address (default DEFAULT_PROGRAM_ID programId) in
  let! sellers := traverse address sellers in
  Ok (TrustedSellerMapping.mk DELIVERY_CLUSTER program sellers None).

(** [{ payload, signature }] *)
Definition envelope_value (s : SignedDeliveryAttestation.t) : value :=
  VObject [("payload", payload_value s.(SignedDeliveryAttestation.payload));
           ("signature", VString s.(SignedDeliveryAttestation.signature))].
End Delivery.
