(* ===== verification/DeliveryProps.v ===== *)
(** * What a verified delivery attestation proves

    Verification decides exactly whether a statement is well formed, made for
    this receipt, by a seller of the mapping, and signed with the seller's key. *)
From Stdlib Require Import ZArith Lia Strings.Byte Strings.Ascii.
From stdpp Require Import base numbers sets strings list.
From S2P Require Import Prelude Bytes PublicKey Types Encoding Decimal Base64 Dates CardConstants CardPda Utf8 CardCommitment Values Signed Delivery.

(** ** The specification *)

Record well_formed `{PublicKeys} (p : DeliveryAttestationPayload.t) : Prop := {
  wf_program : valid_address p.(DeliveryAttestationPayload.programId);
  wf_receipt : valid_address p.(DeliveryAttestationPayload.receiptAddress);
  wf_seller : valid_address p.(DeliveryAttestationPayload.seller);
  wf_hash : is_content_hash p.(DeliveryAttestationPayload.contentHash) = true;
  wf_served : ∃ ms, FIRST_DAY * MS_PER_DAY <= ms < (LAST_DAY + 1) * MS_PER_DAY ∧
    p.(DeliveryAttestationPayload.servedAt) = toISOString ms;
}.

(** An object with exactly the fields of [w], in any order *)
Definition same_fields (keys : list string) (v w : value) : Prop :=
  ∃ fields, v = VObject fields ∧ (∀ k, k ∈ fields.*1 → k ∈ keys) ∧ ∀ k, field fields k = get w k.

(** The mapping and the options allow the statement. *)
Record allows `{PublicKeys} (options : VerifyDeliveryOptions.t) (clock : Z) (p : DeliveryAttestationPayload.t)
    (m : TrustedSellerMapping.t) : Prop := {
  al_mapping : options.(VerifyDeliveryOptions.trustedSellers) = Some m;
  al_cluster : m.(TrustedSellerMapping.cluster) = DELIVERY_CLUSTER;
  al_program : m.(TrustedSellerMapping.programId) = p.(DeliveryAttestationPayload.programId);
  al_sellers : Forall valid_address m.(TrustedSellerMapping.sellers);
  al_seller : p.(DeliveryAttestationPayload.seller) ∈ m.(TrustedSellerMapping.sellers);
  al_recipient a r : text_given m.(TrustedSellerMapping.recipientTokenAccount) = Some a →
    options.(VerifyDeliveryOptions.receipt) = Some r → a = r.(ReceiptRef.recipientTokenAccount) ∧ valid_address a;
  al_expected a : text_given options.(VerifyDeliveryOptions.programId) = Some a → a = p.(DeliveryAttestationPayload.programId);
  al_receipt r : options.(VerifyDeliveryOptions.receipt) = Some r → r.(ReceiptRef.address) = p.(DeliveryAttestationPayload.receiptAddress);
  al_time t now : Date_parse_iso p.(DeliveryAttestationPayload.servedAt) = Some t →
    default (Some clock) options.(VerifyDeliveryOptions.now) = Some now →
    int_gtb (t - now) (default (JInt 300000) options.(VerifyDeliveryOptions.maxFutureSkewMs)) = false;
}.

(** The seller's key accepts the signature of the canonical text. *)
Definition seller_signed `{PublicKeys, Ed25519, Codec} (p : DeliveryAttestationPayload.t) (signature : string) : Prop :=
  ∃ raw key, canonicalBase64ToBytes signature = Ok raw ∧ length raw = 64%nat ∧
    newPublicKey p.(DeliveryAttestationPayload.seller) = Ok key ∧
    ed_verify key raw (text_encode (JSON_stringify (payload_value p))) = Ok true.

(** ** The parser *)

Section Parsing.
Context `{K : PublicKeys, KS : !PublicKeysSpec K}.

Lemma parseDeliveryPayload_sound v p : parseDeliveryPayload v = Ok p → well_formed p ∧ same_fields PAYLOAD_KEYS v (payload_value p).
Proof.
  unfold parseDeliveryPayload. destruct (plain_object v) as [fields|] eqn:Ev; [|done]. apply plain_object_ok in Ev as ->.
  intros Hp. apply if_throw_ok in Hp as [Hver Hp]. apply orb_false_iff in Hver as [_ Hver].
  apply negb_false_iff, strict_eq_int in Hver.
  destruct (unknownKeys fields PAYLOAD_KEYS) as [|] eqn:Eu; [|done]. pose proof (proj1 (unknownKeys_nil _ _) Eu) as Hu.
  apply if_throw_ok in Hp as [Hst Hp]. apply negb_false_iff, strict_eq_string in Hst.
  apply if_throw_ok in Hp as [Hcl Hp]. apply negb_false_iff, strict_eq_string in Hcl.
  destruct (get _ "contentHash") as [| | | | |ch| |] eqn:Hch; try done. apply if_throw_ok in Hp as [Gch Hp]. apply negb_false_iff in Gch.
  destruct (get _ "servedAt") as [| | | | |sa| |] eqn:Hsa; try done. apply if_throw_ok in Hp as [Gsa Hp].
  apply negb_false_iff, isCanonicalUtcIso_iff in Gsa.
  destruct (get _ "programId") as [| | | | |pr| |] eqn:Hpr; try done. destruct (get _ "receiptAddress") as [| | | | |re| |] eqn:Hre; try done.
  destruct (get _ "seller") as [| | | | |se| |] eqn:Hse; try done.
  apply bind_ok in Hp as (a1 & [-> V1]%address_ok & Hp). apply bind_ok in Hp as (a2 & [-> V2]%address_ok & Hp).
  apply bind_ok in Hp as (a3 & [-> V3]%address_ok & Hp). injection Hp as <-. split; [by constructor|].
  exists fields. split; [done|]. split; [done|]. intros k. change (get (VObject fields)) with (field fields) in *.
  destruct (decide (k ∈ PAYLOAD_KEYS)) as [Hk|Hk].
  - unfold PAYLOAD_KEYS in Hk. rewrite !elem_of_cons in Hk. repeat destruct Hk as [->|Hk]; [done..|by apply not_elem_of_nil in Hk].
  - rewrite field_absent by (intros Hin; by apply Hk, Hu). symmetry. by apply field_absent.
Qed.

Lemma parseDeliveryPayload_complete v p :
  well_formed p → same_fields PAYLOAD_KEYS v (payload_value p) → parseDeliveryPayload v = Ok p.
Proof.
  intros [W1 W2 W3 W4 W5] (fields & -> & Hkeys & Hk). unfold parseDeliveryPayload. cbn [plain_object].
  assert ("version" ∈ fields.*1) as Hv.
  { destruct (decide ("version" ∈ fields.*1)) as [|Hn]; [done|]. apply field_absent in Hn. by rewrite Hk in Hn. }
  rewrite bool_decide_eq_true_2 by done. change (get (VObject fields)) with (field fields). rewrite !Hk.
  rewrite (proj2 (unknownKeys_nil _ _)) by done.
  apply isCanonicalUtcIso_iff in W5. destruct p as [pr re se ch sa].
  change (get _ "version") with (VNumber (JInt 1)). change (get _ "statement") with (VString DELIVERY_STATEMENT).
  change (get _ "cluster") with (VString DELIVERY_CLUSTER). change (get _ "contentHash") with (VString ch).
  change (get _ "servedAt") with (VString sa). change (get _ "programId") with (VString pr).
  change (get _ "receiptAddress") with (VString re). change (get _ "seller") with (VString se).
  change (is_content_hash ch = true) in W4. change (isCanonicalUtcIso sa = true) in W5.
  change (strict_eq (VNumber (JInt 1)) _) with true. change (strict_eq (VString DELIVERY_STATEMENT) _) with true.
  change (strict_eq (VString DELIVERY_CLUSTER) _) with true. cbv beta iota delta [negb orb]. rewrite W4, W5.
  cbn. by rewrite !address_valid.
Qed.

Lemma payload_same p : same_fields PAYLOAD_KEYS (payload_value p) (payload_value p).
Proof. eexists. split; [done|]. split; [intros k Hk; exact Hk|done]. Qed.

Lemma canonical_ok `{C : Codec} p : well_formed p → canonicalDeliveryPayload p = Ok (JSON_stringify (payload_value p)).
Proof. intros W. unfold canonicalDeliveryPayload. by rewrite (parseDeliveryPayload_complete _ p W (payload_same p)). Qed.
End Parsing.

(** ** Verification *)

Section Verification.
Context `{K : PublicKeys, KS : !PublicKeysSpec K, E : Ed25519, C : Codec}.

Lemma trusted_ok p m :
  trustedSellerAllows p m = Ok None ↔
  m.(TrustedSellerMapping.cluster) = DELIVERY_CLUSTER ∧ valid_address m.(TrustedSellerMapping.programId) ∧
  m.(TrustedSellerMapping.programId) = p.(DeliveryAttestationPayload.programId) ∧
  Forall valid_address m.(TrustedSellerMapping.sellers) ∧
  p.(DeliveryAttestationPayload.seller) ∈ m.(TrustedSellerMapping.sellers).
Proof.
  assert (∀ l xs, traverse address l = Ok xs ↔ Forall valid_address l ∧ xs = l) as Ht.
  { intros l xs. rewrite traverse_ok. split.
    - induction 1 as [|a x l xs [-> Ha]%address_ok _ [IH ->]]; [done|]. split; [by constructor|done].
    - intros [Hl ->]. induction Hl; constructor; [by apply address_valid|done]. }
  unfold trustedSellerAllows. case_bool_decide as Hc; cbn [negb]; [|split; [done|tauto]]. split.
  - intros Ho. apply bind_ok in Ho as (a & [-> Ha]%address_ok & Ho). case_bool_decide as Hp; cbn [negb] in Ho; [|done].
    apply bind_ok in Ho as (xs & [Hs ->]%Ht & Ho). case_bool_decide; cbn [negb] in Ho; done.
  - intros (_ & Ha & Hp & Hs & Hin). rewrite address_valid by done. cbn [bind].
    rewrite bool_decide_eq_true_2 by done. cbn [negb]. rewrite (proj2 (Ht _ _) (conj Hs eq_refl)). cbn [bind].
    by rewrite bool_decide_eq_true_2.
Qed.

Lemma reject_if_ok test reason code k : reject_if test reason code k = Ok None ↔ test = Ok false ∧ k = Ok None.
Proof. unfold reject_if. destruct test as [[]|]; cbn; split; try done; by intros [? ?]. Qed.

Lemma differ_ok a b :
  differ a b = Ok false ↔ ∀ x y, a = Some x → b = Some y → x = y ∧ valid_address x.
Proof.
  unfold differ. destruct a as [x|], b as [y|]; try (by split).
  split.
  - intros Ho x' y' [= <-] [= <-]. apply bind_ok in Ho as (? & [-> Hx]%address_ok & Ho).
    apply bind_ok in Ho as (? & [-> Hy]%address_ok & Ho). injection Ho as Ho. by bool_reflect.
  - intros Ho. destruct (Ho x y eq_refl eq_refl) as [-> Hv]. rewrite address_valid by done. cbn.
    by rewrite bool_decide_eq_true_2.
Qed.

Lemma differs_from_ok a b : valid_address b → differs_from a b = Ok false ↔ ∀ x, a = Some x → x = b.
Proof.
  intros Hb. unfold differs_from. destruct a as [x|]; [|by split]. split.
  - intros Ho x' [= <-]. apply bind_ok in Ho as (? & [-> Hx]%address_ok & Ho). injection Ho as Ho. by bool_reflect.
  - intros Ho. rewrite (Ho x eq_refl), address_valid by done. cbn. by rewrite bool_decide_eq_true_2.
Qed.

Lemma seller_signature_ok p sig : well_formed p → check_signature p sig = Ok None ↔ seller_signed p sig.
Proof.
  intros W. unfold check_signature, seller_signed. rewrite (canonical_ok p W). split.
  - intros Ho. apply bind_ok in Ho as (raw & Hraw & Ho). destruct (Nat.eqb_spec (length raw) 64) as [Hl|]; [|done].
    cbn [negb] in Ho. apply bind_ok in Ho as (key & Hkey & Ho). cbn [bind] in Ho. apply bind_ok in Ho as (ok & Hok & Ho).
    destruct ok; [|done]. eauto 10.
  - intros (raw & key & Hraw & Hl & Hkey & Hok). rewrite Hraw. cbn [bind]. rewrite Hl. cbn [Nat.eqb negb].
    rewrite Hkey. cbn [bind]. by rewrite Hok.
Qed.

Lemma check_delivery_ok p sig options clock :
  well_formed p →
  check_delivery (SignedDeliveryAttestation.mk p sig) options clock = Ok None ↔
  (∃ m, allows options clock p m) ∧ seller_signed p sig.
Proof.
  intros W. unfold check_delivery. cbn [SignedDeliveryAttestation.payload SignedDeliveryAttestation.signature].
  destruct (VerifyDeliveryOptions.trustedSellers options) as [m|] eqn:Em; [|split; [done|intros [(m & []) _]; congruence]].
  split.
  - intros Ho. apply bind_ok in Ho as ([e|] & Ht & Ho); [done|]. apply trusted_ok in Ht as (Hc & Hv & Hp & Hs & Hin).
    rewrite !reject_if_ok in Ho. destruct Ho as (H1 & H2 & H3 & H4 & H5). apply seller_signature_ok in H5; [|done].
    split; [|done]. exists m. rewrite differ_ok in H1.
    rewrite differs_from_ok in H2 by apply W. rewrite differs_from_ok in H3 by apply W. injection H4 as H4.
    constructor; try done.
    + intros a r Ha Hr. apply (H1 a _ Ha). by rewrite Hr.
    + intros r Hr. apply H3. by rewrite Hr.
    + intros t now Ht Hn. by rewrite Ht, Hn in H4.
  - intros [(m' & []) Hsig]. assert (m' = m) as -> by congruence.
    rewrite (proj2 (trusted_ok p m)) by (split_and!; try done; rewrite al_program0; apply W). cbn [bind].
    rewrite !reject_if_ok, differ_ok, !differs_from_ok, seller_signature_ok by (done || apply W). split_and!; try done.
    + intros x y Hx Hy. destruct (VerifyDeliveryOptions.receipt options) as [r|] eqn:Er; [|done]. injection Hy as <-. auto.
    + intros x Hx. destruct (VerifyDeliveryOptions.receipt options) as [r|] eqn:Er; [|done]. injection Hx as <-. auto.
    + f_equal. destruct (Date_parse_iso _) as [t|] eqn:Et; [|done]. destruct (default _ _) as [now|] eqn:En; [|done]. auto.
Qed.
End Verification.

(** ** The theorems *)

Section Theorems.
Context `{K : PublicKeys, KS : !PublicKeysSpec K, E : Ed25519, ES : !Ed25519Spec E, C : Codec}.

Lemma envelope_ok v s :
  parseDeliveryEnvelope v = Ok s ↔
  ∃ fields, v = VObject fields ∧ (∀ k, k ∈ fields.*1 → k ∈ ENVELOPE_KEYS) ∧
    field fields "signature" = VString s.(SignedDeliveryAttestation.signature) ∧
    well_formed s.(SignedDeliveryAttestation.payload) ∧
    same_fields PAYLOAD_KEYS (field fields "payload") (payload_value s.(SignedDeliveryAttestation.payload)).
Proof.
  unfold parseDeliveryEnvelope. split.
  - destruct (plain_object v) as [fields|] eqn:Ev; [|done]. apply plain_object_ok in Ev as ->.
    destruct (unknownKeys fields ENVELOPE_KEYS) eqn:Eu; [|done]. pose proof (proj1 (unknownKeys_nil _ _) Eu) as Hu.
    cbn [get]. destruct (field fields "signature") as [| | | | |sg| |] eqn:Es; try done. intros Ho.
    apply bind_ok in Ho as (p & [W Hp]%parseDeliveryPayload_sound & Ho). injection Ho as <-. eauto 10.
  - intros (fields & -> & Hu & Hs & W & Hp). cbn [plain_object get]. rewrite (proj2 (unknownKeys_nil _ _)), Hs by done.
    rewrite (parseDeliveryPayload_complete _ _ W Hp). by destruct s.
Qed.

(** A delivery attestation verifies exactly when it is an object with no
      field beyond payload and signature, whose payload holds the eight fields of
      a well-formed statement and no other, a trusted mapping is given and allows
      it (its cluster, program and seller, the receipt it is checked against, the
      clock), and the seller's key signed its canonical text. *)
Theorem delivery_verified_iff (envelope : value) (options : VerifyDeliveryOptions.t) (clock : Z)
    (p : DeliveryAttestationPayload.t) :
  verifyDeliveryAttestation envelope options clock = DeliveryVerification.mk true (Some p) None None ↔
  ∃ fields sig, envelope = VObject fields ∧ (∀ k, k ∈ fields.*1 → k ∈ ENVELOPE_KEYS) ∧
    field fields "signature" = VString sig ∧ well_formed p ∧
    same_fields PAYLOAD_KEYS (field fields "payload") (payload_value p) ∧
    (∃ m, allows options clock p m) ∧ seller_signed p sig.
Proof.
  unfold verifyDeliveryAttestation. split.
  - destruct (parseDeliveryEnvelope envelope) as [[q sig]|] eqn:Ep; [|done].
    apply envelope_ok in Ep as (fields & -> & Hk & Hs & W & Hp).
    destruct (check_delivery _ _ _) as [[[r c]|]|] eqn:Ec; try done. apply check_delivery_ok in Ec as [Ha Hsig]; [|done].
    intros [= <-]. eauto 10.
  - intros (fields & sig & -> & Hk & Hs & W & Hp & Ha & Hsig).
    rewrite (proj2 (envelope_ok _ (SignedDeliveryAttestation.mk p sig))) by eauto 10.
    by rewrite (proj2 (check_delivery_ok p sig options clock W)).
Qed.

(** What a seller signs verifies: the attestation signed with the key whose
      public half is the payload's seller passes verification under any mapping
      and options that allow it. *)
Theorem signed_delivery_verifies (payload : value) (secretKey seed : bytes) (key : private_key) (public : bytes)
    (s : SignedDeliveryAttestation.t) (options : VerifyDeliveryOptions.t) (clock : Z) (m : TrustedSellerMapping.t) :
  ed25519Seed secretKey = Ok seed → import_pkcs8 (pkcs8FromSeed seed) = Ok key →
  jwk_x key = Some (bytesToBase64Url public) →
  s.(SignedDeliveryAttestation.payload).(DeliveryAttestationPayload.seller) = toBase58 public →
  signDeliveryAttestation payload secretKey = Ok s →
  allows options clock s.(SignedDeliveryAttestation.payload) m →
  verifyDeliveryAttestation (envelope_value s) options clock
    = DeliveryVerification.mk true (Some s.(SignedDeliveryAttestation.payload)) None None.
Proof.
  intros Hseed Hkey Hx Hseller Hs Ha. unfold signDeliveryAttestation in Hs.
  apply bind_ok in Hs as (p & [W _]%parseDeliveryPayload_sound & Hs). rewrite canonical_ok in Hs by done. cbn [bind] in Hs.
  rewrite Hseed in Hs. cbn [bind] in Hs. rewrite Hkey in Hs. injection Hs as <-. cbn in Hseller, Ha.
  apply ed25519Seed_length, ed_pair in Hseed as (key' & public' & Hkey' & Hx' & Hl & Hsig).
  unfold pkcs8FromSeed in Hkey. rewrite Hkey in Hkey'. injection Hkey' as <-. rewrite Hx in Hx'. injection Hx' as Hx'.
  apply (f_equal base64UrlToBytes) in Hx'. rewrite !base64Url_roundtrip in Hx'. injection Hx' as <-.
  destruct (Hsig (text_encode (JSON_stringify (payload_value p)))) as [Hsl Hok].
  set (sig := ed_sign key (text_encode (JSON_stringify (payload_value p)))) in *.
  unfold verifyDeliveryAttestation.
  rewrite (proj2 (envelope_ok _ (SignedDeliveryAttestation.mk p (bytesToCanonicalBase64 sig)))).
  - rewrite (proj2 (check_delivery_ok p _ options clock W)); [done|]. split; [by exists m|].
    exists sig, public. split_and!; try done.
    + apply canonicalBase64_roundtrip. intros En. by rewrite En in Hsl.
    + rewrite Hseller. by apply newPublicKey_toBase58.
  - eexists. split; [done|]. split; [intros k Hk; exact Hk|]. split; [done|]. split; [done|]. apply payload_same.
Qed.
End Theorems.

(** ** A delivery *)

Section Example_.
#[local] Existing Instance Base58.keys.
#[local] Existing Instance ModelEd25519.keys.
#[local] Existing Instance JsonCodec.codec.

Definition sample_seller : Address := Eval vm_compute in toBase58 (replicate 32 x07).
Definition sample_receipt : Address := Eval vm_compute in toBase58 (replicate 32 x0b).
Definition sample_hash : string := "8e60b641218418bde0cde3b190a028e846ccebed8dc804901b8e6f87b9072eee".

Definition sample_statement : value :=
  VObject [("seller", VString sample_seller); ("version", VNumber (JInt 1)); ("statement", VString "chainpay.response-served");
    ("cluster", VString "devnet"); ("programId", VString DEFAULT_PROGRAM_ID); ("receiptAddress", VString sample_receipt);
    ("contentHash", VString sample_hash); ("servedAt", VString "2026-09-15T04:16:00.000Z")].

Definition sample_delivery : SignedDeliveryAttestation.t :=
  Eval vm_compute in match signDeliveryAttestation sample_statement (replicate 64 x07) with
    | Ok s => s | Throw _ => SignedDeliveryAttestation.mk (DeliveryAttestationPayload.mk "" "" "" "" "") "" end.

Lemma sample_delivery_ok : signDeliveryAttestation sample_statement (replicate 64 x07) = Ok sample_delivery.
Proof. vm_compute. reflexivity. Qed.

Definition sample_mapping : TrustedSellerMapping.t :=
  TrustedSellerMapping.mk "devnet" DEFAULT_PROGRAM_ID [sample_receipt; sample_seller] (Some "").
Definition sample_options : VerifyDeliveryOptions.t :=
  VerifyDeliveryOptions.mk (Some sample_mapping) (Some (ReceiptRef.mk sample_receipt "any")) None None None.
Definition sample_clock : Z := 1789445700000.

Lemma sample_valid s : is_ok (@newPublicKey Base58.keys s) = true → valid_address s.
Proof. intros [k Hk]%is_ok_true. by exists k. Qed.

Lemma sample_allows : allows sample_options sample_clock sample_delivery.(SignedDeliveryAttestation.payload) sample_mapping.
Proof.
  constructor; try done.
  - repeat constructor; apply sample_valid; vm_compute; reflexivity.
  - right. by left.
  - intros r [= <-]. done.
  - intros t now Ht [= <-]. vm_compute in Ht. injection Ht as <-. done.
Qed.

Lemma delivery_verified_iff_witness :
  ∃ fields sig, envelope_value sample_delivery = VObject fields ∧ (∀ k, k ∈ fields.*1 → k ∈ ENVELOPE_KEYS) ∧
    field fields "signature" = VString sig ∧ well_formed sample_delivery.(SignedDeliveryAttestation.payload) ∧
    same_fields PAYLOAD_KEYS (field fields "payload") (payload_value sample_delivery.(SignedDeliveryAttestation.payload)) ∧
    (∃ m, allows sample_options sample_clock sample_delivery.(SignedDeliveryAttestation.payload) m) ∧
    seller_signed sample_delivery.(SignedDeliveryAttestation.payload) sig.
Proof.
  apply (@delivery_verified_iff Base58.keys Base58.keys_spec ModelEd25519.keys JsonCodec.codec
    (envelope_value sample_delivery) sample_options sample_clock sample_delivery.(SignedDeliveryAttestation.payload)).
  vm_compute. reflexivity.
Defined.

Lemma signed_delivery_verifies_witness :
  verifyDeliveryAttestation (envelope_value sample_delivery) sample_options sample_clock
    = DeliveryVerification.mk true (Some sample_delivery.(SignedDeliveryAttestation.payload)) None None.
Proof.
  apply (@signed_delivery_verifies Base58.keys Base58.keys_spec ModelEd25519.keys ModelEd25519.keys_spec JsonCodec.codec
    sample_statement (replicate 64 x07) (replicate 32 x07) (replicate 32 x07) (replicate 32 x07)
    sample_delivery sample_options sample_clock sample_mapping).
  - vm_compute. reflexivity.
  - vm_compute. reflexivity.
  - vm_compute. reflexivity.
  - vm_compute. reflexivity.
  - exact sample_delivery_ok.
  - exact sample_allows.
Defined.

(** A throwaway key, an unlisted seller, no mapping *)
Example unlisted_refused :
  DeliveryVerification.code (verifyDeliveryAttestation (envelope_value sample_delivery)
    (VerifyDeliveryOptions.mk (Some (TrustedSellerMapping.mk "devnet" DEFAULT_PROGRAM_ID [sample_receipt] None)) None None None None)
    sample_clock) = Some "unknown_seller".
Proof. vm_compute. reflexivity. Qed.

Example unmapped_refused :
  DeliveryVerification.code (verifyDeliveryAttestation (envelope_value sample_delivery)
    (VerifyDeliveryOptions.mk None None None None None) sample_clock) = Some "unknown_seller".
Proof. vm_compute. reflexivity. Qed.

(** A date that is not in the calendar *)
Example false_date_refused : isCanonicalUtcIso "2025-02-29T04:16:00.000Z" = false.
Proof. reflexivity. Qed.
End Example_.
