(* ===== verification/PaymentRequest.v ===== *)
(** * Signed payment requests (sdk/src/payment-request.ts)

    A merchant signs what it asks to be paid; the hash of the canonical text is
    the invoice hash of the payment, so a settled receipt can be matched with the
    request it paid.  The payload has its declared types, except for the two
    fields whose types the code checks itself. *)
From Stdlib Require Import ZArith Lia Strings.Byte Strings.Ascii.
From stdpp Require Import base numbers sets strings list.
From S2P Require Import Prelude Bytes PublicKey Types Encoding Decimal Base64 CardConstants CardPda Utf8 CardCommitment Values Signed.

Definition MAX_U64 : Z := 18446744073709551615.
Definition MAX_PAYMENT_REQUEST_DESCRIPTION_LENGTH : nat := 280.
Definition MAX_PAYMENT_REQUEST_LINE_ITEMS : nat := 20.
Definition MAX_PAYMENT_REQUEST_LINE_ITEM_LABEL_LENGTH : nat := 120.
Definition MAX_QUANTITY_LENGTH : nat := 32.

Module PaymentRequestPayload.
Record t : Type := mk {
  version : number;
  cluster : string;
  merchant : Address;
  invoice : string;
  mint : Address;
  tokenProgram : string;
  recipient : Address;
  amount : string;
  decimals : number;
  nonce : string;
  expiresAtSlot : option string;
  resource : option string;
  description : value;
  lineItems : value;
}.
End PaymentRequestPayload.

Module SignedPaymentRequest.
Record t : Type := mk { payload : PaymentRequestPayload.t; signature : string }.
End SignedPaymentRequest.

Module PaymentRequestVerification.
Record t : Type := mk { valid : bool; payload : PaymentRequestPayload.t; invoiceHash : bytes; reason : option string }.
End PaymentRequestVerification.

(** ** The canonical text *)

(** [!item || typeof item !== "object"] *)
Definition not_object (v : value) : bool :=
  match v with VObject _ | VArray _ | VLossless _ => false | _ => true end.

(** [...(v === undefined ? {} : { name: v })] *)
Definition given (name : string) (v : value) : list (string * value) := if undefined v then [] else [(name, v)].

Definition orderedLineItem (item : value) : value :=
  if not_object item then item
  else VObject (("label", get item "label") :: given "amount" (get item "amount") ++ given "quantity" (get item "quantity")).

Definition ordered_items (v : value) : value :=
  match v with VArray items => VArray (map orderedLineItem items) | v => v end.

Definition payload_value (p : PaymentRequestPayload.t) : value :=
  VObject (
    [("version", VNumber p.(PaymentRequestPayload.version)); ("cluster", VString p.(PaymentRequestPayload.cluster));
     ("merchant", VString p.(PaymentRequestPayload.merchant)); ("invoice", VString p.(PaymentRequestPayload.invoice));
     ("mint", VString p.(PaymentRequestPayload.mint)); ("tokenProgram", VString p.(PaymentRequestPayload.tokenProgram));
     ("recipient", VString p.(PaymentRequestPayload.recipient)); ("amount", VString p.(PaymentRequestPayload.amount));
     ("decimals", VNumber p.(PaymentRequestPayload.decimals)); ("nonce", VString p.(PaymentRequestPayload.nonce))]
    ++ present "expiresAtSlot" p.(PaymentRequestPayload.expiresAtSlot)
    ++ present "resource" p.(PaymentRequestPayload.resource)
    ++ given "description" p.(PaymentRequestPayload.description)
    ++ given "lineItems" p.(PaymentRequestPayload.lineItems)).

(** ** What was bought *)

Definition codePoints (s : string) : nat := String.length s.

(** [/[\u0000-\u001f\u007f-\u009f]/.test(s)] *)
Definition has_control (s : string) : bool :=
  existsb (λ c, let n := char_code c in (n <=? 31) || (127 <=? n) && (n <=? 159)) (chars s).

(** Text that is not blank, within a length, on one line *)
Definition line_of_text (max : nat) (s : string) : bool :=
  negb (bool_decide (trim s = "")) && Nat.leb (codePoints s) max && negb (has_control s).

Definition descriptionError (description : value) : option string :=
  let bounds := "Description must be 1 to " +:+ toString (Z.of_nat MAX_PAYMENT_REQUEST_DESCRIPTION_LENGTH) +:+ " characters" in
  match description with
  | VUndefined => None
  | VString s =>
      if bool_decide (trim s = "") || Nat.ltb MAX_PAYMENT_REQUEST_DESCRIPTION_LENGTH (codePoints s) then Some bounds
      else if has_control s then Some "Description must be a single line of text"
      else None
  | _ => Some bounds
  end.

Definition labelError (label : value) : bool :=
  match label with VString s => negb (line_of_text MAX_PAYMENT_REQUEST_LINE_ITEM_LABEL_LENGTH s) | _ => true end.

Definition amountError (amount : value) : bool :=
  match amount with
  | VUndefined => false
  | VString s => negb (all_digits s) || (MAX_U64 <? BigInt s)
  | _ => true
  end.

Definition quantityError (quantity : value) : bool :=
  match quantity with
  | VUndefined => false
  | VString s => Nat.ltb MAX_QUANTITY_LENGTH (String.length s) || negb (bool_decide (is_Some (split_amount s)))
  | _ => true
  end.

Fixpoint itemsError (items : list value) : option string :=
  match items with
  | [] => None
  | item :: items =>
      if not_object item then Some "Each line item must be an object"
      else if labelError (get item "label") then
        Some ("Each line item label must be one line of 1 to "
              +:+ toString (Z.of_nat MAX_PAYMENT_REQUEST_LINE_ITEM_LABEL_LENGTH) +:+ " characters")
      else if amountError (get item "amount") then Some "Line item amount must be an unsigned integer string in base units"
      else if quantityError (get item "quantity") then Some "Line item quantity must be an unsigned decimal string"
      else itemsError items
  end.

Definition lineItemsError (lineItems : value) : option string :=
  let bounds := "Line items must contain 1 to " +:+ toString (Z.of_nat MAX_PAYMENT_REQUEST_LINE_ITEMS) +:+ " items" in
  match lineItems with
  | VUndefined => None
  | VArray items =>
      if Nat.eqb (length items) 0 || Nat.ltb MAX_PAYMENT_REQUEST_LINE_ITEMS (length items) then Some bounds
      else itemsError items
  | _ => Some bounds
  end.

Definition paymentRequestPurposeError (p : PaymentRequestPayload.t) : option string :=
  match descriptionError p.(PaymentRequestPayload.description) with
  | Some e => Some e
  | None => lineItemsError p.(PaymentRequestPayload.lineItems)
  end.

Definition base64Bytes (s : string) : result bytes :=
  match atob_chars (map std_char (chars s)) with
  | Some bs => Ok bs
  | None => Throw "The string to be decoded is not correctly encoded."
  end.

(** ** Verification *)

Section Verification.
Context `{K : PublicKeys, E : Ed25519, H : Sha256, C : Codec}.

Definition orderedPayload (p : PaymentRequestPayload.t) : result PaymentRequestPayload.t :=
  let! merchant := address p.(PaymentRequestPayload.merchant) in
  let! mint := address p.(PaymentRequestPayload.mint) in
  let! recipient := address p.(PaymentRequestPayload.recipient) in
  Ok (PaymentRequestPayload.mk (JInt 1) p.(PaymentRequestPayload.cluster) merchant p.(PaymentRequestPayload.invoice) mint
    p.(PaymentRequestPayload.tokenProgram) recipient p.(PaymentRequestPayload.amount) p.(PaymentRequestPayload.decimals)
    p.(PaymentRequestPayload.nonce) p.(PaymentRequestPayload.expiresAtSlot) p.(PaymentRequestPayload.resource)
    p.(PaymentRequestPayload.description) (ordered_items p.(PaymentRequestPayload.lineItems))).

Definition canonicalPaymentRequest (p : PaymentRequestPayload.t) : result string :=
  let! ordered := orderedPayload p in Ok (JSON_stringify (payload_value ordered)).

Definition validationError (payload : PaymentRequestPayload.t) (reason : string) : PaymentRequestVerification.t :=
  PaymentRequestVerification.mk false payload (zero_bytes 32) (Some reason).

Definition check_expiry (p : PaymentRequestPayload.t) (currentSlot : option Z) : result unit :=
  match p.(PaymentRequestPayload.expiresAtSlot) with
  | None => Ok tt
  | Some s =>
      throw_if! negb (all_digits s) with "Expiry slot must be an unsigned integer";
      throw_if! match currentSlot with Some slot => BigInt s <=? slot | None => false end
        with "Payment request has expired";
      Ok tt
  end.

(** The checks before the signature, on an ordered payload *)
Definition check_terms (p : PaymentRequestPayload.t) (currentSlot : option Z) : result unit :=
  throw_if! negb (bool_decide (p.(PaymentRequestPayload.version) = JInt 1)) with "Unsupported payment request version";
  throw_if! negb (bool_decide (p.(PaymentRequestPayload.cluster) = "devnet"))
            && negb (bool_decide (p.(PaymentRequestPayload.cluster) = "mainnet-beta")) with "Unsupported Solana cluster";
  throw_if! bool_decide (trim p.(PaymentRequestPayload.invoice) = "") || bool_decide (trim p.(PaymentRequestPayload.nonce) = "")
    with "Payment request invoice and nonce are required";
  throw_if! negb (all_digits p.(PaymentRequestPayload.amount)) with "Amount must be an unsigned integer string";
  let amount := BigInt p.(PaymentRequestPayload.amount) in
  throw_if! (amount <=? 0) || (MAX_U64 <? amount) with "Amount must fit in u64 and be positive";
  throw_if! out_of_range p.(PaymentRequestPayload.decimals) 0 255 with "Decimals must be between 0 and 255";
  throw_if! negb (bool_decide (p.(PaymentRequestPayload.tokenProgram) = "spl-token"))
            && negb (bool_decide (p.(PaymentRequestPayload.tokenProgram) = "token-2022")) with "Unsupported token program";
  let! _ := address p.(PaymentRequestPayload.merchant) in
  let! _ := address p.(PaymentRequestPayload.mint) in
  let! _ := address p.(PaymentRequestPayload.recipient) in
  match paymentRequestPurposeError p with
  | Some e => Throw e
  | None => check_expiry p currentSlot
  end.

(** The signature check; returns the canonical bytes. *)
Definition check_signature (p : PaymentRequestPayload.t) (signature : string) : result bytes :=
  let! signature := base64Bytes signature in
  throw_if! negb (Nat.eqb (length signature) 64) with "Ed25519 signature must be 64 bytes";
  let! merchant := newPublicKey p.(PaymentRequestPayload.merchant) in
  let! canonical := canonicalPaymentRequest p in
  let message := text_encode canonical in
  let! ok := ed_verify merchant signature message in
  throw_if! negb ok with "Payment request signature is invalid";
  Ok message.

(** An address that does not parse in the request itself is a rejection of the
    promise: the payload is ordered before the [try]. *)
Definition verifyPaymentRequest (request : SignedPaymentRequest.t) (currentSlot : option Z) :
    result PaymentRequestVerification.t :=
  let raw := request.(SignedPaymentRequest.payload) in
  if negb (bool_decide (raw.(PaymentRequestPayload.version) = JInt 1))
  then Ok (validationError raw "Unsupported payment request version")
  else
    let! payload := orderedPayload raw in
    Ok match (let! _ := check_terms payload currentSlot in check_signature payload request.(SignedPaymentRequest.signature)) with
       | Ok message => PaymentRequestVerification.mk true payload (sha256 message) None
       | Throw e => validationError payload e
       end.
End Verification.

(** ** The receipt of a purchase *)

Inductive ReceiptPurchaseMismatch : Type := mismatch_amount | mismatch_mint | mismatch_recipient.

#[export] Instance ReceiptPurchaseMismatch_eq_dec : EqDecision ReceiptPurchaseMismatch.
Proof. solve_decision. Defined.

Definition mismatch_name (m : ReceiptPurchaseMismatch) : string :=
  match m with mismatch_amount => "amount" | mismatch_mint => "mint" | mismatch_recipient => "recipient" end.

Module ReceiptPurchaseVerification.
Record t : Type := mk {
  valid : bool;
  matched : bool;
  signatureValid : bool;
  hashMatches : bool;
  mismatches : list ReceiptPurchaseMismatch;
  payload : PaymentRequestPayload.t;
  invoiceHash : bytes;
  reason : option string;
}.
End ReceiptPurchaseVerification.

(** The fields of the receipt that are compared *)
Module PaidReceipt.
Record t : Type := mk { invoiceHash : bytes; amount : Z; mint : Address; recipientTokenAccount : Address }.
End PaidReceipt.

Definition bytesEqual (left right : bytes) : bool :=
  Nat.eqb (length left) (length right) && forallb (λ p, byte_val p.1 =? byte_val p.2) (zip left right).

Definition purchase_mismatches (p : PaymentRequestPayload.t) (receipt : PaidReceipt.t) : list ReceiptPurchaseMismatch :=
  (if BigInt p.(PaymentRequestPayload.amount) =? receipt.(PaidReceipt.amount) then [] else [mismatch_amount])
  ++ (if bool_decide (p.(PaymentRequestPayload.mint) = receipt.(PaidReceipt.mint)) then [] else [mismatch_mint])
  ++ (if bool_decide (p.(PaymentRequestPayload.recipient) = receipt.(PaidReceipt.recipientTokenAccount)) then []
      else [mismatch_recipient]).

Definition verifyReceiptPurchase `{PublicKeys, Ed25519, Sha256, Codec} (receipt : PaidReceipt.t)
    (signedRequest : SignedPaymentRequest.t) : result ReceiptPurchaseVerification.t :=
  let! verification := verifyPaymentRequest signedRequest None in
  let payload := verification.(PaymentRequestVerification.payload) in
  let hash := verification.(PaymentRequestVerification.invoiceHash) in
  Ok (
    if negb verification.(PaymentRequestVerification.valid)
    then ReceiptPurchaseVerification.mk false false false false [] payload hash verification.(PaymentRequestVerification.reason)
    else if negb (bytesEqual hash receipt.(PaidReceipt.invoiceHash))
    then ReceiptPurchaseVerification.mk false false true false [] payload hash
           (Some "This request is not the one this receipt paid: its hash differs from the receipt's invoice hash")
    else
      let mismatches := purchase_mismatches payload receipt in
      ReceiptPurchaseVerification.mk true (bool_decide (mismatches = [])) true true mismatches payload hash
        (if bool_decide (mismatches = []) then None
         else Some ("The receipt paid a different " +:+ String.concat ", " (map mismatch_name mismatches)
                    +:+ " than the request named"))).
