(* ===== verification/PaymentRequestProps.v ===== *)
(** * What a merchant-signed request proves about a receipt

    Which requests verify, when a receipt is the purchase of a request, and that
    one receipt is the purchase of one request. *)
From Stdlib Require Import ZArith Lia Strings.Byte Strings.Ascii.
From stdpp Require Import base numbers sets strings list.
From S2P Require Import Prelude Bytes PublicKey Types Encoding Decimal Base64 CardConstants CardPda Utf8 CardCommitment Values Signed PaymentRequest.

(** ** The specification *)

Definition plain_line (max : nat) (s : string) : Prop :=
  trim s ≠ "" ∧ (String.length s <= max)%nat ∧ has_control s = false.

(** A line item: a label, and an amount and a quantity if any *)
Definition item_ok (item : value) : Prop :=
  not_object item = false ∧
  (∃ s, get item "label" = VString s ∧ plain_line 120 s) ∧
  (get item "amount" = VUndefined ∨ ∃ s, get item "amount" = VString s ∧ all_digits s = true ∧ BigInt s <= MAX_U64) ∧
  (get item "quantity" = VUndefined ∨
     ∃ s, get item "quantity" = VString s ∧ (String.length s <= 32)%nat ∧ is_Some (split_amount s)).

Definition description_ok (v : value) : Prop := v = VUndefined ∨ ∃ s, v = VString s ∧ plain_line 280 s.
Definition items_ok (v : value) : Prop :=
  v = VUndefined ∨ ∃ items, v = VArray items ∧ (1 <= length items <= 20)%nat ∧ Forall item_ok items.

Definition unexpired (expiresAtSlot : option string) (slot : option Z) : Prop :=
  ∀ s, expiresAtSlot = Some s → all_digits s = true ∧ ∀ now, slot = Some now → now < BigInt s.

(** What the terms of a request must be *)
Record acceptable `{PublicKeys} (p : PaymentRequestPayload.t) (slot : option Z) : Prop := {
  ac_version : p.(PaymentRequestPayload.version) = JInt 1;
  ac_cluster : p.(PaymentRequestPayload.cluster) ∈ ["devnet"; "mainnet-beta"];
  ac_merchant : valid_address p.(PaymentRequestPayload.merchant);
  ac_mint : valid_address p.(PaymentRequestPayload.mint);
  ac_recipient : valid_address p.(PaymentRequestPayload.recipient);
  ac_invoice : trim p.(PaymentRequestPayload.invoice) ≠ "";
  ac_nonce : trim p.(PaymentRequestPayload.nonce) ≠ "";
  ac_amount : all_digits p.(PaymentRequestPayload.amount) = true ∧ 0 < BigInt p.(PaymentRequestPayload.amount) <= MAX_U64;
  ac_decimals : ∃ d, p.(PaymentRequestPayload.decimals) = JInt d ∧ 0 <= d <= 255;
  ac_program : p.(PaymentRequestPayload.tokenProgram) ∈ ["spl-token"; "token-2022"];
  ac_description : description_ok p.(PaymentRequestPayload.description);
  ac_items : items_ok p.(PaymentRequestPayload.lineItems);
  ac_expiry : unexpired p.(PaymentRequestPayload.expiresAtSlot) slot;
}.

(** The payload with its line items in canonical order *)
Definition canonical_form (p : PaymentRequestPayload.t) : PaymentRequestPayload.t :=
  PaymentRequestPayload.mk (JInt 1) p.(PaymentRequestPayload.cluster) p.(PaymentRequestPayload.merchant)
    p.(PaymentRequestPayload.invoice) p.(PaymentRequestPayload.mint) p.(PaymentRequestPayload.tokenProgram)
    p.(PaymentRequestPayload.recipient) p.(PaymentRequestPayload.amount) p.(PaymentRequestPayload.decimals)
    p.(PaymentRequestPayload.nonce) p.(PaymentRequestPayload.expiresAtSlot) p.(PaymentRequestPayload.resource)
    p.(PaymentRequestPayload.description) (ordered_items p.(PaymentRequestPayload.lineItems)).

(** The bytes that are signed and hashed *)
Definition message_of `{Codec} (p : PaymentRequestPayload.t) : bytes :=
  text_encode (JSON_stringify (payload_value (canonical_form p))).

Definition merchant_signed `{PublicKeys, Ed25519, Codec} (p : PaymentRequestPayload.t) (signature : string) : Prop :=
  ∃ raw key, base64Bytes signature = Ok raw ∧ length raw = 64%nat ∧
    newPublicKey p.(PaymentRequestPayload.merchant) = Ok key ∧ ed_verify key raw (message_of p) = Ok true.

(** ** Canonical order *)

Lemma get_given n v rest k :
  field (given n v ++ rest) k = if bool_decide (n = k) && negb (undefined v) then v else field rest k.
Proof. unfold given. destruct (undefined v) eqn:E; cbn; [by rewrite andb_false_r|]. by rewrite andb_true_r. Qed.

Lemma ordered_item_get item k :
  k ∈ ["label"; "amount"; "quantity"] → not_object item = false → get (orderedLineItem item) k = get item k.
Proof.
  intros Hk Ho. unfold orderedLineItem. rewrite Ho. rewrite !elem_of_cons in Hk.
  destruct Hk as [->|[->|[->|Hk]]]; [done|..|by apply not_elem_of_nil in Hk]; cbn [get field].
  - change (bool_decide ("label" = "amount")) with false. cbv iota. rewrite get_given.
    change (bool_decide ("amount" = "amount")) with true. destruct (get item "amount"); try done.
    rewrite <- (app_nil_r (given "quantity" _)), get_given. done.
  - change (bool_decide ("label" = "quantity")) with false. cbv iota. rewrite get_given.
    change (bool_decide ("amount" = "quantity")) with false. cbn [andb].
    rewrite <- (app_nil_r (given "quantity" _)), get_given.
    change (bool_decide ("quantity" = "quantity")) with true. by destruct (get item "quantity").
Qed.

Lemma ordered_item_object item : not_object (orderedLineItem item) = not_object item.
Proof. unfold orderedLineItem. by destruct (not_object item) eqn:E. Qed.

Lemma ordered_item_twice item : orderedLineItem (orderedLineItem item) = orderedLineItem item.
Proof.
  destruct (not_object item) eqn:E.
  - unfold orderedLineItem at 2 3. rewrite E. unfold orderedLineItem. by rewrite E.
  - unfold orderedLineItem at 1. rewrite ordered_item_object, E, !ordered_item_get by (done || set_solver).
    unfold orderedLineItem. by rewrite E.
Qed.

Lemma ordered_items_twice v : ordered_items (ordered_items v) = ordered_items v.
Proof.
  destruct v; try done. cbn. f_equal. rewrite map_map. apply map_ext. apply ordered_item_twice.
Qed.

Lemma canonical_form_twice p : canonical_form (canonical_form p) = canonical_form p.
Proof. unfold canonical_form. cbn. by rewrite ordered_items_twice. Qed.

Lemma message_canonical `{Codec} p : message_of (canonical_form p) = message_of p.
Proof. unfold message_of. by rewrite canonical_form_twice. Qed.

Lemma item_ok_ordered item : item_ok (orderedLineItem item) ↔ item_ok item.
Proof.
  unfold item_ok. rewrite ordered_item_object. split; intros (Ho & Hrest); (split; [done|]);
    rewrite !ordered_item_get in * by (done || set_solver); done.
Qed.

Lemma items_ok_ordered v : items_ok (ordered_items v) ↔ items_ok v.
Proof.
  unfold items_ok. split.
  - intros [E|(items & E & Hl & Hall)]; destruct v as [| | | | | |l|]; try done; [by left|]. injection E as <-.
    right. exists l. rewrite length_map in Hl. split; [done|]. split; [done|].
    rewrite Forall_map in Hall. eapply Forall_impl; [exact Hall|]. intros x. apply item_ok_ordered.
  - intros [->|(items & -> & Hl & Hall)]; [by left|]. right. cbn. eexists. split; [done|]. rewrite length_map. split; [done|].
    rewrite Forall_map. eapply Forall_impl; [exact Hall|]. intros x. apply item_ok_ordered.
Qed.

(** ** The purpose fields *)

Lemma string_empty_dec s : bool_decide (trim s = "") = false ↔ trim s ≠ "".
Proof. by rewrite bool_decide_eq_false. Qed.

Lemma line_of_text_ok max s : line_of_text max s = true ↔ plain_line max s.
Proof.
  unfold line_of_text, plain_line, codePoints.
  rewrite !andb_true_iff, !negb_true_iff, Nat.leb_le, bool_decide_eq_false. tauto.
Qed.

Lemma description_none v : descriptionError v = None ↔ description_ok v.
Proof.
  unfold descriptionError, description_ok, plain_line, codePoints, MAX_PAYMENT_REQUEST_DESCRIPTION_LENGTH. split.
  - destruct v as [| | | | |s| |]; try done; [by left|]. cbv zeta. destruct (_ || _) eqn:Eo; [done|].
    apply orb_false_iff in Eo as [Et El]. apply Nat.ltb_ge in El. bool_reflect. destruct (has_control s) eqn:Hc; [done|]. eauto 10.
  - intros [->|(s & -> & Ht & Hl & Hc)]; [done|]. cbv zeta.
    by rewrite bool_decide_eq_false_2, (proj2 (Nat.ltb_ge _ _)), Hc by done.
Qed.

Lemma label_none v : labelError v = false ↔ ∃ s, v = VString s ∧ plain_line 120 s.
Proof.
  unfold labelError, MAX_PAYMENT_REQUEST_LINE_ITEM_LABEL_LENGTH. split.
  - destruct v as [| | | | |s| |]; try done. rewrite negb_false_iff, line_of_text_ok. eauto.
  - intros (s & -> & Hs). by rewrite negb_false_iff, line_of_text_ok.
Qed.

Lemma amount_none v :
  amountError v = false ↔ v = VUndefined ∨ ∃ s, v = VString s ∧ all_digits s = true ∧ BigInt s <= MAX_U64.
Proof.
  unfold amountError. split.
  - destruct v as [| | | | |s| |]; try done; [by left|]. intros [Hd Hb]%orb_false_iff. bool_reflect. eauto 10.
  - intros [->|(s & -> & Hd & Hb)]; [done|]. by rewrite Hd, (proj2 (Z.ltb_ge _ _)).
Qed.

Lemma quantity_none v :
  quantityError v = false ↔ v = VUndefined ∨ ∃ s, v = VString s ∧ (String.length s <= 32)%nat ∧ is_Some (split_amount s).
Proof.
  unfold quantityError, MAX_QUANTITY_LENGTH. split.
  - destruct v as [| | | | |s| |]; try done; [by left|]. intros [Hd Hb]%orb_false_iff. apply Nat.ltb_ge in Hd.
    bool_reflect. eauto 10.
  - intros [->|(s & -> & Hd & Hb)]; [done|]. by rewrite (proj2 (Nat.ltb_ge _ _)), bool_decide_eq_true_2.
Qed.

Lemma items_none items : itemsError items = None ↔ Forall item_ok items.
Proof.
  induction items as [|item items IH]; [by split|]. cbn [itemsError]. rewrite Forall_cons, <- IH. unfold item_ok.
  rewrite <- label_none, <- amount_none, <- quantity_none.
  destruct (not_object item), (labelError _), (amountError _), (quantityError _); cbn; try (split; [done|]; by intros [(? & ? & ? & ?) ?]).
Qed.

Lemma lineItems_none v : lineItemsError v = None ↔ items_ok v.
Proof.
  unfold lineItemsError, items_ok, MAX_PAYMENT_REQUEST_LINE_ITEMS. split.
  - destruct v as [| | | | | |items|]; try done; [by left|]. cbv zeta. destruct (_ || _) eqn:Eo; [done|].
    apply orb_false_iff in Eo as [El Eh]. apply Nat.ltb_ge in Eh. apply Nat.eqb_neq in El. intros Hi%items_none.
    right. exists items. split; [done|]. split; [lia|done].
  - intros [->|(items & -> & Hl & Hi)]; [done|]. cbv zeta.
    rewrite (proj2 (Nat.eqb_neq _ _)), (proj2 (Nat.ltb_ge _ _)) by lia. by apply items_none.
Qed.

(** ** The terms *)

Section Terms.
Context `{K : PublicKeys, KS : !PublicKeysSpec K}.

Lemma orderedPayload_ok p q :
  orderedPayload p = Ok q ↔ (valid_address p.(PaymentRequestPayload.merchant) ∧ valid_address p.(PaymentRequestPayload.mint) ∧
    valid_address p.(PaymentRequestPayload.recipient)) ∧ q = canonical_form p.
Proof.
  unfold orderedPayload, canonical_form. split.
  - intros Ho. apply bind_ok in Ho as (a & [-> Ha]%address_ok & Ho). apply bind_ok in Ho as (b & [-> Hb]%address_ok & Ho).
    apply bind_ok in Ho as (c & [-> Hc]%address_ok & Ho). by injection Ho as <-.
  - intros [(Ha & Hb & Hc) ->]. by rewrite !address_valid.
Qed.

Lemma purpose_none p :
  paymentRequestPurposeError p = None ↔
  description_ok p.(PaymentRequestPayload.description) ∧ items_ok p.(PaymentRequestPayload.lineItems).
Proof.
  unfold paymentRequestPurposeError. rewrite <- description_none, <- lineItems_none.
  destruct (descriptionError _); [split; [done|by intros [? _]]|]. split; [done|by intros [_ ?]].
Qed.

Lemma check_expiry_ok p slot u : check_expiry p slot = Ok u ↔ unexpired p.(PaymentRequestPayload.expiresAtSlot) slot.
Proof.
  unfold check_expiry, unexpired. destruct u, (PaymentRequestPayload.expiresAtSlot p) as [s|]; [|by split]. split.
  - intros Ho s' [= <-]. inv_ok Ho. bool_reflect. split; [done|]. intros now ->. by bool_reflect.
  - intros Ho. destruct (Ho s eq_refl) as [Hd Hn]. rewrite Hd. cbn [negb].
    destruct slot as [now|]; [|done]. by rewrite (proj2 (Z.leb_gt _ _)) by auto.
Qed.

Lemma one_of_two (s a b : string) : negb (bool_decide (s = a)) && negb (bool_decide (s = b)) = false ↔ s ∈ [a; b].
Proof.
  rewrite !elem_of_cons. split.
  - intros [Ha|Hb]%andb_false_iff; bool_reflect; auto.
  - intros [->|[->|Hn]]; [by rewrite (bool_decide_eq_true_2 (a = a))|by rewrite (bool_decide_eq_true_2 (b = b)), andb_false_r|].
    by apply not_elem_of_nil in Hn.
Qed.

Lemma check_terms_ok p slot u : check_terms p slot = Ok u ↔ acceptable p slot.
Proof.
  unfold check_terms. split.
  - intros Ho. cbv zeta in Ho.
    do 7 (apply if_throw_ok in Ho as [?G Ho]).
    apply bind_ok in Ho as (a & [_ Ha]%address_ok & Ho). apply bind_ok in Ho as (b & [_ Hb]%address_ok & Ho).
    apply bind_ok in Ho as (c & [_ Hc]%address_ok & Ho).
    destruct (paymentRequestPurposeError p) eqn:Ep; [done|]. apply purpose_none in Ep as [Hd Hi]. apply check_expiry_ok in Ho.
    apply one_of_two in G0, G5. apply orb_false_iff in G1 as [? ?], G3 as [? ?]. bool_reflect. apply in_range_inv in G4.
    constructor; done.
  - intros []. destruct ac_amount0 as [Hd Ha]. cbv zeta.
    rewrite (bool_decide_eq_true_2 _ ac_version0), (proj2 (one_of_two _ _ _) ac_cluster0). cbn [negb].
    rewrite !bool_decide_eq_false_2, Hd, (proj2 (Z.leb_gt _ _)), (proj2 (Z.ltb_ge _ _)) by (done || lia). cbn [orb negb].
    destruct ac_decimals0 as (d & -> & Hr). rewrite in_range_int, (proj2 (one_of_two _ _ _) ac_program0), !address_valid by done.
    cbn [bind]. rewrite (proj2 (purpose_none p)) by done. by apply check_expiry_ok.
Qed.

Lemma acceptable_canonical p slot :
  p.(PaymentRequestPayload.version) = JInt 1 → acceptable (canonical_form p) slot ↔ acceptable p slot.
Proof.
  intros Hv. split; intros []; constructor; cbn in *; try done; by apply items_ok_ordered.
Qed.

(** ** The canonical text names the payload *)

Definition payload_fields (p : PaymentRequestPayload.t) : list (string * value) :=
  [("version", VNumber p.(PaymentRequestPayload.version)); ("cluster", VString p.(PaymentRequestPayload.cluster));
   ("merchant", VString p.(PaymentRequestPayload.merchant)); ("invoice", VString p.(PaymentRequestPayload.invoice));
   ("mint", VString p.(PaymentRequestPayload.mint)); ("tokenProgram", VString p.(PaymentRequestPayload.tokenProgram));
   ("recipient", VString p.(PaymentRequestPayload.recipient)); ("amount", VString p.(PaymentRequestPayload.amount));
   ("decimals", VNumber p.(PaymentRequestPayload.decimals)); ("nonce", VString p.(PaymentRequestPayload.nonce));
   ("expiresAtSlot", optional_value p.(PaymentRequestPayload.expiresAtSlot));
   ("resource", optional_value p.(PaymentRequestPayload.resource)); ("description", p.(PaymentRequestPayload.description));
   ("lineItems", p.(PaymentRequestPayload.lineItems))].

Lemma payload_filter p : payload_value p = VObject (defined_fields (payload_fields p)).
Proof.
  assert (∀ n v rest, defined_fields ((n, v) :: rest) = given n v ++ defined_fields rest) as Hg.
  { intros n v rest. unfold defined_fields, given. destruct (undefined v) eqn:E.
    - by rewrite filter_cons_False by (cbn; by rewrite E).
    - by rewrite filter_cons_True. }
  assert (∀ n x, present n x = given n (optional_value x)) as Hp by (by intros n []).
  unfold payload_value, payload_fields. rewrite !Hg, !Hp. cbn [defined_fields filter list_filter]. by rewrite app_nil_r.
Qed.

Lemma payload_value_inj p q : payload_value p = payload_value q → p = q.
Proof.
  intros Ef. assert (∀ r k, get (payload_value r) k = field (payload_fields r) k) as Hget
    by (intros r k; rewrite payload_filter; by apply field_defined, (bool_decide_unpack _)).
  assert (∀ k, field (payload_fields p) k = field (payload_fields q) k) as Hk by (intros k; by rewrite <- !Hget, Ef).
  assert (∀ x y, optional_value x = optional_value y → x = y) as Ho by (by intros [] [] [=]; subst).
  clear Ef Hget. destruct p, q.
  pose proof (Hk "version") as H1. pose proof (Hk "cluster") as H2. pose proof (Hk "merchant") as H3.
  pose proof (Hk "invoice") as H4. pose proof (Hk "mint") as H5. pose proof (Hk "tokenProgram") as H6.
  pose proof (Hk "recipient") as H7. pose proof (Hk "amount") as H8. pose proof (Hk "decimals") as H9.
  pose proof (Hk "nonce") as H10. pose proof (Ho _ _ (Hk "expiresAtSlot")) as H11. pose proof (Ho _ _ (Hk "resource")) as H12.
  pose proof (Hk "description") as H13. pose proof (Hk "lineItems") as H14. cbv in * |-. congruence.
Qed.
End Terms.

Lemma item_json item : item_ok item → json (orderedLineItem item) = true.
Proof.
  intros (Ho & (s & Hl & _) & Ha & Hq). unfold orderedLineItem. rewrite Ho, Hl.
  destruct Ha as [->|(a & -> & _)], Hq as [->|(q & -> & _)]; reflexivity.
Qed.

Lemma acceptable_json `{PublicKeys} p slot : acceptable p slot → json (payload_value (canonical_form p)) = true.
Proof.
  intros [_ _ _ _ _ _ _ _ (d & Hd & Hr) _ Hde Hit _]. rewrite payload_filter.
  apply json_defined; [by apply (bool_decide_unpack _)|]. unfold payload_fields.
  repeat (apply Forall_cons; split); [..|by apply Forall_nil]; (split; [reflexivity|]); cbn [snd];
    try (by right); try (match goal with |- context [optional_value ?x] => destruct x; [by right|by left] end).
  - right. cbn [canonical_form PaymentRequestPayload.decimals]. rewrite Hd. cbn -[Z.leb]. lia.
  - destruct Hde as [E|(s & E & _)]; cbn; rewrite E; [by left|by right].
  - destruct Hit as [E|(items & E & _ & Hi)]; cbn; rewrite E; [by left|right]. cbn. apply forallb_forall.
    intros v (x & <- & Hx)%in_map_iff. apply item_json. rewrite Forall_forall in Hi. by apply Hi, list_elem_of_In.
Qed.

(** ** The theorems *)

Section Theorems.
Context `{K : PublicKeys, KS : !PublicKeysSpec K, E : Ed25519, H : Sha256, C : Codec}.

Lemma canonical_text p :
  (valid_address p.(PaymentRequestPayload.merchant) ∧ valid_address p.(PaymentRequestPayload.mint) ∧
    valid_address p.(PaymentRequestPayload.recipient)) →
  canonicalPaymentRequest p = Ok (JSON_stringify (payload_value (canonical_form p))).
Proof. intros Hv. unfold canonicalPaymentRequest. by rewrite (proj2 (orderedPayload_ok p _) (conj Hv eq_refl)). Qed.

Lemma merchant_signature_ok p sig slot message :
  acceptable p slot → check_signature (canonical_form p) sig = Ok message ↔ merchant_signed p sig ∧ message = message_of p.
Proof.
  intros A. unfold check_signature, merchant_signed.
  rewrite (canonical_text (canonical_form p)) by (split_and!; apply A). rewrite canonical_form_twice.
  change (text_encode (JSON_stringify (payload_value (canonical_form p)))) with (message_of p).
  change (PaymentRequestPayload.merchant (canonical_form p)) with (PaymentRequestPayload.merchant p). split.
  - intros Ho. apply bind_ok in Ho as (raw & Hraw & Ho). destruct (Nat.eqb_spec (length raw) 64) as [Hl|]; [|done].
    cbn [negb] in Ho. apply bind_ok in Ho as (key & Hkey & Ho). cbn [bind] in Ho. cbv zeta in Ho.
    apply bind_ok in Ho as ([] & Hok & Ho); [|done]. injection Ho as <-. eauto 10.
  - intros [(raw & key & Hraw & Hl & Hkey & Hok) ->]. rewrite Hraw. cbn [bind]. rewrite Hl. cbn [Nat.eqb negb].
    rewrite Hkey. cbn [bind]. cbv zeta.
    change (text_encode (JSON_stringify (payload_value (canonical_form p)))) with (message_of p). by rewrite Hok.
Qed.

(** A payment request verifies exactly when its terms are acceptable (known
      cluster and token program, canonical addresses, positive u64 amount, bounded
      purpose, not expired) and its merchant's key signed its canonical text; the
      invoice hash returned is the hash of that text. *)
Lemma payment_request_spec (request : SignedPaymentRequest.t) (slot : option Z) (q : PaymentRequestPayload.t) (hash : bytes) :
  let p := request.(SignedPaymentRequest.payload) in
  verifyPaymentRequest request slot = Ok (PaymentRequestVerification.mk true q hash None) ↔
  acceptable p slot ∧ merchant_signed p request.(SignedPaymentRequest.signature) ∧
  q = canonical_form p ∧ hash = sha256 (message_of p).
Proof.
  cbv zeta. unfold verifyPaymentRequest. destruct request as [p sig]. cbn [SignedPaymentRequest.payload SignedPaymentRequest.signature].
  case_bool_decide as Hv; cbn [negb]; [|split; [done|by intros [[] _]]]. split.
  - intros Ho. apply bind_ok in Ho as (q' & [Ha ->]%orderedPayload_ok & Ho).
    destruct (check_terms (canonical_form p) slot) as [u|] eqn:Et; [|done]. apply check_terms_ok in Et.
    rewrite acceptable_canonical in Et by done. cbn [bind] in Ho.
    destruct (check_signature (canonical_form p) sig) as [message|] eqn:Es; [|done].
    eapply merchant_signature_ok in Es as [Hsig ->]; [|done]. by injection Ho as <- <-.
  - intros (A & Hsig & -> & ->). rewrite (proj2 (orderedPayload_ok p _)) by (split; [split_and!; apply A|done]). cbn [bind].
    rewrite (proj2 (check_terms_ok _ slot tt)) by (by apply acceptable_canonical). cbn [bind].
    by rewrite (proj2 (merchant_signature_ok p sig slot (message_of p) A)).
Qed.

Lemma bytesEqual_ok a b : bytesEqual a b = true ↔ a = b.
Proof.
  unfold bytesEqual. split.
  - intros [Hl%Nat.eqb_eq Hz]%andb_true_iff. revert b Hl Hz. induction a as [|x a IH]; intros [|y b] Hl Hz; try done.
    cbn in Hz. apply andb_true_iff in Hz as [Hx Hz]. bool_reflect. f_equal; [by apply byte_val_inj|]. apply IH; [by injection Hl|done].
  - intros ->. rewrite Nat.eqb_refl. cbn. induction b as [|x b IH]; [done|]. cbn. by rewrite Z.eqb_refl.
Qed.

Lemma no_mismatch p receipt :
  purchase_mismatches p receipt = [] ↔
  BigInt p.(PaymentRequestPayload.amount) = receipt.(PaidReceipt.amount) ∧
  p.(PaymentRequestPayload.mint) = receipt.(PaidReceipt.mint) ∧
  p.(PaymentRequestPayload.recipient) = receipt.(PaidReceipt.recipientTokenAccount).
Proof.
  unfold purchase_mismatches. split.
  - destruct (_ =? _) eqn:E1; [|done]. case_bool_decide; [|done]. case_bool_decide; [|done]. by bool_reflect.
  - intros (-> & -> & ->). by rewrite Z.eqb_refl, !bool_decide_eq_true_2.
Qed.

(** What [verifyPaymentRequest] returns beside a valid request says it is not. *)
Lemma verify_cases request slot v :
  verifyPaymentRequest request slot = Ok v → v.(PaymentRequestVerification.valid) = true →
  v = PaymentRequestVerification.mk true v.(PaymentRequestVerification.payload) v.(PaymentRequestVerification.invoiceHash) None.
Proof.
  unfold verifyPaymentRequest. destruct (negb _); [by intros [= <-]|]. intros Ho. apply bind_ok in Ho as (q & _ & Ho).
  injection Ho as <-. by destruct (bind _ _).
Qed.

Lemma purchase_valid receipt request r :
  verifyReceiptPurchase receipt request = Ok r → r.(ReceiptPurchaseVerification.valid) = true →
  let p := request.(SignedPaymentRequest.payload) in
  acceptable p None ∧ merchant_signed p request.(SignedPaymentRequest.signature) ∧
  sha256 (message_of p) = receipt.(PaidReceipt.invoiceHash) ∧
  r.(ReceiptPurchaseVerification.mismatches) = purchase_mismatches (canonical_form p) receipt ∧
  r.(ReceiptPurchaseVerification.matched) = bool_decide (purchase_mismatches (canonical_form p) receipt = []).
Proof.
  unfold verifyReceiptPurchase. intros Ho Hv. apply bind_ok in Ho as (v & Ev & Ho). injection Ho as <-. cbv zeta in *.
  destruct (PaymentRequestVerification.valid v) eqn:Eval; [|done]. cbn [negb] in *.
  pose proof (verify_cases _ _ _ Ev Eval) as Hc. rewrite Hc in Ev. apply payment_request_spec in Ev as (A & Hsig & Hq & Hh).
  destruct (bytesEqual _ _) eqn:Eb; [|done]. apply bytesEqual_ok in Eb. cbn. rewrite <- Hq. split_and!; try done. congruence.
Qed.
Lemma matched_valid receipt request r :
  verifyReceiptPurchase receipt request = Ok r → r.(ReceiptPurchaseVerification.matched) = true →
  r.(ReceiptPurchaseVerification.valid) = true.
Proof.
  unfold verifyReceiptPurchase. intros Ho. apply bind_ok in Ho as (v & _ & Ho). injection Ho as <-. cbv zeta.
  by destruct (PaymentRequestVerification.valid v), (bytesEqual _ _).
Qed.

(** C25: A receipt is reported as the purchase of a request exactly when the
      request's terms are acceptable, its merchant signed its canonical text, the
      receipt's invoice hash is the hash of that text, and the receipt paid the
      amount, the mint and the recipient the request named. *)
Theorem purchase_matched_iff (receipt : PaidReceipt.t) (request : SignedPaymentRequest.t) :
  let p := request.(SignedPaymentRequest.payload) in
  (∃ r, verifyReceiptPurchase receipt request = Ok r ∧ r.(ReceiptPurchaseVerification.matched) = true) ↔
  acceptable p None ∧ merchant_signed p request.(SignedPaymentRequest.signature) ∧
  sha256 (message_of p) = receipt.(PaidReceipt.invoiceHash) ∧
  BigInt p.(PaymentRequestPayload.amount) = receipt.(PaidReceipt.amount) ∧
  p.(PaymentRequestPayload.mint) = receipt.(PaidReceipt.mint) ∧
  p.(PaymentRequestPayload.recipient) = receipt.(PaidReceipt.recipientTokenAccount).
Proof.
  cbv zeta. split.
  - intros (r & Ho & Hm). pose proof (matched_valid _ _ _ Ho Hm) as Hv.
    destruct (purchase_valid _ _ _ Ho Hv) as (A & Hsig & Hh & _ & Hb). rewrite Hb in Hm. bool_reflect.
    split; [done|]. split; [done|]. split; [done|]. exact (proj1 (no_mismatch _ _) Hm).
  - intros (A & Hsig & Hh & Hterms). unfold verifyReceiptPurchase.
    rewrite (proj2 (payment_request_spec request None _ _) (conj A (conj Hsig (conj eq_refl eq_refl)))).
    eexists. split; [reflexivity|]. cbn. rewrite (proj2 (bytesEqual_ok _ _) Hh). cbn.
    apply bool_decide_eq_true_2, no_mismatch, Hterms.
Qed.

(** One receipt is the purchase of one request: if two requests both
      validate against receipts with the same invoice hash, they are the same
      canonical payload, unless their two texts are a collision of SHA-256. *)
Theorem purchase_unique `{CS : !JsonSpec C} (receipt1 receipt2 : PaidReceipt.t) (request1 request2 : SignedPaymentRequest.t)
    (r1 r2 : ReceiptPurchaseVerification.t) :
  let p1 := request1.(SignedPaymentRequest.payload) in let p2 := request2.(SignedPaymentRequest.payload) in
  verifyReceiptPurchase receipt1 request1 = Ok r1 → verifyReceiptPurchase receipt2 request2 = Ok r2 →
  r1.(ReceiptPurchaseVerification.valid) = true → r2.(ReceiptPurchaseVerification.valid) = true →
  receipt1.(PaidReceipt.invoiceHash) = receipt2.(PaidReceipt.invoiceHash) →
  collision_free [message_of p1; message_of p2] → canonical_form p1 = canonical_form p2.
Proof.
  cbv zeta. intros H1 H2 V1 V2 Eh Hc.
  destruct (purchase_valid _ _ _ H1 V1) as (A1 & _ & Hh1 & _). destruct (purchase_valid _ _ _ H2 V2) as (A2 & _ & Hh2 & _).
  apply payload_value_inj. apply json_inj; [by eapply acceptable_json..|]. apply text_encode_inj.
  apply Hc; [by left|right; by left|]. change (sha256 (message_of request1.(SignedPaymentRequest.payload)) =
    sha256 (message_of request2.(SignedPaymentRequest.payload))). congruence.
Qed.

(** An address that does not parse makes the verification reject, although the
    same address is checked again where a failure is returned as a reason. *)
Lemma bad_address_rejects (request : SignedPaymentRequest.t) (slot : option Z) :
  request.(SignedPaymentRequest.payload).(PaymentRequestPayload.version) = JInt 1 →
  ¬ valid_address request.(SignedPaymentRequest.payload).(PaymentRequestPayload.merchant) →
  ∃ e, verifyPaymentRequest request slot = Throw e.
Proof.
  intros Hv Hbad. unfold verifyPaymentRequest. rewrite bool_decide_eq_true_2 by done. cbn [negb].
  unfold orderedPayload. destruct (address _) as [a|e] eqn:Ea; [apply address_ok in Ea as [_ ?]; done|].
  by exists e.
Qed.
End Theorems.

(** ** A purchase *)

Section Example_.
#[local] Existing Instance Base58.keys.
#[local] Existing Instance ModelEd25519.keys.
#[local] Existing Instance model_hash.
#[local] Existing Instance JsonCodec.codec.

Definition sample_merchant : Address := Eval vm_compute in toBase58 (replicate 32 x07).
Definition sample_mint_address : Address := Eval vm_compute in toBase58 (replicate 32 x09).
Definition sample_recipient_address : Address := Eval vm_compute in toBase58 (replicate 32 x0a).

Definition sample_terms : PaymentRequestPayload.t :=
  PaymentRequestPayload.mk (JInt 1) "devnet" sample_merchant "INV-7" sample_mint_address "spl-token" sample_recipient_address
    "2500000" (JInt 6) "n-7" (Some "1000") None (VString "Search calls")
    (VArray [VObject [("quantity", VString "2.5"); ("label", VString "Calls"); ("note", VNull)]]).

Definition sample_request : SignedPaymentRequest.t :=
  Eval vm_compute in SignedPaymentRequest.mk sample_terms (btoa (ed_sign (replicate 32 x07 : private_key) (message_of sample_terms))).

Definition sample_paid : PaidReceipt.t :=
  Eval vm_compute in PaidReceipt.mk (sha256 (message_of sample_terms)) 2500000 sample_mint_address sample_recipient_address.

Definition sample_purchase : ReceiptPurchaseVerification.t :=
  Eval vm_compute in match verifyReceiptPurchase sample_paid sample_request with
    | Ok r => r | Throw _ => ReceiptPurchaseVerification.mk false false false false [] sample_terms [] None end.

Lemma sample_purchase_ok : verifyReceiptPurchase sample_paid sample_request = Ok sample_purchase.
Proof. vm_compute. reflexivity. Qed.

Lemma purchase_matched_iff_witness :
  acceptable sample_terms None ∧ merchant_signed sample_terms sample_request.(SignedPaymentRequest.signature) ∧
  sha256 (message_of sample_terms) = sample_paid.(PaidReceipt.invoiceHash) ∧
  BigInt sample_terms.(PaymentRequestPayload.amount) = sample_paid.(PaidReceipt.amount) ∧
  sample_terms.(PaymentRequestPayload.mint) = sample_paid.(PaidReceipt.mint) ∧
  sample_terms.(PaymentRequestPayload.recipient) = sample_paid.(PaidReceipt.recipientTokenAccount).
Proof.
  apply (@purchase_matched_iff Base58.keys Base58.keys_spec ModelEd25519.keys model_hash JsonCodec.codec sample_paid sample_request).
  exists sample_purchase. split; [exact sample_purchase_ok|reflexivity].
Defined.

(** The same request with its line item written in another order *)
Definition sample_reordered : SignedPaymentRequest.t :=
  SignedPaymentRequest.mk
    (PaymentRequestPayload.mk (JInt 1) "devnet" sample_merchant "INV-7" sample_mint_address "spl-token" sample_recipient_address
      "2500000" (JInt 6) "n-7" (Some "1000") None (VString "Search calls")
      (VArray [VObject [("label", VString "Calls"); ("quantity", VString "2.5")]]))
    sample_request.(SignedPaymentRequest.signature).

Lemma purchase_unique_witness :
  canonical_form sample_terms = canonical_form sample_reordered.(SignedPaymentRequest.payload).
Proof.
  apply (@purchase_unique Base58.keys Base58.keys_spec ModelEd25519.keys model_hash JsonCodec.codec JsonCodec.json_spec
    sample_paid sample_paid sample_request sample_reordered sample_purchase
    (match @verifyReceiptPurchase Base58.keys ModelEd25519.keys model_hash JsonCodec.codec sample_paid sample_reordered with
     | Ok r => r | Throw _ => sample_purchase end)).
  - exact sample_purchase_ok.
  - vm_compute. reflexivity.
  - reflexivity.
  - vm_compute. reflexivity.
  - reflexivity.
  - apply collision_free_check. vm_compute. reflexivity.
Defined.

(** A receipt of another amount is the purchase, with the mismatch reported. *)
Example other_amount_reported :
  ReceiptPurchaseVerification.reason (from_ok sample_purchase (verifyReceiptPurchase
    (PaidReceipt.mk sample_paid.(PaidReceipt.invoiceHash) 2500001 sample_mint_address sample_recipient_address) sample_request))
  = Some "The receipt paid a different amount than the request named".
Proof. vm_compute. reflexivity. Qed.
End Example_.
