(* ===== verification/ReceiptReader.v ===== *)
(** * Reading receipts (sdk/src/receipt.ts)

    The reader behind the public receipt page: it accepts an account only as the
    receipt its address is derived from, shows amounts exactly, and never takes
    decimals from an account that is not a mint. *)
From Stdlib Require Import ZArith Lia Strings.Byte Strings.Ascii.
From stdpp Require Import base numbers strings list.
From S2P Require Import Prelude Bytes PublicKey Types Encoding Pda Program Accounts Decimal CardMath CardPda.

Inductive ReceiptValidationCode : Type :=
| wrong_owner | wrong_discriminator | truncated | pda_mismatch | unsettled | not_found.

Module ReceiptAccountView.
Record t : Type := mk { address : Address; owner : Address; data : bytes }.
End ReceiptAccountView.

Module ReceiptReadSuccess.
Record t : Type := mk {
  receipt : PaymentReceipt.t;
  programId : Address;
  derivedAddress : Address;
  settled : bool;
}.
End ReceiptReadSuccess.

Inductive ReceiptReadResult : Type :=
| ReadSuccess (s : ReceiptReadSuccess.t)
| ReadFailure (code : ReceiptValidationCode) (reason : string).

Module ReadReceiptOptions.
Record t : Type := mk {
  programId : option Address;
  requireSettled : option bool;
  transactionSignature : option string;
}.
End ReadReceiptOptions.

(** [ui] is the kind of the display: an amount with its decimals, or base units *)
Module TokenAmountDisplay.
Record t : Type := mk { baseUnits : string; decimals : option Z; display : string; ui : bool }.
End TokenAmountDisplay.

Inductive MintReason : Type := unsupported_owner | mint_truncated | not_a_mint | missing.
Inductive MintDecimalsRead : Type := MintOk (decimals : Z) | MintBad (reason : MintReason).

(** An account of a token program, as it is fetched *)
Module MintAccount.
Record t : Type := mk { owner : Address; data : bytes }.
End MintAccount.

Inductive CurrentMandateRead : Type :=
| MandatePresent (mandate : Mandate.t)
| MandateAbsent
| MandateUnavailable (reason : string).

Module CurrentMandateOptions.
Record t : Type := mk { programId : option Address; currentSlot : option Z; expectedAddress : option Address }.
End CurrentMandateOptions.

Module PublicReceiptProof.
Record t : Type := mk {
  receipt : ReceiptReadResult;
  amount : option TokenAmountDisplay.t;
  currentMandate : CurrentMandateRead;
}.
End PublicReceiptProof.

Definition MAX_U64 : Z := 18446744073709551615.
Definition ACCOUNT_DISCRIMINATOR_LENGTH : nat := 8.
Definition MINT_LEN : nat := 82.
Definition ACCOUNT_TYPE_OFFSET : nat := 165.
Definition ACCOUNT_TYPE_MINT : Z := 1.

(** [data[i] !== expected[i]] for some [i] ends the loop *)
Definition discriminatorsEqual (data expected : bytes) : bool := bool_decide (take (length expected) data = expected).

(** ** Hashes in hexadecimal *)

Definition hexToBytes (value name : string) : result bytes :=
  let cs := match chars value with "0"%char :: "x"%char :: rest => rest | cs => cs end in
  let bytes := hex_pairs (text (map lower cs)) in
  throw_if! negb (Nat.eqb (length cs) 64) || negb (bool_decide (is_Some bytes))
    with name +:+ " must be exactly 32 bytes encoded as hexadecimal";
  Ok (default [] bytes).

(** ** Amounts *)

Definition formatExactTokenAmount (amount : Z) (decimals : option number) : result TokenAmountDisplay.t :=
  throw_if! (amount <? 0) || (MAX_U64 <? amount) with "amount must fit in an unsigned 64-bit integer";
  let baseUnits := toString amount in
  let unknown := Ok (TokenAmountDisplay.mk baseUnits None baseUnits false) in
  match decimals with
  | None => unknown
  | Some n =>
      if out_of_range n 0 255 then unknown
      else
        let d := bigint_of n in
        if d =? 0 then Ok (TokenAmountDisplay.mk baseUnits (Some d) baseUnits true)
        else
          let padded := padStart (Z.to_nat d + 1) (chars baseUnits) in
          let whole := take (length padded - Z.to_nat d) padded in
          let fraction := drop (length padded - Z.to_nat d) padded in
          Ok (TokenAmountDisplay.mk baseUnits (Some d) (text (whole ++ "."%char :: fraction)) true)
  end.

Section Reader.
Context `{K : PublicKeys}.

Definition receiptAddress (mandate : Address) (invoiceHash : bytes) (programId : option Address) : result Address :=
  deriveReceiptAddress mandate invoiceHash (default DEFAULT_PROGRAM_ID programId).

Definition readVerifiedMintDecimals (account : option MintAccount.t) : result MintDecimalsRead :=
  match account with
  | None => Ok (MintBad missing)
  | Some account =>
      let! owner := address account.(MintAccount.owner) in
      let data := account.(MintAccount.data) in
      Ok (if negb (bool_decide (owner = SPL_TOKEN_PROGRAM_ID)) && negb (bool_decide (owner = TOKEN_2022_PROGRAM_ID))
          then MintBad unsupported_owner
          else if Nat.leb (length data) 44 then MintBad mint_truncated
          else if negb (Nat.eqb (length data) MINT_LEN)
                  && negb (Nat.ltb ACCOUNT_TYPE_OFFSET (length data) && (byte_at data ACCOUNT_TYPE_OFFSET =? ACCOUNT_TYPE_MINT))
          then MintBad not_a_mint
          else MintOk (byte_at data 44))
  end.

Definition amountDisplayFromMint (amount : Z) (mintAccount : option MintAccount.t) : result TokenAmountDisplay.t :=
  let! mint := readVerifiedMintDecimals mintAccount in
  formatExactTokenAmount amount (match mint with MintOk d => Some (JInt d) | MintBad _ => None end).

(** ** The current mandate *)

(** The body of the [try] *)
Definition current_mandate (account : ReceiptAccountView.t) (programId : Address) (options : CurrentMandateOptions.t) :
    result CurrentMandateRead :=
  let! owner := address account.(ReceiptAccountView.owner) in
  if negb (bool_decide (owner = programId))
  then Ok (MandateUnavailable "Mandate account is not owned by the ChainPay program")
  else
    let decode :=
      let! mandate := decodeCurrentMandateFields account.(ReceiptAccountView.data) account.(ReceiptAccountView.address)
        options.(CurrentMandateOptions.currentSlot) in
      Ok (MandatePresent mandate) in
    match options.(CurrentMandateOptions.expectedAddress) with
    | None => decode
    | Some expected =>
        let! addr := address account.(ReceiptAccountView.address) in
        let! expected := address expected in
        if negb (bool_decide (addr = expected))
        then Ok (MandateUnavailable "Mandate account address does not match the receipt mandate")
        else decode
    end.

Definition readCurrentMandateFields (account : option ReceiptAccountView.t) (options : CurrentMandateOptions.t) :
    result CurrentMandateRead :=
  match account with
  | None => Ok MandateAbsent
  | Some account =>
      let! programId := address (default DEFAULT_PROGRAM_ID options.(CurrentMandateOptions.programId)) in
      Ok match current_mandate account programId options with
         | Ok read => read
         | Throw e => MandateUnavailable e
         end
  end.

(** ** The reader *)

Definition readPaymentReceiptAccount (account : ReceiptAccountView.t) (options : ReadReceiptOptions.t) :
    result ReceiptReadResult :=
  let! programId := address (default DEFAULT_PROGRAM_ID options.(ReadReceiptOptions.programId)) in
  match address account.(ReceiptAccountView.address) with
  | Throw _ => Ok (ReadFailure not_found "Receipt address is not a valid Solana public key")
  | Ok requestedAddress =>
      let owned :=
        match address account.(ReceiptAccountView.owner) with
        | Ok owner => bool_decide (owner = programId)
        | Throw _ => false
        end in
      if negb owned then Ok (ReadFailure wrong_owner "Receipt account is not owned by the ChainPay program")
      else
        let data := account.(ReceiptAccountView.data) in
        if Nat.ltb (length data) ACCOUNT_DISCRIMINATOR_LENGTH
        then Ok (ReadFailure truncated "PaymentReceipt account data is truncated")
        else if negb (discriminatorsEqual data ACCOUNT_DISCRIMINATORS.paymentReceipt)
        then Ok (ReadFailure wrong_discriminator "Invalid PaymentReceipt account discriminator")
        else if Nat.ltb (length data) RECEIPT_ACCOUNT_LENGTH
        then Ok (ReadFailure truncated "PaymentReceipt account data is truncated")
        else
          let! receipt := decodePaymentReceipt data requestedAddress options.(ReadReceiptOptions.transactionSignature) in
          let! derivedAddress := deriveReceiptAddress receipt.(PaymentReceipt.mandate) receipt.(PaymentReceipt.invoiceHash) programId in
          Ok (if negb (bool_decide (derivedAddress = requestedAddress))
              then ReadFailure pda_mismatch
                ("Receipt address does not match PDA seeds [" +:+ quoted "receipt" +:+ ", mandate, invoice_hash]")
              else
                let settled := receipt.(PaymentReceipt.onChainStatus) =? RECEIPT_STATUS_SETTLED in
                if default false options.(ReadReceiptOptions.requireSettled) && negb settled
                then ReadFailure unsettled "Receipt is not settled"
                else ReadSuccess (ReceiptReadSuccess.mk receipt programId derivedAddress settled))
  end.

Definition readPublicSettledReceipt (account : ReceiptAccountView.t) (programId : option Address)
    (transactionSignature : option string) : result ReceiptReadResult :=
  readPaymentReceiptAccount account (ReadReceiptOptions.mk programId (Some true) transactionSignature).

Definition requirePaymentReceiptAccount (account : ReceiptAccountView.t) (options : ReadReceiptOptions.t) :
    result PaymentReceipt.t :=
  let! r := readPaymentReceiptAccount account options in
  match r with
  | ReadSuccess s => Ok s.(ReceiptReadSuccess.receipt)
  | ReadFailure _ reason => Throw reason
  end.

Definition assemblePublicReceiptProof (receiptAccount : ReceiptAccountView.t) (programId : option Address)
    (mintAccount : option MintAccount.t) (mandateAccount : option ReceiptAccountView.t) (currentSlot : option Z)
    (transactionSignature : option string) : result PublicReceiptProof.t :=
  let! receipt := readPublicSettledReceipt receiptAccount programId transactionSignature in
  match receipt with
  | ReadFailure _ _ =>
      let! mandate := readCurrentMandateFields mandateAccount (CurrentMandateOptions.mk programId currentSlot None) in
      Ok (PublicReceiptProof.mk receipt None mandate)
  | ReadSuccess s =>
      let r := s.(ReceiptReadSuccess.receipt) in
      let! amount := amountDisplayFromMint r.(PaymentReceipt.amount) mintAccount in
      let! mandate := readCurrentMandateFields mandateAccount
        (CurrentMandateOptions.mk programId currentSlot (Some r.(PaymentReceipt.mandate))) in
      Ok (PublicReceiptProof.mk receipt (Some amount) mandate)
  end.
End Reader.
