(* ===== verification/ReceiptReaderProps.v ===== *)
(** * What the receipt reader accepts

    It accepts an account exactly when it is owned by the program, holds a
    receipt and stands at the address derived from that receipt; and the receipt
    every settled payment leaves on chain is accepted, with the payment's own
    fields. *)
From Stdlib Require Import ZArith Lia Strings.Byte Strings.Ascii.
From stdpp Require Import base numbers strings list fin_maps gmap.
From S2P Require Import Prelude Bytes PublicKey Types Encoding Pda Program Accounts Payment Decimal CardPda ReceiptReader.

Lemma discriminatorsEqual_iff data expected : discriminatorsEqual data expected = true ↔ expected `prefix_of` data.
Proof.
  unfold discriminatorsEqual. rewrite bool_decide_eq_true. split.
  - intros <-. apply prefix_take.
  - intros [rest ->]. by rewrite take_app_length.
Qed.

Section Reading.
Context `{K : PublicKeys, KS : !PublicKeysSpec K}.

(** What a readable receipt account is *)
Record readable (programId : Address) (account : ReceiptAccountView.t) (r : PaymentReceipt.t) : Prop := {
  rd_program : valid_address programId;
  rd_address : valid_address account.(ReceiptAccountView.address);
  rd_owner : account.(ReceiptAccountView.owner) = programId;
  rd_discriminator : ACCOUNT_DISCRIMINATORS.paymentReceipt `prefix_of` account.(ReceiptAccountView.data);
  rd_length : (RECEIPT_ACCOUNT_LENGTH <= length account.(ReceiptAccountView.data))%nat;
  rd_derived : deriveReceiptAddress r.(PaymentReceipt.mandate) r.(PaymentReceipt.invoiceHash) programId
    = Ok account.(ReceiptAccountView.address);
}.

Lemma read_ok account options s :
  let programId := default DEFAULT_PROGRAM_ID options.(ReadReceiptOptions.programId) in
  let r := parse_receipt account.(ReceiptAccountView.address) options.(ReadReceiptOptions.transactionSignature)
    account.(ReceiptAccountView.data) in
  readPaymentReceiptAccount account options = Ok (ReadSuccess s) ↔
    readable programId account r ∧
    (options.(ReadReceiptOptions.requireSettled) = Some true → r.(PaymentReceipt.onChainStatus) = RECEIPT_STATUS_SETTLED) ∧
    s = ReceiptReadSuccess.mk r programId account.(ReceiptAccountView.address)
      (r.(PaymentReceipt.onChainStatus) =? RECEIPT_STATUS_SETTLED).
Proof.
  intros pid r. unfold readPaymentReceiptAccount. fold pid. split.
  - intros H. inv_ok H. apply address_ok in E as [-> Hp].
    destruct (address (ReceiptAccountView.address account)) as [a|e] eqn:Ea; [|discriminate H].
    apply address_ok in Ea as [-> Ha]. cbv zeta in H.
    destruct (address (ReceiptAccountView.owner account)) as [o|e] eqn:Eo; [|discriminate H].
    apply address_ok in Eo as [-> Ho].
    destruct (bool_decide (_ = pid)) eqn:Eb; cbn [negb] in H; [|discriminate H]. apply bool_decide_eq_true in Eb.
    destruct (Nat.ltb _ ACCOUNT_DISCRIMINATOR_LENGTH); [discriminate H|].
    destruct (discriminatorsEqual _ _) eqn:Ed; cbn [negb] in H; [|discriminate H].
    apply discriminatorsEqual_iff in Ed.
    destruct (Nat.ltb _ RECEIPT_ACCOUNT_LENGTH) eqn:El; [discriminate H|]. apply Nat.ltb_ge in El.
    rewrite decodePaymentReceipt_parse in H by done. fold r in H. cbn [bind] in H. inv_ok H.
    destruct (bool_decide (_ = ReceiptAccountView.address account)) eqn:Eq; cbn [negb] in H; [|discriminate H].
    apply bool_decide_eq_true in Eq. subst a.
    destruct (default false _ && negb _) eqn:Es; [discriminate H|]. injection H as <-.
    split; [by constructor|split; [|done]]. intros Hs. rewrite Hs in Es. cbn [default from_option id] in Es. bool_reflect.
    by apply negb_false_iff, Z.eqb_eq in Es.
  - intros ([] & Hs & ->). rewrite (address_valid pid) by done. cbn [bind]. rewrite address_valid by done. cbv zeta.
    rewrite rd_owner0, (address_valid pid), bool_decide_true by done. cbn [negb].
    rewrite (proj2 (Nat.ltb_ge _ ACCOUNT_DISCRIMINATOR_LENGTH))
      by (unfold ACCOUNT_DISCRIMINATOR_LENGTH, RECEIPT_ACCOUNT_LENGTH in *; lia).
    rewrite (proj2 (discriminatorsEqual_iff _ _)) by done. cbn [negb].
    rewrite (proj2 (Nat.ltb_ge _ _)) by done.
    rewrite decodePaymentReceipt_parse by done. fold r. cbn [bind]. rewrite rd_derived0. cbn [bind].
    rewrite bool_decide_true by done. cbn [negb].
    destruct (options.(ReadReceiptOptions.requireSettled)) as [[]|]; try done.
    cbn [default from_option id andb]. by rewrite (proj2 (Z.eqb_eq _ _) (Hs eq_refl)).
Qed.

(** The public receipt page accepts an account exactly when its owner is the
    program, its data starts with the receipt discriminator and has at least 282
    bytes, its address is the one derived from the mandate and the invoice hash it
    holds, and its status byte is settled; the receipt shown then holds the fields
    at their offsets and nothing else. *)
Theorem public_receipt_iff (account : ReceiptAccountView.t) (programId : option Address) (sig : option string)
    (s : ReceiptReadSuccess.t) :
  let r := parse_receipt account.(ReceiptAccountView.address) sig account.(ReceiptAccountView.data) in
  readPublicSettledReceipt account programId sig = Ok (ReadSuccess s) ↔
    readable (default DEFAULT_PROGRAM_ID programId) account r ∧
    byte_at account.(ReceiptAccountView.data) 280 = 1 ∧
    s = ReceiptReadSuccess.mk r (default DEFAULT_PROGRAM_ID programId) account.(ReceiptAccountView.address) true.
Proof.
  intros r. unfold readPublicSettledReceipt. rewrite read_ok.
  cbn [ReadReceiptOptions.programId ReadReceiptOptions.requireSettled ReadReceiptOptions.transactionSignature]. fold r.
  change (r.(PaymentReceipt.onChainStatus)) with (byte_at account.(ReceiptAccountView.data) 280).
  unfold RECEIPT_STATUS_SETTLED. split.
  - intros (H & Hs & ->). rewrite Hs by done. done.
  - intros (H & Hs & ->). rewrite Hs. done.
Qed.

(** The accounts and the parameters of a payment, as wide as the Rust types *)
Record payment_wf (mandate_key : bytes) (acc : ExecutePayment.t) (slot : Z) (p : PaymentParams.t) : Prop := {
  pw_mandate : is_key mandate_key;
  pw_recipient : is_key acc.(ExecutePayment.recipient_key);
  pw_agent : is_key acc.(ExecutePayment.agent);
  pw_bump : 0 <= acc.(ExecutePayment.receipt_bump) < 256;
  pw_slot : is_u64 slot;
  pw_invoice : is_key p.(PaymentParams.invoice_hash);
  pw_payment : is_key p.(PaymentParams.payment_id);
  pw_reference : is_key p.(PaymentParams.signature_reference);
  pw_amount : is_u64 p.(PaymentParams.amount);
}.

Lemma settled_receipt_wf mk acc slot p st :
  mandate_wf st.(Chain.mandate) → payment_wf mk acc slot p → payment_fits mk acc slot p st →
  receipt_wf (settled_receipt mk acc slot p st.(Chain.mandate)).
Proof.
  intros [] [] []. unfold settled_receipt, is_key, is_u64, RECEIPT_STATUS_SETTLED, RECEIPT_SNAPSHOT_VERSION in *.
  constructor; cbn [Receipt.mandate Receipt.invoice_hash Receipt.payment_id Receipt.mint
    Receipt.source_token_account Receipt.recipient_token_account Receipt.amount Receipt.agent
    Receipt.executed_at_slot Receipt.signature_reference Receipt.status Receipt.bump
    Receipt.snapshot_version Receipt.policy_max_per_payment Receipt.policy_total_limit
    Receipt.policy_amount_spent_after Receipt.policy_payment_count_after
    Receipt.policy_max_payment_count Receipt.policy_expires_at_slot Receipt.policy_cooldown_slots
    Receipt.reserved]; unfold is_key, is_u64; try done; lia.
Qed.

(** The address the program stores a receipt at *)
Definition receipt_key (mandate_key invoice_hash program : bytes) : result bytes :=
  findProgramAddress [utf8 RECEIPT_SEED; mandate_key; invoice_hash] program.

Lemma derive_receipt mk h pid a :
  is_key mk → is_key h → is_key pid → receipt_key mk h pid = Ok a →
  deriveReceiptAddress (toBase58 mk) h (toBase58 pid) = Ok (toBase58 a).
Proof.
  intros Hm Hh Hp H. unfold deriveReceiptAddress, find_pda.
  rewrite !publicKey_toBase58, bytes32_valid by done. cbn [sequence bind]. unfold receipt_key in H.
  change (sequence [Ok (utf8 RECEIPT_SEED); Ok mk; Ok h]) with (Ok [utf8 RECEIPT_SEED; mk; h]).
  cbn [bind]. by rewrite H.
Qed.

(** C7: When the program executes a payment, the account it writes at the
    receipt's address (whatever bytes follow the receipt) is accepted by the public
    reader under that program, as settled, with exactly the payment's mandate,
    hashes, amount, mint, accounts, agent and slot, and the mandate's limits and
    the spending after the payment as its policy snapshot. *)
Theorem settled_payment_reads (mk : bytes) (acc : ExecutePayment.t) (slot : Z) (p : PaymentParams.t)
    (st st' : Chain.t) (pid a : bytes) (sig : option string) (extra : bytes) :
  mandate_wf st.(Chain.mandate) → payment_wf mk acc slot p → is_key pid →
  execute_payment mk acc slot p st = POk st' → receipt_key mk p.(PaymentParams.invoice_hash) pid = Ok a →
  ∃ r, st'.(Chain.receipts) !! p.(PaymentParams.invoice_hash) = Some r ∧
    readPublicSettledReceipt (ReceiptAccountView.mk (toBase58 a) (toBase58 pid) (receipt_account r ++ extra))
        (Some (toBase58 pid)) sig
      = Ok (ReadSuccess (ReceiptReadSuccess.mk (receipt_view (toBase58 a) sig (snapshot_view r) r)
          (toBase58 pid) (toBase58 a) true)) ∧
    receipt_view (toBase58 a) sig (snapshot_view r) r =
      PaymentReceipt.mk (toBase58 a) (toBase58 mk) p.(PaymentParams.invoice_hash) p.(PaymentParams.payment_id)
        (toBase58 st.(Chain.mandate).(PaymentMandate.allowed_mint)) (toBase58 acc.(ExecutePayment.recipient_key))
        (toBase58 st.(Chain.mandate).(PaymentMandate.source_token_account))
        (toBase58 acc.(ExecutePayment.recipient_key)) p.(PaymentParams.amount) (toBase58 acc.(ExecutePayment.agent))
        slot p.(PaymentParams.signature_reference) confirmed 1 acc.(ExecutePayment.receipt_bump) sig
        (Some (ReceiptPolicySnapshot.mk 1 st.(Chain.mandate).(PaymentMandate.max_per_payment)
          st.(Chain.mandate).(PaymentMandate.total_limit)
          (st.(Chain.mandate).(PaymentMandate.amount_spent) + p.(PaymentParams.amount))
          (st.(Chain.mandate).(PaymentMandate.payment_count) + 1)
          st.(Chain.mandate).(PaymentMandate.max_payment_count)
          st.(Chain.mandate).(PaymentMandate.expires_at_slot)
          st.(Chain.mandate).(PaymentMandate.cooldown_slots))).
Proof.
  intros Hm Hw Hpid Hx Ha. apply execute_payment_iff in Hx as (_ & Hfit & ->).
  pose proof (settled_receipt_wf _ _ _ _ _ Hm Hw Hfit) as Wr.
  set (r := settled_receipt mk acc slot p st.(Chain.mandate)) in *.
  exists r. split; [apply lookup_insert_eq|split; [|reflexivity]].
  assert (is_key a) as Hk by (unfold receipt_key in Ha; by eapply findProgramAddress_length).
  unfold readPublicSettledReceipt. apply read_ok.
  cbn [ReadReceiptOptions.programId ReadReceiptOptions.requireSettled ReadReceiptOptions.transactionSignature
    ReceiptAccountView.address ReceiptAccountView.owner ReceiptAccountView.data default].
  assert (parse_receipt (toBase58 a) sig (receipt_account r ++ extra)
    = receipt_view (toBase58 a) sig (snapshot_view r) r) as ->.
  { rewrite <- (parse_snapshot_tail r extra Wr). unfold receipt_account. rewrite <- app_assoc. by apply parse_receipt_v1. }
  pose proof (receipt_v1_length _ Wr) as L.
  split; [constructor|split; [done|done]]; cbn [ReceiptAccountView.address ReceiptAccountView.owner ReceiptAccountView.data].
  - by apply valid_toBase58.
  - by apply valid_toBase58.
  - done.
  - unfold receipt_account, receipt_account_v1. rewrite <- !app_assoc. by apply prefix_app_r.
  - unfold receipt_account. rewrite !length_app. lia.
  - destruct Hw. by apply derive_receipt.
Qed.
End Reading.

(** ** Amounts *)

(** A display amount is exact: with known decimals its digits are the base
    units with a point before the last [d] of them, never rounded, and with unknown
    ones it is the base units themselves. *)
Theorem exact_amounts (amount d : Z) :
  0 <= amount <= MAX_U64 → 0 < d <= 255 →
  ∃ whole fraction, formatExactTokenAmount amount (Some (JInt d))
      = Ok (TokenAmountDisplay.mk (toString amount) (Some d) (text (whole ++ "."%char :: fraction)) true) ∧
    whole ≠ [] ∧ length fraction = Z.to_nat d ∧ forallb is_digit (whole ++ fraction) = true ∧
    chars_value whole * 10 ^ d + chars_value fraction = amount ∧
    formatExactTokenAmount amount None
      = Ok (TokenAmountDisplay.mk (toString amount) None (toString amount) false).
Proof.
  intros Ha Hd. unfold formatExactTokenAmount, MAX_U64 in *.
  rewrite (proj2 (orb_false_iff _ _)) by (split; lia). cbv zeta.
  rewrite in_range_int by lia. cbn [bigint_of]. rewrite (proj2 (Z.eqb_neq d 0)) by lia.
  assert (toString amount = text (nat_chars amount)) as ->
    by (unfold toString; by rewrite (proj2 (Z.ltb_ge _ _)) by lia).
  rewrite chars_text. set (padded := padStart (Z.to_nat d + 1) (nat_chars amount)).
  assert (Z.to_nat d < length padded)%nat as Hl by (unfold padded, padStart; rewrite length_app, length_replicate; lia).
  assert (take (length padded - Z.to_nat d) padded ++ drop (length padded - Z.to_nat d) padded = padded) as Es
    by apply take_drop.
  assert (length (drop (length padded - Z.to_nat d) padded) = Z.to_nat d) as Ld by (rewrite length_drop; lia).
  eexists _, _. split; [reflexivity|]. split_and!; try done.
  - intros E. apply (f_equal length) in E. rewrite length_take in E. cbn in E. lia.
  - rewrite Es. apply padStart_digits, nat_chars_digits. lia.
  - replace (10 ^ d) with (10 ^ Z.of_nat (length (drop (length padded - Z.to_nat d) padded)))
      by (rewrite Ld, Z2Nat.id by lia; done).
    rewrite <- chars_value_app, Es. unfold padded. rewrite padStart_value. apply chars_value_nat. lia.
Qed.

(** A token account (165 bytes, or tagged otherwise than as a mint) never gives
    decimals, and an account of another program gives none either. *)
Lemma mint_decimals_ok `{K : PublicKeys, KS : !PublicKeysSpec K} account d :
  readVerifiedMintDecimals (Some account) = Ok (MintOk d) →
  (account.(MintAccount.owner) = SPL_TOKEN_PROGRAM_ID ∨ account.(MintAccount.owner) = TOKEN_2022_PROGRAM_ID) ∧
  (length account.(MintAccount.data) = MINT_LEN ∨
    (ACCOUNT_TYPE_OFFSET < length account.(MintAccount.data))%nat ∧
    byte_at account.(MintAccount.data) ACCOUNT_TYPE_OFFSET = ACCOUNT_TYPE_MINT) ∧
  d = byte_at account.(MintAccount.data) 44.
Proof.
  intros H. unfold readVerifiedMintDecimals in H. inv_ok H. apply address_ok in E as [-> _].
  destruct (negb _ && negb _) eqn:Eo; [discriminate H|]. apply andb_false_iff in Eo.
  destruct (Nat.leb _ 44); [discriminate H|].
  destruct (negb _ && negb _) eqn:Em; [discriminate H|]. apply andb_false_iff in Em.
  injection H as <-. rewrite !negb_false_iff in *. rewrite !bool_decide_eq_true in Eo.
  rewrite Nat.eqb_eq, andb_true_iff, Nat.ltb_lt, Z.eqb_eq in Em. done.
Qed.

(** ** Witnesses *)

Definition sample_params : PaymentParams.t := params_of (sample_request_for 22).

Lemma sample_settles :
  execute_payment sample_mandate_key sample_accounts 120 sample_params sample_chain
    = POk (settle sample_mandate_key sample_accounts 120 sample_params sample_chain).
Proof. vm_compute. reflexivity. Qed.

Lemma sample_payment_wf : payment_wf sample_mandate_key sample_accounts 120 sample_params.
Proof. constructor; first [apply le_bytes_length | vm_compute; split; congruence]. Qed.

Definition sample_receipt_key : bytes :=
  mix (utf8 RECEIPT_SEED ++ sample_mandate_key ++ sample_key 22 ++ [] ++ sample_key 9).

Lemma sample_receipt_derived :
  @receipt_key Base58.keys sample_mandate_key (sample_key 22) (sample_key 9) = Ok sample_receipt_key.
Proof. vm_compute. reflexivity. Qed.

Lemma settled_payment_reads_witness :
  ∃ r, readPublicSettledReceipt (K := Base58.keys)
      (ReceiptAccountView.mk (@toBase58 Base58.keys sample_receipt_key) (@toBase58 Base58.keys (sample_key 9))
        (receipt_account r ++ []))
      (Some (@toBase58 Base58.keys (sample_key 9))) None
    = Ok (ReadSuccess (ReceiptReadSuccess.mk
        (@receipt_view Base58.keys (@toBase58 Base58.keys sample_receipt_key) None (snapshot_view r) r)
        (@toBase58 Base58.keys (sample_key 9)) (@toBase58 Base58.keys sample_receipt_key) true)) ∧
    r.(Receipt.amount) = 700.
Proof.
  destruct (@settled_payment_reads Base58.keys Base58.keys_spec sample_mandate_key sample_accounts 120 sample_params
    sample_chain _ (sample_key 9) sample_receipt_key None [] sample_mandate_wf sample_payment_wf
    (le_bytes_length 32 9) sample_settles sample_receipt_derived) as (r & _ & Hr & Hv).
  exists r. split; [exact Hr|]. apply (f_equal PaymentReceipt.amount) in Hv. exact Hv.
Defined.

Lemma exact_amounts_witness :
  0 <= 5 <= MAX_U64 ∧ formatExactTokenAmount 5 (Some (JInt 2))
    = Ok (TokenAmountDisplay.mk "5" (Some 2) "0.05" true) ∧
  ∃ whole fraction, formatExactTokenAmount 5 (Some (JInt 2))
    = Ok (TokenAmountDisplay.mk "5" (Some 2) (text (whole ++ "."%char :: fraction)) true) ∧ length fraction = 2%nat.
Proof.
  split; [split; vm_compute; congruence|]. split; [vm_compute; reflexivity|].
  destruct (exact_amounts 5 2) as (w & f & H1 & _ & H2 & _); [split; vm_compute; congruence | lia |].
  exists w, f. split; [exact H1 | exact H2].
Defined.
