(* ===== verification/ChainPayClient.v ===== *)
(** * The client (sdk/src/client.ts)

    Every read goes over the connection, a parameter ([Connection]): its answers
    are those of one state of the chain.  The token library's reads are
    [SplToken].  A thrown [DuplicateInvoiceError] is kept apart from the other
    errors.  That calls for different accounts run at once is not modelled. *)
From Stdlib Require Import ZArith Lia Strings.Byte Strings.Ascii.
From stdpp Require Import base numbers sets strings list.
From S2P Require Import Prelude Bytes PublicKey Types Encoding Pda Program Accounts Mandate Payment TokenAccounts CardConstants Decimal TokenCapabilities MandateRequest ReceiptReader.

Module AccountInfo.
Record t : Type := mk { owner : Address; data : bytes }.
End AccountInfo.

Module SignatureInfo.
Record t : Type := mk { signature : string; slot : Z; blockTime : option Z }.
End SignatureInfo.

(** A filter by size and, at an offset, by an address *)
Module AccountFilter.
Record t : Type := mk { dataSize : nat; memcmp : option (nat * Address) }.
End AccountFilter.

Class Connection : Type := {
  getSlot : result Z;
  getAccountInfo : bytes → result (option AccountInfo.t);
  getProgramAccounts : bytes → AccountFilter.t → result (list (Address * AccountInfo.t));
  (** newest first, before a signature when one is given *)
  getSignaturesForAddress : bytes → option string → nat → result (list SignatureInfo.t);
}.

(** What [getMandate] returns: the mandate, and when it was created *)
Module MandateRead.
Record t : Type := mk { mandate : Mandate.t; createdAt : option Z; createdAtSlot : option Z }.
End MandateRead.

Inductive PaymentLookup : Type := by_address (a : Address) | by_invoice (mandate : Address) (invoiceHash : bytes).

Inductive PreparationStatus : Type := account_ready | account_missing.

Module AssociatedTokenAccountPreparation.
Record t : Type := mk {
  asset : SupportedAsset.t;
  address : Address;
  owner : Address;
  mint : Address;
  tokenProgram : TokenProgram;
  status : PreparationStatus;
  transaction : option PreparedTransaction.t;
}.
End AssociatedTokenAccountPreparation.

Module PreparedPayment.
Record t : Type := mk {
  request : PaymentRequest.t;
  mandate : MandateRead.t;
  receiptAddress : Address;
  instruction : ChainPayInstruction.t;
  transaction : PreparedTransaction.t;
  preflight : PaymentPreflight.t;
  capabilityProfile : TokenCapabilityProfile.t;
}.
End PreparedPayment.

Module PaymentExecutionResult.
Record t : Type := mk {
  status : string;
  receiptAddress : Address;
  signature : option string;
  slot : option Z;
  error : option string;
  code : option string;
}.
End PaymentExecutionResult.

(** [localeCompare] of texts of digits and letters: a digit before a letter, letters by the alphabet, and for texts that
    differ in case alone the small letter first *)
Definition collation (c : ascii) : Z :=
  let n := Z.of_N (N_of_ascii c) in if (65 <=? n) && (n <=? 90) then n + 32 else n.
Definition is_capital (c : ascii) : Z := let n := Z.of_N (N_of_ascii c) in if (65 <=? n) && (n <=? 90) then 1 else 0.

Fixpoint compare_lists (a b : list Z) : comparison :=
  match a, b with
  | [], [] => Eq
  | [], _ => Lt
  | _, [] => Gt
  | x :: a, y :: b => match x ?= y with Eq => compare_lists a b | c => c end
  end.

Definition localeCompare (a b : string) : comparison :=
  match compare_lists (map collation (chars a)) (map collation (chars b)) with
  | Eq => compare_lists (map is_capital (chars a)) (map is_capital (chars b))
  | c => c
  end.

Definition with_token_program (m : Mandate.t) (tp : option TokenProgram) : Mandate.t :=
  Mandate.mk m.(Mandate.address) m.(Mandate.owner) m.(Mandate.approvedAgent) m.(Mandate.sourceTokenAccount) m.(Mandate.allowedMint)
    m.(Mandate.legacyAllowedRecipient) m.(Mandate.maxPerPayment) m.(Mandate.totalLimit) m.(Mandate.amountSpent) m.(Mandate.paymentCount)
    m.(Mandate.expiresAtSlot) m.(Mandate.maxPaymentCount) m.(Mandate.cooldownSlots) m.(Mandate.lastPaymentSlot) m.(Mandate.paused)
    m.(Mandate.revoked) m.(Mandate.status) tp m.(Mandate.mandateNonce).

(** Receipts, the latest first, and by address from the last *)
Definition receipt_leb (a b : PaymentReceipt.t) : bool :=
  let x := a.(PaymentReceipt.executedAtSlot) in
  let y := b.(PaymentReceipt.executedAtSlot) in
  if x =? y then negb (bool_decide (localeCompare b.(PaymentReceipt.address) a.(PaymentReceipt.address) = Gt)) else y <? x.

Definition asset_leb (a b : SupportedAsset.t) : bool :=
  negb (bool_decide (localeCompare a.(SupportedAsset.mint) b.(SupportedAsset.mint) = Gt)).

(** The accounts of a list, each address once, the first time it occurs *)
Definition dedup_accounts (l : list (Address * AccountInfo.t)) : list (Address * AccountInfo.t) :=
  reverse (foldl (λ acc x, if bool_decide (x.1 ∈ acc.*1) then acc else x :: acc) [] l).

Section Client.
Context `{K : PublicKeys, T : SplToken, CN : Connection}.
Context (programId : Address).

Definition getCurrentSlot : result Z := getSlot.

Definition info_at (a : Address) : result (option AccountInfo.t) := let! key := publicKey a in getAccountInfo key.

Definition getProgramAccount (a : Address) : result (option (Address * bytes)) :=
  let! normalized := address a in
  let! info := info_at normalized in
  match info with
  | None => Ok None
  | Some info =>
      throw_if! negb (bool_decide (info.(AccountInfo.owner) = programId))
        with "Account " +:+ normalized +:+ " is not owned by ChainPay program";
      Ok (Some (normalized, info.(AccountInfo.data)))
  end.

Definition getConfig : result (option ProtocolConfig.t) :=
  let! a := deriveConfigAddress programId in
  let! account := getProgramAccount a in
  match account with
  | Some (a, data) => let! config := decodeProtocolConfig data (Some a) in Ok (Some config)
  | None => Ok None
  end.

(** The signatures of an account a page at a time: the oldest one found *)
Fixpoint history_pages (fuel : nat) (key : bytes) (before : option string) (oldest : option SignatureInfo.t) :
    result (option SignatureInfo.t) :=
  match fuel with
  | O => Ok oldest
  | S fuel =>
      let! signatures := getSignaturesForAddress key before 100 in
      match last signatures with
      | None => Ok oldest
      | Some o => if (length signatures <? 100)%nat then Ok (Some o)
                  else history_pages fuel key (Some o.(SignatureInfo.signature)) (Some o)
      end
  end.

Definition getMandateCreationMetadata (mandateAddress : Address) : option Z * option Z :=
  match (let! key := publicKey mandateAddress in history_pages 100 key None None) with
  | Ok (Some oldest) => (oldest.(SignatureInfo.blockTime), Some oldest.(SignatureInfo.slot))
  | _ => (None, None)
  end.

Definition program_of (info : option AccountInfo.t) : result (option TokenProgram) :=
  match info with Some info => tokenProgramFromAddress info.(AccountInfo.owner) | None => Ok None end.

(** The mandate with the program of its source account and its creation *)
Definition complete_mandate (decoded : Mandate.t) : result MandateRead.t :=
  let! source := info_at decoded.(Mandate.sourceTokenAccount) in
  let! tokenProgram := program_of source in
  let '(createdAt, createdAtSlot) := getMandateCreationMetadata decoded.(Mandate.address) in
  Ok (MandateRead.mk (with_token_program decoded tokenProgram) createdAt createdAtSlot).

Definition getMandate (mandateAddress : Address) : result (option MandateRead.t) :=
  let! currentSlot := getCurrentSlot in
  let! account := getProgramAccount mandateAddress in
  match account with
  | None => Ok None
  | Some (a, data) =>
      let! decoded := decodeMandate data a (Some currentSlot) None in
      let! mandate := complete_mandate decoded in
      Ok (Some mandate)
  end.

Definition getMandatesByOwner (owner : Address) : result (list MandateRead.t) :=
  let! currentSlot := getCurrentSlot in
  let! program := publicKey programId in
  let! accounts := getProgramAccounts program (AccountFilter.mk 235 (Some (8%nat, owner))) in
  traverse (λ account : Address * AccountInfo.t,
    let! decoded := decodeMandate account.2.(AccountInfo.data) account.1 (Some currentSlot) None in complete_mandate decoded) accounts.

Definition getSupportedAsset (mint : Address) : result (option SupportedAsset.t) :=
  let! assetAddress := deriveAssetAddress mint programId in
  let! account := getProgramAccount assetAddress in
  match account with
  | Some (a, data) => let! asset := decodeSupportedAsset data a in Ok (Some asset)
  | None => Ok None
  end.

Definition getSupportedAssets : result (list SupportedAsset.t) :=
  let! program := publicKey programId in
  let! accounts := getProgramAccounts program (AccountFilter.mk 106 None) in
  let! assets := traverse (λ account : Address * AccountInfo.t, decodeSupportedAsset account.2.(AccountInfo.data) account.1) accounts in
  Ok (sort_by asset_leb assets).

(** ** Token accounts *)

Definition prepareAssociatedTokenAccountForAsset (asset : SupportedAsset.t) (ownerInput : Address) (payerInput : option Address) :
    result AssociatedTokenAccountPreparation.t :=
  let! owner := address ownerInput in
  let! payer := address (default owner payerInput) in
  let! mint := address asset.(SupportedAsset.mint) in
  let! program := tokenProgramFromAddress asset.(SupportedAsset.tokenProgram) in
  match program with
  | None => Throw ("Registry asset uses an unsupported token program: " +:+ asset.(SupportedAsset.tokenProgram))
  | Some tokenProgram =>
      let! info := info_at mint in
      match info with
      | None => Throw ("Mint account not found: " +:+ mint)
      | Some mintAccount =>
          let! mintProgram := tokenProgramFromAddress mintAccount.(AccountInfo.owner) in
          match mintProgram with
          | None => Throw ("Mint is not owned by a supported token program: " +:+ mintAccount.(AccountInfo.owner))
          | Some mintProgram =>
              let! verifiedMint := readVerifiedMintDecimals (Some (MintAccount.mk mintAccount.(AccountInfo.owner) mintAccount.(AccountInfo.data))) in
              throw_if! match verifiedMint with MintOk _ => false | MintBad _ => true end with "Mint account data is invalid: " +:+ mint;
              throw_if! negb (bool_decide (mintProgram = tokenProgram)) with "Registry token program does not match mint owner for " +:+ mint;
              let! associated := deriveAssociatedTokenAddress owner mint tokenProgram in
              let! existing := info_at associated in
              let base := AssociatedTokenAccountPreparation.mk asset associated owner mint tokenProgram in
              match existing with
              | Some existing =>
                  throw_if! negb (bool_decide (existing.(AccountInfo.owner) = asset.(SupportedAsset.tokenProgram)))
                    with "Canonical token account is owned by an unexpected program: " +:+ associated;
                  throw_if! match readTokenAccountFields existing.(AccountInfo.data) with
                            | Some fields => negb (bool_decide (fields.(TokenAccountFields.owner) = owner))
                                             || negb (bool_decide (fields.(TokenAccountFields.mint) = mint))
                            | None => true
                            end with "Canonical token account data is invalid: " +:+ associated;
                  Ok (base account_ready None)
              | None =>
                  let! create := buildCreateAssociatedTokenAccountInstruction payer owner mint tokenProgram in
                  Ok (base account_missing (Some (PreparedTransaction.mk [create] [payer] (Some payer))))
              end
          end
      end
  end.

Definition prepareAssociatedTokenAccount (owner mintInput : Address) (payer : option Address) :
    result AssociatedTokenAccountPreparation.t :=
  let! mint := address mintInput in
  let! asset := getSupportedAsset mint in
  match asset with
  | Some asset =>
      throw_if! negb asset.(SupportedAsset.enabled) with "Asset is not enabled in the ChainPay registry: " +:+ mint;
      prepareAssociatedTokenAccountForAsset asset owner payer
  | None => Throw ("Asset is not enabled in the ChainPay registry: " +:+ mint)
  end.

Definition prepareRegisteredAssetTokenAccounts (owner : Address) (payer : option Address) :
    result (list AssociatedTokenAccountPreparation.t) :=
  let! assets := getSupportedAssets in
  traverse (λ asset, prepareAssociatedTokenAccountForAsset asset owner payer)
    (filter (λ asset, asset.(SupportedAsset.enabled) = true) assets).

Definition getTokenProgram (accountAddress : Address) : result TokenProgram :=
  let! account := info_at accountAddress in
  match account with
  | None => Throw ("Token account not found: " +:+ accountAddress)
  | Some account =>
      let! program := tokenProgramFromAddress account.(AccountInfo.owner) in
      match program with
      | Some tokenProgram => Ok tokenProgram
      | None => Throw ("Unsupported token program: " +:+ account.(AccountInfo.owner))
      end
  end.

Definition getMintDecimals (mint : Address) : result Z :=
  let! account := info_at mint in
  match account with
  | None => Throw ("Mint account not found: " +:+ mint)
  | Some account =>
      let! decimals := readVerifiedMintDecimals (Some (MintAccount.mk account.(AccountInfo.owner) account.(AccountInfo.data))) in
      match decimals with
      | MintOk decimals => Ok decimals
      | MintBad unsupported_owner => Throw ("Mint is not owned by a supported token program: " +:+ account.(AccountInfo.owner))
      | MintBad _ => Throw "Mint account data is truncated"
      end
  end.

(** ** Receipts *)

Definition getPayment (lookup : PaymentLookup) : result (option PaymentReceipt.t) :=
  let! receiptAddress := match lookup with
                         | by_address a => address a
                         | by_invoice mandate invoiceHash => deriveReceiptAddress mandate invoiceHash programId
                         end in
  let! account := getProgramAccount receiptAddress in
  match account with
  | None => Ok None
  | Some (a, data) =>
      let! r := readPaymentReceiptAccount (ReceiptAccountView.mk a programId data) (ReadReceiptOptions.mk (Some programId) (Some false) None) in
      match r with
      | ReadSuccess s => Ok (Some s.(ReceiptReadSuccess.receipt))
      | ReadFailure _ reason => Throw reason
      end
  end.

Definition getCurrentMandateFields (mandateAddress : Address) : result CurrentMandateRead :=
  let! currentSlot := getCurrentSlot in
  let read :=
    let! account := getProgramAccount mandateAddress in
    readCurrentMandateFields ((λ a : Address * bytes, ReceiptAccountView.mk a.1 programId a.2) <$> account)
      (CurrentMandateOptions.mk (Some programId) (Some currentSlot) (Some mandateAddress)) in
  Ok match read with Ok m => m | Throw e => MandateUnavailable e end.

Definition getVerifiedSettledPayment (receiptAddress : Address) : result ReceiptReadResult :=
  let! normalized := address receiptAddress in
  let! info := info_at normalized in
  match info with
  | None => Ok (ReadFailure not_found "Receipt account not found")
  | Some info => readPublicSettledReceipt (ReceiptAccountView.mk normalized info.(AccountInfo.owner) info.(AccountInfo.data)) (Some programId) None
  end.

Definition readPublicReceipt (receiptAddress : Address) : result PublicReceiptProof.t :=
  let! receipt := getVerifiedSettledPayment receiptAddress in
  match receipt with
  | ReadFailure _ _ => Ok (PublicReceiptProof.mk receipt None MandateAbsent)
  | ReadSuccess s =>
      let r := s.(ReceiptReadSuccess.receipt) in
      let mintAccount := match info_at r.(PaymentReceipt.mint) with
                         | Ok (Some info) => Some (MintAccount.mk info.(AccountInfo.owner) info.(AccountInfo.data))
                         | _ => None
                         end in
      let currentMandate := match getCurrentMandateFields r.(PaymentReceipt.mandate) with Ok m => m | Throw e => MandateUnavailable e end in
      let! amount := amountDisplayFromMint r.(PaymentReceipt.amount) mintAccount in
      Ok (PublicReceiptProof.mk receipt (Some amount) currentMandate)
  end.

Definition RECEIPT_ACCOUNT_LENGTHS : list nat := [RECEIPT_ACCOUNT_LENGTH; RECEIPT_ACCOUNT_LENGTH_V2].

(** The receipt of one account, if its data is one *)
Definition listed_receipt (account : Address * AccountInfo.t) : result (option PaymentReceipt.t) :=
  let transactionSignature :=
    match (let! key := publicKey account.1 in getSignaturesForAddress key None 1) with
    | Ok history => SignatureInfo.signature <$> head history
    | Throw _ => None
    end in
  let! r := readPaymentReceiptAccount (ReceiptAccountView.mk account.1 account.2.(AccountInfo.owner) account.2.(AccountInfo.data))
              (ReadReceiptOptions.mk (Some programId) (Some false) transactionSignature) in
  Ok match r with ReadSuccess s => Some s.(ReceiptReadSuccess.receipt) | ReadFailure _ _ => None end.

Definition getPaymentsByMandate (mandateAddress : Address) : result (list PaymentReceipt.t) :=
  let! mandate := address mandateAddress in
  let! program := publicKey programId in
  let! pages := traverse (λ dataSize, getProgramAccounts program (AccountFilter.mk dataSize (Some (8%nat, mandate)))) RECEIPT_ACCOUNT_LENGTHS in
  let! receipts := traverse listed_receipt (dedup_accounts (concat pages)) in
  Ok (sort_by receipt_leb (omap id receipts)).

(** ** Transactions of the owner *)

Definition buildCreateMandate (generated : bytes) (input : CreateMandateInput.t) (owner : Address) : result PreparedMandate.t :=
  let expected := input.(CreateMandateInput.tokenProgram) in
  let! mintProgram := getTokenProgram input.(CreateMandateInput.allowedMint) in
  throw_if! negb (bool_decide (mintProgram = expected)) with "Mint token program is " +:+ token_program_name mintProgram +:+ ", but mandate requested " +:+ token_program_name expected;
  let! sourceProgram := getTokenProgram input.(CreateMandateInput.sourceTokenAccount) in
  throw_if! negb (bool_decide (sourceProgram = expected)) with "Source token account uses " +:+ token_program_name sourceProgram +:+ ", but mandate requested " +:+ token_program_name expected;
  let! decimals := getMintDecimals input.(CreateMandateInput.allowedMint) in
  buildCreateMandateTransaction generated input owner programId (Some (JInt decimals)).

(** One instruction its signer pays for *)
Definition signed_by (signer : Address) (i : result ChainPayInstruction.t) : result PreparedTransaction.t :=
  let! i := i in Ok (PreparedTransaction.mk [i] [signer] (Some signer)).

Definition buildInitializeConfig (supportedMints : list Address) (authority : Address) : result PreparedTransaction.t :=
  signed_by authority (buildInitializeConfigInstruction supportedMints authority programId).
Definition buildUpdateMandate (input : UpdateMandateInput.t) (owner : Address) (mandateAddress : option Address) : result PreparedTransaction.t :=
  signed_by owner (buildUpdateMandateInstruction input owner programId mandateAddress).
Definition buildRegisterAsset (mint : Address) (tokenProgram : TokenProgram) (authority : Address) : result PreparedTransaction.t :=
  signed_by authority (buildRegisterAssetInstruction mint tokenProgram authority programId).
Definition buildSetAssetStatus (mint authority : Address) (enabled : bool) : result PreparedTransaction.t :=
  signed_by authority (buildSetAssetStatusInstruction mint authority enabled programId).
Definition buildPauseMandate (owner : Address) (mandateAddress : option Address) : result PreparedTransaction.t :=
  signed_by owner (buildPauseMandateInstruction owner programId mandateAddress).
Definition buildRevokeMandate (owner : Address) (mandateAddress : option Address) : result PreparedTransaction.t :=
  signed_by owner (buildRevokeMandateInstruction owner programId mandateAddress).
Definition buildRevokeDelegate (sourceTokenAccount owner : Address) (tokenProgram : TokenProgram) : result PreparedTransaction.t :=
  signed_by owner (buildRevokeDelegateInstruction sourceTokenAccount owner tokenProgram).
Definition buildApproveDelegate (sourceTokenAccount allowedMint : Address) (tokenProgram : TokenProgram) (totalLimit : Z) (owner : Address)
    (mandate : option Address) (delegateAmount : option Z) (decimals : number) : result PreparedTransaction.t :=
  signed_by owner (buildApproveDelegateInstruction sourceTokenAccount allowedMint tokenProgram totalLimit owner mandate delegateAmount decimals).

(** ** Payments *)

(** [{ ...input, tokenProgram }] *)
Definition with_program (input : PaymentRequest.t) (tp : TokenProgram) : PaymentRequest.t :=
  PaymentRequest.mk input.(PaymentRequest.mandate) input.(PaymentRequest.invoiceHash) input.(PaymentRequest.paymentId)
    input.(PaymentRequest.signatureReference) input.(PaymentRequest.mint) input.(PaymentRequest.recipient) input.(PaymentRequest.amount) (Some tp).

(** The registry's asset for the payment *)
Definition checked_asset (mint : Address) (tp : TokenProgram) : result unit :=
  let! asset := getSupportedAsset mint in
  match asset with
  | Some asset =>
      throw_if! negb asset.(SupportedAsset.enabled) with "Payment mint is not enabled in the ChainPay SupportedAsset registry";
      throw_if! negb (bool_decide (asset.(SupportedAsset.mint) = mint))
                || negb (bool_decide (asset.(SupportedAsset.tokenProgram) = tokenProgramAddress tp))
        with "SupportedAsset mint or token program does not match the payment request";
      Ok tt
  | None => Throw "Payment mint is not enabled in the ChainPay SupportedAsset registry"
  end.

(** The preflight, with the source account as it is now *)
Definition checked_preflight (request : PaymentRequest.t) (mandate : Mandate.t) (agent : Address) : result PaymentPreflight.t :=
  let! currentSlot := getCurrentSlot in
  let! source := info_at mandate.(Mandate.sourceTokenAccount) in
  let context := source ≫= λ info, paymentPreflightContextFromTokenAccount info.(AccountInfo.data) in
  preflightPayment request mandate currentSlot (Some agent) false context.

(** What is built once no receipt exists *)
Definition preparedPayment (request : PaymentRequest.t) (tp : TokenProgram) (mandate : MandateRead.t) (receiptAddress : Address)
    (agent : option Address) : result PreparedPayment.t :=
  let m := mandate.(MandateRead.mandate) in
  let! _ := checked_asset request.(PaymentRequest.mint) tp in
  let! profile := inspectTokenCapabilities request.(PaymentRequest.mint) m.(Mandate.sourceTokenAccount) request.(PaymentRequest.recipient) tp in
  throw_if! negb profile.(TokenCapabilityProfile.compatible)
    with "Token capability check failed: " +:+ String.concat "; " profile.(TokenCapabilityProfile.blockers);
  let executionAgent := default m.(Mandate.approvedAgent) agent in
  let! preflight := checked_preflight request m executionAgent in
  let! instruction := buildExecutePaymentInstruction request executionAgent m programId in
  Ok (PreparedPayment.mk request mandate receiptAddress instruction (preparedPaymentTransaction instruction executionAgent) preflight profile).

(** [inr]: a [DuplicateInvoiceError] for that receipt is thrown. *)
Definition preparePayment {U : Type} (input : PaymentRequest.t) (untrusted : option (list U)) (agent : option Address) :
    result (PreparedPayment.t + Address) :=
  let! mandate := getMandate input.(PaymentRequest.mandate) in
  match mandate with
  | None => Throw ("Mandate not found: " +:+ input.(PaymentRequest.mandate))
  | Some mandate =>
      let m := mandate.(MandateRead.mandate) in
      let! tokenProgram := match input.(PaymentRequest.tokenProgram), m.(Mandate.tokenProgram) with
                           | Some tp, _ | None, Some tp => Ok tp
                           | None, None => getTokenProgram m.(Mandate.sourceTokenAccount)
                           end in
      throw_if! negb (Nat.eqb (length (default [] untrusted)) 0)
        with "Caller-supplied remainingAccounts are not accepted; extension accounts must be resolved from verified on-chain state";
      let! request := Payment.preparePayment (with_program input tokenProgram) untrusted in
      let! receiptAddress := deriveReceiptAddress m.(Mandate.address) request.(PaymentRequest.invoiceHash) programId in
      let! existing := getPayment (by_address receiptAddress) in
      match existing with
      | Some _ => Ok (inr receiptAddress)
      | None => let! p := preparedPayment request tokenProgram mandate receiptAddress agent in Ok (inl p)
      end
  end.
End Client.

(** ** Submitting *)

Module PaymentSubmission.
Record t : Type := mk { signature : string; status : option string; slot : option Z }.
End PaymentSubmission.

(** What an adapter's promise comes to: a value, or a caught error with its message *)
Inductive Settled (A : Type) : Type := resolved (a : A) | rejected (error : caught) (message : string).
Arguments resolved {A} _.
Arguments rejected {A} _ _.

(** [confirm] is optional; its value is the slot. *)
Module PaymentSubmissionAdapter.
Record t : Type := mk {
  submit : PreparedTransaction.t → Settled PaymentSubmission.t;
  confirm : option (string → Settled (option Z));
}.
End PaymentSubmissionAdapter.

Definition submit_failed (prepared : PreparedPayment.t) (error : caught) (message : string) : PaymentExecutionResult.t :=
  let receiptAddress := prepared.(PreparedPayment.receiptAddress) in
  if isDuplicateInvoiceError error || isReceiptAlreadyInUse message receiptAddress
  then PaymentExecutionResult.mk "failed" receiptAddress None None (Some DUPLICATE_INVOICE_MESSAGE) (Some "DuplicateInvoice")
  else PaymentExecutionResult.mk "failed" receiptAddress None None (Some message) None.

Definition executePayment (prepared : PreparedPayment.t) (adapter : PaymentSubmissionAdapter.t) : PaymentExecutionResult.t :=
  let receiptAddress := prepared.(PreparedPayment.receiptAddress) in
  match adapter.(PaymentSubmissionAdapter.submit) prepared.(PreparedPayment.transaction) with
  | rejected error message => submit_failed prepared error message
  | resolved submission =>
      let signature := submission.(PaymentSubmission.signature) in
      let executed status slot := PaymentExecutionResult.mk status receiptAddress (Some signature) slot None None in
      match adapter.(PaymentSubmissionAdapter.confirm) with
      | None => executed (default "submitted" submission.(PaymentSubmission.status)) submission.(PaymentSubmission.slot)
      | Some confirm =>
          match confirm signature with
          | rejected error message => submit_failed prepared error message
          | resolved slot => executed "confirmed" (match slot with Some s => Some s | None => submission.(PaymentSubmission.slot) end)
          end
      end
  end.
