(* ===== verification/ChainPayClientProps.v ===== *)
(** * What the client promises

    On a connection that answers for one state of the chain, a payment the client
    prepares is decided by its preflight: the program settles it when the
    preflight is valid and refuses it when it is not, and what the client calls a
    duplicate is one.  The creation of a mandate is the oldest signature of its
    history, however many pages it takes. *)
From Stdlib Require Import ZArith Lia Strings.Byte Strings.Ascii.
From stdpp Require Import base numbers sets strings list fin_maps gmap.
From S2P Require Import Prelude Bytes PublicKey Types Encoding Pda Program Accounts Mandate Payment TokenAccounts CardConstants Decimal TokenCapabilities MandateRequest ReceiptReader ChainPayClient.

Section Client.
Context `{K : PublicKeys, KS : !PublicKeysSpec K, T : SplToken, CN : Connection} (programId : Address).

(** ** A connection that answers for a state of the chain *)

Record chain_answers (invoice mandate_key : bytes) (slot : Z) (source_program : bytes) (st : Chain.t) : Prop := {
  ca_program : valid_address programId;
  ca_key : is_key mandate_key;
  ca_slot : getSlot = Ok slot;
  ca_u64 : is_u64 slot;
  ca_wf : mandate_wf st.(Chain.mandate);
  ca_bump : 0 <= st.(Chain.mandate).(PaymentMandate.bump) < 256;
  ca_mandate : ∃ extra,
    getAccountInfo mandate_key = Ok (Some (AccountInfo.mk programId (mandate_account st.(Chain.mandate) ++ extra)));
  ca_source : ∃ state native close unused extensions,
    laid_out st.(Chain.source) native close unused ∧
    getAccountInfo st.(Chain.mandate).(PaymentMandate.source_token_account)
    = Ok (Some (AccountInfo.mk (toBase58 source_program)
                  (token_account_data st.(Chain.source) state native close unused extensions)));
  ca_source_program : is_key source_program;
  (** An account stands at the address of the invoice's receipt exactly when there is a receipt. *)
  ca_receipt : ∀ a k,
    deriveReceiptAddress (toBase58 mandate_key) invoice programId = Ok a → publicKey a = Ok k →
    (is_Some (st.(Chain.receipts) !! invoice) ↔ ∃ info, getAccountInfo k = Ok (Some info));
}.

(** The accounts the program is given with an instruction *)
Definition executed_with (i : ChainPayInstruction.t) (mandate_key : bytes) (acc : ExecutePayment.t) : Prop :=
  ∃ config asset receipt system,
    map (λ k : AccountMeta.t, publicKey k.(AccountMeta.address)) i.(ChainPayInstruction.keys)
    = map Ok [config; asset; mandate_key; receipt; acc.(ExecutePayment.agent); acc.(ExecutePayment.allowed_mint);
              acc.(ExecutePayment.source_key); acc.(ExecutePayment.recipient_key); acc.(ExecutePayment.token_program); system].

(** What is in those accounts is what the client's readers find there.  The token library reads an account only under
    the program that owns it, and the system program is no token account. *)
Record accounts_hold (acc : ExecutePayment.t) (st : Chain.t) : Prop := {
  ah_asset : ∀ asset, getSupportedAsset programId (toBase58 acc.(ExecutePayment.allowed_mint)) = Ok (Some asset) →
    asset.(SupportedAsset.enabled) = acc.(ExecutePayment.asset_enabled) ∧
    publicKey asset.(SupportedAsset.mint) = Ok acc.(ExecutePayment.asset_mint) ∧
    publicKey asset.(SupportedAsset.tokenProgram) = Ok acc.(ExecutePayment.asset_token_program);
  ah_mint : ∀ tp m, getMint acc.(ExecutePayment.allowed_mint) tp = Ok m →
    publicKey (tokenProgramAddress tp) = Ok acc.(ExecutePayment.mint_program);
  ah_source : ∀ tp s, getAccount acc.(ExecutePayment.source_key) tp = Ok s →
    publicKey (tokenProgramAddress tp) = Ok acc.(ExecutePayment.source_program) ∧
    s.(SplAccount.mint) = st.(Chain.source).(TokenAccount.mint);
  ah_recipient : ∀ tp r, getAccount acc.(ExecutePayment.recipient_key) tp = Ok r →
    publicKey (tokenProgramAddress tp) = Ok acc.(ExecutePayment.recipient_program) ∧
    r.(SplAccount.mint) = acc.(ExecutePayment.recipient_mint) ∧
    toBase58 acc.(ExecutePayment.recipient_key) ≠ SYSTEM_PROGRAM_ID;
}.

(** The mandate accepts the recipient. *)
Definition recipient_accepted (acc : ExecutePayment.t) (st : Chain.t) : Prop :=
  is_mandate_nonce st.(Chain.mandate).(PaymentMandate.legacy_allowed_recipient) = true ∨
  st.(Chain.mandate).(PaymentMandate.legacy_allowed_recipient) = default_key ∨
  acc.(ExecutePayment.recipient_key) = st.(Chain.mandate).(PaymentMandate.legacy_allowed_recipient).

(** ** Reading the mandate *)

Lemma valid_publicKey a k : publicKey a = Ok k → address a = Ok a ∧ toBase58 k = a ∧ is_key k.
Proof.
  intros H. split; [by eapply address_valid, publicKey_valid|]. by apply publicKey_ok in H as [? ?].
Qed.

Lemma program_account a k info :
  publicKey a = Ok k → getAccountInfo k = Ok info →
  getProgramAccount programId a
  = match info with
    | None => Ok None
    | Some i => if negb (bool_decide (i.(AccountInfo.owner) = programId))
                then Throw ("Account " +:+ a +:+ " is not owned by ChainPay program") else Ok (Some (a, i.(AccountInfo.data)))
    end.
Proof.
  intros Hk Hi. unfold getProgramAccount, info_at. destruct (valid_publicKey _ _ Hk) as (-> & _). cbn [bind].
  rewrite Hk. cbn [bind]. by rewrite Hi.
Qed.

Lemma getMandate_chain invoice mandate_key slot source_program st a r :
  chain_answers invoice mandate_key slot source_program st → publicKey a = Ok mandate_key → getMandate programId a = Ok r →
  ∃ tp c d, r = Some (MandateRead.mk (mandate_view (toBase58 mandate_key) (Some slot) tp st.(Chain.mandate)) c d) ∧
    ∀ t, tp = Some t → publicKey (tokenProgramAddress t) = Ok source_program.
Proof.
  intros [] Ha H. destruct ca_mandate0 as [extra Hm]. destruct ca_source0 as (state & native & close & unused & ext & Hl & Hs).
  unfold getMandate, getCurrentSlot in H. rewrite ca_slot0 in H. cbn [bind] in H.
  rewrite (program_account _ _ _ Ha Hm), bool_decide_eq_true_2 in H by done. cbn [negb bind] in H.
  destruct (valid_publicKey _ _ Ha) as (_ & Hb & _). cbn [AccountInfo.data] in H.
  rewrite <- Hb in H. rewrite decodeMandate_parse in H; cycle 1.
  { unfold mandate_account. rewrite <- app_assoc. by apply prefix_app_r. }
  { rewrite length_app, mandate_account_length by done. lia. }
  { by apply valid_toBase58. }
  rewrite parse_mandate_account in H by done. cbn [bind] in H.
  apply bind_ok in H as (mr & H & Hr). injection Hr as <-. unfold complete_mandate, info_at in H.
  assert (is_key st.(Chain.mandate).(PaymentMandate.source_token_account)) as Hsk by by destruct ca_wf0.
  cbn [mandate_view Mandate.sourceTokenAccount] in H. rewrite publicKey_toBase58 in H by done. cbn [bind] in H. rewrite Hs in H.
  cbn [bind] in H. apply bind_ok in H as (tp & Htp & H). destruct (getMandateCreationMetadata _) as [c d]. injection H as <-.
  exists tp, c, d. split; [done|]. intros t ->. cbn in Htp. unfold tokenProgramFromAddress in Htp.
  rewrite address_valid in Htp by by apply valid_toBase58. cbn [bind] in Htp.
  destruct (bool_decide (_ = tokenProgramAddress spl_token)) eqn:E1 in Htp; [|destruct (bool_decide _) eqn:E2 in Htp; [|done]];
    injection Htp as <-; bool_reflect; [rewrite <- E1 | rewrite <- E2]; by apply publicKey_toBase58.
Qed.

(** ** What was checked before a payment is returned *)

Record checks_passed (request : PaymentRequest.t) (tp : TokenProgram) (mr : MandateRead.t) (agent : Address) (p : PreparedPayment.t) : Prop := {
  cp_request : p.(PreparedPayment.request) = request;
  cp_asset : ∃ asset, getSupportedAsset programId request.(PaymentRequest.mint) = Ok (Some asset) ∧
    asset.(SupportedAsset.enabled) = true ∧ asset.(SupportedAsset.mint) = request.(PaymentRequest.mint) ∧
    asset.(SupportedAsset.tokenProgram) = tokenProgramAddress tp;
  cp_profile : ∃ profile,
    inspectTokenCapabilities request.(PaymentRequest.mint) mr.(MandateRead.mandate).(Mandate.sourceTokenAccount)
      request.(PaymentRequest.recipient) tp = Ok profile ∧ profile.(TokenCapabilityProfile.compatible) = true;
  cp_preflight : checked_preflight request mr.(MandateRead.mandate) agent = Ok p.(PreparedPayment.preflight);
  cp_instruction :
    buildExecutePaymentInstruction request agent mr.(MandateRead.mandate) programId = Ok p.(PreparedPayment.instruction);
}.

Lemma preparedPayment_checked request tp mr receipt agent p :
  preparedPayment programId request tp mr receipt agent = Ok p →
  checks_passed request tp mr (default mr.(MandateRead.mandate).(Mandate.approvedAgent) agent) p ∧ p.(PreparedPayment.mandate) = mr.
Proof.
  unfold preparedPayment. intros H. apply bind_ok in H as ([] & Ha & H). apply bind_ok in H as (profile & Hc & H).
  apply if_throw_ok in H as [Hp H]. apply bind_ok in H as (pf & Hf & H). apply bind_ok in H as (ix & Hi & H). injection H as <-.
  split; [|done]. constructor; try done.
  - unfold checked_asset in Ha. apply bind_ok in Ha as ([asset|] & Hg & Ha); [|done]. exists asset.
    apply if_throw_ok in Ha as [He Ha]. apply if_throw_ok in Ha as [Hm _]. bool_reflect. done.
  - exists profile. by bool_reflect.
Qed.

Lemma preparePayment_inv {U : Type} input (untrusted : option (list U)) agent r :
  preparePayment programId input untrusted agent = Ok r →
  ∃ mr tp receipt,
    getMandate programId input.(PaymentRequest.mandate) = Ok (Some mr) ∧
    Payment.preparePayment (with_program input tp) untrusted = Ok (with_program input tp) ∧
    deriveReceiptAddress mr.(MandateRead.mandate).(Mandate.address) input.(PaymentRequest.invoiceHash) programId = Ok receipt ∧
    match r with
    | inr a => a = receipt ∧ ∃ rc, getPayment programId (by_address receipt) = Ok (Some rc)
    | inl p => getPayment programId (by_address receipt) = Ok None ∧
               checks_passed (with_program input tp) tp mr (default mr.(MandateRead.mandate).(Mandate.approvedAgent) agent) p
    end.
Proof.
  unfold preparePayment. intros H. apply bind_ok in H as ([mr|] & Hm & H); [|done]. apply bind_ok in H as (tp & _ & H).
  apply if_throw_ok in H as [_ H]. apply bind_ok in H as (request & Hr & H).
  assert (request = with_program input tp) as ->.
  { unfold Payment.preparePayment in Hr. inv_ok Hr. by subst. }
  apply bind_ok in H as (receipt & Hd & H). apply bind_ok in H as (existing & He & H). exists mr, tp, receipt.
  split_and!; [done..|]. destruct existing as [rc|].
  - injection H as <-. split; [done|]. by exists rc.
  - apply bind_ok in H as (p & Hp & H). injection H as <-. split; [done|]. by apply preparedPayment_checked in Hp as [? _].
Qed.

(** A payment is not found when nothing is at the receipt's address, and found only when something is. *)
Lemma getPayment_absent a k r :
  publicKey a = Ok k → getPayment programId (by_address a) = Ok r →
  (r = None ↔ getAccountInfo k = Ok None) ∧ (r ≠ None → ∃ info, getAccountInfo k = Ok (Some info)).
Proof.
  intros Hk H. unfold getPayment in H. destruct (valid_publicKey _ _ Hk) as (Ea & _). rewrite Ea in H. cbn [bind] in H.
  destruct (getAccountInfo k) as [info|e] eqn:Hi; cycle 1.
  { unfold getProgramAccount, info_at in H. rewrite Ea in H. cbn [bind] in H. rewrite Hk in H. cbn [bind] in H. by rewrite Hi in H. }
  rewrite (program_account _ _ _ Hk Hi) in H. destruct info as [i|].
  - destruct (negb _) in H; [done|]. cbn [bind] in H. apply bind_ok in H as (rr & _ & H). destruct rr; [|done]. injection H as <-.
    split; [done|]. intros _. by exists i.
  - cbn [bind] in H. injection H as <-. done.
Qed.

(** ** The preflight *)

Lemma preflight_mint request m slot agent exists_ context pf :
  preflightPayment request m slot agent exists_ context = Ok pf → pf.(PaymentPreflight.valid) = true →
  request.(PaymentRequest.mint) = m.(Mandate.allowedMint).
Proof.
  unfold preflightPayment. intros H Hv. apply bind_ok in H as (b & _ & H). apply bind_ok in H as (mint & Hm & H).
  apply bind_ok in H as (rc & _ & H). apply bind_ok in H as (cs & _ & H). injection H as <-. cbn [PaymentPreflight.valid] in Hv.
  apply address_ok in Hm as [-> _]. apply andb_true_iff in Hv as [_ Hv]. apply andb_true_iff in Hv as [_ Hv].
  apply andb_true_iff in Hv as [Hv _]. by apply bool_decide_eq_true in Hv.
Qed.

Lemma checked_on_chain invoice mandate_key slot source_program st request tp m agent pf :
  chain_answers invoice mandate_key slot source_program st →
  m = mandate_view (toBase58 mandate_key) (Some slot) tp st.(Chain.mandate) →
  checked_preflight request m agent = Ok pf →
  preflightPayment request m slot (Some agent) false (Some (context_of st.(Chain.source))) = Ok pf.
Proof.
  intros [] -> H. destruct ca_source0 as (state & native & close & unused & ext & Hl & Hs).
  unfold checked_preflight, getCurrentSlot in H. rewrite ca_slot0 in H. cbn [bind] in H.
  assert (is_key st.(Chain.mandate).(PaymentMandate.source_token_account)) as Hsk by by destruct ca_wf0.
  unfold info_at in H. cbn [mandate_view Mandate.sourceTokenAccount] in H. rewrite publicKey_toBase58 in H by done. cbn [bind] in H.
  rewrite Hs in H. cbn [bind AccountInfo.data] in H.
  unfold mbind, option_bind in H. cbn [AccountInfo.data] in H.
  unfold paymentPreflightContextFromTokenAccount in H. rewrite read_laid_out in H by done. exact H.
Qed.

(** ** The accounts of the instruction *)

Lemma instruction_accounts request agent m i mandate_key acc tp :
  buildExecutePaymentInstruction request agent m programId = Ok i → executed_with i mandate_key acc →
  request.(PaymentRequest.tokenProgram) = Some tp →
  publicKey agent = Ok acc.(ExecutePayment.agent) ∧ publicKey request.(PaymentRequest.mint) = Ok acc.(ExecutePayment.allowed_mint) ∧
  publicKey m.(Mandate.sourceTokenAccount) = Ok acc.(ExecutePayment.source_key) ∧
  publicKey request.(PaymentRequest.recipient) = Ok acc.(ExecutePayment.recipient_key) ∧
  publicKey (tokenProgramAddress tp) = Ok acc.(ExecutePayment.token_program) ∧
  execute_payment_params i.(ChainPayInstruction.data) = Some (params_of request).
Proof.
  intros Hi (c & a & r & s & Hk) Ht.
  destruct (buildExecutePaymentInstruction_ok _ _ _ _ _ Hi) as (config & asset & receipt & tp' & _ & _ & _ & Htp & _ & Hd & _ & _ & Hkeys).
  assert (tp' = tp) as -> by (destruct Htp as [Htp|[Htp _]]; congruence).
  rewrite Hkeys in Hk. cbn [map AccountMeta.address] in Hk. injection Hk as _ _ _ _ H1 H2 H3 H4 H5 _. by split_and!.
Qed.

(** The accounts the client inspected are usable. *)
Lemma profile_usable mint source recipient tp p mintKey sourceKey recipientKey :
  inspectTokenCapabilities mint source recipient tp = Ok p → p.(TokenCapabilityProfile.compatible) = true →
  publicKey mint = Ok mintKey → publicKey source = Ok sourceKey → publicKey recipient = Ok recipientKey →
  ∃ m s r, getMint mintKey tp = Ok m ∧ getAccount sourceKey tp = Ok s ∧ getAccount recipientKey tp = Ok r ∧
    s.(SplAccount.mint) = mintKey ∧ r.(SplAccount.mint) = mintKey.
Proof.
  intros H Hc H1 H2 H3. destruct (inspected _ _ _ _ _ H) as (mk & sk & rk & m & s & r & E1 & E2 & E3 & Hm & Hs & Hr & _ & Hb & Hbl).
  rewrite H1 in E1. injection E1 as ->. rewrite H2 in E2. injection E2 as ->. rewrite H3 in E3. injection E3 as ->.
  exists m, s, r. rewrite Hb in Hc. apply bool_decide_eq_true in Hc.
  assert (account_blockers mk m s r = []) as Hu.
  { destruct tp; [by rewrite Hbl in Hc|]. destruct Hbl as (fee & _ & Hbl). rewrite Hbl in Hc. by apply app_nil in Hc as [? _]. }
  apply account_blockers_nil in Hu as [_ Hu]. split_and!; try done; by apply Hu; auto.
Qed.

(** What the client does not check: a legacy mandate's recipient is the one paid, the token program can move between
    the accounts, and the counter is not at its last value. *)
Definition client_accepted (acc : ExecutePayment.t) (st : Chain.t) : Prop :=
  recipient_accepted acc st ∧ acc.(ExecutePayment.movable) = true ∧
  st.(Chain.mandate).(PaymentMandate.payment_count) < U64_MAX.

(** What the client saw makes the accounts agree, once the mint is the mandate's. *)
Lemma seen_accounts invoice mandate_key slot st acc request tp mr agent p :
  chain_answers invoice mandate_key slot acc.(ExecutePayment.source_program) st → accounts_hold acc st →
  checks_passed request tp mr agent p → request.(PaymentRequest.tokenProgram) = Some tp →
  mr.(MandateRead.mandate).(Mandate.sourceTokenAccount) = toBase58 st.(Chain.mandate).(PaymentMandate.source_token_account) →
  executed_with p.(PreparedPayment.instruction) mandate_key acc →
  toBase58 acc.(ExecutePayment.recipient_key) ≠ SYSTEM_PROGRAM_ID ∧
  acc.(ExecutePayment.source_program) = acc.(ExecutePayment.token_program) ∧
  (acc.(ExecutePayment.allowed_mint) = st.(Chain.mandate).(PaymentMandate.allowed_mint) →
    beyond_preflight acc st ↔ client_accepted acc st).
Proof.
  intros Hc Hh [] Htp Hsrc Hx. destruct (instruction_accounts _ _ _ _ _ _ _ cp_instruction0 Hx Htp) as (_ & Hm & Hs & Hr & Hp & _).
  destruct cp_asset0 as (asset & Ha & Hen & Hamint & Haprog). destruct cp_profile0 as (profile & Hprof & Hcompat).
  destruct (profile_usable _ _ _ _ _ _ _ _ Hprof Hcompat Hm Hs Hr) as (m & s & r & Hgm & Hgs & Hgr & Hsm & Hrm).
  destruct (valid_publicKey _ _ Hm) as (_ & Emint & _). destruct Hh. rewrite Emint in ah_asset0.
  destruct (ah_asset0 _ Ha) as (A1 & A2 & A3). destruct (ah_source0 _ _ Hgs) as [S1 S2]. destruct (ah_recipient0 _ _ Hgr) as (R1 & R2 & R3).
  pose proof (ah_mint0 _ _ Hgm) as M1. split; [done|].
  rewrite Hamint, Hm in A2. rewrite Haprog, Hp in A3. rewrite Hp in S1, R1, M1.
  injection A2 as A2. injection A3 as A3. injection S1 as S1. injection R1 as R1. injection M1 as M1.
  rewrite Hsrc in Hs. rewrite publicKey_toBase58 in Hs by by destruct Hc as [_ _ _ _ [] _]. injection Hs as Hs.
  split; [congruence|]. intros Hmint. split; [by intros [[[] ?] ?]|]. intros (Hrec & Hmv & Hcount).
  split; [|done]. split; [|done]. constructor; try done; congruence.
Qed.

(** ** Preparing a payment *)

(** The receipt that is, or is not, at the derived address *)
Lemma receipt_read mandate_key slot source_program st hash a r :
  chain_answers hash mandate_key slot source_program st →
  deriveReceiptAddress (toBase58 mandate_key) hash programId = Ok a → getPayment programId (by_address a) = Ok r →
  (r = None → st.(Chain.receipts) !! hash = None) ∧ (r ≠ None → is_Some (st.(Chain.receipts) !! hash)).
Proof.
  intros Hc Hd Hg. assert (valid_address a) as [k Hk%publicKey_new] by by eapply find_pda_valid.
  destruct (getPayment_absent _ _ _ Hk Hg) as [H1 H2]. pose proof (ca_receipt _ _ _ _ _ Hc a k Hd Hk) as Hr. split.
  - intros E. apply H1 in E. apply eq_None_not_Some. intros [info Hi]%Hr. by rewrite E in Hi.
  - intros E. apply Hr, H2, E.
Qed.

Lemma payment_lengths {U : Type} input (untrusted : option (list U)) :
  Payment.preparePayment input untrusted = Ok input →
  length input.(PaymentRequest.invoiceHash) = 32%nat ∧ length input.(PaymentRequest.paymentId) = 32%nat ∧
  length input.(PaymentRequest.signatureReference) = 32%nat.
Proof.
  unfold Payment.preparePayment. intros H. inv_ok H. bool_reflect.
  repeat match goal with E : bytes32 _ _ = Ok _ |- _ => apply bytes32_ok in E as [_ E] end. done.
Qed.

Lemma prepared_decided {U : Type} mandate_key slot acc st input (untrusted : option (list U)) agent p :
  chain_answers input.(PaymentRequest.invoiceHash) mandate_key slot acc.(ExecutePayment.source_program) st →
  publicKey input.(PaymentRequest.mandate) = Ok mandate_key →
  preparePayment programId input untrusted agent = Ok (inl p) →
  executed_with p.(PreparedPayment.instruction) mandate_key acc → accounts_hold acc st →
  execute_payment_params p.(PreparedPayment.instruction).(ChainPayInstruction.data) = Some (params_of p.(PreparedPayment.request)) ∧
  decides p.(PreparedPayment.preflight).(PaymentPreflight.valid) (client_accepted acc st)
    mandate_key acc slot (params_of p.(PreparedPayment.request)) st.
Proof.
  intros Hc Hkey Hp Hx Hh. destruct (preparePayment_inv _ _ _ _ Hp) as (mr & tp & receipt & Hm & Hpay & Hd & Hnone & Hck).
  destruct (getMandate_chain _ _ _ _ _ _ _ Hc Hkey Hm) as (mtp & c & d & Hmr & Hmtp). injection Hmr as ->. cbn [MandateRead.mandate] in *.
  set (request := with_program input tp) in *. pose proof (cp_request _ _ _ _ _ Hck) as ->.
  destruct (receipt_read _ _ _ _ _ _ _ Hc Hd Hnone) as [Hfree _]. specialize (Hfree eq_refl).
  destruct (instruction_accounts _ _ _ _ _ _ _ (cp_instruction _ _ _ _ _ Hck) Hx eq_refl) as (Hag & Hmint & _ & Hrcp & Htp & Hdata).
  destruct (seen_accounts _ _ _ _ _ _ _ _ _ _ Hc Hh Hck eq_refl eq_refl Hx) as (Hsys & Hprog & Hagree). split; [done|].
  pose proof (checked_on_chain _ _ _ _ _ _ _ _ _ _ Hc eq_refl (cp_preflight _ _ _ _ _ Hck)) as Hpf.
  destruct (valid_publicKey _ _ Hag) as (_ & Eag & Kag). destruct (valid_publicKey _ _ Hmint) as (_ & Emint & Kmint).
  destruct (valid_publicKey _ _ Hrcp) as (_ & Ercp & _). destruct (payment_lengths _ _ Hpay) as (L1 & L2 & L3).
  destruct (decide (acc.(ExecutePayment.allowed_mint) = st.(Chain.mandate).(PaymentMandate.allowed_mint))) as [E|Hne].
  - assert (payment_env mandate_key acc slot mtp request st) as Henv.
    { destruct Hc. destruct ca_source0 as (state & native & close & unused & ext & Hl & _). destruct Hl as (_ & Lo & _ & _ & Ldel & _).
      constructor; try done.
      - by rewrite <- Ercp.
      - intros t [= <-]. done. }
    destruct (preflight_on_chain_iff _ _ _ _ _ _ Henv) as (pf & Hpf' & Hiff). unfold preflight_on_chain, receipt_exists in Hpf'.
    rewrite Eag, bool_decide_eq_false_2 in Hpf'; [|cbn; rewrite Hfree; by intros []]. rewrite Hpf in Hpf'. injection Hpf' as <-.
    apply (decides_mono _ (beyond_preflight acc st)); [by apply Hagree|]. apply decides_intro. intros _. by apply Hiff.
  - destruct (PaymentPreflight.valid _) eqn:Ev; [|apply decides_unfit; by intros []].
    exfalso. apply Hne. apply (preflight_mint _ _ _ _ _ _ _ Hpf) in Ev.
    change (request.(PaymentRequest.mint) = toBase58 st.(Chain.mandate).(PaymentMandate.allowed_mint)) in Ev. rewrite <- Emint in Ev.
    apply toBase58_inj in Ev; [done..| |]; [done|]. by destruct Hc as [_ _ _ _ [] _].
Qed.

(** C3: On a connection that answers for the state of the chain, the preflight of a payment the client prepared decides
    it, up to what the client does not check.  The bytes it built parse to the request.  With the accounts it named, a
    payment the program executes at that slot was reported valid and has exactly the effect [settle]; one it refuses was
    reported invalid, or fails one of the three conditions of [client_accepted]: the recipient of a legacy mandate, an
    account the token program does not move, the counter at its last value.  That the mint, source and recipient are of
    one enabled asset and token program is what the client itself read. *)
Theorem client_preflight_decides mandate_key slot acc st input agent p :
  chain_answers input.(PaymentRequest.invoiceHash) mandate_key slot acc.(ExecutePayment.source_program) st →
  publicKey input.(PaymentRequest.mandate) = Ok mandate_key →
  preparePayment (U := unit) programId input None agent = Ok (inl p) →
  executed_with p.(PreparedPayment.instruction) mandate_key acc → accounts_hold acc st →
  execute_payment_params p.(PreparedPayment.instruction).(ChainPayInstruction.data) = Some (params_of p.(PreparedPayment.request)) ∧
  decides p.(PreparedPayment.preflight).(PaymentPreflight.valid) (client_accepted acc st)
    mandate_key acc slot (params_of p.(PreparedPayment.request)) st.
Proof. apply prepared_decided. Qed.

(** What the client reports as a duplicate is one: the program has the receipt and refuses the payment. *)
Lemma duplicate_refused {U : Type} mandate_key slot source_program st input (untrusted : option (list U)) agent receipt :
  chain_answers input.(PaymentRequest.invoiceHash) mandate_key slot source_program st →
  publicKey input.(PaymentRequest.mandate) = Ok mandate_key →
  preparePayment programId input untrusted agent = Ok (inr receipt) →
  is_Some (st.(Chain.receipts) !! input.(PaymentRequest.invoiceHash)) ∧
  ∀ acc, ∃ e, execute_payment mandate_key acc slot (params_of input) st = PErr e.
Proof.
  intros Hc Hkey Hp. destruct (preparePayment_inv _ _ _ _ Hp) as (mr & tp & r & Hm & _ & Hd & -> & rc & Hg).
  destruct (getMandate_chain _ _ _ _ _ _ _ Hc Hkey Hm) as (mtp & c & d & Hmr & _). injection Hmr as ->. cbn [MandateRead.mandate] in Hd.
  destruct (receipt_read _ _ _ _ _ _ _ Hc Hd Hg) as [_ Hs]. specialize (Hs ltac:(done)). split; [done|].
  intros acc. apply execute_payment_fails. intros [_ Hf]. pose proof (fit_new _ _ _ _ _ Hf) as Hn. cbn in Hn.
  rewrite Hn in Hs. by destruct Hs.
Qed.

(** ** The creation of a mandate *)

(** What of a history, newest first, comes after a signature *)
Fixpoint after (signature : string) (h : list SignatureInfo.t) : list SignatureInfo.t :=
  match h with
  | [] => []
  | x :: h => if bool_decide (x.(SignatureInfo.signature) = signature) then h else after signature h
  end.

Definition older (before : option string) (h : list SignatureInfo.t) : list SignatureInfo.t :=
  match before with Some signature => after signature h | None => h end.

Lemma after_middle l x r :
  x.(SignatureInfo.signature) ∉ map SignatureInfo.signature l → after x.(SignatureInfo.signature) (l ++ x :: r) = r.
Proof.
  induction l as [|y l IH]; cbn; intros H; [by rewrite bool_decide_eq_true_2|].
  apply not_elem_of_cons in H as [H1 H2]. rewrite bool_decide_eq_false_2 by congruence. by apply IH.
Qed.

Lemma older_taken h i : NoDup (map SignatureInfo.signature h) → older (SignatureInfo.signature <$> last (take i h)) h = drop i h.
Proof.
  intros Hd. destruct (take i h) as [|x l _] eqn:E using rev_ind.
  - cbn. rewrite <- (take_drop i h) at 1. by rewrite E.
  - rewrite last_snoc. cbn. rewrite <- (take_drop i h) at 1. rewrite E, <- app_assoc. apply after_middle.
    rewrite <- (take_drop i h), E, !map_app in Hd. apply NoDup_app in Hd as (Hd & _ & _). apply NoDup_app in Hd as (_ & Hd & _).
    intros Hin. apply (Hd _ Hin). cbn. left.
Qed.

Lemma history_pages_last key h :
  (∀ before, getSignaturesForAddress key before 100 = Ok (take 100 (older before h))) →
  NoDup (map SignatureInfo.signature h) → ∀ n i,
  history_pages n key (SignatureInfo.signature <$> last (take i h)) (last (take i h)) = Ok (last (take (i + n * 100) h)).
Proof.
  intros Hs Hd. induction n as [|n IH]; intros i; cbn [history_pages]; [by rewrite Nat.add_0_r|].
  rewrite Hs, older_taken by done. cbn [bind]. destruct (last (take 100 (drop i h))) as [o|] eqn:El.
  - assert (last (take (i + 100) h) = Some o) as Ho.
    { rewrite <- take_take_drop, last_app. by rewrite El. }
    rewrite length_take, length_drop. destruct (_ <? 100)%nat eqn:E.
    + apply Nat.ltb_lt in E. f_equal. rewrite <- Ho. rewrite !take_ge by lia. done.
    + rewrite <- Ho. change (Some o.(SignatureInfo.signature)) with (SignatureInfo.signature <$> Some o). rewrite <- Ho, IH.
      do 3 f_equal. lia.
  - assert (length h <= i)%nat as Hl.
    { apply last_None in El. apply (f_equal length) in El. rewrite length_take, length_drop in El. cbn [length] in El. lia. }
    by rewrite !take_ge by lia.
Qed.

(** A mandate is dated by the oldest signature of its history, however many pages of a hundred that takes: with the
    connection paging through a history of distinct signatures, newest first, the creation is that of its last entry,
    up to the ten thousandth. *)
Theorem creation_is_oldest a key h :
  publicKey a = Ok key →
  (∀ before, getSignaturesForAddress key before 100 = Ok (take 100 (older before h))) →
  NoDup (map SignatureInfo.signature h) →
  getMandateCreationMetadata a
  = match last (take (100 * 100) h) with
    | Some oldest => (oldest.(SignatureInfo.blockTime), Some oldest.(SignatureInfo.slot))
    | None => (None, None)
    end.
Proof.
  intros Ha Hs Hd. unfold getMandateCreationMetadata. rewrite Ha. cbn [bind].
  assert (history_pages 100 key None None = Ok (last (take (100 * 100) h))) as ->
    by exact (history_pages_last key h Hs Hd 100 0).
  by destruct (last _).
Qed.
End Client.

(** ** A client on a concrete chain *)

#[local] Existing Instance Base58.keys.
#[local] Existing Instance Base58.keys_spec.

Definition client_program : Address := Eval vm_compute in toBase58 (sample_key 9).
Definition paid_mint_address : Address := Eval vm_compute in toBase58 (sample_key 14).

Definition address_bytes (r : result Address) : bytes :=
  match r with Ok a => match publicKey a with Ok k => k | Throw _ => [] end | Throw _ => [] end.

Definition asset_address_key : bytes := Eval vm_compute in address_bytes (deriveAssetAddress paid_mint_address client_program).

(** An account of the registry: authority, mint, token program, enabled and bump *)
Definition asset_account : bytes :=
  ACCOUNT_DISCRIMINATORS.supportedAsset ++ sample_key 1 ++ sample_key 14 ++ spl_key ++ [byte_of 1; byte_of 254].

Definition sample_infos (k : bytes) : option AccountInfo.t :=
  if bool_decide (k = sample_mandate_key) then Some (AccountInfo.mk client_program (mandate_account sample_mandate))
  else if bool_decide (k = sample_key 13) then
    Some (AccountInfo.mk (toBase58 spl_key) (token_account_data sample_source (byte_of 1) (zero_bytes 12) (zero_bytes 36) (zero_bytes 32) []))
  else if bool_decide (k = asset_address_key) then Some (AccountInfo.mk client_program asset_account)
  else None.

Definition sample_history : list SignatureInfo.t :=
  [SignatureInfo.mk "third" 90 None; SignatureInfo.mk "second" 80 (Some 1008); SignatureInfo.mk "first" 70 (Some 1007)].

#[local] Instance sample_connection : Connection := {
  getSlot := Ok 120;
  getAccountInfo k := Ok (sample_infos k);
  getProgramAccounts _ _ := Ok [];
  getSignaturesForAddress _ before limit := Ok (take limit (older before sample_history));
}.

#[local] Instance sample_tokens : SplToken := {
  ExtensionType := CapabilityExample.tokens.(ExtensionType);
  ExtensionType_name := CapabilityExample.tokens.(ExtensionType_name);
  getMint k tp := match tp with
                  | spl_token => Ok (SplMint.mk k true [] None None None None)
                  | token_2022 => Throw "TokenInvalidAccountOwnerError"
                  end;
  getAccount k tp :=
    match tp with
    | spl_token => if bool_decide (k ∈ [sample_key 13; sample_key 24]) then Ok (SplAccount.mk (sample_key 14) true false [] None None)
                   else Throw "TokenAccountNotFoundError"
    | token_2022 => Throw "TokenInvalidAccountOwnerError"
    end;
  getEpoch := Ok 1;
}.

Definition client_input : PaymentRequest.t := sample_request_for 22.

Definition client_payment : result (PreparedPayment.t + Address) :=
  Eval vm_compute in preparePayment (U := unit) client_program client_input None None.

Definition the_payment : PreparedPayment.t :=
  Eval vm_compute in match client_payment with Ok (inl p) => p | _ =>
    PreparedPayment.mk client_input (MandateRead.mk (mandate_view "" None None sample_mandate) None None) ""
      (ChainPayInstruction.mk "" "" [] []) (PreparedTransaction.mk [] [] None) (PaymentPreflight.mk false 0 [])
      (TokenCapabilityProfile.mk "" spl_token false [] [] [] [] [] None None) end.

Example the_payment_valid : (PaymentPreflight.valid the_payment.(PreparedPayment.preflight), the_payment.(PreparedPayment.mandate).(MandateRead.createdAtSlot))
  = (true, Some 70).
Proof. reflexivity. Qed.

Lemma prepared_here : preparePayment (U := unit) client_program client_input None None = Ok (inl the_payment).
Proof. vm_compute. reflexivity. Qed.

Definition receipt_here : bytes :=
  Eval vm_compute in address_bytes (deriveReceiptAddress (toBase58 sample_mandate_key) (sample_key 22) client_program).

Lemma no_receipts h : sample_chain.(Chain.receipts) !! h = None.
Proof. exact (lookup_empty h). Qed.

Lemma receipt_here_derived :
  deriveReceiptAddress (toBase58 sample_mandate_key) client_input.(PaymentRequest.invoiceHash) client_program = Ok (toBase58 receipt_here).
Proof. vm_compute. reflexivity. Qed.

Lemma nothing_here : getAccountInfo receipt_here = Ok None.
Proof. vm_compute. reflexivity. Qed.

Lemma receipt_here_key : publicKey (toBase58 receipt_here) = Ok receipt_here.
Proof. vm_compute. reflexivity. Qed.

Lemma sample_answers : chain_answers client_program client_input.(PaymentRequest.invoiceHash) sample_mandate_key 120 spl_key sample_chain.
Proof.
  constructor.
  - exists (sample_key 9). vm_compute. reflexivity.
  - apply le_bytes_length.
  - reflexivity.
  - split; vm_compute; congruence.
  - apply sample_mandate_wf.
  - split; vm_compute; congruence.
  - exists []. rewrite app_nil_r. vm_compute. reflexivity.
  - exists (byte_of 1), (zero_bytes 12), (zero_bytes 36), (zero_bytes 32), []. split; [|vm_compute; reflexivity].
    split_and!; try reflexivity; try (vm_compute; congruence). intros d [= <-]. reflexivity.
  - vm_compute. reflexivity.
  - intros a k Ha Hk. rewrite receipt_here_derived in Ha. apply (f_equal (λ r, match r with Ok x => x | Throw _ => "" end)) in Ha.
    cbv beta iota in Ha. subst a. rewrite receipt_here_key in Hk.
    apply (f_equal (λ r, match r with Ok x => x | Throw _ => [] end)) in Hk. cbv beta iota in Hk. subst k. rewrite no_receipts, nothing_here.
    split; [by intros []|]. intros [info Hi]. discriminate Hi.
Qed.

Lemma sample_instruction_accounts : executed_with the_payment.(PreparedPayment.instruction) sample_mandate_key sample_accounts.
Proof.
  exists (address_bytes (deriveConfigAddress client_program)), asset_address_key, receipt_here, (address_bytes (Ok SYSTEM_PROGRAM_ID)).
  vm_compute. reflexivity.
Qed.

Lemma sample_accounts_hold : accounts_hold client_program sample_accounts sample_chain.
Proof.
  constructor.
  - intros asset Ha. assert (getSupportedAsset client_program (toBase58 sample_accounts.(ExecutePayment.allowed_mint)) = Ok (Some asset)) as H by done.
    vm_compute in H. injection H as <-. split_and!; vm_compute; reflexivity.
  - intros [] m Hm; [apply spl_key_parses|done].
  - intros [] s Hs; [|done]. split; [apply spl_key_parses|]. vm_compute in Hs. injection Hs as <-. reflexivity.
  - intros [] r Hr; [|done]. split; [apply spl_key_parses|]. vm_compute in Hr. injection Hr as <-.
    split; [reflexivity|]. apply sample_recipient_not_system.
Qed.

Lemma sample_accepted : client_accepted sample_accounts sample_chain.
Proof. split; [left; vm_compute; reflexivity|done]. Qed.

Lemma client_preflight_decides_witness :
  execute_payment_params the_payment.(PreparedPayment.instruction).(ChainPayInstruction.data) = Some (params_of the_payment.(PreparedPayment.request)) ∧
  the_payment.(PreparedPayment.preflight).(PaymentPreflight.valid) = true ∧
  execute_payment sample_mandate_key sample_accounts 120 (params_of the_payment.(PreparedPayment.request)) sample_chain
    = POk (settle sample_mandate_key sample_accounts 120 (params_of the_payment.(PreparedPayment.request)) sample_chain).
Proof.
  assert (the_payment.(PreparedPayment.preflight).(PaymentPreflight.valid) = true) as Hv by (vm_compute; reflexivity).
  destruct (client_preflight_decides client_program sample_mandate_key 120 sample_accounts sample_chain client_input None the_payment)
    as [Hd Hx].
  - exact sample_answers.
  - apply publicKey_sample.
  - exact prepared_here.
  - exact sample_instruction_accounts.
  - exact sample_accounts_hold.
  - rewrite Hv in Hx. split; [exact Hd|]. split; [exact Hv|]. exact (decides_settles _ _ _ _ _ _ Hx sample_accepted).
Defined.

Lemma creation_is_oldest_witness :
  getMandateCreationMetadata (toBase58 sample_mandate_key)
  = match last (take (100 * 100) sample_history) with
    | Some oldest => (oldest.(SignatureInfo.blockTime), Some oldest.(SignatureInfo.slot))
    | None => (None, None)
    end.
Proof.
  apply (creation_is_oldest (toBase58 sample_mandate_key) sample_mandate_key sample_history).
  - apply publicKey_sample.
  - reflexivity.
  - cbn. repeat constructor; rewrite ?elem_of_cons, ?elem_of_nil; naive_solver.
Defined.
