(* ===== verification/MerchantProof.v ===== *)
(** * Proof of payment at a merchant (demo-merchant/src/proof.ts, sdk/src/x402.ts)

    The merchant serves its resource against a receipt proof: the receipt's
    address and the signature of the transaction that settled it.  It reads both
    back at finalized commitment and checks the receipt against its price and the
    transaction's bytes against the receipt.  A check that fails carries a public
    category; any other exception is mapped to [invalid_proof] at the end.

    Node's base64 and Ed25519, [bs58], and the codec of Solana transactions are
    parameters. *)
From Stdlib Require Import ZArith Lia Strings.Byte Strings.Ascii.
From stdpp Require Import base numbers sets strings list fin_maps gmap.
From S2P Require Import Prelude Bytes PublicKey Types Encoding Pda Program Accounts Decimal CardConstants Values SupportParse Utf8 CardCommitment Signed ReceiptReader.

(** ** Errors *)

Inductive ProofErrorCategory : Type :=
| invalid_proof | receipt_not_found | receipt_mismatch | transaction_unavailable | rpc_unavailable
| unsupported_protocol.

#[export] Instance category_eq_dec : EqDecision ProofErrorCategory.
Proof. solve_decision. Defined.

(** What a call throws: a [MerchantProofError], or some other exception *)
Inductive Thrown : Type := ProofError (category : ProofErrorCategory) | OtherError (message : string).

Inductive checked (A : Type) : Type := Done (a : A) | Fails (e : Thrown).
Arguments Done {A} a.
Arguments Fails {A} e.

Definition fail {A} (category : ProofErrorCategory) : checked A := Fails (ProofError category).

Definition cbind {A B} (c : checked A) (k : A → checked B) : checked B :=
  match c with Done a => k a | Fails e => Fails e end.

(** A call that throws an [Error] *)
Definition lift {A} (r : result A) : checked A :=
  match r with Ok a => Done a | Throw e => Fails (OtherError e) end.

(** [try { ... } catch { fail(category) }] around such a call *)
Definition or_fail {A} (category : ProofErrorCategory) (r : result A) : checked A :=
  match r with Ok a => Done a | Throw _ => fail category end.

Declare Scope merchant_scope.
Notation "'let?' x ':=' r 'in' k" := (cbind r (λ x, k))
  (at level 10, x pattern, r at level 100, k at level 200) : merchant_scope.
Notation "'fail_if!' b 'as' c ';' k" := (if b then fail c else k)
  (at level 10, b at level 100, c at level 100, k at level 200) : merchant_scope.
Open Scope merchant_scope.

Definition PUBLIC_MESSAGES (category : ProofErrorCategory) : string :=
  match category with
  | invalid_proof | receipt_not_found | receipt_mismatch => "Payment verification failed"
  | transaction_unavailable | rpc_unavailable =>
      "Settlement confirmation is temporarily unavailable; retry this resource with the same proof and do not settle again"
  | unsupported_protocol => "Standard x402 exactSVM is unsupported without a ChainPay-accepted sponsor"
  end.

Definition httpStatus (category : ProofErrorCategory) : Z :=
  match category with rpc_unavailable | transaction_unavailable => 503 | _ => 402 end.

Module ProofErrorBody.
Record t : Type := mk { status : Z; error : string; code : ProofErrorCategory; unsupported_sponsor : bool }.
End ProofErrorBody.

Definition publicProofErrorBody (e : Thrown) : ProofErrorBody.t :=
  let category := match e with ProofError c => c | OtherError _ => invalid_proof end in
  ProofErrorBody.mk (httpStatus category) (PUBLIC_MESSAGES category) category
    (bool_decide (category = unsupported_protocol)).

(** ** Data *)

Definition SOLANA_DEVNET_CAIP2 : string := "solana:EtWTRABZaYq6iMfeYKouRu166VU2xqa1".
Definition CUSTOM_X402_VERSION : string := "x402/1.0".
Definition MAX_HEADER_CHARS : Z := 16384.
Definition MAX_DECODED_CHARS : Z := 16384.
Definition MAX_WIRE_BYTES : Z := 4096.
Definition MAX_BASE64_WIRE_CHARS : Z := 5464.
Definition MAX_ACCOUNT_KEYS : Z := 256.
Definition MAX_INSTRUCTIONS : Z := 64.
Definition MAX_LOADED_ADDRESSES : Z := 256.
Definition EXECUTE_PAYMENT_DATA_LENGTH : Z := 112.
Definition ED25519_SPKI_PREFIX : bytes :=
  bytes_of_Zs [0x30; 0x2a; 0x30; 0x05; 0x06; 0x03; 0x2b; 0x65; 0x70; 0x03; 0x21; 0x00].

Module CustomReceiptProof.
Record t : Type := mk { signature : string; receiptPDA : string }.
End CustomReceiptProof.

Inductive DetectedPayment : Type :=
| Custom (proof : CustomReceiptProof.t)
| StandardV2 (document : list (string * value))
| Malformed.

Module MerchantConfig.
Record t : Type := mk {
  resource : string;
  mint : Address;
  recipient : Address;
  amount : string;
  tokenProgram : TokenProgram;
  allowedAgent : Address;
  programId : Address;
  nonce : option string;
}.
End MerchantConfig.

Module X402PaymentReferences.
Record t : Type := mk { nonce : string; invoiceHash : string; paymentId : string; signatureReference : string }.
End X402PaymentReferences.

Module VerifiedMerchantPayment.
Record t : Type := mk { receipt : PaymentReceipt.t; transactionSignature : string; resource : string }.
End VerifiedMerchantPayment.

Module SettlementExpectation.
Record t : Type := mk {
  programId : Address;
  mint : Address;
  recipient : Address;
  amount : Z;
  agent : Address;
  tokenProgram : Address;
  configPda : Address;
  assetPda : Address;
  invoiceHash : bytes;
  paymentId : bytes;
  signatureReference : bytes;
}.
End SettlementExpectation.

(** How a read of the chain ends: [withTimeout] gives up after ten seconds. *)
Inductive Answer (A : Type) : Type := Answered (a : A) | Rejected (e : Thrown) | TimedOut.
Arguments Answered {A} a.
Arguments Rejected {A} e.
Arguments TimedOut {A}.

Module MerchantVerificationDependencies.
Record t : Type := mk {
  getFinalizedReceipt : Address → Answer (option PaymentReceipt.t);
  getFinalizedTransaction : string → Answer value;
}.
End MerchantVerificationDependencies.

Module X402ExactPayment.
Record t : Type := mk {
  mint : Address;
  recipient : Address;
  amount : string;
  resource : string;
  tokenProgram : TokenProgram;
  nonce : option string;
  expiresAtSlot : option string;
}.
End X402ExactPayment.

Module DataHeaders.
Record t : Type := mk { payment_signature : option string; x_payment : option string; payment_required : option string }.
End DataHeaders.

Module AccountRole.
Record t : Type := mk { address : Address; isSigner : bool; isWritable : bool }.
End AccountRole.

#[export] Instance role_eq_dec : EqDecision AccountRole.t.
Proof. solve_decision. Defined.

Module CompiledInstruction.
Record t : Type := mk { programAddressIndex : Z; accountIndices : list Z; data : bytes }.
End CompiledInstruction.

(** A compiled message, as the transaction codec gives it: numbers read from
    bytes, so integers. *)
Module Header.
Record t : Type := mk { numSignerAccounts : Z; numReadonlySignerAccounts : Z; numReadonlyNonSignerAccounts : Z }.
End Header.

Module RawInstruction.
Record t : Type := mk { programAddressIndex : Z; accountIndices : option (list Z); data : option bytes }.
End RawInstruction.

Module InstructionHeader.
Record t : Type := mk { programAccountIndex : Z; numInstructionAccounts : Z; numInstructionDataBytes : Z }.
End InstructionHeader.

Module InstructionPayload.
Record t : Type := mk { instructionAccountIndices : list Z; instructionData : bytes }.
End InstructionPayload.

Module TableLookup.
Record t : Type := mk { lookupTableAddress : Address; writableIndexes : list Z; readonlyIndexes : list Z }.
End TableLookup.

Inductive MessageVersion : Type := legacy | version0 | version1.

#[export] Instance version_eq_dec : EqDecision MessageVersion.
Proof. solve_decision. Defined.

Module DecodedMessage.
Record t : Type := mk {
  version : MessageVersion;
  header : Header.t;
  staticAccounts : list Address;
  instructions : option (list RawInstruction.t);
  instructionHeaders : option (list InstructionHeader.t);
  instructionPayloads : option (list InstructionPayload.t);
  numInstructions : option Z;
  addressTableLookups : option (list TableLookup.t);
}.
End DecodedMessage.

(** A transaction as decoded from its wire form: a null signature is a missing one. *)
Module Transaction.
Record t : Type := mk { messageBytes : bytes; signatures : gmap Address (option bytes) }.
End Transaction.

Module DecodedTransaction.
Record t : Type := mk { transaction : Transaction.t; message : DecodedMessage.t }.
End DecodedTransaction.

#[export] Instance payment_status_eq_dec : EqDecision PaymentStatus.
Proof. solve_decision. Defined.

(** ** Bytes and objects *)

(** The difference of all bytes is gathered before it is looked at. *)
Definition bytesEqual (left right : bytes) : bool :=
  Nat.eqb (length left) (length right)
  && (foldl Z.lor 0 (zip_with (λ a b, Z.lxor (byte_val a) (byte_val b)) left right) =? 0).

Definition exactKeys (fields : list (string * value)) (allowed : list string) : bool :=
  bool_decide (unknownKeys fields allowed = []).

Definition canonicalIntegerString (v : value) : bool :=
  match v with
  | VString s =>
      match chars s with
      | c :: rest => negb (bool_decide (c = "0"%char)) && forallb is_digit (c :: rest) && (BigInt s <=? MAX_U64)
      | [] => false
      end
  | _ => false
  end.

(** [list.slice(0, n)] *)
Definition slice0 {A} (n : Z) (l : list A) : list A :=
  take (Z.to_nat (if n <? 0 then Z.of_nat (length l) + n else n)) l.

Definition count {A} (l : list A) : Z := Z.of_nat (length l).
Definition size (s : string) : Z := Z.of_nat (String.length s).

(** [list[i]] *)
Definition nth_account {A} (l : list A) (i : Z) : option A := if i <? 0 then None else l !! Z.to_nat i.

Class MerchantHost : Type := {
  (** [bs58] *)
  bs58_encode : bytes → string;
  bs58_decode : string → result bytes;
  (** [Buffer.from(text, "base64")], which skips what it does not know *)
  buffer_base64 : string → bytes;
  (** [verify(null, message, createPublicKey({ key: der, format: "der", type: "spki" }), signature)] *)
  verify_spki : bytes → bytes → bytes → result bool;
  (** The codecs of [@solana/transactions] and [@solana/transaction-messages] *)
  decode_transaction : bytes → result Transaction.t;
  decode_message : bytes → result DecodedMessage.t;
  encode_message : DecodedMessage.t → bytes;
  encode_transaction : Transaction.t → bytes;
}.

(** ** The transaction reader (sdk/src/transaction-reader.ts) *)
Section Reader.
Context `{H : MerchantHost}.

(** Only the bytes the codec would write again are accepted. *)
Definition decodeSupportedTransaction (wire : bytes) : result DecodedTransaction.t :=
  throw_if! (count wire =? 0) || (4096 <? count wire) with "Transaction exceeds the supported wire size";
  let! transaction := decode_transaction wire in
  let! message := decode_message transaction.(Transaction.messageBytes) in
  throw_if! negb (bool_decide (message.(DecodedMessage.version) = version1)) && (1232 <? count wire)
    with "Legacy/v0 transaction exceeds 1232 bytes";
  throw_if! negb (bool_decide (encode_message message = transaction.(Transaction.messageBytes)))
    with "Noncanonical transaction message bytes";
  throw_if! negb (bool_decide (encode_transaction transaction = wire)) with "Noncanonical transaction wire bytes";
  Ok (DecodedTransaction.mk transaction message).
End Reader.

(** ** Payment headers *)
Section Proof.
Context `{K : PublicKeys, H : MerchantHost, C : Codec, HS : Sha256}.

Definition decodeCanonicalBase58 (text : string) (expectedLength : nat) : checked bytes :=
  fail_if! (size text =? 0) || (128 <? size text) as invalid_proof;
  let? decoded := or_fail invalid_proof (bs58_decode text) in
  fail_if! negb (Nat.eqb (length decoded) expectedLength) as invalid_proof;
  fail_if! negb (bool_decide (bs58_encode decoded = text)) as invalid_proof;
  Done decoded.

Definition canonicalPublicKey (key : string) : checked Address :=
  fail_if! (size key =? 0) || (64 <? size key) as invalid_proof;
  let? k := or_fail invalid_proof (publicKey key) in
  let encoded := toBase58 k in
  fail_if! negb (bool_decide (encoded = key)) as invalid_proof;
  Done encoded.

Definition decodeHeaderDocument (header : string) : checked value :=
  fail_if! (size header =? 0) || (MAX_HEADER_CHARS <? size header) as invalid_proof;
  match JSON_parse header with
  | Some v => Done v
  | None =>
      let decoded := text (utf8_lossy (buffer_base64 header)) in
      fail_if! bool_decide (decoded = "") || (MAX_DECODED_CHARS <? size decoded) as invalid_proof;
      match JSON_parse decoded with Some v => Done v | None => fail invalid_proof end
  end.

Definition parseCustomObject (fields : list (string * value)) : checked CustomReceiptProof.t :=
  fail_if! negb (exactKeys fields ["version"; "scheme"; "network"; "payload"]) as invalid_proof;
  fail_if! negb (strict_eq (field fields "version") (VString CUSTOM_X402_VERSION))
      || negb (strict_eq (field fields "scheme") (VString "exact"))
      || negb (strict_eq (field fields "network") (VString "solana-devnet")) as invalid_proof;
  match plain_object (field fields "payload") with
  | None => fail invalid_proof
  | Some payload =>
      fail_if! negb (exactKeys payload ["signature"; "receiptPDA"]) as invalid_proof;
      match field payload "signature", field payload "receiptPDA" with
      | VString signature, VString receiptPDA =>
          let? _ := decodeCanonicalBase58 signature 64 in
          let? receiptPDA := canonicalPublicKey receiptPDA in
          Done (CustomReceiptProof.mk signature receiptPDA)
      | _, _ => fail invalid_proof
      end
  end.

Definition readV2Requirement (document : list (string * value)) : option (list (string * value)) :=
  match plain_object (field document "accepted") with
  | Some accepted => Some accepted
  | None => match field document "accepts" with VArray (first :: _) => plain_object first | _ => None end
  end.

Definition detectPaymentProtocol (v : value) : checked DetectedPayment :=
  match plain_object v with
  | None => Done Malformed
  | Some fields =>
      let v2 := strict_eq (field fields "x402Version") (VNumber (JInt 2)) in
      let custom := strict_eq (field fields "version") (VString CUSTOM_X402_VERSION) in
      if v2 && custom then Done Malformed
      else if v2 then Done (StandardV2 fields)
      else if custom then
        match parseCustomObject fields with
        | Done proof => Done (Custom proof)
        | Fails (ProofError _) => Done Malformed
        | Fails e => Fails e
        end
      else Done Malformed
  end.

Definition inspectPaymentHeader (header : string) : checked DetectedPayment :=
  let? document := decodeHeaderDocument header in detectPaymentProtocol document.

Definition parseCustomReceiptProof (header : string) : checked CustomReceiptProof.t :=
  let? detected := inspectPaymentHeader header in
  match detected with Custom proof => Done proof | _ => fail invalid_proof end.

(** It never returns: the category it fails with *)
Definition rejectStandardV2 (document : list (string * value)) : ProofErrorCategory :=
  match readV2Requirement document with
  | None => unsupported_protocol
  | Some requirement =>
      let amount := coalesce (field requirement "amount") (field requirement "maxAmountRequired") in
      if match amount with VNumber _ => true | _ => false end then invalid_proof
      else if negb (undefined amount) && negb (canonicalIntegerString amount) then invalid_proof
      else match field requirement "network" with
           | VString network =>
               if negb (bool_decide (network = SOLANA_DEVNET_CAIP2)) && negb (starts_with "solana:" network)
               then invalid_proof else unsupported_protocol
           | _ => unsupported_protocol
           end
  end.

Definition detectAndParsePaymentHeader (header : string) : checked CustomReceiptProof.t :=
  let? detected := inspectPaymentHeader header in
  match detected with
  | StandardV2 document => fail (rejectStandardV2 document)
  | Custom proof => Done proof
  | Malformed => fail invalid_proof
  end.

(** ** The settlement transaction *)

Definition asSlot (v : value) : checked Z :=
  match v with
  | VNumber (JInt z) => fail_if! (z <? 0) || (9007199254740991 <? z) as receipt_mismatch; Done z
  | _ => fail receipt_mismatch
  end.

Definition verifyMessageSignature (address : Address) (message signature : bytes) : bool :=
  if negb (Nat.eqb (length signature) 64) || forallb (λ b, byte_val b =? 0) signature then false
  else
    let verified := let! key := publicKey address in verify_spki (ED25519_SPKI_PREFIX ++ key) message signature in
    match verified with Ok b => b | Throw _ => false end.

Definition compiled_v1 (payload : InstructionHeader.t * InstructionPayload.t) : checked CompiledInstruction.t :=
  let '(header, payload) := payload in
  fail_if! negb (header.(InstructionHeader.numInstructionAccounts)
      =? count payload.(InstructionPayload.instructionAccountIndices)) as receipt_mismatch;
  fail_if! negb (header.(InstructionHeader.numInstructionDataBytes)
      =? count payload.(InstructionPayload.instructionData)) as receipt_mismatch;
  Done (CompiledInstruction.mk header.(InstructionHeader.programAccountIndex)
    payload.(InstructionPayload.instructionAccountIndices) payload.(InstructionPayload.instructionData)).

Fixpoint ctraverse {A B} (f : A → checked B) (l : list A) : checked (list B) :=
  match l with
  | [] => Done []
  | a :: l => let? b := f a in let? bs := ctraverse f l in Done (b :: bs)
  end.

Definition compiledInstructions (message : DecodedMessage.t) : checked (list CompiledInstruction.t) :=
  match message.(DecodedMessage.version) with
  | version1 =>
      match message.(DecodedMessage.instructionHeaders), message.(DecodedMessage.instructionPayloads) with
      | Some headers, Some payloads =>
          fail_if! negb (Nat.eqb (length headers) (length payloads)) as receipt_mismatch;
          fail_if! match message.(DecodedMessage.numInstructions) with
                   | Some n => negb (n =? count headers) | None => false end as receipt_mismatch;
          fail_if! MAX_INSTRUCTIONS <? count headers as receipt_mismatch;
          ctraverse compiled_v1 (zip headers payloads)
      | _, _ => fail receipt_mismatch
      end
  | _ =>
      match message.(DecodedMessage.instructions) with
      | None => fail receipt_mismatch
      | Some instructions =>
          fail_if! MAX_INSTRUCTIONS <? count instructions as receipt_mismatch;
          Done (map (λ i, CompiledInstruction.mk i.(RawInstruction.programAddressIndex)
            (default [] i.(RawInstruction.accountIndices)) (default [] i.(RawInstruction.data))) instructions)
      end
  end.

Definition static_roles (header : Header.t) (staticAccounts : list Address) : checked (list AccountRole.t) :=
  let numSignerAccounts := header.(Header.numSignerAccounts) in
  let writableSigners := numSignerAccounts - header.(Header.numReadonlySignerAccounts) in
  let writableNonSigners := count staticAccounts - numSignerAccounts - header.(Header.numReadonlyNonSignerAccounts) in
  fail_if! (writableSigners <? 1) || (writableNonSigners <? 0) as receipt_mismatch;
  ctraverse (λ '(index, address),
    let? address := canonicalPublicKey address in
    Done (AccountRole.mk address (Z.of_nat index <? numSignerAccounts)
      ((Z.of_nat index <? writableSigners)
       || (numSignerAccounts <=? Z.of_nat index) && (Z.of_nat index <? numSignerAccounts + writableNonSigners))))
    (imap pair staticAccounts).

Definition total_of (f : TableLookup.t → list Z) (lookups : list TableLookup.t) : Z :=
  foldl (λ total lookup, total + count (f lookup)) 0 lookups.

Definition resolveAccounts (message : DecodedMessage.t) (writable readonly : list Address) :
    checked (list AccountRole.t) :=
  let header := message.(DecodedMessage.header) in
  let staticAccounts := message.(DecodedMessage.staticAccounts) in
  fail_if! (count staticAccounts =? 0) || (MAX_ACCOUNT_KEYS <? count staticAccounts) as receipt_mismatch;
  fail_if! (header.(Header.numSignerAccounts) <? 1) || (header.(Header.numReadonlySignerAccounts) <? 0)
      || (header.(Header.numReadonlyNonSignerAccounts) <? 0)
      || (header.(Header.numSignerAccounts) <? header.(Header.numReadonlySignerAccounts))
      || (count staticAccounts <? header.(Header.numSignerAccounts)) as receipt_mismatch;
  let? roles := static_roles header staticAccounts in
  match message.(DecodedMessage.version) with
  | legacy | version1 =>
      fail_if! (0 <? count writable) || (0 <? count readonly) as receipt_mismatch;
      Done roles
  | version0 =>
      let lookups := default [] message.(DecodedMessage.addressTableLookups) in
      fail_if! negb (count writable =? total_of TableLookup.writableIndexes lookups)
          || negb (count readonly =? total_of TableLookup.readonlyIndexes lookups) as receipt_mismatch;
      fail_if! MAX_LOADED_ADDRESSES <? count writable + count readonly as receipt_mismatch;
      let? _ := ctraverse canonicalPublicKey (writable ++ readonly) in
      fail_if! MAX_ACCOUNT_KEYS <? count roles + count writable + count readonly as receipt_mismatch;
      Done (roles ++ map (λ a, AccountRole.mk a false true) writable
                  ++ map (λ a, AccountRole.mk a false false) readonly)
  end.

(** The addresses a version 0 message loaded, from the transaction's metadata *)
Definition address_list : list value → checked (list Address) :=
  ctraverse (λ v, match v with VString s => Done s | _ => fail receipt_mismatch end).

Definition loadedAddressLists (meta : list (string * value)) : checked (list Address * list Address) :=
  let loaded := field meta "loadedAddresses" in
  if undefined loaded then Done ([], [])
  else match plain_object loaded with
  | None => fail receipt_mismatch
  | Some loaded =>
      match coalesce (field loaded "writable") (VArray []), coalesce (field loaded "readonly") (VArray []) with
      | VArray writable, VArray readonly =>
          fail_if! (MAX_LOADED_ADDRESSES <? count writable) || (MAX_LOADED_ADDRESSES <? count readonly)
            as receipt_mismatch;
          let? writable := address_list writable in
          let? readonly := address_list readonly in
          Done (writable, readonly)
      | _, _ => fail receipt_mismatch
      end
  end.

Definition requireAccount (roles : list AccountRole.t) (index : Z) (expected : AccountRole.t) : checked unit :=
  match nth_account roles index with
  | None => fail receipt_mismatch
  | Some actual => fail_if! negb (bool_decide (actual = expected)) as receipt_mismatch; Done tt
  end.

(** The ten accounts of an execute_payment, in order *)
Definition expected_accounts (receipt : PaymentReceipt.t) (expected : SettlementExpectation.t) : list AccountRole.t :=
  [AccountRole.mk expected.(SettlementExpectation.configPda) false false;
   AccountRole.mk expected.(SettlementExpectation.assetPda) false false;
   AccountRole.mk receipt.(PaymentReceipt.mandate) false true;
   AccountRole.mk receipt.(PaymentReceipt.address) false true;
   AccountRole.mk expected.(SettlementExpectation.agent) true true;
   AccountRole.mk expected.(SettlementExpectation.mint) false false;
   AccountRole.mk receipt.(PaymentReceipt.sourceTokenAccount) false true;
   AccountRole.mk expected.(SettlementExpectation.recipient) false true;
   AccountRole.mk expected.(SettlementExpectation.tokenProgram) false false;
   AccountRole.mk SYSTEM_PROGRAM_ID false false].

Definition index_in (roles : list AccountRole.t) (i : Z) : bool := (0 <=? i) && (i <? count roles).

(** The data of the instruction, against the payment *)
Definition check_data (data : bytes) (receipt : PaymentReceipt.t) (expected : SettlementExpectation.t) : checked unit :=
  fail_if! negb (bytesEqual (slice data 8 32) expected.(SettlementExpectation.invoiceHash)) as receipt_mismatch;
  fail_if! negb (bytesEqual (slice data 40 32) expected.(SettlementExpectation.paymentId)) as receipt_mismatch;
  fail_if! negb (bytesEqual (slice data 72 32) expected.(SettlementExpectation.signatureReference)) as receipt_mismatch;
  let amount := le_val (slice data 104 8) in
  fail_if! negb (amount =? expected.(SettlementExpectation.amount)) || negb (amount =? receipt.(PaymentReceipt.amount))
    as receipt_mismatch;
  Done tt.

(** One turn of the loop over the instructions: whether this one settles the receipt *)
Definition check_instruction (roles : list AccountRole.t) (requiredSigners : list Address) (receipt : PaymentReceipt.t)
    (expected : SettlementExpectation.t) (i : CompiledInstruction.t) : checked bool :=
  let data := i.(CompiledInstruction.data) in
  let accounts := i.(CompiledInstruction.accountIndices) in
  match nth_account roles i.(CompiledInstruction.programAddressIndex) with
  | None => fail receipt_mismatch
  | Some program =>
      if negb (bool_decide (program.(AccountRole.address) = expected.(SettlementExpectation.programId))) then Done false
      else if count data <? 8 then Done false
      else if negb (bytesEqual (take 8 data) DISCRIMINATORS.executePayment) then Done false
      else
        fail_if! negb (count data =? EXECUTE_PAYMENT_DATA_LENGTH) as receipt_mismatch;
        fail_if! (count accounts <? 10) || (42 <? count accounts) as receipt_mismatch;
        fail_if! negb (forallb (index_in roles) accounts) as receipt_mismatch;
        let at_receipt := nth_account accounts 3 ≫= nth_account roles in
        if negb (bool_decide (AccountRole.address <$> at_receipt = Some receipt.(PaymentReceipt.address))) then Done false
        else
          let? _ := ctraverse (λ '(i, e), requireAccount roles i e) (zip accounts (expected_accounts receipt expected)) in
          fail_if! negb (bool_decide (expected.(SettlementExpectation.agent) ∈ requiredSigners)) as receipt_mismatch;
          let? _ := check_data data receipt expected in
          Done true
  end.

Fixpoint count_settling (roles : list AccountRole.t) (requiredSigners : list Address) (receipt : PaymentReceipt.t)
    (expected : SettlementExpectation.t) (instructions : list CompiledInstruction.t) (matches : nat) : checked nat :=
  match instructions with
  | [] => Done matches
  | i :: instructions =>
      let? settles := check_instruction roles requiredSigners receipt expected i in
      count_settling roles requiredSigners receipt expected instructions (if settles then S matches else matches)
  end.

(** The signature a signer put under the message *)
Definition signature_of (t : Transaction.t) (signer : Address) : option bytes :=
  match t.(Transaction.signatures) !! signer with Some (Some s) => Some s | _ => None end.

Definition signed_by (t : Transaction.t) (signer : Address) : bool :=
  match signature_of t signer with
  | Some signature => verifyMessageSignature signer t.(Transaction.messageBytes) signature
  | None => false
  end.

Definition read_wire (v : value) : checked DecodedTransaction.t :=
  match v with
  | VArray [VString wire; VString encoding] =>
      fail_if! negb (bool_decide (encoding = "base64")) || (size wire =? 0) || (MAX_BASE64_WIRE_CHARS <? size wire)
        as receipt_mismatch;
      let decodedWire := buffer_base64 wire in
      fail_if! (count decodedWire =? 0) || (MAX_WIRE_BYTES <? count decodedWire) as receipt_mismatch;
      or_fail receipt_mismatch (decodeSupportedTransaction decodedWire)
  | _ => fail receipt_mismatch
  end.

Definition check_signatures (proof : CustomReceiptProof.t) (decoded : DecodedTransaction.t) : checked (list Address) :=
  let message := decoded.(DecodedTransaction.message) in
  let t := decoded.(DecodedTransaction.transaction) in
  let requiredSigners := slice0 message.(DecodedMessage.header).(Header.numSignerAccounts)
    message.(DecodedMessage.staticAccounts) in
  match requiredSigners with
  | [] => fail receipt_mismatch
  | first :: _ =>
      fail_if! negb (forallb (signed_by t) requiredSigners) as receipt_mismatch;
      match signature_of t first with
      | None => fail receipt_mismatch
      | Some firstSignature =>
          let? proofSignature := decodeCanonicalBase58 proof.(CustomReceiptProof.signature) 64 in
          fail_if! negb (bytesEqual proofSignature firstSignature) as invalid_proof;
          Done requiredSigners
      end
  end.

Definition validateSettlementTransaction (wireResult : value) (proof : CustomReceiptProof.t)
    (receipt : PaymentReceipt.t) (expected : SettlementExpectation.t) : checked unit :=
  match plain_object wireResult with
  | None => fail transaction_unavailable
  | Some result =>
      match plain_object (field result "meta") with
      | None => fail receipt_mismatch
      | Some meta =>
          fail_if! negb (strict_eq (field meta "err") VNull) as receipt_mismatch;
          let? slot := asSlot (field result "slot") in
          fail_if! negb (slot =? receipt.(PaymentReceipt.executedAtSlot)) as receipt_mismatch;
          let? decoded := read_wire (field result "transaction") in
          let? requiredSigners := check_signatures proof decoded in
          let? (writable, readonly) := loadedAddressLists meta in
          let? roles := resolveAccounts decoded.(DecodedTransaction.message) writable readonly in
          let? instructions := compiledInstructions decoded.(DecodedTransaction.message) in
          let? matches := count_settling roles requiredSigners receipt expected instructions 0 in
          fail_if! negb (Nat.eqb matches 1) as receipt_mismatch;
          Done tt
      end
  end.

(** ** Verification *)

(** A proof error passes, any other failure is the node's. *)
Definition await {A} (answer : Answer A) : checked A :=
  match answer with
  | Answered a => Done a
  | Rejected (ProofError c) => fail c
  | Rejected (OtherError _) | TimedOut => fail rpc_unavailable
  end.

(** The checks of the receipt against the price *)
Definition check_receipt (config : MerchantConfig.t) (references : X402PaymentReferences.t)
    (receiptAddress : Address) (receipt : PaymentReceipt.t) : checked unit :=
  fail_if! negb (bool_decide (receipt.(PaymentReceipt.status) = confirmed))
      || negb (receipt.(PaymentReceipt.onChainStatus) =? 1) as receipt_mismatch;
  let? derived := lift (deriveReceiptAddress receipt.(PaymentReceipt.mandate) receipt.(PaymentReceipt.invoiceHash)
    config.(MerchantConfig.programId)) in
  fail_if! negb (bool_decide (derived = receiptAddress))
      || negb (bool_decide (receipt.(PaymentReceipt.address) = receiptAddress)) as receipt_mismatch;
  fail_if! negb (bool_decide (bytesToHex receipt.(PaymentReceipt.invoiceHash)
    = references.(X402PaymentReferences.invoiceHash))) as receipt_mismatch;
  fail_if! negb (bool_decide (bytesToHex receipt.(PaymentReceipt.paymentId)
    = references.(X402PaymentReferences.paymentId))) as receipt_mismatch;
  fail_if! negb (bool_decide (bytesToHex receipt.(PaymentReceipt.signatureReference)
    = references.(X402PaymentReferences.signatureReference))) as receipt_mismatch;
  fail_if! negb (bool_decide (receipt.(PaymentReceipt.mint) = config.(MerchantConfig.mint))) as receipt_mismatch;
  fail_if! negb (bool_decide (receipt.(PaymentReceipt.recipient) = config.(MerchantConfig.recipient)))
      || negb (bool_decide (receipt.(PaymentReceipt.recipientTokenAccount) = config.(MerchantConfig.recipient)))
    as receipt_mismatch;
  let? amount := lift (string_bigint config.(MerchantConfig.amount)) in
  fail_if! negb (receipt.(PaymentReceipt.amount) =? amount) as receipt_mismatch;
  fail_if! negb (bool_decide (receipt.(PaymentReceipt.agent) = config.(MerchantConfig.allowedAgent)))
    as receipt_mismatch;
  Done tt.

Definition or_default (s fallback : string) : string := if bool_decide (s = "") then fallback else s.

Definition settlement_expectation (config : MerchantConfig.t) (references : X402PaymentReferences.t) :
    result SettlementExpectation.t :=
  let! amount := string_bigint config.(MerchantConfig.amount) in
  let! configPda := deriveConfigAddress config.(MerchantConfig.programId) in
  let! assetPda := deriveAssetAddress config.(MerchantConfig.mint) config.(MerchantConfig.programId) in
  let! invoiceHash := hexToBytes references.(X402PaymentReferences.invoiceHash) "invoiceHash" in
  let! paymentId := hexToBytes references.(X402PaymentReferences.paymentId) "paymentId" in
  let! signatureReference := hexToBytes references.(X402PaymentReferences.signatureReference) "signatureReference" in
  Ok (SettlementExpectation.mk (or_default config.(MerchantConfig.programId) DEFAULT_PROGRAM_ID)
    config.(MerchantConfig.mint) config.(MerchantConfig.recipient) amount config.(MerchantConfig.allowedAgent)
    (match config.(MerchantConfig.tokenProgram) with
     | token_2022 => TOKEN_2022_PROGRAM_ID | spl_token => SPL_TOKEN_PROGRAM_ID end)
    configPda assetPda invoiceHash paymentId signatureReference).

Definition verifyMerchantProof (config : MerchantConfig.t) (references : X402PaymentReferences.t)
    (proof : CustomReceiptProof.t) (deps : MerchantVerificationDependencies.t) : checked VerifiedMerchantPayment.t :=
  let receiptAddress := proof.(CustomReceiptProof.receiptPDA) in
  let signature := proof.(CustomReceiptProof.signature) in
  let? found := await (deps.(MerchantVerificationDependencies.getFinalizedReceipt) receiptAddress) in
  match found with
  | None => fail receipt_not_found
  | Some receipt =>
      let? _ := check_receipt config references receiptAddress receipt in
      let? wire := await (deps.(MerchantVerificationDependencies.getFinalizedTransaction) signature) in
      fail_if! nullish wire as transaction_unavailable;
      let? expected := lift (settlement_expectation config references) in
      let? _ := validateSettlementTransaction wire proof receipt expected in
      Done (VerifiedMerchantPayment.mk receipt signature config.(MerchantConfig.resource))
  end.

(** ** Reading the transaction from a node *)

(** What a call of [getTransaction] gives: nothing, or a response, with its body as
    parsed within its size limit *)
Inductive RpcReply : Type := NoReply | Reply (ok : bool) (body : option value).

Definition read_transaction (reply : RpcReply) : checked value :=
  match reply with
  | NoReply => fail rpc_unavailable
  | Reply ok body =>
      fail_if! negb ok as rpc_unavailable;
      match body ≫= plain_object with
      | None => fail rpc_unavailable
      | Some envelope =>
          fail_if! negb (undefined (field envelope "error")) as rpc_unavailable;
          fail_if! negb (bool_decide ("result" ∈ envelope.*1)) || strict_eq (field envelope "result") VNull
            as transaction_unavailable;
          Done (field envelope "result")
      end
  end.

Definition getFinalizedTransaction (ask : string → RpcReply) (signature : string) : Answer value :=
  match read_transaction (ask signature) with Done v => Answered v | Fails e => Rejected e end.

(** ** The price and its references *)

Definition program_name (p : TokenProgram) : string :=
  match p with spl_token => "spl-token" | token_2022 => "token-2022" end.

(** [s && s.length > 0]: a text that is given *)
Definition given_text (s : option string) : option string :=
  match s with Some s => if bool_decide (s = "") then None else Some s | None => None end.

Definition nonce_seed (input : X402ExactPayment.t) : value :=
  VObject (defined_fields [("network", VString "solana-devnet"); ("scheme", VString "exact");
    ("mint", VString input.(X402ExactPayment.mint)); ("recipient", VString input.(X402ExactPayment.recipient));
    ("amount", VString input.(X402ExactPayment.amount)); ("resource", VString input.(X402ExactPayment.resource));
    ("expiresAtSlot", optional_value input.(X402ExactPayment.expiresAtSlot))]).

Definition text_hash (s : string) : string := sha256Hex (text_encode s).

Definition payment_nonce (input : X402ExactPayment.t) : string :=
  match given_text (trim <$> input.(X402ExactPayment.nonce)) with
  | Some nonce => nonce
  | None => text (take 32 (chars (text_hash ("nonce:" +:+ JSON_stringify (nonce_seed input)))))
  end.

Definition canonical_payment (input : X402ExactPayment.t) : value :=
  VObject ([("network", VString "solana-devnet"); ("scheme", VString "exact");
    ("asset", VString input.(X402ExactPayment.mint)); ("payTo", VString input.(X402ExactPayment.recipient));
    ("amount", VString input.(X402ExactPayment.amount)); ("resource", VString input.(X402ExactPayment.resource));
    ("nonce", VString (payment_nonce input));
    ("tokenProgram", VString (program_name input.(X402ExactPayment.tokenProgram)))]
    ++ Signed.present "expiresAtSlot" (given_text input.(X402ExactPayment.expiresAtSlot))).

Definition deriveX402PaymentReferences (input : X402ExactPayment.t) : X402PaymentReferences.t :=
  let invoiceHash := text_hash (JSON_stringify (canonical_payment input)) in
  X402PaymentReferences.mk (payment_nonce input) invoiceHash (text_hash ("payment:" +:+ invoiceHash))
    (text_hash ("x402:" +:+ invoiceHash)).

(** The references of the configured price (bootstrap.ts) *)
Definition merchant_references (config : MerchantConfig.t) : X402PaymentReferences.t :=
  deriveX402PaymentReferences (X402ExactPayment.mk config.(MerchantConfig.mint) config.(MerchantConfig.recipient)
    config.(MerchantConfig.amount) config.(MerchantConfig.resource) config.(MerchantConfig.tokenProgram)
    (given_text config.(MerchantConfig.nonce)) None).

(** ** The paid resource ([GET /data] of demo-merchant/src/app.ts) *)

Inductive DataReply : Type :=
| Challenge
| Paid (payment : VerifiedMerchantPayment.t)
| Refused (body : ProofErrorBody.t).

Definition payment_headers (headers : DataHeaders.t) : list string :=
  omap given_text [headers.(DataHeaders.payment_signature); headers.(DataHeaders.x_payment);
    headers.(DataHeaders.payment_required)].

(** [paymentHeaders.find(...)]: the first that is standard v2; a header that cannot be read throws *)
Fixpoint find_standard (headers : list string) : checked (option string) :=
  match headers with
  | [] => Done None
  | h :: headers =>
      let? detected := inspectPaymentHeader h in
      match detected with StandardV2 _ => Done (Some h) | _ => find_standard headers end
  end.

Definition verify_headers (config : MerchantConfig.t) (references : X402PaymentReferences.t)
    (deps : MerchantVerificationDependencies.t) (headers : DataHeaders.t) : checked VerifiedMerchantPayment.t :=
  let present := payment_headers headers in
  let? standard := find_standard present in
  let? _ := match standard with
            | Some h => let? _ := detectAndParsePaymentHeader h in Done tt
            | None => Done tt
            end in
  let proofHeader := match headers.(DataHeaders.x_payment) with
                     | Some h => h | None => default "" (head present) end in
  let? proof := detectAndParsePaymentHeader proofHeader in
  verifyMerchantProof config references proof deps.

Definition get_data (config : MerchantConfig.t) (references : X402PaymentReferences.t)
    (deps : MerchantVerificationDependencies.t) (headers : DataHeaders.t) : DataReply :=
  match payment_headers headers with
  | [] => Challenge
  | _ =>
      match verify_headers config references deps headers with
      | Done payment => Paid payment
      | Fails e => Refused (publicProofErrorBody e)
      end
  end.
End Proof.
