(* ===== verification/MerchantProofProps.v ===== *)
(** * What the merchant accepts as payment

    A proof it accepts names a settled receipt for exactly its price, and a
    finalized transaction whose signers signed it and which contains exactly one
    instruction of the program that settles that receipt; the instruction the SDK
    builds is such an instruction. *)
From Stdlib Require Import ZArith Lia Strings.Byte Strings.Ascii.
From stdpp Require Import base numbers sets strings list fin_maps gmap.
From S2P Require Import Prelude Bytes PublicKey Types Encoding Pda Program Accounts Payment CardConstants Decimal Utf8 CardCommitment Values SupportParse Signed ReceiptReader ReceiptReaderProps MerchantProof.

(** ** The checked monad *)

Lemma cbind_done {A B} (c : checked A) (k : A → checked B) b :
  cbind c k = Done b ↔ ∃ a, c = Done a ∧ k a = Done b.
Proof. destruct c; simpl; naive_solver. Qed.

Lemma fail_if_done {A} (b : bool) c (k : checked A) a :
  (if b then fail c else k) = Done a ↔ b = false ∧ k = Done a.
Proof. destruct b; simpl; [|naive_solver]. split; [done|by intros [? _]]. Qed.

Lemma lift_done {A} (r : result A) a : lift r = Done a ↔ r = Ok a.
Proof. destruct r; simpl; naive_solver. Qed.

Lemma or_fail_done {A} c (r : result A) a : or_fail c r = Done a ↔ r = Ok a.
Proof. destruct r; simpl; naive_solver. Qed.

Lemma done_inj {A} (a b : A) : Done a = Done b ↔ a = b.
Proof. naive_solver. Qed.

Lemma ctraverse_done {A B} (f : A → checked B) l bs :
  ctraverse f l = Done bs ↔ Forall2 (λ a b, f a = Done b) l bs.
Proof.
  revert bs. induction l as [|a l IH]; intros bs; cbn [ctraverse].
  - rewrite done_inj. split; [intros <-; constructor|by inversion 1].
  - rewrite cbind_done. setoid_rewrite cbind_done. setoid_rewrite IH. setoid_rewrite done_inj. split.
    + intros (b & Hb & bs' & Hbs & <-). by constructor.
    + inversion_clear 1 as [|? b ? bs' Hb Hbs]. eauto.
Qed.

Lemma foldl_lor_zero l : ∀ acc, 0 <= acc → Forall (λ z, 0 <= z) l →
  foldl Z.lor acc l = 0 ↔ acc = 0 ∧ Forall (λ z, z = 0) l.
Proof.
  induction l as [|z l IH]; intros acc Ha Hl; cbn [foldl].
  - split; [intros ->; split; [done|constructor]|tauto].
  - apply Forall_cons in Hl as [Hz Hl]. rewrite IH, Forall_cons by (try done; by apply Z.lor_nonneg).
    rewrite Z.lor_eq_0_iff. tauto.
Qed.

Lemma bytesEqual_iff a b : bytesEqual a b = true ↔ a = b.
Proof.
  unfold bytesEqual. rewrite andb_true_iff, Nat.eqb_eq, Z.eqb_eq, foldl_lor_zero; [|done|].
  - split; [|intros ->; split; [done|split; [done|]]].
    + intros (Hl & _ & H). revert b Hl H. induction a as [|x a IH]; intros [|y b] Hl H; try done.
      cbn [zip_with] in H. apply Forall_cons in H as [Hx H]. apply Z.lxor_eq in Hx.
      assert (x = y) as -> by (rewrite <- (byte_of_val x), Hx; apply byte_of_val).
      f_equal. apply IH; [by injection Hl|done].
    + apply Forall_forall. intros z Hz. apply list_elem_of_lookup in Hz as [i Hz].
      apply lookup_zip_with_Some in Hz as (x & y & -> & Hx & Hy). rewrite Hx in Hy. injection Hy as <-.
      apply Z.lxor_nilpotent.
  - apply Forall_forall. intros z Hz. apply list_elem_of_lookup in Hz as [i Hz].
    apply lookup_zip_with_Some in Hz as (x & y & -> & _ & _). apply Z.lxor_nonneg.
    pose proof (byte_val_range x). pose proof (byte_val_range y). lia.
Qed.

Lemma negb_eqb_false a b : negb (a =? b) = false ↔ a = b.
Proof. rewrite negb_false_iff. apply Z.eqb_eq. Qed.

Lemma negb_decide_false (P : Prop) `{Decision P} : negb (bool_decide P) = false ↔ P.
Proof. rewrite negb_false_iff. apply bool_decide_eq_true. Qed.

Lemma negb_bytes_false a b : negb (bytesEqual a b) = false ↔ a = b.
Proof. rewrite negb_false_iff. apply bytesEqual_iff. Qed.

(** Turn a successful check into the facts it checked. *)
Ltac checks :=
  repeat first [rewrite fail_if_done | rewrite negb_decide_false | rewrite negb_eqb_false | rewrite negb_bytes_false
    | rewrite orb_false_iff | rewrite Z.ltb_ge | rewrite lift_done | rewrite or_fail_done].

Ltac checks_in H :=
  repeat first [rewrite fail_if_done in H | rewrite negb_decide_false in H | rewrite negb_eqb_false in H
    | rewrite negb_bytes_false in H | rewrite orb_false_iff in H | rewrite Z.ltb_ge in H | rewrite lift_done in H
    | rewrite or_fail_done in H].

Section Acceptance.
Context `{K : PublicKeys, KS : !PublicKeysSpec K, H : MerchantHost, C : Codec, HS : Sha256}.

(** ** The instruction *)

(** An outer instruction that pays the receipt: the program, its ten accounts in
    order, the agent among the signers, and the parameters the program reads *)
Record settles (roles : list AccountRole.t) (signers : list Address) (receipt : PaymentReceipt.t)
    (expected : SettlementExpectation.t) (i : CompiledInstruction.t) : Prop := {
  st_program : AccountRole.address <$> nth_account roles i.(CompiledInstruction.programAddressIndex)
    = Some expected.(SettlementExpectation.programId);
  st_length : count i.(CompiledInstruction.data) = EXECUTE_PAYMENT_DATA_LENGTH;
  st_accounts : 10 <= count i.(CompiledInstruction.accountIndices) <= 42;
  st_indices : Forall (λ a, is_Some (nth_account roles a)) i.(CompiledInstruction.accountIndices);
  st_roles : Forall2 (λ a e, nth_account roles a = Some e)
    (take 10 i.(CompiledInstruction.accountIndices)) (expected_accounts receipt expected);
  st_agent : expected.(SettlementExpectation.agent) ∈ signers;
  st_params : execute_payment_params i.(CompiledInstruction.data) =
    Some (PaymentParams.mk expected.(SettlementExpectation.invoiceHash) expected.(SettlementExpectation.paymentId)
      expected.(SettlementExpectation.signatureReference) expected.(SettlementExpectation.amount));
  st_amount : expected.(SettlementExpectation.amount) = receipt.(PaymentReceipt.amount);
}.

Lemma index_in_iff roles i : index_in roles i = true ↔ is_Some (nth_account roles i).
Proof.
  unfold index_in, nth_account, count. rewrite andb_true_iff, Z.leb_le, Z.ltb_lt.
  destruct (i <? 0) eqn:E; bool_reflect.
  - split; [lia|by intros [? ?]].
  - rewrite lookup_lt_is_Some. lia.
Qed.

Lemma requireAccount_done roles i e u : requireAccount roles i e = Done u ↔ nth_account roles i = Some e.
Proof.
  unfold requireAccount. destruct (nth_account roles i) as [a|]; [|done]. checks. destruct u.
  split; [by intros [-> _]|by intros [= ->]].
Qed.

Lemma check_data_done d receipt expected u :
  check_data d receipt expected = Done u ↔
    slice d 8 32 = expected.(SettlementExpectation.invoiceHash) ∧
    slice d 40 32 = expected.(SettlementExpectation.paymentId) ∧
    slice d 72 32 = expected.(SettlementExpectation.signatureReference) ∧
    le_val (slice d 104 8) = expected.(SettlementExpectation.amount) ∧
    le_val (slice d 104 8) = receipt.(PaymentReceipt.amount).
Proof. unfold check_data. cbv zeta. checks. destruct u. tauto. Qed.

Lemma required_accounts roles k : ∀ l, (length k <= length l)%nat →
  (∃ us, ctraverse (λ '(i, e), requireAccount roles i e) (zip l k) = Done us) ↔
  Forall2 (λ a e, nth_account roles a = Some e) (take (length k) l) k.
Proof.
  induction k as [|e k IH]; intros l Hl.
  - split; [constructor|]. intros _. destruct l; by eexists.
  - destruct l as [|a l]; [cbn in Hl; lia|]. cbn [length] in Hl. cbn [zip_with ctraverse take length].
    rewrite Forall2_cons, <- IH by lia. split.
    + intros (us & Hus). apply cbind_done in Hus as (u & Hu & (us' & Hus & _)%cbind_done).
      apply requireAccount_done in Hu. eauto.
    + intros (Ha & us & Hus). exists (tt :: us). apply cbind_done. exists tt. split; [by apply requireAccount_done|].
      apply cbind_done. eauto.
Qed.

Lemma execute_params_iff d h p r a :
  count d = EXECUTE_PAYMENT_DATA_LENGTH →
  take 8 d = DISCRIMINATORS.executePayment ∧ slice d 8 32 = h ∧ slice d 40 32 = p ∧ slice d 72 32 = r ∧
    le_val (slice d 104 8) = a ↔
  execute_payment_params d = Some (PaymentParams.mk h p r a).
Proof.
  intros Hl. unfold count, EXECUTE_PAYMENT_DATA_LENGTH in Hl. unfold execute_payment_params.
  rewrite (proj2 (Nat.leb_le 112 (length d))) by lia. rewrite andb_true_r.
  case_bool_decide as E; [|split; [tauto|done]].
  split; [by intros (_ & -> & -> & -> & ->)|]. by intros [= -> -> -> ->].
Qed.

Lemma check_instruction_iff roles signers receipt expected i :
  check_instruction roles signers receipt expected i = Done true ↔ settles roles signers receipt expected i.
Proof.
  unfold check_instruction. destruct i as [prog accounts d].
  cbn [CompiledInstruction.programAddressIndex CompiledInstruction.accountIndices CompiledInstruction.data].
  split.
  - destruct (nth_account roles prog) as [program|] eqn:Ep; [|done].
    destruct (negb _) eqn:E1; [done|]. apply negb_decide_false in E1.
    destruct (count d <? 8); [done|].
    destruct (negb (bytesEqual _ DISCRIMINATORS.executePayment)) eqn:E2; [done|]. apply negb_bytes_false in E2.
    intros Hc. checks_in Hc. destruct Hc as (Hd & (Hlo & Hhi) & Hin & Hc). apply negb_false_iff in Hin.
    cbv zeta in Hc. destruct (negb _) eqn:E3 in Hc; [done|]. apply negb_decide_false in E3.
    apply cbind_done in Hc as (us & Hus & Hc). checks_in Hc. destruct Hc as (Hag & Hc).
    apply cbind_done in Hc as (u & Hu & _). apply check_data_done in Hu as (H1 & H2 & H3 & H4 & H5).
    constructor; cbn [CompiledInstruction.programAddressIndex CompiledInstruction.accountIndices CompiledInstruction.data];
      try done.
    + rewrite Ep. cbn. by rewrite E1.
    + apply Forall_forall. intros a Ha. apply index_in_iff. rewrite forallb_forall in Hin. by apply Hin, list_elem_of_In.
    + apply (required_accounts roles (expected_accounts receipt expected)); [|by exists us].
      unfold count in Hlo. cbn. lia.
    + by apply execute_params_iff.
    + congruence.
  - intros [Hp Hl Ha Hi Hr Hg Hx Hm].
    cbn [CompiledInstruction.programAddressIndex CompiledInstruction.accountIndices CompiledInstruction.data] in *.
    destruct (nth_account roles prog) as [program|]; [|done]. injection Hp as Hp.
    apply execute_params_iff in Hx as (H1 & H2 & H3 & H4 & H5); [|done].
    rewrite bool_decide_true by done. cbn [negb].
    rewrite (proj2 (Z.ltb_ge (count d) 8)) by (unfold EXECUTE_PAYMENT_DATA_LENGTH in Hl; lia).
    rewrite (proj2 (bytesEqual_iff _ _)) by done. cbn [negb].
    checks. split; [done|]. split; [lia|].
    assert (forallb (index_in roles) accounts = true) as ->.
    { apply forallb_forall. intros a Hin. apply index_in_iff. rewrite Forall_forall in Hi.
      by apply Hi, list_elem_of_In. }
    split; [done|]. cbv zeta.
    assert (exists us, ctraverse (λ '(i, e), requireAccount roles i e) (zip accounts (expected_accounts receipt expected))
      = Done us) as [us Hus].
    { apply required_accounts; [unfold count in Ha; cbn; lia|exact Hr]. }
    assert (nth_account accounts 3 ≫= nth_account roles = Some (AccountRole.mk receipt.(PaymentReceipt.address) false true))
      as E3.
    { destruct (Forall2_lookup_r _ _ _ 3 _ Hr eq_refl) as (a & Ea & Hx). rewrite lookup_take_lt in Ea by lia.
      change (nth_account accounts 3) with (accounts !! 3%nat). rewrite Ea. exact Hx. }
    rewrite E3. cbn [fmap option_fmap option_map AccountRole.address]. rewrite bool_decide_true by done. cbn [negb].
    rewrite Hus. cbn [cbind]. checks. split; [done|].
    rewrite (proj2 (check_data_done d receipt expected tt)); [done|]. split_and!; try done. congruence.
Qed.

(** ** The loop *)

Lemma count_settling_split roles signers receipt expected ixs : ∀ m n,
  count_settling roles signers receipt expected ixs m = Done n →
  ∃ bs, Forall2 (λ i b, check_instruction roles signers receipt expected i = Done b) ixs bs ∧
    n = (m + length (filter (λ b : bool, b = true) bs))%nat.
Proof.
  induction ixs as [|i ixs IH]; intros m n; cbn [count_settling].
  - rewrite done_inj. intros <-. exists []. split; [constructor|cbn; lia].
  - rewrite cbind_done. intros (b & Hb & Hn). apply IH in Hn as (bs & Hbs & ->). exists (b :: bs).
    split; [by constructor|]. destruct b; [rewrite filter_cons_True by done|rewrite filter_cons_False by done]; cbn; lia.
Qed.

Lemma one_true (bs : list bool) :
  length (filter (λ b : bool, b = true) bs) = 1%nat →
  ∃ l k, bs = l ++ true :: k ∧ Forall (λ b, b = false) (l ++ k).
Proof.
  induction bs as [|b bs IH]; [done|]. destruct b.
  - rewrite filter_cons_True by done. intros [= E]. exists [], bs. split; [done|]. cbn.
    apply Forall_forall. intros b Hb. destruct b; [|done].
    assert (true ∈ filter (λ b : bool, b = true) bs) as Hin by (by apply list_elem_of_filter).
    apply nil_length_inv in E. rewrite E in Hin. by apply not_elem_of_nil in Hin.
  - rewrite filter_cons_False by done. intros E. destruct (IH E) as (l & k & -> & Hf).
    exists (false :: l), k. split; [done|]. by constructor.
Qed.

Lemma settles_once roles signers receipt expected ixs :
  count_settling roles signers receipt expected ixs 0 = Done 1%nat →
  ∃ before i after, ixs = before ++ i :: after ∧ settles roles signers receipt expected i ∧
    Forall (λ j, ¬ settles roles signers receipt expected j) (before ++ after).
Proof.
  intros Hc. apply count_settling_split in Hc as (bs & Hbs & Hn).
  destruct (one_true bs) as (l & k & -> & Hf); [lia|].
  apply Forall2_app_inv_r in Hbs as (before & rest & Hl & Hr & ->).
  apply Forall2_cons_inv_r in Hr as (i & after & Hi & Hk & ->).
  exists before, i, after. split; [done|]. split; [by apply check_instruction_iff|].
  apply Forall_app in Hf as [Fl Fk]. apply Forall_app.
  assert (∀ xs bs, Forall2 (λ i b, check_instruction roles signers receipt expected i = Done b) xs bs →
    Forall (λ b, b = false) bs → Forall (λ j, ¬ settles roles signers receipt expected j) xs) as Hno.
  { induction 1 as [|j b xs bs' Hj _ IH]; intros Hall; [constructor|].
    apply Forall_cons in Hall as [-> Hall]. constructor; [|by apply IH].
    rewrite <- check_instruction_iff, Hj. done. }
  eauto.
Qed.

(** ** Signatures *)

(** The signer's key verifies its signature over the message. *)
Definition signature_verifies (t : Transaction.t) (signer : Address) : Prop :=
  ∃ key signature, publicKey signer = Ok key ∧ t.(Transaction.signatures) !! signer = Some (Some signature) ∧
    length signature = 64%nat ∧ verify_spki (ED25519_SPKI_PREFIX ++ key) t.(Transaction.messageBytes) signature = Ok true.

Lemma signed_by_verifies t signer : signed_by t signer = true → signature_verifies t signer.
Proof.
  unfold signed_by, signature_of, verifyMessageSignature. destruct (_ !! signer) as [[s|]|] eqn:Es; try done.
  destruct (negb (Nat.eqb (length s) 64) || _) eqn:E; [done|]. apply orb_false_iff in E as [E _].
  apply negb_false_iff, Nat.eqb_eq in E.
  destruct (publicKey signer) as [key|] eqn:Ek; cbn [bind]; [|done].
  destruct (verify_spki _ _ s) as [[]|] eqn:Ev; [|done..]. intros _. by exists key, s.
Qed.

Lemma canonical_base58 t n d : decodeCanonicalBase58 t n = Done d → bs58_encode d = t ∧ length d = n.
Proof.
  unfold decodeCanonicalBase58. intros E. checks_in E. destruct E as [_ E]. apply cbind_done in E as (b & _ & E).
  checks_in E. destruct E as (El & Eb & E). apply done_inj in E as <-. apply negb_false_iff, Nat.eqb_eq in El. done.
Qed.

Lemma check_signatures_done proof decoded signers :
  check_signatures proof decoded = Done signers →
  let t := decoded.(DecodedTransaction.transaction) in
  let message := decoded.(DecodedTransaction.message) in
  signers = slice0 message.(DecodedMessage.header).(Header.numSignerAccounts) message.(DecodedMessage.staticAccounts) ∧
  Forall (signature_verifies t) signers ∧
  ∃ first signature, head signers = Some first ∧ t.(Transaction.signatures) !! first = Some (Some signature) ∧
    bs58_encode signature = proof.(CustomReceiptProof.signature).
Proof.
  intros E t message. unfold check_signatures in E. fold message t in E.
  destruct (slice0 _ _) as [|first rest] eqn:Es; [done|]. checks_in E. destruct E as [Ef E]. apply negb_false_iff in Ef.
  destruct (signature_of t first) as [s|] eqn:Eo; [|done]. apply cbind_done in E as (d & Ed & E).
  checks_in E. destruct E as [Eb E]. apply done_inj in E as <-. subst d. apply canonical_base58 in Ed as [Ed _].
  split; [done|]. split.
  - apply Forall_forall. intros a Ha. apply signed_by_verifies. rewrite forallb_forall in Ef. by apply Ef, list_elem_of_In.
  - exists first, s. split; [done|]. split; [|done]. unfold signature_of in Eo. destruct (_ !! first) as [[]|]; by simplify_eq.
Qed.

(** ** The receipt and the transaction *)

Record price_paid (config : MerchantConfig.t) (references : X402PaymentReferences.t) (addr : Address)
    (r : PaymentReceipt.t) : Prop := {
  pp_settled : r.(PaymentReceipt.status) = confirmed ∧ r.(PaymentReceipt.onChainStatus) = 1;
  pp_address : r.(PaymentReceipt.address) = addr;
  pp_derived : deriveReceiptAddress r.(PaymentReceipt.mandate) r.(PaymentReceipt.invoiceHash)
    config.(MerchantConfig.programId) = Ok addr;
  pp_invoice : bytesToHex r.(PaymentReceipt.invoiceHash) = references.(X402PaymentReferences.invoiceHash);
  pp_payment : bytesToHex r.(PaymentReceipt.paymentId) = references.(X402PaymentReferences.paymentId);
  pp_reference : bytesToHex r.(PaymentReceipt.signatureReference) = references.(X402PaymentReferences.signatureReference);
  pp_mint : r.(PaymentReceipt.mint) = config.(MerchantConfig.mint);
  pp_recipient : r.(PaymentReceipt.recipient) = config.(MerchantConfig.recipient) ∧
    r.(PaymentReceipt.recipientTokenAccount) = config.(MerchantConfig.recipient);
  pp_amount : string_bigint config.(MerchantConfig.amount) = Ok r.(PaymentReceipt.amount);
  pp_agent : r.(PaymentReceipt.agent) = config.(MerchantConfig.allowedAgent);
}.

Lemma check_receipt_iff config references addr r u :
  check_receipt config references addr r = Done u ↔ price_paid config references addr r.
Proof.
  unfold check_receipt. destruct u. checks. setoid_rewrite cbind_done. checks. split.
  - intros (Hs & derived & Hd & Hc). checks_in Hd. checks_in Hc. destruct Hc as ([-> Ha] & H1 & H2 & H3 & Hm & Hr & Hc).
    apply cbind_done in Hc as (amount & Hb & Hc). checks_in Hb. checks_in Hc. destruct Hc as (<- & Hg & _).
    by constructor.
  - intros []. split; [done|]. exists addr. checks. split; [done|]. checks. split; [done|]. split; [done|]. split; [done|].
    split; [done|]. split; [done|]. split; [done|]. apply cbind_done. eexists. checks. split; [done|].
    split; [done|]. done.
Qed.

(** What a settlement transaction shows: no error, at the receipt's slot, signed
    by all its signers, the first of them with the signature of the proof, and one
    instruction that settles the receipt. *)
Record settlement (wire : value) (proof : CustomReceiptProof.t) (r : PaymentReceipt.t)
    (expected : SettlementExpectation.t) (result meta : list (string * value)) (w : string)
    (decoded : DecodedTransaction.t) (signers : list Address) (roles : list AccountRole.t)
    (instructions : list CompiledInstruction.t) : Prop := {
  sm_result : wire = VObject result ∧ field result "meta" = VObject meta;
  sm_err : field meta "err" = VNull;
  sm_slot : field result "slot" = VNumber (JInt r.(PaymentReceipt.executedAtSlot));
  sm_wire : field result "transaction" = VArray [VString w; VString "base64"];
  sm_decoded : decodeSupportedTransaction (buffer_base64 w) = Ok decoded;
  sm_signers : signers = slice0 decoded.(DecodedTransaction.message).(DecodedMessage.header).(Header.numSignerAccounts)
    decoded.(DecodedTransaction.message).(DecodedMessage.staticAccounts);
  sm_signed : Forall (signature_verifies decoded.(DecodedTransaction.transaction)) signers;
  sm_first : ∃ first signature, head signers = Some first ∧
    decoded.(DecodedTransaction.transaction).(Transaction.signatures) !! first = Some (Some signature) ∧
    bs58_encode signature = proof.(CustomReceiptProof.signature);
  sm_roles : ∃ writable readonly, loadedAddressLists meta = Done (writable, readonly) ∧
    resolveAccounts decoded.(DecodedTransaction.message) writable readonly = Done roles;
  sm_instructions : compiledInstructions decoded.(DecodedTransaction.message) = Done instructions;
  sm_once : ∃ before i after, instructions = before ++ i :: after ∧ settles roles signers r expected i ∧
    Forall (λ j, ¬ settles roles signers r expected j) (before ++ after);
}.

Lemma asSlot_done v z : asSlot v = Done z → v = VNumber (JInt z).
Proof. destruct v as [| | |[]| | | |]; try done. cbn. intros E. checks_in E. destruct E as [_ E]. by apply done_inj in E as ->. Qed.

Lemma read_wire_done v decoded :
  read_wire v = Done decoded →
  ∃ w, v = VArray [VString w; VString "base64"] ∧ decodeSupportedTransaction (buffer_base64 w) = Ok decoded.
Proof.
  unfold read_wire. destruct v as [| | | | | |[|[| | | | |w| |] [|[| | | | |e| |] [|]]]|]; try done.
  intros E. checks_in E. destruct E as (((-> & _) & _) & _ & E). eauto.
Qed.

Lemma settlement_done wire proof r expected u :
  validateSettlementTransaction wire proof r expected = Done u →
  ∃ result meta w decoded signers roles instructions,
    settlement wire proof r expected result meta w decoded signers roles instructions.
Proof.
  unfold validateSettlementTransaction. intros E.
  destruct (plain_object wire) as [result|] eqn:Er; [|done]. apply plain_object_ok in Er.
  destruct (plain_object (field result "meta")) as [meta|] eqn:Em; [|done]. apply plain_object_ok in Em.
  checks_in E. destruct E as [Ee E]. apply negb_false_iff in Ee.
  assert (field meta "err" = VNull) as Hn by (destruct (field meta "err") as [| | |[]| | | |]; done).
  apply cbind_done in E as (slot & Es & E). apply asSlot_done in Es. checks_in E. destruct E as [-> E].
  apply cbind_done in E as (decoded & Ed & E). apply read_wire_done in Ed as (w & Ew & Ed).
  apply cbind_done in E as (signers & Eg & E). apply check_signatures_done in Eg as (Hg & Hf & Hh).
  apply cbind_done in E as ((writable & readonly) & El & E). apply cbind_done in E as (roles & Ero & E).
  apply cbind_done in E as (instructions & Ei & E). apply cbind_done in E as (n & En & E).
  checks_in E. destruct E as [E1 _]. apply negb_false_iff, Nat.eqb_eq in E1. subst n.
  apply settles_once in En. exists result, meta, w, decoded, signers, roles, instructions.
  constructor; eauto.
Qed.

Lemma await_done {A} (answer : Answer A) a : await answer = Done a ↔ answer = Answered a.
Proof. destruct answer as [|[]|]; cbn; naive_solver. Qed.

(** C9: The merchant accepts a proof only if, at finalized commitment, the receipt
    at the proof's address is settled, stands at the address derived from its own
    mandate and invoice hash, and pays exactly the merchant's price (hashes, mint,
    recipient, amount, agent); and the transaction of the proof's signature did not
    fail, executed at the receipt's slot, carries a valid signature of every signer
    it requires, the first being the proof's own, and contains exactly one
    instruction of the program that settles this receipt, with the agent among the
    signers and the parameters the program itself reads from its data. *)
Theorem merchant_accepts (config : MerchantConfig.t) (references : X402PaymentReferences.t)
    (proof : CustomReceiptProof.t) (deps : MerchantVerificationDependencies.t) (v : VerifiedMerchantPayment.t) :
  verifyMerchantProof config references proof deps = Done v →
  ∃ r wire expected result meta w decoded signers roles instructions,
    deps.(MerchantVerificationDependencies.getFinalizedReceipt) proof.(CustomReceiptProof.receiptPDA) = Answered (Some r) ∧
    deps.(MerchantVerificationDependencies.getFinalizedTransaction) proof.(CustomReceiptProof.signature) = Answered wire ∧
    v = VerifiedMerchantPayment.mk r proof.(CustomReceiptProof.signature) config.(MerchantConfig.resource) ∧
    price_paid config references proof.(CustomReceiptProof.receiptPDA) r ∧
    settlement_expectation config references = Ok expected ∧
    settlement wire proof r expected result meta w decoded signers roles instructions.
Proof.
  unfold verifyMerchantProof. intros E. apply cbind_done in E as (found & Ef & E). apply await_done in Ef.
  destruct found as [r|]; [|done].
  apply cbind_done in E as (u & Er & E). apply check_receipt_iff in Er.
  apply cbind_done in E as (wire & Ew & E). apply await_done in Ew. checks_in E. destruct E as [_ E].
  apply cbind_done in E as (expected & Ex & E). apply lift_done in Ex.
  apply cbind_done in E as (u' & Es & E). apply done_inj in E as <-.
  apply settlement_done in Es as (result & meta & w & decoded & signers & roles & instructions & Hs).
  by exists r, wire, expected, result, meta, w, decoded, signers, roles, instructions.
Qed.

(** ** The SDK's instruction *)

(** An instruction as compiled into a message with these account roles *)
Record compiled_from (roles : list AccountRole.t) (ix : ChainPayInstruction.t) (i : CompiledInstruction.t) : Prop := {
  cf_program : AccountRole.address <$> nth_account roles i.(CompiledInstruction.programAddressIndex)
    = Some ix.(ChainPayInstruction.programId);
  cf_accounts : Forall2 (λ a k, nth_account roles a =
      Some (AccountRole.mk k.(AccountMeta.address) k.(AccountMeta.isSigner) k.(AccountMeta.isWritable)))
    i.(CompiledInstruction.accountIndices) ix.(ChainPayInstruction.keys);
  cf_data : i.(CompiledInstruction.data) = ix.(ChainPayInstruction.data);
}.

(** The receipt and the expectation are those of the request. *)
Record expects (request : PaymentRequest.t) (agent : Address) (mandate : Mandate.t) (programId : Address)
    (r : PaymentReceipt.t) (expected : SettlementExpectation.t) : Prop := {
  ex_program : expected.(SettlementExpectation.programId) = programId;
  ex_mint : expected.(SettlementExpectation.mint) = request.(PaymentRequest.mint);
  ex_recipient : expected.(SettlementExpectation.recipient) = request.(PaymentRequest.recipient);
  ex_amount : expected.(SettlementExpectation.amount) = request.(PaymentRequest.amount);
  ex_agent : expected.(SettlementExpectation.agent) = agent;
  ex_token : ∃ tp, request.(PaymentRequest.tokenProgram) = Some tp ∧
    expected.(SettlementExpectation.tokenProgram) = tokenProgramAddress tp;
  ex_config : deriveConfigAddress programId = Ok expected.(SettlementExpectation.configPda);
  ex_asset : deriveAssetAddress mandate.(Mandate.allowedMint) programId = Ok expected.(SettlementExpectation.assetPda);
  ex_hashes : params_of request = PaymentParams.mk expected.(SettlementExpectation.invoiceHash)
    expected.(SettlementExpectation.paymentId) expected.(SettlementExpectation.signatureReference)
    expected.(SettlementExpectation.amount);
  ex_mandate : r.(PaymentReceipt.mandate) = mandate.(Mandate.address);
  ex_source : r.(PaymentReceipt.sourceTokenAccount) = mandate.(Mandate.sourceTokenAccount);
  ex_receipt : deriveReceiptAddress mandate.(Mandate.address) request.(PaymentRequest.invoiceHash) programId
    = Ok r.(PaymentReceipt.address);
  ex_paid : r.(PaymentReceipt.amount) = request.(PaymentRequest.amount);
}.

Lemma sdk_instruction_settles request agent mandate programId ix roles signers r expected i :
  buildExecutePaymentInstruction request agent mandate programId = Ok ix → compiled_from roles ix i →
  expects request agent mandate programId r expected → agent ∈ signers → settles roles signers r expected i.
Proof.
  intros Hb [Hp Ha Hd] [] Hg.
  apply buildExecutePaymentInstruction_ok in Hb as (config & asset & receipt & tp & Hc & Has & Hr & Ht & _ & Hx & Hl & Hpid & Hk).
  destruct ex_token0 as (tp' & Htp & Hte).
  assert (tp' = tp) as -> by (destruct Ht as [Ht|[Ht _]]; congruence).
  rewrite Hk in Ha. pose proof (Forall2_length _ _ _ Ha) as Hn. cbn [length] in Hn.
  constructor.
  - by rewrite Hp, Hpid, ex_program0.
  - unfold count, EXECUTE_PAYMENT_DATA_LENGTH. by rewrite Hd, Hl.
  - unfold count. rewrite Hn. lia.
  - apply Forall_forall. intros a Hin. apply list_elem_of_lookup in Hin as [n Hin].
    destruct (Forall2_lookup_l _ _ _ _ _ Ha Hin) as (k & _ & ->). by eexists.
  - rewrite take_ge by (rewrite Hn; lia). unfold expected_accounts.
    assert (expected.(SettlementExpectation.configPda) = config) as -> by congruence.
    assert (expected.(SettlementExpectation.assetPda) = asset) as -> by congruence.
    assert (r.(PaymentReceipt.address) = receipt) as -> by congruence.
    rewrite ex_mandate0, ex_source0, ex_mint0, ex_recipient0, ex_agent0, Hte.
    revert Ha. generalize (CompiledInstruction.accountIndices i). intros accounts Ha.
    repeat (apply Forall2_cons_inv_r in Ha as (? & ? & ? & Ha & ->); constructor; [assumption|]).
    by apply Forall2_nil_inv_r in Ha as ->.
  - by rewrite ex_agent0.
  - by rewrite Hd, Hx, ex_hashes0.
  - congruence.
Qed.

(** ** A payment made with the SDK *)

(** What a node says of the addresses a transaction loaded: nothing, or two lists of
    addresses, which are empty for a message without lookup tables *)
Definition says_loaded (meta : list (string * value)) (writable readonly : list Address) : Prop :=
  field meta "loadedAddresses" = VUndefined ∧ writable = [] ∧ readonly = [] ∨
  ∃ loaded, field meta "loadedAddresses" = VObject loaded ∧
    field loaded "writable" = VArray (map VString writable) ∧ field loaded "readonly" = VArray (map VString readonly).

(** The text of a public key *)
Definition key_text_of (a : Address) : Prop := 0 < size a <= 64 ∧ valid_address a.

(** A message whose header fits its accounts, and whose lookup tables loaded these addresses *)
Record accounts_fit (m : DecodedMessage.t) (writable readonly : list Address) : Prop := {
  af_readonly : 0 <= m.(DecodedMessage.header).(Header.numReadonlySignerAccounts)
    < m.(DecodedMessage.header).(Header.numSignerAccounts);
  af_rest : 0 <= m.(DecodedMessage.header).(Header.numReadonlyNonSignerAccounts)
    <= count m.(DecodedMessage.staticAccounts) - m.(DecodedMessage.header).(Header.numSignerAccounts);
  af_size : count m.(DecodedMessage.staticAccounts) + count writable + count readonly <= MAX_ACCOUNT_KEYS;
  af_loaded : match m.(DecodedMessage.version) with
    | version0 =>
        count writable = total_of TableLookup.writableIndexes (default [] m.(DecodedMessage.addressTableLookups)) ∧
        count readonly = total_of TableLookup.readonlyIndexes (default [] m.(DecodedMessage.addressTableLookups))
    | _ => writable = [] ∧ readonly = []
    end;
  af_keys : Forall key_text_of (m.(DecodedMessage.staticAccounts) ++ writable ++ readonly);
}.

(** The accounts of a message in order: signers first, each group writable before
    read-only, then the loaded ones *)
Definition account_roles (m : DecodedMessage.t) (writable readonly : list Address) : list AccountRole.t :=
  let signers := m.(DecodedMessage.header).(Header.numSignerAccounts) in
  let read := m.(DecodedMessage.header).(Header.numReadonlySignerAccounts) in
  let rest := m.(DecodedMessage.header).(Header.numReadonlyNonSignerAccounts) in
  let all := count m.(DecodedMessage.staticAccounts) in
  imap (λ i a, AccountRole.mk a (Z.of_nat i <? signers)
    (if Z.of_nat i <? signers then Z.of_nat i <? signers - read else Z.of_nat i <? all - rest))
    m.(DecodedMessage.staticAccounts)
  ++ map (λ a, AccountRole.mk a false true) writable ++ map (λ a, AccountRole.mk a false false) readonly.

Lemma canonical_key a : key_text_of a → canonicalPublicKey a = Done a.
Proof.
  intros [Hs Hv]. unfold canonicalPublicKey.
  rewrite (proj2 (Z.eqb_neq _ _)), (proj2 (Z.ltb_ge _ _)) by lia. cbn [orb].
  destruct Hv as (k & Hk%publicKey_new). rewrite Hk. cbn [or_fail cbind]. apply publicKey_ok in Hk as [_ ->].
  by rewrite bool_decide_true.
Qed.

Lemma ctraverse_map {A B} (f : A → checked B) (g : A → B) l :
  Forall (λ a, f a = Done (g a)) l → ctraverse f l = Done (map g l).
Proof. induction 1 as [|a l Ha _ IH]; [done|]. cbn [ctraverse map]. by rewrite Ha, IH. Qed.

Lemma says_loaded_lists meta writable readonly :
  says_loaded meta writable readonly → count writable <= MAX_LOADED_ADDRESSES → count readonly <= MAX_LOADED_ADDRESSES →
  loadedAddressLists meta = Done (writable, readonly).
Proof.
  unfold loadedAddressLists. intros [(-> & -> & ->)|(loaded & -> & Hw & Hr)] Lw Lr; [done|].
  cbn [undefined plain_object]. rewrite Hw, Hr. cbn [coalesce nullish]. unfold count in *. rewrite !length_map.
  rewrite !(proj2 (Z.ltb_ge _ _)) by done. cbn [orb]. unfold address_list.
  rewrite !(ctraverse_map _ (λ v, match v with VString s => s | _ => "" end)) by by apply Forall_map, Forall_true.
  cbn [cbind]. by rewrite !map_map, !map_id.
Qed.

Lemma static_roles_fit m writable readonly :
  accounts_fit m writable readonly →
  static_roles m.(DecodedMessage.header) m.(DecodedMessage.staticAccounts) = Done (account_roles m [] []).
Proof.
  intros []. unfold static_roles. rewrite (proj2 (Z.ltb_ge _ 1)), (proj2 (Z.ltb_ge _ 0)) by lia. cbn [orb].
  unfold account_roles. cbn [map]. rewrite !app_nil_r.
  set (signers := Header.numSignerAccounts _) in *. set (all := count _) in *.
  rewrite (ctraverse_map _ (λ '(i, a), AccountRole.mk a (Z.of_nat i <? signers)
    (if Z.of_nat i <? signers then Z.of_nat i <? signers - m.(DecodedMessage.header).(Header.numReadonlySignerAccounts)
     else Z.of_nat i <? all - m.(DecodedMessage.header).(Header.numReadonlyNonSignerAccounts)))).
  - f_equal. generalize m.(DecodedMessage.staticAccounts) as l. intros l. apply list_eq. intros i.
    rewrite list_lookup_fmap, !list_lookup_imap. by destruct (l !! i).
  - apply Forall_lookup. intros i [j a] Hi. rewrite list_lookup_imap in Hi.
    destruct (m.(DecodedMessage.staticAccounts) !! i) as [b|] eqn:Ea; [|done]. injection Hi as <- <-.
    rewrite canonical_key by by (apply Forall_app in af_keys0 as [Hk _]; eapply Forall_lookup_1).
    cbn [cbind]. f_equal. f_equal.
    destruct (Z.ltb_spec (Z.of_nat i) signers); destruct (Z.ltb_spec (Z.of_nat i) (signers - m.(DecodedMessage.header).(Header.numReadonlySignerAccounts)));
      rewrite ?(proj2 (Z.leb_le _ _)), ?(proj2 (Z.leb_gt _ _)) by lia; cbn [orb andb]; try done; try lia.
Qed.

Lemma resolve_fit m writable readonly :
  accounts_fit m writable readonly → resolveAccounts m writable readonly = Done (account_roles m writable readonly).
Proof.
  intros Hfit. pose proof (static_roles_fit _ _ _ Hfit) as Hst. destruct Hfit. unfold resolveAccounts.
  assert (0 <= count writable ∧ 0 <= count readonly) as [Hw Hr] by (unfold count; lia).
  unfold MAX_ACCOUNT_KEYS in *. rewrite (proj2 (Z.eqb_neq _ 0)), !(proj2 (Z.ltb_ge _ _)) by lia. cbn [orb].
  rewrite Hst. cbn [cbind].
  destruct (DecodedMessage.version m); [destruct af_loaded0 as [-> ->]; done|destruct af_loaded0 as [E1 E2]|destruct af_loaded0 as [-> ->]; done].
  rewrite <- E1, <- E2, !Z.eqb_refl. cbn [negb orb]. unfold MAX_LOADED_ADDRESSES.
  assert (count (account_roles m [] []) = count m.(DecodedMessage.staticAccounts)) as E
    by (unfold count, account_roles; cbn [map]; by rewrite !app_nil_r, length_imap).
  assert (0 <= count m.(DecodedMessage.staticAccounts)) by (unfold count; lia).
  rewrite (proj2 (Z.ltb_ge _ _)), E, (ctraverse_map _ id) by (lia || (apply Forall_app in af_keys0 as [_ Hk];
    eapply Forall_impl; [exact Hk|exact canonical_key])).
  cbn [cbind]. rewrite (proj2 (Z.ltb_ge _ _)) by lia. unfold account_roles. cbn [map]. by rewrite !app_nil_r.
Qed.

(** What the node answers about a transaction that carries the instruction, next to
    others that do not call the program: finalized at [slot] without error, with the
    addresses it loaded if any, paid for and signed by the agent. *)
Record carries (ix : ChainPayInstruction.t) (agent : Address) (slot : Z) (signature : string)
    (result meta : list (string * value)) (w : string) (decoded : DecodedTransaction.t) (rest : list Address)
    (s : bytes) (roles : list AccountRole.t) (before after : list CompiledInstruction.t)
    (i : CompiledInstruction.t) : Prop := {
  ca_meta : field result "meta" = VObject meta;
  ca_err : field meta "err" = VNull;
  ca_slot : field result "slot" = VNumber (JInt slot) ∧ 0 <= slot <= 9007199254740991;
  ca_wire : field result "transaction" = VArray [VString w; VString "base64"];
  ca_text : 0 < size w <= MAX_BASE64_WIRE_CHARS;
  ca_bytes : 0 < count (buffer_base64 w) <= MAX_WIRE_BYTES;
  ca_decoded : decodeSupportedTransaction (buffer_base64 w) = Ok decoded;
  ca_signers : slice0 decoded.(DecodedTransaction.message).(DecodedMessage.header).(Header.numSignerAccounts)
    decoded.(DecodedTransaction.message).(DecodedMessage.staticAccounts) = agent :: rest;
  ca_signed : forallb (signed_by decoded.(DecodedTransaction.transaction)) (agent :: rest) = true;
  ca_first : decoded.(DecodedTransaction.transaction).(Transaction.signatures) !! agent = Some (Some s);
  ca_proof : bs58_decode signature = Ok s ∧ bs58_encode s = signature;
  ca_size : length s = 64%nat ∧ 0 < size signature <= 128;
  ca_roles : ∃ writable readonly, says_loaded meta writable readonly ∧
    accounts_fit decoded.(DecodedTransaction.message) writable readonly ∧
    roles = account_roles decoded.(DecodedTransaction.message) writable readonly;
  ca_instructions : compiledInstructions decoded.(DecodedTransaction.message) = Done (before ++ i :: after);
  ca_compiled : compiled_from roles ix i;
  ca_others : Forall (λ j, ∃ role, nth_account roles j.(CompiledInstruction.programAddressIndex) = Some role ∧
    role.(AccountRole.address) ≠ ix.(ChainPayInstruction.programId)) (before ++ after);
}.

Lemma count_settling_app roles signers r expected xs ys m n k :
  count_settling roles signers r expected xs m = Done n → count_settling roles signers r expected ys n = Done k →
  count_settling roles signers r expected (xs ++ ys) m = Done k.
Proof.
  revert m. induction xs as [|x xs IH]; intros m; cbn [app count_settling]; [by intros [= ->]|].
  rewrite cbind_done. intros (b & Hb & Hx) Hy. rewrite cbind_done. eauto.
Qed.

Lemma count_others roles signers r expected xs n :
  Forall (λ j, ∃ role, nth_account roles j.(CompiledInstruction.programAddressIndex) = Some role ∧
    role.(AccountRole.address) ≠ expected.(SettlementExpectation.programId)) xs →
  count_settling roles signers r expected xs n = Done n.
Proof.
  induction 1 as [|j xs (role & Hr & Hne) _ IH]; [done|]. cbn [count_settling]. unfold check_instruction.
  rewrite Hr, bool_decide_false by done. cbn [negb cbind]. done.
Qed.

Lemma carries_validates ix agent slot signature result meta w decoded rest s roles before after i pda r expected :
  carries ix agent slot signature result meta w decoded rest s roles before after i →
  r.(PaymentReceipt.executedAtSlot) = slot →
  expected.(SettlementExpectation.programId) = ix.(ChainPayInstruction.programId) →
  settles roles (agent :: rest) r expected i →
  validateSettlementTransaction (VObject result) (CustomReceiptProof.mk signature pda) r expected = Done tt.
Proof.
  intros [] Hslot Hpid Hs. unfold validateSettlementTransaction. cbn [plain_object]. rewrite ca_meta0. cbn [plain_object].
  rewrite ca_err0. cbn [strict_eq negb]. destruct ca_slot0 as [Hsl Hr]. rewrite Hsl. cbn [asSlot].
  rewrite (proj2 (orb_false_iff _ _)) by (split; apply Z.ltb_ge; lia). cbn [cbind].
  rewrite Hslot, Z.eqb_refl. cbn [negb]. rewrite ca_wire0. unfold read_wire.
  rewrite bool_decide_true, (proj2 (Z.eqb_neq (size w) 0)), (proj2 (Z.ltb_ge _ (size w))) by (done || lia). cbn [negb orb].
  rewrite (proj2 (Z.eqb_neq (count (buffer_base64 w)) 0)), (proj2 (Z.ltb_ge _ (count (buffer_base64 w)))) by lia.
  cbn [orb]. rewrite ca_decoded0. cbn [or_fail cbind]. unfold check_signatures. rewrite ca_signers0, ca_signed0. cbn [negb].
  unfold signature_of. rewrite ca_first0. unfold decodeCanonicalBase58. cbn [CustomReceiptProof.signature].
  destruct ca_proof0 as [Hd He], ca_size0 as [Hl Hz].
  rewrite (proj2 (Z.eqb_neq (size signature) 0)), (proj2 (Z.ltb_ge _ (size signature))) by lia. cbn [orb].
  rewrite Hd. cbn [or_fail cbind]. rewrite (proj2 (Nat.eqb_eq _ _)) by done. cbn [negb].
  rewrite bool_decide_true by done. cbn [negb cbind]. rewrite (proj2 (bytesEqual_iff s s)) by done. cbn [negb cbind].
  destruct ca_roles0 as (writable & readonly & Hloaded & Hfit & ->). pose proof (af_size _ _ _ Hfit) as Hkeys.
  unfold MAX_ACCOUNT_KEYS, count in Hkeys.
  rewrite (says_loaded_lists _ _ _ Hloaded) by (unfold count, MAX_LOADED_ADDRESSES; lia). cbn [cbind].
  rewrite (resolve_fit _ _ _ Hfit). cbn [cbind].
  rewrite ca_instructions0. cbn [cbind].
  rewrite <- Hpid in ca_others0. apply Forall_app in ca_others0 as [Hb Ha].
  rewrite (count_settling_app _ _ _ _ before (i :: after) 0 0 1); [done|by apply count_others|].
  cbn [count_settling]. rewrite (proj2 (check_instruction_iff _ _ _ _ _)) by done. cbn [cbind]. by apply count_others.
Qed.

(** The request is the merchant's price. *)
Record priced (config : MerchantConfig.t) (references : X402PaymentReferences.t) (request : PaymentRequest.t)
    (agent programId : Address) : Prop := {
  pr_mint : config.(MerchantConfig.mint) = request.(PaymentRequest.mint);
  pr_recipient : config.(MerchantConfig.recipient) = request.(PaymentRequest.recipient);
  pr_amount : string_bigint config.(MerchantConfig.amount) = Ok request.(PaymentRequest.amount);
  pr_agent : config.(MerchantConfig.allowedAgent) = agent;
  pr_program : config.(MerchantConfig.programId) = programId ∧ programId ≠ "";
  pr_token : request.(PaymentRequest.tokenProgram) = Some config.(MerchantConfig.tokenProgram);
  pr_invoice : references.(X402PaymentReferences.invoiceHash) = bytesToHex request.(PaymentRequest.invoiceHash);
  pr_payment : references.(X402PaymentReferences.paymentId) = bytesToHex request.(PaymentRequest.paymentId);
  pr_reference : references.(X402PaymentReferences.signatureReference)
    = bytesToHex request.(PaymentRequest.signatureReference);
}.

Lemma hexToBytes_hex bs name : length bs = 32%nat → hexToBytes (bytesToHex bs) name = Ok bs.
Proof.
  intros L. unfold hexToBytes. pose proof (CardPda.bytesToHex_plain bs) as Hp.
  pose proof (CardPda.bytesToHex_chars bs) as Hl. rewrite L in Hl.
  assert (match chars (bytesToHex bs) with "0"%char :: "x"%char :: rest => rest | cs => cs end = chars (bytesToHex bs)) as ->.
  { destruct (chars (bytesToHex bs)) as [|c0 [|c1 rest]]; [done|by destruct c0 as [[] [] [] [] [] [] [] []]|].
    apply Forall_cons in Hp as [_ Hp]. apply Forall_cons in Hp as [(_ & _ & _ & Hx) _].
    repeat case_match; done. }
  rewrite Hl. rewrite (map_ext_in CardPda.lower (λ c, c)), map_id, text_chars.
  - rewrite hex_pairs_bytesToHex, bool_decide_true by done. done.
  - intros c Hc. rewrite Forall_forall in Hp. apply list_elem_of_In, Hp in Hc as [? _]. done.
Qed.

Lemma expectation_ok config references request agent programId configPda assetPda :
  priced config references request agent programId →
  length request.(PaymentRequest.invoiceHash) = 32%nat → length request.(PaymentRequest.paymentId) = 32%nat →
  length request.(PaymentRequest.signatureReference) = 32%nat →
  deriveConfigAddress programId = Ok configPda → deriveAssetAddress request.(PaymentRequest.mint) programId = Ok assetPda →
  settlement_expectation config references = Ok (SettlementExpectation.mk programId request.(PaymentRequest.mint)
    request.(PaymentRequest.recipient) request.(PaymentRequest.amount) agent
    (tokenProgramAddress config.(MerchantConfig.tokenProgram)) configPda assetPda
    request.(PaymentRequest.invoiceHash) request.(PaymentRequest.paymentId) request.(PaymentRequest.signatureReference)).
Proof.
  intros [] H1 H2 H3 Hc Ha. unfold settlement_expectation. destruct pr_program0 as [Hp Hne].
  rewrite pr_amount0, Hp, pr_mint0, Hc, Ha, pr_invoice0, pr_payment0, pr_reference0. cbn [bind].
  rewrite !hexToBytes_hex by done. cbn [bind]. rewrite pr_recipient0, pr_agent0. unfold or_default.
  rewrite bool_decide_false by done. done.
Qed.

(** C8: A payment of the merchant's price that is built with the SDK and executed by
    the program is accepted: the merchant that is answered with the receipt the
    program wrote and with a finalized transaction carrying the built instruction
    (among others that do not call the program), signed by its signers and paid
    for by the agent, verifies the proof and serves the resource.  The transaction
    may be of any version the decoder reads and load addresses from lookup tables,
    and the answer may leave the loaded addresses out or give them, as empty lists
    too. *)
Theorem sdk_payment_accepted (mk : bytes) (acc : ExecutePayment.t) (slot : Z) (p : PaymentParams.t) (st st' : Chain.t)
    (pid a : bytes) (now : option Z) (tp : option TokenProgram) (sig : option string) (config : MerchantConfig.t)
    (references : X402PaymentReferences.t) (request : PaymentRequest.t) (ix : ChainPayInstruction.t)
    (signature : string) (deps : MerchantVerificationDependencies.t) r result meta w decoded rest s roles before after i :
  execute_payment mk acc slot p st = POk st' →
  st'.(Chain.receipts) !! p.(PaymentParams.invoice_hash) = Some r →
  deriveReceiptAddress (toBase58 mk) p.(PaymentParams.invoice_hash) (toBase58 pid) = Ok (toBase58 a) →
  params_of request = p →
  request.(PaymentRequest.mint) = toBase58 st.(Chain.mandate).(PaymentMandate.allowed_mint) →
  request.(PaymentRequest.recipient) = toBase58 acc.(ExecutePayment.recipient_key) →
  buildExecutePaymentInstruction request (toBase58 acc.(ExecutePayment.agent))
    (mandate_view (toBase58 mk) now tp st.(Chain.mandate)) (toBase58 pid) = Ok ix →
  priced config references request (toBase58 acc.(ExecutePayment.agent)) (toBase58 pid) →
  deps.(MerchantVerificationDependencies.getFinalizedReceipt) (toBase58 a)
    = Answered (Some (receipt_view (toBase58 a) sig (snapshot_view r) r)) →
  deps.(MerchantVerificationDependencies.getFinalizedTransaction) signature = Answered (VObject result) →
  carries ix (toBase58 acc.(ExecutePayment.agent)) slot signature result meta w decoded rest s roles before after i →
  verifyMerchantProof config references (CustomReceiptProof.mk signature (toBase58 a)) deps
    = Done (VerifiedMerchantPayment.mk (receipt_view (toBase58 a) sig (snapshot_view r) r) signature
        config.(MerchantConfig.resource)).
Proof.
  intros Hx Hr Ha <- Hmint Hrec Hb Hpr Hd1 Hd2 Hca.
  apply execute_payment_iff in Hx as (_ & _ & ->). cbn [settle Chain.receipts] in Hr.
  rewrite lookup_insert_eq in Hr. injection Hr as <-.
  set (r := receipt_view _ _ _ _) in *.
  pose proof Hb as Hb'. apply buildExecutePaymentInstruction_ok in Hb'
    as (configPda & assetPda & receipt & tp' & Hc & Has & Hrc & _ & _ & Hxp & Hl & Hix & _).
  change (Mandate.allowedMint _) with (toBase58 st.(Chain.mandate).(PaymentMandate.allowed_mint)) in Has.
  rewrite <- Hmint in Has.
  assert (length request.(PaymentRequest.invoiceHash) = 32%nat ∧ length request.(PaymentRequest.paymentId) = 32%nat ∧
    length request.(PaymentRequest.signatureReference) = 32%nat) as (L1 & L2 & L3).
  { apply execute_params_iff in Hxp as (_ & E1 & E2 & E3 & _); [|unfold count; by rewrite Hl].
    cbn in E1, E2, E3. rewrite <- E1, <- E2, <- E3, !slice_length by lia. done. }
  pose proof (expectation_ok _ _ _ _ _ _ _ Hpr L1 L2 L3 Hc Has) as Hex.
  unfold verifyMerchantProof. cbn [CustomReceiptProof.receiptPDA CustomReceiptProof.signature].
  rewrite Hd1. cbn [await cbind].
  assert (price_paid config references (toBase58 a) r) as Hpaid.
  { destruct Hpr. constructor; try done; cbn; try congruence.
    - destruct pr_program0 as [-> _]. done.
    - split; congruence. }
  rewrite (proj2 (check_receipt_iff _ _ _ _ tt) Hpaid). cbn [cbind]. rewrite Hd2. cbn [await cbind nullish].
  rewrite Hex. cbn [lift cbind].
  erewrite carries_validates; [done|exact Hca|done|by rewrite Hix|].
  eapply sdk_instruction_settles; [exact Hb|by destruct Hca| |by left].
  destruct Hpr. constructor; try done; [by eexists|by rewrite Hmint in Has].
Qed.

(** ** The endpoint *)

(** The resource is served only for a payment header: one that is present, is
    not a standard v2 document, and whose receipt proof verifies; and without any
    payment header the answer is the challenge. *)
Theorem data_served_for_proof (config : MerchantConfig.t) (references : X402PaymentReferences.t)
    (deps : MerchantVerificationDependencies.t) (headers : DataHeaders.t) :
  (∀ v, get_data config references deps headers = Paid v →
    ∃ header proof, header ∈ payment_headers headers ∧ inspectPaymentHeader header = Done (Custom proof) ∧
      verifyMerchantProof config references proof deps = Done v) ∧
  (get_data config references deps headers = Challenge ↔ payment_headers headers = []).
Proof.
  unfold get_data. split.
  - intros v. destruct (payment_headers headers) as [|h hs] eqn:Eh; [done|].
    destruct (verify_headers config references deps headers) as [v'|e] eqn:Ev; [|done]. intros [= ->].
    unfold verify_headers in Ev. rewrite Eh in Ev. apply cbind_done in Ev as (std & _ & Ev).
    apply cbind_done in Ev as (u & _ & Ev). apply cbind_done in Ev as (proof & Ep & Ev).
    unfold detectAndParsePaymentHeader in Ep. apply cbind_done in Ep as (detected & Ed & Ep).
    destruct detected as [proof'| |]; try done. apply done_inj in Ep as ->. eexists _, proof. split; [|by split].
    destruct headers as [ps [x|] pr]; cbn [DataHeaders.x_payment] in *.
    + assert (x ≠ "") as Hx.
      { intros ->. unfold inspectPaymentHeader, decodeHeaderDocument in Ed. done. }
      rewrite <- Eh. unfold payment_headers. cbn [omap list_omap DataHeaders.x_payment DataHeaders.payment_signature DataHeaders.payment_required].
      assert (given_text (Some x) = Some x) as -> by (cbn; by rewrite bool_decide_false).
      destruct (given_text ps); repeat first [by left | right].
    + by left.
  - destruct (payment_headers headers); [done|]. by destruct (verify_headers _ _ _ _).
Qed.

(** ** Failures of the node *)

(** A check that fails asks for no retry. *)
Definition final {A} (c : checked A) : Prop := ∀ k, c = Fails (ProofError k) → httpStatus k = 402.

Lemma final_done {A} (a : A) : final (Done a).
Proof. done. Qed.
Lemma final_fail {A} k : httpStatus k = 402 → final (A := A) (fail k).
Proof. by intros ? ? [= <-]. Qed.
Lemma final_bind {A B} (c : checked A) (k : A → checked B) : final c → (∀ a, final (k a)) → final (cbind c k).
Proof. intros Hc Hk. destruct c as [a|e]; [apply Hk|]. cbn. intros k' [= ->]. by apply Hc. Qed.
Lemma final_if {A} (b : bool) (c d : checked A) : final c → final d → final (if b then c else d).
Proof. by destruct b. Qed.
Lemma final_lift {A} (r : result A) : final (lift r).
Proof. by destruct r. Qed.
Lemma final_or_fail {A} k (r : result A) : httpStatus k = 402 → final (or_fail k r).
Proof. intros ?. destruct r; [done|by apply final_fail]. Qed.
Lemma final_ctraverse {A B} (f : A → checked B) l : (∀ a, final (f a)) → final (ctraverse f l).
Proof. intros Hf. induction l as [|a l IH]; [done|]. apply final_bind; [done|]. intros b. by apply final_bind. Qed.

Create HintDb final.
#[local] Hint Resolve final_done final_lift : final.
#[local] Hint Extern 1 (final (fail _)) => apply final_fail; reflexivity : final.
#[local] Hint Extern 1 (final (or_fail _ _)) => apply final_or_fail; reflexivity : final.
#[local] Hint Extern 2 (final (if _ then _ else _)) => apply final_if : final.
#[local] Hint Extern 2 (final (cbind _ _)) => apply final_bind; [|intros] : final.
#[local] Hint Extern 2 (final (ctraverse _ _)) => apply final_ctraverse; intros : final.
#[local] Hint Extern 3 (final (match ?x with _ => _ end)) => destruct x : final.

Ltac finals := eauto 40 with final.

Lemma final_base58 t n : final (decodeCanonicalBase58 t n).
Proof. unfold decodeCanonicalBase58. finals. Qed.
Lemma final_key k : final (canonicalPublicKey k).
Proof. unfold canonicalPublicKey. cbv zeta. finals. Qed.
#[local] Hint Resolve final_base58 final_key : final.

Lemma final_header h : final (decodeHeaderDocument h).
Proof. unfold decodeHeaderDocument. cbv zeta. finals. Qed.
Lemma final_custom fields : final (parseCustomObject fields).
Proof. unfold parseCustomObject. finals. Qed.
Lemma final_detect v : final (detectPaymentProtocol v).
Proof.
  unfold detectPaymentProtocol. destruct (plain_object v) as [fields|]; [|finals]. cbv zeta.
  repeat apply final_if; try apply final_done. destruct (parseCustomObject fields) as [proof|[k|m]]; done.
Qed.
#[local] Hint Resolve final_header final_custom final_detect : final.

Lemma final_reject document : httpStatus (rejectStandardV2 document) = 402.
Proof. unfold rejectStandardV2. repeat case_match; done. Qed.

Lemma final_parse h : final (detectAndParsePaymentHeader h).
Proof.
  unfold detectAndParsePaymentHeader, inspectPaymentHeader. apply final_bind; [finals|].
  intros [| |]; [finals| |finals]. apply final_fail, final_reject.
Qed.

Lemma final_find hs : final (find_standard hs).
Proof. unfold inspectPaymentHeader. induction hs as [|h hs IH]; cbn [find_standard]; [finals|]. unfold inspectPaymentHeader. finals. Qed.

Lemma final_receipt config references addr r : final (check_receipt config references addr r).
Proof. unfold check_receipt. finals. Qed.
#[local] Hint Resolve final_parse final_find final_receipt : final.

Lemma final_roles message writable readonly : final (resolveAccounts message writable readonly).
Proof. unfold resolveAccounts, static_roles. cbv zeta. finals. Qed.
Lemma final_instructions message : final (compiledInstructions message).
Proof. unfold compiledInstructions, compiled_v1. finals. Qed.
Lemma final_loaded meta : final (loadedAddressLists meta).
Proof. unfold loadedAddressLists, address_list. cbv zeta. finals. Qed.
Lemma final_signatures proof decoded : final (check_signatures proof decoded).
Proof. unfold check_signatures. cbv zeta. finals. Qed.
Lemma final_wire v : final (read_wire v).
Proof. unfold read_wire. cbv zeta. finals. Qed.
Lemma final_check roles signers r expected i : final (check_instruction roles signers r expected i).
Proof. unfold check_instruction, check_data, requireAccount. cbv zeta. finals. Qed.
#[local] Hint Resolve final_roles final_instructions final_loaded final_signatures final_wire final_check : final.
Lemma final_count roles signers r expected is_ n : final (count_settling roles signers r expected is_ n).
Proof. revert n. induction is_ as [|i is_ IH]; intros n; cbn [count_settling]; finals. Qed.
#[local] Hint Resolve final_count : final.

Lemma final_settlement result proof r expected : final (validateSettlementTransaction (VObject result) proof r expected).
Proof. unfold validateSettlementTransaction, asSlot. cbn [plain_object]. finals. Qed.

(** The merchant asks a payer to retry (503) only when the node did not answer
    one of its two reads, or answered the second without a transaction: a proof
    that any check of the receipt, of the transaction or of the header refuses is
    refused for good (402). *)
Theorem retry_only_when_unanswered (config : MerchantConfig.t) (references : X402PaymentReferences.t)
    (deps : MerchantVerificationDependencies.t) (headers : DataHeaders.t) (body : ProofErrorBody.t) :
  get_data config references deps headers = Refused body → body.(ProofErrorBody.status) ≠ 402 →
  body.(ProofErrorBody.status) = 503 ∧
  ∃ proof, verifyMerchantProof config references proof deps
      = Fails (ProofError body.(ProofErrorBody.code)) ∧
    ((∀ r, deps.(MerchantVerificationDependencies.getFinalizedReceipt) proof.(CustomReceiptProof.receiptPDA) ≠ Answered r) ∨
     (∀ result, deps.(MerchantVerificationDependencies.getFinalizedTransaction) proof.(CustomReceiptProof.signature)
        ≠ Answered (VObject result))).
Proof.
  unfold get_data. destruct (payment_headers headers); [done|].
  destruct (verify_headers config references deps headers) as [v|e] eqn:Ev; [done|]. intros [= <-].
  unfold publicProofErrorBody. destruct e as [k|m]; [|done]. cbn [ProofErrorBody.status ProofErrorBody.code].
  intros Hk. split; [by destruct k|]. unfold verify_headers in Ev.
  assert (∀ A (c : checked A), final c → c = Fails (ProofError k) → False) as Hno by (intros A c Hc ->; by apply Hk, Hc).
  destruct (find_standard _) as [std|] eqn:Ef; cbn [cbind] in Ev;
    [|injection Ev as ->; destruct (Hno _ _ (final_find _) Ef)].
  destruct (match std with Some h => _ | None => _ end) as [u|] eqn:Es; cbn [cbind] in Ev;
    [|injection Ev as ->; destruct std; [|done]; exfalso; eapply Hno; [|exact Es]; finals].
  destruct (detectAndParsePaymentHeader _) as [proof|] eqn:Ep; cbn [cbind] in Ev;
    [|injection Ev as ->; destruct (Hno _ _ (final_parse _) Ep)].
  exists proof. split; [exact Ev|]. unfold verifyMerchantProof in Ev.
  destruct (MerchantVerificationDependencies.getFinalizedReceipt _ _) as [found|e|]; [|by left|by left].
  cbn [await cbind] in Ev. destruct found as [r|]; [|injection Ev as <-; done].
  destruct (check_receipt _ _ _ r) as [u'|] eqn:Er; cbn [cbind] in Ev;
    [|injection Ev as ->; destruct (Hno _ _ (final_receipt _ _ _ _) Er)].
  right. intros result Hw. rewrite Hw in Ev. cbn [await cbind nullish] in Ev.
  eapply (Hno _ _ _ Ev). Unshelve. apply final_bind; [finals|]. intros expected.
  apply final_bind; [apply final_settlement|finals].
Qed.
End Acceptance.

(** ** Prices *)
Section Prices.
Context `{C : Codec, CS : !JsonSpec C, HS : Sha256}.

Lemma canonical_payment_json input : json (canonical_payment input) = true.
Proof.
  unfold canonical_payment. destruct (given_text (X402ExactPayment.expiresAtSlot input)) as [e|]; cbn [Signed.present app json].
  all: apply andb_true_iff; split; [|done].
  all: apply bool_decide_eq_true_2; cbn [fmap list_fmap fst]; apply (bool_decide_unpack _); vm_compute; exact I.
Qed.

(** The text whose hash is the invoice hash *)
Definition price_text (input : X402ExactPayment.t) : bytes := text_encode (JSON_stringify (canonical_payment input)).

(** Two prices with the same invoice hash are the same price: mint, recipient,
    amount, resource, token program, nonce and expiry agree, unless their canonical
    texts are a collision of SHA-256. *)
Theorem references_bind_price (a b : X402ExactPayment.t) :
  collision_free [price_text a; price_text b] →
  (deriveX402PaymentReferences a).(X402PaymentReferences.invoiceHash)
    = (deriveX402PaymentReferences b).(X402PaymentReferences.invoiceHash) →
  a.(X402ExactPayment.mint) = b.(X402ExactPayment.mint) ∧
  a.(X402ExactPayment.recipient) = b.(X402ExactPayment.recipient) ∧
  a.(X402ExactPayment.amount) = b.(X402ExactPayment.amount) ∧
  a.(X402ExactPayment.resource) = b.(X402ExactPayment.resource) ∧
  a.(X402ExactPayment.tokenProgram) = b.(X402ExactPayment.tokenProgram) ∧
  payment_nonce a = payment_nonce b ∧
  given_text a.(X402ExactPayment.expiresAtSlot) = given_text b.(X402ExactPayment.expiresAtSlot).
Proof.
  intros Hc E%bytesToHex_inj. apply Hc in E; [|set_solver..]. apply text_encode_inj, json_inj in E; [|apply canonical_payment_json..].
  assert (∀ k, get (canonical_payment a) k = get (canonical_payment b) k) as Hg by (intros k; by rewrite E).
  assert (∀ i, get (canonical_payment i) "expiresAtSlot" = optional_value (given_text i.(X402ExactPayment.expiresAtSlot))) as He
    by (intros i; unfold canonical_payment; by destruct (given_text _)).
  pose proof (Hg "asset") as H1. pose proof (Hg "payTo") as H2. pose proof (Hg "amount") as H3.
  pose proof (Hg "resource") as H4. pose proof (Hg "tokenProgram") as H5. pose proof (Hg "nonce") as H6.
  pose proof (Hg "expiresAtSlot") as H7. rewrite !He in H7. clear He Hg E. cbn in H1, H2, H3, H4, H5, H6.
  injection H1 as ->. injection H2 as ->. injection H3 as ->. injection H4 as ->. injection H6 as ->.
  split_and!; try done.
  - injection H5. destruct (X402ExactPayment.tokenProgram a), (X402ExactPayment.tokenProgram b); done.
  - destruct (given_text (X402ExactPayment.expiresAtSlot a)), (given_text (X402ExactPayment.expiresAtSlot b)); cbn in H7; congruence.
Qed.
End Prices.

(** ** Concrete proofs *)

#[local] Existing Instance Base58.keys.
#[local] Existing Instance model_hash.
#[local] Existing Instance JsonCodec.codec.

Definition key_text (n : Z) : Address := base58_encode (sample_key n).
Definition sample_program : Address := Eval vm_compute in key_text 9.
Definition sample_agent : Address := Eval vm_compute in key_text 12.
Definition sample_paid : Receipt.t := settled_receipt sample_mandate_key sample_accounts 120 sample_params sample_mandate.
Definition sample_view : Mandate.t := mandate_view (toBase58 sample_mandate_key) (Some 120) None sample_mandate.

Definition sample_ix : ChainPayInstruction.t :=
  Eval vm_compute in
    match buildExecutePaymentInstruction (sample_request_for 22) (toBase58 (sample_key 12)) sample_view sample_program with
    | Ok ix => ix | Throw _ => ChainPayInstruction.mk "" "" [] [] end.

(** The message: the agent, four writable accounts, five readonly ones, the program *)
Definition sample_static : list Address :=
  Eval vm_compute in
    map (λ i, default "" (AccountMeta.address <$> (sample_ix.(ChainPayInstruction.keys) !! i))) [4; 2; 3; 6; 7; 0; 1; 5; 8; 9]%nat
    ++ [sample_program].

Definition sample_message : DecodedMessage.t :=
  DecodedMessage.mk legacy (Header.mk 1 0 6) sample_static
    (Some [RawInstruction.mk 10 (Some [5; 6; 1; 2; 0; 7; 3; 4; 8; 9]) (Some sample_ix.(ChainPayInstruction.data))])
    None None None None.

Definition sample_message_bytes : bytes := text_encode "the sample message".

(** A stand-in for Ed25519: a checksum of the key and the message *)
Definition checksum (key message : bytes) : bytes := mix (key ++ message) ++ mix (message ++ key).
Definition sample_signature : bytes := Eval vm_compute in checksum (sample_key 12) sample_message_bytes.
Definition sample_signature_text : string := Eval vm_compute in base58_encode sample_signature.

Definition sample_transaction : Transaction.t :=
  Transaction.mk sample_message_bytes {[sample_agent := Some sample_signature]}.

(** A host whose codec knows the sample transaction *)
#[local] Instance sample_host : MerchantHost := {
  bs58_encode := base58_encode;
  bs58_decode s := match base58_decode s with Some b => Ok b | None => Throw "Non-base58 character" end;
  buffer_base64 := text_encode;
  verify_spki der message signature :=
    Ok (bool_decide (signature = checksum (drop (length ED25519_SPKI_PREFIX) der) message));
  decode_transaction wire :=
    if bool_decide (wire = text_encode "sample") then Ok sample_transaction else Throw "Invalid transaction";
  decode_message bs := if bool_decide (bs = sample_message_bytes) then Ok sample_message else Throw "Invalid message";
  encode_message _ := sample_message_bytes;
  encode_transaction _ := text_encode "sample";
}.

Definition sample_meta : list (string * value) :=
  [("err", VNull); ("loadedAddresses", VObject [("writable", VArray []); ("readonly", VArray [])])].
Definition sample_result : list (string * value) :=
  [("slot", VNumber (JInt 120)); ("meta", VObject sample_meta);
   ("transaction", VArray [VString "sample"; VString "base64"])].

Definition sample_config : MerchantConfig.t :=
  Eval vm_compute in
    MerchantConfig.mk "https://shop.example/data" (key_text 14) (key_text 24) "700" spl_token sample_agent sample_program None.

Definition sample_references : X402PaymentReferences.t :=
  Eval vm_compute in
    X402PaymentReferences.mk "n" (bytesToHex (sample_key 22)) (bytesToHex (sample_key 23)) (bytesToHex (sample_key 25)).

Definition sample_deps : MerchantVerificationDependencies.t :=
  MerchantVerificationDependencies.mk
    (λ _, Answered (Some (receipt_view (toBase58 sample_receipt_key) None (snapshot_view sample_paid) sample_paid)))
    (λ _, Answered (VObject sample_result)).

Definition sample_roles : list AccountRole.t :=
  Eval vm_compute in match resolveAccounts sample_message [] [] with Done roles => roles | Fails _ => [] end.

Definition sample_compiled : CompiledInstruction.t :=
  CompiledInstruction.mk 10 [5; 6; 1; 2; 0; 7; 3; 4; 8; 9] sample_ix.(ChainPayInstruction.data).

Lemma sample_built :
  buildExecutePaymentInstruction (sample_request_for 22) (toBase58 (sample_key 12)) sample_view (toBase58 (sample_key 9))
    = Ok sample_ix.
Proof. vm_compute. reflexivity. Qed.

Lemma sample_accounts_fit : accounts_fit sample_message [] [].
Proof.
  constructor; [vm_compute; split; congruence..|vm_compute; congruence|vm_compute; split; reflexivity|].
  assert (forallb (λ a, (0 <? size a) && (size a <=? 64) && match publicKey a with Ok _ => true | Throw _ => false end)
    (sample_message.(DecodedMessage.staticAccounts) ++ [] ++ []) = true) as Hall by (vm_compute; reflexivity).
  apply Forall_forall. intros a Ha%list_elem_of_In. rewrite forallb_forall in Hall. specialize (Hall a Ha).
  apply andb_true_iff in Hall as [[H1%Z.ltb_lt H2%Z.leb_le]%andb_true_iff H3]. split; [done|].
  destruct (publicKey a) as [k|] eqn:Ek; [|done]. by eapply publicKey_valid.
Qed.

Lemma sample_carries :
  carries sample_ix (toBase58 (sample_key 12)) 120 sample_signature_text sample_result sample_meta "sample"
    (DecodedTransaction.mk sample_transaction sample_message) [] sample_signature sample_roles [] [] sample_compiled.
Proof.
  constructor.
  1-4: first [split; [reflexivity|lia] | reflexivity].
  1-2: vm_compute; split; congruence.
  1-5: vm_compute; first [reflexivity | split; reflexivity].
  - split; [reflexivity|]. vm_compute. split; congruence.
  - exists [], []. split_and!; [right; eexists; by split_and!|exact sample_accounts_fit|vm_compute; reflexivity].
  - vm_compute. reflexivity.
  - constructor; [vm_compute; reflexivity| |reflexivity].
    repeat (constructor; [vm_compute; reflexivity|]). constructor.
  - constructor.
Qed.

Lemma sample_priced :
  priced sample_config sample_references (sample_request_for 22) (toBase58 (sample_key 12)) (toBase58 (sample_key 9)).
Proof.
  constructor; try (vm_compute; reflexivity).
  split; [vm_compute; reflexivity|]. apply (bool_decide_unpack _). vm_compute. exact I.
Qed.

Lemma sdk_payment_accepted_witness :
  verifyMerchantProof sample_config sample_references
      (CustomReceiptProof.mk sample_signature_text (toBase58 sample_receipt_key)) sample_deps
    = Done (VerifiedMerchantPayment.mk
        (receipt_view (toBase58 sample_receipt_key) None (snapshot_view sample_paid) sample_paid)
        sample_signature_text "https://shop.example/data").
Proof.
  refine (@sdk_payment_accepted Base58.keys Base58.keys_spec sample_host sample_mandate_key sample_accounts 120
    sample_params sample_chain (settle sample_mandate_key sample_accounts 120 sample_params sample_chain) (sample_key 9)
    sample_receipt_key (Some 120) None None sample_config sample_references (sample_request_for 22) sample_ix
    sample_signature_text sample_deps sample_paid sample_result sample_meta "sample"
    (DecodedTransaction.mk sample_transaction sample_message) [] sample_signature sample_roles [] [] sample_compiled
    sample_settles _ _ eq_refl eq_refl eq_refl sample_built sample_priced eq_refl eq_refl sample_carries).
  - apply lookup_insert_eq.
  - vm_compute. reflexivity.
Defined.

Definition sample_proof : CustomReceiptProof.t :=
  CustomReceiptProof.mk sample_signature_text (toBase58 sample_receipt_key).

Definition sample_payment : VerifiedMerchantPayment.t :=
  VerifiedMerchantPayment.mk (receipt_view (toBase58 sample_receipt_key) None (snapshot_view sample_paid) sample_paid)
    sample_signature_text "https://shop.example/data".

Lemma sample_verified : verifyMerchantProof sample_config sample_references sample_proof sample_deps = Done sample_payment.
Proof. vm_compute. reflexivity. Qed.

Lemma merchant_accepts_witness :
  ∃ r, sample_payment.(VerifiedMerchantPayment.receipt) = r ∧
    price_paid sample_config sample_references sample_proof.(CustomReceiptProof.receiptPDA) r.
Proof.
  destruct (@merchant_accepts Base58.keys sample_host sample_config sample_references sample_proof sample_deps
    sample_payment sample_verified)
    as (r & wire & expected & result & meta & w & decoded & signers & roles & instructions & _ & _ & Hv & Hp & _).
  exists r. split; [exact (f_equal VerifiedMerchantPayment.receipt Hv)|exact Hp].
Defined.

(** The node times out on the receipt: the payer is asked to retry. *)
Definition silent_deps : MerchantVerificationDependencies.t :=
  MerchantVerificationDependencies.mk (λ _, TimedOut) (λ _, TimedOut).

Definition sample_proof_header : string :=
  Eval vm_compute in JSON_stringify (VObject [("version", VString "x402/1.0"); ("scheme", VString "exact");
    ("network", VString "solana-devnet");
    ("payload", VObject [("signature", VString sample_signature_text);
      ("receiptPDA", VString (base58_encode sample_receipt_key))])]).

Definition sample_headers : DataHeaders.t := DataHeaders.mk None (Some sample_proof_header) None.

Lemma retry_only_when_unanswered_witness :
  ∃ body, get_data sample_config sample_references silent_deps sample_headers = Refused body ∧
    body.(ProofErrorBody.status) = 503.
Proof.
  assert (get_data sample_config sample_references silent_deps sample_headers
    = Refused (publicProofErrorBody (ProofError rpc_unavailable))) as E by (vm_compute; reflexivity).
  exists (publicProofErrorBody (ProofError rpc_unavailable)). split; [exact E|].
  refine (proj1 (@retry_only_when_unanswered Base58.keys sample_host JsonCodec.codec sample_config sample_references
    silent_deps sample_headers _ E _)). discriminate.
Defined.

Lemma data_served_for_proof_witness :
  ∃ v, get_data sample_config sample_references sample_deps sample_headers = Paid v ∧
    ∃ proof, verifyMerchantProof sample_config sample_references proof sample_deps = Done v.
Proof.
  assert (∃ v, get_data sample_config sample_references sample_deps sample_headers = Paid v) as [v E].
  { eexists. vm_compute. reflexivity. }
  exists v. split; [exact E|].
  destruct (proj1 (@data_served_for_proof Base58.keys sample_host JsonCodec.codec sample_config
    sample_references sample_deps sample_headers) v E) as (_ & proof & _ & _ & Hv).
  exists proof. exact Hv.
Defined.

Definition sample_price : X402ExactPayment.t :=
  X402ExactPayment.mk "mint" "recipient" "700" "https://shop.example/data" spl_token (Some " n ") None.

Lemma references_bind_price_witness :
  collision_free [price_text sample_price; price_text sample_price] ∧ payment_nonce sample_price = "n".
Proof.
  assert (collision_free [price_text sample_price; price_text sample_price]) as Hc
    by (apply collision_free_check; vm_compute; reflexivity).
  split; [exact Hc|].
  destruct (@references_bind_price JsonCodec.codec JsonCodec.json_spec model_hash sample_price sample_price Hc eq_refl)
    as (_ & _ & _ & _ & _ & _ & _). vm_compute. reflexivity.
Defined.
