(* ===== verification/MerchantDelivery.v ===== *)
(** * Delivery statements of the merchant (demo-merchant/src/delivery.ts, publisher.ts)

    A response that was served in full for a paid receipt is published once: the
    controller gates the publisher by receipt, over responses that finish, close
    and publish in any order; the publisher looks for an existing statement, signs
    one, and sends the identical text up to three times. *)
From Stdlib Require Import ZArith Lia Strings.Byte Strings.Ascii.
From stdpp Require Import base numbers sets strings list fin_maps gmap.
From S2P Require Import Prelude Bytes PublicKey Types Encoding Decimal Base64 Dates CardConstants Utf8 CardCommitment Values Signed Delivery.

Module DeliveryPublishInput.
Record t : Type := mk { receiptAddress : Address; contentHash : string; body : bytes; programId : Address }.
End DeliveryPublishInput.

#[export] Instance publish_input_eq_dec : EqDecision DeliveryPublishInput.t.
Proof. solve_decision. Defined.

(** ** Served responses *)

Module ServedResponse.
Record t : Type := mk {
  statusCode : Z;
  input : DeliveryPublishInput.t;
  finished : bool;
  aborted : bool;
}.
End ServedResponse.

(** Where the publication of a receipt is: the publisher runs, or it has settled
    and the [finally] that forgets it has not run yet. *)
Inductive Phase : Type := Working | Settled.

#[export] Instance phase_eq_dec : EqDecision Phase.
Proof. solve_decision. Defined.

(** [calls] are the calls of the publisher, [succeeded] those that fulfilled. *)
Module DeliveryController.
Record t : Type := mk {
  responses : gmap nat ServedResponse.t;
  issued : gset Address;
  inflight : gmap Address Phase;
  calls : list DeliveryPublishInput.t;
  succeeded : list Address;
}.
End DeliveryController.

Inductive DeliveryEvent : Type :=
| SendPaid (id : nat) (status : Z) (body : value) (receiptAddress : Address)
| Close (id : nat)
| Finish (id : nat)
| Fulfilled (receiptAddress : Address)
| Rejection (receiptAddress : Address)
| Forget (receiptAddress : Address).

Section Controller.
Context `{C : Codec, HS : Sha256}.
(** The configured program, and whether there is a publisher *)
Context (programId : Address) (publishing : bool).

Definition serializeJsonBody (body : value) : bytes := text_encode (JSON_stringify body).

Definition controller_init : DeliveryController.t := DeliveryController.mk ∅ ∅ ∅ [] [].

(** [gatedPublisher.publish(input)], up to its first [await] *)
Definition gated_publish (input : DeliveryPublishInput.t) (s : DeliveryController.t) : DeliveryController.t :=
  let receipt := input.(DeliveryPublishInput.receiptAddress) in
  if bool_decide (receipt ∈ s.(DeliveryController.issued)) then s
  else match s.(DeliveryController.inflight) !! receipt with
       | Some _ => s
       | None =>
           DeliveryController.mk s.(DeliveryController.responses) s.(DeliveryController.issued)
             (<[receipt := Working]> s.(DeliveryController.inflight))
             (s.(DeliveryController.calls) ++ [input]) s.(DeliveryController.succeeded)
       end.

Definition with_response (id : nat) (r : ServedResponse.t) (s : DeliveryController.t) : DeliveryController.t :=
  DeliveryController.mk (<[id := r]> s.(DeliveryController.responses)) s.(DeliveryController.issued)
    s.(DeliveryController.inflight) s.(DeliveryController.calls) s.(DeliveryController.succeeded).

(** [sendPaid]: hash the exact bytes, listen, send them. The status is what the
    response has when it finishes. *)
Definition sendPaid (id : nat) (status : Z) (body : value) (receipt : Address) (s : DeliveryController.t) :
    DeliveryController.t :=
  let bytes := serializeJsonBody body in
  with_response id (ServedResponse.mk status (DeliveryPublishInput.mk receipt (sha256Hex bytes) bytes programId) false false) s.

(** The listeners of [bindServedResponseLifecycle], each called once *)
Definition on_close (r : ServedResponse.t) : ServedResponse.t :=
  if r.(ServedResponse.finished) then r
  else ServedResponse.mk r.(ServedResponse.statusCode) r.(ServedResponse.input) false true.

Definition on_finish (id : nat) (r : ServedResponse.t) (s : DeliveryController.t) : DeliveryController.t :=
  let s := with_response id (ServedResponse.mk r.(ServedResponse.statusCode) r.(ServedResponse.input) true
    r.(ServedResponse.aborted)) s in
  if r.(ServedResponse.aborted) || negb (r.(ServedResponse.statusCode) =? 200) || negb publishing then s
  else gated_publish r.(ServedResponse.input) s.

(** One event; [None] for an event that cannot happen in this state *)
Definition delivery_step (s : DeliveryController.t) (e : DeliveryEvent) : option DeliveryController.t :=
  match e with
  | SendPaid id status body receipt =>
      match s.(DeliveryController.responses) !! id with
      | Some _ => None
      | None => Some (sendPaid id status body receipt s)
      end
  | Close id =>
      r ← s.(DeliveryController.responses) !! id;
      Some (with_response id (on_close r) s)
  | Finish id =>
      r ← s.(DeliveryController.responses) !! id;
      if r.(ServedResponse.finished) then None else Some (on_finish id r s)
  | Fulfilled receipt =>
      if bool_decide (s.(DeliveryController.inflight) !! receipt = Some Working) then
        Some (DeliveryController.mk s.(DeliveryController.responses) ({[receipt]} ∪ s.(DeliveryController.issued))
          (<[receipt := Settled]> s.(DeliveryController.inflight)) s.(DeliveryController.calls)
          (s.(DeliveryController.succeeded) ++ [receipt]))
      else None
  | Rejection receipt =>
      if bool_decide (s.(DeliveryController.inflight) !! receipt = Some Working) then
        Some (DeliveryController.mk s.(DeliveryController.responses) s.(DeliveryController.issued)
          (<[receipt := Settled]> s.(DeliveryController.inflight)) s.(DeliveryController.calls)
          s.(DeliveryController.succeeded))
      else None
  | Forget receipt =>
      if bool_decide (s.(DeliveryController.inflight) !! receipt = Some Settled) then
        Some (DeliveryController.mk s.(DeliveryController.responses) s.(DeliveryController.issued)
          (delete receipt s.(DeliveryController.inflight)) s.(DeliveryController.calls) s.(DeliveryController.succeeded))
      else None
  end.

Fixpoint delivery_run (s : DeliveryController.t) (events : list DeliveryEvent) : option DeliveryController.t :=
  match events with
  | [] => Some s
  | e :: events => s' ← delivery_step s e; delivery_run s' events
  end.

Definition publishedReceipts (s : DeliveryController.t) : list Address := elements s.(DeliveryController.issued).
End Controller.

(** ** The publisher *)

Module SellerPublishConfig.
Record t : Type := mk { programId : Address; seller : Address; secretKey : bytes }.
End SellerPublishConfig.

Definition POST_ATTEMPTS : nat := 3.

Inductive ExistingVerdict : Type := reuse | conflict | absent.

#[export] Instance verdict_eq_dec : EqDecision ExistingVerdict.
Proof. solve_decision. Defined.

(** How a request ends: [body] is the JSON that could be read within its limit,
    [at_ms] the time of the reading. *)
Inductive Fetched : Type := NoResponse | Response (status : Z) (body : option value) (at_ms : Z).

Inductive PublishOutcome : Type := Reused | Conflicting | Published | Threw (message : string).

(** What a publication sent, and how it ended *)
Module PublishRun.
Record t : Type := mk { sent : list string; outcome : PublishOutcome }.
End PublishRun.

Section Publisher.
Context `{K : PublicKeys, E : Ed25519, C : Codec}.

Definition response_ok (status : Z) : bool := (200 <=? status) && (status <=? 299).

Definition envelopeFromPublicDto (dto : value) : option value :=
  match plain_object dto with
  | None => None
  | Some fields =>
      match field fields "signature" with
      | VString signature =>
          if bool_decide ("payload" ∈ fields.*1)
          then Some (VObject [("payload", field fields "payload"); ("signature", VString signature)])
          else None
      | _ => None
      end
  end.

Definition classifyExisting (dto : value) (config : SellerPublishConfig.t) (input : DeliveryPublishInput.t) (now : Z) :
    result ExistingVerdict :=
  match envelopeFromPublicDto dto with
  | None => Ok absent
  | Some envelope =>
      let! mapping := defaultTrustedSellerMapping [config.(SellerPublishConfig.seller)]
        (Some config.(SellerPublishConfig.programId)) in
      let verified := verifyDeliveryAttestation envelope
        (VerifyDeliveryOptions.mk (Some mapping) None (Some config.(SellerPublishConfig.programId)) None None) now in
      match verified.(DeliveryVerification.valid), verified.(DeliveryVerification.payload) with
      | true, Some payload =>
          Ok (if negb (bool_decide (payload.(DeliveryAttestationPayload.seller) = config.(SellerPublishConfig.seller)))
              || negb (bool_decide (payload.(DeliveryAttestationPayload.receiptAddress)
                         = input.(DeliveryPublishInput.receiptAddress)))
              || negb (bool_decide (payload.(DeliveryAttestationPayload.programId)
                         = config.(SellerPublishConfig.programId)))
              then conflict
              else if negb (bool_decide (payload.(DeliveryAttestationPayload.contentHash)
                         = input.(DeliveryPublishInput.contentHash)))
              then conflict else reuse)
      | _, _ => Ok absent
      end
  end.

(** The statement found, with the time it was read *)
Definition getExisting (answer : Fetched) : option (value * Z) :=
  match answer with
  | NoResponse => None
  | Response status body at_ms =>
      if (status =? 404) || negb (response_ok status) then None
      else dto ← body; Some (dto, at_ms)
  end.

(** [existing ? await classifyExisting(existing, ...) : "absent"] *)
Definition verdict_of (existing : option (value * Z)) (config : SellerPublishConfig.t) (input : DeliveryPublishInput.t) :
    result ExistingVerdict :=
  match existing with
  | Some (dto, at_ms) => if truthy dto then classifyExisting dto config input at_ms else Ok absent
  | None => Ok absent
  end.

(** One attempt: it ends the publication, or leaves the error to retry with *)
Definition post_attempt (config : SellerPublishConfig.t) (input : DeliveryPublishInput.t) (posted lookup : Fetched) :
    PublishOutcome + string :=
  match posted with
  | NoResponse => inr "fetch failed"
  | Response status body at_ms =>
      let http_error := "delivery_publish_http_" +:+ toString status in
      if status =? 409 then
        match verdict_of (getExisting lookup) config input with
        | Ok reuse => inl Reused
        | Ok conflict => inl Conflicting
        | Ok absent => inr http_error
        | Throw e => inr e
        end
      else if (status =? 429) || (500 <=? status) then inr http_error
      else if negb (response_ok status) then
        if negb (status =? 0) then inl (Threw http_error) else inr http_error
      else match body with
           | None => inr "delivery_publish_empty"
           | Some dto =>
               match classifyExisting dto config input at_ms with
               | Ok reuse => inl Published
               | Ok _ => inl (Threw "delivery_publish_hash_mismatch")
               | Throw e => inr e
               end
           end
  end.

(** The loop: [answers] are the replies to the attempts, the post and the lookup
    that a conflict causes. *)
Fixpoint post_loop (config : SellerPublishConfig.t) (input : DeliveryPublishInput.t) (body : string)
    (answers : nat → Fetched * Fetched) (attempt remaining : nat) (lastError : string) : PublishRun.t :=
  match remaining with
  | O => PublishRun.mk [] (Threw lastError)
  | S remaining =>
      let '(posted, lookup) := answers attempt in
      match post_attempt config input posted lookup with
      | inl outcome => PublishRun.mk [body] outcome
      | inr e =>
          let run := post_loop config input body answers (S attempt) remaining e in
          PublishRun.mk (body :: run.(PublishRun.sent)) run.(PublishRun.outcome)
      end
  end.

Definition postIdenticalEnvelope (config : SellerPublishConfig.t) (input : DeliveryPublishInput.t) (body : string)
    (answers : nat → Fetched * Fetched) : PublishRun.t :=
  post_loop config input body answers 0 POST_ATTEMPTS "delivery_publish_failed".

(** The statement that is signed *)
Definition statement (config : SellerPublishConfig.t) (input : DeliveryPublishInput.t) (servedAt : string) : value :=
  payload_value (DeliveryAttestationPayload.mk input.(DeliveryPublishInput.programId)
    input.(DeliveryPublishInput.receiptAddress) config.(SellerPublishConfig.seller)
    input.(DeliveryPublishInput.contentHash) servedAt).

(** [publish]: [existing] is the reply to the first lookup, [now] the time of the statement *)
Definition publish (config : SellerPublishConfig.t) (input : DeliveryPublishInput.t) (existing : Fetched)
    (now : Z) (answers : nat → Fetched * Fetched) : PublishRun.t :=
  match verdict_of (getExisting existing) config input with
  | Throw e => PublishRun.mk [] (Threw e)
  | Ok reuse => PublishRun.mk [] Reused
  | Ok conflict => PublishRun.mk [] Conflicting
  | Ok absent =>
      match signDeliveryAttestation (statement config input (toISOString now)) config.(SellerPublishConfig.secretKey) with
      | Throw e => PublishRun.mk [] (Threw e)
      | Ok envelope => postIdenticalEnvelope config input (JSON_stringify (envelope_value envelope)) answers
      end
  end.
End Publisher.
