(* ===== verification/MerchantDeliveryProps.v ===== *)
(** * What the merchant states about its deliveries

    Over responses that finish, close and publish in any order, a receipt gets at
    most one statement, of the bytes that were served in full; and a publication
    that reports success has found or obtained a statement that verifies. *)
From Stdlib Require Import ZArith Lia Strings.Byte Strings.Ascii.
From stdpp Require Import base numbers sets strings list fin_maps gmap.
From S2P Require Import Prelude Bytes PublicKey Types Encoding Decimal Base64 Dates CardConstants Utf8 CardCommitment Values Signed Delivery DeliveryProps MerchantDelivery.

(** ** The controller *)
Section Controller.
Context `{C : Codec, HS : Sha256} (programId : Address) (publishing : bool).

Abbreviation step := (delivery_step programId publishing).
Abbreviation run := (delivery_run programId publishing).

(** A response that was served in full, with the statement to publish for it *)
Definition served (s : DeliveryController.t) (input : DeliveryPublishInput.t) : Prop :=
  ∃ id r, s.(DeliveryController.responses) !! id = Some r ∧ r.(ServedResponse.input) = input ∧
    r.(ServedResponse.finished) = true ∧ r.(ServedResponse.aborted) = false ∧ r.(ServedResponse.statusCode) = 200.

(** Responses hash what they serve; every call publishes a served response; what
    succeeded is issued, once each; a publication at work is not yet issued. *)
Record controller_ok (s : DeliveryController.t) : Prop := {
  co_hash id r : s.(DeliveryController.responses) !! id = Some r →
    r.(ServedResponse.input).(DeliveryPublishInput.contentHash) = sha256Hex r.(ServedResponse.input).(DeliveryPublishInput.body) ∧
    r.(ServedResponse.input).(DeliveryPublishInput.programId) = programId;
  co_calls input : input ∈ s.(DeliveryController.calls) → publishing = true ∧ served s input;
  co_issued : s.(DeliveryController.issued) = list_to_set s.(DeliveryController.succeeded);
  co_once : NoDup s.(DeliveryController.succeeded);
  co_working a : s.(DeliveryController.inflight) !! a = Some Working → a ∉ s.(DeliveryController.issued);
  co_started a : is_Some (s.(DeliveryController.inflight) !! a) ∨ a ∈ s.(DeliveryController.succeeded) →
    ∃ input, input ∈ s.(DeliveryController.calls) ∧ input.(DeliveryPublishInput.receiptAddress) = a;
}.

Lemma controller_init_ok : controller_ok controller_init.
Proof.
  constructor; cbn; try done.
  - intros input Hin. by apply not_elem_of_nil in Hin.
  - constructor.
  - intros a [[x Hx]|Hin]; [done|by apply not_elem_of_nil in Hin].
Qed.

(** A response replaced by one that is as finished and served *)
Lemma with_response_ok id r s :
  controller_ok s →
  r.(ServedResponse.input).(DeliveryPublishInput.contentHash) = sha256Hex r.(ServedResponse.input).(DeliveryPublishInput.body) →
  r.(ServedResponse.input).(DeliveryPublishInput.programId) = programId →
  (∀ q, s.(DeliveryController.responses) !! id = Some q → q.(ServedResponse.finished) = true → r = q) →
  controller_ok (with_response id r s).
Proof.
  intros [] Hh Hp Hq. constructor; cbn; try done.
  - intros i q. destruct (decide (i = id)) as [->|Hne].
    + rewrite lookup_insert_eq. by intros [= <-].
    + rewrite lookup_insert_ne by done. apply co_hash0.
  - intros input Hin. destruct (co_calls0 _ Hin) as (Hpub & i & q & Hl & He & Hf & Ha & Hs). split; [done|].
    exists i, q. split; [|done]. cbn. destruct (decide (i = id)) as [->|Hne]; [|by rewrite lookup_insert_ne].
    rewrite lookup_insert_eq. f_equal. by apply Hq.
Qed.

Lemma served_mono id r s input :
  s.(DeliveryController.responses) !! id = Some r → r.(ServedResponse.input) = input →
  r.(ServedResponse.finished) = true → r.(ServedResponse.aborted) = false → r.(ServedResponse.statusCode) = 200 → served s input.
Proof. intros. by exists id, r. Qed.

Lemma gated_publish_ok input s :
  controller_ok s → publishing = true → served s input → controller_ok (gated_publish input s).
Proof.
  intros [] Hpub Hs. unfold gated_publish. case_bool_decide as Hi; [by constructor|].
  destruct (DeliveryController.inflight s !! _) eqn:Ef; [by constructor|]. constructor; cbn; try done.
  - intros q [Hq| ->%list_elem_of_singleton]%elem_of_app; [|done].
    destruct (co_calls0 _ Hq) as (_ & i & r & ?). split; [done|]. by exists i, r.
  - intros a. destruct (decide (a = input.(DeliveryPublishInput.receiptAddress))) as [->|Hne]; [done|].
    rewrite lookup_insert_ne by done. apply co_working0.
  - intros a Ha. destruct (decide (a = input.(DeliveryPublishInput.receiptAddress))) as [->|Hne].
    + exists input. split; [|done]. apply elem_of_app. right. by apply list_elem_of_singleton.
    + rewrite lookup_insert_ne in Ha by done. destruct (co_started0 _ Ha) as (q & Hq & ?). exists q. split; [|done].
      apply elem_of_app. by left.
Qed.

Lemma settle_ok a s :
  controller_ok s → s.(DeliveryController.inflight) !! a = Some Working → ∀ succeeded issued,
  (succeeded = s.(DeliveryController.succeeded) ∧ issued = s.(DeliveryController.issued) ∨
   succeeded = s.(DeliveryController.succeeded) ++ [a] ∧ issued = {[a]} ∪ s.(DeliveryController.issued)) →
  controller_ok (DeliveryController.mk s.(DeliveryController.responses) issued
    (<[a := Settled]> s.(DeliveryController.inflight)) s.(DeliveryController.calls) succeeded).
Proof.
  intros [] Ha succeeded issued Hcase. pose proof (co_working0 _ Ha) as Hn. constructor; cbn; try done.
  - destruct Hcase as [[-> ->]|[-> ->]]; [done|]. rewrite co_issued0, list_to_set_app_L. set_solver.
  - destruct Hcase as [[-> ->]|[-> ->]]; [done|]. apply NoDup_app. split; [done|].
    rewrite co_issued0 in Hn. split; [|apply NoDup_singleton]. intros x Hx ->%list_elem_of_singleton. set_solver.
  - intros b. destruct (decide (b = a)) as [->|Hne]; [by rewrite lookup_insert_eq|]. rewrite lookup_insert_ne by done.
    intros Hb%co_working0. destruct Hcase as [[-> ->]|[-> ->]]; [done|set_solver].
  - intros b [Hb|Hb]; apply co_started0; [destruct (decide (b = a)) as [->|Hne]; [by left; eexists|by rewrite lookup_insert_ne in Hb; auto]|].
    destruct Hcase as [[-> ->]|[-> ->]]; [by right|].
    apply elem_of_app in Hb as [Hb| ->%list_elem_of_singleton]; [by right|left; by eexists].
Qed.

Lemma delivery_step_ok s e s' : controller_ok s → step s e = Some s' → controller_ok s'.
Proof.
  intros Hs. destruct e as [id status body receipt|id|id|a|a|a]; cbn [delivery_step].
  - destruct (DeliveryController.responses s !! id) as [r|] eqn:Er; [done|]. intros [= <-]. unfold sendPaid.
    apply with_response_ok; try done. intros q Hq. congruence.
  - intros (r & Er & [= <-])%bind_Some. destruct (co_hash _ Hs id r Er) as [H1 H2].
    unfold on_close. destruct (ServedResponse.finished r) eqn:Ef; apply with_response_ok; try done; intros q Hq; congruence.
  - intros (r & Er & Hf)%bind_Some. destruct (ServedResponse.finished r) eqn:Ef; [done|]. injection Hf as <-.
    destruct (co_hash _ Hs id r Er) as [H1 H2]. unfold on_finish.
    set (s1 := with_response id _ s).
    assert (controller_ok s1) as Hs1 by (apply with_response_ok; try done; intros q Hq; congruence).
    destruct (ServedResponse.aborted r) eqn:Ea; [done|]. destruct (ServedResponse.statusCode r =? 200) eqn:Es; [|done].
    destruct publishing eqn:Ep; [|done]. cbn [negb orb]. apply gated_publish_ok; try done.
    exists id. eexists. split; [apply lookup_insert_eq|]. cbn. bool_reflect. done.
  - case_bool_decide as Ha; [|done]. intros [= <-]. apply settle_ok; auto.
  - case_bool_decide as Ha; [|done]. intros [= <-]. apply settle_ok; auto.
  - case_bool_decide as Ha; [|done]. intros [= <-]. destruct Hs. constructor; cbn; try done.
    + intros b. rewrite lookup_delete_Some. intros [_ Hb]. by apply co_working0.
    + intros b [[x Hb]|Hb]; apply co_started0; [left|by right]. apply lookup_delete_Some in Hb as [_ Hb]. by eexists.
Qed.

Lemma delivery_run_ok events s s' : controller_ok s → run s events = Some s' → controller_ok s'.
Proof.
  revert s. induction events as [|e events IH]; intros s Hs; cbn [delivery_run]; [by intros [= <-]|].
  intros (s1 & H1 & Hr)%bind_Some. apply (IH s1); [|done]. by eapply delivery_step_ok.
Qed.

(** The publications of one receipt *)
Definition calls_for (a : Address) (s : DeliveryController.t) : list DeliveryPublishInput.t :=
  filter (λ i, i.(DeliveryPublishInput.receiptAddress) = a) s.(DeliveryController.calls).

Lemma issued_step a s e s' :
  controller_ok s → a ∈ s.(DeliveryController.issued) → step s e = Some s' →
  a ∈ s'.(DeliveryController.issued) ∧ calls_for a s' = calls_for a s.
Proof.
  intros Hs Ha. destruct e as [id status body receipt|id|id|b|b|b]; cbn [delivery_step].
  - destruct (DeliveryController.responses s !! id); [done|]. by intros [= <-].
  - by intros (r & _ & [= <-])%bind_Some.
  - intros (r & _ & Hf)%bind_Some. destruct (ServedResponse.finished r); [done|]. injection Hf as <-.
    unfold on_finish. destruct (_ || _); [done|]. unfold gated_publish. cbn [DeliveryController.issued with_response DeliveryController.inflight].
    case_bool_decide as Hi; [done|]. destruct (DeliveryController.inflight s !! _); [done|]. split; [done|].
    unfold calls_for. cbn. rewrite filter_app, filter_cons_False, filter_nil, app_nil_r; [done|]. by intros <-.
  - case_bool_decide; [|done]. intros [= <-]. split; [cbn; set_solver|done].
  - case_bool_decide; [|done]. by intros [= <-].
  - case_bool_decide; [|done]. by intros [= <-].
Qed.

Lemma issued_stays a events s s' :
  controller_ok s → a ∈ s.(DeliveryController.issued) → run s events = Some s' →
  a ∈ s'.(DeliveryController.issued) ∧ calls_for a s' = calls_for a s.
Proof.
  revert s. induction events as [|e events IH]; intros s Hs Ha; cbn [delivery_run]; [by intros [= <-]|].
  intros (s1 & H1 & Hr)%bind_Some. destruct (issued_step a s e s1 Hs Ha H1) as [Ha1 <-].
  apply (IH s1); [by eapply delivery_step_ok|done..].
Qed.

(** C35: In any order of responses sent, closed and finished and of publications
    that succeed or fail, the publisher is called only for a response that finished
    with status 200 and was not closed before, with the hash of the bytes it served;
    a receipt's publication succeeds at most once; and after it has succeeded no
    further event calls the publisher for that receipt. *)
Theorem statement_once (events later : list DeliveryEvent) (s s' : DeliveryController.t) :
  run controller_init events = Some s → run s later = Some s' →
  (∀ input, input ∈ s.(DeliveryController.calls) → publishing = true ∧ served s input ∧
    input.(DeliveryPublishInput.contentHash) = sha256Hex input.(DeliveryPublishInput.body)) ∧
  NoDup s.(DeliveryController.succeeded) ∧
  (∀ a, a ∈ s.(DeliveryController.succeeded) → calls_for a s ≠ [] ∧ calls_for a s' = calls_for a s).
Proof.
  intros Hr Hr'. pose proof (delivery_run_ok _ _ _ controller_init_ok Hr) as Hs. split_and!.
  - intros input Hin. destruct (co_calls _ Hs _ Hin) as (Hp & id & r & Hl & He & Hx). split; [done|]. split; [by exists id, r|].
    destruct (co_hash _ Hs id r Hl) as [Hh _]. by rewrite <- He.
  - apply Hs.
  - intros a Ha. destruct (co_started _ Hs a (or_intror Ha)) as (input & Hin & Hx). split.
    + intros E. assert (input ∈ calls_for a s) as Hc by (by apply list_elem_of_filter).
      rewrite E in Hc. by apply not_elem_of_nil in Hc.
    + apply (issued_stays a later s s' Hs); [|done]. rewrite (co_issued _ Hs). by apply elem_of_list_to_set.
Qed.
End Controller.

(** ** The publisher *)
Section Publisher.
Context `{K : PublicKeys, KS : !PublicKeysSpec K, E : Ed25519, C : Codec}.

(** A statement of the configured seller for this receipt and these bytes, which its key signed *)
Definition stated (config : SellerPublishConfig.t) (input : DeliveryPublishInput.t) (dto : value) : Prop :=
  ∃ p signature, get dto "signature" = VString signature ∧ same_fields PAYLOAD_KEYS (get dto "payload") (payload_value p) ∧
    p.(DeliveryAttestationPayload.seller) = config.(SellerPublishConfig.seller) ∧
    p.(DeliveryAttestationPayload.programId) = config.(SellerPublishConfig.programId) ∧
    p.(DeliveryAttestationPayload.receiptAddress) = input.(DeliveryPublishInput.receiptAddress) ∧
    p.(DeliveryAttestationPayload.contentHash) = input.(DeliveryPublishInput.contentHash) ∧ seller_signed p signature.

Lemma verified_payload envelope options clock p :
  (verifyDeliveryAttestation envelope options clock).(DeliveryVerification.valid) = true →
  (verifyDeliveryAttestation envelope options clock).(DeliveryVerification.payload) = Some p →
  ∃ fields signature, envelope = VObject fields ∧ field fields "signature" = VString signature ∧
    same_fields PAYLOAD_KEYS (field fields "payload") (payload_value p) ∧ seller_signed p signature.
Proof.
  unfold verifyDeliveryAttestation. destruct (parseDeliveryEnvelope envelope) as [[q sig]|] eqn:Ep; [|done].
  apply envelope_ok in Ep as (fields & -> & _ & Hs & W & Hp).
  destruct (check_delivery _ _ _) as [[[r c]|]|] eqn:Ec; try done.
  apply check_delivery_ok in Ec as [_ Hsig]; [|done]. intros _ [= <-]. by exists fields, sig.
Qed.

Lemma classify_reuse dto config input now : classifyExisting dto config input now = Ok reuse → stated config input dto.
Proof.
  unfold classifyExisting, envelopeFromPublicDto. destruct (plain_object dto) as [fields|] eqn:Ed; [|done].
  apply plain_object_ok in Ed as ->. destruct (field fields "signature") as [| | | | |sig| |] eqn:Es; try done.
  case_bool_decide as Hin; [|done]. intros Hc. apply bind_ok in Hc as (mapping & _ & Hc).
  set (env := VObject [("payload", field fields "payload"); ("signature", VString sig)]) in *.
  set (v := verifyDeliveryAttestation env _ now) in *.
  destruct (DeliveryVerification.valid v) eqn:Ev; [|done].
  destruct (DeliveryVerification.payload v) as [p|] eqn:Ep; [|done]. injection Hc as Hc.
  destruct (_ || _) eqn:E1 in Hc; [done|]. destruct (negb _) eqn:E2 in Hc; [done|].
  apply orb_false_iff in E1 as [[E1 E3]%orb_false_iff E4]. rewrite !negb_false_iff, !bool_decide_eq_true in *.
  destruct (verified_payload _ _ _ _ Ev Ep) as (fs & sig' & Hf & Hs & Hp & Hk).
  injection Hf as <-. injection Hs as <-. exists p, sig. split; [exact Es|]. split; [exact Hp|]. done.
Qed.

Lemma verdict_reuse existing config input :
  verdict_of existing config input = Ok reuse → ∃ dto at_ms, existing = Some (dto, at_ms) ∧ stated config input dto.
Proof.
  unfold verdict_of. destruct existing as [[dto at_ms]|]; [|done]. destruct (truthy dto); [|done].
  intros Hc%classify_reuse. eauto.
Qed.

(** A reply that carries [dto] with a success status *)
Definition answers_with (answer : Fetched) (dto : value) : Prop :=
  ∃ status at_ms, answer = Response status (Some dto) at_ms ∧ response_ok status = true.

Lemma getExisting_some answer dto at_ms : getExisting answer = Some (dto, at_ms) → answers_with answer dto.
Proof.
  unfold getExisting. destruct answer as [|status body ms]; [done|]. destruct (_ || _) eqn:Eo; [done|].
  apply orb_false_iff in Eo as [_ Eo]. apply negb_false_iff in Eo. intros (d & -> & [= <- <-])%bind_Some.
  by exists status, ms.
Qed.

Definition successful (o : PublishOutcome) : Prop := o = Reused ∨ o = Published.

Lemma attempt_success config input posted lookup o :
  post_attempt config input posted lookup = inl o → successful o →
  ∃ answer dto, (answer = posted ∨ answer = lookup) ∧ answers_with answer dto ∧ stated config input dto.
Proof.
  intros Ha Ho. unfold post_attempt in Ha. destruct posted as [|status body ms]; [done|]. destruct (status =? 409).
  - destruct (verdict_of _ _ _) as [[]|] eqn:Ev; try done; [|by injection Ha as <-; destruct Ho].
    apply verdict_reuse in Ev as (dto & at_ms & Hg & Hs). apply getExisting_some in Hg.
    exists lookup, dto. split; [by right|done].
  - destruct (_ || _); [done|]. destruct (negb (response_ok status)) eqn:Er.
    { destruct (negb _) in Ha; [|done]. injection Ha as <-. by destruct Ho. }
    apply negb_false_iff in Er. destruct body as [dto|]; [|done].
    destruct (classifyExisting dto config input ms) as [[]|] eqn:Ec; try done;
      [|injection Ha as <-; by destruct Ho|injection Ha as <-; by destruct Ho].
    apply classify_reuse in Ec. exists (Response status (Some dto) ms), dto. split; [by left|]. split; [|done]. by exists status, ms.
Qed.

Lemma post_loop_spec config input body answers n : ∀ attempt e,
  let run := post_loop config input body answers attempt n e in
  run.(PublishRun.sent) = replicate (length run.(PublishRun.sent)) body ∧ (length run.(PublishRun.sent) <= n)%nat ∧
  (successful run.(PublishRun.outcome) → ∃ i answer dto, (answer = (answers i).1 ∨ answer = (answers i).2) ∧
    answers_with answer dto ∧ stated config input dto).
Proof.
  induction n as [|n IH]; intros attempt e; cbn [post_loop]; cbv zeta.
  - split; [done|]. split; [cbn; lia|]. by intros [Ho|Ho].
  - destruct (answers attempt) as [posted lookup] eqn:Ea. destruct (post_attempt config input posted lookup) as [o|e'] eqn:Ep.
    + split; [done|]. split; [cbn; lia|]. cbn [PublishRun.outcome]. intros Ho.
      destruct (attempt_success _ _ _ _ _ Ep Ho) as (answer & dto & Hw & Hx). exists attempt, answer, dto. by rewrite Ea.
    + destruct (IH (S attempt) e') as (H1 & H2 & H3). cbn [PublishRun.sent PublishRun.outcome length replicate].
      split; [by f_equal|]. split; [lia|done].
Qed.

(** A publication sends nothing but the one text of the statement it signed, at
    most three times; and when it reports success, some answer of the service
    carried a statement of the configured seller, for this program, this receipt
    and the hash of the bytes served, which the seller's key signed. *)
Theorem publication_sound (config : SellerPublishConfig.t) (input : DeliveryPublishInput.t) (existing : Fetched)
    (now : Z) (answers : nat → Fetched * Fetched) :
  let run := publish config input existing now answers in
  (length run.(PublishRun.sent) <= 3)%nat ∧
  (∀ body, body ∈ run.(PublishRun.sent) → ∃ envelope,
    signDeliveryAttestation (statement config input (toISOString now)) config.(SellerPublishConfig.secretKey) = Ok envelope ∧
    body = JSON_stringify (envelope_value envelope)) ∧
  (successful run.(PublishRun.outcome) → ∃ answer dto,
    (answer = existing ∨ ∃ i, answer = (answers i).1 ∨ answer = (answers i).2) ∧
    answers_with answer dto ∧ stated config input dto).
Proof.
  unfold publish. destruct (verdict_of _ _ _) as [[]|] eqn:Ev; cbv zeta.
  - split; [cbn; lia|]. split; [intros b Hb; by apply not_elem_of_nil in Hb|]. intros _.
    apply verdict_reuse in Ev as (dto & at_ms & Hg & Hs). apply getExisting_some in Hg. exists existing, dto. auto.
  - split; [cbn; lia|]. split; [intros b Hb; by apply not_elem_of_nil in Hb|]. by intros [Ho|Ho].
  - destruct (signDeliveryAttestation _ _) as [envelope|] eqn:Es.
    + unfold postIdenticalEnvelope.
      destruct (post_loop_spec config input (JSON_stringify (envelope_value envelope)) answers POST_ATTEMPTS 0 "delivery_publish_failed")
        as (H1 & H2 & H3).
      split; [exact H2|]. split.
      * intros b Hb. rewrite H1 in Hb. apply elem_of_replicate in Hb as [-> _]. eauto.
      * intros Ho. destruct (H3 Ho) as (i & answer & dto & Hw & Hx). exists answer, dto. split; [right; by exists i|done].
    + split; [cbn; lia|]. split; [intros b Hb; by apply not_elem_of_nil in Hb|]. by intros [Ho|Ho].
  - split; [cbn; lia|]. split; [intros b Hb; by apply not_elem_of_nil in Hb|]. by intros [Ho|Ho].
Qed.

(** What the merchant states, signed with its key *)
Definition statement_payload (config : SellerPublishConfig.t) (input : DeliveryPublishInput.t) (now : Z) :
    DeliveryAttestationPayload.t :=
  DeliveryAttestationPayload.mk input.(DeliveryPublishInput.programId) input.(DeliveryPublishInput.receiptAddress)
    config.(SellerPublishConfig.seller) input.(DeliveryPublishInput.contentHash) (toISOString now).

(** The configured key is the seller's, and the input a statement can be made of. *)
Record publishable (config : SellerPublishConfig.t) (input : DeliveryPublishInput.t) (now : Z) (seed : bytes)
    (key : private_key) (public : bytes) : Prop := {
  pb_seed : ed25519Seed config.(SellerPublishConfig.secretKey) = Ok seed;
  pb_key : import_pkcs8 (pkcs8FromSeed seed) = Ok key;
  pb_public : jwk_x key = Some (bytesToBase64Url public);
  pb_seller : config.(SellerPublishConfig.seller) = toBase58 public;
  pb_program : config.(SellerPublishConfig.programId) = input.(DeliveryPublishInput.programId);
  pb_time : FIRST_DAY * MS_PER_DAY <= now < (LAST_DAY + 1) * MS_PER_DAY;
  pb_well_formed : well_formed (statement_payload config input now);
}.

Lemma publishable_signs config input now seed key public :
  publishable config input now seed key public →
  ∃ s, signDeliveryAttestation (statement config input (toISOString now)) config.(SellerPublishConfig.secretKey) = Ok s ∧
    s.(SignedDeliveryAttestation.payload) = statement_payload config input now.
Proof.
  intros []. unfold signDeliveryAttestation. fold (statement_payload config input now) in *.
  change (statement config input (toISOString now)) with (payload_value (statement_payload config input now)).
  rewrite (parseDeliveryPayload_complete _ _ pb_well_formed0 (payload_same _)). cbn [bind].
  rewrite canonical_ok by done. cbn [bind]. rewrite pb_seed0. cbn [bind]. rewrite pb_key0. cbn [bind]. by eexists.
Qed.

Context `{ES : !Ed25519Spec E}.

Lemma own_statement_reused config input now seed key public s at_ms :
  publishable config input now seed key public →
  signDeliveryAttestation (statement config input (toISOString now)) config.(SellerPublishConfig.secretKey) = Ok s →
  s.(SignedDeliveryAttestation.payload) = statement_payload config input now → now - at_ms <= 300000 →
  classifyExisting (envelope_value s) config input at_ms = Ok reuse.
Proof.
  intros Hp Hs Hpl Hnow. pose proof Hp as []. pose proof pb_well_formed0 as [W1 W2 W3 W4 W5].
  unfold classifyExisting.
  assert (envelopeFromPublicDto (envelope_value s) = Some (envelope_value s)) as -> by reflexivity.
  unfold defaultTrustedSellerMapping. cbn [default from_option id]. cbn in W1, W3. rewrite pb_program0.
  rewrite (address_valid (DeliveryPublishInput.programId input)) by done. cbn [bind traverse].
  rewrite (address_valid (SellerPublishConfig.seller config)) by done. cbn [bind].
  erewrite (signed_delivery_verifies _ _ _ _ _ s _ at_ms); [|exact pb_seed0|exact pb_key0|exact pb_public0| |exact Hs|].
  - cbn [DeliveryVerification.valid DeliveryVerification.payload]. rewrite Hpl. cbn. rewrite !bool_decide_true by done. done.
  - by rewrite Hpl.
  - rewrite Hpl. constructor; cbn; try done.
    + by constructor.
    + by left.
    + intros a. case_bool_decide; [done|]. by intros [= <-].
    + intros t n Ht [= <-]. change (Date_parse_iso (toISOString now) = Some t) in Ht.
      rewrite iso_roundtrip in Ht by done. injection Ht as <-. apply Z.ltb_ge. lia.
Qed.

(** The first publication for a receipt comes to its end: when the service has
    no statement (404) and answers the post with the statement it was sent, the
    publisher recognises its own statement and reports it published after a single
    post; and when the service answers the first lookup with it, nothing is sent. *)
Theorem own_statement_published (config : SellerPublishConfig.t) (input : DeliveryPublishInput.t) (now at_ms : Z)
    (seed : bytes) (key : private_key) (public : bytes) (answers : nat → Fetched * Fetched) (body : option value)
    (lookup : Fetched) :
  publishable config input now seed key public → now - at_ms <= 300000 →
  ∃ s, signDeliveryAttestation (statement config input (toISOString now)) config.(SellerPublishConfig.secretKey) = Ok s ∧
    (answers 0%nat = (Response 201 (Some (envelope_value s)) at_ms, lookup) →
     publish config input (Response 404 body at_ms) now answers
       = PublishRun.mk [JSON_stringify (envelope_value s)] Published) ∧
    publish config input (Response 200 (Some (envelope_value s)) at_ms) now answers = PublishRun.mk [] Reused.
Proof.
  intros Hp Hnow. destruct (publishable_signs _ _ _ _ _ _ Hp) as (s & Hs & Hpl).
  pose proof (own_statement_reused _ _ _ _ _ _ _ _ Hp Hs Hpl Hnow) as Hr. exists s. split; [exact Hs|]. split.
  - intros Ha. unfold publish. cbn [getExisting]. cbn [Z.eqb Pos.eqb orb verdict_of]. rewrite Hs.
    unfold postIdenticalEnvelope, POST_ATTEMPTS. cbn [post_loop]. rewrite Ha. cbn [post_attempt].
    unfold post_attempt. cbn. rewrite Hr. done.
  - unfold publish. cbn. rewrite Hr. done.
Qed.
End Publisher.

(** ** Witnesses *)

#[local] Existing Instance Base58.keys.
#[local] Existing Instance ModelEd25519.keys.
#[local] Existing Instance model_hash.
#[local] Existing Instance JsonCodec.codec.

Definition sample_publisher : SellerPublishConfig.t :=
  SellerPublishConfig.mk DEFAULT_PROGRAM_ID sample_seller (replicate 64 x07).
Definition sample_input : DeliveryPublishInput.t :=
  DeliveryPublishInput.mk sample_receipt (text (replicate 64 "a"%char)) [] DEFAULT_PROGRAM_ID.
Definition sample_now : Z := 1789445700000.

Lemma sample_publishable : publishable sample_publisher sample_input sample_now (replicate 32 x07) (replicate 32 x07) (replicate 32 x07).
Proof.
  constructor.
  1-5: vm_compute; reflexivity.
  - vm_compute. split; congruence.
  - constructor.
    1-3: apply sample_valid; vm_compute; reflexivity.
    + vm_compute. reflexivity.
    + exists sample_now. split; [vm_compute; split; congruence|reflexivity].
Qed.

Definition sample_answers : nat → Fetched * Fetched := λ _, (NoResponse, NoResponse).

Lemma own_statement_published_witness :
  publishable sample_publisher sample_input sample_now (replicate 32 x07) (replicate 32 x07) (replicate 32 x07) ∧
  ∃ s, publish sample_publisher sample_input (Response 200 (Some (envelope_value s)) sample_now) sample_now sample_answers
    = PublishRun.mk [] Reused.
Proof.
  split; [exact sample_publishable|].
  destruct (@own_statement_published Base58.keys Base58.keys_spec ModelEd25519.keys JsonCodec.codec ModelEd25519.keys_spec
    sample_publisher sample_input sample_now sample_now _ _ _ sample_answers None NoResponse sample_publishable
    ltac:(lia)) as (s & _ & _ & H).
  exists s. exact H.
Defined.

(** A node that never answers is asked three times. *)
Example silent_service :
  length (publish sample_publisher sample_input NoResponse sample_now sample_answers).(PublishRun.sent) = 3%nat.
Proof. vm_compute. reflexivity. Qed.

Definition sample_events : list DeliveryEvent :=
  [SendPaid 0 200 (VString "data") sample_receipt; SendPaid 1 200 (VString "data") sample_receipt;
   Finish 0; Finish 1; Close 0; Fulfilled sample_receipt; Forget sample_receipt].

Definition sample_later : list DeliveryEvent :=
  [SendPaid 2 200 (VString "data") sample_receipt; Finish 2].

Lemma statement_once_witness :
  ∃ s s', delivery_run DEFAULT_PROGRAM_ID true controller_init sample_events = Some s ∧
    delivery_run DEFAULT_PROGRAM_ID true s sample_later = Some s' ∧
    calls_for sample_receipt s' = calls_for sample_receipt s ∧ length (calls_for sample_receipt s) = 1%nat.
Proof.
  assert (∃ s, delivery_run DEFAULT_PROGRAM_ID true controller_init sample_events = Some s ∧
    bool_decide (sample_receipt ∈ s.(DeliveryController.succeeded)) = true ∧
    length (calls_for sample_receipt s) = 1%nat ∧
    is_Some (delivery_run DEFAULT_PROGRAM_ID true s sample_later)) as (s & Hs & Hin & Hl & s' & Hs').
  { eexists. split; [vm_compute; reflexivity|]. split; [vm_compute; reflexivity|]. split; [vm_compute; reflexivity|].
    eexists. vm_compute. reflexivity. }
  exists s, s'. split; [exact Hs|]. split; [exact Hs'|]. split; [|exact Hl].
  destruct (@statement_once JsonCodec.codec model_hash DEFAULT_PROGRAM_ID true sample_events sample_later s s' Hs Hs')
    as (_ & _ & Hc).
  exact (proj2 (Hc sample_receipt (bool_decide_eq_true_1 _ Hin))).
Defined.
