(* ===== verification/X402Challenge.v ===== *)
(** * Payment challenges (sdk/src/x402-challenge.ts, sdk/src/x402-adapt.ts)

    What an agent reads from an HTTP 402 answer: one or several documents, from
    two headers and the body, each a ChainPay challenge (x402/1.0) or a standard
    x402 v2 one.  A document states its protocol; every field that a payment is
    prepared from is checked to be canonical.  [new URL] is a parameter. *)
From Stdlib Require Import ZArith Lia Strings.Byte Strings.Ascii.
From stdpp Require Import base numbers sets strings list.
From S2P Require Import Prelude Bytes PublicKey Types Encoding Pda Program Accounts Decimal CardConstants Values SupportParse Utf8 CardCommitment Signed ReceiptReader MerchantProof TokenAccounts.

Definition CUSTOM_NETWORK : string := "solana-devnet".
Definition MAX_ACCEPTS : nat := 16.
Definition MAX_RESOURCE_CHARS : Z := 2048.
Definition MAX_NONCE_CHARS : Z := 128.

(** ** Errors *)

Inductive X402ProtocolCode : Type :=
| malformed | unsupported_network | unsupported_scheme | resource_mismatch | conflicting_protocols.

Module X402ProtocolError.
Record t : Type := mk { code : X402ProtocolCode; message : string }.
End X402ProtocolError.

(** A function that throws nothing but an [X402ProtocolError] *)
Inductive parsed (A : Type) : Type := Read (a : A) | Unreadable (e : X402ProtocolError.t).
Arguments Read {A} a.
Arguments Unreadable {A} e.

Definition pfail {A} (code : X402ProtocolCode) (message : string) : parsed A := Unreadable (X402ProtocolError.mk code message).

Definition pbind {A B} (r : parsed A) (k : A → parsed B) : parsed B :=
  match r with Read a => k a | Unreadable e => Unreadable e end.

Declare Scope challenge_scope.
Notation "'let*' x ':=' r 'in' k" := (pbind r (λ x, k))
  (at level 10, x pattern, r at level 100, k at level 200) : challenge_scope.
Notation "'pfail_if!' b 'as' c 'saying' m ';' k" := (if b then pfail c m else k)
  (at level 10, b at level 100, c at level 100, m at level 100, k at level 200) : challenge_scope.
Open Scope challenge_scope.

(** ** URLs *)

Module Url.
Record t : Type := mk {
  href : string; protocol : string; origin : string; pathname : string; hash : string; username : string; password : string;
}.
End Url.

(** [new URL(text)]; [None] when it throws *)
Class UrlParser : Type := new_URL : string → option Url.t.

(** ** Options *)

Module CustomChallengeOption.
Record t : Type := mk {
  mint : Address;
  recipient : Address;
  amount : string;
  resource : string;
  tokenProgram : option TokenProgram;
  nonce : option string;
  expiresAtSlot : option string;
}.
End CustomChallengeOption.

Module StandardV2Option.
Record t : Type := mk {
  amount : string;
  asset : Address;
  merchantOwner : Address;
  resource : string;
  maxTimeoutSeconds : option Z;
  feePayer : option Address;
}.
End StandardV2Option.

Inductive DetectedChallenge : Type :=
| custom (option : CustomChallengeOption.t) (envelope : list (string * value))
| standard_v2 (option : StandardV2Option.t) (envelope : list (string * value)).

Inductive ChallengeKind : Type := CustomKind | StandardV2Kind.

#[export] Instance challenge_kind_eq_dec : EqDecision ChallengeKind.
Proof. solve_decision. Defined.

Definition kind_of (c : DetectedChallenge) : ChallengeKind :=
  match c with custom _ _ => CustomKind | standard_v2 _ _ => StandardV2Kind end.

(** ** Fields *)

(** [/^[1-9]\d*$/], or with a single zero *)
Definition canonical_digits (allowZero : bool) (s : string) : bool :=
  match chars s with
  | [] => false
  | c :: rest => forallb is_digit (c :: rest) && (negb (bool_decide (c = "0"%char)) || (allowZero && bool_decide (rest = [])))
  end.

Definition canonicalU64String (v : value) (name : string) (allowZero : bool) : parsed string :=
  match v with
  | VString s =>
      pfail_if! negb (canonical_digits allowZero s) as malformed saying name +:+ " must be a canonical decimal u64 string";
      pfail_if! (MAX_U64 <? BigInt s) || negb (bool_decide (toString (BigInt s) = s)) as malformed
        saying name +:+ " must fit in an unsigned 64-bit integer";
      Read s
  | _ => pfail malformed (name +:+ " must be a canonical decimal u64 string")
  end.

(** A string that is not blank *)
Definition given_string (v : value) : option string :=
  match v with VString s => if bool_decide (trim s = "") then None else Some s | _ => None end.

Definition boundedString (v : value) (name : string) (max : Z) : parsed string :=
  match given_string v with
  | None => pfail malformed (name +:+ " is required")
  | Some s => pfail_if! max <? size s as malformed saying name +:+ " is too long"; Read s
  end.

(** Two names of one field, both given, must agree. *)
Definition disagree (a b : value) : bool := negb (undefined a) && negb (undefined b) && negb (strict_eq a b).

Definition read_program (v : value) : option TokenProgram :=
  match v with
  | VString s => if bool_decide (s = "spl-token") then Some spl_token
                 else if bool_decide (s = "token-2022") then Some token_2022 else None
  | _ => None
  end.

Section Challenge.
Context `{K : PublicKeys, C : Codec, U : UrlParser, H : MerchantHost, HS : Sha256}.

Definition canonicalAddress (v : value) (name : string) : parsed Address :=
  match given_string v with
  | None => pfail malformed (name +:+ " is required")
  | Some s =>
      match publicKey s with
      | Throw _ => pfail malformed (name +:+ " must be a canonical Solana address")
      | Ok k =>
          pfail_if! negb (bool_decide (toBase58 k = s)) as malformed saying name +:+ " must be a canonical Solana address";
          Read (toBase58 k)
      end
  end.

Definition resourceBinding (v : string) (expectedResource : option string) : parsed string :=
  let* resource := boundedString (VString v) "resource" MAX_RESOURCE_CHARS in
  match new_URL resource with
  | None => pfail malformed "resource must be an absolute URL"
  | Some url =>
      pfail_if! negb (bool_decide (url.(Url.username) = "")) || negb (bool_decide (url.(Url.password) = "")) as malformed
        saying "x402 resource URLs must not contain credentials";
      pfail_if! match given_text expectedResource with
                | Some expected => negb (bool_decide (url.(Url.href) = expected)) && negb (bool_decide (resource = expected))
                | None => false
                end as resource_mismatch saying "x402 challenge resource does not match the requested resource URL";
      Read resource
  end.

(** [undefined], or what [read] makes of the value *)
Definition if_given {A} (v : value) (read : value → parsed A) : parsed (option A) :=
  if undefined v then Read None else let* a := read v in Read (Some a).

(** ** The custom challenge *)

Definition customAmount (o : list (string * value)) : parsed string :=
  let amount := field o "amount" in
  let maxAmountRequired := field o "maxAmountRequired" in
  pfail_if! disagree amount maxAmountRequired as malformed
    saying "custom x402 amount and maxAmountRequired must be identical canonical strings";
  canonicalU64String (coalesce amount maxAmountRequired) "amount" false.

Definition parseCustomOption (o : list (string * value)) (expectedResource : option string) : parsed CustomChallengeOption.t :=
  pfail_if! negb (strict_eq (field o "scheme") (VString "exact")) as unsupported_scheme
    saying "Only the x402 exact scheme is enabled";
  pfail_if! negb (strict_eq (field o "network") (VString CUSTOM_NETWORK)) as unsupported_network
    saying "Custom ChainPay x402/1.0 requires network solana-devnet";
  pfail_if! disagree (field o "asset") (field o "mint") as malformed saying "custom x402 asset and mint must match";
  pfail_if! disagree (field o "payTo") (field o "recipient") as malformed saying "custom x402 payTo and recipient must match";
  let* resource := resourceBinding (match field o "resource" with VString s => s | _ => "" end) expectedResource in
  let* mint := canonicalAddress (coalesce (field o "asset") (field o "mint")) "asset" in
  let* recipient := canonicalAddress (coalesce (field o "payTo") (field o "recipient")) "payTo" in
  let* amount := customAmount o in
  let* tokenProgram := if_given (field o "tokenProgram") (λ v,
    match read_program v with Some p => Read p | None => pfail malformed "tokenProgram must be spl-token or token-2022" end) in
  let* nonce := if_given (field o "nonce") (λ v, let* s := boundedString v "nonce" MAX_NONCE_CHARS in Read (trim s)) in
  let* expiresAtSlot := if_given (field o "expiresAtSlot") (λ v, canonicalU64String v "expiresAtSlot" true) in
  Read (CustomChallengeOption.mk mint recipient amount resource tokenProgram nonce expiresAtSlot).

(** ** The standard challenge *)

Definition string_field (fields : list (string * value)) (name : string) : option string :=
  match field fields name with VString s => Some s | _ => None end.

Definition v2Resource (envelope o : list (string * value)) (expectedResource : option string) : parsed string :=
  let envelopeUrl := match field envelope "resource" with VObject r => string_field r "url" | _ => None end in
  let optionUrl := string_field o "resource" in
  pfail_if! match given_text envelopeUrl, given_text optionUrl with
            | Some a, Some b => negb (bool_decide (a = b))
            | _, _ => false
            end as resource_mismatch saying "x402 v2 resource.url does not match the selected requirement resource";
  match given_text (match envelopeUrl with Some u => Some u | None => optionUrl end) with
  | None => pfail malformed "standard x402 v2 resource.url is required"
  | Some resource => resourceBinding resource expectedResource
  end.

Definition read_timeout (v : value) : parsed Z :=
  match v with
  | VNumber (JInt n) =>
      pfail_if! (n <? 1) || (86400 <? n) as malformed saying "maxTimeoutSeconds must be an integer between 1 and 86400"; Read n
  | _ => pfail malformed "maxTimeoutSeconds must be an integer between 1 and 86400"
  end.

Definition parseV2Option (o : list (string * value)) (resource : string) : parsed StandardV2Option.t :=
  pfail_if! negb (strict_eq (field o "scheme") (VString "exact")) as unsupported_scheme
    saying "Only the x402 exact scheme is enabled";
  pfail_if! negb (strict_eq (field o "network") (VString SOLANA_DEVNET_CAIP2)) as unsupported_network
    saying "Standard x402 v2 Solana Devnet must use CAIP-2 " +:+ SOLANA_DEVNET_CAIP2;
  pfail_if! disagree (field o "maxAmountRequired") (field o "amount") as malformed
    saying "standard x402 v2 amount fields must be identical canonical strings";
  pfail_if! undefined (field o "amount") as malformed saying "standard x402 v2 amount is required";
  let extra := field o "extra" in
  pfail_if! negb (undefined extra) && negb (isPlainObject extra) as malformed saying "standard x402 v2 extra must be an object";
  let* amount := canonicalU64String (field o "amount") "amount" false in
  let* asset := canonicalAddress (field o "asset") "asset" in
  let* merchantOwner := canonicalAddress (field o "payTo") "payTo" in
  let* maxTimeoutSeconds := if_given (field o "maxTimeoutSeconds") read_timeout in
  let* feePayer := if_given (get extra "feePayer") (λ v, canonicalAddress v "extra.feePayer") in
  Read (StandardV2Option.mk amount asset merchantOwner resource maxTimeoutSeconds feePayer).

(** ** Documents *)

Definition acceptRecords (v : value) : parsed (list (list (string * value))) :=
  match v with
  | VArray items =>
      pfail_if! (length items =? 0)%nat || (MAX_ACCEPTS <? length items)%nat as malformed
        saying "x402 accepts must be a bounded non-empty array";
      match mapM plain_object items with
      | Some records => Read records
      | None => pfail malformed "x402 accepts entries must be objects"
      end
  | _ => pfail malformed "x402 accepts must be a bounded non-empty array"
  end.

Definition exact_on (network : string) (o : list (string * value)) : bool :=
  strict_eq (field o "network") (VString network) && strict_eq (field o "scheme") (VString "exact").

Definition names_network (o : list (string * value)) : bool :=
  match field o "network" with VString _ => true | _ => false end.

Definition selectCustomAccept (accepts : list (list (string * value))) : parsed (list (string * value)) :=
  match find (exact_on CUSTOM_NETWORK) accepts with
  | Some selected => Read selected
  | None =>
      pfail_if! existsb (λ o, strict_eq (field o "scheme") (VString "exact") && names_network o) accepts as unsupported_network
        saying "Custom ChainPay x402/1.0 requires network solana-devnet";
      pfail malformed "x402/1.0 response has no Solana Devnet exact payment option"
  end.

Definition selectV2Accept (accepts : list (list (string * value))) : parsed (list (string * value)) :=
  match find (exact_on SOLANA_DEVNET_CAIP2) accepts with
  | Some selected => Read selected
  | None =>
      pfail_if! existsb names_network accepts as unsupported_network
        saying "Standard x402 v2 Solana Devnet must use CAIP-2 " +:+ SOLANA_DEVNET_CAIP2;
      pfail malformed "standard x402 v2 response has no Solana Devnet exact payment option"
  end.

Definition is_array (v : value) : bool := match v with VArray _ => true | _ => false end.

Definition parseCustomEnvelope (envelope : list (string * value)) (expectedResource : option string) : parsed DetectedChallenge :=
  let* o := if is_array (field envelope "accepts")
            then let* accepts := acceptRecords (field envelope "accepts") in selectCustomAccept accepts
            else Read envelope in
  let* o := parseCustomOption o expectedResource in
  Read (custom o envelope).

Definition parseV2Envelope (envelope : list (string * value)) (expectedResource : option string) : parsed DetectedChallenge :=
  let* o := if is_array (field envelope "accepts")
            then let* accepts := acceptRecords (field envelope "accepts") in selectV2Accept accepts
            else match field envelope "accepted" with VObject accepted => Read accepted | _ => Read envelope end in
  let* resource := v2Resource envelope o expectedResource in
  let* o := parseV2Option o resource in
  Read (standard_v2 o envelope).

Definition parseBareOption (envelope : list (string * value)) (expectedResource : option string) : parsed DetectedChallenge :=
  let network := field envelope "network" in
  if strict_eq network (VString SOLANA_DEVNET_CAIP2) then parseV2Envelope envelope expectedResource
  else
    pfail_if! strict_eq network (VString CUSTOM_NETWORK) as malformed
      saying "Custom ChainPay x402 requires an explicit version " +:+ CUSTOM_X402_VERSION
        +:+ "; refusing to infer it from the network name";
    pfail_if! names_network envelope as unsupported_network saying "Unsupported x402 network";
    pfail malformed "x402 challenge is missing an explicit protocol version or network".

(** A document without [paymentRequired] *)
Definition parse_envelope (envelope : list (string * value)) (expectedResource : option string) : parsed DetectedChallenge :=
  if strict_eq (field envelope "x402Version") (VNumber (JInt 2)) then parseV2Envelope envelope expectedResource
  else if strict_eq (field envelope "version") (VString CUSTOM_X402_VERSION) then parseCustomEnvelope envelope expectedResource
  else
    pfail_if! negb (undefined (field envelope "x402Version")) as malformed saying "unsupported x402Version";
    pfail_if! negb (undefined (field envelope "version")) as malformed saying "unsupported x402 version";
    parseBareOption envelope expectedResource.

(** The inner loop is the lookup of [paymentRequired], so that the recursion is on a part of the document. *)
Fixpoint parsePaymentRequiredDocument (v : value) (expectedResource : option string) : parsed DetectedChallenge :=
  match v with
  | VObject envelope =>
      pfail_if! strict_eq (field envelope "x402Version") (VNumber (JInt 2))
          && strict_eq (field envelope "version") (VString CUSTOM_X402_VERSION) as malformed
        saying "x402 document must not mix x402Version 2 with custom x402/1.0";
      (fix look (fields : list (string * value)) :=
         match fields with
         | [] => parse_envelope envelope expectedResource
         | (k, inner) :: fields =>
             if bool_decide (k = "paymentRequired") then
               match inner with
               | VUndefined => parse_envelope envelope expectedResource
               | _ => parsePaymentRequiredDocument inner expectedResource
               end
             else look fields
         end) envelope
  | _ => pfail malformed "x402 payment requirements must be an object"
  end.

Fixpoint parse_documents (documents : list value) (expectedResource : option string) :
    list DetectedChallenge * list X402ProtocolError.t :=
  match documents with
  | [] => ([], [])
  | d :: documents =>
      let '(read, errors) := parse_documents documents expectedResource in
      match parsePaymentRequiredDocument d expectedResource with
      | Read c => (c :: read, errors)
      | Unreadable e => (read, e :: errors)
      end
  end.

Definition detectAndParsePaymentRequired (documents : list value) (expectedResource : option string) : parsed DetectedChallenge :=
  pfail_if! (length documents =? 0)%nat as malformed saying "HTTP 402 response did not include payment requirements";
  match parse_documents documents expectedResource with
  | ([], errors) =>
      Unreadable (default (X402ProtocolError.mk malformed "HTTP 402 response did not include payment requirements") (head errors))
  | (first :: read, _) =>
      pfail_if! existsb (λ c, negb (bool_decide (kind_of c = kind_of first))) read as conflicting_protocols
        saying "PAYMENT-REQUIRED sources disagree on custom vs standard v2";
      Read first
  end.

(** ** The answer *)

Definition NEITHER : string := "x402 payment-required header is neither JSON nor base64 JSON".

Definition decodePaymentRequiredWire (header : string) : parsed value :=
  pfail_if! (size header =? 0) || (MAX_HEADER_CHARS <? size header) as malformed
    saying "x402 payment-required payload is missing or too large";
  match JSON_parse header with
  | Some v => Read v
  | None =>
      let decoded := text (utf8_lossy (buffer_base64 header)) in
      pfail_if! bool_decide (decoded = "") || (MAX_DECODED_CHARS <? size decoded) as malformed
        saying "x402 payment-required payload is too large";
      match JSON_parse decoded with Some v => Read v | None => pfail malformed NEITHER end
  end.

(** The headers in order, each text once: [seen] are the texts of the documents so far. *)
Fixpoint header_documents (headers : list (option string)) (seen : list string) : parsed (list value * list string) :=
  match headers with
  | [] => Read ([], seen)
  | h :: headers =>
      match given_text h with
      | None => header_documents headers seen
      | Some header =>
          let* document := decodePaymentRequiredWire header in
          let key := JSON_stringify document in
          if bool_decide (key ∈ seen) then header_documents headers seen
          else let* (documents, seen) := header_documents headers (key :: seen) in Read (document :: documents, seen)
      end
  end.

(** [body] is [body.parsed], [VUndefined] without one. *)
Definition paymentRequiredDocumentsFromResponse (payment_required x_payment_required : option string) (body : value) :
    parsed (list value) :=
  let* (documents, seen) := header_documents [payment_required; x_payment_required] [] in
  Read (documents ++ (if undefined body || bool_decide (JSON_stringify body ∈ seen) then [] else [body])).

Definition detectPaymentChallenge (payment_required x_payment_required : option string) (body : value)
    (expectedResource : option string) : parsed DetectedChallenge :=
  let* documents := paymentRequiredDocumentsFromResponse payment_required x_payment_required body in
  detectAndParsePaymentRequired documents expectedResource.

Definition customReceiptProofDocument (signature receiptPDA : string) : value :=
  VObject [("version", VString CUSTOM_X402_VERSION); ("scheme", VString "exact"); ("network", VString CUSTOM_NETWORK);
    ("payload", VObject [("signature", VString signature); ("receiptPDA", VString receiptPDA)])].

(** ** Preparing a payment (sdk/src/x402-adapt.ts) *)

Record X402PrepareFields : Type := prepare_fields {
  fields_mint : Address;
  fields_recipient : Address;
  fields_amount : string;
  fields_resource : string;
  fields_tokenProgram : TokenProgram;
  fields_references : X402PaymentReferences.t;
  fields_merchantOwner : option Address;
}.

Definition standardV2RecipientTokenAccount (o : StandardV2Option.t) (tokenProgram : TokenProgram) : result Address :=
  deriveAssociatedTokenAddress o.(StandardV2Option.merchantOwner) o.(StandardV2Option.asset) tokenProgram.

Definition customChallengeToPrepareFields (o : CustomChallengeOption.t) (tokenProgram : TokenProgram) : X402PrepareFields :=
  prepare_fields o.(CustomChallengeOption.mint) o.(CustomChallengeOption.recipient) o.(CustomChallengeOption.amount)
    o.(CustomChallengeOption.resource) tokenProgram
    (deriveX402PaymentReferences (X402ExactPayment.mk o.(CustomChallengeOption.mint) o.(CustomChallengeOption.recipient)
       o.(CustomChallengeOption.amount) o.(CustomChallengeOption.resource) tokenProgram
       (given_text o.(CustomChallengeOption.nonce)) (given_text o.(CustomChallengeOption.expiresAtSlot))))
    None.

Definition standardV2ChallengeToPrepareFields (o : StandardV2Option.t) (tokenProgram : TokenProgram) : result X402PrepareFields :=
  let! recipient := standardV2RecipientTokenAccount o tokenProgram in
  Ok (prepare_fields o.(StandardV2Option.asset) recipient o.(StandardV2Option.amount) o.(StandardV2Option.resource) tokenProgram
    (deriveX402PaymentReferences (X402ExactPayment.mk o.(StandardV2Option.asset) recipient o.(StandardV2Option.amount)
       o.(StandardV2Option.resource) tokenProgram None None))
    (Some o.(StandardV2Option.merchantOwner))).

Definition detectedChallengeToPrepareFields (detected : DetectedChallenge) (tokenProgram : TokenProgram) : result X402PrepareFields :=
  match detected with
  | custom o _ => Ok (customChallengeToPrepareFields o tokenProgram)
  | standard_v2 o _ => standardV2ChallengeToPrepareFields o tokenProgram
  end.

Definition toPreparePaymentInput (mandate : Address) (fields : X402PrepareFields) : result PaymentRequest.t :=
  let r := fields.(fields_references) in
  let! invoiceHash := hexToBytes r.(X402PaymentReferences.invoiceHash) "invoiceHash" in
  let! paymentId := hexToBytes r.(X402PaymentReferences.paymentId) "paymentId" in
  let! signatureReference := hexToBytes r.(X402PaymentReferences.signatureReference) "signatureReference" in
  let! amount := string_bigint fields.(fields_amount) in
  Ok (PaymentRequest.mk mandate invoiceHash paymentId signatureReference fields.(fields_mint) fields.(fields_recipient)
    amount (Some fields.(fields_tokenProgram))).
End Challenge.
