(* ===== verification/MerchantSetup.v ===== *)
(** * The merchant's configuration (demo-merchant/src/config.ts, bootstrap.ts, mandate-requests.ts)

    What the merchant reads from its environment before it serves anything, the
    402 challenge it then answers with, its seller key, the check of the account
    it is paid to, and the mandate requests it signs.  The port, the listening
    interface and the texts of the page are left out; key pairs are a parameter. *)
From Stdlib Require Import ZArith Lia Strings.Byte Strings.Ascii.
From stdpp Require Import base numbers sets strings list.
From S2P Require Import Prelude Bytes PublicKey Types Encoding Pda Program Accounts Decimal Base64 CardConstants CardPda Values SupportParse Utf8 CardCommitment Signed MandateRequest ReceiptReader MerchantProof TokenAccounts X402Challenge.

Inductive ChallengeShape : Type := shape_custom | shape_v2.

#[export] Instance shape_eq_dec : EqDecision ChallengeShape.
Proof. solve_decision. Defined.

(** The configuration: [base] holds the fields the checks of a proof use. *)
Module LoadedConfig.
Record t : Type := mk {
  base : MerchantConfig.t;
  merchantOwner : option Address;
  rpcUrl : string;
  challengeShape : ChallengeShape;
}.
End LoadedConfig.

Module SellerPublishConfig.
Record t : Type := mk { backendUrl : string; programId : Address; seller : Address; secretKey : bytes }.
End SellerPublishConfig.

(** [process.env] *)
Definition Env : Type := string → option string.

(** [env.NAME?.trim()], when it is not empty *)
Definition env_text (env : Env) (name : string) : option string := given_text (trim <$> env name).

Definition requiredEnvironment (env : Env) (name : string) : result string :=
  match env_text env name with Some v => Ok v | None => Throw (name +:+ " is required") end.

Definition canonicalAmount (value name : string) : result string :=
  throw_if! negb (canonical_digits false value) with name +:+ " must be a canonical positive unsigned 64-bit integer string";
  throw_if! MAX_U64 <? BigInt value with name +:+ " must be a canonical positive unsigned 64-bit integer string";
  Ok value.

(** [.replace(/\/$/, "")] *)
Definition drop_slash (s : string) : string :=
  match reverse (chars s) with
  | c :: rest => if bool_decide (c = "/"%char) then text (reverse rest) else s
  | [] => s
  end.

Definition to_upper (c : ascii) : ascii :=
  let n := N_of_ascii c in if ((97 <=? n) && (n <=? 122))%N then ascii_of_N (n - 32) else c.

(** [Keypair.fromSeed] and [Keypair.fromSecretKey]: the public key, unless the secret is refused *)
Class Keypairs : Type := {
  fromSeed : bytes → result bytes;
  fromSecretKey : bytes → result bytes;
}.

(** The answer of [GET /data] (app.ts) to a request without a payment header: status 402, the two headers and the body *)
Module ChallengeAnswer.
Record t : Type := mk { x_payment_required : string; payment_required : option string; body : value }.
End ChallengeAnswer.

Module RecipientAccountInfo.
Record t : Type := mk { owner : Address; data : bytes }.
End RecipientAccountInfo.

Module MandateRequestSettings.
Record t : Type := mk {
  requester : Address;
  secretKey : bytes;
  requesterName : string;
  appUrl : string;
  description : string;
  maxPerPayment : string;
  total : string;
  days : Z;
  decimals : option Z;
}.
End MandateRequestSettings.

Module CreatedMandateRequest.
Record t : Type := mk { link : string; request : SignedMandateRequest.t }.
End CreatedMandateRequest.

Section Setup.
Context `{K : PublicKeys, C : Codec, U : UrlParser, H : MerchantHost, HS : Sha256, E : Ed25519, KP : Keypairs}.

Definition assertSafeHttpUrl (value name : string) : result Url.t :=
  match new_URL value with
  | None => Throw (name +:+ " must be an absolute http(s) URL")
  | Some url =>
      throw_if! negb (bool_decide (url.(Url.username) = "")) || negb (bool_decide (url.(Url.password) = ""))
        with name +:+ " must not contain credentials";
      throw_if! negb (bool_decide (url.(Url.hash) = "")) with name +:+ " must not contain a fragment";
      throw_if! negb (bool_decide (url.(Url.protocol) = "http:")) && negb (bool_decide (url.(Url.protocol) = "https:"))
        with name +:+ " must be an absolute http(s) URL";
      Ok url
  end.

(** [publicKey(text).toBase58()] *)
Definition canonical_key (s : string) : result Address := let! k := publicKey s in Ok (toBase58 k).

Definition standardV2MerchantOwner (env : Env) (recipient mint : Address) (tokenProgram : TokenProgram) (allowedAgent : Address) :
    result Address :=
  match env_text env "CHAINPAY_X402_MERCHANT_OWNER" with
  | None => Throw ("CHAINPAY_X402_MERCHANT_OWNER is required when CHAINPAY_X402_CHALLENGE_SHAPE=v2: "
                   +:+ "set it to the merchant wallet that owns CHAINPAY_X402_RECIPIENT_TOKEN_ACCOUNT")
  | Some configured =>
      let! owner := canonical_key configured in
      throw_if! bool_decide (owner = allowedAgent)
        with "CHAINPAY_X402_MERCHANT_OWNER must be the merchant's wallet, not CHAINPAY_X402_ALLOWED_AGENT";
      let! associated := deriveAssociatedTokenAddress owner mint tokenProgram in
      throw_if! negb (bool_decide (associated = recipient))
        with "CHAINPAY_X402_RECIPIENT_TOKEN_ACCOUNT must be the associated token account of "
             +:+ "CHAINPAY_X402_MERCHANT_OWNER for CHAINPAY_X402_MINT (expected " +:+ associated +:+ ")";
      Ok owner
  end.

Definition read_shape (s : string) : result ChallengeShape :=
  if bool_decide (s = "custom") then Ok shape_custom
  else if bool_decide (s = "v2") then Ok shape_v2
  else Throw "CHAINPAY_X402_CHALLENGE_SHAPE must be custom or v2".

(** [port] is [PORT], a TCP port. *)
Definition loadMerchantConfig (env : Env) (port : Z) : result LoadedConfig.t :=
  let! url := assertSafeHttpUrl (default ("http://127.0.0.1:" +:+ toString port +:+ "/data") (env_text env "CHAINPAY_X402_RESOURCE_URL"))
                "CHAINPAY_X402_RESOURCE_URL" in
  let resource := url.(Url.href) in
  let! mint := canonical_key (default "4zMMC9srt5Ri5X14GAgXhaHii3GnPAEERYPJgZJDncDU" (env_text env "CHAINPAY_X402_MINT")) in
  let! recipient := (let! s := requiredEnvironment env "CHAINPAY_X402_RECIPIENT_TOKEN_ACCOUNT" in canonical_key s) in
  let! allowedAgent := (let! s := requiredEnvironment env "CHAINPAY_X402_ALLOWED_AGENT" in canonical_key s) in
  let! amount := canonicalAmount (default "100000" (env_text env "CHAINPAY_X402_AMOUNT")) "CHAINPAY_X402_AMOUNT" in
  let! tokenProgram := match read_program (VString (default "spl-token" (env_text env "CHAINPAY_X402_TOKEN_PROGRAM"))) with
                       | Some p => Ok p
                       | None => Throw "CHAINPAY_X402_TOKEN_PROGRAM must be spl-token or token-2022"
                       end in
  let! programId := canonical_key (default "3H9TV1EPR2BAQgVmcMqpufiZKPXbAMnjHp13LA9Lndv4" (env_text env "CHAINPAY_PROGRAM_ID")) in
  let! rpc := assertSafeHttpUrl (default "https://api.devnet.solana.com" (env_text env "CHAINPAY_RPC_URL")) "CHAINPAY_RPC_URL" in
  let nonce := env_text env "CHAINPAY_X402_NONCE" in
  throw_if! match nonce with Some n => MAX_NONCE_CHARS <? size n | None => false end with "CHAINPAY_X402_NONCE is too long";
  let! shape := read_shape (default "custom" (env_text env "CHAINPAY_X402_CHALLENGE_SHAPE")) in
  let! merchantOwner := match shape with
                        | shape_v2 => let! o := standardV2MerchantOwner env recipient mint tokenProgram allowedAgent in Ok (Some o)
                        | shape_custom => Ok None
                        end in
  Ok (LoadedConfig.mk (MerchantConfig.mk resource mint recipient amount tokenProgram allowedAgent programId nonce)
        merchantOwner rpc.(Url.href) shape).

(** ** The challenge *)

Definition customPaymentRequired (config : LoadedConfig.t) : list (string * value) :=
  let c := config.(LoadedConfig.base) in
  [("version", VString "x402/1.0");
   ("accepts", VArray [VObject ([("scheme", VString "exact"); ("network", VString "solana-devnet");
      ("maxAmountRequired", VString c.(MerchantConfig.amount)); ("asset", VString c.(MerchantConfig.mint));
      ("payTo", VString c.(MerchantConfig.recipient)); ("resource", VString c.(MerchantConfig.resource));
      ("tokenProgram", VString (program_name c.(MerchantConfig.tokenProgram)))]
      ++ Signed.present "nonce" (given_text c.(MerchantConfig.nonce)))])].

Definition standardV2PaymentRequired (config : LoadedConfig.t) : result (list (string * value)) :=
  let c := config.(LoadedConfig.base) in
  match given_text config.(LoadedConfig.merchantOwner) with
  | None => Throw "A v2 challenge needs an explicit merchant owner"
  | Some merchantOwner =>
      Ok [("x402Version", VNumber (JInt 2));
          ("resource", VObject [("url", VString c.(MerchantConfig.resource)); ("description", VString "ChainPay demo merchant resource");
             ("mimeType", VString "application/json")]);
          ("accepts", VArray [VObject [("scheme", VString "exact"); ("network", VString "solana:EtWTRABZaYq6iMfeYKouRu166VU2xqa1");
             ("amount", VString c.(MerchantConfig.amount)); ("asset", VString c.(MerchantConfig.mint));
             ("payTo", VString merchantOwner); ("maxTimeoutSeconds", VNumber (JInt 300));
             ("extra", VObject [("feePayer", VString merchantOwner)])]])]
  end.

Definition paymentRequiredForConfig (config : LoadedConfig.t) : result (list (string * value)) :=
  match config.(LoadedConfig.challengeShape) with
  | shape_v2 => standardV2PaymentRequired config
  | shape_custom => Ok (customPaymentRequired config)
  end.

Definition sanitizedResourceLabel (resource : string) : result string :=
  match new_URL resource with
  | Some url => Ok (url.(Url.origin) +:+ url.(Url.pathname))
  | None => Throw "Invalid URL"
  end.

Definition challenge_answer (challenge : list (string * value)) : ChallengeAnswer.t :=
  let encoded := btoa (text_encode (JSON_stringify (VObject challenge))) in
  ChallengeAnswer.mk encoded
    (if strict_eq (field challenge "x402Version") (VNumber (JInt 2)) then Some encoded else None) (VObject challenge).

(** ** The live account (bootstrap.ts) *)

Definition RECIPIENT_VARIABLE : string := "CHAINPAY_X402_RECIPIENT_TOKEN_ACCOUNT".

Definition assertV2RecipientAccount (config : LoadedConfig.t) (account : option RecipientAccountInfo.t) : result unit :=
  let c := config.(LoadedConfig.base) in
  match config.(LoadedConfig.challengeShape) with
  | shape_custom => Ok tt
  | shape_v2 =>
      match account with
      | None => Throw (RECIPIENT_VARIABLE +:+ " does not exist yet: create the merchant owner's associated token account for the mint first")
      | Some account =>
          throw_if! negb (bool_decide (account.(RecipientAccountInfo.owner) = tokenProgramAddress c.(MerchantConfig.tokenProgram)))
            with RECIPIENT_VARIABLE +:+ " is not held by the " +:+ program_name c.(MerchantConfig.tokenProgram) +:+ " token program";
          match readTokenAccountFields account.(RecipientAccountInfo.data) with
          | None => Throw (RECIPIENT_VARIABLE +:+ " is not a token account")
          | Some fields =>
              throw_if! negb (bool_decide (fields.(TokenAccountFields.mint) = c.(MerchantConfig.mint)))
                with RECIPIENT_VARIABLE +:+ " holds a different mint than CHAINPAY_X402_MINT";
              throw_if! negb (bool_decide (Some fields.(TokenAccountFields.owner) = config.(LoadedConfig.merchantOwner)))
                with RECIPIENT_VARIABLE +:+ " is owned by " +:+ fields.(TokenAccountFields.owner) +:+ ", not CHAINPAY_X402_MERCHANT_OWNER";
              Ok tt
          end
      end
  end.

(** ** The seller key *)

Definition invalid_seller_key {A} : result A := Throw "CHAINPAY_SELLER_SECRET_KEY is invalid".

(** [Number.isInteger(value) && value >= 0 && value <= 255] *)
Definition byte_of_value (v : value) : option byte :=
  match v with VNumber (JInt n) => if (0 <=? n) && (n <=? 255) then Some (byte_of n) else None | _ => None end.

Definition is_hex_char (c : ascii) : bool := match hex_value (lower c) with Some _ => true | None => false end.

Definition parseSellerSecretKey (encoded : string) : result bytes :=
  match chars encoded with
  | "["%char :: _ =>
      match JSON_parse encoded with
      | Some (VArray items) => match mapM byte_of_value items with Some bs => Ok bs | None => invalid_seller_key end
      | _ => invalid_seller_key
      end
  | cs =>
      if forallb is_hex_char cs && ((length cs =? 64)%nat || (length cs =? 128)%nat)
      then Ok (default [] (hex_pairs (text (map lower cs))))
      else Ok (buffer_base64 encoded)
  end.

Definition sellerIdentity (secret : bytes) : result (bytes * Address) :=
  let seller (r : result bytes) :=
    match r with Ok k => Ok (secret, toBase58 k) | Throw _ => invalid_seller_key end in
  if (length secret =? 32)%nat then seller (fromSeed secret)
  else if (length secret =? 64)%nat then seller (fromSecretKey secret)
  else invalid_seller_key.

Definition sellerPublishConfigFromSecret (backendUrl programId : string) (secretKey : bytes) (trustedSeller : option string) :
    result SellerPublishConfig.t :=
  let! (secret, seller) := sellerIdentity secretKey in
  let! _ := match given_text trustedSeller with
            | None => Ok tt
            | Some trusted =>
                let! expected := canonical_key trusted in
                throw_if! negb (bool_decide (expected = seller))
                  with "CHAINPAY_TRUSTED_SELLER does not match the configured seller signing key";
                Ok tt
            end in
  let! programId := canonical_key programId in
  Ok (SellerPublishConfig.mk (drop_slash backendUrl) programId seller secret).

Definition loadSellerPublishConfig (env : Env) (programId : string) : result (option SellerPublishConfig.t) :=
  match env_text env "CHAINPAY_SELLER_SECRET_KEY", env_text env "CHAINPAY_BACKEND_URL" with
  | Some encoded, Some backend =>
      let! url := assertSafeHttpUrl backend "CHAINPAY_BACKEND_URL" in
      let! secretKey := parseSellerSecretKey encoded in
      let! config := sellerPublishConfigFromSecret (drop_slash url.(Url.href)) programId secretKey (env_text env "CHAINPAY_TRUSTED_SELLER") in
      Ok (Some config)
  | _, _ => Ok None
  end.

(** ** Mandate requests (mandate-requests.ts) *)

(** [positiveU64]; and the total, of ten payments unless that does not fit *)
Definition positiveU64 (value name : string) : result string :=
  throw_if! negb (canonical_digits false value) || (MAX_U64 <? BigInt value) with name +:+ " must be a positive base-unit integer string";
  Ok value.

Definition default_total (maxPerPayment : string) : string :=
  if MAX_U64 <? BigInt maxPerPayment * 10 then maxPerPayment else toString (BigInt maxPerPayment * 10).

Definition poNumber (random : bytes) : string := "PO-" +:+ text (map to_upper (chars (bytesToHex random))).

(** [slot] and [decimals] are the answers of the node, when it gave any; [random] and [entropy] are random bytes. *)
Definition createMandateRequest (settings : MandateRequestSettings.t) (config : LoadedConfig.t) (slot : option Z)
    (mintDecimals : option number) (po : option string) (random entropy : bytes) : result CreatedMandateRequest.t :=
  let c := config.(LoadedConfig.base) in
  let decimals := match settings.(MandateRequestSettings.decimals) with Some d => Some (JInt d) | None => mintDecimals end in
  match slot, decimals with
  | Some currentSlot, Some decimals =>
      let! payload := buildMandateRequestPayload (BuildMandateRequestInput.mk vendor None settings.(MandateRequestSettings.requester)
          (Some settings.(MandateRequestSettings.requesterName)) None c.(MerchantConfig.mint) c.(MerchantConfig.tokenProgram)
          (Some c.(MerchantConfig.recipient)) (Some settings.(MandateRequestSettings.maxPerPayment))
          settings.(MandateRequestSettings.total) decimals currentSlot (JInt settings.(MandateRequestSettings.days)) None
          settings.(MandateRequestSettings.description) (Some (default (poNumber random) po)) None) entropy in
      let! request := signMandateRequest (orderedPayload payload) settings.(MandateRequestSettings.secretKey) in
      let! link := encodeMandateRequestLink request settings.(MandateRequestSettings.appUrl) in
      Ok (CreatedMandateRequest.mk link request)
  | _, _ => Throw "Could not read the current slot or the token from Solana. Try again."
  end.
End Setup.
