(* ===== verification/X402ChallengeProps.v ===== *)
(** * Theorems on payment challenges

    What an agent takes from a 402 answer is canonical and for the resource it
    asked for; and the challenge of a configured merchant, read back by the SDK,
    prepares exactly the payment the merchant checks proofs against. *)
From Stdlib Require Import ZArith Lia Strings.Byte Strings.Ascii.
From stdpp Require Import base numbers sets strings list.
From S2P Require Import Prelude Bytes PublicKey Types Encoding Pda Program Accounts TokenAccounts CardConstants Decimal Base64 CardPda Utf8 CardCommitment Values SupportParse Signed MandateRequest MandateLinks ReceiptReader MerchantProof MerchantProofProps X402Challenge MerchantSetup.

(** ** Readings *)

Lemma pbind_read {A B} (r : parsed A) (k : A → parsed B) b :
  pbind r k = Read b ↔ ∃ a, r = Read a ∧ k a = Read b.
Proof. destruct r; cbn; naive_solver. Qed.

Lemma pfail_if_read {A} (b : bool) c m (k : parsed A) a : (if b then pfail c m else k) = Read a ↔ b = false ∧ k = Read a.
Proof. destruct b; cbn; naive_solver. Qed.

Lemma read_inj {A} (a b : A) : Read a = Read b → a = b.
Proof. naive_solver. Qed.

(** Peels the checks of a parse that returned. *)
Ltac read_inv H :=
  lazymatch type of H with
  | pbind ?r _ = Read _ =>
      let a := fresh "a" in let E := fresh "E" in
      apply pbind_read in H; destruct H as (a & E & H); cbv beta in H; read_inv H
  | (if _ then pfail _ _ else _) = Read _ =>
      let G := fresh "G" in apply pfail_if_read in H; destruct H as [G H]; read_inv H
  | Read _ = Read _ => apply read_inj in H
  | _ => idtac
  end.

(** ** Texts *)

Lemma trim_end_idem s : trim_end (trim_end s) = trim_end s.
Proof.
  induction s as [|c s IH]; [done|]. cbn [trim_end]. destruct (trim_end s) as [|d r] eqn:E.
  - destruct (is_space c) eqn:Ec; [done|]. cbn. by rewrite Ec.
  - change (match trim_end (String.String d r) with EmptyString => if is_space c then EmptyString else String.String c EmptyString
            | rest' => String.String c rest' end = String.String c (String.String d r)). by rewrite IH.
Qed.

Lemma trim_idem s : trim (trim s) = trim s.
Proof.
  destruct (trim s) as [|c rest] eqn:E; [done|]. unfold trim at 1.
  rewrite (trim_start_id _ c rest) by (done || by eapply trim_head). rewrite <- E. unfold trim. apply trim_end_idem.
Qed.

Lemma given_text_some s t : given_text s = Some t ↔ s = Some t ∧ t ≠ "".
Proof. unfold given_text. destruct s as [u|]; [|naive_solver]. case_bool_decide; naive_solver. Qed.

Lemma env_text_ok env name t : env_text env name = Some t → t ≠ "" ∧ trim t = t.
Proof.
  unfold env_text. intros [(u & _ & ->)%fmap_Some Hne]%given_text_some. split; [done|apply trim_idem].
Qed.

Lemma canonical_digits_value z s : canonical_digits z s = true → 0 ≤ BigInt s ∧ toString (BigInt s) = s.
Proof.
  intros H. assert (decimal_pattern (String.length s) s = true) as Hd.
  { unfold canonical_digits, decimal_pattern, decimal_chars in *. destruct (chars s) as [|c rest] eqn:E; [done|].
    apply andb_true_iff in H as [[Hc Hr]%andb_true_iff Hz].
    assert (length rest ≤ String.length s)%nat as Hl.
    { rewrite <- (text_chars s), E. unfold text. cbn. clear. induction rest; cbn; lia. }
    case_bool_decide; cbn in Hz.
    - apply andb_true_iff in Hz as [_ Hz]. apply bool_decide_eq_true in Hz. by subst.
    - change (forallb is_digit rest = true) in Hr. rewrite Hc, Hr. by apply Nat.leb_le. }
  apply decimal_pattern_iff in Hd as (n & Hn & ->). rewrite BigInt_text by lia. split; [lia|].
  unfold toString. destruct (n <? 0) eqn:E; [apply Z.ltb_lt in E; lia|done].
Qed.

Lemma canonical_digits_positive s : canonical_digits false s = true → 0 < BigInt s.
Proof.
  intros H. destruct (canonical_digits_value _ _ H) as [H0 Hs].
  assert (BigInt s ≠ 0) as Hne; [|lia]. intros E. rewrite E in Hs. rewrite <- Hs in H. done.
Qed.

(** A positive 64-bit amount, written canonically *)
Definition amount_ok (s : string) : Prop := ∃ n, 0 < n ≤ MAX_U64 ∧ s = toString n.

Lemma canonicalU64String_ok v name z s :
  canonicalU64String v name z = Read s ↔ v = VString s ∧ canonical_digits z s = true ∧ BigInt s ≤ MAX_U64.
Proof.
  unfold canonicalU64String. split.
  - destruct v as [| | | | |t| |]; try done. intros H. read_inv H. subst t. split; [done|].
    apply negb_false_iff in G. apply orb_false_iff in G0 as [G0 _]. apply Z.ltb_ge in G0. done.
  - intros (-> & Hd & Hm). rewrite Hd. cbn. destruct (canonical_digits_value _ _ Hd) as [_ ->].
    rewrite bool_decide_true by done. apply Z.ltb_ge in Hm. by rewrite Hm.
Qed.

Lemma read_amount_ok v name s : canonicalU64String v name false = Read s → amount_ok s.
Proof.
  intros (_ & Hd & Hm)%canonicalU64String_ok. exists (BigInt s). pose proof (canonical_digits_positive _ Hd).
  split; [lia|]. symmetry. by apply (canonical_digits_value false).
Qed.

Lemma given_string_ok v s : given_string v = Some s ↔ v = VString s ∧ trim s ≠ "".
Proof. unfold given_string. destruct v; try naive_solver. case_bool_decide; naive_solver. Qed.

Section Props.
Context `{K : PublicKeys, KS : !PublicKeysSpec K, C : Codec, U : UrlParser, H : MerchantHost, HS : Sha256}.

(** ** What is read is canonical *)

Definition address_ok (s : Address) : Prop := ∃ k, length k = 32%nat ∧ s = toBase58 k.

Lemma canonicalAddress_read v name s : canonicalAddress v name = Read s → v = VString s ∧ address_ok s.
Proof.
  unfold canonicalAddress. destruct (given_string v) as [t|] eqn:E; [|done]. apply given_string_ok in E as [-> _].
  destruct (publicKey t) as [k|] eqn:Ek; [|done]. intros Hr. read_inv Hr.
  apply publicKey_ok in Ek as [Hl Ht]. subst. split; [done|by exists k].
Qed.

(** The URL the agent asked for *)
Definition for_resource (expected : option string) (resource : string) : Prop :=
  ∃ url, new_URL resource = Some url ∧ url.(Url.username) = "" ∧ url.(Url.password) = "" ∧
    ∀ e, given_text expected = Some e → url.(Url.href) = e ∨ resource = e.

Lemma resourceBinding_read v expected r : resourceBinding v expected = Read r → r = v ∧ for_resource expected r.
Proof.
  unfold resourceBinding. intros Hr. read_inv Hr. unfold boundedString in E.
  destruct (given_string _) as [s|] eqn:Es; [|done]. read_inv E. subst. apply given_string_ok in Es as [[= ->] _].
  destruct (new_URL a) as [url|] eqn:Eu; [|done]. read_inv Hr. subst. split; [done|]. exists url.
  apply orb_false_iff in G0 as [Gu Gp]. apply negb_false_iff, bool_decide_eq_true in Gu, Gp. split_and!; try done.
  intros e He. rewrite He in G1. apply andb_false_iff in G1 as [G1|G1]; apply negb_false_iff, bool_decide_eq_true in G1; auto.
Qed.

(** What a payment is prepared from *)
Definition challenge_ok (expected : option string) (c : DetectedChallenge) : Prop :=
  match c with
  | custom o _ =>
      address_ok o.(CustomChallengeOption.mint) ∧ address_ok o.(CustomChallengeOption.recipient)
      ∧ amount_ok o.(CustomChallengeOption.amount) ∧ for_resource expected o.(CustomChallengeOption.resource)
  | standard_v2 o _ =>
      address_ok o.(StandardV2Option.asset) ∧ address_ok o.(StandardV2Option.merchantOwner)
      ∧ amount_ok o.(StandardV2Option.amount) ∧ for_resource expected o.(StandardV2Option.resource)
  end.

Lemma custom_envelope_ok fields expected c : parseCustomEnvelope fields expected = Read c → challenge_ok expected c.
Proof.
  unfold parseCustomEnvelope. intros Hr. apply pbind_read in Hr as (o & _ & Hr). apply pbind_read in Hr as (p & Hp & Hr).
  apply read_inj in Hr. subst c. unfold parseCustomOption, customAmount in Hp. read_inv Hp. subst p. cbn.
  apply resourceBinding_read in E as [-> Hres]. apply canonicalAddress_read in E0 as [_ ?], E1 as [_ ?].
  apply pfail_if_read in E2 as [_ E2]. by apply read_amount_ok in E2.
Qed.

Lemma v2_envelope_ok fields expected c : parseV2Envelope fields expected = Read c → challenge_ok expected c.
Proof.
  unfold parseV2Envelope. intros Hr. apply pbind_read in Hr as (o & _ & Hr). apply pbind_read in Hr as (r & Hres & Hr).
  apply pbind_read in Hr as (p & Hp & Hr). apply read_inj in Hr. subst c.
  unfold v2Resource in Hres. apply pfail_if_read in Hres as [_ Hres]. destruct (given_text _) as [u|] in Hres; [|done].
  apply resourceBinding_read in Hres as [-> Hres].
  unfold parseV2Option in Hp. read_inv Hp. subst p. cbn.
  apply canonicalAddress_read in E0 as [_ ?], E1 as [_ ?]. by apply read_amount_ok in E.
Qed.

Lemma challenge_envelope_ok fields expected c : parse_envelope fields expected = Read c → challenge_ok expected c.
Proof.
  unfold parse_envelope, parseBareOption. intros Hr.
  destruct (strict_eq (field fields "x402Version") _); [by apply v2_envelope_ok in Hr|].
  destruct (strict_eq (field fields "version") _); [by apply custom_envelope_ok in Hr|]. read_inv Hr.
  destruct (strict_eq (field fields "network") _); [by apply v2_envelope_ok in Hr|]. by read_inv Hr.
Qed.

Lemma document_ok v expected c : parsePaymentRequiredDocument v expected = Read c → challenge_ok expected c.
Proof.
  induction v as [v Ha Ho|items IH|fields IH] using value_nested_ind; intros Hr.
  - destruct v; try done. by destruct (Ho fields).
  - done.
  - cbn [parsePaymentRequiredDocument] in Hr. apply pfail_if_read in Hr as [_ Hr].
    lazymatch type of Hr with ?f fields = _ => set (look := f) in Hr end.
    assert (∀ rest, Forall (λ f, parsePaymentRequiredDocument f.2 expected = Read c → challenge_ok expected c) rest →
              look rest = Read c → challenge_ok expected c) as Hlook; [|by apply (Hlook fields)].
    induction 1 as [|[k inner] rest Hin _ IHr]; cbn; [by apply challenge_envelope_ok|].
    case_bool_decide; [|by apply IHr]. destruct inner; try (by apply Hin); by apply challenge_envelope_ok.
Qed.

Lemma parse_documents_spec documents expected :
  (parse_documents documents expected).1 = omap (λ d, match parsePaymentRequiredDocument d expected with Read c => Some c | Unreadable _ => None end) documents.
Proof.
  induction documents as [|d documents IH]; [done|]. cbn [parse_documents omap list_omap].
  destruct (parse_documents documents expected) as [cs es] eqn:E. cbn in IH.
  destruct (parsePaymentRequiredDocument d expected) as [c|e]; cbn; by rewrite IH.
Qed.

(** C34: A challenge the SDK takes from a 402 answer asks for a positive 64-bit amount, of a canonical mint and to a
    canonical address, at a URL without credentials that is the one the agent asked for; it is what one of the
    documents says, and every document that can be read speaks the same protocol. *)
Theorem challenge_canonical (header x_header : option string) (body : value) (expected : option string) (c : DetectedChallenge) :
  detectPaymentChallenge header x_header body expected = Read c →
  challenge_ok expected c ∧
  ∃ documents, paymentRequiredDocumentsFromResponse header x_header body = Read documents ∧
    (∃ d, d ∈ documents ∧ parsePaymentRequiredDocument d expected = Read c) ∧
    ∀ d c', d ∈ documents → parsePaymentRequiredDocument d expected = Read c' → kind_of c' = kind_of c.
Proof.
  unfold detectPaymentChallenge. intros (documents & Hd & Hr)%pbind_read.
  unfold detectAndParsePaymentRequired in Hr. apply pfail_if_read in Hr as [_ Hr].
  pose proof (parse_documents_spec documents expected) as Hs.
  destruct (parse_documents documents expected) as [[|first rest] errors]; [done|]. cbn in Hs.
  apply pfail_if_read in Hr as [Hk Hr]. apply read_inj in Hr. subst first.
  assert (∀ d c', parsePaymentRequiredDocument d expected = Read c' → d ∈ documents → c' ∈ c :: rest) as Hin.
  { intros d c' Hc Hi. rewrite Hs. apply list_elem_of_omap. exists d. by rewrite Hc. }
  assert (c ∈ c :: rest) as Hc by by left. rewrite Hs in Hc. apply list_elem_of_omap in Hc as (d & Hi & Hc).
  destruct (parsePaymentRequiredDocument d expected) as [c0|] eqn:E; [|done]. injection Hc as ->.
  split; [by eapply document_ok|]. exists documents. split; [done|]. split; [by exists d|].
  intros d' c' Hi' Hc'. pose proof (Hin _ _ Hc' Hi') as Hc0. apply elem_of_cons in Hc0 as [->|Hc0]; [done|].
  destruct (decide (kind_of c' = kind_of c)) as [|Hne]; [done|].
  assert (existsb (λ c', negb (bool_decide (kind_of c' = kind_of c))) rest = true) as Hx; [|congruence].
  apply existsb_exists. exists c'. split; [by apply list_elem_of_In|]. by rewrite bool_decide_false.
Qed.
End Props.

(** ** What the platform does

    A URL written out reads back as itself; addresses and URLs are not blank;
    Node's base64 reads what it wrote; and the JSON text of an object begins with a
    brace, while any JSON text begins with white space, a quote, a minus sign, a
    digit, a bracket, a brace, or one of f, n and t. *)
Definition JSON_FIRST : list ascii :=
  map ascii_of_nat [9; 10; 13; 32; 34; 45; 48; 49; 50; 51; 52; 53; 54; 55; 56; 57; 91; 102; 110; 116; 123]%nat.

Class X402Platform (K : PublicKeys) (C : Codec) (U : UrlParser) (H : MerchantHost) : Prop := {
  url_reparsed s u : new_URL s = Some u → new_URL u.(Url.href) = Some u;
  url_text s u : new_URL s = Some u → trim u.(Url.href) ≠ "";
  address_text k : length k = 32%nat → trim (toBase58 k) ≠ "";
  node_base64 bs : buffer_base64 (btoa bs) = bs;
  json_first c s v : JSON_parse (String.String c s) = Some v → c ∈ JSON_FIRST;
  json_object_start fields : ∃ rest, JSON_stringify (VObject fields) = String.String "{" rest;
}.

Section Merchant.
Context `{K : PublicKeys, KS : !PublicKeysSpec K, C : Codec, CS : !JsonSpec C, U : UrlParser, H : MerchantHost, HS : Sha256, HSS : !Sha256Spec HS}.
Context `{P : !X402Platform K C U H}.

(** ** The answer read back *)

Lemma b64_brace b bs : byte_val b = 123 → ∃ rest, b64_encode (b :: bs) = "e"%char :: rest.
Proof.
  intros Hb. assert (∀ n, n = 30 → b64_char n = "e"%char) as He by by intros n ->.
  destruct bs as [|c [|d bs]]; cbn [b64_encode]; rewrite Hb.
  - rewrite He by (Z.to_euclidean_division_equations; lia). by eexists.
  - pose proof (byte_val_range c). rewrite He by (Z.to_euclidean_division_equations; lia). by eexists.
  - pose proof (byte_val_range c). pose proof (byte_val_range d). rewrite He by (Z.to_euclidean_division_equations; lia). by eexists.
Qed.

Lemma object_header fields : ∃ tl, btoa (text_encode (JSON_stringify (VObject fields))) = String.String "e" tl.
Proof.
  destruct (json_object_start fields) as [rest ->]. rewrite <- (text_chars rest).
  change (String.String "{" (text (chars rest))) with (text ("{"%char :: chars rest)). rewrite text_encode_cons.
  change (text_encode (text ["{"%char])) with [byte_of 123]. cbn [app].
  destruct (b64_brace (byte_of 123) (text_encode (text (chars rest))) eq_refl) as [tl Hb]. unfold btoa. rewrite Hb.
  by exists (text tl).
Qed.

Lemma header_not_json tl : JSON_parse (String.String "e" tl) = None.
Proof.
  destruct (JSON_parse _) as [v|] eqn:E; [|done]. apply json_first in E. exfalso. revert E.
  apply (bool_decide_unpack (_ ∉ _)). vm_compute. exact I.
Qed.

(** The answer a merchant sends for a challenge fits the bounds of the SDK. *)
Definition answer_fits (challenge : list (string * value)) : Prop :=
  size (JSON_stringify (VObject challenge)) ≤ MAX_DECODED_CHARS
  ∧ size (ChallengeAnswer.x_payment_required (challenge_answer challenge)) ≤ MAX_HEADER_CHARS.

Lemma decode_answer challenge :
  json (VObject challenge) = true → answer_fits challenge →
  decodePaymentRequiredWire (ChallengeAnswer.x_payment_required (challenge_answer challenge)) = Read (VObject challenge).
Proof.
  intros Hj [Hd Hh]. unfold decodePaymentRequiredWire. cbn [challenge_answer ChallengeAnswer.x_payment_required] in *.
  pose proof (node_base64 (text_encode (JSON_stringify (VObject challenge)))) as Hb.
  destruct (object_header challenge) as [tl Ht]. rewrite Ht in *. apply Z.ltb_ge in Hd, Hh. rewrite Hh, header_not_json, Hb.
  assert (text (utf8_lossy (text_encode (JSON_stringify (VObject challenge)))) = JSON_stringify (VObject challenge)) as ->.
  { rewrite <- (text_chars (JSON_stringify _)) at 1. by rewrite utf8_lossy_encoded, text_chars. }
  rewrite Hd, (json_roundtrip _ Hj), bool_decide_false by apply json_object. done.
Qed.
(** The two headers and the body are one document. *)
Lemma detect_answer challenge expected :
  json (VObject challenge) = true → answer_fits challenge →
  let a := challenge_answer challenge in
  detectPaymentChallenge a.(ChallengeAnswer.payment_required) (Some a.(ChallengeAnswer.x_payment_required)) a.(ChallengeAnswer.body) expected
  = parsePaymentRequiredDocument (VObject challenge) expected.
Proof.
  intros Hj Hf. pose proof (decode_answer challenge Hj Hf) as Hd. cbn zeta.
  assert (given_text (Some (ChallengeAnswer.x_payment_required (challenge_answer challenge))) =
          Some (ChallengeAnswer.x_payment_required (challenge_answer challenge))) as Hg.
  { apply given_text_some. split; [done|]. cbn. by destruct (object_header challenge) as [tl ->]. }
  assert (paymentRequiredDocumentsFromResponse (challenge_answer challenge).(ChallengeAnswer.payment_required)
            (Some (challenge_answer challenge).(ChallengeAnswer.x_payment_required)) (VObject challenge) = Read [VObject challenge]) as Hdocs.
  { unfold paymentRequiredDocumentsFromResponse. cbn [challenge_answer ChallengeAnswer.payment_required] in *.
    change (ChallengeAnswer.x_payment_required _) with (btoa (text_encode (JSON_stringify (VObject challenge)))) in *.
    destruct (strict_eq _ _); cbn [header_documents]; rewrite ?Hg, ?Hd; cbn [given_text pbind].
    - rewrite bool_decide_false by set_solver. rewrite bool_decide_true by set_solver. cbn [pbind undefined].
      by rewrite bool_decide_true by set_solver.
    - rewrite bool_decide_false by set_solver. cbn [pbind undefined]. by rewrite bool_decide_true by set_solver. }
  unfold detectPaymentChallenge. cbn [challenge_answer ChallengeAnswer.body] in *. rewrite Hdocs. cbn [pbind].
  unfold detectAndParsePaymentRequired. cbn [length Nat.eqb parse_documents].
  destruct (parsePaymentRequiredDocument (VObject challenge) expected); done.
Qed.

(** ** A loaded configuration *)

Record config_ok (c : LoadedConfig.t) : Prop := {
  ok_resource : ∃ u, new_URL c.(LoadedConfig.base).(MerchantConfig.resource) = Some u ∧ u.(Url.username) = "" ∧ u.(Url.password) = "";
  ok_resource_text : trim c.(LoadedConfig.base).(MerchantConfig.resource) ≠ "";
  ok_mint : address_ok c.(LoadedConfig.base).(MerchantConfig.mint);
  ok_recipient : address_ok c.(LoadedConfig.base).(MerchantConfig.recipient);
  ok_program : address_ok c.(LoadedConfig.base).(MerchantConfig.programId);
  ok_amount : canonical_digits false c.(LoadedConfig.base).(MerchantConfig.amount) = true
    ∧ BigInt c.(LoadedConfig.base).(MerchantConfig.amount) ≤ MAX_U64;
  ok_nonce n : c.(LoadedConfig.base).(MerchantConfig.nonce) = Some n → n ≠ "" ∧ trim n = n ∧ size n ≤ MAX_NONCE_CHARS;
  ok_owner : c.(LoadedConfig.challengeShape) = shape_v2 → ∃ owner, c.(LoadedConfig.merchantOwner) = Some owner ∧ address_ok owner
    ∧ owner ≠ c.(LoadedConfig.base).(MerchantConfig.allowedAgent)
    ∧ deriveAssociatedTokenAddress owner c.(LoadedConfig.base).(MerchantConfig.mint) c.(LoadedConfig.base).(MerchantConfig.tokenProgram)
      = Ok c.(LoadedConfig.base).(MerchantConfig.recipient);
}.

Lemma canonical_key_ok s a : canonical_key s = Ok a → address_ok a.
Proof. unfold canonical_key. intros (k & [Hl _]%publicKey_ok & [= <-])%bind_ok. by exists k. Qed.

Lemma safe_url_ok s name u :
  assertSafeHttpUrl s name = Ok u → new_URL s = Some u ∧ u.(Url.username) = "" ∧ u.(Url.password) = "".
Proof.
  unfold assertSafeHttpUrl. destruct (new_URL s) as [v|]; [|done].
  intros Hs. inv_ok Hs. subst v. apply orb_false_iff in G as [G2 G3]. apply negb_false_iff, bool_decide_eq_true in G2, G3. done.
Qed.

Lemma owner_ok env recipient mint tp agent o :
  standardV2MerchantOwner env recipient mint tp agent = Ok o →
  address_ok o ∧ o ≠ agent ∧ deriveAssociatedTokenAddress o mint tp = Ok recipient.
Proof.
  unfold standardV2MerchantOwner. destruct (env_text _ _); [|done]. intros (a & Ha%canonical_key_ok & Hr)%bind_ok.
  case_bool_decide; [done|]. apply bind_ok in Hr as (b & Hb & Hr). case_bool_decide; cbn in Hr; [|done]. naive_solver.
Qed.

Lemma loaded_ok env port c : loadMerchantConfig env port = Ok c → config_ok c.
Proof.
  unfold loadMerchantConfig. intros Hc. inv_ok Hc. subst c.
  apply safe_url_ok in E as (Hu & Hn & Hp). apply canonical_key_ok in E0. apply bind_ok in E1 as (r & _ & E1%canonical_key_ok).
  apply canonical_key_ok in E5. unfold canonicalAmount in E3. inv_ok E3. subst a3. apply negb_false_iff in G0. apply Z.ltb_ge in G1.
  constructor; cbn; try done.
  - exists a. split_and!; [by eapply url_reparsed|done|done].
  - by eapply url_text.
  - intros n Hnonce. rewrite Hnonce in G. apply Z.ltb_ge in G. destruct (env_text_ok _ _ _ Hnonce). done.
  - intros ->. apply bind_ok in E8 as (o & (Ho & Ha & Hd)%owner_ok & [= <-]). by exists o.
Qed.

(** ** The challenge read back *)

Lemma challenge_address_ok s name : address_ok s → canonicalAddress (VString s) name = Read s.
Proof.
  intros (k & Hl & ->). unfold canonicalAddress. rewrite (proj2 (given_string_ok _ (toBase58 k))) by (split; [done|by apply address_text]).
  rewrite publicKey_toBase58 by done. by rewrite bool_decide_true.
Qed.

Lemma boundedString_ok s name max : trim s ≠ "" → size s ≤ max → boundedString (VString s) name max = Read s.
Proof.
  intros Ht Hl. unfold boundedString. rewrite (proj2 (given_string_ok _ s)) by done. apply Z.ltb_ge in Hl. by rewrite Hl.
Qed.

Lemma resourceBinding_ok r u :
  new_URL r = Some u → u.(Url.username) = "" → u.(Url.password) = "" → trim r ≠ "" → size r ≤ MAX_RESOURCE_CHARS →
  resourceBinding r (Some r) = Read r.
Proof.
  intros Hu Hn Hp Ht Hl. unfold resourceBinding. rewrite boundedString_ok by done. cbn [pbind]. rewrite Hu, Hn, Hp.
  rewrite !(bool_decide_true ("" = "")) by done. cbn [negb orb].
  destruct (given_text (Some r)) as [e|] eqn:E; [|done]. apply given_text_some in E as [[= <-] _].
  rewrite (bool_decide_true (r = r)) by done. by rewrite andb_false_r.
Qed.

Lemma amount_read_ok s name : canonical_digits false s = true → BigInt s ≤ MAX_U64 → canonicalU64String (VString s) name false = Read s.
Proof. intros Hd Hm. by apply canonicalU64String_ok. Qed.

Definition custom_option (c : MerchantConfig.t) : CustomChallengeOption.t :=
  CustomChallengeOption.mk c.(MerchantConfig.mint) c.(MerchantConfig.recipient) c.(MerchantConfig.amount) c.(MerchantConfig.resource)
    (Some c.(MerchantConfig.tokenProgram)) c.(MerchantConfig.nonce) None.

Definition v2_option (c : MerchantConfig.t) (owner : Address) : StandardV2Option.t :=
  StandardV2Option.mk c.(MerchantConfig.amount) c.(MerchantConfig.mint) owner c.(MerchantConfig.resource) (Some 300) (Some owner).

Lemma custom_option_read c :
  (∃ u, new_URL c.(MerchantConfig.resource) = Some u ∧ u.(Url.username) = "" ∧ u.(Url.password) = "") →
  trim c.(MerchantConfig.resource) ≠ "" → size c.(MerchantConfig.resource) ≤ MAX_RESOURCE_CHARS →
  address_ok c.(MerchantConfig.mint) → address_ok c.(MerchantConfig.recipient) →
  canonical_digits false c.(MerchantConfig.amount) = true → BigInt c.(MerchantConfig.amount) ≤ MAX_U64 →
  (∀ n, c.(MerchantConfig.nonce) = Some n → n ≠ "" ∧ trim n = n ∧ size n ≤ MAX_NONCE_CHARS) →
  parseCustomOption ([("scheme", VString "exact"); ("network", VString "solana-devnet");
      ("maxAmountRequired", VString c.(MerchantConfig.amount)); ("asset", VString c.(MerchantConfig.mint));
      ("payTo", VString c.(MerchantConfig.recipient)); ("resource", VString c.(MerchantConfig.resource));
      ("tokenProgram", VString (program_name c.(MerchantConfig.tokenProgram)))]
      ++ Signed.present "nonce" (given_text c.(MerchantConfig.nonce))) (Some c.(MerchantConfig.resource))
  = Read (custom_option c).
Proof.
  destruct c as [res mint recip amt tp agent pid nonce]. cbn [MerchantConfig.resource MerchantConfig.mint MerchantConfig.recipient
    MerchantConfig.amount MerchantConfig.tokenProgram MerchantConfig.nonce].
  intros (u & Hu & Hn & Hp) Ht Hsz Hm Hr Had Ham Hnonce.
  assert (given_text nonce = nonce) as -> by (destruct nonce as [n|]; [|done]; apply given_text_some; naive_solver).
  set (o := _ ++ _). unfold parseCustomOption, customAmount, custom_option.
  assert (if_given (field o "tokenProgram") (λ v, match read_program v with Some p => Read p
            | None => pfail malformed "tokenProgram must be spl-token or token-2022" end) = Read (Some tp)) as ->
    by (destruct nonce, tp; reflexivity).
  assert (if_given (field o "nonce") (λ v, let* s := boundedString v "nonce" MAX_NONCE_CHARS in Read (trim s)) = Read nonce) as ->.
  { destruct nonce as [n|]; [|reflexivity]. destruct (Hnonce n eq_refl) as (Hne & Htn & Hln).
    change (field o "nonce") with (VString n). unfold if_given. cbn [undefined].
    rewrite boundedString_ok by (rewrite ?Htn; done). cbn [pbind]. by rewrite Htn. }
  assert (if_given (field o "expiresAtSlot") (λ v, canonicalU64String v "expiresAtSlot" true) = Read None) as -> by (destruct nonce; reflexivity).
  assert (field o "scheme" = VString "exact" ∧ field o "network" = VString "solana-devnet" ∧ field o "asset" = VString mint
    ∧ field o "mint" = VUndefined ∧ field o "payTo" = VString recip ∧ field o "recipient" = VUndefined
    ∧ field o "resource" = VString res ∧ field o "amount" = VUndefined ∧ field o "maxAmountRequired" = VString amt)
    as (-> & -> & -> & -> & -> & -> & -> & -> & ->) by (destruct nonce; done).
  cbn [disagree undefined negb andb coalesce nullish]. change (strict_eq (VString _) (VString _)) with true.
  rewrite (resourceBinding_ok res u) by done. cbn [pbind]. rewrite !challenge_address_ok by done. cbn [pbind].
  rewrite amount_read_ok by done. done.
Qed.

Lemma custom_read config :
  config_ok config → size config.(LoadedConfig.base).(MerchantConfig.resource) ≤ MAX_RESOURCE_CHARS →
  parsePaymentRequiredDocument (VObject (customPaymentRequired config)) (Some config.(LoadedConfig.base).(MerchantConfig.resource))
  = Read (custom (custom_option config.(LoadedConfig.base)) (customPaymentRequired config)).
Proof.
  intros [Hu Ht Hm Hr _ [Had Ham] Hnonce _] Hsz.
  change (parsePaymentRequiredDocument _ _) with (parseCustomEnvelope (customPaymentRequired config) (Some config.(LoadedConfig.base).(MerchantConfig.resource))).
  unfold parseCustomEnvelope. change (is_array _) with true. cbv iota.
  pose proof (custom_option_read _ Hu Ht Hsz Hm Hr Had Ham Hnonce) as Hread. set (o := _ ++ _) in Hread.
  change (let* accepts := acceptRecords _ in _) with (Read o). cbn [pbind]. by rewrite Hread.
Qed.

Lemma v2_read config owner challenge :
  config_ok config → size config.(LoadedConfig.base).(MerchantConfig.resource) ≤ MAX_RESOURCE_CHARS →
  config.(LoadedConfig.merchantOwner) = Some owner → address_ok owner →
  standardV2PaymentRequired config = Ok challenge →
  parsePaymentRequiredDocument (VObject challenge) (Some config.(LoadedConfig.base).(MerchantConfig.resource))
  = Read (standard_v2 (v2_option config.(LoadedConfig.base) owner) challenge).
Proof.
  intros [(u & Hu & Hn & Hp) Ht Hm _ _ [Had Ham] _ _] Hsz Ho Hok Hc. unfold standardV2PaymentRequired in Hc.
  destruct (given_text _) as [owner'|] eqn:E in Hc; [|done]. apply given_text_some in E as [E _]. rewrite Ho in E. injection E as <-.
  set (c := config.(LoadedConfig.base)) in *. clearbody c.
  set (o := [("scheme", VString "exact"); ("network", _); ("amount", _); ("asset", _); ("payTo", _); _; _]) in Hc. injection Hc as <-.
  set (challenge := [_; _; _]).
  change (parsePaymentRequiredDocument _ _) with (parseV2Envelope challenge (Some c.(MerchantConfig.resource))).
  unfold parseV2Envelope. change (if is_array _ then _ else _) with (Read (A := list (string * value)) o). cbn [pbind].
  assert (v2Resource challenge o (Some c.(MerchantConfig.resource)) = Read c.(MerchantConfig.resource)) as ->.
  { unfold v2Resource. change (field challenge "resource") with (VObject [("url", VString c.(MerchantConfig.resource));
      ("description", VString "ChainPay demo merchant resource"); ("mimeType", VString "application/json")]).
    cbv iota. change (string_field _ "url") with (Some c.(MerchantConfig.resource)). change (string_field o "resource") with (@None string).
    change (given_text (@None string)) with (@None string). cbv iota.
    assert (given_text (Some c.(MerchantConfig.resource)) = Some c.(MerchantConfig.resource)) as ->
      by (apply given_text_some; split; [done|]; intros E; by rewrite E in Ht).
    by apply resourceBinding_ok with u. }
  cbn [pbind]. unfold parseV2Option.
  change (strict_eq (field o "scheme") _) with true. change (strict_eq (field o "network") _) with true.
  change (field o "maxAmountRequired") with VUndefined. change (field o "amount") with (VString c.(MerchantConfig.amount)).
  change (field o "extra") with (VObject [("feePayer", VString owner)]). change (field o "asset") with (VString c.(MerchantConfig.mint)).
  change (field o "payTo") with (VString owner). change (field o "maxTimeoutSeconds") with (VNumber (JInt 300)).
  change (get (VObject [("feePayer", VString owner)]) "feePayer") with (VString owner).
  cbn [disagree undefined negb andb isPlainObject plain_object].
  rewrite amount_read_ok by done. cbn [pbind]. rewrite !challenge_address_ok by done. cbn [pbind if_given undefined]. by rewrite challenge_address_ok.
Qed.

(** ** The payment prepared from it *)

Lemma challenge_json config challenge : paymentRequiredForConfig config = Ok challenge → json (VObject challenge) = true.
Proof.
  unfold paymentRequiredForConfig, standardV2PaymentRequired. destruct (LoadedConfig.challengeShape config).
  - intros [= <-]. unfold customPaymentRequired.
    destruct (given_text (MerchantConfig.nonce _)); cbn [Signed.present app]; vm_compute; reflexivity.
  - destruct (given_text _); [|done]. intros [= <-]. vm_compute. reflexivity.
Qed.

(** The price a payer of the challenge derives its references from *)
Definition quoted_price (config : LoadedConfig.t) : X402ExactPayment.t :=
  let c := config.(LoadedConfig.base) in
  X402ExactPayment.mk c.(MerchantConfig.mint) c.(MerchantConfig.recipient) c.(MerchantConfig.amount) c.(MerchantConfig.resource)
    c.(MerchantConfig.tokenProgram)
    (match config.(LoadedConfig.challengeShape) with shape_custom => given_text c.(MerchantConfig.nonce) | shape_v2 => None end) None.

Lemma text_hash_hex r name : ∃ bs, text_hash r = bytesToHex bs ∧ hexToBytes (text_hash r) name = Ok bs.
Proof. exists (sha256 (text_encode r)). split; [done|]. apply hexToBytes_hex, sha256_length. Qed.

Lemma quoted_fields config challenge :
  config_ok config → size config.(LoadedConfig.base).(MerchantConfig.resource) ≤ MAX_RESOURCE_CHARS →
  paymentRequiredForConfig config = Ok challenge →
  ∃ detected owner,
    parsePaymentRequiredDocument (VObject challenge) (Some config.(LoadedConfig.base).(MerchantConfig.resource)) = Read detected
    ∧ detectedChallengeToPrepareFields detected config.(LoadedConfig.base).(MerchantConfig.tokenProgram)
      = Ok (prepare_fields config.(LoadedConfig.base).(MerchantConfig.mint) config.(LoadedConfig.base).(MerchantConfig.recipient)
             config.(LoadedConfig.base).(MerchantConfig.amount) config.(LoadedConfig.base).(MerchantConfig.resource)
             config.(LoadedConfig.base).(MerchantConfig.tokenProgram) (deriveX402PaymentReferences (quoted_price config)) owner).
Proof.
  intros Hok Hsz Hc. unfold paymentRequiredForConfig, quoted_price in *. destruct (LoadedConfig.challengeShape config) eqn:Es.
  - injection Hc as <-. exists (custom (custom_option config.(LoadedConfig.base)) (customPaymentRequired config)), None.
    split; [by apply custom_read|done].
  - destruct (ok_owner _ Hok Es) as (owner & Ho & Hoo & _ & Hd).
    exists (standard_v2 (v2_option config.(LoadedConfig.base) owner) challenge), (Some owner).
    split; [by apply v2_read|]. cbn [detectedChallengeToPrepareFields]. unfold standardV2ChallengeToPrepareFields, standardV2RecipientTokenAccount.
    cbn [v2_option StandardV2Option.merchantOwner StandardV2Option.asset]. by rewrite Hd.
Qed.

Lemma quoted_request mandate mint recipient amount resource tp price owner :
  canonical_digits false amount = true →
  ∃ request,
    toPreparePaymentInput mandate (prepare_fields mint recipient amount resource tp (deriveX402PaymentReferences price) owner) = Ok request
    ∧ request.(PaymentRequest.mandate) = mandate ∧ request.(PaymentRequest.mint) = mint ∧ request.(PaymentRequest.recipient) = recipient
    ∧ string_bigint amount = Ok request.(PaymentRequest.amount) ∧ request.(PaymentRequest.tokenProgram) = Some tp
    ∧ (deriveX402PaymentReferences price).(X402PaymentReferences.invoiceHash) = bytesToHex request.(PaymentRequest.invoiceHash)
    ∧ (deriveX402PaymentReferences price).(X402PaymentReferences.paymentId) = bytesToHex request.(PaymentRequest.paymentId)
    ∧ (deriveX402PaymentReferences price).(X402PaymentReferences.signatureReference) = bytesToHex request.(PaymentRequest.signatureReference).
Proof.
  intros Had. destruct (canonical_digits_value _ _ Had) as [_ Hs].
  unfold toPreparePaymentInput. cbn [fields_references fields_amount fields_mint fields_recipient fields_tokenProgram].
  unfold deriveX402PaymentReferences. cbn zeta.
  cbn [X402PaymentReferences.invoiceHash X402PaymentReferences.paymentId X402PaymentReferences.signatureReference].
  destruct (text_hash_hex (JSON_stringify (canonical_payment price)) "invoiceHash") as (b1 & E1 & H1).
  set (h := text_hash (JSON_stringify (canonical_payment price))) in *. rewrite H1.
  destruct (text_hash_hex ("payment:" +:+ h) "paymentId") as (b2 & E2 & H2).
  destruct (text_hash_hex ("x402:" +:+ h) "signatureReference") as (b3 & E3 & H3).
  cbn [bind]. rewrite H2. cbn [bind]. rewrite H3. cbn [bind].
  assert (string_bigint amount = Ok (BigInt amount)) as -> by by rewrite <- Hs at 1; apply string_bigint_toString.
  cbn [bind]. eexists. split; [done|]. split_and!; done.
Qed.

Lemma loaded_program config : config_ok config → config.(LoadedConfig.base).(MerchantConfig.programId) ≠ "".
Proof. intros Hok. destruct (ok_program _ Hok) as (k & Hk & E). intros E'. apply (address_text k Hk). by rewrite <- E, E'. Qed.

(** C10: What an agent pays is what the merchant answered with.  Once a merchant's configuration loads, the SDK reads the
    challenge from the headers and the body as sent, in either protocol, and the payment prepared from it has the
    merchant's mint, recipient account, amount and token program, and the references of the price quoted in the challenge.
    That payment is the one whose proof the merchant checks ([priced]), except that a v2 merchant must set no nonce: its
    challenge does not carry one, and [v2_nonce_misprices] shows the references then differ.  The resource URL and the
    answer are within the sizes the SDK reads. *)
Theorem challenge_prices_payment (env : Env) (port : Z) (config : LoadedConfig.t) (challenge : list (string * value)) (mandate : Address) :
  loadMerchantConfig env port = Ok config → paymentRequiredForConfig config = Ok challenge →
  size config.(LoadedConfig.base).(MerchantConfig.resource) ≤ MAX_RESOURCE_CHARS → answer_fits challenge →
  let c := config.(LoadedConfig.base) in
  let answer := challenge_answer challenge in
  ∃ detected fields request,
    detectPaymentChallenge answer.(ChallengeAnswer.payment_required) (Some answer.(ChallengeAnswer.x_payment_required))
      answer.(ChallengeAnswer.body) (Some c.(MerchantConfig.resource)) = Read detected
    ∧ detectedChallengeToPrepareFields detected c.(MerchantConfig.tokenProgram) = Ok fields
    ∧ toPreparePaymentInput mandate fields = Ok request
    ∧ request.(PaymentRequest.mandate) = mandate
    ∧ priced c (deriveX402PaymentReferences (quoted_price config)) request c.(MerchantConfig.allowedAgent) c.(MerchantConfig.programId)
    ∧ (config.(LoadedConfig.challengeShape) = shape_custom ∨ c.(MerchantConfig.nonce) = None →
       priced c (merchant_references c) request c.(MerchantConfig.allowedAgent) c.(MerchantConfig.programId)).
Proof.
  intros Hok%loaded_ok Hc Hsz Hfits c answer.
  destruct (quoted_fields config challenge Hok Hsz Hc) as (detected & owner & Hd & Hf).
  destruct (quoted_request mandate c.(MerchantConfig.mint) c.(MerchantConfig.recipient) c.(MerchantConfig.amount) c.(MerchantConfig.resource)
    c.(MerchantConfig.tokenProgram) (quoted_price config) owner (proj1 (ok_amount _ Hok)))
    as (request & Hr & Hm & Hmint & Hrec & Ham & Htp & Hi & Hp & Hsr).
  assert (priced c (deriveX402PaymentReferences (quoted_price config)) request c.(MerchantConfig.allowedAgent) c.(MerchantConfig.programId))
    as Hpriced.
  { constructor; try done; [..|split; [done|]]; try by symmetry. by apply loaded_program. }
  exists detected. eexists. exists request. split; [|split_and!; [exact Hf|exact Hr|done|exact Hpriced|]].
  - subst answer. rewrite detect_answer; [done| |done]. by eapply challenge_json.
  - intros Hn. assert (merchant_references c = deriveX402PaymentReferences (quoted_price config)) as ->; [|exact Hpriced].
    unfold merchant_references, quoted_price. destruct (LoadedConfig.challengeShape config); [done|].
    destruct Hn as [Hn|Hn]; [done|]. subst c. by rewrite Hn.
Qed.

(** A merchant with the v2 challenge and a nonce refuses every payer: the payment prepared from its challenge is not the one
    it checks proofs against, unless two price texts collide, or the nonce is the one a payer derives. *)
Theorem v2_nonce_misprices (env : Env) (port : Z) (config : LoadedConfig.t) (challenge : list (string * value)) (mandate : Address)
    (nonce : string) :
  loadMerchantConfig env port = Ok config → paymentRequiredForConfig config = Ok challenge →
  config.(LoadedConfig.challengeShape) = shape_v2 → config.(LoadedConfig.base).(MerchantConfig.nonce) = Some nonce →
  size config.(LoadedConfig.base).(MerchantConfig.resource) ≤ MAX_RESOURCE_CHARS → answer_fits challenge →
  nonce ≠ payment_nonce (quoted_price config) →
  let c := config.(LoadedConfig.base) in
  let answer := challenge_answer challenge in
  collision_free [price_text (quoted_price config);
    price_text (X402ExactPayment.mk c.(MerchantConfig.mint) c.(MerchantConfig.recipient) c.(MerchantConfig.amount)
      c.(MerchantConfig.resource) c.(MerchantConfig.tokenProgram) (Some nonce) None)] →
  ∃ detected fields request,
    detectPaymentChallenge answer.(ChallengeAnswer.payment_required) (Some answer.(ChallengeAnswer.x_payment_required))
      answer.(ChallengeAnswer.body) (Some c.(MerchantConfig.resource)) = Read detected
    ∧ detectedChallengeToPrepareFields detected c.(MerchantConfig.tokenProgram) = Ok fields
    ∧ toPreparePaymentInput mandate fields = Ok request
    ∧ (merchant_references c).(X402PaymentReferences.invoiceHash) ≠ bytesToHex request.(PaymentRequest.invoiceHash).
Proof.
  intros Hok%loaded_ok Hc Hshape Hn Hsz Hfits Hne c answer Hcf.
  destruct (quoted_fields config challenge Hok Hsz Hc) as (detected & owner & Hd & Hf).
  destruct (quoted_request mandate c.(MerchantConfig.mint) c.(MerchantConfig.recipient) c.(MerchantConfig.amount) c.(MerchantConfig.resource)
    c.(MerchantConfig.tokenProgram) (quoted_price config) owner (proj1 (ok_amount _ Hok)))
    as (request & Hr & _ & _ & _ & _ & _ & Hi & _).
  exists detected. eexists. exists request. split; [|split_and!; [exact Hf|exact Hr|]].
  - subst answer. rewrite detect_answer; [done| |done]. by eapply challenge_json.
  - rewrite <- Hi. unfold merchant_references. fold c in Hn. rewrite Hn. destruct (ok_nonce _ Hok nonce Hn) as (Hnn & Htn & _).
    assert (given_text (Some nonce) = Some nonce) as -> by by apply given_text_some.
    intros E. symmetry in E. apply references_bind_price in E as (_ & _ & _ & _ & _ & E & _); [|done]. apply Hne. rewrite E.
    unfold payment_nonce at 1. cbn [X402ExactPayment.nonce fmap option_fmap option_map].
    rewrite Htn. by assert (given_text (Some nonce) = Some nonce) as -> by by apply given_text_some.
Qed.
End Merchant.

(** ** Concrete challenges *)

#[local] Existing Instance Base58.keys.
#[local] Existing Instance Base58.keys_spec.
#[local] Existing Instance model_hash.
#[local] Existing Instance JsonCodec.json_spec.
#[local] Existing Instance model_hash_spec.

(** The texts of [JsonCodec] behind a brace *)
#[local] Instance braced : Codec := {
  parse := TextCodec.read;
  stringify := TextCodec.print;
  JSON_parse s := match s with
                  | String.String c rest => if bool_decide (c = "{"%char) then JsonCodec.codec.(JSON_parse) rest else None
                  | EmptyString => None
                  end;
  JSON_stringify v := String.String "{" (JsonCodec.codec.(JSON_stringify) v);
  Date_parse _ := JNaN;
}.

#[local] Instance braced_spec : JsonSpec braced.
Proof. split; [|done]. intros v Hj. exact (json_roundtrip (C := JsonCodec.codec) (JsonSpec := JsonCodec.json_spec) v Hj). Qed.

(** URLs that are already in their written form *)
#[local] Instance http_urls : UrlParser := λ s,
  match s with
  | String.String c rest => if bool_decide (c = "h"%char) then Some (Url.mk s "http:" "" "" "" "" "") else None
  | EmptyString => None
  end.

#[local] Instance plain_host : MerchantHost := {
  bs58_encode := base58_encode;
  bs58_decode s := match base58_decode s with Some b => Ok b | None => Throw "Non-base58 character" end;
  buffer_base64 s := default [] (atob s);
  verify_spki _ _ _ := Ok false;
  decode_transaction _ := Throw "no transaction";
  decode_message _ := Throw "no message";
  encode_message _ := [];
  encode_transaction _ := [];
}.

Lemma char58_not_space d : is_space (char58 d) = false.
Proof.
  unfold char58. assert (Forall (λ c, is_space c = false) ("1"%char :: PublicKey.alphabet)) as Hall by (repeat constructor).
  rewrite Forall_forall in Hall. apply Hall. apply list_elem_of_In.
  destruct (nth_in_or_default (Z.to_nat d) PublicKey.alphabet "1"%char) as [Hin| ->]; [by right|by left].
Qed.

Lemma base58_not_space bs : forallb (λ c, negb (is_space c)) (chars (base58_encode bs)) = true.
Proof.
  unfold base58_encode. rewrite chars_text, forallb_app. apply andb_true_iff. split; apply forallb_forall.
  - intros c Hc%list_elem_of_In. apply elem_of_replicate in Hc as [-> _]. done.
  - intros c (d & <- & _)%in_map_iff. by rewrite char58_not_space.
Qed.

#[local] Instance sample_platform : X402Platform Base58.keys braced http_urls plain_host.
Proof.
  split.
  - intros s u. unfold new_URL, http_urls. destruct s as [|c s]; [done|]. destruct (bool_decide _) eqn:E; [|done].
    intros [= <-]. cbn [Url.href]. by rewrite E.
  - intros s u. unfold new_URL, http_urls. destruct s as [|c s]; [done|]. destruct (bool_decide _) eqn:E; [|done].
    intros [= <-]. apply bool_decide_eq_true in E as ->. cbn [Url.href].
    unfold trim. cbn [trim_start]. change (is_space "h") with false. cbn [trim_end]. change (is_space "h") with false. by destruct (trim_end s).
  - intros k Hk. change (trim (base58_encode k) ≠ ""). pose proof (base58_not_space k) as Hs. destruct (base58_encode k) as [|c rest] eqn:E.
    + pose proof (base58_decode_encode k) as Hd. rewrite E in Hd. cbn in Hd. injection Hd as <-. done.
    + change (chars (String.String c rest)) with (c :: chars rest) in Hs. cbn [forallb] in Hs. apply andb_true_iff in Hs as [Hc Hr].
      assert (trim (String.String c rest) = String.String c rest) as ->; [|done].
      rewrite <- (text_chars rest). apply (trim_digits c (chars rest)); [by apply negb_true_iff in Hc|done].
  - intros bs. cbn. by rewrite atob_btoa.
  - intros c s v. cbn. case_bool_decide as E; [|done]. intros _. subst. apply (bool_decide_unpack _). vm_compute. exact I.
  - intros fields. by eexists.
Qed.

(** ** Two merchants *)

Definition shop_owner : Address := Eval vm_compute in base58_encode (sample_key 31).
Definition shop_agent : Address := Eval vm_compute in base58_encode (sample_key 32).
Definition shop_mint : Address := "4zMMC9srt5Ri5X14GAgXhaHii3GnPAEERYPJgZJDncDU".
Definition shop_account : Address :=
  Eval vm_compute in match deriveAssociatedTokenAddress shop_owner shop_mint spl_token with Ok a => a | Throw _ => "" end.

Definition env_of (l : list (string * string)) : Env := λ name, snd <$> find (λ e, bool_decide (e.1 = name)) l.

Definition shop_variables : list (string * string) :=
  [("CHAINPAY_X402_RESOURCE_URL", "http://shop/data"); ("CHAINPAY_X402_RECIPIENT_TOKEN_ACCOUNT", shop_account);
   ("CHAINPAY_X402_ALLOWED_AGENT", shop_agent); ("CHAINPAY_RPC_URL", "http://rpc"); ("CHAINPAY_X402_NONCE", "order 7")].
Definition v2_variables : list (string * string) :=
  ("CHAINPAY_X402_CHALLENGE_SHAPE", "v2") :: ("CHAINPAY_X402_MERCHANT_OWNER", shop_owner) :: shop_variables.

Definition shop_base : MerchantConfig.t :=
  MerchantConfig.mk "http://shop/data" shop_mint shop_account "100000" spl_token shop_agent
    "3H9TV1EPR2BAQgVmcMqpufiZKPXbAMnjHp13LA9Lndv4" (Some "order 7").
Definition custom_shop : LoadedConfig.t := LoadedConfig.mk shop_base None "http://rpc" shape_custom.
Definition v2_shop : LoadedConfig.t := LoadedConfig.mk shop_base (Some shop_owner) "http://rpc" shape_v2.
Definition custom_challenge : list (string * value) := customPaymentRequired custom_shop.
Definition v2_challenge : list (string * value) :=
  match standardV2PaymentRequired v2_shop with Ok c => c | Throw _ => [] end.

Lemma custom_shop_loaded : loadMerchantConfig (env_of shop_variables) 3402 = Ok custom_shop.
Proof. vm_compute. reflexivity. Qed.

Lemma v2_shop_loaded : loadMerchantConfig (env_of v2_variables) 3402 = Ok v2_shop.
Proof. vm_compute. reflexivity. Qed.

(** The same merchant in the v2 protocol, without a nonce *)
Definition plain_variables : list (string * string) :=
  filter (λ v, v.1 ≠ "CHAINPAY_X402_NONCE") v2_variables.
Definition plain_shop : LoadedConfig.t :=
  LoadedConfig.mk (MerchantConfig.mk "http://shop/data" shop_mint shop_account "100000" spl_token shop_agent
    "3H9TV1EPR2BAQgVmcMqpufiZKPXbAMnjHp13LA9Lndv4" None) (Some shop_owner) "http://rpc" shape_v2.
Definition plain_challenge : list (string * value) :=
  match standardV2PaymentRequired plain_shop with Ok c => c | Throw _ => [] end.

Lemma plain_shop_loaded : loadMerchantConfig (env_of plain_variables) 3402 = Ok plain_shop.
Proof. vm_compute. reflexivity. Qed.

Definition read_and_priced (shop : LoadedConfig.t) (challenge : list (string * value)) : Prop :=
  let answer := challenge_answer challenge in
  ∃ detected fields request,
    detectPaymentChallenge answer.(ChallengeAnswer.payment_required) (Some answer.(ChallengeAnswer.x_payment_required))
      answer.(ChallengeAnswer.body) (Some shop.(LoadedConfig.base).(MerchantConfig.resource)) = Read detected
    ∧ detectedChallengeToPrepareFields detected shop.(LoadedConfig.base).(MerchantConfig.tokenProgram) = Ok fields
    ∧ toPreparePaymentInput shop_owner fields = Ok request
    ∧ priced shop.(LoadedConfig.base) (merchant_references shop.(LoadedConfig.base)) request
        shop.(LoadedConfig.base).(MerchantConfig.allowedAgent) shop.(LoadedConfig.base).(MerchantConfig.programId).

Lemma challenge_prices_payment_witness :
  read_and_priced custom_shop custom_challenge ∧ read_and_priced plain_shop plain_challenge.
Proof.
  split.
  - destruct (challenge_prices_payment (env_of shop_variables) 3402 custom_shop custom_challenge shop_owner)
      as (detected & fields & request & H1 & H2 & H3 & _ & _ & H4);
      [exact custom_shop_loaded|reflexivity|vm_compute; discriminate|split; vm_compute; discriminate|].
    exists detected, fields, request. split_and!; [exact H1|exact H2|exact H3|]. apply H4. left. reflexivity.
  - destruct (challenge_prices_payment (env_of plain_variables) 3402 plain_shop plain_challenge shop_owner)
      as (detected & fields & request & H1 & H2 & H3 & _ & _ & H4);
      [exact plain_shop_loaded|vm_compute; reflexivity|vm_compute; discriminate|split; vm_compute; discriminate|].
    exists detected, fields, request. split_and!; [exact H1|exact H2|exact H3|]. apply H4. right. reflexivity.
Defined.

Lemma challenge_canonical_witness :
  ∃ c, challenge_ok (Some "http://shop/data") c ∧
  ∃ documents, paymentRequiredDocumentsFromResponse None (Some (challenge_answer custom_challenge).(ChallengeAnswer.x_payment_required))
      (VObject custom_challenge) = Read documents ∧
    (∃ d, d ∈ documents ∧ parsePaymentRequiredDocument d (Some "http://shop/data") = Read c) ∧
    ∀ d c', d ∈ documents → parsePaymentRequiredDocument d (Some "http://shop/data") = Read c' → kind_of c' = kind_of c.
Proof.
  exists (custom (custom_option shop_base) custom_challenge).
  apply (challenge_canonical None (Some (challenge_answer custom_challenge).(ChallengeAnswer.x_payment_required))
           (VObject custom_challenge) (Some "http://shop/data") (custom (custom_option shop_base) custom_challenge)).
  vm_compute. reflexivity.
Defined.

Lemma v2_nonce_misprices_witness :
  let answer := challenge_answer v2_challenge in
  ∃ detected fields request,
    detectPaymentChallenge answer.(ChallengeAnswer.payment_required) (Some answer.(ChallengeAnswer.x_payment_required))
      answer.(ChallengeAnswer.body) (Some v2_shop.(LoadedConfig.base).(MerchantConfig.resource)) = Read detected
    ∧ detectedChallengeToPrepareFields detected v2_shop.(LoadedConfig.base).(MerchantConfig.tokenProgram) = Ok fields
    ∧ toPreparePaymentInput shop_owner fields = Ok request
    ∧ (merchant_references v2_shop.(LoadedConfig.base)).(X402PaymentReferences.invoiceHash)
        ≠ bytesToHex request.(PaymentRequest.invoiceHash).
Proof.
  apply (v2_nonce_misprices (env_of v2_variables) 3402 v2_shop v2_challenge shop_owner "order 7").
  - exact v2_shop_loaded.
  - reflexivity.
  - reflexivity.
  - reflexivity.
  - vm_compute. discriminate.
  - split; vm_compute; discriminate.
  - vm_compute. discriminate.
  - apply collision_free_check. vm_compute. reflexivity.
Defined.
