(* ===== verification/CardDraft.v ===== *)
(** * Card drafts: what an agent may propose (sdk/src/cards/draft.ts, merchants.ts and hash.ts)

    The sandbox shops and the hashes of their ids, the drafts an agent sends to
    the owner's dashboard in a link, and the dashboard's intake of such a link;
    then the form it fills (CardCreate.tsx, amounts.ts), the policy saved from
    the form (liveSource.ts), and the theorems: a link opens as the draft it was
    made from, and what matches is what is signed.  An input of unknown type is a
    [value]. *)
From Stdlib Require Import ZArith Lia Strings.Byte Strings.Ascii.
From stdpp Require Import base numbers sets strings list.
From S2P Require Import Prelude Bytes PublicKey Types Encoding CardConstants Decimal Base64 Dates CardMath CardPda Utf8 CardInstructions CardCommitment Values CardRedact SupportParse Signed X402ChallengeProps.

(** ** Domain-separated hashes (hash.ts) *)

Section Hashes.
Context `{H : Sha256}.

(** [toUpperCase] of a code unit below 256; of the two whose capital is past
    U+00FF (the micro sign and y with diaeresis) the letter is kept. *)
Definition upper_unit (c : ascii) : list ascii :=
  let n := N_of_ascii c in
  if (n =? 223)%N then ["S"; "S"]%char
  else if ((97 <=? n) && (n <=? 122) || (224 <=? n) && (n <=? 254) && negb (n =? 247))%N then [ascii_of_N (n - 32)]
  else [c].
Definition upper_text (s : string) : string := text (concat (map upper_unit (chars s))).

Definition line_feed : string := String.String (ascii_of_N 10) EmptyString.

Definition merchantIdHash (acceptorId : string) : result bytes :=
  let normalized := upper_text (trim acceptorId) in
  throw_if! bool_decide (normalized = "") with "merchant acceptor id is required";
  Ok (sha256 (text_encode ("chainpay-merchant:v1" +:+ line_feed +:+ normalized))).

Definition authIdHash (issuer : number) (issuerTransactionToken : string) : result bytes :=
  throw_if! out_of_range issuer 0 255 with "issuer must fit in u8";
  throw_if! bool_decide (issuerTransactionToken = "") with "issuer transaction token is required";
  Ok (sha256 (text_encode ("chainpay-auth-id:v1" +:+ line_feed) ++ [byte_of (bigint_of issuer)] ++ text_encode issuerTransactionToken)).

Definition issuerCardRefHash (issuerCardToken : string) (refSalt : bytes) : result bytes :=
  throw_if! negb (Nat.eqb (length refSalt) 32) with "refSalt must be exactly 32 bytes";
  throw_if! bool_decide (issuerCardToken = "") with "issuer card token is required";
  Ok (sha256 (text_encode ("chainpay-card-ref:v1" +:+ line_feed) ++ text_encode issuerCardToken ++ refSalt)).

(** [/^cpcap_v1_[A-Za-z0-9_-]{43}$/] *)
Definition isCheckoutCapability (v : value) : bool :=
  match v with
  | VString s =>
      let cs := chars s in
      bool_decide (take 9 cs = chars "cpcap_v1_") && Nat.eqb (length cs) 52 && forallb is_url_char (drop 9 cs)
  | _ => false
  end.
End Hashes.

(** ** The sandbox shops (merchants.ts) *)

Module CardSandboxMerchant.
Record t : Type := mk {
  ref : string;
  displayName : string;
  acceptorId : string;
  descriptor : string;
  sells : string;
  mcc : Z;
  fixture_approved : bool;
}.
End CardSandboxMerchant.

Definition CARD_SANDBOX_MERCHANTS : list CardSandboxMerchant.t :=
  [CardSandboxMerchant.mk "demo-approved" "ChainPay demo shop" "DEMO-DATAAPI" "DATA API CREDITS" "Data API credits" 5734 true;
   CardSandboxMerchant.mk "demo-unapproved" "Unlisted test shop" "DEMO-OTHERSHOP" "UNAPPROVED SHOP" "Anything else" 5999 false].

Definition CARD_MCC_NAMES : list (Z * string) :=
  [(4816, "Online services"); (5045, "Computers and electronics"); (5734, "Software"); (5817, "Digital goods"); (5942, "Books");
   (5999, "Other retail"); (7372, "Data and computer services"); (4121, "Rides")].

Definition cardMerchantByRef (ref : string) : option CardSandboxMerchant.t :=
  List.find (λ m, bool_decide (m.(CardSandboxMerchant.ref) = ref)) CARD_SANDBOX_MERCHANTS.

Definition cardMerchantByAcceptorId (acceptorId : string) : option CardSandboxMerchant.t :=
  let wanted := upper_text (trim acceptorId) in
  List.find (λ m, bool_decide (m.(CardSandboxMerchant.acceptorId) = wanted)) CARD_SANDBOX_MERCHANTS.

(** [`"${s}"`] is [quoted] of [CardMath]. *)
Definition merchantIdHashesForRefs `{Sha256} (refs : list string) : result (list bytes) :=
  traverse (λ ref, match cardMerchantByRef ref with
                   | Some m => merchantIdHash m.(CardSandboxMerchant.acceptorId)
                   | None => Throw (quoted ref +:+ " isn't a registered shop")
                   end) refs.

Definition mcc_text (mcc : Z) : string := text (padStart 4 (chars (toString mcc))).

Definition mccLabel (mcc : Z) : string :=
  match List.find (λ p, p.1 =? mcc) CARD_MCC_NAMES with
  | Some (_, name) => name +:+ " (" +:+ mcc_text mcc +:+ ")"
  | None => "Category " +:+ mcc_text mcc
  end.

(** ** Drafts *)

Module CardDraft.
Record t : Type := mk {
  label : string;
  budgetCents : string;
  maxPurchaseCents : string;
  merchants : list string;
  mccs : list Z;
  periodDays : Z;
  expiresAt : option string;
  feeBps : Z;
}.
End CardDraft.

Definition DEFAULT_CARD_FEE_BPS : Z := 50.
Definition MAX_PERIOD_DAYS : Z := 365.

(** [/^[A-Za-z0-9_.:-]{1,64}$/] *)
Definition is_ref_char (c : ascii) : bool := is_url_char c || bool_decide (c ∈ ["."; ":"]%char).
Definition merchant_ref (s : string) : bool :=
  forallb is_ref_char (chars s) && Nat.leb 1 (length (chars s)) && Nat.leb (length (chars s)) 64.

Definition as_unknown (v : value) : unknown := match v with VString s => UString s | _ => UOther end.

(** The strings of a list of merchant references *)
Definition reference_of (v : value) : result string :=
  match v with
  | VString s => if merchant_ref s then Ok s else Throw "merchants must be a list of merchant references"
  | _ => Throw "merchants must be a list of merchant references"
  end.

Definition category_of (v : value) : result Z :=
  match v with
  | VNumber (JInt z) => if (0 <=? z) && (z <=? 9999) then Ok z else Throw "mccs must be a list of 4-digit merchant category codes"
  | _ => Throw "mccs must be a list of 4-digit merchant category codes"
  end.

Definition list_field {A} (v : value) (each : value → result A) (message : string) : result (list A) :=
  match v with
  | VUndefined => Ok []
  | VArray items => traverse each items
  | _ => Throw message
  end.

(** A whole number between two bounds *)
Definition whole (v : value) (lo hi : Z) (message : string) : result Z :=
  match v with
  | VNumber n => throw_if! out_of_range n lo hi with message; Ok (bigint_of n)
  | _ => Throw message
  end.

Definition unknown_shops (refs : list string) : list string :=
  filter (λ ref, cardMerchantByRef ref = None) refs.

Definition unknown_message (unknown : list string) : string :=
  String.concat ", " (map (λ ref, quoted (redactCardNumbersInInput ref)) unknown) +:+ " "
  +:+ (if Nat.eqb (length unknown) 1 then "isn't a shop" else "aren't shops") +:+ " ChainPay can check out at".

(** [new Date(ms).toISOString()]: a year outside 0 to 9999 has a sign and six digits. *)
Definition date_text (ms : Z) : string :=
  let '(y, _, _) := civil_from_days (ms / MS_PER_DAY) in
  if (0 <=? y) && (y <=? 9999) then toISOString ms
  else text ((if y <? 0 then "-"%char else "+"%char) :: padStart 6 (nat_chars (Z.abs y))
             ++ drop (length (padStart 4 (nat_chars y))) (iso_chars ms)).

(** [Date.parse] gives an integer or NaN. *)
Definition expiry_of `{Codec} (v : value) (now : Z) : result (option string) :=
  if nullish v then Ok None
  else match match v with VString s => Date_parse s | _ => JNaN end with
       | JInt ms => throw_if! ms <=? now with "expiresAt must be in the future"; Ok (Some (date_text ms))
       | _ => Throw "expiresAt must be an ISO date"
       end.

Definition check_shops (merchants : list string) (mccs : list Z) : result unit :=
  throw_if! Nat.eqb (length merchants) 0 && Nat.eqb (length mccs) 0 with "Pick at least one shop or merchant category";
  throw_if! negb (Nat.eqb (length (unknown_shops merchants)) 0) with unknown_message (unknown_shops merchants);
  throw_if! Nat.ltb MAX_MERCHANTS (length merchants) with "At most " +:+ toString (Z.of_nat MAX_MERCHANTS) +:+ " shops";
  throw_if! Nat.ltb MAX_MCCS (length mccs) with "At most " +:+ toString (Z.of_nat MAX_MCCS) +:+ " merchant categories";
  throw_if! has_repeat merchants with "A shop is listed twice";
  throw_if! has_repeat mccs with "A merchant category is listed twice";
  Ok tt.

Section Drafts.
Context `{H : Sha256, C : Codec}.

Definition normalizeCardDraft (input : value) (now : Z) : result CardDraft.t :=
  let! label := match get input "label" with VString s => Ok (trim s) | _ => Throw "label must be 1-40 characters" end in
  throw_if! bool_decide (label = "") || Nat.ltb 40 (String.length label) with "label must be 1-40 characters";
  let! budget := parseCents (as_unknown (get input "budgetCents")) "budgetCents" in
  let! maxPurchase := parseCents (as_unknown (get input "maxPurchaseCents")) "maxPurchaseCents" in
  throw_if! budget <=? 0 with "Budget must be more than $0";
  throw_if! MAX_BUDGET_CENTS <? budget with "Budget can't be more than $10,000 in the sandbox";
  throw_if! (maxPurchase <=? 0) || (budget <? maxPurchase) with "Max purchase must be more than $0 and no more than the budget";
  let! merchants := list_field (get input "merchants") reference_of "merchants must be a list of merchant references" in
  let! mccs := list_field (get input "mccs") category_of "mccs must be a list of 4-digit merchant category codes" in
  let! _ := check_shops merchants mccs in
  let! periodDays := whole (get input "periodDays") 1 MAX_PERIOD_DAYS
                       ("periodDays must be a whole number from 1 to " +:+ toString MAX_PERIOD_DAYS) in
  let feeBps := get input "feeBps" in
  let! feeBps := if undefined feeBps then Ok DEFAULT_CARD_FEE_BPS
                 else whole feeBps 0 MAX_FEE_BPS "feeBps must be a whole number from 0 to 1000" in
  let! expiresAt := expiry_of (get input "expiresAt") now in
  let! budgetCents := centsToString budget in
  let! maxPurchaseCents := centsToString maxPurchase in
  Ok (CardDraft.mk label budgetCents maxPurchaseCents merchants mccs periodDays expiresAt feeBps).

Definition expiry_value (e : option string) : value := match e with Some s => VString s | None => VNull end.
Definition refs_value (refs : list string) : value := VArray (map VString refs).
Definition mccs_value (mccs : list Z) : value := VArray (map (λ z, VNumber (JInt z)) mccs).

Definition canonical (d : CardDraft.t) : string :=
  JSON_stringify (VArray [VNumber (JInt 1); VString d.(CardDraft.label); VString d.(CardDraft.budgetCents);
    VString d.(CardDraft.maxPurchaseCents); refs_value d.(CardDraft.merchants); mccs_value d.(CardDraft.mccs);
    VNumber (JInt d.(CardDraft.periodDays)); expiry_value d.(CardDraft.expiresAt); VNumber (JInt d.(CardDraft.feeBps))]).

Definition draft_text (d : CardDraft.t) : bytes := text_encode ("chainpay-card-draft:v1" +:+ line_feed +:+ canonical d).

Definition cardDraftDigest (d : CardDraft.t) : string := bytesToHex (sha256 (draft_text d)).

Definition cardDraftMaxObligationCents (d : CardDraft.t) : result string :=
  let! owed := maxObligationCents (BigInt d.(CardDraft.budgetCents)) (JInt d.(CardDraft.feeBps)) in centsToString owed.

(** ** Links *)

Definition toBase64Url (s : string) : string := bytesToBase64Url (text_encode s).

(** [atob] without padding, and the decoder that replaces what is malformed and drops a byte order mark *)
Definition fromBase64Url (v : list ascii) : result string :=
  match atob_chars (map std_char v) with
  | Some bs => Ok (text (map (λ p, narrow_char (default 65533 p)) (drop_bom (decode_points 0 0 128 191 bs))))
  | None => Throw "The string to be decoded is not correctly encoded."
  end.

Definition draft_value (d : CardDraft.t) : value :=
  VObject [("v", VNumber (JInt 1)); ("label", VString d.(CardDraft.label)); ("budgetCents", VString d.(CardDraft.budgetCents));
    ("maxPurchaseCents", VString d.(CardDraft.maxPurchaseCents)); ("merchants", refs_value d.(CardDraft.merchants));
    ("mccs", mccs_value d.(CardDraft.mccs)); ("periodDays", VNumber (JInt d.(CardDraft.periodDays)));
    ("expiresAt", expiry_value d.(CardDraft.expiresAt)); ("feeBps", VNumber (JInt d.(CardDraft.feeBps)))].

(** [.replace(/\/+$/, "")] *)
Definition without_slashes (s : string) : string :=
  text (reverse (drop_while (λ c, bool_decide (c = "/"%char)) (reverse (chars s)))).

(** [/^https?:\/\//.test(origin)] *)
Definition http_origin (s : string) : bool :=
  bool_decide (take 7 (chars s) = chars "http://") || bool_decide (take 8 (chars s) = chars "https://").

Definition encodeCardDraftLink (d : CardDraft.t) (appBaseUrl : string) : result string :=
  let origin := without_slashes (trim appBaseUrl) in
  throw_if! negb (http_origin origin) with "App URL must be http(s)";
  Ok (origin +:+ "/app/cards/new#draft=" +:+ toBase64Url (JSON_stringify (draft_value d))).

Definition encodeCardDraftReviewLink (d : CardDraft.t) (appBaseUrl : string) : result string :=
  let! link := encodeCardDraftLink d appBaseUrl in
  Ok (link +:+ "&digest=" +:+ cardDraftDigest d).

(** The longest prefix of characters of a class *)
Fixpoint take_while (p : ascii → bool) (cs : list ascii) : list ascii :=
  match cs with c :: rest => if p c then c :: take_while p rest else [] | [] => [] end.

Fixpoint after_prefix (p cs : list ascii) : option (list ascii) :=
  match p, cs with
  | [], _ => Some cs
  | a :: p, c :: cs => if bool_decide (a = c) then after_prefix p cs else None
  | _ :: _, [] => None
  end.

(** [/(?:^#?|&)name=.../]: the first place where the name and what [read] takes follow the start or an ampersand *)
Fixpoint scan_fragment (name : list ascii) (read : list ascii → option (list ascii)) (cs : list ascii) : option (list ascii) :=
  match cs with
  | [] => None
  | c :: rest =>
      match (if bool_decide (c = "&"%char) then after_prefix name rest ≫= read else None) with
      | Some v => Some v
      | None => scan_fragment name read rest
      end
  end.

Definition fragment_param (name : string) (read : list ascii → option (list ascii)) (fragment : string) : option (list ascii) :=
  let cs := chars fragment in
  let start := match cs with "#"%char :: rest => rest | _ => cs end in
  match after_prefix (chars name) start ≫= read with
  | Some v => Some v
  | None => scan_fragment (chars name) read cs
  end.

(** [([A-Za-z0-9_-]+)] *)
Definition read_draft (cs : list ascii) : option (list ascii) :=
  match take_while is_url_char cs with [] => None | v => Some v end.

Definition is_low_hex (c : ascii) : bool :=
  let n := char_code c in (48 <=? n) && (n <=? 57) || (97 <=? n) && (n <=? 102).

(** [([0-9a-f]{64})(?:&|$)] *)
Definition read_digest (cs : list ascii) : option (list ascii) :=
  if Nat.eqb (length (take 64 cs)) 64 && forallb is_low_hex (take 64 cs)
     && match drop 64 cs with [] => true | c :: _ => bool_decide (c = "&"%char) end
  then Some (take 64 cs) else None.

Definition decodeCardDraftFragment (fragment : string) (now : Z) : result CardDraft.t :=
  match fragment_param "draft=" read_draft fragment with
  | None => Throw "No card draft in this link"
  | Some v =>
      let! json := fromBase64Url v in
      match JSON_parse json with
      | None => Throw "The link is not JSON"
      | Some raw =>
          throw_if! nullish raw with "Cannot read properties of null (reading 'v')";
          throw_if! negb (strict_eq (get raw "v") (VNumber (JInt 1))) with "Unsupported card draft version";
          normalizeCardDraft raw now
      end
  end.

Inductive CardDraftIntake : Type :=
| matched (draft : CardDraft.t) (digest : string)
| mismatch (digest expected : string)
| missing_digest (digest : string)
| invalid (reason : string).

Definition verifyCardDraftFragment (fragment : string) (now : Z) : CardDraftIntake :=
  match decodeCardDraftFragment fragment now with
  | Throw reason => invalid reason
  | Ok draft =>
      let digest := cardDraftDigest draft in
      match fragment_param "digest=" read_digest fragment with
      | None => missing_digest digest
      | Some claimed => if negb (bool_decide (text claimed = digest)) then mismatch digest (text claimed) else matched draft digest
      end
  end.

End Drafts.

(** ** Amounts of dollars (frontend/src/dashboard/cards/amounts.ts) *)

(** [/,(?=\d{3}(\D|$))/]: what may follow a comma that is dropped *)
Definition thousands (cs : list ascii) : bool :=
  Nat.eqb (length (take 3 cs)) 3 && forallb is_digit (take 3 cs)
  && match drop 3 cs with [] => true | c :: _ => negb (is_digit c) end.

Fixpoint drop_commas (cs : list ascii) : list ascii :=
  match cs with
  | [] => []
  | c :: rest => if bool_decide (c = ","%char) && thousands rest then drop_commas rest else c :: drop_commas rest
  end.

(** [padEnd(2, "0")] *)
Definition padEnd2 (cs : list ascii) : list ascii := cs ++ replicate (2 - length cs) "0"%char.

(** [/^(0|[1-9][0-9]{0,13})(?:\.([0-9]{1,2}))?$/] *)
Definition dollars_and_cents (cs : list ascii) : option (list ascii * list ascii) :=
  let whole := take_while is_digit cs in
  if decimal_chars 13 whole then
    match drop (length whole) cs with
    | [] => Some (whole, [])
    | "."%char :: frac =>
        if forallb is_digit frac && Nat.leb 1 (length frac) && Nat.leb (length frac) 2 then Some (whole, frac) else None
    | _ => None
    end
  else None.

Definition dollarsToCents (s : string) : option string :=
  let cs := chars (trim s) in
  let cs := match cs with "$"%char :: rest => rest | _ => cs end in
  match dollars_and_cents (drop_commas cs) with
  | Some (whole, frac) => Some (toString (chars_value whole * 100 + chars_value (padEnd2 frac)))
  | None => None
  end.

Definition centsToDollarInput (cents : string) : string :=
  let value := BigInt cents in
  let whole := toString (Z.quot value 100) in
  let rest := Z.rem value 100 in
  if rest =? 0 then whole else whole +:+ "." +:+ text (padStart2 (nat_chars rest)).

(** ** The form of a new card (frontend/src/dashboard/cards/CardCreate.tsx)

    The texts of the two selectors, [periodDays] and [endsInDays], are those of
    whole numbers; [maxPurchases] is the number its text is read as. *)
Module CreateForm.
Record t : Type := mk {
  label : string;
  budget : string;
  maxPurchase : string;
  maxPurchases : number;
  periodDays : Z;
  endsInDays : Z;
  merchants : list string;
  mccs : list Z;
  recurring : bool;
  feeBps : Z;
}.
End CreateForm.

Module CreateCardInput.
Record t : Type := mk {
  label : string;
  budgetCents : string;
  maxPurchaseCents : string;
  maxPurchasesPerPeriod : number;
  periodDays : Z;
  merchants : list string;
  mccs : list Z;
  expiresAt : option string;
  recurringAllowed : bool;
  feeBps : Z;
}.
End CreateCardInput.

Section Form.
Context `{C : Codec}.

(** Whole days from [now] until the end of a card, rounded up, at least one *)
Definition days_until (ms now : Z) : Z := Z.max 1 (- ((now - ms) / MS_PER_DAY)).

(** The form as a matched draft fills it, at [now] *)
Definition filled_form (draft : CardDraft.t) (now : Z) : CreateForm.t :=
  CreateForm.mk draft.(CardDraft.label) (centsToDollarInput draft.(CardDraft.budgetCents))
    (centsToDollarInput draft.(CardDraft.maxPurchaseCents)) (JInt 0) draft.(CardDraft.periodDays)
    (match draft.(CardDraft.expiresAt) with
     | Some e => match Date_parse e with JInt ms => days_until ms now | _ => 0 end
     | None => 0
     end)
    draft.(CardDraft.merchants) draft.(CardDraft.mccs) false draft.(CardDraft.feeBps).

(** [new Date(ms).toISOString()], for a date of any range *)
Definition to_iso (ms : Z) : result string :=
  if 8640000000000000 <? Z.abs ms then Throw "Invalid time value" else Ok (date_text ms).

(** What the form gives [normalizeCardDraft] *)
Definition form_value (form : CreateForm.t) (budgetCents maxPurchaseCents : string) (merchants : list string) (mccs : list Z)
    (expiresAt : option string) : value :=
  VObject [("label", VString form.(CreateForm.label)); ("budgetCents", VString budgetCents);
    ("maxPurchaseCents", VString maxPurchaseCents); ("merchants", refs_value merchants); ("mccs", mccs_value mccs);
    ("periodDays", VNumber (JInt form.(CreateForm.periodDays))); ("expiresAt", expiry_value expiresAt);
    ("feeBps", VNumber (JInt form.(CreateForm.feeBps)))].

(** The clock is read twice, for the end of the card ([now]) and by
    [normalizeCardDraft] ([later]); [shops] are the references of the registered
    shops, once they are loaded. *)
Definition validate (form : CreateForm.t) (step : Z) (shops : option (list string)) (now later : Z) : result CreateCardInput.t :=
  let budgetCents := dollarsToCents form.(CreateForm.budget) in
  let maxPurchaseCents := dollarsToCents form.(CreateForm.maxPurchase) in
  throw_if! bool_decide (trim form.(CreateForm.label) = "") with "Give the card a name.";
  match budgetCents, maxPurchaseCents with
  | None, _ => Throw "Enter the budget in dollars, like 500 or 500.00."
  | _, None => Throw "Enter the max per purchase in dollars, like 30."
  | Some budgetCents, Some maxPurchaseCents =>
  throw_if! out_of_range form.(CreateForm.maxPurchases) 0 65535
    with "Purchases per period must be a whole number (0 means no limit).";
  throw_if! (1 <=? step) && negb (Nat.eqb (length form.(CreateForm.merchants)) 0) && match shops with None => true | _ => false end
    with "The shop list is still loading. Try again in a moment.";
  let! _ := match shops with
            | Some shops =>
                match filter (λ ref, ref ∉ shops) form.(CreateForm.merchants) with
                | ref :: _ => Throw (quoted ref +:+ " isn't a registered shop, so it can't go on the card.")
                | [] => Ok tt
                end
            | None => Ok tt
            end in
  let! expiresAt := if 0 <? form.(CreateForm.endsInDays)
                    then let! s := to_iso (now + form.(CreateForm.endsInDays) * MS_PER_DAY) in Ok (Some s)
                    else Ok None in
  let! draft := normalizeCardDraft (form_value form budgetCents maxPurchaseCents
      (if 1 <=? step then form.(CreateForm.merchants) else [default "demo-approved" (shops ≫= head)])
      (if 1 <=? step then form.(CreateForm.mccs) else []) expiresAt) later in
  Ok (CreateCardInput.mk draft.(CardDraft.label) draft.(CardDraft.budgetCents) draft.(CardDraft.maxPurchaseCents)
    form.(CreateForm.maxPurchases) draft.(CardDraft.periodDays) draft.(CardDraft.merchants) draft.(CardDraft.mccs)
    draft.(CardDraft.expiresAt) form.(CreateForm.recurring) draft.(CardDraft.feeBps))
  end.

(** The policy [saveRules] of liveSource.ts saves: [registry] finds the hash of a
    shop in the registry of shops by its reference. *)
Definition saveRules (input : CreateCardInput.t) (registry : string → option bytes) (authorizer : Address) : result PolicyArgs.t :=
  let! merchantIdHashes := traverse (λ ref, match registry ref with
      | Some h => Ok h
      | None => Throw (quoted ref +:+ " isn't a shop ChainPay can check out at, so nothing was signed.")
      end) input.(CreateCardInput.merchants) in
  let! expiresAt := match input.(CreateCardInput.expiresAt) with
                    | Some s => match Date_parse s with JInt ms => Ok (ms / 1000) | _ => Throw "RangeError" end
                    | None => Ok 0
                    end in
  Ok (PolicyArgs.mk (BigInt input.(CreateCardInput.budgetCents)) (BigInt input.(CreateCardInput.maxPurchaseCents))
    input.(CreateCardInput.maxPurchasesPerPeriod) (JInt (input.(CreateCardInput.periodDays) * 86400)) "USD" merchantIdHashes
    (map JInt input.(CreateCardInput.mccs)) expiresAt input.(CreateCardInput.recurringAllowed)
    (JInt input.(CreateCardInput.feeBps)) authorizer).
End Form.

(** ** Normalized drafts *)

(** An end date between the years 0 and 9999, as the code writes it, that has not come *)
Definition dated_after (now : Z) (e : option string) : Prop :=
  match e with
  | None => True
  | Some s => ∃ ms, s = toISOString ms ∧ FIRST_DAY * MS_PER_DAY <= ms < (LAST_DAY + 1) * MS_PER_DAY ∧ now < ms
  end.

Class DateSpec (C : Codec) : Prop :=
  date_parsed ms : FIRST_DAY * MS_PER_DAY <= ms < (LAST_DAY + 1) * MS_PER_DAY → Date_parse (toISOString ms) = JInt ms.

(** What a draft that passed normalization holds, its end date apart *)
Record normal (d : CardDraft.t) : Prop := mk_normal {
  no_label : trim d.(CardDraft.label) = d.(CardDraft.label) ∧ d.(CardDraft.label) ≠ "" ∧
    (String.length d.(CardDraft.label) <= 40)%nat;
  no_amounts : ∃ budget maxPurchase, d.(CardDraft.budgetCents) = toString budget ∧
    d.(CardDraft.maxPurchaseCents) = toString maxPurchase ∧ 0 < maxPurchase <= budget ∧ budget <= MAX_BUDGET_CENTS;
  no_merchants : Forall (λ r, merchant_ref r = true) d.(CardDraft.merchants);
  no_mccs : Forall (λ z, 0 <= z <= 9999) d.(CardDraft.mccs);
  no_shops : check_shops d.(CardDraft.merchants) d.(CardDraft.mccs) = Ok tt;
  no_period : 1 <= d.(CardDraft.periodDays) <= MAX_PERIOD_DAYS;
  no_fee : 0 <= d.(CardDraft.feeBps) <= MAX_FEE_BPS;
}.

Lemma date_text_near ms : FIRST_DAY * MS_PER_DAY <= ms < (LAST_DAY + 1) * MS_PER_DAY → date_text ms = toISOString ms.
Proof.
  intros Hr. unfold date_text. pose proof (civil_year (ms / MS_PER_DAY)) as Hy.
  destruct (civil_from_days (ms / MS_PER_DAY)) as [[y m] day]. rewrite (proj2 (Z.leb_le 0 y)), (proj2 (Z.leb_le y 9999)); [done|..];
    apply Hy; unfold FIRST_DAY, LAST_DAY, MS_PER_DAY in *; Z.div_mod_to_equations; lia.
Qed.

Lemma references_ok vs refs :
  traverse reference_of vs = Ok refs ↔ vs = map VString refs ∧ Forall (λ r, merchant_ref r = true) refs.
Proof.
  rewrite traverse_ok. split.
  - induction 1 as [|v r vs refs Hv _ [-> IH]]; [done|]. unfold reference_of in Hv. destruct v; try done.
    destruct (merchant_ref s) eqn:E; [|done]. injection Hv as <-. split; [done|by constructor].
  - intros [-> H]. induction H as [|r refs Hr _ IH]; cbn [map]; constructor; [|done]. unfold reference_of. by rewrite Hr.
Qed.

Lemma categories_ok vs zs :
  traverse category_of vs = Ok zs ↔ vs = map (λ z, VNumber (JInt z)) zs ∧ Forall (λ z, 0 <= z <= 9999) zs.
Proof.
  rewrite traverse_ok. split.
  - induction 1 as [|v z vs zs Hv _ [-> IH]]; [done|]. unfold category_of in Hv. destruct v as [| | |n| | | |]; try done. destruct n as [i| | |]; try done.
    destruct ((0 <=? i) && (i <=? 9999)) eqn:E; [|done]. injection Hv as <-. bool_reflect. split; [done|by constructor].
  - intros [-> H]. induction H as [|z zs Hz _ IH]; cbn [map]; constructor; [|done]. unfold category_of.
    by rewrite (proj2 (Z.leb_le _ _)), (proj2 (Z.leb_le _ _)) by lia.
Qed.

Lemma whole_ok v lo hi m z : whole v lo hi m = Ok z ↔ v = VNumber (JInt z) ∧ lo <= z <= hi.
Proof.
  unfold whole, out_of_range, num_ltb, num_gtb. split.
  - destruct v as [| | |n| | | |]; try done. intros H. destruct n as [i| | |]; try done. inv_ok H. cbn in *. bool_reflect. by subst.
  - intros [-> H]. cbn. by rewrite (proj2 (Z.ltb_ge _ _)), (proj2 (Z.ltb_ge _ _)) by lia.
Qed.

Lemma cents_ok v name z : parseCents (as_unknown v) name = Ok z → 0 <= z.
Proof. destruct v; cbn [as_unknown]; try done. intros H%(parseCents_iff s name z 0). lia. Qed.

(** What normalization returns is normal. *)
Lemma normalize_normal `{C : Codec} input now d :
  normalizeCardDraft input now = Ok d → normal d ∧ match d.(CardDraft.expiresAt) with
    | Some e => ∃ ms, e = date_text ms ∧ now < ms | None => True end.
Proof.
  unfold normalizeCardDraft. intros H. apply bind_ok in H as (label & Hl & H). apply if_throw_ok in H as [Hl' H].
  apply bind_ok in H as (budget & Hb & H). apply bind_ok in H as (maxp & Hm & H). inv_ok H. subst d.
  destruct (get input "label") as [| | | | |s| |]; try done. injection Hl as <-. apply orb_false_iff in Hl' as [Hne Hlen].
  apply bool_decide_eq_false in Hne. apply Nat.ltb_ge in Hlen. unfold list_field, centsToString in *.
  destruct a1. inv_ok E5. inv_ok E6. bool_reflect. subst. split; [split; cbn; try done|].
  - split; [apply trim_idem|done].
  - exists budget, maxp. split_and!; try done; lia.
  - destruct (get input "merchants"); try done; [by injection E as <-|by apply references_ok in E as [_ ?]].
  - destruct (get input "mccs"); try done; [by injection E0 as <-|by apply categories_ok in E0 as [_ ?]].
  - by apply whole_ok in E2 as [_ ?].
  - destruct (undefined _); [injection E3 as <-; unfold DEFAULT_CARD_FEE_BPS, MAX_FEE_BPS; lia|by apply whole_ok in E3 as [_ ?]].
  - cbn. unfold expiry_of in E4. destruct (nullish _); [by injection E4 as <-|].
    destruct (match get input "expiresAt" with VString s => Date_parse s | _ => JNaN end) as [ms| | |]; try done.
    inv_ok E4. bool_reflect. subst. by exists ms.
Qed.

Lemma expiry_value_ok `{C : Codec, !DateSpec C} e now : dated_after now e → expiry_of (expiry_value e) now = Ok e.
Proof.
  destruct e as [s|]; [|done]. intros (ms & -> & Hr & Hn). unfold expiry_of. cbn [expiry_value nullish].
  rewrite date_parsed, (proj2 (Z.leb_gt _ _)), date_text_near by done. done.
Qed.

Lemma label_ok (s : string) : trim s = s → s ≠ "" → (String.length s <= 40)%nat →
  bool_decide (trim s = "") || Nat.ltb 40 (String.length (trim s)) = false.
Proof. intros -> Hn Hl. by rewrite bool_decide_eq_false_2, (proj2 (Nat.ltb_ge _ _)). Qed.

Lemma parse_printed z name : 0 <= z < 10 ^ 16 → parseCents (UString (toString z)) name = Ok z.
Proof.
  intros Hz. apply (parseCents_iff _ name z 0). split; [done|]. unfold centsToString. by rewrite (proj2 (Z.ltb_ge _ _)) by lia.
Qed.

Definition with_expiry (d : CardDraft.t) (e : option string) : CardDraft.t :=
  CardDraft.mk d.(CardDraft.label) d.(CardDraft.budgetCents) d.(CardDraft.maxPurchaseCents) d.(CardDraft.merchants)
    d.(CardDraft.mccs) d.(CardDraft.periodDays) e d.(CardDraft.feeBps).

(** Normalization changes only the end date of a normal draft. *)
Lemma normalize_again `{C : Codec} d now :
  normal d → normalizeCardDraft (draft_value d) now
    = (let! e := expiry_of (expiry_value d.(CardDraft.expiresAt)) now in Ok (with_expiry d e)).
Proof.
  destruct d as [label bs ms refs mccs days e fee]. intros [(Ht & Hne & Hl) (b & m & Hb & Hm & Hbm & Hmax) Hr Hc Hs Hp Hf].
  cbn [CardDraft.label CardDraft.budgetCents CardDraft.maxPurchaseCents CardDraft.merchants CardDraft.mccs CardDraft.periodDays CardDraft.expiresAt CardDraft.feeBps] in *.
  subst bs ms. unfold normalizeCardDraft, MAX_BUDGET_CENTS, MAX_FEE_BPS in *.
  change (get (draft_value _) "label") with (VString label).
  change (get (draft_value _) "budgetCents") with (VString (toString b)).
  change (get (draft_value _) "maxPurchaseCents") with (VString (toString m)).
  change (get (draft_value _) "merchants") with (refs_value refs). change (get (draft_value _) "mccs") with (mccs_value mccs).
  change (get (draft_value _) "periodDays") with (VNumber (JInt days)).
  change (get (draft_value _) "feeBps") with (VNumber (JInt fee)).
  change (get (draft_value _) "expiresAt") with (expiry_value e).
  cbn [as_unknown bind list_field refs_value mccs_value undefined].
  rewrite label_ok, Ht, !parse_printed by (done || lia). cbn [bind].
  rewrite !(proj2 (Z.leb_gt _ _)), !(proj2 (Z.ltb_ge _ _)) by lia. cbn [orb].
  rewrite (proj2 (references_ok _ refs)), (proj2 (categories_ok _ mccs)) by done. cbn [bind]. rewrite Hs. cbn [bind].
  rewrite (proj2 (whole_ok _ _ _ _ days)), (proj2 (whole_ok _ _ _ _ fee)) by done. cbn [bind].
  destruct (expiry_of (expiry_value e) now); [|done]. cbn [bind]. unfold centsToString. by rewrite !(proj2 (Z.ltb_ge _ _)) by lia.
Qed.

(** Normalization leaves a normal draft that has not ended as it is. *)
Lemma normalize_value `{C : Codec, !DateSpec C} d now :
  normal d → dated_after now d.(CardDraft.expiresAt) → normalizeCardDraft (draft_value d) now = Ok d.
Proof. intros Hd He. rewrite normalize_again, expiry_value_ok by done. by destruct d. Qed.

(** ** The text of a draft *)

Lemma forallb_map_true {A} (f : value → bool) (g : A → value) l : Forall (λ a, f (g a) = true) l → forallb f (map g l) = true.
Proof. induction 1 as [|a l Ha _ IH]; [done|]. cbn [map forallb]. by rewrite Ha. Qed.

Lemma int_json z : 0 <= z <= 9007199254740991 → json (VNumber (JInt z)) = true.
Proof. intros H. cbn. by rewrite !(proj2 (Z.leb_le _ _)) by lia. Qed.

Lemma lists_json d : normal d →
  json (refs_value d.(CardDraft.merchants)) = true ∧ json (mccs_value d.(CardDraft.mccs)) = true ∧
  json (VNumber (JInt d.(CardDraft.periodDays))) = true ∧ json (VNumber (JInt d.(CardDraft.feeBps))) = true ∧
  json (expiry_value d.(CardDraft.expiresAt)) = true.
Proof.
  intros H. unfold MAX_FEE_BPS, MAX_PERIOD_DAYS in *. destruct H as [_ _ _ Hc _ Hp Hf]. unfold MAX_FEE_BPS, MAX_PERIOD_DAYS in *.
  split_and!; try (by apply int_json; lia); [..|by destruct (CardDraft.expiresAt d)].
  - cbn [json refs_value]. apply forallb_map_true. by apply Forall_true.
  - cbn [json mccs_value]. apply forallb_map_true. eapply Forall_impl; [exact Hc|]. intros z Hz. cbv beta in Hz. apply int_json. lia.
Qed.

Lemma draft_value_json d : normal d → json (draft_value d) = true.
Proof.
  intros (H1 & H2 & H3 & H4 & H5)%lists_json. unfold draft_value. cbn [json].
  apply andb_true_iff. split; [by apply bool_decide_eq_true_2; apply (bool_decide_unpack _); vm_compute|].
  cbn [forallb snd]. rewrite H1, H2, H3, H4, H5. done.
Qed.

Lemma strings_inj xs ys : map VString xs = map VString ys → xs = ys.
Proof. revert ys; induction xs as [|x xs IH]; intros [|y ys]; try done. intros [= -> ->%IH]. done. Qed.

Lemma integers_inj xs ys : map (λ z, VNumber (JInt z)) xs = map (λ z, VNumber (JInt z)) ys → xs = ys.
Proof. revert ys; induction xs as [|x xs IH]; intros [|y ys]; try done. intros [= -> ->%IH]. done. Qed.

(** The text that is hashed tells normal drafts apart. *)
Lemma draft_text_inj `{C : Codec, !JsonSpec C} d d' : normal d → normal d' → draft_text d = draft_text d' → d = d'.
Proof.
  intros (H1 & H2 & H3 & H4 & H5)%lists_json (H1' & H2' & H3' & H4' & H5')%lists_json E. unfold draft_text, canonical in E.
  apply text_encode_inj in E. apply (f_equal chars) in E. rewrite !chars_app in E. apply app_inv_head, app_inv_head in E.
  apply (f_equal text) in E. rewrite !text_chars in E.
  apply json_inj in E; [|match goal with |- json (VArray ?l) = true => change (forallb json l = true) end; cbn [forallb]; by rewrite ?H1, ?H2, ?H3, ?H4, ?H5, ?H1', ?H2', ?H3', ?H4', ?H5'..].
  destruct d, d'. cbn in E. injection E as -> -> -> Er%strings_inj Em%integers_inj -> Ee ->. subst.
  f_equal. destruct expiresAt, expiresAt0; by inversion Ee.
Qed.

(** ** Links *)

Lemma base64Url_text_roundtrip s : fromBase64Url (chars (toBase64Url s)) = Ok s.
Proof.
  unfold fromBase64Url, toBase64Url. rewrite atob_unpadded. rewrite <- (text_chars s) at 1. rewrite decode_text_encode.
  assert (drop_bom (map (Some ∘ char_code) (chars s)) = map (Some ∘ char_code) (chars s)) as ->.
  { destruct (chars s) as [|c cs]; [done|]. cbn [map drop_bom compose]. pose proof (char_code_range c).
    by rewrite (proj2 (Z.eqb_neq _ _)) by lia. }
  rewrite map_map. change (λ x, narrow_char (default 65533 ((Some ∘ char_code) x))) with (λ x, narrow_char (char_code x)).
  by rewrite <- (map_map char_code narrow_char), narrow_codes, text_chars.
Qed.

Lemma toBase64Url_nonempty s : s ≠ "" → chars (toBase64Url s) ≠ [].
Proof.
  intros Hs E. pose proof (base64Url_text_roundtrip s) as H. rewrite E in H. vm_compute in H. injection H as H. done.
Qed.

Lemma url_text s : forallb is_url_char (chars (toBase64Url s)) = true.
Proof. unfold toBase64Url. rewrite url_encoded. apply url_sextets. Qed.

Lemma take_while_stop p cs d rest : forallb p cs = true → p d = false → take_while p (cs ++ d :: rest) = cs.
Proof.
  intros Hc Hd. induction cs as [|c cs IH]; cbn [app take_while]; [by rewrite Hd|].
  cbn [forallb] in Hc. apply andb_true_iff in Hc as [-> Hc]. by rewrite IH.
Qed.

Lemma after_prefix_app p cs : after_prefix p (p ++ cs) = Some cs.
Proof. induction p as [|a p IH]; [done|]. cbn [app after_prefix]. by rewrite bool_decide_eq_true_2. Qed.

Lemma scan_skips name read pre rest :
  Forall (λ c, c ≠ "&"%char) pre → scan_fragment name read (pre ++ rest) = scan_fragment name read rest.
Proof.
  induction 1 as [|c pre Hc _ IH]; [done|]. cbn [app scan_fragment]. by rewrite bool_decide_eq_false_2, IH.
Qed.

Lemma hex_low bs : forallb is_low_hex (chars (bytesToHex bs)) = true.
Proof.
  induction bs as [|b bs IH]; [done|]. change (chars (bytesToHex (b :: bs)))
    with (hex_digit (byte_val b / 16) :: hex_digit (byte_val b mod 16) :: chars (bytesToHex bs)).
  cbn [forallb]. rewrite IH, andb_true_r. pose proof (byte_val_range b).
  assert (∀ n, 0 <= n < 16 → is_low_hex (hex_digit n) = true) as Hd.
  { intros n Hn. assert (Forall (λ n, is_low_hex (hex_digit n) = true) (seqZ 0 16)) as Hall by (repeat constructor).
    rewrite Forall_forall in Hall. apply Hall, elem_of_seqZ. lia. }
  rewrite !Hd; [done|by apply Z.mod_pos_bound|]. split; [apply Z.div_pos|apply Z.div_lt_upper_bound]; lia.
Qed.

Lemma chars_length s : length (chars s) = String.length s.
Proof. unfold chars. induction s; cbn; [done|by f_equal]. Qed.

Lemma read_digest_whole cs : length cs = 64%nat → forallb is_low_hex cs = true → read_digest cs = Some cs.
Proof.
  intros Hl Hx. unfold read_digest. rewrite take_ge by lia. rewrite drop_ge by lia. by rewrite Hl, Hx.
Qed.

(** A fragment of a draft and its digest *)
Definition review_fragment (v digest : list ascii) : string :=
  "#draft=" +:+ text v +:+ "&digest=" +:+ text digest.

Lemma review_chars v digest :
  chars (review_fragment v digest) = chars "#draft=" ++ v ++ "&"%char :: chars "digest=" ++ digest.
Proof. unfold review_fragment. rewrite !chars_app, !chars_text. done. Qed.

Lemma review_draft v digest :
  v ≠ [] → forallb is_url_char v = true → fragment_param "draft=" read_draft (review_fragment v digest) = Some v.
Proof.
  intros Hne Hv. unfold fragment_param. rewrite review_chars. change (chars "#draft=") with ("#"%char :: chars "draft=").
  cbn [app]. rewrite after_prefix_app. cbn. unfold read_draft. rewrite take_while_stop by done. by destruct v.
Qed.

Lemma review_digest v digest :
  forallb is_url_char v = true → length digest = 64%nat → forallb is_low_hex digest = true →
  fragment_param "digest=" read_digest (review_fragment v digest) = Some digest.
Proof.
  intros Hv Hl Hx. unfold fragment_param. rewrite review_chars.
  change (match chars "#draft=" ++ v ++ "&"%char :: chars "digest=" ++ digest with "#"%char :: rest => rest | cs => cs end)
    with (chars "draft=" ++ v ++ "&"%char :: chars "digest=" ++ digest).
  change (after_prefix (chars "digest=") (chars "draft=" ++ v ++ "&"%char :: chars "digest=" ++ digest)) with (@None (list ascii)).
  cbn [mbind option_bind]. rewrite app_assoc, scan_skips.
  - cbn [scan_fragment]. rewrite bool_decide_eq_true_2 by done. rewrite after_prefix_app. cbn. by rewrite read_digest_whole.
  - apply Forall_app. split; [repeat constructor; done|]. by apply url_chars_not.
Qed.


Section Links.
Context `{H : Sha256, HS : !Sha256Spec H, C : Codec, JS : !JsonSpec C, DS : !DateSpec C}.

Lemma digest_chars d :
  length (chars (cardDraftDigest d)) = 64%nat ∧ forallb is_low_hex (chars (cardDraftDigest d)) = true.
Proof.
  split; [|apply hex_low]. rewrite chars_length. unfold cardDraftDigest. by rewrite bytesToHex_length, sha256_length.
Qed.

Lemma decode_review d digest later :
  normal d → dated_after later d.(CardDraft.expiresAt) →
  decodeCardDraftFragment (review_fragment (chars (toBase64Url (JSON_stringify (draft_value d)))) digest) later = Ok d.
Proof.
  intros Hd He. unfold decodeCardDraftFragment. rewrite review_draft; [|apply toBase64Url_nonempty, json_object|apply url_text].
  rewrite base64Url_text_roundtrip. cbn [bind]. rewrite json_roundtrip by (by apply draft_value_json).
  change (nullish (draft_value d)) with false. cbn. by apply normalize_value.
Qed.

(** C21: The review link of a draft opens: its fragment is accepted by the dashboard, at any time before the end date the
    draft proposes, as a match, and shows exactly the draft that was put into the link, with its digest. *)
Theorem draft_link_opens (input : value) (now later : Z) (d : CardDraft.t) (appBaseUrl link : string) :
  normalizeCardDraft input now = Ok d → encodeCardDraftReviewLink d appBaseUrl = Ok link →
  dated_after later d.(CardDraft.expiresAt) →
  ∃ fragment, link = without_slashes (trim appBaseUrl) +:+ "/app/cards/new" +:+ fragment ∧
    verifyCardDraftFragment fragment later = matched d (cardDraftDigest d).
Proof.
  intros [Hd _]%normalize_normal Hl He. unfold encodeCardDraftReviewLink, encodeCardDraftLink in Hl. inv_ok Hl. inv_ok E. subst.
  set (v := chars (toBase64Url (JSON_stringify (draft_value d)))).
  exists (review_fragment v (chars (cardDraftDigest d))). split.
  - apply chars_inj. unfold review_fragment, v. rewrite !text_chars, !chars_app. rewrite <- !app_assoc.
    by change (chars "/app/cards/new#draft=") with (chars "/app/cards/new" ++ chars "#draft="); rewrite <- !app_assoc.
  - unfold verifyCardDraftFragment. unfold v at 1. rewrite decode_review by done.
    destruct (digest_chars d) as [H1 H2]. rewrite review_digest; [|apply url_text|done..].
    rewrite text_chars, bool_decide_eq_true_2 by done. done.
Qed.

(** ** What the owner signs *)

Lemma registry_distinct (registry : string → option bytes) refs hashes :
  (∀ r r' h, registry r = Some h → registry r' = Some h → r = r') →
  Forall2 (λ r h, registry r = Some h) refs hashes → NoDup refs → NoDup hashes.
Proof.
  intros Hinj. induction 1 as [|r h refs hashes Hr Hall IH]; [by constructor|]. intros [Hn Hnd]%NoDup_cons. apply NoDup_cons.
  split; [|by apply IH]. intros Hh. apply Hn.
  apply list_elem_of_lookup in Hh as [i Hi]. destruct (Forall2_lookup_r _ _ _ _ _ Hall Hi) as (r' & Hr' & E). cbv beta in E.
  rewrite (Hinj r r' h) by done. by eapply list_elem_of_lookup_2.
Qed.

Lemma shops_ok refs mccs :
  check_shops refs mccs = Ok tt ↔
  (refs ≠ [] ∨ mccs ≠ []) ∧ unknown_shops refs = [] ∧ (length refs <= MAX_MERCHANTS)%nat ∧ (length mccs <= MAX_MCCS)%nat ∧
  NoDup refs ∧ NoDup mccs.
Proof.
  unfold check_shops. rewrite <- !has_repeat_NoDup, <- !Nat.ltb_ge. split.
  - intros Hc. inv_ok Hc. split_and!; try done; [destruct refs, mccs; [by cbn in G|by right|by left..]|].
    apply negb_false_iff, Nat.eqb_eq in G0. by apply nil_length_inv.
  - intros (Hne & -> & -> & -> & -> & ->). by destruct refs, mccs; try (by destruct Hne).
Qed.

Lemma no_commas cs : Forall (λ c, c ≠ ","%char) cs → drop_commas cs = cs.
Proof. induction 1 as [|c cs Hc _ IH]; [done|]. cbn [drop_commas]. rewrite bool_decide_false by done. cbn [andb]. by rewrite IH. Qed.

Definition amount_char (c : ascii) : bool := is_digit c || bool_decide (c = "."%char).

Lemma amount_char_plain c : amount_char c = true → c ≠ ","%char ∧ c ≠ "$"%char ∧ is_space c = false.
Proof.
  intros Hc. split_and!; [intros ->; by vm_compute in Hc..|]. unfold amount_char in Hc.
  apply orb_true_iff in Hc as [Hc| ->%bool_decide_eq_true]; [|done].
  rewrite <- (digit_char_digit _ Hc). unfold is_digit in Hc. bool_reflect.
  assert (Forall (λ d, is_space (digit_char d) = false) [0;1;2;3;4;5;6;7;8;9]) as Hall by (repeat constructor).
  rewrite Forall_forall in Hall. apply Hall. rewrite !elem_of_cons, elem_of_nil. lia.
Qed.

(** A text of digits and points is read as it stands. *)
Lemma plain_amount d cs whole frac :
  forallb amount_char (d :: cs) = true → dollars_and_cents (d :: cs) = Some (whole, frac) →
  dollarsToCents (text (d :: cs)) = Some (toString (chars_value whole * 100 + chars_value (padEnd2 frac))).
Proof.
  intros Hcs Hd. pose proof Hcs as [Hc Hrest]%andb_true_iff. apply amount_char_plain in Hc as (_ & Hdollar & Hsp).
  assert (Forall (λ c, c ≠ ","%char ∧ is_space c = false) (d :: cs)) as Hall.
  { apply Forall_forall. intros c Hin%list_elem_of_In. rewrite forallb_forall in Hcs. apply Hcs, amount_char_plain in Hin. tauto. }
  unfold dollarsToCents. rewrite trim_digits; [|done|].
  - rewrite chars_text. assert (∀ l : list ascii, match d :: cs with "$"%char :: rest => rest | _ => l end = l) as Hm.
    { intros l. destruct d as [[] [] [] [] [] [] [] []]; try done. }
    rewrite Hm, no_commas, Hd; [done|]. eapply Forall_impl; [exact Hall|]. by intros c [].
  - apply forallb_forall. intros c Hin%list_elem_of_In. apply Forall_cons in Hall as [_ Hall].
    rewrite Forall_forall in Hall. by destruct (Hall c Hin) as [_ ->].
Qed.

Lemma take_while_all (p : ascii → bool) cs : forallb p cs = true → take_while p cs = cs.
Proof. induction cs as [|c cs IH]; [done|]. cbn [forallb take_while]. intros [-> Hcs]%andb_true_iff. by rewrite IH. Qed.

Lemma digits_amount cs : forallb is_digit cs = true → forallb amount_char cs = true.
Proof. rewrite !forallb_forall. intros Hd c Hc. unfold amount_char. by rewrite (Hd c Hc). Qed.

(** What the form shows for an amount is read back as that amount. *)
Lemma dollars_roundtrip c : 0 <= c < 10 ^ 16 → dollarsToCents (centsToDollarInput (toString c)) = Some (toString c).
Proof.
  intros Hc. unfold centsToDollarInput. rewrite toString_nat, BigInt_text, Z.quot_div_nonneg, Z.rem_mod_nonneg by lia.
  assert (0 <= c / 100 < 10 ^ Z.of_nat 14) as Hq by (split; [apply Z.div_pos; lia|apply Z.div_lt_upper_bound; lia]).
  pose proof (decimal_chars_nat 13 _ Hq) as Hdec. pose proof (nat_chars_digits (c / 100) ltac:(lia)) as Hdig.
  pose proof (chars_value_nat (c / 100) ltac:(lia)) as Hval. pose proof (Z.div_mod c 100 ltac:(lia)) as Hdm.
  rewrite (toString_nat (c / 100)) by lia. destruct (nat_chars (c / 100)) as [|d cs] eqn:En; [done|].
  destruct (Z.eqb_spec (c mod 100) 0) as [E|E].
  - rewrite (plain_amount d cs (d :: cs) []); [|by apply digits_amount|].
    + rewrite Hval. change (chars_value (padEnd2 [])) with 0. rewrite <- (toString_nat c) by lia. do 2 f_equal. lia.
    + unfold dollars_and_cents. by rewrite take_while_all, Hdec, drop_all.
  - destruct (nat_chars_two (c mod 100)) as (Hl & Hv & Hd); [apply Z.mod_pos_bound; lia|].
    set (frac := padStart2 (nat_chars (c mod 100))) in *.
    replace (text (d :: cs) +:+ "." +:+ text frac) with (text (d :: cs ++ "."%char :: frac))
      by (change (d :: cs ++ "."%char :: frac) with ((d :: cs) ++ ["."%char] ++ frac); by rewrite <- (text_chars (text (d :: cs) +:+ "." +:+ text frac)), !chars_app, !chars_text).
    rewrite (plain_amount d _ (d :: cs) frac).
    + rewrite Hval. unfold padEnd2. rewrite Hl. cbn [Nat.sub replicate]. rewrite app_nil_r, Hv, <- (toString_nat c) by lia.
      do 2 f_equal. lia.
    + change (d :: cs ++ "."%char :: frac) with ((d :: cs) ++ "."%char :: frac). rewrite forallb_app. apply andb_true_iff. split; [by apply digits_amount|].
      cbn [forallb]. by apply digits_amount.
    + unfold dollars_and_cents. change (d :: cs ++ "."%char :: frac) with ((d :: cs) ++ "."%char :: frac).
      rewrite take_while_stop by done. rewrite Hdec, drop_app_length. by rewrite Hd, Hl.
Qed.

(** ** From a draft to its policy *)

Definition near (ms : Z) : Prop := FIRST_DAY * MS_PER_DAY <= ms < (LAST_DAY + 1) * MS_PER_DAY.

(** The end date of the form a draft filled at [filled], once it is submitted at [now] *)
Definition form_expiry (d : CardDraft.t) (filled now : Z) (e : option string) : Prop :=
  (d.(CardDraft.expiresAt) = None → e = None) ∧
  ∀ ms, d.(CardDraft.expiresAt) = Some (toISOString ms) → near ms → near (now + days_until ms filled * MS_PER_DAY) →
    e = Some (toISOString (now + days_until ms filled * MS_PER_DAY)).

Lemma near_date ms : near ms → to_iso ms = Ok (toISOString ms).
Proof.
  intros Hn. unfold to_iso. rewrite date_text_near by done. unfold near, FIRST_DAY, LAST_DAY, MS_PER_DAY in Hn.
  by rewrite (proj2 (Z.ltb_ge _ _)) by lia.
Qed.

(** A form left as the draft filled it is submitted as the draft, its end date apart. *)
Lemma form_input d filled shops now later input :
  normal d → validate (filled_form d filled) 2 shops now later = Ok input →
  ∃ e, form_expiry d filled now e ∧
    input = CreateCardInput.mk d.(CardDraft.label) d.(CardDraft.budgetCents) d.(CardDraft.maxPurchaseCents) (JInt 0)
      d.(CardDraft.periodDays) d.(CardDraft.merchants) d.(CardDraft.mccs) e false d.(CardDraft.feeBps).
Proof.
  intros Hn Hv. pose proof Hn as [_ (b & m & Hb & Hm & Hbm & Hmax) _ _ _ _ _]. unfold MAX_BUDGET_CENTS in Hmax.
  unfold validate in Hv. cbn [filled_form CreateForm.label CreateForm.budget CreateForm.maxPurchase CreateForm.maxPurchases
    CreateForm.periodDays CreateForm.endsInDays CreateForm.merchants CreateForm.mccs CreateForm.recurring CreateForm.feeBps] in Hv.
  rewrite Hb, Hm, !dollars_roundtrip, <- Hb, <- Hm in Hv by lia.
  apply if_throw_ok in Hv as [_ Hv]. apply if_throw_ok in Hv as [_ Hv]. apply if_throw_ok in Hv as [_ Hv].
  apply bind_ok in Hv as ([] & _ & Hv). apply bind_ok in Hv as (e & He & Hv). apply bind_ok in Hv as (d' & Hd & Hv).
  change (normalizeCardDraft (draft_value (with_expiry d e)) later = Ok d') in Hd.
  rewrite normalize_again in Hd by by destruct Hn; constructor. apply bind_ok in Hd as (e' & He' & [= <-]). injection Hv as <-.
  exists e'. split; [|done]. split.
  - intros Hnone. rewrite Hnone in He. injection He as <-. by injection He' as <-.
  - intros ms Hms Hnear Hlast. rewrite Hms in He. rewrite date_parsed in He by done.
    rewrite (proj2 (Z.ltb_lt _ _)), near_date in He by (done || unfold days_until; lia). injection He as <-.
    unfold expiry_of in He'. cbn [with_expiry CardDraft.expiresAt expiry_value nullish] in He'. rewrite date_parsed in He' by done.
    destruct (_ <=? later); [done|]. injection He' as <-. by rewrite date_text_near.
Qed.

(** A period of whole days after [filled] ends at or after [ms], by less than a day. *)
Lemma days_cover ms filled now :
  filled <= now → ms <= now + days_until ms filled * MS_PER_DAY <= Z.max ms filled + (now - filled) + MS_PER_DAY.
Proof. intros Hle. unfold days_until, MS_PER_DAY. Z.div_mod_to_equations. lia. Qed.

Definition policy_of_draft (d : CardDraft.t) (registry : string → option bytes) (authorizer : Address) (p : PolicyArgs.t) : Prop :=
  policyArgsProblems p = [] ∧ toString p.(PolicyArgs.budgetCents) = d.(CardDraft.budgetCents) ∧
  toString p.(PolicyArgs.maxPurchaseCents) = d.(CardDraft.maxPurchaseCents) ∧ p.(PolicyArgs.mccs) = map JInt d.(CardDraft.mccs) ∧
  Forall2 (λ r h, registry r = Some h) d.(CardDraft.merchants) p.(PolicyArgs.merchantIdHashes) ∧
  p.(PolicyArgs.feeBps) = JInt d.(CardDraft.feeBps) ∧ p.(PolicyArgs.periodSeconds) = JInt (d.(CardDraft.periodDays) * 86400) ∧
  p.(PolicyArgs.maxPurchasesPerPeriod) = JInt 0 ∧ p.(PolicyArgs.recurringAllowed) = false ∧ p.(PolicyArgs.authorizer) = authorizer.

Lemma policy_ok registry authorizer d e p :
  normal d → (∀ r r' h, registry r = Some h → registry r' = Some h → r = r') →
  saveRules (CreateCardInput.mk d.(CardDraft.label) d.(CardDraft.budgetCents) d.(CardDraft.maxPurchaseCents) (JInt 0)
    d.(CardDraft.periodDays) d.(CardDraft.merchants) d.(CardDraft.mccs) e false d.(CardDraft.feeBps)) registry authorizer = Ok p →
  policy_of_draft d registry authorizer p ∧
  match e with Some s => ∃ ms, Date_parse s = JInt ms ∧ p.(PolicyArgs.expiresAt) = ms / 1000 | None => p.(PolicyArgs.expiresAt) = 0 end.
Proof.
  intros [_ (b & m & Hb & Hm & Hbm & Hmax) _ _ Hs Hp Hf] Hinj Hd. unfold saveRules in Hd.
  cbn [CreateCardInput.merchants CreateCardInput.expiresAt CreateCardInput.budgetCents CreateCardInput.maxPurchaseCents
    CreateCardInput.maxPurchasesPerPeriod CreateCardInput.periodDays CreateCardInput.mccs CreateCardInput.recurringAllowed
    CreateCardInput.feeBps] in Hd. inv_ok Hd. subst p.
  apply traverse_ok in E. assert (Forall2 (λ r h, registry r = Some h) (CardDraft.merchants d) a) as Hall.
  { eapply Forall2_impl; [exact E|]. intros r h Hr. cbv beta in Hr. by destruct (registry r); [injection Hr as ->|]. }
  apply shops_ok in Hs as (Hne & _ & Hl & Hl' & Hnd & Hnd').
  assert (BigInt (CardDraft.budgetCents d) = b) as Eb by (rewrite Hb, toString_nat by lia; apply BigInt_text; lia).
  assert (BigInt (CardDraft.maxPurchaseCents d) = m) as Em by (rewrite Hm, toString_nat by lia; apply BigInt_text; lia).
  split; [|cbn; destruct e as [s|]; [|by injection E0 as <-]; destruct (Date_parse s) as [ms| | |]; [|done..]; injection E0 as <-; by exists ms].
  split; [|cbn; rewrite Eb, Em; by split_and!]. unfold policyArgsProblems. cbn [PolicyArgs.maxPurchaseCents PolicyArgs.budgetCents
    PolicyArgs.periodSeconds PolicyArgs.currency PolicyArgs.feeBps PolicyArgs.merchantIdHashes PolicyArgs.mccs].
  rewrite Eb, Em, !problem_nil, problem_nil_last. pose proof (Forall2_length _ _ _ Hall) as Hla. rewrite length_map.
  unfold out_of_range, num_ltb, num_gtb, MAX_BUDGET_CENTS, MIN_PERIOD_SECONDS, MAX_FEE_BPS, MAX_PERIOD_DAYS in *. cbn [bigint_of isInteger negb orb].
  rewrite !has_repeat_NoDup. split_and!; try (apply Z.leb_gt; lia); try (apply Z.ltb_ge; lia); try (apply Nat.ltb_ge; lia); try done.
  - by rewrite !(proj2 (Z.ltb_ge _ _)) by lia.
  - apply andb_false_iff. destruct Hne as [Hne|Hne]; [left|right]; apply Nat.eqb_neq; rewrite <- ?Hla; [by destruct (CardDraft.merchants d)|by destruct (CardDraft.mccs d)].
  - by eapply registry_distinct.
  - apply NoDup_fmap_2; [|done]. by intros ?? [=].
Qed.
End Links.

Section Signing.
Context `{H : Sha256, HS : !Sha256Spec H, C : Codec, JS : !JsonSpec C, DS : !DateSpec C}.

Lemma matched_normal fragment later d digest :
  verifyCardDraftFragment fragment later = matched d digest → normal d ∧ digest = cardDraftDigest d.
Proof.
  unfold verifyCardDraftFragment, decodeCardDraftFragment. intros E.
  destruct (fragment_param "draft=" _ _) as [v|]; [|done]. destruct (fromBase64Url v) as [s|]; [|done]. cbn [bind] in E.
  destruct (JSON_parse s) as [raw|]; [|done]. destruct (nullish raw); [done|]. destruct (negb _); [done|].
  destruct (normalizeCardDraft raw later) as [d'|] eqn:En; [|done]. apply normalize_normal in En as [Hn _].
  destruct (fragment_param "digest=" _ _); [|done]. destruct (negb _); [done|]. by injection E as -> <-.
Qed.

(** C20: A link the dashboard reports as matching an agent's draft holds that very draft, unless SHA-256 collides on the
    two texts hashed; and the rules saved from the form, left as the draft filled it, are the draft's: its budget,
    purchase limit, period, categories and fee, the hashes of its shops (in a registry that gives two shops different
    hashes), no limit on the number of purchases, nothing recurring, and nothing the instruction builder objects to.  A
    draft without an end date gives a card without one.  Otherwise the form asks for whole days, counted when it is
    filled and added when it is submitted: the card ends, to the second, no earlier than the draft says, and later by at
    most a day and the time between the two (dates between the years 0 and 9999). *)
Theorem matched_draft_signed (input : value) (made later filled now saved : Z) (d shown : CardDraft.t) (fragment : string)
    (shops : option (list string)) (registry : string → option bytes) (authorizer : Address) (card : CreateCardInput.t)
    (p : PolicyArgs.t) :
  normalizeCardDraft input made = Ok d → verifyCardDraftFragment fragment later = matched shown (cardDraftDigest d) →
  collision_free [draft_text d; draft_text shown] →
  (∀ r r' h, registry r = Some h → registry r' = Some h → r = r') →
  validate (filled_form shown filled) 2 shops now saved = Ok card → saveRules card registry authorizer = Ok p →
  shown = d ∧ policy_of_draft d registry authorizer p ∧
  (d.(CardDraft.expiresAt) = None → p.(PolicyArgs.expiresAt) = 0) ∧
  ∀ ms, d.(CardDraft.expiresAt) = Some (toISOString ms) → filled <= now → near ms →
    near (Z.max ms filled + (now - filled) + MS_PER_DAY) →
    ms / 1000 <= p.(PolicyArgs.expiresAt) ∧
    1000 * p.(PolicyArgs.expiresAt) <= Z.max ms filled + (now - filled) + MS_PER_DAY.
Proof.
  intros [Hd _]%normalize_normal [Hs E]%matched_normal Hfree Hinj Hv Hp.
  assert (shown = d) as ->.
  { unfold cardDraftDigest in E. apply bytesToHex_inj, Hfree in E; [|by left|by right; left]. by apply draft_text_inj. }
  destruct (form_input _ _ _ _ _ _ Hd Hv) as (e & [Hnone Hsome] & ->).
  destruct (policy_ok _ _ _ _ _ Hd Hinj Hp) as [Hpol Hexp]. split; [done|]. split; [done|]. split.
  - intros Hn. by rewrite (Hnone Hn) in Hexp.
  - intros ms Hms Hle Hnear Hlast. pose proof (days_cover ms filled now Hle) as Hcover. unfold near in *.
    rewrite (Hsome ms Hms Hnear) in Hexp by (unfold near; lia). destruct Hexp as (z & Hz & ->).
    rewrite date_parsed in Hz by lia. injection Hz as <-. split; [apply Z.div_le_mono; lia|].
    pose proof (Z.mul_div_le (now + days_until ms filled * MS_PER_DAY) 1000). lia.
Qed.
End Signing.

(** ** A concrete draft *)

#[local] Existing Instance model_hash.
#[local] Existing Instance model_hash_spec.

(** The texts of [JsonCodec], with dates *)
#[local] Instance draft_codec : Codec := {
  parse := TextCodec.read;
  stringify := TextCodec.print;
  JSON_parse := JsonCodec.codec.(JSON_parse);
  JSON_stringify := JsonCodec.codec.(JSON_stringify);
  Date_parse s := match Date_parse_iso s with Some ms => JInt ms | None => JNaN end;
}.

#[local] Instance draft_codec_json : JsonSpec draft_codec.
Proof. split; [exact (json_roundtrip (JsonSpec := JsonCodec.json_spec))|exact (json_object (JsonSpec := JsonCodec.json_spec))]. Qed.

#[local] Instance draft_codec_dates : DateSpec draft_codec.
Proof. intros ms Hr. change (match Date_parse_iso (toISOString ms) with Some m => JInt m | None => JNaN end = JInt ms). by rewrite iso_roundtrip. Qed.

Definition asked_draft : value :=
  VObject [("label", VString " Data agent "); ("budgetCents", VString "50000"); ("maxPurchaseCents", VString "20000");
    ("merchants", VArray [VString "demo-approved"; VString "demo-unapproved"]); ("mccs", VArray [VNumber (JInt 5734)]); ("periodDays", VNumber (JInt 30));
    ("expiresAt", VString "2027-01-31T12:00:00.000Z")].

Definition sample_draft : CardDraft.t :=
  CardDraft.mk "Data agent" "50000" "20000" ["demo-approved"; "demo-unapproved"] [5734] 30 (Some "2027-01-31T12:00:00.000Z") 50.

Lemma sample_draft_ok : normalizeCardDraft asked_draft 1760000000000 = Ok sample_draft.
Proof. vm_compute. reflexivity. Qed.

Definition draft_link : string :=
  Eval vm_compute in match encodeCardDraftReviewLink sample_draft "https://app.example//" with Ok l => l | Throw _ => "" end.

Lemma draft_link_ok : encodeCardDraftReviewLink sample_draft "https://app.example//" = Ok draft_link.
Proof. vm_compute. reflexivity. Qed.

Lemma draft_link_opens_witness :
  ∃ fragment, draft_link = without_slashes (trim "https://app.example//") +:+ "/app/cards/new" +:+ fragment ∧
    verifyCardDraftFragment fragment 1760000000001 = matched sample_draft (cardDraftDigest sample_draft).
Proof.
  apply (@draft_link_opens model_hash model_hash_spec draft_codec draft_codec_json draft_codec_dates asked_draft 1760000000000
    1760000000001 sample_draft "https://app.example//" draft_link sample_draft_ok draft_link_ok).
  exists 1801396800000. split; [vm_compute; reflexivity|]. unfold FIRST_DAY, LAST_DAY, MS_PER_DAY. lia.
Defined.

(** A shop's hash, by its reference *)
Definition shop_hash (ref : string) : option bytes :=
  if bool_decide (ref = "demo-approved") then Some (match merchantIdHash "DEMO-DATAAPI" with Ok h => h | Throw _ => [] end)
  else if bool_decide (ref = "demo-unapproved") then Some (match merchantIdHash "DEMO-OTHERSHOP" with Ok h => h | Throw _ => [] end)
  else None.

Lemma shop_hash_inj r r' h : shop_hash r = Some h → shop_hash r' = Some h → r = r'.
Proof.
  unfold shop_hash. repeat case_bool_decide; subst; try done; intros [= <-] E; by vm_compute in E.
Qed.

Definition draft_fragment : string := Eval vm_compute in text (drop 33 (chars draft_link)).
(** The form filled at one moment and submitted ten minutes later *)
Definition sample_form : CreateForm.t := Eval vm_compute in filled_form sample_draft 1760000000001.
Definition sample_shops : option (list string) := Some ["demo-approved"; "demo-unapproved"].
Definition sample_card : CreateCardInput.t :=
  CreateCardInput.mk "Data agent" "50000" "20000" (JInt 0) 30 ["demo-approved"; "demo-unapproved"] [5734]
    (Some "2027-02-01T09:03:20.001Z") false 50.
Definition saved_policy : PolicyArgs.t :=
  Eval vm_compute in match saveRules sample_card shop_hash "" with Ok p => p | Throw _ => sample_policy_args end.

Example form_shows : (sample_form.(CreateForm.budget), sample_form.(CreateForm.maxPurchase), sample_form.(CreateForm.endsInDays)) = ("500", "200", 480).
Proof. reflexivity. Qed.

Example amounts_read : map dollarsToCents ["30.5"; " $1,250.00 "; "1,2"; "0"; "01"; "1.234"; ""]
  = [Some "3050"; Some "125000"; None; Some "0"; None; None; None].
Proof. vm_compute. reflexivity. Qed.

Lemma sample_card_input : validate (filled_form sample_draft 1760000000001) 2 sample_shops 1760000600001 1760000600002 = Ok sample_card.
Proof. vm_compute. reflexivity. Qed.

Lemma matched_draft_signed_witness :
  policyArgsProblems saved_policy = [] ∧
  1801396800 <= saved_policy.(PolicyArgs.expiresAt) ∧ 1000 * saved_policy.(PolicyArgs.expiresAt) <= 1801396800000 + 600000 + MS_PER_DAY.
Proof.
  assert (verifyCardDraftFragment draft_fragment 1760000000001 = matched sample_draft (cardDraftDigest sample_draft)) as Hv
    by (vm_compute; reflexivity).
  assert (saveRules sample_card shop_hash "" = Ok saved_policy) as Hp by (vm_compute; reflexivity).
  assert (collision_free [draft_text sample_draft; draft_text sample_draft]) as Hc.
  { intros x y Hx Hy _. rewrite !elem_of_cons in Hx, Hy. destruct Hx as [->|[->|[]%not_elem_of_nil]], Hy as [->|[->|[]%not_elem_of_nil]]; done. }
  destruct (matched_draft_signed asked_draft 1760000000000 1760000000001 1760000000001 1760000600001 1760000600002 sample_draft sample_draft
    draft_fragment sample_shops shop_hash "" sample_card saved_policy sample_draft_ok Hv Hc shop_hash_inj sample_card_input Hp)
    as (_ & (H2 & _) & _ & H3).
  split; [exact H2|]. apply (H3 1801396800000); [vm_compute; reflexivity|lia|..]; unfold near, FIRST_DAY, LAST_DAY, MS_PER_DAY; lia.
Defined.

(** A link whose draft was changed after its digest was made is not shown. *)
Definition dearer_draft : CardDraft.t :=
  CardDraft.mk "Data agent" "90000" "20000" ["demo-approved"; "demo-unapproved"] [5734] 30 (Some "2027-01-31T12:00:00.000Z") 50.

Example changed_draft_refused :
  verifyCardDraftFragment ("#draft=" +:+ toBase64Url (JSON_stringify (draft_value dearer_draft)) +:+ "&digest=" +:+ cardDraftDigest sample_draft)
    1760000000001 = mismatch (cardDraftDigest dearer_draft) (cardDraftDigest sample_draft).
Proof. vm_compute. reflexivity. Qed.

(** The same link after the end date of its draft *)
Example old_draft_refused : verifyCardDraftFragment draft_fragment 1801396800000 = invalid "expiresAt must be in the future".
Proof. vm_compute. reflexivity. Qed.
