(* ===== verification/CardDisclosure.v ===== *)
(** * Shared card records (sdk/src/cards/commitment.ts)

    The fragment of a link that shares fields of a card: its text, the strict
    parse of the verification page, and what a record that verifies shows.  The
    bundle and its check are those of [CardCommitment]. *)
From Stdlib Require Import ZArith Lia Strings.Byte Strings.Ascii.
From stdpp Require Import base numbers sets strings list.
From S2P Require Import Prelude Bytes PublicKey Types Encoding Decimal CardAccounts CardMath Utf8 CardCommitment Values Signed CardDraft.

Section Fragments.
Context `{K : PublicKeys, C : Codec}.

Definition leaf_value (leaf : DisclosedLeaf.t) : value :=
  VObject [("i", VNumber (JInt leaf.(DisclosedLeaf.i))); ("value", VString leaf.(DisclosedLeaf.value));
    ("leafSalt", VString leaf.(DisclosedLeaf.leafSalt)); ("proof", VArray (map VString leaf.(DisclosedLeaf.proof)))].

Definition bundle_value (bundle : DisclosureBundle.t) : value :=
  VObject [("v", VNumber (JInt 1)); ("binding", VString bundle.(DisclosureBundle.binding));
    ("commitmentSeq", VString bundle.(DisclosureBundle.commitmentSeq));
    ("leaves", VArray (map leaf_value bundle.(DisclosureBundle.leaves)))].

Definition encodeDisclosureFragment (bundle : DisclosureBundle.t) : string :=
  "disclose=" +:+ toBase64Url (JSON_stringify (bundle_value bundle)).

(** [hexToBytes] of a field of any type *)
Definition hex_field (v : value) : result (string * bytes) :=
  match v with
  | VString s => let! b := hexToBytes s in Ok (s, b)
  | _ => Throw "Expected lowercase hex"
  end.

(** [typeof node !== "string" || hexToBytes(node).length !== 32] *)
Definition proof_node (v : value) : result string :=
  match v with
  | VString s =>
      let! b := hexToBytes s in
      throw_if! negb (Nat.eqb (length b) 32) with "A field's proof has the wrong shape"; Ok s
  | _ => Throw "A field's proof has the wrong shape"
  end.

Definition decode_proof (v : value) : result (list string) :=
  match v with
  | VArray nodes =>
      throw_if! negb (Nat.eqb (length nodes) 4) with "A field's proof has the wrong shape";
      traverse proof_node nodes
  | _ => Throw "A field's proof has the wrong shape"
  end.

Definition decode_leaf (seen : list Z) (leaf : value) : result DisclosedLeaf.t :=
  match get leaf "i" with
  | VNumber (JInt i) =>
      throw_if! negb (truthy leaf) || (i <? 0) || (Z.of_nat COMMITMENT_LEAF_COUNT <=? i) || bool_decide (i ∈ seen)
        with "The card record has an unknown field";
      let! (value, _) := hex_field (get leaf "value") in
      let! (salt, b) := hex_field (get leaf "leafSalt") in
      throw_if! negb (Nat.eqb (length b) 32) with "A field's salt has the wrong length";
      let! proof := decode_proof (get leaf "proof") in
      Ok (DisclosedLeaf.mk i value salt proof)
  | _ => Throw "The card record has an unknown field"
  end.

(** The leaves in order, [seen] being the indices so far *)
Fixpoint decode_leaves (seen : list Z) (leaves : list value) : result (list DisclosedLeaf.t) :=
  match leaves with
  | [] => Ok []
  | leaf :: leaves =>
      let! leaf := decode_leaf seen leaf in
      let! leaves := decode_leaves (leaf.(DisclosedLeaf.i) :: seen) leaves in
      Ok (leaf :: leaves)
  end.

Definition decode_bundle (raw : value) : result DisclosureBundle.t :=
  throw_if! nullish raw with "Cannot read properties of null (reading 'v')";
  throw_if! negb (strict_eq (get raw "v") (VNumber (JInt 1))) with "Unsupported card record version";
  match get raw "binding" with
  | VString binding =>
      let! _ := newPublicKey binding in
      match get raw "commitmentSeq" with
      | VString seq =>
          throw_if! negb (decimal_pattern 19 seq) with "The card record has no commitment number";
          match get raw "leaves" with
          | VArray leaves =>
              throw_if! Nat.eqb (length leaves) 0 || Nat.ltb COMMITMENT_LEAF_COUNT (length leaves)
                with "The card record has no fields";
              let! leaves := decode_leaves [] leaves in
              Ok (DisclosureBundle.mk binding seq leaves)
          | _ => Throw "The card record has no fields"
          end
      | _ => Throw "The card record has no commitment number"
      end
  | _ => Throw "The card record has no card link"
  end.

Definition decodeDisclosureFragment (fragment : string) : result DisclosureBundle.t :=
  match fragment_param "disclose=" read_draft fragment with
  | None => Throw "No shared card record in this link"
  | Some v =>
      match fromBase64Url v with
      | Ok json =>
          match JSON_parse json with
          | Some raw => decode_bundle raw
          | None => Throw "The shared card record in this link can't be read"
          end
      | Throw _ => Throw "The shared card record in this link can't be read"
      end
  end.
(** ** What the parse admits *)

(** The shape of a leaf that was read *)
Record shaped (leaf : DisclosedLeaf.t) (value salt : bytes) (proof : list bytes) : Prop := {
  sh_index : 0 <= leaf.(DisclosedLeaf.i) < 16;
  sh_value : hexToBytes leaf.(DisclosedLeaf.value) = Ok value;
  sh_salt : hexToBytes leaf.(DisclosedLeaf.leafSalt) = Ok salt ∧ length salt = 32%nat;
  sh_proof : traverse hexToBytes leaf.(DisclosedLeaf.proof) = Ok proof;
  sh_siblings : length proof = 4%nat ∧ Forall (λ b, length b = 32%nat) proof;
}.

Lemma hex_field_ok v s b : hex_field v = Ok (s, b) ↔ v = VString s ∧ hexToBytes s = Ok b.
Proof.
  unfold hex_field. split.
  - destruct v; try done. intros E. apply bind_ok in E as (b' & E & [= <- <-]). done.
  - intros [-> E]. by rewrite E.
Qed.

Lemma proof_node_ok v s : proof_node v = Ok s ↔ v = VString s ∧ ∃ b, hexToBytes s = Ok b ∧ length b = 32%nat.
Proof.
  unfold proof_node. split.
  - destruct v; try done. intros E. apply bind_ok in E as (b & E & E'). apply if_throw_ok in E' as [Hl [= <-]].
    split; [done|]. exists b. split; [done|]. by apply negb_false_iff, Nat.eqb_eq in Hl.
  - intros (-> & b & E & Hl). rewrite E. cbn [bind]. by rewrite (proj2 (Nat.eqb_eq _ _)).
Qed.

Lemma decode_proof_ok v proof :
  decode_proof v = Ok proof →
  ∃ bs, traverse hexToBytes proof = Ok bs ∧ length bs = 4%nat ∧ Forall (λ b, length b = 32%nat) bs.
Proof.
  unfold decode_proof. destruct v as [| | | | | |nodes|]; try done. intros E. apply if_throw_ok in E as [Hl E].
  apply negb_false_iff, Nat.eqb_eq in Hl. apply traverse_ok in E.
  enough (∃ bs, traverse hexToBytes proof = Ok bs ∧ length bs = length nodes ∧ Forall (λ b, length b = 32%nat) bs) as (bs & ? & ? & ?)
    by (exists bs; split_and!; [done|congruence|done]). clear Hl.
  induction E as [|v s nodes proof Hv _ (bs & E & Hl & Hbs)]; [by exists []|].
  apply proof_node_ok in Hv as (_ & b & Hb & Hlb). exists (b :: bs). cbn [traverse]. rewrite Hb, E. cbn.
  split; [done|]. split; [by rewrite Hl|by constructor].
Qed.

Lemma decode_leaf_ok seen v leaf :
  decode_leaf seen v = Ok leaf → (leaf.(DisclosedLeaf.i) ∉ seen) ∧ (∃ value salt proof, shaped leaf value salt proof).
Proof.
  unfold decode_leaf. destruct (get v "i") as [| | |n| | | |]; try done. destruct n as [z| | |]; try done.
  intros E. apply if_throw_ok in E as [Hc E]. apply bind_ok in E as ([value b] & Hv%hex_field_ok & E).
  apply bind_ok in E as ([salt sb] & Hs%hex_field_ok & E). apply if_throw_ok in E as [Hl E]. apply negb_false_iff, Nat.eqb_eq in Hl.
  apply bind_ok in E as (proof & (bs & Hp)%decode_proof_ok & [= <-]). unfold COMMITMENT_LEAF_COUNT in *.
  bool_reflect. split; [done|]. exists b, sb, bs. constructor; cbn; tauto.
Qed.

(** The leaves of a record that was read: well shaped, no field twice *)
Lemma decode_leaves_ok vs : ∀ seen leaves, decode_leaves seen vs = Ok leaves →
  Forall (λ leaf, ∃ value salt proof, shaped leaf value salt proof) leaves ∧
  NoDup (map DisclosedLeaf.i leaves) ∧ ∀ z, z ∈ map DisclosedLeaf.i leaves → z ∉ seen.
Proof.
  induction vs as [|v vs IH]; intros seen leaves; cbn [decode_leaves].
  { intros [= <-]. split_and!; [constructor|constructor|by intros z []%elem_of_nil]. }
  intros E. apply bind_ok in E as (leaf & [Hn Hs]%decode_leaf_ok & E). apply bind_ok in E as (rest & (H1 & H2 & H3)%IH & [= <-]).
  cbn [map]. split_and!; [by constructor| |].
  - constructor; [|done]. intros Hin%H3. apply Hin. by left.
  - intros z [->|Hz]%elem_of_cons; [done|]. intros Hin. apply (H3 z Hz). by right.
Qed.

Lemma decoded_shape fragment bundle :
  decodeDisclosureFragment fragment = Ok bundle →
  Forall (λ leaf, ∃ value salt proof, shaped leaf value salt proof) bundle.(DisclosureBundle.leaves) ∧
  NoDup (map DisclosedLeaf.i bundle.(DisclosureBundle.leaves)).
Proof.
  unfold decodeDisclosureFragment, decode_bundle. destruct (fragment_param _ _ _) as [v|]; [|done].
  destruct (fromBase64Url v) as [json|]; [|done]. destruct (JSON_parse json) as [raw|]; [|done]. intros E.
  apply if_throw_ok in E as [_ E]. apply if_throw_ok in E as [_ E].
  destruct (get raw "binding"); try done. apply bind_ok in E as (k & _ & E). destruct (get raw "commitmentSeq"); try done.
  apply if_throw_ok in E as [_ E]. destruct (get raw "leaves"); try done. apply if_throw_ok in E as [_ E].
  apply bind_ok in E as (leaves & (H1 & H2 & _)%decode_leaves_ok & [= <-]). done.
Qed.
End Fragments.

(** ** What a record shows *)
Section Soundness.
Context `{K : PublicKeys, C : Codec, H : Sha256, HS : !Sha256Spec H}.

(** A record that verifies: every leaf climbs to the root, and is shown as its own value. *)
Lemma verified_leaves bundle c seq root slot checks :
  verifyDisclosureBundle bundle c = Ok (DisclosureCheck.verified seq root slot checks) →
  seq = bundle.(DisclosureBundle.commitmentSeq) ∧
  Forall2 (λ leaf check, recomputeDisclosedRoot leaf = Ok c.(CardCommitment.root) ∧
    ∃ value, hexToBytes leaf.(DisclosedLeaf.value) = Ok value ∧
      check = DisclosureLeafCheck.mk leaf.(DisclosedLeaf.i) true (describeCommitmentLeaf leaf.(DisclosedLeaf.i) value))
    bundle.(DisclosureBundle.leaves) checks.
Proof.
  unfold verifyDisclosureBundle. intros E. apply bind_ok in E as (views & Hv & E). apply bind_ok in E as (k1 & _ & E).
  apply bind_ok in E as (k2 & _ & E). destruct (negb _); [done|]. destruct (match List.find _ _ with Some _ => _ | None => _ end); [done|].
  destruct (negb (bool_decide (_ = _))) eqn:Es; [done|]. apply negb_false_iff, bool_decide_eq_true in Es.
  apply bind_ok in E as (roots & Hr & E). destruct (forallb DisclosureLeafCheck.ok _) eqn:Hall; [|done]. injection E as <- _ _ <-.
  split; [done|]. apply traverse_ok in Hv, Hr. revert roots Hr Hall.
  induction Hv as [|leaf view leaves views Hview _ IH]; intros roots Hr Hall; inversion Hr as [|? r ? rs Hr0 Hrs]; subst; [constructor|].
  cbn [zip_with forallb] in *. apply andb_true_iff in Hall as [Hok Hall]. constructor; [|by apply IH].
  cbn in Hok. apply bool_decide_eq_true, bytesToHex_inj in Hok. subst r. split; [done|].
  unfold described in Hview. apply bind_ok in Hview as (value & Hval & [= <-]). exists value. split; [done|].
  unfold with_ok. cbn. by rewrite bool_decide_true.
Qed.

Definition hex_or (s : string) : bytes := match hexToBytes s with Ok b => b | Throw _ => [] end.

(** Every byte string hashed for the commitment and for one leaf of the record *)
Definition leaf_inputs (masterSalt : bytes) (values : list bytes) (leaf : DisclosedLeaf.t) : list bytes :=
  disclosure_inputs masterSalt values (Z.to_nat leaf.(DisclosedLeaf.i)) (hex_or leaf.(DisclosedLeaf.leafSalt))
    (hex_or leaf.(DisclosedLeaf.value)) (map hex_or leaf.(DisclosedLeaf.proof)).

Lemma hex_or_all proof bs : traverse hexToBytes proof = Ok bs → map hex_or proof = bs.
Proof.
  intros E. apply traverse_ok in E. induction E as [|s b proof bs Hb _ IH]; [done|]. cbn [map]. unfold hex_or at 1. by rewrite Hb, IH.
Qed.

(** C37: What the verification page shows is what was committed.  When the fragment of a link is read and its record
    verifies against a public commitment, then for the policy, period and salt whose root the commitment has, and
    unless byte strings hashed for it and for the record collide, every leaf of the record carries the committed value
    and salt of its field, no field appears twice, and what is shown for each is the description of the committed
    value. *)
Theorem disclosure_sound (fragment : string) (bundle : DisclosureBundle.t) (c : CardCommitment.t) (policy : CardPolicy.t)
    (period : CardPeriod.t) (masterSalt : bytes) (values : list bytes) (seq root slot : string) (checks : list DisclosureLeafCheck.t) :
  decodeDisclosureFragment fragment = Ok bundle →
  verifyDisclosureBundle bundle c = Ok (DisclosureCheck.verified seq root slot checks) →
  commitmentRoot policy period masterSalt = Ok c.(CardCommitment.root) → commitmentLeafValues policy period = Ok values →
  (∀ leaf, leaf ∈ bundle.(DisclosureBundle.leaves) → collision_free (leaf_inputs masterSalt values leaf)) →
  NoDup (map DisclosedLeaf.i bundle.(DisclosureBundle.leaves)) ∧
  (∀ leaf, leaf ∈ bundle.(DisclosureBundle.leaves) → 0 <= leaf.(DisclosedLeaf.i) < 16 ∧
     hexToBytes leaf.(DisclosedLeaf.value) = Ok (at_ values (Z.to_nat leaf.(DisclosedLeaf.i))) ∧
     hexToBytes leaf.(DisclosedLeaf.leafSalt) = Ok (salt_of masterSalt (Z.to_nat leaf.(DisclosedLeaf.i)))) ∧
  checks = map (λ leaf, DisclosureLeafCheck.mk leaf.(DisclosedLeaf.i) true
    (describeCommitmentLeaf leaf.(DisclosedLeaf.i) (at_ values (Z.to_nat leaf.(DisclosedLeaf.i))))) bundle.(DisclosureBundle.leaves).
Proof.
  intros [Hshape Hnd]%decoded_shape [_ Hleaves]%verified_leaves Hroot Hvalues Hfree. split; [done|].
  assert (Forall2 (λ leaf check, (0 <= leaf.(DisclosedLeaf.i) < 16 ∧
      hexToBytes leaf.(DisclosedLeaf.value) = Ok (at_ values (Z.to_nat leaf.(DisclosedLeaf.i))) ∧
      hexToBytes leaf.(DisclosedLeaf.leafSalt) = Ok (salt_of masterSalt (Z.to_nat leaf.(DisclosedLeaf.i)))) ∧
      check = DisclosureLeafCheck.mk leaf.(DisclosedLeaf.i) true
        (describeCommitmentLeaf leaf.(DisclosedLeaf.i) (at_ values (Z.to_nat leaf.(DisclosedLeaf.i)))))
    bundle.(DisclosureBundle.leaves) checks) as Hall.
  { clear Hnd. induction Hleaves as [|leaf check leaves checks (Hrec & value & Hval & ->) _ IH]; [constructor|].
    apply Forall_cons in Hshape as [(v & salt & proof & Hs) Hshape]. constructor; [|apply IH; [done|]; intros l Hl; apply Hfree; by right].
    destruct Hs as [Hi Hv [Hsalt Hls] Hp [Hlp H32]]. rewrite Hval in Hv. injection Hv as <-.
    pose proof (Hfree leaf ltac:(left)) as Hc. unfold leaf_inputs, hex_or in Hc. fold hex_or in Hc. rewrite Hsalt, Hval in Hc.
    change (map (λ s, match hexToBytes s with Ok b => b | Throw _ => [] end)) with (map hex_or) in Hc. rewrite (hex_or_all _ _ Hp) in Hc.
    destruct (leaf_sound policy period masterSalt c.(CardCommitment.root) values leaf (Z.to_nat leaf.(DisclosedLeaf.i)) salt value proof)
      as [-> ->]; try done; lia. }
  split.
  - intros leaf [j Hj]%list_elem_of_lookup. destruct (Forall2_lookup_l _ _ _ _ _ Hall Hj) as (check & _ & Hok & _). exact Hok.
  - clear - Hall. induction Hall as [|leaf check leaves checks [_ ->] _ IH]; [done|]. cbn [map]. by rewrite <- IH.
Qed.
End Soundness.

(** ** A record of three fields *)

#[local] Existing Instance Base58.keys.
#[local] Existing Instance model_hash.
#[local] Existing Instance model_hash_spec.
#[local] Existing Instance JsonCodec.codec.

Definition shared_fragment : string := Eval vm_compute in "#" +:+ encodeDisclosureFragment sample_bundle.

Lemma shared_opens : decodeDisclosureFragment shared_fragment = Ok sample_bundle.
Proof. vm_compute. reflexivity. Qed.

(** A salt with a byte moved to the value is refused. *)
Example moved_byte_refused :
  decode_leaf [] (leaf_value (DisclosedLeaf.mk 2 "00" "00" [])) = Throw "A field's salt has the wrong length".
Proof. vm_compute. reflexivity. Qed.

Definition shared_checks : list DisclosureLeafCheck.t :=
  Eval vm_compute in match verifyDisclosureBundle sample_bundle sample_chain_commitment with
                     | Ok (DisclosureCheck.verified _ _ _ checks) => checks | _ => [] end.

Lemma shared_verified :
  verifyDisclosureBundle sample_bundle sample_chain_commitment
  = Ok (DisclosureCheck.verified (toString 4) (bytesToHex sample_root) (toString 250000000) shared_checks).
Proof. vm_compute. reflexivity. Qed.

Lemma shared_collision_free leaf :
  leaf ∈ sample_bundle.(DisclosureBundle.leaves) → collision_free (leaf_inputs sample_salt sample_values leaf).
Proof.
  intros Hin. apply collision_free_check. revert leaf Hin. apply Forall_forall. repeat (constructor; [vm_compute; reflexivity|]). constructor.
Qed.

Lemma disclosure_sound_witness :
  shared_checks = map (λ leaf, DisclosureLeafCheck.mk leaf.(DisclosedLeaf.i) true
    (describeCommitmentLeaf leaf.(DisclosedLeaf.i) (at_ sample_values (Z.to_nat leaf.(DisclosedLeaf.i)))))
    sample_bundle.(DisclosureBundle.leaves) ∧
  map (λ check, check.(DisclosureLeafCheck.field).(CommitmentFieldView.label)) shared_checks = ["Card"; "Budget per period"; "Charged this period"].
Proof.
  split; [|reflexivity].
  exact (proj2 (proj2 (disclosure_sound shared_fragment sample_bundle sample_chain_commitment sample_card_policy sample_card_period
    sample_salt sample_values _ _ _ shared_checks shared_opens shared_verified sample_root_ok sample_values_ok shared_collision_free))).
Defined.
