(* ===== verification/CardRepayment.v ===== *)
(** * Statement repayments: one payment per statement
    (frontend/src/dashboard/cards/repaymentAttempts.ts, CardStatement.tsx and liveSource.ts)

    Signed repayments whose outcome is not known are kept in the browser, and
    paying is possible only after a lookup found none of them open and no
    receipt.  The dialog, its lookups, the wallet and the chain are a step
    relation: what happens between two awaits may interleave.  One statement
    is followed; a permission is its address. *)
From Stdlib Require Import ZArith Lia Strings.Ascii.
From stdpp Require Import base numbers sets relations strings list.
From S2P Require Import Prelude Bytes PublicKey Types Decimal Store Values Signed.

(** ** Recorded attempts (repaymentAttempts.ts) *)

Module RepaymentAttempt.
Record t : Type := mk {
  mandatePda : string;
  receiptPda : string;
  lastValidBlockHeight : option Z;
  at_ : string;
}.
End RepaymentAttempt.

(** The browser's storage: [None] when every access throws, else the item of this statement *)
Abbreviation LocalStorage := (option (option string)).

(** An item of the stored list: the code writes a whole number or nothing as the height. *)
Definition attempt_of (v : value) : option RepaymentAttempt.t :=
  match get v "mandatePda", get v "receiptPda" with
  | VString m, VString r =>
      Some (RepaymentAttempt.mk m r (match get v "lastValidBlockHeight" with VNumber (JInt z) => Some z | _ => None end)
              (as_string (get v "at")))
  | _, _ => None
  end.

Definition attempt_value (a : RepaymentAttempt.t) : value :=
  VObject ([("mandatePda", VString a.(RepaymentAttempt.mandatePda)); ("receiptPda", VString a.(RepaymentAttempt.receiptPda))]
    ++ match a.(RepaymentAttempt.lastValidBlockHeight) with Some z => [("lastValidBlockHeight", VNumber (JInt z))] | None => [] end
    ++ [("at", VString a.(RepaymentAttempt.at_))]).

Section Attempts.
Context `{C : Codec}.

(** An absent item stands for the text of the empty list. *)
Definition readRepaymentAttempts (st : LocalStorage) : list RepaymentAttempt.t :=
  match st with
  | Some (Some item) => match JSON_parse item with Some (VArray items) => omap attempt_of items | _ => [] end
  | _ => []
  end.

Definition write (st : LocalStorage) (attempts : list RepaymentAttempt.t) : LocalStorage :=
  match st with
  | Some _ => Some (match attempts with [] => None | _ => Some (JSON_stringify (VArray (map attempt_value attempts))) end)
  | None => None
  end.

(** The attempts for another receipt *)
Definition others (receiptPda : string) (attempts : list RepaymentAttempt.t) : list RepaymentAttempt.t :=
  filter (λ a, a.(RepaymentAttempt.receiptPda) ≠ receiptPda) attempts.

Definition recordRepaymentAttempt (st : LocalStorage) (attempt : RepaymentAttempt.t) : LocalStorage :=
  write st (others attempt.(RepaymentAttempt.receiptPda) (readRepaymentAttempts st) ++ [attempt]).

Definition clearRepaymentAttempt (st : LocalStorage) (receiptPda : string) : LocalStorage :=
  write st (others receiptPda (readRepaymentAttempts st)).
End Attempts.

(** ** The lookup

    Its pieces between two awaits: what it keeps after it read the block height,
    one receipt read, and its end. *)

Module RepaymentLookup.
Inductive t : Type :=
| none
| paid (receiptPda mandatePda : string)
| unknown (receiptPda mandatePda : string).
End RepaymentLookup.

Module Looking.
Record t : Type := mk { recorded : list RepaymentAttempt.t; height : Z; todo : list string }.
End Looking.

(** [[...new Set(xs)]] *)
Fixpoint distinct_from (seen xs : list string) : list string :=
  match xs with
  | [] => []
  | x :: xs => if bool_decide (x ∈ seen) then distinct_from seen xs else x :: distinct_from (x :: seen) xs
  end.

Definition candidates (recorded : list RepaymentAttempt.t) (mandateAddresses : list string) : list string :=
  distinct_from [] (map RepaymentAttempt.mandatePda recorded ++ mandateAddresses).

(** An attempt past its last valid height *)
Definition expired (height : Z) (a : RepaymentAttempt.t) : bool :=
  match a.(RepaymentAttempt.lastValidBlockHeight) with Some z => z <? height | None => false end.

Section Lookup.
Context `{C : Codec}.

Definition look_begin (st : LocalStorage) (mandateAddresses : list string) (height : Z) : Looking.t :=
  let recorded := readRepaymentAttempts st in
  Looking.mk recorded (if Nat.eqb (length recorded) 0 then 0 else height) (candidates recorded mandateAddresses).

(** The receipt found under the permission [mandate] ends the lookup. *)
Definition look_found (l : Looking.t) (st : LocalStorage) (mandate receipt : string) : RepaymentLookup.t * LocalStorage :=
  (RepaymentLookup.paid receipt mandate,
   foldl (λ st a, clearRepaymentAttempt st a.(RepaymentAttempt.receiptPda)) st l.(Looking.recorded)).

Fixpoint look_end (recorded : list RepaymentAttempt.t) (height : Z) (st : LocalStorage) : RepaymentLookup.t * LocalStorage :=
  match recorded with
  | [] => (RepaymentLookup.none, st)
  | a :: recorded =>
      if expired height a then look_end recorded height (clearRepaymentAttempt st a.(RepaymentAttempt.receiptPda))
      else (RepaymentLookup.unknown a.(RepaymentAttempt.receiptPda) a.(RepaymentAttempt.mandatePda), st)
  end.

(** The reads one after the other, and what follows them *)
Fixpoint look_all (l : Looking.t) (todo : list string) (findReceipt : string → result (option string)) (st : LocalStorage) :
    result (RepaymentLookup.t * LocalStorage) :=
  match todo with
  | [] => Ok (look_end l.(Looking.recorded) l.(Looking.height) st)
  | mandate :: todo =>
      let! receipt := findReceipt mandate in
      match receipt with
      | Some receipt => Ok (look_found l st mandate receipt)
      | None => look_all l todo findReceipt st
      end
  end.

Definition lookupRepayment (st : LocalStorage) (mandateAddresses : list string) (getBlockHeight : result Z)
    (findReceipt : string → result (option string)) : result (RepaymentLookup.t * LocalStorage) :=
  let! height := if Nat.eqb (length (readRepaymentAttempts st)) 0 then Ok 0 else getBlockHeight in
  let l := look_begin st mandateAddresses height in look_all l l.(Looking.todo) findReceipt st.
End Lookup.

(** ** The dialog (CardStatement.tsx) *)

Inductive LookupState : Type :=
| checking
| check_failed
| looked (found : RepaymentLookup.t).

(** [payStatement] between its awaits: the wallet is asked to sign a repayment, whose blockhash was read before; it has
    signed and recorded it, and sent it or not. *)
Inductive Paying : Type :=
| idle
| prompted (mandate : string) (lastValid : Z)
| signed (mandate : string) (lastValid : Z) (sent : bool).

Module Dialog.
Record t : Type := mk {
  lookup : LookupState;
  paid : option (string * string);
  paying : Paying;
  running : list Looking.t;
}.
End Dialog.

Definition is_idle (p : Paying) : bool := match p with idle => true | _ => false end.

(** [isDisabled] of the Pay button, the rest of its conditions apart *)
Definition can_pay (d : Dialog.t) : bool :=
  is_idle d.(Dialog.paying) && match d.(Dialog.paid) with None => true | Some _ => false end
  && match d.(Dialog.lookup) with looked RepaymentLookup.none => true | _ => false end.

(** What [reconcile] is started in: the timer while the outcome is unknown, the button when it is or the check failed *)
Definition can_check (d : Dialog.t) : bool :=
  match d.(Dialog.lookup) with looked (RepaymentLookup.unknown _ _) | check_failed => true | _ => false end.

(** A fresh dialog, whose first lookup is under way *)
Definition opened (l : Looking.t) : Dialog.t := Dialog.mk checking None idle [l].

Definition with_running (d : Dialog.t) (ls : list Looking.t) : Dialog.t :=
  Dialog.mk d.(Dialog.lookup) d.(Dialog.paid) d.(Dialog.paying) ls.
Definition with_paying (d : Dialog.t) (p : Paying) : Dialog.t :=
  Dialog.mk d.(Dialog.lookup) d.(Dialog.paid) p d.(Dialog.running).

(** [setLookup(found)], and [setPaid] when a receipt was found *)
Definition reconciled (d : Dialog.t) (found : RepaymentLookup.t) (rest : list Looking.t) : Dialog.t :=
  Dialog.mk (looked found)
    (match found with RepaymentLookup.paid receipt mandate => Some (receipt, mandate) | _ => d.(Dialog.paid) end)
    d.(Dialog.paying) rest.

(** A failed lookup keeps what is paid or unknown. *)
Definition reconcile_failed (d : Dialog.t) (rest : list Looking.t) : Dialog.t :=
  Dialog.mk (match d.(Dialog.lookup) with
             | looked (RepaymentLookup.paid _ _) | looked (RepaymentLookup.unknown _ _) => d.(Dialog.lookup)
             | _ => check_failed
             end) d.(Dialog.paid) d.(Dialog.paying) rest.

Definition pay_unknown (d : Dialog.t) (mandate receipt : string) : Dialog.t :=
  Dialog.mk (looked (RepaymentLookup.unknown receipt mandate)) d.(Dialog.paid) idle d.(Dialog.running).

Definition pay_confirmed (d : Dialog.t) (mandate receipt : string) : Dialog.t :=
  Dialog.mk (looked (RepaymentLookup.paid receipt mandate)) (Some (receipt, mandate)) idle d.(Dialog.running).

(** ** The page and the chain *)

Module World.
Record t : Type := mk {
  height : Z;
  (** The permissions under which this statement has a receipt *)
  receipts : list string;
  (** Repayments sent: a permission and the last height they can land at *)
  inflight : list (string * Z);
  storage : LocalStorage;
  dialog : Dialog.t;
}.
End World.

Section Steps.
Context `{C : Codec}.
(** The receipt address of a permission and this statement, the owner's permissions, and whether a lookup may start while
    another is running, as the timer's may *)
Variables (receiptOf : string → string) (own : list string) (overlap : bool).

Definition set_dialog (w : World.t) (st : LocalStorage) (d : Dialog.t) : World.t :=
  World.mk w.(World.height) w.(World.receipts) w.(World.inflight) st d.

Definition attempt (mandate : string) (lastValid : Z) (at_ : string) : RepaymentAttempt.t :=
  RepaymentAttempt.mk mandate (receiptOf mandate) (Some lastValid) at_.

(** The repayments in flight but one *)
Definition without (mandate : string) (lastValid : Z) (txs : list (string * Z)) : list (string * Z) :=
  filter (λ t, t ≠ (mandate, lastValid)) txs.

Inductive Step (w : World.t) : World.t → Prop :=
(** The chain grows, and a repayment lands while its blockhash is valid and the permission has no receipt. *)
| s_tick height : w.(World.height) <= height →
    Step w (World.mk height w.(World.receipts) w.(World.inflight) w.(World.storage) w.(World.dialog))
| s_land mandate lastValid : (mandate, lastValid) ∈ w.(World.inflight) → w.(World.height) <= lastValid →
    mandate ∉ w.(World.receipts) →
    Step w (World.mk w.(World.height) (mandate :: w.(World.receipts)) (without mandate lastValid w.(World.inflight))
      w.(World.storage) w.(World.dialog))
(** The page is loaded again and the dialog opened: everything but the storage is lost. *)
| s_reload : Step w (set_dialog w w.(World.storage) (opened (look_begin w.(World.storage) own w.(World.height))))
(** A lookup starts, reads one permission's receipt, ends, or fails. *)
| s_check : can_check w.(World.dialog) = true → overlap = true ∨ w.(World.dialog).(Dialog.running) = [] →
    Step w (set_dialog w w.(World.storage) (with_running w.(World.dialog)
      (look_begin w.(World.storage) own w.(World.height) :: w.(World.dialog).(Dialog.running))))
| s_read before after l mandate todo : w.(World.dialog).(Dialog.running) = before ++ l :: after →
    l.(Looking.todo) = mandate :: todo → mandate ∉ w.(World.receipts) →
    Step w (set_dialog w w.(World.storage) (with_running w.(World.dialog)
      (before ++ Looking.mk l.(Looking.recorded) l.(Looking.height) todo :: after)))
| s_found before after l mandate todo found st : w.(World.dialog).(Dialog.running) = before ++ l :: after →
    l.(Looking.todo) = mandate :: todo → mandate ∈ w.(World.receipts) →
    look_found l w.(World.storage) mandate (receiptOf mandate) = (found, st) →
    Step w (set_dialog w st (reconciled w.(World.dialog) found (before ++ after)))
| s_end before after l found st : w.(World.dialog).(Dialog.running) = before ++ l :: after → l.(Looking.todo) = [] →
    look_end l.(Looking.recorded) l.(Looking.height) w.(World.storage) = (found, st) →
    Step w (set_dialog w st (reconciled w.(World.dialog) found (before ++ after)))
| s_look_failed before after l : w.(World.dialog).(Dialog.running) = before ++ l :: after →
    Step w (set_dialog w w.(World.storage) (reconcile_failed w.(World.dialog) (before ++ after)))
(** Pay is pressed: the wallet is asked to sign, and declines or signs. *)
| s_press mandate lastValid : can_pay w.(World.dialog) = true → mandate ∈ own → 0 <= lastValid <= 9007199254740991 →
    Step w (set_dialog w w.(World.storage) (with_paying w.(World.dialog) (prompted mandate lastValid)))
| s_declined mandate lastValid : w.(World.dialog).(Dialog.paying) = prompted mandate lastValid →
    Step w (set_dialog w w.(World.storage) (with_paying w.(World.dialog) idle))
| s_signed mandate lastValid at_ : w.(World.dialog).(Dialog.paying) = prompted mandate lastValid →
    Step w (set_dialog w (recordRepaymentAttempt w.(World.storage) (attempt mandate lastValid at_))
      (with_paying w.(World.dialog) (signed mandate lastValid false)))
(** It is sent; or refused by the preflight simulation, which is before it is sent. *)
| s_sent mandate lastValid : w.(World.dialog).(Dialog.paying) = signed mandate lastValid false →
    Step w (World.mk w.(World.height) w.(World.receipts) ((mandate, lastValid) :: w.(World.inflight)) w.(World.storage)
      (with_paying w.(World.dialog) (signed mandate lastValid true)))
| s_refused mandate lastValid : w.(World.dialog).(Dialog.paying) = signed mandate lastValid false →
    Step w (set_dialog w (clearRepaymentAttempt w.(World.storage) (receiptOf mandate)) (with_paying w.(World.dialog) idle))
(** It failed on the chain, it is confirmed, or there is no answer. *)
| s_failed mandate lastValid : w.(World.dialog).(Dialog.paying) = signed mandate lastValid true →
    (mandate, lastValid) ∈ w.(World.inflight) →
    Step w (World.mk w.(World.height) w.(World.receipts) (without mandate lastValid w.(World.inflight))
      (clearRepaymentAttempt w.(World.storage) (receiptOf mandate)) (with_paying w.(World.dialog) idle))
| s_confirmed mandate lastValid : w.(World.dialog).(Dialog.paying) = signed mandate lastValid true →
    mandate ∈ w.(World.receipts) → (mandate, lastValid) ∉ w.(World.inflight) →
    Step w (set_dialog w w.(World.storage) (pay_confirmed w.(World.dialog) mandate (receiptOf mandate)))
| s_unknown mandate lastValid sent : w.(World.dialog).(Dialog.paying) = signed mandate lastValid sent →
    Step w (set_dialog w w.(World.storage) (pay_unknown w.(World.dialog) mandate (receiptOf mandate))).

(** Nothing is paid or recorded, and the dialog has just been opened. *)
Definition start (height : Z) : World.t :=
  World.mk height [] [] (Some None) (opened (look_begin (Some None) own height)).

Definition Reachable (w : World.t) : Prop := ∃ height, rtc Step (start height) w.
End Steps.

(** ** One repayment per statement *)

Lemma attempt_value_json m r lv a :
  0 <= lv <= 9007199254740991 → json (attempt_value (RepaymentAttempt.mk m r (Some lv) a)) = true.
Proof.
  intros Hr. unfold attempt_value. cbn [RepaymentAttempt.lastValidBlockHeight app json]. apply andb_true_iff.
  split; [by apply bool_decide_eq_true_2; apply (bool_decide_unpack _); vm_compute|].
  cbn [forallb snd json]. by rewrite !(proj2 (Z.leb_le _ _)) by lia.
Qed.

Section Once.
Context `{C : Codec, JS : !JsonSpec C}.
Variables (receiptOf : string → string) (own : list string).

Abbreviation attempts w := (readRepaymentAttempts w.(World.storage)).

Lemma clear_all st x r m lv a :
  st = Some x → readRepaymentAttempts st = [] ∨ (readRepaymentAttempts st = [attempt receiptOf m lv a] ∧ r = receiptOf m) →
  clearRepaymentAttempt st r = Some None.
Proof.
  intros Hs H. unfold clearRepaymentAttempt. assert (others r (readRepaymentAttempts st) = []) as ->; [|by rewrite Hs].
  destruct H as [->|[-> ->]]; [done|]. unfold others. by rewrite filter_cons_False by (cbn; tauto).
Qed.

Lemma record_first st x m lv a :
  st = Some x → readRepaymentAttempts st = [] → 0 <= lv <= 9007199254740991 →
  ∃ y, recordRepaymentAttempt st (attempt receiptOf m lv a) = Some y ∧ readRepaymentAttempts (Some y) = [attempt receiptOf m lv a].
Proof.
  intros -> Hr Hl. unfold recordRepaymentAttempt. rewrite Hr.
  exists (Some (JSON_stringify (VArray [attempt_value (attempt receiptOf m lv a)]))). split; [done|].
  unfold readRepaymentAttempts. rewrite json_roundtrip; [done|].
  change (forallb json [attempt_value (attempt receiptOf m lv a)] = true). cbn [forallb]. unfold attempt. by rewrite attempt_value_json.
Qed.

(** *** The ledger of a statement

    Nothing is paid or open; or one repayment is recorded, and no other can land; or it is paid. *)

Definition none_live (w : World.t) : Prop := ∀ t, t ∈ w.(World.inflight) → t.2 < w.(World.height).

Definition clean (w : World.t) : Prop := attempts w = [] ∧ w.(World.receipts) = [] ∧ none_live w.

Definition open (w : World.t) (m : string) (lv : Z) : Prop :=
  (∃ a, attempts w = [attempt receiptOf m lv a]) ∧ m ∈ own ∧
  (w.(World.receipts) = [] ∨ w.(World.receipts) = [m] ∧ (m, lv) ∉ w.(World.inflight)) ∧
  ∀ t, t ∈ w.(World.inflight) → w.(World.height) <= t.2 → t = (m, lv).

Definition settled (w : World.t) (m : string) : Prop :=
  attempts w = [] ∧ w.(World.receipts) = [m] ∧ m ∈ own ∧ none_live w.

Definition ledger (w : World.t) : Prop := clean w ∨ (∃ m lv, open w m lv) ∨ ∃ m, settled w m.

(** What a running lookup has seen: a permission it has read has no receipt, or one of an attempt it will find open *)
Definition sees (w : World.t) (l : Looking.t) : Prop :=
  l.(Looking.recorded) = attempts w ∧ (attempts w ≠ [] → l.(Looking.height) <= w.(World.height)) ∧
  ∀ c, c ∈ own → c ∈ l.(Looking.todo) ∨ c ∉ w.(World.receipts) ∨
    ∃ a, a ∈ l.(Looking.recorded) ∧ a.(RepaymentAttempt.mandatePda) = c ∧ expired l.(Looking.height) a = false.

Definition paying_ok (w : World.t) : Prop :=
  let d := w.(World.dialog) in
  match d.(Dialog.paying) with
  | idle => can_pay d = true → clean w
  | prompted m lv => clean w ∧ m ∈ own ∧ 0 <= lv <= 9007199254740991 ∧ d.(Dialog.lookup) = looked RepaymentLookup.none ∧
      d.(Dialog.running) = []
  | signed m lv sent => open w m lv ∧ d.(Dialog.lookup) = looked RepaymentLookup.none ∧ d.(Dialog.running) = [] ∧
      (sent = false → w.(World.receipts) = [] ∧ none_live w)
  end.

Definition running_ok (w : World.t) : Prop :=
  let d := w.(World.dialog) in
  d.(Dialog.running) = [] ∨
  ∃ l, d.(Dialog.running) = [l] ∧ d.(Dialog.paying) = idle ∧ d.(Dialog.lookup) ≠ looked RepaymentLookup.none ∧ sees w l.

Record Inv (w : World.t) : Prop := mk_inv {
  in_available : ∃ x, w.(World.storage) = Some x;
  in_ledger : ledger w;
  in_paying : paying_ok w;
  in_running : running_ok w;
}.

Lemma one_receipt w : ledger w → (length w.(World.receipts) <= 1)%nat.
Proof. intros [(_ & -> & _)|[(m & lv & _ & _ & [->|[-> _]] & _)|(m & _ & -> & _)]]; cbn; lia. Qed.

(** A dialog that is not about to pay *)
Lemma quiet_ok w d : d.(Dialog.paying) = idle → can_pay d = false → paying_ok (set_dialog w w.(World.storage) d).
Proof. intros Hi Hc. unfold paying_ok. cbn. by rewrite Hi, Hc. Qed.

Lemma elem_of_distinct c xs : ∀ seen, c ∈ xs → c ∈ seen ∨ c ∈ distinct_from seen xs.
Proof.
  induction xs as [|x xs IH]; intros seen Hx; [by apply elem_of_nil in Hx|]. cbn [distinct_from].
  apply elem_of_cons in Hx as [->|Hx]; case_bool_decide as Hs; [by left|right; by left|by apply IH|].
  destruct (IH (x :: seen) Hx) as [[->|?]%elem_of_cons|?]; [right; by left|by left|right; by right].
Qed.

Lemma own_candidates c recorded : c ∈ own → c ∈ candidates recorded own.
Proof.
  intros Hc. destruct (elem_of_distinct c (map RepaymentAttempt.mandatePda recorded ++ own) []) as [[]%elem_of_nil|?]; [|done].
  apply elem_of_app. by right.
Qed.

Lemma seen_at_start w : sees w (look_begin w.(World.storage) own w.(World.height)).
Proof.
  unfold look_begin, sees. cbn [Looking.recorded Looking.height Looking.todo]. split; [done|]. split.
  - intros Hne. by destruct (attempts w).
  - intros c Hc. left. by apply own_candidates.
Qed.

(** A lookup without interruption that answers "none" read no receipt and left no attempt that can still land. *)
Lemma end_none recorded h st st' : look_end recorded h st = (RepaymentLookup.none, st') → Forall (λ a, expired h a = true) recorded.
Proof.
  revert st. induction recorded as [|a recorded IH]; intros st; [by constructor|]. cbn [look_end]. destruct (expired h a) eqn:E; [|done].
  intros H. constructor; [done|by eapply IH].
Qed.

Lemma all_none l todo find st st' : look_all l todo find st = Ok (RepaymentLookup.none, st') →
  Forall (λ m, find m = Ok None) todo ∧ Forall (λ a, expired l.(Looking.height) a = true) l.(Looking.recorded).
Proof.
  induction todo as [|m todo IH]; cbn [look_all].
  - intros [= H]. split; [constructor|by eapply end_none].
  - intros (r & Hr & H)%bind_ok. destruct r; [done|]. destruct (IH H). split; [by constructor|done].
Qed.

Lemma lookup_none st getBlockHeight find st' :
  lookupRepayment st own getBlockHeight find = Ok (RepaymentLookup.none, st') →
  (∀ m, m ∈ own → find m = Ok None) ∧
  ∀ a, a ∈ readRepaymentAttempts st → ∃ h, getBlockHeight = Ok h ∧ expired h a = true.
Proof.
  unfold lookupRepayment. intros (h & Hh & [Hr Ha]%all_none)%bind_ok. cbn [look_begin Looking.todo Looking.recorded Looking.height] in *.
  rewrite Forall_forall in Hr. rewrite Forall_forall in Ha. split; [intros m Hm; by apply Hr, own_candidates|].
  intros a Hin. specialize (Ha a Hin). destruct (readRepaymentAttempts st); [by apply elem_of_nil in Hin|]. cbn in Hh, Ha. by exists h.
Qed.

(** *** Steps of the chain *)

Lemma step_tick w h : Inv w → w.(World.height) <= h →
  Inv (World.mk h w.(World.receipts) w.(World.inflight) w.(World.storage) w.(World.dialog)).
Proof.
  intros [Hs Hl Hp Hr] Hh.
  assert (∀ w', none_live w → w' = World.mk h w.(World.receipts) w.(World.inflight) w.(World.storage) w.(World.dialog) → none_live w') as Hn.
  { intros w' H -> t Ht. specialize (H t Ht). cbn. lia. }
  assert (∀ m lv, open w m lv → open (World.mk h w.(World.receipts) w.(World.inflight) w.(World.storage) w.(World.dialog)) m lv) as Ho.
  { intros m lv (Ha & Hm & Hrc & Hlv). split_and!; try done. intros t Ht Hht. apply Hlv; [done|]. cbn in Hht. lia. }
  split; [done|..].
  - destruct Hl as [(?&?&?)|[(m & lv & H)|(m & ? & ? & ? & ?)]]; [left; split_and!; try done; by eapply Hn|right; left; exists m, lv; by apply Ho|].
    right; right. exists m. split_and!; try done. by eapply Hn.
  - unfold paying_ok in *. cbn. destruct (Dialog.paying _) as [|m lv|m lv sent].
    + intros Hc. destruct (Hp Hc) as (?&?&?). split_and!; try done. by eapply Hn.
    + destruct Hp as ((?&?&?) & ?). split; [|done]. split_and!; try done. by eapply Hn.
    + destruct Hp as (? & ? & ? & Hu). split; [by apply Ho|]. split_and!; try done. intros E. destruct (Hu E). split; [done|]. by eapply Hn.
  - destruct Hr as [?|(l & ? & ? & ? & Hsee & Hlh & Hc)]; [by left|right]. exists l. split_and!; try done. split_and!; try done.
    intros Hne. cbn. specialize (Hlh Hne). lia.
Qed.

Lemma elem_without m lv t txs : t ∈ without m lv txs ↔ t ∈ txs ∧ t ≠ (m, lv).
Proof. unfold without. rewrite list_elem_of_filter. tauto. Qed.

(** The only repayment that can land is the open one. *)
Lemma landing w m lv : ledger w → (m, lv) ∈ w.(World.inflight) → w.(World.height) <= lv → m ∉ w.(World.receipts) →
  open w m lv ∧ w.(World.receipts) = [].
Proof.
  intros [(_ & _ & Hn)|[(m' & lv' & (Ha & Hm & Hrc & Hlv))|(m' & _ & _ & _ & Hn)]] Ht Hh Hnr;
    [by specialize (Hn _ Ht); cbn in Hn; lia| |by specialize (Hn _ Ht); cbn in Hn; lia].
  pose proof (Hlv _ Ht Hh) as E. injection E as <- <-. destruct Hrc as [Hrc|[Hrc Hx]]; [|by destruct Hx].
  split; [|done]. split_and!; try done. by left.
Qed.

Lemma step_land w m lv : Inv w → (m, lv) ∈ w.(World.inflight) → w.(World.height) <= lv → m ∉ w.(World.receipts) →
  Inv (World.mk w.(World.height) (m :: w.(World.receipts)) (without m lv w.(World.inflight)) w.(World.storage) w.(World.dialog)).
Proof.
  intros [Hs Hl Hp Hr] Ht Hh Hnr. destruct (landing w m lv Hl Ht Hh Hnr) as [Ho Hrc]. rewrite Hrc.
  assert (open (World.mk w.(World.height) [m] (without m lv w.(World.inflight)) w.(World.storage) w.(World.dialog)) m lv) as Ho'.
  { destruct Ho as (Ha & Hm & _ & Hlv). split_and!; try done.
    - right. split; [done|]. cbn. rewrite elem_without. tauto.
    - intros t [Ht' _]%elem_without Hh'. by apply Hlv. }
  assert (¬ none_live w) as Hnn by (intros H; specialize (H _ Ht); cbn in H; lia).
  split; [done|by right; left; exists m, lv|..].
  - unfold paying_ok in *. cbn. destruct (Dialog.paying _) as [|m' lv'|m' lv' sent].
    + intros Hc. by destruct (Hp Hc) as (_ & _ & ?).
    + by destruct Hp as ((_ & _ & ?) & _).
    + destruct Hp as ((_ & _ & _ & Hlv) & ? & ? & Hu). pose proof (Hlv _ Ht Hh) as E. injection E as <- <-.
      split_and!; try done. intros ->. by destruct (Hu eq_refl).
  - destruct Hr as [?|(l & ? & ? & ? & Hsee & Hlh & Hc)]; [by left|right]. exists l. split_and!; try done. split_and!; try done.
    cbn. intros c Hown. destruct (decide (c = m)) as [->|Hne]; [|destruct (Hc c Hown) as [?|[_|?]]; auto; right; left; by intros [?|[]%elem_of_nil]%elem_of_cons].
    right; right. destruct Ho as ((a & Ha) & _). rewrite Hsee, Ha. exists (attempt receiptOf m lv a). split_and!; [by left|done|].
    assert (l.(Looking.height) <= w.(World.height)) by (apply Hlh; by rewrite Ha). cbn. apply Z.ltb_ge. lia.
Qed.

(** *** Steps of a lookup *)

Lemma ledger_same w d : ledger w → ledger (set_dialog w w.(World.storage) d).
Proof. done. Qed.

(** A lookup starts in a dialog that is not about to pay. *)
Lemma step_begin w d : Inv w → d.(Dialog.paying) = idle → d.(Dialog.lookup) ≠ looked RepaymentLookup.none →
  d.(Dialog.running) = [look_begin w.(World.storage) own w.(World.height)] → Inv (set_dialog w w.(World.storage) d).
Proof.
  intros [Hs Hl Hp Hr] Hi Hn Hrun. split; [done|done| |].
  - apply quiet_ok; [done|]. unfold can_pay. rewrite Hi. cbn. destruct (Dialog.paid d), (Dialog.lookup d) as [| |[]]; done.
  - right. eexists. split_and!; try done. exact (seen_at_start w).
Qed.

Lemma running_one w before l after : running_ok w → w.(World.dialog).(Dialog.running) = before ++ l :: after →
  before = [] ∧ after = [] ∧ w.(World.dialog).(Dialog.paying) = idle ∧
  w.(World.dialog).(Dialog.lookup) ≠ looked RepaymentLookup.none ∧ sees w l.
Proof.
  intros [->|(l' & -> & H)] E; [by destruct before|]. destruct before as [|b before]; [by injection E as <- <-|].
  injection E as _ E. by destruct before.
Qed.

Lemma step_read w before l after c todo : Inv w → w.(World.dialog).(Dialog.running) = before ++ l :: after →
  l.(Looking.todo) = c :: todo → c ∉ w.(World.receipts) →
  Inv (set_dialog w w.(World.storage) (with_running w.(World.dialog)
    (before ++ Looking.mk l.(Looking.recorded) l.(Looking.height) todo :: after))).
Proof.
  intros [Hs Hl Hp Hr] E Ht Hc. destruct (running_one _ _ _ _ Hr E) as (-> & -> & Hi & Hn & Hsee & Hlh & Hco).
  split; [done|done| |].
  - unfold paying_ok in *. cbn. rewrite Hi in *. done.
  - right. eexists. split_and!; try done. split_and!; try done. cbn. intros c' Hown. rewrite Ht in Hco.
    destruct (Hco c' Hown) as [[->|?]%elem_of_cons|[?|?]]; auto.
Qed.

Lemma step_failed_look w before l after : Inv w → w.(World.dialog).(Dialog.running) = before ++ l :: after →
  Inv (set_dialog w w.(World.storage) (reconcile_failed w.(World.dialog) (before ++ after))).
Proof.
  intros [Hs Hl Hp Hr] E. destruct (running_one _ _ _ _ Hr E) as (-> & -> & Hi & Hn & _).
  split; [done|done| |by left]. apply quiet_ok; [done|]. unfold can_pay, reconcile_failed. cbn. rewrite Hi. cbn.
  destruct (Dialog.paid _); [done|]. by destruct (Dialog.lookup _) as [| |[]].
Qed.

(** The records a lookup found are cleared with the receipt. *)
Lemma cleared w l x : w.(World.storage) = Some x → l.(Looking.recorded) = attempts w → ledger w → ∀ c,
  (look_found l w.(World.storage) c (receiptOf c)).2 = w.(World.storage) ∧ attempts w = [] ∨
  (look_found l w.(World.storage) c (receiptOf c)).2 = Some None.
Proof.
  intros Hs Hl Hled c. unfold look_found. rewrite Hl. cbn [snd]. destruct Hled as [(-> & _)|[(m & lv & (a & Ha) & _)|(m & -> & _)]]; [by left| |by left].
  right. rewrite Ha. cbn [foldl]. eapply clear_all; [done|]. right. by rewrite Ha.
Qed.

Lemma step_found w before l after c todo found st : Inv w → w.(World.dialog).(Dialog.running) = before ++ l :: after →
  l.(Looking.todo) = c :: todo → c ∈ w.(World.receipts) → look_found l w.(World.storage) c (receiptOf c) = (found, st) →
  Inv (set_dialog w st (reconciled w.(World.dialog) found (before ++ after))).
Proof.
  intros [[x Hs] Hl Hp Hr] E Ht Hc Hf. destruct (running_one _ _ _ _ Hr E) as (-> & -> & Hi & Hn & Hsee & _).
  assert (found = RepaymentLookup.paid (receiptOf c) c) as -> by (by injection Hf).
  assert ((∃ y, st = Some y) ∧ readRepaymentAttempts st = []) as [Hst Hread].
  { destruct (cleared w l x Hs Hsee Hl c) as [[Hx Ha]|Hx]; rewrite Hf in Hx; cbn in Hx; subst st; [by rewrite Ha; eauto|by eauto]. }
  split; [done| | |by left].
  - right; right. destruct Hl as [(_ & Hrc & _)|[(m & lv & _ & Hm & Hrc & Hlv)|(m & _ & Hrc & Hm & Hnl)]].
    + rewrite Hrc in Hc. by apply elem_of_nil in Hc.
    + destruct Hrc as [Hrc|[Hrc Hx]]; [rewrite Hrc in Hc; by apply elem_of_nil in Hc|]. exists m. split_and!; try done.
      intros t Htx. destruct (Z.lt_ge_cases t.2 w.(World.height)) as [?|Hge]; [done|]. destruct Hx. by rewrite <- (Hlv t).
    + by exists m.
  - unfold paying_ok, can_pay. cbn. by rewrite Hi.
Qed.

Lemma step_end w before l after found st : Inv w → w.(World.dialog).(Dialog.running) = before ++ l :: after →
  l.(Looking.todo) = [] → look_end l.(Looking.recorded) l.(Looking.height) w.(World.storage) = (found, st) →
  Inv (set_dialog w st (reconciled w.(World.dialog) found (before ++ after))).
Proof.
  intros [[x Hs] Hl Hp Hr] E Ht Hf. destruct (running_one _ _ _ _ Hr E) as (-> & -> & Hi & Hn & Hsee & Hlh & Hco).
  rewrite Hsee in *. rewrite Ht in Hco.
  assert (∀ found', ledger w → found' ≠ RepaymentLookup.none → Inv (set_dialog w w.(World.storage) (reconciled w.(World.dialog) found' ([] ++ [])))) as Hkeep.
  { intros f' Hled Hf'. split; [by exists x|done| |by left]. apply quiet_ok; [done|]. unfold can_pay, reconciled. cbn. rewrite Hi. cbn.
    by destruct f', (Dialog.paid (World.dialog w)). }
  assert (∀ st', (∃ y, st' = Some y) → readRepaymentAttempts st' = [] → w.(World.receipts) = [] → none_live w →
    Inv (set_dialog w st' (reconciled w.(World.dialog) RepaymentLookup.none ([] ++ [])))) as Hclean.
  { intros st' Hav Hre Hrc Hnl. split; [done|by left| |by left]. unfold paying_ok. cbn. rewrite Hi. by intros _. }
  destruct Hl as [(Ha & Hrc & Hnl)|[(m & lv & (a & Ha) & Hm & Hrc & Hlv)|(m & Ha & Hrc & Hm & Hnl)]]; rewrite Ha in *.
  - cbn in Hf. injection Hf as <- <-. apply Hclean; eauto.
  - cbn [look_end] in Hf. destruct (expired (Looking.height l) (attempt receiptOf m lv a)) eqn:Ex.
    + rewrite (clear_all _ x _ m lv a) in Hf; [|done|by right]. injection Hf as <- <-.
      assert (Looking.height l <= World.height w) by (by apply Hlh). cbn in Ex. apply Z.ltb_lt in Ex.
      apply Hclean; [by eauto|done|..].
      * destruct Hrc as [?|[Hrc _]]; [done|]. destruct (Hco m Hm) as [[]%elem_of_nil|[Hnr|(a' & Ha' & _ & Hx)]].
        { destruct Hnr. rewrite Hrc. by left. }
        apply elem_of_cons in Ha' as [->|[]%elem_of_nil]. cbn in Hx. apply Z.ltb_ge in Hx. lia.
      * intros t Htx. destruct (Z.lt_ge_cases t.2 w.(World.height)) as [?|Hge]; [done|]. rewrite (Hlv t) in * by done. cbn in *. lia.
    + injection Hf as <- <-. apply Hkeep; [|done]. right; left. exists m, lv. split_and!; eauto.
  - cbn in Hf. injection Hf as <- <-. destruct (Hco m Hm) as [[]%elem_of_nil|[Hnr|(a' & []%elem_of_nil & _)]].
    destruct Hnr. rewrite Hrc. by left.
Qed.

(** *** Steps of a payment *)

Lemma pressed w : Inv w → can_pay w.(World.dialog) = true →
  clean w ∧ w.(World.dialog).(Dialog.lookup) = looked RepaymentLookup.none ∧ w.(World.dialog).(Dialog.running) = [] ∧
  w.(World.dialog).(Dialog.paid) = None.
Proof.
  intros [_ _ Hp Hr] Hc. unfold paying_ok in Hp. unfold can_pay in *. destruct (Dialog.paying _) eqn:Ep; try done.
  destruct (Dialog.paid _); [done|]. destruct (Dialog.lookup _) as [| |[]] eqn:El; try done. split; [by apply Hp|]. split_and!; try done.
  destruct Hr as [?|(l & _ & _ & Hn & _)]; [done|by destruct Hn].
Qed.

Lemma step_press w m lv : Inv w → can_pay w.(World.dialog) = true → m ∈ own → 0 <= lv <= 9007199254740991 →
  Inv (set_dialog w w.(World.storage) (with_paying w.(World.dialog) (prompted m lv))).
Proof.
  intros Hw Hc Hm Hlv. destruct (pressed w Hw Hc) as (Hcl & Hl & Hr & _). destruct Hw as [Hs _ _ _].
  split; [done|by left| |by left]. exact (conj Hcl (conj Hm (conj Hlv (conj Hl Hr)))).
Qed.

Lemma step_declined w m lv : Inv w → w.(World.dialog).(Dialog.paying) = prompted m lv →
  Inv (set_dialog w w.(World.storage) (with_paying w.(World.dialog) idle)).
Proof.
  intros [Hs _ Hp _] E. unfold paying_ok in Hp. rewrite E in Hp. destruct Hp as (Hcl & _ & _ & _ & Hr).
  split; [done|by left| |by left]. by intros _.
Qed.

Lemma step_signed w m lv a : Inv w → w.(World.dialog).(Dialog.paying) = prompted m lv →
  Inv (set_dialog w (recordRepaymentAttempt w.(World.storage) (attempt receiptOf m lv a))
    (with_paying w.(World.dialog) (signed m lv false))).
Proof.
  intros [[x Hs] _ Hp _] E. unfold paying_ok in Hp. rewrite E in Hp. destruct Hp as ((Ha & Hrc & Hnl) & Hm & Hlv & Hlk & Hr).
  destruct (record_first w.(World.storage) x m lv a Hs Ha Hlv) as (y & Hy & Hread). rewrite Hy.
  assert (open (set_dialog w (Some y) (with_paying w.(World.dialog) (signed m lv false))) m lv) as Ho.
  { split_and!; [by exists a|done|by left|]. intros t Ht Hh. cbn in Hh. specialize (Hnl t Ht). lia. }
  split; [by exists y|by right; left; exists m, lv| |by left]. by split_and!.
Qed.

Lemma step_sent w m lv : Inv w → w.(World.dialog).(Dialog.paying) = signed m lv false →
  Inv (World.mk w.(World.height) w.(World.receipts) ((m, lv) :: w.(World.inflight)) w.(World.storage)
    (with_paying w.(World.dialog) (signed m lv true))).
Proof.
  intros [Hs _ Hp _] E. unfold paying_ok in Hp. rewrite E in Hp. destruct Hp as ((Ha & Hm & _ & _) & Hlk & Hr & Hu).
  destruct (Hu eq_refl) as [Hrc Hnl].
  assert (open (World.mk w.(World.height) w.(World.receipts) ((m, lv) :: w.(World.inflight)) w.(World.storage)
    (with_paying w.(World.dialog) (signed m lv true))) m lv) as Ho.
  { split_and!; [done|done|by left|]. intros t [->|Ht]%elem_of_cons Hh; [done|]. cbn in Hh. specialize (Hnl t Ht). lia. }
  split; [done|by right; left; exists m, lv| |by left]. by split_and!.
Qed.

(** Clearing the attempt of a payment that cannot land leaves nothing open. *)
Lemma step_cleared w m lv sent txs : Inv w → w.(World.dialog).(Dialog.paying) = signed m lv sent → w.(World.receipts) = [] →
  (∀ t, t ∈ txs → t.2 < w.(World.height)) →
  Inv (World.mk w.(World.height) w.(World.receipts) txs (clearRepaymentAttempt w.(World.storage) (receiptOf m))
    (with_paying w.(World.dialog) idle)).
Proof.
  intros [[x Hs] _ Hp _] E Hrc Htx. unfold paying_ok in Hp. rewrite E in Hp. destruct Hp as (((a & Ha) & _) & _ & Hr & _).
  rewrite (clear_all _ x _ m lv a); [|done|by right]. split; [by eexists|by left| |by left]. by intros _.
Qed.

Lemma step_refused w m lv : Inv w → w.(World.dialog).(Dialog.paying) = signed m lv false →
  Inv (set_dialog w (clearRepaymentAttempt w.(World.storage) (receiptOf m)) (with_paying w.(World.dialog) idle)).
Proof.
  intros Hw E. pose proof (in_paying _ Hw) as Hp. unfold paying_ok in Hp. rewrite E in Hp. destruct Hp as (_ & _ & _ & Hu).
  destruct (Hu eq_refl) as [Hrc Hnl]. by eapply step_cleared.
Qed.

Lemma step_failed w m lv : Inv w → w.(World.dialog).(Dialog.paying) = signed m lv true → (m, lv) ∈ w.(World.inflight) →
  Inv (World.mk w.(World.height) w.(World.receipts) (without m lv w.(World.inflight))
    (clearRepaymentAttempt w.(World.storage) (receiptOf m)) (with_paying w.(World.dialog) idle)).
Proof.
  intros Hw E Hx. pose proof (in_paying _ Hw) as Hp. unfold paying_ok in Hp. rewrite E in Hp. destruct Hp as ((_ & _ & Hrc & Hlv) & _).
  destruct Hrc as [Hrc|[_ Hn]]; [|by destruct Hn]. eapply step_cleared; [done..|].
  intros t [Ht Hne]%elem_without. destruct (Z.lt_ge_cases t.2 w.(World.height)) as [?|Hge]; [done|]. by destruct Hne; apply Hlv.
Qed.

(** The payment ends with a dialog that says paid or unknown. *)
Lemma step_answered w m lv sent d : Inv w → w.(World.dialog).(Dialog.paying) = signed m lv sent →
  d.(Dialog.paying) = idle → can_pay d = false → d.(Dialog.running) = w.(World.dialog).(Dialog.running) →
  Inv (set_dialog w w.(World.storage) d).
Proof.
  intros [Hs Hl Hp _] E Hi Hc Hrun. unfold paying_ok in Hp. rewrite E in Hp. destruct Hp as (_ & _ & Hr & _).
  split; [done|done|by apply quiet_ok|]. left. cbn. by rewrite Hrun.
Qed.

Lemma inv_step w w' : Inv w → Step receiptOf own false w w' → Inv w'.
Proof.
  intros Hw Hstep. destruct Hstep.
  - by apply step_tick.
  - by apply step_land.
  - by eapply step_begin.
  - destruct (in_running _ Hw) as [Hr|(l & Hr & _)]; [|by destruct H0 as [?|H0]; [|rewrite Hr in H0]].
    apply step_begin; [done| | |by cbn; rewrite Hr].
    + cbn. pose proof (in_paying _ Hw) as Hp. unfold paying_ok, can_check in *. destruct (Dialog.paying _); [done|..].
      * destruct Hp as (_ & _ & _ & Hlk & _). by rewrite Hlk in H.
      * destruct Hp as (_ & Hlk & _). by rewrite Hlk in H.
    + cbn. intros Hlk. unfold can_check in H. by rewrite Hlk in H.
  - by eapply step_read.
  - by eapply step_found.
  - by eapply step_end.
  - by eapply step_failed_look.
  - by apply step_press.
  - by eapply step_declined.
  - by apply step_signed.
  - by apply step_sent.
  - by eapply step_refused.
  - by apply step_failed.
  - eapply step_answered; [done|done|done| |done]. done.
  - eapply step_answered; [done|done|done| |done]. unfold can_pay, pay_unknown. cbn. by destruct (Dialog.paid _).
Qed.

Lemma inv_start height : Inv (start own height).
Proof.
  split; [by exists None| | |].
  - left. split_and!; try done. by intros t []%elem_of_nil.
  - done.
  - right. eexists. split_and!; try done. exact (seen_at_start (start own height)).
Qed.

Lemma reachable_inv w : Reachable receiptOf own false w → Inv w.
Proof.
  intros (height & Hrun). pose proof (inv_start height) as Hi. revert Hi. induction Hrun; [done|]. intros Hi. by eapply IHHrun, inv_step.
Qed.

(** C19: When the browser keeps its storage, every permission used is one of the owner's and no lookup is started while
    another one is running, a statement has at most one receipt at any time, under whatever permissions it was tried,
    whatever the chain, the node and the wallet answered, however often the page was reloaded; and where Pay can be
    pressed nothing is paid and no repayment sent before can land any more. *)
Theorem statement_paid_once (w : World.t) :
  Reachable receiptOf own false w →
  (length w.(World.receipts) <= 1)%nat ∧
  (can_pay w.(World.dialog) = true →
    w.(World.receipts) = [] ∧ ∀ t, t ∈ w.(World.inflight) → t.2 < w.(World.height)).
Proof.
  intros Hw%reachable_inv. split; [apply one_receipt, Hw|]. intros Hc. by destruct (pressed w Hw Hc) as ((_ & ? & ?) & _).
Qed.
End Once.

(** ** Concrete runs *)

#[local] Existing Instance JsonCodec.codec.
#[local] Existing Instance JsonCodec.json_spec.

Definition receipt_of (mandate : string) : string := "receipt " +:+ mandate.
Definition permissions : list string := ["A"; "B"; "C"].

(** The world reached so far, evaluated *)
Ltac evaluate :=
  lazymatch goal with |- rtc _ ?w _ => let v := eval vm_compute in w in change w with v end.
Ltac settle_premise :=
  first [reflexivity | apply not_elem_of_nil | left; reflexivity | right; reflexivity | done | cbn; lia
        | apply (bool_decide_unpack _); vm_compute; exact I].
Tactic Notation "go" uconstr(step) := eapply rtc_l; [eapply step; settle_premise | evaluate].
(** The lookup after [before] reads three permissions, none of which has a receipt, and ends. *)
Ltac look before :=
  do 3 go (s_read receipt_of permissions _ _ before []); go (s_end receipt_of permissions _ _ before []).
(** A repayment is prompted for and signed. *)
Ltac sign mandate height :=
  go (s_press receipt_of permissions _ _ mandate height); go (s_signed receipt_of permissions _ _ mandate height "").

(** A repayment under the first permission, of which no answer comes, lands; the lookup after a reload finds it. *)
Definition paid_world : World.t :=
  World.mk 5 ["A"] [] (Some None) (Dialog.mk (looked (RepaymentLookup.paid "receipt A" "A")) (Some ("receipt A", "A")) idle []).

Lemma one_payment_run : Reachable receipt_of permissions false paid_world.
Proof.
  exists 5. evaluate. look (@nil Looking.t). sign "A" 10. go (s_sent receipt_of permissions _ _ "A" 10).
  go (s_unknown receipt_of permissions _ _ "A" 10 true). go (s_land receipt_of permissions _ _ "A" 10). go (s_reload receipt_of permissions _ _).
  go (s_found receipt_of permissions _ _ [] []). apply rtc_refl.
Qed.

Lemma statement_paid_once_witness : (length paid_world.(World.receipts) <= 1)%nat.
Proof. exact (proj1 (statement_paid_once receipt_of permissions paid_world one_payment_run)). Defined.

(** A payment is possible at first. *)
Lemma fresh_run : ∃ w, Reachable receipt_of permissions false w ∧ can_pay w.(World.dialog) = true.
Proof.
  eexists. split; [exists 5; evaluate; look (@nil Looking.t); apply rtc_refl|done].
Qed.

(** Where a lookup may start while another one is running, as with the ten-second timer of an unknown outcome, a lookup
    that began before a payment and ends after it opens Pay again while that payment can still land: the statement is
    paid twice. *)
Theorem overlapping_lookups_pay_twice :
  ∃ w, Reachable receipt_of permissions true w ∧ w.(World.receipts) = ["C"; "B"].
Proof.
  eexists. split.
  { exists 0. evaluate. look (@nil Looking.t). sign "A" 10. go (s_unknown receipt_of permissions _ _ "A" 10 false).
    go (s_tick receipt_of permissions _ _ 11). go (s_check receipt_of permissions _ _). go (s_check receipt_of permissions _ _).
    do 3 go (s_read receipt_of permissions _ _ [] [_]). go (s_end receipt_of permissions _ _ [] [_]).
    sign "B" 20. go (s_sent receipt_of permissions _ _ "B" 20). go (s_unknown receipt_of permissions _ _ "B" 20 true).
    look (@nil Looking.t). sign "C" 20. go (s_sent receipt_of permissions _ _ "C" 20).
    go (s_land receipt_of permissions _ _ "B" 20). go (s_land receipt_of permissions _ _ "C" 20). apply rtc_refl. }
  reflexivity.
Qed.
