(* ===== verification/CrossmintOrder.v ===== *)
(** * Crossmint orders (sdk/src/crossmint-order.ts, sdk/src/crossmint-adapt.ts)

    A shop behind Crossmint is paid through a mandate: what an order charges is
    read from the transaction Crossmint prepared for its own payer, the order's
    memo is taken over byte for byte, and the receipt's address depends on the
    order id only.  The transaction codec of web3.js and [new URL] are
    parameters; JSON texts are those of [Codec]. *)
From Stdlib Require Import ZArith Lia Strings.Byte Strings.Ascii.
From stdpp Require Import base numbers sets strings list.
From S2P Require Import Prelude Bytes PublicKey Types Encoding Decimal Base64 CardConstants CardPda Utf8 CardCommitment Values SupportParse Signed ReceiptReader MerchantProof X402Challenge.

Definition CROSSMINT_CONNECTOR : string := "crossmint-checkout/1.0".
Definition CROSSMINT_CONNECTOR_LABEL : string :=
  "Crossmint checkout order settled through a ChainPay mandate. Proof is the settled signature and receipt PDA; Crossmint order state is read back from its Orders API.".
Definition CROSSMINT_ORDERS_PATH : string := "/api/2022-06-09/orders".
Definition CROSSMINT_PAYABLE_PHASE : string := "payment".
Definition CROSSMINT_SETTLED_PHASES : list string := ["delivery"; "completed"].

Definition MAX_ORDER_ID_CHARS : Z := 128.
Definition MAX_SERIALIZED_TRANSACTION_CHARS : Z := 16384.
Definition MAX_LINE_ITEM_LOCATORS : nat := 32.
Definition MAX_LOCATOR_CHARS : Z := 256.
Definition MAX_ITEM_NAME_CHARS : Z := 200.
Definition MAX_ITEM_DESCRIPTION_CHARS : Z := 2000.
Definition MAX_ITEM_IMAGE_URL_CHARS : Z := 1024.
Definition MAX_CROSSMINT_MEMO_BYTES : Z := 512.
Definition SPL_TRANSFER_TAG : Z := 3.
Definition SPL_TRANSFER_CHECKED_TAG : Z := 12.
Definition DEVNET_USDC : Address := "4zMMC9srt5Ri5X14GAgXhaHii3GnPAEERYPJgZJDncDU".

(** ** Errors *)

Inductive CrossmintOrderErrorCode : Type :=
| order_malformed | order_not_payable | terms_unavailable | terms_mismatch | unsupported_token_program.

#[export] Instance order_code_eq_dec : EqDecision CrossmintOrderErrorCode.
Proof. solve_decision. Defined.

(** A function that throws a [CrossmintOrderError] *)
Inductive ordered (A : Type) : Type := Given (a : A) | Refused (code : CrossmintOrderErrorCode) (message : string).
Arguments Given {A} a.
Arguments Refused {A} code message.

Definition obind {A B} (r : ordered A) (k : A → ordered B) : ordered B :=
  match r with Given a => k a | Refused code message => Refused code message end.

Declare Scope order_scope.
Notation "'let+' x ':=' r 'in' k" := (obind r (λ x, k))
  (at level 10, x pattern, r at level 100, k at level 200) : order_scope.
Notation "'refuse_if!' b 'as' c 'saying' m ';' k" := (if b then Refused c m else k)
  (at level 10, b at level 100, c at level 100, m at level 100, k at level 200) : order_scope.
Open Scope order_scope.

(** [Array.prototype.map] with a callback that may throw *)
Fixpoint otraverse {A B} (f : A → ordered B) (l : list A) : ordered (list B) :=
  match l with
  | [] => Given []
  | a :: l => let+ b := f a in let+ bs := otraverse f l in Given (b :: bs)
  end.

(** As an [Error] where a caller throws other errors too *)
Definition order_result {A} (r : ordered A) : result A :=
  match r with Given a => Ok a | Refused _ message => Throw message end.

(** ** Data *)

Module Price.
Record t : Type := mk { amount : string; currency : option string }.
End Price.

Module CrossmintLineItem.
Record t : Type := mk {
  locator : option string;
  name : option string;
  description : option string;
  imageUrl : option string;
  metadataUnreadable : bool;
  chain : option string;
  executionMode : option string;
  quantity : option Z;
  quantityConflict : bool;
  deliveryRecipient : option string;
  deliveryRecipientConflict : bool;
  totalPrice : option Price.t;
}.
End CrossmintLineItem.

Module CrossmintOrderSummary.
Record t : Type := mk {
  orderId : string;
  phase : string;
  paymentStatus : option string;
  paymentMethod : option string;
  currency : option string;
  quotedTotal : option Price.t;
  lineItemLocators : list string;
  lineItems : list CrossmintLineItem.t;
  lineItemCount : nat;
  serializedTransaction : option string;
  transactionMemo : option string;
  transactionAmount : option string;
  payerAddress : option string;
  preparationChain : option string;
  quoteExpiresAt : option string;
  quoteStatus : option string;
}.
End CrossmintOrderSummary.

Module CrossmintBoundItem.
Record t : Type := mk {
  locator : option string;
  name : option string;
  description : option string;
  imageUrl : option string;
  chain : option string;
  executionMode : option string;
  quantity : option Z;
  deliveryRecipient : option string;
  totalPrice : option Price.t;
}.
End CrossmintBoundItem.

Inductive CrossmintQuoteCheck : Type := quote_match | quote_mismatch | quote_unavailable.

#[export] Instance quote_check_eq_dec : EqDecision CrossmintQuoteCheck.
Proof. solve_decision. Defined.

Module OrderMemo.
Record t : Type := mk { text : string; signers : list Address }.
End OrderMemo.

Module CrossmintTransferTerms.
Record t : Type := mk {
  mint : Address;
  recipient : Address;
  source : Address;
  amount : string;
  decimals : option Z;
  tokenProgram : TokenProgram;
  memo : option OrderMemo.t;
}.
End CrossmintTransferTerms.

Module CrossmintPaymentTerms.
Record t : Type := mk {
  connector : string;
  connectorLabel : string;
  orderId : string;
  phase : string;
  mint : Address;
  recipient : Address;
  amount : string;
  decimals : option Z;
  tokenProgram : TokenProgram;
  quoteCheck : CrossmintQuoteCheck;
  quotedTotal : option Price.t;
  lineItemLocators : list string;
  items : list CrossmintBoundItem.t;
  payerAddress : option string;
  crossmintSourceTokenAccount : option Address;
  memo : option string;
}.
End CrossmintPaymentTerms.

Module CrossmintPaymentReferences.
Record t : Type := mk { invoiceHash : string; paymentId : string; signatureReference : string }.
End CrossmintPaymentReferences.

(** What [VersionedTransaction.deserialize] gives: the keys as bytes *)
Module NormalizedInstruction.
Record t : Type := mk { programIdIndex : nat; accountKeyIndexes : list nat; data : bytes }.
End NormalizedInstruction.

Module PreparedMessage.
Record t : Type := mk {
  numRequiredSignatures : nat;
  staticAccountKeys : list bytes;
  compiledInstructions : option (list NormalizedInstruction.t);
  addressTableLookups : nat;
}.
End PreparedMessage.

Class TransactionCodec : Type := deserialize_transaction : bytes → result PreparedMessage.t.

(** ** Reading fields *)

(** [optionalRecord(value)?.name] *)
Definition member (v : value) (name : string) : value :=
  match v with VObject fields => field fields name | _ => VUndefined end.

Definition optionalRecord (v : value) : value := match v with VObject _ => v | _ => VUndefined end.
Definition isRecord (v : value) : bool := match v with VObject _ => true | _ => false end.

Definition optionalString (v : value) (max : Z) : option string :=
  match v with
  | VString s =>
      let trimmed := trim s in
      if bool_decide (trimmed = "") || (max <? size trimmed) then None else Some trimmed
  | _ => None
  end.

Definition order_string (v : value) (name : string) (max : Z) : ordered string :=
  match v with
  | VString s =>
      let trimmed := trim s in
      refuse_if! bool_decide (trimmed = "") as order_malformed saying name +:+ " is required";
      refuse_if! max <? size trimmed as order_malformed saying name +:+ " is too long";
      Given trimmed
  | _ => Refused order_malformed (name +:+ " is required")
  end.

(** [scaleDecimalString]: digits, with at most [decimals] of them behind the point but for zeros *)
Definition scaleDecimalString (v : string) (decimals : Z) : option Z :=
  if (decimals <? 0) || (20 <? decimals) then None
  else
    match split_amount (trim v) with
    | None => None
    | Some (whole, fraction) =>
        let n := Z.to_nat decimals in
        if (n <? length fraction)%nat && negb (forallb (λ c, bool_decide (c = "0"%char)) (drop n fraction)) then None
        else Some (chars_value (whole ++ take n (fraction ++ replicate n "0"%char)))
    end.

(** A string of one to [k] digits *)
Definition short_digits (k : nat) (s : string) : bool := all_digits s && (String.length s <=? k)%nat.

(** ** Line items *)

Definition lineItemLocator (record : value) : option string :=
  match optionalString (member record "tokenLocator") MAX_LOCATOR_CHARS with
  | Some s => Some s
  | None => optionalString (member record "collectionLocator") MAX_LOCATOR_CHARS
  end.

Definition lineItemLocators (v : value) : list string :=
  match v with
  | VArray items =>
      omap (λ item, match item with VObject _ => lineItemLocator item | _ => None end) (take MAX_LINE_ITEM_LOCATORS items)
  | _ => []
  end.

Definition positiveInteger (v : value) : option Z :=
  let parsed := match v with
                | VString s => if short_digits 9 (trim s) then VNumber (JInt (BigInt (trim s))) else v
                | v => v
                end in
  match parsed with
  | VNumber (JInt z) => if (0 <? z) && (z <=? 9007199254740991) then Some z else None
  | _ => None
  end.

(** Every stated value must agree. *)
Definition agreed {A} `{EqDecision A} (values : list A) : option A * bool :=
  match values with
  | [] => (None, false)
  | first :: rest => if forallb (λ v, bool_decide (v = first)) rest then (Some first, false) else (None, true)
  end.

(** The values stated, each as [read] makes it: one that cannot be read is a conflict. *)
Definition stated {A} `{EqDecision A} (read : value → option A) (values : list value) : option A * bool :=
  match mapM read (filter (λ v, nullish v = false) values) with
  | None => (None, true)
  | Some read => agreed read
  end.

(** [None] for a string that is stated but not readable *)
Definition statedString (v : value) (max : Z) : option (option string) :=
  if nullish v then Some None else match optionalString v max with Some s => Some (Some s) | None => None end.

Definition read_price (quote : value) : option Price.t :=
  let price := member quote "totalPrice" in
  match optionalString (member price "amount") 64 with
  | Some amount => Some (Price.mk amount (optionalString (member price "currency") 32))
  | None => None
  end.

Section Wallets.
Context `{K : PublicKeys}.

(** [PublicKey.default.toBase58()] *)
Definition default_address : Address := toBase58 (replicate 32 x00).

Definition solanaWallet (v : value) : option string :=
  match optionalString v MAX_LOCATOR_CHARS with
  | None => None
  | Some s =>
      let '(scheme, rest) := break_at ":"%char (chars s) in
      let candidate := match rest with
                       | [] => s
                       | _ :: rest => if bool_decide (text scheme = "solana") then text rest else ""
                       end in
      if bool_decide (candidate = "") then None
      else match newPublicKey candidate with
           | Ok key => if bool_decide (toBase58 key = candidate) && negb (bool_decide (candidate = default_address))
                       then Some candidate else None
           | Throw _ => None
           end
  end.

Definition lineItem (v : value) : option CrossmintLineItem.t :=
  match v with
  | VObject _ =>
      let recipient := member (member v "delivery") "recipient" in
      let '(quantity, quantityConflict) := stated positiveInteger
        [member v "quantity"; member (member v "callData") "quantity"; member (member v "executionParams") "quantity"] in
      let '(deliveryRecipient, deliveryRecipientConflict) := stated solanaWallet
        [member recipient "walletAddress"; member recipient "locator"] in
      let metadata := member v "metadata" in
      let name := statedString (member metadata "name") MAX_ITEM_NAME_CHARS in
      let description := statedString (member metadata "description") MAX_ITEM_DESCRIPTION_CHARS in
      let imageUrl := statedString (member metadata "imageUrl") MAX_ITEM_IMAGE_URL_CHARS in
      let unreadable (x : option (option string)) := match x with None => true | Some _ => false end in
      Some (CrossmintLineItem.mk (lineItemLocator v) (mjoin name) (mjoin description) (mjoin imageUrl)
        ((negb (nullish metadata) && negb (isRecord metadata)) || unreadable name || unreadable description || unreadable imageUrl)
        (optionalString (member v "chain") 64) (optionalString (member v "executionMode") 32)
        quantity quantityConflict deliveryRecipient deliveryRecipientConflict (read_price (member v "quote")))
  | _ => None
  end.

Definition lineItems (v : value) : list CrossmintLineItem.t * nat :=
  match v with
  | VArray items => (omap lineItem (take MAX_LINE_ITEM_LOCATORS items), length items)
  | _ => ([], O)
  end.
End Wallets.

Definition boundItem (item : CrossmintLineItem.t) : CrossmintBoundItem.t :=
  CrossmintBoundItem.mk item.(CrossmintLineItem.locator) item.(CrossmintLineItem.name) item.(CrossmintLineItem.description)
    item.(CrossmintLineItem.imageUrl) item.(CrossmintLineItem.chain) item.(CrossmintLineItem.executionMode)
    (if item.(CrossmintLineItem.quantityConflict) then None else item.(CrossmintLineItem.quantity))
    (if item.(CrossmintLineItem.deliveryRecipientConflict) then None else item.(CrossmintLineItem.deliveryRecipient))
    item.(CrossmintLineItem.totalPrice).

Definition requireBindableItem (item : CrossmintLineItem.t) : ordered unit :=
  refuse_if! bool_decide (given_text item.(CrossmintLineItem.name) = None) || item.(CrossmintLineItem.metadataUnreadable) as terms_unavailable
    saying "A Crossmint line item does not name the item being bought";
  refuse_if! match item.(CrossmintLineItem.chain) with Some chain => negb (bool_decide (chain = "solana")) | None => false end
    as terms_unavailable saying "A Crossmint line item delivers on a chain other than Solana";
  refuse_if! item.(CrossmintLineItem.quantityConflict) || bool_decide (item.(CrossmintLineItem.quantity) = None)
    as terms_unavailable saying "A Crossmint line item has a missing or ambiguous quantity";
  refuse_if! item.(CrossmintLineItem.deliveryRecipientConflict) || bool_decide (item.(CrossmintLineItem.deliveryRecipient) = None)
    as terms_unavailable saying "A Crossmint line item has a missing or ambiguous delivery wallet";
  Given tt.

Definition requireBindableItems (order : CrossmintOrderSummary.t) : ordered unit :=
  let count := order.(CrossmintOrderSummary.lineItemCount) in
  refuse_if! (count =? 0)%nat || (MAX_LINE_ITEM_LOCATORS <? count)%nat
      || negb (length order.(CrossmintOrderSummary.lineItems) =? count)%nat as terms_unavailable
    saying "Crossmint order line items are missing or unreadable, so ChainPay cannot show what is being bought";
  let+ _ := otraverse requireBindableItem order.(CrossmintOrderSummary.lineItems) in
  Given tt.

(** ** The order *)
Section Order.
Context `{K : PublicKeys}.

Definition parseCrossmintOrder (v : value) : ordered CrossmintOrderSummary.t :=
  match v with
  | VObject envelope =>
      let order := match field envelope "order" with VObject order => VObject order | _ => v end in
      let+ orderId := order_string (coalesce (member order "orderId") (member order "id")) "Crossmint orderId" MAX_ORDER_ID_CHARS in
      let+ phase := order_string (member order "phase") "Crossmint order phase" 64 in
      let payment := member order "payment" in
      let preparation := member payment "preparation" in
      let parameters := member preparation "transactionParameters" in
      let transactionMemo :=
        match member parameters "memo" with
        | VString s => if negb (bool_decide (s = "")) && (Z.of_nat (length (text_encode s)) <=? MAX_CROSSMINT_MEMO_BYTES) then Some s else None
        | _ => None
        end in
      let transactionAmount :=
        match member parameters "amount" with VString s => if short_digits 20 s then Some s else None | _ => None end in
      let '(items, count) := lineItems (member order "lineItems") in
      Given (CrossmintOrderSummary.mk orderId phase
        (optionalString (member payment "status") 64) (optionalString (member payment "method") 64)
        (optionalString (member payment "currency") 32) (read_price (member order "quote"))
        (lineItemLocators (member order "lineItems")) items count
        (optionalString (member preparation "serializedTransaction") MAX_SERIALIZED_TRANSACTION_CHARS)
        transactionMemo transactionAmount
        (optionalString (member preparation "payerAddress") 64) (optionalString (member preparation "chain") 64)
        (optionalString (member (member order "quote") "expiresAt") 64)
        (optionalString (member (member order "quote") "status") 32))
  | _ => Refused order_malformed "Crossmint order must be a JSON object"
  end.
End Order.

(** ** Texts of bytes *)

(** The loop over [bytes], least significant first, with its carry *)
Fixpoint mul58 (bytes : list Z) (carry : Z) : list Z * Z :=
  match bytes with
  | [] => ([], carry)
  | b :: bytes =>
      let carry := carry + b * 58 in
      let '(bytes, rest) := mul58 bytes (Z.shiftr carry 8) in
      (Z.land carry 255 :: bytes, rest)
  end.

(** [while (carry > 0)] *)
Fixpoint carry_bytes (fuel : nat) (carry : Z) : list Z :=
  match fuel with
  | O => []
  | S fuel => if 0 <? carry then Z.land carry 255 :: carry_bytes fuel (Z.shiftr carry 8) else []
  end.

Fixpoint base58_loop (cs : list ascii) (bytes : list Z) : option (list Z) :=
  match cs with
  | [] => Some bytes
  | c :: cs =>
      match digit58 c with
      | None => None
      | Some d => let '(bytes, carry) := mul58 bytes d in base58_loop cs (bytes ++ carry_bytes (Z.to_nat carry) carry)
      end
  end.

Definition base58Decode (v : string) : option bytes :=
  match base58_loop (chars v) [] with
  | None => None
  | Some bytes => Some (map byte_of (reverse (bytes ++ replicate (leading "1"%char (chars v)) 0)))
  end.

(** Node's decoder on characters of either alphabet, with [=] at the end or not: a last digit alone is dropped *)
Definition buffer_bytes (cs : list ascii) : bytes :=
  let digits := omap (λ c, b64_value (std_char c)) (drop_equals cs) in
  default [] (b64_groups (take (length digits - (if (length digits mod 4 =? 1)%nat then 1 else 0)) digits)).

Definition base64Decode (v : string) : option bytes :=
  if canonical_base64 (chars v) then Some (buffer_bytes (chars v)) else None.

Module CheckoutExpectation.
Record t : Type := mk { orderId : string; owner : Address; source : Address; mint : Address; now : Z }.
End CheckoutExpectation.

Section Terms.
Context `{K : PublicKeys, T : TransactionCodec, C : Codec, HS : Sha256}.

(** Base58 first, then base64: the error is that of the last one tried. *)
Fixpoint first_transaction (wires : list (option bytes)) (lastError : option string) : ordered PreparedMessage.t :=
  match wires with
  | [] => Refused order_malformed
            match lastError with
            | None => "Crossmint serializedTransaction is neither base58 nor base64"
            | Some e => "Crossmint serializedTransaction is not a Solana transaction: " +:+ e
            end
  | None :: wires | Some [] :: wires => first_transaction wires lastError
  | Some bytes :: wires =>
      match deserialize_transaction bytes with
      | Ok message => Given message
      | Throw e => first_transaction wires (Some e)
      end
  end.

Definition deserializeCrossmintTransaction (wire : string) : ordered PreparedMessage.t :=
  first_transaction [base58Decode wire; base64Decode wire] None.

Definition normalizedInstructions (message : PreparedMessage.t) : ordered (list NormalizedInstruction.t) :=
  match message.(PreparedMessage.compiledInstructions) with
  | Some instructions => Given instructions
  | None => Refused terms_unavailable "Crossmint transaction message could not be decoded into instructions"
  end.

(** The keys the resolver of a message looks up *)
Definition accountKeyResolver (message : PreparedMessage.t) : ordered (list bytes) :=
  refuse_if! (0 <? message.(PreparedMessage.addressTableLookups))%nat as terms_unavailable
    saying "Crossmint transaction resolves accounts through address lookup tables, so its transfer terms cannot be read offline";
  refuse_if! (length message.(PreparedMessage.staticAccountKeys) =? 0)%nat as terms_unavailable
    saying "Crossmint transaction message has no static account keys";
  Given message.(PreparedMessage.staticAccountKeys).

Definition keyAt (keys : list bytes) (index : nat) : ordered bytes :=
  match keys !! index with
  | Some key => Given key
  | None => Refused terms_unavailable "Crossmint transaction references an account index it does not define"
  end.

Definition account_address (key : bytes) (name : string) : ordered Address :=
  let encoded := toBase58 key in
  refuse_if! bool_decide (encoded = default_address) as order_malformed saying name +:+ " must not be the default address";
  Given encoded.

Definition account_at (keys : list bytes) (indexes : list nat) (i : nat) (name : string) : ordered Address :=
  match indexes !! i with
  | Some index => let+ key := keyAt keys index in account_address key name
  | None => Refused terms_unavailable "Crossmint transaction references an account index it does not define"
  end.

Definition tokenProgramFrom (programId : Address) : ordered TokenProgram :=
  if bool_decide (programId = SPL_TOKEN_PROGRAM_ID) then Given spl_token
  else if bool_decide (programId = TOKEN_2022_PROGRAM_ID) then Given token_2022
  else Refused unsupported_token_program
         ("Crossmint prepared a transfer on " +:+ programId +:+ ", which is neither SPL Token nor Token-2022").

(** [TextDecoder] that rejects what is malformed and keeps a byte order mark *)
Definition utf8_strict (bs : bytes) : option string :=
  cps ← mapM (λ p : option Z, p) (decode_points 0 0 128 191 bs);
  Some (text (map narrow_char cps)).

Definition decodeMemoText (data : bytes) : ordered string :=
  refuse_if! (length data =? 0)%nat || (MAX_CROSSMINT_MEMO_BYTES <? count data) as terms_unavailable
    saying "Crossmint memo is empty or too long";
  match utf8_strict data with
  | Some s => Given s
  | None => Refused terms_unavailable "Crossmint memo is not valid UTF-8"
  end.

Record ExpectedTerms : Type := expecting { expected_mint : option Address; expected_program : option TokenProgram; strict : bool }.

(** What one instruction adds *)
Inductive Reading : Type :=
| Transfers (terms : CrossmintTransferTerms.t)
| Memo (memo : OrderMemo.t)
| Other.

Definition read_memo (signerCount : nat) (keys : list bytes) (i : NormalizedInstruction.t) : ordered Reading :=
  refuse_if! existsb (λ index, (signerCount <=? index)%nat) i.(NormalizedInstruction.accountKeyIndexes) as terms_unavailable
    saying "Crossmint memo names an account that is not a signer";
  let+ text := decodeMemoText i.(NormalizedInstruction.data) in
  let+ signers := otraverse (λ index, let+ key := keyAt keys index in account_address key "Crossmint memo signer")
                    i.(NormalizedInstruction.accountKeyIndexes) in
  Given (Memo (OrderMemo.mk text signers)).

Definition read_transfer (expected : ExpectedTerms) (keys : list bytes) (programId : Address) (checked : bool)
    (i : NormalizedInstruction.t) : ordered Reading :=
  let data := i.(NormalizedInstruction.data) in
  let accounts := i.(NormalizedInstruction.accountKeyIndexes) in
  let minimum := if checked then 4%nat else 3%nat in
  refuse_if! negb (length data =? (if checked then 10 else 9))%nat as order_malformed
    saying "Crossmint transfer instruction has an unexpected data length";
  refuse_if! (length accounts <? minimum)%nat as order_malformed
    saying "Crossmint transfer instruction is missing required accounts";
  refuse_if! expected.(strict) && (negb checked || negb (length accounts =? minimum)%nat) as terms_unavailable
    saying "Checkout requires exactly one TransferChecked without extra reference accounts";
  let amount := le_val (slice data 1 8) in
  refuse_if! (amount <=? 0) || (MAX_U64 <? amount) as order_malformed
    saying "Crossmint transfer amount must be a positive unsigned 64-bit integer";
  let+ source := account_at keys accounts 0 "Crossmint transfer source" in
  let+ recipient := account_at keys accounts (if checked then 2 else 1)%nat "Crossmint transfer destination" in
  let+ tokenProgram := tokenProgramFrom programId in
  if checked then
    let+ mint := account_at keys accounts 1 "Crossmint transfer mint" in
    Given (Transfers (CrossmintTransferTerms.mk mint recipient source (toString amount)
      (Some match data !! 9%nat with Some b => byte_val b | None => 0 end) tokenProgram None))
  else
    match given_text expected.(expected_mint) with
    | None => Refused terms_unavailable "Crossmint prepared an unchecked SPL transfer, which does not name a mint; supply the order's mint explicitly before settling"
    | Some mint => Given (Transfers (CrossmintTransferTerms.mk mint recipient source (toString amount) None tokenProgram None))
    end.

Definition read_instruction (expected : ExpectedTerms) (signerCount : nat) (keys : list bytes) (i : NormalizedInstruction.t) :
    ordered Reading :=
  let+ key := keyAt keys i.(NormalizedInstruction.programIdIndex) in
  let programId := toBase58 key in
  if expected.(strict) && bool_decide (programId = MEMO_PROGRAM_ID) then read_memo signerCount keys i
  else if negb (bool_decide (programId = SPL_TOKEN_PROGRAM_ID)) && negb (bool_decide (programId = TOKEN_2022_PROGRAM_ID)) then
    refuse_if! expected.(strict) as terms_unavailable
      saying "Crossmint preparation requires instructions the mandate adapter cannot preserve";
    Given Other
  else
    match byte_val <$> head i.(NormalizedInstruction.data) with
    | Some tag =>
        if (tag =? SPL_TRANSFER_TAG) || (tag =? SPL_TRANSFER_CHECKED_TAG) then
          read_transfer expected keys programId (tag =? SPL_TRANSFER_CHECKED_TAG) i
        else
          refuse_if! expected.(strict) as terms_unavailable
            saying "Crossmint preparation contains unsupported token instructions";
          Given Other
    | None =>
        refuse_if! expected.(strict) as terms_unavailable
          saying "Crossmint preparation contains unsupported token instructions";
        Given Other
    end.

Definition transfer_in (r : Reading) : option CrossmintTransferTerms.t := match r with Transfers t => Some t | _ => None end.
Definition memo_in (r : Reading) : option OrderMemo.t := match r with Memo m => Some m | _ => None end.

Definition with_memo (t : CrossmintTransferTerms.t) (memo : option OrderMemo.t) : CrossmintTransferTerms.t :=
  CrossmintTransferTerms.mk t.(CrossmintTransferTerms.mint) t.(CrossmintTransferTerms.recipient) t.(CrossmintTransferTerms.source)
    t.(CrossmintTransferTerms.amount) t.(CrossmintTransferTerms.decimals) t.(CrossmintTransferTerms.tokenProgram) memo.

Definition decodeCrossmintTransferTerms (serializedTransaction : string) (expected : ExpectedTerms) : ordered CrossmintTransferTerms.t :=
  let wire := trim serializedTransaction in
  refuse_if! bool_decide (wire = "") || (MAX_SERIALIZED_TRANSACTION_CHARS <? size wire) as order_malformed
    saying "Crossmint serializedTransaction is missing or too large";
  let+ message := deserializeCrossmintTransaction wire in
  let+ keys := accountKeyResolver message in
  let+ instructions := normalizedInstructions message in
  let+ readings := otraverse (read_instruction expected message.(PreparedMessage.numRequiredSignatures) keys) instructions in
  match omap transfer_in readings with
  | [] => Refused terms_unavailable "Crossmint transaction contains no SPL Token or Token-2022 transfer to read terms from"
  | _ :: _ :: _ => Refused terms_unavailable
      "Crossmint transaction contains more than one token transfer, so it has no single amount a mandate can authorize"
  | [transfer] =>
      let memos := omap memo_in readings in
      refuse_if! (1 <? length memos)%nat as terms_unavailable
        saying "Crossmint preparation carries more than one memo, so it has no single order reference";
      let terms := with_memo transfer (head memos) in
      refuse_if! match given_text expected.(expected_mint) with
                 | Some mint => negb (bool_decide (mint = terms.(CrossmintTransferTerms.mint)))
                 | None => false
                 end as terms_mismatch
        saying "Crossmint transfer pays mint " +:+ terms.(CrossmintTransferTerms.mint) +:+ ", which is not the expected "
          +:+ default "" expected.(expected_mint);
      refuse_if! match expected.(expected_program) with
                 | Some program => negb (bool_decide (program = terms.(CrossmintTransferTerms.tokenProgram)))
                 | None => false
                 end as terms_mismatch
        saying "Crossmint transfer uses " +:+ program_name terms.(CrossmintTransferTerms.tokenProgram) +:+ ", which is not the expected "
          +:+ match expected.(expected_program) with Some program => program_name program | None => "" end;
      Given terms
  end.

(** ** The memo *)

Definition base64UrlJson (segment : list ascii) : option value := JSON_parse (text (utf8_lossy (buffer_bytes segment))).

Definition MEMO_BEGIN : string := "------BEGIN MEMO------".
Definition MEMO_END : string := "------END MEMO------".

(** The three parts [CROSSMINT_MEMO_PATTERN] captures *)
Definition memo_parts (memo : string) : option (list ascii * list ascii * list ascii) :=
  rest ← strip_prefix (chars MEMO_BEGIN) (chars memo);
  body ← strip_prefix (reverse (chars MEMO_END)) (reverse rest);
  match split_char "."%char (reverse body) with
  | [a; b; c] =>
      if forallb (λ part, negb (length part =? 0)%nat && forallb is_url_char part) [a; b; c] then Some (a, b, c) else None
  | _ => None
  end.

Definition crossmintOrderMemo (memo orderId : string) : ordered string :=
  refuse_if! MAX_CROSSMINT_MEMO_BYTES <? count (text_encode memo) as terms_unavailable
    saying "Crossmint order memo is too long";
  match memo_parts memo with
  | None => Refused terms_unavailable "Crossmint order memo is not in the expected format"
  | Some (first, second, _) =>
      match base64UrlJson first, base64UrlJson second with
      | Some (VObject _), Some (VObject payload) =>
          refuse_if! negb (strict_eq (field payload "orderIdentifier") (VString orderId)) as terms_mismatch
            saying "Crossmint order memo names a different order";
          Given memo
      | _, _ => Refused terms_unavailable "Crossmint order memo is not a readable token"
      end
  end.

(** ** Terms *)

Definition quoteCheckFor (order : CrossmintOrderSummary.t) (terms : CrossmintTransferTerms.t) : CrossmintQuoteCheck :=
  match order.(CrossmintOrderSummary.quotedTotal), terms.(CrossmintTransferTerms.decimals) with
  | Some total, Some decimals =>
      match given_text order.(CrossmintOrderSummary.currency) with
      | Some currency =>
          if negb (bool_decide (total.(Price.currency) = Some currency)) then quote_unavailable
          else match scaleDecimalString total.(Price.amount) decimals with
               | None => quote_unavailable
               | Some scaled => if scaled =? BigInt terms.(CrossmintTransferTerms.amount) then quote_match else quote_mismatch
               end
      | None => quote_unavailable
      end
  | _, _ => quote_unavailable
  end.

Definition crossmintPaymentTerms (order : CrossmintOrderSummary.t) (expected : ExpectedTerms) : ordered CrossmintPaymentTerms.t :=
  let orderId := order.(CrossmintOrderSummary.orderId) in
  let phase := order.(CrossmintOrderSummary.phase) in
  refuse_if! negb (bool_decide (phase = CROSSMINT_PAYABLE_PHASE)) as order_not_payable
    saying (if bool_decide (phase ∈ CROSSMINT_SETTLED_PHASES)
            then "Crossmint order " +:+ orderId +:+ " is already in the " +:+ phase +:+ " phase and owes nothing"
            else "Crossmint order " +:+ orderId +:+ " is in the " +:+ phase +:+ " phase, which does not accept payment");
  match given_text order.(CrossmintOrderSummary.serializedTransaction) with
  | None => Refused terms_unavailable
      ("Crossmint order " +:+ orderId +:+ " carries no prepared transaction, so ChainPay cannot read what it charges")
  | Some wire =>
      let+ terms := decodeCrossmintTransferTerms wire expected in
      Given (CrossmintPaymentTerms.mk CROSSMINT_CONNECTOR CROSSMINT_CONNECTOR_LABEL orderId phase
        terms.(CrossmintTransferTerms.mint) terms.(CrossmintTransferTerms.recipient) terms.(CrossmintTransferTerms.amount)
        terms.(CrossmintTransferTerms.decimals) terms.(CrossmintTransferTerms.tokenProgram) (quoteCheckFor order terms)
        order.(CrossmintOrderSummary.quotedTotal) order.(CrossmintOrderSummary.lineItemLocators)
        (map boundItem order.(CrossmintOrderSummary.lineItems)) (given_text order.(CrossmintOrderSummary.payerAddress))
        (Some terms.(CrossmintTransferTerms.source)) None)
  end.


(** What precedes the reading of the prepared transaction *)
Definition check_order (order : CrossmintOrderSummary.t) (expected : CheckoutExpectation.t) : ordered unit :=
  refuse_if! negb (bool_decide (order.(CrossmintOrderSummary.orderId) = expected.(CheckoutExpectation.orderId)))
      || negb (bool_decide (order.(CrossmintOrderSummary.payerAddress) = Some expected.(CheckoutExpectation.owner))) as terms_mismatch
    saying "Order or payer differs from the authenticated owner";
  refuse_if! negb (bool_decide (order.(CrossmintOrderSummary.paymentMethod) = Some "solana"))
      || negb (bool_decide (order.(CrossmintOrderSummary.preparationChain) = Some "solana")) as terms_unavailable
    saying "Only Solana staging preparation is supported";
  refuse_if! negb (bool_decide (order.(CrossmintOrderSummary.currency) = Some "usdc"))
      || negb (bool_decide (expected.(CheckoutExpectation.mint) = DEVNET_USDC)) as terms_unavailable
    saying "Checkout currently supports only canonical Devnet USDC";
  let expires := Date_parse (default "" order.(CrossmintOrderSummary.quoteExpiresAt)) in
  refuse_if! negb (bool_decide (order.(CrossmintOrderSummary.quoteStatus) = Some "valid"))
      || match expires with JNaN | JInfinity _ => true | _ => negb (num_gtb expires expected.(CheckoutExpectation.now)) end
    as order_not_payable saying "Crossmint quote is expired or unavailable";
  refuse_if! negb (bool_decide (order.(CrossmintOrderSummary.paymentStatus) = Some "awaiting-payment")) as order_not_payable
    saying "Crossmint order is not awaiting payment";
  requireBindableItems order.

Definition checkout_terms (mint : Address) (strict : bool) : ExpectedTerms := expecting (Some mint) (Some spl_token) strict.

(** What is compared of the prepared transfer: the memo that both state *)
Definition check_transfer (order : CrossmintOrderSummary.t) (expected : CheckoutExpectation.t) (transfer : CrossmintTransferTerms.t) :
    ordered string :=
  refuse_if! negb (bool_decide (transfer.(CrossmintTransferTerms.source) = expected.(CheckoutExpectation.source)))
      || negb (bool_decide (transfer.(CrossmintTransferTerms.decimals) = Some 6)) as terms_mismatch
    saying "Prepared transfer differs from the mandate source or USDC decimals";
  refuse_if! match order.(CrossmintOrderSummary.transactionAmount) with
             | Some amount => negb (bool_decide (amount = transfer.(CrossmintTransferTerms.amount)))
             | None => false
             end as terms_mismatch saying "Crossmint's stated payment amount differs from its prepared transfer";
  match given_text order.(CrossmintOrderSummary.transactionMemo), transfer.(CrossmintTransferTerms.memo) with
  | Some transactionMemo, Some memo =>
      refuse_if! negb (bool_decide (memo.(OrderMemo.text) = transactionMemo)) as terms_mismatch
        saying "Crossmint's prepared memo differs from its stated memo";
      refuse_if! (1 <? length memo.(OrderMemo.signers))%nat
          || existsb (λ signer, negb (bool_decide (signer = expected.(CheckoutExpectation.owner)))) memo.(OrderMemo.signers)
        as terms_mismatch saying "Crossmint memo is signed by an account other than the payer";
      crossmintOrderMemo transactionMemo order.(CrossmintOrderSummary.orderId)
  | _, _ => Refused terms_unavailable
      "Crossmint preparation carries no order memo, so a payment could not be matched to this order"
  end.

Definition terms_with_memo (t : CrossmintPaymentTerms.t) (memo : string) : CrossmintPaymentTerms.t :=
  CrossmintPaymentTerms.mk t.(CrossmintPaymentTerms.connector) t.(CrossmintPaymentTerms.connectorLabel)
    t.(CrossmintPaymentTerms.orderId) t.(CrossmintPaymentTerms.phase) t.(CrossmintPaymentTerms.mint)
    t.(CrossmintPaymentTerms.recipient) t.(CrossmintPaymentTerms.amount) t.(CrossmintPaymentTerms.decimals)
    t.(CrossmintPaymentTerms.tokenProgram) t.(CrossmintPaymentTerms.quoteCheck) t.(CrossmintPaymentTerms.quotedTotal)
    t.(CrossmintPaymentTerms.lineItemLocators) t.(CrossmintPaymentTerms.items) t.(CrossmintPaymentTerms.payerAddress)
    t.(CrossmintPaymentTerms.crossmintSourceTokenAccount) (Some memo).

Definition validateCrossmintCheckoutOrder (order : CrossmintOrderSummary.t) (expected : CheckoutExpectation.t) :
    ordered CrossmintPaymentTerms.t :=
  let+ _ := check_order order expected in
  let+ transfer := decodeCrossmintTransferTerms (default "" order.(CrossmintOrderSummary.serializedTransaction))
                     (checkout_terms expected.(CheckoutExpectation.mint) true) in
  let+ memo := check_transfer order expected transfer in
  let+ terms := crossmintPaymentTerms order (checkout_terms expected.(CheckoutExpectation.mint) false) in
  refuse_if! negb (bool_decide (terms.(CrossmintPaymentTerms.quoteCheck) = quote_match)) as terms_mismatch
    saying "Quote amount or currency does not match the prepared transfer";
  Given (terms_with_memo terms memo).

(** ** References *)

Definition order_document (orderId : string) : value :=
  VObject [("connector", VString CROSSMINT_CONNECTOR); ("orderId", VString orderId)].

Definition deriveCrossmintPaymentReferences (orderId : string) : ordered CrossmintPaymentReferences.t :=
  let+ orderId := order_string (VString orderId) "orderId" MAX_ORDER_ID_CHARS in
  let invoiceHash := text_hash (JSON_stringify (order_document orderId)) in
  Given (CrossmintPaymentReferences.mk invoiceHash (text_hash ("payment:" +:+ invoiceHash)) (text_hash ("crossmint:" +:+ invoiceHash))).

(** ** Preparing a payment (sdk/src/crossmint-adapt.ts) *)

Record CrossmintPrepareFields : Type := order_fields {
  order_connector : string;
  order_connectorLabel : string;
  order_id : string;
  order_mint : Address;
  order_recipient : Address;
  order_amount : string;
  order_tokenProgram : TokenProgram;
  order_references : CrossmintPaymentReferences.t;
}.

Definition crossmintTermsToPrepareFields (terms : CrossmintPaymentTerms.t) : ordered CrossmintPrepareFields :=
  let+ references := deriveCrossmintPaymentReferences terms.(CrossmintPaymentTerms.orderId) in
  Given (order_fields CROSSMINT_CONNECTOR CROSSMINT_CONNECTOR_LABEL terms.(CrossmintPaymentTerms.orderId)
    terms.(CrossmintPaymentTerms.mint) terms.(CrossmintPaymentTerms.recipient) terms.(CrossmintPaymentTerms.amount)
    terms.(CrossmintPaymentTerms.tokenProgram) references).

Definition crossmintFieldsToPreparePaymentInput (mandate : Address) (fields : CrossmintPrepareFields) : result PaymentRequest.t :=
  let r := fields.(order_references) in
  let! invoiceHash := hexToBytes r.(CrossmintPaymentReferences.invoiceHash) "invoiceHash" in
  let! paymentId := hexToBytes r.(CrossmintPaymentReferences.paymentId) "paymentId" in
  let! signatureReference := hexToBytes r.(CrossmintPaymentReferences.signatureReference) "signatureReference" in
  let! amount := string_bigint fields.(order_amount) in
  Ok (PaymentRequest.mk mandate invoiceHash paymentId signatureReference fields.(order_mint) fields.(order_recipient)
    amount (Some fields.(order_tokenProgram))).

Definition crossmintOrderToPreparePaymentInput (mandate : Address) (order : value) (expected : ExpectedTerms) :
    result (CrossmintPaymentTerms.t * CrossmintPrepareFields * PaymentRequest.t) :=
  let! summary := order_result (parseCrossmintOrder order) in
  let! terms := order_result (crossmintPaymentTerms summary expected) in
  let! fields := order_result (crossmintTermsToPrepareFields terms) in
  let! input := crossmintFieldsToPreparePaymentInput mandate fields in
  Ok (terms, fields, input).
End Terms.

Definition crossmintMemoInstruction (memo : string) : result ChainPayInstruction.t :=
  let data := text_encode memo in
  throw_if! (length data =? 0)%nat || (MAX_CROSSMINT_MEMO_BYTES <? count data) with "Crossmint memo is empty or too long";
  Ok (ChainPayInstruction.mk "crossmint_order_memo" MEMO_PROGRAM_ID [] data).

Definition crossmintPaymentTransaction (prepared : PreparedTransaction.t) (memo : option string) : result PreparedTransaction.t :=
  match given_text memo with
  | None => Throw "Crossmint terms carry no checked order memo"
  | Some memo =>
      match prepared.(PreparedTransaction.instructions) with
      | [payment] =>
          throw_if! negb (bool_decide (payment.(ChainPayInstruction.name) = "execute_payment"))
            with "A Crossmint payment must start from exactly one execute_payment instruction";
          let! instruction := crossmintMemoInstruction memo in
          Ok (PreparedTransaction.mk [payment; instruction] prepared.(PreparedTransaction.requiredSigners)
                prepared.(PreparedTransaction.feePayer))
      | _ => Throw "A Crossmint payment must start from exactly one execute_payment instruction"
      end
  end.

(** ** The order's URL *)

Definition crossmintOrderUrl `{UrlParser} (baseUrl orderId : string) : result string :=
  let! orderId := order_result (order_string (VString orderId) "orderId" MAX_ORDER_ID_CHARS) in
  match new_URL (without_slash baseUrl +:+ CROSSMINT_ORDERS_PATH +:+ "/" +:+ encodeURIComponent orderId) with
  | None => Throw "Invalid URL"
  | Some url =>
      throw_if! negb (bool_decide (url.(Url.protocol) = "https:")) with "Crossmint base URL must use HTTPS";
      Ok url.(Url.href)
  end.
