(* ===== verification/CrossmintOrderProps.v ===== *)
(** * Theorems on Crossmint orders

    The decoder of prepared transactions is base58, amounts are scaled exactly,
    an order that passes the checkout's validation pins down one transfer and one
    memo, and an order is paid at most once under a mandate. *)
From Stdlib Require Import ZArith Lia Strings.Byte Strings.Ascii.
From stdpp Require Import base numbers sets strings list fin_maps gmap.
From S2P Require Import Prelude Bytes PublicKey Types Encoding Pda Program Accounts Payment CardConstants Decimal Base64 Dates CardMath CardPda Utf8 CardCommitment Values SupportParse SupportRpcProps HttpProps Signed MandateLinks ReceiptReader MerchantProof MerchantProofProps X402Challenge X402ChallengeProps CrossmintOrder.

Lemma obind_given {A B} (r : ordered A) (k : A → ordered B) b :
  obind r k = Given b → ∃ a, r = Given a ∧ k a = Given b.
Proof. destruct r; [eauto|done]. Qed.

Lemma refuse_given {A} (b : bool) c m (k : ordered A) a : (refuse_if! b as c saying m; k) = Given a → b = false ∧ k = Given a.
Proof. by destruct b. Qed.

Lemma otraverse_given {A B} (f : A → ordered B) l bs :
  otraverse f l = Given bs ↔ Forall2 (λ a b, f a = Given b) l bs.
Proof.
  revert bs. induction l as [|a l IH]; intros bs; cbn [otraverse].
  { split; [intros [= <-]; constructor|by inversion 1]. }
  split.
  - intros (b & Hb & (bs' & Hbs & [= <-])%obind_given)%obind_given. constructor; [done|by apply IH].
  - inversion_clear 1 as [|? b ? bs' Hb Hbs]. rewrite Hb. cbn. apply IH in Hbs. by rewrite Hbs.
Qed.

(** ** Base58 *)

Lemma mul58_spec ds : ∀ carry ds' c,
  digit_range 256 ds → 0 <= carry → mul58 ds carry = (ds', c) →
  digit_range 256 ds' ∧ length ds' = length ds ∧ 0 <= c ∧
  PublicKey.value 256 ds' + 256 ^ Z.of_nat (length ds) * c = 58 * PublicKey.value 256 ds + carry.
Proof.
  induction ds as [|d ds IH]; intros carry ds' c Hr Hc H; cbn [mul58] in H.
  - injection H as <- <-. split_and!; [constructor|done|done|]. cbn. lia.
  - apply Forall_cons in Hr as [Hd Hr]. cbv zeta in H. rewrite Z.shiftr_div_pow2 in H by lia.
    change (2 ^ 8) with 256 in H. change 255 with (Z.ones 8) in H. rewrite Z.land_ones in H by lia. change (2 ^ 8) with 256 in H.
    destruct (mul58 ds ((carry + d * 58) / 256)) as [ds1 c1] eqn:E. injection H as <- <-.
    assert (0 <= (carry + d * 58) / 256) as Hq by (apply Z.div_pos; lia).
    destruct (IH _ _ _ Hr Hq E) as (H1 & H2 & H3 & H4). split_and!.
    + constructor; [apply Z.mod_pos_bound; lia|done].
    + simpl. by rewrite H2.
    + done.
    + cbn [PublicKey.value length]. rewrite Nat2Z.inj_succ, Z.pow_succ_r by lia.
      pose proof (Z.div_mod (carry + d * 58) 256 ltac:(lia)). nia.
Qed.

Lemma carry_bytes_eq fuel n : 0 <= n → carry_bytes fuel n = digits 256 fuel n.
Proof.
  revert n. induction fuel as [|fuel IH]; intros n Hn; cbn [carry_bytes digits]; [done|].
  rewrite Z.shiftr_div_pow2 by lia. change 255 with (Z.ones 8). rewrite Z.land_ones by lia. change (2 ^ 8) with 256.
  destruct (n =? 0) eqn:E; bool_reflect; [by subst|]. rewrite (proj2 (Z.ltb_lt 0 n)) by lia.
  by rewrite IH by (apply Z.div_pos; lia).
Qed.

(** The bytes so far are those of the number read. *)
Definition bytes_of_number (ds : list Z) (v : Z) : Prop := digit_range 256 ds ∧ PublicKey.value 256 ds = v ∧ trimmed ds.

Lemma push58 ds v d ds' c :
  bytes_of_number ds v → 0 <= d < 58 → mul58 ds d = (ds', c) →
  bytes_of_number (ds' ++ carry_bytes (Z.to_nat c) c) (58 * v + d).
Proof.
  intros (Hr & Hv & Ht) Hd E. destruct (mul58_spec _ _ _ _ Hr (proj1 Hd) E) as (H1 & H2 & H3 & H4).
  rewrite carry_bytes_eq by done. pose proof (Z.pow_gt_lin_r 256 c ltac:(lia) H3) as Hlin.
  assert (0 <= c < 256 ^ Z.of_nat (Z.to_nat c)) as Hf by (rewrite Z2Nat.id; lia).
  split_and!.
  - apply Forall_app. split; [done|]. apply digits_range; lia.
  - rewrite digits_app_value, value_digits, H2 by lia. lia.
  - destruct (decide (c = 0)) as [->|Hc].
    + cbn [Z.to_nat digits]. rewrite app_nil_r. destruct ds as [|x ds]; [by destruct ds'|].
      apply (trimmed_by_value 256); [lia|done|by destruct ds'|].
      pose proof (value_lower 256 ltac:(lia) (x :: ds) Hr Ht ltac:(done)). rewrite H2. lia.
    + unfold trimmed. rewrite last_app.
      pose proof (digits_trimmed 256 ltac:(lia) _ _ Hf) as Htr. pose proof (digits_nonempty 256 ltac:(lia) _ _ Hc Hf).
      unfold trimmed in Htr. destruct (last (digits 256 (Z.to_nat c) c)) eqn:El; [done|]. by apply last_None in El.
Qed.

(** The loop reads the number the digits spell. *)
Lemma base58_loop_spec cs : ∀ ds v,
  bytes_of_number ds v →
  match mapM digit58 cs with
  | None => base58_loop cs ds = None
  | Some digits => ∃ out, base58_loop cs ds = Some out ∧ bytes_of_number out (foldl (λ v d, 58 * v + d) v digits)
  end.
Proof.
  induction cs as [|c cs IH]; intros ds v Hds; [by exists ds|].
  cbn [mapM base58_loop]. destruct (digit58 c) as [d|] eqn:Ed; [|done]. destruct (mul58 ds d) as [ds' carry] eqn:Em.
  apply char58_digit58 in Ed as [Hd _]. specialize (IH _ _ (push58 _ _ _ _ _ Hds Hd Em)).
  cbn [mbind option_bind]. by destruct (mapM digit58 cs).
Qed.

Lemma value_foldl base ds v :
  foldl (λ v d, base * v + d) v ds = base ^ Z.of_nat (length ds) * v + PublicKey.value base (reverse ds).
Proof.
  induction ds as [|d ds IH] using rev_ind; [cbn; lia|].
  rewrite foldl_app, IH, length_app, reverse_app. cbn [foldl length].
  change (reverse [d]) with [d]. cbn [app PublicKey.value].
  replace (Z.of_nat (length ds + 1)) with (Z.succ (Z.of_nat (length ds))) by lia. rewrite Z.pow_succ_r by lia. ring.
Qed.

Lemma value_leading_zeros base ds n : PublicKey.value base (reverse (replicate n 0 ++ ds)) = PublicKey.value base (reverse ds).
Proof.
  rewrite reverse_app. assert (reverse (replicate n 0) = replicate n 0) as ->.
  { induction n as [|n IH]; [done|]. rewrite replicate_S, reverse_cons, IH. by rewrite <- replicate_S_end. }
  rewrite digits_app_value. assert (PublicKey.value base (replicate n 0) = 0) as ->; [|lia].
  induction n as [|n IH]; [done|]. cbn. lia.
Qed.

Lemma mapM_ones n cs : mapM digit58 (replicate n "1"%char ++ cs) = (λ ds, replicate n 0 ++ ds) <$> mapM digit58 cs.
Proof.
  induction n as [|n IH]; [cbn [replicate app]; by destruct (mapM digit58 cs)|].
  cbn [replicate app mapM]. rewrite IH. change (digit58 "1"%char) with (Some 0). cbn. by destruct (mapM digit58 cs).
Qed.

(** The order's decoder, by repeated multiplication over the bytes, is base58's. *)
Lemma base58Decode_reference s : base58Decode s = base58_decode s.
Proof.
  unfold base58Decode, base58_decode, chars. set (cs := String.list_ascii_of_string s). cbv zeta.
  set (n := leading "1"%char cs). set (rest := drop n cs).
  pose proof (leading_split "1"%char cs) as Hsplit. fold n in Hsplit. fold rest in Hsplit.
  pose proof (base58_loop_spec cs [] 0) as Hloop. 
  assert (mapM digit58 cs = (λ ds, replicate n 0 ++ ds) <$> mapM digit58 rest) as Hm by (rewrite Hsplit at 1; apply mapM_ones).
  rewrite Hm in Hloop. clear Hm Hsplit.
  destruct (mapM digit58 rest) as [ds|] eqn:Em; cbn [fmap option_fmap option_map mbind option_bind] in *.
  - destruct Hloop as (out & -> & Hr & Hv & Ht); [by split_and!; [constructor| |]|].
    rewrite value_foldl, Z.mul_0_r, Z.add_0_l, value_leading_zeros in Hv.
    rewrite <- Hv. rewrite PublicKey.digits_value; [|lia|done|done|].
    + rewrite reverse_app, map_app. f_equal. f_equal.
      clear. induction n as [|n IH]; [done|]. rewrite replicate_S_end, reverse_app. cbn. by rewrite IH.
    + assert (length ds = length rest) as Hl by (symmetry; by eapply length_mapM).
      assert (digit_range 58 ds) as Hd.
      { apply mapM_Some in Em. clear -Em. induction Em as [|c d ? ? H _ IH]; constructor; [|done].
        by apply char58_digit58 in H as [? _]. }
      destruct (decide (out = [])) as [->|Hne]; [cbn; lia|].
      pose proof (value_lower 256 ltac:(lia) out Hr Ht Hne) as Hlow.
      pose proof (value_range 58 ltac:(lia) (reverse ds) ltac:(by apply digit_range_rev)) as Hup.
      rewrite length_reverse, Hl in Hup. rewrite Hv in Hlow.
      assert (58 ^ Z.of_nat (length rest) <= 256 ^ Z.of_nat (length rest)) as Hmono by (apply Z.pow_le_mono_l; lia).
      assert (256 ^ Z.of_nat (length out - 1) < 256 ^ Z.of_nat (length rest)) as Hlt by lia.
      apply Z.pow_lt_mono_r_iff in Hlt; lia.
  - by rewrite Hloop by (by split_and!; [constructor| |]).
Qed.

(** ** Amounts *)

Lemma zeros_value k : chars_value (replicate k "0"%char) = 0.
Proof. induction k as [|k IH]; [done|]. cbn [replicate]. rewrite chars_value_cons, IH. done. Qed.

Definition all_zeros (cs : list ascii) : bool := forallb (λ c, bool_decide (c = "0"%char)) cs.

Lemma all_zeros_value cs : forallb is_digit cs = true → all_zeros cs = true ↔ chars_value cs = 0.
Proof.
  unfold all_zeros. induction cs as [|c cs IH]; [done|]. cbn [forallb]. intros [Hc Hcs]%andb_true_iff.
  rewrite chars_value_cons, andb_true_iff, IH, bool_decide_eq_true by done.
  pose proof (chars_value_bound cs Hcs). split; [by intros [-> ->]|]. intros Hz.
  assert (0 <= char_digit c <= 9) by (unfold is_digit in Hc; bool_reflect; lia).
  pose proof (Z.pow_pos_nonneg 10 (Z.of_nat (length cs)) ltac:(lia) ltac:(lia)).
  assert (char_digit c = 0 ∧ chars_value cs = 0) as [Hd ->] by nia. split; [|done].
  rewrite <- (digit_char_digit c Hc), Hd. done.
Qed.

(** Digits behind the mint's last decimal that are not all zeros *)
Definition too_precise (d : nat) (fraction : list ascii) : bool :=
  (d <? length fraction)%nat && negb (all_zeros (drop d fraction)).

Lemma drop_digits d cs : forallb is_digit cs = true → forallb is_digit (drop d cs) = true.
Proof. intros H. rewrite <- (take_drop d cs), forallb_app in H. by apply andb_true_iff in H as [_ H]. Qed.

Lemma kept_value d whole fraction :
  forallb is_digit fraction = true → too_precise d fraction = false →
  chars_value (whole ++ take d (fraction ++ replicate d "0"%char)) * 10 ^ Z.of_nat (length fraction)
    = chars_value (whole ++ fraction) * 10 ^ Z.of_nat d.
Proof.
  intros Hf Ht. unfold too_precise in Ht. destruct (d <? length fraction)%nat eqn:El; cbn [andb] in Ht.
  - apply Nat.ltb_lt in El. apply negb_false_iff, all_zeros_value in Ht; [|by apply drop_digits].
    rewrite take_app_le by lia. rewrite <- (take_drop d fraction) at 3. rewrite app_assoc.
    rewrite (chars_value_app (whole ++ take d fraction)), length_drop, Ht, Z.add_0_r, <- Z.mul_assoc, <- Z.pow_add_r by lia.
    do 2 f_equal. lia.
  - apply Nat.ltb_ge in El. rewrite take_app_ge, take_replicate by lia. rewrite Nat.min_l by lia. rewrite app_assoc.
    rewrite (chars_value_app (whole ++ fraction)), zeros_value, length_replicate, Z.add_0_r, <- Z.mul_assoc, <- Z.pow_add_r by lia.
    do 2 f_equal. lia.
Qed.

Lemma too_precise_inexact d whole fraction n :
  forallb is_digit fraction = true → too_precise d fraction = true →
  n * 10 ^ Z.of_nat (length fraction) ≠ chars_value (whole ++ fraction) * 10 ^ Z.of_nat d.
Proof.
  intros Hf [El%Nat.ltb_lt Hz%negb_true_iff]%andb_true_iff E.
  pose proof (drop_digits d _ Hf) as Hd. pose proof (chars_value_bound _ Hd) as Hb.
  assert (chars_value (drop d fraction) ≠ 0) as Hne.
  { intros H0. apply all_zeros_value in H0; [congruence|done]. }
  rewrite <- (take_drop d fraction) in E at 2. rewrite app_assoc, chars_value_app, length_drop in E.
  rewrite length_drop in Hb. set (r := chars_value (drop d fraction)) in *. set (k := (length fraction - d)%nat) in *.
  replace (Z.of_nat (length fraction)) with (Z.of_nat k + Z.of_nat d) in E by (subst k; lia).
  rewrite Z.pow_add_r, Z.mul_assoc in E by lia.
  apply Z.mul_reg_r in E; [|apply Z.pow_nonzero; lia]. set (P := 10 ^ Z.of_nat k) in *.
  assert ((n - chars_value (whole ++ take d fraction)) * P = r) as Er by lia.
  assert (n - chars_value (whole ++ take d fraction) ≠ 0) by (intros E0; rewrite E0 in Er; lia). nia.
Qed.

(** A price becomes base units exactly: the units are the decimal number times the mint's power of ten, and a
    price that is not a whole number of units is refused. *)
Lemma scaleDecimalString_exact v d n :
  scaleDecimalString v d = Some n ↔
  0 <= d <= 20 ∧ ∃ whole fraction, split_amount (trim v) = Some (whole, fraction) ∧
    n * 10 ^ Z.of_nat (length fraction) = chars_value (whole ++ fraction) * 10 ^ d.
Proof.
  unfold scaleDecimalString. destruct (_ || _) eqn:Ed.
  { split; [done|]. intros [? _]. bool_reflect. lia. }
  assert (0 <= d <= 20) as Hd by (bool_reflect; lia). clear Ed.
  destruct (split_amount (trim v)) as [[whole fraction]|] eqn:Es; [|by split; [|intros (_ & ? & ? & ? & _)]].
  destruct (split_amount_ok _ _ _ Es) as [_ Hf].
  change (_ && negb _) with (too_precise (Z.to_nat d) fraction). destruct (too_precise (Z.to_nat d) fraction) eqn:Et.
  - split; [done|]. intros (_ & w & f & [= <- <-] & E).
    destruct (too_precise_inexact (Z.to_nat d) whole fraction n Hf Et). by rewrite Z2Nat.id by lia.
  - pose proof (kept_value _ whole _ Hf Et) as Hk. rewrite Z2Nat.id in Hk by lia. split.
    + intros [= <-]. split; [done|]. by exists whole, fraction.
    + intros (_ & w & f & [= <- <-] & E). f_equal. rewrite <- Hk in E.
      apply Z.mul_reg_r in E; [done|]. apply Z.pow_nonzero; lia.
Qed.

(** ** Memos *)

(** A code point of several bytes is past ASCII. *)
Lemma wide_point bs : ∀ needed cp lo hi,
  (1 <= Z.of_nat needed <= 3) → 128 <= lo → 0 <= cp →
  128 <= cp * 64 ^ Z.of_nat needed + (lo - 128) * 64 ^ (Z.of_nat needed - 1) →
  match head (decode_points needed cp lo hi bs) with Some (Some x) => 128 <= x | Some None => True | None => False end.
Proof.
  induction bs as [|b bs IH]; intros needed cp lo hi Hn Hlo Hcp Hmin; (destruct needed as [|n]; [cbn in Hn; lia|]); [done|].
  cbn [decode_points]. destruct ((lo <=? byte_val b) && (byte_val b <=? hi)) eqn:E; [|done]. bool_reflect.
  replace (Z.of_nat (S n) - 1) with (Z.of_nat n) in Hmin by lia. rewrite Nat2Z.inj_succ, Z.pow_succ_r in Hmin by lia.
  pose proof (Z.pow_pos_nonneg 64 (Z.of_nat n) ltac:(lia) ltac:(lia)) as Hpos.
  destruct n as [|n]; [cbn in Hmin |- *; lia|]. apply IH; [lia|lia|lia|]. rewrite Z.sub_diag, Z.mul_0_l, Z.add_0_r.
  assert (cp * 64 + (lo - 128) <= cp * 64 + (byte_val b - 128)) by lia. nia.
Qed.

(** Bytes that decode to ASCII are that text's. *)
Lemma ascii_decoded bs : ∀ cps,
  decode_points 0 0 128 191 bs = map Some cps → Forall (λ cp, cp < 128) cps → bs = map byte_of cps.
Proof.
  induction bs as [|b bs IH]; intros cps Hd Hcps; [by destruct cps|]. cbn [decode_points] in Hd.
  pose proof (byte_val_range b).
  assert (∀ n cp lo hi, 1 <= Z.of_nat n <= 3 → 128 <= lo → 0 <= cp →
    128 <= cp * 64 ^ Z.of_nat n + (lo - 128) * 64 ^ (Z.of_nat n - 1) → decode_points n cp lo hi bs = map Some cps → False) as Hwide.
  { intros n cp lo hi Hn Hlo Hcp Hmin E. pose proof (wide_point bs n cp lo hi Hn Hlo Hcp Hmin) as Hw. rewrite E in Hw.
    destruct cps as [|x cps]; [done|]. cbn in Hw. apply Forall_cons in Hcps as [? _]. lia. }
  destruct (byte_val b <? 128) eqn:E1; bool_reflect.
  { destruct cps as [|x cps]; [done|]. injection Hd as <- Hd. apply Forall_cons in Hcps as [_ Hcps].
    cbn [map]. rewrite byte_of_val. f_equal. by apply IH. }
  destruct ((194 <=? byte_val b) && _) eqn:E2; bool_reflect; [exfalso; eapply (Hwide 1%nat); [| | | |exact Hd]; cbn; lia|].
  destruct ((224 <=? byte_val b) && _) eqn:E3; bool_reflect.
  { exfalso. destruct (byte_val b =? 224) eqn:E4; bool_reflect; (eapply (Hwide 2%nat); [| | | |exact Hd]; cbn; lia). }
  destruct ((240 <=? byte_val b) && _) eqn:E5; bool_reflect; [|by destruct cps].
  exfalso. destruct (byte_val b =? 240) eqn:E6; bool_reflect; (eapply (Hwide 3%nat); [| | | |exact Hd]; cbn; lia).
Qed.

(** Code points are natural numbers. *)
Lemma points_nonneg bs : ∀ needed cp lo hi, 0 <= cp → 128 <= lo →
  Forall (λ p, match p with Some x => 0 <= x | None => True end) (decode_points needed cp lo hi bs).
Proof.
  induction bs as [|b bs IH]; intros needed cp lo hi Hcp Hlo; [by destruct needed; repeat constructor|].
  pose proof (byte_val_range b). cbn [decode_points].
  assert (∀ l, l = (if byte_val b <? 128 then Some (byte_val b) :: decode_points 0 0 128 191 bs
    else if (194 <=? byte_val b) && (byte_val b <=? 223) then decode_points 1 (byte_val b - 192) 128 191 bs
    else if (224 <=? byte_val b) && (byte_val b <=? 239) then
      decode_points 2 (byte_val b - 224) (if byte_val b =? 224 then 160 else 128) (if byte_val b =? 237 then 159 else 191) bs
    else if (240 <=? byte_val b) && (byte_val b <=? 244) then
      decode_points 3 (byte_val b - 240) (if byte_val b =? 240 then 144 else 128) (if byte_val b =? 244 then 143 else 191) bs
    else None :: decode_points 0 0 128 191 bs) → Forall (λ p, match p with Some x => 0 <= x | None => True end) l) as Hstart.
  { intros l ->. case_tests; bool_reflect; repeat constructor; try lia; apply IH; lia. }
  destruct needed as [|n]; [by apply Hstart|].
  destruct ((lo <=? byte_val b) && (byte_val b <=? hi)) eqn:E; bool_reflect; [|constructor; [done|by apply Hstart]].
  destruct n; [constructor; [lia|apply IH; lia]|apply IH; lia].
Qed.

(** Neither past ASCII nor the stand-in of later characters *)
Definition plain_char (c : ascii) : bool := (char_code c <? 128) && negb (char_code c =? 26).

Lemma strict_text data s :
  utf8_strict data = Some s → forallb plain_char (chars s) = true → data = text_encode s.
Proof.
  unfold utf8_strict. intros (cps & Hcps & [= <-])%bind_Some Hs. rewrite chars_text in Hs.
  apply mapM_Some in Hcps.
  assert (decode_points 0 0 128 191 data = map Some cps) as Hd.
  { clear Hs. revert Hcps. generalize (decode_points 0 0 128 191 data). intros l. by induction 1 as [|? ? ? ? -> _ ->]. }
  clear Hcps. assert (Forall (λ cp, 0 <= cp < 128 ∧ narrow_char cp = code_char cp) cps) as Hall.
  { assert (Forall (λ p, match p with Some x => 0 <= x | None => True end) (map Some cps)) as Hnn.
    { rewrite <- Hd. apply points_nonneg; lia. }
    clear Hd. induction cps as [|cp cps IH]; [constructor|]. cbn in Hs, Hnn. apply andb_true_iff in Hs as [Hc Hs].
    apply Forall_cons in Hnn as [Hp Hnn]. constructor; [|by apply IH]. unfold plain_char, narrow_char in *.
    destruct (cp <? 256) eqn:E.
    - apply Z.ltb_lt in E. apply andb_true_iff in Hc as [Hc%Z.ltb_lt _]. split; [|done]. unfold char_code, code_char in Hc. rewrite N_ascii_embedding in Hc by lia. lia.
    - by vm_compute in Hc. }
  assert (data = map byte_of cps) as ->. { apply ascii_decoded; [done|]. eapply Forall_impl; [done|]. cbn. lia. }
  clear -Hall. induction Hall as [|cp cps [Hr Hc] _ IH]; [done|]. cbn [map].
  rewrite Hc, text_encode_cons, <- IH. f_equal. unfold text_encode. rewrite chars_text. cbn [map concat]. cbv zeta.
  unfold char_code, code_char. rewrite N_ascii_embedding by lia. rewrite Z2N.id by lia. by rewrite (proj2 (Z.ltb_lt _ _)) by lia.
Qed.

Lemma split_three sep cs a b c : split_char sep cs = [a; b; c] → cs = a ++ sep :: b ++ sep :: c.
Proof.
  assert (∀ cs, split_char sep cs ≠ []) as Hne.
  { intros [|x l]; cbn; [done|]. case_bool_decide; [done|]. by destruct (split_char sep l). }
  assert (∀ cs part parts, split_char sep cs = part :: parts → cs = match parts with [] => part | _ => part ++ sep :: drop (S (length part)) cs end
    ∧ (parts ≠ [] → split_char sep (drop (S (length part)) cs) = parts)) as Hstep.
  { clear cs a b c. induction cs as [|x cs IH]; intros part parts; cbn [split_char].
    - intros [= <- <-]. by split.
    - case_bool_decide as Hx; [subst; intros [= <- <-]|].
      + cbn. split; [|done]. by destruct (split_char sep cs) eqn:E; [destruct (Hne cs)|].
      + destruct (split_char sep cs) as [|p ps] eqn:E; [by destruct (Hne cs)|]. intros [= <- <-].
        destruct (IH p ps eq_refl) as [H1 H2]. cbn [length drop]. split; [|done].
        destruct ps; cbn; by rewrite <- H1. }
  intros E. destruct (Hstep _ _ _ E) as [H1 H2]. specialize (H2 ltac:(done)). destruct (Hstep _ _ _ H2) as [H3 H4].
  specialize (H4 ltac:(done)). destruct (Hstep _ _ _ H4) as [H5 _]. rewrite H1 at 1. rewrite H3 at 1. by rewrite H5 at 1.
Qed.

Lemma memo_parts_text memo a b c :
  memo_parts memo = Some (a, b, c) →
  chars memo = chars MEMO_BEGIN ++ (a ++ "."%char :: b ++ "."%char :: c) ++ chars MEMO_END ∧
  Forall (λ part, forallb is_url_char part = true) [a; b; c].
Proof.
  unfold memo_parts. intros (rest & Hrest%strip_prefix_app & (body & Hbody%strip_prefix_app & H)%bind_Some)%bind_Some.
  destruct (split_char "." (reverse body)) as [|a' [|b' [|c' [|]]]] eqn:Es; try done.
  destruct (forallb _ _) eqn:Ef in H; [|done]. injection H as <- <- <-. apply split_three in Es. split.
  - rewrite Hrest. f_equal. apply (f_equal reverse) in Hbody. rewrite reverse_involutive, reverse_app, reverse_involutive in Hbody.
    by rewrite Hbody, Es.
  - cbn [forallb] in Ef. rewrite andb_true_r in Ef. apply andb_true_iff in Ef as [Ha [Hb Hc]%andb_true_iff].
    apply andb_true_iff in Ha as [_ Ha], Hb as [_ Hb], Hc as [_ Hc]. by repeat constructor.
Qed.

Lemma memo_plain memo parts : memo_parts memo = Some parts → forallb plain_char (chars memo) = true.
Proof.
  destruct parts as [[a b] c]. intros [-> Hparts]%memo_parts_text.
  assert (∀ cs, forallb is_url_char cs = true → forallb plain_char cs = true) as Hurl.
  { intros cs. apply forallb_impl. intros x. destruct x as [[] [] [] [] [] [] [] []]; vm_compute; done. }
  inversion_clear Hparts as [|? ? Ha Hbc]. inversion_clear Hbc as [|? ? Hb Hc']. inversion_clear Hc' as [|? ? Hc _].
  rewrite !forallb_app. cbn [forallb]. rewrite forallb_app. cbn [forallb].
  by rewrite (Hurl a Ha), (Hurl b Hb), (Hurl c Hc).
Qed.

(** ** The checkout *)

Section Checkout.
Context `{K : PublicKeys, T : TransactionCodec, C : Codec, HS : Sha256}.

Definition names (keys : list bytes) (index : nat) (a : Address) : Prop := ∃ key, keys !! index = Some key ∧ toBase58 key = a.

Lemma account_at_given keys indexes i name a : account_at keys indexes i name = Given a → ∃ index, indexes !! i = Some index ∧ names keys index a.
Proof.
  unfold account_at. destruct (indexes !! i) as [index|]; [|done]. intros (key & Hk & Ha)%obind_given. exists index. split; [done|].
  unfold keyAt in Hk. destruct (keys !! index) as [key'|] eqn:E; [|done]. injection Hk as <-.
  unfold account_address in Ha. apply refuse_given in Ha as [_ [= <-]]. by exists key'.
Qed.

(** SPL Token's [TransferChecked] of USDC *)
Record carries_transfer (keys : list bytes) (i : NormalizedInstruction.t) (source mint recipient : Address) (amount : Z) : Prop := {
  ct_program : names keys i.(NormalizedInstruction.programIdIndex) SPL_TOKEN_PROGRAM_ID;
  ct_data : i.(NormalizedInstruction.data) = byte_of SPL_TRANSFER_CHECKED_TAG :: le_bytes 8 amount ++ [byte_of 6];
  ct_amount : 0 < amount <= MAX_U64;
  ct_accounts : ∃ a b c d, i.(NormalizedInstruction.accountKeyIndexes) = [a; b; c; d] ∧
    names keys a source ∧ names keys b mint ∧ names keys c recipient;
}.

(** SPL Memo with a text *)
Record carries_memo (keys : list bytes) (i : NormalizedInstruction.t) (memo : string) : Prop := {
  cm_program : names keys i.(NormalizedInstruction.programIdIndex) MEMO_PROGRAM_ID;
  cm_data : i.(NormalizedInstruction.data) = text_encode memo;
}.

Lemma ten_bytes (data : bytes) : length data = 10%nat → ∃ a b c, data = a :: b ++ [c] ∧ slice data 1 8 = b ∧ length b = 8%nat ∧ data !! 9%nat = Some c.
Proof.
  intros Hl. do 10 (destruct data as [|? data]; [done|]). destruct data as [|? data]; [|done].
  eexists _, [_; _; _; _; _; _; _; _], _. by split_and!.
Qed.

Lemma strict_transfer mint keys signerCount i t :
  read_instruction (checkout_terms mint true) signerCount keys i = Given (Transfers t) →
  t.(CrossmintTransferTerms.decimals) = Some 6 → t.(CrossmintTransferTerms.tokenProgram) = spl_token →
  ∃ amount, t.(CrossmintTransferTerms.amount) = toString amount ∧
    carries_transfer keys i t.(CrossmintTransferTerms.source) t.(CrossmintTransferTerms.mint) t.(CrossmintTransferTerms.recipient) amount.
Proof.
  unfold read_instruction. intros (key & Hk & H)%obind_given. unfold keyAt in Hk.
  destruct (keys !! _) as [key'|] eqn:Ek; [|done]. injection Hk as ->. cbn [strict checkout_terms andb] in H.
  destruct (bool_decide (toBase58 key = MEMO_PROGRAM_ID)).
  { unfold read_memo in H. apply refuse_given in H as [_ (? & _ & (? & _ & [=])%obind_given)%obind_given]. }
  destruct (_ && _) in H; [done|]. destruct (byte_val <$> head _) as [tag|] eqn:Etag in H; [|done].
  destruct (_ || _) in H; [|done]. intros Hd Hp. unfold read_transfer in H.
  destruct (tag =? SPL_TRANSFER_CHECKED_TAG) eqn:Et; [|apply refuse_given in H as [_ [_ [E _]%refuse_given]%refuse_given]; by rewrite orb_true_l in E].
  apply Z.eqb_eq in Et as ->.
  apply refuse_given in H as [Hlen H]. apply refuse_given in H as [_ H]. apply refuse_given in H as [Hacc H].
  apply refuse_given in H as [Hamt H]. apply negb_false_iff, Nat.eqb_eq in Hlen. cbn [negb andb orb strict checkout_terms] in Hacc.
  apply negb_false_iff, Nat.eqb_eq in Hacc. apply orb_false_iff in Hamt as [Hlo%Z.leb_gt Hhi%Z.ltb_ge].
  apply obind_given in H as (source & (a & Ha & Hsource)%account_at_given & H).
  apply obind_given in H as (recipient & (c & Hc & Hrecipient)%account_at_given & H).
  apply obind_given in H as (program & Hprogram & H). apply obind_given in H as (m & (b & Hb & Hmint)%account_at_given & [= <-]).
  cbn in Hd, Hp. subst program. exists (le_val (slice i.(NormalizedInstruction.data) 1 8)). split; [done|].
  destruct (ten_bytes _ Hlen) as (x & y & z & Edata & Hslice & Hy & Hz). rewrite Hz in Hd. injection Hd as Hd.
  constructor.
  - exists key. split; [done|]. unfold tokenProgramFrom in Hprogram. by repeat case_bool_decide.
  - rewrite Hslice, Edata. rewrite Edata in Etag. cbn in Etag. injection Etag as Etag.
    rewrite <- Etag, <- Hd, !byte_of_val. f_equal. f_equal. rewrite <- Hy at 1. symmetry. apply le_bytes_val.
  - lia.
  - destruct (NormalizedInstruction.accountKeyIndexes i) as [|? [|? [|? [|? [|]]]]]; try done.
    cbn in Ha, Hb, Hc. simplify_eq. by eexists _, _, _, _.
Qed.

Lemma memo_reading keys signerCount i m :
  read_memo signerCount keys i = Given (Memo m) →
  utf8_strict i.(NormalizedInstruction.data) = Some m.(OrderMemo.text) ∧
  Forall2 (names keys) i.(NormalizedInstruction.accountKeyIndexes) m.(OrderMemo.signers) ∧
  Forall (λ index, (index < signerCount)%nat) i.(NormalizedInstruction.accountKeyIndexes).
Proof.
  unfold read_memo. intros H. apply refuse_given in H as [Hs H].
  apply obind_given in H as (s & Hs' & H). apply obind_given in H as (signers & Hsig & [= <-]). cbn. split_and!.
  - unfold decodeMemoText in Hs'. apply refuse_given in Hs' as [_ Hs']. destruct (utf8_strict _); [by injection Hs' as ->|done].
  - apply otraverse_given in Hsig. eapply Forall2_impl; [done|]. cbn. intros index a (key & Hk & Ha)%obind_given.
    unfold keyAt in Hk. destruct (keys !! index) as [key'|] eqn:E; [|done]. injection Hk as ->.
    unfold account_address in Ha. apply refuse_given in Ha as [_ [= <-]]. by exists key.
  - apply Forall_forall. intros index Hin. destruct (decide (index < signerCount)%nat) as [|Hge]; [done|].
    assert (existsb (λ index, (signerCount <=? index)%nat) (NormalizedInstruction.accountKeyIndexes i) = true); [|congruence].
    apply existsb_exists. exists index. split; [by apply list_elem_of_In|]. apply Nat.leb_le. lia.
Qed.

(** In a checkout every instruction is the payment or the memo. *)
Lemma strict_reading mint keys signerCount i r :
  read_instruction (checkout_terms mint true) signerCount keys i = Given r →
  match r with
  | Transfers t => read_instruction (checkout_terms mint false) signerCount keys i = Given r
  | Memo m => names keys i.(NormalizedInstruction.programIdIndex) MEMO_PROGRAM_ID ∧ read_memo signerCount keys i = Given r ∧
              read_instruction (checkout_terms mint false) signerCount keys i = Given Other
  | Other => False
  end.
Proof.
  unfold read_instruction. destruct (keyAt _ _) as [key|] eqn:Ek; [|done]. cbn [obind strict checkout_terms andb].
  case_bool_decide as Hm.
  - intros H. assert (∃ m, r = Memo m) as [m ->].
    { unfold read_memo in H. apply refuse_given in H as [_ (? & _ & (? & _ & [= <-])%obind_given)%obind_given]. by eexists. }
    split_and!; [|done|].
    + unfold keyAt in Ek. destruct (keys !! _) as [key'|] eqn:E; [|done]. injection Ek as ->. by exists key.
    + rewrite Hm. by rewrite !bool_decide_eq_false_2.
  - destruct (_ && _); [done|]. destruct (byte_val <$> _) as [tag|]; [|done]. destruct (_ || _); [|done].
    intros H. unfold read_transfer in *. apply refuse_given in H as [H1 H]. rewrite H1. apply refuse_given in H as [H2 H]. rewrite H2.
    apply refuse_given in H as [_ H]. cbn [strict checkout_terms andb]. assert (∃ t, r = Transfers t) as [t ->]; [|exact H].
    apply refuse_given in H as [_ H]. apply obind_given in H as (? & _ & H). apply obind_given in H as (? & _ & H).
    apply obind_given in H as (? & _ & H). destruct (tag =? _); [|destruct (given_text _); [injection H as <-; by eexists|done]].
    apply obind_given in H as (? & _ & [= <-]). by eexists.
Qed.

(** What the strict reading of a wire form says, and the other *)
Lemma strict_decoded wire mint transfer memo :
  decodeCrossmintTransferTerms wire (checkout_terms mint true) = Given transfer →
  transfer.(CrossmintTransferTerms.memo) = Some memo →
  ∃ message signerCount keys ix_transfer ix_memo t,
    deserializeCrossmintTransaction (trim wire) = Given message ∧
    message.(PreparedMessage.addressTableLookups) = 0%nat ∧
    message.(PreparedMessage.staticAccountKeys) = keys ∧ message.(PreparedMessage.numRequiredSignatures) = signerCount ∧
    (message.(PreparedMessage.compiledInstructions) = Some [ix_transfer; ix_memo] ∨
     message.(PreparedMessage.compiledInstructions) = Some [ix_memo; ix_transfer]) ∧
    read_instruction (checkout_terms mint true) signerCount keys ix_transfer = Given (Transfers t) ∧
    names keys ix_memo.(NormalizedInstruction.programIdIndex) MEMO_PROGRAM_ID ∧
    read_memo signerCount keys ix_memo = Given (Memo memo) ∧
    transfer = with_memo t (Some memo) ∧ t.(CrossmintTransferTerms.tokenProgram) = spl_token ∧
    (mint ≠ "" → t.(CrossmintTransferTerms.mint) = mint) ∧
    decodeCrossmintTransferTerms wire (checkout_terms mint false) = Given (with_memo t None).
Proof.
  unfold decodeCrossmintTransferTerms. intros H Hmemo. apply refuse_given in H as [Hsize H]. rewrite Hsize. clear Hsize.
  apply obind_given in H as (message & Hm & H). rewrite Hm. cbn [obind].
  apply obind_given in H as (keys & Hkeys & H). rewrite Hkeys. cbn [obind]. unfold accountKeyResolver in Hkeys.
  apply refuse_given in Hkeys as [Hl Hkeys]. apply Nat.ltb_ge in Hl. apply refuse_given in Hkeys as [_ [= <-]].
  apply obind_given in H as (ixs & Hixs & H). rewrite Hixs. cbn [obind].
  unfold normalizedInstructions in Hixs. destruct (PreparedMessage.compiledInstructions message) as [ixs'|] eqn:Ei; [|done]. injection Hixs as ->.
  apply obind_given in H as (readings & Hr & H). apply otraverse_given in Hr.
  destruct (omap transfer_in readings) as [|t [|]] eqn:Et; try done. apply refuse_given in H as [Hone H]. apply Nat.ltb_ge in Hone.
  apply refuse_given in H as [Hmint H]. apply refuse_given in H as [Hprog [= <-]].
  cbn [with_memo CrossmintTransferTerms.memo] in Hmemo. cbn [expected_mint expected_program checkout_terms] in Hmint, Hprog.
  destruct (omap memo_in readings) as [|m [|]] eqn:Em; [done| |cbn in Hone; lia]. injection Hmemo as <-.
  assert (∃ i j, (ixs = [i; j] ∨ ixs = [j; i]) ∧
    read_instruction (checkout_terms mint true) message.(PreparedMessage.numRequiredSignatures) message.(PreparedMessage.staticAccountKeys) i = Given (Transfers t) ∧
    read_instruction (checkout_terms mint true) message.(PreparedMessage.numRequiredSignatures) message.(PreparedMessage.staticAccountKeys) j = Given (Memo m))
    as (i & j & Hij & Hi & Hj).
  { clear -Hr Et Em. destruct Hr as [|i r1 ixs readings Hi Hr]; [done|]. destruct Hr as [|j r2 ixs readings Hj Hr].
    { pose proof (strict_reading _ _ _ _ _ Hi). by destruct r1. }
    pose proof (strict_reading _ _ _ _ _ Hi) as Si. pose proof (strict_reading _ _ _ _ _ Hj) as Sj.
    assert (ixs = []) as ->.
    { destruct Hr as [|k r3 ixs readings Hk Hr]; [done|]. pose proof (strict_reading _ _ _ _ _ Hk).
      by destruct r1, r2, r3. }
    inversion Hr; subst. destruct r1 as [t1|m1|]; [|destruct r2; try done|done].
    - destruct r2 as [|m2|]; try done. cbn in Et, Em. simplify_eq. exists i, j. by split; [left|].
    - cbn in Et, Em. simplify_eq. exists j, i. by split; [right|]. }
  pose proof (strict_reading _ _ _ _ _ Hi) as Li. pose proof (strict_reading _ _ _ _ _ Hj) as (Hname & Hmemo & Lj).
  assert (t.(CrossmintTransferTerms.tokenProgram) = spl_token) as Hspl
    by (pose proof Hprog as Hp; by apply negb_false_iff, bool_decide_eq_true in Hp).
  exists message, (PreparedMessage.numRequiredSignatures message), (PreparedMessage.staticAccountKeys message), i, j, t.
  split_and!; try done.
  - lia.
  - destruct Hij as [->| ->]; [by left|by right].
  - intros Hne. cbn [with_memo CrossmintTransferTerms.mint] in Hmint. unfold given_text in Hmint.
    rewrite bool_decide_eq_false_2 in Hmint by done. apply negb_false_iff, bool_decide_eq_true in Hmint. done.
  - assert (∃ rs, otraverse (read_instruction (checkout_terms mint false) (PreparedMessage.numRequiredSignatures message)
      (PreparedMessage.staticAccountKeys message)) ixs = Given rs ∧ omap transfer_in rs = [t] ∧ omap memo_in rs = []) as (rs & -> & Hrs & Hms).
    { destruct Hij as [->| ->]; [exists [Transfers t; Other]|exists [Other; Transfers t]];
        (split; [apply otraverse_given; by repeat constructor|done]). }
    cbn [obind]. rewrite Hrs, Hms. cbn [length head]. change (if (1 <? 0)%nat then ?a else ?b) with b.
    cbn [expected_mint expected_program checkout_terms with_memo CrossmintTransferTerms.mint CrossmintTransferTerms.tokenProgram] in Hmint, Hprog |- *.
    by rewrite Hmint, Hprog.
Qed.

(** An item the owner can review: what, how many, and to which wallet *)
Record bindable (item : CrossmintLineItem.t) : Prop := {
  bi_name : ∃ name, item.(CrossmintLineItem.name) = Some name ∧ name ≠ "";
  bi_readable : item.(CrossmintLineItem.metadataUnreadable) = false;
  bi_chain : item.(CrossmintLineItem.chain) = None ∨ item.(CrossmintLineItem.chain) = Some "solana";
  bi_quantity : is_Some item.(CrossmintLineItem.quantity) ∧ item.(CrossmintLineItem.quantityConflict) = false;
  bi_wallet : is_Some item.(CrossmintLineItem.deliveryRecipient) ∧ item.(CrossmintLineItem.deliveryRecipientConflict) = false;
}.

Lemma none_or_conflict {A} `{EqDecision A} (x : option A) conflict :
  conflict || bool_decide (x = None) = false ↔ is_Some x ∧ conflict = false.
Proof.
  rewrite orb_false_iff, bool_decide_eq_false, <- not_eq_None_Some. tauto.
Qed.

Lemma requireBindableItem_iff item : requireBindableItem item = Given tt ↔ bindable item.
Proof.
  unfold requireBindableItem. split.
  - intros H. apply refuse_given in H as [[Hn%bool_decide_eq_false Hr]%orb_false_iff H]. apply refuse_given in H as [Hc H].
    apply refuse_given in H as [Hq%none_or_conflict H]. apply refuse_given in H as [Hw%none_or_conflict _].
    constructor; try done.
    + destruct item.(CrossmintLineItem.name) as [n|]; [|done]. exists n. split; [done|]. intros ->. by apply Hn.
    + destruct item.(CrossmintLineItem.chain) as [c|]; [right|by left]. by apply negb_false_iff, bool_decide_eq_true in Hc as ->.
  - intros [(n & Hn & Hne) Hr Hc Hq Hw]. rewrite Hn, Hr. unfold given_text. rewrite (bool_decide_eq_false_2 (n = "")) by done.
    rewrite (proj2 (none_or_conflict _ _) Hq), (proj2 (none_or_conflict _ _) Hw). by destruct Hc as [-> | ->].
Qed.

Lemma requireBindableItems_ok order :
  requireBindableItems order = Given tt →
  Forall bindable order.(CrossmintOrderSummary.lineItems) ∧
  length order.(CrossmintOrderSummary.lineItems) = order.(CrossmintOrderSummary.lineItemCount) ∧
  (1 <= order.(CrossmintOrderSummary.lineItemCount) <= MAX_LINE_ITEM_LOCATORS)%nat.
Proof.
  unfold requireBindableItems. cbv zeta. intros H. apply refuse_given in H as [Hc H].
  apply obind_given in H as (us & Hus & _). apply otraverse_given in Hus.
  apply orb_false_iff in Hc as [[H0%Nat.eqb_neq Hmax%Nat.ltb_ge]%orb_false_iff Hl%negb_false_iff%Nat.eqb_eq].
  split_and!; [|done|lia|done]. clear -Hus. induction Hus as [|item [] items us Hi _ IH]; constructor; [by apply requireBindableItem_iff|done].
Qed.

Lemma agrees {A} `{EqDecision A} (x : A) y : negb (bool_decide (x = y)) = false → x = y.
Proof. by rewrite negb_false_iff, bool_decide_eq_true. Qed.

Lemma BigInt_toString n : 0 <= n → BigInt (toString n) = n.
Proof. intros H. rewrite toString_nat by done. by apply BigInt_text. Qed.

(** What holds of an order in good standing *)
Record in_standing (order : CrossmintOrderSummary.t) (expected : CheckoutExpectation.t) : Prop := {
  st_order : order.(CrossmintOrderSummary.orderId) = expected.(CheckoutExpectation.orderId);
  st_payer : order.(CrossmintOrderSummary.payerAddress) = Some expected.(CheckoutExpectation.owner);
  st_currency : order.(CrossmintOrderSummary.currency) = Some "usdc";
  st_mint : expected.(CheckoutExpectation.mint) = DEVNET_USDC;
  st_quote : order.(CrossmintOrderSummary.quoteStatus) = Some "valid";
  st_unexpired : num_gtb (Date_parse (default "" order.(CrossmintOrderSummary.quoteExpiresAt))) expected.(CheckoutExpectation.now) = true;
  st_payable : order.(CrossmintOrderSummary.paymentStatus) = Some "awaiting-payment";
  st_items : Forall bindable order.(CrossmintOrderSummary.lineItems) ∧
    length order.(CrossmintOrderSummary.lineItems) = order.(CrossmintOrderSummary.lineItemCount) ∧
    (1 <= order.(CrossmintOrderSummary.lineItemCount) <= MAX_LINE_ITEM_LOCATORS)%nat;
}.

Lemma check_order_ok order expected : check_order order expected = Given tt → in_standing order expected.
Proof.
  unfold check_order. cbv zeta. intros H.
  apply refuse_given in H as [[H1%agrees H2%agrees]%orb_false_iff H]. apply refuse_given in H as [_ H].
  apply refuse_given in H as [[H3%agrees H4%agrees]%orb_false_iff H].
  apply refuse_given in H as [[H5%agrees H6]%orb_false_iff H]. apply refuse_given in H as [H7%agrees H].
  apply requireBindableItems_ok in H. constructor; try done.
  destruct (Date_parse _); try done; by apply negb_false_iff.
Qed.

Lemma memo_checked memo orderId m :
  crossmintOrderMemo memo orderId = Given m → m = memo ∧ forallb plain_char (chars memo) = true.
Proof.
  unfold crossmintOrderMemo. intros H. apply refuse_given in H as [_ H].
  destruct (memo_parts memo) as [[[a b] c]|] eqn:Hparts; [|done]. destruct (base64UrlJson a) as [[]|]; try done.
  destruct (base64UrlJson b) as [[]|]; try done. apply refuse_given in H as [_ [= <-]].
  split; [done|by eapply memo_plain].
Qed.

Lemma quote_matches order t decimals currency :
  quoteCheckFor order t = quote_match → t.(CrossmintTransferTerms.decimals) = Some decimals →
  order.(CrossmintOrderSummary.currency) = Some currency →
  ∃ total, order.(CrossmintOrderSummary.quotedTotal) = Some total ∧ total.(Price.currency) = Some currency ∧
    scaleDecimalString total.(Price.amount) decimals = Some (BigInt t.(CrossmintTransferTerms.amount)).
Proof.
  unfold quoteCheckFor. intros Hq Hd Hc. destruct (CrossmintOrderSummary.quotedTotal order) as [total|]; [|done].
  rewrite Hd, Hc in Hq. unfold given_text in Hq. destruct (bool_decide (currency = "")); [done|].
  destruct (negb _) eqn:Hcurrency in Hq; [done|]. apply agrees in Hcurrency.
  destruct (scaleDecimalString _ _) as [scaled|] eqn:Hs; [|done]. destruct (scaled =? _) eqn:He; [|done].
  apply Z.eqb_eq in He as ->. by exists total.
Qed.

(** C11: An order that passes the checkout's validation is the expected one, unexpired, awaiting payment by the owner,
    with every item named, counted and sent to a stated wallet.  Its prepared transaction holds exactly two
    instructions: one TransferChecked of Devnet USDC from the mandate's source account, of exactly the quoted price,
    to the recipient the terms name, and one memo that names this order, signed by nobody but the owner; the memo
    of the terms has the very bytes of that instruction. *)
Theorem checkout_pins_payment order expected terms :
  validateCrossmintCheckoutOrder order expected = Given terms →
  in_standing order expected ∧
  ∃ wire message ix_transfer ix_memo memo amount total,
    order.(CrossmintOrderSummary.serializedTransaction) = Some wire ∧
    deserializeCrossmintTransaction (trim wire) = Given message ∧
    message.(PreparedMessage.addressTableLookups) = 0%nat ∧
    (message.(PreparedMessage.compiledInstructions) = Some [ix_transfer; ix_memo] ∨
     message.(PreparedMessage.compiledInstructions) = Some [ix_memo; ix_transfer]) ∧
    let keys := message.(PreparedMessage.staticAccountKeys) in
    carries_transfer keys ix_transfer expected.(CheckoutExpectation.source) DEVNET_USDC terms.(CrossmintPaymentTerms.recipient) amount ∧
    carries_memo keys ix_memo memo ∧
    Forall (λ index, names keys index expected.(CheckoutExpectation.owner)) ix_memo.(NormalizedInstruction.accountKeyIndexes) ∧
    crossmintOrderMemo memo expected.(CheckoutExpectation.orderId) = Given memo ∧
    order.(CrossmintOrderSummary.quotedTotal) = Some total ∧ total.(Price.currency) = Some "usdc" ∧
    scaleDecimalString total.(Price.amount) 6 = Some amount ∧
    terms.(CrossmintPaymentTerms.orderId) = expected.(CheckoutExpectation.orderId) ∧
    terms.(CrossmintPaymentTerms.mint) = DEVNET_USDC ∧ terms.(CrossmintPaymentTerms.amount) = toString amount ∧
    terms.(CrossmintPaymentTerms.memo) = Some memo ∧
    terms.(CrossmintPaymentTerms.items) = map boundItem order.(CrossmintOrderSummary.lineItems).
Proof.
  unfold validateCrossmintCheckoutOrder. intros ([] & Hst%check_order_ok & H)%obind_given. split; [done|].
  apply obind_given in H as (transfer & Htransfer & H). apply obind_given in H as (memo & Hcheck & H).
  apply obind_given in H as (terms' & Hterms & H). apply refuse_given in H as [Hquote%agrees [= <-]].
  unfold check_transfer in Hcheck. apply refuse_given in Hcheck as [[Hsource%agrees Hdecimals%agrees]%orb_false_iff Hcheck].
  apply refuse_given in Hcheck as [_ Hcheck]. destruct (given_text _) as [stated|]; [|done].
  destruct transfer.(CrossmintTransferTerms.memo) as [m|] eqn:Em; [|done].
  apply refuse_given in Hcheck as [Htext%agrees Hcheck]. apply refuse_given in Hcheck as [[_ Hsigners]%orb_false_iff Hcheck].
  rewrite <- Htext in Hcheck. clear stated Htext.
  destruct (strict_decoded _ _ _ _ Htransfer Em) as
    (message & sc & keys & it & im & t & Hmsg & Hlook & <- & <- & Hixs & Ht & Hname & Hm & -> & Hspl & Hmint & Hloose).
  destruct Hst as [Hid Hpayer Hcur Husdc _ _ _ _]. rewrite Husdc in *. specialize (Hmint ltac:(done)).
  cbn [with_memo CrossmintTransferTerms.source CrossmintTransferTerms.decimals] in Hsource, Hdecimals.
  destruct (strict_transfer _ _ _ _ _ Ht Hdecimals Hspl) as (amount & Hamount & Hcarries).
  destruct (memo_reading _ _ _ _ Hm) as (Hutf & Hsig & _). unfold crossmintPaymentTerms in Hterms.
  apply refuse_given in Hterms as [_ Hterms]. destruct (CrossmintOrderSummary.serializedTransaction order) as [wire|] eqn:Hwire; [|done].
  unfold given_text in Hterms. destruct (bool_decide (wire = "")); [done|]. change (default "" (Some wire)) with wire in *.
  rewrite Hloose in Hterms. cbn [obind] in Hterms. injection Hterms as <-.
  cbn [with_memo terms_with_memo CrossmintTransferTerms.amount CrossmintTransferTerms.decimals CrossmintPaymentTerms.quoteCheck] in *.
  destruct (memo_checked _ _ _ Hcheck) as [-> Hplain].
  destruct (quote_matches _ _ _ _ Hquote Hdecimals Hcur) as (total & Htotal & Hcurrency & Hscaled). cbn [with_memo CrossmintTransferTerms.amount] in Hscaled.
  rewrite Hamount, BigInt_toString in Hscaled by (destruct Hcarries as [_ _ [] _]; lia).
  exists wire, message, it, im, m.(OrderMemo.text), amount, total. cbn. rewrite Hmint, Hsource in Hcarries.
  split_and!; try done.
  - constructor; [done|]. by apply strict_text.
  - clear -Hsigners Hsig. induction Hsig as [|i a indexes signers Hi _ IH]; constructor; cbn in Hsigners;
      apply orb_false_iff in Hsigners as [Ha%agrees Hs]; [by subst|by apply IH].
  - by rewrite <- Hid.
Qed.

(** ** What is signed *)

Lemma validated_memo order expected terms :
  validateCrossmintCheckoutOrder order expected = Given terms →
  ∃ memo, terms.(CrossmintPaymentTerms.memo) = Some memo ∧ crossmintOrderMemo memo order.(CrossmintOrderSummary.orderId) = Given memo.
Proof.
  unfold validateCrossmintCheckoutOrder. intros (? & _ & (transfer & _ & (memo & Hcheck & H)%obind_given)%obind_given)%obind_given.
  apply obind_given in H as (terms' & _ & H). apply refuse_given in H as [_ [= <-]]. exists memo. split; [done|].
  unfold check_transfer in Hcheck. apply refuse_given in Hcheck as [_ Hcheck]. apply refuse_given in Hcheck as [_ Hcheck].
  destruct (given_text _) as [stated|]; [|done]. destruct (CrossmintTransferTerms.memo transfer) as [m|]; [|done].
  apply refuse_given in Hcheck as [_ Hcheck]. apply refuse_given in Hcheck as [_ Hcheck].
  destruct (memo_checked _ _ _ Hcheck) as [-> _]. done.
Qed.

(** The transaction of a validated order: the mandate's payment as it was prepared, then the memo instruction with the
    bytes of the order's memo, and no signer besides the payment's. *)
Theorem checkout_transaction order expected terms prepared payment :
  validateCrossmintCheckoutOrder order expected = Given terms →
  prepared.(PreparedTransaction.instructions) = [payment] →
  payment.(ChainPayInstruction.name) = "execute_payment" →
  ∃ memo, terms.(CrossmintPaymentTerms.memo) = Some memo ∧
    crossmintPaymentTransaction prepared terms.(CrossmintPaymentTerms.memo) =
      Ok (PreparedTransaction.mk [payment; ChainPayInstruction.mk "crossmint_order_memo" MEMO_PROGRAM_ID [] (text_encode memo)]
            prepared.(PreparedTransaction.requiredSigners) prepared.(PreparedTransaction.feePayer)).
Proof.
  intros (memo & Hm & Hchecked)%validated_memo Hp Hn. exists memo. split; [done|].
  unfold crossmintPaymentTransaction. rewrite Hm, Hp. unfold given_text.
  unfold crossmintOrderMemo in Hchecked. apply refuse_given in Hchecked as [Hsize Hchecked].
  assert (text_encode memo ≠ []) as Hne.
  { intros E. apply (text_encode_inj memo "") in E as ->. by vm_compute in Hchecked. }
  rewrite bool_decide_eq_false_2 by (intros ->; by apply Hne). rewrite bool_decide_eq_true_2 by done. cbn [negb].
  unfold crossmintMemoInstruction. rewrite Hsize. by destruct (text_encode memo).
Qed.

(** ** One order, one payment *)

Context {KS : PublicKeysSpec K} {HHS : Sha256Spec HS} {JS : JsonSpec C}.

Lemma order_string_trim v name max s : order_string v name max = Given s → s = trim s ∧ s ≠ "" ∧ size s <= max.
Proof.
  unfold order_string. destruct v as [| | | | |t| |]; try done. cbv zeta. intros H.
  apply refuse_given in H as [He%bool_decide_eq_false H]. apply refuse_given in H as [Hm%Z.ltb_ge [= <-]].
  by rewrite trim_idem.
Qed.

(** The invoice of an order depends on its id only. *)
Definition order_invoice (orderId : string) : bytes := sha256 (text_encode (JSON_stringify (order_document orderId))).

Lemma parsed_order_id v summary :
  parseCrossmintOrder v = Given summary →
  order_string (VString summary.(CrossmintOrderSummary.orderId)) "orderId" MAX_ORDER_ID_CHARS = Given summary.(CrossmintOrderSummary.orderId).
Proof.
  unfold parseCrossmintOrder. destruct v as [| | | | | | |envelope]; try done. cbv zeta.
  intros (id & (Htrim & Hne & Hsize)%order_string_trim & H)%obind_given. apply obind_given in H as (phase & _ & H).
  destruct (lineItems _) as [items n]. injection H as <-. cbn [CrossmintOrderSummary.orderId].
  unfold order_string. cbv zeta. rewrite <- Htrim, bool_decide_eq_false_2 by done. by rewrite (proj2 (Z.ltb_ge _ _)).
Qed.

Lemma terms_order_id order expected terms :
  crossmintPaymentTerms order expected = Given terms → terms.(CrossmintPaymentTerms.orderId) = order.(CrossmintOrderSummary.orderId).
Proof.
  unfold crossmintPaymentTerms. cbv zeta. intros H. apply refuse_given in H as [_ H].
  destruct (given_text _); [|done]. by apply obind_given in H as (? & _ & [= <-]).
Qed.

Lemma text_hash_bytes r name : ReceiptReader.hexToBytes (text_hash r) name = Ok (sha256 (text_encode r)).
Proof. apply hexToBytes_hex, sha256_length. Qed.

Lemma order_input mandate v expected terms fields input :
  crossmintOrderToPreparePaymentInput mandate v expected = Ok (terms, fields, input) →
  input.(PaymentRequest.invoiceHash) = order_invoice terms.(CrossmintPaymentTerms.orderId).
Proof.
  unfold crossmintOrderToPreparePaymentInput. destruct (parseCrossmintOrder v) as [summary|] eqn:Hparse; [|done].
  cbn [order_result Prelude.bind]. destruct (crossmintPaymentTerms summary expected) as [terms'|] eqn:Hterms; [|done].
  cbn [order_result Prelude.bind]. apply terms_order_id in Hterms. apply parsed_order_id in Hparse. rewrite <- Hterms in Hparse.
  unfold crossmintTermsToPrepareFields, deriveCrossmintPaymentReferences. rewrite Hparse. cbn [obind order_result Prelude.bind].
  unfold crossmintFieldsToPreparePaymentInput. cbn [order_references CrossmintPaymentReferences.invoiceHash].
  rewrite text_hash_bytes. cbn [Prelude.bind].
  intros (i & Hi & [= <- _ <-])%bind_ok.
  apply bind_ok in Hi as (? & _ & Hi). apply bind_ok in Hi as (? & _ & Hi). by apply bind_ok in Hi as (? & _ & [= <-]).
Qed.

Definition params_of (input : PaymentRequest.t) : PaymentParams.t :=
  PaymentParams.mk input.(PaymentRequest.invoiceHash) input.(PaymentRequest.paymentId) input.(PaymentRequest.signatureReference)
    input.(PaymentRequest.amount).

(** Payments of one mandate, one after the other *)
Definition pays (mandate_key : bytes) (st st' : Chain.t) : Prop := ∃ acc slot p, execute_payment mandate_key acc slot p st = POk st'.

Lemma receipt_stays mandate_key st st' hash :
  rtc (pays mandate_key) st st' → is_Some (st.(Chain.receipts) !! hash) → is_Some (st'.(Chain.receipts) !! hash).
Proof.
  induction 1 as [|st st1 st' (acc & slot & p & (_ & _ & ->)%execute_payment_iff) _ IH]; [done|].
  intros H. apply IH. cbn [Chain.receipts settle]. apply lookup_insert_is_Some'. by right.
Qed.

(** C12: Whatever two answers say about an order, and whatever was expected of each: once a payment of the order has
    been executed under a mandate, no payment of the same order is, after any other payments of that mandate, even
    at another price or to another recipient.  Orders with different ids have different invoices, unless the hashed
    documents collide. *)
Theorem order_paid_once mandate v v' expected expected' terms terms' fields fields' input input' :
  crossmintOrderToPreparePaymentInput mandate v expected = Ok (terms, fields, input) →
  crossmintOrderToPreparePaymentInput mandate v' expected' = Ok (terms', fields', input') →
  (terms.(CrossmintPaymentTerms.orderId) = terms'.(CrossmintPaymentTerms.orderId) →
   ∀ mandate_key acc slot st paid later acc' slot',
     execute_payment mandate_key acc slot (params_of input) st = POk paid → rtc (pays mandate_key) paid later →
     ∃ e, execute_payment mandate_key acc' slot' (params_of input') later = PErr e) ∧
  (terms.(CrossmintPaymentTerms.orderId) ≠ terms'.(CrossmintPaymentTerms.orderId) →
   collision_free [text_encode (JSON_stringify (order_document terms.(CrossmintPaymentTerms.orderId)));
                   text_encode (JSON_stringify (order_document terms'.(CrossmintPaymentTerms.orderId)))] →
   input.(PaymentRequest.invoiceHash) ≠ input'.(PaymentRequest.invoiceHash)).
Proof.
  intros Hi%order_input Hi'%order_input. split.
  - intros Heq key acc slot st paid later acc' slot' (_ & _ & ->)%execute_payment_iff Hlater.
    apply execute_payment_fails. intros [_ Hfit]. apply fit_new in Hfit.
    apply (receipt_stays _ _ _ input.(PaymentRequest.invoiceHash)) in Hlater as [r Hr].
    + cbn [params_of PaymentParams.invoice_hash] in Hfit. rewrite Hi', <- Heq, <- Hi in Hfit. congruence.
    + cbn [Chain.receipts settle params_of PaymentParams.invoice_hash]. by rewrite lookup_insert_eq.
  - intros Hne Hfree. rewrite Hi, Hi'. intros E. apply Hne. unfold order_invoice in E.
    apply Hfree in E; [|by left|by right; left]. apply text_encode_inj, json_inj in E; [|done|done]. by injection E.
Qed.
End Checkout.

(** ** A concrete order *)

#[local] Existing Instance Base58.keys.
#[local] Existing Instance Base58.keys_spec.
#[local] Existing Instance model_hash.
#[local] Existing Instance model_hash_spec.

(** The texts of [JsonCodec], with dates *)
#[local] Instance dated : Codec := {
  parse := TextCodec.read;
  stringify := TextCodec.print;
  JSON_parse := JsonCodec.codec.(JSON_parse);
  JSON_stringify := JsonCodec.codec.(JSON_stringify);
  Date_parse s := match Date_parse_iso s with Some ms => JInt ms | None => JNaN end;
}.

#[local] Instance dated_spec : JsonSpec dated.
Proof. split; [exact (json_roundtrip (JsonSpec := JsonCodec.json_spec))|exact (json_object (JsonSpec := JsonCodec.json_spec))]. Qed.

Definition address_key (a : Address) : bytes := match newPublicKey a with Ok key => key | Throw _ => [] end.

Definition buyer : Address := Eval vm_compute in toBase58 (sample_key 41).
Definition buyer_account : Address := Eval vm_compute in toBase58 (sample_key 42).
Definition treasury : Address := Eval vm_compute in toBase58 (sample_key 43).
Definition other_treasury : Address := Eval vm_compute in toBase58 (sample_key 44).

Definition segment (v : value) : string := bytesToBase64Url (text_encode (JSON_stringify v)).

Definition sample_memo : string :=
  Eval vm_compute in MEMO_BEGIN +:+ segment (VObject [("alg", VString "RS256")]) +:+ "."
    +:+ segment (VObject [("orderIdentifier", VString "order-1")]) +:+ ".c2lnbmVk" +:+ MEMO_END.

(** Keys: the buyer, the buyer's account, the mint, the treasury, the two programs *)
Definition prepared_message (treasury : Address) (amount : Z) : PreparedMessage.t :=
  PreparedMessage.mk 1
    (map address_key [buyer; buyer_account; DEVNET_USDC; treasury; SPL_TOKEN_PROGRAM_ID; SupportParse.MEMO_PROGRAM_ID])
    (Some [NormalizedInstruction.mk 4 [1; 2; 3; 0]%nat (byte_of 12 :: le_bytes 8 amount ++ [byte_of 6]);
           NormalizedInstruction.mk 5 [0%nat] (text_encode (sample_memo))]) 0.

(** Two wire forms are known. *)
#[local] Instance two_wires : TransactionCodec := λ bs,
  if bool_decide (bs = [byte_of 1]) then Ok (prepared_message treasury 1250000)
  else if bool_decide (bs = [byte_of 2]) then Ok (prepared_message other_treasury 9000000)
  else Throw "not a transaction".

Definition order_answer (wire price : string) : value :=
  VObject [("order", VObject [
    ("orderId", VString "order-1"); ("phase", VString "payment");
    ("quote", VObject [("status", VString "valid"); ("expiresAt", VString "2030-01-01T00:00:00.000Z");
      ("totalPrice", VObject [("amount", VString price); ("currency", VString "usdc")])]);
    ("payment", VObject [("status", VString "awaiting-payment"); ("method", VString "solana"); ("currency", VString "usdc");
      ("preparation", VObject [("chain", VString "solana"); ("payerAddress", VString buyer);
        ("serializedTransaction", VString wire);
        ("transactionParameters", VObject [("memo", VString (sample_memo))])])]);
    ("lineItems", VArray [VObject [("metadata", VObject [("name", VString "A mug")]); ("chain", VString "solana");
      ("quantity", VNumber (JInt 1)); ("callData", VObject [("quantity", VString "1")]);
      ("delivery", VObject [("recipient", VObject [("walletAddress", VString buyer); ("locator", VString ("solana:" +:+ buyer))])])]])])].

Definition sample_order : CrossmintOrderSummary.t :=
  Eval vm_compute in match parseCrossmintOrder (order_answer "2" "1.25") with Given o => o | Refused _ _ =>
    CrossmintOrderSummary.mk "" "" None None None None [] [] 0 None None None None None None None end.

Definition sample_checkout : CheckoutExpectation.t :=
  CheckoutExpectation.mk "order-1" buyer buyer_account DEVNET_USDC 1700000000000.

Definition sample_terms : CrossmintPaymentTerms.t :=
  Eval vm_compute in match validateCrossmintCheckoutOrder sample_order sample_checkout with Given t => t | Refused _ m =>
    CrossmintPaymentTerms.mk m "" "" "" "" "" "" None spl_token quote_match None [] [] None None None end.

Lemma sample_order_valid : validateCrossmintCheckoutOrder sample_order sample_checkout = Given sample_terms.
Proof. vm_compute. reflexivity. Qed.

(** The terms: the treasury, one dollar and a quarter in base units, the memo *)
Example sample_terms_read :
  (sample_terms.(CrossmintPaymentTerms.recipient), sample_terms.(CrossmintPaymentTerms.amount), sample_terms.(CrossmintPaymentTerms.memo)) =
  (treasury, "1250000", Some (sample_memo)).
Proof. reflexivity. Qed.

Lemma checkout_pins_payment_witness :
  validateCrossmintCheckoutOrder sample_order sample_checkout = Given sample_terms ∧ in_standing sample_order sample_checkout.
Proof.
  split; [exact sample_order_valid|]. exact (proj1 (checkout_pins_payment sample_order sample_checkout sample_terms sample_order_valid)).
Defined.

(** The order as read first, and again at another price, to be paid elsewhere *)
Definition input_of (v : value) : CrossmintPaymentTerms.t * CrossmintPrepareFields * PaymentRequest.t :=
  match crossmintOrderToPreparePaymentInput buyer_account v (checkout_terms DEVNET_USDC false) with
  | Ok r => r
  | Throw _ => (sample_terms, order_fields "" "" "" "" "" "" spl_token (CrossmintPaymentReferences.mk "" "" ""),
      PaymentRequest.mk "" [] [] [] "" "" 0 None)
  end.

Definition first_input := Eval vm_compute in input_of (order_answer "2" "1.25").
Definition second_input := Eval vm_compute in input_of (order_answer "3" "9").

Lemma first_input_ok :
  crossmintOrderToPreparePaymentInput buyer_account (order_answer "2" "1.25") (checkout_terms DEVNET_USDC false) = Ok first_input.
Proof. vm_compute. reflexivity. Qed.

Lemma second_input_ok :
  crossmintOrderToPreparePaymentInput buyer_account (order_answer "3" "9") (checkout_terms DEVNET_USDC false) = Ok second_input.
Proof. vm_compute. reflexivity. Qed.

Example inputs_differ :
  first_input.2.(PaymentRequest.amount) = 1250000 ∧ second_input.2.(PaymentRequest.amount) = 9000000 ∧
  first_input.2.(PaymentRequest.invoiceHash) = second_input.2.(PaymentRequest.invoiceHash).
Proof. vm_compute. done. Qed.

Lemma order_paid_once_witness :
  first_input.1.1.(CrossmintPaymentTerms.orderId) = second_input.1.1.(CrossmintPaymentTerms.orderId) ∧
  ∀ mandate_key acc slot st paid later acc' slot',
    execute_payment mandate_key acc slot (params_of first_input.2) st = POk paid → rtc (pays mandate_key) paid later →
    ∃ e, execute_payment mandate_key acc' slot' (params_of second_input.2) later = PErr e.
Proof.
  split; [reflexivity|].
  exact (proj1 (order_paid_once buyer_account (order_answer "2" "1.25") (order_answer "3" "9")
    (checkout_terms DEVNET_USDC false) (checkout_terms DEVNET_USDC false) first_input.1.1 second_input.1.1
    first_input.1.2 second_input.1.2 first_input.2 second_input.2 first_input_ok second_input_ok) eq_refl).
Defined.
