(* ===== verification/McpAuthorization.v ===== *)
(** * Who may call which tool (mcp-server/src/authorization.ts)

    A caller of the MCP server is a wallet session or a connection an owner scoped
    to mandates, tools and cards, with the agent each mandate had then.  Before a
    tool runs, [authorizeTool] decides; the list-shaped reads filter with
    [mandateInScope].

    The reads of the chain are the interface [McpClient]; the registry of
    connections and the wallet sessions of the backend are arguments. *)
From Stdlib Require Import ZArith Lia Strings.Byte Strings.Ascii.
From stdpp Require Import base numbers sets strings list.
From S2P Require Import Prelude Bytes PublicKey Types Encoding Accounts Decimal Base64 CardPda Values SupportParse Signed.

(** ** Data *)

Module ConnectionScope.
Record t : Type := mk {
  mandates : list Address;
  tools : list string;
  agents : list (string * value);
  cards : option (list string);
}.
End ConnectionScope.

Module Principal.
Record t : Type := mk { wallet : Address; scope : option ConnectionScope.t }.
End Principal.

(** [assertActive] is the outcome of asking again whether the session is live. *)
Module ChainPayMcpContext.
Record t : Type := mk {
  principal : option Principal.t;
  assertActive : option (result unit);
  agentAddress : option Address;
  backendUrl : option string;
  backendAuthToken : option string;
}.
End ChainPayMcpContext.

Class McpClient : Type := {
  getMandate : Address → result (option Mandate.t);
  getPayment : Address → result (option PaymentReceipt.t);
}.

(** The account that is read is the one that was asked for. *)
Class McpClientSpec (C : McpClient) : Prop :=
  getMandate_address a m : getMandate a = Ok (Some m) → m.(Mandate.address) = a.

Definition PUBLIC_TOOLS : list string :=
  ["get_protocol_config"; "get_asset"; "get_supported_assets"; "verify_payment_request"].
Definition OWNER_TOOLS : list string :=
  ["create_mandate"; "update_mandate"; "pause_mandate"; "revoke_mandate"; "prepare_token_accounts"; "freeze_agent_card"].
Definition CARD_TOOLS : list string :=
  ["prepare_agent_card"; "request_card_checkout"; "get_card_activity"; "get_statement"; "freeze_agent_card"].
Definition OWNED_LISTS : list string :=
  ["list_mandates"; "find_compatible_mandate"; "create_mandate"; "prepare_token_accounts"; "get_spend_overview";
   "list_receipts"; "export_receipts"].
Definition RESUMED_TOOLS : list string :=
  ["execute_x402_payment"; "execute_crossmint_payment"; "get_crossmint_payment"].
Definition NO_MANDATE_TOOLS : list string :=
  ["list_mandates"; "find_compatible_mandate"; "create_mandate"; "prepare_token_accounts";
   "create_demo_payment_request"; "quote_payment_request"; "wait_for_payment"; "get_spend_overview";
   "list_receipts"; "export_receipts"].

Definition one_of (l : list string) (name : string) : bool := bool_decide (name ∈ l).

(** 64 lowercase hex digits *)
Definition card_id (s : string) : bool :=
  Nat.eqb (String.length s) 64
  && forallb (λ c, let n := char_code c in (48 <=? n) && (n <=? 57) || (97 <=? n) && (n <=? 102)) (chars s).

(** ** Scopes *)

(** [list.every((v) => typeof v === "string")] *)
Definition strings_of (items : list value) : option (list string) :=
  mapM (λ v, match v with VString s => Some s | _ => None end) items.

Definition invalid_scope {A} : result A := Throw "Invalid connection scope. Reconnect with explicit permissions.".

(** At most [limit] strings that pass [test] *)
Definition bounded_strings (limit : Z) (test : string → bool) (v : value) : option (list string) :=
  match v with
  | VArray items =>
      if limit <? Z.of_nat (length items) then None
      else l ← strings_of items; if forallb test l then Some l else None
  | _ => None
  end.

Section Scopes.
Context `{D : Codec}.

Definition read_cards (scope : value) : result (option (list string)) :=
  let cards := get scope "cards" in
  if undefined cards then Ok None
  else match bounded_strings 20 card_id cards with Some l => Ok (Some l) | None => invalid_scope end.

Definition parseScope (text : string) : result ConnectionScope.t :=
  match JSON_parse text with
  | None => Throw "Legacy Unscoped connection. Reconnect and select a mandate and permitted tools."
  | Some scope =>
      let! cards := read_cards scope in
      let hasCards := match cards with Some (_ :: _) => true | _ => false end in
      if negb (strict_eq (get scope "version") (VNumber (JInt 1))) then invalid_scope
      else match bounded_strings 20 (λ _, true) (get scope "mandates"),
                 bounded_strings 30 (λ _, true) (get scope "tools"), plain_object (get scope "agents") with
           | Some mandates, Some tools, Some agents =>
               if (Nat.eqb (length mandates) 0 && negb hasCards) || Nat.eqb (length tools) 0 then invalid_scope
               else Ok (ConnectionScope.mk mandates tools agents cards)
           | _, _, _ => invalid_scope
           end
  end.
End Scopes.

(** ** Requests *)

(** [/^Bearer ([^ ]{32,256})$/] *)
Definition bearer (authorization : string) : option string :=
  token ← strip_prefix (chars "Bearer ") (chars authorization);
  let n := Z.of_nat (length token) in
  if (32 <=? n) && (n <=? 256) && forallb (λ c, negb (bool_decide (c = " "%char))) token then Some (text token) else None.

Module WalletSession.
Record t : Type := mk { wallet : option Address; expires_at_ms : option number }.
End WalletSession.

(** The answer of the backend about a session: a refused one, or the session *)
Inductive SessionAnswer : Type := SessionRefused | Session (s : WalletSession.t).

Module FoundConnection.
Record t : Type := mk { wallet : Address; scope : string }.
End FoundConnection.

Section Requests.
Context `{D : Codec}.

(** [identify] is the registry's answer for this request, [ask] the backend's for
    the token, and [again] what asking once more gives later. *)
Definition requestContext (base : ChainPayMcpContext.t) (authorization : option string)
    (identify : result (option FoundConnection.t)) (ask : string → result SessionAnswer)
    (again : result bool) (now : Z) : result ChainPayMcpContext.t :=
  match authorization ≫= bearer with
  | None => Throw "Sign in with your wallet to continue."
  | Some token =>
      let! connection := identify in
      match connection with
      | Some c =>
          let! scope := parseScope c.(FoundConnection.scope) in
          Ok (ChainPayMcpContext.mk (Some (Principal.mk c.(FoundConnection.wallet) (Some scope)))
            (Some (let! live := again in
                   if (live : bool) then Ok tt else Throw "Connection revoked. Reconnect to continue."))
            base.(ChainPayMcpContext.agentAddress) base.(ChainPayMcpContext.backendUrl) (Some token))
      | None =>
          match base.(ChainPayMcpContext.backendUrl) with
          | None | Some "" => Throw "Wallet session backend is not configured"
          | Some _ =>
              let! answer := ask token in
              match answer with
              | SessionRefused => Throw "Wallet session expired. Sign in again."
              | Session s =>
                  match s.(WalletSession.wallet), s.(WalletSession.expires_at_ms) with
                  | Some wallet, Some expires =>
                      if bool_decide (wallet = "") || negb (truthy (VNumber expires)) || negb (num_gtb expires now)
                      then Throw "Invalid wallet session"
                      else Ok (ChainPayMcpContext.mk (Some (Principal.mk wallet None))
                        (Some (let! live := again in
                               if (live : bool) then Ok tt else Throw "Wallet session expired. Sign in again."))
                        base.(ChainPayMcpContext.agentAddress) base.(ChainPayMcpContext.backendUrl) (Some token))
                  | _, _ => Throw "Invalid wallet session"
                  end
              end
          end
      end
  end.
End Requests.

(** What the tool goes on with: its arguments, and the agent of its mandate *)
Module AuthorizedCall.
Record t : Type := mk { args : list (string * value); agentAddress : option Address }.
End AuthorizedCall.

(** ** Authorization *)
Section Authorization.
Context `{C : McpClient}.

(** The approved agent that the owner connected, as it was written in the scope *)
Definition pinned_agent (scope : ConnectionScope.t) (address : Address) (agent : Address) : bool :=
  strict_eq (field scope.(ConnectionScope.agents) address) (VString agent).

Definition mandateInScope (context : ChainPayMcpContext.t) (mandate : Mandate.t) : bool :=
  match context.(ChainPayMcpContext.principal) ≫= Principal.scope with
  | None => true
  | Some scope =>
      one_of scope.(ConnectionScope.mandates) mandate.(Mandate.address)
      && pinned_agent scope mandate.(Mandate.address) mandate.(Mandate.approvedAgent)
  end.

Definition authorizeMandate (context : ChainPayMcpContext.t) (address : Address) : result Mandate.t :=
  match context.(ChainPayMcpContext.principal) with
  | None => Throw "Verified wallet or scoped connection required"
  | Some principal =>
      throw_if! match principal.(Principal.scope) with
                | Some scope => negb (one_of scope.(ConnectionScope.mandates) address)
                | None => false
                end with "Mandate is outside this connection's scope";
      let! found := getMandate address in
      match found with
      | None => Throw "Mandate is not owned by this session"
      | Some mandate =>
          throw_if! negb (bool_decide (mandate.(Mandate.owner) = principal.(Principal.wallet)))
            with "Mandate is not owned by this session";
          throw_if! match principal.(Principal.scope) with
                    | Some scope => negb (pinned_agent scope address mandate.(Mandate.approvedAgent))
                    | None => false
                    end with "Mandate agent changed. Reconnect to authorize the current agent.";
          Ok mandate
      end
  end.

Definition authorizeCardTool (principal : Principal.t) (name : string) (args : list (string * value)) : result unit :=
  if bool_decide (name = "prepare_agent_card") then Ok tt
  else match field args "cardId" with
       | VString cardId =>
           throw_if! negb (card_id cardId) with "A card id (64 lowercase hex characters) is required";
           match principal.(Principal.scope) with
           | None =>
               throw_if! bool_decide (name = "request_card_checkout")
                 with "Card checkout needs an agent connection scoped to this card";
               Ok tt
           | Some scope =>
               throw_if! negb (one_of (default [] scope.(ConnectionScope.cards)) cardId)
                 with "Card is outside this connection's scope";
               Ok tt
           end
       | _ => Throw "A card id (64 lowercase hex characters) is required"
       end.

(** [args[field] !== undefined && args[field] !== v] *)
Definition other_than (args : list (string * value)) (name v : string) : bool :=
  negb (undefined (field args name)) && negb (strict_eq (field args name) (VString v)).

Definition text_field (args : list (string * value)) (name : string) : option string :=
  match field args name with VString s => Some s | _ => None end.

Definition resumes (name : string) (args : list (string * value)) : bool :=
  one_of RESUMED_TOOLS name
  && match text_field args "paymentId" with Some id => starts_with "payment_" id | None => false end.

(** A text that is truthy *)
Definition non_empty (s : option string) : option string :=
  match s with Some s => if bool_decide (s = "") then None else Some s | None => None end.

(** The mandate the arguments name *)
Definition named_mandate (name : string) (args : list (string * value)) : option string :=
  match (if bool_decide (name = "get_mandate") then text_field args "address" else None) with
  | Some a => Some a
  | None => match text_field args "mandate" with Some a => Some a | None => text_field args "mandateAddress" end
  end.

(** ... or the receipt they name, when they name no mandate *)
Definition mandate_of_call (name : string) (args : list (string * value)) : result (option Address) :=
  match non_empty (named_mandate name args), text_field args "receiptAddress" with
  | Some a, _ => Ok (Some a)
  | None, None => Ok None
  | None, Some r =>
      let! receipt := getPayment r in
      match receipt with
      | Some receipt => Ok (non_empty (Some receipt.(PaymentReceipt.mandate)))
      | None => Throw "Receipt unavailable"
      end
  end.

Definition authorizeTool (context : ChainPayMcpContext.t) (name : string) (args : list (string * value)) :
    result AuthorizedCall.t :=
  let unchanged args := AuthorizedCall.mk args context.(ChainPayMcpContext.agentAddress) in
  match context.(ChainPayMcpContext.principal) with
  | None =>
      if one_of PUBLIC_TOOLS name then Ok (unchanged args)
      else Throw "Sign in with a wallet session or reconnect with a scoped connection"
  | Some principal =>
      let! _ := default (Ok tt) context.(ChainPayMcpContext.assertActive) in
      let scopedName := if bool_decide (name = "open_payment") then "execute_payment" else name in
      throw_if! match principal.(Principal.scope) with
                | Some scope => negb (one_of scope.(ConnectionScope.tools) scopedName) || one_of OWNER_TOOLS name
                | None => false
                end with "Tool is not permitted by this connection";
      throw_if! existsb (λ f, other_than args f principal.(Principal.wallet)) ["owner"; "wallet"; "ownerWallet"]
        with "Wallet differs from verified owner";
      if one_of CARD_TOOLS name then
        let! _ := authorizeCardTool principal name args in Ok (unchanged args)
      else
        let args := if one_of OWNED_LISTS name then set_field args "owner" (VString principal.(Principal.wallet)) else args in
        if resumes name args then Ok (unchanged args)
        else
          throw_if! bool_decide (name = "get_mandate") && negb (undefined (field args "address"))
              && negb (undefined (field args "mandate"))
              && negb (strict_eq (field args "address") (field args "mandate"))
            with "address and mandate differ";
          let! address := mandate_of_call name args in
          match address with
          | Some address =>
              let! mandate := authorizeMandate context address in
              throw_if! other_than args "agent" mandate.(Mandate.approvedAgent)
                with "Agent differs from approved mandate agent";
              Ok (AuthorizedCall.mk args (Some mandate.(Mandate.approvedAgent)))
          | None =>
              throw_if! negb (one_of PUBLIC_TOOLS name) && negb (one_of NO_MANDATE_TOOLS name)
                with "An explicit owned mandate is required";
              Ok (unchanged args)
          end
  end.

(** [checked] is the status of the owner-scoped read of the card, [None] when it failed. *)
Definition authorizeOwnedCard (context : ChainPayMcpContext.t) (cardId : string) (checked : option Z) : result unit :=
  throw_if! negb (card_id cardId) with "Invalid card id";
  throw_if! match context.(ChainPayMcpContext.principal) with
            | Some principal => bool_decide (is_Some principal.(Principal.scope))
            | None => true
            end with "Owner session required to scope a card";
  throw_if! bool_decide (non_empty context.(ChainPayMcpContext.backendUrl) = None)
      || bool_decide (non_empty context.(ChainPayMcpContext.backendAuthToken) = None)
    with "Card ownership can't be checked right now";
  throw_if! negb (bool_decide (checked = Some 200)) with "Card is not owned by this session";
  Ok tt.
End Authorization.
