(* ===== verification/McpAuthorizationProps.v ===== *)
(** * What a connection can reach

    A call that is authorized stays within the caller's wallet, and within the
    scope of its connection: its tools, its cards, and its mandates with the agent
    they were connected with.  The list-shaped reads show the same mandates. *)
From Stdlib Require Import ZArith Lia Strings.Byte Strings.Ascii.
From stdpp Require Import base numbers sets strings list.
From S2P Require Import Prelude Bytes PublicKey Types Encoding Accounts Decimal Base64 CardPda Values SupportParse Signed McpAuthorization.

Section Authorization.
Context `{C : McpClient}.

(** ** Mandates *)

Definition in_scope (scope : ConnectionScope.t) (a agent : Address) : Prop :=
  a ∈ scope.(ConnectionScope.mandates) ∧ field scope.(ConnectionScope.agents) a = VString agent.

(** The caller may act on the mandate at this address. *)
Record reaches (p : Principal.t) (a : Address) (m : Mandate.t) : Prop := {
  re_found : getMandate a = Ok (Some m);
  re_owner : m.(Mandate.owner) = p.(Principal.wallet);
  re_scope scope : p.(Principal.scope) = Some scope → in_scope scope a m.(Mandate.approvedAgent);
}.

Lemma pinned_iff scope a agent : pinned_agent scope a agent = true ↔ field scope.(ConnectionScope.agents) a = VString agent.
Proof. apply strict_eq_string. Qed.

Lemma one_of_iff l name : one_of l name = true ↔ name ∈ l.
Proof. apply bool_decide_eq_true. Qed.

Lemma authorizeMandate_iff context a m :
  authorizeMandate context a = Ok m ↔
  ∃ p, context.(ChainPayMcpContext.principal) = Some p ∧ reaches p a m.
Proof.
  unfold authorizeMandate. destruct context.(ChainPayMcpContext.principal) as [p|]; [|split; [done|by intros (? & ? & _)]].
  split.
  - intros H. apply if_throw_ok in H as [Hs H]. apply bind_ok in H as ([m'|] & Hm & H); [|done].
    apply if_throw_ok in H as [Ho H]. apply if_throw_ok in H as [Hp H]. injection H as ->.
    apply negb_false_iff, bool_decide_eq_true in Ho. exists p. split; [done|]. constructor; [done..|].
    intros scope Hsc. rewrite Hsc in Hs, Hp. apply negb_false_iff in Hs, Hp. split; [by apply one_of_iff|by apply pinned_iff].
  - intros (p' & [= <-] & []).
    assert (match Principal.scope p with Some scope => negb (one_of (ConnectionScope.mandates scope) a) | None => false end
      = false) as ->.
    { destruct (Principal.scope p) as [scope|] eqn:E; [|done]. apply negb_false_iff, one_of_iff. by apply (re_scope0 scope). }
    rewrite re_found0. cbn [bind]. rewrite bool_decide_true by done. cbn [negb].
    assert (match Principal.scope p with Some scope => negb (pinned_agent scope a (Mandate.approvedAgent m)) | None => false end
      = false) as ->; [|done].
    destruct (Principal.scope p) as [scope|] eqn:E; [|done]. apply negb_false_iff, pinned_iff. by apply (re_scope0 scope).
Qed.

(** The list-shaped reads and the direct read agree: among the mandates of the
    caller's wallet, the lists keep exactly those that [authorizeMandate] lets the
    caller use. *)
Theorem lists_agree_with_reads `{CS : !McpClientSpec C} (context : ChainPayMcpContext.t) (p : Principal.t)
    (a : Address) (m : Mandate.t) :
  context.(ChainPayMcpContext.principal) = Some p → getMandate a = Ok (Some m) →
  authorizeMandate context a = Ok m ↔
    m.(Mandate.owner) = p.(Principal.wallet) ∧ mandateInScope context m = true.
Proof.
  intros Hp Hm. pose proof (getMandate_address a m Hm) as <-. rewrite authorizeMandate_iff. unfold mandateInScope.
  rewrite Hp. cbn [mbind option_bind]. split.
  - intros (p' & [= <-] & []). split; [done|]. destruct (Principal.scope p) as [scope|] eqn:E; [|done].
    destruct (re_scope0 scope eq_refl) as [H1 H2]. apply andb_true_iff. split; [by apply one_of_iff|by apply pinned_iff].
  - intros [Ho Hs]. exists p. split; [done|]. constructor; [done..|]. intros scope E. rewrite E in Hs.
    apply andb_true_iff in Hs as [H1 H2]. split; [by apply one_of_iff|by apply pinned_iff].
Qed.

(** ** Tools *)

Definition scoped_name (name : string) : string := if bool_decide (name = "open_payment") then "execute_payment" else name.

(** The caller may use the card the arguments name. *)
Definition card_allowed (p : Principal.t) (name : string) (args : list (string * value)) : Prop :=
  name = "prepare_agent_card" ∨
  ∃ id, field args "cardId" = VString id ∧ card_id id = true ∧
    match p.(Principal.scope) with
    | Some scope => ∃ cards, scope.(ConnectionScope.cards) = Some cards ∧ id ∈ cards
    | None => name ≠ "request_card_checkout"
    end.

Lemma authorizeCardTool_iff p name args u : authorizeCardTool p name args = Ok u ↔ card_allowed p name args.
Proof.
  unfold authorizeCardTool, card_allowed. destruct u. case_bool_decide as En; [tauto|]. split.
  - destruct (field args "cardId") as [| | | | |id| |] eqn:Ef; try done. intros H. right.
    apply if_throw_ok in H as [Hc H]. apply negb_false_iff in Hc. exists id. split; [done|]. split; [done|].
    destruct (Principal.scope p) as [scope|].
    + apply if_throw_ok in H as [Hi _]. apply negb_false_iff, one_of_iff in Hi.
      destruct (ConnectionScope.cards scope) as [cards|]; [by exists cards|by apply not_elem_of_nil in Hi].
    + apply if_throw_ok in H as [Hi _]. by apply bool_decide_eq_false in Hi.
  - intros [|(id & -> & -> & H)]; [done|]. cbn [negb]. destruct (Principal.scope p) as [scope|].
    + destruct H as (cards & -> & Hin). cbn. by rewrite (proj2 (one_of_iff _ _)).
    + by rewrite bool_decide_false.
Qed.

(** The wallet's own lists: the owner is the caller. *)
Definition owned_args (p : Principal.t) (name : string) (args : list (string * value)) : list (string * value) :=
  if one_of OWNED_LISTS name then set_field args "owner" (VString p.(Principal.wallet)) else args.

(** What a call may be about: a card in reach, an operation of the wallet that the
    backend authorizes again, one mandate in reach, or no mandate at all *)
Inductive within (context : ChainPayMcpContext.t) (p : Principal.t) (name : string) (args : list (string * value)) :
    AuthorizedCall.t → Prop :=
| within_card : name ∈ CARD_TOOLS → card_allowed p name args →
    within context p name args (AuthorizedCall.mk args context.(ChainPayMcpContext.agentAddress))
| within_resume : name ∉ CARD_TOOLS → resumes name (owned_args p name args) = true →
    within context p name args (AuthorizedCall.mk (owned_args p name args) context.(ChainPayMcpContext.agentAddress))
| within_mandate a m : name ∉ CARD_TOOLS → resumes name (owned_args p name args) = false →
    mandate_of_call name (owned_args p name args) = Ok (Some a) → reaches p a m →
    other_than (owned_args p name args) "agent" m.(Mandate.approvedAgent) = false →
    within context p name args (AuthorizedCall.mk (owned_args p name args) (Some m.(Mandate.approvedAgent)))
| within_none : name ∉ CARD_TOOLS → resumes name (owned_args p name args) = false →
    mandate_of_call name (owned_args p name args) = Ok None → name ∈ PUBLIC_TOOLS ∨ name ∈ NO_MANDATE_TOOLS →
    within context p name args (AuthorizedCall.mk (owned_args p name args) context.(ChainPayMcpContext.agentAddress)).

(** The checks before the arguments are looked at *)
Record may_call (context : ChainPayMcpContext.t) (p : Principal.t) (name : string) (args : list (string * value)) : Prop := {
  mc_active : default (Ok tt) context.(ChainPayMcpContext.assertActive) = Ok tt;
  mc_scope scope : p.(Principal.scope) = Some scope →
    scoped_name name ∈ scope.(ConnectionScope.tools) ∧ name ∉ OWNER_TOOLS;
  mc_wallet f : f ∈ ["owner"; "wallet"; "ownerWallet"] →
    field args f = VUndefined ∨ field args f = VString p.(Principal.wallet);
}.

Lemma other_than_false args f v :
  other_than args f v = false ↔ field args f = VUndefined ∨ field args f = VString v.
Proof.
  unfold other_than. rewrite andb_false_iff, !negb_false_iff, strict_eq_string.
  destruct (field args f); cbn; naive_solver.
Qed.

(** Both fields of get_mandate name the same address. *)
Definition mandate_fields_agree (name : string) (args : list (string * value)) : Prop :=
  name = "get_mandate" → field args "address" = VUndefined ∨ field args "mandate" = VUndefined ∨
    strict_eq (field args "address") (field args "mandate") = true.

Lemma agree_iff name args :
  bool_decide (name = "get_mandate") && negb (undefined (field args "address"))
    && negb (undefined (field args "mandate")) && negb (strict_eq (field args "address") (field args "mandate")) = false ↔
  mandate_fields_agree name args.
Proof.
  assert (∀ v, undefined v = true ↔ v = VUndefined) as Hu by (intros []; done).
  unfold mandate_fields_agree. rewrite !andb_false_iff, !negb_false_iff, bool_decide_eq_false, !Hu.
  destruct (decide (name = "get_mandate")); naive_solver.
Qed.

Lemma authorizeTool_iff context p name args call :
  context.(ChainPayMcpContext.principal) = Some p →
  authorizeTool context name args = Ok call ↔
    may_call context p name args ∧ within context p name args call ∧
    (name ∈ CARD_TOOLS ∨ resumes name (owned_args p name args) = true ∨ mandate_fields_agree name (owned_args p name args)).
Proof.
  intros Hp. unfold authorizeTool. rewrite Hp. cbv zeta. fold (scoped_name name). fold (owned_args p name args).
  assert (∀ b, existsb (λ f, other_than args f p.(Principal.wallet)) ["owner"; "wallet"; "ownerWallet"] = b →
    b = false ↔ ∀ f, f ∈ ["owner"; "wallet"; "ownerWallet"] → field args f = VUndefined ∨ field args f = VString p.(Principal.wallet)) as Hw.
  { intros b <-. cbn [existsb]. rewrite !orb_false_iff, !other_than_false. setoid_rewrite elem_of_cons.
    setoid_rewrite elem_of_cons. setoid_rewrite elem_of_cons. setoid_rewrite elem_of_nil. naive_solver. }
  split.
  - intros H. apply bind_ok in H as ([] & Ha & H). apply if_throw_ok in H as [Hs H]. apply if_throw_ok in H as [Hf H].
    rewrite Hw in Hf by done. clear Hw.
    split; [constructor; [done| |done]|].
    { intros scope E. rewrite E in Hs. apply orb_false_iff in Hs as [H1 H2]. apply negb_false_iff, one_of_iff in H1.
      split; [done|]. intros Ho%one_of_iff. congruence. }
    destruct (one_of CARD_TOOLS name) eqn:Ec.
    { apply one_of_iff in Ec. apply bind_ok in H as (u & Hc & H). injection H as <-. apply authorizeCardTool_iff in Hc.
      split; [by apply within_card|by left]. }
    assert (name ∉ CARD_TOOLS) as Hn by (intros Hin%one_of_iff; congruence).
    destruct (resumes name (owned_args p name args)) eqn:Er.
    { injection H as <-. split; [by apply within_resume|auto]. }
    apply if_throw_ok in H as [Hg H]. apply agree_iff in Hg.
    apply bind_ok in H as ([a|] & Hm & H).
    + apply bind_ok in H as (m & Hau & H). apply authorizeMandate_iff in Hau as (p' & Hp' & Hr).
      rewrite Hp in Hp'. injection Hp' as <-. apply if_throw_ok in H as [Hag H]. injection H as <-.
      split; [by apply (within_mandate _ _ _ _ a)|auto].
    + apply if_throw_ok in H as [Hx H]. injection H as <-. split; [|auto]. apply within_none; try done.
      apply andb_false_iff in Hx as [Hx|Hx]; apply negb_false_iff, one_of_iff in Hx; auto.
  - intros ([] & Hwi & Hg). rewrite mc_active0. cbn [bind].
    assert (match Principal.scope p with
      | Some scope => negb (one_of (ConnectionScope.tools scope) (scoped_name name)) || one_of OWNER_TOOLS name
      | None => false end = false) as ->.
    { destruct (Principal.scope p) as [scope|] eqn:E; [|done]. destruct (mc_scope0 scope eq_refl) as [H1 H2].
      apply orb_false_iff. split; [by apply negb_false_iff, one_of_iff|]. by apply bool_decide_eq_false. }
    destruct (existsb _ _) eqn:Ex; [apply (Hw true eq_refl) in mc_wallet0; discriminate|]. clear Hw.
    destruct Hwi as [Hc Ha|Hn Hr|a m Hn Hr Hm Hre Hag|Hn Hr Hm Ho].
    + rewrite (proj2 (one_of_iff CARD_TOOLS name)) by done. by rewrite (proj2 (authorizeCardTool_iff p name args tt)).
    + unfold one_of at 1. rewrite bool_decide_false by done. by rewrite Hr.
    + unfold one_of at 1. rewrite bool_decide_false by done. rewrite Hr.
      destruct Hg as [|[|Hg]]; [done|congruence|]. rewrite (proj2 (agree_iff _ _)) by done. rewrite Hm. cbn [bind].
      rewrite (proj2 (authorizeMandate_iff context a m)) by (by exists p). cbn [bind]. by rewrite Hag.
    + unfold one_of at 1. rewrite bool_decide_false by done. rewrite Hr.
      destruct Hg as [|[|Hg]]; [done|congruence|]. rewrite (proj2 (agree_iff _ _)) by done. rewrite Hm. cbn [bind].
      assert (negb (one_of PUBLIC_TOOLS name) && negb (one_of NO_MANDATE_TOOLS name) = false) as ->; [|done].
      apply andb_false_iff. rewrite !negb_false_iff, !one_of_iff. tauto.
Qed.

(** C13: A tool call by a scoped connection is confined to its scope: the tool is one
    the owner permitted and not the owner's own, every wallet it names is the
    connection's, and it is about a card of the scope, or one mandate that the
    scope lists, that the wallet owns and whose agent is still the one the owner
    connected (which becomes the call's agent), or an earlier operation of the
    wallet, or no mandate at all; lists of the wallet are asked for its own wallet. *)
Theorem scoped_call_confined (context : ChainPayMcpContext.t) (wallet : Address) (scope : ConnectionScope.t)
    (name : string) (args : list (string * value)) (call : AuthorizedCall.t) :
  context.(ChainPayMcpContext.principal) = Some (Principal.mk wallet (Some scope)) →
  authorizeTool context name args = Ok call →
  (scoped_name name ∈ scope.(ConnectionScope.tools) ∧ name ∉ OWNER_TOOLS) ∧
  (∀ f, f ∈ ["owner"; "wallet"; "ownerWallet"] → field args f = VUndefined ∨ field args f = VString wallet) ∧
  (name ∈ OWNED_LISTS → name ∉ CARD_TOOLS → field call.(AuthorizedCall.args) "owner" = VString wallet) ∧
  (name = "prepare_agent_card" ∨
   (∃ id cards, name ∈ CARD_TOOLS ∧ field args "cardId" = VString id ∧ scope.(ConnectionScope.cards) = Some cards ∧ id ∈ cards) ∨
   resumes name call.(AuthorizedCall.args) = true ∨
   (∃ a m, mandate_of_call name call.(AuthorizedCall.args) = Ok (Some a) ∧ getMandate a = Ok (Some m) ∧
      m.(Mandate.owner) = wallet ∧ a ∈ scope.(ConnectionScope.mandates) ∧
      field scope.(ConnectionScope.agents) a = VString m.(Mandate.approvedAgent) ∧
      call.(AuthorizedCall.agentAddress) = Some m.(Mandate.approvedAgent)) ∨
   (mandate_of_call name call.(AuthorizedCall.args) = Ok None ∧ (name ∈ PUBLIC_TOOLS ∨ name ∈ NO_MANDATE_TOOLS))).
Proof.
  intros Hp H. apply (authorizeTool_iff _ _ _ _ _ Hp) in H as ([Ha Hs Hw] & Hwi & _).
  split; [by apply Hs|]. split; [done|]. split.
  - intros Ho Hc. assert (field (owned_args (Principal.mk wallet (Some scope)) name args) "owner" = VString wallet) as He.
    { unfold owned_args. rewrite (proj2 (one_of_iff _ _)) by done. by rewrite field_set. }
    by destruct Hwi.
  - destruct Hwi as [Hc [->|(id & Hf & _ & cards & Hcs & Hin)]|Hc Hr|a m Hc Hr Hm [] Hag|Hc Hr Hm Ho];
      cbn [AuthorizedCall.args AuthorizedCall.agentAddress]; auto 10.
    + right; left. exists id, cards. done.
    + destruct (re_scope0 scope eq_refl). right; right; right; left. by exists a, m.
Qed.

(** The caller without its scope: the wallet's own session *)
Definition unscoped (context : ChainPayMcpContext.t) : ChainPayMcpContext.t :=
  ChainPayMcpContext.mk ((λ p, Principal.mk p.(Principal.wallet) None) <$> context.(ChainPayMcpContext.principal))
    context.(ChainPayMcpContext.assertActive) context.(ChainPayMcpContext.agentAddress)
    context.(ChainPayMcpContext.backendUrl) context.(ChainPayMcpContext.backendAuthToken).

(** A scope only narrows: whatever a connection may call, the session of its
    wallet may call with the same outcome (but for the checkout of a card, which is
    for connections only). *)
Theorem scope_only_narrows (context : ChainPayMcpContext.t) (name : string) (args : list (string * value))
    (call : AuthorizedCall.t) :
  name ≠ "request_card_checkout" →
  authorizeTool context name args = Ok call → authorizeTool (unscoped context) name args = Ok call.
Proof.
  intros Hne. destruct (ChainPayMcpContext.principal context) as [p|] eqn:Hp; intros H.
  2: { unfold authorizeTool in *. cbn [unscoped ChainPayMcpContext.principal]. by rewrite Hp in *. }
  assert (ChainPayMcpContext.principal (unscoped context) = Some (Principal.mk p.(Principal.wallet) None)) as Hu
    by (cbn; by rewrite Hp).
  apply (authorizeTool_iff _ _ _ _ _ Hp) in H as ([Ha Hs Hw] & Hwi & Hg). apply (authorizeTool_iff _ _ _ _ _ Hu).
  split; [by constructor|]. split; [|exact Hg].
  set (w := Principal.mk p.(Principal.wallet) None).
  destruct Hwi as [Hc Hca|Hc Hr|a m Hc Hr Hm Hre Hag|Hc Hr Hm Ho].
  - apply (within_card (unscoped context)); [done|]. destruct Hca as [->|(id & Hf & Hid & _)]; [by left|].
    right. by exists id.
  - exact (within_resume (unscoped context) w name args Hc Hr).
  - assert (reaches w a m) as Hrw by (destruct Hre; by constructor).
    exact (within_mandate (unscoped context) w name args a m Hc Hr Hm Hrw Hag).
  - exact (within_none (unscoped context) w name args Hc Hr Hm Ho).
Qed.
End Authorization.

(** ** Scopes as text *)
Section Scopes.
Context `{D : Codec, DS : !JsonSpec D}.

(** What a scope is stored as *)
Definition scope_value (s : ConnectionScope.t) : value :=
  VObject (defined_fields [("version", VNumber (JInt 1));
    ("mandates", VArray (map VString s.(ConnectionScope.mandates)));
    ("tools", VArray (map VString s.(ConnectionScope.tools)));
    ("agents", VObject s.(ConnectionScope.agents));
    ("cards", match s.(ConnectionScope.cards) with Some l => VArray (map VString l) | None => VUndefined end)]).

(** The scopes an owner can give *)
Record scope_ok (s : ConnectionScope.t) : Prop := {
  so_some : s.(ConnectionScope.mandates) ≠ [] ∨ ∃ c l, s.(ConnectionScope.cards) = Some (c :: l);
  so_mandates : (length s.(ConnectionScope.mandates) <= 20)%nat;
  so_tools : s.(ConnectionScope.tools) ≠ [] ∧ (length s.(ConnectionScope.tools) <= 30)%nat;
  so_cards l : s.(ConnectionScope.cards) = Some l → (length l <= 20)%nat ∧ forallb card_id l = true;
  so_agents : json (VObject s.(ConnectionScope.agents)) = true;
}.

Lemma strings_of_map l : strings_of (map VString l) = Some l.
Proof. unfold strings_of. induction l as [|x l IH]; [done|]. simpl. by rewrite IH. Qed.

Lemma bounded_map limit test l :
  Z.of_nat (length l) <= limit → forallb test l = true → bounded_strings limit test (VArray (map VString l)) = Some l.
Proof.
  intros Hl Ht. cbn. rewrite length_map, (proj2 (Z.ltb_ge _ _)), strings_of_map by lia. cbn. by rewrite Ht.
Qed.

Lemma json_strings l : json (VArray (map VString l)) = true.
Proof. cbn. induction l; done. Qed.

(** A scope an owner gave is read back as it was given: its text parses to the
    same mandates, tools, cards and agents. *)
Theorem scope_roundtrip (s : ConnectionScope.t) :
  scope_ok s → parseScope (JSON_stringify (scope_value s)) = Ok s.
Proof.
  intros []. unfold parseScope. rewrite json_roundtrip.
  2: { unfold scope_value. apply json_defined; [apply (bool_decide_unpack _); vm_compute; exact I|].
       repeat (apply Forall_cons; split; [split; [reflexivity|cbn [fst snd]]|]); [..|apply Forall_nil; done];
         first [by right|right; by apply json_strings|idtac].
       destruct (ConnectionScope.cards s); [right; apply json_strings|by left]. }
  assert (∀ k, get (scope_value s) k = field _ k) as Hg by (intros k; unfold scope_value; cbn [get]; apply field_defined;
    apply (bool_decide_unpack _); vm_compute; exact I).
  unfold read_cards. rewrite !Hg.
  change (field _ "version") with (VNumber (JInt 1)).
  change (field _ "mandates") with (VArray (map VString s.(ConnectionScope.mandates))).
  change (field _ "tools") with (VArray (map VString s.(ConnectionScope.tools))).
  change (field _ "agents") with (VObject s.(ConnectionScope.agents)).
  change (field _ "cards") with (match s.(ConnectionScope.cards) with Some l => VArray (map VString l) | None => VUndefined end).
  rewrite !bounded_map by (try lia; apply forallb_forall; done).
  destruct s as [mandates tools agents [cards|]]; cbn [ConnectionScope.mandates ConnectionScope.tools
    ConnectionScope.agents ConnectionScope.cards plain_object undefined] in *.
  - destruct (so_cards0 cards eq_refl) as [Hl Hc]. rewrite bounded_map by (lia || done). cbn [bind strict_eq Z.eqb Pos.eqb negb].
    destruct so_tools0 as [Ht _]. destruct tools; [done|]. destruct mandates as [|x mandates]; cbn [length Nat.eqb andb orb]; [|done].
    destruct so_some0 as [|(c & l & [= ->])]; done.
  - cbn [bind strict_eq Z.eqb Pos.eqb negb]. destruct so_tools0 as [Ht _]. destruct tools; [done|].
    destruct mandates as [|x mandates]; [|done]. by destruct so_some0 as [|(c & l & ?)].
Qed.
End Scopes.

(** ** Witnesses *)

Definition connected_mandate : Mandate.t :=
  Mandate.mk "m1" "owner" "agent" "source" "mint" None 10 100 0 0 1000 0 0 0 false false active None None.

Definition one_mandate : McpClient := {|
  getMandate a := Ok (if bool_decide (a = "m1") then Some connected_mandate else None);
  getPayment _ := Ok None;
|}.

Lemma one_mandate_spec : McpClientSpec one_mandate.
Proof. intros a m. cbn. case_bool_decide as E; [|done]. by intros [= <-]. Qed.

Definition connected_scope : ConnectionScope.t :=
  ConnectionScope.mk ["m1"] ["execute_payment"; "list_mandates"] [("m1", VString "agent")] None.

Definition connected : ChainPayMcpContext.t :=
  ChainPayMcpContext.mk (Some (Principal.mk "owner" (Some connected_scope))) (Some (Ok tt)) None None None.

Lemma lists_agree_with_reads_witness :
  @authorizeMandate one_mandate connected "m1" = Ok connected_mandate ∧ mandateInScope connected connected_mandate = true.
Proof.
  assert (@authorizeMandate one_mandate connected "m1" = Ok connected_mandate) as E by (vm_compute; reflexivity).
  split; [exact E|].
  exact (proj2 (proj1 (@lists_agree_with_reads one_mandate one_mandate_spec connected
    (Principal.mk "owner" (Some connected_scope)) "m1" connected_mandate eq_refl eq_refl) E)).
Defined.

(** Opening the card of a payment is part of executing it. *)
Definition open_call : AuthorizedCall.t := AuthorizedCall.mk [("mandate", VString "m1")] (Some "agent").

Lemma scoped_call_confined_witness :
  @authorizeTool one_mandate connected "open_payment" [("mandate", VString "m1")] = Ok open_call ∧
  scoped_name "open_payment" ∈ connected_scope.(ConnectionScope.tools).
Proof.
  assert (@authorizeTool one_mandate connected "open_payment" [("mandate", VString "m1")] = Ok open_call) as E
    by (vm_compute; reflexivity).
  split; [exact E|].
  exact (proj1 (proj1 (@scoped_call_confined one_mandate connected "owner" connected_scope "open_payment"
    [("mandate", VString "m1")] open_call eq_refl E))).
Defined.

Lemma scope_only_narrows_witness :
  @authorizeTool one_mandate (unscoped connected) "open_payment" [("mandate", VString "m1")] = Ok open_call.
Proof.
  refine (@scope_only_narrows one_mandate connected "open_payment" [("mandate", VString "m1")] open_call _ _).
  - discriminate.
  - vm_compute. reflexivity.
Defined.

Lemma scope_roundtrip_witness :
  @parseScope JsonCodec.codec (@JSON_stringify JsonCodec.codec (scope_value connected_scope)) = Ok connected_scope.
Proof.
  apply (@scope_roundtrip JsonCodec.codec JsonCodec.json_spec connected_scope). constructor.
  - left. discriminate.
  - vm_compute. lia.
  - split; [discriminate|vm_compute; lia].
  - discriminate.
  - vm_compute. reflexivity.
Defined.

(** The same mandate after its owner approved another agent *)
Example agent_changed_refused :
  is_ok (@authorizeTool one_mandate
    (ChainPayMcpContext.mk (Some (Principal.mk "owner"
      (Some (ConnectionScope.mk ["m1"] ["get_mandate"] [("m1", VString "earlier")] None)))) None None None None)
    "get_mandate" [("address", VString "m1")]) = false.
Proof. vm_compute. reflexivity. Qed.

Example stranger_refused :
  is_ok (@authorizeTool one_mandate (ChainPayMcpContext.mk (Some (Principal.mk "stranger" None)) None None None None)
    "get_mandate" [("address", VString "m1")]) = false.
Proof. vm_compute. reflexivity. Qed.
