(* ===== verification/McpConnections.v ===== *)
(** * The connection registry (mcp-server/src/connections.ts)

    The registry as it runs in memory: the connections owners made for their
    agents, known by the hash of a bearer token, the inbox, the rate windows and
    the payment cards.  (With Convex behind it, every operation is one call of the
    dispatcher modelled in [Storage].)  Random ids and tokens and the clock are
    arguments. *)
From Stdlib Require Import ZArith Lia Strings.Byte Strings.Ascii.
From stdpp Require Import base numbers sets strings list fin_maps gmap.
From S2P Require Import Prelude Bytes PublicKey Decimal Dates CardConstants CardPda Utf8 CardCommitment Values Records CardRecords Signed.

Module ConnectionToolCall.
Record t : Type := mk { name : string; count : Z; lastCalledAt : string }.
End ConnectionToolCall.

Module PublicMcpConnection.
Record t : Type := mk {
  id : string;
  wallet : string;
  agentName : string;
  scope : string;
  connectedAt : string;
  lastSeenAt : option string;
  totalCalls : Z;
  toolsCalled : list ConnectionToolCall.t;
}.
End PublicMcpConnection.

Module MemoryConnectionRecord.
Record t : Type := mk { public : PublicMcpConnection.t; tokenHash : string; revokedAt : option string }.
End MemoryConnectionRecord.

Inductive InboxRole : Type := user | assistant | tool.

Module MemoryInboxMessage.
Record t : Type := mk {
  id : string;
  wallet : string;
  role : InboxRole;
  content : value;
  createdAt : string;
  sequence : Z;
}.
End MemoryInboxMessage.

Module PaymentFlowRecord.
Record t : Type := mk {
  flowId : string;
  wallet : string;
  paymentId : string;
  view : value;
  createdAt : Z;
  updatedAt : Z;
  expiresAt : Z;
}.
End PaymentFlowRecord.

Module RateEntry.
Record t : Type := mk { startedAt : Z; count : Z }.
End RateEntry.

(** Records and messages in the order they were set, as a [Map] iterates them *)
Module Registry.
Record t : Type := mk {
  records : list MemoryConnectionRecord.t;
  inbox : list MemoryInboxMessage.t;
  inboxSequence : Z;
  rates : gmap string RateEntry.t;
  flows : gmap string PaymentFlowRecord.t;
}.
End Registry.

Definition inMemory : Registry.t := Registry.mk [] [] 0 ∅ ∅.

Definition with_records (l : list MemoryConnectionRecord.t) (s : Registry.t) : Registry.t :=
  Registry.mk l s.(Registry.inbox) s.(Registry.inboxSequence) s.(Registry.rates) s.(Registry.flows).
Definition with_rates (m : gmap string RateEntry.t) (s : Registry.t) : Registry.t :=
  Registry.mk s.(Registry.records) s.(Registry.inbox) s.(Registry.inboxSequence) m s.(Registry.flows).
Definition with_flows (m : gmap string PaymentFlowRecord.t) (s : Registry.t) : Registry.t :=
  Registry.mk s.(Registry.records) s.(Registry.inbox) s.(Registry.inboxSequence) s.(Registry.rates) m.

(** [map.set(id, record)] *)
Fixpoint set_by {A} (key : A → string) (x : A) (l : list A) : list A :=
  match l with
  | [] => [x]
  | y :: l => if bool_decide (key y = key x) then x :: l else y :: set_by key x l
  end.

Definition record_id (r : MemoryConnectionRecord.t) : string :=
  r.(MemoryConnectionRecord.public).(PublicMcpConnection.id).
Definition record_wallet (r : MemoryConnectionRecord.t) : string :=
  r.(MemoryConnectionRecord.public).(PublicMcpConnection.wallet).

(** [value.revokedAt] is falsy *)
Definition live (r : MemoryConnectionRecord.t) : bool :=
  match r.(MemoryConnectionRecord.revokedAt) with Some s => bool_decide (s = "") | None => true end.

(** [const [scheme, token] = authorization.split(" ")] *)
Definition bearerToken (authorization : option string) : option string :=
  a ← authorization;
  match split_char " "%char (chars a) with
  | scheme :: token :: _ =>
      if bool_decide (map lower scheme = chars "bearer") && negb (bool_decide (token = [])) then Some (text token) else None
  | _ => None
  end.

Section Registry.
Context `{HS : Sha256}.

Definition tokenHash (token : string) : string := sha256Hex (text_encode token).

(** ** Connections *)

Definition register (wallet agentName : string) (scope : option string) (id token : string) (now : Z)
    (s : Registry.t) : result (PublicMcpConnection.t * Registry.t) :=
  let wallet := trim wallet in
  let agentName := trim agentName in
  throw_if! bool_decide (wallet = "") || (44 <? Z.of_nat (String.length wallet))
    with "wallet is required and must be a Solana address";
  throw_if! bool_decide (agentName = "") || (128 <? Z.of_nat (String.length agentName))
    with "agentName must contain 1..128 characters";
  throw_if! 8192 <? Z.of_nat (String.length (default "" scope)) with "scope is too large";
  let scope := match trim <$> scope with Some t => if bool_decide (t = "") then "Unscoped" else t | None => "Unscoped" end in
  let public := PublicMcpConnection.mk id wallet agentName scope (toISOString now) None 0 [] in
  Ok (public, with_records (set_by record_id (MemoryConnectionRecord.mk public (tokenHash token) None) s.(Registry.records)) s).

Definition holder (authorization : option string) (s : Registry.t) : option MemoryConnectionRecord.t :=
  token ← bearerToken authorization;
  find (λ r, bool_decide (r.(MemoryConnectionRecord.tokenHash) = tokenHash token) && live r) s.(Registry.records).

Definition identify (authorization : option string) (s : Registry.t) : option PublicMcpConnection.t :=
  MemoryConnectionRecord.public <$> holder authorization s.

Fixpoint updateToolCalls (calls : list ConnectionToolCall.t) (name now : string) : list ConnectionToolCall.t :=
  match calls with
  | [] => [ConnectionToolCall.mk name 1 now]
  | c :: calls =>
      if bool_decide (c.(ConnectionToolCall.name) = name)
      then ConnectionToolCall.mk name (c.(ConnectionToolCall.count) + 1) now :: calls
      else c :: updateToolCalls calls name now
  end.

Definition applyObservation (p : PublicMcpConnection.t) (name : option string) (now : string) : PublicMcpConnection.t :=
  let called := match name with Some n => negb (bool_decide (n = "")) | None => false end in
  PublicMcpConnection.mk p.(PublicMcpConnection.id) p.(PublicMcpConnection.wallet) p.(PublicMcpConnection.agentName)
    p.(PublicMcpConnection.scope) p.(PublicMcpConnection.connectedAt) (Some now)
    (p.(PublicMcpConnection.totalCalls) + if called then 1 else 0)
    (if called then updateToolCalls p.(PublicMcpConnection.toolsCalled) (default "" name) now
     else p.(PublicMcpConnection.toolsCalled)).

(** The record is changed in place: the first live one with this hash *)
Fixpoint observe_in (hash : string) (name : option string) (now : string) (l : list MemoryConnectionRecord.t) :
    list MemoryConnectionRecord.t :=
  match l with
  | [] => []
  | r :: l =>
      if bool_decide (r.(MemoryConnectionRecord.tokenHash) = hash) && live r
      then MemoryConnectionRecord.mk (applyObservation r.(MemoryConnectionRecord.public) name now)
             r.(MemoryConnectionRecord.tokenHash) r.(MemoryConnectionRecord.revokedAt) :: l
      else r :: observe_in hash name now l
  end.

Definition observe (authorization : option string) (name : option string) (now : Z) (s : Registry.t) : Registry.t :=
  match bearerToken authorization with
  | None => s
  | Some token => with_records (observe_in (tokenHash token) name (toISOString now) s.(Registry.records)) s
  end.

(** Newest first; connections of one moment stay in their order. *)
Definition newer_connection (x y : MemoryConnectionRecord.t) : bool :=
  str_leb y.(MemoryConnectionRecord.public).(PublicMcpConnection.connectedAt)
    x.(MemoryConnectionRecord.public).(PublicMcpConnection.connectedAt).

Definition list_connections (wallet : string) (s : Registry.t) : list PublicMcpConnection.t :=
  map MemoryConnectionRecord.public (sort_by newer_connection
    (filter (λ r, record_wallet r = trim wallet ∧ live r = true) s.(Registry.records))).

Fixpoint revoke_in (wallet id : string) (now : string) (l : list MemoryConnectionRecord.t) :
    option (list MemoryConnectionRecord.t) :=
  match l with
  | [] => None
  | r :: l =>
      if bool_decide (record_id r = id) then
        if negb (bool_decide (record_wallet r = wallet)) || negb (live r) then None
        else Some (MemoryConnectionRecord.mk r.(MemoryConnectionRecord.public) r.(MemoryConnectionRecord.tokenHash)
                     (Some now) :: l)
      else cons r <$> revoke_in wallet id now l
  end.

Definition revoke (wallet id : string) (now : Z) (s : Registry.t) : bool * Registry.t :=
  match revoke_in (trim wallet) id (toISOString now) s.(Registry.records) with
  | None => (false, s)
  | Some l => (true, with_records l s)
  end.

(** ** The inbox *)

Definition appendInboxMessage (wallet : string) (role : InboxRole) (content : value) (id : string) (now : Z)
    (s : Registry.t) : result (MemoryInboxMessage.t * Registry.t) :=
  let normalized := trim wallet in
  throw_if! bool_decide (normalized = "") with "wallet is required to persist inbox history";
  let sequence := s.(Registry.inboxSequence) + 1 in
  let record := MemoryInboxMessage.mk id normalized role content (toISOString now) sequence in
  Ok (record, Registry.mk s.(Registry.records) (set_by MemoryInboxMessage.id record s.(Registry.inbox)) sequence
    s.(Registry.rates) s.(Registry.flows)).

Definition later_message (x y : MemoryInboxMessage.t) : bool :=
  y.(MemoryInboxMessage.sequence) <=? x.(MemoryInboxMessage.sequence).

Definition listInbox (wallet : string) (limit : Z) (s : Registry.t) : list MemoryInboxMessage.t :=
  let boundedLimit := Z.max 1 (Z.min limit 100) in
  take (Z.to_nat boundedLimit) (sort_by later_message
    (filter (λ m, m.(MemoryInboxMessage.wallet) = trim wallet) s.(Registry.inbox))).

(** ** Rates *)

Definition MAX_RATES : Z := 10000.

Definition rateLimit (key : string) (now limit windowMs : Z) (s : Registry.t) : bool * Registry.t :=
  let rates := filter (λ e : string * RateEntry.t, now - e.2.(RateEntry.startedAt) < windowMs) s.(Registry.rates) in
  match rates !! key with
  | None =>
      if MAX_RATES <=? Z.of_nat (size rates) then (false, with_rates rates s)
      else (true, with_rates (<[key := RateEntry.mk now 1]> rates) s)
  | Some current =>
      if limit <=? current.(RateEntry.count) then (false, with_rates rates s)
      else (true, with_rates (<[key := RateEntry.mk current.(RateEntry.startedAt) (current.(RateEntry.count) + 1)]> rates) s)
  end.

(** ** Payment cards *)

Definition MAX_FLOWS : Z := 10000.
Definition is_safe_integer (z : Z) : bool := (-9007199254740991 <=? z) && (z <=? 9007199254740991).

(** The stored card is another than the one the update was made for. *)
Definition card_differs (existing record : PaymentFlowRecord.t) (expected clock : Z) : bool :=
  negb (existing.(PaymentFlowRecord.updatedAt) =? expected)
  || (existing.(PaymentFlowRecord.expiresAt) <=? clock)
  || negb (existing.(PaymentFlowRecord.expiresAt) =? record.(PaymentFlowRecord.expiresAt))
  || negb (existing.(PaymentFlowRecord.createdAt) =? record.(PaymentFlowRecord.createdAt))
  || negb (bool_decide (existing.(PaymentFlowRecord.paymentId) = record.(PaymentFlowRecord.paymentId))).

Definition putFlow (clock : Z) (record : PaymentFlowRecord.t) (expectedUpdatedAt : option Z) (s : Registry.t) :
    result Registry.t :=
  throw_if! match expectedUpdatedAt with
            | Some e => negb (is_safe_integer e) || (record.(PaymentFlowRecord.updatedAt) <=? e)
            | None => false
            end with "Payment flow update conflict";
  let existing := s.(Registry.flows) !! record.(PaymentFlowRecord.flowId) in
  throw_if! match existing with
            | Some f => negb (bool_decide (f.(PaymentFlowRecord.wallet) = record.(PaymentFlowRecord.wallet)))
            | None => false
            end with "Payment flow belongs to another wallet";
  throw_if! match expectedUpdatedAt, existing with
            | None, Some _ => true
            | None, None => false
            | Some _, None => true
            | Some e, Some f => card_differs f record e clock
            end with "Payment flow update conflict";
  let flows := filter (λ e : string * PaymentFlowRecord.t, clock < e.2.(PaymentFlowRecord.expiresAt)) s.(Registry.flows) in
  throw_if! (MAX_FLOWS <=? Z.of_nat (size flows)) && bool_decide (existing = None) with "Too many live payment flows";
  Ok (with_flows (<[record.(PaymentFlowRecord.flowId) := record]> flows) s).

Definition getFlow (flowId : string) (now : Z) (s : Registry.t) : option PaymentFlowRecord.t :=
  flow ← s.(Registry.flows) !! flowId;
  if now <? flow.(PaymentFlowRecord.expiresAt) then Some flow else None.
End Registry.
