(* ===== verification/McpConnectionsProps.v ===== *)
(** * Theorems on the connection registry

    A token identifies the connection it was given for from its registration
    until the wallet revokes that connection, whatever else happens to the
    registry in between; what the owner is shown is what the token holds. *)
From Stdlib Require Import ZArith Lia Strings.Byte Strings.Ascii.
From stdpp Require Import base numbers sets strings list fin_maps gmap.
From S2P Require Import Prelude Bytes PublicKey Decimal Dates CardConstants CardPda Utf8 CardCommitment Values Records CardRecords Signed McpConnections.

(** ** Everything that changes the registry *)

Inductive registry_op : Type :=
| Register (wallet agentName : string) (scope : option string) (id token : string) (now : Z)
| Observe (authorization : option string) (name : option string) (now : Z)
| Revoke (wallet id : string) (now : Z)
| AppendInbox (wallet : string) (role : InboxRole) (content : value) (id : string) (now : Z)
| RateLimit (key : string) (now limit windowMs : Z)
| PutFlow (clock : Z) (record : PaymentFlowRecord.t) (expectedUpdatedAt : option Z).

Definition after_call {A} (s : Registry.t) (r : result (A * Registry.t)) : Registry.t :=
  match r with Ok (_, s') => s' | Throw _ => s end.

Section Props.
Context `{HS : Sha256}.

Definition apply_op (o : registry_op) (s : Registry.t) : Registry.t :=
  match o with
  | Register w a sc id token now => after_call s (register w a sc id token now s)
  | Observe auth name now => observe auth name now s
  | Revoke w id now => (revoke w id now s).2
  | AppendInbox w r c id now => after_call s (appendInboxMessage w r c id now s)
  | RateLimit k now limit win => (rateLimit k now limit win s).2
  | PutFlow clock r e => match putFlow clock r e s with Ok s' => s' | Throw _ => s end
  end.

Definition run_ops (ops : list registry_op) (s : Registry.t) : Registry.t := foldl (λ s o, apply_op o s) s ops.

(** The wallet [w] (already trimmed) revokes the connection [id]. *)
Definition revokes (w id : string) (o : registry_op) : bool :=
  match o with Revoke w' id' _ => bool_decide (trim w' = w) && bool_decide (id' = id) | _ => false end.

(** No registration hands out this id or a token with this hash again: both are random. *)
Definition fresh_op (id token : string) (o : registry_op) : Prop :=
  match o with Register _ _ _ id' token' _ => id' ≠ id ∧ tokenHash token' ≠ tokenHash token | _ => True end.

Definition other (id hash : string) (r : MemoryConnectionRecord.t) : Prop :=
  record_id r ≠ id ∧ r.(MemoryConnectionRecord.tokenHash) ≠ hash.

(** ** The header *)

Lemma bearer_read token : token ≠ "" → " "%char ∉ chars token → bearerToken (Some ("Bearer " +:+ token)) = Some token.
Proof.
  intros Hne Hsp. unfold bearerToken. cbn [mbind option_bind].
  assert (split_char " "%char (chars ("Bearer " +:+ token)) = [chars "Bearer"; chars token]) as ->.
  { change (chars ("Bearer " +:+ token)) with (chars "Bearer" ++ " "%char :: chars token).
    change (split_char " "%char (chars "Bearer" ++ " "%char :: chars token)) with (chars "Bearer" :: split_char " "%char (chars token)).
    rewrite split_char_free; [done|]. apply Forall_forall. by intros x Hx ->. }
  rewrite (bool_decide_false (chars token = [])).
  - by rewrite text_chars.
  - intros E. apply Hne. by rewrite <- (text_chars token), E.
Qed.

(** ** What each change does to a list cut in two *)

Lemma set_by_app {A} (key : A → string) (x : A) l1 l2 :
  set_by key x (l1 ++ l2) = set_by key x l1 ++ l2 ∨ set_by key x (l1 ++ l2) = l1 ++ set_by key x l2.
Proof.
  induction l1 as [|y l1 IH]; [by right|]. cbn. case_bool_decide; [by left|].
  destruct IH as [-> | ->]; [by left|by right].
Qed.

Lemma set_by_Forall {A} (P : A → Prop) (key : A → string) (x : A) l : P x → Forall P l → Forall P (set_by key x l).
Proof.
  intros Hx. induction 1 as [|y l Hy Hl IH]; cbn; [by constructor|].
  case_bool_decide; by constructor.
Qed.

Lemma observe_in_app h name now l1 l2 :
  observe_in h name now (l1 ++ l2) = observe_in h name now l1 ++ l2
  ∨ observe_in h name now (l1 ++ l2) = l1 ++ observe_in h name now l2.
Proof.
  induction l1 as [|y l1 IH]; [by right|]. cbn. destruct (_ && _); [by left|].
  destruct IH as [-> | ->]; [by left|by right].
Qed.

Lemma observe_in_other id hash h name now l : Forall (other id hash) l → Forall (other id hash) (observe_in h name now l).
Proof. induction 1 as [|y l Hy Hl IH]; cbn; [done|]. destruct (_ && _); by constructor. Qed.

Lemma revoke_in_app w id now l1 l2 l :
  revoke_in w id now (l1 ++ l2) = Some l →
  (∃ l1', revoke_in w id now l1 = Some l1' ∧ l = l1' ++ l2) ∨ (∃ l2', revoke_in w id now l2 = Some l2' ∧ l = l1 ++ l2').
Proof.
  revert l; induction l1 as [|y l1 IH]; intros l; cbn; [by eauto|]. case_bool_decide.
  - destruct (_ || _); [done|]. intros [= <-]. left. by eexists.
  - intros (l' & [(l1' & -> & ->)|(l2' & -> & ->)]%IH & ->)%fmap_Some; [left|right]; by eexists.
Qed.

Lemma revoke_in_other id hash w id' now l l' :
  revoke_in w id' now l = Some l' → Forall (other id hash) l → Forall (other id hash) l'.
Proof.
  revert l'; induction l as [|y l IH]; intros l'; cbn; [done|]. case_bool_decide.
  - destruct (_ || _); [done|]. intros [= <-] [Hy Hl]%Forall_cons. by constructor.
  - intros (l0 & E & ->)%fmap_Some [Hy Hl]%Forall_cons. constructor; [done|]. by apply IH.
Qed.

Lemma revoke_in_head w id now l r :
  record_id r = id →
  revoke_in w id now (r :: l) =
    if negb (bool_decide (record_wallet r = w)) || negb (live r) then None
    else Some (MemoryConnectionRecord.mk r.(MemoryConnectionRecord.public) r.(MemoryConnectionRecord.tokenHash) (Some now) :: l).
Proof. intros E. cbn. by rewrite bool_decide_true. Qed.

Lemma revoke_in_absent w id now l l2 hash :
  Forall (other id hash) l → revoke_in w id now (l ++ l2) = app l <$> revoke_in w id now l2.
Proof.
  induction 1 as [|y l [Hy _] Hl IH]; cbn [app revoke_in]; [by destruct (revoke_in w id now l2)|].
  rewrite bool_decide_false by done. rewrite IH. by destruct (revoke_in w id now l2).
Qed.

(** ** One connection among the others *)

(** The registry holds this connection, alone with its id and its hash; it is revoked when [b]. *)
Definition stands (id w hash : string) (b : bool) (l : list MemoryConnectionRecord.t) : Prop :=
  ∃ l1 r l2, l = l1 ++ r :: l2 ∧ Forall (other id hash) l1 ∧ Forall (other id hash) l2
    ∧ record_id r = id ∧ record_wallet r = w ∧ r.(MemoryConnectionRecord.tokenHash) = hash ∧ live r = negb b.

Lemma stands_found id w hash b l :
  stands id w hash b l →
  (λ r, (record_id r, record_wallet r)) <$> find (λ r, bool_decide (r.(MemoryConnectionRecord.tokenHash) = hash) && live r) l
    = if b then None else Some (id, w).
Proof.
  intros (l1 & r & l2 & -> & H1 & H2 & Hid & Hw & Hh & Hl).
  induction H1 as [|y l1 [_ Hy] H1 IH]; cbn; [|by rewrite bool_decide_false].
  rewrite bool_decide_true, Hl by done. destruct b; cbn; [|by rewrite Hid, Hw].
  induction H2 as [|y l2 [_ Hy] H2 IH]; cbn; [done|by rewrite bool_decide_false].
Qed.

Lemma stands_register id w hash b r l :
  other id hash r → stands id w hash b l → stands id w hash b (set_by record_id r l).
Proof.
  intros Hr (l1 & x & l2 & -> & H1 & H2 & Hid & Hrest).
  destruct (set_by_app record_id r l1 (x :: l2)) as [-> | ->].
  - exists (set_by record_id r l1), x, l2. split_and!; try tauto. by apply set_by_Forall.
  - cbn. rewrite bool_decide_false by (rewrite Hid; intros E; by apply (proj1 Hr)).
    exists l1, x, (set_by record_id r l2). split_and!; try tauto. by apply set_by_Forall.
Qed.

Lemma stands_observe id w hash b h name now l :
  stands id w hash b l → stands id w hash b (observe_in h name now l).
Proof.
  intros (l1 & x & l2 & -> & H1 & H2 & Hid & Hw & Hh & Hl).
  destruct (observe_in_app h name now l1 (x :: l2)) as [-> | ->].
  - exists (observe_in h name now l1), x, l2. split_and!; try done. by apply observe_in_other.
  - cbn. destruct (_ && _).
    + eexists l1, _, l2. by split_and!.
    + exists l1, x, (observe_in h name now l2). split_and!; try done. by apply observe_in_other.
Qed.

Lemma iso_some now : toISOString now ≠ "".
Proof.
  unfold toISOString. intros E. pose proof (f_equal chars E) as E'. rewrite chars_text in E'.
  unfold iso_chars in E'. destruct (civil_from_days _) as [[y m] d]. apply app_eq_nil in E' as [_ E']. done.
Qed.

Lemma stands_revoke id w hash b w' id' now l :
  stands id w hash b l →
  stands id w hash (b || (bool_decide (w' = w) && bool_decide (id' = id)))
    (default l (revoke_in w' id' (toISOString now) l)).
Proof.
  intros (l1 & x & l2 & -> & H1 & H2 & Hid & Hw & Hh & Hl).
  destruct (decide (id' = id)) as [->|Hne].
  - rewrite (revoke_in_absent w' id _ l1 (x :: l2) hash), revoke_in_head by done.
    rewrite (bool_decide_true (id = id)), andb_true_r, Hw, Hl by done.
    case_bool_decide as E; case_bool_decide as E'; try congruence; destruct b; cbn;
      try (exists l1, x, l2; by split_and!).
    eexists l1, _, l2. split_and!; try done. unfold live. cbn. rewrite bool_decide_false; [done|apply iso_some].
  - rewrite (bool_decide_false (id' = id)), andb_false_r, orb_false_r by done.
    destruct (revoke_in _ _ _ _) as [l'|] eqn:E; [|exists l1, x, l2; by split_and!].
    apply revoke_in_app in E as [(l1' & E & ->)|(l2' & E & ->)]; cbn.
    + exists l1', x, l2. split_and!; try done. by eapply revoke_in_other.
    + cbn in E. rewrite bool_decide_false in E by congruence.
      apply fmap_Some in E as (l0 & E & ->).
      exists l1, x, l0. split_and!; try done. by eapply revoke_in_other.
Qed.

Lemma putFlow_records clock r e s s' : putFlow clock r e s = Ok s' → s'.(Registry.records) = s.(Registry.records).
Proof. unfold putFlow. intros H. repeat case_match; naive_solver. Qed.

Lemma rateLimit_records k now limit win s : (rateLimit k now limit win s).2.(Registry.records) = s.(Registry.records).
Proof. unfold rateLimit. by repeat case_match. Qed.

Lemma inbox_records w r c id now s :
  (after_call s (appendInboxMessage w r c id now s)).(Registry.records) = s.(Registry.records).
Proof. unfold appendInboxMessage. by repeat case_match. Qed.

Lemma register_ok w a sc id token now s c s' :
  register w a sc id token now s = Ok (c, s') →
  c.(PublicMcpConnection.id) = id ∧ c.(PublicMcpConnection.wallet) = trim w
  ∧ s'.(Registry.records) = set_by record_id (MemoryConnectionRecord.mk c (tokenHash token) None) s.(Registry.records).
Proof. unfold register. intros H. repeat case_match; naive_solver. Qed.

Lemma stands_op id w token b o s :
  fresh_op id token o → stands id w (tokenHash token) b s.(Registry.records) →
  stands id w (tokenHash token) (b || revokes w id o) (apply_op o s).(Registry.records).
Proof.
  intros Hf Hs. destruct o as [w' a sc id' token' now|auth name now|w' id' now|w' r c id' now|k now limit win|clock r e];
    cbn [apply_op revokes] in *; rewrite ?orb_false_r.
  - destruct (register _ _ _ _ _ _ _) as [[c s']|] eqn:E; [|done]. cbn.
    apply register_ok in E as (Hid & _ & ->). apply stands_register; [|done]. split; cbn; [|by apply Hf].
    unfold record_id; cbn. rewrite Hid. by apply Hf.
  - unfold observe. destruct (bearerToken auth); [|done]. by apply stands_observe.
  - unfold revoke. pose proof (stands_revoke id w (tokenHash token) b (trim w') id' now _ Hs) as H.
    by destruct (revoke_in _ _ _ _).
  - by rewrite inbox_records.
  - by rewrite rateLimit_records.
  - destruct (putFlow _ _ _ _) as [s'|] eqn:E; [|done]. by rewrite (putFlow_records _ _ _ _ _ E).
Qed.

Lemma stands_run id w token b ops s :
  Forall (fresh_op id token) ops → stands id w (tokenHash token) b s.(Registry.records) →
  stands id w (tokenHash token) (b || existsb (revokes w id) ops) (run_ops ops s).(Registry.records).
Proof.
  intros Hf. revert b s. induction Hf as [|o ops Ho Hf IH]; intros b s Hs; cbn; [by rewrite orb_false_r|].
  rewrite orb_assoc. apply IH. by apply stands_op.
Qed.

Lemma register_stands w a sc id token now s c s' :
  register w a sc id token now s = Ok (c, s') → Forall (other id (tokenHash token)) s.(Registry.records) →
  stands id (trim w) (tokenHash token) false s'.(Registry.records).
Proof.
  intros (Hid & Hw & ->)%register_ok Ho. set (r := MemoryConnectionRecord.mk c _ _).
  assert (set_by record_id r s.(Registry.records) = s.(Registry.records) ++ [r]) as ->.
  { induction Ho as [|y l [Hy _] Hl IH]; cbn; [done|]. rewrite bool_decide_false; [by rewrite IH|].
    unfold record_id at 2. cbn. by rewrite Hid. }
  exists (s.(Registry.records)), r, []. by split_and!.
Qed.

(** A token identifies the connection it was handed out for, under the wallet that made it, after any sequence
    of registrations, observations, revocations, inbox messages, rate checks and payment cards: until that wallet
    revokes that connection, and then nobody. *)
Theorem token_until_revoked w a sc id token now s c s' ops :
  token ≠ "" → " "%char ∉ chars token →
  register w a sc id token now s = Ok (c, s') →
  Forall (other id (tokenHash token)) s.(Registry.records) →
  Forall (fresh_op id token) ops →
  (λ p, (p.(PublicMcpConnection.id), p.(PublicMcpConnection.wallet)))
    <$> identify (Some ("Bearer " +:+ token)) (run_ops ops s')
  = if existsb (revokes (trim w) id) ops then None else Some (id, trim w).
Proof.
  intros Hne Hsp Hreg Ho Hf.
  pose proof (stands_found _ _ _ _ _ (stands_run _ _ _ false ops _ Hf (register_stands _ _ _ _ _ _ _ _ _ Hreg Ho))) as H.
  unfold identify, holder. rewrite bearer_read by done. cbn.
  change (false || _) with (existsb (revokes (trim w) id) ops) in H. rewrite <- H. by destruct (find _ _).
Qed.
End Props.

(** ** An instance *)

Definition sample_ops : list registry_op :=
  [Register "mallory" "bot" None "conn_2" "cp_agent_2" 5; Observe (Some "Bearer cp_agent_1") (Some "pay") 7;
   Revoke "mallory" "conn_1" 8; RateLimit "k" 9 5 1000; Revoke " alice " "conn_1" 10].

Definition sample_registered : result (PublicMcpConnection.t * Registry.t) :=
  register (HS := model_hash) " alice " "agent" (Some "pay") "conn_1" "cp_agent_1" 0 inMemory.

Definition registered_state : Registry.t :=
  match sample_registered with Ok (_, s) => s | Throw _ => inMemory end.
Definition registered_connection : PublicMcpConnection.t :=
  PublicMcpConnection.mk "conn_1" "alice" "agent" "pay" "1970-01-01T00:00:00.000Z" None 0 [].

Lemma token_until_revoked_witness :
  (λ p, (p.(PublicMcpConnection.id), p.(PublicMcpConnection.wallet)))
    <$> identify (HS := model_hash) (Some ("Bearer " +:+ "cp_agent_1")) (run_ops (HS := model_hash) (take 4 sample_ops) registered_state)
  = Some ("conn_1", "alice")
  ∧ (λ p, (p.(PublicMcpConnection.id), p.(PublicMcpConnection.wallet)))
    <$> identify (HS := model_hash) (Some ("Bearer " +:+ "cp_agent_1")) (run_ops (HS := model_hash) sample_ops registered_state)
  = None.
Proof.
  assert (Hn : "cp_agent_1" ≠ "") by done.
  assert (Hs : " "%char ∉ chars "cp_agent_1") by (apply (bool_decide_unpack _); vm_compute; exact I).
  assert (Hr : register (HS := model_hash) " alice " "agent" (Some "pay") "conn_1" "cp_agent_1" 0 inMemory = Ok (registered_connection, registered_state))
    by (vm_compute; reflexivity).
  assert (Hf : Forall (fresh_op (HS := model_hash) "conn_1" "cp_agent_1") sample_ops)
    by (repeat constructor; vm_compute; congruence).
  split.
  - apply (token_until_revoked (HS := model_hash) " alice " "agent" (Some "pay") "conn_1" "cp_agent_1" 0 inMemory
             registered_connection registered_state (take 4 sample_ops) Hn Hs Hr ltac:(constructor) (Forall_take _ 4 _ Hf)).
  - apply (token_until_revoked (HS := model_hash) " alice " "agent" (Some "pay") "conn_1" "cp_agent_1" 0 inMemory
             registered_connection registered_state sample_ops Hn Hs Hr ltac:(constructor) Hf).
Defined.
