(* ===== verification/McpFlows.v ===== *)
(** * Live payment cards (mcp-server/src/payment-flows.ts)

    A card is created when a payment opens and every tool of the payment records
    the step it reached: it reads the card, merges its view, and writes against
    the revision it read, up to three times.  The calls interleave at each wait,
    so a store is an interface and the updates are the steps of a system over
    it; the registry in memory is an instance. *)
From Stdlib Require Import ZArith Lia Strings.Byte Strings.Ascii.
From stdpp Require Import base numbers sets strings list fin_maps gmap.
From S2P Require Import Prelude Bytes PublicKey Payment Decimal Dates CardConstants CardPda Utf8 CardCommitment Values Records CardRecords Signed McpConnections.

Definition FLOW_TTL_MS : Z := 24 * 60 * 60 * 1000.

Definition is_flow_char (c : ascii) : bool := is_alnum c || bool_decide (c = "-"%char) || bool_decide (c = "_"%char).

Definition isFlowId (v : value) : bool :=
  match v with
  | VString s => (String.length s =? 22)%nat && forallb is_flow_char (chars s)
  | _ => false
  end.

Definition flowUrl (publicMcpOrigin flowId : string) : string := publicMcpOrigin +:+ "/pay/" +:+ flowId.

(** ** Views *)

Definition fields_of (v : value) : list (string * value) := match v with VObject fields => fields | _ => [] end.

(** Only the fields a viewer of the card may see. *)
Definition publicView (view : list (string * value)) : list (string * value) :=
  filter (λ f, f.1 ≠ "mandate" ∧ f.1 ≠ "recipient") view.

Definition PRESERVED : list string :=
  ["amount"; "symbol"; "decimals"; "merchant"; "product"; "recipientShort"; "cluster"; "signature"; "txShort";
   "explorerUrl"; "paymentId"; "flowId"; "flowUrl"].

(** [if (value !== undefined) merged[key] = value] *)
Definition set_defined (merged : list (string * value)) (f : string * value) : list (string * value) :=
  match f.2 with VUndefined => merged | v => set_field merged f.1 v end.

(** What of the stored view an update keeps *)
Definition kept_view (existing view : list (string * value)) : list (string * value) :=
  if strict_eq (field view "version") (VNumber (JInt 1))
  then foldl (λ merged key, set_defined merged (key, field existing key)) [] PRESERVED
  else existing.

Definition is_object (v : value) : bool :=
  match v with VObject _ | VArray _ | VLossless _ => true | _ => false end.

(** [delete merged.limits.after]: of the object the view holds, which the caller's view shares *)
Definition drop_after (merged : list (string * value)) : list (string * value) :=
  let limits := field merged "limits" in
  let state := field merged "state" in
  if negb (strict_eq state (VString "ready")) && truthy limits && is_object limits
  then if strict_eq state (VString "settled") || strict_eq state (VString "blocked")
       then set_field merged "limits" (delete_field limits "after") else merged
  else merged.

Definition mergedView (existing view : list (string * value)) : list (string * value) :=
  drop_after (foldl set_defined (kept_view existing view) (publicView view)).

(** ** The store *)

Class PaymentFlowStore (S : Type) : Type := {
  store_putFlow : Z → PaymentFlowRecord.t → option Z → S → result S;
  store_getFlow : string → Z → S → result (option PaymentFlowRecord.t);
}.

#[export] Instance memory_flows : PaymentFlowStore Registry.t := {
  store_putFlow := putFlow;
  store_getFlow := λ flowId now s, Ok (getFlow flowId now s);
}.

Module ChainPayMcpContext.
Record t : Type := mk { wallet : option string; flows : bool }.
End ChainPayMcpContext.

(** [context.principal?.wallet], when it is not empty *)
Definition principal_wallet (c : ChainPayMcpContext.t) : option string :=
  w ← c.(ChainPayMcpContext.wallet); if bool_decide (w = "") then None else Some w.

(** A call of [recordFlow] under way: the attempts made, and the card it read and is about to write. *)
Module FlowUpdate.
Record t : Type := mk {
  wallet : string;
  flowId : string;
  view : list (string * value);
  paymentId : string;
  attempt : nat;
  existing : option PaymentFlowRecord.t;
}.
End FlowUpdate.

Section Flows.
Context {S : Type} `{FS : PaymentFlowStore S}.
Context (publicMcpOrigin : string).

Definition new_flow (wallet flowId : string) (view : list (string * value)) (paymentId : string) (now : Z) : PaymentFlowRecord.t :=
  PaymentFlowRecord.mk flowId wallet paymentId
    (VObject (publicView (set_field (set_field view "flowId" (VString flowId)) "flowUrl" (VString (flowUrl publicMcpOrigin flowId)))))
    now now (now + FLOW_TTL_MS).

(** [flowId] is 16 random bytes in base64url. *)
Definition createFlow (c : ChainPayMcpContext.t) (view : list (string * value)) (paymentId flowId : string) (now : Z) (s : S) :
    result (option string * S) :=
  match principal_wallet c with
  | Some wallet =>
      if negb c.(ChainPayMcpContext.flows) then Ok (None, s)
      else let! s' := store_putFlow now (new_flow wallet flowId view paymentId now) None s in Ok (Some flowId, s')
  | None => Ok (None, s)
  end.

Definition assertFlowOwner (c : ChainPayMcpContext.t) (flowId paymentId : string) (now : Z) (s : S) : result unit :=
  if negb c.(ChainPayMcpContext.flows) then Ok tt
  else match store_getFlow flowId now s with
       | Ok (Some flow) =>
           throw_if! negb (bool_decide (Some flow.(PaymentFlowRecord.wallet) = c.(ChainPayMcpContext.wallet)))
             with "This payment card belongs to another wallet";
           throw_if! negb (bool_decide (flow.(PaymentFlowRecord.paymentId) = paymentId))
             with "This payment card belongs to another payment";
           Ok tt
       | _ => Ok tt
       end.

(** ** One attempt of [recordFlow] *)

Definition MAX_ATTEMPTS : nat := 3.

(** Up to the write: the card to update, unless there is nothing to do *)
Definition readFlow (u : FlowUpdate.t) (now : Z) (s : S) : option PaymentFlowRecord.t :=
  match store_getFlow u.(FlowUpdate.flowId) now s with
  | Ok (Some existing) =>
      if negb (bool_decide (existing.(PaymentFlowRecord.wallet) = u.(FlowUpdate.wallet)))
         || negb (bool_decide (existing.(PaymentFlowRecord.paymentId) = u.(FlowUpdate.paymentId))) then None
      else if strict_eq (get existing.(PaymentFlowRecord.view) "state") (VString "settled") then None
      else Some existing
  | _ => None
  end.

Definition updated_flow (existing : PaymentFlowRecord.t) (view : list (string * value)) (now : Z) : PaymentFlowRecord.t :=
  PaymentFlowRecord.mk existing.(PaymentFlowRecord.flowId) existing.(PaymentFlowRecord.wallet) existing.(PaymentFlowRecord.paymentId)
    (VObject (mergedView (fields_of existing.(PaymentFlowRecord.view)) view)) existing.(PaymentFlowRecord.createdAt)
    (Z.max now (existing.(PaymentFlowRecord.updatedAt) + 1)) existing.(PaymentFlowRecord.expiresAt).

Definition writeFlow (u : FlowUpdate.t) (existing : PaymentFlowRecord.t) (now : Z) (s : S) : result S :=
  store_putFlow now (updated_flow existing u.(FlowUpdate.view) now) (Some existing.(PaymentFlowRecord.updatedAt)) s.

Definition is_conflict (message : string) : bool :=
  includes message "Payment flow update conflict" || includes message "Storage request rejected (409)".

(** What a failed write leaves to do: another attempt, or nothing *)
Definition after_refusal (u : FlowUpdate.t) (message : string) : option FlowUpdate.t :=
  if (u.(FlowUpdate.attempt) =? MAX_ATTEMPTS - 1)%nat || negb (is_conflict message) then None
  else Some (FlowUpdate.mk u.(FlowUpdate.wallet) u.(FlowUpdate.flowId) u.(FlowUpdate.view) u.(FlowUpdate.paymentId)
               (u.(FlowUpdate.attempt) + 1) None).

Definition begin_update (c : ChainPayMcpContext.t) (flowId : option string) (view : list (string * value)) (paymentId : string) :
    option FlowUpdate.t :=
  id ← flowId; w ← principal_wallet c;
  if bool_decide (id = "") || negb c.(ChainPayMcpContext.flows) then None else Some (FlowUpdate.mk w id view paymentId 0 None).

(** [recordFlow] when nothing else happens between its waits *)
Fixpoint record_attempts (fuel : nat) (u : FlowUpdate.t) (now : Z) (s : S) : S :=
  match fuel with
  | O => s
  | Datatypes.S fuel =>
      match readFlow u now s with
      | None => s
      | Some existing =>
          match writeFlow u existing now s with
          | Ok s' => s'
          | Throw e => match after_refusal u e with Some u' => record_attempts fuel u' now s | None => s end
          end
      end
  end.

Definition recordFlow (c : ChainPayMcpContext.t) (flowId : option string) (view : list (string * value)) (paymentId : string)
    (now : Z) (s : S) : S :=
  match begin_update c flowId view paymentId with Some u => record_attempts MAX_ATTEMPTS u now s | None => s end.

(** ** Any number of calls at once *)

Record system : Type := mk_system { clock : Z; store : S; updates : gmap nat FlowUpdate.t }.

Definition with_existing (u : FlowUpdate.t) (e : option PaymentFlowRecord.t) : FlowUpdate.t :=
  FlowUpdate.mk u.(FlowUpdate.wallet) u.(FlowUpdate.flowId) u.(FlowUpdate.view) u.(FlowUpdate.paymentId) u.(FlowUpdate.attempt) e.

Inductive flow_step : system → system → Prop :=
| step_tick σ t : σ.(clock) ≤ t → flow_step σ (mk_system t σ.(store) σ.(updates))
| step_create σ c view paymentId flowId r s' :
    createFlow c view paymentId flowId σ.(clock) σ.(store) = Ok (r, s') →
    flow_step σ (mk_system σ.(clock) s' σ.(updates))
| step_begin σ i c flowId view paymentId u :
    begin_update c flowId view paymentId = Some u → σ.(updates) !! i = None →
    flow_step σ (mk_system σ.(clock) σ.(store) (<[i := u]> σ.(updates)))
| step_read σ i u existing :
    σ.(updates) !! i = Some u → u.(FlowUpdate.existing) = None → readFlow u σ.(clock) σ.(store) = Some existing →
    flow_step σ (mk_system σ.(clock) σ.(store) (<[i := with_existing u (Some existing)]> σ.(updates)))
| step_nothing_to_do σ i u :
    σ.(updates) !! i = Some u → u.(FlowUpdate.existing) = None → readFlow u σ.(clock) σ.(store) = None →
    flow_step σ (mk_system σ.(clock) σ.(store) (delete i σ.(updates)))
| step_write σ i u existing s' :
    σ.(updates) !! i = Some u → u.(FlowUpdate.existing) = Some existing → writeFlow u existing σ.(clock) σ.(store) = Ok s' →
    flow_step σ (mk_system σ.(clock) s' (delete i σ.(updates)))
| step_refused σ i u existing e :
    σ.(updates) !! i = Some u → u.(FlowUpdate.existing) = Some existing → writeFlow u existing σ.(clock) σ.(store) = Throw e →
    flow_step σ (mk_system σ.(clock) σ.(store)
      (match after_refusal u e with Some u' => <[i := u']> σ.(updates) | None => delete i σ.(updates) end)).
End Flows.
Arguments mk_system {S} _ _ _.
Arguments clock {S} _.
Arguments store {S} _.
Arguments updates {S} _.
