(* ===== verification/McpFlowsProps.v ===== *)
(** * Theorems on live payment cards

    What a store of cards promises, that the registry in memory keeps it, and what
    follows for any interleaving of card updates: a card never changes owner, a
    settled card never changes at all, and no card ever shows a mandate. *)
From Stdlib Require Import ZArith Lia Strings.Byte Strings.Ascii.
From stdpp Require Import base numbers sets strings list relations fin_maps gmap.
From S2P Require Import Prelude Bytes PublicKey Payment Decimal Dates CardConstants CardPda Utf8 CardCommitment Values Records CardRecords Signed McpConnections McpFlows.

(** ** The promise of a store *)

(** Another card's write leaves this one, or removes it once expired. *)
Definition same_or_expired (before after : option PaymentFlowRecord.t) (now : Z) : Prop :=
  after = before ∨ after = None ∧ ∃ f, before = Some f ∧ f.(PaymentFlowRecord.expiresAt) ≤ now.

Definition same_card (f g : PaymentFlowRecord.t) : Prop :=
  f.(PaymentFlowRecord.wallet) = g.(PaymentFlowRecord.wallet) ∧ f.(PaymentFlowRecord.paymentId) = g.(PaymentFlowRecord.paymentId)
  ∧ f.(PaymentFlowRecord.createdAt) = g.(PaymentFlowRecord.createdAt) ∧ f.(PaymentFlowRecord.expiresAt) = g.(PaymentFlowRecord.expiresAt).

Class PaymentFlowStoreSpec (S : Type) `{FS : PaymentFlowStore S} : Type := {
  stored : string → S → option PaymentFlowRecord.t;
  get_stored id now s f :
    store_getFlow id now s = Ok (Some f) → stored id s = Some f ∧ now < f.(PaymentFlowRecord.expiresAt);
  put_created now r s s' :
    store_putFlow now r None s = Ok s' →
    (∀ f, stored r.(PaymentFlowRecord.flowId) s = Some f → f.(PaymentFlowRecord.expiresAt) ≤ now)
    ∧ stored r.(PaymentFlowRecord.flowId) s' = Some r
    ∧ ∀ id, id ≠ r.(PaymentFlowRecord.flowId) → same_or_expired (stored id s) (stored id s') now;
  put_updated now r e s s' :
    store_putFlow now r (Some e) s = Ok s' →
    (∃ cur, stored r.(PaymentFlowRecord.flowId) s = Some cur ∧ same_card cur r ∧ cur.(PaymentFlowRecord.updatedAt) = e
       ∧ e < r.(PaymentFlowRecord.updatedAt) ∧ now < cur.(PaymentFlowRecord.expiresAt))
    ∧ stored r.(PaymentFlowRecord.flowId) s' = Some r
    ∧ ∀ id, id ≠ r.(PaymentFlowRecord.flowId) → same_or_expired (stored id s) (stored id s') now;
}.

(** ** The registry in memory keeps it *)

Lemma flows_after r now (m : gmap string PaymentFlowRecord.t) id :
  id ≠ r.(PaymentFlowRecord.flowId) →
  same_or_expired (m !! id)
    (<[r.(PaymentFlowRecord.flowId) := r]> (filter (λ e : string * PaymentFlowRecord.t, now < e.2.(PaymentFlowRecord.expiresAt)) m) !! id) now.
Proof.
  intros Hne. rewrite lookup_insert_ne by done. destruct (m !! id) as [f|] eqn:E.
  - destruct (decide (now < f.(PaymentFlowRecord.expiresAt))) as [Hl|Hl].
    + left. by apply map_lookup_filter_Some.
    + right. split; [|exists f; split; [done|lia]]. apply map_lookup_filter_None. right. intros g Hg. cbn. by simplify_eq.
  - left. apply map_lookup_filter_None. by left.
Qed.

Lemma card_differs_same existing r e now :
  card_differs existing r e now = false → existing.(PaymentFlowRecord.wallet) = r.(PaymentFlowRecord.wallet) →
  same_card existing r ∧ existing.(PaymentFlowRecord.updatedAt) = e ∧ now < existing.(PaymentFlowRecord.expiresAt).
Proof.
  unfold card_differs, same_card. rewrite !orb_false_iff, !negb_false_iff, !Z.eqb_eq, Z.leb_gt, bool_decide_eq_true.
  naive_solver.
Qed.

#[export] Instance memory_flows_spec : PaymentFlowStoreSpec Registry.t.
Proof.
  refine {| stored := λ id s, s.(Registry.flows) !! id |}.
  - intros id now s f. cbn. unfold getFlow. destruct (_ !! id) as [g|] eqn:E; cbn; [|done].
    destruct (now <? _) eqn:Hl; [|done]. apply Z.ltb_lt in Hl. by intros [= <-].
  - intros now r s s'. cbn. unfold putFlow. cbn.
    destruct (_ !! _) as [f|] eqn:E; [by destruct (negb _)|]. cbn. destruct (_ && _); [done|].
    intros [= <-]. cbn. split_and!; [done|by rewrite lookup_insert_eq|]. intros id Hne. by apply flows_after.
  - intros now r e s s'. cbn. unfold putFlow. cbn.
    destruct (negb (is_safe_integer e) || _) eqn:G; [done|].
    apply orb_false_iff in G as [_ G]. apply Z.leb_gt in G.
    destruct (_ !! _) as [f|] eqn:E; [|done]. cbn.
    destruct (bool_decide _) eqn:Hw; [|done]. apply bool_decide_eq_true in Hw. cbn.
    destruct (card_differs f r e now) eqn:Hd; [done|]. cbn. rewrite ?andb_false_r.
    intros [= <-]. cbn. apply card_differs_same in Hd as (Hs & Hu & Hx); [|done].
    split_and!; [by exists f|by rewrite lookup_insert_eq|]. intros id Hne. by apply flows_after.
Defined.

(** ** Views *)

(** What no viewer of a card may see *)
Definition hidden (f : string * value) : Prop := f.1 ≠ "mandate" ∧ f.1 ≠ "recipient".

Lemma set_field_hidden l k x : hidden (k, x) → Forall hidden l → Forall hidden (set_field l k x).
Proof.
  intros Hk. induction 1 as [|[k' y] l Hy Hl IH]; cbn; [by constructor|].
  case_bool_decide; by constructor.
Qed.

Lemma set_defined_hidden l f : hidden f → Forall hidden l → Forall hidden (set_defined l f).
Proof. intros Hf Hl. destruct f as [k v]. unfold set_defined. cbn. destruct v; try done; by apply set_field_hidden. Qed.

Lemma fold_hidden l fs : Forall hidden fs → Forall hidden l → Forall hidden (foldl set_defined l fs).
Proof.
  intros Hf. revert l. induction Hf as [|f fs Hf Hfs IH]; intros l Hl; cbn; [done|]. by apply IH, set_defined_hidden.
Qed.

Lemma publicView_hidden view : Forall hidden (publicView view).
Proof. apply Forall_forall. by intros f [Hf _]%list_elem_of_filter. Qed.

Lemma kept_hidden existing view : Forall hidden existing → Forall hidden (kept_view existing view).
Proof.
  intros He. unfold kept_view. destruct (strict_eq _ _); [|done].
  assert (∀ keys l, Forall (λ k, k ≠ "mandate" ∧ k ≠ "recipient") keys → Forall hidden l →
            Forall hidden (foldl (λ m k, set_defined m (k, field existing k)) l keys)) as H.
  { intros keys. induction keys as [|k keys IH]; intros l Hk Hl; cbn; [done|].
    apply Forall_cons in Hk as [Hk Hks]. apply IH; [done|]. by apply set_defined_hidden. }
  apply H; [|done]. repeat constructor; done.
Qed.

Lemma merged_hidden existing view : Forall hidden existing → Forall hidden (mergedView existing view).
Proof.
  intros He. unfold mergedView, drop_after.
  assert (Forall hidden (foldl set_defined (kept_view existing view) (publicView view))) as H
    by (apply fold_hidden; [apply publicView_hidden|by apply kept_hidden]).
  destruct (_ && _); [|done]. destruct (_ || _); [|done]. by apply set_field_hidden.
Qed.

Definition settled (f : PaymentFlowRecord.t) : bool :=
  strict_eq (get f.(PaymentFlowRecord.view) "state") (VString "settled").

(** ** What holds of a reachable system *)

Section System.
Context {S : Type} `{FS : PaymentFlowStore S, !PaymentFlowStoreSpec S}.
Context (publicMcpOrigin : string).

(** A card that was stored: under its id, made before now, expiring a day after, and with nothing hidden in its view *)
Definition card_ok (id : string) (f : PaymentFlowRecord.t) (now : Z) : Prop :=
  f.(PaymentFlowRecord.flowId) = id ∧ f.(PaymentFlowRecord.createdAt) ≤ now
  ∧ f.(PaymentFlowRecord.expiresAt) = f.(PaymentFlowRecord.createdAt) + FLOW_TTL_MS
  ∧ Forall hidden (fields_of f.(PaymentFlowRecord.view)).

(** The card a call read is the stored one, or an earlier one of it, or of a card that is gone. *)
Definition read_before (e : PaymentFlowRecord.t) (cur : option PaymentFlowRecord.t) (now : Z) : Prop :=
  match cur with
  | None => e.(PaymentFlowRecord.expiresAt) ≤ now
  | Some f =>
      e.(PaymentFlowRecord.createdAt) < f.(PaymentFlowRecord.createdAt)
      ∨ e.(PaymentFlowRecord.createdAt) = f.(PaymentFlowRecord.createdAt)
        ∧ (e.(PaymentFlowRecord.updatedAt) < f.(PaymentFlowRecord.updatedAt) ∨ e = f)
  end.

Definition pending_ok (σ : system (S := S)) (e : PaymentFlowRecord.t) : Prop :=
  card_ok e.(PaymentFlowRecord.flowId) e σ.(clock) ∧ settled e = false
  ∧ read_before e (stored e.(PaymentFlowRecord.flowId) σ.(store)) σ.(clock).

Definition system_ok (σ : system (S := S)) : Prop :=
  (∀ id f, stored id σ.(store) = Some f → card_ok id f σ.(clock))
  ∧ (∀ i u e, σ.(updates) !! i = Some u → u.(FlowUpdate.existing) = Some e → pending_ok σ e).

Lemma ttl_positive : 0 < FLOW_TTL_MS.
Proof. done. Qed.

Lemma card_ok_later id f now later : now ≤ later → card_ok id f now → card_ok id f later.
Proof. intros H (? & ? & ? & ?). split_and!; try done; lia. Qed.

Lemma read_before_later e cur now later : now ≤ later → read_before e cur now → read_before e cur later.
Proof. intros H. destruct cur; cbn; [done|lia]. Qed.

Lemma read_before_same_or_expired e before after now :
  card_ok e.(PaymentFlowRecord.flowId) e now →
  (∀ f, before = Some f → card_ok e.(PaymentFlowRecord.flowId) f now) →
  same_or_expired before after now → read_before e before now → read_before e after now.
Proof.
  intros (_ & _ & Hx & _) Hb [->|[-> (f & -> & Hf)]]; [done|]. destruct (Hb f eq_refl) as (_ & _ & Hxf & _).
  cbn. intros [H|[H _]]; lia.
Qed.

(** A write of one card keeps the others. *)
Lemma write_ok now s s' us r :
  system_ok (mk_system now s us) → card_ok r.(PaymentFlowRecord.flowId) r now →
  stored r.(PaymentFlowRecord.flowId) s' = Some r →
  (∀ id, id ≠ r.(PaymentFlowRecord.flowId) → same_or_expired (stored id s) (stored id s') now) →
  (∀ e, pending_ok (mk_system now s us) e → e.(PaymentFlowRecord.flowId) = r.(PaymentFlowRecord.flowId) →
     read_before e (Some r) now) →
  system_ok (mk_system now s' us).
Proof.
  intros [Hc Hp] Hr Hs Ho Hn. cbn in *. split; cbn.
  - intros id f Hf. destruct (decide (id = r.(PaymentFlowRecord.flowId))) as [->|Hne]; [by simplify_eq|].
    destruct (Ho id Hne) as [E|[E _]]; [|congruence]. apply Hc. congruence.
  - intros i u e Hu He. pose proof (Hp i u e Hu He) as Hpe. pose proof Hpe as (Hk & Hns & Hrb). split_and!; [done|done|].
    cbn in *. destruct (decide (e.(PaymentFlowRecord.flowId) = r.(PaymentFlowRecord.flowId))) as [E|Hne].
    + rewrite E, Hs. by apply Hn.
    + eapply read_before_same_or_expired; [done| |by apply Ho|done]. intros f Hf. by apply Hc.
Qed.

Lemma forget_ok now s us us' :
  system_ok (mk_system now s us) →
  (∀ i u e, us' !! i = Some u → u.(FlowUpdate.existing) = Some e → ∃ j v, us !! j = Some v ∧ v.(FlowUpdate.existing) = Some e) →
  system_ok (mk_system now s us').
Proof.
  intros [Hc Hp] Hsub. split; [done|]. intros i u e Hu He. destruct (Hsub i u e Hu He) as (j & v & Hv & Hve).
  by apply (Hp j v e).
Qed.

Lemma create_ok c view paymentId flowId now s r s' us :
  createFlow publicMcpOrigin c view paymentId flowId now s = Ok (r, s') →
  system_ok (mk_system now s us) → system_ok (mk_system now s' us).
Proof.
  unfold createFlow. destruct (principal_wallet c) as [w|]; [|by intros [= <- <-]].
  destruct (negb _); [by intros [= <- <-]|]. intros (s1 & Hput & [= <- <-])%bind_ok Hok.
  set (f := new_flow _ _ _ _ _ _) in *. apply put_created in Hput as (Hold & Hnew & Hothers).
  apply (write_ok now s s1 us f); try done.
  - split_and!; cbn; [done|lia|done|apply publicView_hidden].
  - intros e ((_ & He & Hx & _) & _ & Hrb) Eid. cbn in *. left. rewrite Eid in Hrb.
    pose proof ttl_positive. destruct (stored _ s) as [g|] eqn:Eg; cbn in Hrb; [|lia].
    pose proof (Hold g eq_refl) as Hg. destruct Hok as [Hc _]. destruct (Hc _ _ Eg) as (_ & _ & Hxg & _). lia.
Qed.

Lemma flow_read_ok u now s us existing :
  readFlow u now s = Some existing → system_ok (mk_system now s us) → pending_ok (mk_system now s us) existing.
Proof.
  unfold readFlow. intros H [Hc _].
  destruct (store_getFlow _ _ _) as [[f|]|] eqn:E; try done. apply get_stored in E as [Hs Hl].
  destruct (_ || _); [done|]. destruct (strict_eq _ _) eqn:Es; [done|]. simplify_eq.
  pose proof (Hc _ _ Hs) as Hk. pose proof Hk as (Hid & _). cbn in *.
  split_and!; [by rewrite Hid|done|]. cbn. rewrite Hid, Hs. right. split; [done|by right].
Qed.

(** Only the revision a call read is overwritten. *)
Lemma write_reads u existing now s s' :
  writeFlow u existing now s = Ok s' →
  ∃ cur, stored existing.(PaymentFlowRecord.flowId) s = Some cur ∧ same_card cur existing
    ∧ cur.(PaymentFlowRecord.updatedAt) = existing.(PaymentFlowRecord.updatedAt) ∧ now < cur.(PaymentFlowRecord.expiresAt).
Proof. intros H. apply put_updated in H as ((cur & Hc & Hs & Hu & _ & Hx) & _). by exists cur. Qed.

Lemma update_ok u existing now s s' us :
  writeFlow u existing now s = Ok s' → pending_ok (mk_system now s us) existing →
  system_ok (mk_system now s us) → system_ok (mk_system now s' us).
Proof.
  intros Hw (Hk & _ & _) Hok. pose proof Hk as (_ & Hcl & Hx & Hh). cbn in *.
  apply put_updated in Hw as ((cur & Hc & Hs & Hu & Hlt & _) & Hnew & Hothers).
  apply (write_ok now s s' us (updated_flow existing u.(FlowUpdate.view) now)); try done.
  - split_and!; cbn; [done|done|done|]. by apply merged_hidden.
  - intros e (_ & _ & Hrb) Eid. cbn in Eid, Hrb, Hc. rewrite Eid, Hc in Hrb. destruct Hs as (_ & _ & Hca & _). cbn in Hca.
    destruct Hrb as [Hrb|[Hrb Hrb']]; [left|right]; cbn; [lia|]. split; [lia|left].
    destruct Hrb' as [Hrb'|Hrb']; cbn in *; [lia|subst e]. lia.
Qed.

Lemma step_ok σ σ' : flow_step publicMcpOrigin σ σ' → system_ok σ → system_ok σ'.
Proof.
  intros Hstep Hok. destruct Hstep as [σ t Ht|σ c view pid id r s' Hc|σ i c id view pid u Hb Hi|σ i u e Hu He Hr|σ i u Hu He Hr
    |σ i u e s' Hu He Hw|σ i u e m Hu He Hw]; destruct σ as [now s us]; cbn in *.
  - destruct Hok as [Hc Hp]. split; cbn in *.
    + intros id f Hf. eapply card_ok_later; [done|]. by apply Hc.
    + intros i u e Hu He. destruct (Hp i u e Hu He) as (Hk & Hns & Hrb). split_and!; cbn in *; [by eapply card_ok_later|done|].
      by eapply read_before_later.
  - by eapply create_ok.
  - eapply forget_ok; [done|]. intros j v e Hv He. destruct (decide (i = j)) as [->|Hne].
    + rewrite lookup_insert_eq in Hv. simplify_eq. unfold begin_update in Hb.
      destruct id; [|done]; cbn in Hb. destruct (principal_wallet c); [|done]; cbn in Hb. by destruct (_ || _); simplify_eq.
    + rewrite lookup_insert_ne in Hv by done. by exists j, v.
  - pose proof (flow_read_ok _ _ _ us _ Hr Hok) as Hpe. destruct Hok as [Hc Hp]. split; [done|]. cbn in *.
    intros j v e' Hv He'. destruct (decide (i = j)) as [->|Hne].
    + rewrite lookup_insert_eq in Hv. simplify_eq. cbn in He'. by simplify_eq.
    + rewrite lookup_insert_ne in Hv by done. by apply (Hp j v e').
  - eapply forget_ok; [done|]. intros j v e [_ Hv]%lookup_delete_Some He'. by exists j, v.
  - eapply forget_ok; [|intros j v e' [_ Hv]%lookup_delete_Some He'; by exists j, v].
    eapply update_ok; [done| |done]. destruct Hok as [_ Hp]. by apply (Hp i u e).
  - eapply forget_ok; [done|]. intros j v e' Hv He'. unfold after_refusal in Hv. destruct (_ || _).
    + apply lookup_delete_Some in Hv as [_ Hv]. by exists j, v.
    + destruct (decide (i = j)) as [->|Hne]; [rewrite lookup_insert_eq in Hv; by simplify_eq|].
      rewrite lookup_insert_ne in Hv by done. by exists j, v.
Qed.

Lemma steps_ok σ σ' : rtc (flow_step publicMcpOrigin) σ σ' → system_ok σ → system_ok σ'.
Proof. induction 1 as [|σ1 σ2 σ3 H _ IH]; [done|]. intros Hok. apply IH. by eapply step_ok. Qed.

Lemma clock_grows σ σ' : rtc (flow_step publicMcpOrigin) σ σ' → σ.(clock) ≤ σ'.(clock).
Proof.
  induction 1 as [|σ1 σ2 σ3 H _ IH]; [done|]. etransitivity; [|done]. by destruct H; cbn.
Qed.

(** ** A card through the steps *)

(** A live card after one step: untouched, or its next revision by a call that read it *)
Lemma live_step id f σ σ' :
  flow_step publicMcpOrigin σ σ' → system_ok σ → stored id σ.(store) = Some f → σ.(clock) < f.(PaymentFlowRecord.expiresAt) →
  stored id σ'.(store) = Some f
  ∨ settled f = false ∧ ∃ f' now view, stored id σ'.(store) = Some f' ∧ f' = updated_flow f view now.
Proof.
  intros Hstep Hok Hf Hlive. assert (∀ s', same_or_expired (stored id σ.(store)) (stored id s') σ.(clock) → stored id s' = Some f) as Hkeep.
  { intros s' [->|[_ (g & Hg & Hx)]]; [done|]. rewrite Hf in Hg. simplify_eq. lia. }
  destruct Hstep as [| σ c view pid id' r s' Hc| | | |σ i u e s' Hu He Hw|]; cbn; try by left.
  - left. unfold createFlow in Hc. destruct (principal_wallet c); [|by simplify_eq].
    destruct (negb _); [by simplify_eq|]. apply bind_ok in Hc as (s1 & Hput & [= _ <-]).
    apply put_created in Hput as (Hold & _ & Hothers). cbn in *.
    destruct (decide (id = id')) as [->|Hne]; [|by apply Hkeep, Hothers]. pose proof (Hold f Hf). lia.
  - pose proof (proj2 Hok i u e Hu He) as (Hk & Hns & Hrb). cbn in Hk.
    apply put_updated in Hw as ((cur & Hc & (_ & _ & Hca & _) & Hcu & _) & Hnew & Hothers). cbn in *.
    destruct (decide (id = e.(PaymentFlowRecord.flowId))) as [->|Hne]; [|left; by apply Hkeep, Hothers].
    rewrite Hc in Hf. simplify_eq. rewrite Hc in Hrb. cbn in Hrb. right.
    assert (e = f) as -> by (destruct Hrb as [Hrb|[_ [Hrb|Hrb]]]; [lia|lia|done]).
    split; [done|]. by eexists _, _, _.
Qed.

(** Where the system starts: no card, no call *)
Definition started (σ : system (S := S)) : Prop := (∀ id, stored id σ.(store) = None) ∧ σ.(updates) = ∅.

Lemma started_ok σ : started σ → system_ok σ.
Proof. intros [Hs Hu]. split; [intros id f; by rewrite Hs|]. intros i u e. by rewrite Hu, lookup_empty. Qed.

(** C14: However the calls of [recordFlow] and [createFlow] interleave, over any store that keeps its promise, a card
    that shows a settled payment is the same card, byte for byte, until it expires: no late status undoes it. *)
Theorem settled_card_frozen σ0 σ σ' id f :
  started σ0 → rtc (flow_step publicMcpOrigin) σ0 σ → stored id σ.(store) = Some f → settled f = true →
  rtc (flow_step publicMcpOrigin) σ σ' → σ'.(clock) < f.(PaymentFlowRecord.expiresAt) →
  stored id σ'.(store) = Some f.
Proof.
  intros H0 H1 Hf Hset Hsteps Hlive. assert (system_ok σ) as Hok by (eapply steps_ok; [done|by apply started_ok]).
  clear H0 H1. induction Hsteps as [|σ1 σ2 σ3 H Hs IH]; [done|].
  pose proof (clock_grows _ _ Hs). assert (σ1.(clock) ≤ σ2.(clock)) by (apply clock_grows; by eapply rtc_once).
  apply IH; [|done|by eapply step_ok].
  destruct (live_step id f σ1 σ2 H Hok Hf) as [Hf2|[Hns _]]; [lia|done|congruence].
Qed.

(** However the calls interleave, a live card keeps its wallet, its payment and its dates, its revision only grows,
    and its view never holds the mandate or the recipient. *)
Theorem card_keeps_owner σ0 σ σ' id f :
  started σ0 → rtc (flow_step publicMcpOrigin) σ0 σ → stored id σ.(store) = Some f →
  rtc (flow_step publicMcpOrigin) σ σ' → σ'.(clock) < f.(PaymentFlowRecord.expiresAt) →
  ∃ f', stored id σ'.(store) = Some f' ∧ same_card f f' ∧ f.(PaymentFlowRecord.updatedAt) ≤ f'.(PaymentFlowRecord.updatedAt)
    ∧ Forall hidden (fields_of f'.(PaymentFlowRecord.view)).
Proof.
  intros H0 H1 Hf Hsteps Hlive. assert (system_ok σ) as Hok by (eapply steps_ok; [done|by apply started_ok]).
  clear H0 H1. revert f Hf Hlive. induction Hsteps as [σ|σ1 σ2 σ3 H Hs IH]; intros f Hf Hlive.
  - exists f. split_and!; try done. destruct Hok as [Hc _]. by apply (Hc id f).
  - pose proof (clock_grows _ _ Hs). assert (σ1.(clock) ≤ σ2.(clock)) by (apply clock_grows; by eapply rtc_once).
    assert (system_ok σ2) as Hok2 by by eapply step_ok.
    destruct (live_step id f σ1 σ2 H Hok Hf) as [Hf2|[_ (f2 & now & view & Hf2 & ->)]]; [lia|by apply IH|].
    destruct (IH Hok2 _ Hf2 Hlive) as (f' & Hf' & Hsame & Hup & Hh). exists f'. split_and!; [done|exact Hsame| |done].
    cbn in Hup. lia.
Qed.
End System.

(** ** What a recorded call shows *)

Lemma field_set_defined l f k : field (set_defined l f) k = if bool_decide (f.1 = k) && negb (match f.2 with VUndefined => true | _ => false end) then f.2 else field l k.
Proof.
  destruct f as [k' v]. unfold set_defined; cbn. destruct (decide (k' = k)) as [->|Hne].
  - rewrite bool_decide_true by done. destruct v; cbn; rewrite ?field_set; done.
  - rewrite bool_decide_false by done. destruct v; cbn; rewrite ?field_set_ne; done.
Qed.

Lemma field_missing l k : k ∉ l.*1 → field l k = VUndefined.
Proof.
  induction l as [|[k' v] l IH]; cbn; [done|]. intros [Hne Hl]%not_elem_of_cons. rewrite bool_decide_false by done. by apply IH.
Qed.

(** [??=] the other way round: the later value unless it is undefined *)
Definition override (later before : value) : value := match later with VUndefined => before | v => v end.

Lemma field_fold l fs k :
  NoDup fs.*1 → field (foldl set_defined l fs) k = override (field fs k) (field l k).
Proof.
  revert l. induction fs as [|[k' v] fs IH]; intros l; cbn; [done|]. intros [Hk' Hfs]%NoDup_cons.
  rewrite IH by done. rewrite field_set_defined. cbn. case_bool_decide as E; [|done]. subst k'.
  rewrite (field_missing fs k) by done. by destruct v.
Qed.

Lemma fold_keys existing keys l :
  foldl (λ m key, set_defined m (key, field existing key)) l keys
    = foldl set_defined l (map (λ key, (key, field existing key)) keys).
Proof. revert l. induction keys as [|k keys IH]; intros l; cbn; [done|]. apply IH. Qed.

Lemma field_keys existing keys k :
  field (map (λ key, (key, field existing key)) keys) k = if bool_decide (k ∈ keys) then field existing k else VUndefined.
Proof.
  induction keys as [|k' keys IH]; [done|]. cbn [map field fst snd]. destruct (decide (k' = k)) as [->|Hne].
  - rewrite !bool_decide_true; [done|set_solver|done].
  - rewrite bool_decide_false, IH by done. erewrite bool_decide_ext; [done|]. set_solver.
Qed.

Lemma field_kept_view existing view k :
  field (kept_view existing view) k =
    if strict_eq (field view "version") (VNumber (JInt 1)) && negb (bool_decide (k ∈ PRESERVED)) then VUndefined else field existing k.
Proof.
  unfold kept_view. destruct (strict_eq _ _); [|done]. rewrite fold_keys, field_fold, field_keys.
  - by case_bool_decide; cbn; [destruct (field existing k)|].
  - rewrite <- list_fmap_compose. apply (bool_decide_unpack _). vm_compute. exact I.
Qed.

(** What a card shows under a name after a call recorded [view] on it *)
Definition shown_field (existing view : list (string * value)) (k : string) : value :=
  override (field (publicView view) k)
    (if strict_eq (field view "version") (VNumber (JInt 1)) && negb (bool_decide (k ∈ PRESERVED)) then VUndefined else field existing k).

Lemma publicView_nodup view : NoDup view.*1 → NoDup (publicView view).*1.
Proof.
  unfold publicView. induction view as [|f view IH]; [done|]. rewrite fmap_cons. intros [Hf Hv]%NoDup_cons.
  rewrite filter_cons. case_decide; [|by apply IH]. rewrite fmap_cons. apply NoDup_cons. split; [|by apply IH].
  intros (g & E & Hg)%list_elem_of_fmap. apply Hf, list_elem_of_fmap. exists g. split; [done|].
  by apply list_elem_of_filter in Hg as [_ Hg].
Qed.

Lemma field_merged existing view k :
  NoDup view.*1 → k ≠ "limits" → field (mergedView existing view) k = shown_field existing view k.
Proof.
  intros Hv Hk. unfold mergedView, drop_after, shown_field. rewrite <- field_kept_view, <- field_fold by by apply publicView_nodup.
  destruct (_ && _); [|done]. destruct (_ || _); [|done]. by rewrite field_set_ne.
Qed.

Lemma is_conflict_put now f view s :
  s.(Registry.flows) !! f.(PaymentFlowRecord.flowId) = Some f →
  now < f.(PaymentFlowRecord.expiresAt) → is_safe_integer f.(PaymentFlowRecord.updatedAt) = true →
  ∃ s', putFlow now (updated_flow f view now) (Some f.(PaymentFlowRecord.updatedAt)) s = Ok s'
    ∧ s'.(Registry.flows) !! f.(PaymentFlowRecord.flowId) = Some (updated_flow f view now).
Proof.
  intros Hs Hl Hsafe. unfold putFlow. cbn. rewrite Hsafe, Hs. cbn.
  destruct (Z.max _ _ <=? _) eqn:E; [apply Z.leb_le in E; lia|].
  rewrite (bool_decide_true (f.(PaymentFlowRecord.wallet) = _)) by done.
  unfold card_differs. cbn. rewrite !Z.eqb_refl, bool_decide_true by done.
  destruct (f.(PaymentFlowRecord.expiresAt) <=? now) eqn:E2; [apply Z.leb_le in E2; lia|]. cbn.
  rewrite andb_false_r. eexists; split; [done|]. cbn. by rewrite lookup_insert_eq.
Qed.

Lemma max_expr now u : u < Z.max now (u + 1).
Proof. lia. Qed.

(** With the registry in memory and nothing in between, a call of [recordFlow] by the owner of a live card that is
    not settled shows on the card each public field the call gives, and of the earlier view, for a complete new view,
    only the descriptions and the known transaction, never its policy or refusal evidence. *)
Theorem card_shows_call (c : ChainPayMcpContext.t) (s : Registry.t) f id w view paymentId now :
  principal_wallet c = Some w → c.(ChainPayMcpContext.flows) = true → id ≠ "" →
  s.(Registry.flows) !! id = Some f → f.(PaymentFlowRecord.flowId) = id → f.(PaymentFlowRecord.wallet) = w →
  f.(PaymentFlowRecord.paymentId) = paymentId → settled f = false → now < f.(PaymentFlowRecord.expiresAt) →
  is_safe_integer f.(PaymentFlowRecord.updatedAt) = true → NoDup view.*1 →
  ∃ f', getFlow id now (recordFlow c (Some id) view paymentId now s) = Some f'
    ∧ same_card f f' ∧ f.(PaymentFlowRecord.updatedAt) < f'.(PaymentFlowRecord.updatedAt)
    ∧ ∀ k, k ≠ "limits" → get f'.(PaymentFlowRecord.view) k = shown_field (fields_of f.(PaymentFlowRecord.view)) view k.
Proof.
  intros Hw Hf Hid Hs Hfid Hfw Hfp Hns Hl Hsafe Hv. exists (updated_flow f view now).
  split; [|split_and!; [done|apply max_expr|intros k Hk; by apply field_merged]].
  unfold recordFlow, begin_update. cbn. rewrite Hw, Hf. cbn. rewrite bool_decide_false by done. cbn.
  unfold readFlow. cbn. unfold getFlow at 2. rewrite Hs. cbn.
  rewrite (proj2 (Z.ltb_lt _ _) Hl), Hfw, Hfp, !bool_decide_true by done. cbn. unfold settled in Hns. rewrite Hns.
  subst id. destruct (is_conflict_put now f view s Hs Hl Hsafe) as (s' & Hput & Hs').
  unfold writeFlow. cbn. rewrite Hput. unfold getFlow. rewrite Hs'. cbn. by rewrite (proj2 (Z.ltb_lt _ _) Hl).
Qed.

(** ** Instances *)

Definition alice : ChainPayMcpContext.t := ChainPayMcpContext.mk (Some "alice") true.
Definition paying_view : list (string * value) :=
  [("version", VNumber (JInt 1)); ("state", VString "paying"); ("amount", VString "5"); ("reason", VString "r"); ("mandate", VString "m")].
Definition settled_view : list (string * value) := [("version", VNumber (JInt 1)); ("state", VString "settled"); ("recipient", VString "x")].
Definition sample_card : PaymentFlowRecord.t := new_flow "https://pay" "alice" "card" paying_view "pay_1" 1000.
Definition sample_settled : PaymentFlowRecord.t := updated_flow sample_card settled_view 2000.
Definition card_store : Registry.t := with_flows {["card" := sample_card]} inMemory.
Definition settled_store : Registry.t := with_flows {["card" := sample_settled]} inMemory.
Definition settling : FlowUpdate.t := FlowUpdate.mk "alice" "card" settled_view "pay_1" 0 None.

Lemma card_shows_call_witness :
  ∃ f', getFlow "card" 2000 (recordFlow alice (Some "card") settled_view "pay_1" 2000 card_store) = Some f'
    ∧ same_card sample_card f' ∧ sample_card.(PaymentFlowRecord.updatedAt) < f'.(PaymentFlowRecord.updatedAt)
    ∧ ∀ k, k ≠ "limits" → get f'.(PaymentFlowRecord.view) k = shown_field (fields_of sample_card.(PaymentFlowRecord.view)) settled_view k.
Proof.
  apply (card_shows_call alice card_store sample_card "card" "alice" settled_view "pay_1" 2000); try reflexivity.
  - done.
  - apply (bool_decide_unpack _). vm_compute. exact I.
Defined.

Lemma sample_run :
  started (mk_system 1000 inMemory ∅)
  ∧ rtc (flow_step "https://pay") (mk_system 1000 inMemory ∅) (mk_system 2000 settled_store ∅).
Proof.
  split; [split; [intros id; apply lookup_empty|done]|].
  eapply rtc_l; [eapply (step_create "https://pay" (mk_system 1000 inMemory ∅) alice paying_view "pay_1" "card"); vm_compute; reflexivity|].
  eapply rtc_l; [apply (step_tick "https://pay" _ 2000); cbn; lia|].
  eapply rtc_l; [apply (step_begin "https://pay" _ 0%nat alice (Some "card") settled_view "pay_1" settling); vm_compute; reflexivity|].
  eapply rtc_l; [apply (step_read "https://pay" _ 0%nat settling sample_card); vm_compute; reflexivity|].
  eapply rtc_l; [eapply (step_write "https://pay" _ 0%nat (with_existing settling (Some sample_card)) sample_card); vm_compute; reflexivity|].
  match goal with |- rtc _ ?a ?b => assert (a = b) as -> by (vm_compute; reflexivity) end. apply rtc_refl.
Qed.

Lemma sample_tick : rtc (flow_step "https://pay") (mk_system 2000 settled_store ∅) (mk_system 3000 settled_store ∅).
Proof. eapply rtc_once, (step_tick "https://pay" (mk_system 2000 settled_store ∅) 3000). cbn. lia. Qed.

Lemma settled_card_frozen_witness : stored "card" settled_store = Some sample_settled.
Proof.
  apply (settled_card_frozen "https://pay" (mk_system 1000 inMemory ∅) (mk_system 2000 settled_store ∅) (mk_system 3000 settled_store ∅)
           "card" sample_settled (proj1 sample_run) (proj2 sample_run)); [vm_compute; reflexivity|vm_compute; reflexivity|exact sample_tick|].
  vm_compute. reflexivity.
Defined.

Lemma card_keeps_owner_witness :
  ∃ f', stored "card" settled_store = Some f' ∧ same_card sample_settled f'
    ∧ sample_settled.(PaymentFlowRecord.updatedAt) ≤ f'.(PaymentFlowRecord.updatedAt)
    ∧ Forall hidden (fields_of f'.(PaymentFlowRecord.view)).
Proof.
  apply (card_keeps_owner "https://pay" (mk_system 1000 inMemory ∅) (mk_system 2000 settled_store ∅) (mk_system 3000 settled_store ∅)
           "card" sample_settled (proj1 sample_run) (proj2 sample_run)); [vm_compute; reflexivity|exact sample_tick|].
  vm_compute. reflexivity.
Defined.
