(* ===== verification/McpTools.v ===== *)
(** * Arguments and results of the payment tools

    mcp-server/src/tools: common.ts, payment-input.ts, payment-request-references.ts
    and the requirements of check_payment_requirements.ts.  A tool's data is given
    as [jsonSafe] makes it: a big integer is its decimal text, bytes are hex.  What
    [formatToolPresentation] writes beside it is text for people and left out. *)
From Stdlib Require Import ZArith Lia Strings.Byte Strings.Ascii.
From stdpp Require Import base numbers sets strings list.
From S2P Require Import Prelude Bytes PublicKey Types Encoding Decimal Base64 CardConstants Utf8 CardCommitment Values Signed ReceiptReader MerchantProof.

(** ** Arguments *)

Definition requiredString (v : value) (name : string) : result string :=
  match v with
  | VString s => throw_if! bool_decide (trim s = "") with name +:+ " is required"; Ok (trim s)
  | _ => Throw (name +:+ " is required")
  end.

Definition unsignedInteger (v : value) (name : string) : result Z :=
  let! candidate := match v with VNumber _ => Ok (coerce v) | _ => requiredString v name end in
  throw_if! negb (all_digits candidate) with name +:+ " must be an unsigned integer string";
  throw_if! MAX_U64 <? BigInt candidate with name +:+ " must fit in an unsigned 64-bit integer";
  Ok (BigInt candidate).

Definition hex32 (v : value) (name : string) : result bytes :=
  let! candidate := requiredString v name in hexToBytes candidate name.

Definition tokenProgram (v : value) (name : string) : result TokenProgram :=
  let! candidate := requiredString v name in
  if bool_decide (candidate = "spl-token") then Ok spl_token
  else if bool_decide (candidate = "token-2022") then Ok token_2022
  else Throw (name +:+ " must be spl-token or token-2022").

Definition requireObject (v : value) : result (list (string * value)) :=
  match v with VObject fields => Ok fields | _ => Throw "Tool arguments must be an object" end.

(** What [parsePaymentInput] returns *)
Module ParsedPayment.
Record t : Type := mk { input : PaymentRequest.t; agent : Address }.
End ParsedPayment.

Section Arguments.
Context `{K : PublicKeys}.

Definition solanaAddress (v : value) (name : string) : result Address :=
  let! candidate := requiredString v name in address candidate.

Definition parsePaymentInput (args : list (string * value)) : result ParsedPayment.t :=
  throw_if! negb (undefined (field args "remainingAccounts"))
    with "remainingAccounts cannot be supplied by callers; ChainPay resolves compatible extension requirements from on-chain state";
  let! mandate := solanaAddress (field args "mandate") "mandate" in
  let! invoiceHash := hex32 (field args "invoiceHash") "invoiceHash" in
  let! paymentId := hex32 (field args "paymentId") "paymentId" in
  let! signatureReference := hex32 (field args "signatureReference") "signatureReference" in
  let! mint := solanaAddress (field args "mint") "mint" in
  let! recipient := solanaAddress (field args "recipient") "recipient" in
  let! amount := unsignedInteger (field args "amount") "amount" in
  let! program := if undefined (field args "tokenProgram") then Ok None
                  else let! p := tokenProgram (field args "tokenProgram") "tokenProgram" in Ok (Some p) in
  let! agent := solanaAddress (field args "agent") "agent" in
  Ok (ParsedPayment.mk (PaymentRequest.mk mandate invoiceHash paymentId signatureReference mint recipient amount program) agent).
End Arguments.

(** ** References *)

Module PaymentReferences.
Record t : Type := mk { paymentId : string; signatureReference : string }.
End PaymentReferences.

Definition derivePaymentReferences `{Sha256} (invoiceHash signature : string) : PaymentReferences.t :=
  PaymentReferences.mk (text_hash ("payment:" +:+ invoiceHash)) (text_hash ("merchant-signature:" +:+ signature)).

(** ** Objects *)

(** An object literal with spreads: a later field replaces an earlier one of its name, in its place. *)
Definition object_of (fields : list (string * value)) : list (string * value) :=
  foldl (λ acc f, set_field acc f.1 f.2) [] fields.

(** [...v] *)
Definition spread (v : value) : list (string * value) :=
  match v with
  | VObject fields => fields
  | VArray items => imap (λ i x, (toString (Z.of_nat i), x)) items
  | VString s => imap (λ i c, (toString (Z.of_nat i), VString (text [c]))) (chars s)
  | _ => []
  end.

Module ToolResult.
Record t : Type := mk { isError : bool; structuredContent : list (string * value) }.
End ToolResult.

Definition toolResult (data : list (string * value)) (isError : bool) : ToolResult.t :=
  ToolResult.mk isError (object_of data).

(** [base64FromUint8Array], over the bits as the source shifts them *)
Definition base64_digits (triple : Z) (shifts : list Z) : list ascii :=
  map (λ s, b64_char (Z.land (Z.shiftr triple s) 63)) shifts.

Fixpoint base64_from (bs : bytes) : list ascii :=
  match bs with
  | [] => []
  | [a] => base64_digits (Z.shiftl (byte_val a) 16) [18; 12] ++ ["="; "="]%char
  | [a; b] => base64_digits (Z.lor (Z.shiftl (byte_val a) 16) (Z.shiftl (byte_val b) 8)) [18; 12; 6] ++ ["="]%char
  | a :: b :: c :: bs =>
      base64_digits (Z.lor (Z.lor (Z.shiftl (byte_val a) 16) (Z.shiftl (byte_val b) 8)) (byte_val c)) [18; 12; 6; 0] ++ base64_from bs
  end.

Definition base64FromUint8Array (bs : bytes) : string := text (base64_from bs).

Definition meta_value (m : AccountMeta.t) : value :=
  VObject [("address", VString m.(AccountMeta.address)); ("isSigner", VBool m.(AccountMeta.isSigner));
           ("isWritable", VBool m.(AccountMeta.isWritable))].

Definition instruction_value (i : ChainPayInstruction.t) : value :=
  VObject [("name", VString i.(ChainPayInstruction.name)); ("programId", VString i.(ChainPayInstruction.programId));
           ("keys", VArray (map meta_value i.(ChainPayInstruction.keys)));
           ("dataBase64", VString (base64FromUint8Array i.(ChainPayInstruction.data)))].

Definition serializeTransaction (t : PreparedTransaction.t) : value :=
  VObject [("feePayer", optional_value t.(PreparedTransaction.feePayer));
           ("requiredSigners", VArray (map VString t.(PreparedTransaction.requiredSigners)));
           ("instructions", VArray (map instruction_value t.(PreparedTransaction.instructions)))].

(** ** Requirements *)

Inductive RequirementKey : Type := limits_key | token_key | recipient_key | expiry_key | policy_key.
Inductive RequirementStatus : Type := req_pass | req_fail | req_missing | req_pending.

#[export] Instance requirement_status_eq_dec : EqDecision RequirementStatus.
Proof. solve_decision. Defined.

Module RequirementCheck.
Record t : Type := mk { key : RequirementKey; status : RequirementStatus; detail : string }.
End RequirementCheck.

Module PaymentRequirements.
Record t : Type := mk { status : string; missing : list string; checks : list RequirementCheck.t }.
End PaymentRequirements.

(** [byName.get(name)]: of two checks with one name the later *)
Definition by_name (checks : list PolicyCheck.t) (name : string) : option PolicyCheck.t :=
  find (λ c, bool_decide (c.(PolicyCheck.name) = name)) (reverse checks).

Definition grouped (checks : list PolicyCheck.t) (key : RequirementKey) (names : list string) (pendingDetail : string) :
    RequirementCheck.t :=
  match omap (by_name checks) names with
  | [] => RequirementCheck.mk key req_pending pendingDetail
  | relevant =>
      let messages l := String.concat "; " (map PolicyCheck.message l) in
      match filter (λ c, c.(PolicyCheck.ok) = false) relevant with
      | [] => RequirementCheck.mk key req_pass (messages relevant)
      | bad => RequirementCheck.mk key req_fail (messages bad)
      end
  end.

Definition LIMIT_CHECKS : list string :=
  ["amount_positive"; "per_payment_limit"; "total_limit"; "payment_count_limit"; "cooldown"; "source_balance"; "delegated_amount";
   "batch_total_limit"; "batch_payment_count"; "batch_cooldown"; "batch_source_balance"; "batch_delegated_amount"].
Definition POLICY_CHECKS : list string :=
  ["mandate_status"; "approved_agent"; "source_owner"; "delegate_identity"; "invoice_hash"; "payment_id"; "signature_reference";
   "duplicate_invoice"].

Definition preflightChecks (preflight : PaymentPreflight.t) : list RequirementCheck.t :=
  let checks := preflight.(PaymentPreflight.checks) in
  [grouped checks limits_key LIMIT_CHECKS "Payment amount and mandate limits are waiting for a policy preflight.";
   grouped checks token_key ["mint"; "token_program"; "asset_registry"] "Provide the token mint and token program.";
   grouped checks recipient_key ["recipient"] "Provide the recipient token account from the invoice.";
   grouped checks expiry_key ["expiry"] "An active, unexpired mandate is required.";
   grouped checks policy_key POLICY_CHECKS "Provide an active mandate and a verified merchant request."].

Definition failing (checks : list RequirementCheck.t) : list string :=
  map RequirementCheck.detail (filter (λ c, c.(RequirementCheck.status) = req_fail) checks).

Definition requirementsFromPreflight (preflight : PaymentPreflight.t) : PaymentRequirements.t :=
  let checks := preflightChecks preflight in
  if preflight.(PaymentPreflight.valid) then PaymentRequirements.mk "ready" [] checks
  else PaymentRequirements.mk "blocked" (failing checks) checks.

(** As values *)
Definition policy_check_value (c : PolicyCheck.t) : value :=
  VObject [("name", VString c.(PolicyCheck.name)); ("ok", VBool c.(PolicyCheck.ok)); ("message", VString c.(PolicyCheck.message))].

Definition preflight_value (p : PaymentPreflight.t) : value :=
  VObject [("valid", VBool p.(PaymentPreflight.valid)); ("currentSlot", VString (toString p.(PaymentPreflight.currentSlot)));
           ("checks", VArray (map policy_check_value p.(PaymentPreflight.checks)))].

Definition key_name (k : RequirementKey) : string :=
  match k with limits_key => "limits" | token_key => "token" | recipient_key => "recipient" | expiry_key => "expiry" | policy_key => "policy" end.
Definition key_label (k : RequirementKey) : string :=
  match k with limits_key => "Limits" | token_key => "Token" | recipient_key => "Recipient" | expiry_key => "Expiry" | policy_key => "Policy" end.
Definition status_name (s : RequirementStatus) : string :=
  match s with req_pass => "pass" | req_fail => "fail" | req_missing => "missing" | req_pending => "pending" end.

Definition requirement_value (c : RequirementCheck.t) : value :=
  VObject [("key", VString (key_name c.(RequirementCheck.key))); ("label", VString (key_label c.(RequirementCheck.key)));
           ("status", VString (status_name c.(RequirementCheck.status))); ("detail", VString c.(RequirementCheck.detail))].

Definition requirements_value (r : PaymentRequirements.t) : value :=
  VObject [("status", VString r.(PaymentRequirements.status)); ("missing", VArray (map VString r.(PaymentRequirements.missing)));
           ("checks", VArray (map requirement_value r.(PaymentRequirements.checks)))].
