(* ===== verification/McpPay.v ===== *)
(** * Paying through the relay

    mcp-server/src/tools: execute_payment.ts, settlement-submit.ts, wait_for_payment.ts
    and verify by request.  The chain is read through [PaymentClient] and the relay
    is asked through [Relay]; a tool returns what it recorded and submitted, in
    order, with its result.  A merchant request is an argument of its declared
    type. *)
From Stdlib Require Import ZArith Lia Strings.Byte Strings.Ascii.
From stdpp Require Import base numbers sets strings list.
From S2P Require Import Prelude Bytes PublicKey Types Encoding Decimal Base64 CardConstants Utf8 CardCommitment Values Signed PaymentRequest ReceiptReader MerchantProof McpConnections McpFlows McpTools.

(** ** The context *)

Module PaymentContext.
Record t : Type := mk {
  wallet : option string;
  agentAddress : option string;
  backendUrl : option string;
  backendAuthToken : option string;
  flows : bool;
}.
End PaymentContext.

Definition context_wallet (c : PaymentContext.t) : option string := given_text c.(PaymentContext.wallet).
Definition flow_context (c : PaymentContext.t) : ChainPayMcpContext.t :=
  ChainPayMcpContext.mk c.(PaymentContext.wallet) c.(PaymentContext.flows).

(** What [client.preparePayment] returns *)
Module PreparedPayment.
Record t : Type := mk {
  receiptAddress : Address;
  preflight : PaymentPreflight.t;
  capabilityProfile : value;
  transaction : PreparedTransaction.t;
}.
End PreparedPayment.

Class PaymentClient : Type := {
  getCurrentSlot : result Z;
  client_prepare : PaymentRequest.t → Address → result PreparedPayment.t;
  (** [materializeUnsignedTransaction]: the wire form with a recent blockhash *)
  materialized : PreparedTransaction.t → result (string * value);
}.

(** ** The relay *)

Inductive TransportFailure : Type := failed_error (name message : string) | failed_other.

(** How a request to the relay ends: with a status and a body, [None] when it is not JSON, or without an answer *)
Inductive Fetch : Type := Answer (status : Z) (body : option value) | NoAnswer (cause : TransportFailure).

(** [response.ok] *)
Definition is_ok_status (status : Z) : bool := (200 <=? status) && (status <=? 299).

Module Submission.
Record t : Type := mk { endpoint : string; bearer : option string; body : list (string * value) }.
End Submission.

Class Relay : Type := post_settlement : Submission.t → Fetch.

(** What a tool does besides returning: calls of [recordFlow], which never throws, and requests to pay *)
Inductive Effect : Type :=
| Recorded (flowId : option string) (view : list (string * value)) (paymentId : string)
| Submitted (s : Submission.t).

(** ** settlement-submit.ts *)

Definition SUBMIT_TIMEOUT_MS : Z := 90000.

Definition describeTransportFailure (cause : TransportFailure) : string :=
  match cause with
  | failed_error name message =>
      if bool_decide (name = "TimeoutError") then "timed out after " +:+ toString (SUBMIT_TIMEOUT_MS / 1000) +:+ "s"
      else if bool_decide (message = "") then name else name +:+ ": " +:+ message
  | failed_other => "unknown transport failure"
  end.

Definition relayPaymentId `{Sha256} (wallet idempotencyKey : string) : string :=
  "payment_" +:+ text_hash (wallet +:+ ":" +:+ idempotencyKey).

Definition RELAY_REJECTED_BEFORE_BROADCAST : list Z := [400; 401; 403; 404; 422].
Definition relayRejectedBeforeBroadcast (status : Z) : bool := bool_decide (status ∈ RELAY_REJECTED_BEFORE_BROADCAST).

Definition continuation (paymentId : string) : value :=
  VObject [("tool", VString "wait_for_payment"); ("arguments", VObject [("paymentId", VString paymentId)])].

(** One request for the payment's state: its answer, the clock then and after the sleep *)
Module Poll.
Record t : Type := mk { reply : Fetch; answered : Z; woken : Z }.
End Poll.

(** [x === undefined ? d : x] *)
Definition coalesce_undefined (x d : value) : value := if undefined x then d else x.

(** The two ways to pay through the relay differ in their names. *)
Module PayNames.
Record t : Type := mk { path : string; rejected : string; failure : string; success : string; fields : list (string * value) }.
End PayNames.

Definition managed_names : PayNames.t :=
  PayNames.mk "/v1/managed-payments" "managed_backend_rejected" "managed_payment_failed" "managed_payment_settled"
    [("signingMode", VString "delegated")].
Definition relay_names : PayNames.t := PayNames.mk "/v1/payments" "backend_rejected" "payment_failed" "backend_relayed" [].

(** A tool: its effects in order, and what it returns or throws *)
Definition Tool (A : Type) : Type := list Effect * result A.

Definition done {A} (a : A) : Tool A := ([], Ok a).
Definition tool_lift {A} (r : result A) : Tool A := ([], r).
Definition perform (e : Effect) : Tool unit := ([e], Ok tt).

Definition tool_bind {A B} (t : Tool A) (k : A → Tool B) : Tool B :=
  match t with
  | (l, Ok a) => let '(l', r) := k a in (l ++ l', r)
  | (l, Throw e) => (l, Throw e)
  end.

Declare Scope tool_scope.
Notation "'let^' x ':=' r 'in' k" := (tool_bind r (λ x, k))
  (at level 10, x pattern, r at level 100, k at level 200) : tool_scope.
Notation "'do^' r ';' k" := (tool_bind r (λ _ : unit, k))
  (at level 10, r at level 100, k at level 200) : tool_scope.
Notation "'throw_if^' b 'with' m ';' k" := (if b then tool_lift (Throw m) else k)
  (at level 10, b at level 100, m at level 100, k at level 200) : tool_scope.
Open Scope tool_scope.

Section Pay.
Context `{K : PublicKeys, ED : Ed25519, HS : Sha256, C : Codec, PC : PaymentClient, R : Relay}.

(** The answer, or one made up when none came *)
Definition submitSettlement (c : PaymentContext.t) (s : Submission.t) : result (Z * value) :=
  match post_settlement s with
  | Answer status body => Ok (status, default (VObject []) body)
  | NoAnswer cause =>
      let transport := describeTransportFailure cause in
      match context_wallet c with
      | None => Throw ("Submission outcome is unknown (" +:+ transport +:+ "); the authenticated owner must reconcile the original idempotency key")
      | Some wallet =>
          let paymentId := relayPaymentId wallet (as_string (field s.(Submission.body) "idempotency_key")) in
          Ok (200, VObject [("action", VString "payment_outcome_unknown"); ("status", VString "unknown");
            ("payment_id", VString paymentId); ("transport_error", VString transport);
            ("error", VString ("No response from the relay (" +:+ transport +:+ "), so this payment may have settled or may never have been sent. Check its status: if the relay has no record of it the request never started and can be cancelled, and if it does, recover it with the original signed bytes. Do not approve a replacement."));
            ("continuation", continuation paymentId)])
      end
  end.

Definition relayOutcomeUnknown (c : PaymentContext.t) (idempotencyKey : string) (httpStatus : Z) (relayPayload : value) :
    list (string * value) :=
  let paymentId := (λ wallet, relayPaymentId wallet idempotencyKey) <$> context_wallet c in
  [("status", VString "unknown")]
  ++ match paymentId with Some id => [("payment_id", VString id)] | None => [("idempotency_key", VString idempotencyKey)] end
  ++ [("httpStatus", VNumber (JInt httpStatus))]
  ++ match get relayPayload "error" with VString e => [("relayError", VString e)] | _ => [] end
  ++ match paymentId with Some id => [("continuation", continuation id)] | None => [] end
  ++ [("message", VString ("The relay answered HTTP " +:+ toString httpStatus +:+ ", so this payment may already have been sent. "
        +:+ (match paymentId with Some _ => "Check it with this paymentId. "
             | None => "The authenticated owner must reconcile the original idempotency key. " end)
        +:+ "Do not retry, sign, or approve a replacement."))].

(** ** execute_payment.ts *)

Definition relayAnswerUnknown (c : PaymentContext.t) (idempotencyKey : string) (httpStatus : Z) (payload : value) (receiptAddress : Address) :
    ToolResult.t :=
  toolResult ([("action", VString "payment_pending")] ++ relayOutcomeUnknown c idempotencyKey httpStatus payload
              ++ [("receiptAddress", VString receiptAddress)]) false.

Definition duplicateInvoice (payload : value) (receiptAddress : Address) : ToolResult.t :=
  toolResult [("action", VString "duplicate_invoice"); ("code", VString "DuplicateInvoice");
    ("message", match get payload "error" with VString e => VString e | _ => VString "This invoice was already paid. Nothing new was submitted." end);
    ("receiptAddress", VString receiptAddress)] true.

Definition KEEP : string :=
  "Keep payment_id and signature. Use wait_for_payment to reconcile this operation; do not sign or submit a replacement.".

(** What an answer of the relay comes to *)
Definition relay_answered (c : PaymentContext.t) (names : PayNames.t) (idempotencyKey : string) (plan : PreparedPayment.t)
    (status : Z) (payload : value) : result ToolResult.t :=
  let receiptAddress := plan.(PreparedPayment.receiptAddress) in
  throw_if! nullish payload with "Cannot read properties of null (reading 'code')";
  Ok (
    if strict_eq (get payload "code") (VString "DuplicateInvoice") then duplicateInvoice payload receiptAddress
    else if negb (is_ok_status status) then
      if relayRejectedBeforeBroadcast status then
        toolResult ([("action", VString names.(PayNames.rejected)); ("httpStatus", VNumber (JInt status))] ++ spread payload) true
      else relayAnswerUnknown c idempotencyKey status payload receiptAddress
    else if strict_eq (get payload "status") (VString "confirmed")
            && match get payload "signature" with VString _ => true | _ => false end then
      toolResult ([("action", VString names.(PayNames.success))] ++ names.(PayNames.fields) ++ spread payload
        ++ [("receiptAddress", VString receiptAddress); ("preflight", preflight_value plan.(PreparedPayment.preflight));
            ("capabilityProfile", plan.(PreparedPayment.capabilityProfile));
            ("requirements", requirements_value (requirementsFromPreflight plan.(PreparedPayment.preflight)))]) false
    else
      let declined := strict_eq (get payload "status") (VString "failed") in
      toolResult ([("action", VString (if declined then names.(PayNames.failure) else "payment_pending"))] ++ spread payload
        ++ [("receiptAddress", VString receiptAddress); ("message", VString KEEP)]) declined).

(** The request body: the payment and the transaction's bytes under [name] *)
Definition settlement_body (parsed : ParsedPayment.t) (idempotencyKey : string) (plan : PreparedPayment.t) (name bytes64 : string)
    (request : option SignedPaymentRequest.t) : list (string * value) :=
  let input := parsed.(ParsedPayment.input) in
  [("idempotency_key", VString idempotencyKey); ("mandate", VString input.(PaymentRequest.mandate));
   ("invoice_hash", VString (bytesToHex input.(PaymentRequest.invoiceHash)));
   ("receipt_address", VString plan.(PreparedPayment.receiptAddress)); (name, VString bytes64);
   ("agent", VString parsed.(ParsedPayment.agent)); ("mint", VString input.(PaymentRequest.mint));
   ("recipient", VString input.(PaymentRequest.recipient)); ("amount", VString (toString input.(PaymentRequest.amount)));
   ("token_program", optional_value (program_name <$> input.(PaymentRequest.tokenProgram)))]
  ++ match request with
     | Some r => [("payment_request", VObject [("payload", payload_value r.(SignedPaymentRequest.payload));
                                               ("signature", VString r.(SignedPaymentRequest.signature))])]
     | None => []
     end.

Definition settle_through (c : PaymentContext.t) (names : PayNames.t) (url : string) (idempotencyKey : string)
    (plan : PreparedPayment.t) (body : list (string * value)) : Tool ToolResult.t :=
  let s := Submission.mk (without_slash url +:+ names.(PayNames.path)) (given_text c.(PaymentContext.backendAuthToken)) body in
  do^ perform (Submitted s);
  let^ (status, payload) := tool_lift (submitSettlement c s) in
  tool_lift (relay_answered c names idempotencyKey plan status payload).

(** The payment's facts, that most results carry *)
Definition prepared_fields (plan : PreparedPayment.t) : list (string * value) :=
  [("receiptAddress", VString plan.(PreparedPayment.receiptAddress)); ("preflight", preflight_value plan.(PreparedPayment.preflight));
   ("capabilityProfile", plan.(PreparedPayment.capabilityProfile));
   ("requirements", requirements_value (requirementsFromPreflight plan.(PreparedPayment.preflight)))].

Definition payDelegated (c : PaymentContext.t) (parsed : ParsedPayment.t) (idempotencyKey : string) (plan : PreparedPayment.t)
    (signedTransaction : option string) (request : option SignedPaymentRequest.t) : Tool ToolResult.t :=
  let receiptAddress := ("receiptAddress", VString plan.(PreparedPayment.receiptAddress)) in
  match given_text signedTransaction with
  | Some _ => done (toolResult [("action", VString "delegated_signature_rejected");
      ("message", VString "Delegated mode accepts only an unsigned ChainPay transaction; Axum obtains the provider signature after validation.");
      receiptAddress] true)
  | None =>
      match given_text c.(PaymentContext.backendUrl), given_text c.(PaymentContext.backendAuthToken) with
      | Some url, Some _ =>
          let^ (unsigned, _) := tool_lift (materialized plan.(PreparedPayment.transaction)) in
          settle_through c managed_names url idempotencyKey plan
            (settlement_body parsed idempotencyKey plan "unsigned_transaction" unsigned request)
      | _, _ => done (toolResult [("action", VString "managed_backend_required");
          ("message", VString "Delegated mode requires CHAINPAY_BACKEND_URL and a verified caller session or scoped connection.");
          receiptAddress] true)
      end
  end.

Definition paySigned (c : PaymentContext.t) (parsed : ParsedPayment.t) (idempotencyKey : string) (plan : PreparedPayment.t)
    (signedTransaction : string) (request : option SignedPaymentRequest.t) : Tool ToolResult.t :=
  match given_text c.(PaymentContext.backendUrl) with
  | None => done (toolResult ([("action", VString "backend_required");
      ("message", VString "CHAINPAY_BACKEND_URL must be configured to relay a signed transaction.")] ++ prepared_fields plan
      ++ [("transaction", serializeTransaction plan.(PreparedPayment.transaction))]) true)
  | Some url =>
      settle_through c relay_names url idempotencyKey plan
        (settlement_body parsed idempotencyKey plan "signed_transaction" signedTransaction request)
  end.

Definition askSignature (plan : PreparedPayment.t) : Tool ToolResult.t :=
  let^ (_, unsigned) := tool_lift (materialized plan.(PreparedPayment.transaction)) in
  done (toolResult ([("action", VString "agent_signature_required"); ("signingMode", VString "human");
    ("message", VString "Sign this transaction in the browser wallet or external agent runtime, then call execute_payment again with signedTransaction.")]
    ++ prepared_fields plan
    ++ [("transaction", serializeTransaction plan.(PreparedPayment.transaction)); ("unsignedTransaction", unsigned)]) false).

Definition pay_as (c : PaymentContext.t) (parsed : ParsedPayment.t) (delegated : bool) (signedTransaction : option string)
    (idempotencyKey : string) (plan : PreparedPayment.t) (request : option SignedPaymentRequest.t) : Tool ToolResult.t :=
  if delegated then payDelegated c parsed idempotencyKey plan signedTransaction request
  else match given_text signedTransaction with
       | Some signed => paySigned c parsed idempotencyKey plan signed request
       | None => askSignature plan
       end.

(** The merchant's request against the payment: the request, or why it is refused *)
Definition checkedPaymentRequest (request : SignedPaymentRequest.t) (payment : PaymentRequest.t) : result (SignedPaymentRequest.t + string) :=
  let! currentSlot := getCurrentSlot in
  let! verification := verifyPaymentRequest request (Some currentSlot) in
  Ok (
    if negb verification.(PaymentRequestVerification.valid) then
      inr (default "The merchant request did not verify." verification.(PaymentRequestVerification.reason))
    else if negb (bool_decide (bytesToHex verification.(PaymentRequestVerification.invoiceHash)
                               = bytesToHex payment.(PaymentRequest.invoiceHash))) then
      inr "The merchant request does not hash to this invoiceHash."
    else
      let payload := verification.(PaymentRequestVerification.payload) in
      if negb (bool_decide (payload.(PaymentRequestPayload.mint) = payment.(PaymentRequest.mint)))
         || negb (bool_decide (payload.(PaymentRequestPayload.recipient) = payment.(PaymentRequest.recipient)))
         || negb (bool_decide (payload.(PaymentRequestPayload.amount) = toString payment.(PaymentRequest.amount))) then
        inr "The merchant request names a different mint, recipient, or amount than this payment."
      else inl (SignedPaymentRequest.mk payload request.(SignedPaymentRequest.signature))).

(** The payment cards, and the demo merchant's address unless its key is invalid *)
Context {S : Type} `{FS : PaymentFlowStore S} (demo_merchant : option Address).

Definition DEMO_MERCHANT_NAME : string := "Halden Data Co.".
Definition last_chars (n : nat) (s : string) : string := text (drop (String.length s - n) (chars s)).

(** A name that is only known for the demo merchant.  The ellipsis is one character. *)
Definition merchantDisplayName (merchant : string) : string :=
  if bool_decide (demo_merchant = Some merchant) then DEMO_MERCHANT_NAME
  else "Merchant " +:+ text (take 4 (chars merchant)) +:+ "…" +:+ last_chars 4 merchant.

Definition first_label (lineItems : value) : value :=
  match lineItems with VArray (item :: _) => get item "label" | _ => VUndefined end.

Definition paying_view (request : SignedPaymentRequest.t) : list (string * value) :=
  let p := request.(SignedPaymentRequest.payload) in
  [("state", VString "paying"); ("currentStep", VNumber (JInt 0)); ("merchant", VString (merchantDisplayName p.(PaymentRequestPayload.merchant)));
   ("product", coalesce p.(PaymentRequestPayload.description) (first_label p.(PaymentRequestPayload.lineItems)))].

(** Once the payment is prepared and, if it came with one, its request is verified *)
Definition payPrepared (c : PaymentContext.t) (parsed : ParsedPayment.t) (delegated : bool) (signedTransaction : option string)
    (record : list (string * value) → Tool unit) (plan : PreparedPayment.t) (request : option SignedPaymentRequest.t) :
    Tool ToolResult.t :=
  let input := parsed.(ParsedPayment.input) in
  let idempotencyKey := input.(PaymentRequest.mandate) +:+ ":" +:+ bytesToHex input.(PaymentRequest.invoiceHash) in
  if negb plan.(PreparedPayment.preflight).(PaymentPreflight.valid) then
    done (toolResult ([("action", VString "rejected_by_preflight")] ++ prepared_fields plan
      ++ [("transaction", serializeTransaction plan.(PreparedPayment.transaction))]) true)
  else
    do^ record [("state", VString "paying"); ("currentStep", VNumber (JInt 2))];
    match given_text c.(PaymentContext.agentAddress) with
    | Some agent =>
        if negb delegated && negb (bool_decide (parsed.(ParsedPayment.agent) = agent)) then
          done (toolResult ([("action", VString "agent_identity_mismatch");
            ("message", VString "The requested agent does not match the configured approved-agent public identity.");
            ("configuredAgent", VString agent); ("requestedAgent", VString parsed.(ParsedPayment.agent))] ++ prepared_fields plan) true)
        else pay_as c parsed delegated signedTransaction idempotencyKey plan request
    | None => pay_as c parsed delegated signedTransaction idempotencyKey plan request
    end.

Definition executePayment (c : PaymentContext.t) (args : value) (request : option SignedPaymentRequest.t) (now : Z) (s : S) :
    Tool ToolResult.t :=
  let^ input := tool_lift (requireObject args) in
  let mode := coalesce_undefined (field input "signingMode") (VString "human") in
  throw_if^ negb (strict_eq mode (VString "human")) && negb (strict_eq mode (VString "delegated"))
    with "signingMode must be human or delegated";
  let delegated := strict_eq mode (VString "delegated") in
  let^ parsed := tool_lift (parsePaymentInput input) in
  let flow := field input "flowId" in
  throw_if^ negb (undefined flow) && negb (isFlowId flow) with "flowId is not a ChainPay payment card id";
  let flowId := as_optional flow in
  let payment := parsed.(ParsedPayment.input) in
  let flowPaymentId := relayPaymentId (default "" c.(PaymentContext.wallet))
                         (payment.(PaymentRequest.mandate) +:+ ":" +:+ bytesToHex payment.(PaymentRequest.invoiceHash)) in
  let record view := perform (Recorded flowId view flowPaymentId) in
  do^ match flowId with Some id => tool_lift (assertFlowOwner (flow_context c) id flowPaymentId now s) | None => done tt end;
  throw_if^ match flowId, request with Some _, None => true | _, _ => false end
    with "A live payment card requires its merchant-signed request";
  let signedTransaction := match field input "signedTransaction" with VString s => Some (trim s) | _ => None end in
  let pay (request : option SignedPaymentRequest.t) :=
    let^ plan := tool_lift (client_prepare payment parsed.(ParsedPayment.agent)) in
    payPrepared c parsed delegated signedTransaction record plan request in
  match request with
  | None => pay None
  | Some request =>
      let^ checked := tool_lift (checkedPaymentRequest request payment) in
      match checked with
      | inr message => done (toolResult [("action", VString "payment_request_mismatch"); ("message", VString message)] true)
      | inl request => do^ record (paying_view request); pay (Some request)
      end
  end.

(** ** wait_for_payment.ts *)

Definition TERMINAL_STATUSES : list string := ["confirmed"; "failed"].
Definition UNAVAILABLE : string :=
  "Status service is unavailable. Keep this operation and signature; retry wait_for_payment without a new approval.".
Definition UNRESOLVED : string :=
  "Settlement is unresolved. Keep this operation and signature; retry wait_for_payment without a new approval.".

(** The wait between two requests, the clock having read [now] twice *)
Definition sleep_time (pollMs deadline now : Z) : Z := Z.min pollMs (Z.max 0 (deadline - now)).

(** [None]: none of these requests is the last. *)
Fixpoint poll_loop (paymentId : string) (timeoutMs deadline : Z) (latest : value) (polls : list Poll.t) : option (result ToolResult.t) :=
  match polls with
  | [] => None
  | p :: polls =>
      let continue (latest : value) :=
        if (deadline <=? p.(Poll.answered)) || negb (p.(Poll.woken) <=? deadline) then
          Some (Ok (toolResult [("action", VString "payment_pending"); ("paymentId", VString paymentId); ("payment", latest);
            ("timeoutMs", VNumber (JInt timeoutMs)); ("message", VString UNRESOLVED)] false))
        else poll_loop paymentId timeoutMs deadline latest polls in
      match p.(Poll.reply) with
      | NoAnswer _ => Some (Ok (toolResult [("action", VString "payment_pending"); ("paymentId", VString paymentId);
          ("payment", latest); ("message", VString UNAVAILABLE)] false))
      | Answer status body =>
          if is_ok_status status then
            match body with
            | None => Some (Throw "The body is not JSON")
            | Some latest =>
                if nullish latest then Some (Throw "Cannot read properties of null (reading 'status')")
                else if bool_decide (coerce (get latest "status") ∈ TERMINAL_STATUSES) then
                  Some (Ok (toolResult ([("action", VString "payment_terminal")] ++ spread latest)
                              (strict_eq (get latest "status") (VString "failed"))))
                else continue latest
            end
          else if negb (status =? 404) then
            Some (Ok (toolResult ([("action", VString "backend_rejected")] ++ spread (default (VObject []) body)) true))
          else continue latest
      end
  end.

Definition statusEndpoint (url paymentId : string) : string := without_slash url +:+ "/v1/payments/" +:+ encodeURIComponent paymentId.

(** The checked arguments: the id, the timeout and the time between requests *)
Definition wait_arguments (c : PaymentContext.t) (args : list (string * value)) (now : Z) (s : S) : result (string * Z * Z) :=
  let! paymentId := requiredString (field args "paymentId") "paymentId" in
  let flow := field args "flowId" in
  throw_if! negb (undefined flow) && negb (isFlowId flow) with "flowId is not a ChainPay payment card id";
  let! _ := match flow with VString id => assertFlowOwner (flow_context c) id paymentId now s | _ => Ok tt end in
  let! timeoutMs := if undefined (field args "timeoutMs") then Ok 30000 else unsignedInteger (field args "timeoutMs") "timeoutMs" in
  let! pollMs := if undefined (field args "pollMs") then Ok 500 else unsignedInteger (field args "pollMs") "pollMs" in
  throw_if! 120000 <? timeoutMs with "timeoutMs must be between 0 and 120000";
  throw_if! (pollMs <? 50) || (10000 <? pollMs) with "pollMs must be between 50 and 10000";
  Ok (paymentId, timeoutMs, pollMs).

Definition waitForPayment (c : PaymentContext.t) (args : list (string * value)) (now started : Z) (s : S) (polls : list Poll.t) :
    option (result ToolResult.t) :=
  match given_text c.(PaymentContext.backendUrl) with
  | None => Some (Ok (toolResult [("action", VString "backend_required");
      ("message", VString "CHAINPAY_BACKEND_URL must be configured to wait for backend payment status.")] true))
  | Some _ =>
      match wait_arguments c args now s with
      | Throw e => Some (Throw e)
      | Ok (paymentId, timeoutMs, _) => poll_loop paymentId timeoutMs (started + timeoutMs) VUndefined polls
      end
  end.
End Pay.
