(* ===== verification/McpWidget.v ===== *)
(** * What a payment's result is shown as

    mcp-server/src: outcome.ts, the kind of outcome a tool result is, and
    widget/view.ts, the card drawn of it, with tools/token-amount.ts and
    sdk/src/known-assets.ts.  A result is a value; a field left out is undefined.
    The ellipsis of a shortened address is one character. *)
From Stdlib Require Import ZArith Lia Strings.Byte Strings.Ascii.
From stdpp Require Import base numbers sets strings list.
From S2P Require Import Prelude PublicKey Types Utf8 Payment Decimal CardConstants CardMath CardPda Records Values Signed PaymentRequest MerchantProof McpTools McpFlows McpPay.

(** ** outcome.ts *)

Inductive OutcomeKind : Type :=
| mandate_approval_required | token_account_approval_required | payment_approval_required | payment_settled
| payment_blocked | details_required | payment_pending.

Module NormalizedOutcome.
Record t : Type := mk {
  kind : OutcomeKind;
  receiptAddress : option string;
  signature : option string;
  status : option string;
  paymentId : option string;
  resourceStatus : option string;
  receiptUrl : option string;
}.
End NormalizedOutcome.

Definition BLOCKED_ACTIONS : list string :=
  ["rejected_by_preflight"; "x402_rejected_by_preflight"; "managed_payment_failed"; "managed_backend_rejected"; "payment_failed";
   "x402_payment_failed"; "requirements_blocked"; "payment_request_blocked"; "payment_request_rejected"; "backend_rejected";
   "backend_not_finalized"; "backend_required"; "agent_identity_mismatch"; "x402_settled_resource_rejected"; "x402_resource_rejected";
   "delegated_signature_rejected"].
Definition SETTLED_ACTIONS : list string :=
  ["managed_payment_settled"; "backend_relayed"; "payment_confirmed"; "x402_verified"; "crossmint_settled"].
Definition PENDING_ACTIONS : list string := ["payment_pending"; "x402_payment_pending"; "crossmint_payment_pending"].

(** The text of a value, unless it is blank: [text] of view.ts, and what [pickString] picks *)
Definition text_of (v : value) : option string :=
  match v with VString s => if bool_decide (trim s = "") then None else Some (trim s) | _ => None end.

Fixpoint pickString (values : list value) : option string :=
  match values with
  | [] => None
  | v :: values => match text_of v with Some s => Some s | None => pickString values end
  end.

(** [nestedRecord] and [record]: an object that is not an array *)
Definition record_of (v : value) : option (list (string * value)) := match v with VObject fields => Some fields | _ => None end.

(** [o?.name] *)
Definition nested (o : option (list (string * value))) (name : string) : value :=
  match o with Some fields => field fields name | None => VUndefined end.

(** [app_url] is the environment's [CHAINPAY_APP_URL]. *)
Definition receiptUrlForAddress (app_url receiptAddress : option string) : option string :=
  a ← given_text receiptAddress; u ← given_text ((λ u, without_slash (trim u)) <$> app_url);
  Some (u +:+ "/verify/" +:+ encodeURIComponent a).

(** What every outcome says *)
Definition outcome_base (app_url : option string) (data : list (string * value)) (kind : OutcomeKind) : NormalizedOutcome.t :=
  let payment := record_of (field data "payment") in
  let settlement := record_of (field data "settlement") in
  let receiptAddress := pickString [field data "receiptAddress"; field data "receipt_address"; nested payment "receipt_address";
                                    nested settlement "receipt_address"] in
  NormalizedOutcome.mk kind receiptAddress
    (pickString [field data "signature"; nested payment "signature"; nested settlement "signature"])
    (pickString [field data "status"; nested payment "status"; nested settlement "status"])
    (pickString [field data "paymentId"; field data "payment_id"; nested payment "payment_id"; nested settlement "payment_id"])
    (pickString [field data "resourceStatus"; field data "resource_status";
                 if undefined (field data "httpStatus") then VUndefined else VString (coerce (field data "httpStatus"))])
    (receiptUrlForAddress app_url receiptAddress).

(** [{...base, status: status ?? d}] *)
Definition status_or (o : NormalizedOutcome.t) (d : string) : NormalizedOutcome.t :=
  NormalizedOutcome.mk o.(NormalizedOutcome.kind) o.(NormalizedOutcome.receiptAddress) o.(NormalizedOutcome.signature)
    (Some (default d o.(NormalizedOutcome.status))) o.(NormalizedOutcome.paymentId) o.(NormalizedOutcome.resourceStatus)
    o.(NormalizedOutcome.receiptUrl).

Definition is_some {A} (x : option A) : bool := match x with Some _ => true | None => false end.

Definition normalize_data (app_url : option string) (isError : bool) (data : list (string * value)) : option NormalizedOutcome.t :=
  let action := match field data "action" with VString a => a | _ => "" end in
  let base := outcome_base app_url data in
  let o := base payment_settled in
  let status := o.(NormalizedOutcome.status) in
  let proven := bool_decide (status = Some "confirmed") && is_some o.(NormalizedOutcome.signature)
                && is_some o.(NormalizedOutcome.receiptAddress) in
  if bool_decide (action = "owner_wallet_signature_required") then Some (base mandate_approval_required)
  else if bool_decide (action = "token_account_signature_required") then Some (base token_account_approval_required)
  else if bool_decide (action ∈ ["agent_signature_required"; "x402_agent_signature_required"; "crossmint_agent_signature_required"]) then
    if isError then Some (status_or (base payment_blocked) "blocked") else Some (base payment_approval_required)
  else if bool_decide (action = "details_required") || bool_decide (status = Some "needs_details") then Some (base details_required)
  else if isError || bool_decide (status = Some "failed") || bool_decide (action ∈ BLOCKED_ACTIONS) then Some (base payment_blocked)
  else if bool_decide (action ∈ PENDING_ACTIONS) then Some (status_or (base payment_pending) "pending")
  else if bool_decide (action = "payment_terminal") then
    if proven then Some o
    else if bool_decide (status = Some "failed") then Some (base payment_blocked)
    else Some (status_or (base payment_pending) "pending")
  else if bool_decide (action ∈ SETTLED_ACTIONS)
          || (bool_decide (action ∈ ["backend_relayed"; "payment_confirmed"]) && proven) then
    if proven then Some o else None
  else if bool_decide (action = "managed_payment_settled") && is_some o.(NormalizedOutcome.signature)
          && is_some o.(NormalizedOutcome.receiptAddress) then Some (status_or o "confirmed")
  else None.

Definition normalizeToolOutcome (app_url : option string) (tool_result : value) : option NormalizedOutcome.t :=
  match get tool_result "structuredContent" with
  | VObject data => normalize_data app_url (strict_eq (get tool_result "isError") (VBool true)) data
  | _ => None
  end.

(** A tool's result as a value: [isError] is left undefined when it is false. *)
Definition as_result (r : ToolResult.t) : value :=
  VObject [("isError", if r.(ToolResult.isError) then VBool true else VUndefined);
           ("structuredContent", VObject r.(ToolResult.structuredContent))].

(** ** known-assets.ts *)

Module KnownAsset.
Record t : Type := mk { label : string; order : Z; mints : list string }.
End KnownAsset.

Definition KNOWN_ASSETS : list KnownAsset.t :=
  [KnownAsset.mk "USDC" 0 ["4zMMC9srt5Ri5X14GAgXhaHii3GnPAEERYPJgZJDncDU"; "EPjFWdd5AufqSSqeM2qN1xzybapC8G4wEGGkZwyTDt1v"];
   KnownAsset.mk "PYUSD" 1 ["CXk2AMBfi3TwaEL2468s6zP8xq9NxTXjp9gjMgzeUynM"; "2b1kV6DkPAnxd5ixfnxCpjxmKwqjjaYmCZfHsFu24GXo"];
   KnownAsset.mk "EURC" 2 ["HzwqbKZw8HxMN6bF2yFZNrht3c2iXXzpKcFu7uBEDKtr"];
   KnownAsset.mk "USDG" 3 ["4F6PM96JJxngmHnZLBh9n58RH4aTVNWvDs2nuwrT5BP7"]].

(** [byMint.get(mint)] *)
Definition knownAsset (mint : string) : option KnownAsset.t :=
  find (λ a, bool_decide (mint ∈ a.(KnownAsset.mints))) KNOWN_ASSETS.

Definition assetOrder (mint : string) : Z :=
  match knownAsset mint with Some a => a.(KnownAsset.order) | None => Z.of_nat (length KNOWN_ASSETS) end.

Definition assetLabel (mint fallback : string) : string :=
  match knownAsset mint with Some a => a.(KnownAsset.label) | None => fallback end.

(** ** token-amount.ts *)

Definition tokenLabel (mint : Address) : string := assetLabel mint "tokens".

(** [decimals] is a byte of the mint. *)
Definition formatTokenAmount (v decimals : Z) : string :=
  if decimals =? 0 then toString v
  else
    let scale := 10 ^ decimals in
    let whole := Z.quot v scale in
    let fraction := Z.rem v scale in
    if fraction =? 0 then toString whole
    else toString whole +:+ "." +:+ text (strip_trailing_zeros (padStart (Z.to_nat decimals) (chars (toString fraction)))).

(** ** widget/view.ts *)

Inductive PaymentWidgetState : Type := w_ready | w_paying | w_confirming | w_settled | w_blocked | w_signature | w_unknown.
Inductive ReasonKind : Type := r_limits | r_signature | r_expired | r_paid | r_recipient | r_permission | r_funds | r_other.

#[export] Instance PaymentWidgetState_eq_dec : EqDecision PaymentWidgetState.
Proof. solve_decision. Defined.

Module WidgetLimits.
Record t : Type := mk {
  requested : option string;
  cap : option string;
  remaining : option string;
  after : option string;
  withinLimits : option bool;
}.
End WidgetLimits.

(** [flowId] and [flowUrl] are put in later. *)
Module PaymentWidgetView.
Record t : Type := mk {
  state : PaymentWidgetState;
  amount : option string;
  symbol : option string;
  decimals : option Z;
  merchant : option string;
  product : option string;
  cluster : string;
  recipient : option string;
  recipientShort : option string;
  checks : option (list string);
  limits : option WidgetLimits.t;
  currentStep : option Z;
  paymentId : option string;
  mandate : option string;
  signature : option string;
  txShort : option string;
  receipt : option string;
  receiptShort : option string;
  receiptUrl : option string;
  explorerUrl : option string;
  reason : option (string * ReasonKind);
  rejectedBeforeBroadcast : bool;
}.
End PaymentWidgetView.

Definition WIDGET_TOOLS : list string := ["quote_payment_request"; "execute_payment"; "wait_for_payment"].

(** Results that say this call submitted no new payment *)
Definition REJECTED_BEFORE_BROADCAST : list string :=
  ["payment_request_rejected"; "payment_request_blocked"; "payment_request_mismatch"; "rejected_by_preflight"; "duplicate_invoice";
   "backend_rejected"; "managed_backend_rejected"; "agent_identity_mismatch"; "delegated_signature_rejected"; "backend_required";
   "managed_backend_required"].

Definition LABEL_SIGNATURE : string := "Merchant signature verified".
Definition LABEL_UNUSED : string := "Payment request has not been used".
Definition LABEL_ACTIVE : string := "Permission is active".
Definition LABEL_TOKEN : string := "Token matches permission".
Definition LABEL_RECIPIENT : string := "Recipient verified".
Definition LABEL_UNEXPIRED : string := "Request has not expired".

Definition shortAddress (s : string) : string :=
  if (String.length s <? 12)%nat then s else text (take 4 (chars s)) +:+ "…" +:+ last_chars 4 s.

Definition explorerUrl (signature cluster : string) : string :=
  "https://explorer.solana.com/tx/" +:+ encodeURIComponent signature
  +:+ (if bool_decide (cluster = "mainnet-beta") then "" else "?cluster=" +:+ cluster).

Definition upper (c : ascii) : ascii :=
  let n := N_of_ascii c in if ((97 <=? n) && (n <=? 122))%N then ascii_of_N (n - 32) else c.

Definition clusterLabel (cluster : string) : string :=
  if bool_decide (cluster = "mainnet-beta") then "Solana"
  else "Solana " +:+ match chars cluster with [] => "" | c :: cs => text (upper c :: cs) end.

(** A check whose name is text and whose verdict is a boolean.  Its message is text. *)
Definition check_of (item : value) : option PolicyCheck.t :=
  match get item "name", get item "ok" with
  | VString name, VBool ok => Some (PolicyCheck.mk name ok (as_string (get item "message")))
  | _, _ => None
  end.

(** Of the first nested preflight that has checks *)
Definition shown_checks (data : list (string * value)) : list PolicyCheck.t :=
  let candidates := [field data "preflight"; nested (record_of (field data "quote")) "preflight";
                     nested (record_of (field data "check")) "preflight"] in
  let lists := omap (λ p, match nested (record_of p) "checks" with VArray items => Some items | _ => None end) candidates in
  match lists with items :: _ => omap check_of items | [] => [] end.

Definition passed (checks : list PolicyCheck.t) (names : list string) : bool :=
  forallb (λ name, existsb (λ c, bool_decide (c.(PolicyCheck.name) = name) && c.(PolicyCheck.ok)) checks) names.

Definition toUnits (v : value) : option Z :=
  match v with
  | VNumber (JInt z) => if is_safe z then Some z else None
  | VString s => if all_digits s then Some (BigInt s) else None
  | _ => None
  end.

(** [a ?? b] *)
Definition or_else {A} (a b : option A) : option A := match a with Some _ => a | None => b end.

(** A pattern of letters alone, with the flag [i] *)
Definition matches_i (message word : string) : bool := includes (toLowerCase message) word.

(** [.replace(/^Mandate is /, "")] *)
Definition without_mandate_is (s : string) : string :=
  if String.prefix "Mandate is " s then text (drop 11 (chars s)) else s.

(** [.replace(/\.$/, "")] *)
Definition without_point (s : string) : string :=
  match reverse (chars s) with "."%char :: rest => text (reverse rest) | _ => s end.

Definition blockedReason (data : list (string * value)) (checks : list PolicyCheck.t) (cap remaining symbol : option string) :
    string * ReasonKind :=
  let bad name := existsb (λ c, negb c.(PolicyCheck.ok) && bool_decide (c.(PolicyCheck.name) = name)) checks in
  let symbol := default "" symbol in
  let message := default "" (or_else (text_of (nested (record_of (field data "verification")) "reason"))
                              (or_else (text_of (field data "message")) (text_of (field data "error")))) in
  let action := text_of (field data "action") in
  if bool_decide (action = Some "duplicate_invoice") || bad "duplicate_invoice" then ("This invoice has already been paid.", r_paid)
  else if bad "per_payment_limit" then
    (match given_text cap with
     | Some cap => "Requested amount exceeds the " +:+ cap +:+ " " +:+ symbol +:+ " per-payment cap."
     | None => "Requested amount exceeds the per-payment cap." end, r_limits)
  else if bad "total_limit" then
    (match given_text remaining with
     | Some rest => "Requested amount exceeds the " +:+ rest +:+ " " +:+ symbol +:+ " left on this permission."
     | None => "Requested amount exceeds what is left on this permission." end, r_limits)
  else if bad "delegated_amount" || bad "source_balance" then
    ("The funding account doesn't have enough approved balance for this payment.", r_funds)
  else if bad "mandate_status" then
    let status := match find (λ c, bool_decide (c.(PolicyCheck.name) = "mandate_status")) checks with
                  | Some c => without_mandate_is c.(PolicyCheck.message) | None => "inactive" end in
    ("This spending permission is " +:+ status +:+ ".", r_permission)
  else if bad "expiry" then ("This spending permission has expired.", r_permission)
  else if bad "mint" || bad "token_program" || bad "asset_registry" then
    ("The requested token doesn't match this spending permission.", r_other)
  else if matches_i message "signature" && (matches_i message "invalid" || matches_i message "64 bytes") then
    ("The merchant signature is invalid.", r_signature)
  else if matches_i message "expired" && matches_i message "request" then ("This payment request has expired.", r_expired)
  else if bool_decide (action = Some "payment_request_mismatch") then ("The payment doesn't match what the merchant signed.", r_recipient)
  else if matches_i message "paused" || matches_i message "revoked" then
    ("This spending permission is " +:+ (if matches_i message "revoked" then "revoked" else "paused") +:+ ".", r_permission)
  else
    let first := match find (λ c, negb c.(PolicyCheck.ok)) checks with Some c => c.(PolicyCheck.message) | None => message end in
    (if bool_decide (first = "") then "This payment was refused." else without_point first +:+ ".", r_other).

Definition stateFor (action : option string) (data : list (string * value)) (signingMode : option string) :
    PaymentWidgetState * option Z :=
  let status := text_of (field data "status") in
  let hasSignature := is_some (text_of (field data "signature")) in
  match action with
  | None => (w_unknown, None)
  | Some a =>
      if bool_decide (a = "payment_request_quoted") then (w_ready, None)
      else if bool_decide (a ∈ ["managed_payment_settled"; "backend_relayed"]) then (w_settled, None)
      else if bool_decide (a = "payment_terminal") then
        if bool_decide (status = Some "confirmed") && hasSignature then (w_settled, None)
        else (if bool_decide (status = Some "failed") && hasSignature then w_blocked else w_unknown, None)
      else if bool_decide (a = "payment_pending") then
        if hasSignature then (w_confirming, Some 4)
        else (w_paying, Some (if bool_decide (signingMode = Some "delegated") then 2 else 3))
      else if bool_decide (a = "agent_signature_required") then (w_signature, None)
      else if bool_decide (a ∈ ["payment_failed"; "managed_payment_failed"]) then (if hasSignature then w_blocked else w_unknown, None)
      else if bool_decide (a = "payment_outcome_unknown") then (w_unknown, None)
      else (if bool_decide (a ∈ REJECTED_BEFORE_BROADCAST) then w_blocked else w_unknown, None)
  end.

(** The two reads a view makes.  A read that fails leaves its field out. *)
Class WidgetReads : Type := {
  client_getMandate : Address → result (option Mandate.t);
  client_getMintDecimals : Address → result Z;
}.

(** What the view is drawn from *)
Module WidgetSource.
Record t : Type := mk {
  data : list (string * value);
  action : option string;
  verifiedPayload : option (list (string * value));
  trustedPayload : option (list (string * value));
  payload : option (list (string * value));
}.
End WidgetSource.

Definition widget_source (toolName : string) (args raw : list (string * value)) : WidgetSource.t :=
  let data := if strict_eq (field raw "action") (VString "payment_pending")
              then object_of (default [] (record_of (field raw "payment")) ++ raw) else raw in
  let action := text_of (field data "action") in
  let verification := record_of (field data "verification") in
  let verified := if strict_eq (nested verification "valid") (VBool true) then record_of (nested verification "payload") else None in
  let arg := record_of (nested (record_of (field args "request")) "payload") in
  let trusted := or_else verified
    (if negb (bool_decide (action ∈ [Some "payment_request_rejected"; Some "payment_request_mismatch"]))
        && bool_decide (toolName = "execute_payment") then arg else None) in
  WidgetSource.mk data action verified trusted (or_else trusted arg).

Definition signing_mode (args data : list (string * value)) : option string :=
  or_else (text_of (field args "signingMode")) (or_else (text_of (field data "signing_mode")) (text_of (field data "signingMode"))).

(** The state shown, and the step in progress *)
Definition shown_state (toolName : string) (args : list (string * value)) (isError : bool) (src : WidgetSource.t) :
    PaymentWidgetState * option Z :=
  let data := src.(WidgetSource.data) in
  let action := src.(WidgetSource.action) in
  let '(state, currentStep) := stateFor action data (signing_mode args data) in
  let '(state, currentStep) :=
    if bool_decide (toolName = "wait_for_payment")
       && (negb (bool_decide (action ∈ [Some "payment_terminal"; Some "payment_pending"]))
           || (bool_decide (action = Some "payment_pending") && negb (is_some (text_of (field data "signature")))))
    then (w_unknown, None) else (state, currentStep) in
  (if bool_decide (action = Some "payment_request_quoted") && isError then w_blocked else state, currentStep).

(** The state says this call was refused before a new payment was sent. *)
Definition refused_unsent (toolName : string) (action : option string) (state : PaymentWidgetState) : bool :=
  bool_decide (state = w_blocked) && negb (bool_decide (toolName = "wait_for_payment"))
  && match action with Some a => bool_decide (a ∈ REJECTED_BEFORE_BROADCAST) || bool_decide (a = "payment_request_quoted") | None => false end.

Definition proven_checks (verified : bool) (checks : list PolicyCheck.t) : list string :=
  (if verified then [LABEL_SIGNATURE] else []) ++ (if passed checks ["duplicate_invoice"] then [LABEL_UNUSED] else [])
  ++ (if passed checks ["mandate_status"] then [LABEL_ACTIVE] else []) ++ (if passed checks ["mint"] then [LABEL_TOKEN] else [])
  ++ (if verified && passed checks ["recipient"] then [LABEL_RECIPIENT] else []) ++ (if verified then [LABEL_UNEXPIRED] else []).

Section View.
Context `{WR : WidgetReads} (demo_merchant : option Address) (app_url : option string).

Definition readMandate (a : option string) : option Mandate.t :=
  a ← a; match client_getMandate a with Ok m => m | Throw _ => None end.
Definition mintDecimals (mint : option string) : option Z :=
  m ← mint; match client_getMintDecimals m with Ok d => Some d | Throw _ => None end.

Definition widget_limits (mandate : option Mandate.t) (mint : option string) (format : option Z → option string) (amountUnits : option Z)
    (state : PaymentWidgetState) (checks : list PolicyCheck.t) : option WidgetLimits.t :=
  match mandate with
  | Some m =>
      if negb (bool_decide (Some m.(Mandate.allowedMint) = mint)) then None
      else
        let remaining := m.(Mandate.totalLimit) - m.(Mandate.amountSpent) in
        let after := match amountUnits with
          | Some n => if bool_decide (state = w_ready) && (n <=? remaining) then format (Some (remaining - n)) else None
          | None => None end in
        Some (WidgetLimits.mk (format amountUnits) (format (Some m.(Mandate.maxPerPayment))) (format (Some remaining)) after
          (match checks with [] => None | _ => Some (passed checks ["per_payment_limit"; "total_limit"]) end))
  | None => None
  end.

(** A payload's merchant is text. *)
Definition paymentWidgetView (toolName : string) (args : list (string * value)) (tool_result : value) : option PaymentWidgetView.t :=
  if negb (bool_decide (toolName ∈ WIDGET_TOOLS)) then None
  else match get tool_result "structuredContent" with
  | VObject raw =>
      let src := widget_source toolName args raw in
      let data := src.(WidgetSource.data) in
      let payload := src.(WidgetSource.payload) in
      let trusted := src.(WidgetSource.trustedPayload) in
      let mint := or_else (text_of (nested payload "mint")) (or_else (text_of (field data "mint")) (text_of (field args "mint"))) in
      let recipient := or_else (text_of (nested payload "recipient"))
                         (or_else (text_of (field data "recipient")) (text_of (field args "recipient"))) in
      let mandateAddress := or_else (text_of (field args "mandate")) (text_of (field data "mandate")) in
      let amountUnits := or_else (toUnits (nested payload "amount")) (or_else (toUnits (field data "amount")) (toUnits (field args "amount"))) in
      let cluster := default "devnet" (text_of (nested payload "cluster")) in
      let decimals := mintDecimals mint in
      let mandate := readMandate mandateAddress in
      let format v := match v, decimals with Some v, Some d => Some (formatTokenAmount v d) | _, _ => None end in
      let symbol := tokenLabel <$> mint in
      let checks := shown_checks data in
      let '(state, currentStep) := shown_state toolName args (strict_eq (get tool_result "isError") (VBool true)) src in
      let limits := widget_limits mandate mint format amountUnits state checks in
      let signature := text_of (field data "signature") in
      let receipt := if bool_decide (state = w_settled)
                     then or_else (text_of (field data "receiptAddress")) (text_of (field data "receipt_address")) else None in
      Some (PaymentWidgetView.mk state (format amountUnits) symbol decimals
        (match nested trusted "merchant" with
         | VString m => if bool_decide (m = "") then None else Some (merchantDisplayName demo_merchant m) | _ => None end)
        (or_else (text_of (nested trusted "description")) (text_of (first_label (nested trusted "lineItems"))))
        (clusterLabel cluster) recipient (shortAddress <$> recipient)
        (if bool_decide (state = w_ready) then Some (proven_checks (is_some src.(WidgetSource.verifiedPayload)) checks) else None)
        limits currentStep
        (or_else (text_of (field data "payment_id")) (or_else (text_of (field data "paymentId"))
           (if bool_decide (toolName = "wait_for_payment") then text_of (field args "paymentId") else None)))
        mandateAddress signature (shortAddress <$> signature) receipt (shortAddress <$> receipt)
        (match receipt with Some r => receiptUrlForAddress app_url (Some r) | None => None end)
        ((λ s, explorerUrl s cluster) <$> signature)
        (if bool_decide (state = w_blocked)
         then Some (blockedReason data checks (limits ≫= WidgetLimits.cap) (limits ≫= WidgetLimits.remaining) symbol) else None)
        (refused_unsent toolName src.(WidgetSource.action) state))
  | _ => None
  end.
End View.
