(* ===== verification/McpPayProps.v ===== *)
(** * What the payment tools promise

    A payment is sent at most once per call, and only the payment the caller
    asked for, within policy and, when it came with a merchant's request, the one
    the merchant signed.  What is shown of it is what happened: settled only when
    the relay confirmed it, refused only when it was, and never refused when the
    outcome is unknown.  Waiting for a payment ends. *)
From Stdlib Require Import ZArith Lia Strings.Byte Strings.Ascii.
From stdpp Require Import base numbers sets strings list fin_maps gmap.
From S2P Require Import Prelude Bytes PublicKey Types Encoding CardConstants Decimal Base64 Utf8 CardCommitment Values Signed PaymentRequest ReceiptReader MerchantProof McpConnections McpFlows McpTools McpPay McpWidget.

(** ** Object literals *)

Lemma object_snoc l k x : object_of (l ++ [(k, x)]) = set_field (object_of l) k x.
Proof. unfold object_of. by rewrite foldl_app. Qed.

Lemma object_fresh a b k : k ∉ b.*1 → field (object_of (a ++ b)) k = field (object_of a) k.
Proof.
  induction b as [|[k' x] b IH] using rev_ind; intros H; [by rewrite app_nil_r|].
  rewrite fmap_app in H. cbn in H. rewrite app_assoc, object_snoc, field_set_ne by set_solver. apply IH. set_solver.
Qed.

Lemma object_last a k x : field (object_of (a ++ [(k, x)])) k = x.
Proof. rewrite object_snoc. apply field_set. Qed.

Lemma object_first k x l : k ∉ l.*1 → field (object_of ((k, x) :: l)) k = x.
Proof. intros H. change ((k, x) :: l) with ([(k, x)] ++ l). rewrite object_fresh by done. cbn. by rewrite bool_decide_eq_true_2. Qed.

(** The keys of a result are distinct. *)
Lemma set_field_keys l k x k' : k' ∈ (set_field l k x).*1 ↔ k' = k ∨ k' ∈ l.*1.
Proof.
  induction l as [|[k0 x0] l IH]; cbn; [by rewrite elem_of_cons|].
  case_bool_decide as E; cbn; rewrite !elem_of_cons; [subst | rewrite IH]; tauto.
Qed.

Lemma set_field_distinct l k x : NoDup l.*1 → NoDup (set_field l k x).*1.
Proof.
  induction l as [|[k0 x0] l IH]; cbn; [intros _; by apply NoDup_singleton|]. intros [H0 Hl]%NoDup_cons.
  case_bool_decide as E; cbn; apply NoDup_cons; [done|]. split; [|by apply IH].
  rewrite set_field_keys. by intros [-> | ?].
Qed.

Lemma object_keys l : NoDup (object_of l).*1.
Proof.
  induction l as [|[k x] l IH] using rev_ind; [by apply NoDup_nil|]. rewrite object_snoc. by apply set_field_distinct.
Qed.

(** ** The bytes of a transaction *)

Lemma lor_low a b k : 0 <= k → 0 <= b < 2 ^ k → Z.lor (Z.shiftl a k) b = a * 2 ^ k + b.
Proof.
  intros Hk Hb. pose proof (Z.add_lor_land (Z.shiftl a k) b) as H.
  assert (Z.land (Z.shiftl a k) b = 0) as E; [|rewrite Z.shiftl_mul_pow2 in * by lia; lia].
  apply Z.bits_inj'. intros i Hi. rewrite Z.land_spec, Z.bits_0. destruct (decide (i < k)).
  - by rewrite Z.shiftl_spec_low.
  - rewrite <- (Z.mod_small b (2 ^ k)) by done. rewrite Z.mod_pow2_bits_high by lia. apply andb_false_r.
Qed.

(** A digit of the shifted number *)
Lemma digit_at n s : 0 <= s → b64_char (Z.land (Z.shiftr n s) 63) = b64_char (n / 2 ^ s mod 64).
Proof. intros Hs. change 63 with (Z.ones 6). by rewrite Z.land_ones, Z.shiftr_div_pow2 by lia. Qed.

Ltac same_digits :=
  repeat match goal with
  | |- _ :: _ = _ :: _ => apply (f_equal2 cons)
  | |- b64_char _ = b64_char _ => apply f_equal
  | |- ?x = ?x => reflexivity
  end; cbn [Z.pow Z.pow_pos Pos.iter Z.mul Pos.mul]; Z.to_euclidean_division_equations; lia.

Lemma base64_reference bs : base64_from bs = b64_encode bs.
Proof.
  induction bs as [|a|a b|a b c bs IH] using triple_ind; [done|..]; cbn [base64_from b64_encode]; unfold base64_digits; cbn [map app].
  all: pose proof (byte_val_range a); try pose proof (byte_val_range b); try pose proof (byte_val_range c).
  all: rewrite !digit_at by lia; try rewrite IH.
  - rewrite Z.shiftl_mul_pow2 by lia. same_digits.
  - rewrite lor_low by (rewrite ?Z.shiftl_mul_pow2; lia). rewrite Z.shiftl_mul_pow2 by lia. same_digits.
  - rewrite (lor_low _ (Z.shiftl (byte_val b) 8) 16) by (rewrite ?Z.shiftl_mul_pow2; lia). rewrite Z.shiftl_mul_pow2 by lia.
    replace (byte_val a * 2 ^ 16 + byte_val b * 2 ^ 8) with (Z.shiftl (byte_val a * 256 + byte_val b) 8)
      by (rewrite Z.shiftl_mul_pow2; lia).
    rewrite lor_low by lia. same_digits.
Qed.

(** ** What is sent *)

Definition submissions (effects : list Effect) : list Submission.t :=
  omap (λ e, match e with Submitted s => Some s | Recorded _ _ _ => None end) effects.

Lemma submissions_bind {A B} (t : Tool A) (k : A → Tool B) a :
  t.2 = Ok a → submissions (tool_bind t k).1 = submissions t.1 ++ submissions (k a).1 ∧ (tool_bind t k).2 = (k a).2.
Proof.
  destruct t as [l r]. cbn. intros ->. unfold tool_bind. destruct (k a) as [l' r']. cbn. split; [|done].
  unfold submissions. by rewrite omap_app.
Qed.

Lemma tool_bind_throw {A B} (t : Tool A) (k : A → Tool B) e : t.2 = Throw e → tool_bind t k = (t.1, Throw e).
Proof. destruct t as [l r]. cbn. by intros ->. Qed.

(** The results that say nothing was sent *)
Definition NOT_SENT : list string :=
  ["rejected_by_preflight"; "agent_identity_mismatch"; "delegated_signature_rejected"; "managed_backend_required"; "backend_required";
   "payment_request_mismatch"; "agent_signature_required"].

Definition action_of (out : ToolResult.t) : value := field out.(ToolResult.structuredContent) "action".

Definition not_sent (out : ToolResult.t) : Prop :=
  NoDup out.(ToolResult.structuredContent).*1 ∧ ∃ a, a ∈ NOT_SENT ∧ action_of out = VString a.

(** One settlement: the submission, its names, its key and the prepared payment *)
Module Sent.
Record t : Type := mk { submission : Submission.t; names : PayNames.t; key : string; plan : PreparedPayment.t }.
End Sent.

Section Pay.
Context `{K : PublicKeys, ED : Ed25519, HS : Sha256, C : Codec, PC : PaymentClient, R : Relay}.

Definition sent_result (c : PaymentContext.t) (x : Sent.t) : result ToolResult.t :=
  match submitSettlement c x.(Sent.submission) with
  | Ok (status, payload) => relay_answered c x.(Sent.names) x.(Sent.key) x.(Sent.plan) status payload
  | Throw e => Throw e
  end.

(** Either nothing is sent, and a result says so, or one settlement is, and the result is the relay's *)
Definition settles (c : PaymentContext.t) (P : Sent.t → Prop) (t : Tool ToolResult.t) : Prop :=
  (submissions t.1 = [] ∧ ∀ out, t.2 = Ok out → not_sent out) ∨
  ∃ x, submissions t.1 = [x.(Sent.submission)] ∧ P x ∧ t.2 = sent_result c x.

Lemma settles_impl c (P Q : Sent.t → Prop) t : (∀ x, P x → Q x) → settles c P t → settles c Q t.
Proof. intros H [?|(x & ? & ? & ?)]; [by left|]. right. eauto. Qed.

Lemma settles_throw c P e : settles c P (tool_lift (Throw e)).
Proof. left. done. Qed.

Lemma settles_done c P out : not_sent out → settles c P (done out).
Proof. intros H. left. split; [done|]. by intros ? [= <-]. Qed.

Lemma settles_bind {A} c P (t : Tool A) (k : A → Tool ToolResult.t) :
  submissions t.1 = [] → (∀ a, t.2 = Ok a → settles c P (k a)) → settles c P (tool_bind t k).
Proof.
  intros Ht Hk. destruct t.2 as [a|e] eqn:E.
  - destruct (submissions_bind t k a E) as [H1 H2]. unfold settles. rewrite H1, H2, Ht. cbn. by apply Hk.
  - rewrite (tool_bind_throw _ _ _ E). left. done.
Qed.

(** A step that only computes *)
Lemma settles_lift {A} c P (r : result A) (k : A → Tool ToolResult.t) :
  (∀ a, r = Ok a → settles c P (k a)) → settles c P (tool_bind (tool_lift r) k).
Proof. intros H. by apply settles_bind. Qed.

Lemma settles_throw_if c P (b : bool) e (k : Tool ToolResult.t) :
  (b = false → settles c P k) → settles c P (if b then tool_lift (Throw e) else k).
Proof. destruct b; intros H; [apply settles_throw | by apply H]. Qed.

Lemma settles_through c names url key plan body :
  settles c (λ x, x = Sent.mk (Submission.mk (without_slash url +:+ names.(PayNames.path)) (given_text c.(PaymentContext.backendAuthToken)) body)
                        names key plan)
    (settle_through c names url key plan body).
Proof.
  right. eexists. split_and!; [|reflexivity|]; cbn [Sent.submission]; unfold settle_through, sent_result, tool_bind, perform, tool_lift;
    cbn [Sent.submission Sent.names Sent.key Sent.plan]; destruct (submitSettlement _ _) as [[status payload]|e]; done.
Qed.

(** A literal whose fields are known by name *)
Lemma not_sent_literal a rest e :
  bool_decide (a ∈ NOT_SENT) = true → "action" ∉ rest.*1 → not_sent (toolResult (("action", VString a) :: rest) e).
Proof. intros Ha Hr. split; [apply object_keys|]. exists a. split; [by bool_reflect|]. by apply object_first. Qed.

Ltac unsent := apply settles_done, not_sent_literal; [done | cbn; set_solver].

(** The mode asked for, and the signed transaction given *)
Definition asked_delegated (fields : list (string * value)) : bool := strict_eq (field fields "signingMode") (VString "delegated").
Definition given_signature (fields : list (string * value)) : option string :=
  match field fields "signedTransaction" with VString s => given_text (Some (trim s)) | _ => None end.

(** What is submitted: in delegated mode the prepared transaction, on behalf of a verified caller; else the one the caller signed *)
Definition sent_as (c : PaymentContext.t) (delegated : bool) (signed : option string) (parsed : ParsedPayment.t)
    (kept : option SignedPaymentRequest.t) (x : Sent.t) : Prop :=
  ∃ url bearer name bytes64,
    given_text c.(PaymentContext.backendUrl) = Some url ∧ bearer = given_text c.(PaymentContext.backendAuthToken) ∧
    x.(Sent.submission) = Submission.mk (without_slash url +:+ x.(Sent.names).(PayNames.path)) bearer
                            (settlement_body parsed x.(Sent.key) x.(Sent.plan) name bytes64 kept) ∧
    if delegated
    then x.(Sent.names) = managed_names ∧ name = "unsigned_transaction" ∧ signed = None ∧ bearer ≠ None ∧
         ∃ wire, materialized x.(Sent.plan).(PreparedPayment.transaction) = Ok (bytes64, wire)
    else x.(Sent.names) = relay_names ∧ name = "signed_transaction" ∧ signed = Some bytes64.

Lemma pay_as_settles c parsed delegated signed key plan kept :
  settles c (λ x, x.(Sent.key) = key ∧ x.(Sent.plan) = plan ∧ sent_as c delegated (given_text signed) parsed kept x)
    (pay_as c parsed delegated signed key plan kept).
Proof.
  unfold pay_as. destruct delegated.
  - unfold payDelegated. destruct (given_text signed) as [sg|]; [unsent|].
    destruct (given_text (PaymentContext.backendUrl c)) as [url|] eqn:Eu; [|unsent].
    destruct (given_text (PaymentContext.backendAuthToken c)) as [tok|] eqn:Et; [|unsent].
    apply settles_lift. intros [bytes64 wire] Em. eapply settles_impl, settles_through. intros x ->. cbn. do 2 (split; [done|]).
    exists url, (Some tok), "unsigned_transaction", bytes64. cbn. rewrite Et. split_and!; [done..|]. by exists wire.
  - destruct (given_text signed) as [sg|] eqn:Es.
    + unfold paySigned. destruct (given_text (PaymentContext.backendUrl c)) as [url|] eqn:Eu;
        [|unsent].
      eapply settles_impl, settles_through. intros x ->. cbn. do 2 (split; [done|]).
      exists url, (given_text c.(PaymentContext.backendAuthToken)), "signed_transaction", sg. by split_and!.
    + unfold askSignature. apply settles_lift. intros [b w] _. apply settles_done. by apply not_sent_literal; [set_solver|cbn; set_solver].
Qed.

Section Cards.
Context {S : Type} `{FS : PaymentFlowStore S} (demo_merchant : option Address).

(** What was checked before a settlement was sent *)
Definition matches_request (request : option SignedPaymentRequest.t) (payment : PaymentRequest.t) (kept : option SignedPaymentRequest.t) : Prop :=
  match request with
  | None => kept = None
  | Some r => ∃ slot v,
      getCurrentSlot = Ok slot ∧ verifyPaymentRequest r (Some slot) = Ok v ∧ v.(PaymentRequestVerification.valid) = true ∧
      v.(PaymentRequestVerification.invoiceHash) = payment.(PaymentRequest.invoiceHash) ∧
      v.(PaymentRequestVerification.payload).(PaymentRequestPayload.mint) = payment.(PaymentRequest.mint) ∧
      v.(PaymentRequestVerification.payload).(PaymentRequestPayload.recipient) = payment.(PaymentRequest.recipient) ∧
      v.(PaymentRequestVerification.payload).(PaymentRequestPayload.amount) = toString payment.(PaymentRequest.amount) ∧
      kept = Some (SignedPaymentRequest.mk v.(PaymentRequestVerification.payload) r.(SignedPaymentRequest.signature))
  end.

Definition payment_key (payment : PaymentRequest.t) : string :=
  payment.(PaymentRequest.mandate) +:+ ":" +:+ bytesToHex payment.(PaymentRequest.invoiceHash).

Definition authorized (c : PaymentContext.t) (fields : list (string * value)) (request : option SignedPaymentRequest.t) (x : Sent.t) : Prop :=
  ∃ parsed kept,
    parsePaymentInput fields = Ok parsed ∧
    client_prepare parsed.(ParsedPayment.input) parsed.(ParsedPayment.agent) = Ok x.(Sent.plan) ∧
    x.(Sent.plan).(PreparedPayment.preflight).(PaymentPreflight.valid) = true ∧
    x.(Sent.key) = payment_key parsed.(ParsedPayment.input) ∧
    matches_request request parsed.(ParsedPayment.input) kept ∧
    (asked_delegated fields = false → ∀ agent, given_text c.(PaymentContext.agentAddress) = Some agent → parsed.(ParsedPayment.agent) = agent) ∧
    sent_as c (asked_delegated fields) (given_signature fields) parsed kept x.

Lemma payPrepared_settles c parsed delegated signed record plan kept :
  (∀ view, submissions (record view).1 = []) →
  settles c (λ x, x.(Sent.key) = payment_key parsed.(ParsedPayment.input) ∧ x.(Sent.plan) = plan ∧
                  plan.(PreparedPayment.preflight).(PaymentPreflight.valid) = true ∧
                  (delegated = false → ∀ agent, given_text c.(PaymentContext.agentAddress) = Some agent → parsed.(ParsedPayment.agent) = agent) ∧
                  sent_as c delegated (given_text signed) parsed kept x)
    (payPrepared c parsed delegated signed record plan kept).
Proof.
  intros Hrec. unfold payPrepared. destruct (PaymentPreflight.valid _) eqn:Ev; cbn [negb];
    [|unsent].
  apply settles_bind; [done|]. intros _ _.
  destruct (given_text (PaymentContext.agentAddress c)) as [agent|] eqn:Ea; [destruct (negb delegated && _) eqn:Em|].
  - unsent.
  - eapply settles_impl, pay_as_settles. intros x (-> & -> & Hs). split_and!; [done..| |done].
    intros -> a [= <-]. cbn in Em. by bool_reflect.
  - eapply settles_impl, pay_as_settles. intros x (-> & -> & Hs). split_and!; done.
Qed.

Lemma checked_request r payment kept :
  checkedPaymentRequest r payment = Ok (inl kept) → matches_request (Some r) payment (Some kept).
Proof.
  unfold checkedPaymentRequest. intros H. apply bind_ok in H as (slot & Hs & H). apply bind_ok in H as (v & Hv & H).
  destruct (PaymentRequestVerification.valid v) eqn:Ev; [|done]. cbn [negb] in H.
  destruct (bool_decide (bytesToHex _ = _)) eqn:Eh; [|done]. cbn [negb] in H.
  destruct (_ || _ || _) eqn:Em in H; [done|]. injection H as <-. bool_reflect. exists slot, v. split_and!; try done.
  by apply bytesToHex_inj.
Qed.

Lemma asked_mode v : strict_eq (coalesce_undefined v (VString "human")) (VString "delegated") = strict_eq v (VString "delegated").
Proof. by destruct v. Qed.

Lemma executePayment_settles c args request now s :
  settles c (λ x, ∃ fields, args = VObject fields ∧ authorized c fields request x) (executePayment demo_merchant c args request now s).
Proof.
  unfold executePayment. apply settles_lift. intros fields Hf. assert (args = VObject fields) as -> by (destruct args; by inversion Hf).
  cbv zeta. rewrite asked_mode. fold (asked_delegated fields). apply settles_throw_if. intros _.
  apply settles_lift. intros parsed Hp. apply settles_throw_if. intros _.
  apply settles_bind; [by destruct (as_optional _)|]. intros _ _. apply settles_throw_if. intros _.
  assert (∀ kept record, (∀ view, submissions (record view).1 = []) → matches_request request parsed.(ParsedPayment.input) kept →
    settles c (λ x, ∃ fs, VObject fields = VObject fs ∧ authorized c fs request x)
      (let^ plan := tool_lift (client_prepare parsed.(ParsedPayment.input) parsed.(ParsedPayment.agent)) in
       payPrepared c parsed (asked_delegated fields)
         (match field fields "signedTransaction" with VString sg => Some (trim sg) | _ => None end) record plan kept)) as Hpay.
  { intros kept record Hr Hm. apply settles_lift. intros plan Hplan. eapply settles_impl, payPrepared_settles; [|done].
    intros x (Hk & <- & Hv & Ha & Hs). exists fields. split; [done|]. exists parsed, kept. split_and!; try done.
    unfold given_signature. by destruct (field fields "signedTransaction"). }
  destruct request as [r|]; [|by apply Hpay].
  apply settles_lift. intros [kept|message] Hc; [|unsent]. apply settles_bind; [done|]. intros _ _.
  apply Hpay; [done|]. by apply checked_request.
Qed.
End Cards.

(** ** What the result says *)

(** An answer that carries no field of ours *)
Definition plain (payload : value) : Prop := "action" ∉ (spread payload).*1.

Definition is_duplicate (payload : value) : bool := strict_eq (get payload "code") (VString "DuplicateInvoice").
Definition is_confirmed (payload : value) : bool :=
  strict_eq (get payload "status") (VString "confirmed") && match get payload "signature" with VString _ => true | _ => false end.

(** The result of a relay's answer *)
Inductive verdict (names : PayNames.t) (status : Z) (payload : value) : ToolResult.t → Prop :=
| v_duplicate out : is_duplicate payload = true → action_of out = VString "duplicate_invoice" → verdict names status payload out
| v_rejected out : is_ok_status status = false → relayRejectedBeforeBroadcast status = true →
    (plain payload → action_of out = VString names.(PayNames.rejected)) → verdict names status payload out
| v_unknown out : is_ok_status status = false → relayRejectedBeforeBroadcast status = false → is_duplicate payload = false →
    action_of out = VString "payment_pending" → verdict names status payload out
| v_confirmed out : is_ok_status status = true → is_confirmed payload = true →
    (plain payload → action_of out = VString names.(PayNames.success)) → verdict names status payload out
| v_open out : is_ok_status status = true → is_confirmed payload = false →
    (plain payload → action_of out = VString (if strict_eq (get payload "status") (VString "failed") then names.(PayNames.failure)
                                              else "payment_pending")) → verdict names status payload out.

Lemma unknown_fields c key status payload k :
  k ∈ (relayOutcomeUnknown c key status payload).*1 →
  k ∈ ["status"; "payment_id"; "idempotency_key"; "httpStatus"; "relayError"; "continuation"; "message"].
Proof.
  unfold relayOutcomeUnknown. rewrite !fmap_app.
  destruct (context_wallet c); destruct (get payload "error"); cbn; set_solver.
Qed.

Lemma relay_answered_verdict c names key plan status payload out :
  names = managed_names ∨ names = relay_names →
  relay_answered c names key plan status payload = Ok out → verdict names status payload out.
Proof.
  intros Hn. unfold relay_answered. destruct (nullish payload); [done|]. intros [= <-].
  fold (is_duplicate payload). destruct (is_duplicate payload) eqn:Ed; [by apply v_duplicate|].
  destruct (is_ok_status status) eqn:Eo; cbn [negb].
  - fold (is_confirmed payload). destruct (is_confirmed payload) eqn:Ec.
    + apply v_confirmed; [done..|]. intros Hp. apply object_first. rewrite !fmap_app. unfold plain in Hp.
      destruct Hn as [-> | ->]; cbn; set_solver.
    + apply v_open; [done..|]. intros Hp. apply object_first. rewrite fmap_app. unfold plain in Hp. cbn. set_solver.
  - destruct (relayRejectedBeforeBroadcast status) eqn:Er.
    + apply v_rejected; [done..|]. intros Hp. apply object_first. unfold plain in Hp. cbn. set_solver.
    + apply v_unknown; [done..|]. apply object_first. rewrite fmap_app. intros [H%unknown_fields|H]%elem_of_app; [set_solver|].
      cbn in H. set_solver.
Qed.

Lemma field_app_fresh a b k : k ∉ a.*1 → field (a ++ b) k = field b k.
Proof. induction a as [|[k' x] a IH]; cbn; [done|]. intros H. rewrite bool_decide_eq_false_2 by set_solver. apply IH. set_solver. Qed.

Lemma field_app_in a b k : k ∈ a.*1 → field (a ++ b) k = field a k.
Proof.
  induction a as [|[k' x] a IH]; cbn; [set_solver|]. intros H. case_bool_decide; [done|]. apply IH. set_solver.
Qed.

(** Spread last, an object with distinct keys keeps its fields. *)
Lemma spread_over a b k : NoDup b.*1 → k ∈ b.*1 → field (object_of (a ++ b)) k = field b k.
Proof.
  induction b as [|[k' x] b IH] using rev_ind; intros Hb Hk; [by apply elem_of_nil in Hk|].
  rewrite fmap_app in Hb, Hk. cbn in Hb, Hk. apply NoDup_app in Hb as (Hb & Hnew & _). rewrite app_assoc, object_snoc.
  destruct (decide (k' = k)) as [->|Hne].
  - rewrite field_set, field_app_fresh by set_solver. cbn. by rewrite bool_decide_eq_true_2.
  - rewrite field_set_ne, IH by set_solver. by rewrite field_app_in by set_solver.
Qed.

Lemma field_key l k x : field l k = VString x → k ∈ l.*1.
Proof. induction l as [|[k' y] l IH]; cbn; [done|]. case_bool_decide; set_solver. Qed.

Lemma source_action toolName args raw a :
  NoDup raw.*1 → field raw "action" = VString a → (widget_source toolName args raw).(WidgetSource.action) = text_of (VString a).
Proof.
  intros Hr Ha. unfold widget_source. cbn [WidgetSource.action]. destruct (strict_eq _ _); [|by rewrite Ha].
  rewrite spread_over; [by rewrite Ha | done | by eapply field_key].
Qed.

(** ** What the card shows *)

Lemma either_of_two (a x y : string) : a ∈ [x; y] → a = x ∨ a = y.
Proof. rewrite !elem_of_cons, elem_of_nil. tauto. Qed.

(** One goal for each member of a literal list *)
Ltac each_member H :=
  repeat (let E := fresh "E" in apply elem_of_cons in H as [E | H]; [try discriminate E; try subst |]);
  try (by apply elem_of_nil in H).

Ltac next_case H := match type of H with context [bool_decide ?P] => let E := fresh "E" in destruct (bool_decide P) eqn:E end.

Lemma settled_state a data mode : (stateFor a data mode).1 = w_settled →
  ∃ a', a = Some a' ∧ a' ∈ ["managed_payment_settled"; "backend_relayed"; "payment_terminal"].
Proof.
  unfold stateFor. destruct a as [a|]; [|done]. intros H. exists a. split; [done|].
  next_case H; [done|]. next_case H.
  { bool_reflect. apply either_of_two in E0 as [-> | ->]; set_solver. }
  next_case H; [bool_reflect; set_solver|]. exfalso.
  repeat (next_case H || destruct (is_some _) in H); done.
Qed.

Lemma blocked_state a data mode : (stateFor a data mode).1 = w_blocked →
  ∃ a', a = Some a' ∧ a' ≠ "payment_pending" ∧ a' ≠ "payment_outcome_unknown" ∧ a' ∉ ["managed_payment_settled"; "backend_relayed"].
Proof.
  unfold stateFor. destruct a as [a|]; [|done]. intros H. exists a. split; [done|].
  next_case H; [done|]. next_case H; [done|]. split_and!; [intros -> | intros -> | by bool_reflect].
  - cbn in H. by destruct (is_some _) in H.
  - done.
Qed.

Lemma shown_settled toolName args isError src :
  (shown_state toolName args isError src).1 = w_settled →
  ∃ a, src.(WidgetSource.action) = Some a ∧ a ∈ ["managed_payment_settled"; "backend_relayed"; "payment_terminal"].
Proof.
  unfold shown_state. destruct (stateFor _ _ _) as [st step] eqn:Es. intros H.
  apply (settled_state _ src.(WidgetSource.data) (signing_mode args src.(WidgetSource.data))). rewrite Es.
  destruct (_ && _) in H; destruct (_ && _) in H; done.
Qed.

Lemma refused_state toolName args isError src :
  (shown_state toolName args isError src).1 = w_blocked →
  ∃ a, src.(WidgetSource.action) = Some a ∧ a ≠ "payment_pending" ∧ a ≠ "payment_outcome_unknown" ∧
       a ∉ ["managed_payment_settled"; "backend_relayed"].
Proof.
  unfold shown_state. destruct (stateFor _ _ _) as [st step] eqn:Es. intros H.
  destruct (bool_decide (src.(WidgetSource.action) = Some "payment_request_quoted") && isError) eqn:Eq.
  { bool_reflect. eexists. split; [done|]. split_and!; [done..|]. by rewrite !elem_of_cons, elem_of_nil; intros [|[|]]. }
  apply (blocked_state _ src.(WidgetSource.data) (signing_mode args src.(WidgetSource.data))). rewrite Es.
  destruct (_ && _) in H; cbn in H; done.
Qed.

Lemma view_drawn `{WidgetReads} dm app toolName args raw e v :
  paymentWidgetView dm app toolName args (VObject [("isError", e); ("structuredContent", VObject raw)]) = Some v →
  v.(PaymentWidgetView.state) = (shown_state toolName args (strict_eq e (VBool true)) (widget_source toolName args raw)).1 ∧
  v.(PaymentWidgetView.rejectedBeforeBroadcast)
    = refused_unsent toolName (widget_source toolName args raw).(WidgetSource.action) v.(PaymentWidgetView.state).
Proof.
  unfold paymentWidgetView. destruct (negb _); [done|]. cbn [get field]. rewrite (bool_decide_eq_false_2 ("isError" = "structuredContent")),
    !bool_decide_eq_true_2 by done.
  destruct (shown_state _ _ _ _) as [st step]. by intros [= <-].
Qed.

Lemma settled_outcome app isError data o :
  normalize_data app isError data = Some o → o.(NormalizedOutcome.kind) = payment_settled →
  ∃ a, field data "action" = VString a ∧ a ∈ "payment_terminal" :: SETTLED_ACTIONS.
Proof.
  unfold normalize_data. cbv zeta. set (action := match field data "action" with VString a => a | _ => "" end).
  intros H Hk. destruct (decide (action ∈ "payment_terminal" :: SETTLED_ACTIONS)) as [Ha|Hn].
  - exists action. split; [|done]. clear H. subst action. destruct (field data "action"); try done; exfalso; revert Ha;
      apply (bool_decide_eq_false ("" ∈ "payment_terminal" :: SETTLED_ACTIONS)); reflexivity.
  - exfalso. unfold SETTLED_ACTIONS in Hn.
    rewrite (bool_decide_eq_false_2 (action = "payment_terminal")), (bool_decide_eq_false_2 (action ∈ SETTLED_ACTIONS)),
      (bool_decide_eq_false_2 (action ∈ ["backend_relayed"; "payment_confirmed"])),
      (bool_decide_eq_false_2 (action = "managed_payment_settled")) in H by (unfold SETTLED_ACTIONS; set_solver).
    cbn [andb orb] in H. repeat match type of H with context [if ?b then _ else _] => destruct b end; try done;
      injection H as <-; done.
Qed.

(** ** Outcomes nobody knows *)

(** A result for a payment whose outcome is not known: pending, with the id to ask for *)
Definition stays_pending (c : PaymentContext.t) (key : string) (out : ToolResult.t) : Prop :=
  out.(ToolResult.isError) = false ∧ NoDup out.(ToolResult.structuredContent).*1 ∧
  (∃ a, a ∈ ["payment_pending"; "payment_outcome_unknown"] ∧ action_of out = VString a) ∧
  field out.(ToolResult.structuredContent) "status" = VString "unknown" ∧
  ∀ w, context_wallet c = Some w → field out.(ToolResult.structuredContent) "payment_id" = VString (relayPaymentId w key).

Lemma unknown_answer c key status payload receipt : stays_pending c key (relayAnswerUnknown c key status payload receipt).
Proof.
  unfold stays_pending. split; [done|]. split; [apply object_keys|].
  unfold action_of, relayAnswerUnknown, relayOutcomeUnknown. destruct (context_wallet c) as [w|]; destruct (get payload "error").
  all: split_and!; [exists "payment_pending"; split; [set_solver|reflexivity] | reflexivity | first [by intros ? [= <-] | done]].
Qed.

Lemma no_answer c x cause w :
  post_settlement x.(Sent.submission) = NoAnswer cause → context_wallet c = Some w →
  (∃ parsed name bytes64 kept, x.(Sent.submission).(Submission.body) = settlement_body parsed x.(Sent.key) x.(Sent.plan) name bytes64 kept) →
  ∃ out, sent_result c x = Ok out ∧ stays_pending c x.(Sent.key) out ∧ action_of out = VString "payment_outcome_unknown".
Proof.
  intros Hp Hw (parsed & name & bytes64 & kept & Hb). unfold sent_result, submitSettlement. rewrite Hp, Hw, Hb.
  eexists. split; [reflexivity|]. split; [|reflexivity]. unfold stays_pending. split; [done|]. split; [apply object_keys|].
  split_and!; [exists "payment_outcome_unknown"; split; [set_solver|reflexivity] | reflexivity |].
  rewrite Hw. by intros ? [= <-].
Qed.

(** No answer, or one that does not say the payment was refused before it was sent *)
Definition outcome_unknown (s : Submission.t) : Prop :=
  match post_settlement s with
  | NoAnswer _ => True
  | Answer status body =>
      is_ok_status status = false ∧ relayRejectedBeforeBroadcast status = false ∧ is_duplicate (default (VObject []) body) = false
  end.

Lemma unknown_pending c delegated signed parsed kept x out :
  sent_as c delegated signed parsed kept x → outcome_unknown x.(Sent.submission) → sent_result c x = Ok out →
  stays_pending c x.(Sent.key) out.
Proof.
  intros (url & bearer & name & bytes64 & _ & _ & Hs & _) Hu Hr. unfold outcome_unknown in Hu.
  destruct (post_settlement (Sent.submission x)) as [status body|cause] eqn:Hp.
  - destruct Hu as (Ho & Hj & Hd). unfold sent_result, submitSettlement in Hr. rewrite Hp in Hr. unfold relay_answered in Hr.
    destruct (nullish _); [done|]. unfold is_duplicate in Hd. rewrite Hd, Ho, Hj in Hr. cbn [negb] in Hr. injection Hr as <-.
    apply unknown_answer.
  - destruct (context_wallet c) as [w|] eqn:Hw.
    + destruct (no_answer c x cause w Hp Hw) as (out' & Ho & Hst & _); [rewrite Hs; cbn; eauto|]. rewrite Ho in Hr. by injection Hr as <-.
    + unfold sent_result, submitSettlement in Hr. by rewrite Hp, Hw in Hr.
Qed.

Lemma relay_result_keys c names key plan status payload out :
  relay_answered c names key plan status payload = Ok out → NoDup out.(ToolResult.structuredContent).*1.
Proof.
  unfold relay_answered. destruct (nullish payload); [done|]. intros [= <-].
  repeat match goal with |- context [if ?b then _ else _] => destruct b end; apply object_keys.
Qed.

Definition relay_plain : Prop := ∀ s status payload, post_settlement s = Answer status (Some payload) → plain payload.

Lemma sent_verdict c delegated signed parsed kept x out :
  sent_as c delegated signed parsed kept x → sent_result c x = Ok out →
  NoDup out.(ToolResult.structuredContent).*1 ∧
  match post_settlement x.(Sent.submission) with
  | Answer status body => verdict x.(Sent.names) status (default (VObject []) body) out
  | NoAnswer _ => action_of out = VString "payment_outcome_unknown"
  end.
Proof.
  intros (url & bearer & name & bytes64 & _ & _ & Hs & Hn) Hr.
  assert (x.(Sent.names) = managed_names ∨ x.(Sent.names) = relay_names) as Hnames by (destruct delegated; [left | right]; apply Hn).
  destruct (post_settlement (Sent.submission x)) as [status body|cause] eqn:Hp.
  - unfold sent_result, submitSettlement in Hr. rewrite Hp in Hr.
    split; [by eapply relay_result_keys | by eapply relay_answered_verdict].
  - destruct (context_wallet c) as [w|] eqn:Hw.
    + destruct (no_answer c x cause w Hp Hw) as (out' & Ho & Hst & Ha); [rewrite Hs; cbn; eauto|].
      rewrite Ho in Hr. injection Hr as <-. split; [apply Hst | done].
    + unfold sent_result, submitSettlement in Hr. by rewrite Hp, Hw in Hr.
Qed.

Section Results.
Context {S : Type} `{FS : PaymentFlowStore S} (demo_merchant : option Address).

(** What a call that returned sent, and what it says *)
Lemma returned c args request now s out :
  (executePayment demo_merchant c args request now s).2 = Ok out →
  (submissions (executePayment demo_merchant c args request now s).1 = [] ∧ not_sent out) ∨
  ∃ x delegated signed parsed kept,
    submissions (executePayment demo_merchant c args request now s).1 = [x.(Sent.submission)] ∧
    sent_as c delegated signed parsed kept x ∧ sent_result c x = Ok out.
Proof.
  intros Ho. destruct (executePayment_settles demo_merchant c args request now s) as [[H1 H2]|(x & H1 & (fields & _ & Ha) & H2)];
    [left; auto|right]. destruct Ha as (parsed & kept & _ & _ & _ & _ & _ & _ & Hs). rewrite H2 in Ho. by exists x, (asked_delegated fields), (given_signature fields), parsed, kept.
Qed.

Lemma settled_confirmed c args request now s out a :
  relay_plain → (executePayment demo_merchant c args request now s).2 = Ok out →
  action_of out = VString a → a ∈ "payment_terminal" :: SETTLED_ACTIONS →
  ∃ sub status payload signature,
    submissions (executePayment demo_merchant c args request now s).1 = [sub] ∧ post_settlement sub = Answer status (Some payload) ∧
    is_ok_status status = true ∧ get payload "status" = VString "confirmed" ∧ get payload "signature" = VString signature.
Proof.
  intros Hplain Ho Ha Hin.
  assert (∀ b, action_of out = VString b → bool_decide (b ∈ "payment_terminal" :: SETTLED_ACTIONS) = false → False) as Hno.
  { intros b Hb Hf. rewrite Ha in Hb. injection Hb as <-. by bool_reflect. }
  destruct (returned _ _ _ _ _ _ Ho) as [(_ & _ & b & Hb & Hab)|(x & del & sg & parsed & kept & Hsub & Has & Hr)].
  { exfalso. apply (Hno b Hab). clear -Hb. by each_member Hb. }
  destruct (sent_verdict _ _ _ _ _ _ _ Has Hr) as [_ Hv]. destruct (post_settlement (Sent.submission x)) as [status body|cause] eqn:Hp;
    [|exfalso; by apply (Hno _ Hv)].
  assert (plain (default (VObject []) body)) as Hpl by (destruct body as [payload|]; [by eapply Hplain | cbn; apply not_elem_of_nil]).
  assert (x.(Sent.names) = managed_names ∨ x.(Sent.names) = relay_names) as Hnames
    by (destruct Has as (? & ? & ? & ? & _ & _ & _ & Hn); destruct del; [left | right]; apply Hn).
  inversion Hv as [? _ E|? _ _ E|? _ _ _ E|? Hok Hc E|? _ _ E]; subst; try specialize (E Hpl).
  - exfalso. by apply (Hno _ E).
  - exfalso. apply (Hno _ E). by destruct Hnames as [-> | ->].
  - exfalso. by apply (Hno _ E).
  - unfold is_confirmed in Hc. apply andb_true_iff in Hc as [Hst%strict_eq_string Hsig]. destruct body as [payload|]; [|done]. cbn in Hst, Hsig.
    destruct (get payload "signature") as [| | | | |sig| |] eqn:Esig; try done.
    by exists x.(Sent.submission), status, payload, sig.
  - exfalso. apply (Hno _ E). destruct Hnames as [-> | ->]; by destruct (strict_eq _ _).
Qed.

Lemma result_action c args request now s out :
  relay_plain → (executePayment demo_merchant c args request now s).2 = Ok out →
  NoDup out.(ToolResult.structuredContent).*1 ∧ ∃ a, action_of out = VString a ∧ text_of (VString a) = Some a.
Proof.
  intros Hplain Ho. destruct (returned _ _ _ _ _ _ Ho) as [(_ & Hk & a & Ha & E)|(x & del & sg & parsed & kept & Hsub & Has & Hr)].
  { split; [done|]. exists a. split; [done|]. clear E. by each_member Ha. }
  destruct (sent_verdict _ _ _ _ _ _ _ Has Hr) as [Hk Hv]. split; [done|].
  destruct (post_settlement (Sent.submission x)) as [status body|cause] eqn:Hp; [|by eexists].
  assert (plain (default (VObject []) body)) as Hpl by (destruct body as [payload|]; [by eapply Hplain | cbn; apply not_elem_of_nil]).
  assert (x.(Sent.names) = managed_names ∨ x.(Sent.names) = relay_names) as Hnames
    by (destruct Has as (? & ? & ? & ? & _ & _ & _ & Hn); destruct del; [left | right]; apply Hn).
  inversion Hv as [? _ E|? _ _ E|? _ _ _ E|? _ _ E|? _ _ E]; subst; try specialize (E Hpl);
    rewrite E; eexists; (split; [reflexivity|]); try destruct (strict_eq _ _); destruct Hnames as [Hn|Hn]; rewrite ?Hn; reflexivity.
Qed.

Lemma verdict_refused names status payload out a :
  names = managed_names ∨ names = relay_names → verdict names status payload out → plain payload → action_of out = VString a →
  a ≠ "payment_pending" → a ∈ "payment_request_quoted" :: REJECTED_BEFORE_BROADCAST →
  is_duplicate payload = true ∨ (is_ok_status status = false ∧ relayRejectedBeforeBroadcast status = true).
Proof.
  intros Hn Hv Hpl Ha Hne Hin. inversion Hv as [? Hd|? Hok Hj E|? _ _ _ E|? _ _ E|? _ _ E]; subst; try specialize (E Hpl); eauto.
  all: exfalso; rewrite Ha in E; injection E as ->; try done.
  all: apply (bool_decide_eq_true_2 _) in Hin; destruct Hn as [-> | ->]; try destruct (strict_eq _ _); try done; by vm_compute in Hin.
Qed.

(** C4: One call of [executePayment] submits at most one settlement, and only what it was asked for: the payment of
    its arguments, prepared, within policy and under the key of its mandate and invoice; when it came with a merchant's
    request, a verified one for the same invoice, mint, recipient and amount, which is sent along; in delegated mode
    the prepared transaction itself, for an authenticated caller, and otherwise the bytes the caller signed. *)
Theorem payment_sent_once c args request now s :
  let t := executePayment demo_merchant c args request now s in
  submissions t.1 = [] ∨
  ∃ fields x, args = VObject fields ∧ submissions t.1 = [x.(Sent.submission)] ∧ authorized c fields request x.
Proof.
  cbv zeta. destruct (executePayment_settles demo_merchant c args request now s) as [[H _]|(x & H & (fields & Hf & Ha) & _)];
    [by left|right]. by exists fields, x.
Qed.

(** C17: When the relay does not answer, or answers neither with success nor with a status that means a refusal before
    broadcast, the result is a pending payment and no error: its status is unknown, it names the payment's id for a
    known caller, and its card shows neither a refusal nor a settlement. *)
Theorem unknown_stays_pending c args request now s sub out :
  let t := executePayment demo_merchant c args request now s in
  submissions t.1 = [sub] → outcome_unknown sub → t.2 = Ok out →
  (∃ key, field sub.(Submission.body) "idempotency_key" = VString key ∧ stays_pending c key out) ∧
  ∀ (WR : WidgetReads) app_url shown v,
    paymentWidgetView demo_merchant app_url "execute_payment" shown (as_result out) = Some v →
    v.(PaymentWidgetView.state) ≠ w_blocked ∧ v.(PaymentWidgetView.state) ≠ w_settled.
Proof.
  cbv zeta. intros Hsub Hu Ho. destruct (returned _ _ _ _ _ _ Ho) as [[H0 _]|(x & del & sg & parsed & kept & Hs & Has & Hr)];
    [by rewrite Hsub in H0|]. rewrite Hsub in Hs. injection Hs as ->. pose proof (unknown_pending _ _ _ _ _ _ _ Has Hu Hr) as Hp.
  split.
  { exists x.(Sent.key). split; [|done]. destruct Has as (? & ? & ? & ? & _ & _ & Es & _). by rewrite Es. }
  destruct Hp as (_ & Hk & (a & Hin & Ha) & _). intros WR app shown v Hv. apply view_drawn in Hv as [-> _].
  assert (text_of (VString a) = Some a) as Ht by (by apply either_of_two in Hin as [-> | ->]).
  split; intros H; [apply refused_state in H as (b & Hb & H1 & H2 & _) | apply shown_settled in H as (b & Hb & H1)];
    rewrite (source_action _ _ _ a Hk Ha), Ht in Hb; injection Hb as <-; apply either_of_two in Hin as [-> | ->]; try done;
    by each_member H1.
Qed.

(** C15: When the card of a call is shown settled, or its outcome is, the call submitted one settlement and the relay
    answered it with success, a confirmed status and a signature. *)
Theorem settled_means_confirmed c args request now s out :
  let t := executePayment demo_merchant c args request now s in
  relay_plain → t.2 = Ok out →
  (∃ (WR : WidgetReads) app_url shown v,
     paymentWidgetView demo_merchant app_url "execute_payment" shown (as_result out) = Some v ∧ v.(PaymentWidgetView.state) = w_settled) ∨
  (∃ app_url o, normalizeToolOutcome app_url (as_result out) = Some o ∧ o.(NormalizedOutcome.kind) = payment_settled) →
  ∃ sub status payload signature,
    submissions t.1 = [sub] ∧ post_settlement sub = Answer status (Some payload) ∧ is_ok_status status = true ∧
    get payload "status" = VString "confirmed" ∧ get payload "signature" = VString signature.
Proof.
  cbv zeta. intros Hplain Ho Hshown.
  enough (∃ a, action_of out = VString a ∧ a ∈ "payment_terminal" :: SETTLED_ACTIONS) as (a & Ha & Hin) by eauto using settled_confirmed.
  destruct Hshown as [(WR & app & shown & v & Hv & Hst)|(app & o & Hn & Hk)].
  - apply view_drawn in Hv as [Hv _]. rewrite Hst in Hv. symmetry in Hv. apply shown_settled in Hv as (b & Hb & Hin).
    destruct (result_action _ _ _ _ _ _ Hplain Ho) as (Hk & a & Ha & Ht). rewrite (source_action _ _ _ a Hk Ha), Ht in Hb. injection Hb as <-.
    exists a. split; [done|]. clear -Hin. unfold SETTLED_ACTIONS. each_member Hin; rewrite !elem_of_cons; tauto.
  - change (normalize_data app (strict_eq (get (as_result out) "isError") (VBool true)) out.(ToolResult.structuredContent) = Some o) in Hn.
    by eapply settled_outcome.
Qed.

(** C16: When the card of a call says that the call was refused before a new payment was sent, nothing was submitted, or
    the relay answered that the invoice is already paid or with a status that means a refusal before broadcast. *)
Theorem refused_means_unsent `{WR : WidgetReads} c args request now s out app_url shown v :
  let t := executePayment demo_merchant c args request now s in
  relay_plain → t.2 = Ok out →
  paymentWidgetView demo_merchant app_url "execute_payment" shown (as_result out) = Some v →
  v.(PaymentWidgetView.rejectedBeforeBroadcast) = true →
  submissions t.1 = [] ∨
  ∃ sub status body,
    submissions t.1 = [sub] ∧ post_settlement sub = Answer status body ∧
    (is_duplicate (default (VObject []) body) = true ∨ is_ok_status status = false ∧ status ∈ [400; 401; 403; 404; 422]).
Proof.
  cbv zeta. intros Hplain Ho Hv Hj. apply view_drawn in Hv as [Hst Hrj]. rewrite Hj in Hrj. symmetry in Hrj.
  unfold refused_unsent in Hrj. apply andb_true_iff in Hrj as [Hb Hin]. bool_reflect. rewrite H in Hst. symmetry in Hst.
  apply refused_state in Hst as (b & Eb & Hne & Hnu & _). destruct (result_action _ _ _ _ _ _ Hplain Ho) as (Hk & a & Ha & Ht).
  rewrite Eb in Hin. rewrite (source_action _ _ _ a Hk Ha), Ht in Eb. injection Eb as <-.
  destruct (returned _ _ _ _ _ _ Ho) as [[? _]|(x & del & sg & parsed & kept & Hsub & Has & Hr)]; [by left|right].
  destruct (sent_verdict _ _ _ _ _ _ _ Has Hr) as [_ Hvd].
  destruct (post_settlement (Sent.submission x)) as [status body|cause] eqn:Hp; [|rewrite Ha in Hvd; by injection Hvd].
  exists x.(Sent.submission), status, body. split_and!; [done..|].
  assert (plain (default (VObject []) body)) as Hpl by (destruct body as [payload|]; [by eapply Hplain | cbn; apply not_elem_of_nil]).
  edestruct verdict_refused as [?|[? Hs]]; [|exact Hvd|exact Hpl|exact Ha|done| |by left|right].
  - destruct Has as (? & ? & ? & ? & _ & _ & _ & Hn). destruct del; [left | right]; apply Hn.
  - apply orb_true_iff in Hin as [Hin|Hin]; bool_reflect; apply elem_of_cons; [by right | by left].
  - split; [done|]. unfold relayRejectedBeforeBroadcast in Hs. by bool_reflect.
Qed.
End Results.

(** ** Waiting ends *)

(** The clock does not run back, and a sleep takes its time. *)
Fixpoint clock_runs (pollMs deadline start : Z) (polls : list Poll.t) : Prop :=
  match polls with
  | [] => True
  | p :: polls =>
      start <= p.(Poll.answered) ∧
      p.(Poll.answered) + sleep_time pollMs deadline p.(Poll.answered) <= p.(Poll.woken) ∧
      clock_runs pollMs deadline p.(Poll.woken) polls
  end.

(** What ends the wait with an error *)
Definition says_failed (p : Poll.t) : Prop :=
  ∃ status body, p.(Poll.reply) = Answer status body ∧
    ((is_ok_status status = true ∧ ∃ v, body = Some v ∧ get v "status" = VString "failed")
     ∨ (is_ok_status status = false ∧ status ≠ 404)).

Lemma poll_ends paymentId timeoutMs pollMs deadline : 0 < pollMs → ∀ (n : nat) polls start latest,
  clock_runs pollMs deadline start polls → deadline - start <= Z.of_nat n * pollMs → (n < length polls)%nat →
  ∃ r, poll_loop paymentId timeoutMs deadline latest polls = Some r.
Proof.
  intros Hp. induction n as [|n IH]; intros [|p polls] start latest Hc Hd Hl; cbn [length] in Hl; try lia;
    cbn [poll_loop]; destruct Hc as (H1 & H2 & H3); unfold sleep_time in H2.
  - assert ((deadline <=? p.(Poll.answered)) = true) as -> by (apply Z.leb_le; lia). cbn [orb].
    destruct (Poll.reply p) as [status body|]; [|eauto]. destruct (is_ok_status status); [|destruct (status =? 404); eauto].
    destruct body as [v|]; [|eauto]. destruct (nullish v); [eauto|]. destruct (bool_decide _); eauto.
  - assert (∀ latest, ∃ r, (if (deadline <=? p.(Poll.answered)) || negb (p.(Poll.woken) <=? deadline) then
          Some (Ok (toolResult [("action", VString "payment_pending"); ("paymentId", VString paymentId); ("payment", latest);
            ("timeoutMs", VNumber (JInt timeoutMs)); ("message", VString UNRESOLVED)] false))
        else poll_loop paymentId timeoutMs deadline latest polls) = Some r) as Hgo.
    { intros l. destruct (deadline <=? p.(Poll.answered)) eqn:E1; [eauto|]. destruct (p.(Poll.woken) <=? deadline) eqn:E2; [|eauto].
      bool_reflect. cbn [orb negb]. apply (IH polls p.(Poll.woken)); [done|lia|lia]. }
    destruct (Poll.reply p) as [status body|]; [|eauto]. destruct (is_ok_status status); [|destruct (status =? 404); cbn [negb]; eauto].
    destruct body as [v|]; [|eauto]. destruct (nullish v); [eauto|]. destruct (bool_decide _); eauto.
Qed.

Lemma poll_errors paymentId timeoutMs deadline polls : ∀ latest out,
  poll_loop paymentId timeoutMs deadline latest polls = Some (Ok out) → out.(ToolResult.isError) = true → Exists says_failed polls.
Proof.
  induction polls as [|p polls IH]; [done|]. intros latest out. cbn [poll_loop].
  assert (∀ latest, (if (deadline <=? p.(Poll.answered)) || negb (p.(Poll.woken) <=? deadline) then
          Some (Ok (toolResult [("action", VString "payment_pending"); ("paymentId", VString paymentId); ("payment", latest);
            ("timeoutMs", VNumber (JInt timeoutMs)); ("message", VString UNRESOLVED)] false))
        else poll_loop paymentId timeoutMs deadline latest polls) = Some (Ok out) → out.(ToolResult.isError) = true →
        Exists says_failed (p :: polls)) as Hgo.
  { intros l. destruct (_ || _); [by intros [= <-]|]. intros H1 H2. apply Exists_cons_tl. by eapply IH. }
  destruct (Poll.reply p) as [status body|] eqn:Er; [|by intros [= <-]]. destruct (is_ok_status status) eqn:Eo.
  - destruct body as [v|]; [|done]. destruct (nullish v); [done|]. destruct (bool_decide _); [|apply Hgo]. intros [= <-] H. cbn in H.
    apply Exists_cons_hd. exists status, (Some v). split; [done|]. left. split; [done|]. exists v. split; [done|]. by apply strict_eq_string.
  - destruct (status =? 404) eqn:E4; cbn [negb]; [apply Hgo|]. intros [= <-] _. bool_reflect.
    apply Exists_cons_hd. exists status, body. auto.
Qed.

Section Waiting.
Context {S : Type} `{FS : PaymentFlowStore S}.

Lemma unsigned_bounds v name n : unsignedInteger v name = Ok n → 0 <= n <= MAX_U64.
Proof.
  unfold unsignedInteger. intros H. apply bind_ok in H as (s & _ & H). apply if_throw_ok in H as [Hd H].
  apply if_throw_ok in H as [Hm H]. injection H as <-. bool_reflect. unfold all_digits in Hd. bool_reflect.
  split; [|done]. by apply chars_value_bound.
Qed.

Lemma wait_bounds c args now s paymentId timeoutMs pollMs :
  wait_arguments c args now s = Ok (paymentId, timeoutMs, pollMs) → 0 <= timeoutMs <= 120000 ∧ 50 <= pollMs <= 10000.
Proof.
  unfold wait_arguments. intros H. apply bind_ok in H as (id & _ & H). apply if_throw_ok in H as [_ H].
  apply bind_ok in H as (u & _ & H). apply bind_ok in H as (t & Ht0 & H). apply bind_ok in H as (q & _ & H).
  apply if_throw_ok in H as [Ht H]. apply if_throw_ok in H as [Hq H]. injection H as -> -> ->. bool_reflect.
  assert (0 <= timeoutMs) by (destruct (undefined (field args "timeoutMs")); [injection Ht0 as <-; lia | apply unsigned_bounds in Ht0; lia]). lia.
Qed.

(** C18: A call of [waitForPayment] whose arguments are accepted ends: whatever the relay answers, as long as the clock
    does not run back, the last of its requests is one of the first [timeoutMs / pollMs + 2], which is at most 2402; and
    it reports an error only when an answer said that the payment failed or was itself an error other than a 404. *)
Theorem wait_ends c args now started s polls paymentId timeoutMs pollMs :
  wait_arguments c args now s = Ok (paymentId, timeoutMs, pollMs) →
  clock_runs pollMs (started + timeoutMs) started polls →
  timeoutMs / pollMs + 2 <= Z.of_nat (length polls) →
  given_text c.(PaymentContext.backendUrl) ≠ None →
  timeoutMs / pollMs + 2 <= 2402 ∧
  ∃ r, waitForPayment c args now started s polls = Some r ∧
    ∀ out, r = Ok out → out.(ToolResult.isError) = true → Exists says_failed polls.
Proof.
  intros Ha Hc Hl Hu. pose proof (wait_bounds _ _ _ _ _ _ _ Ha) as [Ht Hp].
  assert (0 <= timeoutMs / pollMs) by (apply Z.div_pos; lia). split.
  { assert (timeoutMs / pollMs <= 2400) by (apply Z.div_le_upper_bound; lia). lia. }
  destruct (given_text (PaymentContext.backendUrl c)) as [url|] eqn:Eu; [|done].
  destruct (poll_ends paymentId timeoutMs pollMs (started + timeoutMs) ltac:(lia) (Z.to_nat (timeoutMs / pollMs + 1)) polls started
    VUndefined Hc) as [r Hr]; [| |exists r; split].
  - pose proof (Z.mul_succ_div_gt timeoutMs pollMs ltac:(lia)). rewrite Z2Nat.id by lia. lia.
  - lia.
  - unfold waitForPayment. by rewrite Eu, Ha.
  - intros out -> He. by eapply poll_errors.
Qed.
End Waiting.
End Pay.

(** ** Concrete payments *)

#[local] Existing Instance Base58.keys.
#[local] Existing Instance model_hash.
#[local] Existing Instance TextCodec.codec.

#[local] Existing Instance ModelEd25519.keys.

Definition payer_mandate : Address := Eval vm_compute in toBase58 (sample_key 61).
Definition payer_agent : Address := Eval vm_compute in toBase58 (sample_key 62).
Definition paid_mint : Address := Eval vm_compute in toBase58 (sample_key 63).
Definition paid_account : Address := Eval vm_compute in toBase58 (sample_key 64).
Definition some_hash : string := Eval vm_compute in bytesToHex (repeat (byte_of 7) 32).

Definition ready_plan : PreparedPayment.t :=
  PreparedPayment.mk "receipt" (PaymentPreflight.mk true 100 [PolicyCheck.mk "per_payment_limit" true "Within the limit"]) VNull
    (PreparedTransaction.mk [ChainPayInstruction.mk "execute_payment" "program" [] [byte_of 1; byte_of 2]] [payer_agent] (Some payer_agent)).

#[local] Instance chain : PaymentClient := {
  getCurrentSlot := Ok 100;
  client_prepare _ _ := Ok ready_plan;
  materialized _ := Ok ("AQI=", VNull);
}.

Definition caller : PaymentContext.t := PaymentContext.mk (Some "owner") (Some payer_agent) (Some "https://relay/") (Some "token") true.

Definition payment_args : value := VObject [
  ("mandate", VString payer_mandate); ("invoiceHash", VString some_hash); ("paymentId", VString some_hash);
  ("signatureReference", VString some_hash); ("mint", VString paid_mint); ("recipient", VString paid_account);
  ("amount", VString "1000"); ("agent", VString payer_agent); ("signedTransaction", VString " AQID ")].

Definition confirming : Relay := λ _, Answer 200 (Some (VObject [("status", VString "confirmed"); ("signature", VString "sig1")])).
Definition refusing : Relay := λ _, Answer 422 (Some (VObject [("error", VString "bad request")])).
Definition silent : Relay := λ _, NoAnswer (failed_error "TimeoutError" "").

Definition pay_over (R : Relay) : Tool ToolResult.t := executePayment (R := R) None caller payment_args None 0 inMemory.

Example paid_once : length (submissions (pay_over confirming).1) = 1%nat.
Proof. vm_compute. reflexivity. Qed.

Definition out_of (t : Tool ToolResult.t) : ToolResult.t := match t.2 with Ok out => out | Throw _ => ToolResult.mk true [] end.
Definition sub_of (t : Tool ToolResult.t) : Submission.t := match submissions t.1 with s :: _ => s | [] => Submission.mk "" None [] end.

#[local] Instance no_reads : WidgetReads := { client_getMandate _ := Throw "offline"; client_getMintDecimals _ := Throw "offline" }.

Definition view_over (R : Relay) : option PaymentWidgetView.t :=
  paymentWidgetView None (Some "https://app/") "execute_payment" (fields_of payment_args) (as_result (out_of (pay_over R))).

Example shown_of_each :
  (PaymentWidgetView.state <$> view_over confirming, PaymentWidgetView.state <$> view_over refusing, PaymentWidgetView.state <$> view_over silent)
  = (Some w_settled, Some w_blocked, Some w_unknown).
Proof. vm_compute. reflexivity. Qed.

Lemma plain_confirming : relay_plain (R := confirming).
Proof. intros s status payload [= <- <-]. vm_compute. intros H. repeat (apply elem_of_cons in H as [H|H]; [done|]). by apply elem_of_nil in H. Qed.

Lemma plain_refusing : relay_plain (R := refusing).
Proof. intros s status payload [= <- <-]. vm_compute. intros H. repeat (apply elem_of_cons in H as [H|H]; [done|]). by apply elem_of_nil in H. Qed.

Lemma unknown_stays_pending_witness :
  (∃ key, field (sub_of (pay_over silent)).(Submission.body) "idempotency_key" = VString key ∧
          stays_pending caller key (out_of (pay_over silent))) ∧
  ∀ (WR : WidgetReads) app_url shown v,
    paymentWidgetView None app_url "execute_payment" shown (as_result (out_of (pay_over silent))) = Some v →
    v.(PaymentWidgetView.state) ≠ w_blocked ∧ v.(PaymentWidgetView.state) ≠ w_settled.
Proof.
  apply (unknown_stays_pending (R := silent) None caller payment_args None 0 inMemory (sub_of (pay_over silent)) (out_of (pay_over silent))).
  - vm_compute. reflexivity.
  - exact I.
  - vm_compute. reflexivity.
Defined.

Lemma settled_means_confirmed_witness : ∃ sub status payload signature,
  submissions (pay_over confirming).1 = [sub] ∧ post_settlement (Relay := confirming) sub = Answer status (Some payload) ∧
  is_ok_status status = true ∧ get payload "status" = VString "confirmed" ∧ get payload "signature" = VString signature.
Proof.
  apply (settled_means_confirmed (R := confirming) None caller payment_args None 0 inMemory (out_of (pay_over confirming))).
  - exact plain_confirming.
  - vm_compute. reflexivity.
  - right. exists None. eexists. split; vm_compute; reflexivity.
Defined.

Lemma refused_means_unsent_witness :
  submissions (pay_over refusing).1 = [] ∨
  ∃ sub status body,
    submissions (pay_over refusing).1 = [sub] ∧ post_settlement (Relay := refusing) sub = Answer status body ∧
    (is_duplicate (default (VObject []) body) = true ∨ is_ok_status status = false ∧ status ∈ RELAY_REJECTED_BEFORE_BROADCAST).
Proof.
  eapply (refused_means_unsent (R := refusing) None caller payment_args None 0 inMemory (out_of (pay_over refusing)) None []).
  - exact plain_refusing.
  - vm_compute. reflexivity.
  - vm_compute. reflexivity.
  - vm_compute. reflexivity.
Defined.

Definition wait_args : list (string * value) :=
  [("paymentId", VString "payment_1"); ("timeoutMs", VString "500"); ("pollMs", VString "500")].

Definition three_polls : list Poll.t :=
  [Poll.mk (Answer 404 None) 10 510; Poll.mk (Answer 200 (Some (VObject [("status", VString "pending")]))) 520 700;
   Poll.mk (Answer 200 (Some (VObject [("status", VString "confirmed")]))) 800 900].

Lemma wait_ends_witness : 500 / 500 + 2 <= 2402 ∧
  ∃ r, waitForPayment caller wait_args 0 0 inMemory three_polls = Some r ∧
    ∀ out, r = Ok out → out.(ToolResult.isError) = true → Exists says_failed three_polls.
Proof.
  apply (wait_ends caller wait_args 0 0 inMemory three_polls "payment_1" 500 500).
  - vm_compute. reflexivity.
  - cbn. unfold sleep_time. lia.
  - vm_compute. discriminate.
  - vm_compute. discriminate.
Defined.
