(* ===== verification/McpChain.v ===== *)
(** * From the payment tool to the chain

    The payment tool over the client: what a call submits is a payment the program
    settles, on a connection that answers for the state of the chain, and when a
    merchant signed for it, it is what the merchant signed.  How a prepared
    transaction is put in wire form is a parameter. *)
From Stdlib Require Import ZArith Lia Strings.Byte Strings.Ascii.
From stdpp Require Import base numbers sets strings list fin_maps gmap.
From S2P Require Import Prelude Bytes PublicKey Types Encoding Pda Program Accounts Payment Decimal TokenCapabilities Utf8 CardCommitment Values Signed MandateRequest PaymentRequest ReceiptReader ChainPayClient ChainPayClientProps MerchantProof McpConnections McpFlows McpTools McpPay McpPayProps.

(** [capabilityProfile] as [jsonSafe] gives it *)
Definition profile_value (p : TokenCapabilityProfile.t) : value :=
  let texts l := VArray (map VString l) in
  VObject ([("mint", VString p.(TokenCapabilityProfile.mint)); ("tokenProgram", VString (token_program_name p.(TokenCapabilityProfile.tokenProgram)));
    ("compatible", VBool p.(TokenCapabilityProfile.compatible)); ("mintExtensions", texts p.(TokenCapabilityProfile.mintExtensions));
    ("sourceAccountExtensions", texts p.(TokenCapabilityProfile.sourceAccountExtensions));
    ("recipientAccountExtensions", texts p.(TokenCapabilityProfile.recipientAccountExtensions));
    ("blockers", texts p.(TokenCapabilityProfile.blockers)); ("warnings", texts p.(TokenCapabilityProfile.warnings))]
    ++ match p.(TokenCapabilityProfile.transferFee) with
       | Some f => [("transferFee", VObject [("basisPoints", VNumber (JInt f.(TransferFee.basisPoints)));
                                             ("maximumFee", VString (toString f.(TransferFee.maximumFee)))])]
       | None => []
       end
    ++ match p.(TokenCapabilityProfile.transferHookProgram) with Some h => [("transferHookProgram", VString h)] | None => [] end).

Definition tool_plan (p : ChainPayClient.PreparedPayment.t) : McpPay.PreparedPayment.t :=
  McpPay.PreparedPayment.mk p.(ChainPayClient.PreparedPayment.receiptAddress) p.(ChainPayClient.PreparedPayment.preflight)
    (profile_value p.(ChainPayClient.PreparedPayment.capabilityProfile)) p.(ChainPayClient.PreparedPayment.transaction).

Section Chain.
Context `{K : PublicKeys, KS : !PublicKeysSpec K, T : SplToken, CN : Connection, ED : Ed25519, HS : Sha256, C : Codec, R : Relay}.
Context (programId : Address) (wire : PreparedTransaction.t → result (string * value)).

(** The client as the tools use it *)
Definition chain_client : PaymentClient := {|
  McpPay.getCurrentSlot := ChainPayClient.getCurrentSlot;
  client_prepare := λ input agent,
    match ChainPayClient.preparePayment (U := unit) programId input None (Some agent) with
    | Ok (inl p) => Ok (tool_plan p)
    | Ok (inr _) => Throw DUPLICATE_INVOICE_MESSAGE
    | Throw e => Throw e
    end;
  materialized := wire;
|}.

Lemma tool_prepared input agent plan :
  client_prepare (PaymentClient := chain_client) input agent = Ok plan →
  ∃ p, ChainPayClient.preparePayment (U := unit) programId input None (Some agent) = Ok (inl p) ∧ plan = tool_plan p.
Proof.
  cbn. destruct (ChainPayClient.preparePayment _ _ _ _) as [[p|a]|e]; [|done..]. intros [= <-]. by exists p.
Qed.

Context {S : Type} `{FS : PaymentFlowStore S} (demo_merchant : option Address).

(** The accounts and the state a prepared payment is executed with *)
Record at_chain (input : PaymentRequest.t) (p : ChainPayClient.PreparedPayment.t) (mandate_key : bytes) (slot : Z) (acc : ExecutePayment.t)
    (st : Chain.t) : Prop := {
  ac_answers : chain_answers programId input.(PaymentRequest.invoiceHash) mandate_key slot acc.(ExecutePayment.source_program) st;
  ac_mandate : publicKey input.(PaymentRequest.mandate) = Ok mandate_key;
  ac_accounts : executed_with p.(ChainPayClient.PreparedPayment.instruction) mandate_key acc;
  ac_hold : accounts_hold programId acc st;
}.

(** C2: What one call of [executePayment] submits, and what the chain makes of it.  A call that submits has prepared the
    payment of its arguments with the client, which reported it valid; with a merchant's request, the merchant's document
    names that invoice, mint, recipient and amount.  In delegated mode the bytes submitted are the prepared transaction's;
    in human mode they are the signed bytes the caller gave, which the tool does not compare with the prepared
    transaction.  On a connection that answers for the state of the chain, the program, given the accounts of the prepared
    instruction, executes the prepared payment with exactly the effect [settle], or refuses it for one of the three
    reasons of [client_accepted], which nothing here checks: another recipient than a legacy mandate's, an account the
    token program does not move, the counter at its last value. *)
Theorem submitted_payment_settles c args request now s sub :
  submissions (executePayment (PC := chain_client) demo_merchant c args request now s).1 = [sub] →
  ∃ fields parsed p,
    args = VObject fields ∧ parsePaymentInput fields = Ok parsed ∧
    ChainPayClient.preparePayment (U := unit) programId parsed.(ParsedPayment.input) None (Some parsed.(ParsedPayment.agent)) = Ok (inl p) ∧
    (∀ r, request = Some r → ∃ slot v, getSlot = Ok slot ∧ verifyPaymentRequest r (Some slot) = Ok v ∧
       v.(PaymentRequestVerification.valid) = true ∧
       v.(PaymentRequestVerification.invoiceHash) = parsed.(ParsedPayment.input).(PaymentRequest.invoiceHash) ∧
       v.(PaymentRequestVerification.payload).(PaymentRequestPayload.mint) = parsed.(ParsedPayment.input).(PaymentRequest.mint) ∧
       v.(PaymentRequestVerification.payload).(PaymentRequestPayload.recipient) = parsed.(ParsedPayment.input).(PaymentRequest.recipient) ∧
       v.(PaymentRequestVerification.payload).(PaymentRequestPayload.amount) = toString parsed.(ParsedPayment.input).(PaymentRequest.amount)) ∧
    (asked_delegated fields = true → ∃ bytes64 v, wire p.(ChainPayClient.PreparedPayment.transaction) = Ok (bytes64, v) ∧
       field sub.(Submission.body) "unsigned_transaction" = VString bytes64) ∧
    (asked_delegated fields = false → ∃ signed, given_signature fields = Some signed ∧
       field sub.(Submission.body) "signed_transaction" = VString signed) ∧
    ∀ mandate_key slot acc st, at_chain parsed.(ParsedPayment.input) p mandate_key slot acc st →
      execute_payment_params p.(ChainPayClient.PreparedPayment.instruction).(ChainPayInstruction.data)
        = Some (params_of p.(ChainPayClient.PreparedPayment.request)) ∧
      decides true (client_accepted acc st) mandate_key acc slot (params_of p.(ChainPayClient.PreparedPayment.request)) st.
Proof.
  intros Hsub.
  destruct (executePayment_settles (PC := chain_client) demo_merchant c args request now s) as [[H _]|(x & H & (fields & Hf & Ha) & _)];
    [by rewrite Hsub in H|]. rewrite Hsub in H. injection H as ->.
  destruct Ha as (parsed & kept & Hp & Hprep & Hv & _ & Hreq & _ & url & bearer & name & bytes64 & _ & _ & Hs & Hmode).
  destruct (tool_prepared _ _ _ Hprep) as (p & Hcp & Hplan). exists fields, parsed, p. split_and!; [done..| | | |].
  - intros r ->. destruct Hreq as (slot & v & E1 & E2 & E3 & E4 & E5 & E6 & E7 & _). by exists slot, v.
  - intros Hd. rewrite Hd in Hmode. destruct Hmode as (_ & -> & _ & _ & w & Hw). exists bytes64, w. rewrite Hplan in Hw. split; [done|]. by rewrite Hs.
  - intros Hd. rewrite Hd in Hmode. destruct Hmode as (_ & -> & Hsig). exists bytes64. split; [done|]. by rewrite Hs.
  - intros mandate_key slot acc st []. rewrite Hplan in Hv. cbn in Hv.
    destruct (prepared_decided programId mandate_key slot acc st _ None _ p ac_answers0 ac_mandate0 Hcp ac_accounts0 ac_hold0)
      as [H1 H2]. split; [done|]. by rewrite Hv in H2.
Qed.
End Chain.

(** ** A delegated payment on the chain of the client's examples *)

#[local] Existing Instance Base58.keys.
#[local] Existing Instance Base58.keys_spec.
#[local] Existing Instance model_hash.
#[local] Existing Instance TextCodec.codec.
#[local] Existing Instance ModelEd25519.keys.
#[local] Existing Instance sample_connection.
#[local] Existing Instance sample_tokens.
#[local] Existing Instance silent.

Definition agent_address : Address := Eval vm_compute in toBase58 (sample_key 12).

Definition chain_fields : list (string * value) := Eval vm_compute in [
  ("mandate", VString client_input.(PaymentRequest.mandate)); ("invoiceHash", VString (bytesToHex (sample_key 22)));
  ("paymentId", VString (bytesToHex (sample_key 23))); ("signatureReference", VString (bytesToHex (sample_key 25)));
  ("mint", VString client_input.(PaymentRequest.mint)); ("recipient", VString client_input.(PaymentRequest.recipient));
  ("amount", VString "700"); ("tokenProgram", VString "spl-token"); ("agent", VString agent_address); ("signingMode", VString "delegated")].

Definition sample_wire (t : PreparedTransaction.t) : result (string * value) := Ok ("AQI=", VNull).

Definition delegated_call : Tool ToolResult.t :=
  executePayment (PC := chain_client client_program sample_wire) None caller (VObject chain_fields) None 0 inMemory.

Lemma fields_parsed : parsePaymentInput chain_fields = Ok (ParsedPayment.mk client_input agent_address).
Proof. vm_compute. reflexivity. Qed.

Lemma prepared_for_agent :
  ChainPayClient.preparePayment (U := unit) client_program client_input None (Some agent_address) = Ok (inl the_payment).
Proof. vm_compute. reflexivity. Qed.

Lemma sample_at_chain : at_chain client_program client_input the_payment sample_mandate_key 120 sample_accounts sample_chain.
Proof.
  constructor.
  - exact sample_answers.
  - apply publicKey_sample.
  - exact sample_instruction_accounts.
  - exact sample_accounts_hold.
Qed.

Definition delegated_submission : Submission.t := Eval vm_compute in sub_of delegated_call.

Lemma delegated_submitted :
  submissions (executePayment (PC := chain_client client_program sample_wire) None caller (VObject chain_fields) None 0 inMemory).1
  = [delegated_submission].
Proof. vm_compute. reflexivity. Qed.

Lemma submitted_payment_settles_witness :
  execute_payment sample_mandate_key sample_accounts 120 (params_of the_payment.(ChainPayClient.PreparedPayment.request)) sample_chain
  = POk (settle sample_mandate_key sample_accounts 120 (params_of the_payment.(ChainPayClient.PreparedPayment.request)) sample_chain).
Proof.
  destruct (submitted_payment_settles client_program sample_wire None caller (VObject chain_fields) None 0 inMemory
    delegated_submission delegated_submitted) as (fields & parsed & p & Hf & Hp & Hprep & _ & _ & _ & Hall).
  apply (f_equal (λ v, match v with VObject f => f | _ => [] end)) in Hf. cbv beta iota in Hf. subst fields.
  rewrite fields_parsed in Hp. apply (f_equal (λ r, match r with Ok x => Some x | Throw _ => None end)) in Hp. cbv beta iota in Hp.
  injection Hp as Hp. subst parsed. cbn [ParsedPayment.input ParsedPayment.agent] in *. rewrite prepared_for_agent in Hprep.
  apply (f_equal (λ r, match r with Ok (inl x) => x | _ => the_payment end)) in Hprep. cbv beta iota in Hprep. subst p.
  exact (decides_settles _ _ _ _ _ _ (proj2 (Hall sample_mandate_key 120 sample_accounts sample_chain sample_at_chain)) sample_accepted).
Defined.
