(* ===== verification/TicTacToe.v ===== *)
(** * Tic-tac-toe against Bam Bam (frontend/src/pet/world/tttEngine.ts)

    The rules, the alpha-beta search over two 9-bit bitboards, and the choice of
    a move.  [Value] is the game's value by the rules alone, with no window and
    no fuel: the search returns it, so a player who follows the search on the
    hardest level never loses.

    Indices and bitboards are [Z]; a board is the list of its nine cells. *)
From Stdlib Require Import ZArith Lia Strings.Ascii.
From stdpp Require Import base numbers strings list relations.
From S2P Require Import Prelude Decimal.

(** ** Rules *)

Inductive Mark : Type := X | O.
Inductive Level : Type := chill | normal | spicy.

#[export] Instance Mark_eq_dec : EqDecision Mark.
Proof. solve_decision. Defined.
#[export] Instance Level_eq_dec : EqDecision Level.
Proof. solve_decision. Defined.

Abbreviation Cell := (option Mark).
Abbreviation Board := (list Cell).
Abbreviation Line := (Z * Z * Z)%type.

Definition LINES : list Line :=
  [(0, 1, 2); (3, 4, 5); (6, 7, 8); (0, 3, 6); (1, 4, 7); (2, 5, 8); (0, 4, 8); (2, 4, 6)].

(** [1 << i], and a line's mask *)
Definition bit (i : Z) : Z := Z.shiftl 1 i.
Definition line_mask (l : Line) : Z := let '(a, b, c) := l in Z.lor (Z.lor (bit a) (bit b)) (bit c).
Definition LINE_MASKS : list Z := map line_mask LINES.
Definition FULL : Z := 511.

Definition emptyBoard : Board := replicate 9 None.

(** [board[i]]: [None] is undefined, [Some None] is null *)
Definition cell (board : Board) (i : Z) : option Cell := if i <? 0 then None else board !! Z.to_nat i.

Definition is_null (board : Board) (i : Z) : bool := bool_decide (cell board i = Some None).
Definition holds (board : Board) (mark : Mark) (i : Z) : bool := bool_decide (cell board i = Some (Some mark)).

Definition other (mark : Mark) : Mark := match mark with X => O | O => X end.

Fixpoint first_line (lines : list Line) (board : Board) : option (Mark * Line) :=
  match lines with
  | [] => None
  | (a, b, c) :: lines =>
      match cell board a with
      | Some (Some mark) =>
          if bool_decide (cell board b = Some (Some mark)) && bool_decide (cell board c = Some (Some mark))
          then Some (mark, (a, b, c)) else first_line lines board
      | _ => first_line lines board
      end
  end.

Definition winner (board : Board) : option (Mark * Line) := first_line LINES board.

Inductive Outcome : Type := win (mark : Mark) (line : Line) | draw.

Definition outcome (board : Board) : option Outcome :=
  match winner board with
  | Some (mark, line) => Some (win mark line)
  | None => if forallb (λ c : Cell, bool_decide (c ≠ None)) board then Some draw else None
  end.

Definition count (board : Board) (mark : Mark) : nat :=
  length (List.filter (λ c : Cell, bool_decide (c = Some mark)) board).

Definition toMove (board : Board) : Mark := if Nat.eqb (count board X) (count board O) then X else O.

Definition is_none {A} (o : option A) : bool := match o with None => true | Some _ => false end.

Definition canPlay (board : Board) (index : Z) (mark : Mark) : bool :=
  (0 <=? index) && (index <? 9) && is_null board index && is_none (outcome board)
  && bool_decide (toMove board = mark).

Definition play (board : Board) (index : Z) (mark : Mark) : Board :=
  if canPlay board index mark then <[Z.to_nat index := Some mark]> board else board.

(** ** Bitboards *)

Fixpoint mask_from (board : Board) (mark : Mark) (i m : Z) : Z :=
  match board with
  | [] => m
  | c :: board => mask_from board mark (i + 1) (if bool_decide (c = Some mark) then Z.lor m (bit i) else m)
  end.
Definition maskOf (board : Board) (mark : Mark) : Z := mask_from board mark 0 0.

Definition isWin (m : Z) : bool := existsb (λ w, Z.land m w =? w) LINE_MASKS.
Definition emptyCells (taken : Z) : list Z := List.filter (λ i, Z.land taken (bit i) =? 0) (seqZ 0 9).

(** ** The search *)

(** The numbers that occur as scores *)
Inductive score : Type := MinusInfinity | Points (z : Z) | PlusInfinity.

Definition neg (s : score) : score :=
  match s with MinusInfinity => PlusInfinity | Points z => Points (- z) | PlusInfinity => MinusInfinity end.

(** [a > b] *)
Definition gtb (a b : score) : bool :=
  match a, b with
  | PlusInfinity, PlusInfinity | MinusInfinity, _ => false
  | PlusInfinity, _ | _, MinusInfinity => true
  | Points _, PlusInfinity => false
  | Points a, Points b => b <? a
  end.
Definition geb (a b : score) : bool := negb (gtb b a).
Definition maximum (a b : score) : score := if gtb b a then b else a.

(** The loop over the empty cells, given the score of each *)
Fixpoint search (move : Z → score → score → score) (cells : list Z) (best alpha beta : score) : score :=
  match cells with
  | [] => best
  | i :: cells =>
      let s := move i alpha beta in
      let best := if gtb s best then s else best in
      let alpha := if gtb s alpha then s else alpha in
      if geb alpha beta then best else search move cells best alpha beta
  end.

(** The fuel bounds the depth of the recursion: more than the number of empty
    cells is enough ([negamax_value]). *)
Fixpoint negamax (fuel : nat) (me opp : Z) (depth : Z) (alpha beta : score) : score :=
  match fuel with
  | 0%nat => MinusInfinity
  | S fuel =>
      if isWin opp then Points (- (10 - depth))
      else if Z.lor me opp =? FULL then Points 0
      else search (λ i alpha beta,
             neg (negamax fuel opp (Z.lor me (bit i)) (depth + 1) (neg beta) (neg alpha)))
             (emptyCells (Z.lor me opp)) MinusInfinity alpha beta
  end.

Definition DEPTH : nat := 10.

Module ScoredMove.
Record t : Type := mk { index : Z; score : score }.
End ScoredMove.

Definition scoreMoves (board : Board) (mark : Mark) : list ScoredMove.t :=
  let me := maskOf board mark in
  let opp := maskOf board (other mark) in
  map (λ index, ScoredMove.mk index
         (neg (negamax DEPTH opp (Z.lor me (bit index)) 1 MinusInfinity PlusInfinity)))
    (emptyCells (Z.lor me opp)).

(** ** Choosing a move *)

(** The cell that wins for [mark] right now: the first line with two marks and
    one empty cell. *)
Fixpoint winning_in (lines : list Line) (board : Board) (mark : Mark) : option Z :=
  match lines with
  | [] => None
  | (a, b, c) :: lines =>
      let mine := List.filter (holds board mark) [a; b; c] in
      match List.filter (is_null board) [a; b; c] with
      | [i] => if Nat.eqb (length mine) 2 then Some i else winning_in lines board mark
      | _ => winning_in lines board mark
      end
  end.
Definition winningCell (board : Board) (mark : Mark) : option Z := winning_in LINES board mark.

Inductive MoveReason : Type := reason_win | reason_block | reason_fork | reason_center | reason_corner | reason_side.

Definition threats (board : Board) (mark : Mark) : nat :=
  length (List.filter (λ '(a, b, c),
    Nat.eqb (length (List.filter (holds board mark) [a; b; c])) 2 && existsb (is_null board) [a; b; c]) LINES).

Definition reasonFor (board : Board) (index : Z) (mark : Mark) : MoveReason :=
  if bool_decide (winningCell board mark = Some index) then reason_win
  else if bool_decide (winningCell board (other mark) = Some index) then reason_block
  else if Nat.leb 2 (threats (play board index mark) mark) then reason_fork
  else if index =? 4 then reason_center
  else if Z.rem index 2 =? 0 then reason_corner else reason_side.

Module Memory.
Record t : Type := mk { missedBlock : bool }.
End Memory.

(** [rand()] is a double in [0, 1): a multiple of 2^-53, here its numerator.  The
    draws are a stream [rand], read from position [n]. *)
Definition ONE : Z := 2 ^ 53.

(** 0.8 and the rates 0.55 and 0.2 as doubles, in the same unit (0.2 lies half a
    unit below) *)
Definition STRONG_RATE : Z := 7205759403792794.
Definition MISTAKE_RATE (level : Level) : Z :=
  match level with chill => 4953959590107546 | normal => 1801439850948199 | spicy => 0 end.

(** The double nearest to [m / 2^53], ties to even, in the same unit *)
Definition round (m : Z) : Z :=
  let e := Z.log2 m - 52 in
  if e <=? 0 then m
  else
    let q := m / 2 ^ e in
    let r := m mod 2 ^ e in
    let half := 2 ^ (e - 1) in
    (if (half <? r) || ((r =? half) && Z.odd q) then q + 1 else q) * 2 ^ e.

(** [list[Math.min(list.length - 1, Math.floor(rand() * list.length))]] *)
Definition pickFrom {A} (list : list A) (draw : Z) : option A :=
  let length := Z.of_nat (length list) in
  let i := Z.min (length - 1) (round (draw * length) / ONE) in
  if i <? 0 then None else list !! Z.to_nat i.

(** [pickFrom(list, rand).index]: of undefined it throws *)
Definition pick_index (list : list ScoredMove.t) (draw : Z) : result Z :=
  match pickFrom list draw with
  | Some m => Ok m.(ScoredMove.index)
  | None => Throw "Cannot read properties of undefined (reading 'index')"
  end.

(** [Math.max(...scored.map((m) => m.score))] *)
Definition best_score (scored : list ScoredMove.t) : score :=
  foldr maximum MinusInfinity (map ScoredMove.score scored).

Definition score_eqb (a b : score) : bool := negb (gtb a b) && negb (gtb b a).
Definition scoring (s : score) (scored : list ScoredMove.t) : list ScoredMove.t :=
  List.filter (λ m, score_eqb m.(ScoredMove.score) s) scored.

Section Choose.
Variable rand : nat → Z.

(** The index and the number of draws after it *)
Definition pickBest (board : Board) (level : Level) (bestMoves : list ScoredMove.t) (n : nat)
    : result (Z * nat) :=
  if bool_decide (level = spicy) && forallb (λ c : Cell, bool_decide (c = None)) board then
    let strong := List.filter (λ m, Z.rem m.(ScoredMove.index) 2 =? 0) bestMoves in
    let! i := pick_index (if rand n <? STRONG_RATE then strong else bestMoves) (rand (S n)) in
    Ok (i, S (S n))
  else
    let! i := pick_index bestMoves (rand n) in
    Ok (i, S n).

Definition chooseMove (board : Board) (mark : Mark) (level : Level) (memory : Memory.t) (n : nat)
    : result (Z * Memory.t * nat) :=
  let scored := scoreMoves board mark in
  throw_if! Nat.eqb (length scored) 0 with "no legal move";
  match winningCell board mark with
  | Some i => Ok (i, Memory.mk false, n)
  | None =>
      let best := best_score scored in
      let bestMoves := scoring best scored in
      let block := winningCell board (other mark) in
      let mustBlock := bool_decide (level = chill) && negb (is_none block) && memory.(Memory.missedBlock) in
      let certain := bool_decide (level = spicy) || mustBlock in
      let n' := if certain then n else S n in
      if certain || (MISTAKE_RATE level <=? rand n) then
        match block with
        | Some i => if mustBlock then Ok (i, Memory.mk false, n')
                    else let! (i, n) := pickBest board level bestMoves n' in Ok (i, Memory.mk false, n)
        | None => let! (i, n) := pickBest board level bestMoves n' in Ok (i, Memory.mk false, n)
        end
      else
        let worse := List.filter (λ m, gtb best m.(ScoredMove.score)) scored in
        if Nat.eqb (length worse) 0 then
          let! (i, n) := pickBest board level bestMoves n' in Ok (i, Memory.mk false, n)
        else
          let! index := pick_index (scoring (best_score worse) worse) (rand n') in
          Ok (index,
              Memory.mk match block with Some i => negb (index =? i) | None => false end, S n')
  end.
End Choose.

(** [/^Numpad([1-9])$/] and [/^[1-9]$/] *)
Definition key_digit (key : list ascii) : option Z :=
  match key with
  | [c] => if is_digit c && negb (char_digit c =? 0) then Some (char_digit c) else None
  | _ => None
  end.

Definition cellForKey (key code : string) : option Z :=
  let pad := if bool_decide (take 6 (chars code) = chars "Numpad") then key_digit (drop 6 (chars code)) else None in
  match pad with
  | Some n => Some ((2 - (n - 1) / 3) * 3 + Z.rem (n - 1) 3)
  | None => (λ n, n - 1) <$> key_digit (chars key)
  end.

(** ** Scores are ordered

    [tag] and [points] embed the scores in pairs of integers, ordered
    lexicographically, where [lia] decides. *)
Definition tag (s : score) : Z := match s with MinusInfinity => -1 | Points _ => 0 | PlusInfinity => 1 end.
Definition points (s : score) : Z := match s with Points z => z | _ => 0 end.
Definition sle (a b : score) : Prop := gtb a b = false.

Lemma gtb_key a b : gtb a b = true ↔ tag b < tag a ∨ tag b = tag a ∧ points b < points a.
Proof. destruct a, b; simpl; rewrite ?Z.ltb_lt; intuition (done || lia). Qed.
Lemma sle_key a b : sle a b ↔ tag a < tag b ∨ tag a = tag b ∧ points a <= points b.
Proof. unfold sle. rewrite <- not_true_iff_false, gtb_key. destruct a, b; simpl; lia. Qed.
Lemma key_inj a b : tag a = tag b → points a = points b → a = b.
Proof. destruct a, b; simpl; intros; first [done | f_equal; lia]. Qed.
Lemma tag_neg a : tag (neg a) = - tag a.
Proof. by destruct a. Qed.
Lemma points_neg a : points (neg a) = - points a.
Proof. by destruct a. Qed.

(** Order facts on scores: every hypothesis to integers, then [lia]. *)
Ltac score_lia :=
  repeat match goal with
  | H : gtb _ _ = true |- _ => rewrite gtb_key in H
  | H : gtb ?a ?b = false |- _ => change (sle a b) in H
  | H : context [sle _ _] |- _ => rewrite !sle_key in H
  | H : @eq score ?a ?b |- _ =>
      let E := fresh "E" in pose proof (f_equal tag H) as E;
      apply (f_equal points) in H
  end;
  rewrite ?sle_key, ?tag_neg, ?points_neg in *; simpl tag in *; simpl points in *;
  lazymatch goal with
  | |- @eq score _ _ => apply key_inj; rewrite ?tag_neg, ?points_neg; lia
  | _ => lia
  end.

(** The same from the named facts only *)
Tactic Notation "order_by" hyp_list(hs) := clear -hs; score_lia.

Lemma sle_refl a : sle a a.
Proof. score_lia. Qed.
Lemma minus_least a : sle MinusInfinity a.
Proof. destruct a; score_lia. Qed.
Lemma neg_neg a : neg (neg a) = a.
Proof. score_lia. Qed.
Lemma maximum_spec a b : sle a (maximum a b) ∧ sle b (maximum a b) ∧ (maximum a b = a ∨ maximum a b = b).
Proof. unfold maximum. destruct (gtb b a) eqn:E; split_and!; auto; score_lia. Qed.

Definition best_of (l : list score) : score := foldr maximum MinusInfinity l.

Lemma best_of_ge l s : s ∈ l → sle s (best_of l).
Proof.
  induction 1 as [s l|s t l _ IH]; simpl.
  - apply maximum_spec.
  - destruct (maximum_spec t (best_of l)) as (_ & H & _). score_lia.
Qed.

Lemma best_of_in l : l ≠ [] → best_of l ∈ l.
Proof.
  induction l as [|s l IH]; [done|]. intros _. simpl. destruct l as [|t l].
  { simpl. unfold maximum. destruct s; simpl; by left. }
  destruct (maximum_spec s (best_of (t :: l))) as (_ & _ & [E|E]); rewrite E; [by left|].
  right. by apply IH.
Qed.

(** ** The search is exact

    A search with a window returns a bound on the value, on the side where it
    falls, and the value itself inside the window. *)
Definition within (v r alpha beta : score) : Prop :=
  (sle r alpha → sle v r) ∧ (sle beta r → sle r v) ∧ (¬ sle r alpha → ¬ sle beta r → r = v).

Lemma within_neg v r alpha beta : within v r (neg beta) (neg alpha) → within (neg v) (neg r) alpha beta.
Proof.
  intros (H1 & H2 & H3). unfold within. split_and!; intros.
  - assert (sle r v) by (apply H2; score_lia). score_lia.
  - assert (sle v r) by (apply H1; score_lia). score_lia.
  - f_equal. apply H3; score_lia.
Qed.

(** [if (s > x) x = s] *)
Lemma replaced s x (x' := if gtb s x then s else x) :
  sle s x' ∧ sle x x' ∧ (x' = s ∧ ¬ sle s x ∨ x' = x ∧ sle s x).
Proof. unfold x'. destruct (gtb s x) eqn:E; split_and!; [| |left| | |right]; try split; try done; score_lia. Qed.

(** The loop, when each move's score is within its window: [alpha] is the larger
    of the window's lower end and the best score so far, and [seen] the best
    value of the cells done. *)
Lemma search_within move (value : Z → score) beta alpha0 cells : ∀ best alpha seen,
  (∀ i a, i ∈ cells → ¬ sle beta a → within (value i) (move i a beta) a beta) →
  sle alpha0 alpha → sle best alpha → alpha = alpha0 ∨ alpha = best → ¬ sle beta alpha →
  (sle best alpha0 → sle seen best) → (¬ sle best alpha0 → seen = best) →
  within (maximum seen (best_of (map value cells))) (search move cells best alpha beta) alpha0 beta.
Proof.
  induction cells as [|i cells IH]; intros best alpha seen Hm A1 A2 A3 Ha H1 H2; simpl.
  { destruct (maximum_spec seen MinusInfinity) as (M1 & M2 & M3). pose proof (minus_least seen).
    assert (maximum seen MinusInfinity = seen) as -> by (destruct M3; score_lia).
    unfold within. split_and!; [done| |intros; symmetry; auto]. intros. destruct A3; score_lia. }
  pose proof (Hm i alpha ltac:(by left) Ha) as (W1 & W2 & W3).
  set (s := move i alpha beta) in *. cbv zeta.
  set (best' := if gtb s best then s else best). set (alpha' := if gtb s alpha then s else alpha).
  clearbody s.
  assert (sle s best' ∧ sle best best' ∧ (best' = s ∧ ¬ sle s best ∨ best' = best ∧ sle s best)) as (B1 & B2 & B3)
    by apply replaced.
  assert (sle s alpha' ∧ sle alpha alpha' ∧ (alpha' = s ∧ ¬ sle s alpha ∨ alpha' = alpha ∧ sle s alpha))
    as (C1 & C2 & C3) by apply replaced.
  clearbody best' alpha'.
  destruct (maximum_spec (value i) (best_of (map value cells))) as (M1 & M2 & M3).
  set (v := maximum (value i) (best_of (map value cells))) in *.
  destruct (maximum_spec seen v) as (N1 & N2 & N3). set (m := maximum seen v) in *.
  destruct (geb alpha' beta) eqn:Ec; unfold geb in Ec; bool_reflect.
  - assert (sle beta s) as Hs.
    { destruct C3 as [[-> _]|[-> _]]; [order_by Ec | order_by Ec Ha]. }
    specialize (W2 Hs). assert (sle beta best') as Hb by order_by Hs B1.
    assert (¬ sle best' alpha0) as Hn by order_by Hb Ha A1.
    unfold within. split_and!; intros; [done| |done].
    destruct B3 as [[-> _]|[-> _]]; [order_by W2 M1 N2|].
    exfalso. destruct A3 as [-> | ->]; [order_by Hb A2 Ha | order_by Hb Ha].
  - destruct (maximum_spec seen (value i)) as (P1 & P2 & P3). set (seen' := maximum seen (value i)) in *.
    assert (m = maximum seen' (best_of (map value cells))) as ->.
    { destruct (maximum_spec seen' (best_of (map value cells))) as (Q1 & Q2 & Q3).
      set (t := maximum seen' _) in *. assert (sle m t ∧ sle t m) as [T1 T2]; [|order_by T1 T2].
      split.
      - destruct N3 as [-> | ->]; [order_by P1 Q1|]. destruct M3 as [-> | ->]; [order_by P2 Q1 | done].
      - destruct Q3 as [-> | ->]; [|order_by M2 N2]. destruct P3 as [-> | ->]; [done | order_by M1 N2]. }
    assert (¬ sle beta s) as Hs by order_by Ec C1.
    apply IH.
    + intros j a Hj. apply Hm. by right.
    + order_by A1 C2.
    + destruct B3 as [[-> _]|[-> _]]; [done | order_by A2 C2].
    + destruct C3 as [[-> D]|[-> D]], B3 as [[-> B]|[-> B]]; auto.
      * left. order_by D B A2.
      * destruct A3 as [-> | ->]; [by left | done].
    + order_by Ec.
    + intros Hb'. assert (sle s alpha) as Hsa by order_by Hb' B1 A1. specialize (W1 Hsa).
      assert (sle seen best) as Hsb by (apply H1; order_by Hb' B2).
      destruct P3 as [-> | ->]; [order_by Hsb B2 | order_by W1 B1].
    + intros Hb'. destruct C3 as [[-> D]|[-> D]].
      * rewrite <- (W3 D Hs) in *. assert (sle seen s) as Hss.
        { destruct (gtb best alpha0) eqn:Eb.
          - rewrite H2 by order_by Eb. order_by D A2.
          - specialize (H1 Eb). order_by H1 D A2. }
        destruct B3 as [[-> _]|[-> B]]; [|exfalso; order_by D B A2].
        destruct P3 as [-> | ->]; [order_by Hss P2 | done].
      * specialize (W1 D). destruct A3 as [-> | ->].
        { exfalso. destruct B3 as [[-> _]|[-> _]]; [order_by Hb' D | order_by Hb' A2]. }
        destruct B3 as [[-> B]|[-> _]]; [exfalso; order_by B D|]. rewrite H2 in * by order_by Hb'.
        destruct P3 as [-> | ->]; [done | order_by P1 W1 D].
Qed.

(** ** The value of a position

    By the rules alone: a lost position counts its depth, a full board is 0, and
    otherwise the mover takes the best of the moves. *)
Inductive Value : Z → Z → Z → score → Prop :=
| Value_lost me opp depth : isWin opp = true → Value me opp depth (Points (- (10 - depth)))
| Value_full me opp depth : isWin opp = false → Z.lor me opp = FULL → Value me opp depth (Points 0)
| Value_moves me opp depth (value : Z → score) :
    isWin opp = false → Z.lor me opp ≠ FULL →
    (∀ i, i ∈ emptyCells (Z.lor me opp) → Value opp (Z.lor me (bit i)) (depth + 1) (value i)) →
    Value me opp depth (best_of (map (λ i, neg (value i)) (emptyCells (Z.lor me opp)))).

(** A bitboard pair: nine bits each *)
Definition bitboards (me opp : Z) : Prop := 0 <= me <= FULL ∧ 0 <= opp <= FULL.

Lemma Value_unique me opp depth v w : Value me opp depth v → Value me opp depth w → v = w.
Proof.
  intros Hv. revert w. induction Hv as [me opp d H|me opp d H Hf|me opp d value H Hf Hi IH];
    intros w Hw; inversion Hw; subst; try congruence.
  f_equal. apply map_ext_in. intros i Hin%list_elem_of_In. f_equal. by apply IH, H2.
Qed.

Lemma bit_spec i j : 0 <= i → Z.testbit (bit i) j = bool_decide (i = j).
Proof.
  intros Hi. unfold bit. destruct (decide (j < 0)) as [Hn|Hn].
  { rewrite Z.testbit_neg_r by done. symmetry. apply bool_decide_eq_false. lia. }
  rewrite Z.shiftl_spec by lia. case_bool_decide as E; [subst; by rewrite Z.sub_diag|].
  destruct (decide (j < i)); [by rewrite Z.testbit_neg_r by lia|].
  apply Z.bits_above_log2; [done|]. change (Z.log2 1) with 0. lia.
Qed.

Lemma bits_testbit t i : 0 <= i → (Z.land t (bit i) =? 0) = negb (Z.testbit t i).
Proof.
  intros Hi. destruct (Z.testbit t i) eqn:E; simpl.
  - apply Z.eqb_neq. intros H. apply (f_equal (λ x, Z.testbit x i)) in H.
    rewrite Z.land_spec, E, bit_spec, bool_decide_eq_true_2, Z.bits_0 in H by done. done.
  - apply Z.eqb_eq, Z.bits_inj'. intros j Hj. rewrite Z.land_spec, Z.bits_0, bit_spec by done.
    case_bool_decide; [subst; by rewrite E | by rewrite andb_false_r].
Qed.

Lemma elem_of_emptyCells t i : i ∈ emptyCells t ↔ 0 <= i < 9 ∧ Z.testbit t i = false.
Proof.
  unfold emptyCells. rewrite list_elem_of_In, filter_In, <- list_elem_of_In, elem_of_seqZ.
  split; [intros [H1 H2] | intros [H1 H2]]; (split; [lia|]).
  - rewrite bits_testbit in H2 by lia. by apply negb_true_iff.
  - rewrite bits_testbit, H2 by lia. done.
Qed.

(** Playing an empty cell leaves the other ones. *)
Lemma emptyCells_play me opp i :
  i ∈ emptyCells (Z.lor me opp) →
  (length (emptyCells (Z.lor opp (Z.lor me (bit i)))) < length (emptyCells (Z.lor me opp)))%nat.
Proof.
  intros H. pose proof H as [Hi Ht]%elem_of_emptyCells.
  assert (emptyCells (Z.lor opp (Z.lor me (bit i))) ≡ₚ List.filter (λ j, negb (j =? i)) (emptyCells (Z.lor me opp))) as ->.
  { apply NoDup_Permutation.
    - apply NoDup_ListNoDup, List.NoDup_filter, NoDup_ListNoDup, NoDup_seqZ.
    - apply NoDup_ListNoDup, List.NoDup_filter, List.NoDup_filter, NoDup_ListNoDup, NoDup_seqZ.
    - intros j. rewrite elem_of_emptyCells, list_elem_of_In, filter_In, <- list_elem_of_In, elem_of_emptyCells.
      rewrite !Z.lor_spec, bit_spec, negb_true_iff, Z.eqb_neq by lia.
      rewrite !orb_false_iff, bool_decide_eq_false. naive_solver. }
  clear Ht. revert H. generalize (emptyCells (Z.lor me opp)). induction 1 as [i l|i j l H IH]; simpl.
  - rewrite Z.eqb_refl. simpl. pose proof (filter_length (λ j, negb (j =? i)) l).
    pose proof (filter_length_le (λ j, negb (j =? i)) l). lia.
  - destruct (j =? i); simpl; [|specialize (IH Hi); lia].
    pose proof (filter_length_le (λ j, negb (j =? i)) l). lia.
Qed.

Lemma bitboards_play me opp i :
  bitboards me opp → i ∈ emptyCells (Z.lor me opp) → bitboards opp (Z.lor me (bit i)).
Proof.
  intros [Hm Ho] [Hi _]%elem_of_emptyCells. split; [done|]. split.
  - apply Z.lor_nonneg. split; [lia|]. unfold bit. apply Z.shiftl_nonneg. done.
  - assert (Z.lor me (bit i) < 2 ^ 9); [|unfold FULL; lia].
    destruct (decide (Z.lor me (bit i) = 0)); [lia|].
    assert (0 < Z.lor me (bit i)).
    { assert (0 <= Z.lor me (bit i)); [|lia]. apply Z.lor_nonneg. split; [lia|]. unfold bit. by apply Z.shiftl_nonneg. }
    apply Z.log2_lt_pow2; [done|]. unfold FULL in *.
    rewrite Z.log2_lor by (first [lia | unfold bit; by apply Z.shiftl_nonneg]).
    apply Z.max_lub_lt.
    + destruct (decide (me = 0)) as [->|]; [done|]. apply Z.log2_lt_pow2; lia.
    + unfold bit. rewrite Z.log2_shiftl by lia. simpl. lia.
Qed.

Lemma some_empty me opp : bitboards me opp → Z.lor me opp ≠ FULL → emptyCells (Z.lor me opp) ≠ [].
Proof.
  intros [Hm Ho] Hf He. apply Hf, Z.bits_inj'. intros i Hi.
  destruct (decide (i < 9)) as [H9|H9].
  - assert (Z.testbit FULL i = true) as ->.
    { assert (i ∈ seqZ 0 9) as Hs by (apply elem_of_seqZ; lia). clear Hi H9. revert i Hs.
      apply Forall_forall. repeat constructor. }
    destruct (Z.testbit (Z.lor me opp) i) eqn:E; [done|].
    assert (i ∈ emptyCells (Z.lor me opp)) as H by by apply elem_of_emptyCells. rewrite He in H. by apply not_elem_of_nil in H.
  - unfold FULL in *. rewrite Z.lor_spec.
    assert (∀ m, 0 <= m <= 511 → Z.testbit m i = false) as Hb.
    { intros m H. destruct (decide (m = 0)) as [->|]; [apply Z.bits_0|]. apply Z.bits_above_log2; [lia|].
      apply Z.lt_le_trans with 9; [|lia]. apply Z.log2_lt_pow2; lia. }
    rewrite !Hb by lia. done.
Qed.

Lemma within_full v r : (∃ z, v = Points z) → within v r MinusInfinity PlusInfinity → r = v.
Proof.
  intros [z ->] (H1 & H2 & H3). apply H3.
  - intros H. specialize (H1 H). order_by H H1.
  - intros H. specialize (H2 H). order_by H H2.
Qed.

Lemma maximum_least s : maximum MinusInfinity s = s.
Proof. by destruct s. Qed.

Lemma negamax_within fuel : ∀ me opp depth,
  bitboards me opp → (length (emptyCells (Z.lor me opp)) < fuel)%nat →
  ∃ v, Value me opp depth v ∧ (∃ z, v = Points z) ∧
    ∀ alpha beta, ¬ sle beta alpha → within v (negamax fuel me opp depth alpha beta) alpha beta.
Proof.
  induction fuel as [|fuel IH]; intros me opp depth Hb Hf; [lia|]. cbn [negamax].
  assert (∀ v alpha beta, within v v alpha beta) as Hself by (intros; unfold within; auto using sle_refl).
  destruct (isWin opp) eqn:Hw.
  { eexists. split; [by constructor|]. split; [by eexists | intros; apply Hself]. }
  destruct (Z.lor me opp =? FULL) eqn:Hfull; bool_reflect.
  { eexists. split; [by constructor|]. split; [by eexists | intros; apply Hself]. }
  set (cells := emptyCells (Z.lor me opp)) in *.
  set (value i := negamax fuel opp (Z.lor me (bit i)) (depth + 1) MinusInfinity PlusInfinity).
  assert (∀ i, i ∈ cells → Value opp (Z.lor me (bit i)) (depth + 1) (value i) ∧ (∃ z, value i = Points z) ∧
    ∀ alpha beta, ¬ sle beta alpha →
      within (value i) (negamax fuel opp (Z.lor me (bit i)) (depth + 1) alpha beta) alpha beta) as Hv.
  { intros i Hi. destruct (IH opp (Z.lor me (bit i)) (depth + 1)) as (v & H1 & H2 & H3).
    - by apply bitboards_play.
    - pose proof (emptyCells_play _ _ _ Hi). fold cells in H. lia.
    - assert (value i = v) as -> by (apply within_full; [done|]; by apply H3). done. }
  exists (best_of (map (λ i, neg (value i)) cells)). split; [|split].
  - apply Value_moves; [done|done|]. intros i Hi. by apply Hv.
  - assert (best_of (map (λ i, neg (value i)) cells) ∈ map (λ i, neg (value i)) cells) as Hin.
    { apply best_of_in. intros E%map_eq_nil. by apply (some_empty me opp). }
    apply list_elem_of_In, in_map_iff in Hin as (i & <- & Hi%list_elem_of_In).
    destruct (Hv i Hi) as (_ & (z & ->) & _). by exists (- z).
  - intros alpha beta Hab. rewrite <- (maximum_least (best_of _)). apply search_within; auto using sle_refl, minus_least.
    intros i a Hi Ha. apply within_neg. apply Hv; [done|]. order_by Ha.
Qed.

Lemma emptyCells_length t : (length (emptyCells t) < DEPTH)%nat.
Proof.
  unfold emptyCells. pose proof (filter_length_le (λ i, Z.land t (bit i) =? 0) (seqZ 0 9)) as H.
  rewrite length_seqZ in H. unfold DEPTH. lia.
Qed.

Lemma negamax_full me opp depth :
  bitboards me opp → Value me opp depth (negamax DEPTH me opp depth MinusInfinity PlusInfinity).
Proof.
  intros Hb. destruct (negamax_within DEPTH me opp depth Hb (emptyCells_length _)) as (v & Hv & Hz & Hw).
  by rewrite (within_full v) by (first [done | by apply Hw]).
Qed.

Lemma negamax_window me opp depth v alpha beta :
  bitboards me opp → Value me opp depth v → ¬ sle beta alpha →
  within v (negamax DEPTH me opp depth alpha beta) alpha beta.
Proof.
  intros Hb Hv Hab. destruct (negamax_within DEPTH me opp depth Hb (emptyCells_length _)) as (w & Hw & _ & H).
  rewrite (Value_unique _ _ _ _ _ Hv Hw). by apply H.
Qed.

(** ** The value's sign does not depend on the depth *)

Definition sign (s : score) : Z := match s with MinusInfinity => -1 | Points z => Z.sgn z | PlusInfinity => 1 end.

Lemma sign_neg s : sign (neg s) = - sign s.
Proof. destruct s; simpl; [done| |done]. apply Z.sgn_opp. Qed.

Lemma sign_best l l' : Forall2 (λ s t, sign s = sign t) l l' → sign (best_of l) = sign (best_of l').
Proof.
  intros H. enough (∀ l, sign (best_of l) = foldr Z.max (-1) (map sign l)) as E.
  { rewrite !E. f_equal. induction H; simpl; congruence. }
  clear. induction l as [|s l IH]; simpl; [done|]. rewrite <- IH. generalize (best_of l). intros t.
  unfold maximum. destruct s as [|x|], t as [|y|]; simpl; try (pose proof (Z.sgn_spec x)); try (pose proof (Z.sgn_spec y)); try lia.
  destruct (x <? y) eqn:E; bool_reflect; simpl; lia.
Qed.

Lemma Value_sign me opp d d' v v' :
  Value me opp d v → Value me opp d' v' →
  d + Z.of_nat (length (emptyCells (Z.lor me opp))) <= 9 → d' + Z.of_nat (length (emptyCells (Z.lor me opp))) <= 9 →
  sign v = sign v'.
Proof.
  intros Hv. revert d' v'. induction Hv as [me opp d H|me opp d H Hf|me opp d value H Hf Hi IH];
    intros d' v' Hv' L L'; inversion Hv'; subst; try congruence.
  - simpl. rewrite !Z.sgn_neg by lia. done.
  - apply sign_best. clear -IH H2 L L'.
    assert (∀ i, i ∈ emptyCells (Z.lor me opp) → sign (neg (value i)) = sign (neg (value0 i))) as Hs.
    { intros i Hi. pose proof (emptyCells_play _ _ _ Hi). rewrite !sign_neg. f_equal.
      eapply IH; [done | by apply H2 | lia | lia]. }
    clear -Hs. induction (emptyCells (Z.lor me opp)) as [|i l IHl]; simpl; constructor.
    + apply Hs. by left.
    + apply IHl. intros j Hj. apply Hs. by right.
Qed.

(** ** Boards and bitboards *)

Lemma mask_from_spec board mark : ∀ i m j, 0 <= i →
  Z.testbit (mask_from board mark i m) j
    = Z.testbit m j || (i <=? j) && bool_decide (board !! Z.to_nat (j - i) = Some (Some mark)).
Proof.
  induction board as [|c board IH]; intros i m j Hi; simpl.
  { by rewrite andb_false_r, orb_false_r. }
  rewrite IH by lia. destruct (Z.compare_spec i j) as [->|Hlt|Hgt].
  - rewrite Z.sub_diag, Z.leb_refl, (proj2 (Z.leb_gt (j + 1) j)) by lia. simpl.
    rewrite orb_false_r. case_bool_decide as Ec; subst.
    + rewrite Z.lor_spec, bit_spec, !bool_decide_eq_true_2 by done. by rewrite !orb_true_r.
    + rewrite bool_decide_eq_false_2 by congruence. by rewrite orb_false_r.
  - rewrite (proj2 (Z.leb_le (i + 1) j)), (proj2 (Z.leb_le i j)) by lia. simpl.
    replace (Z.to_nat (j - i)) with (S (Z.to_nat (j - (i + 1)))) by lia. simpl. f_equal.
    case_bool_decide; [|done]. rewrite Z.lor_spec, bit_spec, bool_decide_eq_false_2 by lia. apply orb_false_r.
  - rewrite (proj2 (Z.leb_gt (i + 1) j)), (proj2 (Z.leb_gt i j)) by lia. simpl. rewrite !orb_false_r.
    case_bool_decide; [|done]. rewrite Z.lor_spec, bit_spec, bool_decide_eq_false_2 by lia. apply orb_false_r.
Qed.

Lemma maskOf_spec board mark i : Z.testbit (maskOf board mark) i = holds board mark i.
Proof.
  unfold maskOf, holds, cell. rewrite mask_from_spec by done. rewrite Z.bits_0, Z.sub_0_r. simpl.
  destruct (i <? 0) eqn:E; bool_reflect.
  - rewrite (proj2 (Z.leb_gt 0 i)) by lia. simpl. done.
  - by rewrite (proj2 (Z.leb_le 0 i)) by lia.
Qed.

Lemma holds_out board mark i : length board = 9%nat → 9 <= i → holds board mark i = false.
Proof.
  intros Hl Hi. apply bool_decide_eq_false. unfold cell. rewrite (proj2 (Z.ltb_ge i 0)) by lia.
  rewrite lookup_ge_None_2 by lia. done.
Qed.

Lemma maskOf_bitboard board mark : length board = 9%nat → 0 <= maskOf board mark <= FULL.
Proof.
  intros Hl. set (m := maskOf board mark). assert (m = Z.land m (Z.ones 9)) as ->.
  { apply Z.bits_inj'. intros i Hi. rewrite Z.land_spec. destruct (decide (i < 9)).
    - by rewrite Z.ones_spec_low, andb_true_r by lia.
    - unfold m. rewrite maskOf_spec, holds_out by (done || lia). done. }
  rewrite Z.land_ones by done. pose proof (Z.mod_pos_bound m (2 ^ 9)). unfold FULL. lia.
Qed.

Lemma masks_bitboards board mark :
  length board = 9%nat → bitboards (maskOf board mark) (maskOf board (other mark)).
Proof. split; by apply maskOf_bitboard. Qed.

Lemma null_not_held board mark i : is_null board i = true → holds board mark i = false.
Proof. unfold is_null, holds. intros H. bool_reflect. apply bool_decide_eq_false. congruence. Qed.

Lemma empty_is_null board mark i :
  length board = 9%nat →
  i ∈ emptyCells (Z.lor (maskOf board mark) (maskOf board (other mark))) ↔ 0 <= i < 9 ∧ is_null board i = true.
Proof.
  intros Hl. rewrite elem_of_emptyCells, Z.lor_spec, !maskOf_spec, orb_false_iff.
  split; [intros (Hi & H1 & H2) | intros (Hi & H)]; (split; [done|]).
  - unfold holds, is_null, cell in *. rewrite (proj2 (Z.ltb_ge i 0)) in * by lia.
    destruct (lookup_lt_is_Some_2 board (Z.to_nat i)) as [c Hc]; [lia|]. rewrite Hc in *.
    destruct c as [c|]; [|done]. bool_reflect. destruct mark, c; simpl in *; congruence.
  - split; by apply null_not_held.
Qed.

Lemma play_length board i mark : length (play board i mark) = length board.
Proof. unfold play. case_tests; [apply length_insert | done]. Qed.

Lemma canPlay_ok board i mark :
  canPlay board i mark = true ↔
  0 <= i < 9 ∧ is_null board i = true ∧ outcome board = None ∧ toMove board = mark.
Proof.
  unfold canPlay. rewrite !andb_true_iff, Z.leb_le, Z.ltb_lt, bool_decide_eq_true.
  destruct (outcome board); simpl; naive_solver.
Qed.

Lemma play_cell board i j mark :
  canPlay board i mark = true →
  cell (play board i mark) j = if bool_decide (i = j) then Some (Some mark) else cell board j.
Proof.
  intros Hc. unfold play. rewrite Hc. apply canPlay_ok in Hc as (Hi & Hn & _). unfold is_null, cell in *.
  rewrite (proj2 (Z.ltb_ge i 0)) in Hn by lia. bool_reflect.
  case_bool_decide as E; [subst j|]; destruct (_ <? 0) eqn:Ej; bool_reflect; try lia; try done.
  - rewrite list_lookup_insert_eq; [done|]. by eapply lookup_lt_Some.
  - rewrite list_lookup_insert_ne by lia. done.
Qed.

Lemma maskOf_play board i mark :
  canPlay board i mark = true →
  maskOf (play board i mark) mark = Z.lor (maskOf board mark) (bit i) ∧
  maskOf (play board i mark) (other mark) = maskOf board (other mark).
Proof.
  intros Hc. pose proof (proj1 (canPlay_ok _ _ _) Hc) as (Hi & Hn & _).
  split; apply Z.bits_inj'; intros j Hj; rewrite ?Z.lor_spec, !maskOf_spec, ?bit_spec by lia;
    (destruct (decide (i = j)) as [<-|Hne]; [|unfold holds; rewrite play_cell, (bool_decide_eq_false_2 (i = j)) by done]).
  - unfold holds. rewrite play_cell, (bool_decide_eq_true_2 (i = i)), orb_true_r by done. by apply bool_decide_eq_true.
  - by rewrite orb_false_r.
  - rewrite (null_not_held board) by done. unfold holds. rewrite play_cell, (bool_decide_eq_true_2 (i = i)) by done.
    apply bool_decide_eq_false. by destruct mark.
  - done.
Qed.

Lemma land_mask m a b c : 0 <= a → 0 <= b → 0 <= c →
  (Z.land m (line_mask (a, b, c)) =? line_mask (a, b, c)) = Z.testbit m a && Z.testbit m b && Z.testbit m c.
Proof.
  intros Ha Hb Hc. apply eq_true_iff_eq. rewrite Z.eqb_eq, !andb_true_iff.
  assert (∀ j, Z.testbit (line_mask (a, b, c)) j = bool_decide (a = j) || bool_decide (b = j) || bool_decide (c = j)) as Hl
    by (intros; unfold line_mask; by rewrite !Z.lor_spec, !bit_spec).
  split.
  - intros H. assert (∀ j, Z.testbit (line_mask (a, b, c)) j = true → Z.testbit m j = true) as Hj.
    { intros j Hj. rewrite <- H, Z.land_spec in Hj. by apply andb_true_iff in Hj as [? _]. }
    split_and!; apply Hj; rewrite Hl, !orb_true_iff, !bool_decide_eq_true; auto.
  - intros [[H1 H2] H3]. apply Z.bits_inj'. intros j _. rewrite Z.land_spec, Hl.
    repeat case_bool_decide; subst; rewrite ?H1, ?H2, ?H3; simpl; rewrite ?andb_true_r, ?andb_false_r; done.
Qed.

Lemma lines_nonneg a b c : (a, b, c) ∈ LINES → 0 <= a ∧ 0 <= b ∧ 0 <= c.
Proof.
  enough (Forall (λ l : Line, 0 <= l.1.1 ∧ 0 <= l.1.2 ∧ 0 <= l.2) LINES) as H.
  { intros Hin. by apply (proj1 (Forall_forall _ _) H) in Hin. }
  repeat constructor; simpl; lia.
Qed.

Lemma isWin_spec m :
  isWin m = true ↔ ∃ a b c, (a, b, c) ∈ LINES ∧ Z.testbit m a = true ∧ Z.testbit m b = true ∧ Z.testbit m c = true.
Proof.
  unfold isWin, LINE_MASKS. rewrite existsb_exists. split.
  - intros (w & Hw & H). apply in_map_iff in Hw as ([[a b] c] & <- & Hin%list_elem_of_In).
    pose proof (lines_nonneg _ _ _ Hin) as (? & ? & ?). rewrite land_mask in H by done. bool_reflect. eauto 10.
  - intros (a & b & c & Hin & H1 & H2 & H3). pose proof (lines_nonneg _ _ _ Hin) as (? & ? & ?).
    exists (line_mask (a, b, c)). split; [apply in_map, list_elem_of_In, Hin|]. rewrite land_mask by done.
    by rewrite H1, H2, H3.
Qed.

(** ** What the board functions find *)

Lemma first_line_some lines board mark l :
  first_line lines board = Some (mark, l) →
  l ∈ lines ∧ (let '(a, b, c) := l in holds board mark a = true ∧ holds board mark b = true ∧ holds board mark c = true).
Proof.
  induction lines as [|[[a b] c] lines IH]; simpl; [done|].
  destruct (cell board a) as [[m|]|] eqn:Ea; [|intros [H ?]%IH; split; [by right|done]..].
  destruct (_ && _) eqn:E; [|intros [H ?]%IH; split; [by right|done]].
  intros [= -> <-]. bool_reflect. split; [by left|]. unfold holds. rewrite Ea. split_and!; by apply bool_decide_eq_true.
Qed.

Lemma outcome_win board mark l : outcome board = Some (win mark l) → isWin (maskOf board mark) = true.
Proof.
  unfold outcome, winner. destruct (first_line LINES board) as [[m k]|] eqn:E; [|by destruct (forallb _ _)].
  intros [= -> ->]. apply first_line_some in E as [Hin H]. destruct l as [[a b] c].
  apply isWin_spec. exists a, b, c. by rewrite !maskOf_spec.
Qed.

Lemma first_line_none lines board mark a b c :
  first_line lines board = None → (a, b, c) ∈ lines →
  holds board mark a = true → holds board mark b = true → holds board mark c = true → False.
Proof.
  intros H Hin Ha Hb Hc. unfold holds in *. bool_reflect.
  induction lines as [|[[x y] z] lines IH]; [by apply not_elem_of_nil in Hin|]. simpl in H.
  apply elem_of_cons in Hin as [[= <- <- <-]|Hin].
  - by rewrite Ha, Hb, Hc, bool_decide_eq_true_2 in H.
  - apply IH; [|done]. by destruct (cell board x) as [[m|]|]; [destruct (_ && _)|..].
Qed.

Lemma outcome_none board mark : outcome board = None → isWin (maskOf board mark) = false.
Proof.
  unfold outcome, winner. destruct (first_line LINES board) as [[m k]|] eqn:E; [done|]. intros _.
  apply not_true_iff_false. intros (a & b & c & Hin & H)%isWin_spec. rewrite !maskOf_spec in H.
  destruct H as (? & ? & ?). by eapply first_line_none.
Qed.

Lemma winning_in_some lines board mark i :
  winning_in lines board mark = Some i →
  ∃ a b c, (a, b, c) ∈ lines ∧ is_null board i = true ∧ i ∈ [a; b; c] ∧
    ∀ j, j ∈ [a; b; c] → j = i ∨ holds board mark j = true.
Proof.
  induction lines as [|[[a b] c] lines IH]; cbn [winning_in]; [done|].
  assert (winning_in lines board mark = Some i → ∃ a0 b0 c0, (a0, b0, c0) ∈ (a, b, c) :: lines ∧
    is_null board i = true ∧ i ∈ [a0; b0; c0] ∧ ∀ j, j ∈ [a0; b0; c0] → j = i ∨ holds board mark j = true) as Hrest.
  { intros (x & y & z & Hin & H)%IH. exists x, y, z. split; [by right|done]. }
  destruct (List.filter (is_null board) [a; b; c]) as [|e [|? ?]] eqn:En; [done| |done].
  destruct (Nat.eqb _ 2) eqn:E2; [|done]. intros [= ->]. exists a, b, c. split; [by left|].
  apply Nat.eqb_eq in E2.
  assert (i ∈ List.filter (is_null board) [a; b; c]) as Hi by (rewrite En; by left).
  apply list_elem_of_In, filter_In in Hi as [Hi Hn]. split; [done|]. split; [by apply list_elem_of_In|].
  intros j Hj.
  pose proof (null_not_held board mark a). pose proof (null_not_held board mark b). pose proof (null_not_held board mark c).
  simpl in En, E2. destruct (is_null board a), (is_null board b), (is_null board c),
    (holds board mark a) eqn:Ea, (holds board mark b) eqn:Eb, (holds board mark c) eqn:Ec;
    simpl in *; try (discriminate || (exfalso; intuition discriminate));
    injection En as ->; rewrite !elem_of_cons in Hj; destruct Hj as [-> | [-> | [-> | Hj]]]; auto; by apply not_elem_of_nil in Hj.
Qed.

Lemma is_null_range board i : length board = 9%nat → is_null board i = true → 0 <= i < 9.
Proof.
  unfold is_null, cell. intros Hl H. bool_reflect. destruct (i <? 0) eqn:E; bool_reflect; [done|].
  apply lookup_lt_Some in H. lia.
Qed.

Lemma winning_wins board mark i :
  length board = 9%nat → winningCell board mark = Some i →
  (0 <= i < 9 ∧ is_null board i = true) ∧ isWin (Z.lor (maskOf board mark) (bit i)) = true.
Proof.
  intros Hl (a & b & c & Hin & Hn & Hi & H)%winning_in_some. pose proof (is_null_range _ _ Hl Hn) as Hr.
  split; [done|]. apply isWin_spec. exists a, b, c. split; [done|].
  assert (∀ j, j ∈ [a; b; c] → Z.testbit (Z.lor (maskOf board mark) (bit i)) j = true) as Hb.
  { intros j [-> | Hj]%H; rewrite Z.lor_spec, maskOf_spec, bit_spec by lia; [|by rewrite Hj].
    rewrite bool_decide_eq_true_2 by done. apply orb_true_r. }
  split_and!; apply Hb; rewrite !elem_of_cons; auto.
Qed.

(** ** Picking *)

Lemma pickFrom_in {A} (l : list A) d x : pickFrom l d = Some x → x ∈ l.
Proof. unfold pickFrom. destruct (_ <? 0); [done|]. apply list_elem_of_lookup_2. Qed.

Lemma round_nonneg m : 0 <= m → 0 <= round m.
Proof.
  intros H. unfold round. cbv zeta. destruct (Z.log2 m - 52 <=? 0) eqn:E; bool_reflect; [done|].
  assert (0 < 2 ^ (Z.log2 m - 52)) by (apply Z.pow_pos_nonneg; lia).
  assert (0 <= m / 2 ^ (Z.log2 m - 52)) by (apply Z.div_pos; lia). case_tests; nia.
Qed.

Lemma pickFrom_some {A} (l : list A) d : l ≠ [] → 0 <= d → ∃ x, pickFrom l d = Some x.
Proof.
  intros Hl Hd. unfold pickFrom. destruct l as [|y l]; [done|].
  assert (0 <= round (d * Z.of_nat (length (y :: l))) / ONE).
  { apply Z.div_pos; [apply round_nonneg; simpl; lia | done]. }
  rewrite (proj2 (Z.ltb_ge _ _)) by (simpl length in *; lia).
  apply lookup_lt_is_Some_2. simpl length in *. lia.
Qed.

Lemma pick_index_in l d i : pick_index l d = Ok i → ∃ m, m ∈ l ∧ m.(ScoredMove.index) = i.
Proof. unfold pick_index. destruct (pickFrom l d) eqn:E; intros [= <-]. eauto using pickFrom_in. Qed.

Lemma pick_index_ok l d : l ≠ [] → 0 <= d → ∃ i, pick_index l d = Ok i.
Proof. intros Hl Hd. unfold pick_index. destruct (pickFrom_some l d Hl Hd) as [x ->]. eauto. Qed.

Lemma score_eqb_eq a b : score_eqb a b = true ↔ a = b.
Proof.
  unfold score_eqb. rewrite andb_true_iff, !negb_true_iff. split.
  - intros [H1 H2]. change (sle a b) in H1. change (sle b a) in H2. order_by H1 H2.
  - intros ->. split; apply sle_refl.
Qed.

Lemma elem_of_scoring s l m : m ∈ scoring s l ↔ m ∈ l ∧ m.(ScoredMove.score) = s.
Proof. unfold scoring. by rewrite list_elem_of_In, filter_In, <- list_elem_of_In, score_eqb_eq. Qed.

Lemma best_scoring l : l ≠ [] → scoring (best_score l) l ≠ [].
Proof.
  intros Hl E. assert (best_score l ∈ map ScoredMove.score l) as H.
  { apply best_of_in. by intros ?%map_eq_nil. }
  apply list_elem_of_In, in_map_iff in H as (m & Hm & Hin%list_elem_of_In).
  assert (m ∈ scoring (best_score l) l) as Hs by by apply elem_of_scoring.
  rewrite E in Hs. by apply not_elem_of_nil in Hs.
Qed.

(** ** What is chosen *)

Lemma scoreMoves_elem board mark m :
  m ∈ scoreMoves board mark ↔
  m.(ScoredMove.index) ∈ emptyCells (Z.lor (maskOf board mark) (maskOf board (other mark))) ∧
  m.(ScoredMove.score) = neg (negamax DEPTH (maskOf board (other mark))
    (Z.lor (maskOf board mark) (bit m.(ScoredMove.index))) 1 MinusInfinity PlusInfinity).
Proof.
  unfold scoreMoves. rewrite list_elem_of_In, in_map_iff. split.
  - intros (i & <- & Hi). by rewrite list_elem_of_In.
  - destruct m as [i s]. simpl. intros [Hi ->]. exists i. by rewrite <- list_elem_of_In.
Qed.

Lemma empty_board_all board : length board = 9%nat → forallb (λ c : Cell, bool_decide (c = None)) board = true → board = emptyBoard.
Proof.
  intros Hl H. unfold emptyBoard. rewrite <- Hl. clear Hl. induction board as [|c board IH]; simpl in *; [done|].
  bool_reflect. subst. f_equal. auto.
Qed.

Lemma strong_opening mark :
  List.filter (λ m, Z.rem m.(ScoredMove.index) 2 =? 0)
    (scoring (best_score (scoreMoves emptyBoard mark)) (scoreMoves emptyBoard mark)) ≠ [].
Proof.
  assert (scoreMoves emptyBoard mark = scoreMoves emptyBoard X) as -> by by destruct mark.
  intros H. apply (f_equal (λ l, length l)) in H. revert H.
  assert (Nat.eqb (length (List.filter (λ m, Z.rem m.(ScoredMove.index) 2 =? 0)
    (scoring (best_score (scoreMoves emptyBoard X)) (scoreMoves emptyBoard X)))) 0 = false) as E%Nat.eqb_neq by (vm_compute; reflexivity).
  done.
Qed.

#[local] Arguments scoreMoves : simpl never.
#[local] Arguments negamax : simpl never.

Section Chosen.
Context (rand : nat → Z) (Hrand : ∀ n, 0 <= rand n).

Lemma pickBest_in board level best n i n' :
  pickBest rand board level best n = Ok (i, n') → ∃ m, m ∈ best ∧ m.(ScoredMove.index) = i.
Proof.
  unfold pickBest. destruct (_ && _); intros H; inv_ok H; simplify_eq; apply pick_index_in in E as (m & Hm & <-); [|by eauto].
  exists m. split; [|done]. destruct (_ <? _); [|done]. by apply list_elem_of_In, filter_In in Hm as [Hm%list_elem_of_In _].
Qed.

Lemma pickBest_ok board mark level n :
  length board = 9%nat → scoreMoves board mark ≠ [] →
  ∃ i n', pickBest rand board level (scoring (best_score (scoreMoves board mark)) (scoreMoves board mark)) n = Ok (i, n').
Proof.
  intros Hl Hs. unfold pickBest. pose proof (best_scoring _ Hs) as Hb.
  destruct (bool_decide (level = spicy) && _) eqn:E.
  - bool_reflect. assert (board = emptyBoard) as -> by by apply empty_board_all. pose proof (strong_opening mark) as Hst.
    set (best := scoring _ _) in *. clearbody best.
    destruct (pick_index_ok (if rand n <? STRONG_RATE then List.filter (λ m, Z.rem m.(ScoredMove.index) 2 =? 0) best
      else best) (rand (S n))) as [i ->]; [by case_tests | done | cbn [bind]; eauto].
  - destruct (pick_index_ok _ (rand n) Hb) as [i ->]; [done | cbn [bind]; eauto].
Qed.

Lemma chooseMove_winning board mark level memory n i :
  scoreMoves board mark ≠ [] → winningCell board mark = Some i →
  chooseMove rand board mark level memory n = Ok (i, Memory.mk false, n).
Proof.
  intros Hs Hw. unfold chooseMove. rewrite Hw. destruct (scoreMoves board mark); [done|]. done.
Qed.

(** Every choice is the winning cell or one of the scored moves; the hardest
    level takes a best one. *)
Lemma chooseMove_in board mark level memory n i memory' n' :
  length board = 9%nat →
  chooseMove rand board mark level memory n = Ok (i, memory', n') →
  winningCell board mark = Some i ∨
  winningCell board (other mark) = Some i ∧ level = chill ∨
  ∃ m, m ∈ scoreMoves board mark ∧ m.(ScoredMove.index) = i ∧
    (level = spicy → m.(ScoredMove.score) = best_score (scoreMoves board mark)).
Proof.
  intros Hl. unfold chooseMove. set (scored := scoreMoves board mark).
  destruct (Nat.eqb (length scored) 0); [done|]. destruct (winningCell board mark) as [w|]; [intros [= -> _ _]; auto|].
  set (bestMoves := scoring _ _). set (block := winningCell board (other mark)).
  cbv zeta. set (mustBlock := _ && _ && _). set (certain := bool_decide (level = spicy) || mustBlock). set (n1 := if certain then n else S n).
  assert (∀ n i n', pickBest rand board level bestMoves n = Ok (i, n') →
    ∃ m, m ∈ scored ∧ m.(ScoredMove.index) = i ∧ (level = spicy → m.(ScoredMove.score) = best_score scored)) as Hpick.
  { intros n0 i0 n0' (m & [Hm Hs]%elem_of_scoring & <-)%pickBest_in. eauto. }
  destruct (certain || _) eqn:Ec.
  - assert (bind (pickBest rand board level bestMoves n1) (λ '(i, n), Ok (i, Memory.mk false, n)) = Ok (i, memory', n') →
      ∃ m, m ∈ scored ∧ m.(ScoredMove.index) = i ∧ (level = spicy → m.(ScoredMove.score) = best_score scored)) as Hp.
    { intros H. inv_ok H. destruct a as [j k]. simplify_eq. by eapply Hpick. }
    destruct block as [b|] eqn:Eb; [|by eauto].
    destruct mustBlock eqn:Em; [|by eauto]. intros [= -> _ _]. right; left. split; [done|].
    unfold mustBlock in Em. by bool_reflect.
  - assert (level ≠ spicy) as Hns.
    { intros ->. unfold certain in Ec. by rewrite bool_decide_eq_true_2 in Ec by done. }
    destruct (Nat.eqb _ 0); intros H; inv_ok H.
    + destruct a as [j k]. simplify_eq. right; right. by eapply Hpick.
    + simplify_eq. apply pick_index_in in E as (m & [Hm _]%elem_of_scoring & <-).
      apply list_elem_of_In, filter_In in Hm as [Hm%list_elem_of_In _]. right; right. exists m. done.
Qed.

Lemma chooseMove_ok board mark level memory n :
  length board = 9%nat → scoreMoves board mark ≠ [] →
  ∃ i memory' n', chooseMove rand board mark level memory n = Ok (i, memory', n').
Proof.
  intros Hl Hs. destruct (winningCell board mark) as [w|] eqn:Ew.
  { rewrite (chooseMove_winning _ _ _ _ _ w) by done. eauto. }
  unfold chooseMove. rewrite Ew. set (scored := scoreMoves board mark) in *.
  assert (Nat.eqb (length scored) 0 = false) as -> by (apply Nat.eqb_neq; by destruct scored).
  cbv zeta. set (mustBlock := _ && _ && _). set (certain := bool_decide (level = spicy) || mustBlock). set (n1 := if certain then n else S n).
  destruct (pickBest_ok board mark level n1 Hl Hs) as (i & n' & Hp). fold scored in Hp. rewrite Hp. simpl.
  destruct (certain || _); [destruct (winningCell board (other mark)); case_tests; eauto|].
  destruct (Nat.eqb _ 0) eqn:E0; [eauto|].
  set (worse := List.filter _ _) in *.
  destruct (pick_index_ok (scoring (best_score worse) worse) (rand n1)) as [j ->]; simpl; eauto.
  apply best_scoring. intros Hw. by rewrite Hw in E0.
Qed.
End Chosen.

(** ** A game against the hardest level

    The opponent plays any legal cell, Bam Bam what [chooseMove] chooses, for any
    draws and memory. *)
Inductive spicy_game (mark : Mark) : Board → Prop :=
| game_start : spicy_game mark emptyBoard
| game_theirs board i :
    spicy_game mark board → canPlay board i (other mark) = true → spicy_game mark (play board i (other mark))
| game_ours board rand n memory i memory' n' :
    spicy_game mark board → outcome board = None → toMove board = mark → (∀ k, 0 <= rand k) →
    chooseMove rand board mark spicy memory n = Ok (i, memory', n') → spicy_game mark (play board i mark).

(** The value of the position for the player about to move *)
Definition position_sign (board : Board) (mover : Mark) : Z :=
  sign (negamax DEPTH (maskOf board mover) (maskOf board (other mover)) 0 MinusInfinity PlusInfinity).

Lemma other_other mark : other (other mark) = mark.
Proof. by destruct mark. Qed.

Lemma sign_mono s t : sle s t → sign s <= sign t.
Proof.
  rewrite sle_key. destruct s as [|x|], t as [|y|]; simpl; intros H; try lia;
    try (pose proof (Z.sgn_spec x)); try (pose proof (Z.sgn_spec y)); lia.
Qed.

Lemma position_lost board mover :
  length board = 9%nat → isWin (maskOf board (other mover)) = true → position_sign board mover = -1.
Proof.
  intros Hl Hw. unfold position_sign. pose proof (masks_bitboards board mover Hl) as Hb.
  rewrite (Value_unique _ _ _ _ _ (negamax_full _ _ 0 Hb) (Value_lost _ _ 0 Hw)). done.
Qed.

(** A move is worth the opposite of the position it leads to, and the mover's
    position the best of the moves. *)
Lemma position_moves board mark :
  length board = 9%nat → isWin (maskOf board (other mark)) = false → scoreMoves board mark ≠ [] →
  position_sign board mark = sign (best_score (scoreMoves board mark)).
Proof.
  intros Hl Hw Hs. unfold position_sign. pose proof (masks_bitboards board mark Hl) as Hb.
  set (me := maskOf board mark) in *. set (opp := maskOf board (other mark)) in *.
  assert (Z.lor me opp ≠ FULL) as Hf.
  { intros E. apply Hs. unfold scoreMoves. fold me opp. by rewrite E. }
  assert (Value me opp 0 (best_of (map (λ i, neg (negamax DEPTH opp (Z.lor me (bit i)) 1 MinusInfinity PlusInfinity))
    (emptyCells (Z.lor me opp))))) as Hv.
  { apply Value_moves; [done|done|]. intros i Hi. apply negamax_full. by apply bitboards_play. }
  rewrite (Value_unique _ _ _ _ _ (negamax_full _ _ 0 Hb) Hv). unfold best_score, scoreMoves.
  fold me opp. by rewrite map_map.
Qed.

Lemma position_after board i mark :
  length board = 9%nat → canPlay board i mark = true →
  position_sign (play board i mark) (other mark)
    = sign (negamax DEPTH (maskOf board (other mark)) (Z.lor (maskOf board mark) (bit i)) 1 MinusInfinity PlusInfinity).
Proof.
  intros Hl Hc. unfold position_sign. rewrite other_other.
  destruct (maskOf_play _ _ _ Hc) as [-> ->].
  pose proof (proj1 (canPlay_ok _ _ _) Hc) as (Hi & Hn & _).
  assert (i ∈ emptyCells (Z.lor (maskOf board mark) (maskOf board (other mark)))) as Hin by by apply empty_is_null.
  pose proof (bitboards_play _ _ _ (masks_bitboards board mark Hl) Hin) as Hb.
  pose proof (emptyCells_play _ _ _ Hin). pose proof (emptyCells_length (Z.lor (maskOf board mark) (maskOf board (other mark)))).
  unfold DEPTH in *. eapply Value_sign; [by apply negamax_full | by apply negamax_full | lia | lia].
Qed.

Lemma playable board i mark m :
  length board = 9%nat → outcome board = None → toMove board = mark → m ∈ scoreMoves board mark →
  m.(ScoredMove.index) = i → canPlay board i mark = true.
Proof.
  intros Hl Ho Ht [Hi _]%scoreMoves_elem <-. apply empty_is_null in Hi as [? ?]; [|done]. by apply canPlay_ok.
Qed.

Lemma winning_playable board i mark :
  length board = 9%nat → outcome board = None → toMove board = mark → winningCell board mark = Some i →
  canPlay board i mark = true ∧ position_sign (play board i mark) (other mark) = -1.
Proof.
  intros Hl Ho Ht Hw. apply winning_wins in Hw as [[Hi Hn] Hw]; [|done].
  assert (canPlay board i mark = true) as Hc by by apply canPlay_ok. split; [done|].
  apply position_lost; [by rewrite play_length|]. rewrite other_other. by destruct (maskOf_play _ _ _ Hc) as [-> _].
Qed.

Lemma opening_even : position_sign emptyBoard X = 0.
Proof. vm_compute. reflexivity. Qed.

Definition balanced (board : Board) : Prop := count board X = count board O ∨ count board X = S (count board O).

(** No line of the opponent's, and the position is not lost for Bam Bam. *)
Definition not_losing (mark : Mark) (board : Board) : Prop :=
  length board = 9%nat ∧ balanced board ∧ isWin (maskOf board (other mark)) = false ∧
  (toMove board = mark → 0 <= position_sign board mark) ∧
  (toMove board = other mark → position_sign board (other mark) <= 0).

Lemma count_play board i mark m :
  canPlay board i mark = true →
  count (play board i mark) m = (count board m + if decide (m = mark) then 1 else 0)%nat.
Proof.
  intros Hc. unfold play. rewrite Hc. apply canPlay_ok in Hc as (Hi & Hn & _ & _).
  unfold is_null, cell in Hn. rewrite (proj2 (Z.ltb_ge i 0)) in Hn by lia. bool_reflect.
  unfold count. revert Hn. generalize (Z.to_nat i) as k. clear.
  induction board as [|c board IH]; intros [|k] H; simpl in *; try done.
  - injection H as ->. destruct (decide (m = mark)) as [->|]; simpl.
    + rewrite bool_decide_eq_true_2 by done. simpl. lia.
    + rewrite bool_decide_eq_false_2 by congruence. lia.
  - specialize (IH _ H). case_bool_decide; simpl; lia.
Qed.

Lemma toMove_play board i mark :
  balanced board → canPlay board i mark = true →
  balanced (play board i mark) ∧ toMove (play board i mark) = other mark.
Proof.
  intros Hb Hc. pose proof (proj1 (canPlay_ok _ _ _) Hc) as (_ & _ & _ & Ht).
  unfold balanced, toMove in *. rewrite !count_play by done. revert Ht.
  destruct (Nat.eqb_spec (count board X) (count board O)) as [E|E]; intros <-; simpl;
    rewrite ?Nat.add_0_r, ?Nat.add_1_r.
  - rewrite E. split; [by right|]. by rewrite (proj2 (Nat.eqb_neq _ _)) by lia.
  - destruct Hb as [Hb|Hb]; [done|]. rewrite Hb. split; [by left|]. by rewrite Nat.eqb_refl.
Qed.

Lemma not_losing_theirs mark board i :
  not_losing mark board → canPlay board i (other mark) = true → not_losing mark (play board i (other mark)).
Proof.
  intros (Hl & Hb & Hw & _ & Hpos) Hc. pose proof (toMove_play _ _ _ Hb Hc) as [Hb' Ht]. rewrite other_other in Ht.
  pose proof (proj1 (canPlay_ok _ _ _) Hc) as (Hi & Hn & Ho & Hmove). specialize (Hpos Hmove).
  pose proof (play_length board i (other mark)) as Hl'.
  assert (0 <= position_sign (play board i (other mark)) mark) as Hs.
  { pose proof (position_after _ _ _ Hl Hc) as Ha. rewrite other_other in Ha. rewrite Ha.
    set (s := negamax _ _ _ _ _ _) in *.
    assert (ScoredMove.mk i (neg s) ∈ scoreMoves board (other mark)) as Hin.
    { apply scoreMoves_elem. split; [by apply empty_is_null|]. by rewrite other_other. }
    rewrite position_moves in Hpos by (first [done | by apply outcome_none | intros E; rewrite E in Hin; by apply not_elem_of_nil in Hin]).
    assert (sle (neg s) (best_score (scoreMoves board (other mark)))) as Hle.
    { apply best_of_ge. apply list_elem_of_In, in_map_iff. exists (ScoredMove.mk i (neg s)).
      split; [done|]. by apply list_elem_of_In. }
    apply sign_mono in Hle. rewrite sign_neg in Hle. lia. }
  split_and!; [lia|done| |intros _; exact Hs|].
  - apply not_true_iff_false. intros E. rewrite (position_lost _ mark) in Hs by (done || lia). lia.
  - intros E. rewrite Ht in E. by destruct mark.
Qed.

Lemma not_losing_ours mark board rand n memory i memory' n' :
  not_losing mark board → outcome board = None → toMove board = mark → (∀ k, 0 <= rand k) →
  chooseMove rand board mark spicy memory n = Ok (i, memory', n') → not_losing mark (play board i mark).
Proof.
  intros (Hl & Hb & Hw & Hpos & _) Ho Ht Hr Hc. specialize (Hpos Ht).
  assert (canPlay board i mark = true ∧ position_sign (play board i mark) (other mark) <= 0) as [Hp Hs].
  { apply chooseMove_in in Hc as [Hc | [[_ Hc] | (m & Hm & <- & Hbest)]]; [|done| |done].
    - apply winning_playable in Hc as [? ->]; [|done..]. split; [done|lia].
    - pose proof (playable _ _ _ _ Hl Ho Ht Hm eq_refl) as Hp. split; [done|].
      rewrite position_after by done. apply scoreMoves_elem in Hm as Hm'. destruct Hm' as [_ Hs].
      rewrite position_moves in Hpos by (first [done | intros E; rewrite E in Hm; by apply not_elem_of_nil in Hm]).
      rewrite <- Hbest, Hs, sign_neg in Hpos by done. lia. }
  pose proof (toMove_play _ _ _ Hb Hp) as [Hb' Ht'].
  split_and!; [by rewrite play_length|done| | |intros _; exact Hs].
  - by destruct (maskOf_play _ _ _ Hp) as [_ ->].
  - intros E. rewrite Ht' in E. by destruct mark.
Qed.

Lemma spicy_not_losing mark board : spicy_game mark board → not_losing mark board.
Proof.
  induction 1 as [|board i _ IH Hc|board rand n memory i memory' n' _ IH Ho Ht Hr Hc].
  - split_and!; [done|by left|by destruct mark| |]; intros E; change (toMove emptyBoard) with X in E.
    + subst. by rewrite opening_even.
    + rewrite <- E. by rewrite opening_even.
  - by apply not_losing_theirs.
  - by eapply not_losing_ours.
Qed.

Lemma not_losing_never mark board line : not_losing mark board → outcome board ≠ Some (win (other mark) line).
Proof. intros (_ & _ & Hw & _) Ho%outcome_win. by rewrite Ho in Hw. Qed.

(** While the game is open there is an empty cell. *)
Lemma open_cell board : length board = 9%nat → outcome board = None → ∃ i, 0 <= i < 9 ∧ is_null board i = true.
Proof.
  intros Hl. unfold outcome. destruct (winner board) as [[m l]|]; [done|].
  destruct (forallb _ board) eqn:E; [done|]. intros _.
  assert (None ∈ board) as [k Hk]%list_elem_of_lookup_1.
  { clear Hl. induction board as [|c board IH]; simpl in *; [done|]. destruct c; simpl in *; [|by left]. right. auto. }
  exists (Z.of_nat k). apply lookup_lt_Some in Hk as Hlt. split; [lia|]. unfold is_null, cell.
  rewrite (proj2 (Z.ltb_ge _ 0)), Nat2Z.id by lia. by apply bool_decide_eq_true.
Qed.

Lemma open_scored board mark : length board = 9%nat → outcome board = None → scoreMoves board mark ≠ [].
Proof.
  intros Hl Ho E. destruct (open_cell board Hl Ho) as (i & Hi & Hn).
  assert (i ∈ emptyCells (Z.lor (maskOf board mark) (maskOf board (other mark)))) as Hin by by apply empty_is_null.
  unfold scoreMoves in E. apply map_eq_nil in E. rewrite E in Hin. by apply not_elem_of_nil in Hin.
Qed.

Lemma choice_playable rand board mark level memory n i memory' n' :
  length board = 9%nat → outcome board = None → toMove board = mark →
  chooseMove rand board mark level memory n = Ok (i, memory', n') → canPlay board i mark = true.
Proof.
  intros Hl Ho Ht [Hc | [[Hc _] | (m & Hm & <- & _)]]%chooseMove_in; [| | |done].
  - by apply winning_playable.
  - apply winning_wins in Hc as [[Hi Hn] _]; [|done]. by apply canPlay_ok.
  - by eapply playable.
Qed.

(** ** Games end *)

Definition moves (board' board : Board) : Prop := ∃ i mark, canPlay board i mark = true ∧ board' = play board i mark.

Definition free (board : Board) : nat := length (List.filter (λ c : Cell, bool_decide (c = None)) board).

Lemma free_play board i mark : canPlay board i mark = true → free board = S (free (play board i mark)).
Proof.
  intros Hc. unfold play. rewrite Hc. apply canPlay_ok in Hc as (Hi & Hn & _ & _).
  unfold is_null, cell in Hn. rewrite (proj2 (Z.ltb_ge i 0)) in Hn by lia. bool_reflect.
  unfold free. revert Hn. generalize (Z.to_nat i) as k. clear.
  induction board as [|c board IH]; intros [|k] H; simpl in *; try done.
  - injection H as ->. done.
  - specialize (IH _ H). case_bool_decide; simpl; lia.
Qed.

Lemma isWin_winner board mark : isWin (maskOf board mark) = true → winner board ≠ None.
Proof.
  intros (a & b & c & Hin & H)%isWin_spec Hn. rewrite !maskOf_spec in H. destruct H as (? & ? & ?).
  by eapply first_line_none.
Qed.

Lemma winning_ends board mark i :
  length board = 9%nat → outcome board = None → toMove board = mark → winningCell board mark = Some i →
  ∃ line, outcome (play board i mark) = Some (win mark line).
Proof.
  intros Hl Ho Ht Hw. pose proof (winning_playable _ _ _ Hl Ho Ht Hw) as [Hc _].
  pose proof (winning_wins _ _ _ Hl Hw) as [_ Hline]. destruct (maskOf_play _ _ _ Hc) as [Hm Hm'].
  destruct (winner (play board i mark)) as [[m line]|] eqn:E.
  - exists line. unfold outcome. rewrite E. destruct (decide (m = mark)) as [->|Hne]; [done|]. exfalso.
    assert (isWin (maskOf (play board i mark) m) = true) as Hwin.
    { apply (outcome_win _ _ line). unfold outcome. by rewrite E. }
    assert (m = other mark) as -> by by destruct m, mark.
    rewrite Hm', outcome_none in Hwin by done. done.
  - exfalso. by apply (isWin_winner (play board i mark) mark); rewrite ?Hm.
Qed.

(** ** Properties *)

(** The alpha-beta search returns the value of the position by the rules: exactly
    with an open window, and otherwise a bound on the side where it falls.  The
    value is unique, and any fuel above the number of empty cells gives it. *)
Theorem negamax_exact (fuel : nat) (me opp depth : Z) (alpha beta : score) :
  bitboards me opp → (length (emptyCells (Z.lor me opp)) < fuel)%nat → gtb beta alpha = true →
  ∃ v, Value me opp depth v ∧ (∀ w, Value me opp depth w → w = v) ∧
    negamax fuel me opp depth MinusInfinity PlusInfinity = v ∧
    within v (negamax fuel me opp depth alpha beta) alpha beta.
Proof.
  intros Hb Hf Hab. destruct (negamax_within fuel me opp depth Hb Hf) as (v & Hv & Hz & Hw).
  exists v. split; [done|]. split; [intros w Hw'; by eapply Value_unique|]. split.
  - apply within_full; [done|]. by apply Hw.
  - apply Hw. order_by Hab.
Qed.

Lemma negamax_exact_witness :
  ∃ v, Value 17 10 0 v ∧ (∀ w, Value 17 10 0 w → w = v) ∧
    negamax DEPTH 17 10 0 MinusInfinity PlusInfinity = v ∧
    within v (negamax DEPTH 17 10 0 (Points (-1)) (Points 1)) (Points (-1)) (Points 1).
Proof.
  apply (negamax_exact DEPTH 17 10 0 (Points (-1)) (Points 1)).
  - split; vm_compute; split; congruence.
  - apply Nat.ltb_lt. reflexivity.
  - reflexivity.
Defined.

(** On the hardest level Bam Bam never loses: in no game from the empty board,
    whoever opens, whatever legal cells the opponent plays and whatever the
    random draws are, does the opponent get a line. *)
Theorem spicy_never_loses (mark : Mark) (board : Board) (line : Line) :
  spicy_game mark board → outcome board ≠ Some (win (other mark) line).
Proof. intros H. by apply not_losing_never, spicy_not_losing. Qed.

Lemma sample_reply :
  chooseMove (λ _, 5) (play emptyBoard 4 X) O spicy (Memory.mk false) 0 = Ok (0, Memory.mk false, 1%nat).
Proof. vm_compute. reflexivity. Qed.

Lemma spicy_never_loses_witness :
  outcome (play (play emptyBoard 4 X) 0 O) ≠ Some (win (other O) (0, 1, 2)).
Proof.
  apply (spicy_never_loses O (play (play emptyBoard 4 X) 0 O) (0, 1, 2)).
  apply (game_ours O (play emptyBoard 4 X) (λ _, 5) 0 (Memory.mk false) 0 (Memory.mk false) 1);
    [|reflexivity|reflexivity|intros _; lia|exact sample_reply].
  apply (game_theirs O emptyBoard 4); [apply game_start | reflexivity].
Defined.

(** Whenever it is his turn in an open game, Bam Bam has a move on every level,
    and it is legal.  He takes a win when he has one, which ends the game, and
    on the easiest level he never misses a block twice in a row. *)
Theorem chooseMove_spec (rand : nat → Z) (board : Board) (mark : Mark) (level : Level) (memory : Memory.t) (n : nat) :
  (∀ k, 0 <= rand k) → length board = 9%nat → outcome board = None → toMove board = mark →
  ∃ i memory' n', chooseMove rand board mark level memory n = Ok (i, memory', n') ∧ canPlay board i mark = true ∧
    (∀ w, winningCell board mark = Some w →
      i = w ∧ ∃ line, outcome (play board i mark) = Some (win mark line)) ∧
    (∀ b, winningCell board mark = None → winningCell board (other mark) = Some b →
      level = chill → memory.(Memory.missedBlock) = true → i = b).
Proof.
  intros Hr Hl Ho Ht. pose proof (open_scored board mark Hl Ho) as Hs.
  destruct (chooseMove_ok rand Hr board mark level memory n Hl Hs) as (i & memory' & n' & Hc).
  exists i, memory', n'. split; [done|]. split; [by eapply choice_playable|]. split.
  - intros w Hw. rewrite (chooseMove_winning _ _ _ _ _ _ w) in Hc by done. simplify_eq.
    split; [done|]. by apply winning_ends.
  - intros b Hnw Hb -> Hm. unfold chooseMove in Hc. rewrite Hnw, Hb, Hm in Hc. by destruct (Nat.eqb _ 0); simplify_eq/=.
Qed.

Definition sample_board : Board := [Some X; Some X; None; Some O; None; None; None; Some O; None].

Lemma chooseMove_spec_witness :
  ∃ i memory' n', chooseMove (λ _, 5) sample_board X chill (Memory.mk true) 0 = Ok (i, memory', n') ∧
    canPlay sample_board i X = true ∧
    (∀ w, winningCell sample_board X = Some w →
      i = w ∧ ∃ line, outcome (play sample_board i X) = Some (win X line)) ∧
    (∀ b, winningCell sample_board X = None → winningCell sample_board (other X) = Some b →
      chill = chill → Memory.missedBlock (Memory.mk true) = true → i = b).
Proof.
  apply (chooseMove_spec (λ _, 5) sample_board X chill (Memory.mk true) 0); [intros _; lia | reflexivity..].
Defined.

(** A game ends: legal moves from a board of nine cells are at most its empty
    cells, and as long as there is no outcome the player to move has one. *)
Theorem games_end (board board' : Board) (n : nat) :
  length board = 9%nat → nsteps (λ x y, moves y x) n board board' →
  (n <= free board)%nat ∧ (outcome board' = None → ∃ i, canPlay board' i (toMove board') = true).
Proof.
  intros Hl H. enough (n + free board' = free board ∧ length board' = 9)%nat as [Hf Hl'].
  { split; [lia|]. intros Ho. destruct (open_cell board' Hl' Ho) as (i & Hi & Hn). exists i. by apply canPlay_ok. }
  induction H as [board|n board mid board' (i & mark & Hc & ->) _ IH]; [lia|].
  destruct IH as [IH ?]; [by rewrite play_length|]. rewrite (free_play _ _ _ Hc). lia.
Qed.

Lemma games_end_witness :
  (1 <= free emptyBoard)%nat ∧
  (outcome (play emptyBoard 4 X) = None → ∃ i, canPlay (play emptyBoard 4 X) i (toMove (play emptyBoard 4 X)) = true).
Proof.
  apply (games_end emptyBoard (play emptyBoard 4 X) 1); [reflexivity|].
  apply nsteps_once. exists 4, X. split; reflexivity.
Defined.
